(* ===== verification/_CoqProject ===== *)
-Q . S2P
Prelude.v
Wire.v
Varint.v
Utf8.v
Scalars.v
Collections.v
Records.v
Batch.v
RecordSet.v
StorageIndex.v
StorageLog.v
StorageSegment.v
StorageCheckpoint.v
StorageReplica.v
StorageReplicaLaws.v
SpuStorage.v
Replication.v
ReplicationLaws.v
Names.v
EpochMap.v
MetadataStore.v
MetadataSync.v
ClusterTypes.v
SpuStore.v
SpuControl.v
ScPartitions.v
Topics.v
ScTopics.v
SpuProduce.v
Producer.v
ProducerLaws.v
Api.v
Multiplexer.v
Derive.v
SmartModule.v
KvLog.v
FileIter.v
ReplicaLog.v
SmartBatch.v
SmartContext.v
ConsumerOffsets.v
StreamFetch.v
Consumer.v
ConsumerStream.v
ConsumerRetry.v
LocalMeta.v
LocalMetaLaws.v
Dispatch.v
DispatchLaws.v
Auth.v
AdminTypes.v
AdminApi.v
AdminLaws.v
ScMirroring.v
ScMirrorLaws.v
SpuMirror.v
SpuMirrorLaws.v
PrivateServer.v
