(* ===== verification/Prelude.v ===== *)
(** * Fluvio: a verification development

    Fluvio is a distributed streaming platform in Rust.  Producers send record
    sets to a streaming processing unit (SPU), which appends them to the log of
    a partition's replica, copies the log to the SPUs of the other replicas and
    serves it to consumers, through SmartModules where they ask for it; a
    streaming controller (SC) keeps the metadata, places the partitions and
    elects their leaders.  This library models that system as executable
    functions and step relations and proves what makes it correct.

    ** The parts and the files

    Paths are relative to [src/crates]; the comment in front of a definition
    names the lines it translates.

    Foundations
    - [Prelude]: machine integers, results, the state and error monad, loops,
      and the lemmas on lists and integers that all files share.
    - [Wire]: byte buffers and the [Encoder]/[Decoder] interface of
      [fluvio-protocol/src/core] as the record [Codec]; the class [CodecOK] has
      the laws (what is encoded has the announced size, and decoding it gives
      the value back and leaves the rest), which are proved for each codec and
      used by the codecs built from it.

    Wire format, [fluvio-protocol] and [fluvio-compression]
    - [Varint], [Utf8], [Scalars], [Collections]: [core/varint.rs],
      [core/encoder.rs], [core/decoder.rs], [core/bytebuf.rs].
    - [Records]: records, keys, headers and record data of [record/data.rs].
    - [Batch], [RecordSet]: batches with their headers, the building,
      compression and conversion of batches, record sets; [record/batch.rs],
      [record/data.rs], [fluvio-compression/src/lib.rs].  A batch is
      polymorphic in its records, as in the code; [RecordsOK] is what a batch
      needs of their codec, with raw bytes and vectors of records as instances.
    - [Derive]: what [fluvio-protocol-derive] generates for structs and enums,
      from a list of fields or variants with their versions and tags.
    - [Api]: requests, responses and frames, [api] and [codec].

    Storage, [fluvio-storage]
    - [StorageIndex]: [index.rs], [mut_index.rs], [config.rs].
    - [StorageLog]: [file.rs], [batch.rs], [batch_header.rs], [mut_records.rs],
      [records.rs], [validator.rs].
    - [StorageSegment]: [segment.rs], [repair.rs].
    - [StorageCheckpoint]: [checkpoint.rs], as a step relation between the task
      that publishes offsets and the task that saves them.
    - [StorageReplica], [StorageReplicaLaws]: [segments.rs], [replica.rs],
      [cleaner.rs], the file names of [util.rs] and the offsets of [lib.rs].
    - [FileIter]: [iterators.rs].
    The files interact through the classes [Index], [FileRecords], [PRead] and
    [MemoryMap] (with their [OK] counterparts): a segment is generic in its
    index and log as in the code, and the reads and memory maps of the operating
    system are parameters with their documented behaviour.

    Replication and roles, [fluvio-spu]
    - [SpuStorage]: the trait [ReplicaStorage] of [fluvio-storage/src/lib.rs]
      as a class with the laws its users rely on, the proof that file replicas
      keep them, and [storage/mod.rs].
    - [Replication], [ReplicationLaws]: [replication/leader/replica_state.rs],
      [replication/follower/state.rs], [controller.rs] and [sync.rs]; a leader,
      its followers and the network between them as a step relation, proved
      against the laws of the trait.
    - [SpuStore], [SpuControl]: the specs an SPU keeps, the requests of the SC
      that change them and the roles that follow ([core], [control_plane],
      [replication/leader/leaders_state.rs]).

    Metadata, [fluvio-stream-model], [fluvio-controlplane-metadata], [fluvio-sc]
    - [Names], [ClusterTypes], [Topics]: replica keys, the specs and statuses of
      partitions, topics and SPUs, and the validation of topics.
    - [EpochMap], [MetadataStore], [MetadataSync]: the map with two epochs, the
      store built on it, and the watch that keeps a client's store equal to it.
    - [ScPartitions], [ScTopics]: the reducers and controllers of partitions and
      topics, elections and the scheduler.
    - [LocalMeta], [LocalMetaLaws]: the metadata storage in local files, with
      owners, children and revisions ([fluvio-stream-dispatcher/src/metadata]).
    - [Dispatch], [DispatchLaws]: the dispatcher that carries out actions on it
      and keeps a store in step ([fluvio-stream-dispatcher/src/dispatcher]); all
      dispatchers, other tasks and restarts as one step relation.

    The admin API, [fluvio-sc/src/services], [fluvio-sc-schema], [fluvio-auth]
    - [Auth]: contexts, identities and policies of the authorization; the trait
      [AuthContext] is a class.
    - [AdminTypes]: the other kinds of object, requests and answers, names.
    - [AdminApi]: the handlers.  Stores change while a handler runs: it is a
      computation over a [World], which gives the stores at each instant from
      the time and what the handler has sent.
    - [AdminLaws]: which action a request can send, and when it succeeds.
    - [PrivateServer]: the connections of SPUs at the controller, as a machine
      of events, and the health of SPUs that follows them
      ([fluvio-sc/src/services/private_api/private_server.rs]).

    Mirroring
    - [ScMirroring], [ScMirrorLaws]: the controllers of the home and the remote
      cluster keep the mirrored topics in step
      ([fluvio-sc/src/services/public_api/mirroring],
      [fluvio-sc/src/controllers/mirroring]).
    - [SpuMirror], [SpuMirrorLaws]: their SPUs copy the records, in either
      direction ([fluvio-spu/src/mirroring]); both ends and the network as a
      step relation.

    Producing: [SpuProduce] (the produce service), [Producer] and [ProducerLaws]
    (the producer of the client).

    Connections, [fluvio-socket]: [Multiplexer], the calls and streams that
    share a connection as a step relation, and the choice of versions.

    SmartModules
    - [SmartModule]: [fluvio-smartmodule], the code that
      [fluvio-smartmodule-derive] generates, and the engine of
      [fluvio-smartengine]; the class [Wasm] stands for the runtime.
    - [SmartBatch], [SmartContext]: [fluvio-spu/src/smartengine]: what a chain
      makes of batches, the keys of packages, the building of chains and the
      look back.

    Consuming
    - [KvLog], [ReplicaLog]: the key-value storage of [fluvio-kv-storage] over
      any [Log], and the log of a replica as one.
    - [ConsumerOffsets]: the offsets of consumers that an SPU keeps in it, with
      every request that reads or changes them.
    - [StreamFetch]: the services that consumers use: single fetches, offsets
      and streams ([fluvio-spu/src/services/public], [fluvio-types/src/event.rs]).
    - [Consumer]: the consumer of the client ([fluvio/src/consumer]).
    - [ConsumerStream]: leader, stream handler and client as one step relation.
    - [ConsumerRetry]: streams that reconnect, and committed offsets.

    ** What the theorems show

    - Wire format.  Scalars, collections, records, batches and record sets
      round-trip and have the announced size ([varint_roundtrip],
      [raw_batch_roundtrip], [record_set_roundtrip]), and so does every struct
      that derives its codec, at every version ([derive_roundtrip]); no input
      makes the decoder of raw record sets panic or loop
      ([raw_record_set_decode_safe]); input that ends inside a batch is resumed
      after the last complete one ([record_set_truncated]).
    - Storage.  The abstract state of an index, a segment and a replica is a
      list of batches, and the detailed state refines it: [replica_ok] and
      [seg_view] relate the two.  Appending appends to the list
      ([append_batch_correct], [write_recordset_correct]), reading gives the
      bytes of consecutive batches of it ([records_slice_correct],
      [read_partition_slice_correct], [file_records_read]), loading gives it
      back after a shutdown or a crash ([reload_correct], [crash_recovery],
      [load_correct]), cleaning removes a prefix of it, as long as is
      needed and no longer ([clean_correct]), and
      the index and the checkpoint agree with it ([write_index_correct],
      [index_search_equivalent], [checkpoint_persists]).
    - Replication.  The high watermark is the largest offset that enough
      followers have ([compute_hw_correct]); for every order of writes and
      of messages that are not cut, the followers' logs are prefixes of the
      leader's and all of them have what is committed ([replication_safe]); a
      follower that is behind catches up ([sync_progress]).
    - Metadata.  A watch leaves the client with the store it watches
      ([watch_converges]); an SPU has the roles the SC gives it
      ([roles_correct], [connect_correct]); elections choose the online replica
      with the most records ([election_correct], [candidate_leader_correct]), and
      from the connections of SPUs through their health and statuses to the
      leaders, a silent SPU loses its partitions ([failover]);
      topics get balanced placements of online SPUs and then their partitions
      ([schedule_correct], [schedule_balanced], [topic_provisioned]).  While no
      file access fails, the files of the metadata storage hold its objects
      ([metadata_durable]), and each dispatcher's store comes to hold them too
      ([dispatch_converges], with the orders of steps it excludes).
    - The admin API.  A request sends at most the one action it asks for, if the
      authorization allows it ([admin_action_asked]); others are refused
      ([admin_refused]); both name the two kinds of requests that the code lets
      through without.  A topic that is reported as created was valid and, but for a
      dry run, stored and, but for a mirror, provisioned ([create_topic_ok]), and is created when the dispatcher
      and the partitions are in time ([create_topic_completes]); SmartModules
      are stored and deleted under one key ([smartmodule_addressable]).
    - Mirroring.  A message of the home cluster makes the remote cluster's
      topics its mirrors and touches no others ([mirror_converges]); the log of
      a mirror that begins as a prefix of its source's stays one and no end
      fails, while nothing is evicted ([mirror_safe]), and it catches up ([mirror_catches_up]).
    - Producing.  Records that a producer flushes are in the leader's log at the
      offsets it reports ([produce_correct], [push_record_correct]).
    - Connections.  Requests arrive in order and unchanged
      ([connection_roundtrip]), responses reach the calls they answer
      ([responses_correlated], [waiting_call_answered]).
    - SmartModules.  A chain is the composition of its functions
      ([chain_refines]), and streams resume where a response ended
      ([process_batch_resumes]); modules are found by name ([fqdn_found]).
    - Consuming.  The user of a stream gets each record once and in order, and
      in the end all of them ([stream_exactly_once], [stream_delivers_all]),
      also when the stream reconnects ([retry_exactly_once]); committed offsets
      survive ([kv_refines_map], [offsets_durable]) and are where a consumer
      resumes ([commit_resumes]).
    - Deviations.  Where the code does not do what it means to, a theorem says
      what happens, beside the theorems of its part; among them
      [truncated_sync_corrupts], [read_past_max_offset],
      [stale_index_after_repair], [clear_data_reappears],
      [recreated_object_lost], [full_stream_blocks], [failed_delete_reappears],
      [uncommitted_entries_unread], [filtered_segment_skips],
      [filtered_records_dropped], [retry_loses_partition],
      [oversized_batch_stalls], [late_update_resurrects], [resync_keeps_stale],
      [any_identity_deletes], [clear_does_nothing], [unplaced_mirror_deleted]
      and [cut_mirror_corrupts].

    ** Conventions

    - Integers are [Z] with the reduction of their width written out where an
      operation can leave it; arithmetic wraps, as in a release build.  [usize]
      has 64 bits.  A slice index out of range, a failed [assert], an [unwrap]
      of nothing and a read past the end of a [Buf] are the result [Panic].
    - Fallible code with state is in the monad [ME]; an error keeps the state
      reached so far, since buffers, files and records are changed in place.
    - A loop of the code is [loop_until] or [loop_n] of its body, with fuel.
      The loops over input take one more step than there are bytes left, which
      is enough because each turn reads a byte ([loop_n_ends]); the binary
      search gets the length of the table; the varint encoder gets 2^64 turns,
      of which a 32-bit value needs five; [variant_size] gets ten; a stream that
      reconnects gets a turn for each connection ([retry_turns_enough]).
      Theorems on loops show that the result is reached, and
      [variant_size_diverges] is about the unbounded iteration of the loop body.
    - The checksum [crc32c] is a parameter of which only the range is used; the
      compression libraries are parameters with their round trip; the WASM
      runtime is the class [Wasm], and the order of a hash map the class
      [HashOrder].
    - A file is its bytes.  Writes, flushes and directory operations succeed;
      an incomplete write is the state in which [crash_recovery] and
      [load_correct] start.  The directory is part of the state of a replica.
    - An asynchronous function that holds the lock of its state is one step.
      Interleavings are modelled where tasks share state without a lock, in
      [StorageCheckpoint], [Multiplexer], [DispatchLaws], [AdminApi] and
      [PrivateServer], and
      between machines, in [Replication], [MetadataSync], [ConsumerStream] and
      [SpuMirrorLaws].

    ** What is not modelled

    The accept loops, TLS, Kubernetes, the command line, the installers and the
    connectors are input and output around other parts.  WebAssembly modules run
    through a library, and YAML is written and read by one.  In the parts above,
    formatting, metrics and tracing are left out; so are the removal of a whole
    replica, connecting and back-off times, failures of a socket inside a stream
    handler, and followers behind a leader's first segment.  The exactly-once
    theorem is about streams without SmartModules, on a leader whose log is not
    cleaned meanwhile and with batches that fit in a response. *)

From Stdlib Require Export ZArith Lia.
From stdpp Require Export base tactics list.
From coqutil Require Export Byte.
From coqutil Require Import Word.LittleEndianList.

#[global] Open Scope Z_scope.

Notation byte := Corelib.Init.Byte.byte.

(** ** Automation *)

Create HintDb fluvio.

(** Destruct every [match] and [if] scrutinee in the goal or in a hypothesis. *)
Ltac break_match :=
  match goal with
  | |- context [match ?x with _ => _ end] => destruct x eqn:?
  | H : context [match ?x with _ => _ end] |- _ => destruct x eqn:?
  end.

(** Case split on an integer test of the goal and solve the impossible case. *)
Ltac case_ltb :=
  match goal with
  | |- context [?a <? ?b] => destruct (Z.ltb_spec a b)
  | |- context [?a <=? ?b] => destruct (Z.leb_spec a b)
  | |- context [?a =? ?b] => destruct (Z.eqb_spec a b)
  end.

(** ** Machine integers

    Every Rust integer is a [Z]; a cast or an operation that can leave the
    range of its type is followed by the reduction of its width, as release
    builds do it.  [usize] is 64 bits wide. *)

Definition wrap_u (w z : Z) : Z := z mod 2 ^ w.
Definition wrap_i (w z : Z) : Z := (z + 2 ^ (w - 1)) mod 2 ^ w - 2 ^ (w - 1).

Definition in_u (w z : Z) : Prop := 0 <= z < 2 ^ w.
Definition in_i (w z : Z) : Prop := - 2 ^ (w - 1) <= z < 2 ^ (w - 1).

Notation as_u8 := (wrap_u 8).
Notation as_u16 := (wrap_u 16).
Notation as_u32 := (wrap_u 32).
Notation as_u64 := (wrap_u 64).
Notation as_usize := (wrap_u 64).
Notation as_i8 := (wrap_i 8).
Notation as_i16 := (wrap_i 16).
Notation as_i32 := (wrap_i 32).
Notation as_i64 := (wrap_i 64).

Definition isize_max : Z := 2 ^ 63 - 1.
Definition usize_max : Z := 2 ^ 64 - 1.

Lemma wrap_u_id w z : in_u w z -> wrap_u w z = z.
Proof. unfold in_u, wrap_u. intros. apply Z.mod_small. lia. Qed.

Lemma wrap_i_id w z : 0 < w -> in_i w z -> wrap_i w z = z.
Proof.
  unfold in_i, wrap_i. intros Hw Hz.
  assert (2 ^ w = 2 * 2 ^ (w - 1)) as E.
  { rewrite <-Z.pow_succ_r by lia. f_equal. lia. }
  rewrite Z.mod_small; lia.
Qed.

Lemma wrap_u_range w z : 0 <= w -> in_u w (wrap_u w z).
Proof. intros. apply Z.mod_pos_bound. apply Z.pow_pos_nonneg; lia. Qed.

Lemma wrap_i_range w z : 0 < w -> in_i w (wrap_i w z).
Proof.
  unfold in_i, wrap_i. intros Hw.
  assert (2 ^ w = 2 * 2 ^ (w - 1)) as E.
  { rewrite <-Z.pow_succ_r by lia. f_equal. lia. }
  pose proof (Z.mod_pos_bound (z + 2 ^ (w - 1)) (2 ^ w) ltac:(apply Z.pow_pos_nonneg; lia)).
  lia.
Qed.

(** The unsigned bits of a signed value, read back as signed, are the value. *)
Lemma wrap_i_mod w z : 0 < w -> in_i w z -> wrap_i w (z mod 2 ^ w) = z.
Proof.
  intros Hw Hz. rewrite <-(wrap_i_id w z) at 2 by done.
  unfold wrap_i. f_equal. rewrite <-Zplus_mod_idemp_l, Zmod_mod, Zplus_mod_idemp_l. done.
Qed.

(** Wrapping before an addition does not matter. *)
Lemma wrap_i_add w z k : 0 <= w -> wrap_i w (wrap_i w z + k) = wrap_i w (z + k).
Proof.
  intros Hw. unfold wrap_i. f_equal.
  replace ((z + 2 ^ (w - 1)) mod 2 ^ w - 2 ^ (w - 1) + k + 2 ^ (w - 1)) with ((z + 2 ^ (w - 1)) mod 2 ^ w + k) by lia.
  rewrite Zplus_mod_idemp_l. f_equal. lia.
Qed.

(** A cast through the signed type of the same width changes nothing. *)
Lemma as_u32_as_i32 z : in_u 32 z -> as_u32 (as_i32 z) = z.
Proof.
  intros Hz. unfold in_u in Hz. unfold wrap_u, wrap_i. change (2 ^ (32 - 1)) with (2 ^ 31).
  rewrite Zminus_mod_idemp_l, Z.add_simpl_r. apply Z.mod_small. exact Hz.
Qed.

#[export] Hint Resolve wrap_u_id wrap_i_id wrap_u_range wrap_i_range : fluvio.

(** ** Outcomes

    A Rust function that returns a [Result] ends in [Ok], in [Err] or panics.
    Of a [std::io::Error] its kind is kept, not its message text. *)

Inductive ErrorKind := UnexpectedEof | InvalidData | InvalidInput | StorageFull | OtherError.

#[export] Instance ErrorKind_eq_dec : EqDecision ErrorKind.
Proof. solve_decision. Defined.

Inductive outcome (E A : Type) : Type :=
| Ok (a : A)
| Err (k : E)
| Panic.
Arguments Ok {E A} a.
Arguments Err {E A} k.
Arguments Panic {E A}.

(** [Result<A, std::io::Error>] *)
Notation res := (outcome ErrorKind).

(** A stateful computation with errors in [E]: the state survives an error, as
    [&mut] state does in Rust. *)
Definition ME (E S A : Type) : Type := S -> outcome E A * S.
Notation M := (ME ErrorKind).

#[export] Instance M_ret {E S} : MRet (ME E S) := fun A a s => (Ok a, s).
#[export] Instance M_bind {E S} : MBind (ME E S) := fun A B f m s =>
  match m s with
  | (Ok a, s') => f a s'
  | (Err k, s') => (Err k, s')
  | (Panic, s') => (Panic, s')
  end.

Definition fail {E S A} (k : E) : ME E S A := fun s => (Err k, s).
Definition panic {E S A} : ME E S A := fun s => (Panic, s).
Definition get {E S} : ME E S S := fun s => (Ok s, s).
Definition put {E S} (s : S) : ME E S unit := fun _ => (Ok tt, s).
Definition modify {E S} (f : S -> S) : ME E S unit := fun s => (Ok tt, f s).

(** Run a computation on a part of the state. *)
Definition zoom {E S T A} (proj : S -> T) (upd : T -> S -> S) (m : ME E T A) : ME E S A := fun s =>
  let '(r, t) := m (proj s) in (r, upd t s).

(** A computation without state of its own. *)
Definition lift {E S A} (r : outcome E A) : ME E S A := fun s => (r, s).

(** [assert!(b)] *)
Definition assert_ {E S} (b : bool) : ME E S unit := if b then mret tt else panic.

Definition map_err {E E' A} (f : E -> E') (r : outcome E A) : outcome E' A :=
  match r with Ok a => Ok a | Err e => Err (f e) | Panic => Panic end.

Lemma bind_ok {E S A B} (m : ME E S A) (f : A -> ME E S B) s s' a :
  m s = (Ok a, s') -> (m ≫= f) s = f a s'.
Proof. intros H. unfold mbind, M_bind. by rewrite H. Qed.

Lemma bind_err {E S A B} (m : ME E S A) (f : A -> ME E S B) s s' k :
  m s = (Err k, s') -> (m ≫= f) s = (Err k, s').
Proof. intros H. unfold mbind, M_bind. by rewrite H. Qed.

Lemma bind_panic {E S A B} (m : ME E S A) (f : A -> ME E S B) s s' :
  m s = (Panic, s') -> (m ≫= f) s = (Panic, s').
Proof. intros H. unfold mbind, M_bind. by rewrite H. Qed.

Lemma assert_true {E S} b (s : S) : b = true -> assert_ (E := E) b s = (Ok tt, s).
Proof. by intros ->. Qed.

Lemma bind_assoc {E S A B C} (m : ME E S A) (f : A -> ME E S B) (g : B -> ME E S C) s :
  ((m ≫= f) ≫= g) s = (m ≫= (fun a => f a ≫= g)) s.
Proof. unfold mbind, M_bind. destruct (m s) as [[a|k|] s']; done. Qed.

Lemma bind_ret_r {E S} (m : ME E S unit) s : (m ;; mret tt) s = m s.
Proof. unfold mbind, M_bind. destruct (m s) as [[[]|k|] s']; done. Qed.

(** [for x in l { f(x)?; }] *)
Fixpoint for_each {E S A} (f : A -> ME E S unit) (l : list A) : ME E S unit :=
  match l with
  | [] => mret tt
  | x :: l => f x ;; for_each f l
  end.

(** [for _ in 0..n { m?; }], with the binary count unfolded by halves. *)
Fixpoint times_pos {S} (p : positive) (m : M S unit) : M S unit :=
  match p with
  | xH => m
  | xO q => times_pos q m ;; times_pos q m
  | xI q => m ;; times_pos q m ;; times_pos q m
  end.

Definition times {S} (n : Z) (m : M S unit) : M S unit :=
  match n with
  | Zpos p => times_pos p m
  | _ => mret tt
  end.

Fixpoint times_nat {S} (n : nat) (m : M S unit) : M S unit :=
  match n with
  | O => mret tt
  | Datatypes.S n => m ;; times_nat n m
  end.

Lemma times_nat_add {S} n k (m : M S unit) s :
  times_nat (n + k) m s = (times_nat n m ;; times_nat k m) s.
Proof.
  revert s. induction n as [|n IH]; intros s; simpl; [done|].
  rewrite bind_assoc. unfold mbind, M_bind.
  destruct (m s) as [[[]|e|] s'] eqn:E; [apply IH|done|done].
Qed.

Lemma times_pos_nat {S} p (m : M S unit) s : times_pos p m s = times_nat (Pos.to_nat p) m s.
Proof.
  revert s. induction p as [p IH|p IH|]; intros s; cbn [times_pos].
  - replace (Pos.to_nat p~1) with (Datatypes.S (Pos.to_nat p + Pos.to_nat p)) by lia.
    cbn [times_nat]. unfold mbind at 1 3, M_bind at 1 3.
    destruct (m s) as [[[]|e|] s']; [|done|done]. rewrite times_nat_add.
    unfold mbind, M_bind. rewrite IH. destruct (times_nat _ m s') as [[[]|e|] s'']; done.
  - replace (Pos.to_nat p~0) with (Pos.to_nat p + Pos.to_nat p)%nat by lia.
    rewrite times_nat_add. unfold mbind, M_bind. rewrite IH.
    destruct (times_nat _ m s) as [[[]|e|] s'']; done.
  - simpl. by rewrite bind_ret_r.
Qed.

Lemma times_to_nat {S} n (m : M S unit) s : times n m s = times_nat (Z.to_nat n) m s.
Proof. destruct n; [done|apply times_pos_nat|done]. Qed.

(** ** Loops

    A Rust [loop] is a step that yields the next loop state or the result.
    [loop_until] runs at most [p] steps; the fuel is binary, so that a bound
    such as [2 ^ 64] costs nothing to write down. *)

Fixpoint loop_until {S R} (p : positive) (step : S -> S + R) (s : S) : S + R :=
  match p with
  | xH => step s
  | xO q =>
      match loop_until q step s with
      | inl s' => loop_until q step s'
      | inr r => inr r
      end
  | xI q =>
      match step s with
      | inl s' =>
          match loop_until q step s' with
          | inl s'' => loop_until q step s''
          | inr r => inr r
          end
      | inr r => inr r
      end
  end.

(** The same with unary fuel, for induction. *)
Fixpoint loop_n {S R} (n : nat) (step : S -> S + R) (s : S) : S + R :=
  match n with
  | O => inl s
  | Datatypes.S n' =>
      match step s with
      | inl s' => loop_n n' step s'
      | inr r => inr r
      end
  end.

Lemma loop_n_S {S R} n (step : S -> S + R) s :
  loop_n (Datatypes.S n) step s =
  match step s with inl s' => loop_n n step s' | inr r => inr r end.
Proof. done. Qed.

Lemma loop_n_add {S R} n m (step : S -> S + R) s :
  loop_n (n + m) step s =
  match loop_n n step s with inl s' => loop_n m step s' | inr r => inr r end.
Proof.
  revert s. induction n as [|n IH]; intros s; [done|]. simpl.
  destruct (step s); [apply IH|done].
Qed.

Lemma loop_until_n {S R} p (step : S -> S + R) s :
  loop_until p step s = loop_n (Pos.to_nat p) step s.
Proof.
  revert s. induction p as [p IH|p IH|]; intros s; simpl loop_until.
  - replace (Pos.to_nat p~1) with (Datatypes.S (Pos.to_nat p + Pos.to_nat p)) by lia.
    simpl. destruct (step s) as [s'|r]; [|done]. rewrite loop_n_add, IH.
    destruct (loop_n (Pos.to_nat p) step s'); [apply IH|done].
  - replace (Pos.to_nat p~0) with (Pos.to_nat p + Pos.to_nat p)%nat by lia.
    rewrite loop_n_add, IH. destruct (loop_n (Pos.to_nat p) step s); [apply IH|done].
  - simpl. by destruct (step s).
Qed.

Lemma loop_n_mono {S R} n m (step : S -> S + R) s r :
  loop_n n step s = inr r -> (n <= m)%nat -> loop_n m step s = inr r.
Proof.
  intros H Hm. replace m with (n + (m - n))%nat by lia. by rewrite loop_n_add, H.
Qed.

(** A loop whose measure decreases at every step ends, given that much fuel. *)
Lemma loop_n_ends {S R} (I : S -> Prop) (mu : S -> nat) (step : S -> S + R) :
  (forall s s', I s -> step s = inl s' -> I s' /\ (mu s' < mu s)%nat) ->
  forall s n, I s -> (mu s < n)%nat -> exists r, loop_n n step s = inr r.
Proof.
  intros Hstep s n. revert s. induction n as [|n IH]; intros s Hs Hn; [lia|].
  simpl. destruct (step s) as [s'|r] eqn:E; [|eauto].
  destruct (Hstep _ _ Hs E). apply IH; [done|lia].
Qed.

(** The result of a loop satisfies what every last step guarantees. *)
Lemma loop_n_result {S R} (I : S -> Prop) (P : R -> Prop) (step : S -> S + R) :
  (forall s s', I s -> step s = inl s' -> I s') ->
  (forall s r, I s -> step s = inr r -> P r) ->
  forall n s r, I s -> loop_n n step s = inr r -> P r.
Proof.
  intros Hstep Hlast n. induction n as [|n IH]; intros s r Hs; simpl; [done|].
  destruct (step s) as [s'|r'] eqn:E; [eauto|]. intros [= <-]. eauto.
Qed.

(** A property of the state that every step keeps, and under which no step
    stops, makes the loop run forever. *)
Lemma loop_n_diverges {S R} (I : S -> Prop) (step : S -> S + R) :
  (forall s, I s -> exists s', step s = inl s' /\ I s') ->
  forall n s, I s -> exists s', loop_n n step s = inl s' /\ I s'.
Proof.
  intros Hstep n. induction n as [|n IH]; intros s Hs; simpl; [eauto|].
  destruct (Hstep s Hs) as (s' & -> & Hs'). by apply IH.
Qed.

(** ** Lists *)

(** Length as an integer, the way [usize] lengths are used. *)
Definition zlen {A} (l : list A) : Z := Z.of_nat (length l).

Lemma zlen_app {A} (l k : list A) : zlen (l ++ k) = zlen l + zlen k.
Proof. unfold zlen. rewrite length_app. lia. Qed.
Lemma zlen_nonneg {A} (l : list A) : 0 <= zlen l.
Proof. unfold zlen. lia. Qed.
Lemma zlen_nil {A} : zlen (@nil A) = 0.
Proof. done. Qed.
Lemma zlen_cons {A} (x : A) l : zlen (x :: l) = 1 + zlen l.
Proof. unfold zlen. simpl. lia. Qed.

Lemma zlen_zero {A} (l : list A) : zlen l <= 0 -> l = [].
Proof. destruct l; [done|]. rewrite zlen_cons. pose proof (zlen_nonneg l). lia. Qed.
Lemma zlen_pos {A} (l : list A) : l <> [] -> 0 < zlen l.
Proof. destruct l; [done|]. rewrite zlen_cons. pose proof (zlen_nonneg l). lia. Qed.

(** Two splits of one list, the first one longer. *)
Lemma app_split_le {A} (l1 l2 k1 k2 : list A) :
  l1 ++ l2 = k1 ++ k2 -> zlen k1 <= zlen l1 -> exists m, l1 = k1 ++ m /\ k2 = m ++ l2.
Proof.
  intros E Hl. apply app_eq_inv in E as [(m & E1 & E2)|(m & E1 & E2)]; [eauto|].
  assert (m = []) as ->; [|by exists []; rewrite app_nil_r in *; subst].
  apply zlen_zero. apply (f_equal zlen) in E1. rewrite zlen_app in E1. lia.
Qed.

Lemma lookup_map {A B} (f : A -> B) (l : list A) i : map f l !! i = f <$> l !! i.
Proof. revert i. induction l as [|x l IH]; intros [|i]; [done..|apply IH]. Qed.

Lemma list_filter_none {A} (f : A -> bool) l :
  (forall x, x ∈ l -> f x = false) -> List.filter f l = [].
Proof.
  induction l as [|x l IH]; intros H; simpl; [done|].
  rewrite (H x) by (by left). apply IH. intros y Hy. apply H. by right.
Qed.

#[export] Hint Rewrite @zlen_app @zlen_nil @zlen_cons : zlen.
#[export] Hint Resolve zlen_nonneg : fluvio.

(** First [n] elements and the rest, for an integer count that may be larger
    than the list. *)
Definition ztake {A} (n : Z) (l : list A) : list A := take (Z.to_nat (Z.min n (zlen l))) l.
Definition zdrop {A} (n : Z) (l : list A) : list A := drop (Z.to_nat (Z.min n (zlen l))) l.

Lemma ztake_zdrop {A} n (l : list A) : ztake n l ++ zdrop n l = l.
Proof. unfold ztake, zdrop. apply take_drop. Qed.

Lemma ztake_take {A} n (l : list A) : ztake n l = take (Z.to_nat n) l.
Proof.
  unfold ztake. destruct (Z.le_gt_cases n (zlen l)); [by rewrite Z.min_l|].
  rewrite Z.min_r by lia. unfold zlen in *. rewrite !take_ge by lia. done.
Qed.

Lemma zdrop_drop {A} n (l : list A) : zdrop n l = drop (Z.to_nat n) l.
Proof.
  unfold zdrop. destruct (Z.le_gt_cases n (zlen l)); [by rewrite Z.min_l|].
  rewrite Z.min_r by lia. unfold zlen in *. rewrite !drop_ge by lia. done.
Qed.

Lemma zdrop_zdrop {A} n m (l : list A) : 0 <= n -> 0 <= m -> zdrop m (zdrop n l) = zdrop (n + m) l.
Proof. intros. rewrite !zdrop_drop, drop_drop. f_equal. lia. Qed.

Lemma ztake_plus {A} n m (l : list A) :
  0 <= n -> 0 <= m -> ztake (n + m) l = ztake n l ++ ztake m (zdrop n l).
Proof.
  intros. rewrite !ztake_take, zdrop_drop, Z2Nat.inj_add by done.
  rewrite <-(take_drop (Z.to_nat n) (take (Z.to_nat n + Z.to_nat m) l)).
  rewrite take_take, skipn_firstn_comm. f_equal; f_equal; lia.
Qed.

Lemma zdrop_app_ge {A} n (l k : list A) : zlen l <= n -> zdrop n (l ++ k) = zdrop (n - zlen l) k.
Proof.
  intros. rewrite !zdrop_drop. unfold zlen in *. rewrite drop_app_ge by lia. f_equal. lia.
Qed.

Lemma ztake_app_le {A} n (l k : list A) : n <= zlen l -> ztake n (l ++ k) = ztake n l.
Proof. intros. rewrite !ztake_take. unfold zlen in *. apply take_app_le. lia. Qed.

Lemma ztake_0 {A} (l : list A) : ztake 0 l = [].
Proof. unfold ztake. by rewrite Z.min_l by apply zlen_nonneg. Qed.

Lemma ztake_app_exact {A} n (l k : list A) : n = zlen l -> ztake n (l ++ k) = l.
Proof.
  intros ->. unfold ztake. rewrite zlen_app.
  rewrite Z.min_l by (pose proof (zlen_nonneg k); lia).
  unfold zlen. rewrite Nat2Z.id. apply take_app_length.
Qed.

Lemma zdrop_app_exact {A} n (l k : list A) : n = zlen l -> zdrop n (l ++ k) = k.
Proof.
  intros ->. unfold zdrop. rewrite zlen_app.
  rewrite Z.min_l by (pose proof (zlen_nonneg k); lia).
  unfold zlen. rewrite Nat2Z.id. apply drop_app_length.
Qed.

Lemma ztake_all {A} n (l : list A) : zlen l <= n -> ztake n l = l.
Proof.
  intros. unfold ztake. rewrite Z.min_r by lia.
  apply take_ge. unfold zlen. lia.
Qed.

Lemma zlen_ztake {A} n (l : list A) : 0 <= n -> zlen (ztake n l) = Z.min n (zlen l).
Proof.
  intros. unfold ztake, zlen at 1. rewrite length_take.
  pose proof (zlen_nonneg l). unfold zlen in *. lia.
Qed.

Lemma zlen_zdrop {A} n (l : list A) : 0 <= n -> zlen (zdrop n l) = zlen l - Z.min n (zlen l).
Proof.
  intros. unfold zdrop, zlen at 1. rewrite length_drop.
  pose proof (zlen_nonneg l). unfold zlen in *. lia.
Qed.

Definition zsum (l : list Z) : Z := foldr Z.add 0 l.

Lemma fold_left_add_acc {A} (f : A -> Z) (l : list A) acc :
  fold_left (fun s x => s + f x) l acc = acc + zsum (map f l).
Proof. revert acc. induction l as [|x l IH]; intros acc; simpl; [lia|]. rewrite IH. lia. Qed.

(** ** Big-endian bytes *)

Definition be_split (n : nat) (z : Z) : list byte := rev (le_split n z).
Definition be_combine (l : list byte) : Z := le_combine (rev l).

Lemma length_be_split n z : length (be_split n z) = n.
Proof. unfold be_split. rewrite length_rev. apply length_le_split. Qed.

Lemma zlen_be_split n z : zlen (be_split n z) = Z.of_nat n.
Proof. unfold zlen. by rewrite length_be_split. Qed.

Lemma be_combine_split n z : be_combine (be_split n z) = z mod 2 ^ (Z.of_nat n * 8).
Proof. unfold be_combine, be_split. rewrite rev_involutive. apply le_combine_split. Qed.

Lemma be_split_combine l : be_split (length l) (be_combine l) = l.
Proof.
  unfold be_combine, be_split. rewrite <-length_rev, split_le_combine.
  apply rev_involutive.
Qed.

Lemma be_combine_bound l : 0 <= be_combine l < 2 ^ (8 * zlen l).
Proof.
  unfold be_combine. pose proof (le_combine_bound (rev l)) as H.
  rewrite length_rev in H. exact H.
Qed.

#[export] Hint Rewrite zlen_be_split : zlen.

Arguments be_split : simpl never.
Arguments be_combine : simpl never.
Arguments wrap_u : simpl never.
Arguments wrap_i : simpl never.
Arguments zlen : simpl never.
Arguments ztake : simpl never.
Arguments zdrop : simpl never.
#[global] Arguments mbind {_ _ _ _} _ _ : simpl never.
#[global] Arguments mret {_ _ _} _ : simpl never.
Arguments loop_until : simpl never.
Arguments loop_n : simpl never.
