(* ===== verification/Wire.v ===== *)
(** * Byte buffers and the encoder/decoder interface

    The [Encoder] and [Decoder] traits of [fluvio-protocol] write to a
    [bytes::BufMut] and read from a [bytes::Buf].  A [BufMut] is the bytes
    written so far with the capacity left; a [Buf] is the bytes not read yet.
    This file holds the primitive reads and writes, the interface every codec
    implements and the laws its clients use. *)

From S2P Require Import Prelude.

(** ** Destination buffers *)

Record BufMut := MkBufMut { written : list byte; remaining_mut : Z }.

Notation Enc := (M BufMut unit).

Definition buf_append (d : BufMut) (bs : list byte) : BufMut :=
  MkBufMut (written d ++ bs) (remaining_mut d - zlen bs).

(** [BufMut::put_slice]: panics when the capacity is too small. *)
Definition put_slice (bs : list byte) : Enc := fun d =>
  if remaining_mut d <? zlen bs then (Panic, d) else (Ok tt, buf_append d bs).

(** [put_u8], [put_i16], [put_u32], ...: the low [n] bytes, big endian. *)
Definition put_be (n : nat) (z : Z) : Enc := put_slice (be_split n z).

(** The guard every scalar encoder starts with. *)
Definition ensure_remaining_mut (n : Z) : Enc := fun d =>
  if remaining_mut d <? n then (Err UnexpectedEof, d) else (Ok tt, d).

(** [Vec::new()] used as a destination. *)
Definition vec_new : BufMut := MkBufMut [] isize_max.

(** Run an encoder on a fresh [Vec<u8>] and hand back the bytes. *)
Definition with_new_vec (m : Enc) : M BufMut (list byte) := fun d =>
  match m vec_new with
  | (Ok _, out) => (Ok (written out), d)
  | (Err k, _) => (Err k, d)
  | (Panic, _) => (Panic, d)
  end.

(** ** Source buffers

    A decoder updates [self] in place and consumes the source; both survive an
    error. *)

Notation Dec A := (M (A * list byte) unit).

Definition remaining {A} : M (A * list byte) Z := fun s => (Ok (zlen (snd s)), s).
Definition self_get {A} : M (A * list byte) A := fun s => (Ok (fst s), s).
Definition self_put {A} (a : A) : Dec A := fun s => (Ok tt, (a, snd s)).
Definition self_modify {A} (f : A -> A) : Dec A := fun s => (Ok tt, (f (fst s), snd s)).

(** The guard [if src.remaining() < n { return Err(UnexpectedEof) }]. *)
Definition ensure_remaining {A} (n : Z) : Dec A := fun s =>
  if zlen (snd s) <? n then (Err UnexpectedEof, s) else (Ok tt, s).

(** [Buf::get_uN]: [n] bytes, big endian; panics past the end. *)
Definition get_be {A} (n : nat) : M (A * list byte) Z := fun s =>
  if zlen (snd s) <? Z.of_nat n then (Panic, s)
  else (Ok (be_combine (take n (snd s))), (fst s, drop n (snd s))).

(** [Buf::copy_to_bytes]: panics past the end. *)
Definition copy_to_bytes {A} (n : Z) : M (A * list byte) (list byte) := fun s =>
  if zlen (snd s) <? n then (Panic, s)
  else (Ok (ztake n (snd s)), (fst s, zdrop n (snd s))).

(** Read everything a [src.take(n)] gives. *)
Definition take_bytes {A} (n : Z) : M (A * list byte) (list byte) := fun s =>
  (Ok (ztake n (snd s)), (fst s, zdrop n (snd s))).

(** Run a decoder on [src.take(n)]: what it leaves unread stays in [src]. *)
Definition on_take {A B} (n : Z) (m : M (A * list byte) B) : M (A * list byte) B := fun s =>
  let '(r, (a, rest)) := m (fst s, ztake n (snd s)) in
  (r, (a, rest ++ zdrop n (snd s))).

(** [self.field.decode(src, version)?] *)
Definition on_field {A B} (proj : A -> B) (upd : B -> A -> A) (d : Dec B) : Dec A := fun s =>
  let '(r, (b, src)) := d (proj (fst s), snd s) in
  (r, (upd b (fst s), src)).

(** [let mut x = init; x.decode(src, version)?;] *)
Definition on_local {A B} (init : B) (d : Dec B) : M (A * list byte) B := fun s =>
  match d (init, snd s) with
  | (Ok _, (b, src)) => (Ok b, (fst s, src))
  | (Err k, (_, src)) => (Err k, (fst s, src))
  | (Panic, (_, src)) => (Panic, (fst s, src))
  end.

(** ** Codecs *)

Record Codec (A : Type) := MkCodec {
  dflt : A;
  write_size : Z -> A -> Z;
  encode : Z -> A -> Enc;
  decode : Z -> Dec A;
}.
Arguments MkCodec {A}.
Arguments dflt {A}.
Arguments write_size {A}.
Arguments encode {A}.
Arguments decode {A}.

(* src/crates/fluvio-protocol/src/core/decoder.rs:18-26 Decoder::decode_from *)
Definition decode_from {A} (c : Codec A) (version : Z) (src : list byte) : res A * list byte :=
  match decode c version (dflt c, src) with
  | (Ok _, (a, src')) => (Ok a, src')
  | (Err k, (_, src')) => (Err k, src')
  | (Panic, (_, src')) => (Panic, src')
  end.

(* src/crates/fluvio-protocol/src/core/encoder.rs:29-37 Encoder::as_bytes *)
Definition as_bytes {A} (c : Codec A) (version : Z) (a : A) : res (list byte) :=
  match encode c version a vec_new with
  | (Ok _, out) => Ok (written out)
  | (Err k, _) => Err k
  | (Panic, _) => Panic
  end.

(** [emits m bs]: given room for [bs], [m] succeeds and appends exactly [bs]. *)
Definition emits (m : Enc) (bs : list byte) : Prop :=
  forall d, zlen bs <= remaining_mut d -> m d = (Ok tt, buf_append d bs).

(** [reads d init bs a]: from [init] and a source that starts with [bs], [d]
    succeeds, sets [self] to [a] and consumes exactly [bs].  A buffer holds at
    most [isize::MAX] bytes. *)
Definition reads {A} (d : Dec A) (init : A) (bs : list byte) (a : A) : Prop :=
  forall rest, zlen (bs ++ rest) <= isize_max -> d (init, bs ++ rest) = (Ok tt, (a, rest)).

(** The laws of a codec: on valid values [encode] emits [wire], whose length is
    [write_size], and [decode] reads it back. *)
Class CodecOK {A} (c : Codec A) := {
  valid : Z -> A -> Prop;
  wire : Z -> A -> list byte;
  encode_emits v a : valid v a -> emits (encode c v a) (wire v a);
  wire_size v a : valid v a -> zlen (wire v a) = write_size c v a;
  decode_reads v a : valid v a -> reads (decode c v) (dflt c) (wire v a) a;
}.
Arguments valid {A} c {_}.
Arguments wire {A} c {_}.
Arguments encode_emits {A} c {_}.
Arguments wire_size {A} c {_}.
Arguments decode_reads {A} c {_}.

(** ** Lemmas on [emits] *)

Lemma buf_append_app d b1 b2 : buf_append (buf_append d b1) b2 = buf_append d (b1 ++ b2).
Proof. unfold buf_append. simpl. rewrite app_assoc, zlen_app. f_equal. lia. Qed.

Lemma buf_append_nil d : buf_append d [] = d.
Proof. destruct d. unfold buf_append. simpl. rewrite app_nil_r, zlen_nil. f_equal. lia. Qed.

Lemma emits_put_slice bs : emits (put_slice bs) bs.
Proof. intros d H. unfold put_slice. case_ltb; [lia|done]. Qed.

Lemma emits_put_be n z : emits (put_be n z) (be_split n z).
Proof. apply emits_put_slice. Qed.

Lemma emits_ret : emits (mret tt) [].
Proof. intros d _. by rewrite buf_append_nil. Qed.

Lemma emits_seq (m1 m2 : Enc) b1 b2 :
  emits m1 b1 -> emits m2 b2 -> emits (m1 ;; m2) (b1 ++ b2).
Proof.
  intros H1 H2 d Hd. rewrite zlen_app in Hd. pose proof (zlen_nonneg b2).
  erewrite bind_ok by (apply H1; lia).
  rewrite H2 by (simpl; lia). by rewrite buf_append_app.
Qed.

Lemma emits_ensure n m bs :
  n <= zlen bs -> emits m bs -> emits (ensure_remaining_mut n ;; m) bs.
Proof.
  intros Hn Hm d Hd. erewrite bind_ok by (unfold ensure_remaining_mut; case_ltb; [lia|done]).
  by apply Hm.
Qed.

Lemma emits_with_new_vec (m : Enc) (k : list byte -> Enc) bs out :
  emits m bs -> zlen bs <= isize_max -> emits (k bs) out ->
  emits (with_new_vec m ≫= k) out.
Proof.
  intros Hm Hb Hk d Hd. erewrite bind_ok; [by apply Hk|].
  unfold with_new_vec. rewrite (Hm vec_new) by done. done.
Qed.

Lemma emits_ext m m' bs : (forall d, m d = m' d) -> emits m bs -> emits m' bs.
Proof. intros E H d Hd. rewrite <-E. by apply H. Qed.

(** ** Lemmas on [reads] *)

Lemma zlen_app_r {A} (l k : list A) : zlen k <= zlen (l ++ k).
Proof. rewrite zlen_app. pose proof (zlen_nonneg l). lia. Qed.

Lemma reads_app_rest {A} (d : Dec A) init bs a :
  reads d init bs a -> zlen bs <= isize_max -> d (init, bs) = (Ok tt, (a, [])).
Proof. intros H Hl. rewrite <-(app_nil_r bs) at 1. apply H. by rewrite app_nil_r. Qed.

Lemma reads_seq {A} (d1 d2 : Dec A) init b1 b2 a1 a2 :
  reads d1 init b1 a1 -> reads d2 a1 b2 a2 -> reads (d1 ;; d2) init (b1 ++ b2) a2.
Proof.
  intros H1 H2 rest Hl. rewrite <-app_assoc in *. erewrite bind_ok by (by apply H1).
  apply H2. pose proof (zlen_app_r b1 (b2 ++ rest)). lia.
Qed.

Lemma reads_ret {A} (a : A) : reads (mret tt) a [] a.
Proof. intros rest _. done. Qed.

Lemma reads_field {A B} (proj : A -> B) upd (d : Dec B) init bs b :
  reads d (proj init) bs b -> reads (on_field proj upd d) init bs (upd b init).
Proof. intros H rest Hl. unfold on_field. simpl. by rewrite H. Qed.

Lemma reads_field_to {A B} (proj : A -> B) upd (d : Dec B) init bs b a :
  a = upd b init -> reads d (proj init) bs b -> reads (on_field proj upd d) init bs a.
Proof. intros ->. apply reads_field. Qed.

Lemma reads_local {A B} (d : Dec B) (b0 b : B) (k : B -> Dec A) init b1 b2 a :
  reads d b0 b1 b -> reads (k b) init b2 a ->
  reads (on_local b0 d ≫= k) init (b1 ++ b2) a.
Proof.
  intros H1 H2 rest Hl. rewrite <-app_assoc in *.
  erewrite bind_ok by (unfold on_local; simpl; by rewrite H1).
  apply H2. pose proof (zlen_app_r b1 (b2 ++ rest)). lia.
Qed.

(** The same when the value decoded is the last thing read. *)
Lemma reads_local_last {A B} (d : Dec B) (b0 b : B) (k : B -> Dec A) init bs a :
  reads d b0 bs b -> reads (k b) init [] a -> reads (on_local b0 d ≫= k) init bs a.
Proof. intros. rewrite <-(app_nil_r bs). by eapply reads_local. Qed.

Lemma reads_take {A} (d : Dec A) n init bs a :
  n = zlen bs -> reads d init bs a -> reads (on_take n d) init bs a.
Proof.
  intros Hn H rest Hl. unfold on_take. simpl.
  rewrite ztake_app_exact, zdrop_app_exact by done.
  rewrite (reads_app_rest _ _ _ _ H); [done|].
  rewrite zlen_app in Hl. pose proof (zlen_nonneg rest). lia.
Qed.

(** On a source cut to [bs], a decoder need not stop by itself. *)
Lemma reads_take_exact {A} (d : Dec A) n init bs a :
  n = zlen bs -> d (init, bs) = (Ok tt, (a, [])) -> reads (on_take n d) init bs a.
Proof.
  intros Hn H rest _. unfold on_take. simpl.
  rewrite ztake_app_exact, zdrop_app_exact by done. by rewrite H.
Qed.

Lemma reads_self_get {A} (k : A -> Dec A) init bs a :
  reads (k init) init bs a -> reads (self_get ≫= k) init bs a.
Proof. intros H rest Hl. erewrite bind_ok by done. by apply H. Qed.

Lemma reads_const {A} (d : Dec A) init a :
  (forall rest, d (init, rest) = (Ok tt, (a, rest))) -> reads d init [] a.
Proof. intros H rest _. apply H. Qed.

Lemma get_be_app {A} (n : nat) (a : A) bs rest :
  length bs = n -> get_be n (a, bs ++ rest) = (Ok (be_combine bs), (a, rest)).
Proof.
  intros <-. unfold get_be. simpl. case_ltb.
  - rewrite zlen_app in *. pose proof (zlen_nonneg rest). unfold zlen in *. lia.
  - by rewrite take_app_length, drop_app_length.
Qed.

Lemma take_bytes_app {A} n (a : A) bs rest :
  n = zlen bs -> take_bytes n (a, bs ++ rest) = (Ok bs, (a, rest)).
Proof. intros. unfold take_bytes. simpl. by rewrite ztake_app_exact, zdrop_app_exact. Qed.

Lemma copy_to_bytes_app {A} n (a : A) bs rest :
  n = zlen bs -> copy_to_bytes n (a, bs ++ rest) = (Ok bs, (a, rest)).
Proof.
  intros ->. unfold copy_to_bytes. cbn [snd fst]. rewrite zlen_app. pose proof (zlen_nonneg rest).
  case_ltb; [lia|]. by rewrite ztake_app_exact, zdrop_app_exact.
Qed.

Lemma ensure_remaining_app {A} n (a : A) bs rest :
  n <= zlen bs -> ensure_remaining n (a, bs ++ rest) = (Ok tt, (a, bs ++ rest)).
Proof.
  intros. unfold ensure_remaining. simpl. rewrite zlen_app. pose proof (zlen_nonneg rest).
  case_ltb; [lia|done].
Qed.

(** ** Consequences of the laws *)

Section laws.
Context {A} (c : Codec A) `{!CodecOK c}.

Lemma as_bytes_wire v a :
  valid c v a -> write_size c v a <= isize_max -> as_bytes c v a = Ok (wire c v a).
Proof.
  intros Hv Hs. unfold as_bytes.
  rewrite (encode_emits c v a Hv vec_new) by (rewrite (wire_size c) by done; done). done.
Qed.

Lemma decode_from_wire v a rest :
  valid c v a -> zlen (wire c v a ++ rest) <= isize_max ->
  decode_from c v (wire c v a ++ rest) = (Ok a, rest).
Proof. intros Hv Hl. unfold decode_from. by rewrite (decode_reads c v a Hv). Qed.
End laws.
