(* ===== verification/Varint.v ===== *)
(** * Variable-length integers

    [fluvio-protocol/src/core/varint.rs]: zigzag and base-128 groups.  The
    encoder works on [i64] but shifts by 31 and tests the mask [0xffffff80], so
    it is the 32-bit scheme; the theorems state where it round-trips and what
    happens outside. *)

From S2P Require Import Prelude Wire.

(** [x << s] and [x >> s] on [i64]. *)
Definition shl64 (x s : Z) : Z := as_i64 (Z.shiftl x (s mod 64)).
Definition shr64 (x s : Z) : Z := Z.shiftr x (s mod 64).

(** ** Decoding *)

(* src/crates/fluvio-protocol/src/core/varint.rs:17-39 varint_decode (loop) *)
Fixpoint varint_decode_loop (src : list byte) (num shift : Z) : res (Z * Z) * list byte :=
  match src with
  | [] => (Err UnexpectedEof, [])
  | b :: rest =>
      let b := byte.unsigned b in
      let num := Z.lor num (shl64 (Z.land b 0x7f) shift) in
      let shift := shift + 7 in
      if Z.land b 0x80 =? 0
      then (Ok (Z.lxor (shr64 num 1) (as_i64 (- Z.land num 1)), shift / 7), rest)
      else varint_decode_loop rest num shift
  end.

(* src/crates/fluvio-protocol/src/core/varint.rs:13-40 varint_decode *)
Definition varint_decode {A} : M (A * list byte) (Z * Z) := fun s =>
  let '(r, src) := varint_decode_loop (snd s) 0 0 in (r, (fst s, src)).

(** ** Encoding *)

(* src/crates/fluvio-protocol/src/core/varint.rs:47-47 zigzag value *)
Definition variant_value (num : Z) : Z := Z.lxor (shl64 num 1) (shr64 num 31).

(* src/crates/fluvio-protocol/src/core/varint.rs:49-67 variant_encode (loop) *)
Definition variant_encode_step (s : Z * BufMut) : (Z * BufMut) + (res unit * BufMut) :=
  let '(v, buf) := s in
  if Z.land v 0xffffff80 =? 0 then
    if remaining_mut buf =? 0 then inr (Err UnexpectedEof, buf)
    else inr (put_be 1 (as_u8 v) buf)
  else
    let b := as_u8 (Z.lor (Z.land v 0x7f) 0x80) in
    if remaining_mut buf =? 0 then inr (Err UnexpectedEof, buf)
    else match put_be 1 b buf with
         | (Ok _, buf') => inl (shr64 v 7, buf')
         | r => inr r
         end.

(** Every turn of the loop uses a byte of a buffer whose capacity is a
    [usize]: [2 ^ 64] turns are enough. *)
Definition loop_fuel : positive := 2 ^ 64.

(* src/crates/fluvio-protocol/src/core/varint.rs:43-68 variant_encode *)
Definition variant_encode (num : Z) : Enc := fun buf =>
  match loop_until loop_fuel variant_encode_step (variant_value num, buf) with
  | inr r => r
  | inl (_, buf') => (Panic, buf')
  end.

(* src/crates/fluvio-protocol/src/core/varint.rs:74-79 variant_size (loop) *)
Definition variant_size_step (s : Z * Z) : (Z * Z) + Z :=
  let '(v, bytes) := s in
  if Z.land v 0xffffff80 =? 0 then inr bytes else inl (shr64 v 7, bytes + 1).

(** [None] when the loop does not end: see [variant_size_none]. *)
(* src/crates/fluvio-protocol/src/core/varint.rs:70-80 variant_size *)
Definition variant_size (num : Z) : option Z :=
  match loop_until 10 variant_size_step (variant_value num, 1) with
  | inr n => Some n
  | inl _ => None
  end.

(** ** Specification *)

Definition zigzag (n : Z) : Z := if 0 <=? n then 2 * n else - 2 * n - 1.
Definition unzigzag (v : Z) : Z := if Z.even v then v / 2 else - (v / 2) - 1.

(** Base-128 groups, least significant first, at most [n + 1] of them. *)
Fixpoint leb128 (n : nat) (v : Z) : list byte :=
  match n with
  | O => [byte.of_Z v]
  | S n => if v <? 128 then [byte.of_Z v]
           else byte.of_Z (v mod 128 + 128) :: leb128 n (v / 128)
  end.

Definition wire_varint (num : Z) : list byte := leb128 4 (zigzag num).

Example varint_ex1 : wire_varint (-134217729) =
  [Byte.x81; Byte.x80; Byte.x80; Byte.x80; Byte.x01].
Proof. vm_compute. reflexivity. Qed.
Example varint_ex2 : variant_encode 8191 (MkBufMut [] 5)
  = (Ok tt, MkBufMut [Byte.xfe; Byte.x7f] 3).
Proof. vm_compute. reflexivity. Qed.
Example varint_ex3 : varint_decode (tt, [Byte.xfe; Byte.x7f; Byte.x00])
  = (Ok (8191, 2), (tt, [Byte.x00])).
Proof. vm_compute. reflexivity. Qed.
Example varint_ex4 : variant_size 0x5555555500000000 = None.
Proof. vm_compute. reflexivity. Qed.
Example varint_ex5 : variant_encode (2 ^ 31) (MkBufMut [] 5)
  = (Ok tt, MkBufMut [Byte.x01] 4).
Proof. vm_compute. reflexivity. Qed.

(** ** Bit lemmas *)

Lemma land_ones7 z : Z.land z 0x7f = z mod 128.
Proof. change 0x7f with (Z.ones 7). by rewrite Z.land_ones by lia. Qed.

Lemma lor_shl_add a b s : 0 <= s -> 0 <= a < 2 ^ s -> Z.lor a (Z.shiftl b s) = a + b * 2 ^ s.
Proof.
  intros Hs Ha. rewrite <-Z.shiftl_mul_pow2 by done.
  assert (Z.land a (Z.shiftl b s) = 0) as E.
  { apply Z.bits_inj'. intros n Hn. rewrite Z.land_spec, Z.bits_0, Z.shiftl_spec by done.
    destruct (Z.lt_ge_cases n s).
    - rewrite (Z.testbit_neg_r b) by lia. apply andb_false_r.
    - rewrite <-(Z.mod_small a (2 ^ s)) by done. rewrite Z.mod_pow2_bits_high by lia. done. }
  rewrite Z.add_nocarry_lxor, Z.lxor_lor by done. done.
Qed.

Lemma byte_bit7 b : 0 <= b < 256 -> (Z.land b 0x80 =? 0) = (b <? 128).
Proof.
  intros Hb. assert (forall n : nat, (n < 256)%nat ->
    (Z.land (Z.of_nat n) 0x80 =? 0) = (Z.of_nat n <? 128)) as H.
  { intros n Hn. do 256 (destruct n as [|n]; [vm_compute; reflexivity|]). lia. }
  specialize (H (Z.to_nat b) ltac:(lia)). by rewrite Z2Nat.id in H by lia.
Qed.

Lemma mask_shift v : 0 <= v < 2 ^ 32 -> Z.land v 0xffffff80 = Z.shiftl (Z.shiftr v 7) 7.
Proof.
  intros Hv. change 0xffffff80 with (Z.shiftl (Z.ones 25) 7).
  apply Z.bits_inj'. intros n Hn.
  rewrite Z.land_spec, !Z.shiftl_spec by done.
  destruct (Z.lt_ge_cases n 7).
  { rewrite !(Z.testbit_neg_r _ (n - 7)) by lia. apply andb_false_r. }
  rewrite Z.shiftr_spec by lia. replace (n - 7 + 7) with n by lia.
  destruct (Z.lt_ge_cases n 32).
  { rewrite Z.ones_spec_low by lia. apply andb_true_r. }
  rewrite <-(Z.mod_small v (2 ^ 32)) by done.
  rewrite Z.mod_pow2_bits_high by lia. done.
Qed.

Lemma mask_test v : 0 <= v < 2 ^ 32 -> (Z.land v 0xffffff80 =? 0) = (v <? 128).
Proof.
  intros Hv. rewrite mask_shift, Z.shiftl_mul_pow2, Z.shiftr_div_pow2 by lia.
  change (2 ^ 7) with 128. destruct (Z.ltb_spec v 128); apply bool_decide_eq_true || idtac.
  - rewrite Z.div_small by lia. done.
  - apply Z.eqb_neq. pose proof (Z.div_le_mono 128 v 128 ltac:(lia) ltac:(lia)).
    rewrite Z.div_same in * by lia. lia.
Qed.

(** ** The encoder meets its specification on 32-bit values *)

Lemma variant_value_zigzag num : in_i 32 num -> variant_value num = zigzag num.
Proof.
  unfold in_i, variant_value, zigzag, shl64, shr64. simpl (32 - 1). intros Hn.
  change (1 mod 64) with 1. change (31 mod 64) with 31.
  rewrite Z.shiftl_mul_pow2 by lia. rewrite wrap_i_id; [|lia|unfold in_i; simpl; lia].
  rewrite Z.shiftr_div_pow2 by lia. case_ltb.
  - rewrite (Z.div_small num) by (simpl; lia). rewrite Z.lxor_0_r. lia.
  - assert (num / 2 ^ 31 = -1) as ->.
    { symmetry. apply (Z.div_unique_pos _ _ _ (num + 2 ^ 31)); simpl; lia. }
    rewrite Z.lxor_m1_r. unfold Z.lnot. lia.
Qed.

Lemma zigzag_range num : in_i 32 num -> 0 <= zigzag num < 2 ^ 32.
Proof. unfold in_i, zigzag. simpl. intros. case_ltb; lia. Qed.

Lemma unzigzag_zigzag n : unzigzag (zigzag n) = n.
Proof.
  unfold unzigzag, zigzag. destruct (Z.leb_spec 0 n).
  - rewrite Z.even_mul. simpl. rewrite Z.mul_comm, Z.div_mul by lia. done.
  - replace (-2 * n - 1) with (1 + 2 * (- n - 1)) by lia.
    rewrite Z.even_add_mul_2. change (Z.even 1) with false. cbv iota.
    rewrite (Z.mul_comm 2), Z.div_add by lia. change (1 / 2) with 0. lia.
Qed.

Lemma put_be_1 z : put_be 1 z = put_slice [byte.of_Z z].
Proof. done. Qed.

Lemma variant_encode_step_small v buf :
  0 <= v < 128 -> 1 <= remaining_mut buf ->
  variant_encode_step (v, buf) = inr (Ok tt, buf_append buf [byte.of_Z v]).
Proof.
  intros Hv Hb. unfold variant_encode_step. rewrite mask_test by lia.
  destruct (Z.ltb_spec v 128); [|lia]. destruct (Z.eqb_spec (remaining_mut buf) 0); [lia|].
  rewrite wrap_u_id by (unfold in_u; lia). rewrite put_be_1. f_equal.
  apply emits_put_slice. unfold zlen; simpl; lia.
Qed.

Lemma variant_encode_step_big v buf :
  128 <= v < 2 ^ 32 -> 1 <= remaining_mut buf ->
  variant_encode_step (v, buf) =
    inl (v / 128, buf_append buf [byte.of_Z (v mod 128 + 128)]).
Proof.
  intros Hv Hb. unfold variant_encode_step. rewrite mask_test by lia.
  destruct (Z.ltb_spec v 128); [lia|]. destruct (Z.eqb_spec (remaining_mut buf) 0); [lia|].
  pose proof (Z.mod_pos_bound v 128 ltac:(lia)).
  assert (Z.lor (Z.land v 0x7f) 0x80 = v mod 128 + 128) as ->.
  { rewrite land_ones7. etransitivity; [apply (lor_shl_add (v mod 128) 1 7)|]; lia. }
  rewrite wrap_u_id by (unfold in_u; lia). rewrite put_be_1.
  rewrite emits_put_slice by (unfold zlen; simpl; lia). unfold shr64.
  change (7 mod 64) with 7. rewrite Z.shiftr_div_pow2 by lia. done.
Qed.

Lemma leb128_nonempty n v : 1 <= zlen (leb128 n v).
Proof.
  destruct n; simpl; [done|]. destruct (v <? 128); [done|].
  rewrite zlen_cons. pose proof (zlen_nonneg (leb128 n (v / 128))). lia.
Qed.

Lemma variant_encode_loop n v buf :
  0 <= v < 2 ^ 32 -> v < 2 ^ (7 * Z.of_nat (S n)) ->
  zlen (leb128 n v) <= remaining_mut buf ->
  loop_n (S n) variant_encode_step (v, buf) =
    inr (Ok tt, buf_append buf (leb128 n v)).
Proof.
  revert v buf. induction n as [|n IH]; intros v buf Hv Hn Hb.
  - change (7 * Z.of_nat 1) with 7 in Hn. change (zlen (leb128 0 v)) with 1 in Hb.
    rewrite loop_n_S. cbn [leb128]. rewrite variant_encode_step_small by lia. done.
  - pose proof (leb128_nonempty (S n) v). simpl leb128 in *.
    rewrite loop_n_S.
    destruct (Z.ltb_spec v 128).
    + rewrite variant_encode_step_small by lia. done.
    + rewrite variant_encode_step_big by lia. rewrite zlen_cons in Hb.
      replace (7 * Z.of_nat (S (S n))) with (7 + 7 * Z.of_nat (S n)) in Hn by lia.
      rewrite Z.pow_add_r in Hn by lia.
      assert (v / 128 < 2 ^ (7 * Z.of_nat (S n))).
      { apply Z.div_lt_upper_bound; [lia|]. simpl (2 ^ 7) in Hn. lia. }
      assert (0 <= v / 128 < 2 ^ 32).
      { split; [apply Z.div_pos; lia|]. apply Z.div_lt_upper_bound; lia. }
      rewrite IH; [|lia|lia|simpl; rewrite zlen_cons, zlen_nil; lia].
      by rewrite buf_append_app.
Qed.

Lemma variant_encode_emits num : in_i 32 num -> emits (variant_encode num) (wire_varint num).
Proof.
  intros Hn d Hd. unfold variant_encode, wire_varint in *.
  rewrite variant_value_zigzag by done. pose proof (zigzag_range num Hn) as Hz.
  rewrite loop_until_n, (loop_n_mono 5 _ _ _ (Ok tt, buf_append d (leb128 4 (zigzag num))));
    [done| |unfold loop_fuel; lia].
  apply variant_encode_loop; [done| |done]. simpl. lia.
Qed.

Lemma variant_size_loop n v k :
  0 <= v < 2 ^ 32 -> v < 2 ^ (7 * Z.of_nat (S n)) ->
  loop_n (S n) variant_size_step (v, k) = inr (k - 1 + zlen (leb128 n v)).
Proof.
  revert v k. induction n as [|n IH]; intros v k Hv Hn; cbn [leb128];
    rewrite loop_n_S; unfold variant_size_step at 1; rewrite mask_test by lia.
  - change (7 * Z.of_nat 1) with 7 in Hn. destruct (Z.ltb_spec v 128); [|lia].
    f_equal. rewrite zlen_cons, zlen_nil. lia.
  - destruct (Z.ltb_spec v 128).
    + f_equal. rewrite zlen_cons, zlen_nil. lia.
    + unfold shr64. change (7 mod 64) with 7. rewrite Z.shiftr_div_pow2 by lia.
      change (2 ^ 7) with 128. rewrite zlen_cons.
      replace (7 * Z.of_nat (S (S n))) with (7 + 7 * Z.of_nat (S n)) in Hn by lia.
      rewrite Z.pow_add_r in Hn by lia. rewrite IH.
      * f_equal. lia.
      * split; [apply Z.div_pos; lia|apply Z.div_lt_upper_bound; lia].
      * apply Z.div_lt_upper_bound; [lia|]. change (2 ^ 7) with 128 in Hn. lia.
Qed.

Lemma variant_size_wire num : in_i 32 num -> variant_size num = Some (zlen (wire_varint num)).
Proof.
  intros Hn. unfold variant_size, wire_varint. rewrite variant_value_zigzag by done.
  pose proof (zigzag_range num Hn) as Hz.
  rewrite loop_until_n, (loop_n_mono 5 _ _ _ (1 - 1 + zlen (leb128 4 (zigzag num)))).
  - done.
  - apply variant_size_loop; [done|]. change (7 * Z.of_nat 5) with 35. lia.
  - lia.
Qed.

Lemma wire_varint_length num : in_i 32 num -> 1 <= zlen (wire_varint num) <= 5.
Proof.
  intros _. unfold wire_varint. split; [apply leb128_nonempty|].
  cbn [leb128]. repeat case_ltb; unfold zlen; simpl; lia.
Qed.

(** ** The decoder inverts the encoder on 32-bit values *)

Lemma byte_small v : 0 <= v < 256 -> byte.unsigned (byte.of_Z v) = v.
Proof. intros. rewrite byte.unsigned_of_Z. unfold byte.wrap. by rewrite Z.mod_small. Qed.

(** The last step of [varint_decode]. *)
Lemma unzigzag_bits v : 0 <= v < 2 ^ 63 ->
  Z.lxor (shr64 v 1) (as_i64 (- Z.land v 1)) = unzigzag v.
Proof.
  intros Hv. unfold shr64. change (1 mod 64) with 1. rewrite Z.shiftr_div_pow2 by lia.
  change (2 ^ 1) with 2. change 1 with (Z.ones 1) at 1. rewrite Z.land_ones by lia.
  change (2 ^ 1) with 2. rewrite Zmod_even. unfold unzigzag. destruct (Z.even v).
  - change (as_i64 (-0)) with 0. apply Z.lxor_0_r.
  - change (as_i64 (-1)) with (-1). rewrite Z.lxor_m1_r. unfold Z.lnot. lia.
Qed.

(** One byte of the loop, in arithmetic terms. *)
Lemma varint_decode_loop_cons b num sh rest :
  0 <= sh -> sh + 7 <= 62 -> 0 <= num < 2 ^ sh ->
  varint_decode_loop (b :: rest) num sh =
    let num' := num + (byte.unsigned b mod 128) * 2 ^ sh in
    if byte.unsigned b <? 128 then (Ok (unzigzag num', (sh + 7) / 7), rest)
    else varint_decode_loop rest num' (sh + 7).
Proof.
  intros Hsh Hfit Hnum. cbn [varint_decode_loop]. cbv zeta.
  pose proof (byte.unsigned_range b) as Hb. change (2 ^ 8) with 256 in Hb.
  rewrite byte_bit7, land_ones7 by done.
  pose proof (Z.mod_pos_bound (byte.unsigned b) 128 ltac:(lia)) as Hm.
  assert (0 < 2 ^ sh) by (apply Z.pow_pos_nonneg; lia).
  assert (2 ^ sh * 128 <= 2 ^ 62).
  { change 128 with (2 ^ 7). rewrite <-Z.pow_add_r by lia. apply Z.pow_le_mono_r; lia. }
  unfold shl64. rewrite (Z.mod_small sh 64) by lia.
  rewrite wrap_i_id; [|lia|rewrite Z.shiftl_mul_pow2 by lia; unfold in_i; simpl; nia].
  rewrite lor_shl_add by lia.
  destruct (_ <? 128); [|done]. rewrite unzigzag_bits by (split; [nia|simpl; nia]). done.
Qed.

Lemma varint_decode_loop_leb n v num sh rest :
  0 <= sh -> 0 <= num < 2 ^ sh -> 0 <= v < 2 ^ (7 * Z.of_nat (S n)) ->
  sh + 7 * Z.of_nat (S n) <= 62 ->
  varint_decode_loop (leb128 n v ++ rest) num sh =
    (Ok (unzigzag (num + v * 2 ^ sh), (sh + 7 * zlen (leb128 n v)) / 7), rest).
Proof.
  revert v num sh. induction n as [|n IH]; intros v num sh Hsh Hnum Hv Hfit; cbn [leb128].
  - change (7 * Z.of_nat 1) with 7 in *. cbn [app].
    rewrite varint_decode_loop_cons by lia. cbv zeta. rewrite byte_small by lia.
    destruct (Z.ltb_spec v 128); [|lia]. rewrite Z.mod_small by lia. done.
  - destruct (Z.ltb_spec v 128); cbn [app]; rewrite varint_decode_loop_cons by lia; cbv zeta.
    + rewrite byte_small by lia. destruct (Z.ltb_spec v 128); [|lia].
      rewrite Z.mod_small by lia. done.
    + pose proof (Z.mod_pos_bound v 128 ltac:(lia)) as Hm. rewrite byte_small by lia.
      destruct (Z.ltb_spec (v mod 128 + 128) 128); [lia|].
      rewrite (Z.add_comm (v mod 128)), <-Z.add_mod_idemp_l, Z.mod_same, Z.add_0_l, Zmod_mod by lia.
      assert (0 < 2 ^ sh) by (apply Z.pow_pos_nonneg; lia).
      replace (7 * Z.of_nat (S (S n))) with (7 + 7 * Z.of_nat (S n)) in * by lia.
      rewrite Z.pow_add_r in Hv by lia. change (2 ^ 7) with 128 in Hv.
      pose proof (Z.div_mod v 128 ltac:(lia)).
      rewrite IH.
      * rewrite Z.pow_add_r by lia. change (2 ^ 7) with 128. rewrite zlen_cons.
        do 3 f_equal; [f_equal; nia|f_equal; lia].
      * lia.
      * rewrite Z.pow_add_r by lia. change (2 ^ 7) with 128. nia.
      * split; [apply Z.div_pos; lia|apply Z.div_lt_upper_bound; lia].
      * lia.
Qed.

Lemma varint_decode_wire {A} (a : A) num rest : in_i 32 num ->
  varint_decode (a, wire_varint num ++ rest) = (Ok (num, zlen (wire_varint num)), (a, rest)).
Proof.
  intros Hn. unfold varint_decode, wire_varint. cbn [snd fst]. pose proof (zigzag_range num Hn).
  rewrite varint_decode_loop_leb; [|lia|change (2 ^ 0) with 1; lia| |].
  - change (2 ^ 0) with 1. rewrite Z.add_0_l, Z.mul_1_r, unzigzag_zigzag, Z.add_0_l.
    rewrite Z.mul_comm, Z.div_mul by lia. done.
  - change (7 * Z.of_nat 5) with 35. lia.
  - lia.
Qed.

(** ** Outside the 32-bit range *)

(** A value on which the size loop is not done after 10 turns has become [-1]. *)
Lemma variant_size_step_inl v k s :
  variant_size_step (v, k) = inl s -> fst s = Z.shiftr v 7.
Proof. unfold variant_size_step. break_match; [done|]. intros [= <-]. done. Qed.

Lemma variant_size_loop_state n v k s :
  loop_n n variant_size_step (v, k) = inl s -> fst s = Z.shiftr v (7 * Z.of_nat n).
Proof.
  revert v k. induction n as [|n IH]; intros v k.
  - intros [= <-]. done.
  - rewrite loop_n_S. destruct (variant_size_step (v, k)) as [[v' k']|] eqn:E; [|done].
    apply variant_size_step_inl in E. simpl in E. subst v'. intros ->%IH.
    rewrite Z.shiftr_shiftr by lia. f_equal. lia.
Qed.

Lemma variant_size_minus_one n k : exists k',
  loop_n n variant_size_step (-1, k) = inl (-1, k').
Proof.
  destruct (loop_n_diverges (fun s => fst s = -1) variant_size_step) with (n := n) (s := (-1, k))
    as ([v k'] & E & Hv); [|done|].
  - intros [v j] Hv. simpl in Hv. subst v. eexists. split; [reflexivity|done].
  - simpl in Hv. subst. eauto.
Qed.

Lemma shl64_range x s : in_i 64 (shl64 x s).
Proof. apply wrap_i_range. lia. Qed.

Lemma shiftr_range w x s : 0 < w -> 0 <= s -> in_i w x -> in_i w (Z.shiftr x s).
Proof.
  unfold in_i. intros Hw Hs Hx. rewrite Z.shiftr_div_pow2 by done.
  assert (1 <= 2 ^ s) by (apply (Z.pow_le_mono_r 2 0); lia).
  assert (0 < 2 ^ (w - 1)) by (apply Z.pow_pos_nonneg; lia).
  split.
  - apply Z.div_le_lower_bound; nia.
  - apply Z.div_lt_upper_bound; nia.
Qed.

(** The sign of a value of [w] bits is all that is left after [w - 1] shifts. *)
Lemma shiftr_sign w x s : 0 < w -> w - 1 <= s -> in_i w x ->
  Z.shiftr x s = if 0 <=? x then 0 else -1.
Proof.
  unfold in_i. intros Hw Hs Hx. rewrite Z.shiftr_div_pow2 by lia.
  assert (2 ^ (w - 1) <= 2 ^ s) by (apply Z.pow_le_mono_r; lia).
  case_ltb.
  - apply Z.div_small. lia.
  - symmetry. apply (Z.div_unique_pos _ _ _ (x + 2 ^ s)); lia.
Qed.

Lemma in_i_testbit w x : 0 < w ->
  in_i w x <-> (forall n, w - 1 <= n -> Z.testbit x n = (x <? 0)).
Proof.
  intros Hw. split.
  - intros Hx n Hn. rewrite <-(Z.add_0_l n), <-Z.shiftr_spec by lia.
    rewrite (shiftr_sign w) by (done || lia).
    destruct (Z.leb_spec 0 x), (Z.ltb_spec x 0); try lia; [apply Z.bits_0|apply Z.bits_m1; lia].
  - intros Hb. unfold in_i.
    assert (Z.shiftr x (w - 1) = if x <? 0 then -1 else 0) as E.
    { apply Z.bits_inj'. intros n Hn. rewrite Z.shiftr_spec, Hb by lia.
      destruct (x <? 0); [by rewrite Z.bits_m1|by rewrite Z.bits_0]. }
    rewrite Z.shiftr_div_pow2 in E by lia.
    assert (0 < 2 ^ (w - 1)) by (apply Z.pow_pos_nonneg; lia).
    pose proof (Z.div_mod x (2 ^ (w - 1)) ltac:(lia)).
    pose proof (Z.mod_pos_bound x (2 ^ (w - 1)) ltac:(lia)).
    destruct (x <? 0); nia.
Qed.

Lemma lxor_range w x y : 0 < w -> in_i w x -> in_i w y -> in_i w (Z.lxor x y).
Proof.
  intros Hw Hx Hy. apply in_i_testbit; [done|]. intros n Hn.
  rewrite Z.lxor_spec, (proj1 (in_i_testbit w x Hw) Hx), (proj1 (in_i_testbit w y Hw) Hy) by done.
  pose proof (Z.lxor_nonneg x y).
  destruct (Z.ltb_spec x 0), (Z.ltb_spec y 0), (Z.ltb_spec (Z.lxor x y) 0); simpl; try done; lia.
Qed.

Lemma variant_value_range num : in_i 64 num -> in_i 64 (variant_value num).
Proof.
  intros. apply lxor_range; [lia|apply shl64_range|].
  unfold shr64. change (31 mod 64) with 31. apply shiftr_range; [lia|lia|done].
Qed.

(** [None] means exactly that the loop of [variant_size] never ends. *)
Lemma variant_size_none num : in_i 64 num ->
  variant_size num = None <->
  forall n, exists s, loop_n n variant_size_step (variant_value num, 1) = inl s.
Proof.
  intros Hn. unfold variant_size. rewrite loop_until_n. change (Pos.to_nat 10) with 10%nat. split.
  - destruct (loop_n 10 _ _) as [[v k]|] eqn:E; [intros _|done]. intros n.
    assert (v = -1) as ->.
    { replace 10%nat with (9 + 1)%nat in E by lia. rewrite loop_n_add in E.
      destruct (loop_n 9 _ _) as [[v' k']|] eqn:E9; [|done].
      apply variant_size_loop_state in E9. simpl fst in E9.
      rewrite (shiftr_sign 64) in E9 by (auto using variant_value_range || lia).
      rewrite loop_n_S in E. destruct (variant_size_step (v', k')) as [[v1 k1]|] eqn:E1; [|done].
      injection E as -> ->. pose proof E1 as E2. apply variant_size_step_inl in E2.
      simpl in E2. destruct (0 <=? _); subst v'; [done|done]. }
    destruct (decide (n <= 10)%nat).
    + destruct (loop_n n _ _) as [s|r] eqn:En; [eauto|].
      rewrite (loop_n_mono n 10 _ _ r) in E by done. done.
    + replace n with (10 + (n - 10))%nat by lia. rewrite loop_n_add, E.
      destruct (variant_size_minus_one (n - 10) k) as [k' ->]. eauto.
  - intros H. destruct (H 10%nat) as [s ->]. done.
Qed.

(** ** Properties *)

(** A 32-bit integer written as a varint takes the announced number of
    bytes, at most five, and reads back as itself whatever follows. *)
Theorem varint_roundtrip {A} (a : A) (num : Z) (rest : list byte) :
  in_i 32 num ->
  exists out,
    variant_encode num vec_new = (Ok tt, out) /\
    variant_size num = Some (zlen (written out)) /\ zlen (written out) <= 5 /\
    varint_decode (a, written out ++ rest) = (Ok (num, zlen (written out)), (a, rest)).
Proof.
  intros Hn. pose proof (wire_varint_length num Hn) as Hl. eexists. split.
  - apply variant_encode_emits; [done|]. cbn [remaining_mut vec_new]. unfold isize_max. lia.
  - cbn [written buf_append vec_new app]. split; [by apply variant_size_wire|].
    split; [lia|]. by apply varint_decode_wire.
Qed.

Lemma varint_roundtrip_witness :
  exists out,
    variant_encode (-134217729) vec_new = (Ok tt, out) /\
    variant_size (-134217729) = Some (zlen (written out)) /\ zlen (written out) <= 5 /\
    varint_decode (tt, written out ++ []) = (Ok (-134217729, zlen (written out)), (tt, [])).
Proof. apply (varint_roundtrip tt (-134217729) []). vm_compute. split; congruence. Defined.

(** Beyond 32 bits the loop of [variant_size] need not end: there is an
    [i64] on which no number of turns is enough. *)
Theorem variant_size_diverges :
  exists num, in_i 64 num /\
    forall n, exists s, loop_n n variant_size_step (variant_value num, 1) = inl s.
Proof.
  exists 0x5555555500000000. assert (in_i 64 0x5555555500000000) as Hn by (vm_compute; split; congruence).
  split; [done|]. apply variant_size_none; [done|]. vm_compute. reflexivity.
Qed.
