(* ===== verification/Utf8.v ===== *)
(** * UTF-8

    Rust's [String] holds valid UTF-8; [read_to_string] rejects anything else.
    A Rust string is a [string] of bytes here, and this file holds the validity
    test of the standard library and the conversions. *)

From S2P Require Import Prelude.
From Stdlib Require Import String.
From stdpp Require Import strings.

#[local] Open Scope Z_scope.

Definition in_range (lo hi : Z) (b : byte) : bool :=
  (lo <=? byte.unsigned b) && (byte.unsigned b <=? hi).

Definition is_cont : byte -> bool := in_range 0x80 0xbf.

(** The well-formed byte sequences of the Unicode standard (table 3-7), which
    [core::str::from_utf8] accepts. *)
Fixpoint utf8_valid (bs : list byte) : bool :=
  match bs with
  | [] => true
  | b1 :: r1 =>
      if in_range 0x00 0x7f b1 then utf8_valid r1
      else match r1 with
      | [] => false
      | b2 :: r2 =>
          if in_range 0xc2 0xdf b1 && is_cont b2 then utf8_valid r2
          else match r2 with
          | [] => false
          | b3 :: r3 =>
              if ((in_range 0xe0 0xe0 b1 && in_range 0xa0 0xbf b2)
                  || (in_range 0xe1 0xec b1 && is_cont b2)
                  || (in_range 0xed 0xed b1 && in_range 0x80 0x9f b2)
                  || (in_range 0xee 0xef b1 && is_cont b2))
                 && is_cont b3
              then utf8_valid r3
              else match r3 with
              | [] => false
              | b4 :: r4 =>
                  if ((in_range 0xf0 0xf0 b1 && in_range 0x90 0xbf b2)
                      || (in_range 0xf1 0xf3 b1 && is_cont b2)
                      || (in_range 0xf4 0xf4 b1 && in_range 0x80 0x8f b2))
                     && is_cont b3 && is_cont b4
                  then utf8_valid r4
                  else false
              end
          end
      end
  end.

Definition bytes_of_string (s : string) : list byte := String.list_byte_of_string s.
Definition string_of_bytes (bs : list byte) : string := String.string_of_list_byte bs.

Lemma string_of_bytes_of_string s : string_of_bytes (bytes_of_string s) = s.
Proof. apply String.string_of_list_byte_of_string. Qed.

(** [str::len] *)
Definition str_len (s : string) : Z := zlen (bytes_of_string s).

Definition str_valid (s : string) : Prop := utf8_valid (bytes_of_string s) = true.

Lemma utf8_valid_ascii bs :
  forallb (in_range 0x00 0x7f) bs = true -> utf8_valid bs = true.
Proof.
  induction bs as [|b bs IH]; [done|]. simpl. intros [Hb Hbs]%andb_true_iff.
  rewrite Hb. auto.
Qed.

Example utf8_ex1 : utf8_valid [Byte.xe2; Byte.x82; Byte.xac] = true.
Proof. vm_compute. reflexivity. Qed.
Example utf8_ex2 : utf8_valid [Byte.xc0; Byte.x80] = false.
Proof. vm_compute. reflexivity. Qed.
Example utf8_ex3 : utf8_valid [Byte.xed; Byte.xa0; Byte.x80] = false.
Proof. vm_compute. reflexivity. Qed.
