(* ===== verification/Scalars.v ===== *)
(** * Scalar codecs

    The [Encoder] and [Decoder] implementations of [fluvio-protocol/src/core]
    for booleans, integers, floats, durations and strings.  A float is its IEEE
    bit pattern ([to_bits]). *)

From S2P Require Import Prelude Wire Utf8.
From stdpp Require Import strings.

#[local] Open Scope Z_scope.

(** ** Operations *)

(* src/crates/fluvio-protocol/src/core/decoder.rs:133-156 bool::decode *)
Definition decode_bool (version : Z) : Dec bool :=
  ensure_remaining 1 ;;
  value ← get_be 1;
  if value =? 0 then self_put false
  else if value =? 1 then self_put true
  else fail InvalidData.

(* src/crates/fluvio-protocol/src/core/decoder.rs:158-173 i8::decode *)
Definition decode_i8 (version : Z) : Dec Z :=
  ensure_remaining 1 ;; value ← get_be 1; self_put (as_i8 value).

(* src/crates/fluvio-protocol/src/core/decoder.rs:175-190 u8::decode *)
Definition decode_u8 (version : Z) : Dec Z :=
  ensure_remaining 1 ;; value ← get_be 1; self_put value.

(* src/crates/fluvio-protocol/src/core/decoder.rs:192-204 i16::decode *)
Definition decode_i16 (version : Z) : Dec Z :=
  ensure_remaining 2 ;; value ← get_be 2; self_put (as_i16 value).

(* src/crates/fluvio-protocol/src/core/decoder.rs:206-218 u16::decode *)
Definition decode_u16 (version : Z) : Dec Z :=
  ensure_remaining 2 ;; value ← get_be 2; self_put value.

(* src/crates/fluvio-protocol/src/core/decoder.rs:220-233 i32::decode *)
Definition decode_i32 (version : Z) : Dec Z :=
  ensure_remaining 4 ;; value ← get_be 4; self_put (as_i32 value).

(* src/crates/fluvio-protocol/src/core/decoder.rs:235-248 u32::decode *)
Definition decode_u32 (version : Z) : Dec Z :=
  ensure_remaining 4 ;; value ← get_be 4; self_put value.

(* src/crates/fluvio-protocol/src/core/decoder.rs:250-262 f32::decode *)
Definition decode_f32 (version : Z) : Dec Z :=
  ensure_remaining 4 ;; value ← get_be 4; self_put value.

(* src/crates/fluvio-protocol/src/core/decoder.rs:264-277 u64::decode *)
Definition decode_u64 (version : Z) : Dec Z :=
  ensure_remaining 8 ;; value ← get_be 8; self_put value.

(* src/crates/fluvio-protocol/src/core/decoder.rs:279-292 i64::decode *)
Definition decode_i64 (version : Z) : Dec Z :=
  ensure_remaining 8 ;; value ← get_be 8; self_put (as_i64 value).

(* src/crates/fluvio-protocol/src/core/decoder.rs:294-306 f64::decode *)
Definition decode_f64 (version : Z) : Dec Z :=
  ensure_remaining 8 ;; value ← get_be 8; self_put value.

(** [std::time::Duration]: whole seconds and a nanosecond part below 10^9. *)
Record Duration := MkDuration { as_secs : Z; subsec_nanos : Z }.

(** [Duration::new]: nanoseconds beyond a second carry over; panics when the
    seconds overflow. *)
Definition duration_new (secs nanos : Z) : option Duration :=
  let secs' := secs + nanos / 10 ^ 9 in
  if secs' <? 2 ^ 64 then Some (MkDuration secs' (nanos mod 10 ^ 9)) else None.

(* src/crates/fluvio-protocol/src/core/decoder.rs:308-327 Duration::decode *)
Definition decode_duration (version : Z) : Dec Duration :=
  ensure_remaining 12 ;;
  secs ← get_be 8;
  nanos ← get_be 4;
  match duration_new secs nanos with
  | Some d => self_put d
  | None => panic
  end.

(* src/crates/fluvio-protocol/src/core/encoder.rs:415-417 String::write_size *)
Definition write_size_string (version : Z) (self : string) : Z := 2 + str_len self.
(* src/crates/fluvio-protocol/src/core/encoder.rs:419-447 String::encode *)
Definition encode_string (version : Z) (self : string) : Enc :=
  ensure_remaining_mut (2 + str_len self) ;;
  put_be 2 (as_u16 (str_len self)) ;;
  d ← get;
  (* [Writer::write] stores as much as fits *)
  let bytes_written := Z.min (remaining_mut d) (str_len self) in
  put_slice (ztake bytes_written (bytes_of_string self)) ;;
  if bytes_written =? str_len self then mret tt else fail UnexpectedEof.


(* src/crates/fluvio-protocol/src/core/decoder.rs:340-351 decode_string *)
Definition decode_string_len {A} (len : Z) : M (A * list byte) string :=
  bs ← take_bytes (as_usize len);
  if negb (utf8_valid bs) then fail InvalidData
  else if zlen bs =? as_usize len then mret (string_of_bytes bs)
  else fail UnexpectedEof.
(* src/crates/fluvio-protocol/src/core/decoder.rs:353-373 String::decode *)
Definition decode_string (version : Z) : Dec string :=
  ensure_remaining 2 ;;
  raw ← get_be 2;
  let len := as_i16 raw in
  if len <=? 0 then mret tt
  else (value ← decode_string_len len; self_put value).

(** ** The codecs *)

(* src/crates/fluvio-protocol/src/core/encoder.rs:152-174 impl Encoder for bool *)
Definition codec_bool : Codec bool := MkCodec false (fun _ _ => 1)
  (fun _ self => ensure_remaining_mut 1 ;; if self then put_be 1 1 else put_be 1 0)
  decode_bool.
(* src/crates/fluvio-protocol/src/core/encoder.rs:176-194 impl Encoder for i8 *)
Definition codec_i8 : Codec Z := MkCodec 0 (fun _ _ => 1)
  (fun _ self => ensure_remaining_mut 1 ;; put_be 1 self)
  decode_i8.
(* src/crates/fluvio-protocol/src/core/encoder.rs:196-214 impl Encoder for u8 *)
Definition codec_u8 : Codec Z := MkCodec 0 (fun _ _ => 1)
  (fun _ self => ensure_remaining_mut 1 ;; put_be 1 self)
  decode_u8.
(* src/crates/fluvio-protocol/src/core/encoder.rs:216-235 impl Encoder for i16 *)
Definition codec_i16 : Codec Z := MkCodec 0 (fun _ _ => 2)
  (fun _ self => ensure_remaining_mut 2 ;; put_be 2 self)
  decode_i16.
(* src/crates/fluvio-protocol/src/core/encoder.rs:237-256 impl Encoder for u16 *)
Definition codec_u16 : Codec Z := MkCodec 0 (fun _ _ => 2)
  (fun _ self => ensure_remaining_mut 2 ;; put_be 2 self)
  decode_u16.
(* src/crates/fluvio-protocol/src/core/encoder.rs:258-277 impl Encoder for i32 *)
Definition codec_i32 : Codec Z := MkCodec 0 (fun _ _ => 4)
  (fun _ self => ensure_remaining_mut 4 ;; put_be 4 self)
  decode_i32.
(* src/crates/fluvio-protocol/src/core/encoder.rs:279-297 impl Encoder for u32 *)
Definition codec_u32 : Codec Z := MkCodec 0 (fun _ _ => 4)
  (fun _ self => ensure_remaining_mut 4 ;; put_be 4 self)
  decode_u32.
(* src/crates/fluvio-protocol/src/core/encoder.rs:299-317 impl Encoder for f32 *)
Definition codec_f32 : Codec Z := MkCodec 0 (fun _ _ => 4)
  (fun _ self => ensure_remaining_mut 4 ;; put_be 4 self)
  decode_f32.
(* src/crates/fluvio-protocol/src/core/encoder.rs:319-337 impl Encoder for u64 *)
Definition codec_u64 : Codec Z := MkCodec 0 (fun _ _ => 8)
  (fun _ self => ensure_remaining_mut 8 ;; put_be 8 self)
  decode_u64.
(* src/crates/fluvio-protocol/src/core/encoder.rs:339-357 impl Encoder for i64 *)
Definition codec_i64 : Codec Z := MkCodec 0 (fun _ _ => 8)
  (fun _ self => ensure_remaining_mut 8 ;; put_be 8 self)
  decode_i64.
(* src/crates/fluvio-protocol/src/core/encoder.rs:373-391 impl Encoder for f64 *)
Definition codec_f64 : Codec Z := MkCodec 0 (fun _ _ => 8)
  (fun _ self => ensure_remaining_mut 8 ;; put_be 8 self)
  decode_f64.
(* src/crates/fluvio-protocol/src/core/encoder.rs:393-412 impl Encoder for Duration *)
Definition codec_duration : Codec Duration :=
  MkCodec (MkDuration 0 0) (fun _ _ => 12)
  (fun _ self => ensure_remaining_mut 12 ;; put_be 8 (as_secs self) ;; put_be 4 (subsec_nanos self))
  decode_duration.
(* src/crates/fluvio-protocol/src/core/encoder.rs:414-448 impl Encoder for String *)
Definition codec_string : Codec string :=
  MkCodec EmptyString write_size_string encode_string decode_string.

(** ** Laws *)

Lemma emits_scalar (n : nat) (k : Z) z :
  k = Z.of_nat n -> emits (ensure_remaining_mut k ;; put_be n z) (be_split n z).
Proof. intros ->. apply emits_ensure; [by rewrite zlen_be_split|apply emits_put_be]. Qed.

(** A fixed-width read of the bytes of [z], followed by [f]. *)
Lemma reads_scalar {A} (n : nat) (k z : Z) (init : A) (f : Z -> Dec A) a :
  k = Z.of_nat n ->
  (forall rest, f (z mod 2 ^ (8 * Z.of_nat n)) (init, rest) = (Ok tt, (a, rest))) ->
  reads (ensure_remaining k ;; get_be n ≫= f) init (be_split n z) a.
Proof.
  intros -> Hf rest Hl.
  erewrite bind_ok by (apply ensure_remaining_app; by rewrite zlen_be_split).
  erewrite bind_ok by (apply get_be_app, length_be_split).
  rewrite be_combine_split, Z.mul_comm. apply Hf.
Qed.

Lemma reads_unsigned n k z init :
  k = Z.of_nat n -> in_u (8 * Z.of_nat n) z ->
  reads (ensure_remaining k ;; get_be n ≫= self_put) init (be_split n z) z.
Proof.
  intros Hk Hz. apply reads_scalar; [done|]. intros rest. unfold self_put. simpl.
  rewrite Z.mod_small by apply Hz. done.
Qed.

Lemma reads_signed n k w z init :
  k = Z.of_nat n -> w = 8 * Z.of_nat n -> 0 < w -> in_i w z ->
  reads (ensure_remaining k ;; get_be n ≫= (fun x => self_put (wrap_i w x)))
    init (be_split n z) z.
Proof.
  intros Hk -> Hw Hz. apply reads_scalar; [done|]. intros rest. unfold self_put. simpl.
  rewrite wrap_i_mod by done. done.
Qed.

#[export] Program Instance codec_bool_ok : CodecOK codec_bool := {|
  valid _ _ := True;
  wire _ b := be_split 1 (if b then 1 else 0);
|}.
Next Obligation.
  intros v b _. simpl. apply emits_ensure; [by rewrite zlen_be_split|].
  destruct b; apply emits_put_be.
Qed.
Next Obligation. intros v b _. apply zlen_be_split. Qed.
Next Obligation.
  intros v b _. simpl. unfold decode_bool. apply reads_scalar; [done|].
  intros rest. by destruct b.
Qed.

Ltac solve_scalar_codec :=
  intros; simpl in *;
  first [ apply emits_scalar; done
        | by rewrite zlen_be_split
        | apply reads_signed; [done|done|done|assumption]
        | apply reads_unsigned; [done|assumption] ].

#[local] Obligation Tactic := solve_scalar_codec.

#[export] Program Instance codec_i8_ok : CodecOK codec_i8 := {|
  valid _ z := in_i 8 z; wire _ z := be_split 1 z |}.
#[export] Program Instance codec_u8_ok : CodecOK codec_u8 := {|
  valid _ z := in_u 8 z; wire _ z := be_split 1 z |}.
#[export] Program Instance codec_i16_ok : CodecOK codec_i16 := {|
  valid _ z := in_i 16 z; wire _ z := be_split 2 z |}.
#[export] Program Instance codec_u16_ok : CodecOK codec_u16 := {|
  valid _ z := in_u 16 z; wire _ z := be_split 2 z |}.
#[export] Program Instance codec_i32_ok : CodecOK codec_i32 := {|
  valid _ z := in_i 32 z; wire _ z := be_split 4 z |}.
#[export] Program Instance codec_u32_ok : CodecOK codec_u32 := {|
  valid _ z := in_u 32 z; wire _ z := be_split 4 z |}.
#[export] Program Instance codec_f32_ok : CodecOK codec_f32 := {|
  valid _ z := in_u 32 z; wire _ z := be_split 4 z |}.
#[export] Program Instance codec_u64_ok : CodecOK codec_u64 := {|
  valid _ z := in_u 64 z; wire _ z := be_split 8 z |}.
#[export] Program Instance codec_i64_ok : CodecOK codec_i64 := {|
  valid _ z := in_i 64 z; wire _ z := be_split 8 z |}.
#[export] Program Instance codec_f64_ok : CodecOK codec_f64 := {|
  valid _ z := in_u 64 z; wire _ z := be_split 8 z |}.

(** The scalar laws in the form the struct codecs use: a scalar decoder
    overwrites whatever was there. *)

Lemma emits_i8 v z : in_i 8 z -> emits (encode codec_i8 v z) (be_split 1 z).
Proof. exact (encode_emits codec_i8 v z). Qed.
Lemma reads_i8 v z init : in_i 8 z -> reads (decode codec_i8 v) init (be_split 1 z) z.
Proof. intros. apply reads_signed; [done|done|done|assumption]. Qed.
Lemma emits_u8 v z : in_u 8 z -> emits (encode codec_u8 v z) (be_split 1 z).
Proof. exact (encode_emits codec_u8 v z). Qed.
Lemma reads_u8 v z init : in_u 8 z -> reads (decode codec_u8 v) init (be_split 1 z) z.
Proof. intros. apply reads_unsigned; [done|assumption]. Qed.
Lemma emits_i16 v z : in_i 16 z -> emits (encode codec_i16 v z) (be_split 2 z).
Proof. exact (encode_emits codec_i16 v z). Qed.
Lemma reads_i16 v z init : in_i 16 z -> reads (decode codec_i16 v) init (be_split 2 z) z.
Proof. intros. apply reads_signed; [done|done|done|assumption]. Qed.
Lemma emits_u16 v z : in_u 16 z -> emits (encode codec_u16 v z) (be_split 2 z).
Proof. exact (encode_emits codec_u16 v z). Qed.
Lemma reads_u16 v z init : in_u 16 z -> reads (decode codec_u16 v) init (be_split 2 z) z.
Proof. intros. apply reads_unsigned; [done|assumption]. Qed.
Lemma emits_i32 v z : in_i 32 z -> emits (encode codec_i32 v z) (be_split 4 z).
Proof. exact (encode_emits codec_i32 v z). Qed.
Lemma reads_i32 v z init : in_i 32 z -> reads (decode codec_i32 v) init (be_split 4 z) z.
Proof. intros. apply reads_signed; [done|done|done|assumption]. Qed.
Lemma emits_u32 v z : in_u 32 z -> emits (encode codec_u32 v z) (be_split 4 z).
Proof. exact (encode_emits codec_u32 v z). Qed.
Lemma reads_u32 v z init : in_u 32 z -> reads (decode codec_u32 v) init (be_split 4 z) z.
Proof. intros. apply reads_unsigned; [done|assumption]. Qed.
Lemma emits_i64 v z : in_i 64 z -> emits (encode codec_i64 v z) (be_split 8 z).
Proof. exact (encode_emits codec_i64 v z). Qed.
Lemma reads_i64 v z init : in_i 64 z -> reads (decode codec_i64 v) init (be_split 8 z) z.
Proof. intros. apply reads_signed; [done|done|done|assumption]. Qed.
Lemma emits_u64 v z : in_u 64 z -> emits (encode codec_u64 v z) (be_split 8 z).
Proof. exact (encode_emits codec_u64 v z). Qed.
Lemma reads_u64 v z init : in_u 64 z -> reads (decode codec_u64 v) init (be_split 8 z) z.
Proof. intros. apply reads_unsigned; [done|assumption]. Qed.

#[export] Hint Resolve emits_i8 emits_u8 emits_i16 emits_u16 emits_i32 emits_u32 emits_i64 emits_u64
  reads_i8 reads_u8 reads_i16 reads_u16 reads_i32 reads_u32 reads_i64 reads_u64 : fluvio.

#[local] Obligation Tactic := intros; cbv beta in *.

#[export] Program Instance codec_duration_ok : CodecOK codec_duration := {|
  valid _ d := in_u 64 (as_secs d) /\ 0 <= subsec_nanos d < 10 ^ 9;
  wire _ d := be_split 8 (as_secs d) ++ be_split 4 (subsec_nanos d);
|}.
Next Obligation.
  apply emits_ensure; [by autorewrite with zlen|].
  apply emits_seq; apply emits_put_be.
Qed.
Next Obligation. by autorewrite with zlen. Qed.
Next Obligation.
  destruct a as [secs nanos], H as [Hs Hn]. cbn [as_secs subsec_nanos] in *. intros rest Hlen.
  cbn [decode codec_duration dflt]. unfold decode_duration.
  erewrite bind_ok by (apply ensure_remaining_app; by autorewrite with zlen).
  rewrite <-app_assoc.
  erewrite bind_ok by (apply get_be_app, length_be_split).
  erewrite bind_ok by (apply get_be_app, length_be_split).
  rewrite !be_combine_split, !Z.mod_small by (unfold in_u in *; lia).
  unfold duration_new. rewrite Z.div_small, Z.mod_small, Z.add_0_r by lia.
  destruct (Z.ltb_spec secs (2 ^ 64)); [done|unfold in_u in *; lia].
Qed.

(** A string round-trips when its length fits the [i16] the decoder reads. *)
Lemma encode_string_emits v s :
  emits (encode_string v s) (be_split 2 (as_u16 (str_len s)) ++ bytes_of_string s).
Proof.
  intros d Hd. unfold encode_string. rewrite zlen_app, zlen_be_split in Hd.
  fold (str_len s) in Hd. pose proof (zlen_nonneg (bytes_of_string s)) as Hl.
  fold (str_len s) in Hl.
  erewrite bind_ok; [|unfold ensure_remaining_mut; case_ltb; [lia|done]].
  erewrite bind_ok by (apply emits_put_be; rewrite zlen_be_split; lia).
  erewrite bind_ok by done. cbn [remaining_mut buf_append]. rewrite zlen_be_split.
  rewrite Z.min_r by lia. rewrite ztake_all by done.
  erewrite bind_ok by (apply emits_put_slice; cbn [remaining_mut buf_append];
    rewrite zlen_be_split; fold (str_len s); lia).
  rewrite Z.eqb_refl, buf_append_app. done.
Qed.

#[export] Program Instance codec_string_ok : CodecOK codec_string := {|
  valid _ s := str_valid s /\ str_len s < 2 ^ 15;
  wire _ s := be_split 2 (as_u16 (str_len s)) ++ bytes_of_string s;
|}.
Next Obligation. apply encode_string_emits. Qed.
Next Obligation. rewrite zlen_app, zlen_be_split. reflexivity. Qed.
Next Obligation.
  destruct H as [Hu Hl]. intros rest Hlen. cbn [decode codec_string dflt]. unfold decode_string.
  pose proof (zlen_nonneg (bytes_of_string a)) as Hp. fold (str_len a) in Hp.
  erewrite bind_ok by (apply ensure_remaining_app; autorewrite with zlen; fold (str_len a); lia).
  rewrite <-app_assoc. erewrite bind_ok by (apply get_be_app, length_be_split).
  rewrite be_combine_split, wrap_u_id by (unfold in_u; lia). cbv zeta.
  change (Z.of_nat 2 * 8) with 16. rewrite wrap_i_mod by (unfold in_i; simpl; lia).
  destruct (Z.leb_spec (str_len a) 0).
  - assert (bytes_of_string a = []) as E.
    { apply length_zero_iff_nil. unfold str_len, zlen in *. lia. }
    rewrite E. rewrite <-(string_of_bytes_of_string a), E. done.
  - assert (decode_string_len (str_len a) (EmptyString, bytes_of_string a ++ rest) =
            (Ok a, (EmptyString, rest))) as E.
    { unfold decode_string_len. rewrite wrap_u_id by (unfold in_u; lia).
      erewrite bind_ok by (apply take_bytes_app; done). rewrite Hu. simpl.
      fold (str_len a). rewrite Z.eqb_refl, string_of_bytes_of_string. done. }
    erewrite bind_ok by exact E. done.
Qed.

(** ** Long strings *)

(** A string of 32768 to 65535 bytes is encoded without an error, but its
    length field, written as [u16], is read back as a negative [i16]: decoding
    succeeds with the empty string and leaves every byte of the string in the
    source, for the next field to read. *)
Theorem long_string_lost (v : Z) (s : string) :
  2 ^ 15 <= str_len s < 2 ^ 16 ->
  exists out,
    encode codec_string v s vec_new = (Ok tt, out) /\
    decode_from codec_string v (written out) = (Ok EmptyString, bytes_of_string s).
Proof.
  intros Hl. eexists. split.
  - apply encode_string_emits. rewrite zlen_app, zlen_be_split. fold (str_len s).
    cbn [remaining_mut vec_new]. unfold isize_max. lia.
  - cbn [written buf_append vec_new app]. unfold decode_from. cbn [decode codec_string dflt].
    unfold decode_string.
    erewrite bind_ok by (apply ensure_remaining_app; rewrite zlen_be_split; lia).
    erewrite bind_ok by (apply get_be_app, length_be_split).
    rewrite be_combine_split, wrap_u_id by (unfold in_u; lia). cbv zeta.
    change (Z.of_nat 2 * 8) with 16. rewrite Z.mod_small by lia.
    assert (as_i16 (str_len s) <= 0) as Hneg.
    { unfold wrap_i. change (2 ^ 16) with 65536 in *. change (2 ^ (16 - 1)) with 32768.
      replace (str_len s + 32768) with (str_len s - 32768 + 1 * 65536) by lia.
      rewrite Z.mod_add, Z.mod_small by lia. lia. }
    destruct (Z.leb_spec (as_i16 (str_len s)) 0); [done|lia].
Qed.

Lemma long_string_lost_witness :
  let s := string_of_bytes (replicate (Pos.to_nat 32768) Byte.x61) in
  str_len s = 32768 /\
  exists out, encode codec_string 0 s vec_new = (Ok tt, out) /\
    decode_from codec_string 0 (written out) = (Ok EmptyString, bytes_of_string s).
Proof.
  intros s. assert (str_len s = 32768) as Hs by (vm_compute; reflexivity).
  split; [exact Hs|]. apply (long_string_lost 0 s). rewrite Hs. split; [discriminate|reflexivity].
Defined.
