(* ===== verification/Collections.v ===== *)
(** * Codecs of options, vectors, maps and byte buffers

    The generic implementations of [fluvio-protocol/src/core], each proved to
    be a lawful codec whenever the codec of its elements is. *)

From S2P Require Import Prelude Wire Varint Utf8 Scalars.
From Stdlib Require Import Sorted.

#[local] Open Scope Z_scope.

(** ** Varints as fields *)

(** Where [variant_size] does not return ([None]) there is no size to give. *)
(* src/crates/fluvio-protocol/src/core/encoder.rs:360-362 i64::var_write_size *)
Definition var_write_size (self : Z) : Z := default 0 (variant_size self).
(* src/crates/fluvio-protocol/src/core/encoder.rs:364-370 i64::encode_varint *)
Definition encode_varint (self : Z) : Enc := variant_encode self.
(* src/crates/fluvio-protocol/src/core/decoder.rs:329-338 i64::decode_varint *)
Definition decode_varint : Dec Z := r ← varint_decode; self_put (fst r).

(** A [#[varint]] field as a codec; the version is not used. *)
Definition codec_varint : Codec Z :=
  MkCodec 0 (fun _ => var_write_size) (fun _ => encode_varint) (fun _ => decode_varint).

(** ** Options *)

Section option.
Context {A} (c : Codec A).

(* src/crates/fluvio-protocol/src/core/encoder.rs:83-88 Option::write_size *)
Definition write_size_option (version : Z) (self : option A) : Z :=
  match self with
  | Some value => write_size codec_bool version true + write_size c version value
  | None => write_size codec_bool version false
  end.
(* src/crates/fluvio-protocol/src/core/encoder.rs:90-101 Option::encode *)
Definition encode_option (version : Z) (self : option A) : Enc :=
  match self with
  | Some value => encode codec_bool version true ;; encode c version value
  | None => encode codec_bool version false
  end.
(* src/crates/fluvio-protocol/src/core/decoder.rs:77-96 Option::decode *)
Definition decode_option (version : Z) : Dec (option A) :=
  some ← on_local false (decode codec_bool version);
  if some : bool then
    (value ← on_local (dflt c) (decode c version); self_put (Some value))
  else self_put None.
(* src/crates/fluvio-protocol/src/core/encoder.rs:79-102 impl Encoder for Option *)
Definition codec_option : Codec (option A) :=
  MkCodec None write_size_option encode_option decode_option.
End option.

(** ** [PhantomData] *)

(* src/crates/fluvio-protocol/src/core/encoder.rs:104-118 impl Encoder for PhantomData *)
Definition codec_phantom : Codec unit :=
  MkCodec tt (fun _ _ => 0) (fun _ _ => mret tt) (fun _ => mret tt).

(** ** Vectors *)

Section vec.
Context {A} (c : Codec A).

(* src/crates/fluvio-protocol/src/core/encoder.rs:53-56 Vec::write_size *)
Definition write_size_vec (version : Z) (self : list A) : Z :=
  fold_left (fun sum val => sum + write_size c version val) self 4.
(* src/crates/fluvio-protocol/src/core/encoder.rs:58-76 Vec::encode *)
Definition encode_vec (version : Z) (self : list A) : Enc :=
  ensure_remaining_mut 4 ;;
  put_be 4 (as_u32 (zlen self)) ;;
  for_each (encode c version) self.
(* src/crates/fluvio-protocol/src/core/decoder.rs:63-75 decode_vec *)
Definition decode_vec_items (len version : Z) : Dec (list A) :=
  times len (value ← on_local (dflt c) (decode c version);
             self_modify (fun item => item ++ [value])).
(* src/crates/fluvio-protocol/src/core/decoder.rs:39-61 Vec::decode *)
Definition decode_vec (version : Z) : Dec (list A) :=
  len ← on_local 0 (decode codec_i32 version);
  if len <? 1 then mret tt else decode_vec_items len version.
(* src/crates/fluvio-protocol/src/core/encoder.rs:49-77 impl Encoder for Vec *)
Definition codec_vec : Codec (list A) :=
  MkCodec [] write_size_vec encode_vec decode_vec.
End vec.

(** ** Ordered maps

    A [BTreeMap] is the list of its entries in key order. *)

Class RustOrd (K : Type) := {
  cmp : K -> K -> comparison;
  cmp_antisym k k' : cmp k k' = CompOpp (cmp k' k);
}.

Section btree.
Context {K V} `{RustOrd K} (ck : Codec K) (cv : Codec V).

(** [BTreeMap::insert]: an equal key keeps its place and its key, with the
    new value. *)
Fixpoint btree_insert (k : K) (v : V) (m : list (K * V)) : list (K * V) :=
  match m with
  | [] => [(k, v)]
  | (k', v') :: m' =>
      match cmp k k' with
      | Lt => (k, v) :: m
      | Eq => (k', v) :: m'
      | Gt => (k', v') :: btree_insert k v m'
      end
  end.

Definition btree_sorted : list (K * V) -> Prop :=
  StronglySorted (fun a b => cmp (fst a) (fst b) = Lt).

(* src/crates/fluvio-protocol/src/core/encoder.rs:125-134 BTreeMap::write_size *)
Definition write_size_btree (version : Z) (self : list (K * V)) : Z :=
  fold_left (fun len kv =>
    len + write_size ck version (fst kv) + write_size cv version (snd kv))
    self (write_size codec_u16 version 0).
(* src/crates/fluvio-protocol/src/core/encoder.rs:136-149 BTreeMap::encode *)
Definition encode_btree (version : Z) (self : list (K * V)) : Enc :=
  encode codec_u16 version (as_u16 (zlen self)) ;;
  for_each (fun kv => encode ck version (fst kv) ;; encode cv version (snd kv)) self.
(* src/crates/fluvio-protocol/src/core/decoder.rs:107-131 BTreeMap::decode *)
Definition decode_btree (version : Z) : Dec (list (K * V)) :=
  len ← on_local 0 (decode codec_u16 version);
  map ← on_local []
    (times len
      (key ← on_local (dflt ck) (decode ck version);
       value ← on_local (dflt cv) (decode cv version);
       self_modify (btree_insert key value)));
  self_put map.
(* src/crates/fluvio-protocol/src/core/encoder.rs:120-150 impl Encoder for BTreeMap *)
Definition codec_btree : Codec (list (K * V)) :=
  MkCodec [] write_size_btree encode_btree decode_btree.
End btree.

(** ** Byte vectors with a varint length *)

(* src/crates/fluvio-protocol/src/core/decoder.rs:375-402 Vec<u8>::decode_varint *)
Definition decode_varint_bytes : Dec (list byte) :=
  len ← on_local 0 decode_varint;
  if len <? 1 then mret tt
  else
    buf ← take_bytes (as_usize len);
    self_modify (fun self => self ++ buf) ;;
    self ← self_get;
    if zlen self =? as_usize len then mret tt else fail UnexpectedEof.

(* src/crates/fluvio-protocol/src/core/decoder.rs:404-435 decode_option_vec_u *)
Definition decode_option_vec_u (len : Z) : Dec (option (list byte)) :=
  if len <? 0 then self_put None
  else if len =? 0 then self_put (Some [])
  else
    value ← take_bytes (as_usize len);
    if zlen value =? as_usize len then self_put (Some value) else fail UnexpectedEof.

(* src/crates/fluvio-protocol/src/core/decoder.rs:437-447 Option<Vec<u8>>::decode_varint *)
Definition decode_varint_option_bytes : Dec (option (list byte)) :=
  len ← on_local 0 decode_varint;
  decode_option_vec_u len.

(** ** [ByteBuf] *)

(* src/crates/fluvio-protocol/src/core/bytebuf.rs:44-60 ByteBuf::decode *)
Definition decode_bytebuf (version : Z) : Dec (list byte) :=
  len ← on_local 0 (decode codec_u32 version);
  if len <? 1 then mret tt
  else (inner ← copy_to_bytes len; self_put inner).
(* src/crates/fluvio-protocol/src/core/bytebuf.rs:63-65 ByteBuf::write_size *)
Definition write_size_bytebuf (version : Z) (self : list byte) : Z :=
  write_size codec_u32 version 0 + zlen self.
(* src/crates/fluvio-protocol/src/core/bytebuf.rs:67-87 ByteBuf::encode *)
Definition encode_bytebuf (version : Z) (self : list byte) : Enc :=
  ensure_remaining_mut (write_size_bytebuf version self) ;;
  put_be 4 (as_u32 (zlen self)) ;;
  put_slice self.
(* src/crates/fluvio-protocol/src/core/bytebuf.rs:62-92 impl Encoder for ByteBuf *)
Definition codec_bytebuf : Codec (list byte) :=
  MkCodec [] write_size_bytebuf encode_bytebuf decode_bytebuf.

(** ** Laws *)

#[local] Obligation Tactic := intros; cbv beta in *.

Lemma emits_for_each {A} (f : A -> Enc) (w : A -> list byte) l :
  Forall (fun a => emits (f a) (w a)) l -> emits (for_each f l) (concat (map w l)).
Proof.
  induction 1 as [|a l Ha _ IH]; simpl; [apply emits_ret|]. by apply emits_seq.
Qed.

Lemma zlen_concat {A} (ls : list (list A)) : zlen (concat ls) = zsum (map zlen ls).
Proof. induction ls; simpl; [done|]. rewrite zlen_app. lia. Qed.

Lemma zsum_map_ext {A} (f g : A -> Z) l :
  Forall (fun a => f a = g a) l -> zsum (map f l) = zsum (map g l).
Proof. induction 1; simpl; lia. Qed.

(** A loop that decodes one element per turn reads their concatenation. *)
Lemma reads_times {A B} (body : Dec A) (w : B -> list byte) (upd : A -> B -> A) (l : list B) init :
  (forall pre b post, l = pre ++ b :: post ->
     reads body (fold_left upd pre init) (w b) (upd (fold_left upd pre init) b)) ->
  reads (times (zlen l) body) init (concat (map w l)) (fold_left upd l init).
Proof.
  intros H rest Hlen. rewrite times_to_nat. unfold zlen at 1. rewrite Nat2Z.id.
  revert init H Hlen. induction l as [|b l IH]; intros init H Hlen; simpl in *; [done|].
  rewrite <-app_assoc in *. erewrite bind_ok by (by apply (H [] b l eq_refl)).
  apply IH.
  - intros pre b' post ->. apply (H (b :: pre) b' post). done.
  - pose proof (zlen_app_r (w b) (concat (map w l) ++ rest)). lia.
Qed.

#[export] Program Instance codec_varint_ok : CodecOK codec_varint := {|
  valid _ z := in_i 32 z; wire _ z := wire_varint z |}.
Next Obligation. by apply variant_encode_emits. Qed.
Next Obligation.
  cbn [write_size codec_varint]. unfold var_write_size. by rewrite variant_size_wire.
Qed.
Next Obligation.
  intros rest Hlen. cbn [decode codec_varint dflt]. unfold decode_varint.
  erewrite bind_ok by (apply varint_decode_wire; done). done.
Qed.

Definition valid_option {A} (c : Codec A) `{!CodecOK c} (v : Z) (o : option A) : Prop :=
  match o with Some a => valid c v a | None => True end.
Definition wire_option {A} (c : Codec A) `{!CodecOK c} (v : Z) (o : option A) : list byte :=
  match o with
  | Some a => wire codec_bool v true ++ wire c v a
  | None => wire codec_bool v false
  end.

#[export] Program Instance codec_option_ok {A} (c : Codec A) `{!CodecOK c} :
  CodecOK (codec_option c) := {| valid := valid_option c; wire := wire_option c |}.
Next Obligation.
  destruct a as [a|].
  - apply emits_seq; [by apply (encode_emits codec_bool)|by apply (encode_emits c)].
  - by apply (encode_emits codec_bool).
Qed.
Next Obligation.
  destruct a as [a|]; [|done]. cbn [wire_option]. rewrite zlen_app, (wire_size codec_bool), (wire_size c) by done. done.
Qed.
Next Obligation.
  cbn [decode codec_option dflt]. unfold decode_option. destruct a as [a|]; cbn [wire_option].
  - apply reads_local with (b := true); [by apply (decode_reads codec_bool)|].
    apply reads_local_last with (b := a); [by apply (decode_reads c)|]. by apply reads_const.
  - apply reads_local_last with (b := false); [by apply (decode_reads codec_bool)|].
    by apply reads_const.
Qed.

#[export] Program Instance codec_phantom_ok : CodecOK codec_phantom := {|
  valid _ _ := True; wire _ _ := [] |}.
Next Obligation. apply emits_ret. Qed.
Next Obligation. done. Qed.
Next Obligation. intros rest _. by destruct a. Qed.

Lemma write_size_vec_sum {A} (c : Codec A) `{!CodecOK c} v l :
  Forall (valid c v) l ->
  write_size_vec c v l = 4 + zlen (concat (map (wire c v) l)).
Proof.
  intros Hl. unfold write_size_vec. rewrite fold_left_add_acc, zlen_concat, map_map. f_equal.
  apply zsum_map_ext. eapply Forall_impl; [exact Hl|]. intros a Ha. simpl.
  by rewrite (wire_size c).
Qed.

Lemma fold_left_snoc {A} (l acc : list A) :
  fold_left (fun item x => item ++ [x]) l acc = acc ++ l.
Proof.
  revert acc. induction l as [|x l IH]; intros acc; simpl; [by rewrite app_nil_r|].
  rewrite IH, <-app_assoc. done.
Qed.

Lemma reads_vec_items {A} (c : Codec A) `{!CodecOK c} v l init :
  Forall (valid c v) l ->
  reads (decode_vec_items c (zlen l) v) init (concat (map (wire c v) l)) (init ++ l).
Proof.
  intros Hl. rewrite <-fold_left_snoc. apply reads_times. intros pre b post ->.
  apply reads_local_last with (b := b); [|by apply reads_const].
  apply (decode_reads c). by apply Forall_app in Hl as [_ [Hb _]%Forall_cons].
Qed.

#[export] Program Instance codec_vec_ok {A} (c : Codec A) `{!CodecOK c} : CodecOK (codec_vec c) := {|
  valid v l := zlen l < 2 ^ 31 /\ Forall (valid c v) l;
  wire v l := be_split 4 (zlen l) ++ concat (map (wire c v) l);
|}.
Next Obligation.
  destruct H as [Hn Hl]. cbn [encode codec_vec]. unfold encode_vec. pose proof (zlen_nonneg a).
  rewrite wrap_u_id by (unfold in_u; lia).
  apply emits_ensure.
  { rewrite zlen_app, zlen_be_split. pose proof (zlen_nonneg (concat (map (wire c v) a))). lia. }
  apply emits_seq; [apply emits_put_be|]. apply emits_for_each.
  eapply Forall_impl; [exact Hl|]. intros x Hx. by apply (encode_emits c).
Qed.
Next Obligation.
  destruct H as [Hn Hl]. rewrite zlen_app, zlen_be_split. cbn [write_size codec_vec].
  by rewrite (write_size_vec_sum c).
Qed.
Next Obligation.
  destruct H as [Hn Hl]. pose proof (zlen_nonneg a).
  cbn [decode codec_vec dflt]. unfold decode_vec.
  apply reads_local with (b := zlen a).
  - refine (decode_reads codec_i32 v (zlen a) _). simpl. unfold in_i. lia.
  - destruct (Z.ltb_spec (zlen a) 1).
    + destruct a; [apply reads_ret|rewrite zlen_cons in *; pose proof (zlen_nonneg a0); lia].
    + by apply (reads_vec_items c v a []).
Qed.

#[export] Program Instance codec_bytebuf_ok : CodecOK codec_bytebuf := {|
  valid _ l := zlen l < 2 ^ 32;
  wire _ l := be_split 4 (zlen l) ++ l;
|}.
Next Obligation.
  cbn [encode codec_bytebuf]. unfold encode_bytebuf. pose proof (zlen_nonneg a).
  rewrite wrap_u_id by (unfold in_u; lia).
  apply emits_ensure; [by rewrite zlen_app, zlen_be_split|].
  apply emits_seq; [apply emits_put_be|apply emits_put_slice].
Qed.
Next Obligation. rewrite zlen_app, zlen_be_split. done. Qed.
Next Obligation.
  cbn [decode codec_bytebuf dflt]. unfold decode_bytebuf. pose proof (zlen_nonneg a).
  apply reads_local with (b := zlen a); [refine (decode_reads codec_u32 v (zlen a) _); simpl; unfold in_u; lia|].
  destruct (Z.ltb_spec (zlen a) 1).
  - destruct a; [apply reads_ret|rewrite zlen_cons in *; pose proof (zlen_nonneg a); lia].
  - intros rest _. erewrite bind_ok by (apply copy_to_bytes_app; done). done.
Qed.

Section btree_laws.
Context {K V} `{RustOrd K} (ck : Codec K) (cv : Codec V) `{!CodecOK ck, !CodecOK cv}.

Definition valid_entry (v : Z) (kv : K * V) : Prop := valid ck v (fst kv) /\ valid cv v (snd kv).
Definition wire_entry (v : Z) (kv : K * V) : list byte :=
  wire ck v (fst kv) ++ wire cv v (snd kv).

Lemma btree_insert_last k (v : V) m :
  Forall (fun kv => cmp (fst kv) k = Lt) m -> btree_insert k v m = m ++ [(k, v)].
Proof.
  induction 1 as [|[k' v'] m Hk _ IH]; [done|]. simpl in *.
  rewrite cmp_antisym, Hk. simpl. by rewrite IH.
Qed.

Lemma StronglySorted_app_lt {A} (R : A -> A -> Prop) l x k :
  StronglySorted R (l ++ x :: k) -> Forall (fun y => R y x) l.
Proof.
  induction l as [|y l IH]; simpl; [constructor|].
  intros [Hs Hy]%StronglySorted_inv. constructor; [|by apply IH].
  apply Forall_app in Hy as [_ [Hx _]%Forall_cons]. done.
Qed.

Lemma fold_insert_sorted (l acc : list (K * V)) :
  btree_sorted (acc ++ l) ->
  fold_left (fun m kv => btree_insert (fst kv) (snd kv) m) l acc = acc ++ l.
Proof.
  revert acc. induction l as [|[k v] l IH]; intros acc Hs; simpl; [by rewrite app_nil_r|].
  rewrite btree_insert_last by (by apply StronglySorted_app_lt in Hs).
  rewrite IH by (by rewrite <-app_assoc). by rewrite <-app_assoc.
Qed.

Lemma wire_entry_size v kv : valid_entry v kv ->
  zlen (wire_entry v kv) = write_size ck v (fst kv) + write_size cv v (snd kv).
Proof. intros [? ?]. unfold wire_entry. by rewrite zlen_app, (wire_size ck), (wire_size cv). Qed.

Lemma reads_btree_entries v m :
  Forall (valid_entry v) m -> btree_sorted m ->
  reads (times (zlen m)
          (key ← on_local (dflt ck) (decode ck v);
           value ← on_local (dflt cv) (decode cv v);
           self_modify (btree_insert key value)))
    [] (concat (map (wire_entry v) m)) m.
Proof.
  intros Hm Hs. rewrite <-(fold_insert_sorted m []) at 3 by done.
  apply reads_times. intros pre [k x] post ->.
  apply Forall_app in Hm as [_ [[Hk Hx] _]%Forall_cons]. simpl in Hk, Hx.
  unfold wire_entry. cbn [fst snd].
  apply reads_local with (b := k); [by apply (decode_reads ck)|].
  apply reads_local_last with (b := x); [by apply (decode_reads cv)|]. by apply reads_const.
Qed.

#[export] Program Instance codec_btree_ok : CodecOK (codec_btree ck cv) := {|
  valid v m := zlen m < 2 ^ 16 /\ btree_sorted m /\ Forall (valid_entry v) m;
  wire v m := wire codec_u16 v (zlen m) ++ concat (map (wire_entry v) m);
|}.
Next Obligation.
  destruct H0 as (Hn & Hs & Hm). pose proof (zlen_nonneg a).
  cbn [encode codec_btree]. unfold encode_btree. rewrite wrap_u_id by (unfold in_u; lia).
  apply emits_seq; [apply (encode_emits codec_u16); simpl; unfold in_u; lia|].
  apply emits_for_each. eapply Forall_impl; [exact Hm|]. intros [k x] [Hk Hx].
  apply emits_seq; [by apply (encode_emits ck)|by apply (encode_emits cv)].
Qed.
Next Obligation.
  destruct H0 as (Hn & Hs & Hm). pose proof (zlen_nonneg a).
  rewrite zlen_app, (wire_size codec_u16) by (simpl; unfold in_u; lia).
  rewrite zlen_concat, map_map. cbn [write_size codec_btree]. unfold write_size_btree.
  change (write_size codec_u16 v (zlen a)) with (write_size codec_u16 v 0).
  rewrite (zsum_map_ext _ (fun kv => write_size ck v (fst kv) + write_size cv v (snd kv)));
    [|eapply Forall_impl; [exact Hm|]; intros kv; apply wire_entry_size].
  rewrite <-fold_left_add_acc. generalize (write_size codec_u16 v 0). clear.
  induction a as [|kv a IH]; intros z; simpl; [done|]. rewrite IH. f_equal. lia.
Qed.
Next Obligation.
  destruct H0 as (Hn & Hs & Hm). pose proof (zlen_nonneg a).
  cbn [decode codec_btree dflt]. unfold decode_btree.
  apply reads_local with (b := zlen a);
    [refine (decode_reads codec_u16 v (zlen a) _); simpl; unfold in_u; lia|].
  apply reads_local_last with (b := a); [by apply reads_btree_entries|]. by apply reads_const.
Qed.
End btree_laws.

(** ** Malformed input

    A decoder is safe when no input makes it panic. *)

Definition no_panic {S A} (m : M S A) : Prop := forall s, fst (m s) <> Panic.

Lemma no_panic_bind {S A B} (m : M S A) (f : A -> M S B) :
  no_panic m -> (forall a, no_panic (f a)) -> no_panic (m ≫= f).
Proof.
  intros Hm Hf s. unfold mbind, M_bind. specialize (Hm s).
  destruct (m s) as [[a|k|] s']; simpl in *; [apply Hf|done|done].
Qed.

Lemma no_panic_local {A B} (init : B) (d : Dec B) : no_panic d -> no_panic (@on_local A B init d).
Proof.
  intros Hd s. unfold on_local. specialize (Hd (init, snd s)).
  destruct (d _) as [[[]|k|] [b src]]; done.
Qed.

Lemma no_panic_field {A B} (proj : A -> B) upd (d : Dec B) :
  no_panic d -> no_panic (on_field proj upd d).
Proof.
  intros Hd s. unfold on_field. specialize (Hd (proj (fst s), snd s)).
  destruct (d _) as [r [b src]]. done.
Qed.

Lemma no_panic_times {S} n (m : M S unit) : no_panic m -> no_panic (times n m).
Proof.
  intros Hm s. rewrite times_to_nat. revert s. generalize (Z.to_nat n) as k.
  induction k as [|k IH]; intros s; simpl; [done|]. by apply no_panic_bind.
Qed.

(** Guarded fixed-width reads stay inside the source. *)
Lemma no_panic_scalar {A} (n : nat) k (f : Z -> Dec A) :
  Z.of_nat n <= k -> (forall z, no_panic (f z)) -> no_panic (ensure_remaining k ;; get_be n ≫= f).
Proof.
  intros Hk Hf [a src]. unfold mbind, M_bind, ensure_remaining, get_be. cbn [snd fst].
  destruct (Z.ltb_spec (zlen src) k); [done|]. cbn [snd fst].
  destruct (Z.ltb_spec (zlen src) (Z.of_nat n)); [lia|]. apply Hf.
Qed.

Lemma no_panic_ret {S A} (a : A) : no_panic (mret a : M S A).
Proof. done. Qed.
Lemma no_panic_fail {S A} k : no_panic (fail k : M S A).
Proof. done. Qed.
Lemma no_panic_self_put {A} (a : A) : no_panic (self_put a).
Proof. done. Qed.
Lemma no_panic_self_modify {A} (f : A -> A) : no_panic (self_modify f).
Proof. done. Qed.
Lemma no_panic_self_get {A} : no_panic (@self_get A).
Proof. done. Qed.
Lemma no_panic_take_bytes {A} n : no_panic (@take_bytes A n).
Proof. done. Qed.
Lemma no_panic_varint {A} : no_panic (@varint_decode A).
Proof.
  intros [a src]. unfold varint_decode. cbn [snd fst].
  assert (forall num sh, fst (varint_decode_loop src num sh) <> Panic) as Hs.
  { induction src as [|b src IH]; intros num sh; simpl; [done|]. break_match; [done|apply IH]. }
  specialize (Hs 0 0). destruct (varint_decode_loop src 0 0) as [r src']. done.
Qed.

Create HintDb safe.
#[export] Hint Resolve no_panic_bind no_panic_local no_panic_field no_panic_times
  no_panic_ret no_panic_fail no_panic_self_put no_panic_self_modify no_panic_self_get
  no_panic_take_bytes no_panic_varint : safe.
#[export] Hint Extern 1 (no_panic (if ?b then _ else _)) => destruct b : safe.
#[export] Hint Extern 1 (no_panic (ensure_remaining _ ;; get_be _ ≫= _)) =>
  apply no_panic_scalar; [lia|] : safe.

Class DecSafe {A} (c : Codec A) := dec_safe : forall v, no_panic (decode c v).

#[export] Hint Extern 2 (no_panic (decode _ _)) => apply dec_safe : safe.

#[export] Instance safe_bool : DecSafe codec_bool.
Proof. intros v. apply no_panic_scalar; [lia|]. auto with safe. Qed.
#[export] Instance safe_u8 : DecSafe codec_u8.
Proof. intros v. apply no_panic_scalar; auto with safe lia. Qed.
#[export] Instance safe_i8 : DecSafe codec_i8.
Proof. intros v. apply no_panic_scalar; auto with safe lia. Qed.
#[export] Instance safe_i16 : DecSafe codec_i16.
Proof. intros v. apply no_panic_scalar; auto with safe lia. Qed.
#[export] Instance safe_u16 : DecSafe codec_u16.
Proof. intros v. apply no_panic_scalar; auto with safe lia. Qed.
#[export] Instance safe_i32 : DecSafe codec_i32.
Proof. intros v. apply no_panic_scalar; auto with safe lia. Qed.
#[export] Instance safe_u32 : DecSafe codec_u32.
Proof. intros v. apply no_panic_scalar; auto with safe lia. Qed.
#[export] Instance safe_i64 : DecSafe codec_i64.
Proof. intros v. apply no_panic_scalar; auto with safe lia. Qed.
#[export] Instance safe_u64 : DecSafe codec_u64.
Proof. intros v. apply no_panic_scalar; auto with safe lia. Qed.
#[export] Instance safe_string : DecSafe codec_string.
Proof.
  intros v. apply no_panic_scalar; [lia|]. intros z. cbv zeta.
  unfold decode_string_len. auto 10 with safe.
Qed.
#[export] Instance safe_varint : DecSafe codec_varint.
Proof. intros v. cbn. unfold decode_varint. auto with safe. Qed.
#[export] Instance safe_option {A} (c : Codec A) `{!DecSafe c} : DecSafe (codec_option c).
Proof. intros v. cbn [decode codec_option]. unfold decode_option. auto 10 with safe. Qed.
#[export] Instance safe_vec {A} (c : Codec A) `{!DecSafe c} : DecSafe (codec_vec c).
Proof.
  intros v. cbn [decode codec_vec]. unfold decode_vec, decode_vec_items. auto 10 with safe.
Qed.
#[export] Instance safe_btree {K V} `{RustOrd K} (ck : Codec K) (cv : Codec V)
  `{!DecSafe ck, !DecSafe cv} : DecSafe (codec_btree ck cv).
Proof.
  intros v. cbn [decode codec_btree]. unfold decode_btree. auto 12 with safe.
Qed.
