(* ===== verification/Records.v ===== *)
(** * Records

    [fluvio-protocol/src/record/data.rs]: record data, keys, headers and the
    record codec.  A record's fields are encoded to a vector first, so that its
    varint length goes in front. *)

From S2P Require Import Prelude Wire Varint Scalars Collections.

#[local] Open Scope Z_scope.

(** ** Record data and keys *)

(** [RecordData(Bytes)] *)
Notation RecordData := (list byte).

(* src/crates/fluvio-protocol/src/record/data.rs:60-102 RecordKey *)
Inductive RecordKey := KeyNull | Key (data : RecordData).

(* src/crates/fluvio-protocol/src/record/data.rs:66-71 RecordKey::into_option *)
Definition into_option (self : RecordKey) : option RecordData :=
  match self with Key key => Some key | KeyNull => None end.

(* src/crates/fluvio-protocol/src/record/data.rs:207-212 RecordData::write_size *)
Definition write_size_record_data (version : Z) (self : RecordData) : Z :=
  fold_left (fun sum val => sum + write_size codec_u8 version (byte.unsigned val))
    self (var_write_size (as_i64 (zlen self))).
(* src/crates/fluvio-protocol/src/record/data.rs:214-224 RecordData::encode *)
Definition encode_record_data (version : Z) (self : RecordData) : Enc :=
  encode_varint (as_i64 (zlen self)) ;;
  for_each (fun v => encode codec_u8 version (byte.unsigned v)) self.

(** [BytesMut::with_capacity] panics above [isize::MAX], as every Rust
    allocation does. *)
Definition with_capacity {S} (n : Z) : M S unit :=
  if isize_max <? n then panic else mret tt.

(* src/crates/fluvio-protocol/src/record/data.rs:227-247 RecordData::decode *)
Definition decode_record_data (version : Z) : Dec RecordData :=
  len ← on_local 0 decode_varint;
  let len := as_usize len in
  with_capacity len ;;
  bytes ← take_bytes len;
  self_put bytes.
(* src/crates/fluvio-protocol/src/record/data.rs:206-225 impl Encoder for RecordData *)
Definition codec_record_data : Codec RecordData :=
  MkCodec [] write_size_record_data encode_record_data decode_record_data.

(** ** Record headers *)

(* src/crates/fluvio-protocol/src/record/data.rs:398-405 RecordHeader *)
Record RecordHeader := MkRecordHeader {
  attributes : Z;
  timestamp_delta : Z;
  offset_delta : Z;
}.

Definition set_attributes x (h : RecordHeader) :=
  MkRecordHeader x (timestamp_delta h) (offset_delta h).
(* src/crates/fluvio-protocol/src/record/data.rs:422-424 RecordHeader::set_timestamp_delta *)
Definition set_timestamp_delta x (h : RecordHeader) :=
  MkRecordHeader (attributes h) x (offset_delta h).
(* src/crates/fluvio-protocol/src/record/data.rs:413-415 RecordHeader::set_offset_delta *)
Definition set_offset_delta x (h : RecordHeader) :=
  MkRecordHeader (attributes h) (timestamp_delta h) x.
(* src/crates/fluvio-protocol/src/record/data.rs:426-428 RecordHeader::add_base_offset *)
Definition header_add_base_offset (relative_base_offset : Z) (h : RecordHeader) :=
  set_offset_delta (as_i64 (offset_delta h + relative_base_offset)) h.

(** Derived: each field in order, the two deltas as varints. *)
Definition codec_record_header : Codec RecordHeader :=
  MkCodec (MkRecordHeader 0 0 0)
    (fun v h => write_size codec_i8 v (attributes h)
       + var_write_size (timestamp_delta h) + var_write_size (offset_delta h))
    (fun v h =>
       encode codec_i8 v (attributes h) ;;
       encode_varint (timestamp_delta h) ;;
       encode_varint (offset_delta h))
    (fun v =>
       on_field attributes set_attributes (decode codec_i8 v) ;;
       on_field timestamp_delta set_timestamp_delta decode_varint ;;
       on_field offset_delta set_offset_delta decode_varint).

(** ** Records *)

(* src/crates/fluvio-protocol/src/record/data.rs:435-441 Record *)
Record Record_ (B : Type) := MkRecord {
  preamble : RecordHeader;
  key : option B;
  value : B;
  headers : Z;
}.
Arguments MkRecord {B}.
Arguments preamble {B}.
Arguments key {B}.
Arguments value {B}.
Arguments headers {B}.

Definition set_preamble {B} x (r : Record_ B) := MkRecord x (key r) (value r) (headers r).
Definition set_key {B} x (r : Record_ B) := MkRecord (preamble r) x (value r) (headers r).
Definition set_value {B} x (r : Record_ B) := MkRecord (preamble r) (key r) x (headers r).
Definition set_headers {B} x (r : Record_ B) := MkRecord (preamble r) (key r) (value r) x.

Section record.
Context {B} (c : Codec B).

Definition record_default : Record_ B :=
  MkRecord (dflt codec_record_header) None (dflt c) 0.

(** The fields of the record, without the length in front. *)
Definition encode_record_inner (version : Z) (self : Record_ B) : Enc :=
  encode codec_record_header version (preamble self) ;;
  encode (codec_option c) version (key self) ;;
  encode c version (value self) ;;
  encode_varint (headers self).

(* src/crates/fluvio-protocol/src/record/data.rs:531-538 Record::write_size *)
Definition write_size_record (version : Z) (self : Record_ B) : Z :=
  let inner_size :=
    write_size codec_record_header version (preamble self)
    + write_size (codec_option c) version (key self)
    + write_size c version (value self)
    + var_write_size (headers self) in
  var_write_size (as_i64 inner_size) + inner_size.
(* src/crates/fluvio-protocol/src/record/data.rs:540-554 Record::encode *)
Definition encode_record (version : Z) (self : Record_ B) : Enc :=
  out ← with_new_vec (encode_record_inner version self);
  encode_varint (as_i64 (zlen out)) ;;
  put_slice out.
(* src/crates/fluvio-protocol/src/record/data.rs:557-585 Record::decode *)
Definition decode_record (version : Z) : Dec (Record_ B) :=
  len ← on_local 0 decode_varint;
  rem ← remaining;
  if as_i64 rem <? len then fail UnexpectedEof
  else
    on_field preamble set_preamble (decode codec_record_header version) ;;
    on_field key set_key (decode (codec_option c) version) ;;
    on_field value set_value (decode c version) ;;
    on_field headers set_headers decode_varint.
(* src/crates/fluvio-protocol/src/record/data.rs:527-555 impl Encoder for Record *)
Definition codec_record_of : Codec (Record_ B) :=
  MkCodec record_default write_size_record encode_record decode_record.
End record.

(** [Record], with the default parameter [RecordData]. *)
Notation Record' := (Record_ RecordData).
Definition codec_record : Codec Record' := codec_record_of codec_record_data.

(* src/crates/fluvio-protocol/src/record/data.rs:481-486 Record::new *)
Definition record_new (v : RecordData) : Record' := set_value v (record_default codec_record_data).
(* src/crates/fluvio-protocol/src/record/data.rs:488-495 Record::new_key_value *)
Definition record_new_key_value (k : RecordKey) (v : RecordData) : Record' :=
  set_key (into_option k) (set_value v (record_default codec_record_data)).

(** ** Consumer records *)

(* src/crates/fluvio-protocol/src/record/data.rs:588-597 ConsumerRecord *)
Record ConsumerRecord := MkConsumerRecord {
  cr_offset : Z;
  cr_partition : Z;
  cr_record : Record';
  timestamp_base : Z;
}.

Definition NO_TIMESTAMP : Z := -1.

(** ** Laws *)

#[local] Obligation Tactic := intros; cbv beta in *.

Lemma fold_left_const {A} (l : list A) k acc :
  fold_left (fun sum _ => sum + k) l acc = acc + k * zlen l.
Proof.
  revert acc. induction l as [|x l IH]; intros acc; simpl; [rewrite zlen_nil; lia|].
  rewrite IH, zlen_cons. lia.
Qed.

Lemma be_split_1_byte b : be_split 1 (byte.unsigned b) = [b].
Proof. unfold be_split. simpl. by rewrite byte.of_Z_unsigned. Qed.

Lemma emits_bytes v (bs : list byte) :
  emits (for_each (fun b => encode codec_u8 v (byte.unsigned b)) bs) bs.
Proof.
  assert (concat (map (fun b => wire codec_u8 v (byte.unsigned b)) bs) = bs) as E.
  { induction bs as [|b bs IH]; [done|]. cbn [map concat]. rewrite IH.
    change (wire codec_u8 v (byte.unsigned b)) with (be_split 1 (byte.unsigned b)).
    by rewrite be_split_1_byte. }
  rewrite <-E at 2. apply emits_for_each. apply Forall_true. intros b.
  apply (encode_emits codec_u8). simpl. apply byte.unsigned_range.
Qed.

Lemma wrap_i64_small z : 0 <= z < 2 ^ 63 -> as_i64 z = z.
Proof. intros. apply wrap_i_id; unfold in_i; lia. Qed.

Lemma in_i32_small z : 0 <= z < 2 ^ 31 -> in_i 32 z.
Proof. unfold in_i. lia. Qed.

Lemma reads_varint z init : in_i 32 z -> reads decode_varint init (wire_varint z) z.
Proof.
  intros Hz rest Hl. unfold decode_varint.
  erewrite bind_ok by (apply varint_decode_wire; done). done.
Qed.

Lemma var_write_size_nonneg z : 0 <= var_write_size z.
Proof.
  unfold var_write_size, variant_size. rewrite loop_until_n. destruct (loop_n _ _ _) as [|n] eqn:E; cbn; [lia|].
  revert E. apply (loop_n_result (fun s => 0 <= snd s) (fun n => 0 <= n)); [| |cbn; lia].
  - intros [v b] s' Hb. unfold variant_size_step. cbn in Hb. destruct (_ =? 0); [done|]. intros [= <-]. cbn. lia.
  - intros [v b] r Hb. unfold variant_size_step. cbn in Hb. destruct (_ =? 0); [|done]. by intros [= <-].
Qed.

Lemma var_write_size_wire z : in_i 32 z -> var_write_size z = zlen (wire_varint z).
Proof. intros. unfold var_write_size. by rewrite variant_size_wire. Qed.

#[export] Program Instance codec_record_data_ok : CodecOK codec_record_data := {|
  valid _ l := zlen l < 2 ^ 31;
  wire _ l := wire_varint (zlen l) ++ l;
|}.
Next Obligation.
  pose proof (zlen_nonneg a). cbn [encode codec_record_data]. unfold encode_record_data.
  rewrite wrap_i64_small by lia.
  apply emits_seq; [by apply variant_encode_emits, in_i32_small|apply emits_bytes].
Qed.
Next Obligation.
  pose proof (zlen_nonneg a). cbn [write_size codec_record_data]. unfold write_size_record_data.
  cbn [write_size codec_u8].
  rewrite fold_left_const, zlen_app, wrap_i64_small by lia.
  rewrite var_write_size_wire by (by apply in_i32_small). lia.
Qed.
Next Obligation.
  pose proof (zlen_nonneg a). cbn [decode codec_record_data dflt]. unfold decode_record_data.
  apply reads_local with (b := zlen a); [by apply reads_varint, in_i32_small|].
  rewrite wrap_u_id by (unfold in_u; lia). intros rest Hlen. unfold with_capacity, isize_max.
  destruct (Z.ltb_spec (2 ^ 63 - 1) (zlen a)); [lia|].
  erewrite bind_ok by done. erewrite bind_ok by (apply take_bytes_app; done). done.
Qed.

Definition valid_record_header (h : RecordHeader) : Prop :=
  in_i 8 (attributes h) /\ in_i 32 (timestamp_delta h) /\ in_i 32 (offset_delta h).

#[export] Program Instance codec_record_header_ok : CodecOK codec_record_header := {|
  valid _ h := valid_record_header h;
  wire v h := wire codec_i8 v (attributes h)
    ++ wire_varint (timestamp_delta h) ++ wire_varint (offset_delta h);
|}.
Next Obligation.
  destruct H as (Ha & Ht & Ho). apply emits_seq; [by apply (encode_emits codec_i8)|].
  apply emits_seq; by apply variant_encode_emits.
Qed.
Next Obligation.
  destruct H as (Ha & Ht & Ho). cbn [write_size codec_record_header].
  rewrite !zlen_app, (wire_size codec_i8) by done. rewrite !var_write_size_wire by done. lia.
Qed.
Next Obligation.
  destruct H as (Ha & Ht & Ho), a as [at_ td od]. cbn [decode codec_record_header dflt] in *.
  eapply reads_seq; [apply reads_field; refine (decode_reads codec_i8 v at_ _); exact Ha|].
  eapply reads_seq; [by apply reads_field, reads_varint|].
  apply reads_field_to with (b := od); [done|by apply reads_varint].
Qed.

Section record_laws.
Context {B} (c : Codec B) `{!CodecOK c}.

Definition wire_record_inner (v : Z) (r : Record_ B) : list byte :=
  wire codec_record_header v (preamble r) ++ wire (codec_option c) v (key r)
  ++ wire c v (value r) ++ wire_varint (headers r).

Definition valid_record (v : Z) (r : Record_ B) : Prop :=
  valid_record_header (preamble r) /\ valid (codec_option c) v (key r) /\
  valid c v (value r) /\ in_i 32 (headers r) /\ zlen (wire_record_inner v r) < 2 ^ 31.

Lemma record_size_eq v r :
  exists k, 0 <= k /\ write_size (codec_record_of c) v r =
    k + (write_size codec_record_header v (preamble r) + write_size (codec_option c) v (key r)
         + write_size c v (value r) + var_write_size (headers r)).
Proof.
  eexists. split; [apply var_write_size_nonneg|]. cbn [write_size codec_record_of]. unfold write_size_record. cbv zeta.
  reflexivity.
Qed.

(** A record whose fields can be written is valid if its size is small. *)
Lemma valid_record_small v r :
  valid_record_header (preamble r) -> valid (codec_option c) v (key r) -> valid c v (value r) -> in_i 32 (headers r) ->
  write_size (codec_record_of c) v r < 2 ^ 31 -> valid_record v r.
Proof.
  intros Hp Hk Hv Hh Hs. do 4 (split; [done|]). unfold wire_record_inner.
  rewrite !zlen_app, (wire_size codec_record_header), (wire_size (codec_option c)), (wire_size c),
    <-(var_write_size_wire (headers r)) by done.
  destruct (record_size_eq v r) as (k & Hk0 & Ek). lia.
Qed.

Lemma encode_record_inner_emits v r :
  valid_record v r -> emits (encode_record_inner c v r) (wire_record_inner v r).
Proof.
  intros (Hp & Hk & Hv & Hh & _). unfold encode_record_inner, wire_record_inner.
  apply emits_seq; [by apply (encode_emits codec_record_header)|].
  apply emits_seq; [by apply (encode_emits (codec_option c))|].
  apply emits_seq; [by apply (encode_emits c)|]. by apply variant_encode_emits.
Qed.

Lemma reads_record_fields v r init :
  valid_record v r -> key init = None -> value init = dflt c ->
  preamble init = dflt codec_record_header ->
  reads (on_field preamble set_preamble (decode codec_record_header v) ;;
         on_field key set_key (decode (codec_option c) v) ;;
         on_field value set_value (decode c v) ;;
         on_field headers set_headers decode_varint)
    init (wire_record_inner v r) r.
Proof.
  intros (Hp & Hk & Hv & Hh & _) Ek Ev Ep. destruct r as [rp rk rv rh], init as [ip ik iv ih].
  cbn [preamble key value headers] in *. subst.
  eapply reads_seq;
    [apply reads_field; refine (decode_reads codec_record_header v rp _); exact Hp|].
  eapply reads_seq; [apply reads_field; refine (decode_reads (codec_option c) v rk _); exact Hk|].
  eapply reads_seq; [apply reads_field, (decode_reads c v rv Hv)|].
  apply reads_field_to with (b := rh); [done|by apply reads_varint].
Qed.

#[export] Program Instance codec_record_ok : CodecOK (codec_record_of c) := {|
  valid := valid_record;
  wire v r := wire_varint (zlen (wire_record_inner v r)) ++ wire_record_inner v r;
|}.
Next Obligation.
  pose proof H as (_ & _ & _ & _ & Hl). pose proof (zlen_nonneg (wire_record_inner v a)).
  eapply emits_with_new_vec; [by apply encode_record_inner_emits|unfold isize_max; lia|].
  rewrite wrap_i64_small by lia.
  apply emits_seq; [by apply variant_encode_emits, in_i32_small|apply emits_put_slice].
Qed.
Next Obligation.
  pose proof H as (Hp & Hk & Hv & Hh & Hl). pose proof (zlen_nonneg (wire_record_inner v a)).
  cbn [write_size codec_record_of]. unfold write_size_record. cbv zeta.
  assert (write_size codec_record_header v (preamble a) + write_size (codec_option c) v (key a)
    + write_size c v (value a) + var_write_size (headers a) = zlen (wire_record_inner v a)) as ->.
  { unfold wire_record_inner.
    rewrite !zlen_app, (wire_size codec_record_header), (wire_size (codec_option c)),
      (wire_size c), var_write_size_wire by done. lia. }
  rewrite wrap_i64_small, var_write_size_wire, zlen_app by (try apply in_i32_small; lia). lia.
Qed.
Next Obligation.
  pose proof H as (_ & _ & _ & _ & Hl). pose proof (zlen_nonneg (wire_record_inner v a)).
  cbn [decode codec_record_of dflt]. unfold decode_record.
  apply reads_local with (b := zlen (wire_record_inner v a));
    [by apply reads_varint, in_i32_small|].
  intros rest Hlen. erewrite bind_ok by done. cbn [snd].
  rewrite wrap_i64_small by (pose proof (zlen_nonneg (wire_record_inner v a ++ rest));
    unfold isize_max in *; lia).
  destruct (Z.ltb_spec (zlen (wire_record_inner v a ++ rest)) (zlen (wire_record_inner v a))).
  - rewrite zlen_app in *. pose proof (zlen_nonneg rest). lia.
  - by apply reads_record_fields.
Qed.
End record_laws.
