(* ===== verification/Batch.v ===== *)
(** * Batches

    [fluvio-protocol/src/record/batch.rs] and the enum of
    [fluvio-compression/src/lib.rs]: the batch header with its attribute bits,
    batches of raw or decoded records, their codec and the conversions between
    them. *)

From S2P Require Import Prelude Wire Varint Utf8 Scalars Collections Records.
From stdpp Require Import strings.

#[local] Open Scope Z_scope.

(** ** Compression algorithms *)

(* src/crates/fluvio-compression/src/lib.rs:27-38 Compression *)
Inductive Compression := CompNone | Gzip | Snappy | Lz4 | Zstd.

#[export] Instance Compression_eq_dec : EqDecision Compression.
Proof. solve_decision. Defined.

Inductive CompressionError :=
| IoError (k : ErrorKind)
| UnreachableError
| UnknownCompressionFormat
| BackendError
| CompressionPanic.

(** [Result<A, CompressionError>] *)
Definition cresult (A : Type) := (A + CompressionError)%type.

(** [compression as i8] *)
Definition compression_repr (c : Compression) : Z :=
  match c with CompNone => 0 | Gzip => 1 | Snappy => 2 | Lz4 => 3 | Zstd => 4 end.

(* src/crates/fluvio-compression/src/lib.rs:40-58 Compression::try_from *)
Definition compression_try_from (v : Z) : cresult Compression :=
  if v =? 0 then inl CompNone
  else if v =? 1 then inl Gzip
  else if v =? 2 then inl Snappy
  else if v =? 3 then inl Lz4
  else if v =? 4 then inl Zstd
  else inr UnknownCompressionFormat.

(** [str::to_lowercase] on the ASCII letters, all the format names use. *)
Definition ascii_lower (a : Ascii.ascii) : Ascii.ascii :=
  let n := Ascii.nat_of_ascii a in
  if (Nat.leb 65 n && Nat.leb n 90)%bool then Ascii.ascii_of_nat (n + 32) else a.
Fixpoint to_lowercase (s : string) : string :=
  match s with
  | EmptyString => EmptyString
  | String.String a s => String.String (ascii_lower a) (to_lowercase s)
  end.

(* src/crates/fluvio-compression/src/lib.rs:60-77 Compression::from_str *)
Definition compression_from_str (s : string) : cresult Compression :=
  let l := to_lowercase s in
  if String.eqb l "none" then inl CompNone
  else if String.eqb l "gzip" then inl Gzip
  else if String.eqb l "snappy" then inl Snappy
  else if String.eqb l "lz4" then inl Lz4
  else if String.eqb l "zstd" then inl Zstd
  else inr UnknownCompressionFormat.

(* src/crates/fluvio-compression/src/lib.rs:79-93 Compression::fmt *)
Definition compression_display (c : Compression) : string :=
  match c with
  | CompNone => "none" | Gzip => "gzip" | Snappy => "snappy" | Lz4 => "lz4" | Zstd => "zstd"
  end.

(** ** Batch headers *)

(* src/crates/fluvio-protocol/src/record/batch.rs:23-24 ATTR_SCHEMA_PRESENT *)
Definition ATTR_SCHEMA_PRESENT : Z := 0x10.
Definition ATTR_COMPRESSION_CODEC_MASK : Z := 0x07.

(* src/crates/fluvio-protocol/src/record/batch.rs:459-473 BatchHeader *)
Record BatchHeader := MkBatchHeader {
  partition_leader_epoch : Z;
  magic : Z;
  crc : Z;
  h_attributes : Z;
  last_offset_delta : Z;
  first_timestamp : Z;
  max_time_stamp : Z;
  producer_id : Z;
  producer_epoch : Z;
  first_sequence : Z;
}.

(* src/crates/fluvio-protocol/src/record/batch.rs:496-511 BatchHeader::default *)
Definition batch_header_default : BatchHeader :=
  MkBatchHeader (-1) 2 0 0 (-1) NO_TIMESTAMP NO_TIMESTAMP (-1) (-1) (-1).

Definition set_crc x h := MkBatchHeader (partition_leader_epoch h) (magic h) x (h_attributes h)
  (last_offset_delta h) (first_timestamp h) (max_time_stamp h) (producer_id h)
  (producer_epoch h) (first_sequence h).
Definition set_h_attributes x h := MkBatchHeader (partition_leader_epoch h) (magic h) (crc h) x
  (last_offset_delta h) (first_timestamp h) (max_time_stamp h) (producer_id h)
  (producer_epoch h) (first_sequence h).
Definition set_last_offset_delta x h := MkBatchHeader (partition_leader_epoch h) (magic h) (crc h)
  (h_attributes h) x (first_timestamp h) (max_time_stamp h) (producer_id h)
  (producer_epoch h) (first_sequence h).
Definition set_partition_leader_epoch x h := MkBatchHeader x (magic h) (crc h)
  (h_attributes h) (last_offset_delta h) (first_timestamp h) (max_time_stamp h) (producer_id h)
  (producer_epoch h) (first_sequence h).
Definition set_magic x h := MkBatchHeader (partition_leader_epoch h) x (crc h)
  (h_attributes h) (last_offset_delta h) (first_timestamp h) (max_time_stamp h) (producer_id h)
  (producer_epoch h) (first_sequence h).
(* src/crates/fluvio-protocol/src/record/batch.rs:532-534 BatchHeader::set_first_timestamp *)
Definition set_first_timestamp x h := MkBatchHeader (partition_leader_epoch h) (magic h) (crc h)
  (h_attributes h) (last_offset_delta h) x (max_time_stamp h) (producer_id h)
  (producer_epoch h) (first_sequence h).
(* src/crates/fluvio-protocol/src/record/batch.rs:536-538 BatchHeader::set_max_time_stamp *)
Definition set_max_time_stamp x h := MkBatchHeader (partition_leader_epoch h) (magic h) (crc h)
  (h_attributes h) (last_offset_delta h) (first_timestamp h) x (producer_id h)
  (producer_epoch h) (first_sequence h).
Definition set_producer_id x h := MkBatchHeader (partition_leader_epoch h) (magic h) (crc h)
  (h_attributes h) (last_offset_delta h) (first_timestamp h) (max_time_stamp h) x
  (producer_epoch h) (first_sequence h).
Definition set_producer_epoch x h := MkBatchHeader (partition_leader_epoch h) (magic h) (crc h)
  (h_attributes h) (last_offset_delta h) (first_timestamp h) (max_time_stamp h) (producer_id h)
  x (first_sequence h).
Definition set_first_sequence x h := MkBatchHeader (partition_leader_epoch h) (magic h) (crc h)
  (h_attributes h) (last_offset_delta h) (first_timestamp h) (max_time_stamp h) (producer_id h)
  (producer_epoch h) x.

(* src/crates/fluvio-protocol/src/record/batch.rs:476-479 BatchHeader::get_compression *)
Definition get_compression (self : BatchHeader) : cresult Compression :=
  compression_try_from (as_i8 (Z.land (h_attributes self) ATTR_COMPRESSION_CODEC_MASK)).
(* src/crates/fluvio-protocol/src/record/batch.rs:481-484 BatchHeader::set_compression *)
Definition set_compression (compression : Compression) (self : BatchHeader) : BatchHeader :=
  let compression_bits := Z.land (compression_repr compression) ATTR_COMPRESSION_CODEC_MASK in
  set_h_attributes
    (Z.lor (Z.land (h_attributes self) (Z.lnot ATTR_COMPRESSION_CODEC_MASK)) compression_bits) self.
(* src/crates/fluvio-protocol/src/record/batch.rs:486-489 BatchHeader::has_schema *)
Definition has_schema (self : BatchHeader) : bool :=
  negb (Z.land (h_attributes self) ATTR_SCHEMA_PRESENT =? 0).
(* src/crates/fluvio-protocol/src/record/batch.rs:492-494 BatchHeader::set_schema_id *)
Definition header_set_schema_id (self : BatchHeader) : BatchHeader :=
  set_h_attributes (Z.lor (h_attributes self) ATTR_SCHEMA_PRESENT) self.

(** Derived: every field in order. *)
(* src/crates/fluvio-protocol/src/record/batch.rs:458-473 derive(Decoder) for BatchHeader *)
Definition decode_batch_header (v : Z) : Dec BatchHeader :=
  on_field partition_leader_epoch set_partition_leader_epoch (decode codec_i32 v) ;;
  on_field magic set_magic (decode codec_i8 v) ;;
  on_field crc set_crc (decode codec_u32 v) ;;
  on_field h_attributes set_h_attributes (decode codec_i16 v) ;;
  on_field last_offset_delta set_last_offset_delta (decode codec_i32 v) ;;
  on_field first_timestamp set_first_timestamp (decode codec_i64 v) ;;
  on_field max_time_stamp set_max_time_stamp (decode codec_i64 v) ;;
  on_field producer_id set_producer_id (decode codec_i64 v) ;;
  on_field producer_epoch set_producer_epoch (decode codec_i16 v) ;;
  on_field first_sequence set_first_sequence (decode codec_i32 v).

(* src/crates/fluvio-protocol/src/record/batch.rs:68-70 BATCH_PREAMBLE_SIZE *)
Definition BATCH_PREAMBLE_SIZE : Z := 8 + 4.
(* src/crates/fluvio-protocol/src/record/batch.rs:513-522 BATCH_HEADER_SIZE *)
Definition BATCH_HEADER_SIZE : Z := 4 + 1 + 4 + 2 + 4 + 8 + 8 + 8 + 2 + 4.
(* src/crates/fluvio-protocol/src/record/batch.rs:72-72 BATCH_FILE_HEADER_SIZE *)
Definition BATCH_FILE_HEADER_SIZE : Z := BATCH_PREAMBLE_SIZE + BATCH_HEADER_SIZE.
(** [size_of::<SchemaId>()] *)
Definition SCHEMA_ID_SIZE : Z := 4.
(* src/crates/fluvio-protocol/src/record/batch.rs:27-27 SCHEMA_ID_NULL *)
Definition SCHEMA_ID_NULL : Z := 0.

(** ** Batches *)

(* src/crates/fluvio-protocol/src/record/batch.rs:86-94 Batch *)
Record Batch (R : Type) := MkBatch {
  base_offset : Z;
  batch_len : Z;
  header : BatchHeader;
  schema_id : Z;
  records : R;
}.
Arguments MkBatch {R}.
Arguments base_offset {R}.
Arguments batch_len {R}.
Arguments header {R}.
Arguments schema_id {R}.
Arguments records {R}.

Section batch_fields.
Context {R : Type}.
Implicit Types b : Batch R.

(* src/crates/fluvio-protocol/src/record/batch.rs:124-126 Batch::set_base_offset *)
Definition set_base_offset x b := MkBatch x (batch_len b) (header b) (schema_id b) (records b).
Definition set_batch_len x b := MkBatch (base_offset b) x (header b) (schema_id b) (records b).
Definition set_header x b := MkBatch (base_offset b) (batch_len b) x (schema_id b) (records b).
Definition set_batch_schema_id x b := MkBatch (base_offset b) (batch_len b) (header b) x (records b).
Definition set_records (x : R) b := MkBatch (base_offset b) (batch_len b) (header b) (schema_id b) x.

(* src/crates/fluvio-protocol/src/record/batch.rs:141-143 Batch::get_last_offset *)
Definition get_last_offset b : Z := as_i64 (base_offset b + last_offset_delta (header b)).
(* src/crates/fluvio-protocol/src/record/batch.rs:145-151 Batch::records_len *)
Definition records_len b : Z :=
  if last_offset_delta (header b) <? 0 then 0 else last_offset_delta (header b) + 1.
(* src/crates/fluvio-protocol/src/record/batch.rs:187-190 Batch::set_schema_id *)
Definition set_schema_id (sid : Z) b : Batch R :=
  set_batch_schema_id sid (set_header (header_set_schema_id (header b)) b).
(* src/crates/fluvio-protocol/src/record/batch.rs:268-271 Batch::computed_last_offset *)
Definition computed_last_offset b : Z := as_i64 (base_offset b + records_len b).

(* src/crates/fluvio-protocol/src/record/batch.rs:165-176 Batch::decode_from_file_buf *)
Definition decode_from_file_buf (v : Z) : Dec (Batch R) :=
  on_field base_offset set_base_offset (decode codec_i64 v) ;;
  on_field batch_len set_batch_len (decode codec_i32 v) ;;
  on_field header set_header (decode_batch_header v).
End batch_fields.

(** The checksum is the [crc32c] crate's: a function from bytes to a [u32]. *)
Section batch_codec.
Context (crc32c : list byte -> Z).
Context {R : Type} (c : Codec R).
Implicit Types b : Batch R.

Definition batch_default : Batch R := MkBatch 0 0 batch_header_default SCHEMA_ID_NULL (dflt c).

(* src/crates/fluvio-protocol/src/record/batch.rs:244-251 Batch::calc_batch_len *)
Definition calc_batch_len b : Z :=
  as_i32 (if has_schema (header b)
          then BATCH_HEADER_SIZE + write_size c 0 (records b) + SCHEMA_ID_SIZE
          else BATCH_HEADER_SIZE + write_size c 0 (records b)).
(* src/crates/fluvio-protocol/src/record/batch.rs:239-242 Batch::validate_decoding *)
Definition validate_decoding b : bool := batch_len b =? calc_batch_len b.

(** The part of the batch the checksum covers. *)
Definition encode_batch_body (v : Z) b : Enc :=
  let h := header b in
  encode codec_i16 v (h_attributes h) ;;
  encode codec_i32 v (last_offset_delta h) ;;
  encode codec_i64 v (first_timestamp h) ;;
  encode codec_i64 v (max_time_stamp h) ;;
  encode codec_i64 v (producer_id h) ;;
  encode codec_i16 v (producer_epoch h) ;;
  encode codec_i32 v (first_sequence h) ;;
  (if has_schema h then encode codec_u32 v (schema_id b) else mret tt) ;;
  encode c v (records b).

(* src/crates/fluvio-protocol/src/record/batch.rs:408-410 Batch::write_size *)
Definition write_size_batch (v : Z) b : Z := BATCH_FILE_HEADER_SIZE + write_size c v (records b).
(* src/crates/fluvio-protocol/src/record/batch.rs:412-443 Batch::encode *)
Definition encode_batch (v : Z) b : Enc :=
  encode codec_i64 v (base_offset b) ;;
  encode codec_i32 v (calc_batch_len b) ;;
  encode codec_i32 v (partition_leader_epoch (header b)) ;;
  encode codec_i8 v (magic (header b)) ;;
  out ← with_new_vec (encode_batch_body v b);
  encode codec_u32 v (crc32c out) ;;
  put_slice out.

(** [self.batch_len as usize - BATCH_HEADER_SIZE - ...] wraps. *)
Definition rec_len b : Z :=
  if has_schema (header b)
  then wrap_u 64 (as_usize (batch_len b) - BATCH_HEADER_SIZE - SCHEMA_ID_SIZE)
  else wrap_u 64 (as_usize (batch_len b) - BATCH_HEADER_SIZE).

(** [if buf.remaining() > 0 { self.records.decode(&mut buf, version)? }] *)
Definition decode_batch_records (v : Z) : Dec (Batch R) :=
  rem ← remaining;
  if 0 <? rem then on_field records set_records (decode c v) else mret tt.
(* src/crates/fluvio-protocol/src/record/batch.rs:370-401 Batch::decode *)
Definition decode_batch (v : Z) : Dec (Batch R) :=
  decode_from_file_buf v ;;
  b ← self_get;
  (if has_schema (header b) then
     sid ← on_local SCHEMA_ID_NULL (decode codec_u32 v);
     self_modify (set_batch_schema_id sid)
   else mret tt) ;;
  on_take (rec_len b) (decode_batch_records v).

(* src/crates/fluvio-protocol/src/record/batch.rs:404-444 impl Encoder for Batch *)
Definition codec_batch : Codec (Batch R) :=
  MkCodec batch_default write_size_batch encode_batch decode_batch.
End batch_codec.

(** ** The two kinds of records *)

(** [RawRecords(Bytes)]: the bytes as they are, to the end of the source. *)
(* src/crates/fluvio-protocol/src/record/batch.rs:46-55 impl Encoder for RawRecords *)
Definition encode_raw (v : Z) (self : list byte) : Enc := put_slice self.
(* src/crates/fluvio-protocol/src/record/batch.rs:57-63 RawRecords::decode *)
Definition decode_raw (v : Z) : Dec (list byte) :=
  len ← remaining; bs ← copy_to_bytes len; self_put bs.
(* src/crates/fluvio-protocol/src/record/batch.rs:43-66 RawRecords *)
Definition codec_raw : Codec (list byte) :=
  MkCodec [] (fun _ self => zlen self) encode_raw decode_raw.

(* src/crates/fluvio-protocol/src/record/batch.rs:37-38 MemoryRecords *)
Notation MemoryRecords := (list Record').
Definition codec_memory : Codec MemoryRecords := codec_vec codec_record.

(** ** Attribute bits *)

Lemma compression_try_from_repr c : compression_try_from (compression_repr c) = inl c.
Proof. by destruct c. Qed.

Lemma compression_repr_range c : 0 <= compression_repr c < 8.
Proof. destruct c; simpl; lia. Qed.

Lemma get_set_compression c h : get_compression (set_compression c h) = inl c.
Proof.
  unfold get_compression, set_compression, ATTR_COMPRESSION_CODEC_MASK. cbv zeta.
  cbn [h_attributes set_h_attributes]. pose proof (compression_repr_range c) as Hc.
  assert (Z.land (Z.lor (Z.land (h_attributes h) (Z.lnot 7)) (Z.land (compression_repr c) 7)) 7
          = compression_repr c) as ->.
  { rewrite Z.land_lor_distr_l, <-Z.land_assoc.
    change (Z.land (Z.lnot 7) 7) with 0. rewrite Z.land_0_r, Z.lor_0_l, <-Z.land_assoc.
    change (Z.land 7 7) with (Z.ones 3). rewrite Z.land_ones by lia. apply Z.mod_small. done. }
  rewrite wrap_i_id by (unfold in_i; simpl; lia). apply compression_try_from_repr.
Qed.

Lemma has_schema_set_compression c h : has_schema (set_compression c h) = has_schema h.
Proof.
  unfold has_schema, set_compression, ATTR_COMPRESSION_CODEC_MASK, ATTR_SCHEMA_PRESENT. cbv zeta.
  cbn [h_attributes set_h_attributes].
  rewrite Z.land_lor_distr_l, <-!Z.land_assoc.
  change (Z.land (Z.lnot 7) 0x10) with 0x10. change (Z.land 7 0x10) with 0.
  rewrite Z.land_0_r, Z.lor_0_r. done.
Qed.

Lemma has_schema_set_schema_id h : has_schema (header_set_schema_id h) = true.
Proof.
  unfold has_schema, header_set_schema_id, ATTR_SCHEMA_PRESENT. cbn [h_attributes set_h_attributes].
  apply negb_true_iff, Z.eqb_neq. intros E.
  assert (Z.testbit (Z.land (Z.lor (h_attributes h) 16) 16) 4 = true) as Ht.
  { rewrite Z.land_spec, Z.lor_spec. change (Z.testbit 16 4) with true.
    rewrite orb_true_r. done. }
  rewrite E in Ht. done.
Qed.

Lemma get_compression_set_schema_id h :
  get_compression (header_set_schema_id h) = get_compression h.
Proof.
  unfold get_compression, header_set_schema_id, ATTR_COMPRESSION_CODEC_MASK, ATTR_SCHEMA_PRESENT.
  cbn [h_attributes set_h_attributes]. rewrite Z.land_lor_distr_l.
  change (Z.land 16 7) with 0. by rewrite Z.lor_0_r.
Qed.

(** ** Laws of the records of a batch

    Raw records are read to the end of the source: the laws are stated for a
    source that holds nothing else. *)

Class RecordsOK {R} (c : Codec R) := {
  rvalid : R -> Prop;
  rwire : R -> list byte;
  rencode_emits v r : rvalid r -> emits (encode c v r) (rwire r);
  rwire_size v r : rvalid r -> write_size c v r = zlen (rwire r);
  rdecode_exact v r : rvalid r -> zlen (rwire r) <= isize_max ->
    decode c v (dflt c, rwire r) = (Ok tt, (r, []));
  rwire_nil r : rvalid r -> rwire r = [] -> r = dflt c;
}.
Arguments rvalid {R} c {_}.
Arguments rwire {R} c {_}.

#[local] Obligation Tactic := intros; cbv beta in *.

#[export] Program Instance codec_raw_ok : RecordsOK codec_raw := {|
  rvalid _ := True; rwire r := r |}.
Next Obligation. apply emits_put_slice. Qed.
Next Obligation. done. Qed.
Next Obligation.
  cbn [decode codec_raw dflt]. unfold decode_raw. erewrite bind_ok by done. cbn [snd].
  rewrite <-(app_nil_r r) at 2. erewrite bind_ok by (apply copy_to_bytes_app; done). done.
Qed.
Next Obligation. done. Qed.

(** Neither validity nor the bytes of records depend on the version. *)
Definition valid_memory (rs : MemoryRecords) : Prop := valid codec_memory 0 rs.

Lemma valid_memory_version v rs : valid_memory rs -> valid codec_memory v rs.
Proof. intros H. exact H. Qed.

Lemma wire_memory_version v rs : wire codec_memory v rs = wire codec_memory 0 rs.
Proof. reflexivity. Qed.

Lemma wire_memory_nonempty rs : 4 <= zlen (wire codec_memory 0 rs).
Proof.
  change (wire codec_memory 0 rs) with (be_split 4 (zlen rs) ++ concat (map (wire codec_record 0) rs)).
  rewrite zlen_app, zlen_be_split.
  pose proof (zlen_nonneg (concat (map (wire codec_record 0) rs))). lia.
Qed.

#[export] Program Instance codec_memory_ok : RecordsOK codec_memory := {|
  rvalid rs := valid_memory rs; rwire rs := wire codec_memory 0 rs |}.
Next Obligation.
  rewrite <-(wire_memory_version v). by apply (encode_emits codec_memory), valid_memory_version.
Qed.
Next Obligation.
  rewrite <-(wire_memory_version v), (wire_size codec_memory); [done|].
  by apply valid_memory_version.
Qed.
Next Obligation.
  rewrite <-(wire_memory_version v) in *. apply reads_app_rest; [|done].
  by apply (decode_reads codec_memory), valid_memory_version.
Qed.
Next Obligation. pose proof (wire_memory_nonempty r) as Hn. rewrite H0, zlen_nil in Hn. lia. Qed.

(** ** The batch codec *)

Definition valid_batch_header (h : BatchHeader) : Prop :=
  in_i 32 (partition_leader_epoch h) /\ in_i 8 (magic h) /\ in_i 16 (h_attributes h) /\
  in_i 32 (last_offset_delta h) /\ in_i 64 (first_timestamp h) /\ in_i 64 (max_time_stamp h) /\
  in_i 64 (producer_id h) /\ in_i 16 (producer_epoch h) /\ in_i 32 (first_sequence h).

Section batch_laws.
Context (crc32c : list byte -> Z) (crc32c_u32 : forall bs, in_u 32 (crc32c bs)).
Context {R : Type} (c : Codec R) `{!RecordsOK c}.
Implicit Types b : Batch R.

(** A batch without the schema flag has no schema id to carry. *)
Definition valid_batch b : Prop :=
  in_i 64 (base_offset b) /\ valid_batch_header (header b) /\ in_u 32 (schema_id b) /\
  (has_schema (header b) = false -> schema_id b = SCHEMA_ID_NULL) /\
  rvalid c (records b) /\
  BATCH_HEADER_SIZE + zlen (rwire c (records b)) + SCHEMA_ID_SIZE < 2 ^ 31.

Definition wire_batch_body b : list byte :=
  let h := header b in
  be_split 2 (h_attributes h) ++ be_split 4 (last_offset_delta h) ++
  be_split 8 (first_timestamp h) ++ be_split 8 (max_time_stamp h) ++
  be_split 8 (producer_id h) ++ be_split 2 (producer_epoch h) ++ be_split 4 (first_sequence h) ++
  (if has_schema h then be_split 4 (schema_id b) else []) ++ rwire c (records b).

Definition wire_batch b : list byte :=
  be_split 8 (base_offset b) ++ be_split 4 (calc_batch_len c b) ++
  be_split 4 (partition_leader_epoch (header b)) ++ be_split 1 (magic (header b)) ++
  be_split 4 (crc32c (wire_batch_body b)) ++ wire_batch_body b.

(** What a batch becomes on the wire: its length and checksum are recomputed. *)
Definition sealed b : Batch R :=
  set_batch_len (calc_batch_len c b)
    (set_header (set_crc (crc32c (wire_batch_body b)) (header b)) b).

Lemma calc_batch_len_eq b : valid_batch b ->
  calc_batch_len c b = BATCH_HEADER_SIZE + zlen (rwire c (records b))
    + (if has_schema (header b) then SCHEMA_ID_SIZE else 0).
Proof.
  intros (_ & _ & _ & _ & Hr & Hl). unfold calc_batch_len. rewrite (rwire_size 0) by done.
  pose proof (zlen_nonneg (rwire c (records b))).
  unfold BATCH_HEADER_SIZE, SCHEMA_ID_SIZE in *.
  rewrite wrap_i_id; [|lia|unfold in_i]; destruct (has_schema (header b)); lia.
Qed.

Lemma zlen_wire_batch_body b :
  zlen (wire_batch_body b) = 36 + zlen (rwire c (records b))
    + (if has_schema (header b) then SCHEMA_ID_SIZE else 0).
Proof.
  unfold wire_batch_body, SCHEMA_ID_SIZE. cbv zeta. rewrite !zlen_app, !zlen_be_split.
  destruct (has_schema (header b)); rewrite ?zlen_be_split, ?zlen_nil; lia.
Qed.

Lemma zlen_wire_batch b :
  zlen (wire_batch b) = BATCH_FILE_HEADER_SIZE + zlen (rwire c (records b))
    + (if has_schema (header b) then SCHEMA_ID_SIZE else 0).
Proof.
  unfold wire_batch, BATCH_FILE_HEADER_SIZE, BATCH_PREAMBLE_SIZE, BATCH_HEADER_SIZE.
  rewrite !zlen_app, !zlen_be_split, zlen_wire_batch_body. lia.
Qed.

Lemma encode_batch_body_emits v b :
  valid_batch b -> emits (encode_batch_body c v b) (wire_batch_body b).
Proof.
  intros (Hb & (H1 & H2 & H3 & H4 & H5 & H6 & H7 & H8 & H9) & Hs & Hs' & Hr & Hl).
  unfold encode_batch_body, wire_batch_body. cbv zeta.
  do 7 (apply emits_seq; [by auto with fluvio|]).
  apply emits_seq; [|by apply rencode_emits].
  destruct (has_schema _); [by apply emits_u32|apply emits_ret].
Qed.

Lemma encode_batch_emits v b :
  valid_batch b -> emits (encode_batch crc32c c v b) (wire_batch b).
Proof.
  intros Hv. pose proof Hv as (Hb & (H1 & H2 & _) & _ & _ & _ & Hl).
  unfold encode_batch, wire_batch.
  apply emits_seq; [by apply emits_i64|].
  apply emits_seq; [apply emits_i32, wrap_i_range; lia|].
  do 2 (apply emits_seq; [by auto with fluvio|]).
  eapply emits_with_new_vec; [by apply encode_batch_body_emits| |].
  - rewrite zlen_wire_batch_body. unfold isize_max, BATCH_HEADER_SIZE, SCHEMA_ID_SIZE in *.
    destruct (has_schema _); lia.
  - apply emits_seq; [by apply emits_u32|apply emits_put_slice].
Qed.

Definition wire_batch_header (h : BatchHeader) : list byte :=
  be_split 4 (partition_leader_epoch h) ++ be_split 1 (magic h) ++ be_split 4 (crc h) ++
  be_split 2 (h_attributes h) ++ be_split 4 (last_offset_delta h) ++
  be_split 8 (first_timestamp h) ++ be_split 8 (max_time_stamp h) ++
  be_split 8 (producer_id h) ++ be_split 2 (producer_epoch h) ++ be_split 4 (first_sequence h).

Lemma reads_batch_header v h init :
  valid_batch_header h -> in_u 32 (crc h) ->
  reads (decode_batch_header v) init (wire_batch_header h) h.
Proof.
  intros (H1 & H2 & H3 & H4 & H5 & H6 & H7 & H8 & H9) Hc. unfold decode_batch_header.
  do 9 (eapply reads_seq; [apply reads_field; by auto with fluvio|]).
  apply reads_field_to with (b := first_sequence h); [by destruct h|]. auto with fluvio.
Qed.

(** The wire form of a batch, split the way the decoder reads it. *)
Definition wire_preamble b : list byte :=
  be_split 8 (base_offset b) ++ be_split 4 (calc_batch_len c b) ++
  wire_batch_header (header (sealed b)).
Definition wire_schema b : list byte :=
  if has_schema (header b) then be_split 4 (schema_id b) else [].

Lemma wire_batch_split b :
  wire_batch b = wire_preamble b ++ wire_schema b ++ rwire c (records b).
Proof.
  unfold wire_batch, wire_preamble, wire_schema, wire_batch_header, sealed. cbn.
  unfold wire_batch_body at 2. cbv zeta. by rewrite <-!app_assoc.
Qed.

Lemma zlen_wire_preamble b : zlen (wire_preamble b) = BATCH_FILE_HEADER_SIZE.
Proof.
  unfold wire_preamble, wire_batch_header. by rewrite !zlen_app, !zlen_be_split.
Qed.

Lemma zlen_wire_schema b :
  zlen (wire_schema b) = if has_schema (header b) then SCHEMA_ID_SIZE else 0.
Proof. unfold wire_schema. destruct (has_schema _); [apply zlen_be_split|done]. Qed.

Lemma reads_batch_preamble {R'} v b (init : Batch R') :
  valid_batch b ->
  reads (decode_from_file_buf v) init (wire_preamble b)
    (set_header (header (sealed b)) (set_batch_len (calc_batch_len c b)
      (set_base_offset (base_offset b) init))).
Proof.
  intros (Hb & Hh & _). unfold decode_from_file_buf, wire_preamble.
  eapply reads_seq; [apply reads_field; by auto with fluvio|].
  eapply reads_seq; [apply reads_field, reads_i32, wrap_i_range; lia|].
  apply reads_field. apply reads_batch_header; [exact Hh|apply crc32c_u32].
Qed.

Lemma rec_len_sealed b (y : Batch R) :
  valid_batch b -> header y = header (sealed b) -> batch_len y = calc_batch_len c b ->
  rec_len y = zlen (rwire c (records b)).
Proof.
  intros Hv Eh El. unfold rec_len. rewrite Eh, El, calc_batch_len_eq by done.
  pose proof Hv as (_ & _ & _ & _ & _ & Hl). pose proof (zlen_nonneg (rwire c (records b))).
  change (has_schema (header (sealed b))) with (has_schema (header b)).
  unfold BATCH_HEADER_SIZE, SCHEMA_ID_SIZE in *.
  destruct (has_schema (header b)); rewrite !wrap_u_id by (rewrite ?wrap_u_id; unfold in_u; lia); lia.
Qed.

(** Once the header and the schema id are read, only the records are left. *)
Lemma decode_batch_to_records v b src :
  valid_batch b -> zlen (wire_preamble b ++ wire_schema b ++ src) <= isize_max ->
  decode_batch c v (batch_default c, wire_preamble b ++ wire_schema b ++ src) =
  on_take (zlen (rwire c (records b))) (decode_batch_records c v)
    (set_records (dflt c) (sealed b), src).
Proof.
  intros Hv Hl. pose proof Hv as (_ & _ & Hs & Hs0 & _ & _). unfold decode_batch.
  erewrite bind_ok by (apply reads_batch_preamble; done).
  erewrite bind_ok by done. cbn [header set_header fst].
  change (has_schema (header (sealed b))) with (has_schema (header b)).
  rewrite zlen_app in Hl. pose proof (zlen_nonneg (wire_preamble b)).
  rewrite (rec_len_sealed b) by done. unfold wire_schema in *.
  destruct (has_schema (header b)) eqn:E.
  - rewrite bind_assoc. unfold on_local. unfold mbind at 1, M_bind at 1. cbn [fst snd].
    rewrite (reads_u32 v (schema_id b) SCHEMA_ID_NULL Hs src) by lia. by erewrite bind_ok by done.
  - erewrite bind_ok by done. unfold sealed, set_records, batch_default. cbn.
    destruct b; cbn in *. by rewrite Hs0.
Qed.

Lemma reads_batch v b :
  valid_batch b -> reads (decode_batch c v) (batch_default c) (wire_batch b) (sealed b).
Proof.
  intros Hv rest Hl. pose proof Hv as (_ & _ & _ & _ & Hr & Hl').
  rewrite wire_batch_split, <-!app_assoc in *. rewrite decode_batch_to_records by done.
  apply reads_take_exact; [done| |rewrite !zlen_app in *;
    pose proof (zlen_nonneg (wire_preamble b)); pose proof (zlen_nonneg (wire_schema b)); lia].
  unfold decode_batch_records. erewrite bind_ok by done. cbn [snd]. case_ltb.
  - unfold on_field. cbn [fst snd records set_records sealed].
    rewrite rdecode_exact; [by destruct b|done|].
    unfold isize_max, BATCH_HEADER_SIZE, SCHEMA_ID_SIZE in *. lia.
  - assert (rwire c (records b) = []) as E.
    { apply length_zero_iff_nil. unfold zlen in *. lia. }
    rewrite E. rewrite <-(rwire_nil _ Hr E). by destruct b.
Qed.
End batch_laws.
