(* ===== verification/RecordSet.v ===== *)
(** * Batch construction, compression of batches, record sets

    The operations of [fluvio-protocol/src/record/batch.rs] that build and
    convert batches, the dispatch of [fluvio-compression/src/lib.rs] over the
    compression back ends (parameters with their round trip as hypothesis), and
    the [RecordSet] of [fluvio-protocol/src/record/data.rs], the payload of
    produce and fetch messages. *)

From S2P Require Import Prelude Wire Varint Utf8 Scalars Collections Records Batch.
From stdpp Require Import list strings.

#[local] Open Scope Z_scope.

(** ** Building a batch of records *)

(** [for (index, record) in records.iter_mut().enumerate()
    { record.preamble.set_offset_delta(index as Offset) }] *)
Definition number_record (index : nat) (record : Record') : Record' :=
  set_preamble (set_offset_delta (as_i64 (Z.of_nat index)) (preamble record)) record.
Definition number_records (rs : MemoryRecords) : MemoryRecords := imap number_record rs.

(* src/crates/fluvio-protocol/src/record/batch.rs:287-292 Batch::update_offset_deltas *)
Definition update_offset_deltas (self : Batch MemoryRecords) : Batch MemoryRecords :=
  let self := set_records (number_records (records self)) self in
  set_header (set_last_offset_delta (as_i32 (as_i32 (zlen (records self)) - 1)) (header self)) self.
(* src/crates/fluvio-protocol/src/record/batch.rs:281-285 Batch::add_records *)
Definition add_records (rs : MemoryRecords) (self : Batch MemoryRecords) : Batch MemoryRecords :=
  let self := set_records (records self ++ rs) self in
  let self := set_batch_len (calc_batch_len codec_memory self) self in
  update_offset_deltas self.
(* src/crates/fluvio-protocol/src/record/batch.rs:276-279 Batch::add_record *)
Definition add_record (record : Record') (self : Batch MemoryRecords) : Batch MemoryRecords :=
  let self := add_records [record] self in
  set_batch_len (calc_batch_len codec_memory self) self.
(* src/crates/fluvio-protocol/src/record/batch.rs:294-310 Batch::into_consumer_records_iter *)
Definition into_consumer_records (partition : Z) (self : Batch MemoryRecords) : list ConsumerRecord :=
  imap (fun relative record =>
    MkConsumerRecord (as_i64 (base_offset self + Z.of_nat relative)) partition record
      (first_timestamp (header self))) (records self).
(* src/crates/fluvio-protocol/src/record/batch.rs:348-368 Batch::from *)
Definition batch_from (rs : MemoryRecords) : Batch MemoryRecords :=
  let batch := set_records (number_records rs) (batch_default codec_memory) in
  let len := as_i32 (zlen (records batch)) in
  let batch := set_batch_len (calc_batch_len codec_memory batch) batch in
  set_header (set_last_offset_delta (if 0 <? len then len - 1 else len) (header batch)) batch.

(** ** Compression *)

(** A compression library: a fallible encoder and a fallible decoder. *)
Record Backend := MkBackend {
  backend_compress : list byte -> cresult (list byte);
  backend_uncompress : list byte -> cresult (list byte);
}.

(** Lossless compression, as every back end documents. *)
Definition lossless (be : Backend) : Prop :=
  forall src out, backend_compress be src = inl out -> backend_uncompress be out = inl src.

Definition cbind {A B} (m : cresult A) (f : A -> cresult B) : cresult B :=
  match m with inl a => f a | inr e => inr e end.

Section compression.
Context (gzip snappy lz4 zstd : Backend).

(* src/crates/fluvio-compression/src/lib.rs:97-109 Compression::compress *)
Definition compress (self : Compression) (src : list byte) : cresult (list byte) :=
  match self with
  | CompNone => inl src
  | Gzip => backend_compress gzip src
  | Snappy => backend_compress snappy src
  | Lz4 => backend_compress lz4 src
  | Zstd => backend_compress zstd src
  end.
(* src/crates/fluvio-compression/src/lib.rs:113-137 Compression::uncompress *)
Definition uncompress (self : Compression) (src : list byte) : cresult (option (list byte)) :=
  match self with
  | CompNone => inl None
  | Gzip => cbind (backend_uncompress gzip src) (fun output => inl (Some output))
  | Snappy => cbind (backend_uncompress snappy src) (fun output => inl (Some output))
  | Lz4 => cbind (backend_uncompress lz4 src) (fun output => inl (Some output))
  | Zstd => cbind (backend_uncompress zstd src) (fun output => inl (Some output))
  end.

(** The closure of [memory_records]: records cut short are kept as they are. *)
Definition decode_memory (data : list byte) : cresult MemoryRecords :=
  match decode codec_memory 0 (dflt codec_memory, data) with
  | (Ok _, (rs, _)) => inl rs
  | (Err UnexpectedEof, (rs, _)) => inl rs
  | (Err k, _) => inr (IoError k)
  | (Panic, _) => inr CompressionPanic
  end.
(* src/crates/fluvio-protocol/src/record/batch.rs:313-346 Batch::memory_records *)
Definition memory_records (self : Batch (list byte)) : cresult MemoryRecords :=
  cbind (get_compression (header self)) (fun compression =>
    match compression with
    | CompNone => decode_memory (records self)
    | compression =>
        cbind (uncompress compression (records self)) (fun decompressed =>
          match decompressed with
          | None => inr UnreachableError
          | Some data => decode_memory data
          end)
    end).
(* src/crates/fluvio-protocol/src/record/batch.rs:193-205 Batch::try_from<Batch<RawRecords>> *)
Definition batch_of_raw (batch : Batch (list byte)) : cresult (Batch MemoryRecords) :=
  cbind (memory_records batch) (fun rs =>
    inl (MkBatch (base_offset batch) (as_i32 (BATCH_HEADER_SIZE + write_size codec_memory 0 rs))
           (header batch) SCHEMA_ID_NULL rs)).
(* src/crates/fluvio-protocol/src/record/batch.rs:207-233 Batch<RawRecords>::try_from<Batch> *)
Definition raw_of_batch (f : Batch MemoryRecords) : cresult (Batch (list byte)) :=
  match encode codec_memory 0 (records f) vec_new with
  | (Err k, _) => inr (IoError k)
  | (Panic, _) => inr CompressionPanic
  | (Ok _, buf) =>
      cbind (get_compression (header f)) (fun compression =>
      cbind (compress compression (written buf)) (fun compressed_records =>
        let compressed_records_len := as_i32 (zlen compressed_records) in
        let schema_len := if has_schema (header f) then SCHEMA_ID_SIZE else 0 in
        inl (MkBatch (base_offset f)
               (as_i32 (as_i32 (BATCH_HEADER_SIZE + compressed_records_len) + schema_len))
               (header f) (schema_id f) compressed_records)))
  end.
End compression.

(** ** Record sets *)

(* src/crates/fluvio-protocol/src/record/data.rs:249-254 RecordSet *)
Record RecordSet (R : Type) := MkRecordSet { batches : list (Batch R) }.
Arguments MkRecordSet {R}.
Arguments batches {R}.

Section record_set.
Context (crc32c : list byte -> Z).
Context {R : Type} (c : Codec R).
Implicit Types self : RecordSet R.

(* src/crates/fluvio-protocol/src/record/data.rs:282-289 RecordSet::last_offset *)
Definition last_offset self : option Z :=
  computed_last_offset <$> List.find (validate_decoding c) (rev (batches self)).
(* src/crates/fluvio-protocol/src/record/data.rs:292-297 RecordSet::total_records *)
Definition total_records self : Z :=
  fold_left (fun sum b => wrap_u 64 (sum + records_len b)) (batches self) 0.
(* src/crates/fluvio-protocol/src/record/data.rs:300-305 RecordSet::base_offset *)
Definition record_set_base_offset self : Z :=
  match batches self with [] => -1 | batch :: _ => base_offset batch end.

(** One turn of the [while buf.remaining() > 0] loop; any error but a panic
    ends the decoding with the batches read so far. *)
Definition decode_batches_step (v : Z) (st : list (Batch R) * list byte)
    : list (Batch R) * list byte + res unit * (list (Batch R) * list byte) :=
  let '(bs, buf) := st in
  if 0 <? zlen buf then
    match decode_from (codec_batch crc32c c) v buf with
    | (Ok batch, buf') => inl (bs ++ [batch], buf')
    | (Err _, buf') => inr (Ok tt, (bs, buf'))
    | (Panic, buf') => inr (Panic, (bs, buf'))
    end
  else inr (Ok tt, (bs, buf)).
(** A batch takes at least one byte, so a turn per byte and one more is
    enough ([decode_batches_ends]). *)
Definition decode_batches (v : Z) : Dec (list (Batch R)) := fun st =>
  match loop_n (S (length (snd st))) (decode_batches_step v) st with
  | inr r => r
  | inl st => (Panic, st)
  end.
(* src/crates/fluvio-protocol/src/record/data.rs:308-358 RecordSet::decode *)
Definition decode_record_set (v : Z) : Dec (RecordSet R) :=
  len ← on_local 0 (decode codec_i32 v);
  rem ← remaining;
  if rem <? as_usize len then fail UnexpectedEof
  else on_take (as_usize len) (on_field batches (fun bs _ => MkRecordSet bs) (decode_batches v)).
(* src/crates/fluvio-protocol/src/record/data.rs:361-365 RecordSet::write_size *)
Definition write_size_record_set (v : Z) self : Z :=
  fold_left (fun sum val => sum + write_size_batch c v val) (batches self) 4.
(* src/crates/fluvio-protocol/src/record/data.rs:367-387 RecordSet::encode *)
Definition encode_record_set (v : Z) self : Enc :=
  out ← with_new_vec (for_each (encode_batch crc32c c v) (batches self));
  encode codec_i32 v (as_i32 (zlen out)) ;;
  put_slice out.
Definition codec_record_set : Codec (RecordSet R) :=
  MkCodec (MkRecordSet []) write_size_record_set encode_record_set decode_record_set.
End record_set.

(** ** Decoders that never give bytes back

    Every turn of a decoding loop then leaves fewer bytes than it found. *)

Definition shrinks {A B} (m : M (A * list byte) B) : Prop :=
  forall st, zlen (snd (snd (m st))) <= zlen (snd st).

Class DecShrinks {A} (c : Codec A) := dec_shrinks : forall v, shrinks (decode c v).

Lemma shrinks_bind {A B C} (m : M (A * list byte) B) (f : B -> M (A * list byte) C) :
  shrinks m -> (forall b, shrinks (f b)) -> shrinks (m ≫= f).
Proof.
  intros Hm Hf st. unfold mbind, M_bind. specialize (Hm st).
  destruct (m st) as [[b|k|] st']; simpl in *; [|lia|lia]. specialize (Hf b st'). lia.
Qed.

Lemma shrinks_local {A B} (b0 : B) (d : Dec B) : shrinks d -> shrinks (@on_local A B b0 d).
Proof.
  intros Hd st. unfold on_local. specialize (Hd (b0, snd st)).
  destruct (d _) as [[[]|k|] [b src]]; done.
Qed.

Lemma shrinks_field {A B} (proj : A -> B) upd (d : Dec B) : shrinks d -> shrinks (on_field proj upd d).
Proof.
  intros Hd st. unfold on_field. specialize (Hd (proj (fst st), snd st)).
  destruct (d _) as [r [b src]]; done.
Qed.

Lemma shrinks_take {A B} n (m : M (A * list byte) B) : shrinks m -> shrinks (on_take n m).
Proof.
  intros Hm st. unfold on_take. specialize (Hm (fst st, ztake n (snd st))).
  destruct (m _) as [r [a rest]]. simpl in *.
  rewrite <-(ztake_zdrop n (snd st)) at 2. rewrite !zlen_app. lia.
Qed.

Lemma shrinks_times {A} n (m : Dec A) : shrinks m -> shrinks (times n m).
Proof.
  intros Hm st. rewrite times_to_nat. revert st. generalize (Z.to_nat n) as k.
  induction k as [|k IH]; intros st; simpl; [apply Z.le_refl|]. by apply shrinks_bind.
Qed.

Lemma zlen_drop_le {A} n (l : list A) : zlen (drop n l) <= zlen l.
Proof. unfold zlen. rewrite length_drop. lia. Qed.

Lemma shrinks_get_be {A} n : shrinks (@get_be A n).
Proof. intros st. unfold get_be. case_ltb; [apply Z.le_refl|]. apply zlen_drop_le. Qed.
Lemma shrinks_copy_to_bytes {A} n : shrinks (@copy_to_bytes A n).
Proof. intros st. unfold copy_to_bytes. case_ltb; [apply Z.le_refl|]. apply zlen_drop_le. Qed.
Lemma shrinks_take_bytes {A} n : shrinks (@take_bytes A n).
Proof. intros st. apply zlen_drop_le. Qed.
Lemma shrinks_ensure {A} n : shrinks (@ensure_remaining A n).
Proof. intros st. unfold ensure_remaining. case_ltb; apply Z.le_refl. Qed.
Lemma shrinks_ret {A B} (b : B) : shrinks (mret b : M (A * list byte) B).
Proof. intros st. apply Z.le_refl. Qed.
Lemma shrinks_fail {A B} k : shrinks (fail k : M (A * list byte) B).
Proof. intros st. apply Z.le_refl. Qed.
Lemma shrinks_panic {A B} : shrinks (panic : M (A * list byte) B).
Proof. intros st. apply Z.le_refl. Qed.
Lemma shrinks_self_put {A} (a : A) : shrinks (self_put a).
Proof. intros st. apply Z.le_refl. Qed.
Lemma shrinks_self_get {A} : shrinks (@self_get A).
Proof. intros st. apply Z.le_refl. Qed.
Lemma shrinks_self_modify {A} (f : A -> A) : shrinks (self_modify f).
Proof. intros st. apply Z.le_refl. Qed.
Lemma shrinks_remaining {A} : shrinks (@remaining A).
Proof. intros st. apply Z.le_refl. Qed.
Lemma shrinks_with_capacity {A} n : shrinks (with_capacity n : Dec A).
Proof. intros st. unfold with_capacity. case_ltb; apply Z.le_refl. Qed.
Lemma shrinks_varint {A} : shrinks (@varint_decode A).
Proof.
  intros [a src]. unfold varint_decode. cbn [snd fst].
  assert (forall num sh, zlen (snd (varint_decode_loop src num sh)) <= zlen src) as Hs.
  { induction src as [|b src IH]; intros num sh; simpl; [done|].
    break_match; simpl; rewrite zlen_cons; [lia|]. eapply Z.le_trans; [apply IH|lia]. }
  specialize (Hs 0 0). destruct (varint_decode_loop src 0 0) as [r src']. done.
Qed.

Create HintDb shrinks.
#[export] Hint Resolve shrinks_bind shrinks_local shrinks_field shrinks_take shrinks_times
  shrinks_get_be shrinks_copy_to_bytes shrinks_take_bytes shrinks_ensure shrinks_ret shrinks_fail
  shrinks_panic shrinks_self_put shrinks_self_get shrinks_self_modify shrinks_remaining
  shrinks_with_capacity shrinks_varint : shrinks.
#[export] Hint Extern 1 (shrinks (if ?b then _ else _)) => destruct b : shrinks.
#[export] Hint Extern 2 (shrinks (decode _ _)) => apply dec_shrinks : shrinks.

#[export] Instance shrinks_bool : DecShrinks codec_bool.
Proof. intros v. cbn. unfold decode_bool. auto 10 with shrinks. Qed.
#[export] Instance shrinks_i8 : DecShrinks codec_i8.
Proof. intros v. cbn. unfold decode_i8. auto 10 with shrinks. Qed.
#[export] Instance shrinks_i16 : DecShrinks codec_i16.
Proof. intros v. cbn. unfold decode_i16. auto 10 with shrinks. Qed.
#[export] Instance shrinks_i32 : DecShrinks codec_i32.
Proof. intros v. cbn. unfold decode_i32. auto 10 with shrinks. Qed.
#[export] Instance shrinks_u32 : DecShrinks codec_u32.
Proof. intros v. cbn. unfold decode_u32. auto 10 with shrinks. Qed.
#[export] Instance shrinks_i64 : DecShrinks codec_i64.
Proof. intros v. cbn. unfold decode_i64. auto 10 with shrinks. Qed.
#[export] Instance shrinks_record_data : DecShrinks codec_record_data.
Proof. intros v. cbn. unfold decode_record_data, decode_varint. auto 15 with shrinks. Qed.
#[export] Instance shrinks_record_header : DecShrinks codec_record_header.
Proof. intros v. cbn [decode codec_record_header]. unfold decode_varint. auto 15 with shrinks. Qed.
#[export] Instance shrinks_option {A} (c : Codec A) `{!DecShrinks c} : DecShrinks (codec_option c).
Proof. intros v. cbn [decode codec_option]. unfold decode_option. auto 15 with shrinks. Qed.
#[export] Instance shrinks_record {A} (c : Codec A) `{!DecShrinks c} : DecShrinks (codec_record_of c).
Proof.
  intros v. cbn [decode codec_record_of]. unfold decode_record, decode_varint. auto 15 with shrinks.
Qed.
#[export] Instance shrinks_vec {A} (c : Codec A) `{!DecShrinks c} : DecShrinks (codec_vec c).
Proof.
  intros v. cbn [decode codec_vec]. unfold decode_vec, decode_vec_items. auto 15 with shrinks.
Qed.
#[export] Instance shrinks_memory : DecShrinks codec_memory.
Proof. apply shrinks_vec, shrinks_record, _. Qed.
#[export] Instance shrinks_raw : DecShrinks codec_raw.
Proof. intros v. cbn [decode codec_raw]. unfold decode_raw. auto 10 with shrinks. Qed.

(** ** Fixed-width decoders *)

Lemma zdrop_small {A} n (l : list A) : n <= zlen l -> zdrop n l = drop (Z.to_nat n) l.
Proof. intros. unfold zdrop. by rewrite Z.min_l. Qed.

(** Too short a source is an [UnexpectedEof]; any other gives up its first [n]
    bytes. *)
Definition fixed {A} (d : Dec A) (n : Z) : Prop :=
  forall a src,
    (zlen src < n -> exists st, d (a, src) = (Err UnexpectedEof, st)) /\
    (n <= zlen src -> exists a', d (a, src) = (Ok tt, (a', zdrop n src))).

Lemma fixed_scalar (n : nat) (f : Z -> Z) :
  fixed (ensure_remaining (Z.of_nat n) ;; z ← get_be n; self_put (f z)) (Z.of_nat n).
Proof.
  intros a src. unfold mbind, M_bind, ensure_remaining, get_be. cbn [snd fst]. case_ltb.
  - split; [eauto|lia].
  - cbn [snd fst]. case_ltb; [lia|]. split; [lia|]. intros _. eexists. unfold self_put. cbn.
    by rewrite zdrop_small, Nat2Z.id by done.
Qed.

Lemma fixed_seq {A} (d1 d2 : Dec A) n1 n2 :
  0 <= n1 -> 0 <= n2 -> fixed d1 n1 -> fixed d2 n2 -> fixed (d1 ;; d2) (n1 + n2).
Proof.
  intros Hn1 Hn2 H1 H2 a src. unfold mbind, M_bind. destruct (H1 a src) as [Hs Hl]. split.
  - intros H. destruct (Z.lt_ge_cases (zlen src) n1) as [Hc|Hc].
    + destruct (Hs Hc) as [st ->]. eauto.
    + destruct (Hl Hc) as [a' ->]. apply (H2 a'). rewrite zlen_zdrop; lia.
  - intros H. destruct (Hl ltac:(lia)) as [a' ->].
    destruct (H2 a' (zdrop n1 src)) as [_ Hl2].
    destruct Hl2 as [a'' ->]; [rewrite zlen_zdrop; lia|]. exists a''.
    assert (n2 <= zlen (zdrop n1 src)) by (rewrite zlen_zdrop; lia).
    rewrite !zdrop_small by (rewrite <-?zdrop_small; lia).
    by rewrite drop_drop, Z2Nat.inj_add by lia.
Qed.

Lemma fixed_field {A B} (proj : A -> B) upd (d : Dec B) n : fixed d n -> fixed (on_field proj upd d) n.
Proof.
  intros H a src. unfold on_field. cbn [fst snd]. destruct (H (proj a) src) as [Hs Hl]. split.
  - intros Hc. destruct (Hs Hc) as [[b st] ->]. eauto.
  - intros Hc. destruct (Hl Hc) as [b ->]. eauto.
Qed.

Lemma fixed_batch_preamble {R} v : fixed (@decode_from_file_buf R v) BATCH_FILE_HEADER_SIZE.
Proof.
  assert (fixed (decode codec_i64 v) 8) as F8 by apply (fixed_scalar 8 (wrap_i 64)).
  assert (fixed (decode codec_i32 v) 4) as F4 by apply (fixed_scalar 4 (wrap_i 32)).
  assert (fixed (decode codec_u32 v) 4) as F4u by apply (fixed_scalar 4 id).
  assert (fixed (decode codec_i16 v) 2) as F2 by apply (fixed_scalar 2 (wrap_i 16)).
  assert (fixed (decode codec_i8 v) 1) as F1 by apply (fixed_scalar 1 (wrap_i 8)).
  replace BATCH_FILE_HEADER_SIZE with (8 + (4 + (4 + (1 + (4 + (2 + (4 + (8 + (8 + (8 + (2 + 4)))))))))))
    by done.
  unfold decode_from_file_buf.
  do 2 (apply fixed_seq; [lia|lia|by apply fixed_field|]). apply fixed_field.
  unfold decode_batch_header.
  do 9 (apply fixed_seq; [lia|lia|by apply fixed_field|]). by apply fixed_field.
Qed.

(** ** The batch loop *)

Section batch_loop.
Context (crc32c : list byte -> Z) {R : Type} (c : Codec R).

(** Every batch uses up at least its header. *)
Lemma decode_batch_consumes `{!DecShrinks c} v src b src' :
  decode_from (codec_batch crc32c c) v src = (Ok b, src') ->
  zlen src' + BATCH_FILE_HEADER_SIZE <= zlen src.
Proof.
  unfold decode_from. cbn [decode codec_batch dflt]. unfold decode_batch.
  destruct (fixed_batch_preamble v (batch_default c) src) as [Hs Hl].
  destruct (Z.lt_ge_cases (zlen src) BATCH_FILE_HEADER_SIZE) as [Hc|Hc].
  { destruct (Hs Hc) as [[b1 st] E]. unfold mbind, M_bind. rewrite E. done. }
  destruct (Hl Hc) as [b0 E]. unfold mbind at 1, M_bind at 1. rewrite E.
  match goal with |- context [?m (b0, zdrop _ src)] => set (k := m) end.
  assert (shrinks k) as Hk.
  { unfold k, decode_batch_records. auto 15 with shrinks. }
  specialize (Hk (b0, zdrop BATCH_FILE_HEADER_SIZE src)).
  destruct (k _) as [[[]|e|] [b1 src1]]; intros E'; simplify_eq.
  cbn [snd] in Hk. unfold BATCH_FILE_HEADER_SIZE, BATCH_PREAMBLE_SIZE, BATCH_HEADER_SIZE in *.
  rewrite zlen_zdrop in Hk; lia.
Qed.

Lemma decode_batches_ends `{!DecShrinks c} v st :
  exists r, loop_n (S (length (snd st))) (decode_batches_step crc32c c v) st = inr r.
Proof.
  apply (loop_n_ends (fun _ => True) (fun st => length (snd st))); [|done|lia].
  intros [bs buf] st' _. unfold decode_batches_step. case_ltb; [|done].
  destruct (decode_from _ v buf) as [[b|k|] buf'] eqn:E; intros E'; simplify_eq.
  split; [done|]. apply decode_batch_consumes in E.
  unfold BATCH_FILE_HEADER_SIZE, BATCH_PREAMBLE_SIZE, BATCH_HEADER_SIZE, zlen in *. simpl in *. lia.
Qed.

(** Decoding a record set is decoding its batches on its payload. *)
Lemma decode_record_set_payload v payload rest bs st :
  zlen payload < 2 ^ 31 -> zlen (payload ++ rest) <= isize_max - 4 ->
  decode_batches crc32c c v ([], payload) = (Ok tt, (bs, st)) ->
  decode_record_set crc32c c v (MkRecordSet [], be_split 4 (zlen payload) ++ payload ++ rest)
  = (Ok tt, (MkRecordSet bs, st ++ rest)).
Proof.
  intros Hp Hl Hd. pose proof (zlen_nonneg payload). pose proof (zlen_nonneg rest).
  unfold decode_record_set, mbind at 1, M_bind at 1, on_local. cbn [fst snd].
  rewrite (reads_i32 v (zlen payload) 0) by
    (rewrite ?zlen_app, ?zlen_be_split in *; unfold in_i; lia).
  erewrite bind_ok by done. cbn [snd]. rewrite wrap_u_id by (unfold in_u; lia).
  rewrite zlen_app in *. case_ltb; [lia|].
  unfold on_take, on_field. cbn [fst snd batches].
  by rewrite ztake_app_exact, zdrop_app_exact, Hd by done.
Qed.
End batch_loop.

(** ** Laws of record sets *)

Section record_set_laws.
Context (crc32c : list byte -> Z) (crc32c_u32 : forall bs, in_u 32 (crc32c bs)).
Context {R : Type} (c : Codec R) `{!RecordsOK c}.

Definition wire_batches (bs : list (Batch R)) : list byte := concat (map (wire_batch crc32c c) bs).
Definition wire_record_set (rs : RecordSet R) : list byte :=
  be_split 4 (zlen (wire_batches (batches rs))) ++ wire_batches (batches rs).
Definition valid_record_set (rs : RecordSet R) : Prop :=
  Forall (valid_batch c) (batches rs) /\ zlen (wire_batches (batches rs)) < 2 ^ 31.

Lemma wire_batches_app bs bs' : wire_batches (bs ++ bs') = wire_batches bs ++ wire_batches bs'.
Proof. unfold wire_batches. by rewrite map_app, concat_app. Qed.

Lemma wire_batches_cons b bs : wire_batches (b :: bs) = wire_batch crc32c c b ++ wire_batches bs.
Proof. done. Qed.

Lemma zlen_wire_batch_min b : BATCH_FILE_HEADER_SIZE <= zlen (wire_batch crc32c c b).
Proof.
  rewrite zlen_wire_batch. pose proof (zlen_nonneg (rwire c (records b))).
  unfold SCHEMA_ID_SIZE. destruct (has_schema _); lia.
Qed.

Lemma zlen_wire_batches_min bs : 57 * zlen bs <= zlen (wire_batches bs).
Proof.
  induction bs as [|b bs IH]; [done|]. rewrite wire_batches_cons, zlen_cons, zlen_app.
  pose proof (zlen_wire_batch_min b) as H.
  unfold BATCH_FILE_HEADER_SIZE, BATCH_PREAMBLE_SIZE, BATCH_HEADER_SIZE in H. lia.
Qed.

Lemma for_each_emits {A} (f : A -> Enc) (w : A -> list byte) l :
  (forall x, x ∈ l -> emits (f x) (w x)) -> emits (for_each f l) (concat (map w l)).
Proof.
  induction l as [|x l IH]; intros H; simpl; [apply emits_ret|].
  apply emits_seq; [apply H; by left|]. apply IH. intros y Hy. apply H. by right.
Qed.

Lemma encode_record_set_emits v rs :
  valid_record_set rs -> emits (encode_record_set crc32c c v rs) (wire_record_set rs).
Proof.
  intros [Hb Hl]. unfold encode_record_set, wire_record_set.
  eapply emits_with_new_vec.
  - apply for_each_emits with (w := wire_batch crc32c c). intros b Hin. apply encode_batch_emits; [done|].
    by eapply Forall_forall in Hb.
  - unfold wire_batches in Hl. unfold isize_max. lia.
  - fold (wire_batches (batches rs)). apply emits_seq; [|apply emits_put_slice].
    pose proof (zlen_nonneg (wire_batches (batches rs))).
    rewrite wrap_i_id; [|lia|unfold in_i; lia]. apply emits_i32. unfold in_i. lia.
Qed.

(** The loop over the batches of a source that starts with complete ones. *)
Lemma decode_batches_loop v bs acc rest k :
  Forall (valid_batch c) bs -> zlen (wire_batches bs ++ rest) <= isize_max ->
  loop_n (length bs + k) (decode_batches_step crc32c c v) (acc, wire_batches bs ++ rest) =
  loop_n k (decode_batches_step crc32c c v) (acc ++ map (sealed crc32c c) bs, rest).
Proof.
  revert acc. induction bs as [|b bs IH]; intros acc Hv Hl; [by rewrite app_nil_r|].
  apply Forall_cons in Hv as [Hb Hv]. cbn [length Nat.add map].
  rewrite loop_n_S, wire_batches_cons, <-app_assoc in *. unfold decode_batches_step at 1.
  pose proof (zlen_wire_batch_min b) as Hmin. pose proof (zlen_nonneg (wire_batches bs ++ rest)).
  unfold BATCH_FILE_HEADER_SIZE, BATCH_PREAMBLE_SIZE, BATCH_HEADER_SIZE in Hmin.
  rewrite zlen_app in Hl |- *. case_ltb; [|lia]. unfold decode_from. cbn [decode codec_batch dflt].
  rewrite (reads_batch crc32c crc32c_u32 c v b Hb (wire_batches bs ++ rest)) by (rewrite zlen_app; lia).
  rewrite IH by (done || lia). by rewrite <-app_assoc.
Qed.

(** What the loop does after the complete batches decides the result. *)
Lemma decode_batches_prefix v bs rest r k :
  Forall (valid_batch c) bs -> zlen (wire_batches bs ++ rest) <= isize_max ->
  (k <= S (length rest))%nat ->
  loop_n k (decode_batches_step crc32c c v) (map (sealed crc32c c) bs, rest) = inr r ->
  decode_batches crc32c c v ([], wire_batches bs ++ rest) = r.
Proof.
  intros Hv Hl Hk Hr. unfold decode_batches.
  erewrite (loop_n_mono (length bs + k)); [done|rewrite decode_batches_loop; [exact Hr|done|done]|].
  pose proof (zlen_wire_batches_min bs) as Hm. unfold zlen in Hm. cbn [snd].
  rewrite length_app. lia.
Qed.

Lemma reads_record_set v rs :
  valid_record_set rs ->
  reads (decode_record_set crc32c c v) (MkRecordSet []) (wire_record_set rs)
    (MkRecordSet (map (sealed crc32c c) (batches rs))).
Proof.
  intros [Hb Hl] rest Hr. unfold wire_record_set in *. rewrite <-app_assoc in *.
  rewrite zlen_app, zlen_be_split in Hr.
  apply (decode_record_set_payload _ _ _ _ _ _ []); [done|lia|].
  rewrite <-(app_nil_r (wire_batches (batches rs))).
  apply (decode_batches_prefix v _ [] _ 1); [done| |simpl; lia|by rewrite loop_n_S].
  rewrite app_nil_r. unfold isize_max. lia.
Qed.
End record_set_laws.

(** ** A record set cut short

    A fetch response may end in the middle of a batch.  The decoder either
    stops before that batch or keeps it with fewer records than its length
    says, and [last_offset] skips it. *)

Section truncation.
Context (crc32c : list byte -> Z) (crc32c_u32 : forall bs, in_u 32 (crc32c bs)).

Lemma decode_batch_short_preamble v t :
  zlen t < BATCH_FILE_HEADER_SIZE ->
  exists st, decode_from (codec_batch crc32c codec_raw) v t = (Err UnexpectedEof, st).
Proof.
  intros Ht. destruct (fixed_batch_preamble (R := list byte) v (batch_default codec_raw) t) as [Hs _].
  destruct (Hs Ht) as [[b st] E]. exists st. unfold decode_from. cbn [decode codec_batch dflt].
  unfold decode_batch, mbind, M_bind. by rewrite E.
Qed.

Lemma decode_batch_short_schema v b u :
  valid_batch codec_raw b -> has_schema (header b) = true -> zlen u < SCHEMA_ID_SIZE ->
  exists st, decode_from (codec_batch crc32c codec_raw) v (wire_preamble crc32c codec_raw b ++ u)
    = (Err UnexpectedEof, st).
Proof.
  intros Hv Hs Hu. unfold decode_from. cbn [decode codec_batch dflt]. unfold decode_batch, mbind, M_bind.
  rewrite (reads_batch_preamble crc32c crc32c_u32 codec_raw v b _ Hv u)
    by (rewrite zlen_app, zlen_wire_preamble; unfold SCHEMA_ID_SIZE, isize_max,
          BATCH_FILE_HEADER_SIZE, BATCH_PREAMBLE_SIZE, BATCH_HEADER_SIZE in *; lia).
  unfold self_get. cbn [fst snd header set_header].
  change (has_schema (header (sealed crc32c codec_raw b))) with (has_schema (header b)).
  rewrite Hs. unfold on_local. cbn [fst snd decode codec_u32].
  destruct (fixed_scalar 4 id SCHEMA_ID_NULL u) as [He _].
  destruct (He Hu) as [[x st] E]. exists st.
  change (decode_u32 v) with (ensure_remaining (A := Z) (Z.of_nat 4) ;; z ← get_be 4; self_put (id z)).
  by rewrite E.
Qed.

Lemma decode_batch_short_records v b u :
  valid_batch codec_raw b -> zlen u < zlen (records b) ->
  decode_from (codec_batch crc32c codec_raw) v
    (wire_preamble crc32c codec_raw b ++ wire_schema b ++ u)
  = (Ok (set_records u (sealed crc32c codec_raw b)), []).
Proof.
  intros Hv Hu. pose proof Hv as (_ & _ & _ & _ & _ & Hl). unfold decode_from.
  cbn [decode codec_batch dflt]. rewrite decode_batch_to_records; [|done|done|].
  - unfold on_take. cbn [fst snd]. rewrite ztake_all by (cbn; lia).
    assert (zdrop (zlen (rwire codec_raw (records b))) u = []) as ->.
    { apply zlen_zero. pose proof (zlen_nonneg u). rewrite zlen_zdrop; cbn; lia. }
    unfold decode_batch_records. erewrite bind_ok by done. cbn [snd]. case_ltb.
    + unfold on_field. cbn [fst snd records set_records]. pose proof (rdecode_exact (c := codec_raw) v u I) as E.
      cbn [rwire codec_raw_ok dflt codec_raw] in E. cbn [dflt codec_raw]. rewrite E; [done|].
      cbn in Hl. unfold isize_max, SCHEMA_ID_SIZE, BATCH_HEADER_SIZE in *. lia.
    + destruct u; [done|]. rewrite zlen_cons in *. pose proof (zlen_nonneg u). lia.
  - rewrite !zlen_app, zlen_wire_preamble, zlen_wire_schema. cbn in Hl.
    unfold isize_max, SCHEMA_ID_SIZE, BATCH_FILE_HEADER_SIZE, BATCH_PREAMBLE_SIZE, BATCH_HEADER_SIZE in *.
    destruct (has_schema _); lia.
Qed.

(** A batch whose records were cut does not have the length it announces. *)
Lemma short_records_invalid b u :
  valid_batch codec_raw b -> zlen u < zlen (records b) ->
  validate_decoding codec_raw (set_records u (sealed crc32c codec_raw b)) = false.
Proof.
  intros Hv Hu. pose proof Hv as (_ & _ & _ & _ & _ & Hl). cbn in Hl.
  unfold validate_decoding. cbn [batch_len set_records sealed set_batch_len].
  rewrite (calc_batch_len_eq codec_raw) by done. apply Z.eqb_neq. unfold calc_batch_len. cbn [header set_records].
  change (has_schema (header (sealed crc32c codec_raw b))) with (has_schema (header b)). cbn.
  pose proof (zlen_nonneg u). unfold BATCH_HEADER_SIZE, SCHEMA_ID_SIZE in *.
  destruct (has_schema _); rewrite wrap_i_id by (unfold in_i; lia); lia.
Qed.

Lemma decode_truncated v b t t' :
  valid_batch codec_raw b -> t ++ t' = wire_batch crc32c codec_raw b -> t' <> [] ->
  (exists st, decode_from (codec_batch crc32c codec_raw) v t = (Err UnexpectedEof, st)) \/
  (exists x, decode_from (codec_batch crc32c codec_raw) v t = (Ok x, []) /\
             validate_decoding codec_raw x = false).
Proof.
  intros Hv E Hne. rewrite wire_batch_split in E.
  apply zlen_pos in Hne. pose proof (zlen_wire_preamble crc32c codec_raw b) as HP.
  destruct (Z.lt_ge_cases (zlen t) BATCH_FILE_HEADER_SIZE) as [Hc|Hc];
    [left; by apply decode_batch_short_preamble|].
  apply app_split_le in E as (u & -> & E); [|lia].
  destruct (Z.lt_ge_cases (zlen u) (zlen (wire_schema b))) as [Hu|Hu].
  - left. rewrite zlen_wire_schema in Hu. pose proof (zlen_nonneg u).
    destruct (has_schema (header b)) eqn:Eh; [|lia]. by apply decode_batch_short_schema.
  - symmetry in E. apply app_split_le in E as (r & -> & E); [|done].
    right. eexists. assert (zlen r < zlen (records b)).
    { apply (f_equal zlen) in E. rewrite zlen_app in E. cbn in E. lia. }
    split; [by apply decode_batch_short_records|by apply short_records_invalid].
Qed.

(** What the loop makes of the batches [bs] followed by a part of another. *)
Lemma decode_batches_truncated v bs b t t' :
  Forall (valid_batch codec_raw) bs -> valid_batch codec_raw b ->
  t ++ t' = wire_batch crc32c codec_raw b -> t <> [] -> t' <> [] ->
  zlen (wire_batches crc32c codec_raw bs ++ t) <= isize_max ->
  exists extra st,
    decode_batches crc32c codec_raw v ([], wire_batches crc32c codec_raw bs ++ t) =
      (Ok tt, (map (sealed crc32c codec_raw) bs ++ extra, st)) /\
    Forall (fun x => validate_decoding codec_raw x = false) extra.
Proof.
  intros Hbs Hb Et Ht Ht' Hl. pose proof (zlen_pos t Ht) as Htp.
  assert (2 <= S (length t))%nat as Hfuel by (unfold zlen in Htp; lia).
  destruct (decode_truncated v b t t' Hb Et Ht') as [[st E]|(x & E & Hx)].
  - exists [], st. split; [|done]. rewrite app_nil_r.
    apply (decode_batches_prefix crc32c crc32c_u32 codec_raw v bs t _ 2); [done..|].
    rewrite loop_n_S. unfold decode_batches_step at 1. case_ltb; [|lia]. by rewrite E.
  - exists [x], []. split; [|by constructor].
    apply (decode_batches_prefix crc32c crc32c_u32 codec_raw v bs t _ 2); [done..|].
    rewrite loop_n_S. unfold decode_batches_step at 1. case_ltb; [|lia]. rewrite E.
    by rewrite loop_n_S.
Qed.

Lemma find_rev_app_false {A} (f : A -> bool) l l' :
  Forall (fun x => f x = false) l' -> List.find f (rev (l ++ l')) = List.find f (rev l).
Proof.
  rewrite rev_app_distr. intros H.
  assert (Forall (fun x => f x = false) (rev l')) as H' by by apply Forall_rev.
  revert H'. generalize (rev l') as k. induction k as [|x k IH]; intros Hk; [done|].
  apply Forall_cons in Hk as [Hx Hk]. simpl. rewrite Hx. by apply IH.
Qed.

Lemma validate_sealed {R} (c : Codec R) `{!RecordsOK c} b :
  validate_decoding c (sealed crc32c c b) = true.
Proof. apply Z.eqb_refl. Qed.

Lemma last_offset_sealed {R} (c : Codec R) `{!RecordsOK c} bs :
  last_offset c (MkRecordSet (map (sealed crc32c c) bs)) = computed_last_offset <$> last bs.
Proof.
  unfold last_offset. cbn [batches]. rewrite <-map_rev. destruct bs as [|b bs _] using rev_ind; [done|].
  rewrite rev_app_distr, last_snoc. cbn. by rewrite validate_sealed.
Qed.

End truncation.

(** ** Batches built from records *)

Lemma number_records_lookup rs i r :
  number_records rs !! i = Some r ->
  exists r0, rs !! i = Some r0 /\ r = number_record i r0.
Proof.
  unfold number_records. rewrite list_lookup_imap.
  destruct (rs !! i) as [r0|]; intros E; [|done]. cbn in E. simplify_eq. eauto.
Qed.

Lemma zlen_number_records rs : zlen (number_records rs) = zlen rs.
Proof. unfold number_records, zlen. by rewrite length_imap. Qed.

(** Adding a record to a batch of fewer than 2^31 - 1 records appends it
    and leaves a batch whose records are numbered from 0, whose record count is
    the number of records, and whose length field is the encoded length, so
    that the batch passes the check made after decoding. *)
Theorem add_record_ok (b : Batch MemoryRecords) (record : Record') :
  zlen (records b) < 2 ^ 31 - 1 ->
  let b' := add_record record b in
  value <$> records b' = (value <$> records b) ++ [value record] /\
  (forall i r, records b' !! i = Some r -> offset_delta (preamble r) = Z.of_nat i) /\
  records_len b' = zlen (records b) + 1 /\
  computed_last_offset b' = as_i64 (base_offset b + zlen (records b) + 1) /\
  validate_decoding codec_memory b' = true.
Proof.
  intros Hl b'. pose proof (zlen_nonneg (records b)).
  assert (records b' = number_records (records b ++ [record])) as Er by done.
  assert (records_len b' = zlen (records b) + 1) as Hn.
  { unfold records_len. cbn [header b' add_record add_records update_offset_deltas set_batch_len
      set_header set_last_offset_delta last_offset_delta records set_records].
    rewrite zlen_number_records, zlen_app, zlen_cons, zlen_nil.
    rewrite !wrap_i_id by (rewrite ?wrap_i_id; unfold in_i; lia). case_ltb; lia. }
  split; [|split; [|split; [done|split]]].
  - rewrite Er. unfold number_records. rewrite fmap_imap, <-(fmap_app value _ [record]).
    by rewrite (imap_ext _ (const value)), imap_const by done.
  - intros i r Hr. rewrite Er in Hr. pose proof (lookup_lt_Some _ _ _ Hr) as Hi.
    apply number_records_lookup in Hr as (r0 & Hr0 & ->). cbn.
    apply lookup_lt_Some in Hr0. rewrite length_app in Hr0. cbn in Hr0. unfold zlen in *.
    apply wrap_i_id; [lia|]. unfold in_i. lia.
  - unfold computed_last_offset. rewrite Hn. cbn. f_equal. lia.
  - apply Z.eqb_refl.
Qed.

Lemma add_record_ok_witness :
  let b := batch_from [record_new (bytes_of_string "a")] in
  let b' := add_record (record_new (bytes_of_string "bc")) b in
  zlen (records b) = 1 /\ records_len b' = zlen (records b) + 1.
Proof.
  split; [reflexivity|].
  exact (proj1 (proj2 (proj2 (add_record_ok
    (batch_from [record_new (bytes_of_string "a")]) (record_new (bytes_of_string "bc"))
    ltac:(vm_compute; reflexivity))))).
Defined.

(** ** Compression round trip *)

Section compression_laws.
Context (gzip snappy lz4 zstd : Backend).
Context (gzip_ok : lossless gzip) (snappy_ok : lossless snappy).
Context (lz4_ok : lossless lz4) (zstd_ok : lossless zstd).

Lemma uncompress_compress a src out :
  compress gzip snappy lz4 zstd a src = inl out ->
  uncompress gzip snappy lz4 zstd a out =
    inl (match a with CompNone => None | _ => Some src end).
Proof.
  destruct a; cbn; [done|intros E..];
    [apply gzip_ok in E|apply snappy_ok in E|apply lz4_ok in E|apply zstd_ok in E]; by rewrite E.
Qed.

Lemma decode_memory_wire rs :
  valid_memory rs -> zlen (wire codec_memory 0 rs) <= isize_max ->
  decode_memory (wire codec_memory 0 rs) = inl rs.
Proof.
  intros Hv Hl. unfold decode_memory.
  pose proof (@rdecode_exact _ codec_memory codec_memory_ok 0 rs Hv Hl) as E.
  cbn [rwire codec_memory_ok] in E. by rewrite E.
Qed.

Lemma encode_memory_vec rs :
  valid_memory rs -> zlen (wire codec_memory 0 rs) <= isize_max ->
  encode codec_memory 0 rs vec_new = (Ok tt, buf_append vec_new (wire codec_memory 0 rs)).
Proof. intros Hv Hl. exact (@rencode_emits _ codec_memory codec_memory_ok 0 rs Hv vec_new Hl). Qed.

Lemma memory_records_compressed (rb : Batch (list byte)) a rs :
  get_compression (header rb) = inl a -> valid_memory rs ->
  zlen (wire codec_memory 0 rs) <= isize_max ->
  compress gzip snappy lz4 zstd a (wire codec_memory 0 rs) = inl (records rb) ->
  memory_records gzip snappy lz4 zstd rb = inl rs.
Proof.
  intros Ea Hv Hl Ec. unfold memory_records. rewrite Ea. cbn [cbind].
  pose proof (uncompress_compress _ _ _ Ec) as Eu.
  destruct a; rewrite ?Eu; cbn [cbind]; try by apply decode_memory_wire.
  cbn in Ec. simplify_eq. rewrite <-Ec. by apply decode_memory_wire.
Qed.

(** Converting a batch of records into a raw batch, whatever compression
    its header asks for, keeps its offset, header and schema id and announces
    the right length; converting it back gives the same records with the same
    offset and header.  The schema id is not restored: the length of the
    result is right exactly when the header has no schema flag. *)
Theorem raw_batch_roundtrip (b : Batch MemoryRecords) (rb : Batch (list byte)) :
  valid_memory (records b) -> zlen (wire codec_memory 0 (records b)) < 2 ^ 31 - 49 ->
  raw_of_batch gzip snappy lz4 zstd b = inl rb ->
  zlen (records rb) < 2 ^ 31 - 49 ->
  base_offset rb = base_offset b /\ header rb = header b /\ schema_id rb = schema_id b /\
  validate_decoding codec_raw rb = true /\
  exists b', batch_of_raw gzip snappy lz4 zstd rb = inl b' /\
    base_offset b' = base_offset b /\ header b' = header b /\ records b' = records b /\
    validate_decoding codec_memory b' = negb (has_schema (header b)).
Proof.
  intros Hv Hl E Hlr. assert (zlen (wire codec_memory 0 (records b)) <= isize_max) as Hi
    by (unfold isize_max; lia).
  unfold raw_of_batch in E. rewrite encode_memory_vec in E by done. cbn [written buf_append vec_new app] in E.
  destruct (get_compression (header b)) as [a|] eqn:Ea; [|done]. cbn [cbind] in E.
  destruct (compress gzip snappy lz4 zstd a _) as [out|] eqn:Ec; [|done]. cbn [cbind] in E.
  simplify_eq. cbn [base_offset header schema_id records] in *. do 3 (split; [done|]). split.
  - unfold validate_decoding, calc_batch_len. cbn [batch_len header records write_size codec_raw].
    apply Z.eqb_eq. pose proof (zlen_nonneg out).
    unfold SCHEMA_ID_SIZE, BATCH_HEADER_SIZE in *.
    rewrite (wrap_i_id 32 (zlen out)) by (unfold in_i; lia).
    rewrite (wrap_i_id 32 (_ + zlen out)) by (unfold in_i; lia).
    destruct (has_schema _); rewrite ?wrap_i_id by (unfold in_i; lia); lia.
  - eexists. unfold batch_of_raw. erewrite memory_records_compressed by done. split; [done|].
    do 3 (split; [done|]). unfold validate_decoding, calc_batch_len. cbn [batch_len header records].
    rewrite (@rwire_size _ codec_memory codec_memory_ok 0 (records b) Hv). cbn [rwire codec_memory_ok].
    pose proof (zlen_nonneg (wire codec_memory 0 (records b))).
    unfold SCHEMA_ID_SIZE, BATCH_HEADER_SIZE in *. destruct (has_schema _); cbn [negb].
    + apply Z.eqb_neq. rewrite !wrap_i_id by (unfold in_i; lia). lia.
    + apply Z.eqb_refl.
Qed.
End compression_laws.

(** A back end that is lossless, for the examples. *)
Definition mirror : Backend := MkBackend (fun src => inl (rev src)) (fun src => inl (rev src)).

Lemma mirror_lossless : lossless mirror.
Proof. intros src out E. cbn in *. simplify_eq. by rewrite rev_involutive. Qed.

Definition example_records : MemoryRecords :=
  [record_new (bytes_of_string "hello"); record_new_key_value (Key (bytes_of_string "k")) []].

Lemma example_records_valid : valid_memory (number_records example_records).
Proof.
  unfold valid_memory, valid, codec_memory, codec_vec_ok, example_records. cbn.
  repeat (split || constructor || discriminate).
Qed.

Lemma raw_batch_roundtrip_witness :
  let b := set_header (set_compression Gzip (header (batch_from example_records)))
             (batch_from example_records) in
  exists rb b', raw_of_batch mirror mirror mirror mirror b = inl rb /\
    batch_of_raw mirror mirror mirror mirror rb = inl b' /\ records b' = records b.
Proof.
  intros b. destruct (raw_of_batch mirror mirror mirror mirror b) as [rb|] eqn:E;
    [|vm_compute in E; discriminate].
  assert (zlen (records rb) < 2 ^ 31 - 49) as Hl
    by (vm_compute in E; injection E as <-; vm_compute; reflexivity).
  destruct (raw_batch_roundtrip mirror mirror mirror mirror mirror_lossless mirror_lossless
    mirror_lossless mirror_lossless b rb example_records_valid ltac:(vm_compute; reflexivity) E Hl)
    as (_ & _ & _ & _ & b' & Eb & _ & _ & Er & _).
  exists rb, b'. split; [reflexivity|split; assumption].
Defined.

(** ** Record sets on the wire *)

(** C31: a record set of valid batches encodes into any buffer with room for
    it, and decoding the bytes gives back its batches, each with its length and
    checksum filled in, and consumes exactly what was written. *)
Theorem record_set_roundtrip (crc32c : list byte -> Z) {R} (c : Codec R) `{!RecordsOK c}
    (v : Z) (rs : RecordSet R) (rest : list byte) :
  (forall bs, in_u 32 (crc32c bs)) -> valid_record_set crc32c c rs ->
  zlen rest <= isize_max - 2 ^ 32 ->
  exists out,
    encode (codec_record_set crc32c c) v rs vec_new = (Ok tt, out) /\
    decode_from (codec_record_set crc32c c) v (written out ++ rest) =
      (Ok (MkRecordSet (map (sealed crc32c c) (batches rs))), rest).
Proof.
  intros Hc Hv Hr. pose proof Hv as [_ Hl].
  assert (zlen (wire_record_set crc32c c rs) < 2 ^ 31 + 4) as Hw
    by (unfold wire_record_set; rewrite zlen_app, zlen_be_split; lia).
  eexists. split.
  - apply encode_record_set_emits; [done|done|]. cbn. unfold isize_max in *. lia.
  - unfold decode_from. cbn [written buf_append vec_new app decode codec_record_set dflt].
    rewrite reads_record_set; [done|done|done|]. rewrite zlen_app. unfold isize_max in *. lia.
Qed.

(** A function into [u32], in place of the checksum. *)
Definition sum32 (bs : list byte) : Z := as_u32 (zsum (map byte.unsigned bs)).

Lemma sum32_u32 bs : in_u 32 (sum32 bs).
Proof. apply wrap_u_range. lia. Qed.

Definition example_set : RecordSet MemoryRecords :=
  MkRecordSet [batch_from example_records; set_base_offset 2 (batch_from example_records)].

Lemma example_set_valid : valid_record_set sum32 codec_memory example_set.
Proof.
  split; [|vm_compute; reflexivity]. repeat constructor; try (vm_compute; congruence).
  all: try apply example_records_valid.
Qed.

Lemma record_set_roundtrip_witness :
  exists out, encode (codec_record_set sum32 codec_memory) 0 example_set vec_new = (Ok tt, out) /\
    decode_from (codec_record_set sum32 codec_memory) 0 (written out ++ []) =
      (Ok (MkRecordSet (map (sealed sum32 codec_memory) (batches example_set))), []).
Proof.
  apply (record_set_roundtrip sum32 codec_memory 0 example_set [] sum32_u32 example_set_valid).
  vm_compute. congruence.
Defined.

(** When the payload of a raw record set ends inside a batch, decoding
    succeeds, nothing of the incomplete batch counts, and the next offset to
    fetch is the one after the last complete batch. *)
Theorem record_set_truncated (crc32c : list byte -> Z) (v : Z) (bs : list (Batch (list byte)))
    (b : Batch (list byte)) (t t' rest : list byte) :
  (forall x, in_u 32 (crc32c x)) -> Forall (valid_batch codec_raw) bs -> valid_batch codec_raw b ->
  t ++ t' = wire_batch crc32c codec_raw b -> t <> [] -> t' <> [] ->
  let payload := wire_batches crc32c codec_raw bs ++ t in
  zlen payload < 2 ^ 31 -> zlen rest <= isize_max - 2 ^ 32 ->
  exists rs src',
    decode_from (codec_record_set crc32c codec_raw) v
      (be_split 4 (zlen payload) ++ payload ++ rest) = (Ok rs, src') /\
    last_offset codec_raw rs = computed_last_offset <$> last bs.
Proof.
  intros Hc Hbs Hb Et Ht Ht' payload Hp Hr.
  destruct (decode_batches_truncated crc32c Hc v bs b t t') as (extra & st & E & Hx);
    [done..|fold payload; unfold isize_max; lia|].
  exists (MkRecordSet (map (sealed crc32c codec_raw) bs ++ extra)), (st ++ rest). split.
  - unfold decode_from. cbn [decode codec_record_set dflt].
    erewrite decode_record_set_payload; [done|done| |exact E].
    rewrite zlen_app. unfold isize_max in *. lia.
  - unfold last_offset. cbn [batches]. rewrite find_rev_app_false by done.
    apply (last_offset_sealed crc32c codec_raw).
Qed.

Definition example_raw : Batch (list byte) :=
  MkBatch 7 0 (set_last_offset_delta 2 batch_header_default) SCHEMA_ID_NULL (bytes_of_string "rec").

Lemma example_raw_valid : valid_batch codec_raw example_raw.
Proof. repeat split; try (vm_compute; congruence). Qed.

Lemma record_set_truncated_witness :
  exists rs src',
    decode_from (codec_record_set sum32 codec_raw) 0
      (be_split 4 (zlen (wire_batches sum32 codec_raw [example_raw] ++
                         take 59 (wire_batch sum32 codec_raw example_raw))) ++
       (wire_batches sum32 codec_raw [example_raw] ++
        take 59 (wire_batch sum32 codec_raw example_raw)) ++ []) = (Ok rs, src') /\
    last_offset codec_raw rs = Some 10.
Proof.
  apply (record_set_truncated sum32 0 [example_raw] example_raw
    (take 59 (wire_batch sum32 codec_raw example_raw))
    (drop 59 (wire_batch sum32 codec_raw example_raw)) [] sum32_u32).
  - repeat constructor; apply example_raw_valid.
  - apply example_raw_valid.
  - apply take_drop.
  - vm_compute. discriminate.
  - vm_compute. discriminate.
  - vm_compute. reflexivity.
  - vm_compute. discriminate.
Defined.

(** ** Safety *)

Lemma no_panic_take {A B} n (m : M (A * list byte) B) : no_panic m -> no_panic (on_take n m).
Proof.
  intros Hm st. unfold on_take. specialize (Hm (fst st, ztake n (snd st))).
  by destruct (m _) as [r [a rest]].
Qed.

Lemma no_panic_remaining {A} : no_panic (@remaining A).
Proof. done. Qed.

#[export] Hint Resolve no_panic_take no_panic_remaining : safe.

#[export] Instance safe_raw : DecSafe codec_raw.
Proof.
  intros v [a src]. cbn [decode codec_raw]. unfold decode_raw. erewrite bind_ok by done. cbn [snd].
  unfold mbind, M_bind, copy_to_bytes. cbn [snd]. by rewrite Z.ltb_irrefl.
Qed.

#[export] Instance safe_batch crc32c {R} (c : Codec R) `{!DecSafe c} : DecSafe (codec_batch crc32c c).
Proof.
  intros v. cbn [decode codec_batch].
  unfold decode_batch, decode_from_file_buf, decode_batch_header, decode_batch_records.
  auto 30 with safe.
Qed.

(** The loop ends, and not with a panic. *)
Lemma no_panic_decode_batches crc32c {R} (c : Codec R) `{!DecSafe c, !DecShrinks c} v :
  no_panic (decode_batches crc32c c v).
Proof.
  intros st. unfold decode_batches. destruct (decode_batches_ends crc32c c v st) as [r E]. rewrite E.
  revert E. apply (loop_n_result (fun _ => True) (fun r => fst r <> Panic)); [done| |done].
  intros [bs buf] r' _. unfold decode_batches_step. case_ltb; [|by intros [= <-]].
  pose proof (dec_safe (c := codec_batch crc32c c) v (dflt (codec_batch crc32c c), buf)) as Hs.
  unfold decode_from. destruct (decode _ v _) as [[[]|k|] [b buf']]; intros E; simplify_eq; done.
Qed.

#[export] Instance safe_record_set crc32c {R} (c : Codec R) `{!DecSafe c, !DecShrinks c} :
  DecSafe (codec_record_set crc32c c).
Proof.
  intros v. cbn [decode codec_record_set]. unfold decode_record_set.
  pose proof (no_panic_decode_batches crc32c c v). auto 10 with safe.
Qed.

(** No sequence of bytes makes the decoder of raw record sets, which the
    cluster runs on what producers send, panic or loop: it returns a record
    set or an error. *)
Theorem raw_record_set_decode_safe (crc32c : list byte -> Z) (v : Z) (src : list byte) :
  fst (decode_from (codec_record_set crc32c codec_raw) v src) <> Panic.
Proof.
  unfold decode_from. pose proof (dec_safe (c := codec_record_set crc32c codec_raw) v
    (dflt (codec_record_set crc32c codec_raw), src)) as H.
  destruct (decode _ v _) as [[[]|k|] [rs src']]; done.
Qed.
