(* ===== verification/StorageIndex.v ===== *)
(** * Segment indexes

    [fluvio-storage/src/index.rs] and [mut_index.rs]: the memory-mapped table
    of (relative offset, file position) pairs of a segment, its binary search
    and the sparse writing of new entries; [config.rs]: the configuration of a
    replica. *)

From S2P Require Import Prelude.
From Stdlib Require Import Sorted.
From stdpp Require Import list strings.

#[local] Open Scope Z_scope.

(** ** Configuration *)

(* src/crates/fluvio-storage/src/config.rs:229-241 SharedReplicaConfig *)
Record ReplicaConfig := MkReplicaConfig {
  base_dir : string;
  index_max_bytes : Z;
  index_max_interval_bytes : Z;
  segment_max_bytes : Z;
  flush_write_count : Z;
  flush_idle_msec : Z;
  max_batch_size : Z;
  max_request_size : Z;
  update_hw : bool;
  retention_seconds : Z;
  max_partition_size : Z;
}.

(* src/crates/fluvio-storage/src/config.rs:150-166 ReplicaConfig::default *)
Definition replica_config_default : ReplicaConfig := {|
  base_dir := "/var/lib/fluvio/data";
  index_max_bytes := 10485760;
  index_max_interval_bytes := 4096;
  segment_max_bytes := 1073741824;
  flush_write_count := 1;
  flush_idle_msec := 0;
  max_batch_size := 2097152;
  max_request_size := 33554432;
  update_hw := true;
  retention_seconds := 7 * 24 * 3600;
  max_partition_size := 107374182400 |}.

(** ** Entries *)

(** [u32::to_be] on a little-endian machine: the four bytes reversed. *)
Definition to_be (x : Z) : Z := be_combine (rev (be_split 4 x)).

(** [(Size, Size)]: relative offset and file position. *)
Notation Entry := (Z * Z)%type.
(* src/crates/fluvio-storage/src/index.rs:66-69 Entry::to_be *)
Definition entry_to_be (self : Entry) : Entry := (to_be (fst self), to_be (snd self)).
(* src/crates/fluvio-storage/src/index.rs:71-74 Entry::offset *)
Definition entry_offset (self : Entry) : Z := fst self.
(* src/crates/fluvio-storage/src/index.rs:76-79 Entry::position *)
Definition entry_position (self : Entry) : Z := snd self.
(* src/crates/fluvio-storage/src/index.rs:28-28 INDEX_ENTRY_SIZE *)
Definition INDEX_ENTRY_SIZE : Z := 8.

(** ** Binary search *)

(** [slice::binary_search_by] of the standard library: [inl] the index of a
    match, [inr] where one would go.  The loop halves [size] and ends at 1. *)
Fixpoint bsearch_loop {A} (fuel : nat) (f : A -> comparison) (l : list A) (base size : Z) : Z :=
  match fuel with
  | O => base
  | S fuel =>
      if 1 <? size then
        let half := size / 2 in
        let mid := base + half in
        let base := match f <$> l !! Z.to_nat mid with Some Gt => base | _ => mid end in
        bsearch_loop fuel f l base (size - half)
      else base
  end.
Definition binary_search_by {A} (f : A -> comparison) (l : list A) : Z + Z :=
  if zlen l =? 0 then inr 0
  else
    let base := bsearch_loop (length l) f l 0 (zlen l) in
    match f <$> l !! Z.to_nat base with
    | Some Lt => inr (base + 1)
    | Some Gt => inr base
    | _ => inl base
    end.

(** Indexing an empty slice panics. *)
(* src/crates/fluvio-storage/src/index.rs:195-211 lookup_entry *)
Definition lookup_entry (offsets : list Entry) (offset : Z) : res (option Z) :=
  match offsets with
  | [] => Panic
  | first :: _ =>
      let first_entry := entry_to_be first in
      if offset <? entry_offset first_entry then Ok None
      else
        match binary_search_by (fun entry => Z.compare (to_be (entry_offset entry)) offset) offsets with
        | inl idx => Ok (Some idx)
        | inr idx => Ok (Some (idx - 1))
        end
  end.

(** Reading an entry by index, as [self[idx].to_be()]. *)
Definition entry_at (entries : list Entry) (idx : Z) : res Entry :=
  match entries !! Z.to_nat idx with
  | Some e => Ok (entry_to_be e)
  | None => Panic
  end.

(** ** The read-only index *)

(* src/crates/fluvio-storage/src/index.rs:89-95 LogIndex *)
Record LogIndex := MkLogIndex { li_entries : list Entry; li_len : Z }.

(* src/crates/fluvio-storage/src/index.rs:169-171 LogIndex::find_offset *)
Definition log_find_offset (self : LogIndex) (offset : Z) : res (option Entry) :=
  match lookup_entry (li_entries self) offset with
  | Ok None => Ok None
  | Ok (Some idx) =>
      match entry_at (li_entries self) idx with
      | Ok e => Ok (Some e)
      | Err k => Err k
      | Panic => Panic
      end
  | Err k => Err k
  | Panic => Panic
  end.

(** ** Memory-mapped files

    [fluvio-future]'s maps, from outside the repository.  An index file is a
    list of whole entries; a byte length [n] is [n / 8] entries. *)
Class MemoryMap := {
  (** [MemoryMappedMutFile::create(path, len)] on the current content. *)
  mmap_create : list Entry -> Z -> list Entry;
  (** [MemoryMappedFile::open(path, min_len)]. *)
  mmap_open : list Entry -> Z -> list Entry;
}.

(** A writable map has the size asked for, with the content of the file and
    zeros after it; a read-only map is the file, at least [min_len] long. *)
Class MemoryMapOK `{MemoryMap} := {
  mmap_create_length old len : 0 <= len -> zlen (mmap_create old len) = len / INDEX_ENTRY_SIZE;
  mmap_create_lookup old len i :
    0 <= Z.of_nat i < len / INDEX_ENTRY_SIZE ->
    mmap_create old len !! i = Some (default (0, 0) (old !! i));
  mmap_open_same old : old <> [] -> mmap_open old INDEX_ENTRY_SIZE = old;
  mmap_open_empty : mmap_open [] INDEX_ENTRY_SIZE = [(0, 0)];
}.

(** [File::set_len] on an index file. *)
Definition resize_entries (len : Z) (entries : list Entry) : list Entry :=
  resize (Z.to_nat (len / INDEX_ENTRY_SIZE)) (0, 0) entries.

(** ** The writable index *)

(* src/crates/fluvio-storage/src/mut_index.rs:28-38 MutLogIndex *)
Record MutLogIndex := MkMutLogIndex {
  mi_entries : list Entry;
  mi_base_offset : Z;
  accumulated_batch_len : Z;
  mi_last_offset_delta : Z;
  first_empty_slot : Z;
  mi_option : ReplicaConfig;
  max_index_interval : Z;
}.

Definition mi_set_entries x (i : MutLogIndex) := MkMutLogIndex x (mi_base_offset i)
  (accumulated_batch_len i) (mi_last_offset_delta i) (first_empty_slot i) (mi_option i)
  (max_index_interval i).
Definition set_accumulated_batch_len x (i : MutLogIndex) := MkMutLogIndex (mi_entries i)
  (mi_base_offset i) x (mi_last_offset_delta i) (first_empty_slot i) (mi_option i)
  (max_index_interval i).
Definition mi_set_last_offset_delta x (i : MutLogIndex) := MkMutLogIndex (mi_entries i)
  (mi_base_offset i) (accumulated_batch_len i) x (first_empty_slot i) (mi_option i)
  (max_index_interval i).
Definition set_first_empty_slot x (i : MutLogIndex) := MkMutLogIndex (mi_entries i)
  (mi_base_offset i) (accumulated_batch_len i) (mi_last_offset_delta i) x (mi_option i)
  (max_index_interval i).

(* src/crates/fluvio-storage/src/mut_index.rs:255-257 MutLogIndex::capacity *)
Definition capacity (self : MutLogIndex) : Z := index_max_bytes (mi_option self).
(* src/crates/fluvio-storage/src/mut_index.rs:227-229 MutLogIndex::entries *)
Definition max_entries (self : MutLogIndex) : Z := as_u32 (capacity self / INDEX_ENTRY_SIZE).
(* src/crates/fluvio-storage/src/mut_index.rs:250-252 MutLogIndex::len *)
Definition mut_index_len (self : MutLogIndex) : Z := first_empty_slot self * INDEX_ENTRY_SIZE.

(** [for i in 0..entries { if self[i].position() == 0 { return Ok(i) } }] *)
Fixpoint first_zero_position (entries : list Entry) (i : Z) : option Z :=
  match entries with
  | [] => None
  | e :: entries => if entry_position e =? 0 then Some i else first_zero_position entries (i + 1)
  end.
(* src/crates/fluvio-storage/src/mut_index.rs:159-174 MutLogIndex::find_first_empty_index *)
Definition find_first_empty_index (self : MutLogIndex) : res Z :=
  match first_zero_position (ztake (max_entries self) (mi_entries self)) 0 with
  | Some i => Ok i
  | None => Err InvalidData
  end.

Section maps.
Context `{MemoryMap}.

(** The index over the file's current content [old]. *)
(* src/crates/fluvio-storage/src/mut_index.rs:48-91 MutLogIndex::create *)
Definition mut_index_create (base_offset : Z) (option : ReplicaConfig) (old : list Entry)
    : res MutLogIndex :=
  if index_max_bytes option =? 0 then Err InvalidInput
  else Ok {| mi_entries := mmap_create old (index_max_bytes option);
             mi_base_offset := base_offset;
             accumulated_batch_len := 0;
             mi_last_offset_delta := 0;
             first_empty_slot := 0;
             mi_option := option;
             max_index_interval := index_max_interval_bytes option |}.
(* src/crates/fluvio-storage/src/mut_index.rs:93-134 MutLogIndex::open *)
Definition mut_index_open (base_offset : Z) (option : ReplicaConfig) (old : list Entry)
    : res MutLogIndex :=
  match mut_index_create base_offset option old with
  | Ok index =>
      match find_first_empty_index index with
      | Ok slot => Ok (set_first_empty_slot slot index)
      | Err k => Err k
      | Panic => Panic
      end
  | r => r
  end.
(** The length of the file has to fit [u32]. *)
(* src/crates/fluvio-storage/src/index.rs:104-136 LogIndex::open_from_offset *)
Definition log_index_open (old : list Entry) : res LogIndex :=
  let m_file := mmap_open old INDEX_ENTRY_SIZE in
  let len := zlen m_file * INDEX_ENTRY_SIZE in
  if 2 ^ 32 - 1 <? len then Err InvalidData
  else Ok (MkLogIndex (ztake (len / INDEX_ENTRY_SIZE) m_file) len).
End maps.

(** What is left of the index file: the entries written so far. *)
(* src/crates/fluvio-storage/src/mut_index.rs:138-146 MutLogIndex::shrink *)
Definition shrink (self : MutLogIndex) : list Entry :=
  resize_entries (first_empty_slot self * INDEX_ENTRY_SIZE) (mi_entries self).

(* src/crates/fluvio-storage/src/mut_index.rs:181-224 MutLogIndex::write_index *)
Definition write_index (offset_delta file_position batch_size : Z) : M MutLogIndex unit :=
  self ← get;
  assert_ (if 0 <? offset_delta then mi_last_offset_delta self <? offset_delta
           else mi_last_offset_delta self =? 0) ;;
  modify (mi_set_last_offset_delta offset_delta) ;;
  if accumulated_batch_len self <? max_index_interval self then
    modify (set_accumulated_batch_len (as_u32 (accumulated_batch_len self + batch_size)))
  else if first_empty_slot self <? max_entries self then
    let slot_index := Z.to_nat (first_empty_slot self) in
    modify (fun i =>
      set_first_empty_slot (as_u32 (first_empty_slot i + 1))
        (set_accumulated_batch_len 0
          (mi_set_entries (<[slot_index := (to_be offset_delta, to_be file_position)]> (mi_entries i)) i)))
  else mret tt.

(* src/crates/fluvio-storage/src/mut_index.rs:236-248 MutLogIndex::find_offset *)
Definition mut_find_offset (self : MutLogIndex) (relative_offset : Z) : res (option Entry) :=
  if first_empty_slot self =? 0 then Ok None
  else if zlen (mi_entries self) <? first_empty_slot self then Panic
  else
    let lower := ztake (first_empty_slot self) (mi_entries self) in
    match lookup_entry lower relative_offset with
    | Ok None => Ok None
    | Ok (Some index) =>
        match entry_at (mi_entries self) index with
        | Ok e => Ok (Some e)
        | Err k => Err k
        | Panic => Panic
        end
    | Err k => Err k
    | Panic => Panic
    end.

(** ** The index interface

    A segment uses an index through [find_offset].  The reference result is
    the last entry whose offset is not greater. *)

Definition index_lookup (entries : list Entry) (offset : Z) : option Entry :=
  last (List.filter (fun e => fst e <=? offset) entries).

(* src/crates/fluvio-storage/src/index.rs:34-53 Index *)
Class Index (I : Type) := {
  find_offset : I -> Z -> res (option Entry);
  index_len : I -> Z;
}.

#[export] Instance LogIndex_Index : Index LogIndex := {|
  find_offset := log_find_offset; index_len := li_len |}.
#[export] Instance MutLogIndex_Index : Index MutLogIndex := {|
  find_offset := mut_find_offset; index_len := mut_index_len |}.

(** What an index promises: [entries] are in increasing order of offset, and
    [find_offset] searches them. *)
Class IndexOK (I : Type) `{Index I} := {
  index_holds : I -> list Entry -> Prop;
  index_sorted i es : index_holds i es -> StronglySorted Z.lt (map fst es);
  find_offset_lookup i es offset :
    index_holds i es -> find_offset i offset = Ok (index_lookup es offset);
}.

(** ** Lemmas *)

Definition in_u32_entry (e : Entry) : Prop := in_u 32 (fst e) /\ in_u 32 (snd e).

Lemma to_be_range x : in_u 32 (to_be x).
Proof.
  unfold to_be, in_u. pose proof (be_combine_bound (rev (be_split 4 x))) as H.
  unfold zlen in H. rewrite length_rev, length_be_split in H. exact H.
Qed.

Lemma to_be_involutive x : in_u 32 x -> to_be (to_be x) = x.
Proof.
  intros Hx. unfold to_be. replace 4%nat with (length (rev (be_split 4 x))) at 1
    by (rewrite length_rev; apply length_be_split).
  rewrite be_split_combine, rev_involutive, be_combine_split. apply Z.mod_small. exact Hx.
Qed.

Lemma to_be_0 : to_be 0 = 0.
Proof. reflexivity. Qed.

Lemma entry_to_be_involutive e : in_u32_entry e -> entry_to_be (entry_to_be e) = e.
Proof.
  intros [H1 H2]. destruct e. unfold entry_to_be. cbn in *. by rewrite !to_be_involutive.
Qed.

Lemma sorted_lookup_lt {A} (k : A -> Z) l i j a b :
  StronglySorted Z.lt (map k l) -> (i < j)%nat -> l !! i = Some a -> l !! j = Some b -> k a < k b.
Proof.
  revert i j. induction l as [|x l IH]; intros i j Hs Hij Ha Hb; [done|].
  cbn [map] in Hs. apply StronglySorted_inv in Hs as [Hs Hx]. destruct j as [|j]; [lia|].
  change ((x :: l) !! S j) with (l !! j) in Hb. destruct i as [|i].
  - cbn in Ha. simplify_eq. apply (Forall_lookup_1 _ _ j (k b) Hx).
    by rewrite lookup_map, Hb.
  - by apply (IH i j); [|lia| |].
Qed.

Lemma bsearch_loop_spec {A} (k : A -> Z) (l : list A) x fuel base size :
  StronglySorted Z.lt (map k l) ->
  0 <= base -> 1 <= size -> base + size <= zlen l -> size <= Z.of_nat fuel ->
  (base = 0 \/ exists e, l !! Z.to_nat base = Some e /\ k e <= x) ->
  (forall j e, base + size <= Z.of_nat j -> l !! j = Some e -> x < k e) ->
  let r := bsearch_loop fuel (fun e => Z.compare (k e) x) l base size in
  0 <= r < zlen l /\
  (r = 0 \/ exists e, l !! Z.to_nat r = Some e /\ k e <= x) /\
  (forall j e, r < Z.of_nat j -> l !! j = Some e -> x < k e).
Proof.
  intros Hs. revert base size. induction fuel as [|fuel IH]; intros base size Hb Hz Hl Hf Hlo Hhi; [lia|].
  cbn [bsearch_loop]. case_ltb.
  - pose proof (Z.div_mod size 2 ltac:(lia)). pose proof (Z.mod_pos_bound size 2 ltac:(lia)).
    set (half := size / 2) in *.
    assert (is_Some (l !! Z.to_nat (base + half))) as [e He].
    { apply lookup_lt_is_Some. unfold zlen in Hl. lia. }
    rewrite He. cbn [fmap option_fmap option_map]. destruct (Z.compare_spec (k e) x) as [Hc|Hc|Hc].
    + apply IH; [lia..| |intros j e' Hj; apply Hhi; lia]. right. exists e. split; [done|lia].
    + apply IH; [lia..| |intros j e' Hj; apply Hhi; lia]. right. exists e. split; [done|lia].
    + apply IH; [lia..|done|]. intros j e' Hj He'.
      destruct (decide (j = Z.to_nat (base + half))) as [->|Hne]; [by simplify_eq|].
      enough (k e < k e') by lia.
      eapply (sorted_lookup_lt k l (Z.to_nat (base + half)) j); [done|lia|done|done].
  - assert (size = 1) as -> by lia. split; [lia|]. split; [done|].
    intros j e Hj. apply Hhi. lia.
Qed.

(** The reference lookup, by position. *)
Lemma index_lookup_at es i e offset :
  es !! i = Some e -> fst e <= offset ->
  (forall j e', (i < j)%nat -> es !! j = Some e' -> offset < fst e') ->
  index_lookup es offset = Some e.
Proof.
  intros He Hle Hgt. unfold index_lookup.
  rewrite <-(take_drop_middle es i e He), List.filter_app. cbn [List.filter].
  rewrite (proj2 (Z.leb_le _ _) Hle), (list_filter_none _ (drop (S i) es)); [apply last_snoc|].
  intros e' [j Hj]%list_elem_of_lookup. rewrite lookup_drop in Hj. apply Z.leb_gt.
  eapply Hgt; [|exact Hj]. lia.
Qed.

Lemma index_lookup_none es offset :
  (forall e, e ∈ es -> offset < fst e) -> index_lookup es offset = None.
Proof.
  intros Hgt. unfold index_lookup. rewrite list_filter_none; [done|].
  intros e He. by apply Z.leb_gt, Hgt.
Qed.

Lemma lookup_entry_spec entries offset :
  entries <> [] -> StronglySorted Z.lt (map (fun e => fst (entry_to_be e)) entries) ->
  lookup_entry entries offset = Ok None /\
    index_lookup (map entry_to_be entries) offset = None \/
  exists idx e, lookup_entry entries offset = Ok (Some idx) /\ 0 <= idx < zlen entries /\
    entry_at entries idx = Ok e /\ index_lookup (map entry_to_be entries) offset = Some e.
Proof.
  intros Hne Hs. destruct entries as [|first entries]; [done|]. unfold lookup_entry.
  set (l := first :: entries) in *. unfold entry_offset.
  destruct (Z.ltb_spec offset (fst (entry_to_be first))) as [Hlt|Hge].
  - left. split; [done|]. apply index_lookup_none.
    intros e [i Hi]%list_elem_of_lookup. rewrite lookup_map in Hi.
    destruct (l !! i) as [e0|] eqn:E; [|done]. cbn in Hi. simplify_eq. destruct i as [|i].
    { unfold l in E. cbn in E. by simplify_eq. }
    enough (fst (entry_to_be first) < fst (entry_to_be e0)) by lia.
    by apply (sorted_lookup_lt (fun e => fst (entry_to_be e)) l 0 (S i)); [|lia| |].
  - right. unfold binary_search_by. assert (0 < zlen l) as Hl by (apply zlen_pos; done).
    destruct (Z.eqb_spec (zlen l) 0) as [|_]; [lia|].
    destruct (bsearch_loop_spec (fun e => fst (entry_to_be e)) l offset (length l) 0 (zlen l))
      as (Hr & Hlo & Hhi); [done|lia|lia|lia|unfold zlen; lia|by left| |].
    { intros j e Hj E. apply lookup_lt_Some in E. unfold zlen in Hj. lia. }
    cbn [entry_to_be fst] in Hr, Hlo, Hhi. set (r := bsearch_loop _ _ _ _ _) in *.
    assert (is_Some (l !! Z.to_nat r)) as [e He] by (apply lookup_lt_is_Some; unfold zlen in Hr; lia).
    assert (fst (entry_to_be e) <= offset) as Hle.
    { destruct Hlo as [E|(e' & He' & Hle)]; [|by simplify_eq].
      rewrite E in He. unfold l in He. injection He as <-. exact Hge. }
    exists r, (entry_to_be e). rewrite He. cbn [fmap option_fmap option_map].
    assert (index_lookup (map entry_to_be l) offset = Some (entry_to_be e)).
    { apply (index_lookup_at _ (Z.to_nat r)); [by rewrite lookup_map, He|done|].
      intros j e' Hj E'. rewrite lookup_map in E'. destruct (l !! j) as [e0|] eqn:E0; [|done].
      cbn in E'. simplify_eq. apply (Hhi j); [lia|done]. }
    unfold entry_at. rewrite He. repeat split; try lia; try done.
    destruct (Z.compare_spec (to_be (fst e)) offset); [done|f_equal; f_equal; lia|].
    cbn in Hle. lia.
Qed.

(** ** The two indexes keep their promise *)

Lemma map_fst_to_be entries :
  map fst (map entry_to_be entries) = map (fun e => fst (entry_to_be e)) entries.
Proof. apply map_map. Qed.

#[local] Obligation Tactic := idtac.

#[export] Program Instance LogIndex_OK : IndexOK LogIndex := {|
  index_holds i es := es = map entry_to_be (li_entries i) /\ es <> [] /\
    StronglySorted Z.lt (map fst es) |}.
Next Obligation. intros i es (_ & _ & Hs). exact Hs. Qed.
Next Obligation.
  intros i es offset (-> & Hne & Hs). rewrite map_fst_to_be in Hs. cbn. unfold log_find_offset.
  assert (li_entries i <> []) by (by destruct (li_entries i)).
  destruct (lookup_entry_spec (li_entries i) offset) as [(-> & ->)|(idx & e & -> & _ & -> & ->)]; done.
Qed.

(** The slots written so far; no slot beyond them is in use. *)
Definition written_entries (i : MutLogIndex) : list Entry :=
  map entry_to_be (ztake (first_empty_slot i) (mi_entries i)).

Definition mut_index_ok (i : MutLogIndex) (es : list Entry) : Prop :=
  es = written_entries i /\ StronglySorted Z.lt (map fst es) /\
  0 <= first_empty_slot i <= zlen (mi_entries i) /\
  zlen (mi_entries i) = max_entries i /\
  in_u 32 (index_max_bytes (mi_option i)).

#[export] Program Instance MutLogIndex_OK : IndexOK MutLogIndex := {|
  index_holds i es := mut_index_ok i es |}.
Next Obligation. intros i es (_ & Hs & _). exact Hs. Qed.
Next Obligation.
  intros i es offset (-> & Hs & Hr & Hl & _). cbn. unfold mut_find_offset, written_entries in *.
  rewrite map_fst_to_be in Hs. destruct (Z.eqb_spec (first_empty_slot i) 0) as [->|Hne];
    [by rewrite ztake_0|].
  case_ltb; [lia|]. assert (ztake (first_empty_slot i) (mi_entries i) <> []) as Hne'.
  { intros E. apply (f_equal zlen) in E. rewrite zlen_ztake, zlen_nil in E; lia. }
  destruct (lookup_entry_spec _ offset Hne' Hs) as [(-> & ->)|(idx & e & -> & Hi & He & ->)]; [done|].
  assert (entry_at (mi_entries i) idx = Ok e) as ->; [|done].
  rewrite zlen_ztake in Hi by lia. unfold entry_at, ztake in *. rewrite lookup_take in He.
  destruct (decide _) as [|Hn]; [done|]. exfalso. lia.
Qed.

(** ** Writing *)

(** An entry is added once enough bytes went by, while there is room. *)
Definition index_adds (i : MutLogIndex) : bool :=
  negb (accumulated_batch_len i <? max_index_interval i) && (first_empty_slot i <? max_entries i).

Definition index_after (i : MutLogIndex) (es : list Entry) (offset_delta file_position : Z) : list Entry :=
  if index_adds i then es ++ [(offset_delta, file_position)] else es.

(** The order [write_index] asserts. *)
Definition delta_in_order (i : MutLogIndex) (offset_delta : Z) : Prop :=
  0 < offset_delta /\ mi_last_offset_delta i < offset_delta \/
  offset_delta = 0 /\ mi_last_offset_delta i = 0.

Lemma StronglySorted_snoc {A} (R : A -> A -> Prop) l x :
  StronglySorted R l -> Forall (fun y => R y x) l -> StronglySorted R (l ++ [x]).
Proof.
  induction l as [|y l IH]; intros Hs Hf; simpl; [by repeat constructor|].
  apply StronglySorted_inv in Hs as [Hs Hy]. apply Forall_cons in Hf as [Hyx Hf].
  constructor; [by apply IH|]. apply Forall_app. by split; [|constructor].
Qed.

Lemma ztake_succ_insert {A} (l : list A) n x :
  0 <= n < zlen l -> ztake (n + 1) (<[Z.to_nat n := x]> l) = ztake n l ++ [x].
Proof.
  intros Hn. unfold ztake. rewrite !Z.min_l by (unfold zlen in *; rewrite ?length_insert; lia).
  replace (Z.to_nat (n + 1)) with (S (Z.to_nat n)) by lia. unfold zlen in Hn.
  rewrite (take_S_r _ _ x) by (apply list_lookup_insert_eq; lia).
  by rewrite take_insert_ge by lia.
Qed.

Lemma max_entries_eq i :
  in_u 32 (index_max_bytes (mi_option i)) -> max_entries i = index_max_bytes (mi_option i) / INDEX_ENTRY_SIZE.
Proof.
  intros H. unfold max_entries, capacity, INDEX_ENTRY_SIZE. unfold in_u in H. apply wrap_u_id.
  split; [apply Z.div_pos; lia|]. apply Z.div_lt_upper_bound; lia.
Qed.

Lemma write_index_holds i es od fp bs :
  mut_index_ok i es -> in_u 32 od -> in_u 32 fp -> delta_in_order i od ->
  Forall (fun e => fst e < od) es ->
  exists i', write_index od fp bs i = (Ok tt, i') /\
    mut_index_ok i' (index_after i es od fp) /\
    mi_option i' = mi_option i /\ mi_last_offset_delta i' = od.
Proof.
  intros (-> & Hs & Hr & Hl & Hm) Hod Hfp Hord Hlt.
  unfold write_index. erewrite bind_ok by done.
  erewrite bind_ok.
  2:{ apply assert_true. unfold delta_in_order in Hord. unfold in_u in Hod.
      case_ltb; [apply Z.ltb_lt|apply Z.eqb_eq]; lia. }
  erewrite bind_ok by done. cbv beta. unfold index_after, index_adds.
  destruct (accumulated_batch_len i <? max_index_interval i); cbn [negb andb].
  { eexists. split; [done|]. repeat split; done || apply Hr || apply Hm. }
  destruct (Z.ltb_spec (first_empty_slot i) (max_entries i)) as [Hroom|_].
  2:{ eexists. split; [done|]. repeat split; done || apply Hr || apply Hm. }
  eexists. split; [done|]. cbn. split; [|done].
  assert (as_u32 (first_empty_slot i + 1) = first_empty_slot i + 1) as Ew.
  { apply wrap_u_id. rewrite max_entries_eq in Hroom by done. unfold in_u in *.
    pose proof (Z.div_lt_upper_bound (index_max_bytes (mi_option i)) INDEX_ENTRY_SIZE (2 ^ 29)).
    unfold INDEX_ENTRY_SIZE in *. lia. }
  unfold mut_index_ok, written_entries. cbn. rewrite Ew, ztake_succ_insert, map_app by lia.
  cbn [map]. change (to_be od, to_be fp) with (entry_to_be (od, fp)).
  rewrite (entry_to_be_involutive (od, fp)) by done.
  split; [done|]. split.
  { rewrite map_app. apply StronglySorted_snoc; [done|]. by apply Forall_map. }
  unfold zlen. rewrite length_insert. unfold zlen in Hr, Hl. repeat split; [lia..|exact Hl|apply Hm|apply Hm].
Qed.

(** An index file from which the entries can be read back: the slots not in
    use are zero, and the ones in use do not look like that.  The interval
    keeps the position zero out of the index. *)
Record index_clean (i : MutLogIndex) : Prop := {
  clean_used : Forall (fun e => snd e <> 0) (written_entries i);
  clean_free : Forall (eq (0, 0)) (zdrop (first_empty_slot i) (mi_entries i));
  clean_u32 : Forall in_u32_entry (mi_entries i);
  clean_interval : 0 < max_index_interval i;
}.

Lemma write_index_clean i es od fp bs i' :
  mut_index_ok i es -> index_clean i -> in_u 32 od -> in_u 32 fp ->
  (fp = 0 -> accumulated_batch_len i = 0) ->
  Forall (fun e => fst e < od) es -> delta_in_order i od ->
  write_index od fp bs i = (Ok tt, i') -> index_clean i'.
Proof.
  intros Hok [Cu Cf C32 Ci] Hod Hfp Hacc Hlt Hord E.
  destruct (write_index_holds i es od fp bs Hok Hod Hfp Hord Hlt) as (i2 & E2 & Hok2 & _ & _).
  rewrite E in E2. injection E2 as <-. pose proof Hok2 as (Ew & _).
  pose proof Hok as (Ew0 & _ & Hr & Hl & Hm).
  unfold write_index in E. erewrite bind_ok in E by done.
  erewrite bind_ok in E.
  2:{ apply assert_true. unfold delta_in_order in Hord. unfold in_u in Hod.
      case_ltb; [apply Z.ltb_lt|apply Z.eqb_eq]; lia. }
  erewrite bind_ok in E by done. cbv beta in E. unfold index_after, index_adds in Ew.
  destruct (Z.ltb_spec (accumulated_batch_len i) (max_index_interval i)); cbn [negb andb] in Ew.
  { injection E as <-. by split. }
  destruct (Z.ltb_spec (first_empty_slot i) (max_entries i)) as [Hroom|_]; cbn [negb andb] in Ew;
    injection E as <-; [|by split].
  split; cbn.
  - rewrite <-Ew, Ew0. apply Forall_app. split; [done|]. constructor; [cbn; lia|constructor].
  - assert (as_u32 (first_empty_slot i + 1) = first_empty_slot i + 1) as ->.
    { apply wrap_u_id. rewrite max_entries_eq in Hroom by done. unfold in_u in *.
      pose proof (Z.div_lt_upper_bound (index_max_bytes (mi_option i)) INDEX_ENTRY_SIZE (2 ^ 29)).
      unfold INDEX_ENTRY_SIZE in *. lia. }
    rewrite zdrop_drop, drop_insert_lt by lia. rewrite zdrop_drop in Cf.
    replace (Z.to_nat (first_empty_slot i + 1)) with (Z.to_nat (first_empty_slot i) + 1)%nat by lia.
    rewrite <-drop_drop. by apply Forall_drop.
  - apply Forall_insert; [done|]. split; apply to_be_range.
  - done.
Qed.

Lemma clean_index_holds i es n :
  mut_index_ok i es -> index_clean i ->
  mi_entries i !! n = map entry_to_be es !! n \/
  map entry_to_be es !! n = None /\ mi_entries i !! n = Some (0, 0).
Proof.
  intros (-> & _ & Hr & _) [_ Cf C32 _]. unfold written_entries. rewrite zdrop_drop in Cf.
  assert (map entry_to_be (map entry_to_be (ztake (first_empty_slot i) (mi_entries i)))
    = take (Z.to_nat (first_empty_slot i)) (mi_entries i)) as ->.
  { rewrite ztake_take. clear -C32. revert C32. generalize (mi_entries i), (Z.to_nat (first_empty_slot i)).
    intros l m Hl. apply (Forall_take _ m) in Hl. induction Hl as [|e l' He _ IH]; [done|]. cbn.
    by rewrite IH, entry_to_be_involutive. }
  destruct (Nat.lt_ge_cases n (Z.to_nat (first_empty_slot i))) as [Hlt|Hge].
  - left. by rewrite lookup_take_lt.
  - rewrite lookup_take_ge by done.
    destruct (mi_entries i !! n) as [e|] eqn:E; [|by left]. right. split; [done|]. f_equal.
    apply (Forall_lookup_1 _ _ (n - Z.to_nat (first_empty_slot i)) e) in Cf; [done|].
    rewrite lookup_drop. replace (_ + _)%nat with n by lia. done.
Qed.

(** ** Creating and reopening *)

Section maps_laws.
Context `{MemoryMapOK}.

Lemma div_entry_size_bound n : in_u 32 n -> 0 <= n / INDEX_ENTRY_SIZE < 2 ^ 29.
Proof.
  unfold in_u, INDEX_ENTRY_SIZE. intros. split; [apply Z.div_pos; lia|apply Z.div_lt_upper_bound; lia].
Qed.

Lemma mut_index_create_fresh base option :
  in_u 32 (index_max_bytes option) -> index_max_bytes option <> 0 ->
  exists i, mut_index_create base option [] = Ok i /\ mut_index_ok i [] /\
    mi_option i = option /\ mi_last_offset_delta i = 0 /\ accumulated_batch_len i = 0 /\
    (0 < index_max_interval_bytes option -> index_clean i).
Proof.
  intros Hm Hz. unfold mut_index_create. destruct (Z.eqb_spec (index_max_bytes option) 0); [done|].
  eexists. split; [done|]. unfold mut_index_ok, written_entries. cbn.
  pose proof (div_entry_size_bound _ Hm). rewrite ztake_0, mmap_create_length by apply Hm.
  split; [|split; [done|split; [done|split; [done|]]]].
  { repeat split; [constructor|lia|lia|cbn; by rewrite max_entries_eq|apply Hm|apply Hm]. }
  assert (Forall (eq (0, 0)) (mmap_create [] (index_max_bytes option))) as Hzero.
  { apply Forall_lookup. intros j e He. pose proof (lookup_lt_Some _ _ _ He) as Hj.
    pose proof (mmap_create_length [] _ (proj1 Hm)) as Hlen. unfold zlen in Hlen.
    rewrite mmap_create_lookup in He by lia. cbn in He. by injection He. }
  intros Hi. split; cbn; [unfold written_entries; cbn; rewrite ztake_0; constructor|by rewrite zdrop_drop| |done].
  eapply List.Forall_impl; [|exact Hzero]. intros e <-. unfold in_u32_entry, in_u. cbn. lia.
Qed.

Lemma first_zero_position_spec es k n :
  Forall (fun e => snd e <> 0) es ->
  first_zero_position (es ++ (0, 0) :: k) n = Some (n + zlen es).
Proof.
  revert n. induction es as [|e es IH]; intros n Hf; cbn; [f_equal; rewrite zlen_nil; lia|].
  apply Forall_cons in Hf as [He Hf]. destruct (Z.eqb_spec (entry_position e) 0); [done|].
  rewrite IH by done. rewrite zlen_cons. f_equal. lia.
Qed.

(** The map of an index file that holds [es] and nothing after. *)
Lemma mmap_create_entries old es len :
  in_u 32 len -> zlen es < len / INDEX_ENTRY_SIZE ->
  (forall i, old !! i = es !! i \/ es !! i = None /\ old !! i = Some (0, 0)) ->
  exists k, mmap_create old len = es ++ (0, 0) :: k /\ Forall (eq (0, 0)) k.
Proof.
  intros Hlen Hn Hold. pose proof (mmap_create_length old len ltac:(apply Hlen)) as Hl.
  exists (drop (S (length es)) (mmap_create old len)). split.
  2:{ apply Forall_lookup. intros n e He. rewrite lookup_drop in He.
      pose proof (lookup_lt_Some _ _ _ He) as Hlt. unfold zlen in *.
      rewrite mmap_create_lookup in He by lia.
      assert (e = default (0, 0) (old !! (S (length es) + n)%nat)) as -> by congruence.
      destruct (Hold (S (length es) + n)%nat) as [->|[_ ->]]; [|done].
      by rewrite lookup_ge_None_2 by lia. }
  rewrite <-(take_drop (length es) (mmap_create old len)) at 1. f_equal.
  - apply list_eq. intros i. destruct (decide (i < length es)%nat) as [Hi|Hi].
    + rewrite lookup_take_lt by done. rewrite mmap_create_lookup by (unfold zlen in *; lia).
      apply lookup_lt_is_Some in Hi as [e He]. destruct (Hold i) as [->|[Hnone _]]; [|congruence].
      by rewrite He.
    + rewrite (lookup_ge_None_2 es) by lia. apply lookup_ge_None_2. rewrite length_take. lia.
  - assert (mmap_create old len !! length es = Some (0, 0)) as E.
    { rewrite mmap_create_lookup by (unfold zlen in *; lia).
      destruct (Hold (length es)) as [->|[_ ->]]; [|done].
      by rewrite (lookup_ge_None_2 es) by lia. }
    by rewrite (drop_S _ (0, 0)).
Qed.

Lemma to_be_nonzero x : in_u 32 x -> x <> 0 -> to_be x <> 0.
Proof. intros Hx Hn E. apply Hn. rewrite <-(to_be_involutive x Hx), E. apply to_be_0. Qed.

Lemma entry_to_be_all es : Forall in_u32_entry es -> map entry_to_be (map entry_to_be es) = es.
Proof.
  induction 1 as [|e es He _ IH]; cbn [map]; [done|]. by rewrite IH, entry_to_be_involutive.
Qed.

(** Reopening an index finds the entries that were written, provided one slot
    is still free and no entry points at the start of the file. *)
Lemma mut_index_open_entries base option old es :
  in_u 32 (index_max_bytes option) -> zlen es < index_max_bytes option / INDEX_ENTRY_SIZE ->
  (forall i, old !! i = map entry_to_be es !! i \/
             map entry_to_be es !! i = None /\ old !! i = Some (0, 0)) ->
  Forall in_u32_entry es -> Forall (fun e => snd e <> 0) es -> StronglySorted Z.lt (map fst es) ->
  exists i, mut_index_open base option old = Ok i /\ mut_index_ok i es /\
    mi_option i = option /\ mi_last_offset_delta i = 0 /\ accumulated_batch_len i = 0 /\
    (0 < index_max_interval_bytes option -> index_clean i).
Proof.
  intros Hm Hn Hold Hu Hp Hs. pose proof (div_entry_size_bound _ Hm) as Hb.
  assert (zlen (map entry_to_be es) = zlen es) as Hz by (unfold zlen; by rewrite length_map).
  assert (index_max_bytes option <> 0) as Hne.
  { intros E. rewrite E in Hn. pose proof (zlen_nonneg es). change (0 / INDEX_ENTRY_SIZE) with 0 in Hn. lia. }
  unfold mut_index_open, mut_index_create. destruct (Z.eqb_spec (index_max_bytes option) 0); [done|].
  destruct (mmap_create_entries old (map entry_to_be es) (index_max_bytes option)) as (k & Ek & Hk); [done|lia|done|].
  pose proof (mmap_create_length old _ (proj1 Hm)) as Hlen.
  unfold find_first_empty_index. cbn [mi_entries].
  rewrite ztake_all by (rewrite max_entries_eq, Hlen by done; cbn [mi_option]; lia).
  rewrite Ek, first_zero_position_spec.
  2:{ apply Forall_map. rewrite Forall_forall in Hu, Hp. apply Forall_forall. intros e He. cbn.
      apply to_be_nonzero; [apply (Hu e He)|apply (Hp e He)]. }
  eexists. split; [done|]. split; [|split; [done|split; [done|split; [done|]]]].
  2:{ intros Hi. split; cbn [first_empty_slot set_first_empty_slot mi_entries max_index_interval];
        rewrite ?Z.add_0_l; [| | |done].
      - unfold written_entries. cbn [first_empty_slot set_first_empty_slot mi_entries]. rewrite ?Z.add_0_l.
        by rewrite ztake_app_exact, entry_to_be_all by done.
      - rewrite zdrop_app_exact by done. by constructor.
      - apply Forall_app. split.
        + apply Forall_map, Forall_true. intros e. split; apply to_be_range.
        + constructor; [unfold in_u32_entry, in_u; cbn; lia|].
          eapply List.Forall_impl; [|exact Hk]. intros e <-. unfold in_u32_entry, in_u. cbn. lia. }
  unfold mut_index_ok, written_entries.
  cbn [first_empty_slot set_first_empty_slot mi_entries mi_option]. rewrite Z.add_0_l.
  rewrite ztake_app_exact by done. rewrite entry_to_be_all by done. rewrite <-Ek, Hlen, Hz.
  pose proof (zlen_nonneg es). repeat split; [done|lia|lia|by rewrite max_entries_eq|apply Hm|apply Hm].
Qed.
End maps_laws.

(** ** Properties *)

(** Writing an entry to the index of the active segment keeps the table
    sorted: when the bytes since the last entry reach the interval and a slot is
    free the new pair is added, otherwise the table stays as it is, and every
    later search gives the last entry that is not past the offset looked for. *)
Theorem write_index_correct (i : MutLogIndex) (es : list Entry) (offset_delta file_position batch_size : Z) :
  mut_index_ok i es -> in_u 32 offset_delta -> in_u 32 file_position ->
  delta_in_order i offset_delta -> Forall (fun e => fst e < offset_delta) es ->
  exists i',
    write_index offset_delta file_position batch_size i = (Ok tt, i') /\
    mut_index_ok i' (index_after i es offset_delta file_position) /\
    forall offset, mut_find_offset i' offset =
      Ok (index_lookup (index_after i es offset_delta file_position) offset).
Proof.
  intros Hok Hod Hfp Hord Hlt.
  destruct (write_index_holds i es offset_delta file_position batch_size) as (i' & E & Hok' & _); [done..|].
  exists i'. split; [done|]. split; [done|]. intros offset.
  exact (@find_offset_lookup MutLogIndex _ MutLogIndex_OK i' _ offset Hok').
Qed.

(** C22: The binary searches of the two kinds of index agree with each other and
    with a linear search: for the same entries, in increasing order of offset,
    the index of a closed segment and that of the active one both find the last
    entry that is not past the offset looked for, or that there is none. *)
Theorem index_search_equivalent (li : LogIndex) (mi : MutLogIndex) (es : list Entry) (offset : Z) :
  es = map entry_to_be (li_entries li) -> es <> [] -> mut_index_ok mi es ->
  log_find_offset li offset = Ok (index_lookup es offset) /\ mut_find_offset mi offset = log_find_offset li offset.
Proof.
  intros Ee Hne Hmi. pose proof Hmi as (_ & Hs & _).
  pose proof (@find_offset_lookup LogIndex _ LogIndex_OK li es offset (conj Ee (conj Hne Hs))) as El.
  pose proof (@find_offset_lookup MutLogIndex _ MutLogIndex_OK mi es offset Hmi) as Em. cbn in El, Em. split; [exact El|congruence].
Qed.

(** Files mapped as the operating system maps them. *)
#[export] Instance plain_map : MemoryMap := {|
  mmap_create old len := resize (Z.to_nat (len / INDEX_ENTRY_SIZE)) (0, 0) old;
  mmap_open old min_len := match old with [] => [(0, 0)] | _ => old end |}.

#[export] Instance plain_map_ok : MemoryMapOK.
Proof.
  split.
  - intros old len Hl. cbn. unfold zlen. rewrite length_resize.
    assert (0 <= len / INDEX_ENTRY_SIZE) by (apply Z.div_pos; unfold INDEX_ENTRY_SIZE; lia). lia.
  - intros old len i Hi. cbn. destruct (decide (i < length old)%nat) as [Ho|Ho].
    + rewrite lookup_resize by lia. apply lookup_lt_is_Some in Ho as [e ->]. done.
    + rewrite lookup_resize_new by lia. by rewrite lookup_ge_None_2 by lia.
  - intros old Ho. by destruct old.
  - done.
Qed.

Definition small_config : ReplicaConfig := {|
  base_dir := "/tmp"; index_max_bytes := 64; index_max_interval_bytes := 100;
  segment_max_bytes := 1000; flush_write_count := 1; flush_idle_msec := 0;
  max_batch_size := 1000; max_request_size := 1000; update_hw := true;
  retention_seconds := 60; max_partition_size := 5000 |}.

Definition example_index : MutLogIndex := {|
  mi_entries := (to_be 10, to_be 300) :: replicate 7 (0, 0);
  mi_base_offset := 0; accumulated_batch_len := 120; mi_last_offset_delta := 20;
  first_empty_slot := 1; mi_option := small_config; max_index_interval := 100 |}.

Lemma write_index_correct_witness :
  exists i', write_index 25 900 80 example_index = (Ok tt, i') /\
    mut_index_ok i' [(10, 300); (25, 900)] /\
    forall offset, mut_find_offset i' offset = Ok (index_lookup [(10, 300); (25, 900)] offset).
Proof.
  apply (write_index_correct example_index [(10, 300)] 25 900 80).
  - repeat split; try (vm_compute; congruence). repeat constructor.
  - split; vm_compute; congruence.
  - split; vm_compute; congruence.
  - left. split; vm_compute; reflexivity.
  - repeat constructor.
Defined.

Lemma index_search_equivalent_witness :
  log_find_offset {| li_entries := [(to_be 10, to_be 300)]; li_len := 1 |} 25 = Ok (Some (10, 300)) /\
  mut_find_offset example_index 25 = log_find_offset {| li_entries := [(to_be 10, to_be 300)]; li_len := 1 |} 25.
Proof.
  apply (index_search_equivalent _ example_index [(10, 300)] 25).
  - reflexivity.
  - discriminate.
  - repeat split; try (vm_compute; congruence). repeat constructor.
Defined.
