(* ===== verification/StorageLog.v ===== *)
(** * Message logs

    [fluvio-storage/src/file.rs], [batch.rs], [batch_header.rs],
    [mut_records.rs], [records.rs] and [validator.rs]: reading batches back
    from a log file, appending batches to the file of the active segment, and
    the validation of a log against its index.  A file is its bytes; writing to
    it succeeds. *)

From S2P Require Import Prelude Wire Varint Utf8 Scalars Collections Records Batch RecordSet StorageIndex.
From stdpp Require Import list.

#[local] Open Scope Z_scope.

(** ** Errors *)

(* src/crates/fluvio-storage/src/batch.rs:24-42 BatchHeaderError *)
Inductive BatchHeaderError :=
| NotEnoughHeader (pos actual_len expected_len : Z)
| NotEnoughContent (header : BatchHeader) (base_offset pos actual_len expected_len : Z).

(* src/crates/fluvio-storage/src/validator.rs:24-32 LogValidationError *)
Inductive LogValidationError :=
| InvalidExtension
| BatchDecoding (e : BatchHeaderError)
| InvalidBaseOffsetMinimum (invalid_batch_offset : Z).

(** [anyhow::Error] holds any of the errors below it. *)
(* src/crates/fluvio-storage/src/error.rs:9-33 StorageError *)
Inductive StorageError :=
| SOther
| SIo (k : ErrorKind)
| SOffset
| SLogValidation (e : LogValidationError)
| SBatchHeader (e : BatchHeaderError)
| BatchTooBig (max_request_size : Z)
| BatchExceededSegment (batch_size max_segment_size : Z)
| EmptyBatch
| ShortCircuited.

Notation SM := (ME StorageError).
Notation sresult := (outcome StorageError).

(** ** Reading bytes at a position *)

(** [libc::pread] returns how many bytes it read of those wanted at an offset;
    [None] is an [errno]. *)
Class PRead := sys_pread : list byte -> Z -> Z -> option Z.

(** POSIX: nothing at or after the end of the file, otherwise some bytes but
    not more than wanted or present. *)
Class PReadOK `{PRead} := {
  sys_pread_eof file offset n : zlen file <= offset -> sys_pread file offset n = Some 0;
  sys_pread_some file offset n :
    0 <= offset < zlen file -> 0 < n ->
    exists k, sys_pread file offset n = Some k /\ 1 <= k <= Z.min n (zlen file - offset);
}.

(* src/crates/fluvio-storage/src/file.rs:81-84 ReadOutput *)
Inductive ReadOutput :=
| ReadEmpty
| ReadSome (buffer : list byte) (eof : bool).

Section pread.
Context `{PRead}.

(** The loop state: bytes still wanted, bytes read. *)
Definition pread_step (file : list byte) (offset : Z) (st : Z * list byte)
    : Z * list byte + option ReadOutput :=
  let '(buf_len, buf) := st in
  if 0 <? buf_len then
    match sys_pread file (offset + zlen buf) buf_len with
    | None => inr None
    | Some read =>
        if read =? 0 then
          if zlen buf =? 0 then inr (Some ReadEmpty) else inr (Some (ReadSome buf true))
        else inl (buf_len - read, buf ++ ztake read (zdrop (offset + zlen buf) file))
    end
  else inr (Some (ReadSome buf false)).
(** Every turn reads a byte of the file or is the last: [pread_spec]. *)
(* src/crates/fluvio-storage/src/file.rs:106-155 pread *)
Definition pread (file : list byte) (offset len : Z) : option ReadOutput :=
  match loop_n (S (S (length file))) (pread_step file offset) (len, []) with
  | inr r => r
  | inl _ => None
  end.

(* src/crates/fluvio-storage/src/file.rs:20-24 FileBytesIterator *)
Record FileBytesIterator := MkFBI { fbi_file : list byte; fbi_pos : Z; fbi_end : bool }.

(* src/crates/fluvio-storage/src/file.rs:34-40 FileBytesIterator::from_file *)
Definition fbi_from_file (file : list byte) : FileBytesIterator := MkFBI file 0 false.
(* src/crates/fluvio-storage/src/file.rs:47-68 FileBytesIterator::read_bytes *)
Definition read_bytes (len : Z) : SM FileBytesIterator (option (list byte)) :=
  self ← get;
  match pread (fbi_file self) (fbi_pos self) len with
  | None => fail (SIo OtherError)
  | Some (ReadSome buffer eof) =>
      put (MkFBI (fbi_file self) (as_u32 (fbi_pos self + len)) eof) ;; mret (Some buffer)
  | Some ReadEmpty => put (MkFBI (fbi_file self) (fbi_pos self) true) ;; mret None
  end.
(* src/crates/fluvio-storage/src/file.rs:75-78 FileBytesIterator::set_absolute *)
Definition fbi_set_absolute (offset : Z) (self : FileBytesIterator) : FileBytesIterator :=
  MkFBI (fbi_file self) offset (fbi_end self).

(** ** Reading batches *)

(** [FileEmptyRecords]: a batch without its records. *)
(* src/crates/fluvio-storage/src/batch_header.rs:11-12 FileEmptyRecords *)
Definition codec_empty : Codec unit :=
  MkCodec tt (fun _ _ => 0) (fun _ _ => mret tt) (fun _ => mret tt).

(** Run a decoder on a buffer of its own. *)
Definition decode_buf {A} (d : Dec A) (a : A) (bs : list byte) : sresult A :=
  match d (a, bs) with
  | (Ok _, (a', _)) => Ok a'
  | (Err k, _) => Err (SIo k)
  | (Panic, _) => Panic
  end.

(* src/crates/fluvio-storage/src/batch.rs:61-149 FileBatchPos::read_from *)
Definition read_from {R} (c : Codec R) : SM FileBytesIterator (option (Batch R * Z)) :=
  file ← get;
  let pos := fbi_pos file in
  bytes ← read_bytes (as_u32 BATCH_FILE_HEADER_SIZE);
  match bytes with
  | None => mret None
  | Some bytes =>
      if zlen bytes <? BATCH_FILE_HEADER_SIZE then
        fail (SBatchHeader (NotEnoughHeader pos (zlen bytes) BATCH_FILE_HEADER_SIZE))
      else
        batch ← lift (decode_buf (decode_from_file_buf 0) (batch_default c) bytes);
        let content_len := wrap_u 64 (as_usize (batch_len batch) - BATCH_HEADER_SIZE) in
        bytes ← read_bytes (as_u32 content_len);
        match bytes with
        | None => fail (SBatchHeader (NotEnoughContent (header batch) (base_offset batch) pos 0 content_len))
        | Some bytes =>
            if zlen bytes <? content_len then
              fail (SBatchHeader
                (NotEnoughContent (header batch) (base_offset batch) pos (zlen bytes) content_len))
            else
              records ← lift (decode_buf (decode c 0) (records batch) bytes);
              mret (Some (set_records records batch, pos))
        end
  end.

(* src/crates/fluvio-storage/src/batch.rs:167-171 FileBatchStream *)
Record FileBatchStream := MkStream { stream_invalid : bool; byte_iterator : FileBytesIterator }.

(* src/crates/fluvio-storage/src/batch.rs:204-225 FileBatchStream::open *)
Definition stream_open (file : list byte) : FileBatchStream := MkStream false (fbi_from_file file).
(* src/crates/fluvio-storage/src/batch.rs:183-186 FileBatchStream::get_pos *)
Definition stream_pos (self : FileBatchStream) : Z := fbi_pos (byte_iterator self).
(* src/crates/fluvio-storage/src/batch.rs:193-196 FileBatchStream::set_absolute *)
Definition stream_set_absolute (abs_offset : Z) (self : FileBatchStream) : FileBatchStream :=
  MkStream (stream_invalid self) (fbi_set_absolute abs_offset (byte_iterator self)).
(* src/crates/fluvio-storage/src/batch.rs:230-242 FileBatchStream::try_next *)
Definition try_next {R} (c : Codec R) : SM FileBatchStream (option (Batch R * Z)) := fun self =>
  if stream_invalid self then (Err SOther, self)
  else
    match read_from c (byte_iterator self) with
    | (Ok r, it) => (Ok r, MkStream false it)
    | (Err e, it) => (Err e, MkStream true it)
    | (Panic, it) => (Panic, MkStream false it)
    end.
End pread.

(** ** The log of the active segment *)

(* src/crates/fluvio-storage/src/mut_records.rs:225-230 FlushPolicy *)
Inductive FlushPolicy :=
| NoFlush
| EveryWrite
| CountWrites (n_writes write_tracking : Z)
| IdleFlush (delay_millis : Z).

(* src/crates/fluvio-storage/src/mut_records.rs:233-237 FlushAction *)
Inductive FlushAction := ActNoFlush | ActNow | ActDelay (millis : Z).

(* src/crates/fluvio-storage/src/mut_records.rs:65-80 get_flush_policy_from_config *)
Definition get_flush_policy_from_config (option : ReplicaConfig) : FlushPolicy :=
  if 0 <? flush_idle_msec option then IdleFlush (flush_idle_msec option)
  else if flush_write_count option =? 0 then NoFlush
  else if flush_write_count option =? 1 then EveryWrite
  else CountWrites (flush_write_count option) 0.

(* src/crates/fluvio-storage/src/mut_records.rs:243-264 FlushPolicy::should_flush *)
Definition should_flush (self : FlushPolicy) : FlushAction * FlushPolicy :=
  match self with
  | NoFlush => (ActNoFlush, self)
  | EveryWrite => (ActNow, self)
  | CountWrites n_max wcount =>
      let wcount := as_u32 (wcount + 1) in
      if n_max <=? wcount then (ActNow, CountWrites n_max 0)
      else (ActNoFlush, CountWrites n_max wcount)
  | IdleFlush delay_millis => (ActDelay delay_millis, self)
  end.

(** A region of a file, as handed to the network. *)
Record FileSlice := MkFileSlice { slice_pos : Z; slice_len : Z }.

(** The bytes a slice stands for. *)
Definition slice_bytes (file : list byte) (s : FileSlice) : list byte :=
  ztake (slice_len s) (zdrop (slice_pos s) file).

(* src/crates/fluvio-storage/src/mut_records.rs:45-55 MutFileRecords *)
Record MutFileRecords := MkMutFileRecords {
  mr_base_offset : Z;
  mr_file : list byte;
  mr_len : Z;
  mr_max_len : Z;
  mr_flush_policy : FlushPolicy;
  write_count : Z;
  flush_count : Z;
}.

(** The file opens for appending, with the content it already has. *)
(* src/crates/fluvio-storage/src/mut_records.rs:84-106 MutFileRecords::create *)
Definition mut_records_create (base_offset : Z) (option : ReplicaConfig) (old : list byte)
    : MutFileRecords := {|
  mr_base_offset := base_offset;
  mr_file := old;
  mr_len := as_u32 (zlen old);
  mr_max_len := segment_max_bytes option;
  mr_flush_policy := get_flush_policy_from_config option;
  write_count := 0;
  flush_count := 0 |}.
(* src/crates/fluvio-storage/src/mut_records.rs:113-117 MutFileRecords::set_len *)
Definition mut_records_set_len (len : Z) (self : MutFileRecords) : MutFileRecords := {|
  mr_base_offset := mr_base_offset self;
  mr_file := resize (Z.to_nat len) Byte.x00 (mr_file self);
  mr_len := len;
  mr_max_len := mr_max_len self;
  mr_flush_policy := mr_flush_policy self;
  write_count := write_count self;
  flush_count := flush_count self |}.
(** [write_all] in append mode, then the new length and the write count. *)
Definition mut_records_append (buffer : list byte) (batch_len : Z) (self : MutFileRecords)
    : MutFileRecords := {|
  mr_base_offset := mr_base_offset self;
  mr_file := mr_file self ++ buffer;
  mr_len := as_u32 (mr_len self + as_u32 batch_len);
  mr_max_len := mr_max_len self;
  mr_flush_policy := mr_flush_policy self;
  write_count := Z.min (2 ^ 64 - 1) (write_count self + 1);
  flush_count := flush_count self |}.
(* src/crates/fluvio-storage/src/mut_records.rs:180-184 MutFileRecords::flush *)
Definition mut_records_flush (self : MutFileRecords) : MutFileRecords := {|
  mr_base_offset := mr_base_offset self;
  mr_file := mr_file self;
  mr_len := mr_len self;
  mr_max_len := mr_max_len self;
  mr_flush_policy := mr_flush_policy self;
  write_count := write_count self;
  flush_count := as_u32 (flush_count self + 1) |}.
(* src/crates/fluvio-storage/src/mut_records.rs:125-127 MutFileRecords::get_pos *)
Definition mut_records_pos (self : MutFileRecords) : Z := mr_len self.

Section write.
Context (crc32c : list byte -> Z) {R : Type} (c : Codec R).

(** [batch.encode(&mut buffer, 0)?] into a fresh vector *)
Definition encode_to_vec (batch : Batch R) : sresult (list byte) :=
  match encode_batch crc32c c 0 batch vec_new with
  | (Ok _, out) => Ok (written out)
  | (Err k, _) => Err (SIo k)
  | (Panic, _) => Panic
  end.

(* src/crates/fluvio-storage/src/mut_records.rs:132-178 MutFileRecords::write_batch *)
Definition write_batch (batch : Batch R) : SM MutFileRecords (bool * Z * Z) :=
  self ← get;
  if base_offset batch <? mr_base_offset self then
    fail (SLogValidation (InvalidBaseOffsetMinimum (base_offset batch)))
  else
    let batch_len := write_size_batch c 0 batch in
    if mr_max_len self <? as_u32 (as_u32 batch_len + mr_len self) then
      mret (false, batch_len, mr_len self)
    else
      buffer ← lift (encode_to_vec batch);
      assert_ (zlen buffer =? batch_len) ;;
      modify (mut_records_append buffer batch_len) ;;
      modify mut_records_flush ;;
      self ← get;
      mret (true, batch_len, mr_len self).
End write.

(* src/crates/fluvio-storage/src/mut_records.rs:204-211 MutFileRecords::as_file_slice *)
Definition mut_as_file_slice (self : MutFileRecords) (start : Z) : outcome ErrorKind FileSlice :=
  Ok (MkFileSlice start (as_u32 (mr_len self - start))).
(* src/crates/fluvio-storage/src/mut_records.rs:213-216 MutFileRecords::as_file_slice_from_to *)
Definition mut_as_file_slice_from_to (self : MutFileRecords) (start len : Z)
    : outcome ErrorKind FileSlice :=
  Ok (MkFileSlice start len).

(** ** Logs that are only read *)

(* src/crates/fluvio-storage/src/records.rs:50-56 FileRecordsSlice *)
Record FileRecordsSlice := MkFileRecordsSlice {
  fs_base_offset : Z;
  fs_file : list byte;
  fs_len : Z;
  fs_last_modified : Z;
}.
(* src/crates/fluvio-storage/src/records.rs:59-82 FileRecordsSlice::open *)
Definition records_slice_open (base_offset : Z) (file : list byte) (modified : Z) : FileRecordsSlice :=
  MkFileRecordsSlice base_offset file (zlen file) modified.
(** Times in seconds; a clock that went back counts as not expired. *)
(* src/crates/fluvio-storage/src/records.rs:100-111 FileRecordsSlice::is_expired *)
Definition fs_is_expired (now expired_duration : Z) (self : FileRecordsSlice) : bool :=
  if now <? fs_last_modified self then false
  else expired_duration <? now - fs_last_modified self.
(* src/crates/fluvio-storage/src/records.rs:136-140 FileRecordsSlice::as_file_slice *)
Definition fs_as_file_slice (self : FileRecordsSlice) (start_pos : Z) : outcome ErrorKind FileSlice :=
  Ok (MkFileSlice start_pos (wrap_u 64 (fs_len self - start_pos))).
(* src/crates/fluvio-storage/src/records.rs:142-151 FileRecordsSlice::as_file_slice_from_to *)
Definition fs_as_file_slice_from_to (self : FileRecordsSlice) (start len : Z)
    : outcome ErrorKind FileSlice :=
  if fs_len self <? len then Err UnexpectedEof else Ok (MkFileSlice start len).

(** What a segment asks of its log. *)
(* src/crates/fluvio-storage/src/records.rs:34-48 FileRecords *)
Class FileRecords (L : Type) := {
  log_file : L -> list byte;
  log_base_offset : L -> Z;
  log_len : L -> Z;
  as_file_slice : L -> Z -> outcome ErrorKind FileSlice;
  as_file_slice_from_to : L -> Z -> Z -> outcome ErrorKind FileSlice;
}.
#[export] Instance MutFileRecords_FileRecords : FileRecords MutFileRecords := {|
  log_file := mr_file; log_base_offset := mr_base_offset; log_len := mr_len;
  as_file_slice := mut_as_file_slice; as_file_slice_from_to := mut_as_file_slice_from_to |}.
#[export] Instance FileRecordsSlice_FileRecords : FileRecords FileRecordsSlice := {|
  log_file := fs_file; log_base_offset := fs_base_offset; log_len := fs_len;
  as_file_slice := fs_as_file_slice; as_file_slice_from_to := fs_as_file_slice_from_to |}.

(** ** Validation *)

(* src/crates/fluvio-storage/src/validator.rs:34-41 InvalidIndexError *)
Record InvalidIndexError := MkInvalidIndexError {
  ie_offset : Z;
  ie_batch_file_pos : Z;
  ie_index_position : Z;
  ie_diff_position : Z;
}.

(* src/crates/fluvio-storage/src/validator.rs:43-55 LogValidator *)
Record LogValidator := MkLogValidator {
  val_base_offset : Z;
  val_batches : Z;
  last_valid_offset : Z;
  last_valid_batch_pos : Z;
  last_valid_file_pos : Z;
  val_error : option LogValidationError;
  index_error : option InvalidIndexError;
}.

Definition set_val_error (e : LogValidationError) (val : LogValidator) : LogValidator :=
  MkLogValidator (val_base_offset val) (val_batches val) (last_valid_offset val)
    (last_valid_batch_pos val) (last_valid_file_pos val) (Some e) (index_error val).

Section validate.
Context `{PRead} {I : Type} `{Index I}.

(** The index check of one batch. *)
Definition check_index (index : option I) (base_offset batch_offset batch_pos : Z)
    : sresult (option InvalidIndexError) :=
  match index with
  | None => Ok None
  | Some index =>
      let delta_offset := as_i64 (batch_offset - base_offset) in
      match find_offset index (as_u32 delta_offset) with
      | Ok (Some (offset, index_pos)) =>
          if (offset =? as_u32 delta_offset) && negb (index_pos =? batch_pos) then
            Ok (Some (MkInvalidIndexError batch_offset batch_pos index_pos
                        (as_u32 (index_pos - batch_pos))))
          else Ok None
      | Ok None => Ok None
      | Err k => Err (SIo k)
      | Panic => Panic
      end
  end.

(** One turn of the [while let Some(batch_pos) = batch_stream.try_next()]
    loop. *)
Definition validate_step {R} (c : Codec R) (index : option I) (st : LogValidator * FileBatchStream)
    : LogValidator * FileBatchStream + sresult unit * LogValidator :=
  let '(self, batch_stream) := st in
  match try_next c batch_stream with
  | (Err e, _) => inr (Err e, self)
  | (Panic, _) => inr (Panic, self)
  | (Ok None, _) => inr (Ok tt, self)
  | (Ok (Some (current_batch, current_batch_pos)), batch_stream) =>
      let current_batch_offset := base_offset current_batch in
      if current_batch_offset <? val_base_offset self then
        inr (Ok tt, set_val_error (InvalidBaseOffsetMinimum current_batch_offset) self)
      else
        let checked :=
          match index_error self with
          | Some e => Ok (Some e)
          | None => check_index index (val_base_offset self) current_batch_offset current_batch_pos
          end in
        let self index_error :=
          MkLogValidator (val_base_offset self) (as_u32 (val_batches self + 1))
            (as_i64 (current_batch_offset + last_offset_delta (header current_batch)))
            current_batch_pos (stream_pos batch_stream) (val_error self) index_error in
        match checked with
        | Ok index_error => inl (self index_error, batch_stream)
        | Err e => inr (Err e, self None)
        | Panic => inr (Panic, self None)
        end
  end.
(** A batch takes at least its header: a turn per byte is enough for a file
    shorter than 4 GiB ([validate_ends]). *)
(* src/crates/fluvio-storage/src/validator.rs:112-230 LogValidator::validate_with_stream *)
Definition validate_with_stream {R} (c : Codec R) (index : option I) (batch_stream : FileBatchStream)
    : SM LogValidator unit := fun self =>
  match loop_n (S (length (fbi_file (byte_iterator batch_stream)))) (validate_step c index)
          (self, batch_stream) with
  | inr r => r
  | inl (self, _) => (Panic, self)
  end.
(** [base_offset] is the number in the name of the log file. *)
(* src/crates/fluvio-storage/src/validator.rs:58-108 LogValidator::validate_core *)
Definition validate_core {R} (c : Codec R) (base_offset : Z) (file : list byte) (index : option I)
    : sresult LogValidator :=
  let val := MkLogValidator base_offset 0 (-1) 0 0 None None in
  match validate_with_stream c index (stream_open file) val with
  | (Ok _, val) => Ok val
  | (Err (SBatchHeader header_error), val) => Ok (set_val_error (BatchDecoding header_error) val)
  | (Err e, _) => Err e
  | (Panic, _) => Panic
  end.
(* src/crates/fluvio-storage/src/validator.rs:252-260 LogValidator::default_validate *)
Definition default_validate (base_offset : Z) (file : list byte) (index : option I)
    : sresult LogValidator :=
  validate_core codec_empty base_offset file index.
End validate.

(* src/crates/fluvio-storage/src/validator.rs:233-239 LogValidator::leo *)
Definition leo (self : LogValidator) : Z :=
  if last_valid_offset self =? -1 then val_base_offset self
  else as_i64 (last_valid_offset self + 1).

(** ** Reading bytes *)

Section read_laws.
Context `{PReadOK}.

Lemma pread_loop file offset len k buf n :
  0 <= offset -> 0 <= k -> zlen buf = len - k -> buf = ztake (len - k) (zdrop offset file) ->
  offset + zlen buf <= zlen file -> 0 < zlen file - offset \/ k = 0 ->
  zlen file - offset - zlen buf < Z.of_nat n ->
  loop_n n (pread_step file offset) (k, buf) =
    inr (Some (ReadSome (ztake len (zdrop offset file)) (zlen file - offset <? len))).
Proof.
  intros Ho. revert k buf. induction n as [|n IH]; intros k buf Hk Hz Hb Hle Hav Hn; [lia|].
  rewrite loop_n_S. unfold pread_step at 1. case_ltb.
  - destruct (Z.eq_dec (zlen file - offset - zlen buf) 0) as [E|E].
    + rewrite sys_pread_eof by lia. cbn [Z.eqb]. destruct (Z.eqb_spec (zlen buf) 0); [lia|].
      destruct (Z.ltb_spec (zlen file - offset) len); [|lia]. do 3 f_equal.
      rewrite Hb. pose proof (zlen_zdrop offset file Ho). rewrite !ztake_all by lia. done.
    + destruct (sys_pread_some file (offset + zlen buf) k) as (r & -> & Hr); [pose proof (zlen_nonneg buf); lia|done|].
      destruct (Z.eqb_spec r 0); [lia|].
      assert (zlen (ztake r (zdrop (offset + zlen buf) file)) = r) as Hlr.
      { pose proof (zlen_nonneg buf). rewrite zlen_ztake, zlen_zdrop; lia. }
      apply IH; [lia|rewrite zlen_app; lia| |rewrite zlen_app; lia|lia|rewrite zlen_app; lia].
      replace (len - (k - r)) with (len - k + r) by lia.
      rewrite ztake_plus, zdrop_zdrop, <-Hb, <-Hz by (pose proof (zlen_nonneg buf); lia). done.
  - assert (k = 0) as -> by lia. rewrite Z.sub_0_r in *.
    destruct (Z.ltb_spec (zlen file - offset) len); [lia|]. by rewrite Hb.
Qed.

(** Whatever the system returns at each call, [pread] reads all there is, up
    to [len] bytes. *)
Lemma pread_some file offset len :
  0 <= offset < zlen file -> 0 <= len ->
  pread file offset len =
    Some (ReadSome (ztake len (zdrop offset file)) (zlen file - offset <? len)).
Proof.
  intros Ho Hl. unfold pread. rewrite (pread_loop file offset len len []); [done|lia|lia| | | |left; lia|].
  - rewrite zlen_nil. lia.
  - by rewrite Z.sub_diag, ztake_0.
  - rewrite zlen_nil. lia.
  - rewrite zlen_nil. unfold zlen. lia.
Qed.

Lemma pread_zero file offset : pread file offset 0 = Some (ReadSome [] false).
Proof. unfold pread. by rewrite loop_n_S. Qed.

Lemma pread_eof file offset len :
  zlen file <= offset -> 0 < len -> pread file offset len = Some ReadEmpty.
Proof.
  intros Ho Hl. unfold pread. rewrite loop_n_S. unfold pread_step at 1. case_ltb; [|lia].
  rewrite sys_pread_eof by (rewrite zlen_nil; lia). done.
Qed.

Lemma read_bytes_ok file pos e n :
  0 <= pos -> 0 <= n -> pos + n <= zlen file -> pos + n < 2 ^ 32 ->
  read_bytes n (MkFBI file pos e) = (Ok (Some (ztake n (zdrop pos file))), MkFBI file (pos + n) false).
Proof.
  intros Hp Hn Hl Hw. unfold read_bytes. erewrite bind_ok by done. cbn [fbi_file fbi_pos].
  rewrite wrap_u_id by (unfold in_u; lia). destruct (Z.eq_dec n 0) as [->|Hne].
  - rewrite pread_zero, ztake_0. done.
  - rewrite pread_some by lia. destruct (Z.ltb_spec (zlen file - pos) n); [lia|]. done.
Qed.

Lemma read_bytes_short file pos e n :
  0 <= pos < zlen file -> zlen file < pos + n ->
  read_bytes n (MkFBI file pos e) = (Ok (Some (zdrop pos file)), MkFBI file (as_u32 (pos + n)) true).
Proof.
  intros Hp Hl. unfold read_bytes. erewrite bind_ok by done. cbn [fbi_file fbi_pos].
  rewrite pread_some by lia. destruct (Z.ltb_spec (zlen file - pos) n); [|lia].
  rewrite ztake_all by (rewrite zlen_zdrop; lia). done.
Qed.

Lemma read_bytes_eof file pos e n :
  zlen file <= pos -> 0 < n -> read_bytes n (MkFBI file pos e) = (Ok None, MkFBI file pos true).
Proof.
  intros Hp Hn. unfold read_bytes. erewrite bind_ok by done. cbn [fbi_file fbi_pos].
  by rewrite pread_eof.
Qed.
End read_laws.

(** ** Reading batches *)

Section batch_reads.
Context `{PReadOK}.
Context (crc32c : list byte -> Z) (crc32c_u32 : forall bs, in_u 32 (crc32c bs)).
Context {R : Type} (c : Codec R) `{!RecordsOK c}.
Implicit Types b : Batch R.

(** What the header stream gives for a stored batch. *)
Definition header_of b : Batch unit :=
  MkBatch (base_offset b) (calc_batch_len c b) (header (sealed crc32c c b)) SCHEMA_ID_NULL tt.

Lemma decode_buf_preamble b :
  valid_batch c b ->
  decode_buf (decode_from_file_buf 0) (batch_default codec_empty) (wire_preamble crc32c c b)
  = Ok (header_of b).
Proof.
  intros Hv. unfold decode_buf. rewrite <-(app_nil_r (wire_preamble crc32c c b)).
  rewrite (reads_batch_preamble crc32c crc32c_u32 c 0 b (batch_default codec_empty) Hv []); [done|].
  rewrite app_nil_r, zlen_wire_preamble. vm_compute. discriminate.
Qed.

(** The bytes of a batch after its header. *)
Definition content b : list byte := wire_schema b ++ rwire c (records b).

Lemma zlen_content b :
  valid_batch c b ->
  zlen (content b) = calc_batch_len c b - BATCH_HEADER_SIZE /\ 0 <= zlen (content b) < 2 ^ 31.
Proof.
  intros Hv. rewrite (calc_batch_len_eq c b Hv). pose proof Hv as (_ & _ & _ & _ & _ & Hl).
  unfold content. rewrite zlen_app, zlen_wire_schema. pose proof (zlen_nonneg (rwire c (records b))).
  unfold BATCH_HEADER_SIZE, SCHEMA_ID_SIZE in *. destruct (has_schema _); lia.
Qed.

Lemma content_len_eq b :
  valid_batch c b ->
  wrap_u 64 (as_usize (batch_len (header_of b)) - BATCH_HEADER_SIZE) = zlen (content b).
Proof.
  intros Hv. destruct (zlen_content b Hv) as [E Hb]. cbn [batch_len header_of].
  replace (calc_batch_len c b) with (zlen (content b) + BATCH_HEADER_SIZE) by lia.
  unfold BATCH_HEADER_SIZE in *. rewrite (wrap_u_id 64 (zlen (content b) + _)) by (unfold in_u; lia).
  rewrite Z.add_simpl_r. apply wrap_u_id. unfold in_u. lia.
Qed.

Lemma wire_batch_content b : wire_batch crc32c c b = wire_preamble crc32c c b ++ content b.
Proof. apply wire_batch_split. Qed.

Lemma zdrop_bound {A} pos (l m n : list A) :
  0 <= pos -> zdrop pos l = m ++ n -> m <> [] -> pos + zlen m <= zlen l.
Proof.
  intros Hp E Hm. apply zlen_pos in Hm. apply (f_equal zlen) in E.
  rewrite zlen_zdrop, zlen_app in E by done. pose proof (zlen_nonneg n). lia.
Qed.

Lemma zdrop_app_zdrop {A} pos (l m n : list A) :
  0 <= pos -> zdrop pos l = m ++ n -> zdrop (pos + zlen m) l = n.
Proof.
  intros Hp E. rewrite <-zdrop_zdrop, E by (done || apply zlen_nonneg). by apply zdrop_app_exact.
Qed.

Lemma wire_preamble_nonempty b : wire_preamble crc32c c b <> [].
Proof.
  intros E. pose proof (zlen_wire_preamble crc32c c b) as Hz. rewrite E in Hz. discriminate.
Qed.

Lemma read_from_wire file pos e b post :
  valid_batch c b -> 0 <= pos -> zlen file < 2 ^ 32 ->
  zdrop pos file = wire_batch crc32c c b ++ post ->
  read_from codec_empty (MkFBI file pos e) =
    (Ok (Some (header_of b, pos)), MkFBI file (pos + zlen (wire_batch crc32c c b)) false).
Proof.
  intros Hv Hp Hl E. rewrite wire_batch_content in *. rewrite <-app_assoc in E.
  pose proof (zdrop_bound _ _ _ _ Hp E (wire_preamble_nonempty b)) as Hb1.
  rewrite zlen_app, zlen_wire_preamble in *. unfold read_from. erewrite bind_ok by done.
  rewrite (wrap_u_id 32 BATCH_FILE_HEADER_SIZE) by done.
  erewrite bind_ok by (apply read_bytes_ok; [done|done|done|lia]).
  rewrite E, ztake_app_exact by (by rewrite zlen_wire_preamble).
  rewrite zlen_wire_preamble, Z.ltb_irrefl.
  erewrite bind_ok by (unfold lift; rewrite decode_buf_preamble by done; done).
  cbv zeta. rewrite content_len_eq by done. pose proof (zlen_content b Hv) as [_ Hc].
  rewrite (wrap_u_id 32 (zlen (content b))) by (unfold in_u; lia).
  apply zdrop_app_zdrop in E; [|done]. rewrite zlen_wire_preamble in E.
  assert (0 <= pos + BATCH_FILE_HEADER_SIZE) as Hp' by (unfold BATCH_FILE_HEADER_SIZE,
    BATCH_PREAMBLE_SIZE, BATCH_HEADER_SIZE; lia).
  assert (pos + BATCH_FILE_HEADER_SIZE + zlen (content b) <= zlen file) as Hb2.
  { apply (f_equal zlen) in E. rewrite zlen_zdrop, zlen_app in E by done.
    pose proof (zlen_nonneg post). lia. }
  erewrite bind_ok by (apply read_bytes_ok; [done|lia|done|lia]).
  rewrite E, ztake_app_exact, Z.ltb_irrefl by done. erewrite bind_ok by done.
  cbn. by rewrite Z.add_assoc.
Qed.

Lemma try_next_wire file pos e b post :
  valid_batch c b -> 0 <= pos -> zlen file < 2 ^ 32 ->
  zdrop pos file = wire_batch crc32c c b ++ post ->
  try_next codec_empty (MkStream false (MkFBI file pos e)) =
    (Ok (Some (header_of b, pos)),
     MkStream false (MkFBI file (pos + zlen (wire_batch crc32c c b)) false)).
Proof.
  intros. unfold try_next. cbn [stream_invalid byte_iterator]. by erewrite read_from_wire.
Qed.

Lemma try_next_eof {R'} (c' : Codec R') file pos e :
  zlen file <= pos ->
  try_next c' (MkStream false (MkFBI file pos e)) = (Ok None, MkStream false (MkFBI file pos true)).
Proof.
  intros Hp. unfold try_next. cbn [stream_invalid byte_iterator]. unfold read_from.
  erewrite bind_ok by done. by erewrite bind_ok by (apply read_bytes_eof; done).
Qed.

(** A batch cut short is an error the validation can recover from. *)
Lemma try_next_truncated file pos e b t t' :
  valid_batch c b -> 0 <= pos -> zlen file < 2 ^ 32 -> zdrop pos file = t ->
  t ++ t' = wire_batch crc32c c b -> t <> [] -> t' <> [] ->
  exists err st, try_next codec_empty (MkStream false (MkFBI file pos e)) = (Err (SBatchHeader err), st).
Proof.
  intros Hv Hp Hl Et E Hne Hne'. rewrite wire_batch_content in E.
  apply zlen_pos in Hne. apply zlen_pos in Hne'.
  assert (zlen t = zlen file - pos) as Hz.
  { rewrite <-Et, zlen_zdrop by done. rewrite <-Et, zlen_zdrop in Hne by done. lia. }
  pose proof (zlen_wire_preamble crc32c c b) as HP.
  unfold try_next. cbn [stream_invalid byte_iterator]. unfold read_from.
  erewrite bind_ok by done. rewrite (wrap_u_id 32 BATCH_FILE_HEADER_SIZE) by done.
  destruct (Z.lt_ge_cases (zlen t) BATCH_FILE_HEADER_SIZE) as [Hs|Hs].
  - erewrite bind_ok by (apply read_bytes_short; lia). rewrite Et. case_ltb; [|lia].
    unfold fail. eauto.
  - apply app_split_le in E as (u & -> & E); [|lia]. rewrite zlen_app in *.
    erewrite bind_ok by (apply read_bytes_ok; [done|done|lia|lia]).
    rewrite Et, ztake_app_exact by done. rewrite HP, Z.ltb_irrefl.
    erewrite bind_ok by (unfold lift; rewrite decode_buf_preamble by done; done).
    cbv zeta. rewrite content_len_eq by done. pose proof (zlen_content b Hv) as [_ Hc].
    rewrite (wrap_u_id 32 (zlen (content b))) by (unfold in_u; lia).
    assert (zlen u < zlen (content b)) as Hu by (rewrite E, zlen_app; lia).
    apply zdrop_app_zdrop in Et; [|done]. rewrite HP in Et.
    destruct (Z.eq_dec (zlen u) 0) as [Hu0|Hu0].
    + erewrite bind_ok by (apply read_bytes_eof; lia). unfold fail. eauto.
    + pose proof (zlen_nonneg u). assert (0 <= BATCH_FILE_HEADER_SIZE) by done.
      erewrite bind_ok by (apply read_bytes_short; lia). rewrite Et. case_ltb; [|lia].
      unfold fail. eauto.
Qed.
End batch_reads.

(** ** Well-formed logs

    A log is the concatenation of its batches; each batch starts at the offset
    after the last one of the batch before. *)

Section logs.
Context (crc32c : list byte -> Z) (crc32c_u32 : forall bs, in_u 32 (crc32c bs)).
Context {R : Type} (c : Codec R) `{!RecordsOK c}.
Implicit Types (b : Batch R) (bs : list (Batch R)).

(** The offset after the batches [bs] that start at [o]. *)
Fixpoint end_from (o : Z) (bs : list (Batch R)) : Z :=
  match bs with
  | [] => o
  | b :: bs => end_from (o + last_offset_delta (header b) + 1) bs
  end.

Fixpoint log_from (o : Z) (bs : list (Batch R)) : Prop :=
  match bs with
  | [] => True
  | b :: bs => base_offset b = o /\ 0 <= last_offset_delta (header b) /\ valid_batch c b /\
      log_from (o + last_offset_delta (header b) + 1) bs
  end.

Lemma end_from_app o bs bs' : end_from o (bs ++ bs') = end_from (end_from o bs) bs'.
Proof. revert o. induction bs as [|b bs IH]; intros o; [done|]. apply IH. Qed.

Lemma log_from_app o bs bs' : log_from o (bs ++ bs') <-> log_from o bs /\ log_from (end_from o bs) bs'.
Proof.
  revert o. induction bs as [|b bs IH]; intros o; cbn; [tauto|]. rewrite IH. tauto.
Qed.

Lemma end_from_ge o bs : log_from o bs -> o + zlen bs <= end_from o bs.
Proof.
  revert o. induction bs as [|b bs IH]; intros o Hl; cbn in *; [rewrite zlen_nil; lia|].
  destruct Hl as (_ & Hd & _ & Hl). specialize (IH _ Hl). rewrite zlen_cons. lia.
Qed.

Lemma log_from_valid o bs : log_from o bs -> Forall (valid_batch c) bs.
Proof.
  revert o. induction bs as [|b bs IH]; intros o Hl; [by constructor|].
  destruct Hl as (_ & _ & Hv & Hl). constructor; eauto.
Qed.

(** Where the [i]-th batch of the log is. *)
Definition offset_at (o : Z) bs (i : nat) : Z := end_from o (take i bs).
Definition pos_at bs (i : nat) : Z := zlen (wire_batches crc32c c (take i bs)).

Lemma offset_at_all o bs : offset_at o bs (length bs) = end_from o bs.
Proof. unfold offset_at. by rewrite firstn_all. Qed.

Lemma pos_at_all bs : pos_at bs (length bs) = zlen (wire_batches crc32c c bs).
Proof. unfold pos_at. by rewrite firstn_all. Qed.

Lemma offset_at_S o bs i b :
  bs !! i = Some b -> offset_at o bs (S i) = offset_at o bs i + last_offset_delta (header b) + 1.
Proof. intros Hb. unfold offset_at. by rewrite (take_S_r _ _ _ Hb), end_from_app. Qed.

Lemma pos_at_S bs i b :
  bs !! i = Some b -> pos_at bs (S i) = pos_at bs i + zlen (wire_batch crc32c c b).
Proof.
  intros Hb. unfold pos_at. rewrite (take_S_r _ _ _ Hb), wire_batches_app, zlen_app.
  f_equal. unfold wire_batches. cbn. by rewrite app_nil_r.
Qed.

Lemma log_from_lookup o bs i b :
  log_from o bs -> bs !! i = Some b ->
  base_offset b = offset_at o bs i /\ valid_batch c b /\ 0 <= last_offset_delta (header b).
Proof.
  intros Hl Hb. rewrite <-(take_drop_middle bs i b Hb), log_from_app in Hl.
  destruct Hl as [_ (Ho & Hd & Hv & _)]. done.
Qed.

Lemma offset_at_mono o bs i j :
  log_from o bs -> (i < j <= length bs)%nat -> offset_at o bs i < offset_at o bs j.
Proof.
  intros Hl [Hij Hj]. induction Hij as [|j Hij IH].
  - destruct (lookup_lt_is_Some_2 bs i Hj) as [b Hb]. rewrite (offset_at_S _ _ _ _ Hb).
    destruct (log_from_lookup _ _ _ _ Hl Hb) as (_ & _ & Hd). lia.
  - destruct (lookup_lt_is_Some_2 bs j Hj) as [b Hb]. rewrite (offset_at_S _ _ _ _ Hb).
    destruct (log_from_lookup _ _ _ _ Hl Hb) as (_ & _ & Hd). specialize (IH ltac:(lia)). lia.
Qed.

Lemma offset_at_bounds o bs i :
  log_from o bs -> (i <= length bs)%nat -> o + Z.of_nat i <= offset_at o bs i <= end_from o bs.
Proof.
  intros Hl Hi. split.
  - unfold offset_at. rewrite <-(take_drop i bs) in Hl. apply log_from_app in Hl as [Hl _].
    pose proof (end_from_ge _ _ Hl) as Hg. unfold zlen in Hg. rewrite length_take in Hg. lia.
  - rewrite <-offset_at_all. destruct (decide (i = length bs)) as [->|]; [done|].
    pose proof (offset_at_mono o bs i (length bs) Hl ltac:(lia)). lia.
Qed.

(** The bytes of the log from its [i]-th batch on. *)
Lemma zdrop_pos_at bs tail i :
  zdrop (pos_at bs i) (wire_batches crc32c c bs ++ tail) =
  wire_batches crc32c c (drop i bs) ++ tail.
Proof.
  rewrite <-(take_drop i bs) at 2. rewrite wire_batches_app, <-app_assoc. by apply zdrop_app_exact.
Qed.

Lemma pos_at_nonneg bs i : 0 <= pos_at bs i.
Proof. apply zlen_nonneg. Qed.

Lemma pos_at_le bs i : pos_at bs i <= zlen (wire_batches crc32c c bs).
Proof.
  rewrite <-(take_drop i bs) at 2. rewrite wire_batches_app, zlen_app. unfold pos_at.
  pose proof (zlen_nonneg (wire_batches crc32c c (drop i bs))). lia.
Qed.

(** An index entry is sound when it points at a batch of the log. *)
Definition entry_sound (o : Z) bs (e : Entry) : Prop :=
  exists i, (i < length bs)%nat /\ e = (offset_at o bs i - o, pos_at bs i).

Definition index_sound (o : Z) bs (es : list Entry) : Prop := Forall (entry_sound o bs) es.
End logs.

(** ** Validation of a well-formed log *)

Lemma index_lookup_in es offset e : index_lookup es offset = Some e -> e ∈ es.
Proof.
  unfold index_lookup. intros Hl. apply last_Some in Hl as [l Hl].
  assert (e ∈ List.filter (fun e => fst e <=? offset) es) as Hin
    by (rewrite Hl; apply elem_of_app; right; by left).
  apply list_elem_of_In in Hin. apply List.filter_In in Hin as [Hin _]. by apply list_elem_of_In.
Qed.

Section validate_laws.
Context `{PReadOK} {I : Type} `{IndexOK I}.
Context (crc32c : list byte -> Z) (crc32c_u32 : forall bs, in_u 32 (crc32c bs)).
Context {R : Type} (c : Codec R) `{!RecordsOK c}.
Context (idx : I) (es : list Entry) (o : Z) (bs : list (Batch R)) (tail : list byte).
Context (Hidx : index_holds idx es) (Hsound : index_sound crc32c c o bs es).
Context (Hlog : log_from c o bs) (Ho : 0 <= o) (Hend : end_from o bs < 2 ^ 63).
Context (Hrel : end_from o bs - o < 2 ^ 32).
Context (Hfile : zlen (wire_batches crc32c c bs ++ tail) < 2 ^ 32).

Notation file := (wire_batches crc32c c bs ++ tail).

Lemma check_index_sound i b :
  bs !! i = Some b -> check_index (Some idx) o (base_offset b) (pos_at crc32c c bs i) = Ok None.
Proof.
  intros Hb. pose proof (lookup_lt_Some _ _ _ Hb) as Hi.
  destruct (log_from_lookup c o bs i b Hlog Hb) as (-> & _ & _).
  pose proof (offset_at_bounds c o bs i Hlog ltac:(lia)) as Hoff.
  unfold check_index. rewrite (wrap_i_id 64) by (unfold in_i; lia).
  rewrite (wrap_u_id 32) by (unfold in_u; lia).
  rewrite (find_offset_lookup idx es _ Hidx).
  destruct (index_lookup es (offset_at o bs i - o)) as [[off p]|] eqn:E; [|done].
  apply index_lookup_in in E. apply (proj1 (Forall_forall _ _) Hsound) in E as (j & Hj & [= -> ->]).
  destruct (Z.eqb_spec (offset_at o bs j - o) (offset_at o bs i - o)) as [Eo|]; [|done].
  destruct (Nat.lt_trichotomy i j) as [Hlt|[->|Hlt]].
  - pose proof (offset_at_mono c o bs i j Hlog ltac:(lia)). lia.
  - by rewrite Z.eqb_refl.
  - pose proof (offset_at_mono c o bs j i Hlog ltac:(lia)). lia.
Qed.

(** The validator after the first [i] batches. *)
Definition val_at (i : nat) : LogValidator :=
  MkLogValidator o (Z.of_nat i)
    (match i with O => -1 | _ => offset_at o bs i - 1 end)
    (match i with O => 0 | S j => pos_at crc32c c bs j end)
    (pos_at crc32c c bs i) None None.

Lemma length_bs_bound : Z.of_nat (length bs) < 2 ^ 32.
Proof.
  pose proof (zlen_wire_batches_min crc32c c bs) as Hm. rewrite zlen_app in Hfile.
  pose proof (zlen_nonneg tail). unfold zlen in *. lia.
Qed.

Lemma validate_step_batch i b e :
  bs !! i = Some b ->
  validate_step codec_empty (Some idx) (val_at i, MkStream false (MkFBI file (pos_at crc32c c bs i) e))
  = inl (val_at (S i), MkStream false (MkFBI file (pos_at crc32c c bs (S i)) false)).
Proof.
  intros Hb. pose proof (lookup_lt_Some _ _ _ Hb) as Hi.
  destruct (log_from_lookup c o bs i b Hlog Hb) as (Eb & Hv & Hd).
  pose proof (offset_at_bounds c o bs i Hlog ltac:(lia)) as Hoff.
  pose proof (offset_at_bounds c o bs (S i) Hlog ltac:(lia)) as HoffS.
  rewrite (offset_at_S o bs i b Hb) in HoffS.
  unfold validate_step. rewrite (try_next_wire crc32c crc32c_u32 c file _ e b
    (wire_batches crc32c c (drop (S i) bs) ++ tail)); [|done|apply pos_at_nonneg|done|].
  2:{ rewrite zdrop_pos_at, (drop_S _ _ _ Hb), wire_batches_cons, <-app_assoc. done. }
  cbn [base_offset header_of val_base_offset val_at index_error].
  destruct (Z.ltb_spec (base_offset b) o) as [|_]; [lia|].
  rewrite check_index_sound by done. rewrite <-pos_at_S by done. f_equal. f_equal.
  unfold val_at, stream_pos. cbn [byte_iterator fbi_pos val_batches val_error].
  rewrite (offset_at_S o bs i b Hb). f_equal.
  - rewrite wrap_u_id; [lia|]. pose proof length_bs_bound. unfold in_u. lia.
  - change (last_offset_delta (header (header_of crc32c c b))) with (last_offset_delta (header b)).
    rewrite Eb, wrap_i_id; [lia..|]. unfold in_i. lia.
Qed.

Lemma validate_loop n i e k :
  (i + n = length bs)%nat ->
  exists e', loop_n (n + k) (validate_step codec_empty (Some idx))
      (val_at i, MkStream false (MkFBI file (pos_at crc32c c bs i) e)) =
    loop_n k (validate_step codec_empty (Some idx))
      (val_at (length bs), MkStream false (MkFBI file (zlen (wire_batches crc32c c bs)) e')).
Proof.
  revert i e. induction n as [|n IH]; intros i e Hi.
  - exists e. replace i with (length bs) by lia. by rewrite pos_at_all.
  - destruct (lookup_lt_is_Some_2 bs i ltac:(lia)) as [b Hb].
    destruct (IH (S i) false ltac:(lia)) as [e' IH']. exists e'.
    cbn [Nat.add]. by rewrite loop_n_S, (validate_step_batch i b e Hb).
Qed.

Lemma leo_val_at : leo (val_at (length bs)) = end_from o bs.
Proof.
  unfold leo, val_at. cbn [last_valid_offset val_base_offset]. rewrite <-offset_at_all.
  pose proof (offset_at_bounds c o bs (length bs) Hlog ltac:(lia)) as Hb.
  destruct (length bs) as [|n]; [done|]. destruct (Z.eqb_spec (offset_at o bs (S n) - 1) (-1)) as [E|_]; [lia|].
  rewrite wrap_i_id; [lia..|]. unfold in_i. lia.
Qed.

(** What the loop does after the complete batches decides the result. *)
Lemma validate_prefix (P : sresult unit * LogValidator -> Prop) :
  (forall e, exists r, validate_step codec_empty (Some idx)
     (val_at (length bs), MkStream false (MkFBI file (zlen (wire_batches crc32c c bs)) e)) = inr r /\ P r) ->
  P (validate_with_stream codec_empty (Some idx) (stream_open file) (val_at 0)).
Proof.
  intros Hr. unfold validate_with_stream. cbn [byte_iterator fbi_file stream_open fbi_from_file].
  destruct (validate_loop (length bs) 0 false 1 ltac:(lia)) as [e' E].
  destruct (Hr e') as (r & Er & HP). rewrite loop_n_S, Er in E.
  change (pos_at crc32c c bs 0) with 0 in E.
  erewrite (loop_n_mono (length bs + 1) _ _ _ r); [done|exact E|].
  pose proof (zlen_wire_batches_min crc32c c bs) as Hm. rewrite length_app. unfold zlen in Hm. lia.
Qed.

Lemma validate_complete :
  tail = [] -> default_validate o file (Some idx) = Ok (val_at (length bs)).
Proof.
  intros Et. unfold default_validate, validate_core. change (MkLogValidator o 0 (-1) 0 0 None None) with (val_at 0).
  assert (validate_with_stream codec_empty (Some idx) (stream_open file) (val_at 0)
          = (Ok tt, val_at (length bs))) as ->; [|done].
  apply validate_prefix. intros e. eexists. split; [|done].
  unfold validate_step. rewrite try_next_eof; [done|]. by rewrite Et, app_nil_r.
Qed.

Lemma validate_truncated b t' :
  valid_batch c b -> tail ++ t' = wire_batch crc32c c b -> tail <> [] -> t' <> [] ->
  exists err, default_validate o file (Some idx) =
    Ok (set_val_error (BatchDecoding err) (val_at (length bs))).
Proof.
  intros Hv Et Hne Hne'. unfold default_validate, validate_core.
  change (MkLogValidator o 0 (-1) 0 0 None None) with (val_at 0).
  assert (exists err, validate_with_stream codec_empty (Some idx) (stream_open file) (val_at 0)
          = (Err (SBatchHeader err), val_at (length bs))) as [err ->]; [|by exists err].
  apply validate_prefix. intros e.
  destruct (try_next_truncated crc32c crc32c_u32 c file (zlen (wire_batches crc32c c bs)) e b tail t')
    as (err & st & E); [done|apply zlen_nonneg|done|by apply zdrop_app_exact|done..|].
  eexists. split; [|by exists err]. unfold validate_step. by rewrite E.
Qed.
End validate_laws.

(** ** Appending *)

Section append_laws.
Context (crc32c : list byte -> Z) (crc32c_u32 : forall bs, in_u 32 (crc32c bs)).
Context {R : Type} (c : Codec R) `{!RecordsOK c}.
Implicit Types b : Batch R.

Lemma zlen_wire_batch_max b : valid_batch c b -> zlen (wire_batch crc32c c b) < 2 ^ 31 + 12.
Proof.
  intros Hv. pose proof (zlen_content c b Hv) as [E Hb]. pose proof (calc_batch_len_eq c b Hv) as Ec.
  pose proof Hv as (_ & _ & _ & _ & _ & Hl). rewrite zlen_wire_batch.
  unfold BATCH_FILE_HEADER_SIZE, BATCH_PREAMBLE_SIZE, BATCH_HEADER_SIZE, SCHEMA_ID_SIZE in *.
  destruct (has_schema _); lia.
Qed.

Lemma encode_to_vec_wire b :
  valid_batch c b -> encode_to_vec crc32c c b = Ok (wire_batch crc32c c b).
Proof.
  intros Hv. unfold encode_to_vec. rewrite (encode_batch_emits crc32c crc32c_u32 c 0 b Hv); [done|].
  pose proof (zlen_wire_batch_max b Hv). cbn [remaining_mut vec_new]. unfold isize_max. lia.
Qed.

(** [write_size] leaves the schema id out. *)
Lemma write_size_batch_eq b :
  valid_batch c b ->
  write_size_batch c 0 b =
    zlen (wire_batch crc32c c b) - (if has_schema (header b) then SCHEMA_ID_SIZE else 0).
Proof.
  intros Hv. pose proof Hv as (_ & _ & _ & _ & Hr & _). unfold write_size_batch.
  rewrite (rwire_size 0) by done. rewrite zlen_wire_batch. destruct (has_schema _); lia.
Qed.

Lemma write_batch_appends mr b :
  valid_batch c b -> has_schema (header b) = false -> mr_base_offset mr <= base_offset b ->
  mr_len mr = zlen (mr_file mr) -> mr_max_len mr < 2 ^ 32 ->
  zlen (mr_file mr) + zlen (wire_batch crc32c c b) <= mr_max_len mr ->
  let len := zlen (wire_batch crc32c c b) in
  write_batch crc32c c b mr =
    (Ok (true, len, mr_len mr + len),
     mut_records_flush (mut_records_append (wire_batch crc32c c b) len mr)).
Proof.
  intros Hv Hs Hb Hl Hm Hfit len. pose proof (write_size_batch_eq b Hv) as Hw.
  rewrite Hs, Z.sub_0_r in Hw. fold len in Hw, Hfit.
  pose proof (zlen_nonneg (wire_batch crc32c c b)) as Hn. fold len in Hn.
  pose proof (zlen_nonneg (mr_file mr)). assert (as_u32 len = len) as Hu by (apply wrap_u_id; unfold in_u; lia).
  unfold write_batch. erewrite bind_ok by done. case_ltb; [lia|].
  rewrite Hw, Hu. rewrite (wrap_u_id 32 (len + mr_len mr)) by (unfold in_u; lia). case_ltb; [lia|].
  erewrite bind_ok by (unfold lift; by rewrite encode_to_vec_wire).
  erewrite bind_ok by (apply assert_true, Z.eqb_eq; done).
  do 2 erewrite bind_ok by done. erewrite bind_ok by done. unfold mret, M_ret.
  cbn [mr_len mut_records_flush mut_records_append]. rewrite Hu.
  by rewrite (wrap_u_id 32 (mr_len mr + len)) by (unfold in_u; lia).
Qed.

Lemma write_batch_full mr b :
  valid_batch c b -> has_schema (header b) = false -> mr_base_offset mr <= base_offset b ->
  mr_len mr = zlen (mr_file mr) ->
  zlen (mr_file mr) + zlen (wire_batch crc32c c b) < 2 ^ 32 ->
  mr_max_len mr < zlen (mr_file mr) + zlen (wire_batch crc32c c b) ->
  write_batch crc32c c b mr = (Ok (false, zlen (wire_batch crc32c c b), mr_len mr), mr).
Proof.
  intros Hv Hs Hb Hl Hm Hfit. pose proof (write_size_batch_eq b Hv) as Hw. rewrite Hs, Z.sub_0_r in Hw.
  pose proof (zlen_nonneg (wire_batch crc32c c b)) as Hn. pose proof (zlen_nonneg (mr_file mr)).
  unfold write_batch. erewrite bind_ok by done. case_ltb; [lia|].
  rewrite Hw. rewrite (wrap_u_id 32 (zlen _)) by (unfold in_u; lia).
  rewrite wrap_u_id by (unfold in_u; lia). case_ltb; [done|lia].
Qed.

(** A batch that carries a schema id makes the write to the log panic, in
    the assertion that compares the encoded bytes with [write_size], which
    leaves the four bytes of the schema id out. *)
Theorem schema_batch_panics (mr : MutFileRecords) b :
  valid_batch c b -> has_schema (header b) = true -> mr_base_offset mr <= base_offset b ->
  mr_len mr = zlen (mr_file mr) ->
  zlen (mr_file mr) + zlen (wire_batch crc32c c b) <= mr_max_len mr < 2 ^ 32 ->
  write_batch crc32c c b mr = (Panic, mr).
Proof.
  intros Hv Hs Hb Hl Hfit. pose proof (write_size_batch_eq b Hv) as Hw. rewrite Hs in Hw.
  pose proof (zlen_nonneg (mr_file mr)). pose proof (zlen_wire_batch_min crc32c c b) as Hn.
  unfold BATCH_FILE_HEADER_SIZE, BATCH_PREAMBLE_SIZE, BATCH_HEADER_SIZE, SCHEMA_ID_SIZE in *.
  unfold write_batch. erewrite bind_ok by done. case_ltb; [lia|]. rewrite Hw.
  rewrite (wrap_u_id 32 (zlen _ - 4)) by (unfold in_u; lia).
  rewrite wrap_u_id by (unfold in_u; lia). case_ltb; [lia|].
  erewrite bind_ok by (unfold lift; by rewrite encode_to_vec_wire).
  erewrite bind_panic; [done|]. unfold assert_. case_ltb; [lia|done].
Qed.
End append_laws.

Definition example_schema_batch : Batch MemoryRecords :=
  set_schema_id 3 (batch_from example_records).

Lemma example_schema_batch_valid : valid_batch codec_memory example_schema_batch.
Proof.
  split; [split; vm_compute; congruence|]. split; [repeat split; vm_compute; congruence|].
  split; [split; vm_compute; congruence|]. split; [intros E; vm_compute in E; discriminate|].
  split; [apply example_records_valid|vm_compute; reflexivity].
Qed.

Lemma schema_batch_panics_witness :
  write_batch sum32 codec_memory example_schema_batch (mut_records_create 0 small_config [])
  = (Panic, mut_records_create 0 small_config []).
Proof.
  apply (schema_batch_panics sum32 sum32_u32 codec_memory (mut_records_create 0 small_config [])
    example_schema_batch example_schema_batch_valid).
  - vm_compute. reflexivity.
  - vm_compute. discriminate.
  - vm_compute. reflexivity.
  - split; [vm_compute; discriminate|vm_compute; reflexivity].
Defined.
