(* ===== verification/StorageSegment.v ===== *)
(** * Segments

    [fluvio-storage/src/segment.rs] and [repair.rs]: a log file with its index,
    appending to the active segment, finding the batch that holds an offset,
    slicing the log for a reader, and recovery of a segment after a crash. *)

From S2P Require Import Prelude Wire Varint Utf8 Scalars Collections Records Batch RecordSet.
From S2P Require Import StorageIndex StorageLog.
From Stdlib Require Import Sorted.
From stdpp Require Import list strings.

#[local] Open Scope Z_scope.

(** ** Segments *)

(* src/crates/fluvio-storage/src/segment.rs:38-45 Segment *)
Record Segment (I L : Type) := MkSegment {
  seg_option : ReplicaConfig;
  msg_log : L;
  seg_index : I;
  seg_base_offset : Z;
  end_offset : Z;
}.
Arguments MkSegment {I L}.
Arguments seg_option {I L}.
Arguments msg_log {I L}.
Arguments seg_index {I L}.
Arguments seg_base_offset {I L}.
Arguments end_offset {I L}.

Notation MutableSegment := (Segment MutLogIndex MutFileRecords).
Notation ReadSegment := (Segment LogIndex FileRecordsSlice).

Definition set_msg_log {I L} (x : L) (s : Segment I L) : Segment I L :=
  MkSegment (seg_option s) x (seg_index s) (seg_base_offset s) (end_offset s).
Definition set_seg_index {I L} (x : I) (s : Segment I L) : Segment I L :=
  MkSegment (seg_option s) (msg_log s) x (seg_base_offset s) (end_offset s).
Definition set_end_offset {I L} x (s : Segment I L) :=
  MkSegment (seg_option s) (msg_log s) (seg_index s) (seg_base_offset s) x.

(** The errors of reads, of [fluvio_protocol::link::ErrorCode]. *)
Inductive ReadError :=
| ReadOther
| OffsetEvicted (offset next_available : Z).

Section segment.
Context `{PRead} {I L : Type} `{Index I} `{FileRecords L}.
Implicit Types self : Segment I L.

(** One turn of the [while let Some(batch_pos) = header_stream.try_next()]
    loop. *)
Definition find_batch_step (offset : Z) (stream : FileBatchStream)
    : FileBatchStream + sresult (option (Batch unit * Z)) :=
  match try_next codec_empty stream with
  | (Ok (Some (batch, pos)), stream) =>
      if offset <=? get_last_offset batch then inr (Ok (Some (batch, pos))) else inl stream
  | (Ok None, _) => inr (Ok None)
  | (Err e, _) => inr (Err e)
  | (Panic, _) => inr Panic
  end.
Definition find_batch (offset : Z) (stream : FileBatchStream) : sresult (option (Batch unit * Z)) :=
  match loop_n (S (length (fbi_file (byte_iterator stream)))) (find_batch_step offset) stream with
  | inr r => r
  | inl _ => Panic
  end.
(* src/crates/fluvio-storage/src/segment.rs:90-105 Segment::open_batch_header_stream *)
Definition open_batch_header_stream self (start_pos : Z) : FileBatchStream :=
  stream_set_absolute start_pos (stream_open (log_file (msg_log self))).
(* src/crates/fluvio-storage/src/segment.rs:180-228 Segment::find_offset_position *)
Definition find_offset_position self (offset : Z) : sresult (option (Batch unit * Z)) :=
  if offset <? seg_base_offset self then Ok None
  else if end_offset self <=? offset then Ok None
  else
    let delta := as_u32 (offset - seg_base_offset self) in
    match find_offset (seg_index self) delta with
    | Ok entry =>
        let position := match entry with None => 0 | Some entry => entry_position entry end in
        find_batch offset (open_batch_header_stream self position)
    | Err k => Err (SIo k)
    | Panic => Panic
    end.

Definition to_read_error {E A} (r : outcome E A) : outcome ReadError A :=
  map_err (fun _ => ReadOther) r.

Definition obind {E A B} (r : outcome E A) (f : A -> outcome E B) : outcome E B :=
  match r with Ok a => f a | Err e => Err e | Panic => Panic end.

(* src/crates/fluvio-storage/src/segment.rs:117-176 Segment::records_slice *)
Definition records_slice self (start_offset : Z) (max_offset_opt : option Z)
    : outcome ReadError (option FileSlice) :=
  obind (to_read_error (find_offset_position self start_offset)) (fun start_pos =>
    match start_pos with
    | None => Ok None
    | Some (_, pos) =>
        match max_offset_opt with
        | Some max_offset =>
            let effective_max_offset := Z.min max_offset (end_offset self) in
            if effective_max_offset =? end_offset self then
              obind (to_read_error (as_file_slice (msg_log self) pos)) (fun s => Ok (Some s))
            else
              obind (to_read_error (find_offset_position self effective_max_offset)) (fun end_pos =>
                match end_pos with
                | Some (_, end_pos) =>
                    obind (to_read_error
                      (as_file_slice_from_to (msg_log self) pos (as_u32 (end_pos - pos))))
                      (fun s => Ok (Some s))
                | None => Err ReadOther
                end)
        | None => obind (to_read_error (as_file_slice (msg_log self) pos)) (fun s => Ok (Some s))
        end
    end).
(* src/crates/fluvio-storage/src/segment.rs:230-232 Segment::occupied_memory *)
Definition occupied_memory self : Z := index_len (seg_index self) + log_len (msg_log self).
End segment.

(** ** Opening segments

    The content of the files is passed in; a missing file is empty. *)

Section open.
Context `{PRead} `{MemoryMap}.

(* src/crates/fluvio-storage/src/segment.rs:237-255 Segment::open_for_read *)
Definition open_for_read (base_offset end_offset : Z) (option : ReplicaConfig)
    (log : list byte) (index : list Entry) (modified : Z) : sresult ReadSegment :=
  let msg_log := records_slice_open base_offset log modified in
  obind (map_err SIo (log_index_open index)) (fun index =>
    Ok (MkSegment option msg_log index base_offset end_offset)).
(* src/crates/fluvio-storage/src/segment.rs:259-288 Segment::open_unknown *)
Definition open_unknown (base_offset : Z) (option : ReplicaConfig)
    (log : list byte) (index : list Entry) (modified : Z) : sresult ReadSegment :=
  let msg_log := records_slice_open base_offset log modified in
  obind (map_err SIo (log_index_open index)) (fun index =>
    obind (default_validate base_offset log (Some index)) (fun val =>
      match val_error val with
      | Some err => Err (SLogValidation err)
      | None => Ok (MkSegment option msg_log index base_offset (leo val))
      end)).
(* src/crates/fluvio-storage/src/segment.rs:308-324 Segment::create *)
Definition segment_create (base_offset : Z) (option : ReplicaConfig)
    (log : list byte) (index : list Entry) : sresult MutableSegment :=
  let msg_log := mut_records_create base_offset option log in
  obind (map_err SIo (mut_index_create base_offset option index)) (fun index =>
    Ok (MkSegment option msg_log index base_offset base_offset)).
(* src/crates/fluvio-storage/src/segment.rs:326-347 Segment::open_for_write *)
Definition open_for_write (base_offset : Z) (option : ReplicaConfig)
    (log : list byte) (index : list Entry) : sresult MutableSegment :=
  let msg_log := mut_records_create base_offset option log in
  obind (map_err SIo (mut_index_open base_offset option index)) (fun index =>
    Ok (MkSegment option msg_log index base_offset base_offset)).
(** The index file once the segment is closed. *)
(* src/crates/fluvio-storage/src/segment.rs:415-417 Segment::close *)
Definition close (self : MutableSegment) : list Entry := shrink (seg_index self).
(* src/crates/fluvio-storage/src/segment.rs:421-423 Segment::as_segment *)
Definition as_segment (self : MutableSegment) (modified : Z) : sresult ReadSegment :=
  open_for_read (seg_base_offset self) (end_offset self) (seg_option self)
    (mr_file (msg_log self)) (close self) modified.
(* src/crates/fluvio-storage/src/segment.rs:290-292 Segment::is_expired *)
Definition is_expired (now expired_duration : Z) (self : ReadSegment) : bool :=
  fs_is_expired now expired_duration (msg_log self).
End open.

(** ** Appending *)

Section append.
Context (crc32c : list byte -> Z) {R : Type} (c : Codec R).

(** The state is the segment and the batch, whose base offset is set. *)
(* src/crates/fluvio-storage/src/segment.rs:438-480 Segment::append_batch *)
Definition append_batch : SM (MutableSegment * Batch R) bool :=
  '(self, batch) ← get;
  if records_len batch =? 0 then fail EmptyBatch
  else
    let batch := set_base_offset (end_offset self) batch in
    put (self, batch) ;;
    let next_end_offset := get_last_offset batch in
    let relative_offset_in_segment := as_i32 (end_offset self - seg_base_offset self) in
    let start_file_pos := mut_records_pos (msg_log self) in
    '(write_success, batch_len, _) ←
      zoom (fun st => msg_log (fst st)) (fun l st => (set_msg_log l (fst st), snd st))
        (write_batch crc32c c batch);
    if write_success : bool then
      zoom (fun st => seg_index (fst st)) (fun i st => (set_seg_index i (fst st), snd st))
        (fun i => let '(r, i) := write_index (as_u32 relative_offset_in_segment) start_file_pos
                                   (as_u32 batch_len) i in (map_err SIo r, i)) ;;
      modify (fun st => (set_end_offset (as_i64 (next_end_offset + 1)) (fst st), snd st)) ;;
      mret true
    else mret false.
End append.

(** ** Repair *)

(* src/crates/fluvio-storage/src/repair.rs:25-41 RepairError *)
Inductive RepairError :=
| PositionPastEof (slot position log_size : Z)
| NonMonotonicOffset (slot offset prev_offset : Z)
| PositionMismatch (offset index_pos actual_pos : Z).

(* src/crates/fluvio-storage/src/repair.rs:14-21 RepairReport *)
Record RepairReport := MkRepairReport {
  rr_base_offset : Z;
  batches_found : Z;
  index_entries_before : Z;
  index_entries_after : Z;
  rr_errors : list RepairError;
}.

(** The entries of [index_entries] from slot [slot] on, the last offset seen. *)
Fixpoint validate_index_from (slot prev_offset : Z) (index_entries : list Entry)
    (log_batches : list (Z * Z)) (log_size : Z) : list RepairError :=
  match index_entries with
  | [] => []
  | (offset, position) :: index_entries =>
      if (offset =? 0) && (position =? 0) then []
      else
        (if log_size <? position then [PositionPastEof slot position log_size] else []) ++
        (if (0 <? slot) && (offset <? prev_offset) then [NonMonotonicOffset slot offset prev_offset]
         else []) ++
        (if existsb (fun '(_, pos) => pos =? position) log_batches then []
         else
           let actual_pos :=
             match List.find (fun '(o, _) => as_u32 o =? offset) log_batches with
             | Some (_, p) => p
             | None => 0
             end in
           [PositionMismatch offset position actual_pos]) ++
        validate_index_from (slot + 1) offset index_entries log_batches log_size
  end.
(* src/crates/fluvio-storage/src/repair.rs:60-110 validate_index *)
Definition validate_index (index_entries : list Entry) (log_batches : list (Z * Z)) (log_size : Z)
    : list RepairError :=
  validate_index_from 0 0 index_entries log_batches log_size.

Section repair.
Context `{PRead} `{MemoryMap}.

Definition scan_step (st : list (Z * Z) * FileBatchStream)
    : list (Z * Z) * FileBatchStream + sresult (list (Z * Z)) :=
  let '(entries, stream) := st in
  match try_next codec_empty stream with
  | (Ok (Some (batch, pos)), stream) => inl (entries ++ [(base_offset batch, pos)], stream)
  | (Ok None, _) => inr (Ok entries)
  | (Err e, _) => inr (Err e)
  | (Panic, _) => inr Panic
  end.
(* src/crates/fluvio-storage/src/repair.rs:44-53 scan_log_batches *)
Definition scan_log_batches (file : list byte) : sresult (list (Z * Z)) :=
  match loop_n (S (length file)) scan_step ([], stream_open file) with
  | inr r => r
  | inl _ => Panic
  end.

(** [for (batch_offset, batch_pos) in log_batches]; the state is the index and
    the position of the batch before. *)
Definition rebuild_one (base_offset : Z) (config : ReplicaConfig) (batch : Z * Z)
    : M (MutLogIndex * Z) unit :=
  '(_, prev_pos) ← get;
  let '(batch_offset, batch_pos) := batch in
  let relative_offset := as_u32 (batch_offset - base_offset) in
  let batch_size :=
    if prev_pos <? batch_pos then batch_pos - prev_pos
    else as_u32 (index_max_interval_bytes config + 1) in
  zoom fst (fun i st => (i, snd st)) (write_index relative_offset batch_pos batch_size) ;;
  modify (fun st => (fst st, batch_pos)).
(** The number of entries and the index file. *)
(* src/crates/fluvio-storage/src/repair.rs:119-149 rebuild_index *)
Definition rebuild_index (base_offset : Z) (log_batches : list (Z * Z)) (config : ReplicaConfig)
    (old : list Entry) : sresult (Z * list Entry) :=
  obind (map_err SIo (mut_index_create base_offset config old)) (fun new_index =>
    match for_each (rebuild_one base_offset config) log_batches (new_index, 0) with
    | (Ok _, (new_index, _)) =>
        let entries_written := as_u32 (mut_index_len new_index / INDEX_ENTRY_SIZE) in
        Ok (entries_written, shrink new_index)
    | (Err k, _) => Err (SIo k)
    | (Panic, _) => Panic
    end).
(* src/crates/fluvio-storage/src/repair.rs:154-184 repair_index *)
Definition repair_index (log : list byte) (base_offset : Z) (config : ReplicaConfig)
    (old : list Entry) : sresult (RepairReport * list Entry) :=
  obind (scan_log_batches log) (fun log_batches =>
    let batches_found := as_u32 (zlen log_batches) in
    obind (rebuild_index base_offset log_batches config old) (fun '(entries_after, index) =>
      Ok (MkRepairReport base_offset batches_found 0 entries_after [], index))).

(** [self.msg_log.set_len(..)] when the end of the log cannot be decoded. *)
(* src/crates/fluvio-storage/src/segment.rs:359-379 Segment::validate_and_repair *)
Definition repair_log (validation : LogValidator) : SM MutableSegment unit :=
  match val_error validation with
  | None => mret tt
  | Some (BatchDecoding _) =>
      modify (fun self =>
        set_msg_log (mut_records_set_len (last_valid_file_pos validation) (msg_log self)) self)
  | Some err => fail (SLogValidation err)
  end.
(* src/crates/fluvio-storage/src/segment.rs:355-406 Segment::validate_and_repair *)
Definition validate_and_repair : SM MutableSegment Z :=
  self ← get;
  validation ← lift (default_validate (seg_base_offset self) (mr_file (msg_log self))
                       (Some (seg_index self)));
  repair_log validation ;;
  self ← get;
  (match index_error validation with
   | None => mret tt
   | Some _ =>
       '(_, index_file) ← lift (repair_index (mr_file (msg_log self)) (seg_base_offset self)
                                  (seg_option self) (mi_entries (seg_index self)));
       index ← lift (map_err SIo (mut_index_open (seg_base_offset self) (seg_option self) index_file));
       modify (set_seg_index index)
   end) ;;
  modify (set_end_offset (leo validation)) ;;
  mret (leo validation).
End repair.

(** ** Segments that hold a well-formed log *)

(** What a segment expects of its log. *)
Class FileRecordsOK (L : Type) `{FileRecords L} := {
  log_ok : L -> Prop;
  as_file_slice_ok l start :
    log_ok l -> 0 <= start <= zlen (log_file l) ->
    as_file_slice l start = Ok (MkFileSlice start (zlen (log_file l) - start));
  as_file_slice_from_to_ok l start len :
    log_ok l -> 0 <= len <= zlen (log_file l) ->
    as_file_slice_from_to l start len = Ok (MkFileSlice start len);
}.

#[local] Obligation Tactic := idtac.

#[export] Program Instance MutFileRecords_OK : FileRecordsOK MutFileRecords := {|
  log_ok l := mr_len l = zlen (mr_file l) /\ zlen (mr_file l) < 2 ^ 32 |}.
Next Obligation.
  intros l start [Hl Hb] Hs. cbn in *. unfold mut_as_file_slice. rewrite Hl.
  by rewrite wrap_u_id by (unfold in_u; lia).
Qed.
Next Obligation. done. Qed.

#[export] Program Instance FileRecordsSlice_OK : FileRecordsOK FileRecordsSlice := {|
  log_ok l := fs_len l = zlen (fs_file l) /\ zlen (fs_file l) < 2 ^ 64 |}.
Next Obligation.
  intros l start [Hl Hb] Hs. cbn in *. unfold fs_as_file_slice. rewrite Hl.
  by rewrite wrap_u_id by (unfold in_u; lia).
Qed.
Next Obligation.
  intros l start len [Hl Hb] Hs. cbn in *. unfold fs_as_file_slice_from_to. rewrite Hl.
  case_ltb; [lia|done].
Qed.

Lemma index_lookup_le es offset e : index_lookup es offset = Some e -> fst e <= offset.
Proof.
  unfold index_lookup. intros Hl. apply last_Some in Hl as [l Hl].
  assert (e ∈ List.filter (fun e => fst e <=? offset) es) as Hin
    by (rewrite Hl; apply elem_of_app; right; by left).
  apply list_elem_of_In in Hin. apply List.filter_In in Hin as [_ Hin]. by apply Z.leb_le.
Qed.

Section views.
Context `{PReadOK} {I L : Type} `{IndexOK I} `{FileRecordsOK L}.
Context (crc32c : list byte -> Z) (crc32c_u32 : forall bs, in_u 32 (crc32c bs)).
Context {R : Type} (c : Codec R) `{!RecordsOK c}.
Implicit Types (s : Segment I L) (bs : list (Batch R)).

(** The segment [s] stores the batches [bs] and indexes some of them. *)
Record seg_view s bs (es : list Entry) : Prop := {
  view_base : 0 <= seg_base_offset s;
  view_log : log_from c (seg_base_offset s) bs;
  view_file : log_file (msg_log s) = wire_batches crc32c c bs;
  view_log_ok : log_ok (msg_log s);
  view_end : end_offset s = end_from (seg_base_offset s) bs;
  view_end_bound : end_offset s < 2 ^ 63;
  view_rel_bound : end_offset s - seg_base_offset s < 2 ^ 32;
  view_size : zlen (wire_batches crc32c c bs) < 2 ^ 32;
  view_index : index_holds (seg_index s) es;
  view_sound : index_sound crc32c c (seg_base_offset s) bs es;
}.

(** The batch that holds an offset. *)
Lemma containing_batch o bs x :
  log_from c o bs -> o <= x < end_from o bs ->
  exists i b, bs !! i = Some b /\ offset_at o bs i <= x < offset_at o bs (S i).
Proof.
  revert o. induction bs as [|b bs IH]; intros o Hl Hx; cbn in *; [lia|].
  destruct Hl as (_ & Hd & _ & Hl).
  destruct (Z.lt_ge_cases x (o + last_offset_delta (header b) + 1)) as [Hlt|Hge].
  - exists 0%nat, b. split; [done|]. unfold offset_at. rewrite !take_0. cbn [end_from]. lia.
  - destruct (IH _ Hl ltac:(lia)) as (i & b' & Hb' & Hi). exists (S i), b'. done.
Qed.

Lemma last_offset_header o bs i b :
  log_from c o bs -> 0 <= o -> end_from o bs < 2 ^ 63 -> bs !! i = Some b ->
  get_last_offset (header_of crc32c c b) = offset_at o bs (S i) - 1.
Proof.
  intros Hl Ho He Hb. pose proof (lookup_lt_Some _ _ _ Hb) as Hi.
  destruct (log_from_lookup c o bs i b Hl Hb) as (Eb & _ & Hd).
  pose proof (offset_at_bounds c o bs (S i) Hl ltac:(lia)) as HS.
  pose proof (offset_at_bounds c o bs i Hl ltac:(lia)).
  rewrite (offset_at_S o bs i b Hb) in HS |- *.
  unfold get_last_offset, header_of. cbn. rewrite Eb, wrap_i_id; [lia..|]. unfold in_i. lia.
Qed.

Lemma find_batch_loop o bs x i b j e n :
  log_from c o bs -> 0 <= o -> end_from o bs < 2 ^ 63 -> zlen (wire_batches crc32c c bs) < 2 ^ 32 ->
  bs !! i = Some b -> offset_at o bs i <= x < offset_at o bs (S i) ->
  (j + n = i)%nat ->
  loop_n (S n) (find_batch_step x)
    (MkStream false (MkFBI (wire_batches crc32c c bs) (pos_at crc32c c bs j) e))
  = inr (Ok (Some (header_of crc32c c b, pos_at crc32c c bs i))).
Proof.
  intros Hl Ho He Hz Hb Hx. revert j e. induction n as [|n IH]; intros j e Hj;
    rewrite loop_n_S; unfold find_batch_step at 1.
  - replace j with i by lia.
    rewrite (try_next_wire crc32c crc32c_u32 c _ _ e b (wire_batches crc32c c (drop (S i) bs)));
      [|by eapply log_from_lookup|apply pos_at_nonneg|done|].
    2:{ rewrite <-(app_nil_r (wire_batches crc32c c bs)), zdrop_pos_at, app_nil_r.
        by rewrite (drop_S _ _ _ Hb), wire_batches_cons. }
    rewrite (last_offset_header o bs i b) by done. case_ltb; [done|lia].
  - pose proof (lookup_lt_Some _ _ _ Hb).
    destruct (lookup_lt_is_Some_2 bs j ltac:(lia)) as [b' Hb'].
    rewrite (try_next_wire crc32c crc32c_u32 c _ _ e b' (wire_batches crc32c c (drop (S j) bs)));
      [|by eapply log_from_lookup|apply pos_at_nonneg|done|].
    2:{ rewrite <-(app_nil_r (wire_batches crc32c c bs)), zdrop_pos_at, app_nil_r.
        by rewrite (drop_S _ _ _ Hb'), wire_batches_cons. }
    rewrite (last_offset_header o bs j b') by done.
    assert (offset_at o bs (S j) <= offset_at o bs i).
    { destruct (decide (S j = i)) as [->|]; [lia|].
      pose proof (offset_at_mono c o bs (S j) i Hl ltac:(lia)). lia. }
    case_ltb; [lia|]. rewrite <-(pos_at_S crc32c c bs j b' Hb'). apply IH. lia.
Qed.

(** The search through the index and then the batch headers ends at the batch
    that holds the offset. *)
Lemma find_offset_position_spec s bs es x :
  seg_view s bs es -> seg_base_offset s <= x < end_offset s ->
  exists i b, bs !! i = Some b /\
    offset_at (seg_base_offset s) bs i <= x < offset_at (seg_base_offset s) bs (S i) /\
    find_offset_position s x = Ok (Some (header_of crc32c c b, pos_at crc32c c bs i)).
Proof.
  intros [Vb Vl Vf Vo Ve Veb Vr Vs Vi Vsd] Hx. rewrite Ve in Hx, Veb.
  destruct (containing_batch _ _ x Vl Hx) as (i & b & Hb & Hi). exists i, b.
  split; [done|]. split; [done|]. unfold find_offset_position.
  case_ltb; [lia|]. rewrite Ve in *. case_ltb; [lia|].
  rewrite wrap_u_id by (unfold in_u; lia). rewrite (find_offset_lookup _ es _ Vi).
  assert (exists j, (j <= i)%nat /\ pos_at crc32c c bs j =
    match index_lookup es (x - seg_base_offset s) with None => 0 | Some e => entry_position e end)
    as (j & Hj & <-).
  { destruct (index_lookup es (x - seg_base_offset s)) as [e|] eqn:El.
    - pose proof (index_lookup_le _ _ _ El) as Hle. apply index_lookup_in in El.
      apply (proj1 (Forall_forall _ _) Vsd) in El as (j & Hj & ->). exists j. split; [|done]. cbn in Hle.
      destruct (le_gt_dec j i) as [|Hgt]; [done|]. exfalso.
      assert (offset_at (seg_base_offset s) bs (S i) <= offset_at (seg_base_offset s) bs j); [|lia].
      destruct (decide (S i = j)) as [->|]; [lia|].
      pose proof (offset_at_mono c (seg_base_offset s) bs (S i) j Vl ltac:(lia)). lia.
    - exists 0%nat. split; [lia|done]. }
  unfold find_batch, open_batch_header_stream, stream_set_absolute, stream_open, fbi_from_file.
  cbn [byte_iterator fbi_file fbi_set_absolute stream_invalid fbi_end]. rewrite Vf.
  unfold fbi_set_absolute. cbn [fbi_file fbi_end].
  erewrite (loop_n_mono (S (i - j))); [done|eapply find_batch_loop; try done; lia|].
  pose proof (zlen_wire_batches_min crc32c c bs) as Hm. unfold zlen in Hm.
  apply lookup_lt_Some in Hb. lia.
Qed.

Lemma slice_bytes_batches bs i j :
  (i <= j)%nat ->
  slice_bytes (wire_batches crc32c c bs)
    (MkFileSlice (pos_at crc32c c bs i) (pos_at crc32c c bs j - pos_at crc32c c bs i))
  = wire_batches crc32c c (take (j - i) (drop i bs)).
Proof.
  intros Hij. unfold slice_bytes. cbn [slice_pos slice_len].
  rewrite <-(app_nil_r (wire_batches crc32c c bs)), zdrop_pos_at, app_nil_r.
  rewrite <-(take_drop (j - i) (drop i bs)) at 1. rewrite wire_batches_app. apply ztake_app_exact.
  unfold pos_at. rewrite take_drop_commute. replace (i + (j - i))%nat with j by lia.
  rewrite <-(take_drop i (take j bs)) at 1. rewrite take_take, Nat.min_l by lia.
  rewrite wire_batches_app, zlen_app. lia.
Qed.

Lemma slice_to_end bs i len :
  zlen (wire_batches crc32c c bs) - pos_at crc32c c bs i <= len ->
  slice_bytes (wire_batches crc32c c bs) (MkFileSlice (pos_at crc32c c bs i) len)
  = wire_batches crc32c c (drop i bs).
Proof.
  intros Hl. unfold slice_bytes. cbn [slice_pos slice_len].
  rewrite ztake_all by (rewrite zlen_zdrop by apply pos_at_nonneg; pose proof (pos_at_le crc32c c bs i); lia).
  rewrite <-(app_nil_r (wire_batches crc32c c bs)), zdrop_pos_at. by rewrite app_nil_r.
Qed.

Lemma pos_at_mono bs i j : (i <= j)%nat -> pos_at crc32c c bs i <= pos_at crc32c c bs j.
Proof.
  intros Hij. unfold pos_at. rewrite <-(take_drop i (take j bs)), take_take, Nat.min_l by lia.
  rewrite wire_batches_app, zlen_app.
  pose proof (zlen_nonneg (wire_batches crc32c c (drop i (take j bs)))). lia.
Qed.

(** Offsets are found in order. *)
Lemma containing_order o bs x y i j :
  log_from c o bs -> x <= y -> (i < length bs)%nat -> (j < length bs)%nat ->
  offset_at o bs i <= x -> y < offset_at o bs (S j) -> (i <= j)%nat.
Proof.
  intros Hl Hxy Hi Hj Hx Hy. destruct (le_gt_dec i j) as [|Hgt]; [done|]. exfalso.
  assert (offset_at o bs (S j) <= offset_at o bs i); [|lia].
  destruct (decide (S j = i)) as [->|]; [lia|]. pose proof (offset_at_mono c o bs (S j) i Hl ltac:(lia)). lia.
Qed.

(** The end of the segment, or the batch with the maximal offset. *)
Definition slice_stop s bs (max_offset : option Z) (j : nat) : Prop :=
  match max_offset with
  | Some m =>
      if m <? end_offset s
      then (j < length bs)%nat /\
           offset_at (seg_base_offset s) bs j <= m < offset_at (seg_base_offset s) bs (S j)
      else j = length bs
  | None => j = length bs
  end.

Lemma records_slice_spec s bs es start max_offset :
  seg_view s bs es -> seg_base_offset s <= start < end_offset s ->
  (forall m, max_offset = Some m -> start <= m) ->
  exists i j sl,
    records_slice s start max_offset = Ok (Some sl) /\
    offset_at (seg_base_offset s) bs i <= start < offset_at (seg_base_offset s) bs (S i) /\
    (i <= j <= length bs)%nat /\ slice_stop s bs max_offset j /\
    slice_bytes (log_file (msg_log s)) sl = wire_batches crc32c c (take (j - i) (drop i bs)).
Proof.
  intros V Hs Hm. pose proof V as [Vb Vl Vf Vo Ve Veb Vr Vs Vi Vsd].
  destruct (find_offset_position_spec s bs es start V Hs) as (i & b & Hb & Hi & E).
  pose proof (lookup_lt_Some _ _ _ Hb) as Hil. unfold records_slice. rewrite E. cbn [to_read_error map_err obind].
  assert (exists sl, as_file_slice (msg_log s) (pos_at crc32c c bs i) = Ok sl /\
    slice_bytes (log_file (msg_log s)) sl = wire_batches crc32c c (take (length bs - i) (drop i bs)))
    as (sl & Esl & Hsl).
  { rewrite as_file_slice_ok; [|done|rewrite Vf; split; [apply pos_at_nonneg|apply pos_at_le]].
    eexists. split; [done|]. rewrite Vf, slice_to_end by lia. by rewrite firstn_all2 by (rewrite length_drop; lia). }
  destruct max_offset as [m|].
  2:{ exists i, (length bs), sl. cbn [to_read_error map_err obind]. rewrite Esl.
      split; [done|]. split; [done|]. split; [lia|]. done. }
  specialize (Hm m eq_refl). unfold slice_stop.
  destruct (Z.ltb_spec m (end_offset s)) as [Hlt|Hge].
  - rewrite Z.min_l by lia. destruct (Z.eqb_spec m (end_offset s)) as [|_]; [lia|].
    destruct (find_offset_position_spec s bs es m V ltac:(lia)) as (j & b' & Hb' & Hj & E').
    pose proof (lookup_lt_Some _ _ _ Hb') as Hjl. rewrite E'. cbn [to_read_error map_err obind].
    assert (i <= j)%nat as Hij
      by (apply (containing_order (seg_base_offset s) bs start m); [done|lia|lia|lia|lia|lia]).
    pose proof (pos_at_mono bs i j Hij). pose proof (pos_at_nonneg crc32c c bs i).
    pose proof (pos_at_le crc32c c bs j).
    rewrite wrap_u_id by (unfold in_u; lia). rewrite as_file_slice_from_to_ok by (done || rewrite Vf; lia).
    exists i, j, (MkFileSlice (pos_at crc32c c bs i) (pos_at crc32c c bs j - pos_at crc32c c bs i)).
    split; [done|]. split; [done|]. split; [lia|]. split; [done|]. rewrite Vf. by apply slice_bytes_batches.
  - rewrite Z.min_r, Z.eqb_refl by lia. rewrite Esl. exists i, (length bs), sl.
    split; [done|]. split; [done|]. split; [lia|]. done.
Qed.

(** A slice lies in its file. *)
Lemma records_slice_range s bs es start max_offset sl :
  seg_view s bs es -> seg_base_offset s <= start < end_offset s ->
  (forall m, max_offset = Some m -> start <= m) -> records_slice s start max_offset = Ok (Some sl) ->
  0 <= slice_pos sl /\ slice_pos sl + slice_len sl <= zlen (log_file (msg_log s)) < 2 ^ 32.
Proof.
  intros V Hs Hm. pose proof V as [Vb Vl Vf Vo Ve Veb Vr Vs Vi Vsd].
  destruct (find_offset_position_spec s bs es start V Hs) as (i & b & Hb & Hi & E).
  unfold records_slice. rewrite E. cbn [to_read_error map_err obind].
  pose proof (pos_at_nonneg crc32c c bs i). pose proof (pos_at_le crc32c c bs i).
  assert (forall sl', obind (to_read_error (as_file_slice (msg_log s) (pos_at crc32c c bs i))) (fun s0 : FileSlice => Ok (Some s0)) = Ok (Some sl') ->
    0 <= slice_pos sl' /\ slice_pos sl' + slice_len sl' <= zlen (log_file (msg_log s)) < 2 ^ 32) as Hend.
  { intros sl'. rewrite as_file_slice_ok by (done || rewrite Vf; lia). cbn. intros [= <-]. cbn. rewrite Vf in *. lia. }
  destruct max_offset as [m|]; [|by apply Hend]. specialize (Hm m eq_refl).
  destruct (Z.eqb_spec (Z.min m (end_offset s)) (end_offset s)) as [|Hne]; [by apply Hend|].
  assert (m < end_offset s) by lia. rewrite Z.min_l by lia.
  destruct (find_offset_position_spec s bs es m V ltac:(lia)) as (j & b' & Hb' & Hj & E').
  rewrite E'. cbn [to_read_error map_err obind].
  pose proof (lookup_lt_Some _ _ _ Hb). pose proof (lookup_lt_Some _ _ _ Hb').
  assert (i <= j)%nat as Hij by (apply (containing_order (seg_base_offset s) bs start m); [done|lia|lia|lia|lia|lia]).
  pose proof (pos_at_mono bs i j Hij). pose proof (pos_at_le crc32c c bs j).
  rewrite wrap_u_id by (unfold in_u; lia). rewrite as_file_slice_from_to_ok by (done || rewrite Vf; lia).
  cbn. intros [= <-]. cbn. rewrite Vf in *. lia.
Qed.
End views.

(** ** The active segment *)

Section active.
Context `{PReadOK}.
Context (crc32c : list byte -> Z) (crc32c_u32 : forall bs, in_u 32 (crc32c bs)).
Context {R : Type} (c : Codec R) `{!RecordsOK c}.
Implicit Types (s : MutableSegment) (b : Batch R) (bs : list (Batch R)).

(** The active segment stores [bs] and the next batch goes after them. *)
Record active_ok s bs (es : list Entry) : Prop := {
  act_view : seg_view crc32c c s bs es;
  act_base : mr_base_offset (msg_log s) = seg_base_offset s;
  act_max : mr_max_len (msg_log s) < 2 ^ 32;
  act_below : Forall (fun e => fst e < end_offset s - seg_base_offset s) es;
  act_order : delta_in_order (seg_index s) (end_offset s - seg_base_offset s);
}.

(** The index can be reopened. *)
Definition seg_clean s : Prop :=
  index_clean (seg_index s) /\
  (mr_len (msg_log s) = 0 -> accumulated_batch_len (seg_index s) = 0).

Lemma offset_at_app o bs bs' i : (i <= length bs)%nat -> offset_at o (bs ++ bs') i = offset_at o bs i.
Proof. intros Hi. unfold offset_at. by rewrite take_app_le. Qed.

Lemma pos_at_app bs bs' i :
  (i <= length bs)%nat -> pos_at crc32c c (bs ++ bs') i = pos_at crc32c c bs i.
Proof. intros Hi. unfold pos_at. by rewrite take_app_le. Qed.

Lemma entry_sound_app o bs bs' e :
  entry_sound crc32c c o bs e -> entry_sound crc32c c o (bs ++ bs') e.
Proof.
  intros (i & Hi & ->). exists i. rewrite length_app, offset_at_app, pos_at_app by lia. split; [lia|done].
Qed.

Lemma index_sound_app o bs bs' es :
  index_sound crc32c c o bs es -> index_sound crc32c c o (bs ++ bs') es.
Proof. intros Hs. eapply List.Forall_impl; [|exact Hs]. intros e. apply entry_sound_app. Qed.

(** The batches that fit the log of the segment and its offsets. *)
Definition appendable s b : Prop :=
  let b' := set_base_offset (end_offset s) b in
  valid_batch c b' /\ has_schema (header b) = false /\ 0 <= last_offset_delta (header b) /\
  end_offset s + last_offset_delta (header b) + 1 < 2 ^ 63 /\
  end_offset s + last_offset_delta (header b) + 1 - seg_base_offset s < 2 ^ 32.

Lemma records_len_pos b : 0 <= last_offset_delta (header b) -> records_len b <> 0.
Proof. intros Hd. unfold records_len. case_ltb; lia. Qed.

Lemma index_sound_after idx o bs b es :
  index_sound crc32c c o bs es ->
  index_sound crc32c c o (bs ++ [b])
    (index_after idx es (end_from o bs - o) (zlen (wire_batches crc32c c bs))).
Proof.
  intros Hs. unfold index_after. destruct (index_adds idx); [|by apply index_sound_app].
  apply Forall_app. split; [by apply index_sound_app|]. constructor; [|constructor].
  exists (length bs). rewrite length_app, offset_at_app, pos_at_app, offset_at_all, pos_at_all by done.
  split; [cbn; lia|done].
Qed.

Lemma index_after_below idx es d p d' :
  Forall (fun e : Entry => fst e < d) es -> d < d' ->
  Forall (fun e : Entry => fst e < d') (index_after idx es d p).
Proof.
  intros Hs Hd. unfold index_after. destruct (index_adds idx); [apply Forall_app; split|].
  - eapply List.Forall_impl; [|exact Hs]. cbn. lia.
  - by repeat constructor.
  - eapply List.Forall_impl; [|exact Hs]. cbn. lia.
Qed.

Lemma append_batch_fits s bs es b :
  active_ok s bs es -> appendable s b ->
  let b' := set_base_offset (end_offset s) b in
  zlen (mr_file (msg_log s)) + zlen (wire_batch crc32c c b') <= mr_max_len (msg_log s) ->
  exists s' es', append_batch crc32c c (s, b) = (Ok true, (s', b')) /\ active_ok s' (bs ++ [b']) es' /\
    seg_base_offset s' = seg_base_offset s /\ seg_option s' = seg_option s /\
    mr_max_len (msg_log s') = mr_max_len (msg_log s) /\
    end_offset s' = end_offset s + last_offset_delta (header b) + 1 /\ (seg_clean s -> seg_clean s').
Proof.
  intros [V Ab Am Abel Aord] (Hv & Hsch & Hd & Hend & Hrel) b' Hfit.
  pose proof V as [Vb Vl Vf [Vlen Vsz] Ve Veb Vr Vs Vi Vsd]. cbn in Vf.
  pose proof (end_from_ge c _ _ Vl) as Hge. pose proof (zlen_nonneg bs).
  unfold append_batch. erewrite bind_ok by done. cbv beta iota.
  destruct (Z.eqb_spec (records_len b) 0) as [E|_]; [by apply records_len_pos in E|].
  erewrite bind_ok by done. cbv zeta. fold b'.
  assert (get_last_offset b' + 1 = end_offset s + last_offset_delta (header b) + 1) as Hlast.
  { unfold get_last_offset, b'. cbn. rewrite wrap_i_id; [lia..|]. unfold in_i. lia. }
  erewrite bind_ok.
  2:{ unfold zoom. cbn [fst snd]. rewrite (write_batch_appends crc32c crc32c_u32 c (msg_log s) b' Hv);
        [reflexivity|done|rewrite Ab; cbn; lia|done|done|done]. }
  cbv beta iota. unfold mut_records_pos.
  assert (as_u32 (as_i32 (end_offset s - seg_base_offset s)) = end_offset s - seg_base_offset s) as ->.
  { apply as_u32_as_i32. unfold in_u. lia. }
  destruct (write_index_holds (seg_index s) es (end_offset s - seg_base_offset s) (mr_len (msg_log s))
    (as_u32 (zlen (wire_batch crc32c c b')))) as (i' & Ei & Hi' & Eo & El);
    [exact Vi|unfold in_u; lia|cbn in Vlen; rewrite Vlen; unfold in_u; pose proof (zlen_nonneg (mr_file (msg_log s))); cbn in Vsz; lia|done|done|].
  erewrite bind_ok by (unfold zoom; cbn [fst snd set_msg_log seg_index]; rewrite Ei; reflexivity).
  erewrite bind_ok by done. rewrite Hlast, wrap_i_id by (unfold in_i; lia).
  eexists. exists (index_after (seg_index s) es (end_offset s - seg_base_offset s) (mr_len (msg_log s))).
  split; [reflexivity|]. split; [|split_and!; try done].
  2:{ intros [Hcl Hacc]. assert (in_u 32 (mr_len (msg_log s))).
      { cbn in Vlen, Vsz. rewrite Vlen. unfold in_u. pose proof (zlen_nonneg (mr_file (msg_log s))). lia. }
      split; cbn.
      - eapply (write_index_clean (seg_index s) es (end_offset s - seg_base_offset s) (mr_len (msg_log s)));
          [exact Vi|done|unfold in_u; lia|done|done|done|done|exact Ei].
      - intros E0. exfalso. pose proof (zlen_wire_batch_min crc32c c b') as Hmin.
        unfold BATCH_FILE_HEADER_SIZE, BATCH_PREAMBLE_SIZE, BATCH_HEADER_SIZE in Hmin. cbn in Vlen, Vsz.
        rewrite (wrap_u_id 32 (zlen (wire_batch _ _ _))) in E0 by (unfold in_u; pose proof (zlen_nonneg (mr_file (msg_log s))); lia).
        pose proof (zlen_nonneg (mr_file (msg_log s))).
        rewrite Vlen, wrap_u_id in E0 by (unfold in_u; lia). lia. }
  assert (log_from c (seg_base_offset s) (bs ++ [b'])) as Hlog'.
  { apply log_from_app. split; [done|]. cbn. by rewrite <-Ve. }
  assert (end_from (seg_base_offset s) (bs ++ [b']) = end_offset s + last_offset_delta (header b) + 1) as Hend'.
  { rewrite end_from_app. cbn. by rewrite <-Ve. }
  assert (wire_batches crc32c c (bs ++ [b']) = mr_file (msg_log s) ++ wire_batch crc32c c b') as Hw.
  { rewrite wire_batches_app, Vf. unfold wire_batches at 2. cbn. by rewrite app_nil_r. }
  split.
  - pose proof (zlen_nonneg (mr_file (msg_log s))). pose proof (zlen_nonneg (wire_batch crc32c c b')).
    assert (zlen (mr_file (msg_log s) ++ wire_batch crc32c c b') < 2 ^ 32) as Hz by (rewrite zlen_app; lia).
    split; cbn; try done; try lia.
    + split; [|done]. rewrite zlen_app in *. rewrite (wrap_u_id 32 (zlen (wire_batch _ _ _))) by (unfold in_u; lia).
      rewrite Vlen. apply wrap_u_id. unfold in_u. lia.
    + by rewrite Hw.
    + rewrite Vlen, Vf, Ve. by apply index_sound_after.
  - cbn. done.
  - cbn. done.
  - cbn. apply index_after_below; [done|lia].
  - cbn. left. rewrite El. lia.
Qed.

Lemma append_batch_full s bs es b :
  active_ok s bs es -> appendable s b ->
  let b' := set_base_offset (end_offset s) b in
  zlen (mr_file (msg_log s)) + zlen (wire_batch crc32c c b') < 2 ^ 32 ->
  mr_max_len (msg_log s) < zlen (mr_file (msg_log s)) + zlen (wire_batch crc32c c b') ->
  append_batch crc32c c (s, b) = (Ok false, (s, b')).
Proof.
  intros [V Ab Am Abel Aord] (Hv & Hsch & Hd & Hend & Hrel) b' Hsz Hfull.
  pose proof V as [Vb Vl Vf [Vlen Vsz] Ve Veb Vr Vs Vi Vsd].
  pose proof (end_from_ge c _ _ Vl) as Hge. pose proof (zlen_nonneg bs).
  unfold append_batch. erewrite bind_ok by done. cbv beta iota.
  destruct (Z.eqb_spec (records_len b) 0) as [E|_]; [by apply records_len_pos in E|].
  erewrite bind_ok by done. cbv zeta. fold b'.
  erewrite bind_ok.
  2:{ unfold zoom. cbn [fst snd]. rewrite (write_batch_full crc32c c (msg_log s) b' Hv);
        [reflexivity|done|rewrite Ab; cbn; lia|done|done|done]. }
  by destruct s.
Qed.
End active.

(** ** Recovery *)

Section recovery.
Context `{PReadOK} `{MemoryMapOK}.
Context (crc32c : list byte -> Z) (crc32c_u32 : forall bs, in_u 32 (crc32c bs)).
Context {R : Type} (c : Codec R) `{!RecordsOK c}.
Implicit Types (bs : list (Batch R)).

(** What a crash may leave after the complete batches: nothing, or a part of
    the batch being written. *)
Definition torn_tail (tail : list byte) : Prop :=
  tail = [] \/
  exists b t', valid_batch c b /\ tail ++ t' = wire_batch crc32c c b /\ tail <> [] /\ t' <> [].

(** The index file: the entries, then empty slots. *)
Definition index_file_holds (index es : list Entry) : Prop :=
  forall i, index !! i = map entry_to_be es !! i \/
            map entry_to_be es !! i = None /\ index !! i = Some (0, 0).

Lemma index_sound_below o bs es :
  log_from c o bs -> index_sound crc32c c o bs es ->
  Forall (fun e => fst e < end_from o bs - o) es.
Proof.
  intros Hl Hs. eapply List.Forall_impl; [|exact Hs]. intros e (i & Hi & ->). cbn.
  rewrite <-offset_at_all. pose proof (offset_at_mono c o bs i (length bs) Hl ltac:(lia)). lia.
Qed.

Lemma index_sound_u32 o bs es :
  log_from c o bs -> end_from o bs - o < 2 ^ 32 -> zlen (wire_batches crc32c c bs) < 2 ^ 32 ->
  index_sound crc32c c o bs es -> Forall in_u32_entry es.
Proof.
  intros Hl Hr Hz Hs. eapply List.Forall_impl; [|exact Hs]. intros e (i & Hi & ->).
  pose proof (offset_at_bounds c o bs i Hl ltac:(lia)). pose proof (pos_at_nonneg crc32c c bs i).
  pose proof (pos_at_le crc32c c bs i). unfold in_u32_entry, in_u. cbn. lia.
Qed.

(** After the tail is cut the log holds the complete batches. *)
Definition log_holds base option bs (mr : MutFileRecords) : Prop :=
  mr_file mr = wire_batches crc32c c bs /\ mr_len mr = zlen (wire_batches crc32c c bs) /\
  mr_base_offset mr = base /\ mr_max_len mr = segment_max_bytes option.

Lemma repair_log_spec base option bs tail (i : MutLogIndex) val :
  zlen (wire_batches crc32c c bs ++ tail) < 2 ^ 32 ->
  val_error val = None /\ tail = [] \/
  (exists err, val_error val = Some (BatchDecoding err) /\
    last_valid_file_pos val = zlen (wire_batches crc32c c bs)) ->
  exists mr, log_holds base option bs mr /\
    repair_log val
      (MkSegment option (mut_records_create base option (wire_batches crc32c c bs ++ tail)) i base base)
    = (Ok tt, MkSegment option mr i base base).
Proof.
  intros Hz [[E ->]|(err & E & Ep)]; unfold repair_log; rewrite E; eexists; (split; [|reflexivity]).
  - rewrite app_nil_r in *. repeat split. cbn. apply wrap_u_id. unfold in_u.
    pose proof (zlen_nonneg (wire_batches crc32c c bs)). lia.
  - rewrite Ep. repeat split. cbn. apply resize_app. unfold zlen. lia.
Qed.

Lemma validate_torn base bs tail i es :
  0 <= base -> log_from c base bs -> end_from base bs < 2 ^ 63 -> end_from base bs - base < 2 ^ 32 ->
  zlen (wire_batches crc32c c bs ++ tail) < 2 ^ 32 -> torn_tail tail ->
  mut_index_ok i es -> index_sound crc32c c base bs es ->
  exists val, default_validate base (wire_batches crc32c c bs ++ tail) (Some i) = Ok val /\
    index_error val = None /\ leo val = end_from base bs /\
    (val_error val = None /\ tail = [] \/
     exists err, val_error val = Some (BatchDecoding err) /\
       last_valid_file_pos val = zlen (wire_batches crc32c c bs)).
Proof.
  intros Hb Hl He Hr Hz Ht Hok Hsd. pose proof (leo_val_at crc32c c base bs Hl Hb He) as Hleo.
  assert (index_holds i es) as Hi by exact Hok. destruct Ht as [->|(b & t' & Hv & E & Hne & Hne')].
  - eexists. split; [by apply (validate_complete crc32c crc32c_u32 c i es base bs [])|].
    split; [done|]. split; [exact Hleo|]. by left.
  - destruct (validate_truncated crc32c crc32c_u32 c i es base bs tail Hi Hsd Hl Hb He Hr Hz b t')
      as [err Ev]; [done..|].
    eexists. split; [exact Ev|]. split; [done|]. split; [exact Hleo|]. right. exists err.
    split; [done|]. cbn. apply pos_at_all.
Qed.

Lemma recover_segment_spec base option bs tail index es :
  0 <= base -> log_from c base bs -> end_from base bs < 2 ^ 63 -> end_from base bs - base < 2 ^ 32 ->
  zlen (wire_batches crc32c c bs ++ tail) < 2 ^ 32 -> torn_tail tail ->
  in_u 32 (segment_max_bytes option) -> in_u 32 (index_max_bytes option) ->
  zlen es < index_max_bytes option / INDEX_ENTRY_SIZE ->
  index_file_holds index es -> StronglySorted Z.lt (map fst es) ->
  Forall (fun e => snd e <> 0) es -> index_sound crc32c c base bs es ->
  exists s0 s', open_for_write base option (wire_batches crc32c c bs ++ tail) index = Ok s0 /\
    validate_and_repair s0 = (Ok (end_from base bs), s') /\ active_ok crc32c c s' bs es /\
    seg_base_offset s' = base /\ seg_option s' = option /\
    mr_max_len (msg_log s') = segment_max_bytes option /\
    (0 < index_max_interval_bytes option -> seg_clean s').
Proof.
  intros Hb Hl He Hr Hz Ht Hm Hi Hn Hf Hs Hp Hsd.
  assert (zlen (wire_batches crc32c c bs) < 2 ^ 32) as Hz'.
  { rewrite zlen_app in Hz. pose proof (zlen_nonneg tail). lia. }
  pose proof (index_sound_u32 _ _ _ Hl Hr Hz' Hsd) as Hu.
  destruct (mut_index_open_entries base option index es) as (i & Ei & Hok & Eo & Ed & Eacc & Hcl); [done..|].
  destruct (validate_torn base bs tail i es) as (val & Ev & Eie & Eleo & Hval); [done..|].
  destruct (repair_log_spec base option bs tail i val Hz Hval) as (mr & (Ef & El & Eb & Em) & Er).
  unfold open_for_write. rewrite Ei. cbn [map_err obind]. eexists. eexists. split; [reflexivity|].
  unfold validate_and_repair. erewrite bind_ok by done.
  cbn [seg_base_offset msg_log mut_records_create mr_file seg_index].
  erewrite bind_ok by (unfold lift; rewrite Ev; reflexivity).
  erewrite bind_ok by exact Er. erewrite bind_ok by done. rewrite Eie.
  erewrite bind_ok by done. erewrite bind_ok by done. rewrite Eleo.
  split; [reflexivity|]. split; [|split_and!; try done; intros ?; split; [by apply Hcl|done]].
  pose proof (end_from_ge c _ _ Hl). pose proof (zlen_nonneg bs).
  split; cbn; try done.
  - split; cbn; try done. by rewrite Ef, El.
  - rewrite Em. apply Hm.
  - by apply index_sound_below.
  - unfold delta_in_order. rewrite Ed. lia.
Qed.
End recovery.

(** ** A bounded reader of files and example segments *)

#[export] Instance plain_pread : PRead := fun file offset n =>
  Some (Z.max 0 (Z.min n (zlen file - offset))).

#[export] Instance plain_pread_ok : PReadOK.
Proof.
  split; intros file offset n; unfold sys_pread, plain_pread; intros.
  - f_equal. lia.
  - eexists. split; [done|]. lia.
Qed.

Definition raw_batch (payload : string) : Batch (list byte) :=
  MkBatch 0 0 (set_last_offset_delta 0 batch_header_default) SCHEMA_ID_NULL (bytes_of_string payload).

(** Append batches one after another, ignoring what does not fit. *)
Fixpoint append_all (s : MutableSegment) (bs : list (Batch (list byte))) : MutableSegment :=
  match bs with
  | [] => s
  | b :: bs => append_all (fst (snd (append_batch sum32 codec_raw (s, b)))) bs
  end.

(** A configuration that indexes every other batch. *)
Definition dense_config : ReplicaConfig := {|
  base_dir := "/tmp"; index_max_bytes := 64; index_max_interval_bytes := 1;
  segment_max_bytes := 1000; flush_write_count := 1; flush_idle_msec := 0;
  max_batch_size := 1000; max_request_size := 1000; update_hw := true;
  retention_seconds := 60; max_partition_size := 5000 |}.

Definition empty_segment : MutableSegment :=
  match segment_create 0 dense_config [] [] with
  | Ok s => s
  | _ => MkSegment dense_config (mut_records_create 0 dense_config []) example_index 0 0
  end.

Definition four_batches : MutableSegment :=
  append_all empty_segment [raw_batch "a"; raw_batch "b"; raw_batch "c"; raw_batch "d"].

Example four_batches_index :
  written_entries (seg_index four_batches) = [(1, 58); (3, 174)] /\ end_offset four_batches = 4.
Proof. vm_compute. done. Qed.

(** The log loses its end inside the second batch, the index does not. *)
Definition torn_segment : MutableSegment :=
  match open_for_write 0 dense_config (take 70 (mr_file (msg_log four_batches)))
          (mi_entries (seg_index four_batches)) with
  | Ok s => snd (validate_and_repair s)
  | _ => empty_segment
  end.

Definition regrown_segment : MutableSegment :=
  append_all torn_segment
    [MkBatch 0 0 (set_last_offset_delta 2 batch_header_default) SCHEMA_ID_NULL
       (replicate 150 Byte.x61)].

(** Cutting a torn log does not cut its index.  There is a log and an
    index that agree, a crash that loses the end of the log, and appends after
    the repair, such that the offset 3, which the segment holds, is not found:
    the search starts at an index entry that no longer points at a batch. *)
Theorem stale_index_after_repair :
  end_offset torn_segment = 1 /\ end_offset regrown_segment = 4 /\
  validate_index (written_entries (seg_index four_batches))
    [(0, 0); (1, 58); (2, 116); (3, 174)] (zlen (mr_file (msg_log four_batches))) = [] /\
  (forall b pos, find_offset_position regrown_segment 3 <> Ok (Some (b, pos))) /\
  exists b pos, find_offset_position (set_seg_index example_index regrown_segment) 3 = Ok (Some (b, pos)).
Proof.
  split; [vm_compute; reflexivity|]. split; [vm_compute; reflexivity|].
  split; [vm_compute; reflexivity|]. split.
  - intros b pos E. vm_compute in E. discriminate.
  - eexists. eexists. vm_compute. reflexivity.
Qed.

(** ** Properties *)

(** Appending a batch to the active segment is appending it to the list of
    batches the segment stores: the batch gets the end offset as its base
    offset, the log file grows by its encoding, the index stays sorted and
    sound, and the end offset moves past its last record.  A batch that does
    not fit is refused and the segment stays as it is. *)
Theorem append_batch_correct `{PReadOK} (crc32c : list byte -> Z) {R} (c : Codec R) `{!RecordsOK c}
    (s : MutableSegment) (bs : list (Batch R)) (es : list Entry) (b : Batch R) :
  (forall x, in_u 32 (crc32c x)) -> active_ok crc32c c s bs es -> appendable c s b ->
  let b' := set_base_offset (end_offset s) b in
  let size := zlen (mr_file (msg_log s)) + zlen (wire_batch crc32c c b') in
  size < 2 ^ 32 ->
  (size <= mr_max_len (msg_log s) ->
   exists s' es', append_batch crc32c c (s, b) = (Ok true, (s', b')) /\
     active_ok crc32c c s' (bs ++ [b']) es' /\
     end_offset s' = end_offset s + last_offset_delta (header b) + 1) /\
  (mr_max_len (msg_log s) < size -> append_batch crc32c c (s, b) = (Ok false, (s, b'))).
Proof.
  intros Hc Ha Hb b' size Hsz. split; intros Hfit.
  - destruct (append_batch_fits crc32c Hc c s bs es b Ha Hb Hfit) as (s' & es' & E & Ha' & _ & _ & _ & Ee & _).
    exists s', es'. done.
  - by apply (append_batch_full crc32c c s bs es b).
Qed.

Lemma empty_segment_ok : active_ok sum32 codec_raw empty_segment [] [].
Proof.
  assert (mut_index_ok (seg_index empty_segment) []) as Hi.
  { split; [vm_compute; reflexivity|]. split; [constructor|]. split; [vm_compute; split; congruence|].
    split; [vm_compute; reflexivity|]. vm_compute. split; congruence. }
  split; [|reflexivity|reflexivity|constructor|right; split; reflexivity].
  split; [discriminate|exact I|reflexivity|split; reflexivity|reflexivity..|exact Hi|constructor].
Qed.

Lemma raw_batch_appendable : appendable codec_raw empty_segment (raw_batch "a").
Proof.
  split; [|split; [reflexivity|split; [vm_compute; discriminate|split; vm_compute; reflexivity]]].
  split; [split; vm_compute; congruence|]. split; [repeat split; vm_compute; congruence|].
  split; [split; vm_compute; congruence|]. split; [done|]. split; [done|vm_compute; reflexivity].
Qed.

Lemma append_batch_correct_witness :
  exists s' es', append_batch sum32 codec_raw (empty_segment, raw_batch "a")
      = (Ok true, (s', set_base_offset 0 (raw_batch "a"))) /\
    active_ok sum32 codec_raw s' ([] ++ [set_base_offset 0 (raw_batch "a")]) es' /\ end_offset s' = 1.
Proof.
  apply (append_batch_correct sum32 codec_raw empty_segment [] [] (raw_batch "a") sum32_u32
    empty_segment_ok raw_batch_appendable); vm_compute; congruence.
Defined.

(** A reader that asks a segment for records from [start], not past a
    maximal offset, gets the bytes of complete batches: from the batch that
    holds [start] to the end of the segment, or up to and without the batch
    that holds the maximal offset. *)
Theorem records_slice_correct `{PReadOK} {I L} `{IndexOK I} `{FileRecordsOK L}
    (crc32c : list byte -> Z) {R} (c : Codec R) `{!RecordsOK c}
    (s : Segment I L) (bs : list (Batch R)) (es : list Entry) (start : Z) (max_offset : option Z) :
  (forall x, in_u 32 (crc32c x)) -> seg_view crc32c c s bs es ->
  seg_base_offset s <= start < end_offset s -> (forall m, max_offset = Some m -> start <= m) ->
  exists i j sl,
    records_slice s start max_offset = Ok (Some sl) /\
    offset_at (seg_base_offset s) bs i <= start < offset_at (seg_base_offset s) bs (S i) /\
    (i <= j <= length bs)%nat /\ slice_stop s bs max_offset j /\
    slice_bytes (log_file (msg_log s)) sl = wire_batches crc32c c (take (j - i) (drop i bs)).
Proof. intros Hc. by apply records_slice_spec. Qed.

Lemma records_slice_correct_witness :
  exists (s : MutableSegment) bs i j sl,
    records_slice s 0 None = Ok (Some sl) /\
    offset_at (seg_base_offset s) bs i <= 0 < offset_at (seg_base_offset s) bs (S i) /\
    (i <= j <= length bs)%nat /\ slice_stop s bs None j /\
    slice_bytes (mr_file (msg_log s)) sl = wire_batches sum32 codec_raw (take (j - i) (drop i bs)).
Proof.
  destruct (append_batch_fits sum32 sum32_u32 codec_raw empty_segment [] [] (raw_batch "a")
    empty_segment_ok raw_batch_appendable) as (s & es & _ & [V _ _ _ _] & Eb & _ & _ & Ee & _);
    [vm_compute; discriminate|].
  exists s, ([] ++ [set_base_offset (end_offset empty_segment) (raw_batch "a")]).
  apply (records_slice_correct sum32 codec_raw s _ es 0 None sum32_u32 V); [|discriminate].
  rewrite Eb, Ee. vm_compute. split; congruence.
Defined.

Lemma pos_at_lt `{PReadOK} (crc32c : list byte -> Z) {R} (c : Codec R) `{!RecordsOK c} bs i j :
  (i < j <= length bs)%nat -> pos_at crc32c c bs i < pos_at crc32c c bs j.
Proof.
  intros Hij. destruct (lookup_lt_is_Some_2 bs i ltac:(lia)) as [b Hb].
  pose proof (pos_at_mono crc32c c bs (S i) j ltac:(lia)) as Hm. rewrite (pos_at_S _ _ _ _ _ Hb) in Hm.
  pose proof (zlen_wire_batch_min crc32c c b) as Hz.
  unfold BATCH_FILE_HEADER_SIZE, BATCH_PREAMBLE_SIZE, BATCH_HEADER_SIZE in Hz. lia.
Qed.

(** On the active segment the maximal offset does not bound a read that
    starts past it: the length of the slice is computed modulo 2^32, and the
    reader gets every batch from its start offset to the end of the log. *)
Theorem read_past_max_offset `{PReadOK} (crc32c : list byte -> Z) {R} (c : Codec R) `{!RecordsOK c}
    (s : MutableSegment) (bs : list (Batch R)) (es : list Entry) (start m : Z) (k : nat) :
  (forall x, in_u 32 (crc32c x)) -> seg_view crc32c c s bs es ->
  seg_base_offset s <= m -> start < end_offset s -> (k <= length bs)%nat ->
  m < offset_at (seg_base_offset s) bs k <= start ->
  exists i sl,
    records_slice s start (Some m) = Ok (Some sl) /\
    (i < length bs)%nat /\ m < offset_at (seg_base_offset s) bs i <= start /\
    slice_bytes (mr_file (msg_log s)) sl = wire_batches crc32c c (drop i bs).
Proof.
  intros Hc V Hm Hs Hk Hb. pose proof V as [Vb Vl Vf Vo Ve Veb Vr Vs Vi Vsd].
  destruct (find_offset_position_spec crc32c Hc c s bs es start V ltac:(lia)) as (i & b & Hbi & Hi & E).
  destruct (find_offset_position_spec crc32c Hc c s bs es m V ltac:(lia)) as (j & b' & Hbj & Hj & E').
  pose proof (lookup_lt_Some _ _ _ Hbi). pose proof (lookup_lt_Some _ _ _ Hbj).
  assert (j < k)%nat as Hjk.
  { destruct (le_gt_dec k j) as [Hle|]; [|done]. exfalso.
    destruct (decide (k = j)) as [->|]; [lia|].
    pose proof (offset_at_mono c (seg_base_offset s) bs k j Vl ltac:(lia)). lia. }
  assert (k <= i)%nat as Hki.
  { destruct (le_gt_dec k i) as [|Hgt]; [done|]. exfalso.
    destruct (decide (S i = k)) as [<-|]; [lia|].
    pose proof (offset_at_mono c (seg_base_offset s) bs (S i) k Vl ltac:(lia)). lia. }
  assert (m < offset_at (seg_base_offset s) bs i) as Hmi.
  { destruct (decide (k = i)) as [->|]; [lia|].
    pose proof (offset_at_mono c (seg_base_offset s) bs k i Vl ltac:(lia)). lia. }
  unfold records_slice. rewrite E. cbn [to_read_error map_err obind].
  rewrite Z.min_l by lia. destruct (Z.eqb_spec m (end_offset s)) as [|_]; [lia|].
  rewrite E'. cbn [to_read_error map_err obind as_file_slice_from_to MutFileRecords_FileRecords].
  unfold mut_as_file_slice_from_to. cbn [map_err obind].
  eexists i, _. split; [reflexivity|]. split; [done|]. split; [lia|]. cbn in Vf. rewrite Vf.
  apply slice_to_end. pose proof (pos_at_lt crc32c c bs j i ltac:(lia)).
  pose proof (pos_at_nonneg crc32c c bs j). pose proof (pos_at_le crc32c c bs i).
  assert (as_u32 (pos_at crc32c c bs j - pos_at crc32c c bs i)
          = 2 ^ 32 - (pos_at crc32c c bs i - pos_at crc32c c bs j)) as ->; [|lia].
  unfold wrap_u. rewrite <-(Z.mod_add _ 1) by lia. rewrite Z.mod_small; lia.
Qed.

Definition four_list : list (Batch (list byte)) :=
  [set_base_offset 0 (raw_batch "a"); set_base_offset 1 (raw_batch "b");
   set_base_offset 2 (raw_batch "c"); set_base_offset 3 (raw_batch "d")].

Lemma raw_batch_valid o p :
  in_i 64 o -> zlen (bytes_of_string p) < 2 ^ 30 -> valid_batch codec_raw (set_base_offset o (raw_batch p)).
Proof.
  intros Ho Hp. split; [done|]. split; [repeat split; vm_compute; congruence|].
  split; [split; vm_compute; congruence|]. split; [done|]. split; [done|]. cbn.
  unfold BATCH_HEADER_SIZE, SCHEMA_ID_SIZE. lia.
Qed.

Lemma four_batches_view :
  seg_view sum32 codec_raw four_batches four_list [(1, 58); (3, 174)].
Proof.
  assert (mut_index_ok (seg_index four_batches) [(1, 58); (3, 174)]) as Hi.
  { split; [vm_compute; reflexivity|]. split; [repeat constructor|].
    split; [vm_compute; split; congruence|]. split; [vm_compute; reflexivity|]. vm_compute. split; congruence. }
  split; [vm_compute; discriminate| | | | | | | |exact Hi|].
  - cbn [four_list log_from]. repeat split; try apply raw_batch_valid; try (vm_compute; congruence).
    all: split; vm_compute; congruence.
  - vm_compute. reflexivity.
  - split; vm_compute; reflexivity.
  - vm_compute. reflexivity.
  - vm_compute. reflexivity.
  - vm_compute. reflexivity.
  - vm_compute. reflexivity.
  - constructor; [exists 1%nat; split; [cbn; lia|vm_compute; reflexivity]|].
    constructor; [exists 3%nat; split; [cbn; lia|vm_compute; reflexivity]|constructor].
Qed.

Lemma read_past_max_offset_witness :
  exists i sl,
    records_slice four_batches 2 (Some 0) = Ok (Some sl) /\
    (i < 4)%nat /\ 0 < offset_at 0 four_list i <= 2 /\
    slice_bytes (mr_file (msg_log four_batches)) sl = wire_batches sum32 codec_raw (drop i four_list).
Proof.
  apply (read_past_max_offset sum32 codec_raw four_batches four_list [(1, 58); (3, 174)] 2 0 1
    sum32_u32 four_batches_view); vm_compute; [discriminate|reflexivity|lia|split; congruence].
Defined.

(** After a crash that leaves the active segment with complete batches
    followed by at most a part of one more, and with an index of complete
    batches, opening it for writing and validating it gives an active segment
    that stores exactly the complete batches, with the offset after the last
    of them as its end. *)
Theorem crash_recovery `{PReadOK} `{MemoryMapOK} (crc32c : list byte -> Z) {R} (c : Codec R) `{!RecordsOK c}
    (base : Z) (option : ReplicaConfig) (bs : list (Batch R)) (tail : list byte) (index es : list Entry) :
  (forall x, in_u 32 (crc32c x)) ->
  0 <= base -> log_from c base bs -> end_from base bs < 2 ^ 63 -> end_from base bs - base < 2 ^ 32 ->
  zlen (wire_batches crc32c c bs ++ tail) < 2 ^ 32 -> torn_tail crc32c c tail ->
  in_u 32 (segment_max_bytes option) -> in_u 32 (index_max_bytes option) ->
  zlen es < index_max_bytes option / INDEX_ENTRY_SIZE ->
  index_file_holds index es -> StronglySorted Z.lt (map fst es) ->
  Forall (fun e => snd e <> 0) es -> index_sound crc32c c base bs es ->
  exists s0 s', open_for_write base option (wire_batches crc32c c bs ++ tail) index = Ok s0 /\
    validate_and_repair s0 = (Ok (end_from base bs), s') /\ active_ok crc32c c s' bs es.
Proof.
  intros. edestruct (recover_segment_spec crc32c) as (s0 & s' & E0 & E & Ha & _); [done..|].
  exists s0, s'. done.
Qed.

Lemma crash_recovery_witness :
  exists s0 s',
    open_for_write 0 dense_config
      (wire_batches sum32 codec_raw four_list ++ take 20 (wire_batch sum32 codec_raw (raw_batch "e")))
      (map entry_to_be [(1, 58); (3, 174)]) = Ok s0 /\
    validate_and_repair s0 = (Ok 4, s') /\
    active_ok sum32 codec_raw s' four_list [(1, 58); (3, 174)].
Proof.
  destruct four_batches_view as [Vb Vl Vf Vo Ve Veb Vr Vs Vi Vsd].
  apply (crash_recovery sum32 codec_raw 0 dense_config four_list
    (take 20 (wire_batch sum32 codec_raw (raw_batch "e"))) (map entry_to_be [(1, 58); (3, 174)])
    [(1, 58); (3, 174)] sum32_u32).
  - discriminate.
  - exact Vl.
  - vm_compute. reflexivity.
  - vm_compute. reflexivity.
  - vm_compute. reflexivity.
  - right. exists (set_base_offset 0 (raw_batch "e")), (drop 20 (wire_batch sum32 codec_raw (raw_batch "e"))).
    split; [apply raw_batch_valid; [split; vm_compute; congruence|vm_compute; reflexivity]|].
    split; [apply take_drop|]. split; vm_compute; discriminate.
  - split; vm_compute; congruence.
  - split; vm_compute; congruence.
  - vm_compute. reflexivity.
  - intros i. by left.
  - repeat constructor.
  - repeat constructor; discriminate.
  - exact Vsd.
Defined.
