(* ===== verification/StorageCheckpoint.v ===== *)
(** * Checkpoints

    [fluvio-storage/src/checkpoint.rs] with the offset publisher of
    [fluvio-types/src/event.rs]: the high watermark of a replica is published
    in memory and a background task copies it to a file of eight bytes. *)

From S2P Require Import Prelude.
From stdpp Require Import list.

#[local] Open Scope Z_scope.

(** ** State *)

(** The publisher's value, the last value its listener returned, the [offset]
    field of the writer, the file, and whether the writer still runs. *)
(* src/crates/fluvio-storage/src/checkpoint.rs:46-53 CheckPoint *)
Record CheckPoint := MkCheckPoint {
  current_value : Z;
  last_value : Z;
  writer_offset : Z;
  chk_file : list byte;
  chk_running : bool;
}.

(** [file.seek(0); file.write_all(buf)] *)
Definition overwrite (file buf : list byte) : list byte := buf ++ zdrop (zlen buf) file.

(** The content of the file, if it is eight bytes long. *)
(* src/crates/fluvio-storage/src/checkpoint.rs:181-200 LazyWriter::read *)
Definition lazy_writer_read (contents : list byte) : res Z :=
  if zlen contents =? 8 then Ok (as_i64 (be_combine contents)) else Err InvalidData.

(** [None] when there is no file yet. *)
(* src/crates/fluvio-storage/src/checkpoint.rs:57-101 CheckPoint::create *)
Definition checkpoint_create (file : option (list byte)) (initial_offset : Z) : CheckPoint :=
  match file with
  | Some contents =>
      match lazy_writer_read contents with
      | Ok offset => MkCheckPoint offset 0 offset contents true
      | _ => MkCheckPoint 0 0 0 contents true
      end
  | None => MkCheckPoint initial_offset 0 0 [] true
  end.

(* src/crates/fluvio-storage/src/checkpoint.rs:103-105 CheckPoint::get_offset *)
Definition checkpoint_get_offset (self : CheckPoint) : Z := current_value self.
(* src/crates/fluvio-storage/src/checkpoint.rs:114-117 CheckPoint::write *)
Definition checkpoint_write (pos : Z) (self : CheckPoint) : CheckPoint :=
  MkCheckPoint pos (last_value self) (writer_offset self) (chk_file self) (chk_running self).

(** [listener.listen()] returns the published value. *)
(* src/crates/fluvio-types/src/event.rs:167-187 OffsetChangeListener::listen *)
Definition listen (self : CheckPoint) : Z * CheckPoint :=
  (current_value self,
   MkCheckPoint (current_value self) (current_value self) (writer_offset self) (chk_file self)
     (chk_running self)).

(** The branch of the writer's loop that a new value takes. *)
(* src/crates/fluvio-storage/src/checkpoint.rs:163-172 LazyWriter::write_loop *)
Definition writer_turn (self : CheckPoint) : CheckPoint :=
  let '(offset, self) := listen self in
  if offset =? writer_offset self then self
  else MkCheckPoint (current_value self) (last_value self) (writer_offset self)
         (overwrite (chk_file self) (be_split 8 offset)) (chk_running self).

(** The steps of the program: publishing, a turn of the writer when it is
    notified, the end of the writer. *)
(* src/crates/fluvio-storage/src/checkpoint.rs:150-178 LazyWriter::write_loop *)
Inductive checkpoint_step : CheckPoint -> CheckPoint -> Prop :=
| step_write self pos :
    in_i 64 pos -> checkpoint_step self (checkpoint_write pos self)
| step_turn self :
    chk_running self = true -> checkpoint_step self (writer_turn self)
| step_end self :
    chk_running self = true ->
    checkpoint_step self (MkCheckPoint (current_value self) (last_value self) (writer_offset self)
                            (chk_file self) false).

Inductive reachable_from (start : CheckPoint) : CheckPoint -> Prop :=
| reach_start : reachable_from start start
| reach_step s s' : reachable_from start s -> checkpoint_step s s' -> reachable_from start s'.

(** ** Lemmas *)

Lemma lazy_writer_read_split v : in_i 64 v -> lazy_writer_read (be_split 8 v) = Ok v.
Proof.
  intros Hv. unfold lazy_writer_read. rewrite zlen_be_split. cbn [Z.eqb]. rewrite be_combine_split.
  change (Z.of_nat 8 * 8) with 64. by rewrite wrap_i_mod by done.
Qed.

Lemma overwrite_8 file v : zlen file <= 8 -> overwrite file (be_split 8 v) = be_split 8 v.
Proof.
  intros Hf. unfold overwrite. rewrite zlen_be_split. change (Z.of_nat 8) with 8.
  rewrite zdrop_drop, drop_ge by (unfold zlen in Hf; lia). apply app_nil_r.
Qed.

(** What a checkpoint keeps: the last value written is in the file, unless the
    value is the one the file had when it was opened. *)
Definition checkpoint_inv (initial : CheckPoint) (s : CheckPoint) : Prop :=
  writer_offset s = writer_offset initial /\ in_i 64 (current_value s) /\ in_i 64 (last_value s) /\
  zlen (chk_file s) <= 8 /\
  (last_value s = last_value initial \/ last_value s = writer_offset s \/
   chk_file s = be_split 8 (last_value s)).

Lemma checkpoint_inv_reachable start s :
  in_i 64 (current_value start) -> in_i 64 (last_value start) -> zlen (chk_file start) <= 8 ->
  reachable_from start s -> checkpoint_inv start s.
Proof.
  intros Hc Hl Hf. induction 1 as [|s s' _ IH Hstep]; [repeat split; try apply Hc; try apply Hl; auto|].
  destruct IH as (Ew & Hcv & Hlv & Hz & Hd). inversion Hstep as [? pos Hp|? Hr|? Hr]; subst s'; cbn.
  - repeat split; cbn; try apply Hp; try apply Hlv; auto.
  - unfold writer_turn. cbn. subst. destruct (Z.eqb_spec (current_value s) (writer_offset s)) as [E|E].
    + repeat split; cbn; try apply Hcv; auto.
    + rewrite overwrite_8 by done. split; [done|]. split; [done|]. split; [done|]. cbn.
      rewrite zlen_be_split. split; [done|]. by right; right.
  - repeat split; cbn; try apply Hcv; try apply Hlv; auto.
Qed.

(** ** Properties *)

(** However publishing and the writer interleave, once the writer has
    returned the published offset, and that offset is neither the one the file
    was opened with nor 0, reading the file gives the offset back. *)
Theorem checkpoint_persists (file : option (list byte)) (initial_offset : Z) (s : CheckPoint) :
  in_i 64 initial_offset -> (forall f, file = Some f -> zlen f <= 8) ->
  reachable_from (checkpoint_create file initial_offset) s ->
  last_value s = current_value s -> current_value s <> writer_offset s -> current_value s <> 0 ->
  lazy_writer_read (chk_file s) = Ok (current_value s).
Proof.
  intros Hi Hf Hr El Hw H0. assert (in_i 64 0) as Hz by (split; vm_compute; congruence).
  assert (in_i 64 (current_value (checkpoint_create file initial_offset)) /\
          last_value (checkpoint_create file initial_offset) = 0 /\
          zlen (chk_file (checkpoint_create file initial_offset)) <= 8) as (Hc & Hl & Hb).
  { destruct file as [f|]; cbn; [|split; [done|split; [done|discriminate]]].
    unfold lazy_writer_read. specialize (Hf f eq_refl). case_ltb; cbn; [|done].
    split; [apply wrap_i_range; lia|done]. }
  apply checkpoint_inv_reachable in Hr as (_ & Hcv & _ & _ & Hd); [|done|by rewrite Hl|done].
  rewrite Hl, El in Hd. destruct Hd as [?|[?| ->]]; [done|done|]. by apply lazy_writer_read_split.
Qed.

Definition example_checkpoint : CheckPoint :=
  writer_turn (checkpoint_write 12 (checkpoint_create (Some (be_split 8 10)) 0)).

Lemma example_checkpoint_reachable :
  reachable_from (checkpoint_create (Some (be_split 8 10)) 0) example_checkpoint.
Proof.
  eapply reach_step; [eapply reach_step; [apply reach_start|apply (step_write _ 12)]|].
  - split; vm_compute; congruence.
  - by apply step_turn.
Qed.

Lemma checkpoint_persists_witness : lazy_writer_read (chk_file example_checkpoint) = Ok 12.
Proof.
  apply (checkpoint_persists (Some (be_split 8 10)) 0 example_checkpoint).
  - split; vm_compute; congruence.
  - intros f [= <-]. vm_compute. congruence.
  - apply example_checkpoint_reachable.
  - reflexivity.
  - vm_compute. congruence.
  - vm_compute. congruence.
Defined.

(** The writer compares new offsets with the one the file was opened with,
    not with the one it wrote last.  A high watermark that is lowered at start
    and then comes back to its old value is published, returned to the writer
    and never written: the file keeps the lower one. *)
Theorem checkpoint_lost_update :
  exists s, reachable_from (checkpoint_create (Some (be_split 8 10)) 0) s /\
    chk_running s = true /\ current_value s = 10 /\ last_value s = 10 /\
    lazy_writer_read (chk_file s) = Ok 7.
Proof.
  exists (writer_turn (checkpoint_write 10 (writer_turn (checkpoint_write 7
    (checkpoint_create (Some (be_split 8 10)) 0))))). split; [|vm_compute; done].
  eapply reach_step; [|by apply step_turn].
  eapply reach_step; [|apply step_write; split; vm_compute; congruence].
  eapply reach_step; [|by apply step_turn].
  eapply reach_step; [apply reach_start|apply step_write; split; vm_compute; congruence].
Qed.
