(* ===== verification/StorageReplica.v ===== *)
(** * Replicas

    [fluvio-storage/src/segments.rs], [replica.rs] and [cleaner.rs]: the list
    of closed segments, the replica that appends to the active segment and
    rolls it over, reads, the loading of a replica from its directory and the
    cleaner.  The directory is part of the state: the files of open segments
    are with the segments, the other ones are in [leftover]. *)

From S2P Require Import Prelude Wire Varint Utf8 Scalars Collections Records Batch RecordSet.
From S2P Require Import StorageIndex StorageLog StorageSegment StorageCheckpoint.
From Stdlib Require Import Sorted.
From stdpp Require Import list strings.

#[local] Open Scope Z_scope.

#[export] Program Instance Z_RustOrd : RustOrd Z := {| cmp := Z.compare |}.
Next Obligation. intros k k'. apply Z.compare_antisym. Qed.

(** ** Closed segments *)

(* src/crates/fluvio-storage/src/segments.rs:172-177 SegmentList *)
Record SegmentList := MkSegmentList {
  segments : list (Z * ReadSegment);
  list_min_offset : Z;
  list_max_offset : Z;
}.

(* src/crates/fluvio-storage/src/segments.rs:180-186 SegmentList::new *)
Definition segment_list_new : SegmentList := MkSegmentList [] (-1) 0.
(* src/crates/fluvio-storage/src/segments.rs:193-198 SegmentList::occupied_memory *)
Definition list_occupied_memory (self : SegmentList) : Z :=
  fold_left (fun sum '(_, segment) => wrap_u 64 (sum + occupied_memory segment)) (segments self) 0.
(* src/crates/fluvio-storage/src/segments.rs:212-227 SegmentList::update_min_max *)
Definition update_min_max (self : SegmentList) : SegmentList :=
  let '(max_offset, min_offset) :=
    fold_left (fun '(max_offset, min_offset) '(_, segment) =>
      let base_offset := seg_base_offset segment in
      let end_offset := end_offset segment in
      (if max_offset <? end_offset then end_offset else max_offset,
       if (min_offset <? 0) || (base_offset <? min_offset) then base_offset else min_offset))
      (segments self) (0, -1) in
  MkSegmentList (segments self) min_offset max_offset.
(* src/crates/fluvio-storage/src/segments.rs:201-210 SegmentList::add_segment *)
Definition list_add_segment (segment : ReadSegment) (self : SegmentList) : SegmentList :=
  update_min_max (MkSegmentList (btree_insert (seg_base_offset segment) segment (segments self))
                    (list_min_offset self) (list_max_offset self)).

(** [BTreeMap::remove] and [BTreeMap::range(..).next_back()], which panics on a
    reversed range. *)
Definition btree_remove {V} (k : Z) (m : list (Z * V)) : list (Z * V) :=
  List.filter (fun '(k', _) => negb (k' =? k)) m.
Definition btree_get {V} (k : Z) (m : list (Z * V)) : option V :=
  snd <$> List.find (fun '(k', _) => k' =? k) m.
Definition range_last {E V} (lo hi : Z) (m : list (Z * V)) : outcome E (option (Z * V)) :=
  if hi <? lo then Panic
  else Ok (last (List.filter (fun '(k, _) => (lo <=? k) && (k <=? hi)) m)).

(* src/crates/fluvio-storage/src/segments.rs:239-246 SegmentList::remove_segment *)
Definition list_remove_segment (offset : Z) (self : SegmentList) : option ReadSegment * SegmentList :=
  match btree_get offset (segments self) with
  | Some segment =>
      (Some segment,
       update_min_max (MkSegmentList (btree_remove offset (segments self)) (list_min_offset self)
                         (list_max_offset self)))
  | None => (None, self)
  end.
(* src/crates/fluvio-storage/src/segments.rs:230-236 SegmentList::drain_all *)
Definition drain_all (self : SegmentList) : list ReadSegment * SegmentList :=
  (map snd (segments self), MkSegmentList [] (-1) 0).
(* src/crates/fluvio-storage/src/segments.rs:254-271 SegmentList::find_segment *)
Definition find_segment (offset : Z) (self : SegmentList) : outcome ReadError (option (Z * ReadSegment)) :=
  if offset <? list_min_offset self then Ok None
  else if offset =? list_min_offset self then range_last offset offset (segments self)
  else if list_max_offset self <=? offset then Ok None
  else range_last (as_i64 (offset - list_max_offset self + list_min_offset self + 1)) offset
         (segments self).
(* src/crates/fluvio-storage/src/segments.rs:273-284 SegmentList::find_expired_segments *)
Definition find_expired_segments (now expired_duration : Z) (self : SegmentList) : list Z :=
  omap (fun '(base_offset, segment) =>
    if is_expired now expired_duration segment then Some base_offset else None) (segments self).
(* src/crates/fluvio-storage/src/segments.rs:287-289 SegmentList::find_first *)
Definition find_first (count : Z) (self : SegmentList) : list Z :=
  ztake count (map fst (segments self)).

(* src/crates/fluvio-storage/src/segments.rs:25-29 SharedSegments *)
Record SharedSegments := MkSharedSegments { inner : SegmentList; shared_min_offset : Z }.

(* src/crates/fluvio-storage/src/segments.rs:32-38 SharedSegments::from *)
Definition shared_from (l : SegmentList) : SharedSegments := MkSharedSegments l (list_min_offset l).
(* src/crates/fluvio-storage/src/segments.rs:107-111 SharedSegments::add_segment *)
Definition shared_add_segment (segment : ReadSegment) (self : SharedSegments) : SharedSegments :=
  let l := list_add_segment segment (inner self) in
  MkSharedSegments l (list_min_offset l).
(** The files of the segment are deleted. *)
(* src/crates/fluvio-storage/src/segments.rs:159-169 SharedSegments::remove_segment *)
Definition shared_remove_segment (base_offset : Z) (self : SharedSegments) : SharedSegments :=
  match list_remove_segment base_offset (inner self) with
  | (Some _, l) => MkSharedSegments l (list_min_offset l)
  | (None, l) => MkSharedSegments l (shared_min_offset self)
  end.
(* src/crates/fluvio-storage/src/segments.rs:114-119 SharedSegments::remove_segments *)
Definition remove_segments (base_offsets : list Z) (self : SharedSegments) : SharedSegments :=
  fold_left (fun self offset => shared_remove_segment offset self) base_offsets self.
(* src/crates/fluvio-storage/src/segments.rs:144-156 SharedSegments::remove_all_segments *)
Definition remove_all_segments (self : SharedSegments) : Z * SharedSegments :=
  let '(segments, l) := drain_all (inner self) in
  (zlen segments, MkSharedSegments l (-1)).

Section find.
Context `{PRead}.
(* src/crates/fluvio-storage/src/segments.rs:123-140 SharedSegments::find_slice *)
Definition find_slice (start_offset : Z) (max_offset : option Z) (self : SharedSegments)
    : outcome ReadError (option (ReadSegment * FileSlice)) :=
  obind (find_segment start_offset (inner self)) (fun found =>
    match found with
    | Some (_, segment) =>
        obind (records_slice segment start_offset max_offset) (fun slice =>
          match slice with
          | Some slice => Ok (Some (segment, slice))
          | None => Err ReadOther
          end)
    | None => Ok None
    end).
End find.

(** ** Replicas *)

(** The two files of a segment, with the time of the last change. *)
Record SegFiles := MkSegFiles { f_log : list byte; f_index : list Entry; f_modified : Z }.

(* src/crates/fluvio-storage/src/replica.rs:32-52 FileReplica *)
Record FileReplica := MkFileReplica {
  rep_option : ReplicaConfig;
  active_segment : MutableSegment;
  prev_segments : SharedSegments;
  commit_checkpoint : CheckPoint;
  size_active : Z;
  size_prev : Z;
  short_circuit : bool;
  rep_max_request_size : Z;
  rep_max_segment_size : Z;
  leftover : list (Z * SegFiles);
}.

Definition set_active_segment x (r : FileReplica) := MkFileReplica (rep_option r) x
  (prev_segments r) (commit_checkpoint r) (size_active r) (size_prev r) (short_circuit r)
  (rep_max_request_size r) (rep_max_segment_size r) (leftover r).
Definition set_prev_segments x (r : FileReplica) := MkFileReplica (rep_option r) (active_segment r)
  x (commit_checkpoint r) (size_active r) (size_prev r) (short_circuit r)
  (rep_max_request_size r) (rep_max_segment_size r) (leftover r).
Definition set_commit_checkpoint x (r : FileReplica) := MkFileReplica (rep_option r) (active_segment r)
  (prev_segments r) x (size_active r) (size_prev r) (short_circuit r)
  (rep_max_request_size r) (rep_max_segment_size r) (leftover r).
(* src/crates/fluvio-storage/src/replica.rs:512-514 ReplicaSize::store_active *)
Definition store_active x (r : FileReplica) := MkFileReplica (rep_option r) (active_segment r)
  (prev_segments r) (commit_checkpoint r) x (size_prev r) (short_circuit r)
  (rep_max_request_size r) (rep_max_segment_size r) (leftover r).
(* src/crates/fluvio-storage/src/replica.rs:508-510 ReplicaSize::store_prev *)
Definition store_prev x (r : FileReplica) := MkFileReplica (rep_option r) (active_segment r)
  (prev_segments r) (commit_checkpoint r) (size_active r) x (short_circuit r)
  (rep_max_request_size r) (rep_max_segment_size r) (leftover r).
Definition set_short_circuit x (r : FileReplica) := MkFileReplica (rep_option r) (active_segment r)
  (prev_segments r) (commit_checkpoint r) (size_active r) (size_prev r) x
  (rep_max_request_size r) (rep_max_segment_size r) (leftover r).
Definition set_leftover x (r : FileReplica) := MkFileReplica (rep_option r) (active_segment r)
  (prev_segments r) (commit_checkpoint r) (size_active r) (size_prev r) (short_circuit r)
  (rep_max_request_size r) (rep_max_segment_size r) x.

(* src/crates/fluvio-storage/src/replica.rs:79-81 FileReplica::get_hw *)
Definition get_hw (self : FileReplica) : Z := checkpoint_get_offset (commit_checkpoint self).
(* src/crates/fluvio-storage/src/replica.rs:85-87 FileReplica::get_leo *)
Definition get_leo (self : FileReplica) : Z := end_offset (active_segment self).
(* src/crates/fluvio-storage/src/replica.rs:90-97 FileReplica::get_log_start_offset *)
Definition get_log_start_offset (self : FileReplica) : Z :=
  let min_base_offset := shared_min_offset (prev_segments self) in
  if min_base_offset <? 0 then seg_base_offset (active_segment self) else min_base_offset.
(* src/crates/fluvio-storage/src/replica.rs:119-128 FileReplica::get_partition_size *)
Definition get_partition_size (self : FileReplica) : Z := wrap_u 64 (size_prev self + size_active self).
(* src/crates/fluvio-storage/src/replica.rs:520-523 ReplicaSize::add_prev *)
Definition add_prev (x : Z) (r : FileReplica) : FileReplica :=
  store_prev (wrap_u 64 (size_prev r + x)) r.
(* src/crates/fluvio-storage/src/replica.rs:169-185 FileReplica::update_high_watermark *)
Definition update_high_watermark (offset : Z) (self : FileReplica) : bool * FileReplica :=
  if get_hw self =? offset then (false, self)
  else (true, set_commit_checkpoint (checkpoint_write offset (commit_checkpoint self)) self).
(* src/crates/fluvio-storage/src/replica.rs:318-320 FileReplica::update_high_watermark_to_end *)
Definition update_high_watermark_to_end (self : FileReplica) : bool * FileReplica :=
  update_high_watermark (get_leo self) self.

(** ** Offsets and slices *)

(* src/crates/fluvio-spu-schema/src/isolation.rs:8-12 Isolation *)
Inductive Isolation := ReadUncommitted | ReadCommitted.

(* src/crates/fluvio-storage/src/lib.rs:44-48 OffsetInfo *)
Record OffsetInfo := MkOffsetInfo { hw : Z; info_leo : Z }.
(* src/crates/fluvio-storage/src/lib.rs:50-54 OffsetInfo::default *)
Definition offset_info_default : OffsetInfo := MkOffsetInfo (-1) (-1).
(* src/crates/fluvio-storage/src/lib.rs:79-81 OffsetInfo::is_valid *)
Definition offset_info_is_valid (self : OffsetInfo) : bool :=
  negb ((hw self =? -1) || (info_leo self =? -1)) && (hw self <=? info_leo self).
(* src/crates/fluvio-storage/src/lib.rs:86-97 OffsetInfo::update *)
Definition offset_info_update (other self : OffsetInfo) : bool * OffsetInfo :=
  let hw_change := hw self <? hw other in
  let leo_change := info_leo self <? info_leo other in
  (hw_change || leo_change,
   MkOffsetInfo (if hw_change then hw other else hw self)
     (if leo_change then info_leo other else info_leo self)).
(* src/crates/fluvio-storage/src/lib.rs:100-102 OffsetInfo::newer *)
Definition offset_info_newer (other self : OffsetInfo) : bool :=
  (info_leo other <? info_leo self) || (hw other <? hw self).
(* src/crates/fluvio-storage/src/lib.rs:104-106 OffsetInfo::is_same *)
Definition offset_info_is_same (other self : OffsetInfo) : bool :=
  (hw self =? hw other) && (info_leo self =? info_leo other).
(* src/crates/fluvio-storage/src/lib.rs:109-111 OffsetInfo::is_committed *)
Definition offset_info_is_committed (self : OffsetInfo) : bool := info_leo self =? hw self.

(** A slice goes with the file it is a region of. *)
(* src/crates/fluvio-storage/src/lib.rs:117-122 ReplicaSlice *)
Record ReplicaSlice := MkReplicaSlice {
  slice_start : Z;
  slice_end : OffsetInfo;
  file_slice : option (list byte * FileSlice);
}.

Section replica.
Context `{PRead} `{MemoryMap}.
(** The time of the operation. *)
Context (now : Z).

(** The files a segment with this base offset would be created on. *)
Definition files_at (base_offset : Z) (self : FileReplica) : SegFiles :=
  if base_offset =? seg_base_offset (active_segment self)
  then MkSegFiles (mr_file (msg_log (active_segment self))) (close (active_segment self)) now
  else default (MkSegFiles [] [] now) (btree_get base_offset (leftover self)).

(** [MutableSegment::create(base_offset, option)] in the replica's directory *)
Definition create_segment (base_offset : Z) (self : FileReplica) : sresult MutableSegment :=
  let files := files_at base_offset self in
  segment_create base_offset (rep_option self) (f_log files) (f_index files).

(* src/crates/fluvio-storage/src/replica.rs:485-500 FileReplica::roll_over *)
Definition roll_over : SM FileReplica unit :=
  self ← get;
  let last_offset := end_offset (active_segment self) in
  new_segment ← lift (create_segment last_offset self);
  let old_mut_segment := active_segment self in
  modify (fun self => set_leftover (btree_remove last_offset (leftover self))
                        (set_active_segment new_segment self)) ;;
  old_segment ← lift (as_segment old_mut_segment now);
  modify (add_prev (occupied_memory old_segment)) ;;
  modify (fun self => set_prev_segments (shared_add_segment old_segment (prev_segments self)) self).

Section batches.
Context (crc32c : list byte -> Z) {R : Type} (c : Codec R).

(** [self.active_segment.append_batch(item)] *)
Definition append_active : SM (FileReplica * Batch R) bool :=
  zoom (fun st => (active_segment (fst st), snd st))
    (fun '(s, b) st => (set_active_segment s (fst st), b)) (append_batch crc32c c).

(** Any error closes the replica for writing. *)
Definition or_short_circuit {A} (m : SM (FileReplica * Batch R) A) : SM (FileReplica * Batch R) A := fun st =>
  match m st with
  | (Err e, st) => (Err e, (set_short_circuit true (fst st), snd st))
  | r => r
  end.

(* src/crates/fluvio-storage/src/replica.rs:432-478 FileReplica::write_batch *)
Definition rep_write_batch : SM (FileReplica * Batch R) unit :=
  '(self, _) ← get;
  (if short_circuit self : bool then fail ShortCircuited else mret tt) ;;
  appended ← or_short_circuit append_active;
  (if appended : bool then mret tt
   else
     or_short_circuit (zoom fst (fun r st => (r, snd st)) roll_over) ;;
     appended ← or_short_circuit append_active;
     if appended : bool then mret tt else or_short_circuit (fail SOther)) ;;
  modify (fun st => (store_active (occupied_memory (active_segment (fst st))) (fst st), snd st)).

(** The size of the batches, all of which have to fit. *)
Fixpoint check_sizes (max_segment_size max_request_size total_size : Z) (bs : list (Batch R)) : sresult Z :=
  match bs with
  | [] => Ok total_size
  | batch :: bs =>
      let batch_size := write_size_batch c 0 batch in
      if max_segment_size <? batch_size then Err (BatchExceededSegment batch_size max_segment_size)
      else if max_request_size <? batch_size then Err (BatchTooBig max_request_size)
      else check_sizes max_segment_size max_request_size (total_size + batch_size) bs
  end.

(** [for batch in &mut records.batches { self.write_batch(batch)? }]: the
    batches written, then the ones not reached. *)
Fixpoint write_batches (bs : list (Batch R)) (self : FileReplica)
    : sresult unit * (FileReplica * list (Batch R)) :=
  match bs with
  | [] => (Ok tt, (self, []))
  | b :: bs =>
      match rep_write_batch (self, b) with
      | (Ok _, (self, b)) =>
          let '(r, (self, bs)) := write_batches bs self in (r, (self, b :: bs))
      | (Err e, (self, b)) => (Err e, (self, b :: bs))
      | (Panic, (self, b)) => (Panic, (self, b :: bs))
      end
  end.

(* src/crates/fluvio-storage/src/replica.rs:134-164 FileReplica::write_recordset *)
Definition write_recordset (update_highwatermark : bool) : SM (FileReplica * RecordSet R) Z :=
  '(self, recs) ← get;
  total_size ← lift (check_sizes (rep_max_segment_size self) (rep_max_request_size self) 0 (batches recs));
  (fun st => let '(r, (self, bs)) := write_batches (batches (snd st)) (fst st) in
             (r, (self, MkRecordSet bs))) ;;
  (if update_highwatermark
   then modify (fun st => (snd (update_high_watermark_to_end (fst st)), snd st))
   else mret tt) ;;
  mret total_size.
End batches.

(* src/crates/fluvio-storage/src/replica.rs:365-429 FileReplica::read_records *)
Definition read_records (start_offset : Z) (max_offset : option Z) (max_len : Z) (self : FileReplica)
    : outcome ReadError ReplicaSlice :=
  let hw := get_hw self in
  let leo := get_leo self in
  let slice := MkReplicaSlice (get_log_start_offset self) (MkOffsetInfo hw leo) in
  let limited file s :=
    Ok (slice (Some (file, MkFileSlice (slice_pos s) (Z.min (slice_len s) max_len)))) in
  if seg_base_offset (active_segment self) <=? start_offset then
    if start_offset =? leo then Ok (slice None)
    else if leo <? start_offset then Err ReadOther
    else
      obind (records_slice (active_segment self) start_offset max_offset) (fun found =>
        match found with
        | Some s => limited (mr_file (msg_log (active_segment self))) s
        | None => Err ReadOther
        end)
  else
    obind (find_slice start_offset max_offset (prev_segments self)) (fun found =>
      match found with
      | Some (segment, s) => limited (fs_file (msg_log segment)) s
      | None => Err (OffsetEvicted start_offset (get_log_start_offset self))
      end).
(* src/crates/fluvio-storage/src/replica.rs:102-115 FileReplica::read_partition_slice *)
Definition read_partition_slice (offset max_len : Z) (isolation : Isolation) (self : FileReplica)
    : outcome ReadError ReplicaSlice :=
  match isolation with
  | ReadCommitted => read_records offset (Some (get_hw self)) max_len self
  | ReadUncommitted => read_records offset None max_len self
  end.

(** The old active segment is dropped, its files stay in the directory. *)
Definition replace_active (new_segment : MutableSegment) (self : FileReplica) : FileReplica :=
  let old := active_segment self in
  let files := btree_remove (seg_base_offset new_segment) (leftover self) in
  set_leftover
    (if seg_base_offset old =? seg_base_offset new_segment then files
     else btree_insert (seg_base_offset old) (MkSegFiles (mr_file (msg_log old)) (close old) now) files)
    (set_active_segment new_segment self).
(* src/crates/fluvio-storage/src/replica.rs:328-346 FileReplica::clear_data *)
Definition clear_data (reset_hw : bool) : SM FileReplica Z :=
  modify (fun self => set_prev_segments (snd (remove_all_segments (prev_segments self))) self) ;;
  self ← get;
  let current_leo := get_leo self in
  new_segment ← lift (create_segment current_leo self);
  modify (replace_active new_segment) ;;
  (if reset_hw
   then modify (fun self =>
     set_commit_checkpoint (checkpoint_write current_leo (commit_checkpoint self)) self)
   else mret tt) ;;
  modify (store_prev 0) ;;
  modify (fun self => store_active (occupied_memory (active_segment self)) self) ;;
  mret current_leo.

(** ** Loading *)

(** [for offset in offsets], opening the segments that are full. *)
Fixpoint open_segments (option : ReplicaConfig) (files : list (Z * SegFiles)) (l : SegmentList)
    : sresult SegmentList :=
  match files with
  | [] => Ok l
  | (offset, f) :: files =>
      obind (open_unknown offset option (f_log f) (f_index f) (f_modified f)) (fun segment =>
        open_segments option files (list_add_segment segment l))
  end.
(** [offsets.sort_unstable()] *)
Definition sort_files (dir : list (Z * SegFiles)) : list (Z * SegFiles) :=
  foldr (fun '(k, v) => btree_insert k v) [] dir.
(** The files of the directory, each with the offset of its name; the segments
    and the files of the last one. *)
(* src/crates/fluvio-storage/src/segments.rs:40-93 SharedSegments::from_dir *)
Definition from_dir (option : ReplicaConfig) (dir : list (Z * SegFiles))
    : sresult (SharedSegments * Datatypes.option (Z * SegFiles)) :=
  let offsets := sort_files dir in
  obind (open_segments option (removelast offsets) segment_list_new) (fun l =>
    Ok (shared_from l, last offsets)).
(** [checkpoint] is the content of the checkpoint file. *)
(* src/crates/fluvio-storage/src/replica.rs:216-301 FileReplica::create_or_load_inner *)
Definition create_or_load_inner (base_offset : Z) (option : ReplicaConfig) (dir : list (Z * SegFiles))
    (checkpoint : Datatypes.option (list byte)) : sresult FileReplica :=
  obind (from_dir option dir) (fun '(segments, last_offset_res) =>
    obind
      (match last_offset_res with
       | Some (last_offset, f) =>
           obind (open_for_write last_offset option (f_log f) (f_index f)) (fun last_segment =>
             match validate_and_repair last_segment with
             | (Ok _, last_segment) => Ok last_segment
             | (Err e, _) => Err e
             | (Panic, _) => Panic
             end)
       | None => segment_create base_offset option [] []
       end)
      (fun active_segment =>
        let commit_checkpoint := checkpoint_create checkpoint (seg_base_offset active_segment) in
        let leo := end_offset active_segment in
        let commit_checkpoint :=
          if leo <? checkpoint_get_offset commit_checkpoint
          then checkpoint_write leo commit_checkpoint else commit_checkpoint in
        Ok (MkFileReplica option active_segment segments commit_checkpoint
              (occupied_memory active_segment) 0 false
              (max_request_size option) (segment_max_bytes option) []))).

(** The directory of a replica at the end of a run, without a crash inside a
    write. *)
Definition segment_files (segment : ReadSegment) : SegFiles :=
  MkSegFiles (fs_file (msg_log segment)) (li_entries (seg_index segment))
    (fs_last_modified (msg_log segment)).
Definition replica_dir (self : FileReplica) : list (Z * SegFiles) :=
  let active := active_segment self in
  leftover self
  ++ map (fun '(base_offset, segment) => (base_offset, segment_files segment))
       (segments (inner (prev_segments self)))
  ++ [(seg_base_offset active,
       MkSegFiles (mr_file (msg_log active)) (mi_entries (seg_index active)) now)].

(** ** Cleaning *)

(** [self.replica_size.store_prev(read.occupied_memory())] *)
Definition recount_prev (self : FileReplica) : FileReplica :=
  store_prev (list_occupied_memory (inner (prev_segments self))) self.
(* src/crates/fluvio-storage/src/cleaner.rs:85-111 Cleaner::enforce_size *)
Definition enforce_size : SM FileReplica unit :=
  self ← get;
  let replica_size := wrap_u 64 (size_active self + size_prev self) in
  let excess := Z.max 0 (replica_size - max_partition_size (rep_option self)) in
  if 0 <? excess then
    let segment_size := segment_max_bytes (rep_option self) in
    assert_ (negb (segment_size =? 0)) ;;
    let count_to_remove :=
      excess / segment_size + (if 0 <? excess mod segment_size then 1 else 0) in
    let segments_to_remove := find_first count_to_remove (inner (prev_segments self)) in
    modify (fun self =>
      set_prev_segments (remove_segments segments_to_remove (prev_segments self)) self) ;;
    modify recount_prev
  else mret tt.
(* src/crates/fluvio-storage/src/cleaner.rs:114-132 Cleaner::enforce_ttl *)
Definition enforce_ttl : SM FileReplica unit :=
  self ← get;
  let retention_secs := retention_seconds (rep_option self) in
  let expired_segments := find_expired_segments now retention_secs (inner (prev_segments self)) in
  if 0 <? zlen expired_segments then
    modify (fun self =>
      set_prev_segments (remove_segments expired_segments (prev_segments self)) self) ;;
    modify recount_prev
  else mret tt.
(** The cleaner's turn after its sleep. *)
(* src/crates/fluvio-storage/src/cleaner.rs:74-77 Cleaner::clean *)
Definition clean : SM FileReplica unit := enforce_size ;; enforce_ttl.
End replica.
