(* ===== verification/StorageReplicaLaws.v ===== *)
(** * Properties of replicas

    A replica stores a list of batches: those of its closed segments, which
    follow one another without a gap, and those of the active segment.  Writing
    appends to the list across segments, reading gives a part of it, and
    loading a replica from its directory gives the list back. *)

From S2P Require Import Prelude Wire Varint Utf8 Scalars Collections Records Batch RecordSet.
From S2P Require Import StorageIndex StorageLog StorageSegment StorageCheckpoint StorageReplica.
From Stdlib Require Import Sorted.
From stdpp Require Import list strings sorting.

#[local] Open Scope Z_scope.

(** ** Closing a segment *)

Section closing.
Context `{PReadOK} `{MemoryMapOK}.
Context (crc32c : list byte -> Z) (crc32c_u32 : forall bs, in_u 32 (crc32c bs)).
Context {R : Type} (c : Codec R) `{!RecordsOK c}.
Implicit Types (b : Batch R) (bs : list (Batch R)).

(** The entries of a read-only index: an empty file is mapped as one empty
    entry, which stands for the first batch. *)
Definition read_entries (es : list Entry) : list Entry :=
  match es with [] => [(0, 0)] | _ => es end.

Lemma shrink_entries i es : mut_index_ok i es -> map entry_to_be (shrink i) = es.
Proof.
  intros (-> & _ & Hr & _). unfold written_entries, shrink, resize_entries. f_equal.
  rewrite Z.div_mul by done. rewrite resize_le by (unfold zlen in Hr; lia). by rewrite ztake_take.
Qed.

Lemma shrink_length i es : mut_index_ok i es -> zlen (shrink i) < 2 ^ 29.
Proof.
  intros (_ & _ & Hr & Hl & Hm). unfold shrink, resize_entries, zlen. rewrite length_resize.
  rewrite Z.div_mul by done. rewrite max_entries_eq in Hl by done.
  pose proof (div_entry_size_bound _ Hm). lia.
Qed.

Lemma log_index_open_entries index es :
  map entry_to_be index = es -> zlen index < 2 ^ 29 -> StronglySorted Z.lt (map fst es) ->
  exists l, log_index_open index = Ok l /\ index_holds l (read_entries es).
Proof.
  intros He Hl Hs. unfold log_index_open, INDEX_ENTRY_SIZE in *. destruct index as [|x xs]; cbn in He.
  - rewrite mmap_open_empty. subst es. eexists. split; [reflexivity|]. cbn.
    rewrite ztake_all by (vm_compute; congruence). split; [|split; [done|repeat constructor]].
    cbn. unfold entry_to_be. cbn. by rewrite to_be_0.
  - rewrite mmap_open_same by done. rewrite Z.div_mul by done. rewrite ztake_all by lia.
    destruct (Z.ltb_spec (2 ^ 32 - 1) (zlen (x :: xs) * 8)); [lia|]. eexists. split; [reflexivity|].
    subst es. cbn [read_entries]. split; [done|]. split; [done|exact Hs].
Qed.

Lemma log_index_open_shrink i es :
  mut_index_ok i es ->
  exists l, log_index_open (shrink i) = Ok l /\ index_holds l (read_entries es).
Proof.
  intros Hok. apply log_index_open_entries; [by apply shrink_entries|by eapply shrink_length|apply Hok].
Qed.

Lemma index_sound_read o bs es :
  bs <> [] -> index_sound crc32c c o bs es -> index_sound crc32c c o bs (read_entries es).
Proof.
  intros Hne Hs. destruct es as [|e es]; [|done]. constructor; [|constructor].
  exists 0%nat. split; [destruct bs; cbn; [done|lia]|]. unfold offset_at, pos_at. rewrite !take_0.
  cbn. by rewrite Z.sub_diag.
Qed.

Lemma as_segment_view (s : MutableSegment) bs es modified :
  active_ok crc32c c s bs es -> bs <> [] ->
  exists s', as_segment s modified = Ok s' /\ seg_view crc32c c s' bs (read_entries es) /\
    seg_base_offset s' = seg_base_offset s /\ end_offset s' = end_offset s.
Proof.
  intros [V Ab Am Abel Aord] Hne. pose proof V as [Vb Vl Vf [Vlen Vsz] Ve Veb Vr Vs Vi Vsd].
  destruct (log_index_open_shrink _ _ Vi) as (l & El & Hl).
  unfold as_segment, open_for_read, close. rewrite El. cbn [map_err obind]. eexists.
  split; [reflexivity|]. split; [|done]. split; cbn; try done.
  - split; [done|]. cbn in Vsz. lia.
  - by apply index_sound_read.
Qed.

(** A segment on new files. *)
Lemma segment_create_fresh base option :
  0 <= base < 2 ^ 63 -> segment_max_bytes option < 2 ^ 32 -> in_u 32 (index_max_bytes option) ->
  index_max_bytes option <> 0 ->
  exists s, segment_create base option [] [] = Ok s /\ active_ok crc32c c s [] [] /\
    seg_base_offset s = base /\ end_offset s = base /\ seg_option s = option /\
    mr_max_len (msg_log s) = segment_max_bytes option /\ mr_file (msg_log s) = [] /\
    (0 < index_max_interval_bytes option -> seg_clean s).
Proof.
  intros Hb Hs Hi Hz. destruct (mut_index_create_fresh base option Hi Hz) as (i & Ei & Hok & Eo & El & Ea & Hcl).
  unfold segment_create. rewrite Ei. cbn [map_err obind]. eexists. split; [reflexivity|].
  split; [|split_and!; try done; intros ?; split; [by apply Hcl|done]]. split; cbn; try done.
  - split; cbn; try done; try lia. constructor.
  - right. split; [lia|done].
Qed.
End closing.

(** ** Lists of closed segments *)

Section lists.
Context `{PReadOK} `{MemoryMapOK}.
Context (crc32c : list byte -> Z) (crc32c_u32 : forall bs, in_u 32 (crc32c bs)).
Context {R : Type} (c : Codec R) `{!RecordsOK c}.
Implicit Types (bs : list (Batch R)) (bss : list (list (Batch R))).

(** Closed segments that store [bss], one after another from [o] to [stop]. *)
Fixpoint segs_from (o : Z) (segs : list (Z * ReadSegment)) bss (stop : Z) : Prop :=
  match segs, bss with
  | [], [] => stop = o
  | (k, s) :: segs, bs :: bss =>
      k = o /\ seg_base_offset s = o /\ bs <> [] /\ (exists es, seg_view crc32c c s bs es) /\
      segs_from (end_offset s) segs bss stop
  | _, _ => False
  end.

Lemma segs_from_snoc o segs bss stop s bs es :
  segs_from o segs bss stop -> seg_base_offset s = stop -> bs <> [] -> seg_view crc32c c s bs es ->
  segs_from o (segs ++ [(stop, s)]) (bss ++ [bs]) (end_offset s).
Proof.
  revert o bss. induction segs as [|[k s0] segs IH]; intros o [|bs0 bss] Hs Hb Hne Hv; cbn in *; try done.
  - subst o. repeat split; eauto.
  - destruct Hs as (-> & Hb0 & Hne0 & Hv0 & Hs). repeat split; eauto.
Qed.

Lemma view_grows (s : ReadSegment) bs es :
  seg_view crc32c c s bs es -> bs <> [] -> seg_base_offset s < end_offset s.
Proof.
  intros [Vb Vl Vf Vo Ve Veb Vr Vs Vi Vsd] Hne. pose proof (end_from_ge c _ _ Vl).
  assert (0 < zlen bs) by (by apply zlen_pos). lia.
Qed.

Lemma segs_from_bounds o segs bss stop :
  segs_from o segs bss stop -> o <= stop /\ Forall (fun ks => o <= fst ks < stop) segs.
Proof.
  revert o bss. induction segs as [|[k s] segs IH]; intros o [|bs bss] Hs; cbn in Hs; try done.
  - subst. split; [lia|constructor].
  - destruct Hs as (-> & Hb & Hne & [es Hv] & Hs). pose proof (view_grows s bs es Hv Hne).
    destruct (IH _ _ Hs) as [Hle Hf]. split; [lia|]. constructor; [cbn; lia|].
    eapply List.Forall_impl; [|exact Hf]. cbn. lia.
Qed.

(** The extent of the list. *)
Definition extent (self : SegmentList) (o stop : Z) : Prop :=
  match segments self with
  | [] => list_min_offset self = -1 /\ list_max_offset self = 0
  | _ => list_min_offset self = o /\ list_max_offset self = stop
  end.

Definition min_max_step '(max_offset, min_offset) (ks : Z * ReadSegment) : Z * Z :=
  let '(_, segment) := ks in
  let base_offset := seg_base_offset segment in
  let end_offset := end_offset segment in
  (if max_offset <? end_offset then end_offset else max_offset,
   if (min_offset <? 0) || (base_offset <? min_offset) then base_offset else min_offset).

Lemma min_max_fold o segs bss stop min :
  0 <= o -> segs_from o segs bss stop -> 0 <= min <= o ->
  fold_left min_max_step segs (o, min) = (stop, min).
Proof.
  revert o bss. induction segs as [|[k s] segs IH]; intros o [|bs bss] Ho Hs Hm; cbn in Hs; try done.
  - by subst.
  - destruct Hs as (-> & Hb & Hne & [es Hv] & Hs). pose proof (view_grows s bs es Hv Hne).
    cbn [fold_left min_max_step]. destruct (Z.ltb_spec o (end_offset s)) as [_|]; [|lia].
    destruct (Z.ltb_spec min 0) as [|_]; [lia|]. destruct (Z.ltb_spec (seg_base_offset s) min) as [|_]; [lia|].
    apply (IH _ bss); [lia|done|lia].
Qed.

Lemma update_min_max_extent self o bss stop :
  0 <= o -> segs_from o (segments self) bss stop ->
  segments (update_min_max self) = segments self /\ extent (update_min_max self) o stop.
Proof.
  intros Ho Hs. unfold update_min_max, extent. change (fun '(max_offset, min_offset) => _) with min_max_step.
  destruct (segments self) as [|[k s] segs] eqn:E; [done|]. destruct bss as [|bs bss]; [done|].
  destruct Hs as (-> & Hb & Hne & [es Hv] & Hs). pose proof (view_grows s bs es Hv Hne).
  assert (fold_left min_max_step ((o, s) :: segs) (0, -1) = (stop, o)) as ->; [|done].
  cbn [fold_left]. unfold min_max_step at 2. destruct (Z.ltb_spec 0 (end_offset s)) as [_|]; [|lia].
  change (-1 <? 0) with true. cbn [orb]. rewrite Hb. apply (min_max_fold _ _ bss); [lia|exact Hs|lia].
Qed.

Lemma list_add_segment_spec self s o bss stop bs es :
  0 <= o -> segs_from o (segments self) bss stop -> seg_base_offset s = stop -> bs <> [] ->
  seg_view crc32c c s bs es ->
  segs_from o (segments (list_add_segment s self)) (bss ++ [bs]) (end_offset s) /\
  extent (list_add_segment s self) o (end_offset s).
Proof.
  intros Ho Hs Hb Hne Hv. unfold list_add_segment. rewrite Hb.
  assert (btree_insert stop s (segments self) = segments self ++ [(stop, s)]) as ->.
  { apply btree_insert_last. eapply List.Forall_impl; [|apply (segs_from_bounds _ _ _ _ Hs)].
    intros [k s']. cbn. intros Hk. apply Z.compare_lt_iff. lia. }
  pose proof (segs_from_snoc _ _ _ _ s bs es Hs Hb Hne Hv) as Hs'.
  edestruct (update_min_max_extent (MkSegmentList (segments self ++ [(stop, s)]) (list_min_offset self)
    (list_max_offset self))) as [E1 E2]; [done|exact Hs'|].
  rewrite E1. split; done.
Qed.

Lemma segs_from_split o segs bss stop x :
  segs_from o segs bss stop -> o <= x < stop ->
  exists pre s post prebs bs postbs es,
    segs = pre ++ (seg_base_offset s, s) :: post /\ bss = prebs ++ bs :: postbs /\
    segs_from o pre prebs (seg_base_offset s) /\ seg_view crc32c c s bs es /\ bs <> [] /\
    segs_from (end_offset s) post postbs stop /\ seg_base_offset s <= x < end_offset s.
Proof.
  revert o bss. induction segs as [|[k s] segs IH]; intros o [|bs bss] Hs Hx; cbn in Hs; try done.
  { lia. }
  destruct Hs as (-> & Hb & Hne & [es Hv] & Hs). destruct (Z.lt_ge_cases x (end_offset s)) as [Hlt|Hge].
  - exists [], s, segs, [], bs, bss, es. split_and!; try done; [by rewrite Hb|lia].
  - destruct (IH _ _ Hs ltac:(lia)) as (pre & s' & post & prebs & bs' & postbs & es' & -> & -> & Hp & Hv' & Hne' & Hq & Hx').
    exists ((o, s) :: pre), s', post, (bs :: prebs), bs', postbs, es'. split_and!; try done; cbn; [|lia..]. split_and!; eauto.
Qed.

Lemma filter_all_out {A} (f : A -> bool) l : Forall (fun a => f a = false) l -> List.filter f l = [].
Proof. induction 1 as [|a l Ha _ IH]; [done|]. cbn. by rewrite Ha. Qed.

(** The closed segment that holds an offset is found. *)
Lemma find_segment_spec self o bss stop x :
  0 <= o -> stop < 2 ^ 63 -> segs_from o (segments self) bss stop -> extent self o stop -> o <= x < stop ->
  exists s prebs bs postbs es, bss = prebs ++ bs :: postbs /\ seg_view crc32c c s bs es /\
    segs_from o (take (length prebs) (segments self)) prebs (seg_base_offset s) /\
    seg_base_offset s <= x < end_offset s /\ end_offset s <= stop /\
    find_segment x self = Ok (Some (seg_base_offset s, s)).
Proof.
  intros Ho Hstop Hs He Hx.
  destruct (segs_from_split _ _ _ _ x Hs Hx) as (pre & s & post & prebs & bs & postbs & es & E & -> & Hp & Hv & Hne & Hq & Hxs).
  destruct (segs_from_bounds _ _ _ _ Hp) as [Hle Hpre]. destruct (segs_from_bounds _ _ _ _ Hq) as [Hqe Hpost].
  assert (length pre = length prebs) as Hlen.
  { clear -Hp. revert o prebs Hp. induction pre as [|[k s0] pre IH]; intros o [|b prebs] Hp; cbn in *; try done.
    f_equal. by eapply IH, Hp. }
  exists s, prebs, bs, postbs, es. split; [done|]. split; [done|].
  rewrite E, <-Hlen, take_app_length. split; [exact Hp|]. split; [done|]. split; [lia|].
  assert (forall lo, lo <= seg_base_offset s ->
    range_last (E := ReadError) lo x (segments self) = Ok (Some (seg_base_offset s, s))) as Hr.
  { intros lo Hlo. unfold range_last. destruct (Z.ltb_spec x lo) as [|_]; [lia|].
    rewrite E, List.filter_app. cbn [List.filter].
    destruct (Z.leb_spec lo (seg_base_offset s)) as [_|]; [|lia].
    destruct (Z.leb_spec (seg_base_offset s) x) as [_|]; [|lia]. cbn [andb].
    rewrite (filter_all_out _ post); [by rewrite last_snoc|].
    eapply List.Forall_impl; [|exact Hpost]. intros [k s']. cbn. intros Hk.
    apply andb_false_iff. right. apply Z.leb_gt. lia. }
  unfold extent in He. rewrite E in He.
  assert (list_min_offset self = o /\ list_max_offset self = stop) as [Emin Emax] by (by destruct pre).
  unfold find_segment. rewrite Emin, Emax. destruct (Z.ltb_spec x o) as [|_]; [lia|].
  destruct (Z.eqb_spec x o) as [->|Hn]; [apply Hr; lia|].
  destruct (Z.leb_spec stop x) as [|_]; [lia|].
  rewrite wrap_i_id by (unfold in_i; lia). apply Hr. lia.
Qed.

(** Nothing is found before the first segment. *)
Lemma find_segment_before self o stop x :
  extent self o stop -> x < o \/ segments self = [] -> find_segment x self = Ok None.
Proof.
  unfold extent, find_segment. intros He Hx. destruct (segments self) as [|ks segs] eqn:E.
  - destruct He as [-> ->]. destruct (Z.ltb_spec x (-1)); [done|].
    destruct (Z.eqb_spec x (-1)) as [->|]; [done|]. destruct (Z.leb_spec 0 x) as [|]; [done|lia].
  - destruct He as [-> ->]. destruct Hx as [Hx|]; [|done]. by destruct (Z.ltb_spec x o) as [|]; [|lia].
Qed.
End lists.

(** ** Replicas *)

Section replicas.
Context `{PReadOK} `{MemoryMapOK}.
Context (crc32c : list byte -> Z) (crc32c_u32 : forall bs, in_u 32 (crc32c bs)).
Context {R : Type} (c : Codec R) `{!RecordsOK c}.
Context (now : Z).
Implicit Types (b : Batch R) (bs abs : list (Batch R)) (bss : list (list (Batch R))) (r : FileReplica).

(** A log of at most 2 GiB, so that the sizes the code adds in [u32] do not
    wrap, and an index of batches other than the first. *)
Definition config_ok (config : ReplicaConfig) : Prop :=
  0 <= segment_max_bytes config < 2 ^ 31 /\ in_u 32 (index_max_bytes config) /\
  index_max_bytes config <> 0 /\ 0 < index_max_interval_bytes config.

(** The replica [r] stores from the offset [start] on the batches [bss] in its
    closed segments and [abs] in the active one. *)
Record replica_ok r start bss abs : Prop := {
  ok_active : exists es, active_ok crc32c c (active_segment r) abs es;
  ok_start : 0 <= start;
  ok_prev : segs_from crc32c c start (segments (inner (prev_segments r))) bss
              (seg_base_offset (active_segment r));
  ok_extent : extent (inner (prev_segments r)) start (seg_base_offset (active_segment r));
  ok_min : shared_min_offset (prev_segments r) = list_min_offset (inner (prev_segments r));
  ok_rel : end_offset (active_segment r) - seg_base_offset (active_segment r)
           <= zlen (mr_file (msg_log (active_segment r)));
  ok_size : zlen (mr_file (msg_log (active_segment r))) < 2 ^ 31;
  ok_max : mr_max_len (msg_log (active_segment r)) = segment_max_bytes (rep_option r);
  ok_config : config_ok (rep_option r);
  ok_max_segment : rep_max_segment_size r = segment_max_bytes (rep_option r);
  ok_leftover : Forall (fun kf => fst kf < seg_base_offset (active_segment r)) (leftover r);
  ok_open : short_circuit r = false;
  ok_clean : seg_clean (active_segment r);
}.

(** What operations on the log leave as it was. *)
Definition same_settings r r' : Prop :=
  rep_option r' = rep_option r /\ rep_max_request_size r' = rep_max_request_size r /\
  commit_checkpoint r' = commit_checkpoint r.

(** A batch that can be stored: it has no schema id, and not more offsets than
    bytes. *)
Definition storable b : Prop :=
  valid_batch c (set_base_offset 0 b) /\ has_schema (header b) = false /\
  0 <= last_offset_delta (header b) /\ last_offset_delta (header b) + 1 <= write_size_batch c 0 b.

Lemma storable_valid b o : storable b -> in_i 64 o -> valid_batch c (set_base_offset o b).
Proof. intros [(_ & Hv) _] Ho. split; [done|exact Hv]. Qed.

Lemma storable_size b o :
  storable b -> in_i 64 o -> zlen (wire_batch crc32c c (set_base_offset o b)) = write_size_batch c 0 b.
Proof.
  intros Hb Ho. pose proof (write_size_batch_eq crc32c c _ (storable_valid b o Hb Ho)) as Hw.
  destruct Hb as (_ & Hs & _). cbn [header set_base_offset] in Hw. rewrite Hs in Hw.
  change (write_size_batch c 0 (set_base_offset o b)) with (write_size_batch c 0 b) in Hw. lia.
Qed.

Lemma leo_bounds r start bss abs :
  replica_ok r start bss abs ->
  0 <= seg_base_offset (active_segment r) <= get_leo r /\ get_leo r < 2 ^ 63 /\
  (abs <> [] -> seg_base_offset (active_segment r) < get_leo r).
Proof.
  intros [[es [[Vb Vl _ _ Ve Veb _ _ _ _] _ _ _ _]] _ _ _ _ _ _ _ _ _ _ _ _].
  unfold get_leo. rewrite Ve in *. pose proof (end_from_ge c _ _ Vl). pose proof (zlen_nonneg abs).
  split; [lia|]. split; [done|]. intros Hne. assert (0 < zlen abs) by (by apply zlen_pos). lia.
Qed.

(** A batch that the replica takes is one the active segment can hold. *)
Lemma storable_appendable r start bss abs b :
  replica_ok r start bss abs -> storable b ->
  write_size_batch c 0 b <= segment_max_bytes (rep_option r) ->
  get_leo r + last_offset_delta (header b) + 1 < 2 ^ 63 ->
  appendable c (active_segment r) b /\
  zlen (mr_file (msg_log (active_segment r)))
  + zlen (wire_batch crc32c c (set_base_offset (get_leo r) b)) < 2 ^ 32.
Proof.
  intros Hok Hb Hsz Hend. pose proof (leo_bounds _ _ _ _ Hok) as (Hb1 & Hb2 & _).
  destruct Hok as [_ _ _ _ _ Hrel Hs31 _ [Hc _] _ _ _ _].
  assert (in_i 64 (get_leo r)) as Hi by (unfold in_i; lia).
  rewrite (storable_size b _ Hb Hi). split; [|lia].
  pose proof (storable_valid b _ Hb Hi) as Hv. destruct Hb as (_ & Hns & Hd & Hh). unfold get_leo in *.
  repeat (split; [done|]). lia.
Qed.

Lemma append_active_eq r b res s b' :
  append_batch crc32c c (active_segment r, b) = (res, (s, b')) ->
  append_active crc32c c (r, b) = (res, (set_active_segment s r, b')).
Proof. intros E. unfold append_active, zoom. cbn [fst snd]. by rewrite E. Qed.

(** The batch goes to the active segment when it fits. *)
Lemma append_active_fits r start bss abs b :
  replica_ok r start bss abs -> storable b ->
  write_size_batch c 0 b <= segment_max_bytes (rep_option r) ->
  get_leo r + last_offset_delta (header b) + 1 < 2 ^ 63 ->
  zlen (mr_file (msg_log (active_segment r))) + write_size_batch c 0 b <= segment_max_bytes (rep_option r) ->
  let b' := set_base_offset (get_leo r) b in
  exists s', append_active crc32c c (r, b) = (Ok true, (set_active_segment s' r, b')) /\
    replica_ok (set_active_segment s' r) start bss (abs ++ [b']) /\
    end_offset s' = get_leo r + last_offset_delta (header b) + 1.
Proof.
  intros Hok Hb Hsz Hend Hfit b'. pose proof (leo_bounds _ _ _ _ Hok) as (Hb1 & Hb2 & _).
  assert (in_i 64 (get_leo r)) as Hi by (unfold in_i; lia).
  destruct (storable_appendable _ _ _ _ b Hok Hb Hsz Hend) as [Hap _].
  pose proof (storable_size b _ Hb Hi) as Hw. fold b' in Hw.
  destruct Hok as [[es Ha] Hst Hp He Hm Hrel H31 Hmax Hc Hms Hl Ho Hcl].
  destruct (append_batch_fits crc32c crc32c_u32 c _ _ _ b Ha Hap) as (s' & es' & E & Ha' & Eb & Eo & Em & Ee & Hcl').
  { fold (get_leo r). fold b'. rewrite Hw, Hmax. exact Hfit. }
  exists s'. split; [by apply append_active_eq|]. split; [|done].
  assert (zlen (mr_file (msg_log s')) = zlen (mr_file (msg_log (active_segment r))) + write_size_batch c 0 b) as Hz.
  { destruct Ha as [[_ _ Vf _ _ _ _ _ _ _] _ _ _ _]. destruct Ha' as [[_ _ Vf' _ _ _ _ _ _ _] _ _ _ _].
    cbn in Vf, Vf'. rewrite Vf, Vf', wire_batches_app, zlen_app. fold (get_leo r). fold b'.
    unfold wire_batches at 2. cbn. rewrite app_nil_r. lia. }
  destruct Hc as [Hc1 Hc2]. destruct Hb as (_ & _ & Hd & Hh).
  split; cbn; rewrite ?Eb; try done; try lia; [by eauto..].
Qed.

(** Otherwise the active segment stays as it is. *)
Lemma append_active_full r start bss abs b :
  replica_ok r start bss abs -> storable b ->
  write_size_batch c 0 b <= segment_max_bytes (rep_option r) ->
  get_leo r + last_offset_delta (header b) + 1 < 2 ^ 63 ->
  segment_max_bytes (rep_option r) < zlen (mr_file (msg_log (active_segment r))) + write_size_batch c 0 b ->
  append_active crc32c c (r, b) = (Ok false, (r, set_base_offset (get_leo r) b)).
Proof.
  intros Hok Hb Hsz Hend Hfull. pose proof (leo_bounds _ _ _ _ Hok) as (Hb1 & Hb2 & _).
  assert (in_i 64 (get_leo r)) as Hi by (unfold in_i; lia).
  destruct (storable_appendable _ _ _ _ b Hok Hb Hsz Hend) as [Hap H32].
  pose proof (storable_size b _ Hb Hi) as Hw.
  destruct Hok as [[es Ha] Hst Hp He Hm Hrel H31 Hmax Hc Hms Hl Ho Hcl].
  erewrite append_active_eq.
  2:{ apply (append_batch_full crc32c c _ _ _ b Ha Hap); [exact H32|]. fold (get_leo r). rewrite Hw, Hmax. exact Hfull. }
  by destruct r.
Qed.

Lemma leftover_none r o :
  Forall (fun kf => fst kf < seg_base_offset (active_segment r)) (leftover r) ->
  seg_base_offset (active_segment r) <= o ->
  btree_get o (leftover r) = None /\ btree_remove o (leftover r) = leftover r.
Proof.
  intros Hf Ho. unfold btree_get, btree_remove. induction Hf as [|[k f] l Hk _ IH]; [done|]. cbn in Hk |- *.
  destruct (Z.eqb_spec k o) as [|_]; [lia|]. cbn. destruct IH as [IH1 IH2]. by rewrite IH2.
Qed.

(** Rolling over closes the active segment and starts an empty one. *)
Lemma roll_over_spec r start bss abs :
  replica_ok r start bss abs -> abs <> [] ->
  exists r', roll_over now r = (Ok tt, r') /\ replica_ok r' start (bss ++ [abs]) [] /\
    same_settings r r' /\ get_leo r' = get_leo r /\ mr_file (msg_log (active_segment r')) = [].
Proof.
  intros Hok Hne. pose proof (leo_bounds _ _ _ _ Hok) as (Hb1 & Hb2 & Hlt). specialize (Hlt Hne).
  destruct Hok as [[es Ha] Hst Hp He Hm Hrel H31 Hmax [Hc1 [Hc2 [Hc3 Hc4]]] Hms Hl Ho Hcl].
  destruct (leftover_none r (get_leo r) Hl ltac:(lia)) as [Hlg Hlr].
  destruct (segment_create_fresh crc32c c (get_leo r) (rep_option r)) as (s & Es & Has & Eb & Ee & Eo & Em & Ef & Hclean);
    [lia|lia|done|done|].
  destruct (as_segment_view crc32c c _ _ _ now Ha Hne) as (old & Eold & Vold & Ebo & Eeo).
  destruct (list_add_segment_spec crc32c c _ old _ _ _ abs _ Hst Hp Ebo Hne Vold) as [Hp' He'].
  unfold roll_over. erewrite bind_ok by done. cbv zeta.
  erewrite bind_ok.
  2:{ unfold lift, create_segment, files_at. fold (get_leo r). destruct (Z.eqb_spec (get_leo r) (seg_base_offset (active_segment r))) as [|_]; [lia|].
      rewrite Hlg. cbn [default f_log f_index]. unfold default. cbn. rewrite Es. reflexivity. }
  erewrite bind_ok by done.
  erewrite bind_ok by (unfold lift; rewrite Eold; reflexivity).
  erewrite bind_ok by done. eexists. split; [reflexivity|]. split; [|repeat split; cbn; done].
  fold (get_leo r) in *. rewrite Hlr. rewrite Eeo in *.
  split; cbn; rewrite ?Eb, ?Ee, ?Ef; try done; try (rewrite ?zlen_nil; lia); [by eauto| |by apply Hclean].
  eapply List.Forall_impl; [|exact Hl]. cbn. lia.
Qed.

Lemma store_active_ok r start bss abs x :
  replica_ok r start bss abs -> replica_ok (store_active x r) start bss abs.
Proof. by intros []; split. Qed.

Lemma or_short_circuit_ok {A} (m : SM (FileReplica * Batch R) A) st a st' :
  m st = (Ok a, st') -> or_short_circuit m st = (Ok a, st').
Proof. intros E. unfold or_short_circuit. by rewrite E. Qed.

(** One batch, into the active segment or into a new one. *)
Lemma rep_write_batch_spec r start bss abs b :
  replica_ok r start bss abs -> storable b ->
  write_size_batch c 0 b <= segment_max_bytes (rep_option r) ->
  get_leo r + last_offset_delta (header b) + 1 < 2 ^ 63 ->
  let b' := set_base_offset (get_leo r) b in
  exists r' bss' abs', rep_write_batch now crc32c c (r, b) = (Ok tt, (r', b')) /\
    replica_ok r' start bss' abs' /\ concat bss' ++ abs' = concat bss ++ abs ++ [b'] /\
    same_settings r r' /\ get_leo r' = get_leo r + last_offset_delta (header b) + 1.
Proof.
  intros Hok Hb Hsz Hend b'. unfold rep_write_batch. erewrite bind_ok by done. cbv beta iota.
  rewrite (ok_open _ _ _ _ Hok). erewrite bind_ok by done.
  destruct (Z.le_gt_cases (zlen (mr_file (msg_log (active_segment r))) + write_size_batch c 0 b)
    (segment_max_bytes (rep_option r))) as [Hfit|Hfull].
  - destruct (append_active_fits r start bss abs b Hok Hb Hsz Hend Hfit) as (s' & E & Hok' & Ee).
    erewrite bind_ok by exact (or_short_circuit_ok _ _ _ _ E). cbv beta iota.
    erewrite bind_ok by done. eexists. exists bss, (abs ++ [b']).
    split; [reflexivity|]. split; [by apply store_active_ok|]. done.
  - erewrite bind_ok by (apply or_short_circuit_ok; by apply (append_active_full r start bss abs b)).
    cbv beta iota. fold b'.
    assert (abs <> []) as Hne.
    { intros ->. destruct Hok as [[es [[_ _ Vf _ _ _ _ _ _ _] _ _ _ _]] _ _ _ _ _ _ _ _ _ _ _ _].
      cbn in Vf. rewrite Vf in Hfull. change (wire_batches crc32c c []) with (@nil byte) in Hfull.
      rewrite zlen_nil in Hfull. lia. }
    destruct (roll_over_spec r start bss abs Hok Hne) as (r1 & E1 & Hok1 & Hset & El & Ef).
    destruct Hset as (Eo & Er & Ec).
    destruct (append_active_fits r1 start (bss ++ [abs]) [] b' Hok1) as (s' & E & Hok' & Ee);
      [exact Hb|rewrite Eo; exact Hsz|rewrite El; exact Hend|rewrite Ef, Eo, zlen_nil; exact Hsz|].
    rewrite El in *. change (set_base_offset (get_leo r) b') with b' in *.
    erewrite bind_ok.
    2:{ erewrite bind_ok by (apply or_short_circuit_ok; unfold zoom; cbn [fst snd]; rewrite E1; reflexivity).
        erewrite bind_ok by exact (or_short_circuit_ok _ _ _ _ E). reflexivity. }
    eexists. exists (bss ++ [abs]), [b']. split; [reflexivity|].
    split; [by apply store_active_ok|]. split; [by rewrite concat_app; cbn; rewrite app_nil_r, app_assoc|].
    split; [done|]. exact Ee.
Qed.

(** The batches as they are stored from an offset on. *)
Fixpoint number_batches (o : Z) bs : list (Batch R) :=
  match bs with
  | [] => []
  | b :: bs => set_base_offset o b :: number_batches (o + last_offset_delta (header b) + 1) bs
  end.

Lemma write_batches_spec bs r start bss abs :
  replica_ok r start bss abs -> Forall storable bs ->
  Forall (fun b => write_size_batch c 0 b <= segment_max_bytes (rep_option r)) bs ->
  end_from (get_leo r) bs < 2 ^ 63 ->
  exists r' bss' abs', write_batches now crc32c c bs r = (Ok tt, (r', number_batches (get_leo r) bs)) /\
    replica_ok r' start bss' abs' /\
    concat bss' ++ abs' = concat bss ++ abs ++ number_batches (get_leo r) bs /\
    same_settings r r' /\ get_leo r' = end_from (get_leo r) bs.
Proof.
  revert r bss abs. induction bs as [|b bs IH]; intros r bss abs Hok Hb Hsz Hend.
  { exists r, bss, abs. cbn. rewrite app_nil_r. split_and!; done. }
  apply Forall_cons in Hb as [Hb Hbs]. apply Forall_cons in Hsz as [Hs Hss]. cbn in Hend.
  assert (get_leo r + last_offset_delta (header b) + 1 < 2 ^ 63) as He.
  { assert (forall o, o <= end_from o bs) as Hmono; [|specialize (Hmono (get_leo r + last_offset_delta (header b) + 1)); lia].
    clear -Hbs. induction Hbs as [|b' bs (_ & _ & Hd & _) _ IH]; intros o; cbn; [lia|].
    specialize (IH (o + last_offset_delta (header b') + 1)). lia. }
  destruct (rep_write_batch_spec r start bss abs b Hok Hb Hs He) as (r1 & bss1 & abs1 & E1 & Hok1 & Ec & Hset & El).
  destruct Hset as (Eo & Er & Ek).
  destruct (IH r1 bss1 abs1 Hok1 Hbs) as (r2 & bss2 & abs2 & E2 & Hok2 & Ec2 & (Eo2 & Er2 & Ek2) & El2);
    [by rewrite Eo|by rewrite El|].
  exists r2, bss2, abs2. cbn [write_batches number_batches]. rewrite E1, E2, El. split; [done|].
  split; [done|]. split; [|split; [split_and!; congruence|by rewrite El2, El]].
  rewrite Ec2, El, (app_assoc (concat bss1)), Ec, <-!app_assoc. done.
Qed.

Lemma check_sizes_spec max_segment max_request total bs :
  Forall (fun b => write_size_batch c 0 b <= max_segment /\ write_size_batch c 0 b <= max_request) bs ->
  check_sizes c max_segment max_request total bs
  = Ok (fold_left (fun total b => total + write_size_batch c 0 b) bs total).
Proof.
  intros Hb. revert total. induction Hb as [|b bs [Hb1 Hb2] _ IH]; intros total; [done|]. cbn.
  destruct (Z.ltb_spec max_segment (write_size_batch c 0 b)) as [|_]; [lia|].
  destruct (Z.ltb_spec max_request (write_size_batch c 0 b)) as [|_]; [lia|]. apply IH.
Qed.

Lemma check_sizes_err max_segment max_request total bs :
  Exists (fun b => max_segment < write_size_batch c 0 b \/ max_request < write_size_batch c 0 b) bs ->
  exists e, check_sizes c max_segment max_request total bs = Err e.
Proof.
  intros Hb. revert total. induction Hb as [b bs Hb|b bs _ IH]; intros total; cbn;
    destruct (Z.ltb_spec max_segment (write_size_batch c 0 b)); eauto;
    destruct (Z.ltb_spec max_request (write_size_batch c 0 b)); eauto. lia.
Qed.

Lemma update_high_watermark_hw r o :
  get_hw (snd (update_high_watermark o r)) = o /\ get_leo (snd (update_high_watermark o r)) = get_leo r /\
  (forall start bss abs, replica_ok r start bss abs ->
   replica_ok (snd (update_high_watermark o r)) start bss abs).
Proof.
  unfold update_high_watermark. destruct (Z.eqb_spec (get_hw r) o) as [<-|]; [done|].
  split; [done|]. split; [done|]. by intros start bss abs []; split.
Qed.

Lemma write_recordset_spec r start bss abs recs upd :
  replica_ok r start bss abs -> Forall storable (batches recs) ->
  Forall (fun b => write_size_batch c 0 b <= segment_max_bytes (rep_option r) /\
                   write_size_batch c 0 b <= rep_max_request_size r) (batches recs) ->
  end_from (get_leo r) (batches recs) < 2 ^ 63 ->
  let stored := number_batches (get_leo r) (batches recs) in
  exists r' bss' abs',
    write_recordset now crc32c c upd (r, recs)
    = (Ok (fold_left (fun total b => total + write_size_batch c 0 b) (batches recs) 0),
       (r', MkRecordSet stored)) /\
    replica_ok r' start bss' abs' /\ concat bss' ++ abs' = concat bss ++ abs ++ stored /\
    get_leo r' = end_from (get_leo r) (batches recs) /\
    get_hw r' = (if upd then get_leo r' else get_hw r) /\
    rep_option r' = rep_option r /\ rep_max_request_size r' = rep_max_request_size r.
Proof.
  intros Hok Hb Hsz Hend stored.
  destruct (write_batches_spec (batches recs) r start bss abs Hok Hb) as (r1 & bss1 & abs1 & E & Hok1 & Ec & (Eo & Er & Ek) & El);
    [eapply List.Forall_impl; [|exact Hsz]; cbn; tauto|done|].
  unfold write_recordset. erewrite bind_ok by done. cbv beta iota.
  erewrite bind_ok by (unfold lift; rewrite check_sizes_spec by (rewrite (ok_max_segment _ _ _ _ Hok); exact Hsz); reflexivity).
  erewrite bind_ok by (cbn [fst snd]; rewrite E; reflexivity).
  destruct upd.
  - erewrite bind_ok by done. eexists. exists bss1, abs1. split; [reflexivity|]. cbn [fst].
    unfold update_high_watermark_to_end. destruct (update_high_watermark_hw r1 (get_leo r1)) as (Eh & El' & Hp).
    split; [by apply Hp|]. rewrite El', Eh. unfold update_high_watermark. by destruct (_ =? _).
  - erewrite bind_ok by done. exists r1, bss1, abs1. split; [reflexivity|]. split; [done|].
    split; [done|]. split; [done|]. unfold get_hw. by rewrite Ek.
Qed.
End replicas.

(** ** Reading *)

Section reading.
Context `{PReadOK}.
Context (crc32c : list byte -> Z) (crc32c_u32 : forall bs, in_u 32 (crc32c bs)).
Context {R : Type} (c : Codec R) `{!RecordsOK c}.
Implicit Types (b : Batch R) (bs abs : list (Batch R)) (bss : list (list (Batch R))) (r : FileReplica).

(** What a read of a log [all] that begins at offset [o] gives: the encoding of
    batches that follow one another, from the one that holds [start] on, none
    with an offset from [max_offset] on.  There is at least one batch if the
    first one is complete before [max_offset]. *)
Definition reads_log (o : Z) (all : list (Batch R)) (start : Z) (max_offset : option Z)
    (data : list byte) : Prop :=
  exists pre b post n,
    all = pre ++ b :: post /\
    base_offset b <= start <= base_offset b + last_offset_delta (header b) /\
    data = wire_batches crc32c c (take n (b :: post)) /\
    (forall m, max_offset = Some m -> end_from o (pre ++ take n (b :: post)) <= m) /\
    ((forall m, max_offset = Some m -> base_offset b + last_offset_delta (header b) < m) ->
     (0 < n)%nat).

Lemma reads_log_app o o' before all after start max_offset data :
  end_from o' before = o -> reads_log o all start max_offset data ->
  reads_log o' (before ++ all ++ after) start max_offset data.
Proof.
  intros Eo (pre & b & post & n & -> & Hb & -> & Hm & Hn).
  exists (before ++ pre), b, (post ++ after), (Nat.min n (length (b :: post))).
  assert (take (Nat.min n (length (b :: post))) (b :: post ++ after) = take n (b :: post)) as E.
  { change (b :: post ++ after) with ((b :: post) ++ after). rewrite take_app_le by lia.
    destruct (Nat.min_spec n (length (b :: post))) as [[Hl ->]|[Hl ->]]; [done|].
    by rewrite firstn_all, firstn_all2 by lia. }
  split; [by rewrite <-!app_assoc|]. split; [done|]. rewrite E. split; [done|].
  split; [|cbn; intros Hx; specialize (Hn Hx); lia].
  intros m Em. rewrite <-app_assoc, end_from_app, Eo. by apply Hm.
Qed.

Lemma log_split o bs i b :
  log_from c o bs -> bs !! i = Some b ->
  bs = take i bs ++ b :: drop (S i) bs /\ base_offset b = offset_at o bs i /\
  base_offset b + last_offset_delta (header b) + 1 = offset_at o bs (S i).
Proof.
  intros Hl Hb. split; [by rewrite take_drop_middle|].
  destruct (log_from_lookup c o bs i b Hl Hb) as (E & _ & _). rewrite E. split; [done|].
  by rewrite (offset_at_S o bs i b Hb).
Qed.

(** Reading from one segment. *)
Lemma segment_reads {I L} `{IndexOK I} `{FileRecordsOK L} (s : Segment I L) bs es start max_offset :
  seg_view crc32c c s bs es -> seg_base_offset s <= start < end_offset s ->
  (forall m, max_offset = Some m -> start <= m) ->
  exists sl, records_slice s start max_offset = Ok (Some sl) /\
    reads_log (seg_base_offset s) bs start max_offset (slice_bytes (log_file (msg_log s)) sl).
Proof.
  intros V Hs Hm. pose proof V as [Vb Vl Vf Vo Ve Veb Vr Vs Vi Vsd].
  destruct (records_slice_spec crc32c crc32c_u32 c s bs es start max_offset V Hs Hm)
    as (i & j & sl & E & Hi & Hij & Hstop & Ed).
  assert (i < length bs)%nat as Hil.
  { destruct (Nat.lt_ge_cases i (length bs)) as [|Hge]; [done|]. exfalso.
    replace (offset_at (seg_base_offset s) bs (S i)) with (offset_at (seg_base_offset s) bs i) in Hi; [lia|].
    unfold offset_at. by rewrite !firstn_all2 by lia. }
  destruct (lookup_lt_is_Some_2 bs i Hil) as [b Hb]. destruct (log_split _ _ _ _ Vl Hb) as (Es & Eb & El).
  exists sl. split; [done|]. exists (take i bs), b, (drop (S i) bs), (j - i)%nat.
  split; [done|]. split; [lia|]. rewrite <-(drop_S _ _ _ Hb). split; [done|].
  assert (take i bs ++ take (j - i) (drop i bs) = take j bs) as Et.
  { rewrite take_drop_commute. replace (i + (j - i))%nat with j by lia.
    rewrite <-(take_drop i (take j bs)) at 2. by rewrite take_take, Nat.min_l by lia. }
  rewrite Et. unfold slice_stop in Hstop. split.
  - intros m ->. fold (offset_at (seg_base_offset s) bs j).
    destruct (Z.ltb_spec m (end_offset s)); [tauto|]. subst j. rewrite offset_at_all, <-Ve. done.
  - intros Hlt. enough (i < j)%nat by lia.
    destruct max_offset as [m|]; [|lia]. specialize (Hlt m eq_refl).
    destruct (Z.ltb_spec m (end_offset s)); [|lia].
    destruct (Nat.lt_ge_cases i j) as [|Hge]; [done|]. assert (j = i) as -> by lia. lia.
Qed.

Lemma segs_from_log o segs bss stop :
  segs_from crc32c c o segs bss stop -> log_from c o (concat bss) /\ end_from o (concat bss) = stop.
Proof.
  revert o bss. induction segs as [|[k s] segs IH]; intros o [|bs bss] Hs; cbn in Hs; try done.
  destruct Hs as (-> & Hb & Hne & [es [Vb Vl Vf Vo Ve Veb Vr Vs Vi Vsd]] & Hs).
  destruct (IH _ _ Hs) as [Hl He]. cbn. rewrite log_from_app, end_from_app.
  rewrite Hb in *. by rewrite <-Ve.
Qed.

(** The log of a replica is one log. *)
Lemma replica_log r start bss abs :
  replica_ok crc32c c r start bss abs ->
  log_from c start (concat bss ++ abs) /\ end_from start (concat bss) = seg_base_offset (active_segment r) /\
  end_from start (concat bss ++ abs) = get_leo r.
Proof.
  intros [[es [[Vb Vl Vf Vo Ve Veb Vr Vs Vi Vsd] _ _ _ _]] _ Hp _ _ _ _ _ _ _ _ _ _].
  destruct (segs_from_log _ _ _ _ Hp) as [Hl He]. rewrite log_from_app, end_from_app, He.
  unfold get_leo. done.
Qed.

Lemma replica_start r start bss abs :
  replica_ok crc32c c r start bss abs ->
  get_log_start_offset r = start /\ start <= seg_base_offset (active_segment r) /\
  (segments (inner (prev_segments r)) = [] -> start = seg_base_offset (active_segment r)).
Proof.
  intros [_ Hst Hp He Hm _ _ _ _ _ _ _ _]. unfold get_log_start_offset. rewrite Hm. unfold extent in He.
  destruct (segs_from_bounds crc32c c _ _ _ _ Hp) as [Hle _].
  destruct (segments (inner (prev_segments r))) as [|ks segs]; destruct He as [-> _].
  - destruct bss; [|done]. cbn in Hp. rewrite Hp. done.
  - destruct (Z.ltb_spec start 0); [lia|]. done.
Qed.

(** The bytes of a slice. *)
Definition slice_data (s : ReplicaSlice) : list byte :=
  match file_slice s with Some (file, s) => slice_bytes file s | None => [] end.

Lemma slice_bytes_min file pos len max_len :
  slice_bytes file (MkFileSlice pos (Z.min len max_len)) = ztake max_len (slice_bytes file (MkFileSlice pos len)).
Proof.
  unfold slice_bytes. cbn [slice_pos slice_len]. rewrite !ztake_take, take_take. f_equal. lia.
Qed.

(** A read inside the log. *)
Lemma read_records_inside r start bss abs from max_offset max_len :
  replica_ok crc32c c r start bss abs -> start <= from < get_leo r ->
  (forall m, max_offset = Some m -> from <= m) ->
  exists s data, read_records from max_offset max_len r = Ok s /\ slice_data s = ztake max_len data /\
    reads_log start (concat bss ++ abs) from max_offset data /\
    slice_start s = start /\ slice_end s = MkOffsetInfo (get_hw r) (get_leo r).
Proof.
  intros Hok Hfrom Hm. destruct (replica_log _ _ _ _ Hok) as (_ & Ec & _).
  destruct (replica_start _ _ _ _ Hok) as (Es & _ & _).
  destruct (leo_bounds crc32c c _ _ _ _ Hok) as (Hb & H63 & _).
  pose proof Hok as [[es Ha] Hst Hp He _ _ _ _ _ _ _ _ _]. unfold read_records. rewrite Es.
  destruct (Z.leb_spec (seg_base_offset (active_segment r)) from) as [Hge|Hlt].
  - destruct (Z.eqb_spec from (get_leo r)) as [|_]; [lia|]. destruct (Z.ltb_spec (get_leo r) from) as [|_]; [lia|].
    destruct (segment_reads _ abs es from max_offset (act_view _ _ _ _ _ Ha) ltac:(unfold get_leo in *; lia) Hm)
      as ([pos len] & E & Hr).
    rewrite E. cbn [obind]. eexists _, _. split; [reflexivity|].
    split; [apply slice_bytes_min|]. split; [|done].
    rewrite <-(app_nil_r abs). by apply (reads_log_app (seg_base_offset (active_segment r))).
  - destruct (find_segment_spec crc32c c _ start _ (seg_base_offset (active_segment r)) from Hst ltac:(lia) Hp He ltac:(lia))
      as (s & prebs & bs & postbs & es' & -> & V & Hpre & Hx & _ & Ef).
    destruct (segment_reads s bs es' from max_offset V Hx Hm) as ([pos len] & E & Hr).
    unfold find_slice. rewrite Ef. cbn [obind]. rewrite E. cbn [obind]. eexists _, _. split; [reflexivity|].
    split; [apply slice_bytes_min|]. split; [|done].
    rewrite concat_app. cbn [concat]. rewrite <-!app_assoc.
    destruct (segs_from_log _ _ _ _ Hpre) as [_ Epre]. by apply (reads_log_app (seg_base_offset s)).
Qed.

(** A slice lies in its file. *)
Definition slice_ok (s : ReplicaSlice) : Prop :=
  match file_slice s with
  | Some (file, s) => 0 <= slice_pos s /\ slice_pos s + slice_len s <= zlen file < 2 ^ 32
  | None => True
  end.

Lemma read_records_range r start bss abs from max_offset max_len s :
  replica_ok crc32c c r start bss abs -> start <= from < get_leo r ->
  (forall m, max_offset = Some m -> from <= m) ->
  read_records from max_offset max_len r = Ok s -> slice_ok s.
Proof.
  intros Hok Hfrom Hm. destruct (leo_bounds crc32c c _ _ _ _ Hok) as (Hb & H63 & _).
  pose proof Hok as [[es Ha] Hst Hp He _ _ _ _ _ _ _ _ _]. unfold read_records.
  destruct (Z.leb_spec (seg_base_offset (active_segment r)) from) as [Hge|Hlt].
  - destruct (Z.eqb_spec from (get_leo r)) as [|_]; [lia|]. destruct (Z.ltb_spec (get_leo r) from) as [|_]; [lia|].
    destruct (records_slice (active_segment r) from max_offset) as [[sl|]| |] eqn:E; cbn [obind]; try done. intros [= <-].
    destruct (records_slice_range crc32c crc32c_u32 c _ abs es from max_offset sl (act_view _ _ _ _ _ Ha)
      ltac:(unfold get_leo in *; lia) Hm E). unfold slice_ok. cbn in *. lia.
  - destruct (find_segment_spec crc32c c _ start _ (seg_base_offset (active_segment r)) from Hst ltac:(lia) Hp He ltac:(lia))
      as (sg & prebs & bs & postbs & es' & -> & V & Hpre & Hx & _ & Ef).
    unfold find_slice. rewrite Ef. cbn [obind].
    destruct (records_slice sg from max_offset) as [[sl|]| |] eqn:E; cbn [obind]; try done. intros [= <-].
    destruct (records_slice_range crc32c crc32c_u32 c _ bs es' from max_offset sl V Hx Hm E). unfold slice_ok. cbn in *. lia.
Qed.

(** Reads outside the log. *)
Lemma read_records_outside r start bss abs from max_offset max_len :
  replica_ok crc32c c r start bss abs ->
  (from < start -> read_records from max_offset max_len r = Err (OffsetEvicted from start)) /\
  (from = get_leo r -> read_records from max_offset max_len r
     = Ok (MkReplicaSlice start (MkOffsetInfo (get_hw r) (get_leo r)) None)) /\
  (get_leo r < from -> read_records from max_offset max_len r = Err ReadOther).
Proof.
  intros Hok. destruct (replica_start _ _ _ _ Hok) as (Es & Hle & Hemp).
  destruct (leo_bounds crc32c c _ _ _ _ Hok) as (Hb & H63 & _). unfold read_records. rewrite Es.
  split; [|split].
  - intros Hlt. destruct (Z.leb_spec (seg_base_offset (active_segment r)) from) as [|_]; [lia|].
    unfold find_slice. rewrite (find_segment_before _ _ _ from (ok_extent _ _ _ _ _ _ Hok)) by (by left). done.
  - intros ->. destruct (Z.leb_spec (seg_base_offset (active_segment r)) (get_leo r)) as [_|]; [|lia].
    by rewrite Z.eqb_refl.
  - intros Hgt. destruct (Z.leb_spec (seg_base_offset (active_segment r)) from) as [_|]; [|lia].
    destruct (Z.eqb_spec from (get_leo r)) as [|_]; [lia|]. destruct (Z.ltb_spec (get_leo r) from); [done|lia].
Qed.
End reading.

(** ** Cleaning *)

Section cleaning.
Context `{PReadOK} `{MemoryMapOK}.
Context (crc32c : list byte -> Z) (crc32c_u32 : forall bs, in_u 32 (crc32c bs)).
Context {R : Type} (c : Codec R) `{!RecordsOK c}.
Context (now : Z).
Implicit Types (bs abs : list (Batch R)) (bss : list (list (Batch R))) (r : FileReplica).

Lemma btree_remove_first {V} o (v : V) m :
  Forall (fun kv => o < fst kv) m -> btree_remove o ((o, v) :: m) = m.
Proof.
  intros Hf. unfold btree_remove. cbn. rewrite Z.eqb_refl. cbn.
  induction Hf as [|[k v'] m Hk _ IH]; [done|]. cbn in *. destruct (Z.eqb_spec k o); [lia|]. cbn. by rewrite IH.
Qed.

(** The closed segments after the removal of the first [k]. *)
Definition prev_ok (prev : SharedSegments) start bss stop : Prop :=
  0 <= start /\ segs_from crc32c c start (segments (inner prev)) bss stop /\
  extent (inner prev) start stop /\ shared_min_offset prev = list_min_offset (inner prev).

Lemma remove_first prev k s segs start bss stop :
  prev_ok prev start bss stop -> segments (inner prev) = (k, s) :: segs ->
  exists start', prev_ok (shared_remove_segment k prev) start' (drop 1 bss) stop /\
    segments (inner (shared_remove_segment k prev)) = segs.
Proof.
  intros (Hst & Hp & He & Hm) E. rewrite E in Hp. destruct bss as [|bs bss]; [done|].
  destruct Hp as (-> & Hb & Hne & [es Hv] & Hs). exists (end_offset s).
  pose proof (view_grows crc32c c s bs es Hv Hne) as Hgrow.
  assert (btree_remove start ((start, s) :: segs) = segs) as Er.
  { apply btree_remove_first. eapply List.Forall_impl; [|apply (segs_from_bounds crc32c c _ _ _ _ Hs)]. cbn. lia. }
  assert (list_remove_segment start (inner prev)
    = (Some s, update_min_max (MkSegmentList segs (list_min_offset (inner prev)) (list_max_offset (inner prev))))) as El.
  { unfold list_remove_segment, btree_get. rewrite E. cbn [List.find]. rewrite Z.eqb_refl. cbn [fmap option_fmap option_map snd].
    by rewrite Er. }
  destruct (update_min_max_extent crc32c c
    (MkSegmentList segs (list_min_offset (inner prev)) (list_max_offset (inner prev))) (end_offset s) bss stop)
    as [E1 E2]; [lia|exact Hs|]. cbn [segments] in E1.
  unfold prev_ok, shared_remove_segment. rewrite El. cbn [inner shared_min_offset drop]. rewrite E1.
  split_and!; try done. lia.
Qed.

Lemma remove_prefix k prev start bss stop :
  prev_ok prev start bss stop ->
  exists start', prev_ok (remove_segments (take k (map fst (segments (inner prev)))) prev) start' (drop k bss) stop /\
    segments (inner (remove_segments (take k (map fst (segments (inner prev)))) prev)) = drop k (segments (inner prev)).
Proof.
  revert prev start bss. induction k as [|k IH]; intros prev start bss Hok; [by exists start|].
  destruct (segments (inner prev)) as [|[o s] segs] eqn:E.
  - exists start. cbn. rewrite E. destruct Hok as (Hst & Hp & He & Hm). rewrite E in Hp.
    destruct bss; [|done]. split; [|done]. split_and!; [done|by rewrite E|done|done].
  - destruct (remove_first prev o s segs start bss stop Hok E) as (start1 & Hok1 & E1).
    destruct (IH _ _ _ Hok1) as (start2 & Hok2 & E2). rewrite E1 in *. exists start2.
    cbn [map take fst]. unfold remove_segments in *. cbn [fold_left drop].
    destruct bss as [|bs bss]; [destruct Hok as (_ & Hp & _); by rewrite E in Hp|]. done.
Qed.

(** Removing old segments leaves a replica with a later start. *)
Lemma replica_ok_prev r start bss abs prev start' bss' x :
  replica_ok crc32c c r start bss abs -> prev_ok prev start' bss' (seg_base_offset (active_segment r)) ->
  replica_ok crc32c c (store_prev x (set_prev_segments prev r)) start' bss' abs.
Proof.
  intros [] (Hst & Hp & He & Hm). by split.
Qed.

Lemma replica_prev_ok r start bss abs :
  replica_ok crc32c c r start bss abs ->
  prev_ok (prev_segments r) start bss (seg_base_offset (active_segment r)).
Proof. intros []. by split_and!. Qed.

(** Removing segments through the cleaner. *)
Lemma clean_prefix r start bss abs k :
  replica_ok crc32c c r start bss abs ->
  let removed := take k (map fst (segments (inner (prev_segments r)))) in
  let r' := recount_prev (set_prev_segments (remove_segments removed (prev_segments r)) r) in
  exists start', replica_ok crc32c c r' start' (drop k bss) abs /\
    segments (inner (prev_segments r')) = drop k (segments (inner (prev_segments r))) /\
    size_prev r' = list_occupied_memory (inner (prev_segments r')).
Proof.
  intros Hok removed r'. destruct (remove_prefix k _ _ _ _ (replica_prev_ok _ _ _ _ Hok)) as (start' & Hp & E).
  exists start'. split; [by apply (replica_ok_prev r start bss)|]. split; [exact E|done].
Qed.

(** The segments in the order of their last change. *)
Definition modified_in_order (segs : list (Z * ReadSegment)) : Prop :=
  StronglySorted Z.le (map (fun ks => fs_last_modified (msg_log (snd ks))) segs).

Lemma expired_prefix d segs :
  modified_in_order segs ->
  exists k, omap (fun '(o, s) => if is_expired now d s then Some o else None) segs = take k (map fst segs) /\
    Forall (fun ks => is_expired now d (snd ks) = true) (take k segs) /\
    Forall (fun ks => is_expired now d (snd ks) = false) (drop k segs).
Proof.
  unfold modified_in_order. induction segs as [|[o s] segs IH]; intros Hs; [exists 0%nat; split_and!; [done|constructor..]|].
  cbn [map] in Hs. apply StronglySorted_inv in Hs as [Hs Hf]. cbn [omap list_omap].
  destruct (is_expired now d s) eqn:E.
  - destruct (IH Hs) as (k & Ek & Hx & Hk). exists (S k). split; [cbn; by f_equal|]. split; [by constructor|done].
  - assert (Forall (fun ks => is_expired now d (snd ks) = false) segs) as Hall.
    { rewrite Forall_map in Hf. eapply List.Forall_impl; [|exact Hf]. intros [o' s'] Hle. cbn in Hle |- *.
      unfold is_expired, fs_is_expired in *.
      destruct (Z.ltb_spec now (fs_last_modified (msg_log s'))); [done|].
      destruct (Z.ltb_spec now (fs_last_modified (msg_log s))); [lia|].
      apply Z.ltb_ge. apply Z.ltb_ge in E. lia. }
    exists 0%nat. split; [|by split; constructor]. cbn. clear -Hall.
    induction Hall as [|[o' s'] segs Hn _ IH]; [done|]. cbn [omap list_omap]. cbn in Hn. by rewrite Hn.
Qed.

Lemma modified_drop k segs : modified_in_order segs -> modified_in_order (drop k segs).
Proof.
  unfold modified_in_order. revert segs. induction k as [|k IH]; intros [|ks segs] Hs; cbn [drop]; try done.
  cbn [map] in Hs. apply StronglySorted_inv in Hs as [Hs _]. by apply IH.
Qed.

(** How far the partition is over its size. *)
Definition excess r : Z :=
  Z.max 0 (wrap_u 64 (size_active r + size_prev r) - max_partition_size (rep_option r)).

(** What cleaning leaves: the replica without its [k] oldest segments. *)
Definition cleaned r bss abs (k : nat) r' : Prop :=
  exists start', replica_ok crc32c c r' start' (drop k bss) abs /\
    segments (inner (prev_segments r')) = drop k (segments (inner (prev_segments r))) /\
    get_leo r' = get_leo r /\ get_hw r' = get_hw r /\ rep_option r' = rep_option r.

Lemma enforce_size_spec r start bss abs :
  replica_ok crc32c c r start bss abs -> segment_max_bytes (rep_option r) <> 0 ->
  exists k r', enforce_size r = (Ok tt, r') /\ cleaned r bss abs k r' /\
    excess r <= Z.of_nat k * segment_max_bytes (rep_option r) < excess r + segment_max_bytes (rep_option r).
Proof.
  intros Hok Hz. pose proof (ok_config _ _ _ _ _ _ Hok) as ((Hc & _) & _).
  unfold enforce_size. erewrite bind_ok by done. cbv zeta. fold (excess r).
  destruct (Z.ltb_spec 0 (excess r)) as [Hex|Hex].
  2:{ exists 0%nat, r. split; [done|]. split; [by exists start|]. assert (0 <= excess r) by (unfold excess; lia). lia. }
  set (size := segment_max_bytes (rep_option r)) in *. set (count := excess r / size + _).
  erewrite bind_ok by (apply assert_true; by apply negb_true_iff, Z.eqb_neq).
  do 1 erewrite bind_ok by done. unfold find_first. rewrite ztake_take.
  destruct (clean_prefix r start bss abs (Z.to_nat count) Hok) as (start' & Hok' & Es & _).
  exists (Z.to_nat count). eexists. split; [reflexivity|]. split; [by exists start'|].
  assert (excess r <= count * size < excess r + size) as Hcount.
  { unfold count. pose proof (Z.div_mod (excess r) size ltac:(lia)).
    pose proof (Z.mod_pos_bound (excess r) size ltac:(lia)).
    destruct (Z.ltb_spec 0 (excess r mod size)); nia. }
  assert (0 <= count) by nia. rewrite Z2Nat.id by done. exact Hcount.
Qed.

Lemma enforce_ttl_spec r start bss abs :
  replica_ok crc32c c r start bss abs -> modified_in_order (segments (inner (prev_segments r))) ->
  exists k r', enforce_ttl now r = (Ok tt, r') /\ cleaned r bss abs k r' /\
    Forall (fun ks => is_expired now (retention_seconds (rep_option r)) (snd ks) = true)
      (take k (segments (inner (prev_segments r)))) /\
    Forall (fun ks => is_expired now (retention_seconds (rep_option r)) (snd ks) = false)
      (segments (inner (prev_segments r'))).
Proof.
  intros Hok Hm. destruct (expired_prefix (retention_seconds (rep_option r)) _ Hm) as (k & Ek & Hx & Hk).
  unfold enforce_ttl. erewrite bind_ok by done. cbv zeta. unfold find_expired_segments. rewrite Ek.
  destruct (Z.ltb_spec 0 (zlen (take k (map fst (segments (inner (prev_segments r))))))) as [Hne|He].
  - erewrite bind_ok by done. destruct (clean_prefix r start bss abs k Hok) as (start' & Hok' & Es & _).
    exists k. eexists. split; [reflexivity|]. split; [by exists start'|]. split; [done|]. by rewrite Es.
  - exists 0%nat, r. split; [done|]. split; [by exists start|]. split; [constructor|].
    assert (drop k (segments (inner (prev_segments r))) = segments (inner (prev_segments r))) as E; [|by rewrite E in Hk].
    unfold zlen in He. rewrite length_take, length_map in He.
    destruct (segments (inner (prev_segments r))) as [|ks segs]; [by rewrite drop_nil|].
    destruct k; [done|cbn in He; lia].
Qed.

Lemma cleaned_trans r bss abs k r1 k' r2 :
  cleaned r bss abs k r1 -> cleaned r1 (drop k bss) abs k' r2 -> cleaned r bss abs (k + k') r2.
Proof.
  intros (s1 & _ & E1 & L1 & H1' & O1) (s2 & Hok & E2 & L2 & H2' & O2). exists s2.
  rewrite <-!drop_drop, <-E1. split_and!; [done|done|congruence..].
Qed.

(** A turn of the cleaner: [n] segments go for the size of the partition, the
    fewest that make up for the excess at full segment size, and the next ones
    up to [k] for their age. *)
Definition cleaning r bss abs (n k : nat) r' : Prop :=
  cleaned r bss abs k r' /\ (n <= k)%nat /\
  excess r <= Z.of_nat n * segment_max_bytes (rep_option r) < excess r + segment_max_bytes (rep_option r) /\
  Forall (fun ks => is_expired now (retention_seconds (rep_option r)) (snd ks) = true)
    (drop n (take k (segments (inner (prev_segments r))))) /\
  Forall (fun ks => is_expired now (retention_seconds (rep_option r)) (snd ks) = false) (segments (inner (prev_segments r'))).

Lemma clean_spec r start bss abs :
  replica_ok crc32c c r start bss abs -> modified_in_order (segments (inner (prev_segments r))) ->
  segment_max_bytes (rep_option r) <> 0 -> exists n k r', clean now r = (Ok tt, r') /\ cleaning r bss abs n k r'.
Proof.
  intros Hok Hm Hz. destruct (enforce_size_spec r start bss abs Hok Hz) as (k1 & r1 & E1 & Hc1 & Hex).
  pose proof Hc1 as (start1 & Hok1 & Es1 & _ & _ & Eo1).
  destruct (enforce_ttl_spec r1 start1 (drop k1 bss) abs Hok1) as (k2 & r2 & E2 & Hc2 & Hx & Hn);
    [rewrite Es1; by apply modified_drop|].
  exists k1, (k1 + k2)%nat, r2. unfold clean. erewrite bind_ok by exact E1. split; [done|].
  rewrite Eo1 in Hn, Hx. rewrite Es1 in Hx. split_and!; [by eapply cleaned_trans|lia|lia|lia| |done].
  by rewrite skipn_firstn_comm, Nat.add_comm, Nat.add_sub.
Qed.
End cleaning.

(** ** Loading *)

Section sorting.
Context {V : Type}.
Implicit Types m : list (Z * V).

Definition key_lt (a b : Z * V) : Prop := fst a < fst b.

#[export] Instance key_lt_antisymm : AntiSymm (=) key_lt.
Proof. unfold key_lt. intros a b. lia. Qed.

Lemma btree_insert_perm k (v : V) m : k ∉ map fst m -> btree_insert k v m ≡ₚ (k, v) :: m.
Proof.
  induction m as [|[k' v'] m IH]; intros Hk; [done|]. cbn in Hk |- *.
  rewrite not_elem_of_cons in Hk. destruct Hk as [Hne Hk].
  destruct (Z.compare_spec k k'); [done|done|]. rewrite IH by done. constructor.
Qed.

Lemma btree_insert_keys (P : Z -> Prop) k (v : V) m :
  P k -> Forall (fun kv => P (fst kv)) m -> Forall (fun kv => P (fst kv)) (btree_insert k v m).
Proof.
  intros Hk. induction 1 as [|[k' v'] m Hk' Hf IH]; cbn; [by repeat constructor|].
  destruct (Z.compare_spec k k'); by repeat constructor.
Qed.

Lemma btree_insert_sorted k (v : V) m : StronglySorted key_lt m -> StronglySorted key_lt (btree_insert k v m).
Proof.
  induction m as [|[k' v'] m IH]; intros Hs; cbn; [repeat constructor|].
  pose proof Hs as [Hs' Hf]%StronglySorted_inv. destruct (Z.compare_spec k k') as [->|Hlt|Hgt].
  - by constructor.
  - constructor; [done|]. constructor; [done|].
    eapply List.Forall_impl; [|exact Hf]. unfold key_lt. cbn. lia.
  - constructor; [by apply IH|]. by apply (btree_insert_keys (fun k2 => k' < k2)).
Qed.
End sorting.

(** The order in which the directory lists its files does not matter. *)
Lemma sort_files_perm dir files :
  StronglySorted key_lt files -> dir ≡ₚ files -> sort_files dir = files.
Proof.
  intros Hs Hp. apply (StronglySorted_unique key_lt); [|done|].
  - clear Hp. unfold sort_files. induction dir as [|[k f] dir IH]; cbn; [constructor|].
    by apply btree_insert_sorted.
  - transitivity dir; [|done]. assert (NoDup (map fst dir)) as Hnd.
    { rewrite Hp. clear -Hs. induction Hs as [|kf files _ IH Hf]; cbn; constructor; [|done].
      intros [kf' [E Hin]]%list_elem_of_fmap. apply (proj1 (Forall_forall _ _) Hf) in Hin.
      unfold key_lt in Hin. lia. }
    clear -Hnd. induction dir as [|[k f] dir IH]; [done|]. cbn in Hnd |- *.
    apply NoDup_cons in Hnd as [Hni Hnd]. specialize (IH Hnd).
    rewrite btree_insert_perm; [by rewrite IH|]. by rewrite IH.
Qed.

Section loading.
Context `{PReadOK} `{MemoryMapOK}.
Context (crc32c : list byte -> Z) (crc32c_u32 : forall bs, in_u 32 (crc32c bs)).
Context {R : Type} (c : Codec R) `{!RecordsOK c}.
Context (option : ReplicaConfig).
Implicit Types (b : Batch R) (bs abs : list (Batch R)) (bss : list (list (Batch R))).

(** The files of a closed segment that stores [bs] from [o] on. *)
Record closed_files (f : SegFiles) (o : Z) bs : Prop := {
  cf_batches : bs <> [];
  cf_log : log_from c o bs;
  cf_file : f_log f = wire_batches crc32c c bs;
  cf_end : end_from o bs < 2 ^ 63;
  cf_rel : end_from o bs - o < 2 ^ 32;
  cf_size : zlen (wire_batches crc32c c bs) < 2 ^ 32;
  cf_index_size : zlen (f_index f) < 2 ^ 29;
  cf_sorted : StronglySorted Z.lt (map fst (map entry_to_be (f_index f)));
  cf_sound : index_sound crc32c c o bs (map entry_to_be (f_index f));
}.

Fixpoint dir_segs (o : Z) (files : list (Z * SegFiles)) bss (stop : Z) : Prop :=
  match files, bss with
  | [], [] => stop = o
  | (k, f) :: files, bs :: bss =>
      k = o /\ closed_files f o bs /\ dir_segs (end_from o bs) files bss stop
  | _, _ => False
  end.

Lemma open_unknown_view f o bs :
  0 <= o -> closed_files f o bs ->
  exists s es, open_unknown o option (f_log f) (f_index f) (f_modified f) = Ok s /\
    seg_view crc32c c s bs es /\ seg_base_offset s = o /\ end_offset s = end_from o bs.
Proof.
  intros Ho [Cb Cl Cf Ce Cr Cs Ci Cso Csd].
  destruct (log_index_open_entries (f_index f) _ eq_refl Ci Cso) as (l & El & Hl).
  pose proof (index_sound_read crc32c c o bs _ Cb Csd) as Hsd.
  unfold open_unknown. rewrite El. cbn [map_err obind]. rewrite Cf.
  pose proof (validate_complete crc32c crc32c_u32 c l _ o bs [] Hl Hsd Cl Ho Ce Cr) as Hv.
  rewrite app_nil_r in Hv. rewrite Hv; [|done|done].
  cbn [obind val_error val_at].
  rewrite (leo_val_at crc32c c o bs) by done.
  eexists _, _. split; [reflexivity|]. split; [|done].
  split; cbn; try done; [split; [done|]; lia|exact Hl].
Qed.

Lemma dir_segs_le o files bss stop :
  0 <= o -> dir_segs o files bss stop ->
  o <= stop /\ Forall (fun kf => o <= fst kf < stop) files /\ StronglySorted key_lt files.
Proof.
  revert o bss. induction files as [|[k f] files IH]; intros o [|bs bss] Ho Hs; cbn in Hs; try done.
  - subst. split; [lia|]. split; constructor.
  - destruct Hs as (-> & [Cb Cl Cf Ce Cr Cs Ci Cso Csd] & Hs). pose proof (end_from_ge c _ _ Cl).
    assert (0 < zlen bs) by (by apply zlen_pos). destruct (IH (end_from o bs) bss ltac:(lia) Hs) as (Hle & Hf & Hss).
    split; [lia|]. split.
    + constructor; [cbn; lia|]. eapply List.Forall_impl; [|exact Hf]. cbn. lia.
    + constructor; [done|]. eapply List.Forall_impl; [|exact Hf]. unfold key_lt. cbn. lia.
Qed.

Lemma open_segments_spec files start o bss0 bss stop l :
  0 <= start -> segs_from crc32c c start (segments l) bss0 o -> extent l start o ->
  dir_segs o files bss stop ->
  exists l', open_segments option files l = Ok l' /\
    segs_from crc32c c start (segments l') (bss0 ++ bss) stop /\ extent l' start stop.
Proof.
  intros Hst. revert l o bss0 bss. induction files as [|[k f] files IH]; intros l o bss0 [|bs bss] Hs He Hd; cbn in Hd; try done.
  - subst. exists l. by rewrite app_nil_r.
  - destruct Hd as (-> & Hc & Hd). destruct (segs_from_bounds crc32c c _ _ _ _ Hs) as [Hle _].
    destruct (open_unknown_view f o bs ltac:(lia) Hc) as (s & es & Es & Hv & Eb & Ee).
    destruct (list_add_segment_spec crc32c c l s start bss0 o bs es Hst Hs Eb (cf_batches _ _ _ Hc) Hv) as [Hs' He'].
    rewrite Ee in *. cbn [open_segments]. rewrite Es. cbn [obind].
    destruct (IH _ _ _ bss Hs' He' Hd) as (l' & El & Hs2 & He2). exists l'. by rewrite <-app_assoc in Hs2.
Qed.

(** The files of the active segment: complete batches, at most a part of one
    more, and an index of complete batches with a free slot. *)
Record active_files (f : SegFiles) (o : Z) abs : Prop := {
  af_log : log_from c o abs;
  af_file : exists tail, f_log f = wire_batches crc32c c abs ++ tail /\ torn_tail crc32c c tail /\
    zlen (f_log f) < 2 ^ 31;
  af_end : end_from o abs < 2 ^ 63;
  af_rel : end_from o abs - o <= zlen (wire_batches crc32c c abs);
  af_index : exists es, index_file_holds (f_index f) es /\ StronglySorted Z.lt (map fst es) /\
    Forall (fun e => snd e <> 0) es /\ index_sound crc32c c o abs es /\
    zlen es < index_max_bytes option / INDEX_ENTRY_SIZE;
}.

Lemma open_active f o abs :
  config_ok option -> 0 <= o -> active_files f o abs ->
  exists s0 s' es, open_for_write o option (f_log f) (f_index f) = Ok s0 /\
    validate_and_repair s0 = (Ok (end_from o abs), s') /\ active_ok crc32c c s' abs es /\
    seg_base_offset s' = o /\ seg_option s' = option /\
    mr_max_len (msg_log s') = segment_max_bytes option /\ seg_clean s'.
Proof.
  intros (Hc1 & Hc2 & Hc3 & Hc4) Ho [Al (tail & Ef & Ht & Hz) Ae Ar (es & Hi & Hs & Hp & Hsd & Hn)].
  rewrite Ef in *. pose proof (zlen_nonneg tail). rewrite zlen_app in Hz.
  destruct (recover_segment_spec crc32c crc32c_u32 c o option abs tail (f_index f) es) as (s0 & s' & E0 & E & Ha & Eb & Eo & Em & Hcl);
    try done; try lia; [rewrite zlen_app; lia|unfold in_u; lia|].
  exists s0, s', es. split_and!; try done. by apply Hcl.
Qed.

(** [sort_unstable] and [pop]. *)
Lemma from_dir_spec dir files o f start bss :
  0 <= start -> dir_segs start files bss o -> dir ≡ₚ files ++ [(o, f)] ->
  exists l, from_dir option dir = Ok (shared_from l, Some (o, f)) /\
    segs_from crc32c c start (segments l) bss o /\ extent l start o.
Proof.
  intros Hst Hd Hp. destruct (dir_segs_le _ _ _ _ Hst Hd) as (Hle & Hf & Hs).
  unfold from_dir. rewrite (sort_files_perm dir (files ++ [(o, f)])); [| |done].
  2:{ apply StronglySorted_snoc; [done|]. eapply List.Forall_impl; [|exact Hf]. unfold key_lt. cbn. lia. }
  rewrite removelast_last, last_snoc.
  destruct (open_segments_spec files start start [] bss o segment_list_new) as (l & El & Hsl & He); [done..|].
  rewrite El. exists l. done.
Qed.

Lemma load_spec base dir files o f start bss abs checkpoint :
  config_ok option -> 0 <= start -> dir_segs start files bss o -> active_files f o abs ->
  dir ≡ₚ files ++ [(o, f)] ->
  exists r, create_or_load_inner base option dir checkpoint = Ok r /\
    replica_ok crc32c c r start bss abs /\ get_leo r = end_from o abs /\
    get_hw r = Z.min (checkpoint_get_offset (checkpoint_create checkpoint o)) (get_leo r) /\
    size_prev r = 0.
Proof.
  intros Hc Hst Hd Hf Hp. destruct (dir_segs_le _ _ _ _ Hst Hd) as (Hle & _ & _).
  destruct (from_dir_spec dir files o f start bss Hst Hd Hp) as (l & El & Hs & He).
  destruct (open_active f o abs Hc ltac:(lia) Hf) as (s0 & s & es & E0 & E1 & Ha & Eb & Eo & Em & Hcl).
  unfold create_or_load_inner. rewrite El. cbn [obind]. rewrite E0. cbn [obind]. rewrite E1. cbn [obind].
  pose proof Ha as [[Vb Vl Vf Vo Ve Veb Vr Vs Vi Vsd] _ _ _ _]. cbn in Vf.
  destruct Hf as [Al (tail & Ef & Ht & Hz) Ae Ar _]. rewrite Ef, zlen_app in Hz. pose proof (zlen_nonneg tail).
  eexists. split; [reflexivity|]. rewrite Eb in *. split.
  - split; cbn; rewrite ?Eb, ?Ve, ?Vf; try done; first [by eauto|lia].
  - unfold get_leo, get_hw. cbn. rewrite Ve, ?Eb. split; [done|]. split; [|done].
    destruct (Z.ltb_spec (end_from o abs) (checkpoint_get_offset (checkpoint_create checkpoint o))); cbn; unfold checkpoint_get_offset in *; lia.
Qed.

(** An index has not more entries than the log has batches. *)
Lemma index_sound_length o bs es :
  StronglySorted Z.lt (map fst es) -> index_sound crc32c c o bs es -> (length es <= length bs)%nat.
Proof.
  intros Hs Hsd.
  assert (es ⊆+ map (fun j => (offset_at o bs j - o, pos_at crc32c c bs j)) (seq 0 (length bs))) as Hsub.
  { apply NoDup_submseteq.
    - apply (NoDup_fmap_1 fst). change (fst <$> es) with (map fst es).
      induction Hs as [|k ks _ IH Hf]; [by constructor|]. constructor; [|done].
      intros Hin. apply (proj1 (Forall_forall _ _) Hf) in Hin. lia.
    - intros e He. apply (proj1 (Forall_forall _ _) Hsd) in He as (j & Hj & ->).
      apply list_elem_of_fmap. exists j. split; [done|]. apply elem_of_seq. lia. }
  apply submseteq_length in Hsub. by rewrite length_map, length_seq in Hsub.
Qed.

(** What the directory of a replica holds. *)
Lemma segs_dir o segs bss stop :
  segs_from crc32c c o segs bss stop ->
  dir_segs o (map (fun '(base_offset, segment) => (base_offset, segment_files segment)) segs) bss stop.
Proof.
  revert o bss. induction segs as [|[k s] segs IH]; intros o [|bs bss] Hs; cbn in Hs; try done.
  destruct Hs as (-> & Hb & Hne & [es [Vb Vl Vf Vo Ve Veb Vr Vs Vi Vsd]] & Hs).
  rewrite Hb in *. rewrite Ve in *. cbn. split; [done|]. split; [|by apply IH].
  destruct Vi as (Ei & _ & Hsort). cbn in Vf. split; cbn; rewrite <-?Ei; try done.
  pose proof (index_sound_length _ _ _ Hsort Vsd) as Hlen. rewrite Ei, length_map in Hlen.
  pose proof (zlen_wire_batches_min crc32c c bs) as Hmin. unfold zlen in *. lia.
Qed.

Lemma replica_dir_files now r start bss abs :
  replica_ok crc32c c r start bss abs -> rep_option r = option ->
  first_empty_slot (seg_index (active_segment r)) < index_max_bytes option / INDEX_ENTRY_SIZE ->
  let active := active_segment r in
  active_files (MkSegFiles (mr_file (msg_log active)) (mi_entries (seg_index active)) now)
    (seg_base_offset active) abs.
Proof.
  intros Hok Eo Hroom active. pose proof Hok as [[es Ha] _ _ _ _ Hrel H31 _ _ _ _ _ [Hcl _]].
  fold active in Ha, Hrel, H31, Hcl, Hroom.
  destruct Ha as [[Vb Vl Vf Vo Ve Veb Vr Vs Vi Vsd] _ _ _ _]. cbn in Vf. rewrite Vf in *.
  split; cbn; try done; [exists []; by rewrite app_nil_r; split; [|split; [left|]]|by rewrite <-Ve|by rewrite <-Ve|].
  exists es. split; [intros n; by apply clean_index_holds|]. pose proof Vi as (Ew & Hs & Hr & _).
  split; [done|]. split; [rewrite Ew; apply Hcl|]. split; [done|].
  rewrite Ew. unfold written_entries, zlen. rewrite length_map. fold (zlen (ztake (first_empty_slot (seg_index active)) (mi_entries (seg_index active)))).
  rewrite zlen_ztake by lia. lia.
Qed.
End loading.

(** ** Clearing *)

Section clearing.
Context `{PReadOK} `{MemoryMapOK}.
Context (crc32c : list byte -> Z) (crc32c_u32 : forall bs, in_u 32 (crc32c bs)).
Context {R : Type} (c : Codec R) `{!RecordsOK c}.
Context (now : Z).
Implicit Types (bs abs : list (Batch R)) (bss : list (list (Batch R))) (r : FileReplica).

(** A replica in an empty directory. *)
Lemma load_fresh base option :
  config_ok option -> 0 <= base < 2 ^ 63 ->
  exists r, create_or_load_inner base option [] None = Ok r /\ replica_ok crc32c c r base [] [] /\
    rep_option r = option /\ get_leo r = base /\ get_hw r = base /\
    rep_max_request_size r = max_request_size option /\ leftover r = [].
Proof.
  intros Hc Hb. pose proof Hc as (Hc1 & Hc2 & Hc3 & Hc4).
  destruct (segment_create_fresh crc32c c base option) as (s & Es & Ha & Eb & Ee & Eo & Em & Ef & Hcl);
    [lia|lia|done|done|].
  unfold create_or_load_inner, from_dir. cbn [sort_files foldr removelast open_segments obind last].
  rewrite Es. cbn [obind]. eexists. split; [reflexivity|].
  split; [|unfold get_leo, get_hw; cbn; rewrite ?Ee, ?Eb, Z.ltb_irrefl; split_and!; done].
  split; cbn; rewrite ?Eb, ?Ee, ?Ef, ?zlen_nil; try done; try lia; [by eauto|by apply Hcl].
Qed.

(** The files of the active segment after it is closed. *)
Lemma closed_active (s : MutableSegment) abs es modified :
  active_ok crc32c c s abs es -> abs <> [] ->
  closed_files crc32c c (MkSegFiles (mr_file (msg_log s)) (close s) modified) (seg_base_offset s) abs.
Proof.
  intros [[Vb Vl Vf Vo Ve Veb Vr Vs Vi Vsd] _ _ _ _] Hne. cbn in Vf. rewrite Ve in *.
  pose proof (shrink_entries _ _ Vi) as He. pose proof (shrink_length _ _ Vi) as Hl. destruct Vi as (_ & Hs & _).
  split; cbn; unfold close; rewrite ?He; done.
Qed.

Lemma clear_data_spec r start bss abs reset_hw :
  replica_ok crc32c c r start bss abs -> leftover r = [] -> abs <> [] ->
  let old := active_segment r in
  let leo := get_leo r in
  exists r', clear_data now reset_hw r = (Ok leo, r') /\ replica_ok crc32c c r' leo [] [] /\
    leftover r' = [(seg_base_offset old, MkSegFiles (mr_file (msg_log old)) (close old) now)] /\
    get_leo r' = leo /\ get_hw r' = (if reset_hw then leo else get_hw r) /\
    segments (inner (prev_segments r')) = [] /\ seg_base_offset (active_segment r') = leo /\
    first_empty_slot (seg_index (active_segment r')) = 0 /\ rep_option r' = rep_option r.
Proof.
  intros Hok El Hne old leo. pose proof (leo_bounds crc32c c _ _ _ _ Hok) as (Hb1 & Hb2 & Hlt). specialize (Hlt Hne).
  destruct Hok as [[es Ha] Hst Hp He Hm Hrel H31 Hmax (Hc1 & Hc2 & Hc3 & Hc4) Hms Hl Ho Hcl].
  destruct (segment_create_fresh crc32c c leo (rep_option r)) as (s & Es & Has & Eb & Ee & Eo & Em & Ef & Hclean);
    [unfold leo; lia|lia|done|done|].
  assert (first_empty_slot (seg_index s) = 0) as E0.
  { unfold segment_create, mut_index_create in Es. destruct (_ =? 0); [done|]. cbn in Es. by injection Es as <-. }
  unfold clear_data. erewrite bind_ok by done. erewrite bind_ok by done. cbv zeta.
  erewrite bind_ok.
  2:{ unfold lift, create_segment, files_at. cbn [active_segment set_prev_segments leftover rep_option get_leo].
      change (get_leo (set_prev_segments (snd (remove_all_segments (prev_segments r))) r)) with leo.
      destruct (Z.eqb_spec leo (seg_base_offset (active_segment r))) as [|_]; [unfold leo in *; lia|].
      rewrite El. cbn. rewrite Es. reflexivity. }
  erewrite bind_ok by done.
  assert (seg_base_offset old =? seg_base_offset s = false) as Ene by (apply Z.eqb_neq; rewrite Eb; unfold old, leo in *; lia).
  destruct reset_hw; (erewrite bind_ok by done); do 2 (erewrite bind_ok by done);
    (eexists; split; [reflexivity|]; unfold replace_active; cbn [active_segment set_prev_segments leftover];
     fold old; rewrite Ene, El; cbn [btree_remove List.filter btree_insert];
     split; [|unfold get_leo, get_hw; cbn; rewrite ?Eb, ?Ee; done];
     split; cbn; rewrite ?Eb, ?Ee, ?Ef, ?zlen_nil; try done; try (unfold leo; lia);
     [by eauto|constructor; [exact Hlt|constructor]|by apply Hclean]).
Qed.
End clearing.

(** ** Properties *)

(** C1: writing a record set appends its batches to the log of the replica, in
    order and numbered from the log end offset on, whatever segments are closed
    and started on the way; the log end offset moves past the last of them, and
    the high watermark follows it exactly when that is asked for. *)
Theorem write_recordset_correct `{PReadOK} `{MemoryMapOK} (now : Z) (crc32c : list byte -> Z)
    {R} (c : Codec R) `{!RecordsOK c} (r : FileReplica) (start : Z) (bss : list (list (Batch R)))
    (abs : list (Batch R)) (recs : RecordSet R) (update_highwatermark : bool) :
  (forall x, in_u 32 (crc32c x)) -> replica_ok crc32c c r start bss abs ->
  Forall (storable c) (batches recs) ->
  Forall (fun b => write_size_batch c 0 b <= segment_max_bytes (rep_option r) /\
                   write_size_batch c 0 b <= rep_max_request_size r) (batches recs) ->
  end_from (get_leo r) (batches recs) < 2 ^ 63 ->
  let stored := number_batches (get_leo r) (batches recs) in
  exists r' bss' abs' size,
    write_recordset now crc32c c update_highwatermark (r, recs) = (Ok size, (r', MkRecordSet stored)) /\
    replica_ok crc32c c r' start bss' abs' /\ concat bss' ++ abs' = (concat bss ++ abs) ++ stored /\
    get_leo r' = end_from (get_leo r) (batches recs) /\
    get_hw r' = if update_highwatermark then get_leo r' else get_hw r.
Proof.
  intros Hc Hok Hb Hsz Hend stored.
  destruct (write_recordset_spec crc32c Hc c now r start bss abs recs update_highwatermark Hok Hb Hsz Hend)
    as (r' & bss' & abs' & E & Hok' & Ec & El & Eh & _).
  exists r', bss', abs'. eexists. rewrite <-app_assoc. done.
Qed.

Definition three_batches : RecordSet (list byte) :=
  MkRecordSet [raw_batch "first"; raw_batch "second"; raw_batch "third"].

Lemma dense_config_ok : config_ok dense_config.
Proof. repeat split; vm_compute; congruence. Qed.

Lemma raw_batch_storable p :
  zlen (bytes_of_string p) < 2 ^ 30 -> storable codec_raw (raw_batch p).
Proof.
  intros Hp. split; [apply raw_batch_valid; [split; vm_compute; congruence|done]|].
  split; [done|]. split; [done|]. unfold write_size_batch. cbn. unfold raw_batch.
  pose proof (zlen_nonneg (bytes_of_string p)). unfold BATCH_FILE_HEADER_SIZE, BATCH_PREAMBLE_SIZE, BATCH_HEADER_SIZE. lia.
Qed.

Lemma three_storable : Forall (storable codec_raw) (batches three_batches).
Proof. repeat constructor; apply raw_batch_storable; reflexivity. Qed.

(** The example replica: a new one, then three batches. *)
Lemma example_replica :
  exists r, create_or_load_inner 0 dense_config [] None = Ok r /\ replica_ok sum32 codec_raw r 0 [] [] /\
    get_leo r = 0 /\ get_hw r = 0 /\ rep_option r = dense_config /\ leftover r = [] /\
    Forall (fun b => write_size_batch codec_raw 0 b <= segment_max_bytes (rep_option r) /\
                     write_size_batch codec_raw 0 b <= rep_max_request_size r) (batches three_batches).
Proof.
  destruct (load_fresh sum32 codec_raw 0 dense_config dense_config_ok) as (r & E & Hok & Eo & El & Eh & Em & Elf).
  { split; [done|reflexivity]. }
  exists r. split_and!; try done. rewrite Eo, Em. repeat constructor; vm_compute; congruence.
Qed.

Lemma write_recordset_correct_witness :
  exists r r' bss' abs' size,
    create_or_load_inner 0 dense_config [] None = Ok r /\
    let stored := number_batches (get_leo r) (batches three_batches) in
    write_recordset 0 sum32 codec_raw true (r, three_batches) = (Ok size, (r', MkRecordSet stored)) /\
    replica_ok sum32 codec_raw r' 0 bss' abs' /\ concat bss' ++ abs' = (concat [] ++ []) ++ stored /\
    get_leo r' = 3 /\ get_hw r' = get_leo r'.
Proof.
  destruct example_replica as (r & E & Hok & El & _ & _ & _ & Hsz).
  destruct (write_recordset_correct 0 sum32 codec_raw r 0 [] [] three_batches true sum32_u32 Hok three_storable Hsz)
    as (r' & bss' & abs' & size & Ew & Hok' & Ec & El' & Eh); [rewrite El; reflexivity|].
  exists r, r', bss', abs', size. split; [done|]. split; [done|]. split; [done|]. split; [done|].
  split; [|done]. rewrite El', El. reflexivity.
Defined.

(** A record set with a batch larger than a segment or than a request is
    refused before anything of it is written. *)
Theorem write_recordset_too_big `{PRead} `{MemoryMap} (now : Z) (crc32c : list byte -> Z)
    {R} (c : Codec R) (r : FileReplica) (recs : RecordSet R) (update_highwatermark : bool) :
  Exists (fun b => rep_max_segment_size r < write_size_batch c 0 b \/
                   rep_max_request_size r < write_size_batch c 0 b) (batches recs) ->
  exists e, write_recordset now crc32c c update_highwatermark (r, recs) = (Err e, (r, recs)).
Proof.
  intros Hb. destruct (check_sizes_err c _ _ 0 _ Hb) as [e E]. exists e.
  unfold write_recordset. erewrite bind_ok by done. cbv beta iota.
  erewrite bind_err by (unfold lift; rewrite E; reflexivity). done.
Qed.

Lemma write_recordset_too_big_witness :
  exists r e, create_or_load_inner 0 dense_config [] None = Ok r /\
    let recs := MkRecordSet [raw_batch "fits"; MkBatch 0 0 batch_header_default SCHEMA_ID_NULL (replicate 1000 Byte.x61)] in
    write_recordset 0 sum32 codec_raw false (r, recs) = (Err e, (r, recs)).
Proof.
  destruct example_replica as (r & E & Hok & _ & _ & Eo & _).
  destruct (write_recordset_too_big 0 sum32 codec_raw r
    (MkRecordSet [raw_batch "fits"; MkBatch 0 0 batch_header_default SCHEMA_ID_NULL (replicate 1000 Byte.x61)]) false) as [e Ee].
  { apply Exists_cons. right. apply Exists_cons. left. left.
    rewrite (ok_max_segment _ _ _ _ _ _ Hok), Eo. vm_compute. reflexivity. }
  exists r, e. done.
Defined.

(** C23: a consumer that reads a partition from an offset of its log, for a
    committed read one that is not past the high watermark, gets the encoding
    of batches that follow one another, from the one that holds the offset on,
    of a committed read none that reaches past the high watermark, cut at the
    maximal length, which can be inside a batch.  Reading at the end gives
    nothing, past the end is an error, and an offset that is no longer stored
    is answered with the first one that is.  Committed reads past the high
    watermark are the subject of [read_past_max_offset]. *)
Theorem read_partition_slice_correct `{PReadOK} `{MemoryMapOK} (crc32c : list byte -> Z)
    {R} (c : Codec R) `{!RecordsOK c} (r : FileReplica) (start : Z) (bss : list (list (Batch R)))
    (abs : list (Batch R)) (offset max_len : Z) (isolation : Isolation) :
  (forall x, in_u 32 (crc32c x)) -> replica_ok crc32c c r start bss abs ->
  let max_offset := match isolation with ReadCommitted => Some (get_hw r) | ReadUncommitted => None end in
  let ends := MkOffsetInfo (get_hw r) (get_leo r) in
  (start <= offset < get_leo r -> (isolation = ReadCommitted -> offset <= get_hw r) ->
   exists s data, read_partition_slice offset max_len isolation r = Ok s /\
     slice_data s = ztake max_len data /\
     reads_log crc32c c start (concat bss ++ abs) offset max_offset data /\
     slice_start s = start /\ slice_end s = ends) /\
  (offset = get_leo r ->
   read_partition_slice offset max_len isolation r = Ok (MkReplicaSlice start ends None)) /\
  (get_leo r < offset -> read_partition_slice offset max_len isolation r = Err ReadOther) /\
  (offset < start -> read_partition_slice offset max_len isolation r = Err (OffsetEvicted offset start)).
Proof.
  intros Hc Hok max_offset ends.
  assert (read_partition_slice offset max_len isolation r = read_records offset max_offset max_len r) as ->
    by (by destruct isolation).
  destruct (read_records_outside crc32c c r start bss abs offset max_offset max_len Hok) as (Hev & Hend & Hpast).
  split; [|split; [exact Hend|split; [exact Hpast|exact Hev]]]. intros Hin Hhw. apply (read_records_inside crc32c Hc c); [done|done|].
  intros m. unfold max_offset. destruct isolation; [done|]. intros [= <-]. by apply Hhw.
Qed.

Lemma read_partition_slice_correct_witness :
  exists r all s data,
    read_partition_slice 1 100 ReadCommitted r = Ok s /\ slice_data s = ztake 100 data /\
    length all = 3%nat /\ reads_log sum32 codec_raw 0 all 1 (Some 3) data.
Proof.
  destruct example_replica as (r & _ & Hok & El & _ & _ & _ & Hsz).
  destruct (write_recordset_spec sum32 sum32_u32 codec_raw 0 r 0 [] [] three_batches true Hok three_storable Hsz)
    as (r' & bss' & abs' & _ & Hok' & Ec & El' & Eh & _); [rewrite El; reflexivity|].
  rewrite El in El'. change (end_from 0 (batches three_batches)) with 3 in El'. rewrite El' in Eh.
  destruct (read_partition_slice_correct sum32 codec_raw r' 0 bss' abs' 1 100 ReadCommitted sum32_u32 Hok')
    as [Hin _]. destruct Hin as (s & data & Er & Ed & Hr & _); [rewrite El'; lia|rewrite Eh; lia|].
  rewrite Eh in Hr. exists r', (concat bss' ++ abs'), s, data. split; [done|]. split; [done|].
  split; [by rewrite Ec|done].
Defined.


(** Batches that need more than one segment. *)
Definition large_batch (x : byte) : Batch (list byte) :=
  MkBatch 0 0 (set_last_offset_delta 0 batch_header_default) SCHEMA_ID_NULL (replicate 500 x).
Definition large_batches : RecordSet (list byte) :=
  MkRecordSet [large_batch Byte.x61; large_batch Byte.x62; large_batch Byte.x63].

Lemma large_storable : Forall (storable codec_raw) (batches large_batches).
Proof.
  assert (forall x, storable codec_raw (large_batch x)) as Hx; [|by repeat constructor].
  intros x. split; [|split; [done|split; [done|vm_compute; congruence]]].
  split; [split; vm_compute; congruence|]. split; [repeat split; vm_compute; congruence|].
  split; [split; vm_compute; congruence|]. split; [done|]. split; [done|vm_compute; reflexivity].
Qed.

(** A replica with closed segments. *)
Lemma example_segments :
  exists r bss abs, replica_ok sum32 codec_raw r 0 bss abs /\ rep_option r = dense_config /\
    length bss = 2%nat /\ abs <> [] /\ get_leo r = 3 /\ leftover r = [] /\
    modified_in_order (segments (inner (prev_segments r))) /\
    first_empty_slot (seg_index (active_segment r)) = 0 /\ excess r = 0.
Proof.
  destruct example_replica as (r & Er & Hok & El & _ & Eo & _ & _).
  assert (Forall (fun b => write_size_batch codec_raw 0 b <= segment_max_bytes (rep_option r) /\
    write_size_batch codec_raw 0 b <= rep_max_request_size r) (batches large_batches)) as Hsz.
  { vm_compute in Er. injection Er as <-. repeat constructor; vm_compute; congruence. }
  destruct (write_recordset_spec sum32 sum32_u32 codec_raw 7 r 0 [] [] large_batches true Hok large_storable Hsz)
    as (r' & bss' & abs' & E & Hok' & Ec & El' & Eh & _); [rewrite El; reflexivity|].
  exists r', bss', abs'. rewrite El' , El.
  vm_compute in Er. injection Er as <-. vm_compute in E. injection E as <-.
  assert (length bss' = 2%nat) as Hl.
  { pose proof (ok_prev _ _ _ _ _ _ Hok') as Hp. cbn in Hp. destruct bss' as [|? [|? [|]]]; cbn in Hp; tauto. }
  split; [done|]. split; [done|]. split; [done|]. split.
  { intros ->. pose proof (replica_log sum32 codec_raw _ _ _ _ Hok') as (_ & Hb & Hend).
    rewrite app_nil_r, Hb in Hend. vm_compute in Hend. discriminate. }
  split; [done|]. split; [done|]. split; [vm_compute; repeat constructor; discriminate|]. split; [done|vm_compute; reflexivity].
Qed.


(** C24: loading a replica from its directory gives back what is stored: the
    batches of the closed segments and the complete ones of the last segment,
    whatever a crash left after them and in whatever order the directory lists
    the files.  The high watermark is the saved one, but not past the end of
    the log.  The size of the closed segments starts at zero. *)
Theorem load_correct `{PReadOK} `{MemoryMapOK} (crc32c : list byte -> Z)
    {R} (c : Codec R) `{!RecordsOK c} (base : Z) (option : ReplicaConfig) (dir files : list (Z * SegFiles))
    (o : Z) (f : SegFiles) (start : Z) (bss : list (list (Batch R))) (abs : list (Batch R))
    (checkpoint : Datatypes.option (list byte)) :
  (forall x, in_u 32 (crc32c x)) -> config_ok option -> 0 <= start ->
  dir_segs crc32c c start files bss o -> active_files crc32c c option f o abs ->
  dir ≡ₚ files ++ [(o, f)] ->
  exists r, create_or_load_inner base option dir checkpoint = Ok r /\
    replica_ok crc32c c r start bss abs /\ get_leo r = end_from o abs /\
    get_hw r = Z.min (checkpoint_get_offset (checkpoint_create checkpoint o)) (get_leo r) /\
    size_prev r = 0.
Proof.
  intros Hc. by apply load_spec.
Qed.

Lemma load_correct_witness :
  exists r, create_or_load_inner 0 dense_config
      [(0, MkSegFiles (wire_batches sum32 codec_raw four_list ++ take 20 (wire_batch sum32 codec_raw (raw_batch "e")))
             (map entry_to_be [(1, 58); (3, 174)]) 0)] (Some (be_split 8 9)) = Ok r /\
    replica_ok sum32 codec_raw r 0 [] four_list /\ get_leo r = 4 /\
    get_hw r = Z.min (checkpoint_get_offset (checkpoint_create (Some (be_split 8 9)) 0)) (get_leo r) /\
    size_prev r = 0.
Proof.
  destruct four_batches_view as [Vb Vl Vf Vo Ve Veb Vr Vs Vi Vsd].
  apply (load_correct sum32 codec_raw 0 dense_config _ [] 0
    (MkSegFiles (wire_batches sum32 codec_raw four_list ++ take 20 (wire_batch sum32 codec_raw (raw_batch "e")))
             (map entry_to_be [(1, 58); (3, 174)]) 0) 0 [] four_list _ sum32_u32 dense_config_ok).
  - discriminate.
  - reflexivity.
  - split.
    + exact Vl.
    + exists (take 20 (wire_batch sum32 codec_raw (raw_batch "e"))). split; [reflexivity|]. split.
      * right. exists (set_base_offset 0 (raw_batch "e")), (drop 20 (wire_batch sum32 codec_raw (raw_batch "e"))).
        split; [apply raw_batch_valid; [split; vm_compute; congruence|vm_compute; reflexivity]|].
        split; [apply take_drop|]. split; vm_compute; discriminate.
      * vm_compute. reflexivity.
    + vm_compute. reflexivity.
    + vm_compute. discriminate.
    + exists [(1, 58); (3, 174)]. split; [intros i; by left|]. split; [repeat constructor|].
      split; [repeat constructor; discriminate|]. split; [exact Vsd|vm_compute; reflexivity].
  - reflexivity.
Defined.

(** C30: a replica that is stopped and loaded again from the files it left
    stores the same batches in the same segments, with the high watermark of
    its checkpoint, if the index of its active segment has a free slot and its
    directory has no files of other segments, such as clearing a replica leaves
    behind. *)
Theorem reload_correct `{PReadOK} `{MemoryMapOK} (now : Z) (crc32c : list byte -> Z)
    {R} (c : Codec R) `{!RecordsOK c} (base : Z) (r : FileReplica) (start : Z)
    (bss : list (list (Batch R))) (abs : list (Batch R)) (checkpoint : option (list byte)) :
  (forall x, in_u 32 (crc32c x)) -> replica_ok crc32c c r start bss abs -> leftover r = [] ->
  first_empty_slot (seg_index (active_segment r)) < index_max_bytes (rep_option r) / INDEX_ENTRY_SIZE ->
  exists r', create_or_load_inner base (rep_option r) (replica_dir now r) checkpoint = Ok r' /\
    replica_ok crc32c c r' start bss abs /\ get_leo r' = get_leo r /\
    get_hw r' = Z.min (checkpoint_get_offset (checkpoint_create checkpoint (seg_base_offset (active_segment r)))) (get_leo r).
Proof.
  intros Hc Hok El Hroom. pose proof (replica_dir_files crc32c c (rep_option r) now r start bss abs Hok eq_refl Hroom) as Hf.
  pose proof (replica_log crc32c c _ _ _ _ Hok) as (_ & Eb & Eend). rewrite end_from_app, Eb in Eend.
  destruct (load_spec crc32c Hc c (rep_option r) base (replica_dir now r) _ _ _ start bss abs checkpoint
    (ok_config _ _ _ _ _ _ Hok) (ok_start _ _ _ _ _ _ Hok) (segs_dir crc32c c _ _ _ _ (ok_prev _ _ _ _ _ _ Hok)) Hf)
    as (r' & E & Hok' & El' & Eh & _); [unfold replica_dir; by rewrite El|].
  assert (get_leo r' = get_leo r) as Eq by congruence. exists r'. rewrite Eh, Eq. done.
Qed.

Lemma reload_correct_witness :
  exists r bss abs r', length bss = 2%nat /\ abs <> [] /\
    create_or_load_inner 0 (rep_option r) (replica_dir 9 r) None = Ok r' /\
    replica_ok sum32 codec_raw r' 0 bss abs /\ get_leo r' = get_leo r /\
    get_hw r' = Z.min (checkpoint_get_offset (checkpoint_create None (seg_base_offset (active_segment r)))) (get_leo r).
Proof.
  destruct example_segments as (r & bss & abs & Hok & Eo & Hl & Hne & _ & Elf & _ & E0 & _).
  destruct (reload_correct 9 sum32 codec_raw 0 r 0 bss abs None sum32_u32 Hok Elf) as (r' & Hr).
  { rewrite E0, Eo. reflexivity. }
  exists r, bss, abs, r'. done.
Defined.

(** Clearing a replica leaves it running with an empty log that goes on at
    the end of the old one.  But the files of the segment that was active stay
    in the directory: when the replica is loaded again, the batches of that
    segment are back. *)
Theorem clear_data_reappears `{PReadOK} `{MemoryMapOK} (now : Z) (crc32c : list byte -> Z)
    {R} (c : Codec R) `{!RecordsOK c} (base : Z) (r : FileReplica) (start : Z)
    (bss : list (list (Batch R))) (abs : list (Batch R)) (reset_hw : bool) (checkpoint : option (list byte)) :
  (forall x, in_u 32 (crc32c x)) -> replica_ok crc32c c r start bss abs -> leftover r = [] -> abs <> [] ->
  INDEX_ENTRY_SIZE <= index_max_bytes (rep_option r) ->
  exists r' r'',
    clear_data now reset_hw r = (Ok (get_leo r), r') /\
    replica_ok crc32c c r' (get_leo r) [] [] /\ get_log_start_offset r' = get_leo r /\
    get_hw r' = (if reset_hw then get_leo r else get_hw r) /\
    create_or_load_inner base (rep_option r') (replica_dir now r') checkpoint = Ok r'' /\
    replica_ok crc32c c r'' (seg_base_offset (active_segment r)) [abs] [] /\
    get_log_start_offset r'' = seg_base_offset (active_segment r).
Proof.
  intros Hc Hok El Hne Hidx. pose proof (leo_bounds crc32c c _ _ _ _ Hok) as (Hb & _).
  destruct (clear_data_spec crc32c c now r start bss abs reset_hw Hok El Hne)
    as (r' & E & Hok' & Elf & El' & Eh & Es & Eb & E0 & Eo).
  destruct (replica_start crc32c c _ _ _ _ Hok') as (Est & _).
  pose proof (replica_log crc32c c _ _ _ _ Hok) as (_ & Ebase & Eend). rewrite end_from_app, Ebase in Eend.
  pose proof Hok as [[es Ha] _ _ _ _ _ _ _ _ _ _ _ _].
  assert (first_empty_slot (seg_index (active_segment r')) < index_max_bytes (rep_option r') / INDEX_ENTRY_SIZE) as Hroom.
  { rewrite E0, Eo. apply Z.div_str_pos. unfold INDEX_ENTRY_SIZE in *. lia. }
  pose proof (replica_dir_files crc32c c (rep_option r') now r' _ _ _ Hok' eq_refl Hroom) as Hf.
  assert (dir_segs crc32c c (seg_base_offset (active_segment r)) (leftover r') [abs]
    (seg_base_offset (active_segment r'))) as Hd.
  { rewrite Elf. split; [done|]. split; [by eapply closed_active|]. by rewrite Eend, Eb. }
  destruct (load_spec crc32c Hc c (rep_option r') base (replica_dir now r') _ _ _ _ _ _ checkpoint
    (ok_config _ _ _ _ _ _ Hok') (proj1 Hb) Hd Hf) as (r'' & E'' & Hok'' & _).
  - unfold replica_dir. by rewrite Es.
  - exists r', r''. destruct (replica_start crc32c c _ _ _ _ Hok'') as (Est' & _). split_and!; done.
Qed.

Lemma clear_data_reappears_witness :
  exists r (abs : list (Batch (list byte))) r' r'', abs <> [] /\
    clear_data 9 true r = (Ok (get_leo r), r') /\
    replica_ok sum32 codec_raw r' (get_leo r) [] [] /\ get_log_start_offset r' = get_leo r /\
    get_hw r' = get_leo r /\
    create_or_load_inner 0 (rep_option r') (replica_dir 9 r') None = Ok r'' /\
    replica_ok sum32 codec_raw r'' (seg_base_offset (active_segment r)) [abs] [] /\
    get_log_start_offset r'' = seg_base_offset (active_segment r).
Proof.
  destruct example_segments as (r & bss & abs & Hok & Eo & Hl & Hne & _ & Elf & _ & _).
  destruct (clear_data_reappears 9 sum32 codec_raw 0 r 0 bss abs true None sum32_u32 Hok Elf Hne)
    as (r' & r'' & H1 & H2 & H3 & H4 & H5 & H6 & H7); [rewrite Eo; vm_compute; congruence|].
  exists r, abs, r', r''. split_and!; done.
Defined.
