(* ===== verification/SpuStorage.v ===== *)
(** * The storage of a replica as the SPU uses it

    The trait [ReplicaStorage] of [fluvio-storage/src/lib.rs] as a class, the
    laws its users rely on, file replicas as an implementation that keeps them,
    and [fluvio-spu/src/storage/mod.rs], which shares a storage between tasks
    and publishes its offsets. *)

From S2P Require Import Prelude Wire Varint Utf8 Scalars Collections Records Batch RecordSet.
From S2P Require Import StorageIndex StorageLog StorageSegment StorageCheckpoint StorageReplica StorageReplicaLaws.
From stdpp Require Import list.

#[local] Open Scope Z_scope.

Notation RawBatch := (Batch (list byte)).
Notation RawRecordSet := (RecordSet (list byte)).

(** ** The trait *)

(* src/crates/fluvio-storage/src/lib.rs:131-171 ReplicaStorage *)
Class ReplicaStorage (S : Type) := {
  st_hw : S -> Z;
  st_leo : S -> Z;
  st_log_start : S -> Z;
  st_read_partition_slice : Z -> Z -> Isolation -> S -> outcome ReadError ReplicaSlice;
  st_partition_size : S -> Z;
  st_write_recordset : bool -> SM (S * RawRecordSet) Z;
  st_update_high_watermark : Z -> SM S bool;
}.

(** The end of what a reader of an isolation may see. *)
Definition isolation_end {S} `{ReplicaStorage S} (isolation : Isolation) (s : S) : Z :=
  match isolation with ReadCommitted => st_hw s | ReadUncommitted => st_leo s end.
Definition isolation_max {S} `{ReplicaStorage S} (isolation : Isolation) (s : S) : option Z :=
  match isolation with ReadCommitted => Some (st_hw s) | ReadUncommitted => None end.

(** What its users rely on: a storage holds a log, writes append to it, reads
    give parts of it. *)
Class ReplicaStorageOK (crc32c : list byte -> Z) (S : Type) `{ReplicaStorage S} := {
  stores : S -> Z -> list RawBatch -> Prop;
  (** The largest batch it takes. *)
  st_limit : S -> Z;
  stores_log s start all :
    stores s start all ->
    0 <= start /\ log_from codec_raw start all /\ end_from start all = st_leo s /\ st_leo s < 2 ^ 63;
  stores_write s start all bs upd :
    stores s start all -> Forall (storable codec_raw) bs ->
    Forall (fun b => write_size_batch codec_raw 0 b <= st_limit s) bs ->
    end_from (st_leo s) bs < 2 ^ 63 ->
    let stored := number_batches (st_leo s) bs in
    exists s' size, st_write_recordset upd (s, MkRecordSet bs) = (Ok size, (s', MkRecordSet stored)) /\
      stores s' start (all ++ stored) /\ st_leo s' = end_from (st_leo s) bs /\
      st_hw s' = (if upd then st_leo s' else st_hw s) /\ st_limit s' = st_limit s;
  stores_update s start all hw :
    stores s start all ->
    exists s', st_update_high_watermark hw s = (Ok (negb (st_hw s =? hw)), s') /\
      stores s' start all /\ st_hw s' = hw /\ st_leo s' = st_leo s /\ st_limit s' = st_limit s;
  stores_read_at s start all offset max_len isolation :
    stores s start all -> start <= offset < st_leo s -> offset <= isolation_end isolation s ->
    exists sl data, st_read_partition_slice offset max_len isolation s = Ok sl /\
      slice_data sl = ztake max_len data /\
      reads_log crc32c codec_raw start all offset (isolation_max isolation s) data /\
      slice_start sl = start /\ slice_end sl = MkOffsetInfo (st_hw s) (st_leo s);
  stores_read_end s start all max_len isolation :
    stores s start all ->
    st_read_partition_slice (st_leo s) max_len isolation s
      = Ok (MkReplicaSlice start (MkOffsetInfo (st_hw s) (st_leo s)) None);
  stores_slice s start all offset max_len isolation sl :
    stores s start all -> start <= offset < st_leo s -> offset <= isolation_end isolation s ->
    st_read_partition_slice offset max_len isolation s = Ok sl -> slice_ok sl;
  stores_evicted s start all offset max_len isolation :
    stores s start all -> offset < start ->
    st_read_partition_slice offset max_len isolation s = Err (OffsetEvicted offset start);
}.

Lemma stores_read crc32c {S : Type} `{ReplicaStorageOK crc32c S} (s : S) start all offset max_len :
  stores s start all -> start <= offset < st_leo s ->
  exists sl data, st_read_partition_slice offset max_len ReadUncommitted s = Ok sl /\
    slice_data sl = ztake max_len data /\ reads_log crc32c codec_raw start all offset None data.
Proof.
  intros Hs Ho. destruct (stores_read_at s start all offset max_len ReadUncommitted Hs Ho) as (sl & data & E & Ed & Hr & _).
  - cbn. lia.
  - by exists sl, data.
Qed.

(** ** File replicas *)

Section file.
Context `{PRead} `{MemoryMap} (now : Z) (crc32c : list byte -> Z).

#[export] Instance FileReplica_Storage : ReplicaStorage FileReplica := {|
  st_hw := get_hw;
  st_leo := get_leo;
  st_log_start := get_log_start_offset;
  st_read_partition_slice := read_partition_slice;
  st_partition_size := get_partition_size;
  st_write_recordset := write_recordset now crc32c codec_raw;
  st_update_high_watermark offset self := let '(b, self) := update_high_watermark offset self in (Ok b, self) |}.
End file.

Section file_ok.
Context `{PReadOK} `{MemoryMapOK} (now : Z) (crc32c : list byte -> Z).
Context (crc32c_u32 : forall bs, in_u 32 (crc32c bs)).

#[local] Obligation Tactic := idtac.

(** A file replica keeps the laws. *)
Program Definition FileReplica_OK :
    @ReplicaStorageOK crc32c FileReplica (FileReplica_Storage now crc32c) := {|
  stores r start all := exists bss abs, replica_ok crc32c codec_raw r start bss abs /\ all = concat bss ++ abs;
  st_limit r := Z.min (segment_max_bytes (rep_option r)) (rep_max_request_size r) |}.
Next Obligation.
  intros r start all (bss & abs & Hok & ->). destruct (replica_log crc32c codec_raw _ _ _ _ Hok) as (Hl & _ & He).
  destruct (leo_bounds crc32c codec_raw _ _ _ _ Hok) as (_ & Hb & _).
  split; [apply (ok_start _ _ _ _ _ _ Hok)|]. done.
Qed.
Next Obligation.
  intros r start all bs upd (bss & abs & Hok & ->) Hb Hsz Hend.
  destruct (write_recordset_spec crc32c crc32c_u32 codec_raw now r start bss abs (MkRecordSet bs) upd Hok Hb)
    as (r' & bss' & abs' & E & Hok' & Ec & El & Eh & Eset & Em); [eapply List.Forall_impl; [|exact Hsz]; cbn; lia|done|].
  exists r'. eexists. split; [exact E|]. split; [|split; [done|split; [exact Eh|cbn; by rewrite Eset, Em]]].
  exists bss', abs'. split; [done|]. by rewrite Ec, app_assoc.
Qed.
Next Obligation.
  intros r start all hw (bss & abs & Hok & ->). cbn.
  destruct (update_high_watermark hw r) as [b r'] eqn:E.
  destruct (update_high_watermark_hw crc32c codec_raw r hw) as (Eh & El & Hp). rewrite E in Eh, El, Hp. cbn in Eh, El, Hp.
  exists r'. unfold update_high_watermark in E.
  assert (b = negb (get_hw r =? hw) /\ rep_option r' = rep_option r /\ rep_max_request_size r' = rep_max_request_size r)
    as (-> & -> & ->).
  { revert E; destruct (get_hw r =? hw); intros E; injection E as <- <-; done. }
  split; [done|]. split; [exists bss, abs; split; [by apply Hp|done]|]. done.
Qed.
Next Obligation.
  intros r start all offset max_len isolation (bss & abs & Hok & ->) Ho Hend.
  destruct (read_records_inside crc32c crc32c_u32 codec_raw r start bss abs offset
    (match isolation with ReadCommitted => Some (get_hw r) | ReadUncommitted => None end) max_len Hok Ho)
    as (s & data & Er & Ed & Hr & Es & Ee).
  { intros m Em. destruct isolation; [done|]. injection Em as <-. exact Hend. }
  exists s, data. by destruct isolation.
Qed.
Next Obligation.
  intros r start all max_len isolation (bss & abs & Hok & ->). cbn.
  destruct isolation; by apply (read_records_outside crc32c codec_raw r start bss abs (get_leo r) _ max_len Hok).
Qed.
Next Obligation.
  intros r start all offset max_len isolation sl (bss & abs & Hok & ->) Ho Hend E.
  apply (read_records_range crc32c crc32c_u32 codec_raw r start bss abs offset
    (match isolation with ReadCommitted => Some (get_hw r) | ReadUncommitted => None end) max_len sl Hok Ho); [|by destruct isolation].
  intros m Em. destruct isolation; [done|]. injection Em as <-. exact Hend.
Qed.
Next Obligation.
  intros r start all offset max_len isolation (bss & abs & Hok & ->) Ho. cbn.
  destruct isolation; by apply (read_records_outside crc32c codec_raw r start bss abs offset _ max_len Hok).
Qed.
End file_ok.

(** ** Sharing a storage *)

Section sharable.
Context {S : Type} `{ReplicaStorage S}.

(** The storage and the offsets published to its listeners. *)
(* src/crates/fluvio-spu/src/storage/mod.rs:24-29 SharableReplicaStorage *)
Record SharableReplicaStorage := MkSharable { sh_inner : S; pub_leo : Z; pub_hw : Z }.

(** The storage that [S::create_or_load] returned. *)
(* src/crates/fluvio-spu/src/storage/mod.rs:47-58 SharableReplicaStorage::create *)
Definition sharable_create (storage : S) : SharableReplicaStorage :=
  MkSharable storage (st_leo storage) (st_hw storage).
(* src/crates/fluvio-spu/src/storage/mod.rs:74-79 SharableReplicaStorage::as_offset *)
Definition as_offset (self : SharableReplicaStorage) : OffsetInfo :=
  MkOffsetInfo (pub_hw self) (pub_leo self).
(* src/crates/fluvio-spu/src/storage/mod.rs:108-119 SharableReplicaStorage::read_records *)
Definition sh_read_records (offset max_len : Z) (isolation : Isolation) (self : SharableReplicaStorage)
    : outcome ReadError ReplicaSlice :=
  st_read_partition_slice offset max_len isolation (sh_inner self).
(* src/crates/fluvio-spu/src/storage/mod.rs:121-129 SharableReplicaStorage::update_hw *)
Definition sh_update_hw (hw : Z) : SM SharableReplicaStorage bool :=
  updated ← zoom sh_inner (fun s self => MkSharable s (pub_leo self) (pub_hw self))
              (st_update_high_watermark hw);
  if updated : bool then
    modify (fun self => MkSharable (sh_inner self) (pub_leo self) hw) ;;
    mret true
  else mret false.
(** The state is the storage and the record set, whose batches get their base
    offsets. *)
(* src/crates/fluvio-spu/src/storage/mod.rs:132-164 SharableReplicaStorage::write_record_set *)
Definition sh_write_record_set (hw_update : bool)
    : SM (SharableReplicaStorage * RawRecordSet) (Z * Z * Z) :=
  '(self, _) ← get;
  let base_offset := st_leo (sh_inner self) in
  bytes_written ← zoom (fun st => (sh_inner (fst st), snd st))
    (fun '(s, recs) st => (MkSharable s (pub_leo (fst st)) (pub_hw (fst st)), recs))
    (st_write_recordset hw_update);
  '(self, _) ← get;
  let leo := st_leo (sh_inner self) in
  modify (fun st => (MkSharable (sh_inner (fst st)) leo (pub_hw (fst st)), snd st)) ;;
  (if hw_update
   then modify (fun st => (MkSharable (sh_inner (fst st)) (pub_leo (fst st)) (st_hw (sh_inner self)), snd st))
   else mret tt) ;;
  mret (base_offset, leo, bytes_written).
End sharable.
Arguments SharableReplicaStorage : clear implicits.
