(* ===== verification/Replication.v ===== *)
(** * Replication between SPUs

    [fluvio-spu/src/replication]: the state of a leader with what it knows of
    its followers, the high watermark it computes from that, what it sends
    them, and what a follower does with it.  A cluster for one replica is a
    leader, its followers and the messages sent so far; messages may be lost,
    repeated or overtaken. *)

From S2P Require Import Prelude Wire Varint Utf8 Scalars Collections Records Batch RecordSet.
From S2P Require Import StorageIndex StorageLog StorageSegment StorageReplica StorageReplicaLaws SpuStorage.
From stdpp Require Import list gmap.

#[local] Open Scope Z_scope.

(** ** The high watermark *)

(** [BinaryHeap<Reverse<Offset>>]: its smallest element, and the replacement
    of that element through [peek_mut]. *)
Definition heap_peek (heap : list Z) : option Z :=
  match heap with
  | [] => None
  | x :: heap => Some (fold_left Z.min heap x)
  end.
Fixpoint heap_replace (old new : Z) (heap : list Z) : list Z :=
  match heap with
  | [] => []
  | x :: heap => if x =? old then new :: heap else x :: heap_replace old new heap
  end.
(** [if min.0 < leo { min.0 = leo }] *)
Definition heap_push_larger (heap : list Z) (leo : Z) : list Z :=
  match heap_peek heap with
  | Some min => if min <? leo then heap_replace min leo heap else heap
  | None => heap
  end.
(** [Iterator::max] *)
Definition iter_max (l : list Z) : option Z :=
  match l with
  | [] => None
  | x :: l => Some (fold_left Z.max l x)
  end.

(* src/crates/fluvio-spu/src/replication/leader/replica_state.rs:547-587 compute_hw *)
Definition compute_hw (leader : OffsetInfo) (min_replica : Z) (followers : list (Z * OffsetInfo))
    : option Z :=
  let min_lrs := Z.min (wrap_u 16 (min_replica - 1)) (zlen followers) in
  let qualified_leos_iter :=
    List.filter (fun leo => hw leader <? leo) (map (fun '(_, follower_info) => info_leo follower_info) followers) in
  if min_lrs =? 0 then iter_max qualified_leos_iter
  else if zlen qualified_leos_iter <? min_lrs then None
  else
    let qualified_leos := ztake min_lrs qualified_leos_iter in
    heap_peek (fold_left heap_push_larger (zdrop min_lrs qualified_leos_iter) qualified_leos).

(** ** Leaders *)

Section leader.
Context {S : Type} `{ReplicaStorage S}.

(** The replica's metadata that is used here, and the state. *)
(* src/crates/fluvio-spu/src/replication/leader/replica_state.rs:48-58 LeaderReplicaState *)
Record LeaderReplicaState := MkLeader {
  replica_leader : Z;
  replica_replicas : list Z;
  in_sync_replica : Z;
  leader_storage : SharableReplicaStorage S;
  followers : list (Z * OffsetInfo);
}.
Definition set_leader_storage x (self : LeaderReplicaState) :=
  MkLeader (replica_leader self) (replica_replicas self) (in_sync_replica self) x (followers self).
Definition set_followers x (self : LeaderReplicaState) :=
  MkLeader (replica_leader self) (replica_replicas self) (in_sync_replica self) (leader_storage self) x.

(* src/crates/fluvio-spu/src/replication/leader/replica_state.rs:100-106 ids_to_map *)
Definition ids_to_map (leader_id : Z) (follower_ids : list Z) : list (Z * OffsetInfo) :=
  fold_left (fun followers id => btree_insert id offset_info_default followers)
    (List.filter (fun id => negb (id =? leader_id)) follower_ids) [].
(* src/crates/fluvio-spu/src/replication/leader/replica_state.rs:114-144 LeaderReplicaState::new *)
Definition leader_new (leader : Z) (replicas : list Z) (inner : SharableReplicaStorage S) : LeaderReplicaState :=
  MkLeader leader replicas (wrap_u 16 (zlen replicas)) inner (ids_to_map leader replicas).

(** Writing to an entry found by [get_mut]. *)
Fixpoint btree_update {V} (k : Z) (v : V) (m : list (Z * V)) : list (Z * V) :=
  match m with
  | [] => []
  | (k', v') :: m => if k' =? k then (k', v) :: m else (k', v') :: btree_update k v m
  end.

(** [if let Err(err) = .. { error!(..) }] *)
Definition log_error {St A} (m : SM St A) : SM St unit := fun st =>
  match m st with
  | (Ok _, st) => (Ok tt, st)
  | (Err _, st) => (Ok tt, st)
  | (Panic, st) => (Panic, st)
  end.

(** The followers that are told about the state of the leader. *)
(* src/crates/fluvio-spu/src/replication/leader/replica_state.rs:385-400 LeaderReplicaState::notify_followers *)
Definition notify_followers (self : LeaderReplicaState) : list Z :=
  List.filter (fun follower =>
    match btree_get follower (followers self) with
    | Some follower_info =>
        offset_info_is_valid follower_info &&
        negb (offset_info_is_same (as_offset (leader_storage self)) follower_info)
    | None => false
    end) (replica_replicas self).

(** The result, and the followers notified; a rejected update notifies none. *)
(* src/crates/fluvio-spu/src/replication/leader/replica_state.rs:190-240 LeaderReplicaState::update_states_from_followers *)
Definition update_states_from_followers (follower_id : Z) (follower_pos : OffsetInfo)
    : SM LeaderReplicaState (bool * list Z) :=
  self ← get;
  let leader_pos := as_offset (leader_storage self) in
  if offset_info_newer leader_pos follower_pos then mret (false, [])
  else
    update ←
      match btree_get follower_id (followers self) with
      | Some current_follow_info =>
          let '(changed, info) := offset_info_update follower_pos current_follow_info in
          if changed : bool then
            modify (set_followers (btree_update follower_id info (followers self))) ;;
            self ← get;
            (if offset_info_is_committed leader_pos then mret tt
             else
               match compute_hw leader_pos (in_sync_replica self) (followers self) with
               | Some hw => log_error (zoom leader_storage set_leader_storage (sh_update_hw hw))
               | None => mret tt
               end) ;;
            mret true
          else mret false
      | None => mret false
      end;
    self ← get;
    mret (update, notify_followers self).

(** What is sent to a follower: an error, or the leader's offsets with the
    bytes of the records it does not have. *)
(* src/crates/fluvio-spu/src/replication/follower/sync.rs:105-114 PeerFetchablePartitionResponse *)
Record PartitionResponse := MkPartitionResponse {
  resp_error : option ReadError;
  resp_hw : Z;
  resp_leo : Z;
  resp_records : list byte;
}.
(* src/crates/fluvio-spu/src/replication/leader/replica_state.rs:244-308 LeaderReplicaState::follower_updates *)
Definition follower_updates (follower_id max_bytes : Z) (self : LeaderReplicaState)
    : outcome ReadError (option PartitionResponse) :=
  let leader_offset := as_offset (leader_storage self) in
  match btree_get follower_id (followers self) with
  | Some follower_info =>
      if offset_info_is_valid follower_info && negb (offset_info_is_same leader_offset follower_info) then
        let response error records :=
          Ok (Some (MkPartitionResponse error (hw leader_offset) (info_leo leader_offset) records)) in
        if info_leo follower_info <? info_leo leader_offset then
          match sh_read_records (info_leo follower_info) max_bytes ReadUncommitted (leader_storage self) with
          | Ok slice => response None (slice_data slice)
          | Err err => response (Some err) []
          | Panic => Panic
          end
        else response None []
      else Ok None
  | None => Ok None
  end.

(** [transform] is the SmartModule of the replica, if it has one.  The offsets
    and size written, and the followers notified. *)
(* src/crates/fluvio-spu/src/replication/leader/replica_state.rs:348-367 LeaderReplicaState::write_record_set *)
Definition leader_write_record_set (transform : RawRecordSet -> sresult RawRecordSet)
    : SM (LeaderReplicaState * RawRecordSet) (Z * Z * Z * list Z) :=
  '(self, records) ← get;
  records ← lift (transform records);
  put (self, records) ;;
  if total_records records =? 0 then
    mret (pub_hw (leader_storage self), pub_leo (leader_storage self), 0, [])
  else
    offsets ← zoom (fun st => (leader_storage (fst st), snd st))
      (fun '(s, recs) st => (set_leader_storage s (fst st), recs))
      (sh_write_record_set (in_sync_replica self =? 1));
    '(self, _) ← get;
    mret (offsets, notify_followers self).
(* src/crates/fluvio-spu/src/replication/leader/replica_state.rs:449-470 LeaderReplicaState::append_record_set *)
Definition append_record_set (transform : RawRecordSet -> sresult RawRecordSet)
    : SM (LeaderReplicaState * RawRecordSet) bool :=
  '(self, records) ← get;
  if total_records records =? 0 then mret false
  else if negb (record_set_base_offset records =? pub_leo (leader_storage self)) then mret false
  else leader_write_record_set transform ;; mret true.
End leader.
Arguments LeaderReplicaState : clear implicits.

(** ** Followers *)

Section follower.
Context {S : Type} `{ReplicaStorage S}.

(* src/crates/fluvio-spu/src/replication/follower/state.rs:248-262 FollowerReplicaState::write_recordsets *)
Definition write_recordsets : SM (SharableReplicaStorage S * RawRecordSet) bool :=
  '(self, records) ← get;
  if negb (record_set_base_offset records =? pub_leo self) then mret false
  else sh_write_record_set false ;; mret true.
(* src/crates/fluvio-spu/src/replication/follower/state.rs:208-244 FollowerReplicaState::update_from_leader *)
Definition update_from_leader (leader_hw : Z) : SM (SharableReplicaStorage S * RawRecordSet) bool :=
  '(_, records) ← get;
  changes ← (if 0 <? total_records records then write_recordsets ;; mret true else mret false);
  '(self, _) ← get;
  let f_offset := as_offset self in
  if hw f_offset =? leader_hw then mret changes
  else if leader_hw <? hw f_offset then mret changes
  else if info_leo f_offset <? leader_hw then mret changes
  else zoom fst (fun s st => (s, snd st)) (sh_update_hw leader_hw) ;; mret true.

(** The follower's part of a message: the records as they arrive, then the
    offsets that are sent back after a change.  An error is logged. *)
(* src/crates/fluvio-spu/src/replication/follower/controller.rs:255-302 FollowerController::sync_from_leader *)
Definition sync_from_leader (crc32c : list byte -> Z) (response : PartitionResponse)
    : SM (SharableReplicaStorage S) (option OffsetInfo) := fun self =>
  match decode_from (codec_record_set crc32c codec_raw) 7
          (be_split 4 (zlen (resp_records response)) ++ resp_records response) with
  | (Ok records, _) =>
      match update_from_leader (resp_hw response) (self, records) with
      | (Ok changes, (self, _)) => (Ok (if changes : bool then Some (as_offset self) else None), self)
      | (Err _, (self, _)) => (Ok None, self)
      | (Panic, (self, _)) => (Panic, self)
      end
  | (Err k, _) => (Err (SIo k), self)
  | (Panic, _) => (Panic, self)
  end.
End follower.

(** ** A replicated partition *)

Section cluster.
Context (crc32c : list byte -> Z) (S : Type) `{ReplicaStorage S}.
(** The size of a response and the largest batch of a replica. *)
Context (max_bytes limit : Z).

(** The leader, the followers by their id, the followers whose updates are
    pending at the leader, and all messages sent so far in both directions. *)
Record Cluster := MkCluster {
  leader : LeaderReplicaState S;
  members : gmap Z (SharableReplicaStorage S);
  pending : list Z;
  sync_messages : list (Z * PartitionResponse);
  offset_messages : list (Z * OffsetInfo);
}.

(** The steps of the cluster.  A message is never removed: it may be received
    any number of times, in any order, or not at all.  A response that fills
    [max_bytes] is cut at an arbitrary byte; [step_send] has only those that
    were not. *)
Inductive cluster_step : Cluster -> Cluster -> Prop :=
| step_produce l l' ms pend syncs offs recs recs' offsets notified :
    Forall (fun b => storable codec_raw b /\ write_size_batch codec_raw 0 b <= limit) (batches recs) ->
    end_from (pub_leo (leader_storage l)) (batches recs) < 2 ^ 63 ->
    leader_write_record_set Ok (l, recs) = (Ok (offsets, notified), (l', recs')) ->
    cluster_step (MkCluster l ms pend syncs offs) (MkCluster l' ms (notified ++ pend) syncs offs)
| step_send l ms pend pend' syncs offs id response :
    id ∈ pend -> pend' = List.filter (fun x => negb (x =? id)) pend ->
    follower_updates id max_bytes l = Ok (Some response) -> zlen (resp_records response) < max_bytes ->
    cluster_step (MkCluster l ms pend syncs offs) (MkCluster l ms pend' ((id, response) :: syncs) offs)
| step_sync l ms pend syncs offs id response s s' reply :
    (id, response) ∈ syncs -> ms !! id = Some s ->
    sync_from_leader crc32c response s = (Ok reply, s') ->
    cluster_step (MkCluster l ms pend syncs offs)
      (MkCluster l (<[id := s']> ms) pend syncs
         (match reply with Some o => (id, o) :: offs | None => offs end))
| step_report l ms pend syncs offs id s :
    ms !! id = Some s ->
    cluster_step (MkCluster l ms pend syncs offs) (MkCluster l ms pend syncs ((id, as_offset s) :: offs))
| step_update l l' ms pend syncs offs id pos changed notified :
    (id, pos) ∈ offs ->
    update_states_from_followers id pos l = (Ok (changed, notified), l') ->
    cluster_step (MkCluster l ms pend syncs offs) (MkCluster l' ms (notified ++ pend) syncs offs).

Inductive cluster_reach (start : Cluster) : Cluster -> Prop :=
| cluster_start : cluster_reach start start
| cluster_more c c' : cluster_reach start c -> cluster_step c c' -> cluster_reach start c'.
End cluster.
