(* ===== verification/ReplicationLaws.v ===== *)
(** * Properties of replication

    The high watermark is the largest offset enough followers have, the logs of
    the followers are always prefixes of the leader's, and what is below the
    high watermark is stored by as many followers as the replica asks for. *)

From S2P Require Import Prelude Wire Varint Utf8 Scalars Collections Records Batch RecordSet.
From S2P Require Import StorageIndex StorageLog StorageSegment StorageReplica StorageReplicaLaws SpuStorage Replication.
From stdpp Require Import list gmap strings.

#[local] Open Scope Z_scope.

(** ** The high watermark *)

Lemma fold_min_spec l x : (fold_left Z.min l x ∈ x :: l) /\ Forall (Z.le (fold_left Z.min l x)) (x :: l).
Proof.
  revert x. induction l as [|y l IH]; intros x; cbn.
  - split; [by left|]. repeat constructor. lia.
  - destruct (IH (Z.min x y)) as [Hin Hall]. apply Forall_cons in Hall as [Hm Hall]. split.
    + apply elem_of_cons in Hin as [->|Hin]; [|by do 2 right].
      destruct (Z.min_spec x y) as [[_ ->]|[_ ->]]; [by left|right; by left].
    + constructor; [lia|]. constructor; [lia|done].
Qed.

Lemma fold_max_spec l x : (fold_left Z.max l x ∈ x :: l) /\ Forall (Z.ge (fold_left Z.max l x)) (x :: l).
Proof.
  revert x. induction l as [|y l IH]; intros x; cbn.
  - split; [by left|]. repeat constructor. lia.
  - destruct (IH (Z.max x y)) as [Hin Hall]. apply Forall_cons in Hall as [Hm Hall]. split.
    + apply elem_of_cons in Hin as [->|Hin]; [|by do 2 right].
      destruct (Z.max_spec x y) as [[_ ->]|[_ ->]]; [right; by left|by left].
    + constructor; [lia|]. constructor; [lia|done].
Qed.

Lemma heap_peek_spec heap m : heap_peek heap = Some m -> m ∈ heap /\ Forall (Z.le m) heap.
Proof. destruct heap as [|x heap]; [done|]. cbn. intros [= <-]. apply fold_min_spec. Qed.

Lemma heap_replace_perm old new heap :
  old ∈ heap -> exists rest, heap ≡ₚ old :: rest /\ heap_replace old new heap ≡ₚ new :: rest.
Proof.
  induction heap as [|x heap IH]; intros Hin; [by apply not_elem_of_nil in Hin|]. cbn.
  destruct (Z.eqb_spec x old) as [->|Hne]; [by exists heap|].
  apply elem_of_cons in Hin as [->|Hin]; [done|]. destruct (IH Hin) as (rest & E & E').
  exists (x :: rest). rewrite E at 1. rewrite E'. split; constructor.
Qed.

(** The heap keeps the largest of the elements seen so far. *)
Definition keeps_largest (heap seen : list Z) : Prop :=
  exists rest, heap ++ rest ≡ₚ seen /\ Forall (fun x => Forall (Z.le x) heap) rest.

Lemma keeps_largest_push heap seen leo :
  heap <> [] -> keeps_largest heap seen ->
  keeps_largest (heap_push_larger heap leo) (seen ++ [leo]) /\
  length (heap_push_larger heap leo) = length heap.
Proof.
  intros Hne (rest & Hp & Hr). unfold heap_push_larger.
  destruct (heap_peek heap) as [m|] eqn:E; [|by destruct heap].
  destruct (heap_peek_spec _ _ E) as [Hm Hall]. destruct (Z.ltb_spec m leo).
  - destruct (heap_replace_perm m leo heap Hm) as (h0 & Eh & Eh'). split.
    + exists (m :: rest). rewrite Eh', <-Hp, Eh. split; [solve_Permutation|].
      assert (Forall (Z.le m) (heap_replace m leo heap)) as Hm'.
      { rewrite Eh'. constructor; [lia|]. rewrite Eh in Hall. by apply Forall_cons in Hall as [_ ?]. }
      constructor; [done|]. eapply List.Forall_impl; [|exact Hr]. intros x Hx.
      assert (x <= m) by (rewrite Forall_forall in Hx; by apply Hx).
      eapply List.Forall_impl; [|exact Hm']. lia.
    + by rewrite (Permutation_length Eh'), (Permutation_length Eh).
  - split; [|done]. exists (leo :: rest). split; [rewrite <-Hp; solve_Permutation|].
    constructor; [|done]. eapply List.Forall_impl; [|exact Hall]. lia.
Qed.

Lemma keeps_largest_fold heap seen l :
  heap <> [] -> keeps_largest heap seen ->
  keeps_largest (fold_left heap_push_larger l heap) (seen ++ l) /\
  length (fold_left heap_push_larger l heap) = length heap.
Proof.
  revert heap seen. induction l as [|x l IH]; intros heap seen Hne Hk; cbn; [by rewrite app_nil_r|].
  destruct (keeps_largest_push heap seen x Hne Hk) as [Hk' Hl].
  destruct (IH (heap_push_larger heap x) (seen ++ [x])) as [H1 H2]; [|done|].
  - intros E. rewrite E in Hl. by destruct heap.
  - rewrite <-app_assoc in H1. split; [done|congruence].
Qed.

(** How many offsets are at least, or more than, an offset. *)
Definition count_ge (h : Z) (l : list Z) : Z := zlen (List.filter (fun x => h <=? x) l).
Definition count_gt (h : Z) (l : list Z) : Z := zlen (List.filter (fun x => h <? x) l).

Lemma filter_perm {A} (f : A -> bool) l l' : l ≡ₚ l' -> List.filter f l ≡ₚ List.filter f l'.
Proof.
  induction 1 as [|x l l' _ IH|x y l|l1 l2 l3 _ IH1 _ IH2]; cbn; [done| | |by etrans].
  - destruct (f x); [by rewrite IH|done].
  - destruct (f x), (f y); try done. constructor.
Qed.

Lemma zlen_perm {A} (l l' : list A) : l ≡ₚ l' -> zlen l = zlen l'.
Proof. intros E. unfold zlen. by rewrite (Permutation_length E). Qed.

Lemma zlen_filter_le {A} (f : A -> bool) l : zlen (List.filter f l) <= zlen l.
Proof. unfold zlen. pose proof (List.filter_length_le f l). lia. Qed.

Lemma zlen_filter_all {A} (f : A -> bool) l : Forall (fun a => f a = true) l -> zlen (List.filter f l) = zlen l.
Proof. induction 1 as [|a l Ha _ IH]; [done|]. cbn. by rewrite Ha, !zlen_cons, IH. Qed.

Lemma zlen_filter_none {A} (f : A -> bool) l : Forall (fun a => f a = false) l -> zlen (List.filter f l) = 0.
Proof. intros Hf. by rewrite filter_all_out. Qed.

Lemma zlen_filter_lt {A} (f : A -> bool) l a : a ∈ l -> f a = false -> zlen (List.filter f l) < zlen l.
Proof.
  induction l as [|b l IH]; intros Hin Hf; [by apply not_elem_of_nil in Hin|]. cbn. rewrite zlen_cons.
  apply elem_of_cons in Hin as [->|Hin].
  - rewrite Hf. pose proof (zlen_filter_le f l). lia.
  - specialize (IH Hin Hf). destruct (f b); rewrite ?zlen_cons; lia.
Qed.

(** The smallest of the [k] largest offsets. *)
Lemma largest_counts heap seen m :
  keeps_largest heap seen -> heap_peek heap = Some m ->
  m ∈ seen /\ zlen heap <= count_ge m seen /\ count_gt m seen < zlen heap.
Proof.
  intros (rest & Hp & Hr) Hm. destruct (heap_peek_spec _ _ Hm) as [Hin Hall].
  split; [rewrite <-Hp; apply elem_of_app; by left|]. unfold count_ge, count_gt.
  rewrite <-(zlen_perm _ _ (filter_perm (fun x => m <=? x) _ _ Hp)).
  rewrite <-(zlen_perm _ _ (filter_perm (fun x => m <? x) _ _ Hp)).
  rewrite !List.filter_app, !zlen_app. split.
  - rewrite zlen_filter_all; [pose proof (zlen_nonneg (List.filter (fun x => m <=? x) rest)); lia|].
    eapply List.Forall_impl; [|exact Hall]. intros x Hx. by apply Z.leb_le.
  - rewrite (zlen_filter_none _ rest).
    + pose proof (zlen_filter_lt (fun x => m <? x) heap m Hin (Z.ltb_irrefl m)). lia.
    + eapply List.Forall_impl; [|exact Hr]. intros x Hx. rewrite Forall_forall in Hx. apply Z.ltb_ge. by apply Hx.
Qed.

(** Offsets above the high watermark are counted among all. *)
Lemma count_ge_filter w h l : w < h -> count_ge h (List.filter (fun x => w <? x) l) = count_ge h l.
Proof.
  intros Hw. unfold count_ge. f_equal. induction l as [|x l IH]; [done|]. cbn.
  destruct (Z.ltb_spec w x); cbn; destruct (Z.leb_spec h x); rewrite ?IH; try done. lia.
Qed.

Lemma count_gt_filter w h l : w <= h -> count_gt h (List.filter (fun x => w <? x) l) = count_gt h l.
Proof.
  intros Hw. unfold count_gt. f_equal. induction l as [|x l IH]; [done|]. cbn.
  destruct (Z.ltb_spec w x); cbn; destruct (Z.ltb_spec h x); rewrite ?IH; try done. lia.
Qed.

Definition follower_leos (followers : list (Z * OffsetInfo)) : list Z :=
  map (fun '(_, follower_info) => info_leo follower_info) followers.
(** How many followers have to store an offset. *)
Definition required_followers (min_replica : Z) (followers : list (Z * OffsetInfo)) : Z :=
  Z.max 1 (Z.min (wrap_u 16 (min_replica - 1)) (zlen followers)).

Lemma compute_hw_spec leader min_replica followers :
  match compute_hw leader min_replica followers with
  | Some h =>
      hw leader < h /\ h ∈ follower_leos followers /\
      required_followers min_replica followers <= count_ge h (follower_leos followers) /\
      count_gt h (follower_leos followers) < required_followers min_replica followers
  | None => count_gt (hw leader) (follower_leos followers) < required_followers min_replica followers
  end.
Proof.
  unfold compute_hw, required_followers. fold (follower_leos followers).
  set (q := List.filter (fun leo => hw leader <? leo) (follower_leos followers)).
  set (k := Z.min (wrap_u 16 (min_replica - 1)) (zlen followers)).
  assert (0 <= k) as Hk by (pose proof (wrap_u_range 16 (min_replica - 1) ltac:(lia)); pose proof (zlen_nonneg followers); unfold in_u in *; lia).
  assert (forall h, h ∈ q -> hw leader < h /\ h ∈ follower_leos followers) as Hq.
  { intros h Hin. apply list_elem_of_In in Hin. apply List.filter_In in Hin as [Hin Hlt].
    split; [by apply Z.ltb_lt|by apply list_elem_of_In]. }
  destruct (Z.eqb_spec k 0) as [->|Hk0].
  - change (Z.max 1 0) with 1. destruct q as [|x q'] eqn:Eq; cbn.
    + unfold count_gt. fold q. rewrite Eq. done.
    + destruct (fold_max_spec q' x) as [Hin Hall]. set (m := fold_left Z.max q' x) in *.
      destruct (Hq m Hin) as [Hw Hm]. split; [done|]. split; [done|].
      rewrite <-(count_ge_filter (hw leader)), <-(count_gt_filter (hw leader)) by lia. fold q. rewrite Eq.
      unfold count_ge, count_gt. split.
      * assert (m ∈ List.filter (fun y => m <=? y) (x :: q')) as Hin'.
        { apply list_elem_of_In, List.filter_In. split; [by apply list_elem_of_In|apply Z.leb_refl]. }
        destruct (List.filter (fun y => m <=? y) (x :: q')); [by apply not_elem_of_nil in Hin'|].
        rewrite zlen_cons. pose proof (zlen_nonneg l). lia.
      * rewrite zlen_filter_none; [lia|]. eapply List.Forall_impl; [|exact Hall]. intros y Hy.
        apply Z.ltb_ge. lia.
  - rewrite (Z.max_r 1 k) by lia. destruct (Z.ltb_spec (zlen q) k) as [Hlt|Hge]; [done|].
    assert (zlen (ztake k q) = k) as Hlen by (rewrite zlen_ztake; lia).
    assert (ztake k q <> []) as Hne by (intros E; rewrite E, zlen_nil in Hlen; lia).
    destruct (keeps_largest_fold (ztake k q) (ztake k q) (zdrop k q) Hne) as [Hkeep Hl].
    { exists []. rewrite app_nil_r. split; [done|constructor]. }
    rewrite ztake_zdrop in Hkeep. set (heap := fold_left heap_push_larger (zdrop k q) (ztake k q)) in *.
    assert (zlen heap = k) as Hhk by (unfold zlen in *; lia).
    destruct (heap_peek heap) as [m|] eqn:Em; [|destruct heap; [rewrite zlen_nil in Hhk; lia|done]].
    destruct (largest_counts heap q m Hkeep Em) as (Hin & Hc1 & Hc2). destruct (Hq m Hin) as [Hw Hm].
    split; [done|]. split; [done|]. rewrite Hhk in *.
    rewrite <-(count_ge_filter (hw leader)), <-(count_gt_filter (hw leader)) by lia. done.
Qed.

(** ** Batches as they are stored *)

Section sealing.
Context (crc32c : list byte -> Z) (crc32c_u32 : forall bs, in_u 32 (crc32c bs)).
Notation seal := (sealed crc32c codec_raw).

Lemma sealed_idem b : seal (seal b) = seal b.
Proof. reflexivity. Qed.

Lemma end_from_sealed o bs : end_from o (map seal bs) = end_from o bs.
Proof. revert o. induction bs as [|b bs IH]; intros o; cbn; [done|]. apply IH. Qed.

Lemma log_from_sealed o bs : log_from codec_raw o (map seal bs) <-> log_from codec_raw o bs.
Proof.
  revert o. induction bs as [|b bs IH]; intros o; cbn; [done|].
  by rewrite <-(IH (o + last_offset_delta (header b) + 1)).
Qed.

Definition sendable (limit : Z) (b : RawBatch) : Prop :=
  storable codec_raw b /\ write_size_batch codec_raw 0 b <= limit.

Lemma sendable_sealed limit b : sendable limit b -> sendable limit (seal b).
Proof. intros Hb. exact Hb. Qed.

Lemma number_batches_id o bs : log_from codec_raw o bs -> number_batches o bs = bs.
Proof.
  revert o. induction bs as [|b bs IH]; intros o Hl; cbn; [done|]. destruct Hl as (<- & _ & _ & Hl).
  rewrite (IH _ Hl). by destruct b.
Qed.

Lemma log_from_take o bs n : log_from codec_raw o bs -> log_from codec_raw o (take n bs).
Proof. intros Hl. rewrite <-(take_drop n bs) in Hl. by apply log_from_app in Hl as [? _]. Qed.

Lemma log_from_drop o bs n :
  log_from codec_raw o bs -> log_from codec_raw (offset_at o bs n) (drop n bs).
Proof. intros Hl. rewrite <-(take_drop n bs) in Hl. by apply log_from_app in Hl as [_ ?]. Qed.

(** The number of records is the number of offsets. *)
Lemma total_records_log o bs acc :
  log_from codec_raw o bs -> 0 <= acc -> acc + (end_from o bs - o) < 2 ^ 64 ->
  fold_left (fun sum b => wrap_u 64 (sum + records_len b)) bs acc = acc + (end_from o bs - o).
Proof.
  revert o acc. induction bs as [|b bs IH]; intros o acc Hl Ha Hb; cbn in *; [lia|].
  destruct Hl as (_ & Hd & _ & Hl). pose proof (end_from_ge codec_raw _ _ Hl). pose proof (zlen_nonneg bs).
  assert (records_len b = last_offset_delta (header b) + 1) as -> by (unfold records_len; case_ltb; lia).
  rewrite wrap_u_id by (unfold in_u; lia). rewrite (IH (o + last_offset_delta (header b) + 1)); [lia|done|lia|lia].
Qed.

(** Records as a follower decodes them. *)
Lemma decode_records v bs :
  Forall (valid_batch codec_raw) bs -> zlen (wire_batches crc32c codec_raw bs) < 2 ^ 31 ->
  decode_from (codec_record_set crc32c codec_raw) v
    (be_split 4 (zlen (wire_batches crc32c codec_raw bs)) ++ wire_batches crc32c codec_raw bs)
  = (Ok (MkRecordSet (map seal bs)), []).
Proof.
  intros Hv Hz. pose proof (reads_record_set crc32c crc32c_u32 codec_raw v (MkRecordSet bs)) as Hr.
  specialize (Hr ltac:(by split) []). unfold wire_record_set in Hr. rewrite app_nil_r in Hr.
  unfold decode_from. cbn [Wire.decode codec_record_set dflt]. cbn [batches] in Hr. rewrite Hr; [done|].
  rewrite zlen_app, zlen_be_split. unfold isize_max. lia.
Qed.

(** [F] is a prefix of [L], up to the fields that writing fills in. *)
Definition is_prefix (F L : list RawBatch) : Prop :=
  exists n, (n <= length L)%nat /\ map seal F = map seal (take n L).

Lemma is_prefix_nil L : is_prefix [] L.
Proof. exists 0%nat. split; [lia|done]. Qed.

Lemma is_prefix_app F L L' : is_prefix F L -> is_prefix F (L ++ L').
Proof. intros (n & Hn & E). exists n. rewrite length_app, take_app_le by lia. split; [lia|done]. Qed.

Lemma is_prefix_end o F L :
  log_from codec_raw o L -> is_prefix F L -> end_from o F <= end_from o L.
Proof.
  intros Hl (n & Hn & E). rewrite <-(end_from_sealed o F), E, end_from_sealed.
  apply (offset_at_bounds codec_raw o L n Hl Hn).
Qed.

(** A prefix that ends where a part of the log begins is extended by it. *)
Lemma is_prefix_extend o F L n m :
  log_from codec_raw o L -> is_prefix F L -> (n + m <= length L)%nat ->
  end_from o F = offset_at o L n ->
  is_prefix (F ++ map seal (take m (drop n L))) L.
Proof.
  intros Hl (k & Hk & E) Hnm He. rewrite <-(end_from_sealed o F), E, end_from_sealed in He.
  fold (offset_at o L k) in He.
  assert (k = n) as ->.
  { destruct (Nat.lt_trichotomy k n) as [Hlt|[->|Hgt]]; [|done|].
    - pose proof (offset_at_mono codec_raw o L k n Hl ltac:(lia)). lia.
    - pose proof (offset_at_mono codec_raw o L n k Hl ltac:(lia)). lia. }
  exists (n + m)%nat. split; [done|]. rewrite map_app, E, map_map.
  replace (take (n + m) L) with (take n L ++ take m (drop n L)).
  - rewrite map_app. f_equal.
  - apply take_take_drop.
Qed.
End sealing.

(** ** Shared storages *)

Section storages.
Context (crc32c : list byte -> Z) (crc32c_u32 : forall bs, in_u 32 (crc32c bs)).
Context {S : Type} `{!ReplicaStorage S} `{!ReplicaStorageOK crc32c S}.
Implicit Types (s : SharableReplicaStorage S) (all bs : list RawBatch).
Notation seal := (sealed crc32c codec_raw).

(** A storage that holds a log and has published its offsets. *)
Definition sh_ok_from (start : Z) s (limit : Z) all : Prop :=
  stores (sh_inner s) start all /\ pub_leo s = st_leo (sh_inner s) /\ pub_hw s = st_hw (sh_inner s) /\
  st_limit (sh_inner s) = limit.
Definition sh_ok : SharableReplicaStorage S -> Z -> list RawBatch -> Prop := sh_ok_from 0.

Lemma sh_ok_log s limit all :
  sh_ok s limit all -> log_from codec_raw 0 all /\ end_from 0 all = pub_leo s /\ 0 <= pub_leo s < 2 ^ 63.
Proof.
  intros (Hs & El & _). destruct (stores_log _ _ _ Hs) as (_ & Hl & He & Hb). rewrite El.
  pose proof (end_from_ge codec_raw _ _ Hl). pose proof (zlen_nonneg all). split; [done|]. split; [done|]. lia.
Qed.

Lemma sh_update_hw_from start s limit all hw :
  sh_ok_from start s limit all ->
  exists b s', sh_update_hw hw s = (Ok b, s') /\ sh_ok_from start s' limit all /\ pub_hw s' = hw /\ pub_leo s' = pub_leo s.
Proof.
  intros (Hs & El & Eh & Elim). destruct (stores_update _ _ _ hw Hs) as (i' & Ei & Hs' & Eh' & El' & Elim').
  unfold sh_update_hw.
  erewrite bind_ok by (unfold zoom; rewrite Ei; reflexivity).
  destruct (Z.eqb_spec (st_hw (sh_inner s)) hw) as [E|Hne]; cbn [negb].
  - eexists _, _. split; [reflexivity|]. cbn. split; [|split; [congruence|done]]. split_and!; cbn; congruence.
  - erewrite bind_ok by done. eexists _, _. split; [reflexivity|]. cbn. split; [|done].
    split_and!; cbn; congruence.
Qed.

Lemma sh_write_from start s limit all bs upd :
  sh_ok_from start s limit all -> Forall (sendable limit) bs -> end_from (pub_leo s) bs < 2 ^ 63 ->
  let stored := number_batches (pub_leo s) bs in
  exists size s', sh_write_record_set upd (s, MkRecordSet bs) = (Ok (pub_leo s, pub_leo s', size), (s', MkRecordSet stored)) /\
    sh_ok_from start s' limit (all ++ stored) /\ pub_leo s' = end_from (pub_leo s) bs /\
    pub_hw s' = if upd then pub_leo s' else pub_hw s.
Proof.
  intros (Hs & El & Eh & Elim) Hb Hend stored. unfold stored in *. rewrite El in *.
  destruct (stores_write _ _ _ bs upd Hs) as (i' & size & E & Hs' & El' & Eh' & Elim').
  { eapply List.Forall_impl; [|exact Hb]. by intros b [? _]. }
  { eapply List.Forall_impl; [|exact Hb]. intros b [_ ?]. by rewrite Elim. }
  { done. }
  unfold sh_write_record_set. erewrite bind_ok by done. cbv beta iota zeta.
  erewrite bind_ok by (unfold zoom; cbn [fst snd]; rewrite E; reflexivity).
  erewrite bind_ok by done. cbv beta iota zeta. erewrite bind_ok by done.
  destruct upd; (erewrite bind_ok by done); (eexists _, (MkSharable _ _ _); split; [reflexivity|]); cbn;
    (split; [split_and!; cbn; congruence|split; congruence]).
Qed.

Lemma sh_update_hw_spec s limit all hw :
  sh_ok s limit all ->
  exists b s', sh_update_hw hw s = (Ok b, s') /\ sh_ok s' limit all /\ pub_hw s' = hw /\ pub_leo s' = pub_leo s.
Proof. apply sh_update_hw_from. Qed.

Lemma sh_write_spec s limit all bs upd :
  sh_ok s limit all -> Forall (sendable limit) bs -> end_from (pub_leo s) bs < 2 ^ 63 ->
  let stored := number_batches (pub_leo s) bs in
  exists size s', sh_write_record_set upd (s, MkRecordSet bs) = (Ok (pub_leo s, pub_leo s', size), (s', MkRecordSet stored)) /\
    sh_ok s' limit (all ++ stored) /\ pub_leo s' = end_from (pub_leo s) bs /\
    pub_hw s' = if upd then pub_leo s' else pub_hw s.
Proof. apply sh_write_from. Qed.

(** The records of a message that continue the follower's log are appended,
    others are not. *)
Lemma write_recordsets_spec s limit F L n m :
  sh_ok s limit F -> log_from codec_raw 0 L -> end_from 0 L < 2 ^ 63 -> Forall (sendable limit) L ->
  is_prefix crc32c F L -> (n + m <= length L)%nat -> (0 < m)%nat ->
  exists b s' F' recs, write_recordsets (s, MkRecordSet (map seal (take m (drop n L)))) = (Ok b, (s', recs)) /\
    sh_ok s' limit F' /\ is_prefix crc32c F' L /\ pub_leo s <= pub_leo s' /\ pub_hw s' = pub_hw s /\
    (pub_leo s = offset_at 0 L n -> pub_leo s' = offset_at 0 L (n + m)).
Proof.
  intros Hok Hl Hend Hsend Hp Hnm Hm. destruct (sh_ok_log _ _ _ Hok) as (HlF & EF & HbF).
  set (M := take m (drop n L)) in *.
  assert (log_from codec_raw (offset_at 0 L n) M) as HlM by (by apply log_from_take, log_from_drop).
  assert (end_from (offset_at 0 L n) M = offset_at 0 L (n + m)) as EM.
  { unfold offset_at, M. rewrite <-end_from_app. f_equal. apply take_take_drop. }
  pose proof (offset_at_bounds codec_raw 0 L (n + m) Hl Hnm) as Hb2.
  pose proof (offset_at_mono codec_raw 0 L n (n + m) Hl ltac:(lia)) as Hb1.
  assert (record_set_base_offset (MkRecordSet (map seal M)) = offset_at 0 L n) as Ebase.
  { destruct (lookup_lt_is_Some_2 L n ltac:(lia)) as [b Hb]. unfold M. rewrite (drop_S _ _ _ Hb).
    destruct m; [lia|]. cbn. by destruct (log_from_lookup codec_raw 0 L n b Hl Hb) as [? _]. }
  unfold write_recordsets. erewrite bind_ok by done. cbv beta iota. rewrite Ebase.
  destruct (Z.eqb_spec (offset_at 0 L n) (pub_leo s)) as [E|Hne]; cbn [negb].
  - destruct (sh_write_spec s limit F (map seal M) false Hok) as (offsets & s' & Ew & Hok' & El & Eh).
    + apply Forall_map. eapply List.Forall_impl; [apply sendable_sealed|]. by apply Forall_take, Forall_drop.
    + rewrite end_from_sealed, <-E, EM. lia.
    + rewrite <-E, number_batches_id in Ew, Hok' by (by apply log_from_sealed).
      rewrite end_from_sealed, <-E, EM in El.
      erewrite bind_ok by exact Ew. eexists _, s', _, _. split; [reflexivity|]. split; [exact Hok'|].
      split; [eapply is_prefix_extend; [done|done|done|congruence]|]. split; [lia|]. done.
  - eexists _, s, F, _. split; [reflexivity|]. split_and!; try done.
Qed.

(** A follower that receives a part of the leader's log. *)
Lemma sync_spec s limit F L n m response :
  sh_ok s limit F -> log_from codec_raw 0 L -> end_from 0 L < 2 ^ 63 -> Forall (sendable limit) L ->
  is_prefix crc32c F L -> (n + m <= length L)%nat ->
  resp_records response = wire_batches crc32c codec_raw (take m (drop n L)) ->
  zlen (resp_records response) < 2 ^ 31 ->
  exists reply s' F', sync_from_leader crc32c response s = (Ok reply, s') /\ sh_ok s' limit F' /\
    is_prefix crc32c F' L /\ pub_leo s <= pub_leo s' /\
    (reply = None /\ pub_leo s' = pub_leo s \/ reply = Some (as_offset s')) /\
    (pub_hw s' = pub_hw s \/ pub_hw s' = resp_hw response /\ resp_hw response <= pub_leo s') /\
    (pub_leo s = offset_at 0 L n -> pub_leo s' = offset_at 0 L (n + m)).
Proof.
  intros Hok Hl Hend Hsend Hp Hnm Er Hz.
  assert (log_from codec_raw (offset_at 0 L n) (take m (drop n L))) as HlM by (by apply log_from_take, log_from_drop).
  unfold sync_from_leader. rewrite Er in Hz |- *.
  rewrite decode_records; [|done|by apply (log_from_valid codec_raw _ _ HlM)|done].
  assert (exists changes s1 F1 recs1,
    (if 0 <? total_records (MkRecordSet (map seal (take m (drop n L)))) then write_recordsets ;; mret true else mret false)
      (s, MkRecordSet (map seal (take m (drop n L)))) = (Ok changes, (s1, recs1)) /\
    sh_ok s1 limit F1 /\ is_prefix crc32c F1 L /\ pub_leo s <= pub_leo s1 /\ pub_hw s1 = pub_hw s /\
    (pub_leo s = offset_at 0 L n -> pub_leo s1 = offset_at 0 L (n + m)) /\
    (changes = false -> pub_leo s1 = pub_leo s))
    as (changes & s1 & F1 & recs1 & E1 & Hok1 & Hp1 & Hle1 & Eh1 & Hadv1 & Hsame1).
  { destruct m as [|m].
    - eexists _, s, F, _. split; [reflexivity|]. split_and!; try done. by rewrite Nat.add_0_r.
    - destruct (write_recordsets_spec s limit F L n (Datatypes.S m) Hok Hl Hend Hsend Hp Hnm ltac:(lia))
        as (b & s1 & F1 & recs1 & E & Hrest).
      pose proof (offset_at_bounds codec_raw 0 L (n + Datatypes.S m) Hl Hnm) as Hb2.
      pose proof (offset_at_mono codec_raw 0 L n (n + Datatypes.S m) Hl ltac:(lia)) as Hb1.
      pose proof (offset_at_bounds codec_raw 0 L n Hl ltac:(lia)) as Hb0.
      assert (0 < total_records (MkRecordSet (map seal (take (Datatypes.S m) (drop n L))))) as Ht.
      { unfold total_records. cbn [batches].
        assert (end_from (offset_at 0 L n) (take (Datatypes.S m) (drop n L)) = offset_at 0 L (n + Datatypes.S m)) as EM.
        { unfold offset_at. rewrite <-end_from_app. f_equal. apply take_take_drop. }
        rewrite (total_records_log (offset_at 0 L n)); rewrite ?end_from_sealed, ?EM; try lia.
        by apply log_from_sealed. }
      destruct (Z.ltb_spec 0 (total_records (MkRecordSet (map seal (take (Datatypes.S m) (drop n L)))))); [|lia].
      erewrite bind_ok by exact E. eexists _, s1, F1, recs1. split; [reflexivity|]. destruct Hrest as (? & ? & ? & ? & ?). by split_and!. }
  unfold update_from_leader. erewrite bind_ok by done. cbv beta iota.
  erewrite bind_ok by exact E1. erewrite bind_ok by done. cbv beta iota zeta.
  assert ((if changes then Some (as_offset s1) else None) = None /\ pub_leo s1 = pub_leo s \/
    (if changes then Some (as_offset s1) else None) = Some (as_offset s1)) as Hreply by (destruct changes; auto).
  cbn [as_offset hw info_leo].
  destruct (Z.eqb_spec (pub_hw s1) (resp_hw response)); [eexists _, s1, F1; split; [reflexivity|]; split_and!; auto|].
  destruct (Z.ltb_spec (resp_hw response) (pub_hw s1)); [eexists _, s1, F1; split; [reflexivity|]; split_and!; auto|].
  destruct (Z.ltb_spec (pub_leo s1) (resp_hw response)); [eexists _, s1, F1; split; [reflexivity|]; split_and!; auto|].
  destruct (sh_update_hw_spec s1 limit F1 (resp_hw response) Hok1) as (b & s2 & E2 & Hok2 & Eh2 & El2).
  erewrite bind_ok by (unfold zoom; cbn [fst]; rewrite E2; reflexivity).
  eexists _, s2, F1. split; [reflexivity|]. rewrite El2. split_and!; auto.
Qed.

(** ** Leaders *)

Implicit Types (l : LeaderReplicaState S).

Definition leader_ok l (limit : Z) (L : list RawBatch) : Prop :=
  sh_ok (leader_storage l) limit L /\ Forall (sendable limit) L /\
  pub_hw (leader_storage l) <= pub_leo (leader_storage l).

Lemma number_batches_sendable limit o bs :
  Forall (sendable limit) bs -> Forall (sendable limit) (number_batches o bs).
Proof. intros Hb. revert o. induction Hb as [|b bs Hb _ IH]; intros o; cbn; constructor; [exact Hb|done]. Qed.

Lemma sendable_end limit o bs : Forall (sendable limit) bs -> o <= end_from o bs.
Proof.
  intros Hb. revert o. induction Hb as [|b bs [(_ & _ & Hd & _) _] _ IH]; intros o; cbn; [lia|].
  specialize (IH (o + last_offset_delta (header b) + 1)). lia.
Qed.

(** A write of the leader. *)
Lemma leader_write_spec l limit L recs res l' recs' :
  leader_ok l limit L -> Forall (sendable limit) (batches recs) ->
  end_from (pub_leo (leader_storage l)) (batches recs) < 2 ^ 63 ->
  leader_write_record_set Ok (l, recs) = (Ok res, (l', recs')) ->
  exists new, leader_ok l' limit (L ++ new) /\ followers l' = followers l /\
    in_sync_replica l' = in_sync_replica l /\
    pub_hw (leader_storage l) <= pub_hw (leader_storage l') /\
    (in_sync_replica l <> 1 -> pub_hw (leader_storage l') = pub_hw (leader_storage l)).
Proof.
  intros (Hok & Hs & Hhw) Hb Hend E. unfold leader_write_record_set in E.
  erewrite bind_ok in E by done. cbv beta iota in E. erewrite bind_ok in E by done. erewrite bind_ok in E by done.
  destruct (total_records recs =? 0).
  { injection E as _ <- _. exists []. rewrite app_nil_r. split_and!; done. }
  destruct recs as [bs]. cbn [batches] in *.
  destruct (sh_write_spec _ limit L bs (in_sync_replica l =? 1) Hok Hb Hend) as (offs & s' & Ew & Hok' & El & Eh).
  erewrite bind_ok in E by (unfold zoom; cbn [fst snd]; rewrite Ew; reflexivity).
  erewrite bind_ok in E by done. injection E as _ <- _. cbn in *.
  exists (number_batches (pub_leo (leader_storage l)) bs).
  destruct (sh_ok_log _ _ _ Hok) as (_ & EL & HbL). destruct (sh_ok_log _ _ _ Hok') as (HlL' & EL' & HbL').
  assert (pub_leo (leader_storage l) <= pub_leo s') as Hmono.
  { rewrite El. by eapply sendable_end. }
  split; [split; [done|split; [apply Forall_app; split; [done|by apply number_batches_sendable]|]]|].
  - cbn. rewrite Eh. destruct (_ =? 1); lia.
  - split_and!; try done; rewrite Eh; destruct (Z.eqb_spec (in_sync_replica l) 1); try done; lia.
Qed.

(** A write of records appends them, numbered from the end of the log. *)
Lemma leader_write_appends l limit L bs :
  leader_ok l limit L -> Forall (sendable limit) bs ->
  end_from (pub_leo (leader_storage l)) bs < 2 ^ 63 -> total_records (MkRecordSet bs) <> 0 ->
  let stored := number_batches (pub_leo (leader_storage l)) bs in
  exists size notified l',
    leader_write_record_set Ok (l, MkRecordSet bs)
      = (Ok (pub_leo (leader_storage l), pub_leo (leader_storage l'), size, notified), (l', MkRecordSet stored)) /\
    leader_ok l' limit (L ++ stored) /\ in_sync_replica l' = in_sync_replica l /\
    pub_leo (leader_storage l') = end_from (pub_leo (leader_storage l)) bs.
Proof.
  intros Hl Hb Hend Ht. cbv zeta. pose proof Hl as (Hok & Hs & Hhw).
  destruct (sh_write_spec _ limit L bs (in_sync_replica l =? 1) Hok Hb Hend) as (size & s' & E & Hok' & El & Eh).
  assert (pub_leo (leader_storage l) <= pub_leo s') as Hmono by (rewrite El; by eapply sendable_end).
  unfold leader_write_record_set. erewrite bind_ok by done. cbv beta iota.
  erewrite bind_ok by done. erewrite bind_ok by done. destruct (Z.eqb_spec (total_records (MkRecordSet bs)) 0); [done|].
  erewrite bind_ok by (unfold zoom; cbn [fst snd]; rewrite E; reflexivity).
  erewrite bind_ok by done. cbv beta iota. eexists _, _, (set_leader_storage s' l). split; [reflexivity|]. unfold leader_ok. cbn [leader_storage set_leader_storage].
  split_and!; try done.
  - apply Forall_app. split; [done|by apply number_batches_sendable].
  - cbn. rewrite Eh. destruct (_ =? 1); lia.
Qed.

(** What the leader makes of a follower's report. *)
Lemma leader_write_succeeds l limit L recs :
  leader_ok l limit L -> Forall (sendable limit) (batches recs) ->
  end_from (pub_leo (leader_storage l)) (batches recs) < 2 ^ 63 -> total_records recs <> 0 ->
  exists offsets notified l' recs',
    leader_write_record_set Ok (l, recs) = (Ok (offsets, notified), (l', recs')) /\
    pub_leo (leader_storage l') = end_from (pub_leo (leader_storage l)) (batches recs).
Proof.
  intros (Hok & _) Hb Hend Ht. destruct recs as [bs].
  destruct (sh_write_spec _ limit L bs (in_sync_replica l =? 1) Hok Hb Hend) as (offsets & s' & E & _ & El & _).
  unfold leader_write_record_set. erewrite bind_ok by done. cbv beta iota.
  erewrite bind_ok by done. erewrite bind_ok by done. destruct (Z.eqb_spec (total_records (MkRecordSet bs)) 0); [done|].
  erewrite bind_ok by (unfold zoom; cbn [fst snd]; rewrite E; reflexivity).
  erewrite bind_ok by done. cbv beta iota. eexists _, _, _, _. split; [reflexivity|exact El].
Qed.

Lemma update_states_spec l limit L id pos :
  leader_ok l limit L ->
  exists res l', update_states_from_followers id pos l = (Ok res, l') /\
    sh_ok (leader_storage l') limit L /\ pub_leo (leader_storage l') = pub_leo (leader_storage l) /\
    in_sync_replica l' = in_sync_replica l /\
    (followers l' = followers l /\ pub_hw (leader_storage l') = pub_hw (leader_storage l) \/
     exists cur, btree_get id (followers l) = Some cur /\
       followers l' = btree_update id (snd (offset_info_update pos cur)) (followers l) /\
       (pub_hw (leader_storage l') = pub_hw (leader_storage l) \/
        compute_hw (as_offset (leader_storage l)) (in_sync_replica l) (followers l')
        = Some (pub_hw (leader_storage l')))).
Proof.
  intros (Hok & Hs & Hhw). unfold update_states_from_followers. erewrite bind_ok by done. cbv zeta.
  destruct (offset_info_newer _ pos); [eexists _, l; split; [reflexivity|]; split_and!; auto|].
  destruct (btree_get id (followers l)) as [cur|] eqn:Eg.
  2:{ erewrite bind_ok by done. erewrite bind_ok by done. eexists _, l. split; [reflexivity|]. split_and!; auto. }
  destruct (offset_info_update pos cur) as [changed info] eqn:Eu.
  destruct changed.
  2:{ erewrite bind_ok by done. erewrite bind_ok by done. eexists _, l. split; [reflexivity|]. split_and!; auto. }
  set (l1 := set_followers (btree_update id info (followers l)) l).
  assert (exists l2, (if offset_info_is_committed (as_offset (leader_storage l)) then mret tt
      else match compute_hw (as_offset (leader_storage l)) (in_sync_replica l1) (followers l1) with
           | Some hw => log_error (zoom leader_storage set_leader_storage (sh_update_hw hw))
           | None => mret tt end) l1 = (Ok tt, l2) /\ sh_ok (leader_storage l2) limit L /\
    pub_leo (leader_storage l2) = pub_leo (leader_storage l) /\ in_sync_replica l2 = in_sync_replica l /\
    followers l2 = followers l1 /\
    (pub_hw (leader_storage l2) = pub_hw (leader_storage l) \/
     compute_hw (as_offset (leader_storage l)) (in_sync_replica l) (followers l1)
     = Some (pub_hw (leader_storage l2)))) as (l2 & E2 & Hok2 & El2 & Ei2 & Ef2 & Hh2).
  { destruct (offset_info_is_committed _); [exists l1; split; [done|]; split_and!; auto|].
    destruct (compute_hw _ (in_sync_replica l1) (followers l1)) as [h|] eqn:Eh; [|exists l1; split; [done|]; split_and!; auto].
    destruct (sh_update_hw_spec (leader_storage l) limit L h Hok) as (b & s' & E & Hok' & Eh' & El').
    eexists. split; [unfold log_error, zoom; cbn [leader_storage l1 set_followers]; rewrite E; reflexivity|].
    cbn. split_and!; auto. right. rewrite Eh'. exact Eh. }
  erewrite bind_ok.
  2:{ erewrite bind_ok by done. erewrite bind_ok by done. erewrite bind_ok by exact E2. reflexivity. }
  erewrite bind_ok by done. eexists _, l2. split; [reflexivity|]. split_and!; auto.
  right. exists cur. split; [done|]. rewrite Ef2, Eu. split; [done|]. exact Hh2.
Qed.

(** What the leader sends, if it is not cut. *)
Lemma ztake_whole {A} n (xs : list A) : zlen (ztake n xs) < n -> ztake n xs = xs.
Proof.
  intros Hz. destruct (Z.le_gt_cases (zlen xs) n); [by rewrite ztake_all|].
  pose proof (zlen_nonneg (ztake n xs)). rewrite zlen_ztake in Hz; lia.
Qed.

Lemma follower_updates_spec l limit L id max_bytes response :
  leader_ok l limit L -> Forall (fun '(_, info) => -1 <= info_leo info) (followers l) ->
  follower_updates id max_bytes l = Ok (Some response) -> zlen (resp_records response) < max_bytes ->
  resp_hw response = pub_hw (leader_storage l) /\
  exists n m, (n + m <= length L)%nat /\
    resp_records response = wire_batches crc32c codec_raw (take m (drop n L)).
Proof.
  intros (Hok & Hs & Hhw) Hinfo E Hz. unfold follower_updates in E. cbv zeta in E.
  destruct (btree_get id (followers l)) as [info|] eqn:Eg; [|done].
  destruct (offset_info_is_valid info && _) eqn:Ev; [|done].
  apply andb_prop in Ev as [Ev _]. unfold offset_info_is_valid in Ev. apply andb_prop in Ev as [Ev _].
  apply negb_true_iff, orb_false_iff in Ev as [_ Ev]. apply Z.eqb_neq in Ev.
  assert (0 <= info_leo info) as Hge.
  { unfold btree_get in Eg. destruct (List.find _ (followers l)) as [[k i]|] eqn:Ef; [|done].
    cbn in Eg. injection Eg as ->. apply List.find_some in Ef as [Hin _]. rewrite Forall_forall in Hinfo.
    apply list_elem_of_In, Hinfo in Hin. lia. }
  assert (forall resp, Ok (Some resp) = Ok (E := ReadError) (Some response) -> resp = response) as Hinj by (by intros ? [= ->]).
  assert ((exists n m, (n + m <= length L)%nat /\
    ([] : list byte) = wire_batches crc32c codec_raw (take m (drop n L)))) as Hempty.
  { exists 0%nat, 0%nat. split; [lia|done]. }
  destruct (Z.ltb_spec (info_leo info) (info_leo (as_offset (leader_storage l)))) as [Hlt|_].
  2:{ apply Hinj in E. subst response. split; [done|exact Hempty]. }
  destruct Hok as (Hst & El & _ & _). cbn in Hlt.
  destruct (stores_read crc32c _ _ _ (info_leo info) max_bytes Hst) as (sl & data & Er & Ed & Hr); [lia|].
  unfold sh_read_records in E. rewrite Er in E. apply Hinj in E. subst response. cbn in Hz |- *. split; [done|].
  destruct Hr as (pre & b & post & k & -> & _ & Edata & _).
  assert (slice_data sl = data) as ->.
  { rewrite Ed in Hz |- *. by apply ztake_whole. }
  exists (length pre), (Nat.min k (length (b :: post))). rewrite length_app, drop_app_length.
  split; [lia|]. rewrite Edata. f_equal.
  destruct (Nat.min_spec k (length (b :: post))) as [[? ->]|[? ->]]; [done|].
  by rewrite firstn_all, firstn_all2 by lia.
Qed.

(** ** The cluster *)

(** The high watermark it starts with, and the followers the leader knows. *)
Context (max_bytes limit hw0 isr : Z) (keys : list Z) (max_bytes_i32 : max_bytes <= 2 ^ 31).
Implicit Types cl : Cluster S.

Notation leader_hw cl := (pub_hw (leader_storage (leader S cl))).

(** What is known of a follower is not more than what it has. *)
Definition info_ok (ms : gmap Z (SharableReplicaStorage S)) '((id, info) : Z * OffsetInfo) : Prop :=
  -1 <= info_leo info /\ exists s, ms !! id = Some s /\ info_leo info <= pub_leo s.

Definition sync_ok (h : Z) (L : list RawBatch) '((_, response) : Z * PartitionResponse) : Prop :=
  resp_hw response <= h /\ zlen (resp_records response) < 2 ^ 31 /\
  exists n m, (n + m <= length L)%nat /\
    resp_records response = wire_batches crc32c codec_raw (take m (drop n L)).

Definition member_ok (h : Z) (L : list RawBatch) (s : SharableReplicaStorage S) : Prop :=
  exists F, sh_ok s limit F /\ is_prefix crc32c F L /\ pub_hw s <= h.

Record cluster_inv cl (L : list RawBatch) : Prop := {
  inv_leader : leader_ok (leader S cl) limit L;
  inv_members : forall id s, members S cl !! id = Some s -> member_ok (leader_hw cl) L s;
  inv_infos : Forall (info_ok (members S cl)) (followers (leader S cl));
  inv_keys : map fst (followers (leader S cl)) = keys;
  inv_isr : in_sync_replica (leader S cl) = isr;
  inv_syncs : Forall (sync_ok (leader_hw cl) L) (sync_messages S cl);
  inv_offsets : Forall (info_ok (members S cl)) (offset_messages S cl);
  inv_committed : leader_hw cl = hw0 \/ isr = 1 \/
    required_followers isr (followers (leader S cl))
    <= count_ge (leader_hw cl) (follower_leos (followers (leader S cl)));
}.

Lemma take_drop_app {A} (l k : list A) n m :
  (n + m <= length l)%nat -> take m (drop n (l ++ k)) = take m (drop n l).
Proof. intros Hn. rewrite drop_app_le by lia. rewrite take_app_le; [done|]. rewrite length_drop. lia. Qed.

Lemma sync_ok_mono h h' L new msg : h <= h' -> sync_ok h L msg -> sync_ok h' (L ++ new) msg.
Proof.
  destruct msg as [id response]. intros Hh (H1 & H2 & n & m & Hn & E). split; [lia|]. split; [done|].
  exists n, m. rewrite length_app, take_drop_app by done. split; [lia|done].
Qed.

Lemma member_ok_mono h h' L new s : h <= h' -> member_ok h L s -> member_ok h' (L ++ new) s.
Proof. intros Hh (F & Hok & Hp & Hle). exists F. split; [done|]. split; [by apply is_prefix_app|lia]. Qed.

Lemma info_ok_insert ms id s s' x :
  ms !! id = Some s -> pub_leo s <= pub_leo s' -> info_ok ms x -> info_ok (<[id := s']> ms) x.
Proof.
  destruct x as [id' info]. intros Hs Hle (H1 & s0 & H0 & Hi). split; [done|].
  destruct (decide (id = id')) as [->|Hne].
  - exists s'. rewrite lookup_insert_eq. split; [done|]. simplify_eq. lia.
  - exists s0. rewrite lookup_insert_ne by done. done.
Qed.

Lemma btree_update_keys {V} k (v : V) m : map fst (btree_update k v m) = map fst m.
Proof. induction m as [|[k' v'] m IH]; [done|]. cbn. destruct (k' =? k); cbn; by rewrite ?IH. Qed.

Lemma btree_update_forall {V} (P : Z * V -> Prop) k v m :
  Forall P m -> P (k, v) -> Forall P (btree_update k v m).
Proof.
  intros Hm Hk. induction Hm as [|[k' v'] m Hk' Hm IH]; [constructor|]. cbn.
  destruct (Z.eqb_spec k' k) as [->|]; by constructor.
Qed.

Lemma btree_get_in {V} k (v : V) m : btree_get k m = Some v -> (k, v) ∈ m.
Proof.
  unfold btree_get. intros E. destruct (List.find _ m) as [[k' v']|] eqn:Ef; [|done]. cbn in E. injection E as ->.
  apply List.find_some in Ef as [Hin Hk]. apply Z.eqb_eq in Hk as ->. by apply list_elem_of_In.
Qed.

Lemma count_ge_cons h x xs : count_ge h (x :: xs) = (if h <=? x then 1 else 0) + count_ge h xs.
Proof. unfold count_ge. cbn. destruct (h <=? x); [apply zlen_cons|done]. Qed.

Lemma count_ge_update h k cur info (m : list (Z * OffsetInfo)) :
  btree_get k m = Some cur -> info_leo cur <= info_leo info ->
  count_ge h (follower_leos m) <= count_ge h (follower_leos (btree_update k info m)).
Proof.
  intros E Hle. unfold follower_leos. revert E. unfold btree_get. induction m as [|[k' i'] m IH]; [done|].
  cbn [List.find btree_update fst]. destruct (Z.eqb_spec k' k) as [->|]; intros E; cbn [map].
  - injection E as ->. rewrite !count_ge_cons.
    destruct (Z.leb_spec h (info_leo cur)), (Z.leb_spec h (info_leo info)); lia.
  - rewrite !count_ge_cons. specialize (IH E). lia.
Qed.

(** Each kind of step keeps the invariant. *)
Lemma inv_produce l l' ms pend syncs offs recs recs' offsets notified L :
  cluster_inv (MkCluster S l ms pend syncs offs) L -> Forall (sendable limit) (batches recs) ->
  end_from (pub_leo (leader_storage l)) (batches recs) < 2 ^ 63 ->
  leader_write_record_set Ok (l, recs) = (Ok (offsets, notified), (l', recs')) ->
  exists new, cluster_inv (MkCluster S l' ms (notified ++ pend) syncs offs) (L ++ new).
Proof.
  intros [Il Im Ii In Ir Is Io Ic] Hb Hend E. cbn in *.
  destruct (leader_write_spec l limit L recs _ l' recs' Il Hb Hend E) as (new & Hok & Ef & Ei & Hhw & Hsame).
  rewrite Ir in Hsame. exists new. split; cbn; rewrite ?Ef, ?Ei; try done.
  - intros id s Hs. eapply member_ok_mono; [exact Hhw|]. by eapply Im.
  - eapply List.Forall_impl; [|exact Is]. intros msg. by apply sync_ok_mono.
  - destruct (decide (isr = 1)) as [|Hne]; [auto|]. rewrite (Hsame Hne). exact Ic.
Qed.

Lemma inv_send l ms pend pend' syncs offs id response L :
  cluster_inv (MkCluster S l ms pend syncs offs) L ->
  follower_updates id max_bytes l = Ok (Some response) -> zlen (resp_records response) < max_bytes ->
  cluster_inv (MkCluster S l ms pend' ((id, response) :: syncs) offs) L.
Proof.
  intros [Il Im Ii In Ir Is Io Ic] E Hz. cbn in *.
  destruct (follower_updates_spec l limit L id max_bytes response Il) as (Eh & Hparts); [|done|done|].
  { eapply List.Forall_impl; [|exact Ii]. intros [k info]. by intros [? _]. }
  split; cbn; try done. constructor; [|done]. split; [lia|]. split; [lia|done].
Qed.

Lemma inv_sync l ms pend syncs offs id response s reply s' L :
  cluster_inv (MkCluster S l ms pend syncs offs) L -> (id, response) ∈ syncs -> ms !! id = Some s ->
  sync_from_leader crc32c response s = (Ok reply, s') ->
  cluster_inv (MkCluster S l (<[id := s']> ms) pend syncs
    (match reply with Some o => (id, o) :: offs | None => offs end)) L.
Proof.
  intros [Il Im Ii In Ir Is Io Ic] Hin Hs E. cbn in *. pose proof Il as (Hlok & Hsend & _).
  destruct (sh_ok_log _ _ _ Hlok) as (HlL & EL & HbL).
  apply (proj1 (Forall_forall _ _) Is) in Hin as (Hh & Hz & n & m & Hnm & Er).
  destruct (Im id s Hs) as (F & Hok & Hp & Hhw).
  destruct (sync_spec s limit F L n m response Hok HlL ltac:(lia) Hsend Hp Hnm Er Hz)
    as (reply' & s2 & F' & E' & Hok' & Hp' & Hle & Hreply & Hhw' & _).
  rewrite E in E'. injection E' as <- <-. destruct (sh_ok_log _ _ _ Hok') as (_ & _ & Hb').
  assert (Forall (info_ok (<[id := s']> ms)) offs) as Io'.
  { eapply List.Forall_impl; [|exact Io]. intros x. by eapply info_ok_insert. }
  split; cbn; try done.
  - intros id2 s2. destruct (decide (id = id2)) as [<-|Hne].
    + rewrite lookup_insert_eq. intros [= <-]. exists F'. split; [done|]. split; [done|].
      destruct Hhw' as [->|[-> _]]; lia.
    + rewrite lookup_insert_ne by done. apply Im.
  - eapply List.Forall_impl; [|exact Ii]. intros x. by eapply info_ok_insert.
  - destruct reply as [o|]; [|done]. destruct Hreply as [[? _]|[= ->]]; [done|].
    constructor; [|done]. cbn. split; [lia|]. exists s'. rewrite lookup_insert_eq. split; [done|]. lia.
Qed.

Lemma inv_report l ms pend syncs offs id s L :
  cluster_inv (MkCluster S l ms pend syncs offs) L -> ms !! id = Some s ->
  cluster_inv (MkCluster S l ms pend syncs ((id, as_offset s) :: offs)) L.
Proof.
  intros [Il Im Ii In Ir Is Io Ic] Hs. cbn in *. destruct (Im id s Hs) as (F & Hok & _ & _).
  destruct (sh_ok_log _ _ _ Hok) as (_ & _ & Hb).
  split; cbn; try done. constructor; [|done]. cbn. split; [lia|]. exists s. split; [done|lia].
Qed.

Lemma inv_update l l' ms pend syncs offs id pos changed notified L :
  cluster_inv (MkCluster S l ms pend syncs offs) L -> (id, pos) ∈ offs ->
  update_states_from_followers id pos l = (Ok (changed, notified), l') ->
  cluster_inv (MkCluster S l' ms (notified ++ pend) syncs offs) L.
Proof.
  intros [Il Im Ii In Ir Is Io Ic] Hin E. cbn in *. pose proof Il as (Hlok & Hsend & Hhl).
  destruct (sh_ok_log _ _ _ Hlok) as (HlL & EL & HbL).
  destruct (update_states_spec l limit L id pos Il) as (res & l2 & E' & Hok & Eleo & Eis & Hcase).
  rewrite E in E'. injection E' as _ <-. rewrite Ir in *.
  destruct Hcase as [(Ef & Eh)|(cur & Eg & Ef & Hh)].
  { split; cbn; rewrite ?Ef, ?Eh, ?Eis; try done. split; [done|]. split; [done|]. lia. }
  set (info := snd (offset_info_update pos cur)) in *.
  assert (info_leo info = Z.max (info_leo cur) (info_leo pos)) as Einfo.
  { unfold info, offset_info_update. cbn. case_ltb; lia. }
  apply (proj1 (Forall_forall _ _) Io) in Hin as (Hpos & s & Hs & Hle).
  assert (info_ok ms (id, info)) as Hinfo.
  { pose proof (btree_get_in _ _ _ Eg) as Hcur. apply (proj1 (Forall_forall _ _) Ii) in Hcur as (Hc1 & s2 & Hs2 & Hc2).
    simplify_eq. split; [lia|]. exists s. split; [done|lia]. }
  assert (Forall (info_ok ms) (followers l')) as Ii' by (rewrite Ef; by apply btree_update_forall).
  assert (zlen (followers l') = zlen (followers l)) as Elen.
  { rewrite Ef. unfold zlen. rewrite <-(length_map fst), btree_update_keys, length_map. done. }
  assert (required_followers isr (followers l') = required_followers isr (followers l)) as Ereq
    by (unfold required_followers; by rewrite Elen).
  assert (pub_hw (leader_storage l) <= pub_hw (leader_storage l') <= pub_leo (leader_storage l') /\
    (pub_hw (leader_storage l') = hw0 \/ isr = 1 \/
     required_followers isr (followers l')
     <= count_ge (pub_hw (leader_storage l')) (follower_leos (followers l')))) as [Hmono Hcom].
  { destruct Hh as [Eh|Eh].
    - rewrite Eh. split; [lia|]. destruct Ic as [?|[?|Ic]]; auto. right. right. rewrite Ereq, Ef.
      etransitivity; [exact Ic|]. apply count_ge_update with cur; [done|lia].
    - pose proof (compute_hw_spec (as_offset (leader_storage l)) isr (followers l')) as Hspec.
      rewrite Eh in Hspec. destruct Hspec as (Hgt & Hin & Hcount & _). cbn in Hgt. split; [|auto]. split; [lia|].
      apply list_elem_of_fmap in Hin as ([k i] & -> & Hk). apply (proj1 (Forall_forall _ _) Ii') in Hk as (_ & s2 & Hs2 & Hi).
      destruct (Im k s2 Hs2) as (F & HokF & Hp & _). destruct (sh_ok_log _ _ _ HokF) as (_ & EF & _).
      pose proof (is_prefix_end crc32c 0 F L HlL Hp). lia. }
  split; cbn; rewrite ?Eis; try done.
  - split; [done|]. split; [done|]. lia.
  - intros id2 s2 Hs2. destruct (Im id2 s2 Hs2) as (F & HF & Hp & Hle2). exists F. split; [done|]. split; [done|lia].
  - rewrite Ef, btree_update_keys. done.
  - eapply List.Forall_impl; [|exact Is]. intros msg Hmsg. rewrite <-(app_nil_r L). eapply sync_ok_mono; [|exact Hmsg]. lia.
Qed.

Lemma inv_step cl cl' L :
  cluster_inv cl L -> cluster_step crc32c S max_bytes limit cl cl' ->
  exists new, cluster_inv cl' (L ++ new).
Proof.
  intros Hinv Hstep. destruct Hstep; [by eapply inv_produce|..]; exists []; rewrite app_nil_r;
    [by eapply inv_send|by eapply inv_sync|by eapply inv_report|by eapply inv_update].
Qed.

Lemma inv_reach cl cl' L :
  cluster_inv cl L -> cluster_reach crc32c S max_bytes limit cl cl' -> exists new, cluster_inv cl' (L ++ new).
Proof.
  intros Hinv. induction 1 as [|c1 c2 _ (new & IH) Hstep]; [exists []; by rewrite app_nil_r|].
  destruct (inv_step c1 c2 _ IH Hstep) as (new' & Hi). exists (new ++ new'). by rewrite app_assoc.
Qed.

Lemma count_ge_all h xs : zlen xs <= count_ge h xs -> Forall (Z.le h) xs.
Proof.
  intros Hc. apply Forall_forall. intros x Hx. destruct (Z.le_gt_cases h x); [done|].
  pose proof (zlen_filter_lt (fun x => h <=? x) xs x Hx ltac:(by apply Z.leb_gt)). unfold count_ge in Hc. lia.
Qed.

(** When all followers are required, they all have what is committed. *)
Lemma inv_all_hold cl L :
  cluster_inv cl L -> (isr = 1 -> keys = []) -> zlen keys <= Z.max 1 (wrap_u 16 (isr - 1)) ->
  leader_hw cl = hw0 \/
  forall id, id ∈ keys -> exists s, members S cl !! id = Some s /\ leader_hw cl <= pub_leo s.
Proof.
  intros [Il Im Ii In Ir Is Io Ic] H1 Hk.
  destruct Ic as [?|[E|Ic]]; [auto|right; rewrite (H1 E); intros id Hid; by apply not_elem_of_nil in Hid|right].
  assert (Forall (Z.le (leader_hw cl)) (follower_leos (followers (leader S cl)))) as Hall.
  { apply count_ge_all. etransitivity; [|exact Ic]. unfold required_followers, follower_leos.
    rewrite <-In in Hk. unfold zlen in *. rewrite !length_map in *. lia. }
  intros id Hid. rewrite <-In in Hid. apply list_elem_of_fmap in Hid as ([k info] & -> & Hin).
  pose proof (proj1 (Forall_forall _ _) Ii _ Hin) as (_ & s & Hs & Hle). exists s. split; [done|].
  etransitivity; [|exact Hle]. apply (proj1 (Forall_forall _ _) Hall).
  unfold follower_leos. apply list_elem_of_fmap. by exists (k, info).
Qed.
End storages.


(** ** A cluster that starts *)

Lemma btree_insert_elem {V} k (v : V) m x :
  x ∈ map fst (btree_insert k v m) <-> x = k \/ x ∈ map fst m.
Proof.
  induction m as [|[k' v'] m IH]; cbn; [by rewrite list_elem_of_singleton, elem_of_nil; tauto|].
  destruct (k ?= k') eqn:E; cbn; rewrite ?elem_of_cons, ?IH; [|tauto..].
  apply Z.compare_eq in E as ->. tauto.
Qed.

Lemma btree_insert_length {V} k (v : V) m : zlen (btree_insert k v m) <= 1 + zlen m.
Proof.
  induction m as [|[k' v'] m IH]; cbn; [done|]. destruct (k ?= k'); rewrite ?zlen_cons; lia.
Qed.

Lemma ids_to_map_spec leader_id ids :
  (forall x, x ∈ map fst (ids_to_map leader_id ids) <-> x ∈ ids /\ x <> leader_id) /\
  Forall (fun '(_, info) => info = offset_info_default) (ids_to_map leader_id ids) /\
  (leader_id ∈ ids -> zlen (ids_to_map leader_id ids) < zlen ids).
Proof.
  unfold ids_to_map. set (l := List.filter _ ids).
  assert (forall x, x ∈ l <-> x ∈ ids /\ x <> leader_id) as Hl.
  { intros x. unfold l. rewrite !list_elem_of_In, List.filter_In, negb_true_iff, Z.eqb_neq. done. }
  assert (leader_id ∈ ids -> zlen l < zlen ids) as Hz.
  { intros Hin. eapply zlen_filter_lt; [exact Hin|]. by rewrite Z.eqb_refl. }
  assert (forall m, (forall x, x ∈ map fst (fold_left (fun f id => btree_insert id offset_info_default f) l m)
      <-> x ∈ l \/ x ∈ map fst m) /\
    (Forall (fun '(_, info) => info = offset_info_default) m ->
     Forall (fun '(_, info) => info = offset_info_default) (fold_left (fun f id => btree_insert id offset_info_default f) l m)) /\
    zlen (fold_left (fun f id => btree_insert id offset_info_default f) l m) <= zlen l + zlen m) as Hfold.
  { clear. induction l as [|y l IH]; intros m; cbn [fold_left].
    - split; [intros x; rewrite elem_of_nil; tauto|]. split; [done|]. change (zlen []) with 0. lia.
    - destruct (IH (btree_insert y offset_info_default m)) as (H1 & H2 & H3).
      pose proof (btree_insert_length y offset_info_default m). rewrite zlen_cons. split; [|split; [|lia]].
      + intros x. rewrite H1, btree_insert_elem, elem_of_cons. tauto.
      + intros Hm. apply H2. clear -Hm. induction Hm as [|[k v] m Hk Hm IH]; cbn; [by repeat constructor|].
        destruct (y ?= k); repeat constructor; done. }
  destruct (Hfold []) as (H1 & H2 & H3). split; [|split; [by apply H2|]].
  - intros x. rewrite H1, Hl. cbn. rewrite elem_of_nil. tauto.
  - intros Hin. specialize (Hz Hin). change (zlen []) with 0 in H3. lia.
Qed.

Section start.
Context (crc32c : list byte -> Z) {S : Type} `{!ReplicaStorage S} `{!ReplicaStorageOK crc32c S}.

(** A leader and followers that have just loaded their storages. *)
Definition cluster_init (leader_id : Z) (replicas : list Z) (storage : S) (storages : gmap Z S) : Cluster S :=
  MkCluster S (leader_new leader_id replicas (sharable_create storage)) (sharable_create <$> storages) [] [] [].

(** The storages a cluster may start with: those of the followers hold a part
    of what the leader's holds. *)
Record startable (limit leader_id : Z) (replicas : list Z) (storage : S) (storages : gmap Z S)
    (L : list RawBatch) : Prop := {
  start_leader : leader_id ∈ replicas;
  start_replicas : zlen replicas < 2 ^ 16;
  start_stores : stores storage 0 L;
  start_limit : st_limit storage = limit;
  start_sendable : Forall (sendable limit) L;
  start_hw : st_hw storage <= st_leo storage;
  start_known : forall id, id ∈ replicas -> id <> leader_id -> is_Some (storages !! id);
  start_followers : forall id s, storages !! id = Some s ->
    exists F, stores s 0 F /\ st_limit s = limit /\ is_prefix crc32c F L /\ st_hw s <= st_hw storage;
}.

Lemma startable_inv limit leader_id replicas storage storages L :
  startable limit leader_id replicas storage storages L ->
  cluster_inv crc32c limit (st_hw storage) (zlen replicas) (map fst (ids_to_map leader_id replicas))
    (cluster_init leader_id replicas storage storages) L.
Proof.
  intros [H1 H2 H3 H4 H5 H6 H7 H8]. destruct (ids_to_map_spec leader_id replicas) as (Hk & Hd & _).
  split; cbn; [by split_and!| | |done| |done|done|by left].
  - intros id s Hs. rewrite lookup_fmap, fmap_Some in Hs. destruct Hs as (i & Hi & ->).
    destruct (H8 id i Hi) as (F & HF & Hlim & Hp & Hhw). exists F. by split_and!.
  - apply Forall_forall. intros [id info] Hin. apply (proj1 (Forall_forall _ _) Hd) in Hin as Einfo.
    assert (id ∈ map fst (ids_to_map leader_id replicas)) as Hid by (apply list_elem_of_fmap; by exists (id, info)).
    apply Hk in Hid as [Hid Hne]. destruct (H7 id Hid Hne) as [i Hi]. destruct (H8 id i Hi) as (F & HF & _).
    destruct (stores_log _ _ _ HF) as (_ & Hl & He & _). pose proof (end_from_ge codec_raw _ _ Hl).
    pose proof (zlen_nonneg F). subst info. split; [done|]. exists (sharable_create i).
    rewrite lookup_fmap, Hi. split; [done|]. cbn. lia.
  - apply wrap_u_id. pose proof (zlen_nonneg replicas). unfold in_u. lia.
Qed.
End start.

(** ** Batches that do not fit into a message *)

Section cut.
Context (crc32c : list byte -> Z) (crc32c_u32 : forall bs, in_u 32 (crc32c bs)).
Context {S : Type} `{!ReplicaStorage S} `{!ReplicaStorageOK crc32c S}.
Implicit Types (s : SharableReplicaStorage S) (l : LeaderReplicaState S) (b : RawBatch).
Notation seal := (sealed crc32c codec_raw).

(** The batch a follower makes of the first [n] bytes of [b]. *)
Definition cut_batch (n : Z) b : RawBatch := set_records (ztake (n - BATCH_FILE_HEADER_SIZE) (records b)) (seal b).

Lemma decode_cut_batch v n b :
  valid_batch codec_raw b -> has_schema (header b) = false ->
  BATCH_FILE_HEADER_SIZE <= n < zlen (wire_batch crc32c codec_raw b) -> n < 2 ^ 31 ->
  let t := ztake n (wire_batch crc32c codec_raw b) in
  zlen t = n /\
  decode_from (codec_record_set crc32c codec_raw) v (be_split 4 n ++ t) = (Ok (MkRecordSet [cut_batch n b]), []).
Proof.
  intros Hv Hs Hn Hn2 t. pose proof (zlen_wire_preamble crc32c codec_raw b) as HP.
  assert (0 < BATCH_FILE_HEADER_SIZE) by done.
  assert (zlen t = n) as Ez by (unfold t; rewrite zlen_ztake by lia; lia).
  assert (t = wire_preamble crc32c codec_raw b ++ wire_schema b ++ ztake (n - BATCH_FILE_HEADER_SIZE) (records b)) as Et.
  { unfold t. rewrite wire_batch_split. unfold wire_schema. rewrite Hs. cbn [app rwire codec_raw codec_raw_ok].
    replace n with (BATCH_FILE_HEADER_SIZE + (n - BATCH_FILE_HEADER_SIZE)) at 1 by lia.
    rewrite ztake_plus by lia. by rewrite ztake_app_exact, zdrop_app_exact by done. }
  split; [done|].
  assert (zlen (ztake (n - BATCH_FILE_HEADER_SIZE) (records b)) < zlen (records b)) as Hu.
  { apply (f_equal zlen) in Et. unfold wire_schema in Et. rewrite Hs in Et. cbn [app] in Et. rewrite zlen_app in Et.
    rewrite wire_batch_split in Hn. unfold wire_schema in Hn. rewrite Hs in Hn. cbn [app] in Hn. rewrite zlen_app in Hn.
    cbn in Hn. lia. }
  unfold decode_from. cbn [Wire.decode codec_record_set dflt]. rewrite <-(app_nil_r t).
  replace (be_split 4 n) with (be_split 4 (zlen t)) by (by rewrite Ez).
  rewrite (decode_record_set_payload crc32c codec_raw v t [] [cut_batch n b] []); [done|lia| |].
  - rewrite app_nil_r. unfold isize_max. lia.
  - apply (decode_batches_prefix crc32c crc32c_u32 codec_raw v [] t _ 2); [done| | |].
    + cbn. unfold isize_max. lia.
    + unfold zlen in Ez. lia.
    + rewrite loop_n_S. unfold decode_batches_step at 1. case_ltb; [|lia].
      rewrite Et, decode_batch_short_records by done. by rewrite loop_n_S.
Qed.

Lemma log_split_unique o (L1 L2 pre post : list RawBatch) b b' :
  log_from codec_raw o (L1 ++ b :: L2) -> L1 ++ b :: L2 = pre ++ b' :: post ->
  base_offset b' <= base_offset b <= base_offset b' + last_offset_delta (header b') ->
  L1 = pre /\ b = b' /\ L2 = post.
Proof.
  intros Hl E Ho.
  assert ((L1 ++ b :: L2) !! length L1 = Some b) as Hb by (by apply list_lookup_middle).
  assert ((L1 ++ b :: L2) !! length pre = Some b') as Hb' by (rewrite E; by apply list_lookup_middle).
  destruct (log_from_lookup codec_raw _ _ _ _ Hl Hb) as (Eb & _).
  destruct (log_from_lookup codec_raw _ _ _ _ Hl Hb') as (Eb' & _).
  pose proof (offset_at_S o _ _ _ Hb') as ES.
  pose proof (lookup_lt_Some _ _ _ Hb). pose proof (lookup_lt_Some _ _ _ Hb').
  destruct (Nat.lt_trichotomy (length L1) (length pre)) as [Hlt|[Elen|Hgt]].
  - pose proof (offset_at_mono codec_raw o (L1 ++ b :: L2) (length L1) (length pre) Hl ltac:(lia)). lia.
  - apply app_inj_1 in E as [-> E]; [|done]. by injection E as -> ->.
  - destruct (decide (length L1 = Datatypes.S (length pre))) as [E1|Hne]; [rewrite E1 in Eb; lia|].
    pose proof (offset_at_mono codec_raw o (L1 ++ b :: L2) (Datatypes.S (length pre)) (length L1) Hl ltac:(lia)). lia.
Qed.

(** What a follower that has everything before [b] is sent: the beginning of
    the rest of the log. *)
Lemma follower_updates_reads l limit id max_bytes L1 b L2 info :
  leader_ok crc32c l limit (L1 ++ b :: L2) -> btree_get id (followers l) = Some info ->
  offset_info_is_valid info = true -> info_leo info = base_offset b ->
  exists response n, follower_updates id max_bytes l = Ok (Some response) /\
    resp_error response = None /\ resp_hw response = pub_hw (leader_storage l) /\
    resp_records response = ztake max_bytes (wire_batches crc32c codec_raw (take (Datatypes.S n) (b :: L2))).
Proof.
  intros (Hok & _) Hg Hv Eo. destruct (sh_ok_log _ _ _ _ Hok) as (Hl & El & Hb).
  assert ((L1 ++ b :: L2) !! length L1 = Some b) as Hlook by (by apply list_lookup_middle).
  destruct (log_from_lookup codec_raw _ _ _ _ Hl Hlook) as (Eb & _).
  pose proof (lookup_lt_Some _ _ _ Hlook) as Hlen.
  pose proof (offset_at_mono codec_raw 0 _ (length L1) (length (L1 ++ b :: L2)) Hl ltac:(lia)) as Hm.
  rewrite offset_at_all in Hm. pose proof (offset_at_bounds codec_raw 0 _ (length L1) Hl ltac:(lia)) as Hb0.
  destruct Hok as (Hst & Ele & _).
  destruct (stores_read crc32c _ _ _ (info_leo info) max_bytes Hst) as (sl & data & Er & Ed & Hr); [lia|].
  destruct Hr as (pre & b' & post & k & E & Ho & Edata & _ & Hk).
  destruct (log_split_unique 0 L1 L2 pre post b b' Hl E) as (<- & <- & <-); [lia|].
  destruct k as [|k]; [exfalso; by specialize (Hk ltac:(done)); lia|].
  unfold follower_updates. rewrite Hg, Hv. cbv zeta.
  assert (offset_info_is_same (as_offset (leader_storage l)) info = false) as ->.
  { unfold offset_info_is_same. cbn. apply andb_false_iff. right. apply Z.eqb_neq. lia. }
  cbn [andb negb as_offset info_leo hw].
  destruct (Z.ltb_spec (info_leo info) (pub_leo (leader_storage l))); [|lia].
  unfold sh_read_records. rewrite Er. eexists _, k. split; [reflexivity|]. cbn.
  split; [done|]. split; [done|]. rewrite Ed, Edata. done.
Qed.

Lemma cut_batch_sendable limit n b :
  sendable limit b -> BATCH_FILE_HEADER_SIZE <= n < write_size_batch codec_raw 0 b ->
  last_offset_delta (header b) < n -> sendable limit (cut_batch n b).
Proof.
  intros [(Hv & Hs & Hd & Hsz) Hlim] Hn Hdn.
  assert (write_size_batch codec_raw 0 b = BATCH_FILE_HEADER_SIZE + zlen (records b)) as Esz by done.
  assert (zlen (ztake (n - BATCH_FILE_HEADER_SIZE) (records b)) = n - BATCH_FILE_HEADER_SIZE) as Ez
    by (rewrite zlen_ztake by lia; lia).
  assert (write_size_batch codec_raw 0 (cut_batch n b) = n) as Ec
    by (unfold write_size_batch, cut_batch; cbn [write_size codec_raw records set_records]; lia).
  split; [|lia]. split; [|split; [done|split; [done|rewrite Ec; cbn; lia]]].
  destruct Hv as (Hv1 & Hv2 & Hv3 & Hv4 & Hv5 & Hv6). split_and!; try done. cbn in *. lia.
Qed.

(** A follower that gets the beginning of a batch. *)
Lemma sync_cut s limit F b n response :
  sh_ok crc32c s limit F -> sendable limit b -> valid_batch codec_raw b -> base_offset b = pub_leo s ->
  BATCH_FILE_HEADER_SIZE <= n < write_size_batch codec_raw 0 b -> n < 2 ^ 31 ->
  last_offset_delta (header b) < n -> pub_leo s + last_offset_delta (header b) + 1 < 2 ^ 63 ->
  resp_records response = ztake n (wire_batch crc32c codec_raw b) ->
  exists s', sync_from_leader crc32c response s = (Ok (Some (as_offset s')), s') /\
    sh_ok crc32c s' limit (F ++ [cut_batch n b]) /\
    pub_leo s' = pub_leo s + last_offset_delta (header b) + 1.
Proof.
  intros Hok Hb Hv Eb Hn Hn2 Hdn Hend Er. pose proof Hb as [(_ & Hsch & Hd & _) _].
  destruct (sh_ok_log _ _ _ _ Hok) as (_ & _ & Hbound).
  destruct (decode_cut_batch 7 n b Hv Hsch) as [Ez Edec]; [|done|].
  { pose proof (storable_size crc32c codec_raw b (base_offset b) (proj1 Hb) (proj1 Hv)) as E.
    replace (set_base_offset (base_offset b) b) with b in E by (by destruct b). lia. }
  unfold sync_from_leader. rewrite Er, Ez, Edec.
  destruct (sh_write_spec crc32c s limit F [cut_batch n b] false Hok) as (offsets & s1 & Ew & Hok1 & El & Eh).
  { constructor; [by apply cut_batch_sendable|done]. }
  { done. }
  assert (number_batches (pub_leo s) [cut_batch n b] = [cut_batch n b]) as Enum by (cbn; by rewrite <-Eb).
  rewrite Enum in Ew, Hok1. cbn in El.
  assert (total_records (MkRecordSet [cut_batch n b]) = last_offset_delta (header b) + 1) as Etot.
  { unfold total_records, records_len. cbn. case_ltb; [lia|]. apply wrap_u_id. unfold in_u. lia. }
  unfold update_from_leader. erewrite bind_ok by done. cbv beta iota. rewrite Etot.
  destruct (Z.ltb_spec 0 (last_offset_delta (header b) + 1)); [|lia].
  erewrite bind_ok; [|erewrite bind_ok; [reflexivity|]; unfold write_recordsets; erewrite bind_ok by done; cbv beta iota;
    cbn [record_set_base_offset batches base_offset cut_batch set_records];
    change (base_offset (seal b)) with (base_offset b); rewrite Eb, Z.eqb_refl; cbn [negb]; by erewrite bind_ok by exact Ew].
  erewrite bind_ok by done. cbv beta iota zeta. cbn [as_offset hw info_leo].
  destruct (Z.eqb_spec (pub_hw s1) (resp_hw response)); [by exists s1|].
  destruct (Z.ltb_spec (resp_hw response) (pub_hw s1)); [by exists s1|].
  destruct (Z.ltb_spec (pub_leo s1) (resp_hw response)); [by exists s1|].
  destruct (sh_update_hw_spec crc32c s1 limit _ (resp_hw response) Hok1) as (u & s2 & E2 & Hok2 & Eh2 & El2).
  erewrite bind_ok by (unfold zoom; cbn [fst]; rewrite E2; reflexivity).
  exists s2. split; [reflexivity|]. split; [done|lia].
Qed.

(** Where the log of a follower ends in that of the leader. *)
Lemma is_prefix_next (F L : list RawBatch) o :
  log_from codec_raw o L -> is_prefix crc32c F L -> end_from o F < end_from o L ->
  exists k b, (k < length L)%nat /\ L = take k L ++ drop k L /\ drop k L = b :: drop (Datatypes.S k) L /\
    base_offset b = end_from o F /\ end_from o F = offset_at o L k.
Proof.
  intros Hl (k & Hk & E) Hlt.
  assert (end_from o F = offset_at o L k) as Ek by (by rewrite <-(end_from_sealed crc32c o F), E, end_from_sealed).
  destruct (decide (k = length L)) as [->|Hne]; [rewrite offset_at_all in Ek; lia|].
  destruct (lookup_lt_is_Some_2 L k ltac:(lia)) as [b Hb]. exists k, b. split; [lia|].
  split; [by rewrite take_drop|]. split; [by apply drop_S|]. split; [|done]. rewrite Ek. by apply (log_from_lookup codec_raw o L k b Hl Hb).
Qed.
End cut.

(** ** Claims *)

(** C36: the high watermark that a leader computes from its followers is above
    the present one, enough followers have everything below it, and no larger
    offset would do; if there is none, no offset above the present high
    watermark is reached by enough followers. *)
Theorem compute_hw_correct (leader : OffsetInfo) (min_replica : Z) (followers : list (Z * OffsetInfo)) :
  match compute_hw leader min_replica followers with
  | Some h =>
      hw leader < h /\
      required_followers min_replica followers <= count_ge h (follower_leos followers) /\
      count_gt h (follower_leos followers) < required_followers min_replica followers
  | None => count_gt (hw leader) (follower_leos followers) < required_followers min_replica followers
  end.
Proof.
  pose proof (compute_hw_spec leader min_replica followers) as Hspec.
  destruct (compute_hw leader min_replica followers); [|done]. by destruct Hspec as (? & _ & ?).
Qed.

(** C2: replication is safe, whatever messages are lost, repeated or overtaken,
    as long as each fits into [max_bytes]: in every reachable state of a
    replica's leader and followers, the log of the leader extends the one it
    started with, the log of every follower is a prefix of it, no high watermark
    is above that of the leader, and once the leader's high watermark has moved
    every follower has everything below it. *)
Theorem replication_safe (crc32c : list byte -> Z) {S : Type} `{!ReplicaStorage S} `{!ReplicaStorageOK crc32c S}
    (max_bytes limit leader_id : Z) (replicas : list Z) (storage : S) (storages : gmap Z S)
    (L : list RawBatch) (cl : Cluster S) :
  (forall x, in_u 32 (crc32c x)) -> max_bytes <= 2 ^ 31 ->
  startable crc32c limit leader_id replicas storage storages L ->
  cluster_reach crc32c S max_bytes limit (cluster_init leader_id replicas storage storages) cl ->
  let leader_hw := pub_hw (leader_storage (leader S cl)) in
  exists new,
    sh_ok crc32c (leader_storage (leader S cl)) limit (L ++ new) /\
    leader_hw <= pub_leo (leader_storage (leader S cl)) /\
    (forall id s, members S cl !! id = Some s ->
       exists F, sh_ok crc32c s limit F /\ is_prefix crc32c F (L ++ new) /\ pub_hw s <= leader_hw) /\
    (leader_hw = st_hw storage \/
     forall id, id ∈ replicas -> id <> leader_id ->
       exists s, members S cl !! id = Some s /\ leader_hw <= pub_leo s).
Proof.
  intros Hc Hm Hs Hr leader_hw. pose proof (startable_inv crc32c _ _ _ _ _ _ Hs) as Hinv.
  destruct (inv_reach crc32c Hc _ _ _ _ _ Hm _ _ _ Hinv Hr) as (new & Hi). exists new.
  destruct (ids_to_map_spec leader_id replicas) as (Hk & _ & Hlen). specialize (Hlen (start_leader _ _ _ _ _ _ _ Hs)).
  pose proof (start_replicas _ _ _ _ _ _ _ Hs) as Hn.
  pose proof (inv_leader _ _ _ _ _ _ _ Hi) as (Hl & _ & Hle). split; [done|]. split; [done|].
  split; [intros id s; apply (inv_members _ _ _ _ _ _ _ Hi)|].
  destruct (inv_all_hold crc32c _ _ _ _ cl _ Hi) as [?|Hall]; [| |by left|].
  - intros E1. rewrite E1 in Hlen. pose proof (zlen_nonneg (ids_to_map leader_id replicas)).
    by rewrite (zlen_zero (ids_to_map leader_id replicas)) by lia.
  - unfold zlen at 1. rewrite length_map. fold (zlen (ids_to_map leader_id replicas)).
    pose proof (zlen_nonneg (ids_to_map leader_id replicas)). rewrite wrap_u_id by (unfold in_u; lia). lia.
  - right. intros id Hid Hne. apply Hall, Hk. done.
Qed.

(** The examples: file replicas of a leader [1] and a follower [2]. *)
#[local] Instance example_storage : ReplicaStorage FileReplica := FileReplica_Storage 0 sum32.
#[local] Instance example_storage_ok : ReplicaStorageOK sum32 FileReplica := FileReplica_OK 0 sum32 sum32_u32.

Lemma example_fresh :
  exists r, create_or_load_inner 0 dense_config [] None = Ok r /\ get_hw r = 0 /\ get_leo r = 0 /\ stores r 0 [] /\
    Forall (sendable (st_limit r)) (batches three_batches).
Proof.
  destruct example_replica as (r & E & Hok & El & Eh & _ & _ & Hsz). exists r.
  split; [done|]. split; [done|]. split; [done|]. split; [exists [], []; done|].
  apply Forall_forall. intros b Hb. split; [by apply (proj1 (Forall_forall _ _) three_storable)|].
  apply (proj1 (Forall_forall _ _) Hsz) in Hb. cbn. lia.
Qed.

Lemma replication_safe_witness :
  exists r cl F,
    create_or_load_inner 0 dense_config [] None = Ok r /\
    cluster_reach sum32 FileReplica 1000 (st_limit r) (cluster_init 1 [1; 2] r {[2 := r]}) cl /\
    pub_leo (leader_storage (leader _ cl)) = 3 /\
    sh_ok sum32 (leader_storage (leader _ cl)) (st_limit r) F /\
    pub_hw (leader_storage (leader _ cl)) <= 3.
Proof.
  destruct example_fresh as (r & E & Eh & El & Hst & Hb).
  assert (startable sum32 (st_limit r) 1 [1; 2] r {[2 := r]} []) as Hstart.
  { split; [by left|done|done|done|done|cbn; lia| |].
    - intros id Hid Hne. destruct (decide (id = 2)) as [->|]; [by rewrite lookup_singleton_eq|].
      exfalso. apply elem_of_cons in Hid as [?|Hid%list_elem_of_singleton]; done.
    - intros id s Hs. apply lookup_singleton_Some in Hs as [<- <-]. exists [].
      split; [done|]. split; [done|]. split; [apply is_prefix_nil|lia]. }
  pose proof (startable_inv sum32 _ _ _ _ _ _ Hstart) as Hinv.
  destruct (leader_write_succeeds sum32 _ _ _ three_batches (inv_leader _ _ _ _ _ _ _ Hinv) Hb)
    as (offsets & notified & l' & recs' & Ew & Ele); [cbn; rewrite El; reflexivity|done|].
  exists r. eexists.
  assert (cluster_reach sum32 FileReplica 1000 (st_limit r) (cluster_init 1 [1; 2] r {[2 := r]})
    (MkCluster FileReplica l' (sharable_create <$> {[2 := r]}) (notified ++ []) [] [])) as Hreach.
  { eapply cluster_more; [apply cluster_start|]. eapply step_produce; [exact Hb| |exact Ew]. cbn. rewrite El. reflexivity. }
  destruct (replication_safe sum32 1000 (st_limit r) 1 [1; 2] r {[2 := r]} [] _ sum32_u32 ltac:(done) Hstart Hreach)
    as (new & Hl & Hle & _).
  assert (pub_leo (leader_storage l') = 3) as E3 by (rewrite Ele; cbn; by rewrite El).
  exists new. split; [done|]. split; [exact Hreach|]. split; [exact E3|]. split; [exact Hl|].
  cbn in Hle |- *. lia.
Defined.

(** A leader with three batches and a follower with none. *)
Lemma example_leader :
  exists r r' size,
    create_or_load_inner 0 dense_config [] None = Ok r /\
    write_recordset 0 sum32 codec_raw false (r, three_batches)
      = (Ok size, (r', MkRecordSet (number_batches 0 (batches three_batches)))) /\
    sh_ok sum32 (sharable_create r) (st_limit r) [] /\ as_offset (sharable_create r) = MkOffsetInfo 0 0 /\
    leader_ok sum32 (MkLeader 1 [1; 2] 2 (sharable_create r') [(2, as_offset (sharable_create r))]) (st_limit r)
      (number_batches 0 (batches three_batches)) /\
    pub_leo (sharable_create r') = 3.
Proof.
  destruct example_fresh as (r & E & Eh & El & Hst & Hb).
  destruct (stores_write r 0 [] (batches three_batches) false Hst) as (r' & size & Ew & Hst' & El' & Eh' & Elim).
  { eapply List.Forall_impl; [|exact Hb]. by intros b [? _]. }
  { eapply List.Forall_impl; [|exact Hb]. by intros b [_ ?]. }
  { cbn. rewrite El. reflexivity. }
  cbn in Ew, El', Eh'. rewrite El in Ew, El'.
  exists r, r', size. split; [done|]. split; [exact Ew|]. split; [by split_and!|].
  split; [unfold as_offset; cbn; by rewrite Eh, El|]. split; [|exact El'].
  split; [|split; [by apply number_batches_sendable|]].
  - split; [|by split_and!]. cbn [app] in Hst'. cbn [st_leo example_storage FileReplica_Storage] in Hst'. by rewrite El in Hst'.
  - cbn. rewrite Eh', Eh, El'. done.
Qed.

(** Replication makes progress: a follower that is behind, and whose
    offsets the leader knows, is sent records; if the message is not cut, the
    follower's log end offset grows when it receives it, its log is again a
    prefix of the leader's, and it reports the new offsets. *)
Theorem sync_progress (crc32c : list byte -> Z) {S : Type} `{!ReplicaStorage S} `{!ReplicaStorageOK crc32c S}
    (l : LeaderReplicaState S) (s : SharableReplicaStorage S) (limit id max_bytes : Z) (L F : list RawBatch) :
  (forall x, in_u 32 (crc32c x)) -> max_bytes <= 2 ^ 31 ->
  leader_ok crc32c l limit L -> sh_ok crc32c s limit F -> is_prefix crc32c F L ->
  btree_get id (followers l) = Some (as_offset s) -> offset_info_is_valid (as_offset s) = true ->
  pub_leo s < pub_leo (leader_storage l) ->
  exists response, follower_updates id max_bytes l = Ok (Some response) /\
    (zlen (resp_records response) < max_bytes ->
     exists s' F', sync_from_leader crc32c response s = (Ok (Some (as_offset s')), s') /\
       sh_ok crc32c s' limit F' /\ is_prefix crc32c F' L /\ pub_leo s < pub_leo s').
Proof.
  intros Hc Hmax Hlok Hok Hp Hg Hv Hlt. pose proof Hlok as (HL & Hsend & _).
  destruct (sh_ok_log _ _ _ _ HL) as (Hl & EL & HbL). destruct (sh_ok_log _ _ _ _ Hok) as (_ & EF & _).
  destruct (is_prefix_next crc32c F L 0 Hl Hp) as (k & b & Hk & Esplit & Edrop & Eb & Ek); [lia|].
  rewrite Esplit, Edrop in Hlok.
  destruct (follower_updates_reads crc32c l limit id max_bytes _ b _ (as_offset s) Hlok Hg Hv) as (response & n & Er & _ & _ & Ed);
    [cbn; congruence|].
  exists response. split; [done|]. intros Hz.
  set (m := Nat.min (Datatypes.S n) (length L - k)).
  assert (resp_records response = wire_batches crc32c codec_raw (take m (drop k L))) as Ed'.
  { rewrite Ed in Hz |- *. rewrite <-Edrop in Hz |- *.
    assert (take (Datatypes.S n) (drop k L) = take m (drop k L)) as Em.
    { unfold m. destruct (Nat.min_spec (Datatypes.S n) (length L - k)) as [[? ->]|[? ->]]; [done|].
      rewrite !firstn_all2; [done|rewrite length_drop; lia..]. }
    rewrite Em in Hz |- *. by apply ztake_whole. }
  destruct (sync_spec crc32c Hc s limit F L k m response Hok Hl ltac:(lia) Hsend Hp ltac:(lia) Ed' ltac:(lia))
    as (reply & s' & F' & E & Hok' & Hp' & _ & Hreply & _ & Hadv).
  specialize (Hadv ltac:(congruence)). pose proof (offset_at_mono codec_raw 0 L k (k + m) Hl ltac:(lia)) as Hm.
  exists s', F'. destruct Hreply as [[_ ?]| ->]; [lia|]. split_and!; [done..|lia].
Qed.

Lemma sync_progress_witness :
  exists r r' response, create_or_load_inner 0 dense_config [] None = Ok r /\
    follower_updates 2 1000 (MkLeader 1 [1; 2] 2 (sharable_create r') [(2, as_offset (sharable_create r))])
      = Ok (Some response) /\
    (zlen (resp_records response) < 1000 ->
     exists s', sync_from_leader sum32 response (sharable_create r) = (Ok (Some (as_offset s')), s') /\ 0 < pub_leo s').
Proof.
  destruct example_leader as (r & r' & size & E & _ & Hs & Eo & Hl & El).
  assert (pub_leo (sharable_create r) = 0) as E0 by (by injection Eo).
  destruct (sync_progress sum32 _ (sharable_create r) (st_limit r) 2 1000 _ []
    sum32_u32 ltac:(done) Hl Hs (is_prefix_nil _ _) eq_refl) as (response & Eu & Hprog).
  - by rewrite Eo.
  - rewrite E0. cbn in El |- *. rewrite El. done.
  - exists r, r', response. split; [done|]. split; [done|]. intros Hz.
    destruct (Hprog Hz) as (s' & F' & Esync & _ & _ & Hlt). exists s'. split; [done|lia].
Defined.

(** A batch that does not fit into a message is damaged: the leader sends
    its first [max_bytes] bytes, the follower takes them for a complete batch,
    stores it with fewer bytes of records, and reports the log end offset of
    the complete batch. *)
Theorem truncated_sync_corrupts (crc32c : list byte -> Z) {S : Type} `{!ReplicaStorage S}
    `{!ReplicaStorageOK crc32c S} (l : LeaderReplicaState S) (s : SharableReplicaStorage S)
    (limit id max_bytes : Z) (L1 L2 F : list RawBatch) (b : RawBatch) :
  (forall x, in_u 32 (crc32c x)) ->
  leader_ok crc32c l limit (L1 ++ b :: L2) -> sh_ok crc32c s limit F -> pub_leo s = base_offset b ->
  btree_get id (followers l) = Some (as_offset s) -> offset_info_is_valid (as_offset s) = true ->
  BATCH_FILE_HEADER_SIZE <= max_bytes < write_size_batch codec_raw 0 b -> max_bytes < 2 ^ 31 ->
  last_offset_delta (header b) < max_bytes ->
  exists response s',
    follower_updates id max_bytes l = Ok (Some response) /\
    sync_from_leader crc32c response s = (Ok (Some (as_offset s')), s') /\
    pub_leo s' = base_offset b + last_offset_delta (header b) + 1 /\
    sh_ok crc32c s' limit (F ++ [cut_batch crc32c max_bytes b]) /\
    zlen (records (cut_batch crc32c max_bytes b)) < zlen (records b).
Proof.
  intros Hc Hlok Hok Es Hg Hv Hn Hn2 Hd.
  destruct (follower_updates_reads crc32c l limit id max_bytes L1 b L2 (as_offset s) Hlok Hg Hv Es)
    as (response & n & Er & _ & _ & Ed).
  destruct Hlok as (HL & Hsend & _). destruct (sh_ok_log _ _ _ _ HL) as (Hl & EL & HbL).
  apply Forall_app in Hsend as [_ [Hb _]%Forall_cons].
  apply log_from_app in Hl as [_ (Eb & Hb0 & Hvb & Hl2)].
  pose proof (end_from_ge codec_raw _ _ Hl2) as He. rewrite end_from_app in EL. cbn in EL. pose proof (zlen_nonneg L2).
  destruct (sync_cut crc32c Hc s limit F b max_bytes response) as (s' & E & Hok' & El'); try done; [lia| |].
  { rewrite Ed. cbn [take wire_batches map concat]. apply ztake_app_le.
    pose proof (storable_size crc32c codec_raw b (base_offset b) (proj1 Hb) (proj1 Hvb)) as Ew.
    replace (set_base_offset (base_offset b) b) with b in Ew by (by destruct b). lia. }
  exists response, s'. split_and!; try done; [lia|].
  unfold write_size_batch in Hn. cbn in Hn |- *. rewrite zlen_ztake; lia.
Qed.

Lemma truncated_sync_corrupts_witness :
  exists r r' response s', create_or_load_inner 0 dense_config [] None = Ok r /\
    follower_updates 2 59 (MkLeader 1 [1; 2] 2 (sharable_create r') [(2, as_offset (sharable_create r))])
      = Ok (Some response) /\
    sync_from_leader sum32 response (sharable_create r) = (Ok (Some (as_offset s')), s') /\
    pub_leo s' = 1 /\
    sh_ok sum32 s' (st_limit r) [cut_batch sum32 59 (set_base_offset 0 (raw_batch "first"%string))] /\
    records (cut_batch sum32 59 (set_base_offset 0 (raw_batch "first"%string))) = bytes_of_string "fi"%string.
Proof.
  destruct example_leader as (r & r' & size & E & _ & Hs & Eo & Hl & El).
  assert (pub_leo (sharable_create r) = 0) as E0 by (by injection Eo).
  destruct (truncated_sync_corrupts sum32 _ (sharable_create r) (st_limit r) 2 59 [] _ []
    (set_base_offset 0 (raw_batch "first"%string)) sum32_u32 Hl Hs E0 eq_refl) as (response & s' & Eu & Esync & Els & Hok & _).
  - by rewrite Eo.
  - split; [vm_compute; congruence|reflexivity].
  - done.
  - reflexivity.
  - exists r, r', response, s'. split_and!; try done.
Defined.
