(* ===== verification/Names.v ===== *)
(** * Names

    Decimal numbers as [Display] and [FromStr] of the standard library write
    and read them, and the names built from them: the keys of replicas in
    [fluvio-protocol/src/record/replica.rs], the partition names of
    [fluvio-types/src/partition.rs] and the file names of
    [fluvio-storage/src/util.rs]. *)

From S2P Require Import Prelude.
From stdpp Require Import strings countable.
From Stdlib Require Import Ascii String.

#[local] Open Scope string_scope.
#[local] Open Scope Z_scope.

(** ** Decimal numbers *)

Definition digit_char (d : Z) : ascii := ascii_of_nat (Z.to_nat (48 + d)).
Definition char_digit (c : ascii) : option Z :=
  let n := Z.of_nat (nat_of_ascii c) in
  if (48 <=? n) && (n <=? 57) then Some (n - 48) else None.

(** The digits of a number in front of [acc]. *)
Fixpoint dec_loop (fuel : nat) (n : Z) (acc : string) : string :=
  match fuel with
  | O => acc
  | S fuel =>
      let acc := String (digit_char (n mod 10)) acc in
      if n <? 10 then acc else dec_loop fuel (n / 10) acc
  end.

(** [u64::to_string]: a 64-bit number has at most 20 digits. *)
Definition show_unsigned (n : Z) : string := dec_loop 20 n "".

Fixpoint zeros (n : nat) : string := match n with O => "" | S n => String "0" (zeros n) end.

(** [format!("{n:020}")] of an [i64]; the sign counts for the width. *)
Definition show_padded (n : Z) : string :=
  let sign := if n <? 0 then "-" else "" in
  let digits := show_unsigned (Z.abs n) in
  sign ++ zeros (20 - String.length sign - String.length digits) ++ digits.

(** The digits of [s] behind [acc]; [None] when one is not a digit or the
    number leaves [lo] to [hi]. *)
Fixpoint parse_digits (lo hi sgn : Z) (acc : Z) (s : string) : option Z :=
  match s with
  | "" => Some acc
  | String c s =>
      match char_digit c with
      | Some d =>
          let acc := acc * 10 + sgn * d in
          if (lo <=? acc) && (acc <=? hi) then parse_digits lo hi sgn acc s else None
      | None => None
      end
  end.

(** [str::parse] for an integer type from [lo] to [hi]. *)
Definition parse_int (lo hi : Z) (s : string) : option Z :=
  match s with
  | "" => None
  | String "+" "" | String "-" "" => None
  | String "+" s => parse_digits lo hi 1 0 s
  | String "-" s' => if lo <? 0 then parse_digits lo hi (-1) 0 s' else parse_digits lo hi 1 0 s
  | _ => parse_digits lo hi 1 0 s
  end.
Definition parse_u32 : string -> option Z := parse_int 0 (2 ^ 32 - 1).
Definition parse_i32 : string -> option Z := parse_int (- 2 ^ 31) (2 ^ 31 - 1).
Definition parse_i64 : string -> option Z := parse_int (- 2 ^ 63) (2 ^ 63 - 1).

(** ** Splitting at the last separator *)

(** [str::rfind] of a character, with the two parts around it. *)
Fixpoint rsplit (c : ascii) (s : string) : option (string * string) :=
  match s with
  | "" => None
  | String x s' =>
      match rsplit c s' with
      | Some (a, b) => Some (String x a, b)
      | None => if Ascii.eqb x c then Some ("", s') else None
      end
  end.

(** ** Replica keys *)

(* src/crates/fluvio-protocol/src/record/replica.rs:9-12 ReplicaKey *)
Record ReplicaKey := MkReplicaKey { topic : string; partition : Z }.
#[export] Instance ReplicaKey_eq_dec : EqDecision ReplicaKey.
Proof. solve_decision. Defined.
#[export] Instance ReplicaKey_countable : Countable ReplicaKey.
Proof. by apply (inj_countable' (fun k => (topic k, partition k)) (fun p => MkReplicaKey p.1 p.2)); intros []. Defined.

(* src/crates/fluvio-protocol/src/record/replica.rs:38-40 ReplicaKey::fmt *)
Definition replica_key_show (self : ReplicaKey) : string :=
  topic self ++ "-" ++ show_unsigned (partition self).

(** [None] is the syntax error. *)
(* src/crates/fluvio-protocol/src/record/replica.rs:92-115 decompose_partition_name *)
Definition decompose_partition_name (partition_name : string) : option (string * Z) :=
  match rsplit "-" partition_name with
  | None => None
  | Some (topic_name, idx_string) =>
      if String.eqb idx_string "" then None
      else
        match parse_u32 idx_string with
        | Some n => Some (topic_name, n)
        | None => None
        end
  end.
(* src/crates/fluvio-protocol/src/record/replica.rs:63-66 ReplicaKey::from_str *)
Definition replica_key_from_str (s : string) : option ReplicaKey :=
  '(topic, partition) ← decompose_partition_name s; Some (MkReplicaKey topic partition).

(** The other crate's version of the two functions: the index is an [i32]. *)
(* src/crates/fluvio-types/src/partition.rs:8-29 decompose_partition_name *)
Definition decompose_partition_name_i32 (partition_name : string) : option (string * Z) :=
  match rsplit "-" partition_name with
  | None => None
  | Some (topic_name, idx_string) =>
      if String.eqb idx_string "" then None
      else
        match parse_i32 idx_string with
        | Some n => Some (topic_name, n)
        | None => None
        end
  end.
Definition show_signed (n : Z) : string := (if n <? 0 then "-" else "") ++ show_unsigned (Z.abs n).

(** ** File names of segments *)

(** [Path::file_stem] and [PathBuf::set_extension] of a file name. *)
Definition file_stem (name : string) : string :=
  if String.eqb name ".." then name
  else match rsplit "." name with
       | None | Some ("", _) => name
       | Some (stem, _) => stem
       end.
Definition set_extension (name extension : string) : string :=
  if String.eqb extension "" then file_stem name else file_stem name ++ "." ++ extension.

(** The name without the directory. *)
(* src/crates/fluvio-storage/src/util.rs:8-15 generate_file_name *)
Definition generate_file_name (base_offset : Z) (extension : string) : string :=
  set_extension (show_padded base_offset) extension.

(* src/crates/fluvio-storage/src/util.rs:18-27 OffsetError *)
Inductive OffsetError := NotExistent | InvalidPath | InvalidLogFileName | OffsetParse.

(** [file_name] is the last component of the path, if it has one. *)
(* src/crates/fluvio-storage/src/util.rs:29-49 log_path_get_offset *)
Definition log_path_get_offset (file_name : option string) : outcome OffsetError Z :=
  match file_name with
  | None => Err InvalidPath
  | Some file_name =>
      let stem := file_stem file_name in
      if negb (String.length stem =? 20)%nat then Err InvalidLogFileName
      else match parse_i64 stem with
           | Some offset => Ok offset
           | None => Err OffsetParse
           end
  end.

(** ** Printing and parsing *)

Fixpoint all_digits (s : string) : bool :=
  match s with
  | "" => true
  | String c s => (if char_digit c then true else false) && all_digits s
  end.

Lemma char_digit_char d : 0 <= d < 10 -> char_digit (digit_char d) = Some d.
Proof.
  intros Hd. unfold digit_char, char_digit. rewrite nat_ascii_embedding by lia.
  rewrite Z2Nat.id by lia. rewrite !(proj2 (Z.leb_le _ _)) by lia. cbn. f_equal. lia.
Qed.

Lemma parse_dec_loop lo hi fuel n acc :
  lo <= 0 -> 0 <= n < 10 ^ Z.of_nat fuel -> n <= hi ->
  parse_digits lo hi 1 0 (dec_loop fuel n acc) = parse_digits lo hi 1 n acc.
Proof.
  intros Hlo. revert n acc. induction fuel as [|fuel IH]; intros n acc Hn Hhi.
  - cbn in Hn. replace n with 0 by lia. done.
  - pose proof (Z.mod_pos_bound n 10 ltac:(lia)) as Hm. pose proof (Z.div_mod n 10 ltac:(lia)) as Hdm.
    cbn [dec_loop]. destruct (Z.ltb_spec n 10).
    + cbn [parse_digits]. rewrite char_digit_char by lia.
      rewrite Z.mod_small, !(proj2 (Z.leb_le _ _)) by lia. cbn. f_equal. lia.
    + rewrite Nat2Z.inj_succ, Z.pow_succ_r in Hn by lia. rewrite IH by lia. cbn [parse_digits].
      rewrite char_digit_char by lia. replace (n / 10 * 10 + 1 * (n mod 10)) with n by lia.
      by rewrite !(proj2 (Z.leb_le _ _)) by lia.
Qed.

Lemma dec_loop_digits fuel n acc :
  0 <= n -> all_digits acc = true -> all_digits (dec_loop fuel n acc) = true.
Proof.
  revert n acc. induction fuel as [|fuel IH]; intros n acc Hn Ha; [done|]. cbn [dec_loop].
  assert (all_digits (String (digit_char (n mod 10)) acc) = true) as Hd.
  { cbn [all_digits]. by rewrite char_digit_char by (apply Z.mod_pos_bound; lia). }
  destruct (n <? 10); [done|]. apply IH; [|done]. apply Z.div_pos; lia.
Qed.

Lemma dec_loop_length fuel n acc :
  0 <= n < 10 ^ Z.of_nat fuel -> (String.length (dec_loop fuel n acc) <= fuel + String.length acc)%nat.
Proof.
  revert n acc. induction fuel as [|fuel IH]; intros n acc Hn; [done|]. cbn [dec_loop].
  destruct (Z.ltb_spec n 10); [cbn; lia|]. rewrite Nat2Z.inj_succ, Z.pow_succ_r in Hn by lia.
  etransitivity; [apply IH; split; [apply Z.div_pos|apply Z.div_lt_upper_bound]; lia|]. cbn. lia.
Qed.

Lemma dec_loop_nonempty fuel n acc : acc <> "" \/ (0 < fuel)%nat -> dec_loop fuel n acc <> "".
Proof.
  revert n acc. induction fuel as [|fuel IH]; intros n acc Ha; [by destruct Ha as [|?%Nat.lt_irrefl]|].
  cbn [dec_loop]. destruct (n <? 10); [done|]. apply IH. by left.
Qed.

Lemma parse_int_digits lo hi s :
  all_digits s = true -> s <> "" -> parse_int lo hi s = parse_digits lo hi 1 0 s.
Proof.
  destruct s as [|c s]; [done|]. cbn [all_digits]. intros [Hc _]%andb_prop _.
  destruct c as [[] [] [] [] [] [] [] []]; try done; by destruct s.
Qed.

(** ** Round trips *)

Lemma parse_show_unsigned lo hi n :
  lo <= 0 -> 0 <= n < 10 ^ 20 -> n <= hi -> parse_int lo hi (show_unsigned n) = Some n.
Proof.
  intros Hlo Hn Hhi. rewrite parse_int_digits.
  - apply (parse_dec_loop lo hi 20 n ""); done.
  - apply dec_loop_digits; [lia|done].
  - apply dec_loop_nonempty. lia.
Qed.

Lemma rsplit_none c s : char_digit c = None -> all_digits s = true -> rsplit c s = None.
Proof.
  intros Hc. induction s as [|y s IH]; [done|]. cbn. intros [Hy Hs]%andb_prop. rewrite (IH Hs).
  destruct (Ascii.eqb_spec y c) as [->|]; [|done]. by rewrite Hc in Hy.
Qed.

Lemma app_cons x a b : String x a ++ b = String x (a ++ b).
Proof. done. Qed.

Lemma rsplit_app c a b : rsplit c b = None -> rsplit c (a ++ String c b) = Some (a, b).
Proof.
  intros Hb. induction a as [|x a IH].
  - change (("" ++ String c b)%string) with (String c b). cbn [rsplit]. by rewrite Hb, Ascii.eqb_refl.
  - rewrite app_cons. cbn [rsplit]. by rewrite IH.
Qed.

Lemma all_digits_app a b : all_digits (a ++ b) = all_digits a && all_digits b.
Proof. induction a as [|c a IH]; [done|]. rewrite app_cons. cbn. by rewrite IH, andb_assoc. Qed.

Lemma zeros_digits n : all_digits (zeros n) = true.
Proof. by induction n. Qed.

Lemma length_app_string a b : String.length (a ++ b) = (String.length a + String.length b)%nat.
Proof. induction a as [|c a IH]; [done|]. rewrite app_cons. cbn. by rewrite IH. Qed.

Lemma length_zeros n : String.length (zeros n) = n.
Proof. induction n as [|n IH]; [done|]. cbn. by rewrite IH. Qed.

Lemma parse_digits_zeros lo hi n s :
  lo <= 0 <= hi -> parse_digits lo hi 1 0 (zeros n ++ s) = parse_digits lo hi 1 0 s.
Proof.
  intros H0. induction n as [|n IH]; [done|]. cbn [zeros]. rewrite app_cons. cbn [parse_digits]. change (char_digit "0") with (Some 0).
  cbv iota zeta. by rewrite !(proj2 (Z.leb_le _ _)) by lia.
Qed.

(** What [format!("{:020}")] gives for an offset. *)
Lemma show_padded_spec n :
  0 <= n < 10 ^ 20 ->
  String.length (show_padded n) = 20%nat /\ all_digits (show_padded n) = true /\
  forall lo hi, lo <= 0 -> n <= hi -> parse_int lo hi (show_padded n) = Some n.
Proof.
  intros Hn. unfold show_padded. rewrite (proj2 (Z.ltb_ge n 0)) by lia. rewrite Z.abs_eq by lia.
  change ("" ++ ?s) with s. change (String.length "") with 0%nat. rewrite Nat.sub_0_r.
  pose proof (dec_loop_length 20 n "" Hn) as Hl. change (dec_loop 20 n "") with (show_unsigned n) in Hl.
  assert (all_digits (zeros (20 - String.length (show_unsigned n)) ++ show_unsigned n) = true) as Hd.
  { rewrite all_digits_app, zeros_digits. apply dec_loop_digits; [lia|done]. }
  assert (String.length (zeros (20 - String.length (show_unsigned n)) ++ show_unsigned n) = 20%nat) as Hlen.
  { rewrite length_app_string, length_zeros. change (String.length "") with 0%nat in Hl. lia. }
  split; [done|]. split; [done|]. intros lo hi Hlo Hhi. rewrite parse_int_digits; [|done|].
  - rewrite parse_digits_zeros by lia. apply (parse_dec_loop lo hi 20 n ""); done.
  - intros E. by rewrite E in Hlen.
Qed.

Lemma replica_key_parses (key : ReplicaKey) :
  in_u 32 (partition key) -> replica_key_from_str (replica_key_show key) = Some key.
Proof.
  intros Hp. unfold in_u in Hp. unfold replica_key_from_str, decompose_partition_name, replica_key_show.
  change ("-" ++ ?s) with (String "-" s).
  rewrite rsplit_app by (apply rsplit_none; [done|apply dec_loop_digits; [lia|done]]).
  destruct (String.eqb_spec (show_unsigned (partition key)) "") as [E|_].
  - by apply dec_loop_nonempty in E; [|lia].
  - unfold parse_u32. rewrite parse_show_unsigned by lia. by destruct key.
Qed.

(** The name of a replica parses to the replica again, and so distinct
    replicas have distinct names, dashes in the topic included. *)
Theorem replica_key_roundtrip (key : ReplicaKey) :
  in_u 32 (partition key) -> replica_key_from_str (replica_key_show key) = Some key.
Proof. apply replica_key_parses. Qed.

Lemma replica_key_roundtrip_witness :
  replica_key_show (MkReplicaKey "my-topic" 30) = "my-topic-30" /\
  replica_key_from_str "my-topic-30" = Some (MkReplicaKey "my-topic" 30).
Proof.
  split; [reflexivity|]. apply (replica_key_roundtrip (MkReplicaKey "my-topic" 30)). split; [done|reflexivity].
Defined.

(** The file names of segments: the name of a base offset is 20 digits and
    the extension, and the offset is read back from it, whatever the extension. *)
Theorem log_file_name_roundtrip (base_offset : Z) (extension : string) :
  0 <= base_offset < 2 ^ 63 -> rsplit "." extension = None ->
  log_path_get_offset (Some (generate_file_name base_offset extension)) = Ok base_offset.
Proof.
  intros Ho He. unfold log_path_get_offset.
  destruct (show_padded_spec base_offset ltac:(lia)) as (Hl & Hd & Hp).
  assert (file_stem (show_padded base_offset) = show_padded base_offset) as Es.
  { unfold file_stem. rewrite rsplit_none by done. by destruct (String.eqb _ _). }
  assert (file_stem (generate_file_name base_offset extension) = show_padded base_offset) as ->.
  { unfold generate_file_name, set_extension. rewrite Es. destruct (String.eqb extension "") eqn:E; [done|].
    unfold file_stem. change ("." ++ extension) with (String "." extension).
    destruct (String.eqb_spec (show_padded base_offset ++ String "." extension) "..") as [E2|_].
    { apply (f_equal String.length) in E2. rewrite length_app_string, Hl in E2. done. }
    rewrite rsplit_app by done. by destruct (show_padded base_offset). }
  rewrite Hl. cbn [Nat.eqb negb]. unfold parse_i64. by rewrite Hp by lia.
Qed.

Lemma log_file_name_roundtrip_witness :
  generate_file_name 5 "log" = "00000000000000000005.log" /\
  log_path_get_offset (Some "00000000000000000005.log") = Ok 5.
Proof.
  split; [reflexivity|]. apply (log_file_name_roundtrip 5 "log"); [lia|reflexivity].
Defined.
