(* ===== verification/EpochMap.v ===== *)
(** * Maps that remember when their entries changed

    [fluvio-stream-model/src/epoch]: every change of a map is stamped with the
    map's epoch, so that the changes since an epoch can be listed.  A
    [HashMap] is a [gmap]; where the code iterates over it the order is
    unspecified, and that of [map_to_list] stands for it. *)

From S2P Require Import Prelude.
From stdpp Require Import gmap.

#[local] Open Scope Z_scope.

(** ** Counters *)

(* src/crates/fluvio-stream-model/src/epoch/epoch_map.rs:14-17 EpochCounter *)
Record EpochCounter (T : Type) := MkEpochCounter { counter_epoch : Z; counter_inner : T }.
Arguments MkEpochCounter {T}.
Arguments counter_epoch {T}.
Arguments counter_inner {T}.

(* src/crates/fluvio-stream-model/src/epoch/epoch_map.rs:97-99 EpochCounter::increment *)
Definition counter_increment {T} (self : EpochCounter T) : EpochCounter T :=
  MkEpochCounter (as_i64 (counter_epoch self + 1)) (counter_inner self).
(* src/crates/fluvio-stream-model/src/epoch/epoch_map.rs:101-103 EpochCounter::decrement *)
Definition counter_decrement {T} (self : EpochCounter T) : EpochCounter T :=
  MkEpochCounter (as_i64 (counter_epoch self - 1)) (counter_inner self).

(** ** Changes *)

(* src/crates/fluvio-stream-model/src/epoch/epoch_map.rs:325-328 EpochDeltaChanges *)
Inductive EpochDeltaChanges (V : Type) :=
| SyncAll (all : list V)
| Changes (updates deletes : list V).
Arguments SyncAll {V}.
Arguments Changes {V}.
(* src/crates/fluvio-stream-model/src/epoch/epoch_map.rs:331-333 EpochDeltaChanges::empty *)
Definition delta_empty {V} : EpochDeltaChanges V := Changes [] [].

(* src/crates/fluvio-stream-model/src/epoch/epoch_map.rs:275-279 EpochChanges *)
Record EpochChanges (V : Type) := MkEpochChanges { changes_epoch : Z; delta_changes : EpochDeltaChanges V }.
Arguments MkEpochChanges {V}.
Arguments changes_epoch {V}.
Arguments delta_changes {V}.

(* src/crates/fluvio-stream-model/src/epoch/epoch_map.rs:302-307 EpochChanges::parts *)
Definition changes_parts {V} (self : EpochChanges V) : list V * list V :=
  match delta_changes self with
  | SyncAll all => (all, [])
  | Changes updates deletes => (updates, deletes)
  end.
Definition is_nil {A} (l : list A) : bool := match l with [] => true | _ => false end.
(* src/crates/fluvio-stream-model/src/epoch/epoch_map.rs:309-314 EpochChanges::is_empty *)
Definition changes_is_empty {V} (self : EpochChanges V) : bool :=
  match delta_changes self with
  | SyncAll all => is_nil all
  | Changes updates deletes => is_nil updates && is_nil deletes
  end.
(* src/crates/fluvio-stream-model/src/epoch/epoch_map.rs:317-322 EpochChanges::is_sync_all *)
Definition is_sync_all {V} (self : EpochChanges V) : bool :=
  match delta_changes self with
  | SyncAll _ => true
  | Changes _ _ => false
  end.

(** ** Maps that track specs, statuses and metadata apart *)

(* src/crates/fluvio-stream-model/src/epoch/dual_epoch_map.rs:42-46 ChangeFlag *)
Record ChangeFlag := MkChangeFlag { flag_spec : bool; flag_status : bool; flag_meta : bool }.
(* src/crates/fluvio-stream-model/src/epoch/dual_epoch_map.rs:49-55 ChangeFlag::all *)
Definition flag_all : ChangeFlag := MkChangeFlag true true true.
(* src/crates/fluvio-stream-model/src/epoch/dual_epoch_map.rs:59-65 ChangeFlag::no_change *)
Definition no_change : ChangeFlag := MkChangeFlag false false false.
(* src/crates/fluvio-stream-model/src/epoch/dual_epoch_map.rs:74-76 ChangeFlag::has_no_changes *)
Definition has_no_changes (self : ChangeFlag) : bool :=
  negb (flag_spec self) && negb (flag_status self) && negb (flag_meta self).
(* src/crates/fluvio-stream-model/src/epoch/dual_epoch_map.rs:21-21 FULL_FILTER *)
Definition FULL_FILTER : ChangeFlag := flag_all.
(* src/crates/fluvio-stream-model/src/epoch/dual_epoch_map.rs:23-27 SPEC_FILTER *)
Definition SPEC_FILTER : ChangeFlag := MkChangeFlag true false false.
(* src/crates/fluvio-stream-model/src/epoch/dual_epoch_map.rs:29-33 STATUS_FILTER *)
Definition STATUS_FILTER : ChangeFlag := MkChangeFlag false true false.
(* src/crates/fluvio-stream-model/src/epoch/dual_epoch_map.rs:34-38 META_FILTER *)
Definition META_FILTER : ChangeFlag := MkChangeFlag false false true.

(* src/crates/fluvio-stream-model/src/epoch/dual_epoch_map.rs:16-19 DualDiff *)
Class DualDiff (V : Type) := diff : V -> V -> ChangeFlag.

(* src/crates/fluvio-stream-model/src/epoch/dual_epoch_map.rs:82-87 DualEpochCounter *)
Record DualEpochCounter (T : Type) := MkDualCounter {
  spec_epoch : Z;
  status_epoch : Z;
  meta_epoch : Z;
  dual_inner : T;
}.
Arguments MkDualCounter {T}.
Arguments spec_epoch {T}.
Arguments status_epoch {T}.
Arguments meta_epoch {T}.
Arguments dual_inner {T}.

(* src/crates/fluvio-stream-model/src/epoch/dual_epoch_map.rs:90-97 DualEpochCounter::new *)
Definition dual_counter_new {T} (inner : T) : DualEpochCounter T := MkDualCounter 0 0 0 inner.
(* src/crates/fluvio-stream-model/src/epoch/dual_epoch_map.rs:100-104 DualEpochCounter::set_epoch *)
Definition set_epoch {T} (epoch : Z) (self : DualEpochCounter T) : DualEpochCounter T :=
  MkDualCounter epoch epoch epoch (dual_inner self).
(* src/crates/fluvio-stream-model/src/epoch/dual_epoch_map.rs:107-111 DualEpochCounter::copy_epoch *)
Definition copy_epoch {T} (old self : DualEpochCounter T) : DualEpochCounter T :=
  MkDualCounter (spec_epoch old) (status_epoch old) (meta_epoch old) (dual_inner self).
Definition set_spec_epoch {T} epoch (self : DualEpochCounter T) :=
  MkDualCounter epoch (status_epoch self) (meta_epoch self) (dual_inner self).
Definition set_status_epoch {T} epoch (self : DualEpochCounter T) :=
  MkDualCounter (spec_epoch self) epoch (meta_epoch self) (dual_inner self).
Definition set_meta_epoch {T} epoch (self : DualEpochCounter T) :=
  MkDualCounter (spec_epoch self) (status_epoch self) epoch (dual_inner self).

(** The condition both filters of [changes_since_with_filter] have. *)
Definition changed_since {T} (filter : ChangeFlag) (epoch : Z) (v : DualEpochCounter T) : bool :=
  (flag_spec filter && (epoch <? spec_epoch v))
  || (flag_status filter && (epoch <? status_epoch v))
  || (flag_meta filter && (epoch <? meta_epoch v)).

Section dual_epoch_map.
Context {K : Type} `{Countable K} {V : Type}.

(* src/crates/fluvio-stream-model/src/epoch/dual_epoch_map.rs:176-181 DualEpochMap *)
Record DualEpochMap := MkDualEpochMap {
  dm_epoch : EpochCounter unit;
  dm_fence : EpochCounter unit;
  values : gmap K (DualEpochCounter V);
  deleted : list (DualEpochCounter V);
}.
Definition set_values x (self : DualEpochMap) := MkDualEpochMap (dm_epoch self) (dm_fence self) x (deleted self).

(* src/crates/fluvio-stream-model/src/epoch/dual_epoch_map.rs:198-200 DualEpochMap::increment_epoch *)
Definition increment_epoch (self : DualEpochMap) : DualEpochMap :=
  MkDualEpochMap (counter_increment (dm_epoch self)) (dm_fence self) (values self) (deleted self).
(* src/crates/fluvio-stream-model/src/epoch/dual_epoch_map.rs:202-204 DualEpochMap::decrement_epoch *)
Definition decrement_epoch (self : DualEpochMap) : DualEpochMap :=
  MkDualEpochMap (counter_decrement (dm_epoch self)) (dm_fence self) (values self) (deleted self).
(* src/crates/fluvio-stream-model/src/epoch/dual_epoch_map.rs:206-208 DualEpochMap::epoch *)
Definition epoch (self : DualEpochMap) : Z := counter_epoch (dm_epoch self).
(* src/crates/fluvio-stream-model/src/epoch/dual_epoch_map.rs:220-227 DualEpochMap::new_with_map *)
Definition new_with_map (values : gmap K (DualEpochCounter V)) : DualEpochMap :=
  MkDualEpochMap (MkEpochCounter 0 tt) (MkEpochCounter 0 tt) values [].

(** The difference to the existing value, if there is one. *)
(* src/crates/fluvio-stream-model/src/epoch/dual_epoch_map.rs:232-267 DualEpochMap::update *)
Definition dm_update `{DualDiff V} (key : K) (new_value : V) (self : DualEpochMap)
    : option ChangeFlag * DualEpochMap :=
  let new_value := dual_counter_new new_value in
  let current_epoch := epoch self in
  match values self !! key with
  | Some existing_value =>
      let d := diff (dual_inner existing_value) (dual_inner new_value) in
      if has_no_changes d then (Some d, self)
      else
        let new_value := copy_epoch existing_value new_value in
        let new_value := if flag_spec d then set_spec_epoch current_epoch new_value else new_value in
        let new_value := if flag_status d then set_status_epoch current_epoch new_value else new_value in
        let new_value := if flag_meta d then set_meta_epoch current_epoch new_value else new_value in
        (Some d, set_values (<[key := new_value]> (values self)) self)
  | None =>
      let new_value := set_epoch current_epoch new_value in
      (None, set_values (<[key := new_value]> (values self)) self)
  end.
(* src/crates/fluvio-stream-model/src/epoch/dual_epoch_map.rs:271-284 DualEpochMap::remove *)
Definition dm_remove (k : K) (self : DualEpochMap) : option (DualEpochCounter V) * DualEpochMap :=
  match values self !! k with
  | Some old_value =>
      let old_value := set_epoch (epoch self) old_value in
      (Some old_value,
       MkDualEpochMap (dm_epoch self) (dm_fence self) (delete k (values self)) (deleted self ++ [old_value]))
  | None => (None, self)
  end.
(* src/crates/fluvio-stream-model/src/epoch/dual_epoch_map.rs:288-291 DualEpochMap::mark_fence *)
Definition mark_fence (self : DualEpochMap) : DualEpochMap :=
  MkDualEpochMap (dm_epoch self) (dm_epoch self) (values self) [].
(* src/crates/fluvio-stream-model/src/epoch/dual_epoch_map.rs:298-300 DualEpochMap::clone_keys *)
Definition clone_keys (self : DualEpochMap) : list K := map fst (map_to_list (values self)).
(* src/crates/fluvio-stream-model/src/epoch/dual_epoch_map.rs:308-310 DualEpochMap::clone_values *)
Definition clone_values (self : DualEpochMap) : list V :=
  map (fun kv => dual_inner (snd kv)) (map_to_list (values self)).
(* src/crates/fluvio-stream-model/src/epoch/dual_epoch_map.rs:352-397 DualEpochMap::changes_since_with_filter *)
Definition changes_since_with_filter (epoch_ : Z) (filter : ChangeFlag) (self : DualEpochMap) : EpochChanges V :=
  if epoch_ <? counter_epoch (dm_fence self) then
    MkEpochChanges (epoch self) (SyncAll (clone_values self))
  else if epoch_ =? epoch self then
    MkEpochChanges (epoch self) delta_empty
  else
    let updates := map dual_inner (List.filter (changed_since filter epoch_) (map snd (map_to_list (values self)))) in
    let deletes := map dual_inner (List.filter (changed_since filter epoch_) (deleted self)) in
    MkEpochChanges (epoch self) (Changes updates deletes).
(* src/crates/fluvio-stream-model/src/epoch/dual_epoch_map.rs:316-322 DualEpochMap::spec_changes_since *)
Definition spec_changes_since (epoch_ : Z) (self : DualEpochMap) : EpochChanges V :=
  changes_since_with_filter epoch_ SPEC_FILTER self.
(* src/crates/fluvio-stream-model/src/epoch/dual_epoch_map.rs:325-331 DualEpochMap::status_changes_since *)
Definition status_changes_since (epoch_ : Z) (self : DualEpochMap) : EpochChanges V :=
  changes_since_with_filter epoch_ STATUS_FILTER self.
(* src/crates/fluvio-stream-model/src/epoch/dual_epoch_map.rs:333-339 DualEpochMap::meta_changes_since *)
Definition meta_changes_since (epoch_ : Z) (self : DualEpochMap) : EpochChanges V :=
  changes_since_with_filter epoch_ META_FILTER self.
(* src/crates/fluvio-stream-model/src/epoch/dual_epoch_map.rs:342-349 DualEpochMap::changes_since *)
Definition changes_since (epoch_ : Z) (self : DualEpochMap) : EpochChanges V :=
  changes_since_with_filter epoch_ FULL_FILTER self.
End dual_epoch_map.
Arguments DualEpochMap K {_ _} V.

(** ** What a reader that keeps up with the changes has

    A reader has seen the map at an epoch and keeps, for each key, a projection
    of the value, such as its spec.  [tracks] relates what it has to the map of
    later epochs. *)

Section tracking.
Context {K : Type} `{Countable K} {V : Type} `{DualDiff V} (key_of : V -> K).
Context {P : Type} (proj : V -> P) (filter : ChangeFlag).
Implicit Types (m : DualEpochMap K V) (c d : DualEpochCounter V) (M : gmap K P).

(** The filter sees the changes of the projection. *)
Definition filter_hits (d : ChangeFlag) : bool :=
  (flag_spec filter && flag_spec d) || (flag_status filter && flag_status d) || (flag_meta filter && flag_meta d).
Context (filter_some : has_no_changes filter = false).
Context (proj_diff : forall old new, has_no_changes (diff old new) = false -> filter_hits (diff old new) = false ->
  proj new = proj old).

Definition stamped (e : Z) c : Prop := spec_epoch c <= e /\ status_epoch c <= e /\ meta_epoch c <= e.

Record dm_ok m : Prop := {
  ok_keyed : forall k c, values m !! k = Some c -> key_of (dual_inner c) = k;
  ok_stamped : forall k c, values m !! k = Some c -> stamped (epoch m) c;
  ok_deleted : Forall (stamped (epoch m)) (deleted m);
  ok_fence : counter_epoch (dm_fence m) <= epoch m;
  ok_epoch : 0 <= epoch m;
}.

(** The projection of the whole map. *)
Definition view m : gmap K P := (fun c => proj (dual_inner c)) <$> values m.

Definition gone m (e : Z) (k : K) : Prop :=
  exists d, d ∈ deleted m /\ changed_since filter e d = true /\ key_of (dual_inner d) = k.

Definition tracks m (e : Z) M : Prop :=
  e <= epoch m /\
  (counter_epoch (dm_fence m) <= e -> forall k,
     match values m !! k with
     | Some c => changed_since filter e c = false -> M !! k = Some (proj (dual_inner c))
     | None => is_Some (M !! k) -> gone m e k
     end).

Lemma changed_since_stamped e c : stamped e c -> changed_since filter e c = false.
Proof.
  intros (H1 & H2 & H3). unfold changed_since.
  rewrite !(proj2 (Z.ltb_ge _ _)) by done. by rewrite !andb_false_r.
Qed.

Lemma changed_since_set e e' c : e < e' -> changed_since filter e (set_epoch e' c) = true.
Proof.
  intros He. unfold changed_since. cbn. rewrite !(proj2 (Z.ltb_lt _ _)) by done. rewrite !andb_true_r.
  revert filter_some. unfold has_no_changes. destruct filter as [[] [] []]; done.
Qed.

Lemma tracks_view m : tracks m (epoch m) (view m).
Proof.
  split; [done|]. intros _ k. unfold view. rewrite lookup_fmap.
  destruct (values m !! k) as [c|]; cbn; [done|]. by intros [? ?].
Qed.

(** The counter an update leaves behind. *)
Definition updated (e : Z) (fl : ChangeFlag) (old new : DualEpochCounter V) : DualEpochCounter V :=
  MkDualCounter (if flag_spec fl then e else spec_epoch old) (if flag_status fl then e else status_epoch old)
    (if flag_meta fl then e else meta_epoch old) (dual_inner new).

Lemma update_eq k v m :
  dm_update k v m =
  match values m !! k with
  | Some old =>
      let fl := diff (dual_inner old) v in
      (Some fl, if has_no_changes fl then m
                else set_values (<[k := updated (epoch m) fl old (dual_counter_new v)]> (values m)) m)
  | None => (None, set_values (<[k := MkDualCounter (epoch m) (epoch m) (epoch m) v]> (values m)) m)
  end.
Proof.
  unfold dm_update. destruct (values m !! k) as [old|]; [|done]. cbn [dual_inner dual_counter_new].
  cbv zeta. destruct (has_no_changes (diff _ _)); [done|]. unfold updated.
  by destruct (diff (dual_inner old) v) as [[] [] []].
Qed.

Lemma tracks_update m e M k v : e < epoch m -> tracks m e M -> tracks (snd (dm_update k v m)) e M.
Proof.
  intros He [Hle Ht]. rewrite update_eq. destruct (values m !! k) as [old|] eqn:Ek; cbn [snd].
  - cbv zeta. destruct (has_no_changes (diff (dual_inner old) v)) eqn:Ed; [done|].
    split; [done|]. intros Hf k'. specialize (Ht Hf k'). cbn [values set_values].
    destruct (decide (k = k')) as [<-|Hne]; [|rewrite lookup_insert_ne by done; exact Ht].
    rewrite lookup_insert_eq. rewrite Ek in Ht. intros Hc. cbn [dual_inner updated dual_counter_new].
    assert (filter_hits (diff (dual_inner old) v) = false /\ changed_since filter e old = false) as [Hh Ho].
    { revert Hc. unfold changed_since, filter_hits, updated. cbn.
      destruct (diff (dual_inner old) v) as [[] [] []], filter as [[] [] []]; cbn;
        rewrite ?(proj2 (Z.ltb_lt e (epoch m)) He), ?orb_true_r; intros; done. }
    rewrite (proj_diff _ v Ed Hh). by apply Ht.
  - split; [done|]. intros Hf k'. specialize (Ht Hf k'). cbn [values set_values].
    destruct (decide (k = k')) as [<-|Hne]; [|rewrite lookup_insert_ne by done; exact Ht].
    rewrite lookup_insert_eq. intros Hc.
    assert (changed_since filter e (MkDualCounter (epoch m) (epoch m) (epoch m) v) = true) as Hc'
      by exact (changed_since_set e (epoch m) (dual_counter_new v) He). congruence.
Qed.

Lemma tracks_remove m e M k : dm_ok m -> e < epoch m -> tracks m e M -> tracks (snd (dm_remove k m)) e M.
Proof.
  intros Hok He [Hle Ht]. unfold dm_remove. destruct (values m !! k) as [old|] eqn:Ek; [|done]. cbn [snd].
  split; [done|]. intros Hf k'. specialize (Ht Hf k'). cbn [values].
  destruct (decide (k = k')) as [<-|Hne].
  - rewrite lookup_delete_eq. intros _. exists (set_epoch (epoch m) old). cbn [deleted].
    split; [apply elem_of_app; right; by apply list_elem_of_singleton|]. split; [by apply changed_since_set|].
    exact (ok_keyed _ Hok k old Ek).
  - rewrite lookup_delete_ne by done. destruct (values m !! k'); [exact Ht|]. intros Hs.
    destruct (Ht Hs) as (d & Hd & Hc & Hk). exists d. split; [|done]. cbn. apply elem_of_app. by left.
Qed.

Lemma tracks_increment m e M : epoch m < 2 ^ 63 - 1 -> dm_ok m -> tracks m e M -> tracks (increment_epoch m) e M.
Proof.
  intros Hm Hok [Hle Ht]. split; [|exact Ht]. unfold epoch, increment_epoch in *. cbn.
  pose proof (ok_epoch _ Hok). unfold epoch in *. rewrite wrap_i_id by (unfold in_i; lia). lia.
Qed.

Lemma tracks_fence m e M : e < epoch m -> tracks m e M -> tracks (mark_fence m) e M.
Proof. intros He [Hle _]. split; [done|]. cbn. unfold epoch in He. lia. Qed.

(** *** The invariant is kept *)

Lemma dm_ok_new : dm_ok (new_with_map ∅).
Proof. split; cbn; done. Qed.

Lemma dm_ok_increment m : epoch m < 2 ^ 63 - 1 -> dm_ok m -> dm_ok (increment_epoch m) /\ epoch (increment_epoch m) = epoch m + 1.
Proof.
  intros Hm [H1 H2 H3 H4 H5].
  assert (epoch (increment_epoch m) = epoch m + 1) as E.
  { unfold epoch, increment_epoch in *. cbn. apply wrap_i_id; unfold in_i; lia. }
  split; [|done]. split; rewrite ?E; cbn [values deleted increment_epoch dm_fence]; try lia; try done.
  - intros k c Hc. destruct (H2 k c Hc) as (?&?&?). split_and!; lia.
  - eapply Forall_impl; [exact H3|]. intros c (?&?&?). split_and!; lia.
Qed.

Lemma epoch_update k v m : epoch (snd (dm_update k v m)) = epoch m.
Proof. rewrite update_eq. destruct (values m !! k); [|done]. cbv zeta. by destruct (has_no_changes (diff _ _)). Qed.
Lemma fence_update k v m : dm_fence (snd (dm_update k v m)) = dm_fence m.
Proof. rewrite update_eq. destruct (values m !! k); [|done]. cbv zeta. by destruct (has_no_changes (diff _ _)). Qed.
Lemma deleted_update k v m : deleted (snd (dm_update k v m)) = deleted m.
Proof. rewrite update_eq. destruct (values m !! k); [|done]. cbv zeta. by destruct (has_no_changes (diff _ _)). Qed.
Lemma epoch_remove k m : epoch (snd (dm_remove k m)) = epoch m.
Proof. unfold dm_remove. by destruct (values m !! k). Qed.

Lemma dm_ok_update k v m : key_of v = k -> dm_ok m -> dm_ok (snd (dm_update k v m)).
Proof.
  intros Hk [H1 H2 H3 H4 H5]. split; rewrite ?epoch_update, ?fence_update, ?deleted_update; try done.
  all: rewrite update_eq; destruct (values m !! k) as [old|] eqn:Eo; cbn [snd]; cbv zeta;
    [destruct (has_no_changes (diff _ _)); [done|]|]; intros k' c; cbn [values set_values];
    (destruct (decide (k = k')) as [<-|Hne];
      [rewrite lookup_insert_eq; intros [= <-]; try done|rewrite lookup_insert_ne by done; by eauto]).
  destruct (H2 k old Eo) as (?&?&?). unfold updated, stamped. cbn.
  by repeat match goal with |- context [if ?b then _ else _] => destruct b end.
Qed.

Lemma dm_ok_remove k m : dm_ok m -> dm_ok (snd (dm_remove k m)).
Proof.
  intros [H1 H2 H3 H4 H5]. unfold dm_remove. destruct (values m !! k) as [old|] eqn:Eo; [|done].
  split; cbn [snd values deleted dm_fence]; try done.
  - intros k' c [_ Hc]%lookup_delete_Some. by eauto.
  - intros k' c [_ Hc]%lookup_delete_Some. by eapply H2.
  - apply Forall_app. split; [exact H3|]. constructor; [|constructor]. repeat split; cbn; done.
Qed.

Lemma dm_ok_fence m : dm_ok m -> dm_ok (mark_fence m).
Proof. intros [H1 H2 H3 H4 H5]. by split. Qed.

(** *** What the listed changes do *)

(** The updates, then the deletes. *)
Definition apply_parts (updates deletes : list V) M : gmap K P :=
  foldl (fun M v => delete (key_of v) M) (foldl (fun M v => <[key_of v := proj v]> M) M updates) deletes.

Lemma lookup_inserts vs M k :
  NoDup (map key_of vs) ->
  (forall v, v ∈ vs -> key_of v = k -> foldl (fun M v => <[key_of v := proj v]> M) M vs !! k = Some (proj v)) /\
  (k ∉ map key_of vs -> foldl (fun M v => <[key_of v := proj v]> M) M vs !! k = M !! k).
Proof.
  revert M. induction vs as [|v vs IH]; intros M Hn; [split; [|done]; by intros v ?%not_elem_of_nil|].
  apply NoDup_cons in Hn as [Hv Hn]. destruct (IH (<[key_of v := proj v]> M) Hn) as [IH1 IH2]. cbn [foldl map].
  split.
  - intros w [->|Hw]%elem_of_cons Hk; [|by apply IH1]. subst k. rewrite IH2 by done. by rewrite lookup_insert_eq.
  - intros [Hk1 Hk2]%not_elem_of_cons. rewrite IH2 by done. by rewrite lookup_insert_ne.
Qed.

Lemma lookup_deletes vs M k :
  foldl (fun M v => delete (key_of v) M) M vs !! k = if bool_decide (k ∈ map key_of vs) then None else M !! k.
Proof.
  revert M. induction vs as [|v vs IH]; intros M; [done|]. cbn [foldl map]. rewrite IH.
  destruct (decide (key_of v = k)) as [<-|Hne].
  - rewrite lookup_delete_eq. rewrite (bool_decide_eq_true_2 (key_of v ∈ key_of v :: _)) by (by left). by case_match.
  - rewrite lookup_delete_ne by done. erewrite bool_decide_ext; [done|]. rewrite elem_of_cons. split; [by right|]. by intros [->|?].
Qed.

Definition changed_values m (e : Z) : list V :=
  map dual_inner (List.filter (changed_since filter e) (map snd (map_to_list (values m)))).

Lemma changed_values_spec m e v :
  v ∈ changed_values m e <-> exists k c, values m !! k = Some c /\ changed_since filter e c = true /\ v = dual_inner c.
Proof.
  unfold changed_values. rewrite list_elem_of_fmap. split.
  - intros (c & -> & Hc). apply list_elem_of_In, List.filter_In in Hc as [Hc Hch].
    apply list_elem_of_In, list_elem_of_fmap in Hc as ([k c'] & -> & Hk). apply elem_of_map_to_list in Hk. by exists k, c'.
  - intros (k & c & Hk & Hc & ->). exists c. split; [done|]. apply list_elem_of_In, List.filter_In. split; [|done].
    apply list_elem_of_In, list_elem_of_fmap. exists (k, c). by rewrite elem_of_map_to_list.
Qed.

Lemma changed_values_nodup m e : dm_ok m -> NoDup (map key_of (changed_values m e)).
Proof.
  intros Hok. unfold changed_values. pose proof (NoDup_fst_map_to_list (values m)) as Hn.
  assert (forall kc, kc ∈ map_to_list (values m) -> key_of (dual_inner (snd kc)) = fst kc) as Hk.
  { intros [k c] Hin. apply elem_of_map_to_list in Hin. by apply (ok_keyed _ Hok). }
  induction (map_to_list (values m)) as [|[k c] l IH]; [constructor|]. cbn in Hn |- *.
  apply NoDup_cons in Hn as [Hkn Hn].
  assert (NoDup (map key_of (map dual_inner (List.filter (changed_since filter e) (map snd l))))) as IH'.
  { apply IH; [done|]. intros kc Hin. apply Hk. by right. }
  destruct (changed_since filter e c); [|done]. cbn. constructor; [|done].
  pose proof (Hk (k, c) ltac:(by left)) as Ek. cbn in Ek. rewrite Ek. intros Hin. apply Hkn.
  rewrite !map_map in Hin. apply list_elem_of_In, List.in_map_iff in Hin as (c' & <- & Hc').
  apply List.filter_In in Hc' as [Hc' _]. apply List.in_map_iff in Hc' as ([k' c''] & <- & Hc').
  apply list_elem_of_In in Hc'.
  pose proof (Hk (k', c'') ltac:(by right)) as Ek'. cbn in Ek', Ek |- *. rewrite Ek'. apply list_elem_of_fmap. by exists (k', c'').
Qed.

(** A reader that applies the changes since its epoch has the whole map, but
    for the keys that were deleted since. *)
Lemma changes_catch_up m e M k :
  dm_ok m -> tracks m e M -> counter_epoch (dm_fence m) <= e ->
  let deletes := map dual_inner (List.filter (changed_since filter e) (deleted m)) in
  apply_parts (changed_values m e) deletes M !! k =
  if bool_decide (k ∈ map key_of deletes) then None else view m !! k.
Proof.
  intros Hok [Hle Ht] Hf deletes. unfold apply_parts. rewrite lookup_deletes.
  destruct (bool_decide _) eqn:Ed; [done|]. specialize (Ht Hf k). apply bool_decide_eq_false in Ed.
  destruct (lookup_inserts (changed_values m e) M k (changed_values_nodup m e Hok)) as [Hin Hout].
  assert (k ∈ map key_of (changed_values m e) -> is_Some (values m !! k)) as Hlive.
  { intros (v & -> & Hv)%list_elem_of_fmap. apply changed_values_spec in Hv as (k' & c & Hk & _ & ->).
    rewrite (ok_keyed _ Hok _ _ Hk). by rewrite Hk. }
  unfold view. rewrite lookup_fmap. destruct (values m !! k) as [c|] eqn:Ek; cbn.
  - pose proof (ok_keyed _ Hok _ _ Ek) as Hkey. destruct (changed_since filter e c) eqn:Ec.
    + apply Hin; [|done]. apply changed_values_spec. by exists k, c.
    + rewrite Hout; [by apply Ht|]. intros (v & -> & Hv)%list_elem_of_fmap.
      apply changed_values_spec in Hv as (k' & c' & Hk' & Hc' & ->).
      rewrite (ok_keyed _ Hok _ _ Hk') in Ek. congruence.
  - rewrite Hout by (intros Hk; by destruct (Hlive Hk)).
    destruct (M !! k) as [x|] eqn:Em; [|done]. exfalso. apply Ed. destruct (Ht ltac:(done)) as (d & Hd & Hc & <-).
    apply list_elem_of_fmap. exists (dual_inner d). split; [done|]. apply list_elem_of_fmap. exists d. split; [done|].
    apply list_elem_of_In, List.filter_In. split; [by apply list_elem_of_In|done].
Qed.

(** Without changes there is nothing to catch up with. *)
Lemma tracks_current m M : dm_ok m -> tracks m (epoch m) M -> M = view m.
Proof.
  intros Hok [_ Ht]. apply map_eq. intros k. specialize (Ht (ok_fence _ Hok) k). unfold view. rewrite lookup_fmap.
  destruct (values m !! k) as [c|] eqn:Ek; cbn.
  - by apply Ht, changed_since_stamped, (ok_stamped _ Hok k).
  - destruct (M !! k) as [x|] eqn:Em; [|done]. destruct (Ht ltac:(done)) as (d & Hd & Hc & _).
    rewrite changed_since_stamped in Hc; [done|]. by apply (proj1 (Forall_forall _ _) (ok_deleted _ Hok)).
Qed.
End tracking.
