(* ===== verification/MetadataStore.v ===== *)
(** * Stores of metadata objects

    [fluvio-stream-model/src/store]: the objects of a kind with their specs and
    statuses, the local store that caches them, and the listeners that follow
    its changes; [core.rs]: the metadata of an object. *)

From S2P Require Import Prelude Names EpochMap.
From stdpp Require Import gmap strings.

#[local] Open Scope Z_scope.

(** ** Metadata of an object *)

(** [PartialEq] of an item may ignore fields, so it is a test of its own. *)
(* src/crates/fluvio-stream-model/src/core.rs:12-48 MetadataItem *)
Class MetadataItem (C : Type) := {
  UId : Type;
  uid_eqb : UId -> UId -> bool;
  item_default : C;
  item_eqb : C -> C -> bool;
  item_uid : C -> UId;
  item_is_newer : C -> C -> bool;
  item_is_being_deleted : C -> bool;
  item_owner : C -> option C;
  item_set_owner : C -> C -> C;
}.

(* src/crates/fluvio-stream-model/src/core.rs:80-82 MetadataContext *)
Record MetadataContext (C : Type) := MkContext { ctx_item : C }.
Arguments MkContext {C}.
Arguments ctx_item {C}.

(* src/crates/fluvio-stream-model/src/core.rs:120-124 MetadataContext::create_child *)
Definition create_child {C} `{MetadataItem C} (self : MetadataContext C) : MetadataContext C :=
  MkContext (item_set_owner item_default (ctx_item self)).

(** A revision number as metadata: the implementations for [u32] and [u64]. *)
(* src/crates/fluvio-stream-model/src/core.rs:56-66 u32 (impl MetadataItem) *)
Definition u32_item : MetadataItem Z := {|
  UId := Z;
  uid_eqb := Z.eqb;
  item_default := 0;
  item_eqb := Z.eqb;
  item_uid := id;
  item_is_newer self another := another <? self;
  item_is_being_deleted _ := false;
  item_owner _ := None;
  item_set_owner self _ := self;
|}.
(* src/crates/fluvio-stream-model/src/store/mod.rs:30-40 MemoryMeta (impl MetadataItem) *)
Definition memory_item : MetadataItem Z := {|
  UId := Z;
  uid_eqb := Z.eqb;
  item_default := 0;
  item_eqb := Z.eqb;
  item_uid := id;
  item_is_newer self another := another <=? self;
  item_is_being_deleted _ := false;
  item_owner _ := None;
  item_set_owner self _ := self;
|}.

(** ** Objects *)

Section store.
Context {K : Type} `{Countable K} {S St : Type} `{!EqDecision S} `{!EqDecision St}.
Context {C : Type} `{MetadataItem C}.

(* src/crates/fluvio-stream-model/src/store/metadata.rs:14-23 MetadataStoreObject *)
Record MetadataStoreObject := MkObject {
  obj_spec : S;
  obj_status : St;
  obj_key : K;
  obj_ctx : MetadataContext C;
}.

(* src/crates/fluvio-stream-model/src/store/metadata.rs:131-136 MetadataStoreObject::is_owned *)
Definition is_owned (uid : UId) (self : MetadataStoreObject) : bool :=
  match item_owner (ctx_item (obj_ctx self)) with
  | Some parent => uid_eqb (item_uid parent) uid
  | None => false
  end.
(* src/crates/fluvio-stream-model/src/store/metadata.rs:153-155 MetadataStoreObject::is_newer *)
Definition is_newer (another self : MetadataStoreObject) : bool :=
  item_is_newer (ctx_item (obj_ctx self)) (ctx_item (obj_ctx another)).

(* src/crates/fluvio-stream-model/src/store/metadata.rs:164-175 MetadataStoreObject::diff *)
Definition object_diff (self new_value : MetadataStoreObject) : ChangeFlag :=
  if is_newer new_value self then no_change
  else MkChangeFlag (negb (bool_decide (obj_spec self = obj_spec new_value)))
         (negb (bool_decide (obj_status self = obj_status new_value)))
         (negb (item_eqb (ctx_item (obj_ctx self)) (ctx_item (obj_ctx new_value)))).
#[export] Instance object_DualDiff : DualDiff MetadataStoreObject := object_diff.

(** ** The local store *)

(* src/crates/fluvio-stream-model/src/store/actions.rs:11-19 LSUpdate *)
Inductive LSUpdate :=
| UpdateMod (value : MetadataStoreObject)
| UpdateDelete (key : K).

(** The map, behind a lock, and the epoch its publisher has. *)
(* src/crates/fluvio-stream-model/src/store/dual_store.rs:30-37 LocalStore *)
Record LocalStore := MkLocalStore { store : DualEpochMap K MetadataStoreObject; published : Z }.
(* src/crates/fluvio-stream-model/src/store/dual_store.rs:44-49 LocalStore::default *)
Definition store_default : LocalStore := MkLocalStore (new_with_map ∅) 0.
(* src/crates/fluvio-stream-model/src/store/dual_store.rs:58-68 LocalStore::bulk_new *)
Definition bulk_new (objects : list MetadataStoreObject) : LocalStore :=
  MkLocalStore (new_with_map (foldl (fun m obj => <[obj_key obj := dual_counter_new obj]> m) ∅ objects)) 0.
(* src/crates/fluvio-stream-model/src/store/event.rs:38-41 EventPublisher::store_change *)
Definition store_change (value : Z) (self : LocalStore) : LocalStore := MkLocalStore (store self) value.

(** The counters of changes, [i32] like in the code. *)
(* src/crates/fluvio-stream-model/src/store/dual_store.rs:188-195 SyncStatus *)
Record SyncStatus := MkSyncStatus {
  ss_epoch : Z;
  ss_add : Z;
  ss_update_spec : Z;
  ss_update_status : Z;
  ss_update_meta : Z;
  ss_delete : Z;
}.
Definition incr_if (b : bool) (n : Z) : Z := if b then as_i32 (n + 1) else n.
Definition count_update (d : option ChangeFlag) (s : SyncStatus) : SyncStatus :=
  match d with
  | Some d =>
      MkSyncStatus (ss_epoch s) (ss_add s) (incr_if (flag_spec d) (ss_update_spec s))
        (incr_if (flag_status d) (ss_update_status s)) (incr_if (flag_meta d) (ss_update_meta s)) (ss_delete s)
  | None =>
      MkSyncStatus (ss_epoch s) (incr_if true (ss_add s)) (ss_update_spec s) (ss_update_status s)
        (ss_update_meta s) (ss_delete s)
  end.
Definition count_delete (s : SyncStatus) : SyncStatus :=
  MkSyncStatus (ss_epoch s) (ss_add s) (ss_update_spec s) (ss_update_status s) (ss_update_meta s)
    (incr_if true (ss_delete s)).
Definition no_counts : SyncStatus := MkSyncStatus 0 0 0 0 0 0.
Definition with_epoch (e : Z) (s : SyncStatus) : SyncStatus :=
  MkSyncStatus e (ss_add s) (ss_update_spec s) (ss_update_status s) (ss_update_meta s) (ss_delete s).

(** What [sync_all] does while it holds the lock. *)
Definition sync_incoming (st : SyncStatus * DualEpochMap K MetadataStoreObject * list K)
    (source : MetadataStoreObject) : SyncStatus * DualEpochMap K MetadataStoreObject * list K :=
  let '(s, m, local_keys) := st in
  let '(d, m) := dm_update (obj_key source) source m in
  (count_update d s, m, List.filter (fun n => negb (bool_decide (n = obj_key source))) local_keys).
Definition sync_delete (st : SyncStatus * DualEpochMap K MetadataStoreObject) (name : K)
    : SyncStatus * DualEpochMap K MetadataStoreObject :=
  let '(s, m) := st in
  match values m !! name with
  | Some _ =>
      let '(removed, m) := dm_remove name m in
      (match removed with Some _ => count_delete s | None => s end, m)
  | None => (s, m)
  end.
Definition sync_all_locked (incoming_changes : list MetadataStoreObject)
    (m : DualEpochMap K MetadataStoreObject) : SyncStatus * DualEpochMap K MetadataStoreObject :=
  let local_keys := clone_keys m in
  let m := increment_epoch m in
  let '(s, m, local_keys) := foldl sync_incoming (no_counts, m, local_keys) incoming_changes in
  let '(s, m) := foldl sync_delete (s, m) local_keys in
  let m := mark_fence m in
  (with_epoch (epoch m) s, m).
(* src/crates/fluvio-stream-model/src/store/dual_store.rs:216-295 LocalStore::sync_all *)
Definition sync_all (incoming_changes : list MetadataStoreObject) (self : LocalStore) : SyncStatus * LocalStore :=
  let '(s, m) := sync_all_locked incoming_changes (store self) in
  (s, store_change (ss_epoch s) (MkLocalStore m (published self))).

(** What [apply_changes] does while it holds the lock; [None] when nothing
    changed. *)
Definition apply_change (st : SyncStatus * DualEpochMap K MetadataStoreObject) (change : LSUpdate)
    : SyncStatus * DualEpochMap K MetadataStoreObject :=
  let '(s, m) := st in
  match change with
  | UpdateMod new_kv_value => let '(d, m) := dm_update (obj_key new_kv_value) new_kv_value m in (count_update d s, m)
  | UpdateDelete key => let '(_, m) := dm_remove key m in (count_delete s, m)
  end.
Definition no_counted (s : SyncStatus) : bool :=
  (ss_add s =? 0) && (ss_update_spec s =? 0) && (ss_update_status s =? 0) && (ss_delete s =? 0)
  && (ss_update_meta s =? 0).
Definition apply_changes_locked (changes : list LSUpdate) (m : DualEpochMap K MetadataStoreObject)
    : option SyncStatus * DualEpochMap K MetadataStoreObject :=
  let m := increment_epoch m in
  let '(s, m) := foldl apply_change (no_counts, m) changes in
  if no_counted s then (None, decrement_epoch m)
  else (Some (with_epoch (epoch m) s), m).
(* src/crates/fluvio-stream-model/src/store/dual_store.rs:303-386 LocalStore::apply_changes *)
Definition apply_changes (changes : list LSUpdate) (self : LocalStore) : option SyncStatus * LocalStore :=
  let '(s, m) := apply_changes_locked changes (store self) in
  let self := MkLocalStore m (published self) in
  match s with
  | Some s => (Some s, store_change (ss_epoch s) self)
  | None => (None, self)
  end.

(** ** Listeners *)

(* src/crates/fluvio-stream-model/src/store/dual_store.rs:404-411 ChangeListener *)
Record ChangeListener := MkListener { last_change : Z }.
(* src/crates/fluvio-stream-model/src/store/dual_store.rs:434-439 ChangeListener::new *)
Definition listener_new : ChangeListener := MkListener 0.
(* src/crates/fluvio-stream-model/src/store/dual_store.rs:450-452 ChangeListener::has_change *)
Definition has_change (self : ChangeListener) (st : LocalStore) : bool := last_change self <? published st.
(* src/crates/fluvio-stream-model/src/store/dual_store.rs:515-536 ChangeListener::sync_changes_with_filter *)
Definition sync_changes_with_filter (filter : ChangeFlag) (self : ChangeListener) (st : LocalStore)
    : EpochChanges MetadataStoreObject * ChangeListener :=
  let changes := changes_since_with_filter (last_change self) filter (store st) in
  (changes, MkListener (changes_epoch changes)).
(* src/crates/fluvio-stream-model/src/store/dual_store.rs:495-497 ChangeListener::sync_changes *)
Definition sync_changes : ChangeListener -> LocalStore -> EpochChanges MetadataStoreObject * ChangeListener :=
  sync_changes_with_filter FULL_FILTER.
(* src/crates/fluvio-stream-model/src/store/dual_store.rs:500-502 ChangeListener::sync_spec_changes *)
Definition sync_spec_changes : ChangeListener -> LocalStore -> EpochChanges MetadataStoreObject * ChangeListener :=
  sync_changes_with_filter SPEC_FILTER.
(* src/crates/fluvio-stream-model/src/store/dual_store.rs:505-507 ChangeListener::sync_status_changes *)
Definition sync_status_changes : ChangeListener -> LocalStore -> EpochChanges MetadataStoreObject * ChangeListener :=
  sync_changes_with_filter STATUS_FILTER.
(* src/crates/fluvio-stream-model/src/store/dual_store.rs:510-512 ChangeListener::sync_meta_changes *)
Definition sync_meta_changes : ChangeListener -> LocalStore -> EpochChanges MetadataStoreObject * ChangeListener :=
  sync_changes_with_filter META_FILTER.
(** After [listen] has returned. *)
(* src/crates/fluvio-stream-model/src/store/dual_store.rs:540-549 ChangeListener::wait_for_initial_sync *)
Definition wait_for_initial_sync (self : ChangeListener) (st : LocalStore)
    : res (list MetadataStoreObject) * ChangeListener :=
  let '(changes, self) := sync_changes self st in
  (if is_sync_all changes then Ok (fst (changes_parts changes)) else Panic, self).
End store.
Arguments MetadataStoreObject : clear implicits.
Arguments LocalStore K {_ _} S St C.
Arguments LSUpdate : clear implicits.

(** ** Laws *)

Section laws.
Context {K : Type} `{Countable K} {S St : Type} `{!EqDecision S} `{!EqDecision St}.
Context {C : Type} `{!MetadataItem C}.
Notation Obj := (MetadataStoreObject K S St C).
Notation Map := (DualEpochMap K Obj).
Implicit Types (m : Map) (o : Obj).

Notation map_ok := (dm_ok (obj_key (K := K) (S := S) (St := St) (C := C))).

(** A property of the map that updates with objects in [Q] and removals keep. *)
Definition op_closed (Q : Obj -> Prop) (I : Map -> Prop) : Prop :=
  (forall m o, Q o -> I m -> I (snd (dm_update (obj_key o) o m))) /\ (forall m k, I m -> I (snd (dm_remove k m))).

Definition change_in (Q : Obj -> Prop) (c : LSUpdate K S St C) : Prop :=
  match c with UpdateMod o => Q o | UpdateDelete _ => True end.

Lemma forall_any {A} (l : list A) : Forall (fun _ => True) l.
Proof. by apply Forall_true. Qed.

Lemma forall_change_any cs : Forall (change_in (fun _ => True)) cs.
Proof. apply Forall_true. by intros []. Qed.

Lemma sync_incoming_closed Q I s m ks objs :
  op_closed Q I -> Forall Q objs -> I m -> I (snd (fst (foldl sync_incoming (s, m, ks) objs))).
Proof.
  intros [Hu _] Hq. revert s m ks. induction Hq as [|o objs Ho _ IH]; intros s m ks Hm; [done|]. cbn [foldl sync_incoming].
  specialize (Hu m o Ho Hm). destruct (dm_update (obj_key o) o m) as [fl m']. by apply IH.
Qed.

Lemma sync_delete_closed Q I s m ks : op_closed Q I -> I m -> I (snd (foldl sync_delete (s, m) ks)).
Proof.
  intros [_ Hr]. revert s m. induction ks as [|k ks IH]; intros s m Hm; [done|]. cbn [foldl sync_delete].
  specialize (Hr m k Hm). destruct (values m !! k); [|by apply IH]. destruct (dm_remove k m) as [old m']. by apply IH.
Qed.

Lemma apply_change_closed Q I s m cs :
  op_closed Q I -> Forall (change_in Q) cs -> I m -> I (snd (foldl apply_change (s, m) cs)).
Proof.
  intros [Hu Hr] Hq. revert s m. induction Hq as [|c cs Hc _ IH]; intros s m Hm; [done|]. cbn [foldl apply_change].
  destruct c as [o|k].
  - specialize (Hu m o Hc Hm). destruct (dm_update (obj_key o) o m) as [fl m']. by apply IH.
  - specialize (Hr m k Hm). destruct (dm_remove k m) as [old m']. by apply IH.
Qed.

Lemma dm_ok_closed Q e : op_closed Q (fun m => map_ok m /\ epoch m = e).
Proof.
  split.
  - intros m o _ [Hok He]. split; [by apply dm_ok_update|by rewrite epoch_update].
  - intros m k [Hok He]. split; [by apply dm_ok_remove|by rewrite epoch_remove].
Qed.

(** *** Full synchronisation *)

Lemma sync_all_ok objs m s m' :
  map_ok m -> epoch m < 2 ^ 63 - 1 -> sync_all_locked objs m = (s, m') ->
  map_ok m' /\ epoch m' = epoch m + 1 /\ counter_epoch (dm_fence m') = epoch m' /\ ss_epoch s = epoch m' /\
  deleted m' = [].
Proof.
  intros Hok Hm E. unfold sync_all_locked in E.
  destruct (dm_ok_increment obj_key m Hm Hok) as [Hok1 He1].
  pose proof (sync_incoming_closed _ _ no_counts _ (clone_keys m) objs (dm_ok_closed _ (epoch m + 1)) (forall_any objs) (conj Hok1 He1)) as H1.
  destruct (foldl sync_incoming _ _) as [[s1 m1] ks]. cbn in H1.
  pose proof (sync_delete_closed _ _ s1 m1 ks (dm_ok_closed (fun _ => True) (epoch m + 1)) H1) as H2.
  destruct (foldl sync_delete _ _) as [s2 m2]. cbn in H2. injection E as <- <-. destruct H2 as [Hok2 He2].
  split; [by apply dm_ok_fence|]. unfold epoch, mark_fence in *. cbn in *. done.
Qed.

(** *** Changes *)

(** Without a counted change the map is as before. *)
Lemma apply_change_none s m m0 cs n :
  0 <= n -> n + zlen cs < 2 ^ 31 ->
  0 <= ss_add s <= n -> 0 <= ss_update_spec s <= n -> 0 <= ss_update_status s <= n -> 0 <= ss_update_meta s <= n ->
  0 <= ss_delete s <= n -> (no_counted s = true -> m = m0) ->
  no_counted (fst (foldl apply_change (s, m) cs)) = true -> snd (foldl apply_change (s, m) cs) = m0.
Proof.
  assert (forall b x k, 0 <= x <= k -> k < 2 ^ 31 - 1 ->
    0 <= incr_if b x <= k + 1 /\ (incr_if b x = 0 -> x = 0 /\ b = false)) as Hincr.
  { intros [] x k Hx Hk; cbn; [|lia]. rewrite wrap_i_id by (unfold in_i; lia). lia. }
  revert s m n. induction cs as [|c cs IH]; intros s m n Hn Hlen H1 H2 H3 H4 H5 Hs; [exact Hs|].
  rewrite zlen_cons in Hlen. pose proof (zlen_nonneg cs). cbn [foldl apply_change]. destruct c as [o|k].
  - destruct (dm_update (obj_key o) o m) as [fl m'] eqn:E.
    apply IH with (n + 1); try lia.
    all: destruct fl as [fl|]; cbn [count_update ss_add ss_update_spec ss_update_status ss_update_meta ss_delete];
      try (apply Hincr; lia); try lia.
    + unfold no_counted. cbn. rewrite !andb_true_iff, !Z.eqb_eq. intros ((((Ea & Es) & Et) & Ed) & Em).
      apply (Hincr _ _ n) in Es as [Es Fs]; [|lia..]. apply (Hincr _ _ n) in Et as [Et Ft]; [|lia..].
      apply (Hincr _ _ n) in Em as [Em Fm]; [|lia..].
      rewrite update_eq in E. destruct (values m !! obj_key o) as [old|]; [|done]. injection E as <- <-.
      assert (has_no_changes (diff (dual_inner old) o) = true) as -> by (unfold has_no_changes; by rewrite Fs, Ft, Fm).
      apply Hs. unfold no_counted. by rewrite Ea, Es, Et, Ed, Em.
    + unfold no_counted. cbn. rewrite !andb_true_iff, !Z.eqb_eq. intros ((((Ea & _) & _) & _) & _).
      apply (Hincr true _ n) in Ea as [_ ?]; [done|lia..].
  - destruct (dm_remove k m) as [fl m']. apply IH with (n + 1); try lia; cbn [count_delete ss_add ss_update_spec ss_update_status ss_update_meta ss_delete]; try lia.
    + apply Hincr; lia.
    + unfold no_counted. cbn. rewrite !andb_true_iff, !Z.eqb_eq. intros (((_ & _) & Ed) & _).
      apply (Hincr true _ n) in Ed as [_ ?]; [done|lia..].
Qed.

Lemma decrement_increment m : map_ok m -> epoch m < 2 ^ 63 - 1 -> decrement_epoch (increment_epoch m) = m.
Proof.
  intros Hok Hm. pose proof (ok_epoch _ _ Hok). unfold epoch in *. destruct m as [[e []] f v d]. cbn in *.
  unfold decrement_epoch, increment_epoch, counter_decrement, counter_increment. cbn.
  rewrite (wrap_i_id 64 (e + 1)) by (unfold in_i; lia). rewrite wrap_i_id by (unfold in_i; lia). do 2 f_equal. lia.
Qed.

Lemma apply_changes_ok changes m r m' :
  map_ok m -> epoch m < 2 ^ 63 - 1 -> zlen changes < 2 ^ 31 -> apply_changes_locked changes m = (r, m') ->
  match r with
  | None => m' = m
  | Some s => map_ok m' /\ epoch m' = epoch m + 1 /\ ss_epoch s = epoch m'
  end.
Proof.
  intros Hok Hm Hlen E. unfold apply_changes_locked in E.
  destruct (dm_ok_increment obj_key m Hm Hok) as [Hok1 He1].
  pose proof (apply_change_closed _ _ no_counts _ changes (dm_ok_closed _ (epoch m + 1)) (forall_change_any changes) (conj Hok1 He1)) as [Hok2 He2].
  pose proof (apply_change_none no_counts (increment_epoch m) (increment_epoch m) changes 0) as Hnone.
  destruct (foldl apply_change _ _) as [s m2]. cbn in Hok2, He2, Hnone.
  destruct (no_counted s) eqn:Ec; injection E as <- <-; [|done].
  rewrite Hnone by (done || lia). by apply decrement_increment.
Qed.

(** *** Readers *)

Section readers.
Context {P : Type} (proj : Obj -> P) (filter : ChangeFlag) (filter_some : has_no_changes filter = false).
Context (proj_diff : forall old new, has_no_changes (diff old new) = false ->
  filter_hits filter (diff old new) = false -> proj new = proj old).
Notation tracks := (tracks obj_key proj filter).

Lemma tracks_sync_all objs m s m' e M :
  map_ok m -> epoch m < 2 ^ 63 - 1 -> sync_all_locked objs m = (s, m') -> tracks m e M -> tracks m' e M.
Proof.
  intros Hok Hm E [Hle _]. destruct (sync_all_ok objs m s m' Hok Hm E) as (_ & He & Hf & _).
  split; [lia|]. rewrite Hf. lia.
Qed.

Lemma tracks_apply_changes changes m r m' e M :
  map_ok m -> epoch m < 2 ^ 63 - 1 -> zlen changes < 2 ^ 31 -> apply_changes_locked changes m = (r, m') ->
  tracks m e M -> tracks m' e M.
Proof.
  intros Hok Hm Hlen E Ht. pose proof (apply_changes_ok changes m r m' Hok Hm Hlen E) as Hr.
  destruct r as [s|]; [|by subst m']. destruct Hr as (Hok' & He' & _).
  destruct (dm_ok_increment obj_key m Hm Hok) as [Hok1 He1].
  assert (op_closed (fun _ => True) (fun m1 => (map_ok m1 /\ epoch m1 = epoch m + 1) /\ tracks m1 e M)) as Hcl.
  { destruct (dm_ok_closed (fun _ => True) (epoch m + 1)) as [Hu Hd]. destruct Ht as [Hle _]. split.
    - intros m1 o _ [H1 H2]. split; [by apply Hu|]. apply tracks_update; [done..| |done]. destruct H1 as [_ ->]. lia.
    - intros m1 k [H1 H2]. split; [by apply Hd|]. destruct H1 as [Hok1' E1].
      apply tracks_remove; [done|done| |done]. rewrite E1. lia. }
  assert (tracks (increment_epoch m) e M) as Ht1 by (by apply tracks_increment).
  pose proof (apply_change_closed _ _ no_counts _ changes Hcl (forall_change_any changes) (conj (conj Hok1 He1) Ht1)) as [_ Ht2].
  unfold apply_changes_locked in E. destruct (foldl apply_change _ _) as [s2 m2].
  destruct (no_counted s2); injection E as ? <-; [done|exact Ht2].
Qed.
End readers.
End laws.
