(* ===== verification/MetadataSync.v ===== *)
(** * Following a store over the network

    The controller's store of a kind of objects is watched by clients: the
    [WatchController] of [fluvio-sc/src/services/public_api/watch.rs] sends the
    changes of a listener as a [MetadataUpdate], and the
    [MetadataSyncController] of [fluvio/src/sync/controller.rs] applies it to
    the client's own store. *)

From S2P Require Import Prelude Names EpochMap MetadataStore.
From stdpp Require Import gmap strings.

#[local] Open Scope Z_scope.

(** ** Messages *)

(* src/crates/fluvio-controlplane-metadata/src/message/msg_type.rs:19-25 MsgType *)
Inductive MsgType := UPDATE | DELETE.
(* src/crates/fluvio-controlplane-metadata/src/message/msg_type.rs:28-31 Message *)
Record Message (C : Type) := MkMessage { msg_header : MsgType; content : C }.
Arguments MkMessage {C}.
Arguments msg_header {C}.
Arguments content {C}.
(* src/crates/fluvio-controlplane-metadata/src/message/msg_type.rs:50-52 Message::delete *)
Definition message_delete {C} (content : C) : Message C := MkMessage DELETE content.
(* src/crates/fluvio-controlplane-metadata/src/message/msg_type.rs:54-56 Message::update *)
Definition message_update {C} (content : C) : Message C := MkMessage UPDATE content.

(** Keys have a printed form, which [TryFrom<String>] reads. *)
Class IndexKey (K : Type) := { key_show : K -> string; key_parse : string -> option K; key_valid : K -> Prop }.
Class IndexKeyOK (K : Type) `{IndexKey K} := key_parse_show k : key_valid k -> key_parse (key_show k) = Some k.

#[export] Instance string_key : IndexKey string :=
  {| key_show := id; key_parse := Some; key_valid _ := True |}.
#[export] Instance string_key_ok : IndexKeyOK string.
Proof. done. Qed.
#[export] Instance replica_key : IndexKey ReplicaKey :=
  {| key_show := replica_key_show; key_parse := replica_key_from_str; key_valid k := in_u 32 (Names.partition k) |}.
#[export] Instance replica_key_ok : IndexKeyOK ReplicaKey.
Proof. intros k Hk. by apply replica_key_parses. Qed.

Section watch.
Context {K : Type} `{Countable K} `{!IndexKey K} {S St : Type} `{!EqDecision S} `{!EqDecision St}.
Context {C CC : Type} `{!MetadataItem C} `{!MetadataItem CC}.

(* src/crates/fluvio-sc-schema/src/objects/metadata.rs:26-34 Metadata *)
Record Metadata := MkMetadata { md_name : string; md_spec : S; md_status : St }.
(* src/crates/fluvio-sc-schema/src/objects/metadata.rs:43-49 Metadata::from *)
Definition metadata_of {C'} (meta : MetadataStoreObject K S St C') : Metadata :=
  MkMetadata (key_show (obj_key meta)) (obj_spec meta) (obj_status meta).
(** [None] is the error that the name is not a key. *)
(* src/crates/fluvio-sc-schema/src/objects/metadata.rs:76-85 MetadataStoreObject::try_from *)
Definition object_of (value : Metadata) : option (MetadataStoreObject K S St CC) :=
  key ← key_parse (md_name value);
  Some (MkObject (md_spec value) (md_status value) key (MkContext item_default)).
(** [summarize] is [AdminSpec::summary]. *)
(* src/crates/fluvio-sc-schema/src/objects/metadata.rs:57-63 Metadata::summary *)
Definition metadata_summary (summarize : S -> S) (self : Metadata) : Metadata :=
  MkMetadata (md_name self) (summarize (md_spec self)) (md_status self).

(* src/crates/fluvio-sc-schema/src/objects/watch.rs:105-113 MetadataUpdate *)
Record MetadataUpdate := MkMetadataUpdate {
  mu_epoch : Z;
  mu_changes : list (Message Metadata);
  mu_all : list Metadata;
}.
(* src/crates/fluvio-sc-schema/src/objects/watch.rs:120-126 MetadataUpdate::with_changes *)
Definition with_changes (epoch : Z) (changes : list (Message Metadata)) : MetadataUpdate :=
  MkMetadataUpdate epoch changes [].
(* src/crates/fluvio-sc-schema/src/objects/watch.rs:128-134 MetadataUpdate::with_all *)
Definition with_all (epoch : Z) (all : list Metadata) : MetadataUpdate := MkMetadataUpdate epoch [] all.

(** The message that is sent. *)
(* src/crates/fluvio-sc/src/services/public_api/watch.rs:172-243 WatchController::sync_and_send_changes *)
Definition sync_and_send_changes (summarize : S -> S) (summary : bool) (listener : ChangeListener)
    (st : LocalStore K S St C) : MetadataUpdate * ChangeListener :=
  let '(changes, listener) := sync_changes listener st in
  let epoch := changes_epoch changes in
  let short d := if summary then metadata_summary summarize d else d in
  let '(updates, deletes) := changes_parts changes in
  (if is_sync_all changes then
     with_all epoch (map (fun u => short (metadata_of u)) updates)
   else
     with_changes epoch
       (map (fun u => message_update (short (metadata_of u))) updates
        ++ map (fun d => message_delete (metadata_of d)) deletes),
   listener).

(** [try_into] for each element, up to the first that fails. *)
Fixpoint convert_all {A B} (f : A -> option B) (l : list A) : option (list B) :=
  match l with
  | [] => Some []
  | a :: l => b ← f a; bs ← convert_all f l; Some (b :: bs)
  end.
Definition ls_update (msg : MsgType * MetadataStoreObject K S St CC) : LSUpdate K S St CC :=
  match msg with
  | (UPDATE, obj) => UpdateMod obj
  | (DELETE, obj) => UpdateDelete (obj_key obj)
  end.
(* src/crates/fluvio/src/sync/controller.rs:147-205 MetadataSyncController::sync_metadata *)
Definition sync_metadata (updates : MetadataUpdate) (st : LocalStore K S St CC) : res unit * LocalStore K S St CC :=
  if negb (is_nil (mu_all updates)) then
    match convert_all object_of (mu_all updates) with
    | Some objects => let '(_, st) := sync_all objects st in (Ok tt, st)
    | None => (Err InvalidData, st)
    end
  else if negb (is_nil (mu_changes updates)) then
    match convert_all (fun msg => obj ← object_of (content msg); Some (msg_header msg, obj)) (mu_changes updates) with
    | Some objs => let '(_, st) := apply_changes (map ls_update objs) st in (Ok tt, st)
    | None => (Err InvalidData, st)
    end
  else (Ok tt, st).

(** ** A watched store *)

(** The controller's store, the listener of a watch and the client's store. *)
Record Watch := MkWatch {
  w_store : LocalStore K S St C;
  w_listener : ChangeListener;
  w_client : LocalStore K S St CC;
}.
Definition watch_init : Watch := MkWatch store_default listener_new store_default.
(** One turn of the watch. *)
Definition watch_deliver (summarize : S -> S) (summary : bool) (w : Watch) : Watch :=
  let '(msg, listener) := sync_and_send_changes summarize summary (w_listener w) (w_store w) in
  let '(_, client) := sync_metadata msg (w_client w) in
  MkWatch (w_store w) listener client.

(** No deleted object is there again, and a full update is not empty. *)
Definition deliverable (w : Watch) : Prop :=
  match delta_changes (fst (sync_changes (w_listener w) (w_store w))) with
  | SyncAll all => all <> []
  | Changes updates deletes => forall o, o ∈ deletes -> values (store (w_store w)) !! obj_key o = None
  end.

Definition key_ok (o : MetadataStoreObject K S St C) : Prop := key_valid (obj_key o).

(** The changes of the controller's store and the turns of the watch, in any
    order; the bounds keep the epochs and counters in their types. *)
Inductive watch_step (w : Watch) : Watch -> Prop :=
| step_sync_all objs :
    Forall key_ok objs -> epoch (store (w_store w)) < 2 ^ 63 - 1 ->
    watch_step w (MkWatch (snd (sync_all objs (w_store w))) (w_listener w) (w_client w))
| step_apply changes :
    Forall (change_in key_ok) changes -> epoch (store (w_store w)) < 2 ^ 63 - 1 -> zlen changes < 2 ^ 31 ->
    watch_step w (MkWatch (snd (apply_changes changes (w_store w))) (w_listener w) (w_client w))
| step_deliver :
    deliverable w -> epoch (store (w_client w)) < 2 ^ 63 - 1 ->
    zlen (mu_changes (fst (sync_and_send_changes id false (w_listener w) (w_store w)))) < 2 ^ 31 ->
    watch_step w (watch_deliver id false w).
Inductive watch_reach : Watch -> Prop :=
| watch_start : watch_reach watch_init
| watch_more w w' : watch_reach w -> watch_step w w' -> watch_reach w'.

(** What clients see of an object. *)
Definition seen {C'} (o : MetadataStoreObject K S St C') : S * St := (obj_spec o, obj_status o).
Definition seen_objects {C'} (st : LocalStore K S St C') : gmap K (S * St) := view seen (store st).
End watch.
Arguments Metadata : clear implicits.
Arguments MetadataUpdate : clear implicits.
Arguments Watch K {_ _} S St C CC.

(** ** Laws *)

Section laws.
Context {K : Type} `{Countable K} `{!IndexKey K} `{!IndexKeyOK K} {S St : Type} `{!EqDecision S} `{!EqDecision St}.
Context {C CC : Type} `{!MetadataItem C} `{!MetadataItem CC}.
Context (default_not_newer : item_is_newer (C := CC) item_default item_default = false).
Notation SObj := (MetadataStoreObject K S St C).
Notation CObj := (MetadataStoreObject K S St CC).
Implicit Types (o : SObj) (p : CObj) (m : DualEpochMap K CObj) (M : gmap K (S * St)).

(** *** The client's store *)

Definition plain p : Prop := obj_ctx p = MkContext item_default.
Definition plain_map m : Prop := forall k c, values m !! k = Some c -> plain (dual_inner c).

Lemma view_update p m :
  plain p -> plain_map m -> view seen (snd (dm_update (obj_key p) p m)) = <[obj_key p := seen p]> (view seen m).
Proof.
  intros Hp Hm. unfold view. rewrite update_eq. destruct (values m !! obj_key p) as [old|] eqn:Eo; cbn [snd]; cbv zeta.
  - destruct (has_no_changes (diff _ _)) eqn:Ed; cbn [values set_values]; [|by rewrite fmap_insert].
    symmetry. apply insert_id. rewrite lookup_fmap, Eo. cbn. f_equal.
    revert Ed. unfold diff, object_DualDiff, object_diff, is_newer, has_no_changes.
    rewrite Hp, (Hm _ _ Eo). cbn. rewrite default_not_newer. cbn.
    rewrite !negb_involutive, !andb_true_iff. intros [[Es Et] _]. apply bool_decide_eq_true in Es, Et.
    unfold seen. by rewrite Es, Et.
  - cbn [values set_values]. by rewrite fmap_insert.
Qed.

Lemma view_remove k m : view seen (snd (dm_remove k m)) = delete k (view seen m).
Proof.
  unfold view, dm_remove. destruct (values m !! k) eqn:E; cbn [snd values]; [by rewrite fmap_delete|].
  symmetry. apply delete_id. by rewrite lookup_fmap, E.
Qed.

Lemma plain_closed : op_closed plain plain_map.
Proof.
  split.
  - intros m p Hp Hm k c. rewrite update_eq. destruct (values m !! obj_key p) as [old|] eqn:Eo; cbn [snd]; cbv zeta.
    + destruct (has_no_changes (diff _ _)); [apply Hm|]. cbn [values set_values].
      intros [[_ <-]|[_ Hc]]%lookup_insert_Some; [exact Hp|by eapply Hm].
    + cbn [values set_values]. intros [[_ <-]|[_ Hc]]%lookup_insert_Some; [exact Hp|by eapply Hm].
  - intros m k Hm k' c. unfold dm_remove. destruct (values m !! k); cbn [snd values]; [|apply Hm].
    intros [_ Hc]%lookup_delete_Some. by eapply Hm.
Qed.

Definition apply_update M (c : LSUpdate K S St CC) : gmap K (S * St) :=
  match c with UpdateMod p => <[obj_key p := seen p]> M | UpdateDelete k => delete k M end.

Lemma view_apply_changes s m cs :
  Forall (change_in plain) cs -> plain_map m ->
  view seen (snd (foldl apply_change (s, m) cs)) = foldl apply_update (view seen m) cs.
Proof.
  intros Hq. revert s m. induction Hq as [|c cs Hc _ IH]; intros s m Hm; [done|]. cbn [foldl apply_change].
  destruct plain_closed as [Hu Hr]. destruct c as [p|k].
  - pose proof (view_update p m Hc Hm) as Hv. specialize (Hu m p Hc Hm).
    destruct (dm_update (obj_key p) p m) as [fl m']. cbn in Hv, Hu. rewrite IH by done. by rewrite Hv.
  - pose proof (view_remove k m) as Hv. specialize (Hr m k Hm).
    destruct (dm_remove k m) as [old m']. cbn in Hv, Hr. rewrite IH by done. by rewrite Hv.
Qed.

(** Applying changes to the client's store. *)
Lemma client_apply cs (st : LocalStore K S St CC) :
  Forall (change_in plain) cs -> plain_map (store st) -> dm_ok obj_key (store st) -> epoch (store st) < 2 ^ 63 - 1 ->
  zlen cs < 2 ^ 31 ->
  let st' := snd (apply_changes cs st) in
  seen_objects st' = foldl apply_update (seen_objects st) cs /\ plain_map (store st') /\ dm_ok obj_key (store st').
Proof.
  intros Hq Hp Hok He Hlen. unfold apply_changes.
  destruct (apply_changes_locked cs (store st)) as [r m'] eqn:E.
  pose proof (apply_changes_ok cs (store st) r m' Hok He Hlen E) as Hr.
  pose proof (view_apply_changes no_counts (increment_epoch (store st)) cs Hq Hp) as Hv.
  pose proof (apply_change_closed _ _ no_counts (increment_epoch (store st)) cs plain_closed Hq Hp) as Hp'.
  unfold apply_changes_locked in E. destruct (foldl apply_change _ _) as [s2 m2]. cbn in Hv, Hp'.
  destruct (no_counted s2); injection E as <- <-; unfold seen_objects; cbn [snd store store_change].
  - split; [exact Hv|]. split; [exact Hp'|]. by rewrite Hr.
  - split; [exact Hv|]. split; [exact Hp'|]. by destruct Hr as [? _].
Qed.

(** Full synchronisation of the client's store. *)
Lemma view_sync_incoming s m ks ps :
  Forall plain ps -> plain_map m ->
  view seen (snd (fst (foldl sync_incoming (s, m, ks) ps))) = foldl (fun M p => <[obj_key p := seen p]> M) (view seen m) ps.
Proof.
  intros Hq. revert s m ks. induction Hq as [|p ps Hc _ IH]; intros s m ks Hm; [done|]. cbn [foldl sync_incoming].
  pose proof (view_update p m Hc Hm) as Hv. destruct plain_closed as [Hu _]. specialize (Hu m p Hc Hm).
  destruct (dm_update (obj_key p) p m) as [fl m']. cbn in Hv, Hu. rewrite IH by done. by rewrite Hv.
Qed.

Lemma sync_incoming_keys s m ks ps n :
  n ∈ snd (foldl sync_incoming (s, m, ks) ps) <-> n ∈ ks /\ n ∉ map obj_key ps.
Proof.
  revert s m ks. induction ps as [|p ps IH]; intros s m ks; [split; [|by intros []]; split; [done|apply not_elem_of_nil]|].
  cbn [foldl sync_incoming]. destruct (dm_update (obj_key p) p m) as [fl m']. rewrite IH. cbn [map].
  rewrite !list_elem_of_In, List.filter_In, <-!list_elem_of_In, not_elem_of_cons, negb_true_iff, bool_decide_eq_false. tauto.
Qed.

Lemma view_sync_delete s m ks k :
  view seen (snd (foldl sync_delete (s, m) ks)) !! k = if bool_decide (k ∈ ks) then None else view seen m !! k.
Proof.
  revert s m. induction ks as [|n ks IH]; intros s m; [done|]. cbn [foldl sync_delete].
  assert (forall s', view seen (snd (foldl sync_delete (s', snd (dm_remove n m)) ks)) !! k =
    if bool_decide (k ∈ n :: ks) then None else view seen m !! k) as Hgo.
  { intros s'. rewrite IH, view_remove. destruct (decide (k = n)) as [->|Hne].
    - rewrite lookup_delete_eq, (bool_decide_eq_true_2 (n ∈ n :: ks)) by (by left). by case_match.
    - rewrite lookup_delete_ne by done. erewrite bool_decide_ext; [done|]. rewrite elem_of_cons. tauto. }
  destruct (values m !! n) eqn:En.
  - destruct (dm_remove n m) as [old m'] eqn:Er. apply Hgo.
  - specialize (Hgo s). unfold dm_remove in Hgo. by rewrite En in Hgo.
Qed.

Lemma client_sync_all ps (st : LocalStore K S St CC) :
  Forall plain ps -> NoDup (map obj_key ps) -> plain_map (store st) -> dm_ok obj_key (store st) ->
  epoch (store st) < 2 ^ 63 - 1 ->
  let st' := snd (sync_all ps st) in
  (forall p, p ∈ ps -> seen_objects st' !! obj_key p = Some (seen p)) /\
  (forall k, k ∉ map obj_key ps -> seen_objects st' !! k = None) /\
  plain_map (store st') /\ dm_ok obj_key (store st').
Proof.
  intros Hq Hn Hp Hok He. unfold sync_all. destruct (sync_all_locked ps (store st)) as [s m'] eqn:E.
  destruct (sync_all_ok ps (store st) s m' Hok He E) as (Hok' & _). unfold sync_all_locked in E.
  pose proof (view_sync_incoming no_counts (increment_epoch (store st)) (clone_keys (store st)) ps Hq Hp) as Hv.
  pose proof (sync_incoming_keys no_counts (increment_epoch (store st)) (clone_keys (store st)) ps) as Hks.
  pose proof (sync_incoming_closed _ _ no_counts (increment_epoch (store st)) (clone_keys (store st)) ps plain_closed Hq Hp) as Hp1.
  destruct (foldl sync_incoming _ _) as [[s1 m1] ks]. cbn in Hv, Hks, Hp1.
  pose proof (view_sync_delete s1 m1 ks) as Hd. pose proof (sync_delete_closed _ _ s1 m1 ks plain_closed Hp1) as Hp2.
  destruct (foldl sync_delete _ _) as [s2 m2]. cbn in Hd, Hp2. injection E as <- <-. cbn [snd].
  assert (forall k, seen_objects (MkLocalStore (mark_fence m2) (published st)) !! k = view seen m2 !! k) as Hview by done.
  unfold seen_objects. cbn [store store_change]. split_and!; [| |exact Hp2|exact Hok'].
  - intros p Hin. etransitivity; [apply Hd|]. rewrite bool_decide_eq_false_2.
    + rewrite Hv. by apply lookup_inserts.
    + rewrite Hks. intros [_ Hni]. apply Hni. apply list_elem_of_fmap. by exists p.
  - intros k Hk. etransitivity; [apply Hd|]. destruct (bool_decide (k ∈ ks)) eqn:Eb; [done|].
    rewrite Hv. rewrite (proj2 (lookup_inserts obj_key seen ps _ k Hn) Hk).
    apply bool_decide_eq_false in Eb. unfold view. rewrite lookup_fmap. cbn [values increment_epoch].
    destruct (values (store st) !! k) as [c|] eqn:Ec; [|done]. exfalso. apply Eb, Hks. split; [|done].
    apply list_elem_of_fmap. exists (k, c). split; [done|]. by apply elem_of_map_to_list.
Qed.

(** *** Messages *)

Definition strip o : CObj := MkObject (obj_spec o) (obj_status o) (obj_key o) (MkContext item_default).

Lemma object_of_metadata o : key_ok o -> object_of (CC := CC) (metadata_of o) = Some (strip o).
Proof. intros Hk. unfold object_of. cbn [md_name metadata_of]. by rewrite key_parse_show by exact Hk. Qed.

Lemma convert_all_map {A B D} (f : A -> option B) (g : D -> A) (h : D -> B) (l : list D) :
  Forall (fun d => f (g d) = Some (h d)) l -> convert_all f (map g l) = Some (map h l).
Proof. induction 1 as [|d l Hd _ IH]; [done|]. cbn. by rewrite Hd, IH. Qed.

Lemma convert_all_app {A B} (f : A -> option B) l l' bs bs' :
  convert_all f l = Some bs -> convert_all f l' = Some bs' -> convert_all f (l ++ l') = Some (bs ++ bs').
Proof.
  revert bs. induction l as [|a l IH]; intros bs Hl Hl'; [by injection Hl as <-|]. cbn in Hl |- *.
  destruct (f a) as [b|]; [|done]. cbn in *. destruct (convert_all f l) as [bs1|]; [|done]. injection Hl as <-.
  by rewrite (IH bs1).
Qed.

(** The updates, then the deletes, at the client. *)
Lemma apply_update_parts ups dels M :
  foldl apply_update M (map (fun o => UpdateMod (strip o)) ups ++ map (fun o => UpdateDelete (obj_key o)) dels)
  = apply_parts obj_key seen ups dels M.
Proof.
  rewrite foldl_app. unfold apply_parts. set (M1 := foldl apply_update M _).
  replace M1 with (foldl (fun M v => <[obj_key v := seen v]> M) M ups).
  - clear M1. generalize (foldl (fun M v => <[obj_key v := seen v]> M) M ups). induction dels as [|o dels IH]; intros M1; [done|]. apply IH.
  - unfold M1. clear. revert M. induction ups as [|o ups IH]; intros M; [done|]. apply IH.
Qed.

(** The keys of the objects of the controller are valid. *)
Definition keys_ok (m : DualEpochMap K SObj) : Prop :=
  (forall k c, values m !! k = Some c -> key_ok (dual_inner c)) /\ Forall (fun c => key_ok (dual_inner c)) (deleted m).

Lemma keys_ok_closed : op_closed key_ok keys_ok.
Proof.
  split.
  - intros m o Ho [Hv Hd]. split; [|by rewrite deleted_update]. intros k c.
    rewrite update_eq. destruct (values m !! obj_key o) as [old|] eqn:Eo; cbn [snd]; cbv zeta.
    + destruct (has_no_changes (diff _ _)); [apply Hv|]. cbn [values set_values].
      intros [[_ <-]|[_ Hc]]%lookup_insert_Some; [exact Ho|by eapply Hv].
    + cbn [values set_values]. intros [[_ <-]|[_ Hc]]%lookup_insert_Some; [exact Ho|by eapply Hv].
  - intros m k [Hv Hd]. unfold dm_remove. destruct (values m !! k) as [old|] eqn:Eo; [|done]. cbn [snd]. split.
    + intros k' c; cbn [values]; intros [_ Hc]%lookup_delete_Some. by eapply Hv.
    + apply Forall_app. split; [done|]. constructor; [|done]. by eapply (Hv k old).
Qed.

Lemma clone_values_spec (m : DualEpochMap K SObj) o :
  o ∈ clone_values m <-> exists k c, values m !! k = Some c /\ o = dual_inner c.
Proof.
  unfold clone_values. rewrite list_elem_of_fmap. split.
  - intros ([k c] & -> & Hc). apply elem_of_map_to_list in Hc. by exists k, c.
  - intros (k & c & Hc & ->). exists (k, c). by rewrite elem_of_map_to_list.
Qed.

Lemma clone_values_nodup (m : DualEpochMap K SObj) : dm_ok obj_key m -> NoDup (map obj_key (clone_values m)).
Proof.
  intros Hok. assert (map obj_key (clone_values m) = (map_to_list (values m)).*1) as ->; [|apply NoDup_fst_map_to_list].
  unfold clone_values. rewrite map_map. apply list_fmap_ext. intros i [k c] Hi.
  apply list_elem_of_lookup_2, elem_of_map_to_list in Hi. by apply (ok_keyed _ _ Hok).
Qed.

(** *** Delivery *)

Definition watch_inv (w : Watch K S St C CC) : Prop :=
  dm_ok obj_key (store (w_store w)) /\ keys_ok (store (w_store w)) /\
  dm_ok obj_key (store (w_client w)) /\ plain_map (store (w_client w)) /\
  tracks obj_key seen FULL_FILTER (store (w_store w)) (last_change (w_listener w)) (seen_objects (w_client w)).

(** What a turn of the watch achieves: the client is up to date, but for
    objects deleted since the last turn. *)
Definition delivered (w w' : Watch K S St C CC) : Prop :=
  w_store w' = w_store w /\ last_change (w_listener w') = epoch (store (w_store w)) /\
  dm_ok obj_key (store (w_client w')) /\ plain_map (store (w_client w')) /\
  match delta_changes (fst (sync_changes (w_listener w) (w_store w))) with
  | SyncAll all => seen_objects (w_client w') = if is_nil all then seen_objects (w_client w) else seen_objects (w_store w)
  | Changes updates deletes =>
      forall k, seen_objects (w_client w') !! k =
        if bool_decide (k ∈ map obj_key deletes) then None else seen_objects (w_store w) !! k
  end.

Definition short_message (w : Watch K S St C CC) : Prop :=
  zlen (mu_changes (fst (sync_and_send_changes id false (w_listener w) (w_store w)))) < 2 ^ 31.

Lemma deliver_full w :
  watch_inv w -> epoch (store (w_client w)) < 2 ^ 63 - 1 -> short_message w ->
  last_change (w_listener w) < counter_epoch (dm_fence (store (w_store w))) -> delivered w (watch_deliver id false w).
Proof.
  intros (Hok & Hkeys & Hcok & Hplain & Htr) Hce Hlen Hf. unfold delivered.
  unfold watch_deliver, sync_and_send_changes, sync_changes, sync_changes_with_filter in *. cbn [fst].
  set (m := store (w_store w)) in *. set (e := last_change (w_listener w)) in *.
  unfold changes_since_with_filter in *. rewrite (proj2 (Z.ltb_lt _ _) Hf) in *.
  cbn [is_sync_all delta_changes changes_parts changes_epoch fst] in *. unfold sync_metadata. cbn [mu_all with_all mu_changes].
  destruct (clone_values m) as [|o0 l0] eqn:Ecl; [by cbn|]. rewrite <-Ecl.
  replace (is_nil (map (fun u => metadata_of u) (clone_values m))) with false by (by rewrite Ecl).
  assert (Forall key_ok (clone_values m)) as Hvalid.
  { apply Forall_forall. intros o (k & c & Hc & ->)%clone_values_spec. by eapply Hkeys. }
  cbn [negb]. rewrite (convert_all_map object_of metadata_of strip)
    by (eapply Forall_impl; [exact Hvalid|]; intros o; apply object_of_metadata).
  assert (map obj_key (map strip (clone_values m)) = map obj_key (clone_values m)) as Ekeys by (by rewrite map_map).
  destruct (client_sync_all (map strip (clone_values m)) (w_client w)) as (Hin & Hout & Hp' & Hok'); try done.
  { apply Forall_fmap, Forall_true. done. }
  { rewrite Ekeys. by apply clone_values_nodup. }
  destruct (sync_all _ (w_client w)) as [s' st']. cbn [snd w_store w_client w_listener last_change] in *.
  split_and!; try done. rewrite Ecl. cbn [is_nil]. apply map_eq. intros k. unfold seen_objects at 2, view. fold m.
  rewrite lookup_fmap. destruct (values m !! k) as [c|] eqn:Ec; cbn.
  + assert (dual_inner c ∈ clone_values m) as Hcin by (apply clone_values_spec; by exists k, c).
    pose proof (ok_keyed _ _ Hok _ _ Ec) as Hkc.
    rewrite <-Hkc. apply (Hin (strip (dual_inner c))). apply list_elem_of_fmap. by exists (dual_inner c).
  + apply Hout. rewrite Ekeys. intros (o & -> & (k' & c & Hc & ->)%clone_values_spec)%list_elem_of_fmap.
    rewrite (ok_keyed _ _ Hok _ _ Hc) in Ec. congruence.
Qed.

Lemma deliver_none w :
  watch_inv w -> epoch (store (w_client w)) < 2 ^ 63 - 1 -> short_message w ->
  counter_epoch (dm_fence (store (w_store w))) <= last_change (w_listener w) ->
  last_change (w_listener w) = epoch (store (w_store w)) -> delivered w (watch_deliver id false w).
Proof.
  intros (Hok & Hkeys & Hcok & Hplain & Htr) Hce Hlen Hf Ee. unfold delivered.
  unfold watch_deliver, sync_and_send_changes, sync_changes, sync_changes_with_filter in *. cbn [fst].
  set (m := store (w_store w)) in *. set (e := last_change (w_listener w)) in *.
  unfold changes_since_with_filter in *. rewrite (proj2 (Z.ltb_ge _ _) Hf), (proj2 (Z.eqb_eq _ _) Ee) in *.
  cbn. split_and!; try done. intros k. pose proof (tracks_current obj_key seen FULL_FILTER m (seen_objects (w_client w))) as Ht.
  rewrite <-Ee in Ht. by rewrite (Ht Hok Htr).
Qed.

Lemma deliver_delta w :
  watch_inv w -> epoch (store (w_client w)) < 2 ^ 63 - 1 -> short_message w ->
  counter_epoch (dm_fence (store (w_store w))) <= last_change (w_listener w) ->
  last_change (w_listener w) <> epoch (store (w_store w)) -> delivered w (watch_deliver id false w).
Proof.
  intros (Hok & Hkeys & Hcok & Hplain & Htr) Hce Hlen0 Hf Hne. pose proof Hlen0 as Hlen. unfold delivered, short_message in *.
  unfold watch_deliver, sync_and_send_changes, sync_changes, sync_changes_with_filter in *. cbn [fst].
  set (m := store (w_store w)) in *. set (e := last_change (w_listener w)) in *.
  unfold changes_since_with_filter in *. rewrite (proj2 (Z.ltb_ge _ _) Hf), (proj2 (Z.eqb_neq _ _) Hne) in *.
cbn [is_sync_all delta_changes changes_parts changes_epoch fst] in *.
  pose proof (fun k => changes_catch_up obj_key seen FULL_FILTER m e (seen_objects (w_client w)) k Hok Htr Hf) as Hcatch.
  cbv zeta in Hcatch. fold (changed_values FULL_FILTER m e) in *. set (ups := changed_values FULL_FILTER m e) in *.
  set (dels := map dual_inner (List.filter (changed_since FULL_FILTER e) (deleted m))) in *.
  assert (Forall key_ok ups /\ Forall key_ok dels) as [Hku Hkd].
  { split; apply Forall_forall.
    - intros o (k & c & Hc & _ & ->)%changed_values_spec. by eapply Hkeys.
    - intros o (c & -> & Hc)%list_elem_of_fmap. apply list_elem_of_In, List.filter_In in Hc as [Hc _].
      apply list_elem_of_In in Hc. by apply (proj1 (Forall_forall _ _) (proj2 Hkeys)) in Hc. }
  unfold sync_metadata. cbn [mu_all mu_changes with_changes is_nil negb] in *.
  set (msgs := map _ ups ++ map _ dels) in *.
  assert (convert_all (fun msg => obj ← object_of (CC := CC) (content msg); Some (msg_header msg, obj)) msgs
    = Some (map (fun o => (UPDATE, strip o)) ups ++ map (fun o => (DELETE, strip o)) dels)) as Econv.
  { apply convert_all_app; apply convert_all_map; (eapply Forall_impl; [eassumption|]); intros o Ho; cbn;
      by rewrite object_of_metadata. }
  rewrite Econv.
  assert (map ls_update (map (fun o => (UPDATE, strip o)) ups ++ map (fun o => (DELETE, strip o)) dels)
    = map (fun o => UpdateMod (strip o)) ups ++ map (fun o => UpdateDelete (obj_key o)) dels) as ->
    by (by rewrite map_app, !map_map).
  destruct (client_apply (map (fun o => UpdateMod (strip o)) ups ++ map (fun o => UpdateDelete (obj_key o)) dels) (w_client w))
    as (Hv & Hp' & Hok'); try done.
  { apply Forall_app. split; apply Forall_fmap, Forall_true; done. }
  { unfold msgs, zlen in *. rewrite length_app, !length_map in *. exact Hlen. }
  destruct (is_nil msgs) eqn:Enil; cbn [negb].
  * assert (ups = [] /\ dels = []) as [Eu Ed].
    { unfold msgs in Enil. destruct ups; [|done]. by destruct dels. }
    cbn [w_store w_client w_listener last_change]. split_and!; try done. intros k. rewrite <-Hcatch, Eu, Ed. done.
  * destruct (apply_changes _ (w_client w)) as [s' st']. cbn [snd w_store w_client w_listener last_change] in *.
    split_and!; try done. intros k. rewrite Hv, apply_update_parts. apply Hcatch.
Qed.

Lemma deliver_spec w :
  watch_inv w -> epoch (store (w_client w)) < 2 ^ 63 - 1 -> short_message w -> delivered w (watch_deliver id false w).
Proof.
  intros Hi He Hs. destruct (Z.lt_ge_cases (last_change (w_listener w)) (counter_epoch (dm_fence (store (w_store w)))));
    [by apply deliver_full|].
  destruct (decide (last_change (w_listener w) = epoch (store (w_store w)))); [by apply deliver_none|by apply deliver_delta].
Qed.

(** *** Every turn *)

Lemma keys_ok_sync_all objs (m : DualEpochMap K SObj) s (m' : DualEpochMap K SObj) :
  Forall key_ok objs -> keys_ok m -> sync_all_locked objs m = (s, m') -> keys_ok m'.
Proof.
  intros Hq Hk E. unfold sync_all_locked in E.
  pose proof (sync_incoming_closed _ _ no_counts (increment_epoch m) (clone_keys m) objs keys_ok_closed Hq Hk) as H1.
  destruct (foldl sync_incoming _ _) as [[s1 m1] ks]. cbn in H1.
  pose proof (sync_delete_closed _ _ s1 m1 ks keys_ok_closed H1) as [H2 _].
  destruct (foldl sync_delete _ _) as [s2 m2]. injection E as <- <-. split; [exact H2|constructor].
Qed.

Lemma keys_ok_apply_changes cs (m : DualEpochMap K SObj) r (m' : DualEpochMap K SObj) :
  Forall (change_in key_ok) cs -> keys_ok m -> apply_changes_locked cs m = (r, m') -> keys_ok m'.
Proof.
  intros Hq Hk E. unfold apply_changes_locked in E.
  pose proof (apply_change_closed _ _ no_counts (increment_epoch m) cs keys_ok_closed Hq Hk) as H1.
  destruct (foldl apply_change _ _) as [s2 m2]. destruct (no_counted s2); injection E as _ <-; exact H1.
Qed.

Lemma full_filter_diff (old new : SObj) :
  has_no_changes (diff old new) = false -> filter_hits FULL_FILTER (diff old new) = false -> seen new = seen old.
Proof. unfold has_no_changes, filter_hits. by destruct (diff old new) as [[] [] []]. Qed.

Lemma watch_step_inv w w' :
  watch_inv w -> watch_step w w' -> watch_inv w'.
Proof.
  intros Hinv. pose proof Hinv as (Hok & Hkeys & Hcok & Hplain & Htr). destruct 1 as [objs Hq He|cs Hq He Hlen|Hd He Hlen].
  - unfold sync_all. destruct (sync_all_locked objs _) as [s m'] eqn:E. cbn [snd].
    destruct (sync_all_ok _ _ _ _ Hok He E) as (Hok' & _). split; [exact Hok'|]. split; [by eapply keys_ok_sync_all|].
    split; [done|]. split; [done|]. by apply (tracks_sync_all seen FULL_FILTER objs (store (w_store w)) s m').
  - unfold apply_changes. destruct (apply_changes_locked cs _) as [r m'] eqn:E.
    pose proof (apply_changes_ok _ _ _ _ Hok He Hlen E) as Hr.
    assert (dm_ok obj_key m') as Hok' by (destruct r; [by destruct Hr as [? _]|by subst m']).
    assert (keys_ok m') as Hk' by (by eapply keys_ok_apply_changes).
    assert (tracks obj_key seen FULL_FILTER m' (last_change (w_listener w)) (seen_objects (w_client w))) as Ht'.
    { eapply tracks_apply_changes; [..|exact E|exact Htr]; try done. apply full_filter_diff. }
    destruct r; by split_and!.
  - destruct (deliver_spec w Hinv He Hlen) as (Es & El & Hok' & Hp' & Hview). split_and!; rewrite ?Es; try done.
    rewrite El. unfold deliverable in Hd.
    assert (seen_objects (w_client (watch_deliver id false w)) = seen_objects (w_store w)) as ->; [|apply tracks_view].
    destruct (delta_changes _) as [all|ups dels]; [by destruct all|]. apply map_eq. intros k. rewrite Hview.
    case_bool_decide as Hk; [|done]. apply list_elem_of_fmap in Hk as (o & -> & Ho).
    unfold seen_objects, view. by rewrite lookup_fmap, (Hd o Ho).
Qed.

Lemma watch_reach_inv w : watch_reach w -> watch_inv w.
Proof.
  induction 1 as [|w w' _ IH Hs]; [|by eapply watch_step_inv].
  split; [apply dm_ok_new|]. split; [split; [done|constructor]|]. split; [apply dm_ok_new|]. split; [done|].
  exact (tracks_view obj_key seen FULL_FILTER (new_with_map ∅)).
Qed.
End laws.

(** ** Claims *)

(** C10: a watched store is followed: whatever the order of the changes at the
    controller and the turns of the watch, a turn leaves the client with
    exactly the keys, specs and statuses of the controller's store, unless an
    object that was deleted since the last turn is there again or the full
    update is empty. *)
Theorem watch_converges {K : Type} `{Countable K} `{!IndexKey K} `{!IndexKeyOK K} {S St : Type}
    `{!EqDecision S} `{!EqDecision St} {C CC : Type} `{!MetadataItem C} `{!MetadataItem CC}
    (w : Watch K S St C CC) :
  item_is_newer (C := CC) item_default item_default = false ->
  watch_reach w -> deliverable w -> epoch (store (w_client w)) < 2 ^ 63 - 1 -> short_message w ->
  seen_objects (w_client (watch_deliver id false w)) = seen_objects (w_store w).
Proof.
  intros Hn Hr Hd He Hs. pose proof (watch_reach_inv Hn w Hr) as Hinv.
  destruct (deliver_spec Hn w Hinv He Hs) as (_ & _ & _ & _ & Hview).
  unfold deliverable in Hd. destruct (delta_changes _) as [all|ups dels]; [by destruct all|].
  apply map_eq. intros k. rewrite Hview. case_bool_decide as Hk; [|done].
  apply list_elem_of_fmap in Hk as (o & -> & Ho). unfold seen_objects, view. by rewrite lookup_fmap, (Hd o Ho).
Qed.

(** The examples: objects with a number as spec and as status. *)
#[local] Instance example_item : MetadataItem Z := u32_item.
Definition example_object (k : string) (spec : Z) (rev : Z) : MetadataStoreObject string Z Z Z :=
  MkObject spec 0 k (MkContext rev).
Definition example_watch : Watch string Z Z Z Z :=
  let st := snd (sync_all [example_object "a" 1 1; example_object "b" 1 1] store_default) in
  let w := watch_deliver id false (MkWatch st listener_new store_default) in
  MkWatch (snd (apply_changes [UpdateMod (example_object "a" 2 2); UpdateDelete "b"] (w_store w))) (w_listener w) (w_client w).

Lemma example_watch_reach : watch_reach example_watch.
Proof.
  eapply watch_more; [eapply watch_more; [eapply watch_more; [apply watch_start|]|]|].
  - apply (step_sync_all _ [example_object "a" 1 1; example_object "b" 1 1]); [repeat constructor|done].
  - apply step_deliver; [|reflexivity..]. unfold deliverable. by vm_compute.
  - apply (step_apply _ [UpdateMod (example_object "a" 2 2); UpdateDelete "b"]); [repeat constructor|reflexivity..].
Qed.

Lemma watch_converges_witness :
  watch_reach example_watch /\
  seen_objects (w_client (watch_deliver id false example_watch)) = seen_objects (w_store example_watch) /\
  seen_objects (w_store example_watch) = {["a"%string := (2, 0)]}.
Proof.
  split; [apply example_watch_reach|]. split.
  - apply (watch_converges example_watch); [reflexivity|apply example_watch_reach| |reflexivity|reflexivity].
    unfold deliverable. set (d := delta_changes _). vm_compute in d. subst d. cbv beta iota.
    intros o Ho%list_elem_of_In. destruct Ho as [<-|[]]. reflexivity.
  - reflexivity.
Defined.

(** The deletes of a message come after its updates, so an object that
    was deleted since the last turn and is there again is missing at the
    client after the turn, and the listener counts the change as seen. *)
Theorem recreated_object_lost {K : Type} `{Countable K} `{!IndexKey K} `{!IndexKeyOK K} {S St : Type}
    `{!EqDecision S} `{!EqDecision St} {C CC : Type} `{!MetadataItem C} `{!MetadataItem CC}
    (w : Watch K S St C CC) (o : MetadataStoreObject K S St C) (updates deletes : list (MetadataStoreObject K S St C)) :
  item_is_newer (C := CC) item_default item_default = false ->
  watch_reach w -> epoch (store (w_client w)) < 2 ^ 63 - 1 -> short_message w ->
  delta_changes (fst (sync_changes (w_listener w) (w_store w))) = Changes updates deletes -> o ∈ deletes ->
  let w' := watch_deliver id false w in
  seen_objects (w_client w') !! obj_key o = None /\ w_store w' = w_store w /\
  last_change (w_listener w') = epoch (store (w_store w')).
Proof.
  intros Hn Hr He Hs Hc Ho. cbv zeta. pose proof (watch_reach_inv Hn w Hr) as Hinv.
  destruct (deliver_spec Hn w Hinv He Hs) as (Es & El & _ & _ & Hview). rewrite Hc in Hview.
  split; [|by rewrite Es]. rewrite Hview, bool_decide_true; [done|]. apply list_elem_of_fmap. by exists o.
Qed.

(** The object "b" is deleted and created again between two turns. *)
Definition example_recreated : Watch string Z Z Z Z :=
  MkWatch (snd (apply_changes [UpdateMod (example_object "b" 7 3)] (w_store example_watch)))
    (w_listener example_watch) (w_client example_watch).
Lemma example_recreated_reach : watch_reach example_recreated.
Proof.
  eapply watch_more; [apply example_watch_reach|].
  apply (step_apply _ [UpdateMod (example_object "b" 7 3)]); [repeat constructor|reflexivity..].
Qed.

Lemma recreated_object_lost_witness :
  seen_objects (w_store example_recreated) !! "b"%string = Some (7, 0) /\
  seen_objects (w_client (watch_deliver id false example_recreated)) !! "b"%string = None /\
  seen_objects (w_client (watch_deliver id false (watch_deliver id false example_recreated))) !! "b"%string = None.
Proof.
  split; [reflexivity|]. split; [|reflexivity].
  pose (changes := delta_changes (fst (sync_changes (w_listener example_recreated) (w_store example_recreated)))).
  assert (changes = Changes [example_object "a" 2 2; example_object "b" 7 3] [example_object "b" 1 1]) as E by reflexivity.
  edestruct (recreated_object_lost example_recreated (example_object "b" 1 1)) as [Hb _]; [..|exact Hb];
    [reflexivity|apply example_recreated_reach|reflexivity|reflexivity|exact E|apply list_elem_of_In; by left].
Defined.

(** A full update without objects changes nothing at the client: it looks
    like an update without changes. *)
Theorem empty_sync_ignored {K : Type} `{Countable K} `{!IndexKey K} {S St : Type}
    `{!EqDecision S} `{!EqDecision St} {CC : Type} `{!MetadataItem CC} (e : Z) (st : LocalStore K S St CC) :
  sync_metadata (with_all e []) st = (Ok tt, st).
Proof. done. Qed.
