(* ===== verification/ClusterTypes.v ===== *)
(** * Objects of the control plane

    The specs and statuses of SPUs, topics and partitions that the controller
    keeps, and the replica it sends to the SPUs, from
    [fluvio-controlplane-metadata] and [fluvio-controlplane/src/replica.rs]. *)

From S2P Require Import Prelude Scalars StorageIndex Names MetadataStore.
From stdpp Require Import gmap strings list.

#[local] Open Scope Z_scope.

(** ** Storage settings of a topic *)

(* src/crates/fluvio-controlplane-metadata/src/topic/spec.rs:969-971 SegmentBasedPolicy *)
Record SegmentBasedPolicy := MkSegmentBasedPolicy { time_in_seconds : Z }.
(* src/crates/fluvio-controlplane-metadata/src/topic/spec.rs:943-947 CleanupPolicy *)
Inductive CleanupPolicy := PolicySegment (policy : SegmentBasedPolicy).
(* src/crates/fluvio-controlplane-metadata/src/topic/spec.rs:956-960 CleanupPolicy::retention_secs *)
Definition retention_secs (self : CleanupPolicy) : Z :=
  match self with PolicySegment policy => time_in_seconds policy end.
(* src/crates/fluvio-controlplane-metadata/src/topic/spec.rs:985-988 TopicStorageConfig *)
Record TopicStorageConfig := MkTopicStorageConfig {
  segment_size : option Z;
  storage_max_partition_size : option Z;
}.
(* src/crates/fluvio-controlplane-metadata/src/topic/spec.rs:996-1010 CompressionAlgorithm *)
Inductive CompressionAlgorithm := AlgNone | AlgGzip | AlgSnappy | AlgLz4 | AlgAny | AlgZstd.

(* src/crates/fluvio-controlplane-metadata/src/topic/deduplication.rs:58-65 Transform *)
Record Transform := MkTransform { uses : string; transform_with : gmap string string }.
(* src/crates/fluvio-controlplane-metadata/src/topic/deduplication.rs:47-49 Filter *)
Record Filter := MkFilter { transform : Transform }.
(* src/crates/fluvio-controlplane-metadata/src/topic/deduplication.rs:25-38 Bounds *)
Record Bounds := MkBounds { bounds_count : Z; bounds_age : option Duration }.
(* src/crates/fluvio-controlplane-metadata/src/topic/deduplication.rs:13-16 Deduplication *)
Record Deduplication := MkDeduplication { dedup_bounds : Bounds; dedup_filter : Filter }.

(** ** Mirrors *)

(* src/crates/fluvio-controlplane-metadata/src/partition/spec.rs:208-218 HomePartitionConfig *)
Record HomePartitionConfig := MkHomePartitionConfig {
  remote_cluster : string;
  remote_replica : string;
  hp_source : bool;
}.
(* src/crates/fluvio-controlplane-metadata/src/partition/spec.rs:233-245 RemotePartitionConfig *)
Record RemotePartitionConfig := MkRemotePartitionConfig {
  rp_home_cluster : string;
  home_spu_key : string;
  home_spu_id : Z;
  home_spu_endpoint : string;
  rp_target : bool;
}.
(* src/crates/fluvio-controlplane-metadata/src/partition/spec.rs:128-133 PartitionMirrorConfig *)
Inductive PartitionMirrorConfig :=
| MirrorRemote (config : RemotePartitionConfig)
| MirrorHome (config : HomePartitionConfig).

(** Why a mirrored partition refuses records. *)
Inductive MirrorRefusal := MirrorProduceFromRemoteNotAllowed | MirrorProduceFromHome.
(* src/crates/fluvio-controlplane-metadata/src/partition/spec.rs:172-189 PartitionMirrorConfig::accept_traffic *)
Definition accept_traffic (self : PartitionMirrorConfig) : option MirrorRefusal :=
  match self with
  | MirrorRemote r => if rp_target r then Some MirrorProduceFromRemoteNotAllowed else None
  | MirrorHome h => if hp_source h then None else Some MirrorProduceFromHome
  end.

(** ** SPUs *)

(* src/crates/fluvio-controlplane-metadata/src/spu/spec.rs:337-343 EncryptionEnum *)
Inductive EncryptionEnum := PLAINTEXT | SSL.
(* src/crates/fluvio-controlplane-metadata/src/spu/spec.rs:348-354 SpuType *)
Inductive SpuType := Managed | Custom.
(* src/crates/fluvio-controlplane-metadata/src/spu/spec.rs:240-243 IngressAddr *)
Record IngressAddr := MkIngressAddr { hostname : option string; ip : option string }.
(* src/crates/fluvio-controlplane-metadata/src/spu/spec.rs:260-262 IngressAddr::host *)
Definition ingress_host (self : IngressAddr) : option string :=
  match hostname self with Some h => Some h | None => ip self end.
(* src/crates/fluvio-controlplane-metadata/src/spu/spec.rs:182-186 IngressPort *)
Record IngressPort := MkIngressPort { ingress_port : Z; ingress : list IngressAddr; ingress_encryption : EncryptionEnum }.
(* src/crates/fluvio-controlplane-metadata/src/spu/spec.rs:271-275 Endpoint *)
Record Endpoint := MkEndpoint { endpoint_port : Z; endpoint_host : string; endpoint_encryption : EncryptionEnum }.
(* src/crates/fluvio-controlplane-metadata/src/spu/spec.rs:316-322 Endpoint::default *)
Definition endpoint_default : Endpoint := MkEndpoint 0 "127.0.0.1" PLAINTEXT.
(* src/crates/fluvio-controlplane-metadata/src/spu/spec.rs:28-41 SpuSpec *)
Record SpuSpec := MkSpuSpec {
  spu_id : Z;
  spu_type : SpuType;
  public_endpoint : IngressPort;
  private_endpoint : Endpoint;
  rack : option string;
  public_endpoint_local : option Endpoint;
}.
(* src/crates/fluvio-controlplane-metadata/src/spu/spec.rs:61-66 SpuSpec::new *)
Definition spu_spec_new (id : Z) : SpuSpec :=
  MkSpuSpec id Managed (MkIngressPort 0 [] PLAINTEXT) endpoint_default None None.
(** Each field is replaced when it differs. *)
(* src/crates/fluvio-controlplane-metadata/src/spu/spec.rs:113-123 SpuSpec::update *)
Definition spu_spec_update (other self : SpuSpec) : SpuSpec :=
  MkSpuSpec (spu_id self) (spu_type self) (public_endpoint other) (private_endpoint other) (rack other)
    (public_endpoint_local self).
(* src/crates/fluvio-controlplane-metadata/src/spu/spec.rs:134-142 CustomSpuSpec *)
Record CustomSpuSpec := MkCustomSpuSpec {
  custom_id : Z;
  custom_public_endpoint : IngressPort;
  custom_private_endpoint : Endpoint;
  custom_rack : option string;
  custom_public_endpoint_local : option Endpoint;
}.

(* src/crates/fluvio-controlplane-metadata/src/spu/status.rs:67-75 SpuStatusResolution *)
Inductive SpuStatusResolution := SpuOnline | SpuOffline | SpuInit.
(* src/crates/fluvio-controlplane-metadata/src/spu/status.rs:14-16 SpuStatus *)
Record SpuStatus := MkSpuStatus { spu_resolution : SpuStatusResolution }.
(* src/crates/fluvio-controlplane-metadata/src/spu/status.rs:41-43 SpuStatus::is_online *)
Definition spu_is_online (self : SpuStatus) : bool :=
  match spu_resolution self with SpuOnline => true | _ => false end.
(* src/crates/fluvio-controlplane-metadata/src/spu/status.rs:45-47 SpuStatus::is_offline *)
Definition spu_is_offline (self : SpuStatus) : bool :=
  match spu_resolution self with SpuOffline => true | _ => false end.
(* src/crates/fluvio-controlplane-metadata/src/spu/status.rs:49-51 SpuStatus::is_init *)
Definition spu_is_init (self : SpuStatus) : bool :=
  match spu_resolution self with SpuInit => true | _ => false end.
(* src/crates/fluvio-controlplane-metadata/src/spu/status.rs:54-56 SpuStatus::set_online *)
Definition set_online (self : SpuStatus) : SpuStatus := MkSpuStatus SpuOnline.
(* src/crates/fluvio-controlplane-metadata/src/spu/status.rs:59-61 SpuStatus::set_offline *)
Definition set_offline (self : SpuStatus) : SpuStatus := MkSpuStatus SpuOffline.

(** ** Partitions *)

(* src/crates/fluvio-controlplane-metadata/src/partition/spec.rs:17-36 PartitionSpec *)
Record PartitionSpec := MkPartitionSpec {
  ps_leader : Z;
  ps_replicas : list Z;
  ps_cleanup_policy : option CleanupPolicy;
  ps_storage : option TopicStorageConfig;
  ps_compression_type : CompressionAlgorithm;
  ps_deduplication : option Deduplication;
  ps_system : bool;
  ps_mirror : option PartitionMirrorConfig;
}.
(* src/crates/fluvio-controlplane-metadata/src/partition/spec.rs:39-45 PartitionSpec::new *)
Definition partition_spec_new (leader : Z) (replicas : list Z) : PartitionSpec :=
  MkPartitionSpec leader replicas None None AlgAny None false None.
(** The spec with another leader. *)
Definition with_leader (leader : Z) (self : PartitionSpec) : PartitionSpec :=
  MkPartitionSpec leader (ps_replicas self) (ps_cleanup_policy self) (ps_storage self) (ps_compression_type self)
    (ps_deduplication self) (ps_system self) (ps_mirror self).

(* src/crates/fluvio-controlplane-metadata/src/partition/status.rs:182-186 ReplicaStatus *)
Record ReplicaStatus := MkReplicaStatus { rs_spu : Z; rs_hw : Z; rs_leo : Z }.
(* src/crates/fluvio-controlplane-metadata/src/partition/status.rs:195-201 ReplicaStatus::default *)
Definition replica_status_default : ReplicaStatus := MkReplicaStatus (-1) (-1) (-1).
(* src/crates/fluvio-controlplane-metadata/src/partition/status.rs:162-174 PartitionResolution *)
Inductive PartitionResolution := ResOffline | ResOnline | ResLeaderOffline | ResElectionLeaderFound | ResOutOfStorage.
(* src/crates/fluvio-controlplane-metadata/src/partition/status.rs:26-44 PartitionStatus *)
Record PartitionStatus := MkPartitionStatus {
  pst_resolution : PartitionResolution;
  pst_leader : ReplicaStatus;
  pst_lsr : Z;
  pst_replicas : list ReplicaStatus;
  pst_size : Z;
  pst_is_being_deleted : bool;
  pst_base_offset : Z;
}.
(* src/crates/fluvio-controlplane-metadata/src/partition/status.rs:81-81 PartitionStatus::SIZE_NOT_SUPPORTED *)
Definition SIZE_NOT_SUPPORTED : Z := -2.
(* src/crates/fluvio-controlplane-metadata/src/partition/status.rs:47-57 PartitionStatus::default *)
Definition partition_status_default : PartitionStatus :=
  MkPartitionStatus ResOffline replica_status_default 0 [] SIZE_NOT_SUPPORTED false 0.
(* src/crates/fluvio-controlplane-metadata/src/partition/status.rs:96-111 PartitionStatus::new2 *)
Definition partition_status_new2 (leader : ReplicaStatus) (replicas : list ReplicaStatus) (size : Z)
    (resolution : PartitionResolution) (base_offset : Z) : PartitionStatus :=
  MkPartitionStatus resolution leader 0 replicas size false base_offset.
(* src/crates/fluvio-controlplane-metadata/src/partition/status.rs:113-115 PartitionStatus::is_online *)
Definition status_is_online (self : PartitionStatus) : bool :=
  match pst_resolution self with ResOnline => true | _ => false end.
(* src/crates/fluvio-controlplane-metadata/src/partition/status.rs:117-122 PartitionStatus::is_readable *)
Definition is_readable (self : PartitionStatus) : bool :=
  match pst_resolution self with ResOnline | ResOutOfStorage => true | _ => false end.
(* src/crates/fluvio-controlplane-metadata/src/partition/status.rs:141-143 PartitionStatus::live_replicas *)
Definition live_replicas (self : PartitionStatus) : list Z := map rs_spu (pst_replicas self).
(* src/crates/fluvio-controlplane-metadata/src/partition/status.rs:154-157 PartitionStatus::set_to_delete *)
Definition set_to_delete (self : PartitionStatus) : PartitionStatus :=
  MkPartitionStatus (pst_resolution self) (pst_leader self) (pst_lsr self) (pst_replicas self) (pst_size self) true
    (pst_base_offset self).
(** The status with another resolution. *)
Definition with_resolution (resolution : PartitionResolution) (self : PartitionStatus) : PartitionStatus :=
  MkPartitionStatus resolution (pst_leader self) (pst_lsr self) (pst_replicas self) (pst_size self)
    (pst_is_being_deleted self) (pst_base_offset self).

(** ** Replicas *)

(* src/crates/fluvio-controlplane/src/replica.rs:18-28 Replica *)
Record Replica := MkReplica {
  rep_id : ReplicaKey;
  rep_leader : Z;
  rep_replicas : list Z;
  rep_mirror : option PartitionMirrorConfig;
  rep_is_being_deleted : bool;
  rep_cleanup_policy : option CleanupPolicy;
  rep_storage : option TopicStorageConfig;
  rep_compression_type : CompressionAlgorithm;
  rep_deduplication : option Deduplication;
}.
(* src/crates/fluvio-controlplane/src/replica.rs:35-48 Replica::new_with_delete *)
Definition new_with_delete (id : ReplicaKey) (leader : Z) (replicas : list Z) (is_being_deleted : bool) : Replica :=
  MkReplica id leader replicas None is_being_deleted None None AlgAny None.
(* src/crates/fluvio-controlplane/src/replica.rs:31-33 Replica::new *)
Definition replica_new (id : ReplicaKey) (leader : Z) (replicas : list Z) : Replica :=
  new_with_delete id leader replicas false.
(* src/crates/fluvio-controlplane/src/replica.rs:55-73 Replica::from *)
Definition replica_from {C} `{MetadataItem C} (item : MetadataStoreObject ReplicaKey PartitionSpec PartitionStatus C) : Replica :=
  let is_being_deleted := pst_is_being_deleted (obj_status item) || item_is_being_deleted (ctx_item (obj_ctx item)) in
  let spec := obj_spec item in
  MkReplica (obj_key item) (ps_leader spec) (ps_replicas spec) (ps_mirror spec) is_being_deleted (ps_cleanup_policy spec)
    (ps_storage spec) (ps_compression_type spec) (ps_deduplication spec).

(* src/crates/fluvio-storage/src/config.rs:69-92 ReplicaConfig::update_from_replica *)
Definition update_from_replica (replica : Replica) (self : ReplicaConfig) : ReplicaConfig :=
  let seconds := match rep_cleanup_policy replica with
    | Some (PolicySegment policy) => time_in_seconds policy
    | None => retention_seconds self
    end in
  let segment := default (segment_max_bytes self) (storage ← rep_storage replica; segment_size storage) in
  let partition := default (max_partition_size self) (storage ← rep_storage replica; storage_max_partition_size storage) in
  MkReplicaConfig (base_dir self) (index_max_bytes self) (index_max_interval_bytes self) segment (flush_write_count self)
    (flush_idle_msec self) (max_batch_size self) (max_request_size self) (update_hw self) seconds partition.

(** ** Equality *)

#[export] Instance SegmentBasedPolicy_eq : EqDecision SegmentBasedPolicy. Proof. solve_decision. Defined.
#[export] Instance CleanupPolicy_eq : EqDecision CleanupPolicy. Proof. solve_decision. Defined.
#[export] Instance TopicStorageConfig_eq : EqDecision TopicStorageConfig. Proof. solve_decision. Defined.
#[export] Instance CompressionAlgorithm_eq : EqDecision CompressionAlgorithm. Proof. solve_decision. Defined.
#[export] Instance Transform_eq : EqDecision Transform. Proof. solve_decision. Defined.
#[export] Instance Filter_eq : EqDecision Filter. Proof. solve_decision. Defined.
#[export] Instance Duration_eq : EqDecision Duration. Proof. solve_decision. Defined.
#[export] Instance Bounds_eq : EqDecision Bounds. Proof. solve_decision. Defined.
#[export] Instance Deduplication_eq : EqDecision Deduplication. Proof. solve_decision. Defined.
#[export] Instance HomePartitionConfig_eq : EqDecision HomePartitionConfig. Proof. solve_decision. Defined.
#[export] Instance RemotePartitionConfig_eq : EqDecision RemotePartitionConfig. Proof. solve_decision. Defined.
#[export] Instance PartitionMirrorConfig_eq : EqDecision PartitionMirrorConfig. Proof. solve_decision. Defined.
#[export] Instance EncryptionEnum_eq : EqDecision EncryptionEnum. Proof. solve_decision. Defined.
#[export] Instance SpuType_eq : EqDecision SpuType. Proof. solve_decision. Defined.
#[export] Instance IngressAddr_eq : EqDecision IngressAddr. Proof. solve_decision. Defined.
#[export] Instance IngressPort_eq : EqDecision IngressPort. Proof. solve_decision. Defined.
#[export] Instance Endpoint_eq : EqDecision Endpoint. Proof. solve_decision. Defined.
#[export] Instance SpuSpec_eq : EqDecision SpuSpec. Proof. solve_decision. Defined.
#[export] Instance SpuStatusResolution_eq : EqDecision SpuStatusResolution. Proof. solve_decision. Defined.
#[export] Instance SpuStatus_eq : EqDecision SpuStatus. Proof. solve_decision. Defined.
#[export] Instance PartitionSpec_eq : EqDecision PartitionSpec. Proof. solve_decision. Defined.
#[export] Instance ReplicaStatus_eq : EqDecision ReplicaStatus. Proof. solve_decision. Defined.
#[export] Instance PartitionResolution_eq : EqDecision PartitionResolution. Proof. solve_decision. Defined.
#[export] Instance PartitionStatus_eq : EqDecision PartitionStatus. Proof. solve_decision. Defined.
#[export] Instance Replica_eq : EqDecision Replica. Proof. solve_decision. Defined.
