(* ===== verification/SpuStore.v ===== *)
(** * What the controller tells the SPUs

    The private server of the controller
    ([fluvio-sc/src/services/private_api/private_server.rs]) sends the changes
    of its stores to every SPU, and the SPU keeps them in the local stores of
    [fluvio-spu/src/core/store.rs], which answer with the actions to take. *)

From S2P Require Import Prelude Names EpochMap MetadataStore MetadataSync ClusterTypes.
From stdpp Require Import gmap strings list sorting.

#[local] Open Scope Z_scope.

(** ** Requests of the control plane *)

(* src/crates/fluvio-controlplane/src/requests/request.rs:8-12 ControlPlaneRequest *)
Record ControlPlaneRequest (S : Type) := MkRequest { req_epoch : Z; req_changes : list (Message S); req_all : list S }.
Arguments MkRequest {S}.
Arguments req_epoch {S}.
Arguments req_changes {S}.
Arguments req_all {S}.
(* src/crates/fluvio-controlplane/src/requests/request.rs:18-24 ControlPlaneRequest::with_changes *)
Definition req_with_changes {S} (epoch : Z) (changes : list (Message S)) : ControlPlaneRequest S := MkRequest epoch changes [].
(* src/crates/fluvio-controlplane/src/requests/request.rs:26-32 ControlPlaneRequest::with_all *)
Definition req_with_all {S} (epoch : Z) (all : list S) : ControlPlaneRequest S := MkRequest epoch [] all.

(** ** The local stores of an SPU *)

(* src/crates/fluvio-spu/src/core/store.rs:32-36 SpecChange *)
Inductive SpecChange (S : Type) := ChangeAdd (new : S) | ChangeMod (new old : S) | ChangeDelete (old : S).
Arguments ChangeAdd {S}.
Arguments ChangeMod {S}.
Arguments ChangeDelete {S}.

(** [trait Spec], with the order of the keys. *)
(* src/crates/fluvio-spu/src/core/store.rs:22-29 Spec *)
Class LocalSpec (S K : Type) := { spec_key : S -> K; key_le : K -> K -> Prop; key_le_dec :: RelDecision key_le }.

Section local_store.
Context {S K : Type} `{Countable K} `{!EqDecision S} `{!LocalSpec S K}.
Notation Store := (gmap K S).

(* src/crates/fluvio-spu/src/core/store.rs:99-101 LocalStore::insert *)
Definition ls_insert (spec : S) (self : Store) : option S * Store :=
  (self !! spec_key spec, <[spec_key spec := spec]> self).
(* src/crates/fluvio-spu/src/core/store.rs:103-105 LocalStore::delete *)
Definition ls_delete (id : K) (self : Store) : option S * Store := (self !! id, delete id self).
(* src/crates/fluvio-spu/src/core/store.rs:251-253 LocalStore::all_keys *)
Definition all_keys (self : Store) : list K := merge_sort key_le (map fst (map_to_list self)).

(** The turn of the loops for one object; [None] for an id that is not there. *)
Definition put_spec (st : list (SpecChange S) * Store) (new_spu : S) : list (SpecChange S) * Store :=
  let '(actions, self) := st in
  let '(old, self) := ls_insert new_spu self in
  (match old with
   | Some old_spu => if bool_decide (old_spu = new_spu) then actions else actions ++ [ChangeMod new_spu old_spu]
   | None => actions ++ [ChangeAdd new_spu]
   end, self).
Definition drop_spec (st : list (SpecChange S) * Store) (id : K) : list (SpecChange S) * Store :=
  let '(actions, self) := st in
  let '(old, self) := ls_delete id self in
  (match old with Some old_spu => actions ++ [ChangeDelete old_spu] | None => actions end, self).
(** The keys that are left: an id is only taken out when it was there. *)
Definition visit (st : list (SpecChange S) * Store * list K) (new_spu : S) : list (SpecChange S) * Store * list K :=
  let '(st, local_keys) := st in
  let seen := match snd st !! spec_key new_spu with Some _ => true | None => false end in
  (put_spec st new_spu,
   if seen then List.filter (fun s => negb (bool_decide (s = spec_key new_spu))) local_keys else local_keys).
(* src/crates/fluvio-spu/src/core/store.rs:143-193 LocalStore::sync_all *)
Definition ls_sync_all (source_specs : list S) (self : Store) : list (SpecChange S) * Store :=
  let '(st, local_keys) := foldl visit ([], self, all_keys self) source_specs in
  foldl drop_spec st local_keys.
Definition change_spec (st : list (SpecChange S) * Store) (change : Message S) : list (SpecChange S) * Store :=
  match msg_header change with
  | UPDATE => put_spec st (content change)
  | DELETE => drop_spec st (spec_key (content change))
  end.
(* src/crates/fluvio-spu/src/core/store.rs:197-245 LocalStore::apply_changes *)
Definition ls_apply_changes (changes : list (Message S)) (self : Store) : list (SpecChange S) * Store :=
  foldl change_spec ([], self) changes.
(* src/crates/fluvio-spu/src/core/store.rs:130-138 LocalStore::apply *)
Definition ls_apply (all : list S) (changes : list (Message S)) (self : Store) : list (SpecChange S) * Store :=
  if negb (is_nil all) then ls_sync_all all self else ls_apply_changes changes self.

(** *** The actions account for the store *)

(** [runs m acts m']: the actions lead from [m] to [m'], each one changing
    something. *)
Inductive runs : Store -> list (SpecChange S) -> Store -> Prop :=
| runs_nil m : runs m [] m
| runs_add m s acts m' :
    m !! spec_key s = None -> runs (<[spec_key s := s]> m) acts m' -> runs m (ChangeAdd s :: acts) m'
| runs_mod m s o acts m' :
    m !! spec_key s = Some o -> o <> s -> runs (<[spec_key s := s]> m) acts m' -> runs m (ChangeMod s o :: acts) m'
| runs_delete m k o acts m' :
    m !! k = Some o -> runs (delete k m) acts m' -> runs m (ChangeDelete o :: acts) m'.

Lemma runs_app m1 a1 m2 a2 m3 : runs m1 a1 m2 -> runs m2 a2 m3 -> runs m1 (a1 ++ a2) m3.
Proof. induction 1; [done|intros; cbn; econstructor; by eauto..]. Qed.

Lemma put_spec_runs m0 acts m s acts' m' :
  runs m0 acts m -> put_spec (acts, m) s = (acts', m') -> runs m0 acts' m' /\ m' = <[spec_key s := s]> m.
Proof.
  intros Hr. unfold put_spec, ls_insert. destruct (m !! spec_key s) as [o|] eqn:Eo.
  - case_bool_decide as Hd; intros [= <- <-].
    + subst o. split; [|done]. by rewrite insert_id.
    + split; [|done]. eapply runs_app; [exact Hr|]. by repeat econstructor.
  - intros [= <- <-]. split; [|done]. eapply runs_app; [exact Hr|]. by repeat econstructor.
Qed.

Lemma drop_spec_runs m0 acts m k acts' m' :
  runs m0 acts m -> drop_spec (acts, m) k = (acts', m') -> runs m0 acts' m' /\ m' = delete k m.
Proof.
  intros Hr. unfold drop_spec, ls_delete. destruct (m !! k) as [o|] eqn:Eo; intros [= <- <-]; (split; [|done]).
  - eapply runs_app; [exact Hr|]. by repeat econstructor.
  - by rewrite delete_id.
Qed.

Definition change_store (m : Store) (change : Message S) : Store :=
  match msg_header change with
  | UPDATE => <[spec_key (content change) := content change]> m
  | DELETE => delete (spec_key (content change)) m
  end.

Lemma changes_runs changes m0 acts m acts' m' :
  runs m0 acts m -> foldl change_spec (acts, m) changes = (acts', m') ->
  runs m0 acts' m' /\ m' = foldl change_store m changes.
Proof.
  revert acts m. induction changes as [|c changes IH]; intros acts m Hr E; [by injection E as <- <-|].
  cbn [foldl] in *. destruct (change_spec (acts, m) c) as [acts1 m1] eqn:Ec.
  assert (runs m0 acts1 m1 /\ m1 = change_store m c) as [Hr' ->]; [|by apply IH in E].
  unfold change_spec, change_store in *. destruct (msg_header c); [by eapply put_spec_runs|by eapply drop_spec_runs].
Qed.

Lemma apply_changes_runs changes m acts m' :
  ls_apply_changes changes m = (acts, m') -> runs m acts m' /\ m' = foldl change_store m changes.
Proof. apply changes_runs. constructor. Qed.

Lemma all_keys_spec m k : k ∈ all_keys m <-> is_Some (m !! k).
Proof.
  unfold all_keys. rewrite (merge_sort_Permutation key_le), list_elem_of_fmap. split.
  - intros ([k' s] & -> & Hs%elem_of_map_to_list). by exists s.
  - intros [s Hs]. exists (k, s). by rewrite elem_of_map_to_list.
Qed.

Lemma visit_runs source m0 acts m keys acts' m' keys' :
  runs m0 acts m -> (forall k, k ∈ keys -> is_Some (m0 !! k)) ->
  (forall k, is_Some (m0 !! k) -> is_Some (m !! k)) ->
  foldl visit (acts, m, keys) source = (acts', m', keys') ->
  runs m0 acts' m' /\ m' = foldl (fun m s => <[spec_key s := s]> m) m source /\
  (forall k, k ∈ keys' <-> k ∈ keys /\ k ∉ map spec_key source).
Proof.
  revert acts m keys. induction source as [|s source IH]; intros acts m keys Hr Hk Hm; cbn [foldl visit map].
  - intros [= <- <- <-]. split; [done|]. split; [done|]. intros k. split; [|by intros [? _]]. intros ?. split; [done|].
    apply not_elem_of_nil.
  - destruct (put_spec (acts, m) s) as [acts1 m1] eqn:Ep. destruct (put_spec_runs _ _ _ _ _ _ Hr Ep) as [Hr1 ->].
    cbn [snd]. intros E.
    assert (forall k, k ∈ (if match m !! spec_key s with Some _ => true | None => false end
        then List.filter (fun k => negb (bool_decide (k = spec_key s))) keys else keys)
      <-> k ∈ keys /\ k <> spec_key s) as Hf.
    { intros k. destruct (m !! spec_key s) eqn:Es.
      - by rewrite !list_elem_of_In, List.filter_In, <-!list_elem_of_In, negb_true_iff, bool_decide_eq_false.
      - split; [|by intros [? _]]. intros Hin. split; [done|]. intros ->. destruct (Hm _ (Hk _ Hin)). congruence. }
    apply IH in E as (H1 & H2 & H3); [split; [done|]; split; [done|]|done|..].
    + intros k. rewrite H3, Hf, not_elem_of_cons. tauto.
    + intros k Hin. apply Hf in Hin as [Hin _]. by apply Hk.
    + intros k Hs. destruct (decide (k = spec_key s)) as [->|Hne]; [by rewrite lookup_insert_eq|].
      rewrite lookup_insert_ne by done. by apply Hm.
Qed.

Lemma drops_runs m0 acts m keys acts' m' :
  runs m0 acts m -> foldl drop_spec (acts, m) keys = (acts', m') ->
  runs m0 acts' m' /\ (forall k, m' !! k = if bool_decide (k ∈ keys) then None else m !! k).
Proof.
  revert acts m. induction keys as [|k0 keys IH]; intros acts m Hr; cbn [foldl].
  - by intros [= <- <-].
  - destruct (drop_spec (acts, m) k0) as [acts1 m1] eqn:Ed. destruct (drop_spec_runs _ _ _ _ _ _ Hr Ed) as [Hr1 ->].
    intros E. apply IH in E as [H1 H2]; [|done]. split; [done|]. intros k. rewrite H2.
    destruct (decide (k = k0)) as [->|Hne].
    + rewrite lookup_delete_eq, (bool_decide_true (k0 ∈ k0 :: keys)) by apply list_elem_of_here. by case_bool_decide.
    + rewrite lookup_delete_ne by done. erewrite bool_decide_ext; [done|]. rewrite elem_of_cons. split; [tauto|by intros [|]].
Qed.

Lemma inserts_lookup (source : list S) (m : Store) k :
  foldl (fun m s => <[spec_key s := s]> m) m source !! k =
  match list_find (fun s => spec_key s = k) (rev source) with Some (_, s) => Some s | None => m !! k end.
Proof.
  induction source as [|s source IH] using rev_ind; [done|]. rewrite foldl_app, rev_unit. cbn.
  destruct (decide (spec_key s = k)) as [<-|Hne].
  - by rewrite lookup_insert_eq.
  - rewrite lookup_insert_ne, IH by done. by destruct (list_find _ (rev source)) as [[]|].
Qed.

Lemma sync_all_runs source m acts m' :
  ls_sync_all source m = (acts, m') ->
  runs m acts m' /\ m' = foldl (fun m s => <[spec_key s := s]> m) ∅ source.
Proof.
  unfold ls_sync_all. destruct (foldl visit _ _) as [[acts1 m1] keys] eqn:E1.
  destruct (visit_runs source m [] m (all_keys m) acts1 m1 keys) as (Hr & -> & Hk); try done.
  { constructor. }
  { intros k. by rewrite all_keys_spec. }
  intros E2. destruct (drops_runs _ _ _ _ _ _ Hr E2) as [Hr' Hl]. split; [done|]. apply map_eq. intros k.
  rewrite Hl, !inserts_lookup, lookup_empty. case_bool_decide as Hin.
  - apply Hk in Hin as [_ Hni]. destruct (list_find _ _) as [[i s]|] eqn:Ef; [|done].
    apply list_find_Some in Ef as (Hi & <- & _). destruct Hni. apply list_elem_of_lookup_2, list_elem_of_In, in_rev, list_elem_of_In in Hi.
    apply list_elem_of_fmap. by exists s.
  - destruct (list_find _ _) as [[i s]|] eqn:Ef; [done|]. apply eq_None_not_Some. intros Hs. apply Hin, Hk.
    rewrite all_keys_spec. split; [done|]. intros (s & -> & Hs')%list_elem_of_fmap.
    apply list_find_None in Ef. rewrite Forall_forall in Ef. apply (Ef s); [|done]. by apply list_elem_of_In, in_rev; rewrite rev_involutive; apply list_elem_of_In.
Qed.

(** What a request makes of the store. *)
Definition request_store (all : list S) (changes : list (Message S)) (m : Store) : Store :=
  if is_nil all then foldl change_store m changes else foldl (fun m s => <[spec_key s := s]> m) ∅ all.

Lemma apply_runs all changes m acts m' :
  ls_apply all changes m = (acts, m') -> runs m acts m' /\ m' = request_store all changes m.
Proof. unfold ls_apply, request_store. destruct (is_nil all); [apply apply_changes_runs|apply sync_all_runs]. Qed.
(** A first full synchronisation adds every object. *)
Lemma visit_fresh source acts m keys :
  NoDup (map spec_key source) -> (forall s, s ∈ source -> m !! spec_key s = None) ->
  exists m', foldl visit (acts, m, keys) source = (acts ++ map ChangeAdd source, m', keys).
Proof.
  revert acts m. induction source as [|s source IH]; intros acts m Hnd Hm; cbn [foldl map]; [rewrite app_nil_r; by exists m|].
  apply NoDup_cons in Hnd as [Hni Hnd]. unfold visit at 2, put_spec, ls_insert. cbn [snd].
  rewrite (Hm s) by apply list_elem_of_here.
  destruct (IH (acts ++ [ChangeAdd s]) (<[spec_key s := s]> m) Hnd) as [m' ->].
  - intros s' Hs'. rewrite lookup_insert_ne; [apply Hm; by apply list_elem_of_further|].
    intros E. apply Hni. rewrite E. apply list_elem_of_fmap. by exists s'.
  - exists m'. by rewrite <-app_assoc.
Qed.

Lemma sync_all_fresh source : NoDup (map spec_key source) -> fst (ls_sync_all source ∅) = map ChangeAdd source.
Proof.
  intros Hnd. unfold ls_sync_all. destruct (visit_fresh source [] ∅ (all_keys ∅) Hnd) as [m ->]; [done|].
  assert (all_keys ∅ = []) as ->; [|done]. apply (Permutation_nil_r (all_keys ∅)).
  unfold all_keys. rewrite (merge_sort_Permutation key_le). by rewrite map_to_list_empty.
Qed.
End local_store.

(** ** The private server of the controller *)

Section sender.
Context {K : Type} `{Countable K} {S St C : Type} `{!MetadataItem C}.

(** The request for the changes a listener has not seen; [None] when there is
    nothing to send.  [into] makes of an object what the SPU keeps. *)
Definition send_changes {P} (filter : ChangeFlag) (into : MetadataStoreObject K S St C -> P) (listener : ChangeListener)
    (st : LocalStore K S St C) : option (ControlPlaneRequest P) * ChangeListener :=
  if negb (has_change listener st) then (None, listener)
  else
    let '(changes, listener) := sync_changes_with_filter filter listener st in
    if changes_is_empty changes then (None, listener)
    else
      let epoch := changes_epoch changes in
      let '(updates, deletes) := changes_parts changes in
      (Some (if is_sync_all changes then req_with_all epoch (map into updates)
             else req_with_changes epoch
                    (map (fun u => message_update (into u)) updates ++ map (fun d => message_delete (into d)) deletes)),
       listener).

Definition SPEC_META_FILTER : ChangeFlag := MkChangeFlag true false true.
(* src/crates/fluvio-sc/src/services/private_api/private_server.rs:384-427 send_spu_spec_changes *)
Definition send_spu_spec_changes : ChangeListener -> LocalStore K S St C -> option (ControlPlaneRequest S) * ChangeListener :=
  send_changes SPEC_FILTER obj_spec.
(* src/crates/fluvio-sc/src/services/private_api/private_server.rs:501-552 send_smartmodule_changes *)
Definition send_smartmodule_changes {P} (into : MetadataStoreObject K S St C -> P)
    : ChangeListener -> LocalStore K S St C -> option (ControlPlaneRequest P) * ChangeListener :=
  send_changes SPEC_META_FILTER into.
(* src/crates/fluvio-sc/src/services/private_api/private_server.rs:555-606 send_mirror_changes *)
Definition send_mirror_changes {P} (into : MetadataStoreObject K S St C -> P)
    : ChangeListener -> LocalStore K S St C -> option (ControlPlaneRequest P) * ChangeListener :=
  send_changes SPEC_META_FILTER into.
End sender.

(* src/crates/fluvio-sc/src/services/private_api/private_server.rs:430-498 send_replica_spec_changes *)
Definition send_replica_spec_changes {C} `{!MetadataItem C}
    : ChangeListener -> LocalStore ReplicaKey PartitionSpec PartitionStatus C ->
      option (ControlPlaneRequest Replica) * ChangeListener :=
  send_changes SPEC_META_FILTER replica_from.

(** Replicas are kept by their key, in the order of topic and partition. *)
Definition replica_key_le (a b : ReplicaKey) : Prop :=
  match String.compare (topic a) (topic b) with Lt => True | Gt => False | Eq => Names.partition a <= Names.partition b end.
#[export] Instance replica_key_le_dec : RelDecision replica_key_le.
Proof. intros a b. unfold replica_key_le. destruct (String.compare _ _); apply _. Defined.
#[export] Instance replica_spec : LocalSpec Replica ReplicaKey := {| spec_key := rep_id; key_le := replica_key_le |}.
