(* ===== verification/SpuControl.v ===== *)
(** * The replicas of an SPU

    What an SPU makes of the replicas the controller tells it about
    ([fluvio-spu/src/core/global_context.rs]): it leads, follows or ignores a
    replica, and changes its role when the controller elects another leader.
    The leaders are kept in
    [fluvio-spu/src/replication/leader/leaders_state.rs] and the followers in
    [fluvio-spu/src/replication/follower/state.rs], with one task for each
    leader that is followed ([follower/controller.rs]). *)

From S2P Require Import Prelude Names EpochMap MetadataStore MetadataSync ClusterTypes SpuStore.
From stdpp Require Import gmap strings list.

#[local] Open Scope Z_scope.

(** What the roles need of the storage, of the modules a leader starts and of
    the offsets of consumers.  [D] is the content of a replica's directory. *)
Class SpuEnv (D O : Type) := {
  (** [SharableReplicaStorage::create]: the content it leaves, and whether it succeeds *)
  env_create : Replica -> option D -> option D * bool;
  (** [Uninit::init]: whether the leader's modules start *)
  env_init : Replica -> bool;
  (** [SharableReplicaStorage::remove]: what is left of the directory, [None] when it is gone *)
  env_remove : D -> option D;
  (** [SharableConsumerOffsetStorage::delete_by_replica_key] *)
  env_delete_offsets : ReplicaKey -> O -> O;
}.

(** An environment in which creating and initialising succeed. *)
Class SpuEnvReliable (D O : Type) `{SpuEnv D O} := {
  create_succeeds r d : exists d', env_create r d = (Some d', true);
  init_succeeds r : env_init r = true;
  remove_succeeds d : env_remove d = None;
}.

Section context.
Context {D O : Type} `{!SpuEnv D O}.

(** A leader has the replica it was created with, a follower its leader; both
    use the directory of the replica. *)
(* src/crates/fluvio-spu/src/core/global_context.rs:43-59 GlobalContext *)
Record GlobalContext := MkGlobalContext {
  local_spu_id : Z;
  replica_localstore : gmap ReplicaKey Replica;
  leaders_state : gmap ReplicaKey Replica;
  followers_state : gmap ReplicaKey Z;
  follower_groups : gset Z;
  disk : gmap ReplicaKey D;
  consumer_offset : O;
}.
Definition set_store m (self : GlobalContext) : GlobalContext :=
  MkGlobalContext (local_spu_id self) m (leaders_state self) (followers_state self) (follower_groups self) (disk self)
    (consumer_offset self).
Definition set_leaders m (self : GlobalContext) : GlobalContext :=
  MkGlobalContext (local_spu_id self) (replica_localstore self) m (followers_state self) (follower_groups self) (disk self)
    (consumer_offset self).
Definition set_followers m g (self : GlobalContext) : GlobalContext :=
  MkGlobalContext (local_spu_id self) (replica_localstore self) (leaders_state self) m g (disk self) (consumer_offset self).
Definition set_disk m (self : GlobalContext) : GlobalContext :=
  MkGlobalContext (local_spu_id self) (replica_localstore self) (leaders_state self) (followers_state self)
    (follower_groups self) m (consumer_offset self).
Definition set_offsets o (self : GlobalContext) : GlobalContext :=
  MkGlobalContext (local_spu_id self) (replica_localstore self) (leaders_state self) (followers_state self)
    (follower_groups self) (disk self) o.
(* src/crates/fluvio-spu/src/core/global_context.rs:73-95 GlobalContext::new *)
Definition context_new (id : Z) (files : gmap ReplicaKey D) (offsets : O) : GlobalContext :=
  MkGlobalContext id ∅ ∅ ∅ ∅ files offsets.

(** What is reported back; an error is logged or, in [StorageError], handed on. *)
(* src/crates/fluvio-spu/src/core/global_context.rs:218-221 ReplicaChange *)
Inductive ReplicaChange := ChangeRemove (id : ReplicaKey) (confirm : bool) | ChangeStorageError.

(** ** Storage *)

(* src/crates/fluvio-spu/src/storage/mod.rs:47-58 SharableReplicaStorage::create *)
Definition create_storage (replica : Replica) (self : GlobalContext) : bool * GlobalContext :=
  let '(d, ok) := env_create replica (disk self !! rep_id replica) in
  (ok, set_disk (partial_alter (fun _ => d) (rep_id replica) (disk self)) self).
(* src/crates/fluvio-spu/src/storage/mod.rs:167-173 SharableReplicaStorage::remove *)
Definition remove_storage (key : ReplicaKey) (self : GlobalContext) : GlobalContext :=
  set_disk (partial_alter (fun d => d ← d; env_remove d) key (disk self)) self.

(** ** Leaders *)

(* src/crates/fluvio-spu/src/replication/leader/leaders_state.rs:134-146 ReplicaLeadersState::insert_leader *)
Definition insert_leader (replica : Replica) (self : GlobalContext) : GlobalContext :=
  set_leaders (<[rep_id replica := replica]> (leaders_state self)) self.
(* src/crates/fluvio-spu/src/replication/leader/leaders_state.rs:115-128 ReplicaLeadersState::add_leader_replica *)
Definition add_leader_replica (replica : Replica) (self : GlobalContext) : bool * GlobalContext :=
  let '(ok, self) := create_storage replica self in
  if ok && env_init replica then (true, insert_leader replica self) else (false, self).
(** The follower is out of its map and its storage is handed over. *)
(* src/crates/fluvio-spu/src/replication/leader/leaders_state.rs:153-167 ReplicaLeadersState::promote_follower *)
Definition promote_follower (replica : Replica) (self : GlobalContext) : bool * GlobalContext :=
  if env_init replica then (true, insert_leader replica self) else (false, self).
(* src/crates/fluvio-spu/src/replication/leader/leaders_state.rs:52-55 ReplicaLeadersState::remove *)
Definition remove_leader (key : ReplicaKey) (self : GlobalContext) : option Replica * GlobalContext :=
  (leaders_state self !! key, set_leaders (delete key (leaders_state self)) self).

(** ** Followers *)

(* src/crates/fluvio-spu/src/replication/follower/controller.rs:30-51 FollowerGroups::check_new *)
Definition check_new (leader : Z) (groups : gset Z) : gset Z := {[leader]} ∪ groups.
(* src/crates/fluvio-spu/src/replication/follower/controller.rs:54-63 FollowerGroups::remove *)
Definition groups_remove (leader : Z) (groups : gset Z) : gset Z := groups ∖ {[leader]}.
(* src/crates/fluvio-spu/src/replication/follower/state.rs:58-70 FollowersState::followers_by_spu *)
Definition followers_by_spu (spu : Z) (self : GlobalContext) : gmap ReplicaKey Z :=
  base.filter (fun kl : ReplicaKey * Z => snd kl = spu) (followers_state self).
(* src/crates/fluvio-spu/src/replication/follower/state.rs:77-108 FollowersState::add_replica *)
Definition add_follower (replica : Replica) (self : GlobalContext) : bool * GlobalContext :=
  match followers_state self !! rep_id replica with
  | Some _ => (true, self)
  | None =>
      let '(ok, self) := create_storage replica self in
      if ok then
        (true, set_followers (<[rep_id replica := rep_leader replica]> (followers_state self))
                 (check_new (rep_leader replica) (follower_groups self)) self)
      else (false, self)
  end.
(* src/crates/fluvio-spu/src/replication/follower/state.rs:114-140 FollowersState::remove_replica *)
Definition remove_follower (leader : Z) (key : ReplicaKey) (self : GlobalContext) : option Z * GlobalContext :=
  match followers_state self !! key with
  | Some replica =>
      let followers := delete key (followers_state self) in
      let replica_count := size (base.filter (fun kl : ReplicaKey * Z => snd kl = leader) followers) in
      let groups := if bool_decide (replica_count = 0%nat) then groups_remove leader (follower_groups self)
                    else follower_groups self in
      (Some replica, set_followers followers groups self)
  | None => (None, self)
  end.

(** ** Changes of role *)

(* src/crates/fluvio-types/src/defaults.rs:61-61 CONSUMER_REPLICA_KEY *)
Definition CONSUMER_REPLICA_KEY : ReplicaKey := MkReplicaKey "consumer-offset" 0.
(* src/crates/fluvio-spu/src/core/global_context.rs:494-511 delete_consumers_offset *)
Definition delete_consumers_offset (replica : Replica) (self : GlobalContext) : GlobalContext :=
  match leaders_state self !! CONSUMER_REPLICA_KEY with
  | None => self
  | Some _ => set_offsets (env_delete_offsets (rep_id replica) (consumer_offset self)) self
  end.
(* src/crates/fluvio-spu/src/core/global_context.rs:236-270 promote *)
Definition promote (new_replica old_replica : Replica) (self : GlobalContext) : list ReplicaChange * GlobalContext :=
  let '(follower, self) := remove_follower (rep_leader old_replica) (rep_id old_replica) self in
  match follower with
  | Some _ =>
      let '(ok, self) := promote_follower new_replica self in
      (if ok then [] else [ChangeStorageError], self)
  | None => ([], self)
  end.
(* src/crates/fluvio-spu/src/core/global_context.rs:400-419 remove_leader_replica *)
Definition remove_leader_replica (replica : Replica) (self : GlobalContext) : ReplicaChange * GlobalContext :=
  let '(previous, self) := remove_leader (rep_id replica) self in
  let self := match previous with Some _ => remove_storage (rep_id replica) self | None => self end in
  (ChangeRemove (rep_id replica) true, self).
(* src/crates/fluvio-spu/src/core/global_context.rs:428-441 remove_follower_replica *)
Definition remove_follower_replica (replica : Replica) (self : GlobalContext) : GlobalContext :=
  let '(state, self) := remove_follower (rep_leader replica) (rep_id replica) self in
  match state with Some _ => remove_storage (rep_id replica) self | None => self end.
(* src/crates/fluvio-spu/src/core/global_context.rs:379-391 remove_replica *)
Definition remove_replica (replica : Replica) (self : GlobalContext) : list ReplicaChange * GlobalContext :=
  let '(outputs, self) :=
    if rep_leader replica =? local_spu_id self then
      let '(change, self) := remove_leader_replica replica self in ([change], self)
    else ([], remove_follower_replica replica self) in
  (outputs, delete_consumers_offset replica self).
(* src/crates/fluvio-spu/src/core/global_context.rs:451-466 demote_replica *)
Definition demote_replica (replica : Replica) (self : GlobalContext) : GlobalContext :=
  let '(leader, self) := remove_leader (rep_id replica) self in
  match leader with
  | Some _ => snd (add_follower replica self)
  | None => self
  end.
(* src/crates/fluvio-spu/src/core/global_context.rs:477-491 switch_leader_for_follower *)
Definition switch_leader_for_follower (new old : Replica) (self : GlobalContext) : GlobalContext :=
  let '(_, self) := remove_follower (rep_leader old) (rep_id old) self in
  snd (add_follower new self).

Definition storage_result (r : bool * GlobalContext) : list ReplicaChange * GlobalContext :=
  (if fst r then [] else [ChangeStorageError], snd r).
(** The turn of [apply_replica_actions] for one action. *)
(* src/crates/fluvio-spu/src/core/global_context.rs:304-373 apply_replica_actions(one action) *)
Definition apply_replica_action (action : SpecChange Replica) (self : GlobalContext) : list ReplicaChange * GlobalContext :=
  let local_id := local_spu_id self in
  match action with
  | ChangeAdd new_replica =>
      if rep_is_being_deleted new_replica then remove_replica new_replica self
      else if rep_leader new_replica =? local_id then storage_result (add_leader_replica new_replica self)
      else if bool_decide (local_id ∈ rep_replicas new_replica) then storage_result (add_follower new_replica self)
      else ([], self)
  | ChangeDelete deleted_replica => remove_replica deleted_replica self
  | ChangeMod new_replica old_replica =>
      if rep_is_being_deleted new_replica then remove_replica new_replica self
      else if negb (rep_leader new_replica =? rep_leader old_replica) then
        if rep_leader new_replica =? local_id then promote new_replica old_replica self
        else if rep_leader old_replica =? local_id then ([], demote_replica new_replica self)
        else ([], switch_leader_for_follower new_replica old_replica self)
      else ([], self)
  end.
(* src/crates/fluvio-spu/src/core/global_context.rs:287-377 apply_replica_actions *)
Fixpoint apply_replica_actions (actions : list (SpecChange Replica)) (self : GlobalContext)
    : list ReplicaChange * GlobalContext :=
  match actions with
  | [] => ([], self)
  | action :: actions =>
      let '(outputs, self) := apply_replica_action action self in
      let '(rest, self) := apply_replica_actions actions self in
      (outputs ++ rest, self)
  end.
(* src/crates/fluvio-spu/src/core/global_context.rs:272-281 apply_replica_update *)
Definition apply_replica_update (request : ControlPlaneRequest Replica) (self : GlobalContext)
    : list ReplicaChange * GlobalContext :=
  let '(changes, m) := ls_apply (req_all request) (req_changes request) (replica_localstore self) in
  apply_replica_actions changes (set_store m self).
End context.
Arguments GlobalContext : clear implicits.

(** ** Roles *)

Section roles.
Context {D O : Type} `{!SpuEnv D O} `{!SpuEnvReliable D O}.
Notation Ctx := (GlobalContext D O).
Implicit Types (st : Ctx) (s : gmap ReplicaKey Replica) (r n o : Replica) (k : ReplicaKey) (l L : Z).

(** The role of SPU [L] for a replica it was told about.  It may follow
    one that it is not listed for, as an election makes it do
    ([uninvolved_spu_follows]); [first_role] below is exact. *)
Definition role_of L (told lead : option Replica) (follow : option Z) : Prop :=
  match told with
  | None => lead = None /\ follow = None
  | Some r =>
      if rep_is_being_deleted r then lead = None /\ follow = None
      else if rep_leader r =? L then
        (exists r', lead = Some r' /\ rep_leader r' = L /\ rep_id r' = rep_id r) /\ follow = None
      else lead = None /\ (L ∈ rep_replicas r -> follow = Some (rep_leader r)) /\ (forall l, follow = Some l -> l = rep_leader r)
  end.

(** A task runs for a leader exactly when one of its replicas is followed. *)
Definition groups_ok st : Prop := forall l, l ∈ follower_groups st <-> exists k, followers_state st !! k = Some l.

Record roles s st : Prop := {
  roles_keyed : forall k r, s !! k = Some r -> rep_id r = k;
  roles_role : forall k, role_of (local_spu_id st) (s !! k) (leaders_state st !! k) (followers_state st !! k);
  roles_groups : groups_ok st;
}.

(** The changes a controller makes: the replicas of a partition are fixed, its
    leader is one of them, and an object that is being deleted stays so and
    keeps its leader. *)
Definition good_change n o : Prop :=
  rep_replicas n = rep_replicas o /\ rep_leader n ∈ rep_replicas n /\
  (rep_is_being_deleted o = true -> rep_is_being_deleted n = true) /\
  (rep_is_being_deleted n = true -> rep_leader n = rep_leader o).
Definition good_action (a : SpecChange Replica) : Prop :=
  match a with ChangeMod n o => good_change n o | _ => True end.

Lemma remove_follower_spec l k st :
  groups_ok st -> (forall l', followers_state st !! k = Some l' -> l' = l) ->
  let '(f, st') := remove_follower l k st in
  f = followers_state st !! k /\ followers_state st' = delete k (followers_state st) /\
  leaders_state st' = leaders_state st /\ local_spu_id st' = local_spu_id st /\ groups_ok st'.
Proof.
  intros Hg Hl. unfold remove_follower. destruct (followers_state st !! k) as [l'|] eqn:Ek.
  - specialize (Hl l' eq_refl) as ->. split_and!; try done. intros l'. cbn [follower_groups followers_state set_followers].
    case_bool_decide as Hc.
    + apply map_size_empty_inv in Hc. unfold groups_remove. rewrite elem_of_difference, (Hg l'), elem_of_singleton. split.
      * intros [[k' Hk'] Hne]. exists k'. rewrite lookup_delete_ne; [done|]. intros <-. congruence.
      * intros [k' [Hne Hk']%lookup_delete_Some]. split; [by exists k'|]. intros ->.
        assert (base.filter (fun kl : ReplicaKey * Z => snd kl = l) (delete k (followers_state st)) !! k' = Some l) as Hf.
        { apply map_lookup_filter_Some. split; [by apply lookup_delete_Some|done]. }
        by rewrite Hc in Hf.
    + rewrite (Hg l'). split.
      * intros [k' Hk']. destruct (decide (k' = k)) as [->|Hne]; [|exists k'; by rewrite lookup_delete_ne].
        assert (l' = l) as -> by congruence.
        destruct (map_choose (base.filter (fun kl : ReplicaKey * Z => snd kl = l) (delete k (followers_state st)))) as (k' & l' & Hf).
        { intros He. by rewrite He in Hc. }
        apply map_lookup_filter_Some in Hf as [Hf Hl]. cbn in Hl. subst l'. by exists k'.
      * intros [k' [_ Hk']%lookup_delete_Some]. by exists k'.
  - split_and!; try done. symmetry. by apply delete_id.
Qed.

Lemma create_storage_spec r st :
  exists st', create_storage r st = (true, st') /\ followers_state st' = followers_state st /\
    leaders_state st' = leaders_state st /\ local_spu_id st' = local_spu_id st /\
    follower_groups st' = follower_groups st /\ is_Some (disk st' !! rep_id r).
Proof.
  unfold create_storage. destruct (create_succeeds (D := D) (O := O) r (disk st !! rep_id r)) as [d ->].
  eexists. split; [done|]. split_and!; try done. cbn. by rewrite lookup_partial_alter_eq.
Qed.

Lemma add_follower_spec r st :
  groups_ok st -> followers_state st !! rep_id r = None ->
  let '(ok, st') := add_follower r st in
  ok = true /\ followers_state st' = <[rep_id r := rep_leader r]> (followers_state st) /\
  leaders_state st' = leaders_state st /\ local_spu_id st' = local_spu_id st /\ groups_ok st' /\
  is_Some (disk st' !! rep_id r).
Proof.
  intros Hg Hn. unfold add_follower. rewrite Hn.
  destruct (create_storage_spec r st) as (st1 & -> & Hf & Hl & Hi & Hgr & Hd). split_and!; try done.
  - cbn. by rewrite Hf.
  - intros l. cbn [follower_groups followers_state set_followers]. unfold check_new.
    rewrite elem_of_union, elem_of_singleton, Hgr, (Hg l), Hf. split.
    + intros [->|[k Hk]]; [exists (rep_id r); by rewrite lookup_insert_eq|].
      exists k. rewrite lookup_insert_ne; [done|]. intros <-. congruence.
    + intros [k [[_ ->]|[_ Hk]]%lookup_insert_Some]; [by left|right; by exists k].
Qed.

Lemma roles_at s st s' st' k :
  roles s st -> local_spu_id st' = local_spu_id st ->
  (forall k', k' <> k -> s' !! k' = s !! k' /\ leaders_state st' !! k' = leaders_state st !! k' /\
    followers_state st' !! k' = followers_state st !! k') ->
  groups_ok st' -> (forall r, s' !! k = Some r -> rep_id r = k) ->
  role_of (local_spu_id st) (s' !! k) (leaders_state st' !! k) (followers_state st' !! k) -> roles s' st'.
Proof.
  intros [Hk Hr Hg] Hi Ho Hg' Hk' Hr'. split; [|intros k'; rewrite Hi|done].
  - intros k' r Hs. destruct (decide (k' = k)) as [->|Hne]; [by apply Hk'|].
    destruct (Ho k' Hne) as (E & _). rewrite E in Hs. by apply Hk.
  - destruct (decide (k' = k)) as [->|Hne]; [done|]. destruct (Ho k' Hne) as (-> & -> & ->). apply Hr.
Qed.

Lemma delete_offsets_frame r st :
  let st' := delete_consumers_offset r st in
  local_spu_id st' = local_spu_id st /\ leaders_state st' = leaders_state st /\
  followers_state st' = followers_state st /\ follower_groups st' = follower_groups st /\ disk st' = disk st.
Proof. unfold delete_consumers_offset. by destruct (leaders_state st !! CONSUMER_REPLICA_KEY). Qed.

(** A replica that is removed has no role left; the role it had is the one its
    leader gives it. *)
Lemma remove_replica_spec r st :
  groups_ok st ->
  (if rep_leader r =? local_spu_id st then followers_state st !! rep_id r = None
   else leaders_state st !! rep_id r = None /\ forall l, followers_state st !! rep_id r = Some l -> l = rep_leader r) ->
  let st' := snd (remove_replica r st) in
  local_spu_id st' = local_spu_id st /\ leaders_state st' = delete (rep_id r) (leaders_state st) /\
  followers_state st' = delete (rep_id r) (followers_state st) /\ groups_ok st' /\
  (is_Some (leaders_state st !! rep_id r) \/ is_Some (followers_state st !! rep_id r) -> disk st' !! rep_id r = None).
Proof.
  intros Hg Hrole. unfold remove_replica. destruct (rep_leader r =? local_spu_id st).
  - unfold remove_leader_replica, remove_leader.
    destruct (leaders_state st !! rep_id r) as [r'|] eqn:El; cbn [snd fst].
    + destruct (delete_offsets_frame r (remove_storage (rep_id r) (set_leaders (delete (rep_id r) (leaders_state st)) st)))
        as (-> & -> & -> & Eg & ->). cbn. split_and!; try done.
      * symmetry. by apply delete_id.
      * intros l. unfold groups_ok in Hg. rewrite Eg. by destruct (delete_offsets_frame r
          (remove_storage (rep_id r) (set_leaders (delete (rep_id r) (leaders_state st)) st))) as (_ & _ & -> & _).
      * intros _. rewrite lookup_partial_alter_eq. destruct (disk st !! rep_id r); [|done]. apply remove_succeeds.
    + destruct (delete_offsets_frame r (set_leaders (delete (rep_id r) (leaders_state st)) st)) as (-> & -> & Ef & Eg & ->).
      cbn. split_and!; try done.
      * rewrite Ef. symmetry. by apply delete_id.
      * intros l. rewrite Eg, Ef. apply Hg.
      * rewrite Hrole. by intros [[]|[]].
  - destruct Hrole as [Hl Hf]. unfold remove_follower_replica.
    pose proof (remove_follower_spec (rep_leader r) (rep_id r) st Hg Hf) as Hs.
    destruct (remove_follower (rep_leader r) (rep_id r) st) as [f st1]. destruct Hs as (-> & Ef & Eld & Ei & Hg1).
    destruct (followers_state st !! rep_id r) as [l|] eqn:Ek; cbn [snd].
    + destruct (delete_offsets_frame r (remove_storage (rep_id r) st1)) as (-> & -> & Ef' & Eg & ->).
      split_and!; try done.
      * cbn. rewrite Eld. symmetry. by apply delete_id.
      * rewrite Ef'. cbn. done.
      * intros l'. rewrite Eg, Ef'. apply Hg1.
      * intros _. cbn. rewrite lookup_partial_alter_eq. destruct (disk st1 !! rep_id r); [|done]. apply remove_succeeds.
    + destruct (delete_offsets_frame r st1) as (-> & -> & Ef' & Eg & _). split_and!; try done.
      * rewrite Eld. symmetry. by apply delete_id.
      * by rewrite Ef'.
      * intros l'. rewrite Eg, Ef'. apply Hg1.
      * rewrite Hl. by intros [[]|[]].
Qed.

Lemma removable s st r :
  roles s st -> (forall o, s !! rep_id r = Some o -> rep_is_being_deleted o = false -> rep_leader r = rep_leader o) ->
  if rep_leader r =? local_spu_id st then followers_state st !! rep_id r = None
  else leaders_state st !! rep_id r = None /\ forall l, followers_state st !! rep_id r = Some l -> l = rep_leader r.
Proof.
  intros Hr Ho. pose proof (roles_role _ _ Hr (rep_id r)) as Hk. unfold role_of in Hk.
  destruct (s !! rep_id r) as [o|]; [|destruct Hk as [-> ->]; by destruct (_ =? _)].
  destruct (rep_is_being_deleted o) eqn:Ed; [destruct Hk as [-> ->]; by destruct (_ =? _)|].
  rewrite (Ho o eq_refl Ed). destruct (rep_leader o =? local_spu_id st); [by destruct Hk as [_ ->]|].
  by destruct Hk as (-> & _ & ?).
Qed.

Lemma roles_remove s st s' r :
  roles s st -> (forall o, s !! rep_id r = Some o -> rep_is_being_deleted o = false -> rep_leader r = rep_leader o) ->
  (forall k', k' <> rep_id r -> s' !! k' = s !! k') ->
  (forall r', s' !! rep_id r = Some r' -> rep_id r' = rep_id r /\ rep_is_being_deleted r' = true) ->
  roles s' (snd (remove_replica r st)).
Proof.
  intros Hr Ho Hs Hs'.
  destruct (remove_replica_spec r st (roles_groups _ _ Hr) (removable _ _ _ Hr Ho)) as (Ei & El & Ef & Hg & _).
  apply (roles_at s st s' _ (rep_id r)); try done.
  - intros k' Hne. rewrite El, Ef, !lookup_delete_ne by done. split; [by apply Hs|done].
  - intros r' Hr'. by apply Hs'.
  - rewrite El, Ef, !lookup_delete_eq. unfold role_of. destruct (s' !! rep_id r) as [r'|]; [|done].
    by destruct (Hs' r' eq_refl) as [_ ->].
Qed.

Lemma roles_add s st n :
  roles s st -> s !! rep_id n = None -> roles (<[rep_id n := n]> s) (snd (apply_replica_action (ChangeAdd n) st)).
Proof.
  intros Hr Hn. pose proof (roles_role _ _ Hr (rep_id n)) as Hk. rewrite Hn in Hk. destruct Hk as [Hl Hf].
  cbn [apply_replica_action]. destruct (rep_is_being_deleted n) eqn:Ed.
  { apply (roles_remove s); [done|intros o; congruence|intros; by rewrite lookup_insert_ne|].
    intros r'. rewrite lookup_insert_eq. by intros [= <-]. }
  assert (forall st', local_spu_id st' = local_spu_id st -> groups_ok st' ->
    (forall k', k' <> rep_id n -> leaders_state st' !! k' = leaders_state st !! k' /\ followers_state st' !! k' = followers_state st !! k') ->
    role_of (local_spu_id st) (Some n) (leaders_state st' !! rep_id n) (followers_state st' !! rep_id n) ->
    roles (<[rep_id n := n]> s) st') as Hat.
  { intros st' Hi Hg Ho Hrole. apply (roles_at s st _ _ (rep_id n)); try done.
    - intros k' Hne. rewrite lookup_insert_ne by done. split; [done|by apply Ho].
    - intros r. rewrite lookup_insert_eq. by intros [= <-].
    - by rewrite lookup_insert_eq. }
  unfold role_of in Hat. rewrite Ed in Hat. destruct (rep_leader n =? local_spu_id st) eqn:Elead.
  - unfold add_leader_replica. destruct (create_storage_spec n st) as (st1 & -> & Ef & El & Ei & Eg & _).
    rewrite init_succeeds. cbn. apply Hat; [done|intros l; cbn; rewrite Eg, Ef; apply (roles_groups _ _ Hr)|..]; cbn.
    + intros k' Hne. rewrite lookup_insert_ne by done. by rewrite El, Ef.
    + rewrite lookup_insert_eq, Ef, Hf. split; [|done]. exists n. split_and!; [done|by apply Z.eqb_eq|done].
  - case_bool_decide as Hin.
    + pose proof (add_follower_spec n st (roles_groups _ _ Hr) Hf) as Ha. destruct (add_follower n st) as [b st1].
      destruct Ha as (-> & Ef & El & Ei & Hg & _). cbn. apply Hat; try done; rewrite Ef, El.
      * intros k' Hne. by rewrite lookup_insert_ne.
      * rewrite lookup_insert_eq, Hl. split_and!; try done. by intros l [= <-].
    + cbn [snd]. apply Hat; try done; [apply (roles_groups _ _ Hr)|]. rewrite Hl, Hf. split_and!; done.
Qed.

Lemma roles_promote s st n o :
  roles s st -> s !! rep_id n = Some o -> good_change n o -> rep_is_being_deleted n = false ->
  rep_leader n = local_spu_id st -> rep_leader o <> local_spu_id st ->
  roles (<[rep_id n := n]> s) (snd (promote n o st)).
Proof.
  intros Hr Ho (Er & Hin & Hd & _) Ed El Hne. pose proof (roles_role _ _ Hr (rep_id n)) as Hk. rewrite Ho in Hk.
  unfold role_of in Hk. destruct (rep_is_being_deleted o) eqn:Edo; [rewrite Hd in Ed; done|].
  rewrite (proj2 (Z.eqb_neq _ _) Hne) in Hk. destruct Hk as (Hl & Hf & Hf').
  rewrite <-El, <-Er in Hf. specialize (Hf Hin). pose proof (roles_keyed _ _ Hr _ _ Ho) as Eid.
  unfold promote. rewrite Eid.
  pose proof (remove_follower_spec (rep_leader o) (rep_id n) st (roles_groups _ _ Hr) Hf') as Hs.
  destruct (remove_follower (rep_leader o) (rep_id n) st) as [f st1]. destruct Hs as (-> & Ef & Eld & Ei & Hg).
  rewrite Hf. unfold promote_follower. rewrite init_succeeds. cbn. apply (roles_at s st _ _ (rep_id n)); try done.
  - intros k' Hne'. cbn. by rewrite !lookup_insert_ne, Ef, lookup_delete_ne, Eld.
  - intros r. rewrite lookup_insert_eq. by intros [= <-].
  - cbn. rewrite !lookup_insert_eq, Ef, lookup_delete_eq. unfold role_of. rewrite Ed, (proj2 (Z.eqb_eq _ _) El).
    split; [by exists n|done].
Qed.

Lemma roles_demote s st n o :
  roles s st -> s !! rep_id n = Some o -> good_change n o -> rep_is_being_deleted n = false ->
  rep_leader n <> local_spu_id st -> rep_leader o = local_spu_id st ->
  roles (<[rep_id n := n]> s) (demote_replica n st).
Proof.
  intros Hr Ho (Er & Hin & Hd & _) Ed Hne El. pose proof (roles_role _ _ Hr (rep_id n)) as Hk. rewrite Ho in Hk.
  unfold role_of in Hk. destruct (rep_is_being_deleted o) eqn:Edo; [rewrite Hd in Ed; done|].
  rewrite (proj2 (Z.eqb_eq _ _) El) in Hk. destruct Hk as ((r' & Hl & _) & Hf).
  unfold demote_replica, remove_leader. rewrite Hl.
  set (st1 := set_leaders _ st).
  pose proof (add_follower_spec n st1 (roles_groups _ _ Hr) Hf) as Ha. destruct (add_follower n st1) as [b st2].
  destruct Ha as (_ & Ef & Eld & Ei & Hg & _). cbn [snd]. apply (roles_at s st _ _ (rep_id n)); try done; rewrite ?Ef, ?Eld; cbn.
  - intros k' Hne'. by rewrite !lookup_insert_ne, lookup_delete_ne.
  - intros r. rewrite lookup_insert_eq. by intros [= <-].
  - rewrite !lookup_insert_eq, lookup_delete_eq. unfold role_of. rewrite Ed, (proj2 (Z.eqb_neq _ _) Hne).
    split_and!; try done. by intros l [= <-].
Qed.

Lemma roles_switch s st n o :
  roles s st -> s !! rep_id n = Some o -> good_change n o -> rep_is_being_deleted n = false ->
  rep_leader n <> local_spu_id st -> rep_leader o <> local_spu_id st ->
  roles (<[rep_id n := n]> s) (switch_leader_for_follower n o st).
Proof.
  intros Hr Ho (Er & Hin & Hd & _) Ed Hne Hno. pose proof (roles_role _ _ Hr (rep_id n)) as Hk. rewrite Ho in Hk.
  unfold role_of in Hk. destruct (rep_is_being_deleted o) eqn:Edo; [rewrite Hd in Ed; done|].
  rewrite (proj2 (Z.eqb_neq _ _) Hno) in Hk. destruct Hk as (Hl & _ & Hf'). pose proof (roles_keyed _ _ Hr _ _ Ho) as Eid.
  unfold switch_leader_for_follower. rewrite Eid.
  pose proof (remove_follower_spec (rep_leader o) (rep_id n) st (roles_groups _ _ Hr) Hf') as Hs.
  destruct (remove_follower (rep_leader o) (rep_id n) st) as [f st1]. destruct Hs as (_ & Ef & Eld & Ei & Hg).
  pose proof (add_follower_spec n st1 Hg) as Ha. rewrite Ef, lookup_delete_eq in Ha. specialize (Ha eq_refl).
  destruct (add_follower n st1) as [b st2]. destruct Ha as (_ & Ef2 & Eld2 & Ei2 & Hg2 & _). cbn [snd].
  apply (roles_at s st _ _ (rep_id n)); try done; rewrite ?Ef2, ?Eld2, ?Eld, ?Ei2; try done.
  - intros k' Hne'. by rewrite !lookup_insert_ne, lookup_delete_ne.
  - intros r. rewrite lookup_insert_eq. by intros [= <-].
  - rewrite !lookup_insert_eq. unfold role_of. rewrite Ed, (proj2 (Z.eqb_neq _ _) Hne). split_and!; try done. by intros l [= <-].
Qed.

Lemma roles_same s st n o :
  roles s st -> s !! rep_id n = Some o -> good_change n o -> rep_is_being_deleted n = false ->
  rep_leader n = rep_leader o -> roles (<[rep_id n := n]> s) st.
Proof.
  intros Hr Ho (Er & Hin & Hd & _) Ed El. pose proof (roles_role _ _ Hr (rep_id n)) as Hk. rewrite Ho in Hk.
  pose proof (roles_keyed _ _ Hr _ _ Ho) as Eid. unfold role_of in Hk.
  destruct (rep_is_being_deleted o) eqn:Edo; [rewrite Hd in Ed; done|].
  apply (roles_at s st _ _ (rep_id n)); try done.
  - intros k' Hne'. by rewrite lookup_insert_ne.
  - apply (roles_groups _ _ Hr).
  - intros r. rewrite lookup_insert_eq. by intros [= <-].
  - rewrite lookup_insert_eq. unfold role_of. rewrite Ed, El, Er. by rewrite Eid in Hk.
Qed.

Lemma roles_mod s st n o :
  roles s st -> s !! rep_id n = Some o -> good_change n o ->
  roles (<[rep_id n := n]> s) (snd (apply_replica_action (ChangeMod n o) st)).
Proof.
  intros Hr Ho Hgood. cbn [apply_replica_action]. destruct (rep_is_being_deleted n) eqn:Ed.
  { apply (roles_remove s); [done| |intros; by rewrite lookup_insert_ne|].
    - intros o' Ho'. assert (o' = o) as -> by congruence. intros _. by apply Hgood.
    - intros r'. rewrite lookup_insert_eq. by intros [= <-]. }
  destruct (Z.eqb_spec (rep_leader n) (rep_leader o)) as [E|E]; cbn [negb]; [by eapply roles_same|].
  destruct (Z.eqb_spec (rep_leader n) (local_spu_id st)); [apply roles_promote; congruence|].
  destruct (Z.eqb_spec (rep_leader o) (local_spu_id st)); [by eapply roles_demote|by apply roles_switch].
Qed.

Lemma roles_runs s acts s' st :
  runs s acts s' -> Forall good_action acts -> roles s st -> roles s' (snd (apply_replica_actions acts st)).
Proof.
  intros Hruns. revert st.
  induction Hruns as [s|s n acts s' Hn _ IH|s n o acts s' Ho Hne _ IH|s k o acts s' Ho _ IH]; intros st Hg Hr; [done|..];
    inversion Hg as [|a l Hga Hgl]; subst; cbn [apply_replica_actions].
  - pose proof (roles_add s st n Hr Hn) as Hr'. destruct (apply_replica_action _ st) as [out st1]. cbn in Hr'.
    specialize (IH st1 Hgl Hr'). by destruct (apply_replica_actions acts st1).
  - pose proof (roles_mod s st n o Hr Ho Hga) as Hr'. destruct (apply_replica_action _ st) as [out st1]. cbn in Hr'.
    specialize (IH st1 Hgl Hr'). by destruct (apply_replica_actions acts st1).
  - pose proof (roles_keyed _ _ Hr _ _ Ho) as <-.
    assert (roles (delete (rep_id o) s) (snd (apply_replica_action (ChangeDelete o) st))) as Hr'.
    { cbn [apply_replica_action]. apply (roles_remove s); [done|congruence|intros; by rewrite lookup_delete_ne|].
      intros r'. by rewrite lookup_delete_eq. }
    destruct (apply_replica_action _ st) as [out st1]. cbn in Hr'.
    specialize (IH st1 Hgl Hr'). by destruct (apply_replica_actions acts st1).
Qed.

(** *** What a request leaves alone *)

Lemma store_action a st : replica_localstore (snd (apply_replica_action a st)) = replica_localstore st /\
  local_spu_id (snd (apply_replica_action a st)) = local_spu_id st.
Proof.
  unfold apply_replica_action, remove_replica, remove_leader_replica, remove_follower_replica, promote, demote_replica,
    switch_leader_for_follower, storage_result, add_leader_replica, add_follower, remove_follower, remove_leader,
    promote_follower, create_storage, delete_consumers_offset.
  destruct a; repeat (case_match; simplify_eq; cbn in * ); done.
Qed.

Lemma store_actions acts st : replica_localstore (snd (apply_replica_actions acts st)) = replica_localstore st /\
  local_spu_id (snd (apply_replica_actions acts st)) = local_spu_id st.
Proof.
  revert st. induction acts as [|a acts IH]; intros st; [done|]. cbn [apply_replica_actions].
  destruct (store_action a st) as [H1 H2]. destruct (apply_replica_action a st) as [out st1].
  destruct (IH st1) as [H3 H4]. destruct (apply_replica_actions acts st1) as [out' st2]. cbn in *. by rewrite H3, H4.
Qed.

Definition good_request (request : ControlPlaneRequest Replica) st : Prop :=
  Forall good_action (fst (ls_apply (req_all request) (req_changes request) (replica_localstore st))).

Lemma roles_store m s st : roles s st -> roles s (set_store m st).
Proof. by intros [? ? ?]. Qed.

Lemma apply_replica_update_spec request st :
  roles (replica_localstore st) st -> good_request request st ->
  let st' := snd (apply_replica_update request st) in
  replica_localstore st' = request_store (req_all request) (req_changes request) (replica_localstore st) /\
  local_spu_id st' = local_spu_id st /\ roles (replica_localstore st') st'.
Proof.
  intros Hr Hg. unfold apply_replica_update, good_request in *.
  destruct (ls_apply _ _ _) as [acts m] eqn:E. destruct (apply_runs _ _ _ _ _ E) as [Hruns ->]. cbn in Hg.
  set (m := request_store _ _ _) in *. destruct (store_actions acts (set_store m st)) as [-> ->].
  split; [done|]. split; [done|]. eapply roles_runs; [exact Hruns|done|]. by apply roles_store.
Qed.

(** The states of an SPU that is told about replicas. *)
Inductive spu_reach L : Ctx -> Prop :=
| spu_start files offsets : spu_reach L (context_new L files offsets)
| spu_more st request : spu_reach L st -> good_request request st -> spu_reach L (snd (apply_replica_update request st)).

Lemma roles_start L files offsets : roles ∅ (context_new L files offsets).
Proof. split; [done| |]; [done|]. intros l. split; [set_solver|by intros [? ?]]. Qed.

Lemma spu_reach_roles L st : spu_reach L st -> local_spu_id st = L /\ roles (replica_localstore st) st.
Proof.
  induction 1 as [files offsets|st request _ [Hi Hr] Hg]; [split; [done|apply roles_start]|].
  destruct (apply_replica_update_spec request st Hr Hg) as (_ & -> & ?). done.
Qed.
(** *** The first request of a connection *)

(** The role that an SPU which knows of nothing takes for a replica. *)
Definition first_role L (told lead : option Replica) (follow : option Z) : Prop :=
  match told with
  | None => lead = None /\ follow = None
  | Some r =>
      if rep_is_being_deleted r then lead = None /\ follow = None
      else if rep_leader r =? L then lead = Some r /\ follow = None
      else lead = None /\ follow = (if bool_decide (L ∈ rep_replicas r) then Some (rep_leader r) else None)
  end.
Definition first_roles s st : Prop :=
  forall k, first_role (local_spu_id st) (s !! k) (leaders_state st !! k) (followers_state st !! k).

Lemma first_role_add s st n :
  roles s st -> s !! rep_id n = None ->
  let st' := snd (apply_replica_action (ChangeAdd n) st) in
  (forall k, k <> rep_id n -> leaders_state st' !! k = leaders_state st !! k /\ followers_state st' !! k = followers_state st !! k) /\
  first_role (local_spu_id st) (Some n) (leaders_state st' !! rep_id n) (followers_state st' !! rep_id n).
Proof.
  intros Hr Hn. pose proof (roles_role _ _ Hr (rep_id n)) as Hk. rewrite Hn in Hk. destruct Hk as [Hl Hf].
  cbn [apply_replica_action]. unfold first_role. destruct (rep_is_being_deleted n) eqn:Ed.
  { assert (forall o, s !! rep_id n = Some o -> rep_is_being_deleted o = false -> rep_leader n = rep_leader o) as Ho by (intros o; congruence).
    destruct (remove_replica_spec n st (roles_groups _ _ Hr) (removable _ _ _ Hr Ho)) as (_ & El & Ef & _).
    rewrite El, Ef, !lookup_delete_eq. split; [|done]. intros k Hne. by rewrite !lookup_delete_ne. }
  destruct (rep_leader n =? local_spu_id st).
  - unfold add_leader_replica. destruct (create_storage_spec n st) as (st1 & -> & Ef & El & Ei & Eg & _).
    rewrite init_succeeds. cbn. rewrite lookup_insert_eq, Ef, Hf. split; [|done]. intros k Hne. by rewrite lookup_insert_ne, El.
  - case_bool_decide; [|done].
    pose proof (add_follower_spec n st (roles_groups _ _ Hr) Hf) as Ha. destruct (add_follower n st) as [b st1].
    destruct Ha as (-> & Ef & El & _). cbn. rewrite Ef, El, lookup_insert_eq, Hl. split; [|done]. intros k Hne. by rewrite lookup_insert_ne.
Qed.
Lemma first_roles_adds (l : list Replica) s st :
  NoDup (map rep_id l) -> (forall r, r ∈ l -> s !! rep_id r = None) -> roles s st -> first_roles s st ->
  first_roles (foldl (fun m r => <[rep_id r := r]> m) s l) (snd (apply_replica_actions (map ChangeAdd l) st)).
Proof.
  revert s st. induction l as [|n l IH]; intros s st Hnd Hs Hr Hf; [done|]. cbn [map apply_replica_actions foldl] in *.
  apply NoDup_cons in Hnd as [Hni Hnd]. assert (s !! rep_id n = None) as Hn by (apply Hs, list_elem_of_here).
  pose proof (roles_add s st n Hr Hn) as Hr'. destruct (first_role_add s st n Hr Hn) as [Ho Hk].
  pose proof (store_action (ChangeAdd n) st) as [_ Hi]. destruct (apply_replica_action (ChangeAdd n) st) as [out st1]. cbn [snd] in *.
  specialize (IH (<[rep_id n := n]> s) st1). destruct (apply_replica_actions (map ChangeAdd l) st1) as [rest st2]. apply IH; [done| |done|].
  - intros r Hin. rewrite lookup_insert_ne; [by apply Hs, list_elem_of_further|]. intros E. apply Hni. rewrite E. by apply (list_elem_of_fmap_2 rep_id).
  - intros k. rewrite Hi. destruct (decide (k = rep_id n)) as [->|Hne]; [by rewrite lookup_insert_eq|].
    rewrite lookup_insert_ne by done. destruct (Ho k Hne) as [-> ->]. apply Hf.
Qed.

Lemma first_request {C} `{!MetadataItem C} (sc : LocalStore ReplicaKey PartitionSpec PartitionStatus C) :
  0 < counter_epoch (dm_fence (store sc)) -> 0 < published sc -> values (store sc) <> ∅ ->
  send_replica_spec_changes listener_new sc =
    (Some (req_with_all (epoch (store sc)) (map replica_from (clone_values (store sc)))), MkListener (epoch (store sc))).
Proof.
  intros Hf Hp Hv. unfold send_replica_spec_changes, send_changes, has_change. cbn [last_change listener_new].
  rewrite (proj2 (Z.ltb_lt _ _) Hp). cbn [negb]. unfold sync_changes_with_filter, changes_since_with_filter.
  cbn [last_change listener_new]. rewrite (proj2 (Z.ltb_lt _ _) Hf). unfold changes_is_empty. cbn.
  destruct (clone_values (store sc)) as [|o l] eqn:E; [|done]. destruct Hv. apply map_to_list_empty_iff.
  unfold clone_values in E. by apply fmap_nil_inv in E.
Qed.

Lemma no_request {C} `{!MetadataItem C} (sc : LocalStore ReplicaKey PartitionSpec PartitionStatus C) :
  0 < counter_epoch (dm_fence (store sc)) -> 0 < published sc -> values (store sc) = ∅ ->
  fst (send_replica_spec_changes listener_new sc) = None.
Proof.
  intros Hf Hp Hv. unfold send_replica_spec_changes, send_changes, has_change. cbn [last_change listener_new].
  rewrite (proj2 (Z.ltb_lt _ _) Hp). cbn [negb]. unfold sync_changes_with_filter, changes_since_with_filter.
  cbn [last_change listener_new]. rewrite (proj2 (Z.ltb_lt _ _) Hf). unfold changes_is_empty, clone_values. rewrite Hv. by cbn.
Qed.

Lemma request_view {C} `{!MetadataItem C} (sc : LocalStore ReplicaKey PartitionSpec PartitionStatus C) :
  dm_ok obj_key (store sc) ->
  foldl (fun m r => <[spec_key r := r]> m) (∅ : gmap ReplicaKey Replica) (map replica_from (clone_values (store sc))) = view replica_from (store sc).
Proof.
  intros Hok. apply map_eq. intros k. rewrite inserts_lookup, lookup_empty. unfold view. rewrite lookup_fmap.
  destruct (list_find _ _) as [[i r]|] eqn:Ef.
  - apply list_find_Some in Ef as (Hi & <- & _).
    apply list_elem_of_lookup_2, list_elem_of_In, in_rev, list_elem_of_In in Hi.
    apply list_elem_of_fmap in Hi as (o & -> & Ho). apply clone_values_spec in Ho as (k & c & Hc & ->).
    pose proof (ok_keyed _ _ Hok _ _ Hc) as Hkc. cbn [spec_key replica_spec replica_from rep_id]. by rewrite Hkc, Hc.
  - destruct (values (store sc) !! k) as [c|] eqn:Ec; [|done]. exfalso. apply list_find_None in Ef.
    rewrite Forall_forall in Ef. apply (Ef (replica_from (dual_inner c))).
    + apply list_elem_of_In, in_rev. rewrite rev_involutive. apply list_elem_of_In, list_elem_of_fmap.
      exists (dual_inner c). split; [done|]. apply clone_values_spec. by exists k, c.
    + exact (ok_keyed _ _ Hok _ _ Ec).
Qed.
End roles.

(** ** Claims *)

(** The examples: directories with a number in them, and nothing that fails. *)
#[export] Instance example_env : SpuEnv Z unit := {|
  env_create r d := (Some (default 0 d), true);
  env_init r := true;
  env_remove d := None;
  env_delete_offsets k o := o |}.
#[export] Instance example_env_reliable : SpuEnvReliable Z unit.
Proof. split; [|done|done]. intros r d. by exists (default 0 d). Qed.
Definition example_key (p : Z) : ReplicaKey := MkReplicaKey "orders" p.

(** C6: after any sequence of well-behaved requests an SPU leads exactly the
    replicas it is the leader of, follows, at the right leader, every other
    replica it is listed for, has no role for replicas that are being deleted
    or are gone, and runs one task for each leader it follows. *)
Theorem roles_correct {D O : Type} `{!SpuEnv D O} `{!SpuEnvReliable D O} (L : Z) (st : GlobalContext D O) :
  spu_reach L st ->
  (forall k, role_of L (replica_localstore st !! k) (leaders_state st !! k) (followers_state st !! k)) /\
  (forall l, l ∈ follower_groups st <-> exists k, followers_state st !! k = Some l).
Proof. intros [Hi [_ Hr Hg]]%spu_reach_roles. by rewrite <-Hi. Qed.

(** SPU 1 follows a replica and is then elected. *)
Definition example_spu : GlobalContext Z unit :=
  let st := snd (apply_replica_update (req_with_all 1 [replica_new (example_key 0) 2 [1; 2]]) (context_new 1 ∅ tt)) in
  snd (apply_replica_update (req_with_changes 2 [message_update (replica_new (example_key 0) 1 [1; 2])]) st).
Lemma roles_correct_witness :
  leaders_state example_spu !! example_key 0 = Some (replica_new (example_key 0) 1 [1; 2]) /\
  role_of 1 (replica_localstore example_spu !! example_key 0) (leaders_state example_spu !! example_key 0)
    (followers_state example_spu !! example_key 0).
Proof.
  split; [reflexivity|]. apply (roles_correct 1 example_spu). apply spu_more; [apply spu_more; [apply spu_start|]|].
  - repeat constructor.
  - unfold good_request. set (acts := fst _). vm_compute in acts. subst acts. constructor; [|constructor].
    split_and!; try done. set_solver.
Defined.

(** The election of another leader makes an SPU follow a replica it is
    not listed for: it creates a directory and a follower, and runs a task for
    the new leader. *)
Theorem uninvolved_spu_follows {D O : Type} `{!SpuEnv D O} `{!SpuEnvReliable D O} (L e : Z) (st : GlobalContext D O)
    (n o : Replica) :
  spu_reach L st -> replica_localstore st !! rep_id n = Some o ->
  good_change n o -> rep_is_being_deleted n = false -> rep_leader n <> rep_leader o ->
  L ∉ rep_replicas n -> L <> rep_leader o ->
  let st' := snd (apply_replica_update (req_with_changes e [message_update n]) st) in
  followers_state st' !! rep_id n = Some (rep_leader n) /\ is_Some (disk st' !! rep_id n) /\
  rep_leader n ∈ follower_groups st'.
Proof.
  intros [Hi Hr]%spu_reach_roles Ho Hgood Ed Hne Hni Hno. destruct Hgood as (Er & Hin & Hd & _).
  assert (L <> rep_leader n) as Hnl by (by intros ->). pose proof (roles_keyed _ _ Hr _ _ Ho) as Eid.
  pose proof (roles_role _ _ Hr (rep_id n)) as Hk. rewrite Ho in Hk. unfold role_of in Hk. rewrite Hi in Hk.
  destruct (rep_is_being_deleted o); [rewrite Hd in Ed; done|]. rewrite (proj2 (Z.eqb_neq (rep_leader o) L)) in Hk by done.
  destruct Hk as (_ & _ & Hf).
  unfold apply_replica_update, ls_apply, ls_apply_changes, change_spec, put_spec, ls_insert.
  cbn [is_nil negb req_all req_changes req_with_changes foldl msg_header content message_update spec_key replica_spec].
  rewrite Ho, bool_decide_false by congruence. cbn [app apply_replica_actions apply_replica_action local_spu_id set_store].
  rewrite Ed, Hi, !(proj2 (Z.eqb_neq _ _)) by done. cbn [negb snd]. unfold switch_leader_for_follower. rewrite Eid.
  set (st0 := set_store _ st).
  pose proof (remove_follower_spec (rep_leader o) (rep_id n) st0 (roles_groups _ _ Hr) Hf) as Hs.
  destruct (remove_follower (rep_leader o) (rep_id n) st0) as [f st1]. destruct Hs as (_ & Ef & _ & _ & Hg).
  pose proof (add_follower_spec n st1 Hg) as Ha. rewrite Ef, lookup_delete_eq in Ha. specialize (Ha eq_refl).
  destruct (add_follower n st1) as [b st2]. destruct Ha as (_ & Ef2 & _ & _ & Hg2 & Hdisk). cbn [snd].
  assert (followers_state st2 !! rep_id n = Some (rep_leader n)) as Hn by (by rewrite Ef2, lookup_insert_eq).
  split_and!; try done. apply Hg2. by exists (rep_id n).
Qed.

(** SPU 3 hears that SPU 2 leads a replica of SPUs 1 and 2 now. *)
Definition example_uninvolved : GlobalContext Z unit :=
  snd (apply_replica_update (req_with_all 1 [replica_new (example_key 0) 1 [1; 2]]) (context_new 3 ∅ tt)).
Lemma uninvolved_spu_follows_witness :
  followers_state example_uninvolved !! example_key 0 = None /\
  let st' := snd (apply_replica_update (req_with_changes 2 [message_update (replica_new (example_key 0) 2 [1; 2])]) example_uninvolved) in
  followers_state st' !! example_key 0 = Some 2 /\ is_Some (disk st' !! example_key 0) /\ 2 ∈ follower_groups st'.
Proof.
  split; [reflexivity|].
  apply (uninvolved_spu_follows 3 2 example_uninvolved (replica_new (example_key 0) 2 [1; 2]) (replica_new (example_key 0) 1 [1; 2]));
    [|reflexivity| |reflexivity|done|set_solver|done].
  - apply spu_more; [apply spu_start|]. repeat constructor.
  - split_and!; try done. set_solver.
Defined.

(** An SPU that follows a replica and hears in one change that it leads the
    replica and that the replica is being deleted keeps following it. *)
Definition example_deleted : GlobalContext Z unit :=
  let st := snd (apply_replica_update (req_with_all 1 [replica_new (example_key 0) 2 [1; 2]]) (context_new 1 ∅ tt)) in
  snd (apply_replica_update (req_with_changes 2 [message_update (new_with_delete (example_key 0) 1 [1; 2] true)]) st).
Theorem deleted_replica_followed :
  followers_state example_deleted !! example_key 0 = Some 2 /\ disk example_deleted !! example_key 0 = Some 0.
Proof. split; reflexivity. Qed.

(** C37: an SPU that has just started and connects to the controller.  If the
    controller has partitions, the first request gives the SPU exactly the role
    it has for each of them: it leads those it is the leader of, with their
    spec, follows at its leader every other one that lists it, and has no role
    for any other, nor for those that are being deleted.  If the controller has
    none, nothing is sent. *)
Theorem connect_correct {D O C : Type} `{!SpuEnv D O} `{!SpuEnvReliable D O} `{!MetadataItem C}
    (sc : LocalStore ReplicaKey PartitionSpec PartitionStatus C) (L : Z) (files : gmap ReplicaKey D) (offsets : O) :
  dm_ok obj_key (store sc) -> 0 < counter_epoch (dm_fence (store sc)) -> 0 < published sc ->
  match send_replica_spec_changes listener_new sc with
  | (Some request, listener) =>
      let st := snd (apply_replica_update request (context_new L files offsets)) in
      listener = MkListener (epoch (store sc)) /\ replica_localstore st = view replica_from (store sc) /\
      forall k, first_role L (view replica_from (store sc) !! k) (leaders_state st !! k) (followers_state st !! k)
  | (None, _) => values (store sc) = ∅
  end.
Proof.
  intros Hok Hf Hp. destruct (decide (values (store sc) = ∅)) as [Hv|Hv].
  { pose proof (no_request sc Hf Hp Hv) as E. destruct (send_replica_spec_changes _ sc) as [[]]; [discriminate E|done]. }
  rewrite first_request by done. cbv zeta. split; [done|].
  set (request := req_with_all _ _). set (l := map replica_from (clone_values (store sc))).
  assert (NoDup (map spec_key l)) as Hnd by (unfold l; rewrite map_map; by apply clone_values_nodup).
  assert (is_nil (req_all request) = false) as Hnil.
  { cbn. destruct (clone_values (store sc)) eqn:E; [|done]. destruct Hv. apply map_to_list_empty_iff.
    unfold clone_values in E. by apply fmap_nil_inv in E. }
  unfold apply_replica_update. destruct (ls_apply _ _ _) as [acts m] eqn:E. destruct (apply_runs _ _ _ _ _ E) as [_ Em].
  unfold request_store in Em. rewrite Hnil in Em. cbn [req_all request req_with_all] in Em. rewrite request_view in Em by done.
  assert (acts = map ChangeAdd l) as ->.
  { unfold ls_apply in E. rewrite Hnil in E. cbn [negb] in E. apply (f_equal fst) in E. cbn [fst] in E. rewrite <-E.
    apply (sync_all_fresh l). exact Hnd. }
  destruct (store_actions (map ChangeAdd l) (set_store m (context_new L files offsets))) as [-> Hi]. split; [exact Em|].
  pose proof (first_roles_adds l ∅ (set_store m (context_new L files offsets)) Hnd) as Hroles. unfold first_roles in Hroles.
  rewrite Hi in Hroles. rewrite <-(request_view sc Hok). apply Hroles; [done|apply roles_store, roles_start|done].
Qed.

#[local] Instance example_partition_item : MetadataItem Z := u32_item.
Definition example_objects : list (MetadataStoreObject ReplicaKey PartitionSpec PartitionStatus Z) :=
  [MkObject (partition_spec_new 1 [1; 2]) partition_status_default (example_key 0) (MkContext 1);
   MkObject (partition_spec_new 2 [2; 1]) partition_status_default (example_key 1) (MkContext 1);
   MkObject (partition_spec_new 2 [2; 3]) partition_status_default (example_key 2) (MkContext 1)].
Definition example_partitions : LocalStore ReplicaKey PartitionSpec PartitionStatus Z :=
  snd (sync_all example_objects store_default).
(** SPU 1 leads the first partition, follows the second and has nothing to do
    with the third. *)
Lemma connect_correct_witness :
  exists request, send_replica_spec_changes listener_new example_partitions = (Some request, MkListener 1) /\
  let st := snd (apply_replica_update request (context_new 1 (∅ : gmap ReplicaKey Z) tt)) in
  (forall k, first_role 1 (view replica_from (store example_partitions) !! k) (leaders_state st !! k) (followers_state st !! k)) /\
  followers_state st !! example_key 1 = Some 2 /\ followers_state st !! example_key 2 = None.
Proof.
  destruct (send_replica_spec_changes listener_new example_partitions) as [[request|] listener] eqn:E; [|by vm_compute in E].
  exists request. pose proof (connect_correct (D := Z) (O := unit) example_partitions 1 ∅ tt) as Hc. rewrite E in Hc.
  destruct Hc as (-> & _ & Hr); [|reflexivity|reflexivity|].
  - apply (sync_all_ok example_objects (new_with_map ∅) (fst (sync_all example_objects store_default))); [apply dm_ok_new|reflexivity..].
  - split; [done|]. split; [exact Hr|]. split; [specialize (Hr (example_key 1))|specialize (Hr (example_key 2))];
      vm_compute (view _ _ !! _) in Hr; by destruct Hr.
Defined.
