(* ===== verification/ScPartitions.v ===== *)
(** * Partitions at the controller

    The status the controller keeps of a partition and the elections it holds:
    [fluvio-sc/src/stores/partition] (status and policy),
    [fluvio-sc/src/controllers/partitions/reducer.rs] (elections),
    [fluvio-sc/src/controllers/spus/controller.rs] (health of SPUs) and the
    requests of SPUs in [fluvio-sc/src/services/private_api/private_server.rs]. *)

From S2P Require Import Prelude Names EpochMap MetadataStore MetadataSync ClusterTypes SpuStore SpuControl.
From stdpp Require Import gmap strings list.

#[local] Open Scope Z_scope.

(** ** Statuses *)

(* src/crates/fluvio-sc/src/stores/partition/store.rs:438-466 ReplicaStatus::merge *)
Definition replica_status_merge (source self : ReplicaStatus) : option ReplicaStatus * ReplicaStatus :=
  if rs_spu source =? -1 then (None, self)
  else if (rs_spu self =? -1) || (rs_spu self =? rs_spu source) then
    (None, MkReplicaStatus (rs_spu source)
             (if negb (rs_hw source =? -1) then rs_hw source else rs_hw self)
             (if negb (rs_leo source =? -1) then rs_leo source else rs_leo self))
  else (Some (MkReplicaStatus (rs_spu self) (rs_hw self) (rs_leo self)),
        MkReplicaStatus (rs_spu source) (rs_hw source) (rs_leo source)).

(** The loop body over the replicas: the first status of the SPU is merged
    with the new one, or the new one is appended. *)
(* src/crates/fluvio-sc/src/stores/partition/store.rs:346-348 find_status *)
Fixpoint merge_into (status : ReplicaStatus) (replicas : list ReplicaStatus) : list ReplicaStatus :=
  match replicas with
  | [] => [status]
  | old :: replicas =>
      if rs_spu old =? rs_spu status then snd (replica_status_merge status old) :: replicas
      else old :: merge_into status replicas
  end.

(* src/crates/fluvio-sc/src/stores/partition/store.rs:421-428 PartitionStatus::update_lrs *)
Definition update_lrs (self : PartitionStatus) : PartitionStatus :=
  let leader_leo := rs_leo (pst_leader self) in
  let lsr := as_u32 (zlen (List.filter (fun re => negb (rs_leo re =? -1) && (leader_leo =? rs_leo re)) (pst_replicas self))) in
  MkPartitionStatus (pst_resolution self) (pst_leader self) lsr (pst_replicas self) (pst_size self)
    (pst_is_being_deleted self) (pst_base_offset self).

(* src/crates/fluvio-sc/src/stores/partition/store.rs:390-418 PartitionStatus::merge *)
Definition status_merge (other self : PartitionStatus) : PartitionStatus :=
  let '(old, leader) := replica_status_merge (pst_leader other) (pst_leader self) in
  let replicas := match old with Some old => pst_replicas self ++ [old] | None => pst_replicas self end in
  let replicas := foldl (fun replicas status => merge_into status replicas) replicas (pst_replicas other) in
  let replicas := List.filter (fun s => negb (rs_spu s =? rs_spu leader)) replicas in
  update_lrs (MkPartitionStatus (pst_resolution other) leader (pst_lsr self) replicas (pst_size other)
                (pst_is_being_deleted self) (pst_base_offset self)).

(** ** Elections *)

(* src/crates/fluvio-sc/src/stores/partition/policy.rs:3-6 ElectionScoring *)
Inductive ElectionScoring := NotSuitable | Score (score : Z).
(* src/crates/fluvio-sc/src/stores/partition/policy.rs:9-14 ElectionScoring::is_suitable *)
Definition is_suitable (self : ElectionScoring) : bool := match self with NotSuitable => false | Score _ => true end.
(* src/crates/fluvio-sc/src/stores/partition/policy.rs:35-46 SimplePolicy::potential_leader_score *)
Definition potential_leader_score (replica_status leader : ReplicaStatus) : ElectionScoring :=
  let lag := as_i64 (rs_leo leader - rs_leo replica_status) in
  if lag <? 4 then Score (as_u16 lag) else NotSuitable.

(** The candidate and its score so far. *)
(* src/crates/fluvio-sc/src/stores/partition/store.rs:368-384 candidate_leader (loop body) *)
Definition consider (online : gset Z) (policy : ReplicaStatus -> ReplicaStatus -> ElectionScoring) (leader : ReplicaStatus)
    (best : option (Z * Z)) (candidate : ReplicaStatus) : option (Z * Z) :=
  if bool_decide (rs_spu candidate ∈ online) then
    match policy candidate leader with
    | Score score =>
        match best with
        | Some (best_score, spu) => if score <? best_score then Some (score, rs_spu candidate) else best
        | None => Some (score, rs_spu candidate)
        end
    | NotSuitable => best
    end
  else best.
(* src/crates/fluvio-sc/src/stores/partition/store.rs:361-386 PartitionStatus::candidate_leader *)
Definition candidate_leader (online : gset Z) (policy : ReplicaStatus -> ReplicaStatus -> ElectionScoring)
    (self : PartitionStatus) : option Z :=
  snd <$> foldl (consider online policy (pst_leader self)) None (pst_replicas self).

(* src/crates/fluvio-stream-dispatcher/src/actions.rs:8-18 WSAction *)
Inductive WSAction (K S St C : Type) :=
| Apply (obj : MetadataStoreObject K S St C)
| UpdateSpec (key : K) (spec : S)
| UpdateStatus (key : K) (status : St)
| DeleteAction (key : K)
| DeleteFinal (key : K).
Arguments Apply {K S St C}.
Arguments UpdateSpec {K S St C}.
Arguments UpdateStatus {K S St C}.
Arguments DeleteAction {K S St C}.
Arguments DeleteFinal {K S St C}.

Section controller.
Context {C : Type} `{!MetadataItem C}.
Notation Partition := (MetadataStoreObject ReplicaKey PartitionSpec PartitionStatus C).
Notation Spu := (MetadataStoreObject string SpuSpec SpuStatus C).
Notation PartitionLocalStore := (LocalStore ReplicaKey PartitionSpec PartitionStatus C).
Notation SpuLocalStore := (LocalStore string SpuSpec SpuStatus C).
Notation PartitionWSAction := (WSAction ReplicaKey PartitionSpec PartitionStatus C).
Notation SpuWSAction := (WSAction string SpuSpec SpuStatus C).

(* src/crates/fluvio-sc/src/stores/spu/store.rs:92-100 SpuLocalStore::online_status *)
Definition online_status (self : SpuLocalStore) : gset Z :=
  list_to_set (map (fun spu => spu_id (obj_spec spu)) (List.filter (fun spu => spu_is_online (obj_status spu)) (clone_values (store self)))).
(* src/crates/fluvio-sc/src/stores/spu/store.rs:123-130 SpuLocalStore::online_spu_ids *)
Definition online_spu_ids (self : SpuLocalStore) : list Z :=
  map (fun spu => spu_id (obj_spec spu)) (List.filter (fun spu => spu_is_online (obj_status spu)) (clone_values (store self))).

(* src/crates/fluvio-sc/src/controllers/partitions/reducer.rs:84-103 PartitionReducer::process_partition_update *)
Definition process_partition_update (updates : list Partition) : list PartitionWSAction :=
  omap (fun partition =>
    if item_is_being_deleted (ctx_item (obj_ctx partition)) && negb (pst_is_being_deleted (obj_status partition)) then
      Some (UpdateStatus (obj_key partition) (set_to_delete (obj_status partition)))
    else None) updates.

(** The actions for one partition when an SPU went offline. *)
(* src/crates/fluvio-sc/src/controllers/partitions/reducer.rs:153-200 force_election_spu_off (loop body) *)
Definition election_off (offline_leader_spu_id : Z) (spu_status : gset Z) (partition : Partition) : list PartitionWSAction :=
  if ps_leader (obj_spec partition) =? offline_leader_spu_id then
    match candidate_leader spu_status potential_leader_score (obj_status partition) with
    | Some candidate => [UpdateSpec (obj_key partition) (with_leader candidate (obj_spec partition))]
    | None =>
        if status_is_online (obj_status partition) then
          [UpdateStatus (obj_key partition) (with_resolution ResLeaderOffline (obj_status partition))]
        else []
    end
  else [].
(* src/crates/fluvio-sc/src/controllers/partitions/reducer.rs:137-201 PartitionReducer::force_election_spu_off *)
Definition force_election_spu_off (spu_store : SpuLocalStore) (partition_store : PartitionLocalStore) (offline_spu : Spu)
    : list PartitionWSAction :=
  mjoin (map (election_off (spu_id (obj_spec offline_spu)) (online_status spu_store)) (clone_values (store partition_store))).

(** The actions for one partition when an SPU came online. *)
(* src/crates/fluvio-sc/src/controllers/partitions/reducer.rs:216-257 force_election_spu_on (loop body) *)
Definition election_on (online_leader_spu_id : Z) (partition : Partition) : list PartitionWSAction :=
  if negb (is_readable (obj_status partition)) then
    if negb (ps_leader (obj_spec partition) =? online_leader_spu_id) then
      mjoin (map (fun replica_status =>
        if (rs_spu replica_status =? online_leader_spu_id)
           && is_suitable (potential_leader_score replica_status (pst_leader (obj_status partition))) then
          [UpdateSpec (obj_key partition) (with_leader online_leader_spu_id (obj_spec partition))]
        else []) (pst_replicas (obj_status partition)))
    else [UpdateStatus (obj_key partition) (with_resolution ResOnline (obj_status partition))]
  else [].
(* src/crates/fluvio-sc/src/controllers/partitions/reducer.rs:205-258 PartitionReducer::force_election_spu_on *)
Definition force_election_spu_on (partition_store : PartitionLocalStore) (online_spu : Spu) : list PartitionWSAction :=
  mjoin (map (election_on (spu_id (obj_spec online_spu))) (clone_values (store partition_store))).

(* src/crates/fluvio-sc/src/controllers/partitions/reducer.rs:109-133 PartitionReducer::update_election_from_spu_changes *)
Definition update_election_from_spu_changes (spu_store : SpuLocalStore) (partition_store : PartitionLocalStore)
    (spus : list Spu) : list PartitionWSAction :=
  let online_spus := List.filter (fun v => spu_is_online (obj_status v)) spus in
  let offline_spus := List.filter (fun v => negb (spu_is_online (obj_status v))) spus in
  let offline_spus := List.filter (fun v => negb (spu_is_init (obj_status v))) offline_spus in
  mjoin (map (force_election_spu_off spu_store partition_store) offline_spus)
  ++ mjoin (map (force_election_spu_on partition_store) online_spus).

(** ** Health of SPUs *)

(** The map and the counter that listeners wait on. *)
(* src/crates/fluvio-sc/src/stores/spu/mod.rs:45-48 HealthCheck *)
Record HealthCheck := MkHealthCheck { health : gmap Z bool; health_event : Z }.
(* src/crates/fluvio-sc/src/stores/spu/mod.rs:78-93 HealthCheck::update *)
Definition health_update (spu : Z) (new_value : bool) (self : HealthCheck) : HealthCheck :=
  MkHealthCheck (<[spu := new_value]> (health self))
    match health self !! spu with
    | Some old_value => if negb (Bool.eqb new_value old_value) then as_i64 (health_event self + 1) else health_event self
    | None => as_i64 (health_event self + 1)
    end.
Definition set_health (health_status : bool) (status : SpuStatus) : SpuStatus :=
  if health_status then set_online status else set_offline status.
(** The status updates for the SPUs whose status differs from their health. *)
(* src/crates/fluvio-sc/src/controllers/spus/controller.rs:79-130 SpuController::sync_store *)
Definition sync_store (spus : SpuLocalStore) (health_check : HealthCheck) : list SpuWSAction :=
  omap (fun spu =>
    health_status ← health health_check !! spu_id (obj_spec spu);
    if spu_is_init (obj_status spu) then Some (UpdateStatus (obj_key spu) (set_health health_status (obj_status spu)))
    else if negb (Bool.eqb (spu_is_online (obj_status spu)) health_status) then
      Some (UpdateStatus (obj_key spu) (set_health health_status (obj_status spu)))
    else None) (clone_values (store spus)).

(** ** Requests of SPUs *)

(* src/crates/fluvio-controlplane/src/sc_api/update_lrs.rs:61-68 LrsRequest *)
Record LrsRequest := MkLrsRequest {
  lrs_id : ReplicaKey;
  lrs_leader : ReplicaStatus;
  lrs_replicas : list ReplicaStatus;
  lrs_size : Z;
  lrs_base_offset : Z;
}.
(** The sink of an SPU keeps one request for each replica, the last one. *)
(* src/crates/fluvio-spu/src/control_plane/message_sink.rs:34-37 MessageSink::send *)
Definition sink_send (request : LrsRequest) (self : gmap ReplicaKey LrsRequest) : gmap ReplicaKey LrsRequest :=
  <[lrs_id request := request]> self.
(* src/crates/fluvio-spu/src/control_plane/message_sink.rs:39-42 MessageSink::remove_all *)
Definition sink_remove_all (self : gmap ReplicaKey LrsRequest) : list LrsRequest * gmap ReplicaKey LrsRequest :=
  (map snd (map_to_list self), ∅).

(** The first request that names an object that is not there ends the loop,
    and nothing is done. *)
(* src/crates/fluvio-sc/src/services/private_api/private_server.rs:222-266 receive_lrs_update *)
Definition receive_lrs_update (requests : list LrsRequest) (partitions : PartitionLocalStore) : list PartitionWSAction :=
  default [] (convert_all (fun lrs_req =>
    partition ← values (store partitions) !! lrs_id lrs_req;
    let current_status := obj_status (dual_inner partition) in
    let new_status := partition_status_new2 (lrs_leader lrs_req) (lrs_replicas lrs_req) (lrs_size lrs_req) ResOnline
                        (lrs_base_offset lrs_req) in
    Some (UpdateStatus (lrs_id lrs_req) (status_merge new_status current_status))) requests).
(* src/crates/fluvio-sc/src/services/private_api/private_server.rs:272-298 receive_replica_remove *)
Definition receive_replica_remove (id : ReplicaKey) (confirm : bool) (partitions : PartitionLocalStore) : list PartitionWSAction :=
  match values (store partitions) !! id with
  | Some _ => if confirm then [DeleteFinal id] else []
  | None => []
  end.
(* src/crates/fluvio-sc/src/services/private_api/private_server.rs:343-380 receive_partition_status_update *)
Definition receive_partition_status_update (stats : list (ReplicaKey * PartitionResolution)) (partitions : PartitionLocalStore)
    : list PartitionWSAction :=
  default [] (convert_all (fun stat : ReplicaKey * PartitionResolution =>
    partition ← values (store partitions) !! fst stat;
    Some (UpdateStatus (fst stat) (with_resolution (snd stat) (obj_status (dual_inner partition))))) stats).
End controller.

(** ** Laws of statuses *)

(** One status for each SPU, the leader's apart from the others. *)
Definition status_ok (st : PartitionStatus) : Prop :=
  NoDup (map rs_spu (pst_replicas st)) /\ rs_spu (pst_leader st) ∉ map rs_spu (pst_replicas st).

Lemma merge_spu source self : rs_spu self = rs_spu source -> rs_spu (snd (replica_status_merge source self)) = rs_spu source.
Proof.
  intros E. unfold replica_status_merge. destruct (rs_spu source =? -1); [done|]. rewrite E, Z.eqb_refl, orb_true_r. done.
Qed.

Lemma merge_into_spus status l :
  map rs_spu (merge_into status l) =
  if bool_decide (rs_spu status ∈ map rs_spu l) then map rs_spu l else map rs_spu l ++ [rs_spu status].
Proof.
  induction l as [|o l IH]; cbn [merge_into map]; [done|]. destruct (Z.eqb_spec (rs_spu o) (rs_spu status)) as [E|E].
  - rewrite bool_decide_true by (rewrite E; apply list_elem_of_here). cbn [map]. f_equal. rewrite E. by apply merge_spu.
  - cbn [map]. rewrite IH. destruct (decide (rs_spu status ∈ map rs_spu l)) as [Hin|Hni].
    + rewrite !bool_decide_true; [done|by right|done].
    + rewrite !bool_decide_false; [done| |done]. intros [?|?]%elem_of_cons; [congruence|done].
Qed.

Lemma merge_into_nodup status l : NoDup (map rs_spu l) -> NoDup (map rs_spu (merge_into status l)).
Proof.
  intros Hl. rewrite merge_into_spus. case_bool_decide as Hin; [done|]. apply NoDup_app. split; [done|].
  split; [|apply NoDup_singleton]. by intros x Hx ->%list_elem_of_singleton.
Qed.

Lemma merges_nodup new l :
  NoDup (map rs_spu l) -> NoDup (map rs_spu (foldl (fun replicas status => merge_into status replicas) l new)).
Proof. revert l. induction new as [|s new IH]; intros l Hl; [done|]. cbn. by apply IH, merge_into_nodup. Qed.

Lemma filter_nodup (f : ReplicaStatus -> bool) l : NoDup (map rs_spu l) -> NoDup (map rs_spu (List.filter f l)).
Proof.
  induction l as [|a l IH]; [done|]. cbn. intros [Hni Hnd]%NoDup_cons. destruct (f a); [|by apply IH]. cbn.
  apply NoDup_cons. split; [|by apply IH]. intros (s & E & Hs)%list_elem_of_fmap. apply Hni. rewrite E.
  apply list_elem_of_fmap. exists s. split; [done|]. by apply list_elem_of_In, List.filter_In in Hs as [Hs%list_elem_of_In _].
Qed.

Lemma filter_not_leader spu l : spu ∉ map rs_spu (List.filter (fun s => negb (rs_spu s =? spu)) l).
Proof.
  intros (s & -> & Hs)%list_elem_of_fmap. apply list_elem_of_In, List.filter_In in Hs as [_ Hs].
  by rewrite Z.eqb_refl in Hs.
Qed.

Lemma status_merge_keeps other self : status_ok self -> status_ok (status_merge other self).
Proof.
  intros [Hnd Hni]. unfold status_merge. destruct (replica_status_merge _ _) as [old leader] eqn:E.
  split; cbn; [|apply filter_not_leader]. apply filter_nodup, merges_nodup.
  revert E. unfold replica_status_merge. destruct (_ =? -1); [by intros [= <- <-]|].
  destruct (_ || _); intros [= <- <-]; [done|]. rewrite map_app. apply NoDup_app. split; [done|].
  split; [|apply NoDup_singleton]. cbn. by intros x Hx ->%list_elem_of_singleton.
Qed.

(** The SPUs a status knows of. *)
Definition known (st : PartitionStatus) : list Z := rs_spu (pst_leader st) :: live_replicas st.

Lemma merges_elem new l spu :
  spu ∈ map rs_spu (foldl (fun replicas status => merge_into status replicas) l new) <->
  spu ∈ map rs_spu l \/ spu ∈ map rs_spu new.
Proof.
  revert l. induction new as [|s new IH]; intros l; cbn [foldl map].
  - split; [by left|]. intros [?|[]%not_elem_of_nil]. done.
  - rewrite IH, merge_into_spus, elem_of_cons. case_bool_decide as Hin.
    + split; [tauto|]. intros [?|[->|?]]; auto.
    + rewrite elem_of_app, list_elem_of_singleton. tauto.
Qed.

Lemma filter_elem spu l x :
  x ∈ map rs_spu (List.filter (fun s => negb (rs_spu s =? spu)) l) <-> x ∈ map rs_spu l /\ x <> spu.
Proof.
  rewrite !list_elem_of_fmap. setoid_rewrite list_elem_of_In. setoid_rewrite List.filter_In.
  setoid_rewrite negb_true_iff. setoid_rewrite Z.eqb_neq. naive_solver.
Qed.

Lemma status_merge_known other self spu :
  spu <> -1 -> spu ∈ known (status_merge other self) <-> spu ∈ known self \/ spu ∈ known other.
Proof.
  intros Hspu. unfold known, live_replicas, status_merge.
  destruct (replica_status_merge _ _) as [old leader] eqn:E. cbn [pst_leader pst_replicas update_lrs].
  rewrite !elem_of_cons, filter_elem, merges_elem. revert E. unfold replica_status_merge.
  destruct (Z.eqb_spec (rs_spu (pst_leader other)) (-1)) as [E1|E1]; [intros [= <- <-]|].
  - destruct (decide (spu = rs_spu (pst_leader self))); naive_solver.
  - destruct (Z.eqb_spec (rs_spu (pst_leader self)) (-1)) as [E2|E2]; cbn [orb].
    { intros [= <- <-]. cbn. destruct (decide (spu = rs_spu (pst_leader other))); naive_solver. }
    destruct (Z.eqb_spec (rs_spu (pst_leader self)) (rs_spu (pst_leader other))) as [E3|E3]; intros [= <- <-]; cbn.
    + destruct (decide (spu = rs_spu (pst_leader other))); naive_solver.
    + rewrite map_app, elem_of_app. cbn. rewrite list_elem_of_singleton.
      destruct (decide (spu = rs_spu (pst_leader other))); naive_solver.
Qed.

Lemma merge_into_length status l : (length (merge_into status l) <= S (length l))%nat.
Proof. induction l as [|o l IH]; cbn; [done|]. destruct (_ =? _); cbn; lia. Qed.
Lemma merges_length new l :
  (length (foldl (fun replicas status => merge_into status replicas) l new) <= length l + length new)%nat.
Proof.
  revert l. induction new as [|s new IH]; intros l; cbn; [lia|]. specialize (IH (merge_into s l)).
  pose proof (merge_into_length s l). lia.
Qed.
Lemma filter_length (f : ReplicaStatus -> bool) l : (length (List.filter f l) <= length l)%nat.
Proof. induction l as [|a l IH]; cbn; [done|]. destruct (f a); cbn; lia. Qed.

Lemma status_merge_lsr other self :
  zlen (pst_replicas self) + zlen (pst_replicas other) < 2 ^ 31 ->
  let st := status_merge other self in
  pst_lsr st = zlen (List.filter (fun re => negb (rs_leo re =? -1) && (rs_leo (pst_leader st) =? rs_leo re)) (pst_replicas st)).
Proof.
  intros Hlen. unfold status_merge, zlen in *. destruct (replica_status_merge _ _) as [old leader]. cbn.
  apply wrap_u_id. unfold in_u. set (l1 := foldl _ _ _). set (l2 := List.filter _ l1).
  pose proof (filter_length (fun re => negb (rs_leo re =? -1) && (rs_leo leader =? rs_leo re)) l2).
  pose proof (filter_length (fun s => negb (rs_spu s =? rs_spu leader)) l1 : (length l2 <= length l1)%nat).
  pose proof (merges_length (pst_replicas other) (match old with Some old => pst_replicas self ++ [old] | None => pst_replicas self end)
    : (length l1 <= _)%nat). destruct old; rewrite ?length_app in *; cbn [length] in *; lia.
Qed.

(** ** Laws of elections *)

Section elections.
Context (online : gset Z) (policy : ReplicaStatus -> ReplicaStatus -> ElectionScoring) (leader : ReplicaStatus).

(** The best candidate of a list. *)
Definition best_of (l : list ReplicaStatus) (best : option (Z * Z)) : Prop :=
  match best with
  | Some (score, spu) =>
      (exists c, c ∈ l /\ rs_spu c = spu /\ spu ∈ online /\ policy c leader = Score score) /\
      (forall c s, c ∈ l -> rs_spu c ∈ online -> policy c leader = Score s -> score <= s)
  | None => forall c, c ∈ l -> rs_spu c ∈ online -> policy c leader = NotSuitable
  end.

Lemma consider_best l best c : best_of l best -> best_of (l ++ [c]) (consider online policy leader best c).
Proof.
  intros Hb. unfold consider.
  assert (rs_spu c ∉ online \/ policy c leader = NotSuitable -> best_of (l ++ [c]) best) as Hskip.
  { intros Hc. destruct best as [[sc spu]|]; cbn in *.
    - destruct Hb as [(c0 & Hc0 & ?) Hmin]. split; [exists c0; split; [set_solver|done]|].
      intros c' s [Hc'| ->%list_elem_of_singleton]%elem_of_app Hon Hs; [by eapply Hmin|]. destruct Hc; [done|congruence].
    - intros c' [Hc'| ->%list_elem_of_singleton]%elem_of_app Hon; [by apply Hb|]. by destruct Hc. }
  case_bool_decide as Hon; [|by apply Hskip; left]. destruct (policy c leader) as [|s] eqn:Es; [by apply Hskip; right|].
  destruct best as [[sc spu]|]; cbn in *.
  - destruct Hb as [(c0 & Hc0 & ?) Hmin]. destruct (Z.ltb_spec s sc); cbn.
    + split; [exists c; split; [set_solver|done]|]. intros c' s' [Hc'| ->%list_elem_of_singleton]%elem_of_app Hon' Hs'.
      * specialize (Hmin c' s' Hc' Hon' Hs'). lia.
      * assert (s' = s) by congruence. lia.
    + split; [exists c0; split; [set_solver|done]|]. intros c' s' [Hc'| ->%list_elem_of_singleton]%elem_of_app Hon' Hs'.
      * by eapply Hmin.
      * assert (s' = s) by congruence. lia.
  - split; [exists c; split; [set_solver|done]|]. intros c' s' [Hc'| ->%list_elem_of_singleton]%elem_of_app Hon' Hs'.
    + specialize (Hb c' Hc' Hon'). congruence.
    + assert (s' = s) by congruence. lia.
Qed.

Lemma considered_best l : best_of l (foldl (consider online policy leader) None l).
Proof.
  induction l as [|c l IH] using rev_ind; [intros c []%not_elem_of_nil|]. rewrite foldl_app. cbn. by apply consider_best.
Qed.
End elections.

(** What the election of a leader needs of the offsets: they are counts of
    records, and no replica is recorded as ahead of the leader. *)
Definition offsets_ok (st : PartitionStatus) : Prop :=
  Forall (fun c => -1 <= rs_leo c <= rs_leo (pst_leader st)) (pst_replicas st) /\ rs_leo (pst_leader st) < 2 ^ 63 - 1.

Lemma score_spec st c : offsets_ok st -> c ∈ pst_replicas st ->
  potential_leader_score c (pst_leader st) =
  let lag := rs_leo (pst_leader st) - rs_leo c in if lag <? 4 then Score lag else NotSuitable.
Proof.
  intros [Hl Hm] Hc. rewrite Forall_forall in Hl. specialize (Hl c Hc). cbn in Hl.
  unfold potential_leader_score. rewrite wrap_i_id by (unfold in_i; lia). cbv zeta.
  destruct (Z.ltb_spec (rs_leo (pst_leader st) - rs_leo c) 4); [|done]. by rewrite wrap_u_id by (unfold in_u; lia).
Qed.

Lemma candidate_leader_spec online st :
  offsets_ok st ->
  match candidate_leader online potential_leader_score st with
  | Some spu =>
      exists c, c ∈ pst_replicas st /\ rs_spu c = spu /\ spu ∈ online /\ rs_leo (pst_leader st) - rs_leo c < 4 /\
        forall c', c' ∈ pst_replicas st -> rs_spu c' ∈ online -> rs_leo c' <= rs_leo c
  | None => forall c, c ∈ pst_replicas st -> rs_spu c ∈ online -> 4 <= rs_leo (pst_leader st) - rs_leo c
  end.
Proof.
  intros Hok. unfold candidate_leader. pose proof (considered_best online potential_leader_score (pst_leader st) (pst_replicas st)) as Hb.
  destruct (foldl _ None _) as [[sc spu]|]; cbn in *.
  - destruct Hb as [(c & Hc & Hspu & Hon & Hs) Hmin]. exists c. rewrite (score_spec st c Hok Hc) in Hs. cbv zeta in Hs.
    destruct (Z.ltb_spec (rs_leo (pst_leader st) - rs_leo c) 4); [|done]. injection Hs as <-. split_and!; try done.
    intros c' Hc' Hon'. specialize (Hmin c' (rs_leo (pst_leader st) - rs_leo c') Hc' Hon'). rewrite (score_spec st c' Hok Hc') in Hmin.
    cbv zeta in Hmin. destruct (Z.ltb_spec (rs_leo (pst_leader st) - rs_leo c') 4); [|lia]. specialize (Hmin eq_refl). lia.
  - intros c Hc Hon. specialize (Hb c Hc Hon). rewrite (score_spec st c Hok Hc) in Hb. cbv zeta in Hb.
    by destruct (Z.ltb_spec (rs_leo (pst_leader st) - rs_leo c) 4).
Qed.

Section election_laws.
Context {C : Type} `{!MetadataItem C}.
Notation Partition := (MetadataStoreObject ReplicaKey PartitionSpec PartitionStatus C).
Notation Spu := (MetadataStoreObject string SpuSpec SpuStatus C).
Implicit Types (p : Partition) (spu : Spu).

Lemma candidate_elem online (st : PartitionStatus) l :
  candidate_leader online potential_leader_score st = Some l -> l ∈ live_replicas st /\ l ∈ online.
Proof.
  unfold candidate_leader. pose proof (considered_best online potential_leader_score (pst_leader st) (pst_replicas st)) as Hb.
  destruct (foldl _ None _) as [[sc spu]|]; [|done]. cbn in *. intros [= <-].
  destruct Hb as [(c & Hc & <- & Hon & _) _]. split; [|done]. apply list_elem_of_fmap. by exists c.
Qed.

Lemma election_off_spec id online p key spec :
  UpdateSpec key spec ∈ election_off id online p ->
  key = obj_key p /\ exists l, spec = with_leader l (obj_spec p) /\ candidate_leader online potential_leader_score (obj_status p) = Some l.
Proof.
  unfold election_off. destruct (_ =? id); [|by intros []%not_elem_of_nil].
  destruct (candidate_leader _ _ _) as [l|] eqn:E.
  - intros [= -> ->]%list_elem_of_singleton. split; [done|]. by exists l.
  - destruct (status_is_online _); [by intros ?%list_elem_of_singleton|by intros []%not_elem_of_nil].
Qed.

(** A replica that may lead. *)
Definition suitable_replica (st : PartitionStatus) (spu : Z) : Prop :=
  exists c, c ∈ pst_replicas st /\ rs_spu c = spu /\ is_suitable (potential_leader_score c (pst_leader st)) = true.

Lemma election_on_spec id p key spec :
  UpdateSpec key spec ∈ election_on id p ->
  key = obj_key p /\ spec = with_leader id (obj_spec p) /\ is_readable (obj_status p) = false /\ suitable_replica (obj_status p) id.
Proof.
  unfold election_on. destruct (is_readable _); cbn [negb]; [by intros []%not_elem_of_nil|].
  destruct (_ =? id); cbn [negb]; [by intros ?%list_elem_of_singleton|].
  intros (l & Hl & Hin)%list_elem_of_join. apply list_elem_of_fmap in Hin as (rs & -> & Hrs).
  destruct (Z.eqb_spec (rs_spu rs) id) as [<-|?]; cbn [andb] in Hl; [|by apply not_elem_of_nil in Hl].
  destruct (is_suitable _) eqn:E; [|by apply not_elem_of_nil in Hl]. apply list_elem_of_singleton in Hl as [= -> ->].
  split_and!; try done. by exists rs.
Qed.

(** Who is elected: the candidate, or an SPU that came online and has a replica
    of a partition that cannot be read. *)
Definition chosen (spu_store : LocalStore string SpuSpec SpuStatus C) (spus : list Spu) p (l : Z) : Prop :=
  candidate_leader (online_status spu_store) potential_leader_score (obj_status p) = Some l \/
  (is_readable (obj_status p) = false /\ suitable_replica (obj_status p) l /\
   exists spu, spu ∈ spus /\ spu_id (obj_spec spu) = l /\ spu_is_online (obj_status spu) = true).
Lemma elected_leader spu_store partition_store (spus : list Spu) key spec :
  UpdateSpec key spec ∈ update_election_from_spu_changes spu_store partition_store spus ->
  exists p l, p ∈ clone_values (store partition_store) /\ obj_key p = key /\ spec = with_leader l (obj_spec p) /\
    chosen spu_store spus p l.
Proof.
  unfold update_election_from_spu_changes. intros [H|H]%elem_of_app; apply list_elem_of_join in H as (l1 & Hl1 & Hin);
    apply list_elem_of_fmap in Hin as (spu & -> & Hspu); apply list_elem_of_join in Hl1 as (l2 & Hl2 & Hin);
    apply list_elem_of_fmap in Hin as (p & -> & Hp).
  - apply election_off_spec in Hl2 as (-> & l & -> & Hc). exists p, l. split_and!; try done. by left.
  - apply election_on_spec in Hl2 as (-> & -> & Hr & Hs). exists p, (spu_id (obj_spec spu)). split_and!; try done. right.
    split_and!; try done. exists spu. apply list_elem_of_In, List.filter_In in Hspu as [Hin Hon]. split_and!; [by apply list_elem_of_In|done..].
Qed.
Lemma chosen_live spu_store spus p l : chosen spu_store spus p l -> l ∈ live_replicas (obj_status p).
Proof. intros [Hc|(_ & (c & Hc & <- & _) & _)]; [by eapply candidate_elem|]. apply list_elem_of_fmap. by exists c. Qed.
Lemma chosen_online spu_store spus p l :
  (forall spu, spu ∈ spus -> spu_is_online (obj_status spu) = true -> spu_id (obj_spec spu) ∈ online_status spu_store) ->
  chosen spu_store spus p l -> l ∈ online_status spu_store.
Proof. intros Hon [Hc|(_ & _ & spu & Hin & <- & ?)]; [by eapply candidate_elem|by apply Hon]. Qed.

(** All but the leader is as it was. *)
Definition only_leader_changed (new old : PartitionSpec) : Prop :=
  ps_replicas new = ps_replicas old /\ ps_cleanup_policy new = ps_cleanup_policy old /\ ps_storage new = ps_storage old /\
  ps_compression_type new = ps_compression_type old /\ ps_deduplication new = ps_deduplication old /\
  ps_system new = ps_system old /\ ps_mirror new = ps_mirror old.
(** A replica that is at most three records behind the leader; the one with the
    most records among those that are online. *)
Definition close_replica (st : PartitionStatus) (c : ReplicaStatus) : Prop :=
  c ∈ pst_replicas st /\ rs_leo (pst_leader st) - rs_leo c < 4.
Definition best_replica (online : gset Z) (st : PartitionStatus) (spu : Z) : Prop :=
  spu ∈ online /\ exists c, close_replica st c /\ rs_spu c = spu /\
    forall c', c' ∈ pst_replicas st -> rs_spu c' ∈ online -> rs_leo c' <= rs_leo c.

Lemma suitable_close st (spu : Z) : offsets_ok st -> suitable_replica st spu <-> exists c, close_replica st c /\ rs_spu c = spu.
Proof.
  intros Hok. split.
  - intros (c & Hc & Hs & Hp). rewrite (score_spec st c Hok Hc) in Hp. cbv zeta in Hp.
    destruct (Z.ltb_spec (rs_leo (pst_leader st) - rs_leo c) 4); [|done]. by exists c.
  - intros (c & [Hc Hl] & Hs). exists c. rewrite (score_spec st c Hok Hc). cbv zeta. by rewrite (proj2 (Z.ltb_lt _ _) Hl).
Qed.
Lemma candidate_best online st l :
  offsets_ok st -> candidate_leader online potential_leader_score st = Some l -> best_replica online st l.
Proof.
  intros Hok E. pose proof (candidate_leader_spec online st Hok) as Hc. rewrite E in Hc.
  destruct Hc as (c & Hc & Hs & Hon & Hl & Hbest). split; [done|]. by exists c.
Qed.
(** What becomes of a partition whose leader is offline. *)
Definition given_or_offline (online : gset Z) (p : MetadataStoreObject ReplicaKey PartitionSpec PartitionStatus C)
    (actions : list (WSAction ReplicaKey PartitionSpec PartitionStatus C)) : Prop :=
  (exists spec, UpdateSpec (obj_key p) spec ∈ actions /\ only_leader_changed spec (obj_spec p) /\
     best_replica online (obj_status p) (ps_leader spec)) \/
  ((forall c, close_replica (obj_status p) c -> rs_spu c ∉ online) /\
   (status_is_online (obj_status p) = true -> UpdateStatus (obj_key p) (with_resolution ResLeaderOffline (obj_status p)) ∈ actions)).

Lemma offline_handled spu_store partition_store (spus : list Spu) spu p :
  spu ∈ spus -> spu_is_offline (obj_status spu) = true -> p ∈ clone_values (store partition_store) ->
  ps_leader (obj_spec p) = spu_id (obj_spec spu) -> offsets_ok (obj_status p) ->
  given_or_offline (online_status spu_store) p (update_election_from_spu_changes spu_store partition_store spus).
Proof.
  intros Hspu Hoff Hp Hlead Hok.
  assert (forall a, a ∈ election_off (spu_id (obj_spec spu)) (online_status spu_store) p ->
    a ∈ update_election_from_spu_changes spu_store partition_store spus) as Hin.
  { intros a Ha. unfold update_election_from_spu_changes. apply elem_of_app. left. apply list_elem_of_join.
    exists (force_election_spu_off spu_store partition_store spu). split.
    - apply list_elem_of_join. eexists. split; [exact Ha|]. apply list_elem_of_fmap. by exists p.
    - apply list_elem_of_fmap. exists spu. split; [done|]. apply list_elem_of_In, List.filter_In.
      unfold spu_is_offline, spu_is_init, spu_is_online in *. split; [|by destruct (spu_resolution _)].
      apply List.filter_In. split; [by apply list_elem_of_In|by destruct (spu_resolution _)]. }
  unfold election_off in Hin. rewrite Hlead, Z.eqb_refl in Hin.
  pose proof (candidate_leader_spec (online_status spu_store) (obj_status p) Hok) as Hc.
  destruct (candidate_leader _ _ _) as [l|] eqn:E.
  - left. exists (with_leader l (obj_spec p)). split; [apply Hin; by apply list_elem_of_singleton|]. split; [done|].
    by apply candidate_best.
  - right. split; [intros c [Hr Hl] Ho; specialize (Hc c Hr Ho); lia|]. intros Hon. rewrite Hon in Hin. apply Hin. by apply list_elem_of_singleton.
Qed.
Lemma online_handled spu_store partition_store (spus : list Spu) spu p a :
  spu ∈ spus -> spu_is_online (obj_status spu) = true -> p ∈ clone_values (store partition_store) ->
  a ∈ election_on (spu_id (obj_spec spu)) p -> a ∈ update_election_from_spu_changes spu_store partition_store spus.
Proof.
  intros Hspu Hon Hp Ha. unfold update_election_from_spu_changes. apply elem_of_app. right. apply list_elem_of_join.
  exists (force_election_spu_on partition_store spu). split.
  - apply list_elem_of_join. eexists. split; [exact Ha|]. apply list_elem_of_fmap. by exists p.
  - apply list_elem_of_fmap. exists spu. split; [done|]. apply list_elem_of_In, List.filter_In. split; [by apply list_elem_of_In|done].
Qed.
Lemma online_given id p :
  is_readable (obj_status p) = false -> ps_leader (obj_spec p) <> id -> suitable_replica (obj_status p) id ->
  UpdateSpec (obj_key p) (with_leader id (obj_spec p)) ∈ election_on id p.
Proof.
  intros Hr Hl (c & Hc & Hs & Hp). unfold election_on. rewrite Hr, (proj2 (Z.eqb_neq _ _) Hl). cbn [negb].
  apply list_elem_of_join. eexists. split; [|apply list_elem_of_fmap; exists c; split; [reflexivity|done]].
  rewrite Hs, Z.eqb_refl, Hp. apply list_elem_of_here.
Qed.
Lemma online_back p :
  is_readable (obj_status p) = false ->
  UpdateStatus (obj_key p) (with_resolution ResOnline (obj_status p)) ∈ election_on (ps_leader (obj_spec p)) p.
Proof. intros Hr. unfold election_on. rewrite Hr, Z.eqb_refl. apply list_elem_of_here. Qed.
End election_laws.

(** ** Claims *)

(** C40: merging a report into the status of a partition keeps one entry for
    each SPU, with the leader's apart; no SPU that was known is forgotten, the
    reported leader becomes the leader, and [lsr] counts the replicas that are
    level with it. *)
Theorem status_merge_correct (other self : PartitionStatus) :
  status_ok self -> zlen (pst_replicas self) + zlen (pst_replicas other) < 2 ^ 31 ->
  let st := status_merge other self in
  status_ok st /\
  (forall spu, spu <> -1 -> spu ∈ known st <-> spu ∈ known self \/ spu ∈ known other) /\
  rs_spu (pst_leader st) = (if rs_spu (pst_leader other) =? -1 then rs_spu (pst_leader self) else rs_spu (pst_leader other)) /\
  pst_lsr st = zlen (List.filter (fun re => negb (rs_leo re =? -1) && (rs_leo (pst_leader st) =? rs_leo re)) (pst_replicas st)) /\
  pst_base_offset st = pst_base_offset self.
Proof.
  intros Hok Hlen. cbv zeta. split_and!.
  - by apply status_merge_keeps.
  - intros spu Hspu. by apply status_merge_known.
  - unfold status_merge, replica_status_merge. destruct (_ =? -1); [done|]. by destruct (_ || _).
  - by apply status_merge_lsr.
  - unfold status_merge. by destruct (replica_status_merge _ _).
Qed.

(** The leader changes from SPU 1 to SPU 2. *)
Definition example_status : PartitionStatus :=
  MkPartitionStatus ResOnline (MkReplicaStatus 1 5 9) 0 [MkReplicaStatus 2 5 8; MkReplicaStatus 3 5 9] 100 false 0.
Definition example_report : PartitionStatus :=
  partition_status_new2 (MkReplicaStatus 2 8 8) [MkReplicaStatus 3 8 8; MkReplicaStatus 4 (-1) (-1)] 120 ResOnline 3.
Lemma status_merge_correct_witness :
  status_ok (status_merge example_report example_status) /\ known (status_merge example_report example_status) = [2; 3; 1; 4].
Proof.
  split; [|reflexivity]. apply (status_merge_correct example_report example_status); [|reflexivity].
  split; cbn; [repeat constructor|]; set_solver.
Defined.

(** An election gives the partition to an online replica that is fewer
    than four records behind the leader and has at least as many records as
    every other online replica; it fails exactly when every online replica is
    further behind. *)
Theorem candidate_leader_correct (online : gset Z) (st : PartitionStatus) :
  offsets_ok st ->
  match candidate_leader online potential_leader_score st with
  | Some spu =>
      exists c, c ∈ pst_replicas st /\ rs_spu c = spu /\ spu ∈ online /\ rs_leo (pst_leader st) - rs_leo c < 4 /\
        forall c', c' ∈ pst_replicas st -> rs_spu c' ∈ online -> rs_leo c' <= rs_leo c
  | None => forall c, c ∈ pst_replicas st -> rs_spu c ∈ online -> 4 <= rs_leo (pst_leader st) - rs_leo c
  end.
Proof. apply candidate_leader_spec. Qed.

Lemma candidate_leader_correct_witness :
  candidate_leader {[2; 3]} potential_leader_score example_status = Some 3 /\
  exists c, c ∈ pst_replicas example_status /\ rs_spu c = 3 /\ (3 : Z) ∈ ({[2; 3]} : gset Z) /\ 9 - rs_leo c < 4 /\
    forall c', c' ∈ pst_replicas example_status -> rs_spu c' ∈ ({[2; 3]} : gset Z) -> rs_leo c' <= rs_leo c.
Proof.
  assert (candidate_leader {[2; 3]} potential_leader_score example_status = Some 3) as E by reflexivity.
  split; [exact E|]. pose proof (candidate_leader_correct {[2; 3]} example_status) as Hc. rewrite E in Hc. apply Hc.
  split; [|reflexivity]. repeat constructor; cbn; lia.
Defined.


(** SPU 1 goes offline; SPU 2 is level with it. *)
#[local] Instance election_item : MetadataItem Z := u32_item.
Definition example_spu_object (id : Z) (online : bool) : MetadataStoreObject string SpuSpec SpuStatus Z :=
  MkObject (spu_spec_new id) (MkSpuStatus (if online then SpuOnline else SpuOffline)) (show_unsigned id) (MkContext 1).
Definition example_spus : LocalStore string SpuSpec SpuStatus Z :=
  snd (sync_all [example_spu_object 1 false; example_spu_object 2 true] store_default).
Definition example_partition : MetadataStoreObject ReplicaKey PartitionSpec PartitionStatus Z :=
  MkObject (partition_spec_new 1 [1; 2])
    (MkPartitionStatus ResOnline (MkReplicaStatus 1 5 9) 1 [MkReplicaStatus 2 5 9] 100 false 0) (example_key 0) (MkContext 1).
Definition example_partition_store : LocalStore ReplicaKey PartitionSpec PartitionStatus Z :=
  snd (sync_all [example_partition] store_default).
Lemma example_partition_values : clone_values (store example_partition_store) = [example_partition].
Proof. vm_compute. reflexivity. Qed.
Lemma example_partition_ok :
  live_replicas (obj_status example_partition) ⊆ ps_replicas (obj_spec example_partition) /\ offsets_ok (obj_status example_partition).
Proof. split; [cbn; set_solver|]. split; [|reflexivity]. repeat constructor; cbn; lia. Qed.

(** An election can choose a replica that lacks records below the high
    watermark. *)
Theorem election_loses_committed :
  candidate_leader {[2]} potential_leader_score
    (MkPartitionStatus ResOnline (MkReplicaStatus 1 10 10) 1 [MkReplicaStatus 2 7 7; MkReplicaStatus 3 10 10] 100 false 0) = Some 2.
Proof. reflexivity. Qed.
(** A replica that is recorded as ahead of the leader has the worst score. *)
Theorem ahead_candidate_last :
  candidate_leader {[2; 3]} potential_leader_score
    (MkPartitionStatus ResOnline (MkReplicaStatus 1 10 10) 1 [MkReplicaStatus 2 11 11; MkReplicaStatus 3 7 7] 100 false 0) = Some 3.
Proof. reflexivity. Qed.

(** One report of a replica that is not there discards all reports of a
    request. *)
Theorem unknown_replica_discards {C : Type} `{!MetadataItem C} (requests : list LrsRequest)
    (partitions : LocalStore ReplicaKey PartitionSpec PartitionStatus C) (r : LrsRequest) :
  r ∈ requests -> values (store partitions) !! lrs_id r = None -> receive_lrs_update requests partitions = [].
Proof.
  intros Hin Hn. unfold receive_lrs_update.
  assert (forall (f : LrsRequest -> option (WSAction ReplicaKey PartitionSpec PartitionStatus C)) l,
    r ∈ l -> f r = None -> convert_all f l = None) as ->; [|done|done|by rewrite Hn].
  intros f l. induction l as [|a l IH]; [by intros []%not_elem_of_nil|]. intros [<-|Hl]%elem_of_cons Hf; cbn.
  - by rewrite Hf.
  - rewrite (IH Hl Hf). by destruct (f a).
Qed.
