(* ===== verification/Topics.v ===== *)
(** * Topics

    The spec and the status of a topic and their validation, from
    [fluvio-controlplane-metadata/src/topic]. *)

From S2P Require Import Prelude Names ClusterTypes.
From stdpp Require Import gmap strings list sorting.

#[local] Open Scope string_scope.
#[local] Open Scope Z_scope.

(** ** Specs *)

(* src/crates/fluvio-controlplane-metadata/src/topic/spec.rs:365-375 TopicReplicaParam *)
Record TopicReplicaParam := MkTopicReplicaParam {
  param_partitions : Z;
  param_replication_factor : Z;
  param_ignore_rack_assignment : bool;
}.
(* src/crates/fluvio-controlplane-metadata/src/topic/spec.rs:605-614 PartitionMap *)
Record PartitionMap := MkPartitionMap { pm_id : Z; pm_replicas : list Z; pm_mirror : option PartitionMirrorConfig }.
(* src/crates/fluvio-controlplane-metadata/src/topic/spec.rs:898-902 SpuMirrorConfig *)
Record SpuMirrorConfig := MkSpuMirrorConfig { sm_id : Z; sm_key : string; sm_endpoint : string }.
(* src/crates/fluvio-controlplane-metadata/src/topic/spec.rs:883-890 RemoteMirrorConfig *)
Record RemoteMirrorConfig := MkRemoteMirrorConfig { rm_home_cluster : string; rm_home_spus : list SpuMirrorConfig; rm_target : bool }.
(* src/crates/fluvio-controlplane-metadata/src/topic/spec.rs:803-812 HomeMirrorInner *)
Record HomeMirrorInner := MkHomeMirrorInner { hm_partitions : list HomePartitionConfig; hm_source : bool }.
(* src/crates/fluvio-controlplane-metadata/src/topic/spec.rs:622-627 MirrorConfig *)
Inductive MirrorConfig := ConfigRemote (config : RemoteMirrorConfig) | ConfigHome (config : HomeMirrorInner).
(* src/crates/fluvio-controlplane-metadata/src/topic/spec.rs:198-212 ReplicaSpec *)
Inductive ReplicaSpec :=
| Assigned (partition_map : list PartitionMap)
| Computed (param : TopicReplicaParam)
| Mirror (config : MirrorConfig).
(* src/crates/fluvio-controlplane-metadata/src/topic/spec.rs:24-42 TopicSpec *)
Record TopicSpec := MkTopicSpec {
  ts_replicas : ReplicaSpec;
  ts_cleanup_policy : option CleanupPolicy;
  ts_storage : option TopicStorageConfig;
  ts_compression_type : CompressionAlgorithm;
  ts_deduplication : option Deduplication;
  ts_system : bool;
}.
(* src/crates/fluvio-controlplane-metadata/src/topic/spec.rs:44-51 TopicSpec::from(ReplicaSpec) *)
Definition topic_spec_of (replicas : ReplicaSpec) : TopicSpec := MkTopicSpec replicas None None AlgAny None false.
(* src/crates/fluvio-controlplane-metadata/src/topic/spec.rs:69-78 TopicSpec::new_computed *)
Definition new_computed (partitions replication : Z) (ignore_rack : option bool) : TopicSpec :=
  topic_spec_of (Computed (MkTopicReplicaParam partitions replication (default false ignore_rack))).

(** ** Mirrors *)

(** [iter().enumerate()] as a function of the index. *)
Fixpoint enumerate {A} (i : Z) (l : list A) : list (Z * A) :=
  match l with [] => [] | a :: l => (i, a) :: enumerate (i + 1) l end.

(* src/crates/fluvio-controlplane-metadata/src/topic/spec.rs:649-654 MirrorConfig::partition_count *)
Definition mirror_partition_count (self : MirrorConfig) : Z :=
  match self with
  | ConfigRemote src => as_u32 (zlen (rm_home_spus src))
  | ConfigHome tg => as_u32 (zlen (hm_partitions tg))
  end.
(** The mirror of each partition, as [compute_next_state] and
    [as_partition_maps] have it. *)
Definition remote_partition (src : RemoteMirrorConfig) (spu : SpuMirrorConfig) : PartitionMirrorConfig :=
  MirrorRemote (MkRemotePartitionConfig (rm_home_cluster src) (sm_key spu) (sm_id spu) (sm_endpoint spu) (rm_target src)).
Definition mirror_partitions (self : MirrorConfig) : list (Z * PartitionMirrorConfig) :=
  enumerate 0 match self with
  | ConfigRemote src => map (remote_partition src) (rm_home_spus src)
  | ConfigHome tg => map MirrorHome (hm_partitions tg)
  end.
(** [None] is the error of a remote mirror. *)
(* src/crates/fluvio-controlplane-metadata/src/topic/spec.rs:668-678 MirrorConfig::set_home_to_remote *)
Definition set_home_to_remote (home_to_remote : bool) (self : MirrorConfig) : option MirrorConfig :=
  match self with
  | ConfigRemote _ => None
  | ConfigHome home =>
      Some (ConfigHome (MkHomeMirrorInner
        (map (fun p => MkHomePartitionConfig (remote_cluster p) (remote_replica p) home_to_remote) (hm_partitions home))
        home_to_remote))
  end.

(** ** Sizes of a topic *)

(* src/crates/fluvio-controlplane-metadata/src/topic/spec.rs:250-256 ReplicaSpec::partitions *)
Definition spec_partitions (self : ReplicaSpec) : Z :=
  match self with
  | Computed param => param_partitions param
  | Assigned partition_map => as_u32 (zlen partition_map)
  | Mirror config => mirror_partition_count config
  end.

(** ** Validation *)

Definition STORAGE_RETENTION_SECONDS_MIN : Z := 10.
Definition SPU_LOG_LOG_SEGMENT_MAX_BYTE_MIN : Z := 1024.
Definition SPU_PARTITION_MAX_BYTES_MIN : Z := SPU_LOG_LOG_SEGMENT_MAX_BYTE_MIN * 2.
Definition SPU_LOG_SEGMENT_MAX_BYTES : Z := 1073741824.
Definition show_signed (n : Z) : string := (if n <? 0 then "-" else "") ++ show_unsigned (Z.abs n).

(* src/crates/fluvio-controlplane-metadata/src/topic/spec.rs:158-193 TopicSpec::validate_config *)
Definition validate_config (self : TopicSpec) : option string :=
  let retention :=
    policy ← ts_cleanup_policy self;
    if retention_secs policy <? STORAGE_RETENTION_SECONDS_MIN then
      Some ("retention_secs " ++ show_unsigned (retention_secs policy) ++ " is less than minimum "
            ++ show_unsigned STORAGE_RETENTION_SECONDS_MIN)
    else None in
  match retention with
  | Some err => Some err
  | None =>
      storage ← ts_storage self;
      let segment :=
        segment_size ← segment_size storage;
        if segment_size <? SPU_LOG_LOG_SEGMENT_MAX_BYTE_MIN then
          Some ("segment_size " ++ show_unsigned segment_size ++ " is less than minimum "
                ++ show_unsigned SPU_LOG_LOG_SEGMENT_MAX_BYTE_MIN)
        else None in
      match segment with
      | Some err => Some err
      | None =>
          max_partition_size ← storage_max_partition_size storage;
          if max_partition_size <? SPU_PARTITION_MAX_BYTES_MIN then
            Some ("max_partition_size " ++ show_unsigned max_partition_size ++ " is less than minimum "
                  ++ show_unsigned SPU_PARTITION_MAX_BYTES_MIN)
          else
            let segment_size := default SPU_LOG_SEGMENT_MAX_BYTES (segment_size storage) in
            if max_partition_size <? segment_size then
              Some ("max_partition_size " ++ show_unsigned max_partition_size ++ " is less than segment size "
                    ++ show_unsigned segment_size)
            else None
      end
  end.

(* src/crates/fluvio-controlplane-metadata/src/topic/spec.rs:340-346 ReplicaSpec::valid_partition *)
Definition valid_partition (partitions : Z) : option string :=
  if partitions =? 0 then Some "partition must be greater than 0" else None.
(* src/crates/fluvio-controlplane-metadata/src/topic/spec.rs:349-355 ReplicaSpec::valid_replication_factor *)
Definition valid_replication_factor (replication : Z) : option string :=
  if replication =? 0 then Some "replication factor must be greater than 0" else None.

(* src/crates/fluvio-controlplane-metadata/src/topic/spec.rs:493-505 PartitionMaps::unique_spus_in_partition_map *)
Definition unique_spus_in_partition_map (self : list PartitionMap) : list Z :=
  foldl (fun spu_ids partition =>
    foldl (fun spu_ids spu => if bool_decide (spu ∈ spu_ids) then spu_ids else (spu_ids ++ [spu])%list) spu_ids (pm_replicas partition))
    [] self.

(** [windows(2)] with a filter, counted. *)
Fixpoint count_steps (l : list Z) : nat :=
  match l with
  | a :: ((b :: _) as l') => if a =? b then count_steps l' else Datatypes.S (count_steps l')
  | _ => 0%nat
  end.
(** The checks of one partition, the [id]th one. *)
(* src/crates/fluvio-controlplane-metadata/src/topic/spec.rs:527-574 validate (loop body) *)
Definition validate_partition (id : Z) (replica_len : Z) (partition : PartitionMap) : option string :=
  let shape :=
    if id =? 0 then
      if negb (pm_id partition =? id) then Some "assigned partitions must start with id 0"
      else if zlen (pm_replicas partition) =? 0 then Some "assigned replicas must have at least one spu id"
      else None
    else
      if negb (pm_id partition =? id) then Some "assigned partition ids must be in sequence and without gaps"
      else if negb (zlen (pm_replicas partition) =? replica_len) then
        Some ("all assigned replicas must have the same number of spu ids: " ++ show_unsigned replica_len)
      else None in
  match shape with
  | Some err => Some err
  | None =>
      let sorted_replicas := merge_sort Z.le (pm_replicas partition) in
      let unique_count := 1 + Z.of_nat (count_steps sorted_replicas) in
      if negb (zlen (pm_replicas partition) =? unique_count) then
        Some ("duplicate spu ids found in assigned partition with id: " ++ show_unsigned id)
      else
        match List.find (fun spu_id => spu_id <? 0) (pm_replicas partition) with
        | Some spu_id => Some ("invalid spu id: " ++ show_signed spu_id ++ " in assigned partition with id: " ++ show_unsigned id)
        | None => None
        end
  end.
(* src/crates/fluvio-controlplane-metadata/src/topic/spec.rs:524-580 validate (loop) *)
Fixpoint validate_from (id replica_len : Z) (maps : list PartitionMap) : option string :=
  match maps with
  | [] => None
  | partition :: maps =>
      let replica_len := if id =? 0 then zlen (pm_replicas partition) else replica_len in
      match validate_partition id replica_len partition with
      | Some err => Some err
      | None => validate_from (as_u32 (id + 1)) replica_len maps
      end
  end.
(** [None] when the map is valid. *)
(* src/crates/fluvio-controlplane-metadata/src/topic/spec.rs:509-581 PartitionMaps::validate *)
Definition validate_maps (self : list PartitionMap) : option string :=
  match self with
  | [] => Some "no assigned partitions found"
  | _ => validate_from 0 0 self
  end.

(** ** Statuses *)

(* src/crates/fluvio-controlplane-metadata/src/topic/status.rs:45-59 TopicResolution *)
Inductive TopicResolution := Init | Pending | InsufficientResources | InvalidConfig | Provisioned | Deleting.
(* src/crates/fluvio-controlplane-metadata/src/topic/status.rs:28-35 TopicStatus *)
Record TopicStatus := MkTopicStatus {
  tst_resolution : TopicResolution;
  replica_map : gmap Z (list Z);
  mirror_map : gmap Z PartitionMirrorConfig;
  reason : string;
}.
(* src/crates/fluvio-controlplane-metadata/src/topic/status.rs:119-126 TopicStatus::default *)
Definition topic_status_default : TopicStatus := MkTopicStatus Init ∅ ∅ "".
Definition PENDING_REASON : string := "waiting for live spus".
(* src/crates/fluvio-controlplane-metadata/src/topic/status.rs:229-231 TopicStatus::next_resolution_pending *)
Definition next_resolution_pending : TopicResolution * string := (Pending, PENDING_REASON).
(* src/crates/fluvio-controlplane-metadata/src/topic/status.rs:233-235 TopicStatus::next_resolution_invalid_config *)
Definition next_resolution_invalid_config (reason : string) : TopicResolution * string := (InvalidConfig, reason).
(* src/crates/fluvio-controlplane-metadata/src/topic/status.rs:224-226 TopicStatus::is_resolution_provisioned *)
Definition is_resolution_provisioned (self : TopicStatus) : bool :=
  match tst_resolution self with Provisioned => true | _ => false end.
(* src/crates/fluvio-controlplane-metadata/src/topic/status.rs:81-83 TopicResolution::is_being_deleted *)
Definition resolution_is_being_deleted (self : TopicResolution) : bool := match self with Deleting => true | _ => false end.

(* src/crates/fluvio-controlplane-metadata/src/partition/spec.rs:48-65 PartitionSpec::from_replicas *)
Definition from_replicas (replicas : list Z) (topic : TopicSpec) (mirror : option PartitionMirrorConfig) : PartitionSpec :=
  MkPartitionSpec (match replicas with [] => 0 | leader :: _ => leader end) replicas (ts_cleanup_policy topic)
    (ts_storage topic) (ts_compression_type topic) (ts_deduplication topic) (ts_system topic) mirror.

#[export] Instance TopicResolution_eq : EqDecision TopicResolution. Proof. solve_decision. Defined.

(** ** Laws *)

Lemma count_steps_le l : (count_steps l <= Nat.pred (length l))%nat.
Proof.
  induction l as [|a l IH]; [done|]. destruct l as [|b l]; [done|]. cbn [count_steps length] in *.
  destruct (a =? b); cbn in *; lia.
Qed.

(** In a sorted list every step is a new number exactly when no number is
    there twice. *)
Lemma count_steps_nodup l :
  Sorted Z.le l -> (0 < length l)%nat -> Datatypes.S (count_steps l) = length l <-> NoDup l.
Proof.
  induction l as [|a l IH]; cbn [length]; [lia|]. intros Hs _. destruct l as [|b l].
  - split; [intros _; apply NoDup_singleton|done].
  - apply Sorted_inv in Hs as [Hs Hab]. apply HdRel_inv in Hab. specialize (IH Hs ltac:(cbn; lia)).
    pose proof (count_steps_le (b :: l)) as Hle. cbn [count_steps] in *. destruct (Z.eqb_spec a b) as [<-|Hne].
    + split; [cbn [length] in *; lia|]. intros [Hni _]%NoDup_cons. destruct Hni. apply list_elem_of_here.
    + rewrite NoDup_cons, <-IH. cbn [length] in *. split; [|lia]. intros E. split; [|lia]. intros Hin.
      apply Sorted_StronglySorted in Hs; [|by apply _]. apply StronglySorted_inv in Hs as [_ Hall].
      apply elem_of_cons in Hin as [->|Hin]; [done|]. rewrite Forall_forall in Hall. specialize (Hall a Hin). lia.
Qed.

Lemma sorted_unique (l : list Z) :
  (0 < length l)%nat -> zlen l = 1 + Z.of_nat (count_steps (merge_sort Z.le l)) <-> NoDup l.
Proof.
  intros Hl. pose proof (merge_sort_Permutation Z.le l) as Hp. pose proof (Permutation_length Hp) as El.
  assert (NoDup l <-> NoDup (merge_sort Z.le l)) as -> by (by rewrite Hp).
  rewrite <-count_steps_nodup; [|apply Sorted_merge_sort; intros x y; lia|lia]. unfold zlen. lia.
Qed.

(** What an assigned map must be. *)
Definition valid_replicas (len : nat) (p : PartitionMap) : Prop :=
  length (pm_replicas p) = len /\ NoDup (pm_replicas p) /\ Forall (fun spu => 0 <= spu) (pm_replicas p).
Definition valid_maps (maps : list PartitionMap) : Prop :=
  maps <> [] /\ map pm_id maps = seqZ 0 (zlen maps) /\
  exists len, (0 < len)%nat /\ Forall (valid_replicas len) maps.

Lemma find_negative l : List.find (fun spu_id => spu_id <? 0) l = None <-> Forall (fun spu => 0 <= spu) l.
Proof.
  induction l as [|a l IH]; cbn; [by split|]. rewrite Forall_cons, <-IH. destruct (Z.ltb_spec a 0); split; try done; [|tauto].
  intros [? _]. lia.
Qed.

Lemma validate_partition_iff id len p :
  (0 < len)%nat -> (id = 0 -> zlen (pm_replicas p) = Z.of_nat len) ->
  validate_partition id (Z.of_nat len) p = None <-> pm_id p = id /\ valid_replicas len p.
Proof.
  intros Hlen H0. unfold validate_partition, valid_replicas.
  assert (zlen (pm_replicas p) = Z.of_nat len <-> length (pm_replicas p) = len) as Hl by (unfold zlen; lia).
  set (shape := if id =? 0 then _ else _). assert (shape = None <-> pm_id p = id /\ length (pm_replicas p) = len) as Hs.
  { unfold shape. destruct (Z.eqb_spec id 0) as [Hz|Hz]; destruct (Z.eqb_spec (pm_id p) id); cbn [negb]; try (split; [done|tauto]).
    - specialize (H0 Hz). destruct (Z.eqb_spec (zlen (pm_replicas p)) 0); [lia|tauto].
    - destruct (Z.eqb_spec (zlen (pm_replicas p)) (Z.of_nat len)); cbn [negb]; [tauto|]. split; [done|tauto]. }
  destruct shape; [split; [done|]; intros (H1 & H2 & _); by destruct (proj2 Hs (conj H1 H2))|].
  destruct (proj1 Hs eq_refl) as [Hid Hll]. rewrite <-find_negative, <-sorted_unique by lia.
  destruct (Z.eqb_spec (zlen (pm_replicas p)) (1 + Z.of_nat (count_steps (merge_sort Z.le (pm_replicas p))))); cbn [negb].
  - destruct (List.find _ _); [split; [done|by intros (_ & _ & _ & ?)]|tauto].
  - split; [done|tauto].
Qed.

Lemma validate_from_iff id len maps :
  0 < id -> id + zlen maps <= 2 ^ 32 - 1 -> (0 < len)%nat ->
  validate_from id (Z.of_nat len) maps = None <-> map pm_id maps = seqZ id (zlen maps) /\ Forall (valid_replicas len) maps.
Proof.
  revert id. induction maps as [|p maps IH]; intros id Hid Hb Hlen; [done|].
  rewrite zlen_cons in *. pose proof (zlen_nonneg maps). cbn [validate_from map].
  rewrite (proj2 (Z.eqb_neq id 0)), seqZ_cons, Forall_cons, wrap_u_id by (unfold in_u; lia).
  replace (Z.pred (1 + zlen maps)) with (zlen maps) by lia. specialize (IH (id + 1) ltac:(lia) ltac:(lia) Hlen).
  replace (Z.succ id) with (id + 1) by lia.
  pose proof (validate_partition_iff id len p Hlen ltac:(lia)) as Hp. destruct (validate_partition id _ p).
  - split; [done|]. intros ([= H1 _] & H2 & _). by specialize (proj2 Hp (conj H1 H2)).
  - destruct (proj1 Hp eq_refl) as [-> Hv]. rewrite IH. split; [intros [-> ?]; done|]. by intros ([= ->] & _ & ?).
Qed.

Lemma check_none {A} (o : option A) (bad : A -> bool) (msg : A -> string) :
  (a ← o; if bad a then Some (msg a) else None) = None <-> forall a, o = Some a -> bad a = false.
Proof.
  unfold mbind, option_bind. destruct o as [a|]; [|done]. destruct (bad a) eqn:E; (split; [try done|]).
  - intros Hb. by rewrite (Hb a eq_refl) in E.
  - by intros _ a' [= <-].
  - done.
Qed.
Lemma ltb_none {A} (o : option A) (f : A -> Z) (lim : Z) :
  (forall a, o = Some a -> (f a <? lim) = false) <-> forall a, o = Some a -> lim <= f a.
Proof. split; intros Ha a Eo; specialize (Ha a Eo); by apply Z.ltb_ge. Qed.

(** The shape of the limits on sizes. *)
Definition within_limits (spec : TopicSpec) : Prop :=
  (forall policy, ts_cleanup_policy spec = Some policy -> STORAGE_RETENTION_SECONDS_MIN <= retention_secs policy) /\
  (forall storage, ts_storage spec = Some storage ->
     (forall n, segment_size storage = Some n -> SPU_LOG_LOG_SEGMENT_MAX_BYTE_MIN <= n) /\
     (forall n, storage_max_partition_size storage = Some n ->
        SPU_PARTITION_MAX_BYTES_MIN <= n /\ default SPU_LOG_SEGMENT_MAX_BYTES (segment_size storage) <= n)).

(** The sizes of a topic's storage are accepted exactly when they are within
    the limits. *)
Lemma validate_config_iff (spec : TopicSpec) : validate_config spec = None <-> within_limits spec.
Proof.
  unfold validate_config, within_limits. set (retention := _ ≫= _).
  pose proof (check_none (ts_cleanup_policy spec) (fun p => retention_secs p <? STORAGE_RETENTION_SECONDS_MIN) _ : retention = None <-> _) as Hr.
  rewrite (ltb_none _ retention_secs) in Hr. rewrite <-Hr. destruct retention; [by split; [|intros [? _]]|].
  destruct (ts_storage spec) as [st|]; unfold mbind, option_bind; [|by split].
  set (segment := match segment_size st with Some _ => _ | None => None end).
  pose proof (check_none (segment_size st) (fun n => n <? SPU_LOG_LOG_SEGMENT_MAX_BYTE_MIN) _ : segment = None <-> _) as Hs.
  rewrite (ltb_none _ id) in Hs. destruct segment.
  { split; [done|]. intros [_ H2]. destruct (H2 st eq_refl) as [H3 _]. by apply Hs in H3. }
  destruct (storage_max_partition_size st) as [n|] eqn:En.
  - destruct (Z.ltb_spec n SPU_PARTITION_MAX_BYTES_MIN); [|destruct (Z.ltb_spec n (default SPU_LOG_SEGMENT_MAX_BYTES (segment_size st)))].
    + split; [done|]. intros [_ H2]. destruct (H2 st eq_refl) as [_ H3]. destruct (H3 n En). lia.
    + split; [done|]. intros [_ H2]. destruct (H2 st eq_refl) as [_ H3]. destruct (H3 n En). lia.
    + split; [|done]. intros _. split; [done|]. intros st' [= <-]. split; [by apply Hs|].
      intros n' E'. assert (n' = n) as -> by congruence. done.
  - split; [|done]. intros _. split; [done|]. intros st' [= <-]. split; [by apply Hs|]. by rewrite En.
Qed.

(** ** Claims *)

(** The validation of an assigned partition map accepts exactly the maps
    whose ids count up from 0 and whose replicas are equally many, at least
    one, distinct and not negative. *)
Theorem validate_maps_iff (maps : list PartitionMap) :
  zlen maps < 2 ^ 32 -> validate_maps maps = None <-> valid_maps maps.
Proof.
  intros Hb. destruct maps as [|p maps]; [split; [done|by intros [[] _]]|]. unfold valid_maps. cbn [validate_maps validate_from].
  change (as_u32 (0 + 1)) with 1. cbn [Z.eqb]. rewrite zlen_cons in *. pose proof (zlen_nonneg maps).
  rewrite seqZ_cons by lia. replace (Z.pred (1 + zlen maps)) with (zlen maps) by lia. cbn [map].
  destruct (decide (length (pm_replicas p) = 0%nat)) as [Hnil|Hnil].
  - apply nil_length_inv in Hnil. unfold validate_partition. rewrite Hnil. cbn [Z.eqb]. split.
    + by destruct (negb _).
    + intros (_ & _ & len & Hlen & [[E _] _]%Forall_cons). rewrite Hnil in E. cbn in E. lia.
  - pose proof (validate_partition_iff 0 (length (pm_replicas p)) p ltac:(lia) ltac:(done)) as Hp.
    change (zlen (pm_replicas p)) with (Z.of_nat (length (pm_replicas p))).
    pose proof (validate_from_iff 1 (length (pm_replicas p)) maps ltac:(lia) ltac:(lia) ltac:(lia)) as Hm.
    destruct (validate_partition 0 _ p).
    + split; [done|]. intros (_ & [= H1 _] & len & Hlen & [Hv _]%Forall_cons).
      assert (len = length (pm_replicas p)) as -> by (by destruct Hv). by specialize (proj2 Hp (conj H1 Hv)).
    + destruct (proj1 Hp eq_refl) as [-> Hv]. rewrite Hm. split.
      * intros [-> Hall]. split; [done|]. split; [done|]. exists (length (pm_replicas p)). split; [lia|by constructor].
      * intros (_ & [= ->] & len & Hlen & [Hv' Hall]%Forall_cons). split; [done|].
        assert (len = length (pm_replicas p)) as -> by (by destruct Hv'). done.
Qed.

Lemma validate_maps_iff_witness :
  validate_maps [MkPartitionMap 0 [1; 2] None; MkPartitionMap 1 [2; 0] None] = None /\
  valid_maps [MkPartitionMap 0 [1; 2] None; MkPartitionMap 1 [2; 0] None].
Proof.
  assert (validate_maps [MkPartitionMap 0 [1; 2] None; MkPartitionMap 1 [2; 0] None] = None) as E by reflexivity.
  split; [exact E|]. apply (validate_maps_iff [MkPartitionMap 0 [1; 2] None; MkPartitionMap 1 [2; 0] None]); [reflexivity|exact E].
Defined.
