(* ===== verification/ScTopics.v ===== *)
(** * Topics at the controller

    Where the replicas of a topic go and how a topic becomes partitions: the
    scheduler of [fluvio-sc/src/controllers/scheduler/partition.rs], its
    weights in [fluvio-sc/src/stores/partition/store.rs], and the life of a
    topic in [fluvio-sc/src/controllers/topics/policy.rs] and [reducer.rs]. *)

From S2P Require Import Prelude Names EpochMap MetadataStore MetadataSync ClusterTypes SpuStore SpuControl ScPartitions Topics.
From stdpp Require Import gmap strings list sorting.

#[local] Open Scope string_scope.
#[local] Open Scope Z_scope.

(** ** Weights *)

(* src/crates/fluvio-sc/src/stores/partition/store.rs:191-194 PartitionCountSpu *)
Record PartitionCountSpu := MkCount { count_leaders : Z; count_followers : Z }.
(* src/crates/fluvio-sc/src/stores/partition/store.rs:185-188 SpuWeightSelection *)
Inductive SpuWeightSelection := WeightLeader | WeightFollower.
(** [ReplicaSchedulingGroups]: the counts of each SPU. *)
Notation ReplicaSchedulingGroups := (gmap Z PartitionCountSpu).
(** [u16::MAX] *)
Definition u16_max : Z := 65535.

Definition weight_of (self : ReplicaSchedulingGroups) (weight : SpuWeightSelection) (spu_id : Z) : Z :=
  match self !! spu_id with
  | Some group => match weight with WeightLeader => count_leaders group | WeightFollower => count_followers group end
  | None => 0
  end.
(* src/crates/fluvio-sc/src/stores/partition/store.rs:118-136 find_suitable_spu (loop body) *)
Definition try_spu (self : ReplicaSchedulingGroups) (anti_affinity : list Z) (weight : SpuWeightSelection)
    (st : option Z * Z) (spu_id : Z) : option Z * Z :=
  if bool_decide (spu_id ∈ anti_affinity) then st
  else
    let candidate_weight := weight_of self weight spu_id in
    if candidate_weight <? snd st then (Some spu_id, candidate_weight) else st.
(* src/crates/fluvio-sc/src/stores/partition/store.rs:108-139 ReplicaSchedulingGroups::find_suitable_spu *)
Definition find_suitable_spu (spu_list anti_affinity : list Z) (weight : SpuWeightSelection) (self : ReplicaSchedulingGroups)
    : option Z :=
  fst (foldl (try_spu self anti_affinity weight) (None, u16_max) spu_list).
(* src/crates/fluvio-sc/src/stores/partition/store.rs:141-149 ReplicaSchedulingGroups::increase_leaders *)
Definition increase_leaders (spu : Z) (self : ReplicaSchedulingGroups) : ReplicaSchedulingGroups :=
  let group := default (MkCount 0 0) (self !! spu) in
  <[spu := MkCount (as_u16 (count_leaders group + 1)) (count_followers group)]> self.
(* src/crates/fluvio-sc/src/stores/partition/store.rs:151-159 ReplicaSchedulingGroups::increase_followers *)
Definition increase_followers (spu : Z) (self : ReplicaSchedulingGroups) : ReplicaSchedulingGroups :=
  let group := default (MkCount 0 0) (self !! spu) in
  <[spu := MkCount (count_leaders group) (as_u16 (count_followers group + 1))]> self.

(** The counts of one partition. *)
Definition count_partition (groups : ReplicaSchedulingGroups) (spec : PartitionSpec) : ReplicaSchedulingGroups :=
  foldl (fun groups follower => if negb (follower =? ps_leader spec) then increase_followers follower groups else groups)
    (increase_leaders (ps_leader spec) groups) (ps_replicas spec).

Section controller.
Context {C : Type} `{!MetadataItem C}.
Notation Partition := (MetadataStoreObject ReplicaKey PartitionSpec PartitionStatus C).
Notation Topic := (MetadataStoreObject string TopicSpec TopicStatus C).
Notation PartitionLocalStore := (LocalStore ReplicaKey PartitionSpec PartitionStatus C).
Notation SpuLocalStore := (LocalStore string SpuSpec SpuStatus C).
Notation PartitionWSAction := (WSAction ReplicaKey PartitionSpec PartitionStatus C).
Notation TopicWSAction := (WSAction string TopicSpec TopicStatus C).

(* src/crates/fluvio-sc/src/stores/partition/store.rs:328-342 PartitionLocalStore::group_by_spu *)
Definition group_by_spu (self : PartitionLocalStore) : ReplicaSchedulingGroups :=
  foldl (fun groups partition => count_partition groups (obj_spec partition)) ∅ (clone_values (store self)).

(** ** The scheduler *)

(* src/crates/fluvio-sc/src/controllers/scheduler/partition.rs:68-72 PartitionScheduler *)
Record PartitionScheduler := MkScheduler {
  sched_spus : SpuLocalStore;
  sched_partitions : PartitionLocalStore;
  scheduling_groups : ReplicaSchedulingGroups;
}.
(* src/crates/fluvio-sc/src/controllers/scheduler/partition.rs:78-88 PartitionScheduler::init *)
Definition scheduler_init (spus : SpuLocalStore) (partitions : PartitionLocalStore) : PartitionScheduler :=
  MkScheduler spus partitions (group_by_spu partitions).
End controller.
Arguments PartitionScheduler : clear implicits.

(** The replicas from the [r_idx]th on; [None] when there is no SPU left. *)
(* src/crates/fluvio-sc/src/controllers/scheduler/partition.rs:141-163 generate_partitions_without_rack (inner loop) *)
Fixpoint schedule_replicas (online_spus : list Z) (n : nat) (r_idx : Z) (reserved_spus : list Z)
    (groups : ReplicaSchedulingGroups) : option (list Z) * ReplicaSchedulingGroups :=
  match n with
  | O => (Some reserved_spus, groups)
  | S n =>
      match find_suitable_spu online_spus reserved_spus (if r_idx =? 0 then WeightLeader else WeightFollower) groups with
      | Some spu =>
          schedule_replicas online_spus n (r_idx + 1) (reserved_spus ++ [spu])%list
            (if r_idx =? 0 then increase_leaders spu groups else increase_followers spu groups)
      | None => (None, groups)
      end
  end.
(** The partitions from [p_idx] on.  An actual replica map is kept where it
    has enough replicas. *)
(* src/crates/fluvio-sc/src/controllers/scheduler/partition.rs:129-165 generate_partitions_without_rack (outer loop) *)
Fixpoint schedule_partitions (online_spus : list Z) (replication_factor : Z) (actual : option (gmap Z (list Z)))
    (n : nat) (p_idx : Z) (partition_map : gmap Z (list Z)) (groups : ReplicaSchedulingGroups)
    : gmap Z (list Z) * ReplicaSchedulingGroups :=
  match n with
  | O => (partition_map, groups)
  | S n =>
      let kept := actual_replica_map ← actual;
                  replicas ← actual_replica_map !! p_idx;
                  if zlen replicas =? replication_factor then Some replicas else None in
      match kept with
      | Some replicas =>
          schedule_partitions online_spus replication_factor actual n (p_idx + 1) (<[p_idx := replicas]> partition_map) groups
      | None =>
          match schedule_replicas online_spus (Z.to_nat replication_factor) 0 [] groups with
          | (Some reserved, groups) =>
              schedule_partitions online_spus replication_factor actual n (p_idx + 1) (<[p_idx := reserved]> partition_map) groups
          | (None, groups) => (∅, groups)
          end
      end
  end.

Section reducer.
Context {C : Type} `{!MetadataItem C}.
Notation Partition := (MetadataStoreObject ReplicaKey PartitionSpec PartitionStatus C).
Notation Topic := (MetadataStoreObject string TopicSpec TopicStatus C).
Notation PartitionLocalStore := (LocalStore ReplicaKey PartitionSpec PartitionStatus C).
Notation SpuLocalStore := (LocalStore string SpuSpec SpuStatus C).
Notation PartitionWSAction := (WSAction ReplicaKey PartitionSpec PartitionStatus C).
Notation TopicWSAction := (WSAction string TopicSpec TopicStatus C).

(* src/crates/fluvio-sc/src/controllers/scheduler/partition.rs:119-168 PartitionScheduler::generate_partitions_without_rack *)
Definition generate_partitions_without_rack (param : TopicReplicaParam) (actual : option (gmap Z (list Z)))
    (self : PartitionScheduler C) : gmap Z (list Z) * PartitionScheduler C :=
  let online_spus := merge_sort Z.le (online_spu_ids (sched_spus self)) in
  let '(m, groups) := schedule_partitions online_spus (param_replication_factor param) actual
                        (Z.to_nat (param_partitions param)) 0 ∅ (scheduling_groups self) in
  (m, MkScheduler (sched_spus self) (sched_partitions self) groups).
(* src/crates/fluvio-sc/src/controllers/scheduler/partition.rs:100-116 PartitionScheduler::generate_replica_map_for_topic *)
Definition generate_replica_map_for_topic (param : TopicReplicaParam) (actual : option (gmap Z (list Z)))
    (self : PartitionScheduler C) : gmap Z (list Z) * PartitionScheduler C :=
  let spu_count := as_u32 (Z.of_nat (size (values (store (sched_spus self))))) in
  if spu_count <? param_replication_factor param then (∅, self)
  else generate_partitions_without_rack param actual self.

(** ** The life of a topic *)

(* src/crates/fluvio-sc/src/controllers/topics/policy.rs:107-113 TopicNextState *)
Record TopicNextState := MkNextState {
  next_resolution : TopicResolution;
  next_reason : string;
  next_replica_map : gmap Z (list Z);
  next_partitions : list Partition;
  next_mirror_map : gmap Z PartitionMirrorConfig;
}.
(* src/crates/fluvio-sc/src/controllers/topics/policy.rs:122-129 TopicNextState::from *)
Definition next_from (val : TopicResolution * string) : TopicNextState := MkNextState (fst val) (snd val) ∅ [] ∅.
(* src/crates/fluvio-sc/src/controllers/topics/policy.rs:160-170 TopicNextState::apply_as_next_state *)
Definition apply_as_next_state (self : TopicNextState) (topic : Topic) : list Partition * Topic :=
  let status := obj_status topic in
  let replicas := if bool_decide (next_replica_map self = ∅) then replica_map status else next_replica_map self in
  let mirrors := if bool_decide (next_mirror_map self = ∅) then mirror_map status else next_mirror_map self in
  (next_partitions self,
   MkObject (obj_spec topic) (MkTopicStatus (next_resolution self) replicas mirrors (next_reason self)) (obj_key topic) (obj_ctx topic)).
(* src/crates/fluvio-sc/src/controllers/topics/policy.rs:173-178 TopicNextState::same_next_state *)
Definition same_next_state (topic : Topic) : TopicNextState :=
  MkNextState (tst_resolution (obj_status topic)) "" ∅ [] ∅.

(* src/crates/fluvio-sc/src/controllers/topics/policy.rs:32-40 validate_assigned_topic_parameters *)
Definition validate_assigned_topic_parameters (partition_map : list PartitionMap) : TopicNextState :=
  next_from match validate_maps partition_map with
            | Some err => next_resolution_invalid_config err
            | None => next_resolution_pending
            end.
(* src/crates/fluvio-sc/src/controllers/topics/policy.rs:46-56 validate_computed_topic_parameters *)
Definition validate_computed_topic_parameters (param : TopicReplicaParam) : TopicNextState :=
  next_from match valid_partition (param_partitions param) with
            | Some err => next_resolution_invalid_config err
            | None =>
                match valid_replication_factor (param_replication_factor param) with
                | Some err => next_resolution_invalid_config err
                | None => next_resolution_pending
                end
            end.
(** [MirrorConfig::validate] accepts everything. *)
(* src/crates/fluvio-sc/src/controllers/topics/policy.rs:62-71 validate_mirror_topic_parameter *)
Definition validate_mirror_topic_parameter (mirror : MirrorConfig) : TopicNextState := next_from next_resolution_pending.

(* src/crates/fluvio-sc/src/stores/spu/store.rs:132-136 SpuLocalStore::spu_ids *)
Definition spu_ids (self : SpuLocalStore) : list Z :=
  merge_sort Z.le (map (fun spu => spu_id (obj_spec spu)) (clone_values (store self))).
(* src/crates/fluvio-sc/src/controllers/scheduler/partition.rs:41-49 ReplicaPartitionMap::from *)
Definition map_of_partitions (partition_maps : list PartitionMap) : gmap Z (list Z) :=
  foldl (fun m partition => <[pm_id partition := pm_replicas partition]> m) ∅ partition_maps.
(* src/crates/fluvio-sc/src/controllers/topics/policy.rs:78-103 update_replica_map_for_assigned_topic *)
Definition update_replica_map_for_assigned_topic (partition_maps : list PartitionMap) (spu_store : SpuLocalStore) : TopicNextState :=
  let spus_id := spu_ids spu_store in
  match List.find (fun spu => negb (bool_decide (spu ∈ spus_id))) (unique_spus_in_partition_map partition_maps) with
  | Some spu => next_from (next_resolution_invalid_config ("invalid spu id: " ++ show_signed spu))
  | None =>
      let m := map_of_partitions partition_maps in
      if bool_decide (m = ∅) then next_from (next_resolution_invalid_config "invalid replica map")
      else MkNextState Provisioned "" m [] ∅
  end.

(** The partitions of a map in the order of their ids. *)
Definition key_order {A} (x y : Z * A) : Prop := fst x <= fst y.
#[export] Instance key_order_dec {A} : RelDecision (@key_order A).
Proof. intros x y. unfold key_order. apply _. Defined.
Definition btree_iter {A} (m : gmap Z A) : list (Z * A) := merge_sort key_order (map_to_list m).
(* src/crates/fluvio-sc/src/stores/topic/store.rs:34-60 TopicMetadata::create_new_partitions *)
Definition create_new_partitions (topic : Topic) (partition_store : PartitionLocalStore) : list Partition :=
  omap (fun ir : Z * list Z =>
    let '(idx, replicas) := ir in
    let mirror := mirror_map (obj_status topic) !! idx in
    let replica_key := MkReplicaKey (obj_key topic) idx in
    match values (store partition_store) !! replica_key with
    | None => Some (MkObject (from_replicas replicas (obj_spec topic) mirror) partition_status_default replica_key
                      (create_child (obj_ctx topic)))
    | Some _ => None
    end) (btree_iter (replica_map (obj_status topic))).

(** The state of a topic whose partitions are made when it is provisioned. *)
Definition with_partitions (next_state : TopicNextState) (topic : Topic) (scheduler : PartitionScheduler C) : TopicNextState :=
  match next_resolution next_state with
  | Provisioned =>
      MkNextState Provisioned (next_reason next_state) (next_replica_map next_state)
        (create_new_partitions topic (sched_partitions scheduler)) (next_mirror_map next_state)
  | _ => next_state
  end.
Definition insufficient : TopicNextState := MkNextState InsufficientResources "" ∅ [] ∅.
(* src/crates/fluvio-sc/src/controllers/topics/policy.rs:181-345 TopicNextState::compute_next_state *)
Definition compute_next_state (topic : Topic) (scheduler : PartitionScheduler C) : TopicNextState :=
  let status := obj_status topic in
  match ts_replicas (obj_spec topic) with
  | Computed param =>
      match tst_resolution status with
      | Init | InvalidConfig => validate_computed_topic_parameters param
      | Pending | InsufficientResources =>
          let '(m, _) := generate_replica_map_for_topic param (Some (replica_map status)) scheduler in
          if bool_decide (m = ∅) then insufficient else MkNextState Provisioned "" m [] ∅
      | _ => with_partitions (same_next_state topic) topic scheduler
      end
  | Assigned partition_map =>
      match tst_resolution status with
      | Init | InvalidConfig => validate_assigned_topic_parameters partition_map
      | Pending | InsufficientResources =>
          with_partitions (update_replica_map_for_assigned_topic partition_map (sched_spus scheduler)) topic scheduler
      | _ => with_partitions (same_next_state topic) topic scheduler
      end
  | Mirror mirror_config =>
      match tst_resolution status with
      | Init | InvalidConfig => validate_mirror_topic_parameter mirror_config
      | Pending | InsufficientResources =>
          let replica_param := MkTopicReplicaParam (mirror_partition_count mirror_config) 1 false in
          let '(m, _) := generate_replica_map_for_topic replica_param (Some (replica_map status)) scheduler in
          if bool_decide (m = ∅) then insufficient
          else MkNextState Provisioned "" m [] (list_to_map (mirror_partitions mirror_config))
      | _ => with_partitions (same_next_state topic) topic scheduler
      end
  end.

(* src/crates/fluvio-sc/src/controllers/topics/actions.rs:14-20 TopicActions *)
Record TopicActions := MkTopicActions { act_topics : list TopicWSAction; act_partitions : list PartitionWSAction }.
Definition with_topic_resolution (resolution : TopicResolution) (status : TopicStatus) : TopicStatus :=
  MkTopicStatus resolution (replica_map status) (mirror_map status) (reason status).
(* src/crates/fluvio-stream-model/src/store/metadata.rs:139-151 MetadataStoreObject::childrens *)
Definition childrens (topic : Topic) (partition_store : PartitionLocalStore) : list Partition :=
  List.filter (is_owned (item_uid (ctx_item (obj_ctx topic)))) (clone_values (store partition_store)).
(** What one topic adds to the actions. *)
(* src/crates/fluvio-sc/src/controllers/topics/reducer.rs:102-197 TopicReducer::update_actions_next_state *)
Definition update_actions_next_state (spu_store : SpuLocalStore) (partition_store : PartitionLocalStore) (topic : Topic)
    : TopicActions :=
  let status := obj_status topic in
  if item_is_being_deleted (ctx_item (obj_ctx topic)) then
    if negb (resolution_is_being_deleted (tst_resolution status)) then
      MkTopicActions [UpdateStatus (obj_key topic) (with_topic_resolution Deleting status)]
        (map (fun partition => DeleteAction (obj_key partition)) (childrens topic partition_store))
    else MkTopicActions [] []
  else if is_resolution_provisioned status
          && (as_u32 (Z.of_nat (size (replica_map status))) <? spec_partitions (ts_replicas (obj_spec topic))) then
    MkTopicActions [UpdateStatus (obj_key topic) (with_topic_resolution Pending status)] []
  else
    let scheduler := scheduler_init spu_store partition_store in
    let next_state := compute_next_state topic scheduler in
    let '(partitions, updated_topic) := apply_as_next_state next_state topic in
    let new_status := obj_status updated_topic in
    MkTopicActions
      (if negb (bool_decide (tst_resolution new_status = tst_resolution status)) || negb (bool_decide (reason new_status = reason status))
       then [UpdateStatus (obj_key updated_topic) new_status] else [])
      (map Apply partitions).
(* src/crates/fluvio-sc/src/controllers/topics/reducer.rs:74-84 TopicReducer::process_requests *)
Definition process_requests (spu_store : SpuLocalStore) (partition_store : PartitionLocalStore) (topics : list Topic) : TopicActions :=
  let all := map (update_actions_next_state spu_store partition_store) topics in
  MkTopicActions (mjoin (map act_topics all)) (mjoin (map act_partitions all)).
End reducer.

(** ** Laws of the scheduler *)

Section scheduling.
Implicit Types (g : ReplicaSchedulingGroups) (w : SpuWeightSelection) (s spu : Z) (l avoid reserved : list Z).

(** The best SPU of a list, with its weight; [u16_max] when there is none. *)
Definition lightest g avoid w l (st : option Z * Z) : Prop :=
  match st with
  | (Some spu, m) => spu ∈ l /\ spu ∉ avoid /\ m = weight_of g w spu /\ m < u16_max
  | (None, m) => m = u16_max
  end /\ (forall s, s ∈ l -> s ∉ avoid -> snd st <= weight_of g w s).

Lemma try_spu_lightest g avoid w l st s : lightest g avoid w l st -> lightest g avoid w (l ++ [s])%list (try_spu g avoid w st s).
Proof.
  intros [Hst Hmin]. unfold try_spu. case_bool_decide as Ha.
  - split.
    + destruct st as [[spu|] m]; [|done]. destruct Hst as (? & ?). split; [apply elem_of_app; by left|done].
    + intros s' [Hs'| ->%list_elem_of_singleton]%elem_of_app Hn; [by apply Hmin|done].
  - destruct (Z.ltb_spec (weight_of g w s) (snd st)) as [Hlt|Hge]; (split; [|intros s' [Hs'| ->%list_elem_of_singleton]%elem_of_app Hn]).
    + split; [apply elem_of_app; right; by apply list_elem_of_singleton|]. split; [done|]. split; [done|].
      destruct st as [[spu|] m]; cbn in *; [destruct Hst as (_ & _ & _ & ?)|]; lia.
    + specialize (Hmin s' Hs' Hn). cbn in *. lia.
    + done.
    + destruct st as [[spu|] m]; [|done]. destruct Hst as (? & ?). split; [apply elem_of_app; by left|done].
    + by apply Hmin.
    + done.
Qed.

Lemma find_suitable_spu_spec l avoid w g :
  match find_suitable_spu l avoid w g with
  | Some spu => spu ∈ l /\ spu ∉ avoid /\ forall s, s ∈ l -> s ∉ avoid -> weight_of g w spu <= weight_of g w s
  | None => forall s, s ∈ l -> s ∉ avoid -> u16_max <= weight_of g w s
  end.
Proof.
  unfold find_suitable_spu.
  assert (lightest g avoid w l (foldl (try_spu g avoid w) (None, u16_max) l)) as [Hst Hmin].
  { induction l as [|s l IH] using rev_ind; [split; [done|by intros ? []%not_elem_of_nil]|].
    rewrite foldl_app. cbn. by apply try_spu_lightest. }
  destruct (foldl _ _ l) as [[spu|] m]; cbn in *.
  - destruct Hst as (? & ? & -> & _). done.
  - by subst m.
Qed.

(** *** Weights *)

Definition weights_within (B : Z) g : Prop := forall w s, 0 <= weight_of g w s <= B.

Lemma weight_increase_leaders g spu w s :
  weight_of g WeightLeader spu + 1 <= u16_max -> 0 <= weight_of g WeightLeader spu ->
  weight_of (increase_leaders spu g) w s =
  weight_of g w s + match w with WeightLeader => if s =? spu then 1 else 0 | WeightFollower => 0 end.
Proof.
  unfold weight_of, increase_leaders, u16_max. intros Hb Hp. destruct (Z.eqb_spec s spu) as [->|Hne].
  - rewrite lookup_insert_eq. destruct (g !! spu) as [[a b]|]; cbn in *; destruct w; rewrite ?wrap_u_id by (unfold in_u; lia); lia.
  - rewrite lookup_insert_ne by done. destruct (g !! s), w; lia.
Qed.
Lemma weight_increase_followers g spu w s :
  weight_of g WeightFollower spu + 1 <= u16_max -> 0 <= weight_of g WeightFollower spu ->
  weight_of (increase_followers spu g) w s =
  weight_of g w s + match w with WeightFollower => if s =? spu then 1 else 0 | WeightLeader => 0 end.
Proof.
  unfold weight_of, increase_followers, u16_max. intros Hb Hp. destruct (Z.eqb_spec s spu) as [->|Hne].
  - rewrite lookup_insert_eq. destruct (g !! spu) as [[a b]|]; cbn in *; destruct w; rewrite ?wrap_u_id by (unfold in_u; lia); lia.
  - rewrite lookup_insert_ne by done. destruct (g !! s), w; lia.
Qed.

Lemma within_leaders B g spu : weights_within B g -> B + 1 <= u16_max -> weights_within (B + 1) (increase_leaders spu g).
Proof.
  intros Hw Hb w s. pose proof (Hw WeightLeader spu). rewrite weight_increase_leaders by lia. pose proof (Hw w s).
  destruct w; [destruct (s =? spu)|]; lia.
Qed.
Lemma within_followers B g spu : weights_within B g -> B + 1 <= u16_max -> weights_within (B + 1) (increase_followers spu g).
Proof.
  intros Hw Hb w s. pose proof (Hw WeightFollower spu). rewrite weight_increase_followers by lia. pose proof (Hw w s).
  destruct w; [|destruct (s =? spu)]; lia.
Qed.

(** An SPU that is not reserved yet. *)
Lemma spu_left l reserved : NoDup l -> (length reserved < length l)%nat -> exists s, s ∈ l /\ s ∉ reserved.
Proof.
  intros Hnd Hlen. destruct (decide (Forall (fun s => s ∈ reserved) l)) as [Hall|Hex].
  - assert (length l <= length reserved)%nat; [|lia]. apply NoDup_incl_length; [by apply NoDup_ListNoDup|].
    intros s Hs%list_elem_of_In. rewrite Forall_forall in Hall. apply list_elem_of_In. by apply Hall.
  - apply not_Forall_Exists in Hex; [|apply _]. apply Exists_exists in Hex as (s & Hs & Hn). by exists s.
Qed.

Definition one_per_spu l rs : Prop := NoDup rs /\ Forall (fun s => s ∈ l) rs.

Lemma schedule_replicas_shape l n i reserved g rs g' :
  one_per_spu l reserved -> schedule_replicas l n i reserved g = (Some rs, g') ->
  one_per_spu l rs /\ length rs = (length reserved + n)%nat /\ exists new, rs = (reserved ++ new)%list.
Proof.
  revert i reserved g. induction n as [|n IH]; intros i reserved g Hr; cbn [schedule_replicas].
  - intros [= <- _]. split; [done|]. split; [lia|]. exists []. by rewrite app_nil_r.
  - pose proof (find_suitable_spu_spec l reserved (if i =? 0 then WeightLeader else WeightFollower) g) as Hf.
    destruct (find_suitable_spu _ _ _ _) as [spu|]; [|done]. destruct Hf as (Hin & Hni & _).
    intros E. apply IH in E as (H1 & H2 & new & ->).
    + split; [done|]. split; [rewrite !length_app in *; cbn [length] in *; lia|]. exists (spu :: new). by rewrite <-app_assoc.
    + destruct Hr as [Hnd Hall]. split.
      * apply NoDup_app. split; [done|]. split; [|apply NoDup_singleton]. by intros x Hx ->%list_elem_of_singleton.
      * apply Forall_app. split; [done|]. by repeat constructor.
Qed.

Lemma schedule_replicas_within l n i reserved g B :
  weights_within B g -> B + Z.of_nat n < u16_max ->
  weights_within (B + Z.of_nat n) (snd (schedule_replicas l n i reserved g)).
Proof.
  revert i reserved g B. induction n as [|n IH]; intros i reserved g B Hw Hb; cbn [schedule_replicas].
  - by rewrite Z.add_0_r.
  - destruct (find_suitable_spu _ _ _ _) as [spu|].
    + replace (B + Z.of_nat (Datatypes.S n)) with (B + 1 + Z.of_nat n) by lia. apply IH; [|lia].
      destruct (i =? 0); [apply within_leaders|apply within_followers]; [done|lia|done|lia].
    + cbn [snd]. intros w s. pose proof (Hw w s). lia.
Qed.

Lemma schedule_replicas_succeeds l n i reserved g B :
  NoDup l -> one_per_spu l reserved -> (length reserved + n <= length l)%nat ->
  weights_within B g -> B + Z.of_nat n < u16_max ->
  exists rs, fst (schedule_replicas l n i reserved g) = Some rs.
Proof.
  intros Hl. revert i reserved g B. induction n as [|n IH]; intros i reserved g B Hr Hlen Hw Hb; cbn [schedule_replicas].
  - by exists reserved.
  - set (w := if i =? 0 then WeightLeader else WeightFollower). pose proof (find_suitable_spu_spec l reserved w g) as Hf.
    destruct (find_suitable_spu _ _ _ _) as [spu|].
    + destruct Hf as (Hin & Hni & _). apply (IH _ _ _ (B + 1)); [|rewrite length_app; cbn; lia| |lia].
      * destruct Hr as [Hnd Hall]. split.
        -- apply NoDup_app. split; [done|]. split; [|apply NoDup_singleton]. by intros x Hx ->%list_elem_of_singleton.
        -- apply Forall_app. split; [done|]. by repeat constructor.
      * destruct (i =? 0); [apply within_leaders|apply within_followers]; [done|lia|done|lia].
    + destruct (spu_left l reserved Hl ltac:(lia)) as (s & Hs & Hns). specialize (Hf s Hs Hns). pose proof (Hw w s). lia.
Qed.
(** *** Partitions *)

(** The replicas the topic has already for a partition. *)
Definition kept_replicas (rf : Z) (actual : option (gmap Z (list Z))) (i : Z) : option (list Z) :=
  m ← actual; rs ← m !! i; if zlen rs =? rf then Some rs else None.
Definition good_replicas l (rf : Z) actual (i : Z) rs : Prop :=
  match kept_replicas rf actual i with
  | Some kept => rs = kept
  | None => one_per_spu l rs /\ zlen rs = rf
  end.

Lemma schedule_partitions_eq l rf actual n p m g :
  schedule_partitions l rf actual (Datatypes.S n) p m g =
  match kept_replicas rf actual p with
  | Some rs => schedule_partitions l rf actual n (p + 1) (<[p := rs]> m) g
  | None =>
      match schedule_replicas l (Z.to_nat rf) 0 [] g with
      | (Some rs, g) => schedule_partitions l rf actual n (p + 1) (<[p := rs]> m) g
      | (None, g) => (∅, g)
      end
  end.
Proof. done. Qed.

Lemma one_per_spu_nil l : one_per_spu l [].
Proof. split; constructor. Qed.

Lemma schedule_partitions_shape l rf actual n p m g m' g' :
  0 <= rf -> schedule_partitions l rf actual n p m g = (m', g') -> m' <> ∅ ->
  forall i, if bool_decide (p <= i < p + Z.of_nat n) then exists rs, m' !! i = Some rs /\ good_replicas l rf actual i rs
            else m' !! i = m !! i.
Proof.
  intros Hrf. revert p m g. induction n as [|n IH]; intros p m g.
  - intros [= <- <-] _ i. by rewrite bool_decide_false by lia.
  - rewrite schedule_partitions_eq. intros E Hne i.
    assert (exists rs g1, good_replicas l rf actual p rs /\
      schedule_partitions l rf actual n (p + 1) (<[p := rs]> m) g1 = (m', g')) as (rs & g1 & Hg & E').
    { unfold good_replicas. destruct (kept_replicas rf actual p) as [rs|]; [by exists rs, g|].
      destruct (schedule_replicas l (Z.to_nat rf) 0 [] g) as [[rs|] g1] eqn:Er; [|by injection E as <- _].
      exists rs, g1. split; [|done]. apply schedule_replicas_shape in Er as (H1 & H2 & _); [|apply one_per_spu_nil].
      split; [done|]. unfold zlen. rewrite H2. cbn. lia. }
    specialize (IH _ _ _ E' Hne i). destruct (decide (i = p)) as [->|Hip].
    + rewrite bool_decide_false in IH by lia. rewrite bool_decide_true by lia. exists rs. by rewrite IH, lookup_insert_eq.
    + destruct (decide (p + 1 <= i < p + 1 + Z.of_nat n)).
      * rewrite bool_decide_true in IH by done. by rewrite bool_decide_true by lia.
      * rewrite bool_decide_false in IH by done. rewrite bool_decide_false, IH, lookup_insert_ne by lia. done.
Qed.

Lemma schedule_partitions_succeeds l rf actual n p m g B :
  NoDup l -> 0 <= rf <= zlen l -> weights_within B g -> B + Z.of_nat n * rf < u16_max -> m <> ∅ \/ (0 < n)%nat ->
  fst (schedule_partitions l rf actual n p m g) <> ∅.
Proof.
  intros Hl Hrf. revert p m g B. induction n as [|n IH]; intros p m g B Hw Hb Hm.
  - cbn. destruct Hm; [done|lia].
  - rewrite schedule_partitions_eq. assert (B + Z.of_nat n * rf < u16_max) by lia.
    assert (forall rs : list Z, <[p := rs]> m <> ∅) as Hins by (intros rs; apply insert_non_empty).
    destruct (kept_replicas rf actual p) as [rs|]; [by apply (IH _ _ _ B); auto|].
    destruct (schedule_replicas_succeeds l (Z.to_nat rf) 0 [] g B) as [rs Hs]; auto using one_per_spu_nil; [unfold zlen in *; cbn; lia|lia|].
    pose proof (schedule_replicas_within l (Z.to_nat rf) 0 [] g B Hw ltac:(lia)) as Hw'.
    destruct (schedule_replicas l (Z.to_nat rf) 0 [] g) as [rs' g1]. cbn in Hs, Hw'. subst rs'.
    apply (IH _ _ _ (B + Z.of_nat (Z.to_nat rf))); [done|lia|left; apply Hins].
Qed.

(** *** Balance *)

(** The partitions of a map that an SPU leads. *)
Definition leads (m : gmap Z (list Z)) (s : Z) : Z :=
  Z.of_nat (size (base.filter (fun ir : Z * list Z => head (snd ir) = Some s) m)).
Definition balanced (l : list Z) (d : Z) g : Prop :=
  forall a b, a ∈ l -> b ∈ l -> weight_of g WeightLeader a <= weight_of g WeightLeader b + d.

Lemma leads_insert m p rs s :
  m !! p = None -> leads (<[p := rs]> m) s = leads m s + (if bool_decide (head rs = Some s) then 1 else 0).
Proof.
  intros Hn. unfold leads. case_bool_decide as Hh.
  - rewrite map_filter_insert_True by done. rewrite map_size_insert_None; [lia|].
    apply map_lookup_filter_None. by left.
  - rewrite map_filter_insert_False, delete_id by done. lia.
Qed.

(** Followers do not change the weights of leaders. *)
Lemma schedule_followers l n i reserved g B :
  0 < i -> weights_within B g -> B + Z.of_nat n < u16_max ->
  forall s, weight_of (snd (schedule_replicas l n i reserved g)) WeightLeader s = weight_of g WeightLeader s.
Proof.
  revert i reserved g B. induction n as [|n IH]; intros i reserved g B Hi Hw Hb s; cbn [schedule_replicas]; [done|].
  rewrite (proj2 (Z.eqb_neq i 0)) by lia. destruct (find_suitable_spu _ _ _ _) as [spu|]; [|done].
  pose proof (Hw WeightFollower spu). rewrite (IH _ _ _ (B + 1)); [|lia|apply within_followers; [done|lia]|lia].
  rewrite weight_increase_followers by lia. lia.
Qed.

Lemma schedule_replicas_leader l n g B rs g' d :
  weights_within B g -> B + Z.of_nat n < u16_max -> 1 <= d -> balanced l d g ->
  schedule_replicas l n 0 [] g = (Some rs, g') ->
  balanced l d g' /\
  forall s, weight_of g' WeightLeader s = weight_of g WeightLeader s + (if bool_decide (head rs = Some s) then 1 else 0).
Proof.
  intros Hw Hb Hd Hbal E. destruct n as [|n]; [injection E as <- <-; split; [done|intros s; rewrite bool_decide_false by done; lia]|].
  cbn [schedule_replicas] in E. rewrite Z.eqb_refl in E. pose proof (find_suitable_spu_spec l [] WeightLeader g) as Hf.
  destruct (find_suitable_spu _ _ _ _) as [spu|]; [|done]. destruct Hf as (Hin & _ & Hmin).
  pose proof (Hw WeightLeader spu) as Hspu.
  assert (weights_within (B + 1) (increase_leaders spu g)) as Hw1 by (apply within_leaders; [done|lia]).
  pose proof (schedule_followers l n 1 [spu] _ (B + 1) ltac:(lia) Hw1 ltac:(lia)) as Hfol.
  assert (one_per_spu l [spu]) as Hone by (split; [apply NoDup_singleton|by repeat constructor]).
  destruct (schedule_replicas_shape _ _ _ _ _ _ _ Hone E) as (_ & _ & new & ->). cbn [app] in E. change (0 + 1) with 1 in E. rewrite E in Hfol. cbn [snd] in Hfol.
  assert (forall s, weight_of g' WeightLeader s = weight_of g WeightLeader s + (if s =? spu then 1 else 0)) as Hwt.
  { intros s. rewrite Hfol, weight_increase_leaders by lia. done. }
  split.
  - intros a b Ha Hbin. rewrite !Hwt. pose proof (Hbal a b Ha Hbin).
    pose proof (Hmin b Hbin (not_elem_of_nil b)). destruct (Z.eqb_spec a spu) as [->|]; destruct (b =? spu); lia.
  - intros s. rewrite Hwt. cbn [head app]. destruct (Z.eqb_spec s spu) as [->|Hne].
    + by rewrite bool_decide_true.
    + rewrite bool_decide_false by (by intros [= ->]). done.
Qed.

Lemma schedule_partitions_balance l rf n p m g m' g' B d :
  0 <= rf -> weights_within B g -> B + Z.of_nat n * rf < u16_max -> 1 <= d -> balanced l d g ->
  (forall i, p <= i -> m !! i = None) ->
  schedule_partitions l rf None n p m g = (m', g') -> m' <> ∅ ->
  balanced l d g' /\ forall s, weight_of g' WeightLeader s = weight_of g WeightLeader s + (leads m' s - leads m s).
Proof.
  intros Hrf. revert p m g B. induction n as [|n IH]; intros p m g B Hw Hb Hd Hbal Hfresh.
  - intros [= <- <-] _. split; [done|]. intros s. lia.
  - rewrite schedule_partitions_eq. cbn [kept_replicas]. change (kept_replicas rf None p) with (@None (list Z)). cbv iota.
    intros E Hne. destruct (schedule_replicas l (Z.to_nat rf) 0 [] g) as [[rs|] g1] eqn:Er; [|by injection E as <- _].
    assert (0 <= Z.of_nat n * rf) by lia. assert (B + rf + Z.of_nat n * rf < u16_max) by lia.
    pose proof (schedule_replicas_within l (Z.to_nat rf) 0 [] g B Hw ltac:(lia)) as Hw1. rewrite Er in Hw1. cbn in Hw1.
    destruct (schedule_replicas_leader l (Z.to_nat rf) g B rs g1 d Hw ltac:(lia) Hd Hbal Er) as [Hbal1 Hwt1].
    apply (IH _ _ _ (B + Z.of_nat (Z.to_nat rf))) in E as [H1 H2]; try done; [|lia|].
    + split; [done|]. intros s. rewrite H2, Hwt1, leads_insert by (by apply Hfresh). lia.
    + intros i Hi. rewrite lookup_insert_ne by lia. apply Hfresh. lia.
Qed.
(** *** The counts of the store *)

Definition led (specs : list PartitionSpec) (s : Z) : Z := zlen (List.filter (fun spec => ps_leader spec =? s) specs).
Fixpoint total_replicas (specs : list PartitionSpec) : Z :=
  match specs with [] => 0 | spec :: specs => 1 + zlen (ps_replicas spec) + total_replicas specs end.

Lemma total_replicas_nonneg specs : 0 <= total_replicas specs.
Proof. induction specs as [|a specs IH]; cbn; [lia|]. pose proof (zlen_nonneg (ps_replicas a)). lia. Qed.

Lemma count_followers_weights leader rs g B :
  weights_within B g -> B + zlen rs < u16_max ->
  let g' := foldl (fun g f => if negb (f =? leader) then increase_followers f g else g) g rs in
  weights_within (B + zlen rs) g' /\ forall s, weight_of g' WeightLeader s = weight_of g WeightLeader s.
Proof.
  revert g B. induction rs as [|r rs IH]; intros g B Hw Hb; cbn [foldl]; [rewrite zlen_nil, Z.add_0_r; done|].
  rewrite zlen_cons in *. pose proof (zlen_nonneg rs). destruct (r =? leader); cbn [negb].
  - destruct (IH g B Hw ltac:(lia)) as [H1 H2]. split; [|done]. intros w s. pose proof (H1 w s). lia.
  - pose proof (Hw WeightFollower r). destruct (IH (increase_followers r g) (B + 1)) as [H1 H2]; [apply within_followers; [done|lia]|lia|].
    split; [intros w s; pose proof (H1 w s); lia|]. intros s. rewrite H2, weight_increase_followers by lia. lia.
Qed.

Lemma count_partition_weights spec g B :
  weights_within B g -> B + 1 + zlen (ps_replicas spec) < u16_max ->
  weights_within (B + 1 + zlen (ps_replicas spec)) (count_partition g spec) /\
  forall s, weight_of (count_partition g spec) WeightLeader s = weight_of g WeightLeader s + (if ps_leader spec =? s then 1 else 0).
Proof.
  intros Hw Hb. unfold count_partition. pose proof (zlen_nonneg (ps_replicas spec)). pose proof (Hw WeightLeader (ps_leader spec)).
  destruct (count_followers_weights (ps_leader spec) (ps_replicas spec) (increase_leaders (ps_leader spec) g) (B + 1)) as [H1 H2];
    [apply within_leaders; [done|lia]|lia|]. split; [done|]. intros s. rewrite H2, weight_increase_leaders by lia.
  by rewrite (Z.eqb_sym s).
Qed.

Lemma count_partitions_weights specs g B :
  weights_within B g -> B + total_replicas specs < u16_max ->
  weights_within (B + total_replicas specs) (foldl count_partition g specs) /\
  forall s, weight_of (foldl count_partition g specs) WeightLeader s = weight_of g WeightLeader s + led specs s.
Proof.
  revert g B. induction specs as [|a specs IH]; intros g B Hw Hb; cbn [foldl total_replicas].
  - rewrite Z.add_0_r. split; [done|]. intros s. unfold led. cbn [List.filter]. rewrite zlen_nil. lia.
  - cbn [total_replicas] in Hb. pose proof (total_replicas_nonneg specs).
    destruct (count_partition_weights a g B Hw ltac:(lia)) as [H1 H2]. destruct (IH _ (B + 1 + zlen (ps_replicas a)) H1 ltac:(lia)) as [H3 H4].
    split; [intros w s; pose proof (H3 w s); lia|]. intros s. rewrite H4, H2. unfold led. cbn [List.filter].
    destruct (ps_leader a =? s); rewrite ?zlen_cons; lia.
Qed.
End scheduling.

Section scheduler_laws.
Context {C : Type} `{!MetadataItem C}.
Notation PartitionLocalStore := (LocalStore ReplicaKey PartitionSpec PartitionStatus C).
Notation SpuLocalStore := (LocalStore string SpuSpec SpuStatus C).
Implicit Types (spus : SpuLocalStore) (partitions : PartitionLocalStore).

Definition specs_of partitions : list PartitionSpec := map obj_spec (clone_values (store partitions)).

Lemma no_weights : weights_within 0 ∅.
Proof. intros w s. unfold weight_of. rewrite lookup_empty. lia. Qed.

Lemma group_by_spu_weights partitions :
  total_replicas (specs_of partitions) < u16_max ->
  weights_within (total_replicas (specs_of partitions)) (group_by_spu partitions) /\
  forall s, weight_of (group_by_spu partitions) WeightLeader s = led (specs_of partitions) s.
Proof.
  intros Hb. unfold group_by_spu, specs_of in *. set (l := clone_values (store partitions)) in *.
  replace (foldl (fun groups partition => count_partition groups (obj_spec partition)) ∅ l)
    with (foldl count_partition ∅ (map obj_spec l)).
  - destruct (count_partitions_weights (map obj_spec l) ∅ 0 no_weights ltac:(lia)) as [H1 H2]. split; [done|].
    intros s. rewrite H2. unfold weight_of. by rewrite lookup_empty.
  - generalize (∅ : ReplicaSchedulingGroups). induction l as [|a l IH]; intros g; cbn; [done|]. apply IH.
    revert Hb. cbn. pose proof (zlen_nonneg (ps_replicas (obj_spec a))). lia.
Qed.

Lemma online_count spus : zlen (online_spu_ids spus) <= Z.of_nat (size (values (store spus))).
Proof.
  unfold online_spu_ids, zlen. rewrite length_map.
  assert (length (clone_values (store spus)) = size (values (store spus))) as <- by (unfold clone_values; by rewrite length_map, length_map_to_list).
  induction (clone_values (store spus)) as [|a l IH]; cbn; [lia|]. destruct (spu_is_online _); cbn in *; lia.
Qed.

Lemma online_sorted spus : merge_sort Z.le (online_spu_ids spus) ≡ₚ online_spu_ids spus.
Proof. apply merge_sort_Permutation. Qed.
Lemma schedule_spec spus partitions (param : TopicReplicaParam) (actual : gmap Z (list Z)) :
  0 < param_partitions param -> 0 < param_replication_factor param ->
  let m := fst (generate_replica_map_for_topic param (Some actual) (scheduler_init spus partitions)) in
  (m <> ∅ -> forall i, if bool_decide (0 <= i < param_partitions param)
     then exists rs, m !! i = Some rs /\ zlen rs = param_replication_factor param /\
       (actual !! i = Some rs \/
        (forall old, actual !! i = Some old -> zlen old <> param_replication_factor param) /\
        NoDup rs /\ forall s, s ∈ rs -> s ∈ online_spu_ids spus)
     else m !! i = None) /\
  (NoDup (online_spu_ids spus) -> param_replication_factor param <= zlen (online_spu_ids spus) ->
   Z.of_nat (size (values (store spus))) < 2 ^ 32 ->
   total_replicas (specs_of partitions) + param_partitions param * param_replication_factor param < u16_max -> m <> ∅).
Proof.
  intros Hp Hr. cbv zeta. unfold generate_replica_map_for_topic. cbn [sched_spus scheduler_init].
  set (count := as_u32 _). set (l := merge_sort Z.le (online_spu_ids spus)).
  pose proof (online_sorted spus : l ≡ₚ online_spu_ids spus) as Hl.
  unfold generate_partitions_without_rack. cbn [sched_spus scheduling_groups scheduler_init]. fold l.
  destruct (schedule_partitions _ _ _ _ _ _ _) as [m g] eqn:E. split.
  - destruct (count <? _); [done|]. cbn [fst]. intros Hne i.
    assert (0 <= param_replication_factor param) as Hrf by lia.
    pose proof (schedule_partitions_shape _ _ _ _ _ _ _ _ _ Hrf E Hne i) as Hi.
    rewrite lookup_empty in Hi. replace (0 + Z.of_nat (Z.to_nat (param_partitions param))) with (param_partitions param) in Hi by lia.
    case_bool_decide; [|done]. destruct Hi as (rs & -> & Hg). exists rs. split; [done|].
    unfold good_replicas, kept_replicas, mbind, option_bind in Hg. destruct (actual !! i) as [rs'|] eqn:Ea.
    + destruct (Z.eqb_spec (zlen rs') (param_replication_factor param)); [subst rs'; split; [done|by left]|].
      destruct Hg as [[Hnd Hall] Hlen]. split; [done|]. right. split; [by intros ? [= <-]|]. split; [done|]. intros s Hs. rewrite Forall_forall in Hall.
      rewrite <-Hl. by apply Hall.
    + destruct Hg as [[Hnd Hall] Hlen]. split; [done|]. right. split; [done|]. split; [done|]. intros s Hs. rewrite Forall_forall in Hall.
      rewrite <-Hl. by apply Hall.
  - intros Hnd Hlen Hsize Htot. assert (0 < param_partitions param * param_replication_factor param) by lia.
    pose proof (online_count spus). pose proof (zlen_nonneg (online_spu_ids spus)).
    unfold count. rewrite wrap_u_id by (unfold in_u; lia). rewrite (proj2 (Z.ltb_ge _ _)) by lia. cbn [fst].
    destruct (group_by_spu_weights partitions ltac:(lia)) as [Hw _].
    change m with (fst (m, g)). rewrite <-E. eapply schedule_partitions_succeeds; [by rewrite Hl|..|exact Hw| |right; lia].
    + unfold zlen. rewrite Hl. unfold zlen in *. lia.
    + rewrite Z2Nat.id by lia. done.
Qed.
(** *** The life of a topic *)

Notation Topic := (MetadataStoreObject string TopicSpec TopicStatus C).
Notation Partition := (MetadataStoreObject ReplicaKey PartitionSpec PartitionStatus C).
Implicit Types (t : Topic).

Definition with_status (status : TopicStatus) t : Topic := MkObject (obj_spec t) status (obj_key t) (obj_ctx t).
(** A turn of the reducer for one topic, with its own actions carried out. *)
Definition carry_out (t : Topic) (a : WSAction string TopicSpec TopicStatus C) : Topic :=
  match a with UpdateStatus key status => if bool_decide (key = obj_key t) then with_status status t else t | _ => t end.
Definition topic_turn spus partitions t : list (WSAction ReplicaKey PartitionSpec PartitionStatus C) * Topic :=
  let acts := update_actions_next_state spus partitions t in
  (act_partitions acts, foldl carry_out t (act_topics acts)).

Lemma btree_iter_elem {A} (m : gmap Z A) i a : (i, a) ∈ btree_iter m <-> m !! i = Some a.
Proof. unfold btree_iter. by rewrite (merge_sort_Permutation key_order), elem_of_map_to_list. Qed.

Lemma create_new_partitions_elem t partitions (p : Partition) :
  p ∈ create_new_partitions t partitions <->
  exists i rs, replica_map (obj_status t) !! i = Some rs /\ values (store partitions) !! MkReplicaKey (obj_key t) i = None /\
    p = MkObject (from_replicas rs (obj_spec t) (mirror_map (obj_status t) !! i)) partition_status_default
          (MkReplicaKey (obj_key t) i) (create_child (obj_ctx t)).
Proof.
  unfold create_new_partitions. rewrite list_elem_of_omap. split.
  - intros ([i rs] & Hin%btree_iter_elem & E). destruct (values _ !! _) eqn:Ek; [done|]. injection E as <-. by exists i, rs.
  - intros (i & rs & Hin & Ek & ->). exists (i, rs). rewrite btree_iter_elem. split; [done|]. by rewrite Ek.
Qed.

Lemma full_map_size (m : gmap Z (list Z)) n :
  (forall i, if bool_decide (0 <= i < Z.of_nat n) then is_Some (m !! i) else m !! i = None) -> size m = n.
Proof.
  intros Hm. rewrite <-size_dom. assert (dom m = list_to_set (seqZ 0 (Z.of_nat n))) as ->.
  - apply set_eq. intros i. rewrite elem_of_dom, elem_of_list_to_set, elem_of_seqZ. specialize (Hm i).
    case_bool_decide; [split; [lia|done]|]. rewrite Hm. split; [by intros []|lia].
  - rewrite size_list_to_set by apply NoDup_seqZ. rewrite length_seqZ. lia.
Qed.

Section provisioning.
Context spus partitions t (param : TopicReplicaParam).
Context (computed : ts_replicas (obj_spec t) = Computed param).
Context (positive : 0 < param_partitions param /\ 0 < param_replication_factor param).
Context (alive : item_is_being_deleted (ctx_item (obj_ctx t)) = false).
Let with_resolution_ r m why := with_status (MkTopicStatus r m (mirror_map (obj_status t)) why) t.

Lemma turn_init m why :
  topic_turn spus partitions (with_resolution_ Init m why) = ([], with_resolution_ Pending m PENDING_REASON).
Proof.
  unfold topic_turn, update_actions_next_state. cbn [obj_ctx obj_status obj_spec obj_key with_resolution_ with_status]. rewrite alive.
  cbn [is_resolution_provisioned tst_resolution andb]. unfold compute_next_state. cbn [obj_ctx obj_status obj_spec with_resolution_ with_status].
  rewrite computed. cbn [tst_resolution]. unfold validate_computed_topic_parameters, valid_partition, valid_replication_factor.
  rewrite !(proj2 (Z.eqb_neq _ _)) by lia. cbn.
  rewrite (bool_decide_false (Pending = Init)) by done. cbn. by rewrite !bool_decide_true.
Qed.

Lemma turn_pending m why m' :
  fst (generate_replica_map_for_topic param (Some m) (scheduler_init spus partitions)) = m' -> m' <> ∅ ->
  topic_turn spus partitions (with_resolution_ Pending m why) = ([], with_resolution_ Provisioned m' "").
Proof.
  intros Em Hne. unfold topic_turn, update_actions_next_state. cbn [obj_ctx obj_status obj_spec obj_key with_resolution_ with_status]. rewrite alive.
  cbn [is_resolution_provisioned tst_resolution andb]. unfold compute_next_state. cbn [obj_ctx obj_status obj_spec with_resolution_ with_status].
  rewrite computed. cbn [tst_resolution replica_map]. destruct (generate_replica_map_for_topic _ _ _) as [m1 s1]. cbn in Em. subst m1.
  rewrite bool_decide_false by done. cbn. rewrite (bool_decide_false (m' = ∅)), (bool_decide_false (Provisioned = Pending)) by done.
  cbn. by rewrite !bool_decide_true.
Qed.

Lemma turn_provisioned m :
  param_partitions param <= as_u32 (Z.of_nat (size m)) ->
  topic_turn spus partitions (with_resolution_ Provisioned m "") =
  (map Apply (create_new_partitions (with_resolution_ Provisioned m "") partitions), with_resolution_ Provisioned m "").
Proof.
  intros Hs. unfold topic_turn, update_actions_next_state.
  cbn [obj_ctx obj_status obj_spec obj_key with_resolution_ with_status]. rewrite alive, computed. cbn [spec_partitions replica_map is_resolution_provisioned tst_resolution andb].
  rewrite (proj2 (Z.ltb_ge _ _)) by done. unfold compute_next_state. cbn [obj_ctx obj_status obj_spec with_resolution_ with_status].
  rewrite computed. cbn. done.
Qed.
End provisioning.
End scheduler_laws.

(** ** Claims *)

(** C28: if a replica map is made for a topic, it has exactly the topic's
    partitions, each with as many replicas as asked for; a partition that has
    as many replicas keeps just those, and only one that has not is placed,
    with replicas on different online SPUs.  With enough online SPUs, and while
    the weights fit in 16 bits, a map is made. *)
Theorem schedule_correct {C : Type} `{!MetadataItem C} (spus : LocalStore string SpuSpec SpuStatus C)
    (partitions : LocalStore ReplicaKey PartitionSpec PartitionStatus C) (param : TopicReplicaParam) (actual : gmap Z (list Z)) :
  0 < param_partitions param -> 0 < param_replication_factor param ->
  let m := fst (generate_replica_map_for_topic param (Some actual) (scheduler_init spus partitions)) in
  (m <> ∅ -> forall i, if bool_decide (0 <= i < param_partitions param)
     then exists rs, m !! i = Some rs /\ zlen rs = param_replication_factor param /\
       (actual !! i = Some rs \/
        (forall old, actual !! i = Some old -> zlen old <> param_replication_factor param) /\
        NoDup rs /\ forall s, s ∈ rs -> s ∈ online_spu_ids spus)
     else m !! i = None) /\
  (NoDup (online_spu_ids spus) -> param_replication_factor param <= zlen (online_spu_ids spus) ->
   Z.of_nat (size (values (store spus))) < 2 ^ 32 ->
   total_replicas (specs_of partitions) + param_partitions param * param_replication_factor param < u16_max -> m <> ∅).
Proof. apply schedule_spec. Qed.


#[local] Instance schedule_item : MetadataItem Z := u32_item.
Lemma example_online : online_spu_ids example_spus = [2].
Proof. vm_compute. reflexivity. Qed.
Lemma example_specs : specs_of example_partition_store = [partition_spec_new 1 [1; 2]].
Proof. vm_compute. reflexivity. Qed.
Lemma example_size : size (values (store example_spus)) = 2%nat.
Proof. vm_compute. reflexivity. Qed.

(** One partition is placed, and keeps its replica though that is offline. *)
Lemma schedule_correct_witness :
  let m := fst (generate_replica_map_for_topic (MkTopicReplicaParam 2 1 false) (Some {[0 := [1]]})
    (scheduler_init example_spus example_partition_store)) in
  m <> ∅ /\ m !! 0 = Some [1].
Proof.
  cbv zeta. destruct (schedule_correct example_spus example_partition_store (MkTopicReplicaParam 2 1 false) {[0 := [1]]}) as [Hm Hs];
    [reflexivity..|]. rewrite example_online, example_specs, example_size in Hs.
  specialize (Hs (NoDup_singleton 2) ltac:(done) ltac:(done) ltac:(done)). split; [exact Hs|]. specialize (Hm Hs 0).
  rewrite bool_decide_true in Hm by (cbn; lia). destruct Hm as (rs & -> & _ & [E|[Hno _]]).
  - by rewrite lookup_singleton_eq in E.
  - by destruct (Hno [1]); [rewrite lookup_singleton_eq|].
Defined.

(** C38: scheduling a new topic keeps the leaders spread: if the online SPUs
    lead the same number of partitions up to [d], at least one, they still do
    with the partitions of the topic. *)
Theorem schedule_balanced {C : Type} `{!MetadataItem C} (spus : LocalStore string SpuSpec SpuStatus C)
    (partitions : LocalStore ReplicaKey PartitionSpec PartitionStatus C) (param : TopicReplicaParam) (d : Z) :
  0 <= param_partitions param -> 0 <= param_replication_factor param -> 1 <= d ->
  total_replicas (specs_of partitions) + param_partitions param * param_replication_factor param < u16_max ->
  (forall a b, a ∈ online_spu_ids spus -> b ∈ online_spu_ids spus ->
     led (specs_of partitions) a <= led (specs_of partitions) b + d) ->
  let m := fst (generate_replica_map_for_topic param None (scheduler_init spus partitions)) in
  forall a b, a ∈ online_spu_ids spus -> b ∈ online_spu_ids spus ->
    led (specs_of partitions) a + leads m a <= led (specs_of partitions) b + leads m b + d.
Proof.
  intros Hp Hr Hd Htot Hbal. cbv zeta. unfold generate_replica_map_for_topic. cbn [sched_spus scheduler_init].
  assert (forall s, leads ∅ s = 0) as Hl0 by (intros s; unfold leads; by rewrite map_filter_empty).
  destruct (_ <? _); [intros a b Ha Hb; cbn [fst]; rewrite !Hl0; specialize (Hbal a b Ha Hb); lia|].
  unfold generate_partitions_without_rack. cbn [sched_spus scheduling_groups scheduler_init].
  set (l := merge_sort Z.le (online_spu_ids spus)). pose proof (online_sorted spus : l ≡ₚ online_spu_ids spus) as Hl.
  destruct (schedule_partitions _ _ _ _ _ _ _) as [m g] eqn:E. cbn [fst].
  destruct (decide (m = ∅)) as [->|Hne]; [intros a b Ha Hb; rewrite !Hl0; specialize (Hbal a b Ha Hb); lia|].
  assert (0 <= param_partitions param * param_replication_factor param) by lia.
  destruct (group_by_spu_weights partitions ltac:(lia)) as [Hw Hled].
  destruct (schedule_partitions_balance l (param_replication_factor param) (Z.to_nat (param_partitions param)) 0 ∅
    (group_by_spu partitions) m g (total_replicas (specs_of partitions)) d) as [Hb Hwt]; try done.
  - rewrite Z2Nat.id by lia. lia.
  - intros a b Ha Hb. rewrite !Hled. rewrite Hl in Ha, Hb. by apply Hbal.
  - intros a b Ha Hb'. rewrite <-Hl in Ha, Hb'. specialize (Hb a b Ha Hb'). rewrite !Hwt, !Hled, !Hl0 in Hb. lia.
Qed.

(** Two SPUs, of which the first leads a partition already. *)
Definition example_two : LocalStore string SpuSpec SpuStatus Z :=
  snd (sync_all [example_spu_object 1 true; example_spu_object 2 true] store_default).
Lemma example_two_online : merge_sort Z.le (online_spu_ids example_two) = [1; 2].
Proof. vm_compute. reflexivity. Qed.
Lemma schedule_balanced_witness :
  let m := fst (generate_replica_map_for_topic (MkTopicReplicaParam 4 1 false) None (scheduler_init example_two example_partition_store)) in
  led (specs_of example_partition_store) 1 + leads m 1 <= led (specs_of example_partition_store) 2 + leads m 2 + 1.
Proof.
  assert (forall s, s ∈ online_spu_ids example_two <-> s = 1 \/ s = 2) as Hon.
  { intros s. rewrite <-(online_sorted example_two), example_two_online, elem_of_cons, list_elem_of_singleton. done. }
  apply (schedule_balanced example_two example_partition_store (MkTopicReplicaParam 4 1 false) 1); rewrite ?Hon, ?example_specs;
    cbn [param_partitions param_replication_factor]; [lia|lia|lia|reflexivity| |by left|by right].
  intros a b. rewrite !Hon. intros [-> | ->] [-> | ->]; vm_compute; discriminate.
Defined.

(** C29: a valid topic is provisioned: with enough online SPUs three turns of
    the controller take a new topic to [Pending], then to [Provisioned] with a
    full replica map, and then create every partition that is not there yet,
    each led by the first of its replicas; the topic does not change any more. *)
Theorem topic_provisioned {C : Type} `{!MetadataItem C} (spus : LocalStore string SpuSpec SpuStatus C)
    (partitions : LocalStore ReplicaKey PartitionSpec PartitionStatus C) (t : MetadataStoreObject string TopicSpec TopicStatus C)
    (param : TopicReplicaParam) :
  ts_replicas (obj_spec t) = Computed param -> obj_status t = topic_status_default ->
  item_is_being_deleted (ctx_item (obj_ctx t)) = false ->
  0 < param_partitions param -> 0 < param_replication_factor param ->
  NoDup (online_spu_ids spus) -> param_replication_factor param <= zlen (online_spu_ids spus) ->
  Z.of_nat (size (values (store spus))) < 2 ^ 32 ->
  total_replicas (specs_of partitions) + param_partitions param * param_replication_factor param < u16_max ->
  let '(a1, t1) := topic_turn spus partitions t in
  let '(a2, t2) := topic_turn spus partitions t1 in
  let '(a3, t3) := topic_turn spus partitions t2 in
  a1 = [] /\ a2 = [] /\ tst_resolution (obj_status t1) = Pending /\ tst_resolution (obj_status t2) = Provisioned /\ t3 = t2 /\
  (forall i, 0 <= i < param_partitions param -> values (store partitions) !! MkReplicaKey (obj_key t) i = None ->
     exists p, Apply p ∈ a3 /\ obj_key p = MkReplicaKey (obj_key t) i /\
       zlen (ps_replicas (obj_spec p)) = param_replication_factor param /\ head (ps_replicas (obj_spec p)) = Some (ps_leader (obj_spec p)) /\
       NoDup (ps_replicas (obj_spec p)) /\ forall s, s ∈ ps_replicas (obj_spec p) -> s ∈ online_spu_ids spus) /\
  (forall a, a ∈ a3 -> exists p i, a = Apply p /\ obj_key p = MkReplicaKey (obj_key t) i /\ 0 <= i < param_partitions param /\
     values (store partitions) !! obj_key p = None).
Proof.
  intros Hc Hst Hal Hp Hr Hnd Hlen Hsize Htot.
  destruct (schedule_spec spus partitions param ∅ Hp Hr) as [Hshape Hne]. specialize (Hne Hnd Hlen Hsize Htot).
  specialize (Hshape Hne). set (m := fst _) in *.
  assert (t = with_status (MkTopicStatus Init ∅ (mirror_map (obj_status t)) "") t) as Et.
  { destruct t as [spec status key ctx]. cbn in *. by subst status. }
  assert (size m = Z.to_nat (param_partitions param)) as Hms.
  { apply full_map_size. intros i. specialize (Hshape i). rewrite Z2Nat.id by lia. case_bool_decide; [|done].
    destruct Hshape as (rs & -> & _). done. }
  assert (param_partitions param <= param_partitions param * param_replication_factor param) by nia.
  pose proof (total_replicas_nonneg (specs_of partitions)). assert (param_partitions param < u16_max) by lia.
  pose proof (turn_init spus partitions t param Hc (conj Hp Hr) Hal ∅ "") as E1. cbv zeta beta in E1. rewrite <-Et in E1. rewrite E1.
  rewrite (turn_pending spus partitions t param Hc Hal _ _ m) by done.
  rewrite (turn_provisioned spus partitions t param Hc Hal) by (try done; rewrite Hms, wrap_u_id by (unfold in_u, u16_max in *; lia); lia).
  split_and!; try done.
  - intros i Hi Hk. specialize (Hshape i). rewrite bool_decide_true in Hshape by done.
    destruct Hshape as (rs & Hrs & Hl & [Hbad|(_ & Hn & Hon)]); [by rewrite lookup_empty in Hbad|].
    eexists. split.
    + apply list_elem_of_fmap. eexists. split; [done|]. apply create_new_partitions_elem. by exists i, rs.
    + cbn. split_and!; try done. destruct rs; [rewrite zlen_nil in Hl; lia|done].
  - intros a (p & -> & (i & rs & Hi & Hk & ->)%create_new_partitions_elem)%list_elem_of_fmap. cbn in Hi.
    specialize (Hshape i). case_bool_decide; [|congruence]. eexists _, i. split_and!; done || lia.
Qed.

Definition example_topic : MetadataStoreObject string TopicSpec TopicStatus Z :=
  MkObject (new_computed 2 1 None) topic_status_default "events"%string (MkContext 1).
Lemma example_two_size : size (values (store example_two)) = 2%nat.
Proof. vm_compute. reflexivity. Qed.
Lemma example_two_nodup : NoDup (online_spu_ids example_two).
Proof.
  rewrite <-(online_sorted example_two), example_two_online. repeat constructor; set_solver.
Qed.
Lemma example_two_count : zlen (online_spu_ids example_two) = 2.
Proof. vm_compute. reflexivity. Qed.
Lemma topic_provisioned_witness :
  tst_resolution (obj_status (snd (topic_turn example_two example_partition_store example_topic))) = Pending.
Proof.
  pose proof (topic_provisioned example_two example_partition_store example_topic (MkTopicReplicaParam 2 1 false)) as Hp.
  destruct (topic_turn example_two example_partition_store example_topic) as [a1 t1].
  destruct (topic_turn example_two example_partition_store t1) as [a2 t2].
  destruct (topic_turn example_two example_partition_store t2) as [a3 t3]. cbn [snd].
  apply Hp; rewrite ?example_two_count, ?example_two_size, ?example_specs; try reflexivity; try exact example_two_nodup; discriminate.
Defined.
