(* ===== verification/SpuProduce.v ===== *)
(** * Produce requests at the SPU

    The error codes of [fluvio-protocol/src/link], the messages of
    [fluvio-spu-schema/src/produce] and the handler
    [fluvio-spu/src/services/public/produce_handler.rs], which writes the record
    sets of a request to the replicas this SPU leads.  Metrics are left out.
    Replicas have no deduplication, and the SmartModules of a request are a
    function on its record set. *)

From S2P Require Import Prelude Wire Scalars Collections Records Batch RecordSet.
From S2P Require Import StorageLog StorageReplica SpuStorage Replication Names ClusterTypes.
From stdpp Require Import list gmap strings.

#[local] Open Scope Z_scope.

(** ** Error codes *)

(* src/crates/fluvio-protocol/src/api/mod.rs:165-169 RequestKind *)
Inductive RequestKind := KindProduce.
(* src/crates/fluvio-protocol/src/link/smartmodule.rs:75-91 SmartModuleKind *)
Inductive SmartModuleKind := SmFilter | SmMap | SmArrayMap | SmAggregate | SmFilterMap | SmJoin | SmGeneric.
(* src/crates/fluvio-protocol/src/link/smartmodule.rs:12-23 SmartModuleTransformRuntimeError *)
Record SmartModuleTransformRuntimeError := MkTransformRuntimeError {
  sm_hint : string;
  sm_offset : Z;
  sm_kind : SmartModuleKind;
  sm_record_key : option RecordData;
  sm_record_value : RecordData;
}.
(* src/crates/fluvio-protocol/src/link/smartmodule.rs:124-127 SmartModuleInitRuntimeError *)
Record SmartModuleInitRuntimeError := MkInitRuntimeError { init_hint : string }.
(* src/crates/fluvio-protocol/src/link/error_code.rs:18-245 ErrorCode *)
Inductive ErrorCode :=
| EcUnknownServerError | EcNone | EcOther (_ : string) | EcOffsetOutOfRange | EcNotLeaderForPartition
| EcRequestTimedOut (timeout_ms : Z) (kind : RequestKind) | EcMessageTooLarge | EcPermissionDenied
| EcStorageError | EcInvalidCreateRequest | EcInvalidDeleteRequest
| EcOffsetEvicted (offset : Z) (next_available : Z) | EcPartitionFull (replica_key : ReplicaKey)
| EcPartitionShortCircuited | EcSpuError | EcSpuRegisterationFailed | EcSpuOffline | EcSpuNotFound
| EcSpuAlreadyExists | EcTopicError | EcTopicNotFound | EcTopicAlreadyExists | EcTopicPendingInitialization
| EcTopicInvalidConfiguration | EcTopicNotProvisioned | EcTopicInvalidName | EcTopicDeleted
| EcTopicInvalidReplicaType | EcPartitionPendingInitialization | EcPartitionNotLeader | EcFetchSessionNotFoud
| EcOffsetFlushRequestError (_ : string) | EcOffsetManagementDisabled | EcMaxRetryReached
| EcManagedConnectorError | EcManagedConnectorNotFound | EcManagedConnectorAlreadyExists | EcSmartModuleError
| EcSmartModuleNotFound (name : string) | EcSmartModuleInvalid (error : string) (name : option string)
| EcSmartModuleInvalidExports (error : string) (kind : string)
| EcSmartModuleRuntimeError (_ : SmartModuleTransformRuntimeError) | EcSmartModuleChainInitError (_ : string)
| EcSmartModuleInitError (_ : SmartModuleInitRuntimeError) | EcSmartModuleLookBackError (_ : string)
| EcSmartModuleMemoryLimitExceeded (requested : Z) (max : Z) | EcTableFormatError | EcTableFormatNotFound
| EcTableFormatAlreadyExists | EcDerivedStreamObjectError | EcDerivedStreamNotFound (_ : string)
| EcDerivedStreamJoinFetchError | EcDerivedStreamInvalid (_ : string) | EcCompressionError
| EcDeduplicationSmartModuleNotLoaded | EcDeduplicationSmartModuleNameInvalid (_ : string) | EcMirrorNotFound
| EcMirrorAlreadyExists | EcMirrorProduceFromHome | EcMirrorDeleteFromRemote | EcMirrorInvalidType
| EcMirrorProduceFromRemoteNotAllowed | EcSystemSpecDeletionAttempt (kind : string) (name : string)
| EcSystemSpecUpdatingAttempt (kind : string) (name : string).
(* src/crates/fluvio-protocol/src/link/error_code.rs:248-250 ErrorCode::is_ok *)
Definition error_is_ok (self : ErrorCode) : bool := match self with EcNone => true | _ => false end.

(** ** Messages *)

(* src/crates/fluvio-spu-schema/src/produce/request.rs:71-77 PartitionProduceData *)
Record PartitionProduceData := MkPartitionProduceData { ppd_partition_index : Z; ppd_records : RawRecordSet }.
(* src/crates/fluvio-spu-schema/src/produce/request.rs:61-68 TopicProduceData *)
Record TopicProduceData := MkTopicProduceData { tpd_name : string; tpd_partitions : list PartitionProduceData }.
(** The transactional id is never set; the timeout is in milliseconds. *)
(* src/crates/fluvio-spu-schema/src/produce/request.rs:28-46 ProduceRequest *)
Record ProduceRequest := MkProduceRequest {
  preq_isolation : Isolation;
  preq_timeout : Z;
  preq_topics : list TopicProduceData;
}.
(* src/crates/fluvio-spu-schema/src/produce/response.rs:50-69 PartitionProduceResponse *)
Record PartitionProduceResponse := MkPartitionProduceResponse {
  ppr_partition_index : Z;
  ppr_error_code : ErrorCode;
  ppr_base_offset : Z;
  ppr_log_append_time_ms : Z;
  ppr_log_start_offset : Z;
}.
(* src/crates/fluvio-spu-schema/src/produce/response.rs:41-47 TopicProduceResponse *)
Record TopicProduceResponse := MkTopicProduceResponse { tpr_name : string; tpr_partitions : list PartitionProduceResponse }.
(* src/crates/fluvio-spu-schema/src/produce/response.rs:8-16 ProduceResponse *)
Record ProduceResponse := MkProduceResponse { presp_responses : list TopicProduceResponse; presp_throttle_time_ms : Z }.

(** ** The handler *)

(* src/crates/fluvio-spu/src/services/public/produce_handler.rs:44-49 PartitionWriteResult *)
Record PartitionWriteResult := MkPartitionWriteResult {
  pwr_replica_id : ReplicaKey;
  pwr_base_offset : Z;
  pwr_leo : Z;
  pwr_error_code : ErrorCode;
}.
(* src/crates/fluvio-spu/src/services/public/produce_handler.rs:38-41 TopicWriteResult *)
Record TopicWriteResult := MkTopicWriteResult { twr_topic : string; twr_partitions : list PartitionWriteResult }.
(* src/crates/fluvio-spu/src/services/public/produce_handler.rs:435-441 PartitionWriteResult::error *)
Definition pwr_error (replica_id : ReplicaKey) (error_code : ErrorCode) : PartitionWriteResult :=
  MkPartitionWriteResult replica_id 0 0 error_code.
(* src/crates/fluvio-spu/src/services/public/produce_handler.rs:443-450 PartitionWriteResult::ok *)
Definition pwr_ok (replica_id : ReplicaKey) (base_offset leo : Z) : PartitionWriteResult :=
  MkPartitionWriteResult replica_id base_offset leo EcNone.
(* src/crates/fluvio-spu/src/services/public/produce_handler.rs:452-457 PartitionWriteResult::filtered *)
Definition pwr_filtered (replica_id : ReplicaKey) : PartitionWriteResult := MkPartitionWriteResult replica_id 0 0 EcNone.

(* src/crates/fluvio-spu/src/services/public/produce_handler.rs:336-359 validate_records *)
Definition validate_records (records : RawRecordSet) (compression : CompressionAlgorithm) : bool :=
  forallb (fun batch =>
    match get_compression (header batch) with
    | inl batch_compression =>
        match compression with
        | AlgAny => true
        | AlgNone => bool_decide (batch_compression = CompNone)
        | AlgGzip => bool_decide (batch_compression = Gzip)
        | AlgSnappy => bool_decide (batch_compression = Snappy)
        | AlgLz4 => bool_decide (batch_compression = Lz4)
        | AlgZstd => bool_decide (batch_compression = Zstd)
        end
    | inr _ => false
    end) (batches records).

Section handler.
Context {S : Type} `{ReplicaStorage S}.

(** The part of the [GlobalContext] the handler uses: the replicas this SPU
    leads, with the metadata each was created with, the current metadata, and
    the status messages for the SC. *)
Record ProduceContext := MkProduceContext {
  pc_leaders : gmap ReplicaKey (Replica * LeaderReplicaState S);
  pc_specs : gmap ReplicaKey Replica;
  pc_status_updates : list (ReplicaKey * PartitionResolution);
}.
Definition pc_set_leader (k : ReplicaKey) (meta : Replica) (l : LeaderReplicaState S) (ctx : ProduceContext) : ProduceContext :=
  MkProduceContext (<[k := (meta, l)]> (pc_leaders ctx)) (pc_specs ctx) (pc_status_updates ctx).
Definition pc_status (k : ReplicaKey) (r : PartitionResolution) (ctx : ProduceContext) : ProduceContext :=
  MkProduceContext (pc_leaders ctx) (pc_specs ctx) (pc_status_updates ctx ++ [(k, r)]).

(** The answer to a write that failed, and what the SC is told. *)
(* src/crates/fluvio-spu/src/services/public/produce_handler.rs:238-282 handle_produce_partition (errors) *)
Definition write_error (replica_key : ReplicaKey) (err : StorageError) : ErrorCode * option PartitionResolution :=
  match err with
  | SIo StorageFull => (EcPartitionFull replica_key, Some ResOutOfStorage)
  | BatchTooBig _ | BatchExceededSegment _ _ => (EcMessageTooLarge, None)
  | ShortCircuited => (EcPartitionShortCircuited, None)
  | _ => (EcStorageError, None)
  end.
(* src/crates/fluvio-spu/src/services/public/produce_handler.rs:190-284 handle_produce_partition *)
Definition handle_produce_partition (replica_key : ReplicaKey) (meta : Replica) (leader_state : LeaderReplicaState S)
    (records : RawRecordSet) : SM ProduceContext PartitionWriteResult := fun ctx =>
  match pc_specs ctx !! replica_key with
  | None => (Ok (pwr_error replica_key EcTopicNotFound), ctx)
  | Some replica_metadata =>
      if negb (validate_records records (rep_compression_type replica_metadata)) then
        (Ok (pwr_error replica_key EcCompressionError), ctx)
      else
        let '(r, (leader_state, _)) := leader_write_record_set Ok (leader_state, records) in
        let ctx := pc_set_leader replica_key meta leader_state ctx in
        match r with
        | Ok (base_offset, leo, _, _) => (Ok (pwr_ok replica_key base_offset leo), ctx)
        | Err err =>
            let '(code, status) := write_error replica_key err in
            (Ok (pwr_error replica_key code),
             match status with Some r => pc_status replica_key r ctx | None => ctx end)
        | Panic => (Panic, ctx)
        end
  end.

(** [apply_smartmodules] is the chain of the request, [Ok] of the records
    themselves when it has none. *)
Context (apply_smartmodules : LeaderReplicaState S -> RawRecordSet -> ErrorCode + RawRecordSet).

Definition mirror_error (refusal : MirrorRefusal) : ErrorCode :=
  match refusal with
  | MirrorProduceFromRemoteNotAllowed => EcMirrorProduceFromRemoteNotAllowed
  | MirrorProduceFromHome => EcMirrorProduceFromHome
  end.
(* src/crates/fluvio-spu/src/services/public/produce_handler.rs:105-181 handle_produce_topic (loop body) *)
Definition handle_partition_request (topic : string) (partition_request : PartitionProduceData)
    : SM ProduceContext PartitionWriteResult := fun ctx =>
  let replica_id := MkReplicaKey topic (ppd_partition_index partition_request) in
  match pc_leaders ctx !! replica_id with
  | None => (Ok (pwr_error replica_id EcNotLeaderForPartition), ctx)
  | Some (meta, leader_state) =>
      match mirror ← rep_mirror meta; accept_traffic mirror with
      | Some err => (Ok (pwr_error replica_id (mirror_error err)), ctx)
      | None =>
          match apply_smartmodules leader_state (ppd_records partition_request) with
          | inl err => (Ok (pwr_error replica_id err), ctx)
          | inr records =>
              if total_records records =? 0 then (Ok (pwr_filtered replica_id), ctx)
              else handle_produce_partition replica_id meta leader_state records ctx
          end
      end
  end.
Fixpoint handle_partitions (topic : string) (partitions : list PartitionProduceData)
    : SM ProduceContext (list PartitionWriteResult) :=
  match partitions with
  | [] => mret []
  | partition_request :: partitions =>
      result ← handle_partition_request topic partition_request;
      results ← handle_partitions topic partitions;
      mret (result :: results)
  end.
(* src/crates/fluvio-spu/src/services/public/produce_handler.rs:90-184 handle_produce_topic *)
Definition handle_produce_topic (topic_request : TopicProduceData) : SM ProduceContext TopicWriteResult :=
  partitions ← handle_partitions (tpd_name topic_request) (tpd_partitions topic_request);
  mret (MkTopicWriteResult (tpd_name topic_request) partitions).

(** [hw_events] are the high watermarks a replica's listener sees before the
    timeout; the replica may be gone by then. *)
(* src/crates/fluvio-spu/src/services/public/produce_handler.rs:374-415 wait_for_acks (loop body) *)
Definition wait_for_ack (timeout : Z) (hw_events : ReplicaKey -> list Z) (ctx : ProduceContext)
    (partition : PartitionWriteResult) : PartitionWriteResult :=
  let with_error code := MkPartitionWriteResult (pwr_replica_id partition) (pwr_base_offset partition) (pwr_leo partition) code in
  if negb (error_is_ok (pwr_error_code partition)) then partition
  else
    match pc_leaders ctx !! pwr_replica_id partition with
    | None => with_error EcNotLeaderForPartition
    | Some (_, leader_state) =>
        if pwr_leo partition <=? pub_hw (leader_storage leader_state) then partition
        else if existsb (fun hw => pwr_leo partition <=? hw) (hw_events (pwr_replica_id partition)) then partition
        else with_error (EcRequestTimedOut timeout KindProduce)
    end.
(* src/crates/fluvio-spu/src/services/public/produce_handler.rs:365-419 wait_for_acks *)
Definition wait_for_acks (isolation : Isolation) (timeout : Z) (hw_events : ReplicaKey -> list Z) (ctx : ProduceContext)
    (results : list TopicWriteResult) : list TopicWriteResult :=
  match isolation with
  | ReadCommitted =>
      map (fun r => MkTopicWriteResult (twr_topic r) (map (wait_for_ack timeout hw_events ctx) (twr_partitions r))) results
  | ReadUncommitted => results
  end.

(* src/crates/fluvio-spu/src/services/public/produce_handler.rs:460-469 PartitionProduceResponse::from(PartitionWriteResult) *)
Definition response_of (write_result : PartitionWriteResult) : PartitionProduceResponse :=
  MkPartitionProduceResponse (Names.partition (pwr_replica_id write_result)) (pwr_error_code write_result)
    (pwr_base_offset write_result) 0 0.
(* src/crates/fluvio-spu/src/services/public/produce_handler.rs:471-480 into_response *)
Definition into_response (topic_results : list TopicWriteResult) : ProduceResponse :=
  MkProduceResponse (map (fun r => MkTopicProduceResponse (twr_topic r) (map response_of (twr_partitions r))) topic_results) 0.

Fixpoint handle_topics (topics : list TopicProduceData) : SM ProduceContext (list TopicWriteResult) :=
  match topics with
  | [] => mret []
  | topic_request :: topics =>
      result ← handle_produce_topic topic_request;
      results ← handle_topics topics;
      mret (result :: results)
  end.
(* src/crates/fluvio-spu/src/services/public/produce_handler.rs:59-84 handle_produce_request *)
Definition handle_produce_request (hw_events : ReplicaKey -> list Z) (produce_request : ProduceRequest)
    : SM ProduceContext ProduceResponse :=
  topic_results ← handle_topics (preq_topics produce_request);
  ctx ← get;
  mret (into_response (wait_for_acks (preq_isolation produce_request) (preq_timeout produce_request) hw_events ctx topic_results)).
End handler.
Arguments ProduceContext : clear implicits.
