(* ===== verification/Producer.v ===== *)
(** * The producer of the client

    [fluvio/src/producer]: records are given to a partition, collected in
    batches, and sent to the SPU that leads the partition; the future a caller
    holds resolves to the offset of its record.  The clock is an argument, in
    milliseconds.  A batch and the futures of its records share a
    [BatchMetadata], here an entry of a heap under the batch's id. *)

From S2P Require Import Prelude Wire Scalars Collections Records Batch RecordSet.
From S2P Require Import StorageReplica SpuStorage Names SpuProduce.
From stdpp Require Import list gmap strings.

#[local] Open Scope Z_scope.

(** ** Partitioners *)

(* src/crates/fluvio/src/producer/partitioning.rs:25-28 PartitionerConfig *)
Record PartitionerConfig := MkPartitionerConfig { partition_count : Z; available_partitions : list Z }.

Section partitioner.
(** The SipHash of a byte slice. *)
Context (siphash : list byte -> Z).

(* src/crates/fluvio/src/producer/partitioning.rs:76-88 partition_siphash *)
Definition partition_siphash (key : list byte) (partition_count : Z) : res Z :=
  if partition_count =? 0 then Panic else Ok (siphash key mod partition_count).
(** The state is the [index] of the partitioner. *)
(* src/crates/fluvio/src/producer/partitioning.rs:54-73 SiphashRoundRobinPartitioner::partition *)
Definition round_robin_partition (config : PartitionerConfig) (maybe_key : option (list byte)) (index : Z) : res Z * Z :=
  match maybe_key with
  | Some key => (partition_siphash key (partition_count config), index)
  | None =>
      (if zlen (available_partitions config) =? 0 then
         if partition_count config =? 0 then Panic else Ok (index mod partition_count config)
       else
         match available_partitions config !! Z.to_nat (index mod zlen (available_partitions config)) with
         | Some partition => Ok partition
         | None => Panic
         end,
       as_u32 (index + 1))
  end.
End partitioner.

(** ** Batches in memory *)

(* src/crates/fluvio/src/producer/error.rs:11-30 ProducerError *)
Inductive ProducerError :=
| RecordTooLarge (size limit : Z)
| SendRecordMetadata
| GetRecordMetadata
| PartitionNotFound (partition : Z)
| InternalError (reason : string)
| SpuErrorCode (code : ErrorCode)
| InvalidConfiguration (reason : string)
| ProduceRequestRetryTimeout
| BatchQueueWaitTimeout.

(* src/crates/fluvio/src/producer/memory_batch.rs:16-24 MemoryBatch *)
Record MemoryBatch := MkMemoryBatch {
  mb_compression : Compression;
  mb_batch_limit : Z;
  mb_write_limit : Z;
  current_size_uncompressed : Z;
  mb_is_full : bool;
  create_time : Z;
  mb_records : MemoryRecords;
}.
Definition mb_set_full (self : MemoryBatch) : MemoryBatch :=
  MkMemoryBatch (mb_compression self) (mb_batch_limit self) (mb_write_limit self) (current_size_uncompressed self) true
    (create_time self) (mb_records self).
(* src/crates/fluvio/src/producer/memory_batch.rs:26-37 MemoryBatch::new *)
Definition memory_batch_new (now write_limit batch_limit : Z) (compression : Compression) : MemoryBatch :=
  MkMemoryBatch compression batch_limit write_limit (write_size (codec_vec codec_raw) 0 []) false now [].
(* src/crates/fluvio/src/producer/memory_batch.rs:98-100 MemoryBatch::raw_size *)
Definition raw_size (self : MemoryBatch) : Z :=
  current_size_uncompressed self + write_size_batch codec_raw 0 (batch_default codec_raw).
(* src/crates/fluvio/src/producer/memory_batch.rs:88-90 MemoryBatch::is_full *)
Definition memory_batch_full (self : MemoryBatch) : bool := mb_is_full self || (mb_batch_limit self <=? raw_size self).
(* src/crates/fluvio/src/producer/memory_batch.rs:92-96 MemoryBatch::elapsed *)
Definition elapsed (now : Z) (self : MemoryBatch) : Z := Z.max 0 (as_i64 (now - create_time self)).

(** The relative offset of a record that was added, or the record back. *)
(* src/crates/fluvio/src/producer/memory_batch.rs:11-14 MemoryBatchStatus *)
Inductive MemoryBatchStatus := Added (offset : Z) | NotAdded (record : Record').
(* src/crates/fluvio/src/producer/memory_batch.rs:45-86 MemoryBatch::push_record *)
Definition batch_push_record (now : Z) (record : Record') (self : MemoryBatch)
    : (ProducerError + MemoryBatchStatus) * MemoryBatch :=
  let is_the_first_record := zlen (mb_records self) =? 0 in
  let current_offset := zlen (mb_records self) in
  let record := set_preamble (set_offset_delta current_offset (preamble record)) record in
  let record := set_preamble (set_timestamp_delta (elapsed now self) (preamble record)) record in
  let record_size := write_size codec_record 0 record in
  let actual_batch_size := raw_size self + record_size in
  let add self :=
    MkMemoryBatch (mb_compression self) (mb_batch_limit self) (mb_write_limit self)
      (current_size_uncompressed self + record_size) (mb_is_full self) (create_time self) (mb_records self ++ [record]) in
  if mb_write_limit self <? actual_batch_size then
    (inl (RecordTooLarge actual_batch_size (mb_write_limit self)), mb_set_full self)
  else if is_the_first_record then
    let self := if mb_batch_limit self <? actual_batch_size then mb_set_full self else self in
    (inr (Added current_offset), add self)
  else if mb_batch_limit self <? actual_batch_size then (inr (NotAdded record), mb_set_full self)
  else
    let self := if actual_batch_size =? mb_batch_limit self then mb_set_full self else self in
    (inr (Added current_offset), add self).

(* src/crates/fluvio/src/producer/memory_batch.rs:116-146 Batch::from(MemoryBatch) *)
Definition batch_of_memory (p_batch : MemoryBatch) : Batch MemoryRecords :=
  let batch := set_batch_len (as_i32 (BATCH_HEADER_SIZE + write_size codec_memory 0 (mb_records p_batch)))
                 (batch_default codec_memory) in
  let len := as_i32 (zlen (mb_records p_batch)) in
  let batch := set_base_offset (if 0 <? len then len - 1 else len) batch in
  let first_timestamp := create_time p_batch in
  let max_time_stamp :=
    match last (mb_records p_batch) with
    | Some r => as_i64 (first_timestamp + timestamp_delta (preamble r))
    | None => 0
    end in
  let h := set_last_offset_delta (if 0 <? len then len - 1 else len) (header batch) in
  let h := set_first_timestamp first_timestamp h in
  let h := set_max_time_stamp max_time_stamp h in
  let h := set_compression (mb_compression p_batch) h in
  set_records (mb_records p_batch) (set_header h batch).

(** ** The answer to a batch *)

(** What a batch is answered with: an answer that is there, or the place in the
    response to an asynchronous request, which may have failed. *)
(* src/crates/fluvio/src/producer/accumulator.rs:368-370 ProducePartitionResponseFuture *)
Inductive ProducePartitionResponseFuture :=
| FutureReady (offset : Z) (error : ErrorCode)
| FutureShared (response : string + ProduceResponse) (num : nat).
(* src/crates/fluvio/src/producer/accumulator.rs:394-424 ProducePartitionResponseFuture::poll *)
Definition poll (self : ProducePartitionResponseFuture) : Z * ErrorCode :=
  match self with
  | FutureReady offset error => (offset, error)
  | FutureShared (inr response) num =>
      match concat (map tpr_partitions (presp_responses response)) !! num with
      | Some p => (ppr_base_offset p, EcNone)
      | None => (0, EcOther "partition not found during collecting async response")
      end
  | FutureShared (inl err) _ => (0, EcOther err)
  end.

(** The channel of a batch: empty, with the answer in it, or closed. *)
Inductive Channel := ChanEmpty | ChanSent (answer : ProducePartitionResponseFuture) | ChanClosed.
(* src/crates/fluvio/src/producer/record.rs:42-49 BatchMetadataState *)
Inductive BatchMetadataState := Buffered (receiver : Channel) | Sent (offset : Z) | Failed (error : ProducerError).
(** [None] while there is no answer. *)
(* src/crates/fluvio/src/producer/record.rs:73-103 BatchMetadata::base_offset *)
Definition metadata_base_offset (state : BatchMetadataState) : option ((ProducerError + Z) * BatchMetadataState) :=
  match state with
  | Buffered ChanEmpty => None
  | Buffered (ChanSent offset_future) =>
      let '(offset, error) := poll offset_future in
      Some (if error_is_ok error then (inr offset, Sent offset) else (inl (SpuErrorCode error), Failed (SpuErrorCode error)))
  | Buffered ChanClosed => Some (inl GetRecordMetadata, Failed GetRecordMetadata)
  | Sent offset => Some (inr offset, state)
  | Failed error => Some (inl error, state)
  end.

(** ** The accumulator *)

(* src/crates/fluvio/src/producer/accumulator.rs:275-279 ProducerBatch *)
Record ProducerBatch := MkProducerBatch { pb_id : nat; pb_batch : MemoryBatch }.
(* src/crates/fluvio/src/producer/record.rs:137-144 FutureRecordMetadata *)
Record FutureRecordMetadata := MkFutureRecord { fr_partition_id : Z; relative_offset : Z; fr_batch : nat }.
(* src/crates/fluvio/src/producer/accumulator.rs:61-67 RecordAccumulator *)
Record RecordAccumulator := MkAccumulator {
  batch_size : Z;
  acc_max_request_size : Z;
  queue_size : Z;
  acc_batches : gmap Z (list ProducerBatch);
  acc_compression : Compression;
  (** the heap of the shared [BatchMetadata], and its next free place *)
  metadata : gmap nat BatchMetadataState;
  next_id : nat;
}.
Definition with_queue (p : Z) (q : list ProducerBatch) (self : RecordAccumulator) : RecordAccumulator :=
  MkAccumulator (batch_size self) (acc_max_request_size self) (queue_size self) (<[p := q]> (acc_batches self))
    (acc_compression self) (metadata self) (next_id self).
Definition set_metadata (m : gmap nat BatchMetadataState) (self : RecordAccumulator) : RecordAccumulator :=
  MkAccumulator (batch_size self) (acc_max_request_size self) (queue_size self) (acc_batches self) (acc_compression self)
    m (next_id self).
(* src/crates/fluvio/src/producer/accumulator.rs:70-87 RecordAccumulator::new *)
Definition accumulator_new (batch_size max_request_size queue_size partition_n : Z) (compression : Compression) : RecordAccumulator :=
  MkAccumulator batch_size max_request_size queue_size (list_to_map (map (fun p => (p, [])) (seqZ 0 partition_n))) compression ∅ 0.

Inductive BatchEvent := BatchFull | NewBatch.
Definition full_event (b : MemoryBatch) : list BatchEvent := if memory_batch_full b then [BatchFull] else [].

(** [fuel] is two less the attempts made. *)
(* src/crates/fluvio/src/producer/accumulator.rs:181-232 RecordAccumulator::create_and_new_batch *)
Fixpoint create_and_new_batch (fuel : nat) (now partition_id : Z) (batches : list ProducerBatch) (record : Record')
    (self : RecordAccumulator) : (ProducerError + FutureRecordMetadata) * list BatchEvent * RecordAccumulator :=
  match fuel with
  | O => (inl (InternalError "Attempts exceeded while creating a new batch"), [], with_queue partition_id batches self)
  | S fuel =>
      let id := next_id self in
      let self := MkAccumulator (batch_size self) (acc_max_request_size self) (queue_size self) (acc_batches self)
                    (acc_compression self) (<[id := Buffered ChanEmpty]> (metadata self)) (S id) in
      let '(r, batch) := batch_push_record now record
                           (memory_batch_new now (acc_max_request_size self) (batch_size self) (acc_compression self)) in
      let batches' := batches ++ [MkProducerBatch id batch] in
      match r with
      | inr (Added offset) =>
          (inr (MkFutureRecord partition_id offset id), NewBatch :: full_event batch, with_queue partition_id batches' self)
      | inr (NotAdded record) =>
          let '(r, events, self) := create_and_new_batch fuel now partition_id batches' record self in
          (r, NewBatch :: full_event batch ++ events, self)
      | inl err => (inl err, [], with_queue partition_id batches self)
      end
  end.
(** [None] while there is no space in the queue. *)
(* src/crates/fluvio/src/producer/accumulator.rs:103-160 RecordAccumulator::push_record *)
Definition acc_push_record (now : Z) (record : Record') (partition_id : Z) (self : RecordAccumulator)
    : option ((ProducerError + FutureRecordMetadata) * list BatchEvent * RecordAccumulator) :=
  match acc_batches self !! partition_id with
  | None => Some (inl (PartitionNotFound partition_id), [], self)
  | Some batches =>
      if negb (zlen batches <? queue_size self) then None
      else
        match last batches with
        | None => Some (create_and_new_batch 2 now partition_id batches record self)
        | Some back =>
            let '(r, batch) := batch_push_record now record (pb_batch back) in
            let batches := removelast batches ++ [MkProducerBatch (pb_id back) batch] in
            match r with
            | inr (Added offset) =>
                Some (inr (MkFutureRecord partition_id offset (pb_id back)), full_event batch, with_queue partition_id batches self)
            | inr (NotAdded record) =>
                let '(r, events, self) := create_and_new_batch 2 now partition_id batches record self in
                Some (r, full_event batch ++ events, self)
            | inl err => Some (inl err, [], with_queue partition_id batches self)
            end
        end
  end.

(** [FutureRecordMetadata::wait]; [None] while there is no answer. *)
(* src/crates/fluvio/src/producer/record.rs:148-154 FutureRecordMetadata::wait *)
Definition future_wait (self : FutureRecordMetadata) (acc : RecordAccumulator)
    : option ((ProducerError + Z * Z) * RecordAccumulator) :=
  state ← metadata acc !! fr_batch self;
  '(r, state) ← metadata_base_offset state;
  Some (match r with
        | inr base_offset => inr (fr_partition_id self, as_i64 (base_offset + relative_offset self))
        | inl err => inl err
        end, set_metadata (<[fr_batch self := state]> (metadata acc)) acc).

(** ** Flushing *)

(* src/crates/fluvio/src/producer/config.rs:193-199 DeliverySemantic *)
Inductive DeliverySemantic := AtMostOnce | AtLeastOnce.

(** The batches at the front that are ready, and the others. *)
(* src/crates/fluvio/src/producer/partition_producer.rs:171-184 PartitionProducer::flush (loop) *)
Fixpoint take_ready (force : bool) (now linger : Z) (batches : list ProducerBatch) : list ProducerBatch * list ProducerBatch :=
  match batches with
  | [] => ([], [])
  | batch :: rest =>
      if force || memory_batch_full (pb_batch batch) || (linger <=? elapsed now (pb_batch batch)) then
        let '(ready, rest) := take_ready force now linger rest in (batch :: ready, rest)
      else ([], batches)
  end.

(** The answers of one request, in its order; [answer] is what the socket gives
    in the end, an error or the response of the SPU. *)
(* src/crates/fluvio/src/producer/partition_producer.rs:282-321 PartitionProducer::send_to_socket *)
Definition send_to_socket (delivery_semantic : DeliverySemantic) (request : ProduceRequest) (answer : string + ProduceResponse)
    : string + list ProducePartitionResponseFuture :=
  let partition_count := length (concat (map tpd_partitions (preq_topics request))) in
  match delivery_semantic with
  | AtMostOnce => inr (map (FutureShared answer) (seq 0 partition_count))
  | AtLeastOnce =>
      match answer with
      | inl err => inl err
      | inr produce_response =>
          inr (map (fun partition => FutureReady (ppr_base_offset partition) (ppr_error_code partition))
                 (concat (map tpr_partitions (presp_responses produce_response))))
      end
  end.

(** The channels of the batches: those with an answer, then those whose sender
    is dropped. *)
(* src/crates/fluvio/src/producer/partition_producer.rs:242-248 PartitionProducer::flush (notify) *)
Fixpoint notify_batches (ids : list nat) (answers : list ProducePartitionResponseFuture) (m : gmap nat BatchMetadataState)
    : gmap nat BatchMetadataState :=
  match ids, answers with
  | id :: ids, answer :: answers => notify_batches ids answers (<[id := Buffered (ChanSent answer)]> m)
  | id :: ids, [] => notify_batches ids [] (<[id := Buffered ChanClosed]> m)
  | [], _ => m
  end.

Section flush.
Context (gzip snappy lz4 zstd : Backend).

(** One part of the request for each batch. *)
(* src/crates/fluvio/src/producer/partition_producer.rs:199-233 PartitionProducer::flush (request) *)
Fixpoint partition_requests (partition_index : Z) (ready : list ProducerBatch) : cresult (list PartitionProduceData) :=
  match ready with
  | [] => inl []
  | p_batch :: ready =>
      cbind (raw_of_batch gzip snappy lz4 zstd (batch_of_memory (pb_batch p_batch))) (fun raw_batch =>
      cbind (partition_requests partition_index ready) (fun requests =>
        inl (MkPartitionProduceData partition_index (MkRecordSet [raw_batch]) :: requests)))
  end.

(* src/crates/fluvio/src/producer/config.rs:76-127 TopicProducerConfig *)
Record TopicProducerConfig := MkProducerConfig {
  cfg_linger : Z;
  cfg_isolation : Isolation;
  cfg_timeout : Z;
  cfg_delivery_semantic : DeliverySemantic;
}.
(** [send] is the connection to the leader: it takes a request and gives the
    answer, with the state [N] of what is behind it. *)
(* src/crates/fluvio/src/producer/partition_producer.rs:165-259 PartitionProducer::flush *)
Definition flush {N : Type} (send : ProduceRequest -> N -> (string + ProduceResponse) * N) (config : TopicProducerConfig)
    (replica : ReplicaKey) (force : bool) (now : Z) (st : RecordAccumulator * N) : (string + unit) * (RecordAccumulator * N) :=
  let '(self, net) := st in
  let batches := default [] (acc_batches self !! Names.partition replica) in
  let '(ready, rest) := take_ready force now (cfg_linger config) batches in
  let self := with_queue (Names.partition replica) rest self in
  let ids := map pb_id ready in
  match partition_requests (Names.partition replica) ready with
  | inr _ => (inl "compression"%string, (set_metadata (notify_batches ids [] (metadata self)) self, net))
  | inl requests =>
      let request := MkProduceRequest (cfg_isolation config) (cfg_timeout config) [MkTopicProduceData (topic replica) requests] in
      let '(answer, net) := send request net in
      match send_to_socket (cfg_delivery_semantic config) request answer with
      | inl err => (inl err, (set_metadata (notify_batches ids [] (metadata self)) self, net))
      | inr responses => (inr tt, (set_metadata (notify_batches ids responses (metadata self)) self, net))
      end
  end.
End flush.
