(* ===== verification/ProducerLaws.v ===== *)
(** * What a producer sends is stored

    The laws of [Producer]: partitions are chosen in range, evenly and by key;
    a record that is pushed is queued once and where its future says; and, with
    the handler of [SpuProduce] and the replica of [Replication] behind the
    connection, a flush stores every queued record and each future resolves to
    the offset at which the log of the leader holds the record. *)

From S2P Require Import Prelude Wire Varint Utf8 Scalars Collections Records Batch RecordSet.
From S2P Require Import StorageIndex StorageLog StorageSegment StorageReplica StorageReplicaLaws SpuStorage Replication ReplicationLaws.
From S2P Require Import Names ClusterTypes SpuProduce Producer.
From stdpp Require Import list gmap strings.

#[local] Open Scope Z_scope.

(** ** Batches in memory *)

(** What a caller may put into a record. *)
Definition valid_content (r : Record') : Prop :=
  in_i 8 (attributes (preamble r)) /\ valid (codec_option codec_record_data) 0 (key r) /\
  valid codec_record_data 0 (value r) /\ in_i 32 (headers r).
Definition same_content (r r' : Record') : Prop :=
  attributes (preamble r) = attributes (preamble r') /\ key r = key r' /\ value r = value r' /\ headers r = headers r'.
Definition stamp (od td : Z) (r : Record') : Record' :=
  set_preamble (MkRecordHeader (attributes (preamble r)) td od) r.

(** The sizes are counted right, the records are numbered from 0, and the batch
    can be sent. *)
Record mb_ok (mb : MemoryBatch) : Prop := {
  mbo_valid : valid_memory (mb_records mb);
  mbo_numbered i r : mb_records mb !! i = Some r -> offset_delta (preamble r) = Z.of_nat i;
  mbo_size : current_size_uncompressed mb = write_size codec_memory 0 (mb_records mb);
  mbo_limit : mb_records mb <> [] -> raw_size mb <= mb_write_limit mb;
  mbo_room : mb_write_limit mb < 2 ^ 31 - 49;
}.

Lemma write_size_memory_app rs r :
  write_size codec_memory 0 (rs ++ [r]) = write_size codec_memory 0 rs + write_size codec_record 0 r.
Proof. cbn [write_size codec_memory codec_vec]. unfold write_size_vec. by rewrite fold_left_app. Qed.

Lemma stamped_valid od td r :
  valid_content r -> in_i 32 od -> in_i 32 td -> write_size codec_record 0 (stamp od td r) < 2 ^ 31 ->
  valid codec_record 0 (stamp od td r).
Proof. intros (Ha & Hk & Hv & Hh) Hod Htd Hs. by apply valid_record_small. Qed.

(** A record takes at least a byte. *)
Lemma records_le_size rs : valid_memory rs -> zlen rs + 4 <= write_size codec_memory 0 rs.
Proof.
  intros Hv. rewrite <-(wire_size codec_memory 0 rs Hv).
  change (wire codec_memory 0 rs) with (be_split 4 (zlen rs) ++ concat (map (wire codec_record 0) rs)).
  rewrite zlen_app, zlen_be_split. assert (zlen rs <= zlen (concat (map (wire codec_record 0) rs))); [|lia].
  clear Hv. induction rs as [|r rs IH]; [done|]. cbn [map concat]. rewrite zlen_cons, zlen_app.
  enough (1 <= zlen (wire codec_record 0 r)) by lia.
  change (wire codec_record 0 r) with (wire_varint (zlen (wire_record_inner codec_record_data 0 r)) ++ wire_record_inner codec_record_data 0 r).
  rewrite zlen_app. pose proof (zlen_nonneg (wire_record_inner codec_record_data 0 r)).
  enough (1 <= zlen (wire_varint (zlen (wire_record_inner codec_record_data 0 r)))) by lia.
  unfold wire_varint. cbn [leb128]. destruct (_ <? 128); rewrite zlen_cons;
    [rewrite zlen_nil; lia|]. match goal with |- _ <= _ + zlen ?l => pose proof (zlen_nonneg l) end. lia.
Qed.

Lemma raw_size_eq mb : raw_size mb = current_size_uncompressed mb + BATCH_FILE_HEADER_SIZE.
Proof. unfold raw_size, write_size_batch. cbn [write_size codec_raw batch_default records dflt]. rewrite zlen_nil. lia. Qed.

Lemma stamped now record mb :
  0 <= now - create_time mb < 2 ^ 31 ->
  (let record := set_preamble (set_offset_delta (zlen (mb_records mb)) (preamble record)) record in
   set_preamble (set_timestamp_delta (elapsed now mb) (preamble record)) record)
  = stamp (zlen (mb_records mb)) (now - create_time mb) record.
Proof. intros Hn. unfold elapsed. rewrite wrap_i_id, Z.max_r by (unfold in_i; lia). done. Qed.

(** A batch with one more record. *)
Lemma mb_ok_add mb record td size full :
  mb_ok mb -> valid_content record -> in_i 32 td ->
  let r := stamp (zlen (mb_records mb)) td record in
  size = write_size codec_record 0 r -> raw_size mb + size <= mb_write_limit mb ->
  mb_ok (MkMemoryBatch (mb_compression mb) (mb_batch_limit mb) (mb_write_limit mb) (current_size_uncompressed mb + size)
           full (create_time mb) (mb_records mb ++ [r])).
Proof.
  intros [Hv Hn Hs Hl Hr] Hc Htd r Hsize Hfit. pose proof (records_le_size _ Hv) as Hle. rewrite raw_size_eq in Hfit.
  assert (BATCH_FILE_HEADER_SIZE = 57) as Ehd by reflexivity. pose proof (zlen_nonneg (mb_records mb)).
  assert (in_i 32 (zlen (mb_records mb))) as Hod by (destruct Hv; unfold in_i; lia).
  assert (valid codec_record 0 r) as Hvr by (apply stamped_valid; [done|done|done|]; fold r; lia).
  pose proof (zlen_nonneg (wire codec_record 0 r)) as Hs0. rewrite (wire_size codec_record 0 r Hvr), <-Hsize in Hs0.
  split; cbn [mb_records current_size_uncompressed mb_write_limit].
  - destruct Hv as [_ Hv]. split; [rewrite zlen_app, zlen_cons, zlen_nil; lia|]. apply Forall_app. split; [done|]. by constructor.
  - intros i r' Hi. apply lookup_app_Some in Hi as [Hi|[Hlen Hi]]; [by apply Hn|].
    destruct (i - length (mb_records mb))%nat eqn:E; [|done]. injection Hi as <-. cbn. unfold zlen. f_equal. lia.
  - rewrite write_size_memory_app. lia.
  - intros _. rewrite raw_size_eq. cbn. lia.
  - done.
Qed.

(** The three ways to push a record; the sizes decide. *)
Lemma batch_push_spec now record mb :
  mb_ok mb -> valid_content record -> 0 <= now - create_time mb < 2 ^ 31 ->
  let od := zlen (mb_records mb) in
  let r := stamp od (now - create_time mb) record in
  let size := raw_size mb + write_size codec_record 0 r in
  exists mb', batch_push_record now record mb =
    (if mb_write_limit mb <? size then inl (RecordTooLarge size (mb_write_limit mb))
     else if negb (od =? 0) && (mb_batch_limit mb <? size) then inr (NotAdded r) else inr (Added od), mb') /\
    mb_ok mb' /\ mb_write_limit mb' = mb_write_limit mb /\ mb_compression mb' = mb_compression mb /\
    create_time mb' = create_time mb /\
    mb_records mb' = (if (mb_write_limit mb <? size) || negb (od =? 0) && (mb_batch_limit mb <? size)
                      then mb_records mb else mb_records mb ++ [r]).
Proof.
  intros Hok Hc Hnow. cbv zeta. unfold batch_push_record. cbv zeta.
  pose proof (stamped now record mb Hnow) as Est. cbv zeta in Est. rewrite Est. clear Est.
  set (r := stamp _ _ record). remember (write_size codec_record 0 r) as size eqn:Esize.
  assert (mb_ok (mb_set_full mb)) as Hfull by (destruct Hok; split; done).
  destruct (Z.ltb_spec (mb_write_limit mb) (raw_size mb + size)); [eexists; split; [done|]; by split_and!|].
  assert (forall full, mb_ok (MkMemoryBatch (mb_compression mb) (mb_batch_limit mb) (mb_write_limit mb)
    (current_size_uncompressed mb + size) full (create_time mb) (mb_records mb ++ [r]))) as Hadd.
  { intros full. apply mb_ok_add; try done. unfold in_i. lia. }
  destruct (zlen (mb_records mb) =? 0); cbn [negb andb orb].
  - destruct (_ <? _); (eexists; split; [reflexivity|]; split; [apply Hadd|done]).
  - destruct (_ <? _); [eexists; split; [done|]; by split_and!|].
    destruct (_ =? _); (eexists; split; [reflexivity|]; split; [apply Hadd|done]).
Qed.

(** ** The accumulator *)

Definition batch_good (acc : RecordAccumulator) (pb : ProducerBatch) : Prop :=
  mb_ok (pb_batch pb) /\ mb_records (pb_batch pb) <> [] /\
  mb_write_limit (pb_batch pb) = acc_max_request_size acc /\ mb_compression (pb_batch pb) = acc_compression acc.

(** Every batch in a queue is good and not answered yet, and no two share an
    id. *)
Record acc_ok (acc : RecordAccumulator) : Prop := {
  ao_room : acc_max_request_size acc < 2 ^ 31 - 49;
  ao_good p q : acc_batches acc !! p = Some q -> Forall (batch_good acc) q;
  ao_open p q pb : acc_batches acc !! p = Some q -> pb ∈ q ->
    (pb_id pb < next_id acc)%nat /\ metadata acc !! pb_id pb = Some (Buffered ChanEmpty);
  ao_unique p p' q q' i j id : acc_batches acc !! p = Some q -> acc_batches acc !! p' = Some q' ->
    map pb_id q !! i = Some id -> map pb_id q' !! j = Some id -> p = p' /\ i = j;
}.

(** The records in the queue of a partition, and where a future points. *)
Definition queued_records (acc : RecordAccumulator) (p : Z) : MemoryRecords :=
  concat (map (fun pb => mb_records (pb_batch pb)) (default [] (acc_batches acc !! p))).
Definition located (acc : RecordAccumulator) (fut : FutureRecordMetadata) (r : Record') : Prop :=
  exists q pb, acc_batches acc !! fr_partition_id fut = Some q /\ pb ∈ q /\ pb_id pb = fr_batch fut /\
    0 <= relative_offset fut /\ mb_records (pb_batch pb) !! Z.to_nat (relative_offset fut) = Some r.

(** A new [BatchMetadata]. *)
Definition alloc (acc : RecordAccumulator) : RecordAccumulator :=
  MkAccumulator (batch_size acc) (acc_max_request_size acc) (queue_size acc) (acc_batches acc) (acc_compression acc)
    (<[next_id acc := Buffered ChanEmpty]> (metadata acc)) (S (next_id acc)).

Lemma alloc_ok acc : acc_ok acc -> acc_ok (alloc acc).
Proof.
  intros [Hr Hg Ho Hu]. split; cbn; [done|done| |done].
  intros p q pb Hq Hin. destruct (Ho _ _ _ Hq Hin) as [Hlt Hm]. split; [lia|]. by rewrite lookup_insert_ne by lia.
Qed.

(** Another queue whose batches are good, with the ids it had or one more that
    no queue has. *)
Lemma queue_ok acc p q q' ids :
  acc_ok acc -> acc_batches acc !! p = Some q -> Forall (batch_good acc) q' -> map pb_id q' = map pb_id q ++ ids ->
  (ids = [] \/ exists id, ids = [id] /\ (id < next_id acc)%nat /\ metadata acc !! id = Some (Buffered ChanEmpty) /\
     forall p q pb, acc_batches acc !! p = Some q -> pb ∈ q -> pb_id pb <> id) ->
  acc_ok (with_queue p q' acc).
Proof.
  intros [Hr Hg Ho Hu] Hq Hgood Hids Hnew.
  assert (forall i id, map pb_id q' !! i = Some id -> map pb_id q !! i = Some id \/ ids = [id] /\ i = length q) as Hold.
  { intros i id. rewrite Hids, lookup_app_Some. intros [?|[Hi E]]; [by left|]. right. rewrite length_map in *.
    destruct Hnew as [->|(id' & -> & _)]; [done|]. destruct (i - length q)%nat eqn:Ei; [|done]. injection E as <-. split; [done|lia]. }
  split; cbn; [done| | |].
  - intros p1 q1. destruct (decide (p1 = p)) as [->|Hne]; [rewrite lookup_insert_eq; by intros [= <-]|].
    rewrite lookup_insert_ne by done. apply Hg.
  - intros p1 q1 pb. destruct (decide (p1 = p)) as [->|Hne]; [|rewrite lookup_insert_ne by done; apply Ho].
    rewrite lookup_insert_eq. intros [= <-] [i Hi]%list_elem_of_lookup.
    destruct (Hold i (pb_id pb)) as [E|[-> _]]; [by rewrite list_lookup_fmap, Hi| |].
    + rewrite list_lookup_fmap in E. apply fmap_Some in E as (pb0 & E0 & ->). by apply (Ho p q pb0), (list_elem_of_lookup_2 _ i).
    + destruct Hnew as [?|(id & [= <-] & Hlt & Hm & _)]; done.
  - assert (forall p2 q2 j id, p2 <> p -> acc_batches acc !! p2 = Some q2 -> map pb_id q2 !! j = Some id ->
      forall i, map pb_id q' !! i = Some id -> False) as Hother.
    { intros p2 q2 j id Hne Hq2 Hj i Hi. destruct (Hold _ _ Hi) as [E|[-> _]]; [by destruct (Hu p2 p q2 q j i id)|].
      destruct Hnew as [?|(id' & [= <-] & _ & _ & Hf)]; [done|]. rewrite list_lookup_fmap in Hj.
      apply fmap_Some in Hj as (pb & Hpb & ->). by apply (Hf p2 q2 pb Hq2 (list_elem_of_lookup_2 _ _ _ Hpb)). }
    intros p1 p2 q1 q2 i j id. destruct (decide (p1 = p)) as [->|Hne1], (decide (p2 = p)) as [->|Hne2];
      rewrite ?lookup_insert_eq, ?lookup_insert_ne by done.
    + intros [= <-] [= <-] Hi Hj. split; [done|]. destruct (Hold _ _ Hi) as [Ei|[-> ->]], (Hold _ _ Hj) as [Ej|[Ej ->]].
      * by destruct (Hu p p q q i j id).
      * exfalso. destruct Hnew as [->|(id' & -> & _ & _ & Hf)]; [done|]. injection Ej as ->. rewrite list_lookup_fmap in Ei.
        apply fmap_Some in Ei as (pb & Hpb & ->). by apply (Hf p q pb Hq (list_elem_of_lookup_2 _ _ _ Hpb)).
      * exfalso. destruct Hnew as [?|(id' & [= <-] & _ & _ & Hf)]; [done|]. rewrite list_lookup_fmap in Ej.
        apply fmap_Some in Ej as (pb & Hpb & ->). by apply (Hf p q pb Hq (list_elem_of_lookup_2 _ _ _ Hpb)).
      * done.
    + intros [= <-] Hq2 Hi Hj. by destruct (Hother p2 q2 j id Hne2 Hq2 Hj i Hi).
    + intros Hq1 [= <-] Hi Hj. by destruct (Hother p1 q1 i id Hne1 Hq1 Hi j Hj).
    + apply Hu.
Qed.

(** Pushing keeps the futures that are out. *)
Lemma located_queue acc p q q' fut r :
  acc_batches acc !! p = Some q ->
  (forall pb, pb ∈ q -> exists pb', pb' ∈ q' /\ pb_id pb' = pb_id pb /\ mb_records (pb_batch pb) `prefix_of` mb_records (pb_batch pb')) ->
  located acc fut r -> located (with_queue p q' acc) fut r.
Proof.
  intros Hq Hpre (q0 & pb & Hq0 & Hin & Hid & Hr & Hl). unfold located. cbn.
  destruct (decide (fr_partition_id fut = p)) as [E|Hne].
  - rewrite E in *. simplify_eq. destruct (Hpre pb Hin) as (pb' & Hin' & Eid & Hp). rewrite lookup_insert_eq.
    exists q', pb'. split_and!; try done; [congruence|]. by eapply prefix_lookup_Some.
  - rewrite lookup_insert_ne by done. by exists q0, pb.
Qed.

Lemma queued_records_eq acc p q :
  acc_batches acc !! p = Some q -> queued_records acc p = concat (map (fun pb => mb_records (pb_batch pb)) q).
Proof. intros Hq. unfold queued_records. by rewrite Hq. Qed.

Lemma queued_records_queue acc p q : queued_records (with_queue p q acc) p = concat (map (fun pb => mb_records (pb_batch pb)) q).
Proof. apply queued_records_eq. cbn. by rewrite lookup_insert_eq. Qed.

Lemma fresh_batch_ok now acc :
  acc_max_request_size acc < 2 ^ 31 - 49 ->
  mb_ok (memory_batch_new now (acc_max_request_size acc) (batch_size acc) (acc_compression acc)).
Proof. intros Hr. split; cbn [mb_records memory_batch_new mb_write_limit]; try done. Qed.

(** What a push leaves behind. *)
Definition pushed (acc : RecordAccumulator) (p : Z) (record : Record') (r : ProducerError + FutureRecordMetadata)
    (acc' : RecordAccumulator) : Prop :=
  acc_ok acc' /\ (forall p', p' <> p -> acc_batches acc' !! p' = acc_batches acc !! p') /\
  (forall fut r, located acc fut r -> located acc' fut r) /\
  match r with
  | inr fut => exists r', same_content record r' /\ fr_partition_id fut = p /\ located acc' fut r' /\
      queued_records acc' p = queued_records acc p ++ [r']
  | inl err => (exists n, acc_max_request_size acc < n /\ err = RecordTooLarge n (acc_max_request_size acc)) /\
      queued_records acc' p = queued_records acc p
  end.

Lemma map_eq_lookup {A B} (f : A -> B) l l' i x :
  map f l' = map f l -> l !! i = Some x -> exists x', l' !! i = Some x' /\ f x' = f x.
Proof.
  intros E Hi. pose proof (list_lookup_fmap f l i) as E1. rewrite Hi in E1. cbn in E1.
  pose proof (list_lookup_fmap f l' i) as E2. change (f <$> l') with (map f l') in E2. rewrite E in E2.
  change (f <$> l) with (map f l) in E1. rewrite E1 in E2. symmetry in E2. apply fmap_Some in E2 as (x' & ? & ?). eauto.
Qed.

(** A new batch takes the record or refuses it; there is no second attempt. *)
Lemma create_spec now p q q' record acc :
  acc_ok acc -> valid_content record -> acc_batches acc !! p = Some q -> Forall (batch_good acc) q' ->
  map pb_id q' = map pb_id q -> map (fun pb => mb_records (pb_batch pb)) q' = map (fun pb => mb_records (pb_batch pb)) q ->
  exists r events acc', create_and_new_batch 2 now p q' record acc = (r, events, acc') /\ pushed acc p record r acc'.
Proof.
  intros Hok Hc Hq Hgood Hids Hrecs. cbn [create_and_new_batch acc_max_request_size batch_size acc_compression].
  destruct (batch_push_spec now record (memory_batch_new now (acc_max_request_size acc) (batch_size acc) (acc_compression acc)))
    as (mb' & E & Hmb & Hw & Hcomp & _ & Hr); [apply fresh_batch_ok, Hok|done|cbn; lia|].
  rewrite E. clear E. cbn [mb_records memory_batch_new mb_write_limit create_time] in *. change (zlen (@nil Record')) with 0 in Hr |- *.
  cbn [Z.eqb negb andb] in Hr |- *. rewrite Z.sub_diag in Hr |- *. rewrite orb_false_r in Hr.
  set (size := raw_size _ + _) in *. fold (alloc acc).
  assert (acc_ok (alloc acc)) as Hok' by (by apply alloc_ok).
  assert (forall pb, pb ∈ q -> exists pb', pb' ∈ q' /\ pb_id pb' = pb_id pb /\ mb_records (pb_batch pb) `prefix_of` mb_records (pb_batch pb')) as Hpre.
  { intros pb [i Hi]%list_elem_of_lookup. destruct (map_eq_lookup _ _ _ _ _ Hids Hi) as (pb' & Hi' & E1).
    destruct (map_eq_lookup _ _ _ _ _ Hrecs Hi) as (pb'' & Hi'' & E2). simplify_eq.
    exists pb'. split; [by eapply list_elem_of_lookup_2|]. split; [done|]. by rewrite E2. }
  assert (queued_records acc p = concat (map (fun pb => mb_records (pb_batch pb)) q')) as Eq
    by (by rewrite (queued_records_eq _ _ _ Hq), Hrecs).
  destruct (Z.ltb_spec (acc_max_request_size acc) size).
  - eexists _, _, _. split; [reflexivity|]. split_and!.
    + eapply (queue_ok (alloc acc) p q q' []); [done|done|done|by rewrite app_nil_r|by left].
    + intros p' Hne. cbn. by rewrite lookup_insert_ne.
    + intros fut r Hl. by eapply (located_queue (alloc acc)).
    + by exists size.
    + by rewrite queued_records_queue.
  - eexists _, _, _. split; [reflexivity|]. split_and!.
    + eapply (queue_ok (alloc acc) p q _ [next_id acc]); [done|done| | |].
      * apply Forall_app. split; [done|]. constructor; [|done]. split; [done|]. cbn [pb_batch]. rewrite Hr. by split_and!.
      * by rewrite map_app, Hids.
      * right. exists (next_id acc). split; [done|]. cbn. split; [lia|]. split; [by rewrite lookup_insert_eq|].
        intros p1 q1 pb Hq1 Hin. destruct (ao_open _ Hok _ _ _ Hq1 Hin). lia.
    + intros p' Hne. cbn. by rewrite lookup_insert_ne.
    + intros fut r Hl. eapply (located_queue (alloc acc) p q); [done| |exact Hl]. intros pb Hin.
      destruct (Hpre pb Hin) as (pb' & ? & ?). exists pb'. rewrite elem_of_app. auto.
    + eexists. split; [|split; [done|split]].
      * instantiate (1 := stamp 0 0 record). done.
      * eexists _, (MkProducerBatch (next_id acc) mb'). cbn. rewrite lookup_insert_eq. split; [done|]. split; [set_solver|].
        split; [done|]. split; [done|]. by rewrite Hr.
      * rewrite queued_records_queue, map_app, concat_app, <-Eq. cbn. by rewrite Hr, app_nil_r.
Qed.

Lemma acc_push_spec now record p q acc :
  acc_ok acc -> valid_content record -> acc_batches acc !! p = Some q -> zlen q < queue_size acc ->
  (forall pb, pb ∈ q -> 0 <= now - create_time (pb_batch pb) < 2 ^ 31) ->
  exists r events acc', acc_push_record now record p acc = Some (r, events, acc') /\ pushed acc p record r acc'.
Proof.
  intros Hok Hc Hq Hspace Hnow. unfold acc_push_record. rewrite Hq, (proj2 (Z.ltb_lt _ _)) by done. cbn [negb].
  destruct (last q) as [back|] eqn:El.
  2:{ destruct (create_spec now p q q record acc) as (r & ev & acc' & E & Hp); try done; [by eapply ao_good|].
      rewrite E. by exists r, ev, acc'. }
  apply last_Some in El as [q0 ->]. rewrite removelast_last.
  pose proof (ao_good _ Hok _ _ Hq) as Hgood. apply Forall_app in Hgood as [Hg0 Hgb]. apply Forall_singleton in Hgb as (Hmb & Hne & Hw & Hcomp).
  destruct (batch_push_spec now record (pb_batch back)) as (mb' & E & Hmb' & Hw' & Hcomp' & Ht' & Hr); [done|done|apply Hnow; set_solver|].
  rewrite E. clear E. set (size := raw_size _ + _) in *. set (r := stamp _ _ record) in *. set (back' := MkProducerBatch (pb_id back) mb').
  assert (map pb_id (q0 ++ [back']) = map pb_id (q0 ++ [back])) as Hids by (by rewrite !map_app).
  assert (Forall (batch_good acc) (q0 ++ [back'])) as Hgood'.
  { apply Forall_app. split; [done|]. apply Forall_singleton. split; [done|]. cbn. split_and!; try congruence. rewrite Hr.
    destruct (_ || _); [done|]. by destruct (mb_records (pb_batch back)). }
  assert (forall pb, pb ∈ q0 ++ [back] -> exists pb', pb' ∈ q0 ++ [back'] /\ pb_id pb' = pb_id pb /\
    mb_records (pb_batch pb) `prefix_of` mb_records (pb_batch pb')) as Hpre.
  { intros pb [Hin| ->%list_elem_of_singleton]%elem_of_app; [exists pb; split; [set_solver|done]|]. exists back'.
    split; [set_solver|]. split; [done|]. cbn. rewrite Hr. destruct (_ || _); [done|]. by apply prefix_app_r. }
  assert (acc_ok (with_queue p (q0 ++ [back']) acc)) as Hok'.
  { eapply (queue_ok acc p (q0 ++ [back]) _ []); try done; [by rewrite app_nil_r|by left]. }
  rewrite Hw in *. destruct (Z.ltb_spec (acc_max_request_size acc) size) as [Hbig|Hfit]; cbn [orb] in Hr.
  - eexists _, _, _. split; [reflexivity|]. split_and!; [done| | |by exists size|].
    + intros p' Hp'. cbn. by rewrite lookup_insert_ne.
    + intros fut r0. by apply (located_queue acc p (q0 ++ [back])).
    + rewrite queued_records_queue. rewrite (queued_records_eq _ _ _ Hq).
      rewrite !map_app, !concat_app. cbn [map concat back' pb_batch]. by rewrite Hr.
  - destruct (negb _ && _).
    + destruct (create_spec now p (q0 ++ [back]) (q0 ++ [back']) r acc) as (r' & ev & acc' & -> & Hp); try done.
      { rewrite !map_app. cbn. by rewrite Hr. }
      by eexists _, _, _.
    + eexists _, _, _. split; [reflexivity|]. split_and!; [done| | |].
      * intros p' Hp'. cbn. by rewrite lookup_insert_ne.
      * intros fut r0. by apply (located_queue acc p (q0 ++ [back])).
      * exists r. split; [done|]. split; [done|]. split.
        -- exists (q0 ++ [back']), back'. cbn [with_queue acc_batches fr_partition_id fr_batch relative_offset].
           rewrite lookup_insert_eq. split; [done|]. split; [set_solver|]. split; [done|]. split; [apply zlen_nonneg|].
           cbn [pb_batch back']. rewrite Hr. unfold zlen. rewrite Nat2Z.id. apply list_lookup_middle. done.
        -- rewrite queued_records_queue. rewrite (queued_records_eq _ _ _ Hq).
           rewrite !map_app, !concat_app. cbn [map concat back' pb_batch]. by rewrite Hr, !app_nil_r, app_assoc.
Qed.

(** ** From a queue to the log of the leader *)

Lemma number_batches_lookup o (bs : list RawBatch) j b :
  bs !! j = Some b -> number_batches o bs !! j = Some (set_base_offset (offset_at o bs j) b).
Proof.
  revert o j. induction bs as [|b0 bs IH]; intros o j Hj; [done|]. destruct j as [|j]; cbn in *; [by simplify_eq|].
  rewrite (IH _ _ Hj). done.
Qed.

Lemma choose_list {A B} (P : A -> B -> Prop) (l : list A) :
  Forall (fun a => exists b, P a b) l -> exists l', Forall2 P l l'.
Proof. induction 1 as [|a l [b Hb] _ [l' Hl']]; [by exists []|]. exists (b :: l'). by constructor. Qed.

Section produce.
Context (crc32c : list byte -> Z) (crc32c_u32 : forall bs, in_u 32 (crc32c bs)).
Context {S : Type} `{!ReplicaStorage S} `{!ReplicaStorageOK crc32c S}.
Context (gzip snappy lz4 zstd : Backend).
Context (gzip_ok : lossless gzip) (snappy_ok : lossless snappy) (lz4_ok : lossless lz4) (zstd_ok : lossless zstd).
Implicit Types (ctx : ProduceContext S) (l : LeaderReplicaState S) (rb : RawBatch).

(** The raw form of a batch, which the replica takes. *)
Definition accepted (limit : Z) (mb : MemoryBatch) rb : Prop :=
  raw_of_batch gzip snappy lz4 zstd (batch_of_memory mb) = inl rb /\ sendable limit rb.

(** What the log holds at an offset. *)
Definition stored_record (log : list RawBatch) (o : Z) (r : Record') : Prop :=
  exists b i rs, b ∈ log /\ memory_records gzip snappy lz4 zstd b = inl rs /\ rs !! i = Some r /\ o = base_offset b + Z.of_nat i.

Lemma mb_ok_count mb : mb_ok mb -> mb_records mb <> [] -> 0 < zlen (mb_records mb) < 2 ^ 31.
Proof.
  intros [[Hv _] _ _ _ _] Hne. split; [|done]. destruct (mb_records mb); [done|]. rewrite zlen_cons.
  pose proof (zlen_nonneg l). lia.
Qed.

Lemma batch_of_memory_header mb :
  mb_ok mb -> mb_records mb <> [] ->
  last_offset_delta (header (batch_of_memory mb)) = zlen (mb_records mb) - 1 /\
  get_compression (header (batch_of_memory mb)) = inl (mb_compression mb) /\
  records (batch_of_memory mb) = mb_records mb.
Proof.
  intros Hok Hne. pose proof (mb_ok_count mb Hok Hne) as Hn. unfold batch_of_memory.
  rewrite wrap_i_id by (unfold in_i; lia). rewrite (proj2 (Z.ltb_lt 0 _)) by lia.
  split; [done|]. split; [|done]. cbn [header set_records set_header]. apply get_set_compression.
Qed.

Lemma accepted_spec limit mb rb :
  mb_ok mb -> mb_records mb <> [] -> accepted limit mb rb ->
  last_offset_delta (header rb) = zlen (mb_records mb) - 1 /\ get_compression (header rb) = inl (mb_compression mb) /\
  forall o, memory_records gzip snappy lz4 zstd (set_base_offset o rb) = inl (mb_records mb).
Proof.
  intros Hok Hne [E _]. destruct (batch_of_memory_header mb Hok Hne) as (Hd & Hc & Hr).
  assert (zlen (wire codec_memory 0 (mb_records mb)) <= isize_max) as Hw.
  { rewrite (wire_size codec_memory 0 _ (mbo_valid _ Hok)). pose proof (mbo_limit _ Hok Hne) as Hl. rewrite raw_size_eq, (mbo_size _ Hok) in Hl.
    pose proof (mbo_room _ Hok). unfold isize_max. assert (BATCH_FILE_HEADER_SIZE = 57) by reflexivity. lia. }
  unfold raw_of_batch in E. rewrite Hr, encode_memory_vec in E by (try apply Hok; done).
  cbn [written buf_append vec_new app] in E. rewrite Hc in E. cbn [cbind] in E.
  destruct (compress gzip snappy lz4 zstd (mb_compression mb) _) as [out|] eqn:Ec; [|done]. cbn [cbind] in E.
  injection E as <-. cbn [header]. split; [done|]. split; [done|]. intros o.
  eapply memory_records_compressed; try done. by apply Hok.
Qed.
Lemma compressed_header_valid delta first max :
  0 <= delta < 2 ^ 31 -> in_i 64 first -> in_i 64 max ->
  valid_batch_header (set_compression CompNone (set_max_time_stamp max (set_first_timestamp first
    (set_last_offset_delta delta batch_header_default)))).
Proof.
  intros Hd Hf Hm. split; [split; vm_compute; congruence|]. split; [split; vm_compute; congruence|].
  split; [split; vm_compute; congruence|]. split; [unfold in_i; cbn [last_offset_delta set_compression set_h_attributes
    set_max_time_stamp set_first_timestamp set_last_offset_delta]; lia|]. split; [exact Hf|]. split; [exact Hm|].
  split; [split; vm_compute; congruence|]. split; [split; vm_compute; congruence|]. split; vm_compute; congruence.
Qed.

(** Without compression a batch within the limit is accepted. *)
Lemma uncompressed_accepted limit mb :
  mb_ok mb -> mb_records mb <> [] -> mb_compression mb = CompNone -> mb_write_limit mb <= limit -> in_i 64 (create_time mb) ->
  exists rb, accepted limit mb rb.
Proof.
  intros Hok Hne Hcomp Hlim Ht. destruct (batch_of_memory_header mb Hok Hne) as (Hd & Hc & Hr).
  pose proof (mb_ok_count mb Hok Hne) as Hn. pose proof (records_le_size _ (mbo_valid _ Hok)) as Hle.
  pose proof (mbo_limit _ Hok Hne) as Hl. rewrite raw_size_eq, (mbo_size _ Hok) in Hl. pose proof (mbo_room _ Hok).
  rewrite <-(wire_size codec_memory 0 _ (mbo_valid _ Hok)) in Hl, Hle. assert (BATCH_FILE_HEADER_SIZE = 57) as E57 by reflexivity.
  unfold accepted, raw_of_batch. rewrite Hr, encode_memory_vec by (try apply Hok; unfold isize_max; lia).
  cbn [written buf_append vec_new app]. rewrite Hc, Hcomp. cbn [cbind compress]. eexists. split; [reflexivity|].
  assert (valid_batch_header (header (batch_of_memory mb))) as Hh.
  { unfold batch_of_memory. rewrite wrap_i_id by (unfold in_i; lia). rewrite (proj2 (Z.ltb_lt 0 _)) by lia. rewrite Hcomp.
    cbn [header set_records set_header set_batch_len set_base_offset batch_default]. apply compressed_header_valid; [lia|done|].
    destruct (last _); [apply wrap_i_range; lia|done]. }
  split; [|unfold write_size_batch; cbn [write_size codec_raw records]; lia].
  split_and!; cbn [set_base_offset base_offset header records schema_id]; try done.
  - split; [done|]. split; [exact Hh|]. split; [done|]. split; [done|]. split; [done|].
    cbn [rwire codec_raw_ok records set_base_offset]. unfold SCHEMA_ID_SIZE, BATCH_HEADER_SIZE. lia.
  - unfold batch_of_memory. cbn [header set_records set_header]. by rewrite has_schema_set_compression.
  - rewrite Hd. lia.
  - rewrite Hd. unfold write_size_batch. cbn [write_size codec_raw records]. lia.
Qed.

(** ** The handler *)

(** A topic takes the compression it is set to. *)
Definition allows (alg : CompressionAlgorithm) (c : Compression) : Prop :=
  alg = AlgAny \/ alg = match c with CompNone => AlgNone | Gzip => AlgGzip | Snappy => AlgSnappy | Lz4 => AlgLz4 | Zstd => AlgZstd end.

Lemma validate_allowed rb alg c :
  get_compression (header rb) = inl c -> allows alg c -> validate_records (MkRecordSet [rb]) alg = true.
Proof. intros E Ha. unfold validate_records. cbn. rewrite E. destruct Ha as [-> | ->]; [done|]. by destruct c. Qed.

(** An SPU that leads a replica and takes records for it. *)
Definition leads_replica ctx (k : ReplicaKey) (meta : Replica) l (limit : Z) (L : list RawBatch) (c : Compression) : Prop :=
  pc_leaders ctx !! k = Some (meta, l) /\ leader_ok crc32c l limit L /\ (mirror ← rep_mirror meta; accept_traffic mirror) = None /\
  exists spec, pc_specs ctx !! k = Some spec /\ allows (rep_compression_type spec) c.

(** The request has no SmartModules. *)
Notation no_smartmodules := (fun (_ : LeaderReplicaState S) (records : RawRecordSet) => inr records).

Lemma handle_partition_spec ctx k meta l limit L c mb rb :
  leads_replica ctx k meta l limit L c -> mb_ok mb -> mb_records mb <> [] -> mb_compression mb = c -> accepted limit mb rb ->
  pub_leo (leader_storage l) + zlen (mb_records mb) < 2 ^ 63 ->
  exists l', handle_partition_request no_smartmodules (topic k) (MkPartitionProduceData (Names.partition k) (MkRecordSet [rb])) ctx
    = (Ok (pwr_ok k (pub_leo (leader_storage l)) (pub_leo (leader_storage l) + zlen (mb_records mb))), pc_set_leader k meta l' ctx) /\
    leads_replica (pc_set_leader k meta l' ctx) k meta l' limit (L ++ [set_base_offset (pub_leo (leader_storage l)) rb]) c /\
    pub_leo (leader_storage l') = pub_leo (leader_storage l) + zlen (mb_records mb).
Proof.
  intros (Hl & Hok & Hmir & spec & Hspec & Hall) Hmb Hne Hcomp Hacc Hend.
  destruct (accepted_spec _ _ _ Hmb Hne Hacc) as (Hd & Hc & _). pose proof (mb_ok_count mb Hmb Hne) as Hn.
  assert (end_from (pub_leo (leader_storage l)) [rb] = pub_leo (leader_storage l) + zlen (mb_records mb)) as He by (cbn; lia).
  assert (total_records (MkRecordSet [rb]) = zlen (mb_records mb)) as Htot.
  { unfold total_records. cbn. unfold records_len. rewrite Hd. case_ltb; [lia|]. rewrite wrap_u_id by (unfold in_u; lia). lia. }
  destruct (leader_write_appends crc32c l limit L [rb]) as (size & notified & l' & E & Hok' & _ & Hleo);
    [done|constructor; [apply Hacc|done]|lia|lia|].
  exists l'. unfold handle_partition_request. cbn [ppd_partition_index ppd_records].
  assert (MkReplicaKey (topic k) (Names.partition k) = k) as -> by (by destruct k).
  rewrite Hl, Hmir, Htot, (proj2 (Z.eqb_neq _ 0)) by lia. unfold handle_produce_partition.
  rewrite Hspec, (validate_allowed rb _ c) by (done || congruence). cbn [negb]. rewrite E, Hleo, He. split; [done|].
  split; [|done]. split; [cbn; by rewrite lookup_insert_eq|]. split; [done|]. split; [done|]. by exists spec.
Qed.

(** The answers to the batches of a request. *)
Fixpoint write_results (k : ReplicaKey) (o : Z) (rbs : list RawBatch) : list PartitionWriteResult :=
  match rbs with
  | [] => []
  | rb :: rbs =>
      let o' := o + last_offset_delta (header rb) + 1 in
      pwr_ok k o o' :: write_results k o' rbs
  end.

(** A batch and the raw form of it that the replica takes. *)
Definition taken (limit : Z) (c : Compression) (mb : MemoryBatch) rb : Prop :=
  mb_ok mb /\ mb_records mb <> [] /\ mb_compression mb = c /\ accepted limit mb rb.

Lemma taken_sendable limit c mbs rbs : Forall2 (taken limit c) mbs rbs -> Forall (sendable limit) rbs.
Proof. induction 1 as [|? ? ? ? (_ & _ & _ & [_ ?])]; constructor; done. Qed.

Lemma handle_partitions_spec k meta limit c mbs rbs :
  Forall2 (taken limit c) mbs rbs ->
  forall ctx l L, leads_replica ctx k meta l limit L c -> end_from (pub_leo (leader_storage l)) rbs < 2 ^ 63 ->
  exists ctx' l', handle_partitions no_smartmodules (topic k)
      (map (fun rb => MkPartitionProduceData (Names.partition k) (MkRecordSet [rb])) rbs) ctx
    = (Ok (write_results k (pub_leo (leader_storage l)) rbs), ctx') /\
    leads_replica ctx' k meta l' limit (L ++ number_batches (pub_leo (leader_storage l)) rbs) c /\
    pub_leo (leader_storage l') = end_from (pub_leo (leader_storage l)) rbs.
Proof.
  induction 1 as [|mb rb mbs rbs (Hmb & Hne & Hcomp & Hacc) Hrest IH]; intros ctx l L Hlead Hend.
  { exists ctx, l. cbn. rewrite app_nil_r. done. }
  destruct (accepted_spec _ _ _ Hmb Hne Hacc) as (Hd & _ & _). cbn [end_from] in Hend.
  assert (pub_leo (leader_storage l) + last_offset_delta (header rb) + 1 = pub_leo (leader_storage l) + zlen (mb_records mb)) as Ho by lia.
  pose proof (sendable_end limit (pub_leo (leader_storage l) + last_offset_delta (header rb) + 1) rbs (taken_sendable _ _ _ _ Hrest)) as Hge.
  destruct (handle_partition_spec ctx k meta l limit L c mb rb) as (l1 & E1 & Hlead1 & Hleo1); try done; [lia|].
  destruct (IH _ _ _ Hlead1) as (ctx' & l' & E2 & Hlead2 & Hleo2); [by rewrite Hleo1, <-Ho|].
  exists ctx', l'. rewrite Hleo1, <-Ho in *. cbn [map handle_partitions]. erewrite bind_ok by exact E1. erewrite bind_ok by exact E2.
  split; [done|]. cbn [number_batches end_from]. split; [|done]. by rewrite <-app_assoc in Hlead2.
Qed.
(** ** The answer *)

Lemma write_results_lookup k o rbs j rb :
  rbs !! j = Some rb -> write_results k o rbs !! j = Some (pwr_ok k (offset_at o rbs j) (offset_at o rbs (Datatypes.S j))).
Proof.
  revert o j. induction rbs as [|rb0 rbs IH]; intros o j Hj; [done|]. destruct j as [|j]; [done|]. cbn. by rewrite (IH _ _ Hj).
Qed.

Lemma write_results_length k o rbs : length (write_results k o rbs) = length rbs.
Proof. revert o. induction rbs; intros o; cbn; auto. Qed.

(** Results that the high watermark reaches stay as they are. *)
Lemma acked timeout hw_events ctx k meta l o rbs hw limit :
  pc_leaders ctx !! k = Some (meta, l) -> Forall (sendable limit) rbs -> hw ∈ hw_events k -> end_from o rbs <= hw ->
  map (wait_for_ack timeout hw_events ctx) (write_results k o rbs) = write_results k o rbs.
Proof.
  intros Hl Hs Hin. revert o. induction Hs as [|rb rbs Hrb Hs IH]; intros o Hend; [done|]. cbn [write_results map end_from] in *.
  pose proof (sendable_end limit (o + last_offset_delta (header rb) + 1) rbs Hs). rewrite IH by done. f_equal.
  unfold wait_for_ack. cbn. rewrite Hl. destruct (_ <=? _); [done|].
  assert (existsb (fun hw => o + last_offset_delta (header rb) + 1 <=? hw) (hw_events k) = true) as ->; [|done].
  apply existsb_exists. exists hw. split; [by apply list_elem_of_In|]. apply Z.leb_le. lia.
Qed.

(** Both ways to send give each batch the offset its records got. *)
Lemma answers_spec semantic k o rbs isolation timeout request_parts :
  length request_parts = length rbs ->
  let request := MkProduceRequest isolation timeout [MkTopicProduceData (topic k) request_parts] in
  let response := into_response [MkTopicWriteResult (topic k) (write_results k o rbs)] in
  exists answers, send_to_socket semantic request (inr response) = inr answers /\
    forall j rb, rbs !! j = Some rb -> exists a, answers !! j = Some a /\ poll a = (offset_at o rbs j, EcNone).
Proof.
  intros Hlen. cbv zeta. unfold send_to_socket. cbn [preq_topics map tpd_partitions concat]. rewrite app_nil_r, Hlen.
  cbn [into_response presp_responses map tpr_partitions concat]. destruct semantic.
  - eexists. split; [done|]. intros j rb Hj. exists (FutureShared (inr (into_response [MkTopicWriteResult (topic k) (write_results k o rbs)])) j).
    split.
    + rewrite list_lookup_fmap, lookup_seq_lt by (by eapply lookup_lt_Some). done.
    + cbn. rewrite app_nil_r, list_lookup_fmap, (write_results_lookup k o rbs j rb Hj). done.
  - eexists. split; [done|]. intros j rb Hj. exists (FutureReady (offset_at o rbs j) EcNone). split; [|done].
    rewrite app_nil_r, map_map. change (map ?f ?l) with (f <$> l). cbn [twr_partitions]. rewrite list_lookup_fmap, (write_results_lookup k o rbs j rb Hj). done.
Qed.

Lemma notify_other id ids answers m : id ∉ ids -> notify_batches ids answers m !! id = m !! id.
Proof.
  revert answers m. induction ids as [|i ids IH]; intros answers m Hni; [by destruct answers|]. apply not_elem_of_cons in Hni as [Hne Hni].
  cbn. destruct answers; rewrite IH, lookup_insert_ne by done; done.
Qed.

Lemma notify_lookup ids answers m j id a :
  NoDup ids -> ids !! j = Some id -> answers !! j = Some a -> notify_batches ids answers m !! id = Some (Buffered (ChanSent a)).
Proof.
  revert answers m j. induction ids as [|id0 ids IH]; intros answers m j Hnd Hid Ha; [done|]. apply NoDup_cons in Hnd as [Hnin Hnd].
  destruct answers as [|a0 answers]; [done|]. cbn. destruct j as [|j]; [|by eapply IH].
  cbn in Hid, Ha. simplify_eq. by rewrite notify_other, lookup_insert_eq.
Qed.

Lemma take_ready_all now linger q : take_ready true now linger q = (q, []).
Proof. induction q as [|pb q IH]; [done|]. cbn. by rewrite IH. Qed.

Lemma partition_requests_spec limit c p q rbs :
  Forall2 (taken limit c) (map pb_batch q) rbs ->
  partition_requests gzip snappy lz4 zstd p q = inl (map (fun rb => MkPartitionProduceData p (MkRecordSet [rb])) rbs).
Proof.
  revert rbs. induction q as [|pb q IH]; intros rbs H; inversion H as [|? rb ? rbs' (_ & _ & _ & [E _]) Hrest]; subst; [done|].
  cbn. rewrite E. cbn. by rewrite (IH _ Hrest).
Qed.

Lemma offset_at_within limit o rbs j rb :
  Forall (sendable limit) rbs -> rbs !! j = Some rb ->
  o <= offset_at o rbs j /\ offset_at o rbs j + last_offset_delta (header rb) + 1 <= end_from o rbs.
Proof.
  intros Hs Hj. split; [by apply (sendable_end limit), Forall_take|]. rewrite <-(offset_at_S o rbs j rb Hj).
  rewrite <-(take_drop (Datatypes.S j) rbs) at 2. rewrite end_from_app. unfold offset_at. by apply (sendable_end limit), Forall_drop.
Qed.

(** ** A flush *)

(** The connection to an SPU that answers. *)
Definition spu_send (hw_events : ReplicaKey -> list Z) (request : ProduceRequest) ctx : (string + ProduceResponse) * ProduceContext S :=
  let '(r, ctx) := handle_produce_request no_smartmodules hw_events request ctx in
  (match r with Ok response => inr response | _ => inl "connection closed"%string end, ctx).

Lemma end_from_taken limit c o mbs rbs :
  Forall2 (taken limit c) mbs rbs -> end_from o rbs = o + zlen (concat (map mb_records mbs)).
Proof.
  intros H. revert o. induction H as [|mb rb mbs rbs (Hmb & Hne & _ & Hacc) _ IH]; intros o; cbn [end_from map concat]; [rewrite zlen_nil; lia|].
  destruct (accepted_spec _ _ _ Hmb Hne Hacc) as (Hd & _). rewrite IH, Hd, zlen_app. lia.
Qed.

(** What an SPU makes of the request of a flush. *)
Lemma spu_send_spec ctx k meta l limit L c hw_events isolation timeout mbs rbs :
  Forall2 (taken limit c) mbs rbs ->
  leads_replica ctx k meta l limit L c -> end_from (pub_leo (leader_storage l)) rbs < 2 ^ 63 ->
  (isolation = ReadCommitted -> exists hw, hw ∈ hw_events k /\ end_from (pub_leo (leader_storage l)) rbs <= hw) ->
  let parts := map (fun rb => MkPartitionProduceData (Names.partition k) (MkRecordSet [rb])) rbs in
  let request := MkProduceRequest isolation timeout [MkTopicProduceData (topic k) parts] in
  exists ctx' l', spu_send hw_events request ctx
      = (inr (into_response [MkTopicWriteResult (topic k) (write_results k (pub_leo (leader_storage l)) rbs)]), ctx') /\
    leads_replica ctx' k meta l' limit (L ++ number_batches (pub_leo (leader_storage l)) rbs) c /\
    pub_leo (leader_storage l') = end_from (pub_leo (leader_storage l)) rbs.
Proof.
  intros Hrbs Hlead Hend Hack. cbv zeta.
  destruct (handle_partitions_spec k meta limit c mbs rbs Hrbs ctx l L Hlead Hend) as (ctx' & l' & E & Hlead' & Hleo).
  exists ctx', l'. split; [|done]. unfold spu_send, handle_produce_request. cbn [preq_topics handle_topics].
  erewrite bind_ok.
  2:{ erewrite bind_ok; [reflexivity|]. unfold handle_produce_topic. cbn [tpd_name tpd_partitions]. erewrite bind_ok by exact E. reflexivity. }
  erewrite bind_ok by reflexivity. cbn [preq_isolation preq_timeout]. destruct isolation; [done|].
  destruct (Hack eq_refl) as (hw & Hin & Hhw). unfold mret, M_ret, wait_for_acks. cbn [map twr_topic twr_partitions].
  destruct Hlead' as (Hl' & _). by rewrite (acked timeout hw_events ctx' k meta l' _ rbs hw limit) by (try done; by eapply taken_sendable).
Qed.
Lemma queue_ids_nodup acc p q : acc_ok acc -> acc_batches acc !! p = Some q -> NoDup (map pb_id q).
Proof. intros Hok Hq. apply NoDup_alt. intros i j id Hi Hj. by destruct (ao_unique _ Hok p p q q i j id Hq Hq Hi Hj). Qed.

(** A batch that was answered: its futures resolve to where its records are. *)
Lemma answered_future limit c o mbs rbs answers ids m acc p id j mb fut i r :
  Forall2 (taken limit c) mbs rbs -> NoDup ids -> 0 <= o -> end_from o rbs < 2 ^ 63 ->
  (forall j rb, rbs !! j = Some rb -> exists a, answers !! j = Some a /\ poll a = (offset_at o rbs j, EcNone)) ->
  metadata acc = notify_batches ids answers m -> ids !! j = Some id -> mbs !! j = Some mb ->
  fut = MkFutureRecord p i id -> 0 <= i -> mb_records mb !! Z.to_nat i = Some r ->
  exists off acc', future_wait fut acc = Some (inr (p, off), acc') /\ o <= off < end_from o rbs /\
    stored_record (number_batches o rbs) off r.
Proof.
  intros Hrbs Hnd Ho Hend Hans Hm Hid Hmb -> Hi Hr. destruct (Forall2_lookup_l _ _ _ _ _ Hrbs Hmb) as (rb & Hrb & Hok & Hne & _ & Hacc).
  destruct (accepted_spec _ _ _ Hok Hne Hacc) as (Hd & _ & Hrec). destruct (Hans j rb Hrb) as (a & Ha & Epoll).
  destruct (offset_at_within limit o rbs j rb (taken_sendable _ _ _ _ Hrbs) Hrb) as [Hlo Hhi].
  assert (i < zlen (mb_records mb)) as Hlt by (apply lookup_lt_Some in Hr; unfold zlen; lia).
  unfold future_wait. cbn [fr_batch fr_partition_id relative_offset]. rewrite Hm, (notify_lookup ids answers m j id a) by done.
  unfold mbind, option_bind, metadata_base_offset. rewrite Epoll. cbn [error_is_ok].
  rewrite wrap_i_id by (unfold in_i; lia). eexists _, _. split; [reflexivity|]. split; [lia|].
  exists (set_base_offset (offset_at o rbs j) rb), (Z.to_nat i), (mb_records mb). split_and!; try done.
  - eapply list_elem_of_lookup_2. by apply number_batches_lookup.
  - cbn. lia.
Qed.

(** The accumulator after the flush of the queue [q]. *)
Definition emptied (p : Z) (q : list ProducerBatch) (answers : list ProducePartitionResponseFuture) (acc : RecordAccumulator) : RecordAccumulator :=
  set_metadata (notify_batches (map pb_id q) answers (metadata acc)) (with_queue p [] acc).

Lemma emptied_ok p q answers acc : acc_ok acc -> acc_batches acc !! p = Some q -> acc_ok (emptied p q answers acc).
Proof.
  intros Hok Hq. destruct Hok as [Hr Hg Ho Hu].
  assert (forall p1 q1, <[p := []]> (acc_batches acc) !! p1 = Some q1 -> q1 = [] \/ p1 <> p /\ acc_batches acc !! p1 = Some q1) as Hcase.
  { intros p1 q1. destruct (decide (p1 = p)) as [->|?]; [rewrite lookup_insert_eq; intros [= <-]; by left|].
    rewrite lookup_insert_ne by done. by right. }
  split; cbn; [done| | |].
  - intros p1 q1 [->|[_ E]]%Hcase; [constructor|]. by apply (Hg p1).
  - intros p1 q1 pb [->|[Hne E]]%Hcase Hin; [by apply not_elem_of_nil in Hin|]. destruct (Ho _ _ _ E Hin) as [Hlt Hm]. split; [done|].
    rewrite notify_other; [done|]. intros [i Hi]%list_elem_of_lookup. apply list_elem_of_lookup in Hin as [j Hj].
    assert (map pb_id q1 !! j = Some (pb_id pb)) as Hj' by (by rewrite list_lookup_fmap, Hj).
    by destruct (Hu p1 p q1 q j i _ E Hq Hj' Hi).
  - intros p1 p2 q1 q2 i j id [->|[_ E1]]%Hcase [->|[_ E2]]%Hcase; try done. by apply Hu.
Qed.

Lemma flush_spec acc ctx k meta l limit L config now hw_events q rbs :
  acc_ok acc -> acc_batches acc !! Names.partition k = Some q -> leads_replica ctx k meta l limit L (acc_compression acc) ->
  Forall2 (taken limit (acc_compression acc)) (map pb_batch q) rbs ->
  let o := pub_leo (leader_storage l) in
  end_from o rbs < 2 ^ 63 ->
  (cfg_isolation config = ReadCommitted -> exists hw, hw ∈ hw_events k /\ end_from o rbs <= hw) ->
  exists acc' ctx' l' answers, flush gzip snappy lz4 zstd (spu_send hw_events) config k true now (acc, ctx) = (inr tt, (acc', ctx')) /\
    leads_replica ctx' k meta l' limit (L ++ number_batches o rbs) (acc_compression acc) /\ pub_leo (leader_storage l') = end_from o rbs /\
    acc' = emptied (Names.partition k) q answers acc /\
    forall j rb, rbs !! j = Some rb -> exists a, answers !! j = Some a /\ poll a = (offset_at o rbs j, EcNone).
Proof.
  intros Hok Hq Hlead Hrbs o Hend Hack. unfold flush. rewrite Hq. cbn [default]. unfold id. rewrite take_ready_all.
  rewrite (partition_requests_spec limit (acc_compression acc) _ _ rbs Hrbs).
  destruct (spu_send_spec ctx k meta l limit L (acc_compression acc) hw_events (cfg_isolation config) (cfg_timeout config) _ rbs Hrbs)
    as (ctx' & l' & E & Hlead' & Hleo); try done.
  rewrite E. destruct (answers_spec (cfg_delivery_semantic config) k o rbs (cfg_isolation config) (cfg_timeout config)
    (map (fun rb => MkPartitionProduceData (Names.partition k) (MkRecordSet [rb])) rbs)) as (answers & Ea & Hans); [by rewrite length_map|].
  fold o. rewrite Ea. eexists _, ctx', l', answers. split; [reflexivity|]. by split_and!.
Qed.
(** C3: producing reaches the log. A forced flush of the queue of a partition,
    over a connection to the SPU that leads the partition, succeeds when the
    topic allows the compression of the producer, the replica takes each batch
    that is queued and, with the isolation read-committed, the high watermark
    comes to pass the last of them before the timeout. The records of the queue
    are appended to the log of the replica, the queue is empty, the other queues
    and the invariant of the accumulator are kept. Every future that a push gave
    for a record of the queue now resolves to the offset at which the log holds
    that record, for both delivery semantics. *)
Theorem produce_correct acc ctx k meta l limit L config now hw_events q :
  let p := Names.partition k in
  let o := pub_leo (leader_storage l) in
  acc_ok acc -> acc_batches acc !! p = Some q -> leads_replica ctx k meta l limit L (acc_compression acc) ->
  Forall (fun pb => exists rb, accepted limit (pb_batch pb) rb) q ->
  o + zlen (queued_records acc p) < 2 ^ 63 ->
  (cfg_isolation config = ReadCommitted -> exists hw, hw ∈ hw_events k /\ o + zlen (queued_records acc p) <= hw) ->
  exists acc' ctx' l' new,
    flush gzip snappy lz4 zstd (spu_send hw_events) config k true now (acc, ctx) = (inr tt, (acc', ctx')) /\
    leads_replica ctx' k meta l' limit (L ++ new) (acc_compression acc) /\
    pub_leo (leader_storage l') = o + zlen (queued_records acc p) /\
    acc_ok acc' /\ acc_batches acc' = <[p := []]> (acc_batches acc) /\
    forall fut r, fr_partition_id fut = p -> located acc fut r ->
      exists off acc'', future_wait fut acc' = Some (inr (p, off), acc'') /\
        o <= off < pub_leo (leader_storage l') /\ stored_record new off r.
Proof.
  intros p o Hok Hq Hlead Hacc Hend Hack.
  destruct (choose_list (taken limit (acc_compression acc)) (map pb_batch q)) as [rbs Hrbs].
  { apply Forall_fmap. pose proof (ao_good _ Hok _ _ Hq) as Hgood. rewrite Forall_forall in *. intros pb Hin.
    destruct (Hgood pb Hin) as (? & ? & _ & ?), (Hacc pb Hin) as [rb ?]. by exists rb. }
  assert (end_from o rbs = o + zlen (queued_records acc p)) as Ho.
  { by rewrite (end_from_taken _ _ _ _ _ Hrbs), (queued_records_eq _ _ _ Hq), map_map. }
  rewrite <-Ho in *.
  destruct (flush_spec acc ctx k meta l limit L config now hw_events q rbs) as (acc' & ctx' & l' & answers & E & Hlead' & Hleo & -> & Hans); try done.
  eexists _, ctx', l', (number_batches o rbs). rewrite Hleo. split; [exact E|]. split; [done|]. split; [done|]. split; [by apply emptied_ok|]. split; [done|].
  intros [p' i id] r Hp (q' & pb & Hq' & Hin & Hid & Hi & Hr). cbn in *. subst p' id. assert (q' = q) as -> by congruence.
  apply list_elem_of_lookup in Hin as [j Hj].
  eapply (answered_future limit _ o _ rbs answers (map pb_id q)); try done.
  - by apply (queue_ids_nodup acc p).
  - destruct Hlead as (_ & (Hsh & _) & _). apply (sh_ok_log _ _ _ _ Hsh).
  - by rewrite list_lookup_fmap, Hj.
  - by rewrite list_lookup_fmap, Hj.
Qed.
End produce.

(** ** Pushing *)

Lemma accumulator_new_ok batch_size max_request_size queue_size partition_n compression :
  max_request_size < 2 ^ 31 - 49 -> acc_ok (accumulator_new batch_size max_request_size queue_size partition_n compression).
Proof.
  intros Hr.
  assert (forall p q, acc_batches (accumulator_new batch_size max_request_size queue_size partition_n compression) !! p = Some q -> q = []) as Hq.
  { intros p q E. apply elem_of_list_to_map_2 in E. by apply list_elem_of_fmap in E as (? & [= _ ->] & _). }
  split; [done| | |].
  - by intros p q ->%Hq.
  - intros p q pb ->%Hq Hin. by apply not_elem_of_nil in Hin.
  - by intros p p' q q' i j id ->%Hq.
Qed.

(** A push queues its record once.  On a partition that the accumulator
    does not know it is an error, and while the queue is full it waits.
    Otherwise it returns, and either the record is at the end of the queue, as
    its content was given, where the future it returns says; or the record is
    refused as larger than a request may be and the queue holds the records it
    held.  The invariant is kept: no batch outgrows a request, the sizes are
    counted right and the offsets of a batch's records are 0, 1, ...; futures
    given before keep their records and the other queues stay as they are. *)
Theorem push_record_correct now record p acc :
  acc_ok acc -> valid_content record ->
  match acc_batches acc !! p with
  | None => acc_push_record now record p acc = Some (inl (PartitionNotFound p), [], acc)
  | Some q =>
      (queue_size acc <= zlen q -> acc_push_record now record p acc = None) /\
      (zlen q < queue_size acc -> (forall pb, pb ∈ q -> 0 <= now - create_time (pb_batch pb) < 2 ^ 31) ->
       exists r events acc', acc_push_record now record p acc = Some (r, events, acc') /\ pushed acc p record r acc')
  end.
Proof.
  intros Hok Hc. destruct (acc_batches acc !! p) as [q|] eqn:Hq; [|unfold acc_push_record; by rewrite Hq].
  split; [|by intros; eapply acc_push_spec].
  intros Hfull. unfold acc_push_record. by rewrite Hq, (proj2 (Z.ltb_ge _ _)).
Qed.

(** The example: a producer of two partitions, and a record for partition 0. *)
Definition example_accumulator : RecordAccumulator := accumulator_new 100 200 2 2 CompNone.
Definition example_record : Record' := record_new (bytes_of_string "hello").

Lemma example_accumulator_ok : acc_ok example_accumulator.
Proof. by apply accumulator_new_ok. Qed.
Lemma example_record_valid : valid_content example_record.
Proof. repeat split; vm_compute; congruence. Qed.

Lemma push_record_correct_witness :
  exists fut events acc', acc_push_record 7 example_record 0 example_accumulator = Some (inr fut, events, acc') /\
    fr_partition_id fut = 0 /\ zlen (queued_records acc' 0) = 1.
Proof.
  pose proof (push_record_correct 7 example_record 0 example_accumulator example_accumulator_ok example_record_valid) as H.
  assert (acc_batches example_accumulator !! 0 = Some []) as E by (vm_compute; reflexivity). rewrite E in H. destruct H as [_ H].
  destruct H as (r & events & acc' & Ep & _ & _ & _ & Hr); [done|by intros pb Hpb%not_elem_of_nil|].
  destruct r as [e|fut]; [exfalso; vm_compute in Ep; discriminate|].
  destruct Hr as (r' & _ & Hp & _ & Hq). exists fut, events, acc'. split; [done|]. split; [done|].
  rewrite Hq. unfold queued_records. rewrite E. reflexivity.
Defined.

(** The example goes on: the record is sent to an SPU with an empty replica. *)
#[local] Instance producer_storage : ReplicaStorage FileReplica := FileReplica_Storage 0 sum32.
#[local] Instance producer_storage_ok : ReplicaStorageOK sum32 FileReplica := FileReplica_OK 0 sum32 sum32_u32.

Definition example_key : ReplicaKey := MkReplicaKey "orders" 0.
Definition example_meta : Replica := replica_new example_key 1 [1].
Definition example_send_config : TopicProducerConfig := MkProducerConfig 100 ReadCommitted 1500 AtLeastOnce.
Definition example_context (r : FileReplica) : ProduceContext FileReplica :=
  MkProduceContext {[example_key := (example_meta, MkLeader 1 [1] 1 (sharable_create r) [])]} {[example_key := example_meta]} [].

Lemma example_leads :
  exists r, create_or_load_inner 0 dense_config [] None = Ok r /\ st_limit r = 1000 /\ pub_leo (sharable_create r) = 0 /\
    leads_replica sum32 (example_context r) example_key example_meta (MkLeader 1 [1] 1 (sharable_create r) []) (st_limit r) [] CompNone.
Proof.
  destruct example_leader as (r & _ & _ & E & _ & Hs & Eo & _ & _). exists r. split; [done|].
  assert (pub_leo (sharable_create r) = 0) as E0 by (by injection Eo). split; [|split; [done|]].
  - destruct (load_fresh sum32 codec_raw 0 dense_config dense_config_ok) as (r0 & E1 & _ & Eopt & _ & _ & Em & _); [done|].
    rewrite E in E1. injection E1 as <-. cbn. by rewrite Eopt, Em.
  - split; [apply lookup_singleton_eq|]. split; [|split; [done|]].
    + split; [done|]. split; [done|]. cbn. injection Eo. lia.
    + exists example_meta. split; [apply lookup_singleton_eq|by left].
Qed.

Lemma example_push :
  exists fut events acc r, acc_push_record 7 example_record 0 example_accumulator = Some (inr fut, events, acc) /\ acc_ok acc /\
    fr_partition_id fut = 0 /\ located acc fut r /\ value r = bytes_of_string "hello" /\ queued_records acc 0 = [r] /\
    acc_compression acc = CompNone /\ acc_max_request_size acc = 200 /\
    (fun q => map (fun pb => create_time (pb_batch pb)) q) <$> acc_batches acc !! 0 = Some [7].
Proof.
  destruct (acc_push_spec 7 example_record 0 [] example_accumulator) as (r & events & acc & E & Hok & _ & _ & Hr);
    [apply example_accumulator_ok|apply example_record_valid|done|done|by intros pb Hpb%not_elem_of_nil|].
  destruct r as [e|fut]; [exfalso; vm_compute in E; discriminate|]. destruct Hr as (r & (_ & _ & Hv & _) & Hp & Hl & Hq).
  exists fut, events, acc, r. split; [done|]. split; [done|]. split; [done|]. split; [done|]. split; [done|]. split; [exact Hq|].
  vm_compute in E. injection E as _ _ <-. by split_and!.
Qed.

Lemma produce_correct_witness :
  exists r fut events acc acc' ctx' acc'', create_or_load_inner 0 dense_config [] None = Ok r /\
    acc_push_record 7 example_record 0 example_accumulator = Some (inr fut, events, acc) /\
    flush mirror mirror mirror mirror (spu_send (fun _ => [1])) example_send_config example_key true 8 (acc, example_context r)
      = (inr tt, (acc', ctx')) /\
    future_wait fut acc' = Some (inr (0, 0), acc'').
Proof.
  destruct example_leads as (r & E & Hlim & E0 & Hlead), example_push as (fut & events & acc & rec & Ep & Hok & Hp & Hl & _ & Hq & Hc & Hw & Ht).
  destruct (acc_batches acc !! 0) as [q|] eqn:Eq; [|done]. injection Ht as Ht.
  destruct (produce_correct sum32 mirror mirror mirror mirror mirror_lossless mirror_lossless mirror_lossless mirror_lossless
    acc (example_context r) example_key example_meta (MkLeader 1 [1] 1 (sharable_create r) []) (st_limit r) [] example_send_config 8 (fun _ => [1]) q Hok Eq)
    as (acc' & ctx' & l' & new & Ef & _ & Hleo & _ & _ & Hfut).
  - by rewrite Hc.
  - pose proof (ao_good _ Hok _ _ Eq) as Hgood. apply Forall_forall. intros pb Hin.
    destruct (proj1 (Forall_forall _ _) Hgood pb Hin) as (Hmb & Hne & Hwl & Hcomp).
    apply uncompressed_accepted; [done|done|congruence|rewrite Hwl, Hw, Hlim; done|].
    apply (list_elem_of_fmap_2 (fun pb => create_time (pb_batch pb))) in Hin. change (?f <$> q) with (map f q) in Hin. rewrite Ht in Hin.
    apply list_elem_of_singleton in Hin as ->. by split.
  - change (Names.partition example_key) with 0. rewrite Hq. cbn [leader_storage]. by rewrite E0.
  - intros _. exists 1. change (Names.partition example_key) with 0. rewrite Hq. cbn [leader_storage]. rewrite E0. split; [by apply list_elem_of_singleton|done].
  - destruct (Hfut fut rec Hp Hl) as (off & acc'' & Ew & Hoff & _). change (Names.partition example_key) with 0 in Hleo. rewrite Hq in Hleo. cbn [leader_storage] in Hleo, Hoff. rewrite E0 in Hleo, Hoff.
    assert (off = 0) as -> by (change (zlen [rec]) with 1 in Hleo; lia). exists r, fut, events, acc, acc', ctx', acc''.
    split; [exact E|]. split; [exact Ep|]. split; [exact Ef|exact Ew].
Defined.

(** ** Partitioners *)

Section partitioner.
Context (siphash : list byte -> Z).
Implicit Types (config : PartitionerConfig).

(** The partitions that records without a key go to. *)
Definition targets config : list Z :=
  if zlen (available_partitions config) =? 0 then seqZ 0 (partition_count config) else available_partitions config.
Definition pick config (index : Z) : Z := nth (Z.to_nat (index mod zlen (targets config))) (targets config) 0.

(** [n] records without a key. *)
Fixpoint keyless_run config (n : nat) (index : Z) : list (res Z) * Z :=
  match n with
  | O => ([], index)
  | S n =>
      let '(p, index) := round_robin_partition siphash config None index in
      let '(ps, index) := keyless_run config n index in (p :: ps, index)
  end.

Lemma zlen_seqZ m n : 0 <= n -> zlen (seqZ m n) = n.
Proof. intros. unfold zlen. rewrite length_seqZ. lia. Qed.

Lemma targets_pos config : 0 < partition_count config -> 0 < zlen (targets config).
Proof.
  intros Hc. unfold targets. destruct (Z.eqb_spec (zlen (available_partitions config)) 0); [rewrite zlen_seqZ; lia|].
  pose proof (zlen_nonneg (available_partitions config)). lia.
Qed.

Lemma keyless_spec config index :
  0 < partition_count config -> round_robin_partition siphash config None index = (Ok (pick config index), as_u32 (index + 1)).
Proof.
  intros Hc. pose proof (targets_pos config Hc) as Hpos. unfold round_robin_partition, pick, targets in *.
  destruct (Z.eqb_spec (zlen (available_partitions config)) 0).
  - rewrite (proj2 (Z.eqb_neq _ _)), zlen_seqZ by lia. pose proof (Z.mod_pos_bound index (partition_count config) Hc).
    rewrite (nth_lookup_Some _ _ _ (index mod partition_count config)); [done|]. rewrite lookup_seqZ. lia.
  - pose proof (Z.mod_pos_bound index _ Hpos).
    destruct (lookup_lt_is_Some_2 (available_partitions config) (Z.to_nat (index mod zlen (available_partitions config)))) as [x Ex];
      [unfold zlen in *; lia|]. by rewrite Ex, (nth_lookup_Some _ _ _ _ Ex).
Qed.

Lemma keyless_run_spec config n index :
  0 < partition_count config -> 0 <= index -> index + Z.of_nat n < 2 ^ 32 ->
  keyless_run config n index = (map (fun i => Ok (pick config i)) (seqZ index (Z.of_nat n)), index + Z.of_nat n).
Proof.
  intros Hc. revert index. induction n as [|n IH]; intros index Hi Hn; [cbn; by rewrite Z.add_0_r|].
  cbn [keyless_run]. rewrite keyless_spec by done. rewrite wrap_u_id by (unfold in_u; lia). rewrite IH by lia. rewrite (seqZ_cons index) by lia. cbn.
  rewrite Z.add_1_r. replace (Z.pred (Z.of_nat (S n))) with (Z.of_nat n) by lia. f_equal. lia.
Qed.

(** A round from any index on goes to every target once. *)
Lemma round_even config index :
  0 < partition_count config -> 0 <= index -> map (pick config) (seqZ index (zlen (targets config))) ≡ₚ targets config.
Proof.
  intros Hc. pose proof (targets_pos config Hc) as Hpos. revert index. apply natlike_ind.
  - apply reflexive_eq, list_eq. intros i. destruct (decide (i < length (targets config))%nat) as [Hi|Hi].
    + rewrite list_lookup_fmap, (proj2 (lookup_seqZ 0 _ i (Z.of_nat i))) by (unfold zlen; lia). cbn. unfold pick.
      rewrite Z.mod_small, Nat2Z.id by (unfold zlen; lia). destruct (lookup_lt_is_Some_2 _ _ Hi) as [x Ex]. by rewrite Ex, (nth_lookup_Some _ _ _ _ Ex).
    + rewrite !lookup_ge_None_2; [done|lia|]. rewrite length_map, length_seqZ. unfold zlen. lia.
  - intros index Hi IH. etrans; [|exact IH]. rewrite (seqZ_cons index) by lia.
    replace (zlen (targets config)) with (Z.pred (zlen (targets config)) + 1) at 1 by lia.
    rewrite seqZ_app by lia. rewrite map_app. change (seqZ ?x 1) with [x]. rewrite Permutation_app_comm. cbn [map app].
    assert (pick config (Z.succ index + Z.pred (zlen (targets config))) = pick config index) as ->; [|done].
    unfold pick. replace (Z.succ index + Z.pred (zlen (targets config))) with (index + 1 * zlen (targets config)) by lia.
    by rewrite Z_mod_plus_full.
Qed.

Lemma rounds_even config index m :
  0 < partition_count config -> 0 <= index ->
  map (pick config) (seqZ index (Z.of_nat m * zlen (targets config))) ≡ₚ concat (replicate m (targets config)).
Proof.
  intros Hc. pose proof (targets_pos config Hc) as Hpos. revert index. induction m as [|m IH]; intros index Hi; [done|].
  replace (Z.of_nat (S m) * zlen (targets config)) with (zlen (targets config) + Z.of_nat m * zlen (targets config)) by lia.
  rewrite seqZ_app, map_app by lia. cbn [replicate concat]. by rewrite round_even, IH by lia.
Qed.

(** The default partitioner.  A record with a key goes to a partition of the
    topic that depends on the key and on the number of partitions alone, and
    does not move the round robin; records without a key go round: [m] rounds
    give every available partition, or every partition where none is known to
    be available, exactly [m] records, as long as the 32-bit index does not
    wrap. *)
Theorem partitioner_correct config :
  0 < partition_count config ->
  (forall key, exists p, 0 <= p < partition_count config /\ forall available index,
     round_robin_partition siphash (MkPartitionerConfig (partition_count config) available) (Some key) index = (Ok p, index)) /\
  (forall index m, 0 <= index -> index + Z.of_nat m * zlen (targets config) < 2 ^ 32 ->
     exists ps, keyless_run config (m * length (targets config)) index = (map Ok ps, index + Z.of_nat m * zlen (targets config)) /\
       ps ≡ₚ concat (replicate m (targets config))).
Proof.
  intros Hc. split.
  - intros key. exists (siphash key mod partition_count config). split; [by apply Z.mod_pos_bound|].
    intros available index. cbn. unfold partition_siphash. by rewrite (proj2 (Z.eqb_neq _ _)) by lia.
  - intros index m Hi Hn. exists (map (pick config) (seqZ index (Z.of_nat m * zlen (targets config)))). split; [|by apply rounds_even].
    assert (Z.of_nat (m * length (targets config)) = Z.of_nat m * zlen (targets config)) as E by (unfold zlen; lia).
    rewrite keyless_run_spec by lia. by rewrite E, map_map.
Qed.
End partitioner.

(** The sum of the bytes for the hash: three partitions, of which two are
    available, and two rounds. *)
Lemma partitioner_correct_witness :
  exists p ps, round_robin_partition sum32 (MkPartitionerConfig 3 []) (Some (bytes_of_string "key")) 5 = (Ok p, 5) /\ 0 <= p < 3 /\
    keyless_run sum32 (MkPartitionerConfig 3 [2; 0]) 4 5 = (map Ok ps, 9) /\ ps ≡ₚ [2; 0; 2; 0].
Proof.
  destruct (partitioner_correct sum32 (MkPartitionerConfig 3 [2; 0]) ltac:(done)) as [Hkey Hrun].
  destruct (Hkey (bytes_of_string "key")) as (p & Hp & Ep), (Hrun 5 2%nat ltac:(done) ltac:(done)) as (ps & E & Hps).
  by exists p, ps.
Defined.

(** Where the index wraps, the round robin is out of step unless the number of
    partitions divides [2 ^ 32]: partition 0 gets two records in a row. *)
Theorem round_robin_wrap siphash :
  keyless_run siphash (MkPartitionerConfig 3 []) 3 (2 ^ 32 - 2) = ([Ok 2; Ok 0; Ok 0], 1).
Proof. reflexivity. Qed.

(** ** What is reported *)

(** With at-most-once delivery the error of a partition is dropped: the future
    of a record that was not written reports an offset. *)
Theorem async_error_dropped response num partition acc fut :
  concat (map tpr_partitions (presp_responses response)) !! num = Some partition ->
  metadata acc !! fr_batch fut = Some (Buffered (ChanSent (FutureShared (inr response) num))) ->
  exists acc', future_wait fut acc
    = Some (inr (fr_partition_id fut, as_i64 (ppr_base_offset partition + relative_offset fut)), acc').
Proof.
  intros Hp Hm. unfold future_wait. rewrite Hm. unfold mbind, option_bind, metadata_base_offset, poll. rewrite Hp.
  eexists. reflexivity.
Qed.

(** The results of pushes to partition 0, one after the other. *)
Fixpoint push_results (records : list Record') (acc : RecordAccumulator) : list (option ProducerError) :=
  match records with
  | [] => []
  | record :: records =>
      match acc_push_record 7 record 0 acc with
      | Some (inr _, _, acc) => None :: push_results records acc
      | Some (inl err, _, acc) => Some err :: push_results records acc
      | None => []
      end
  end.

(** A record that fits into a request of its own is refused as too large when
    the open batch has records in it. *)
Theorem record_refused_in_company :
  let large := record_new (replicate 125 Byte.x78) in
  push_results [large] example_accumulator = [None] /\
  push_results [example_record; large] example_accumulator = [None; Some (RecordTooLarge 207 200)].
Proof. split; vm_compute; reflexivity. Qed.
