(* ===== verification/Api.v ===== *)
(** * Requests, responses and frames

    [fluvio-protocol/src/api]: the header in front of a request, request and
    response messages; [fluvio-protocol/src/codec]: the frames in which messages
    travel on a connection, each with its length in front.  The theorems: what
    is sent on a connection arrives as it was sent, however the transport cuts
    the bytes; and what a broken length does to the receiver. *)

From S2P Require Import Prelude Wire Utf8 Scalars Collections.
From stdpp Require Import list strings.

#[local] Open Scope Z_scope.

(** ** Messages *)

(* src/crates/fluvio-protocol/src/api/mod.rs:93-98 RequestHeader *)
Record RequestHeader := MkRequestHeader {
  api_key : Z;
  api_version : Z;
  correlation_id : Z;
  client_id : string;
}.
Definition set_api_key (x : Z) (h : RequestHeader) := MkRequestHeader x (api_version h) (correlation_id h) (client_id h).
(* src/crates/fluvio-protocol/src/api/mod.rs:130-133 RequestHeader::set_api_version *)
Definition set_api_version (version : Z) (h : RequestHeader) := MkRequestHeader (api_key h) version (correlation_id h) (client_id h).
(* src/crates/fluvio-protocol/src/api/mod.rs:139-142 RequestHeader::set_correlation_id *)
Definition set_correlation_id (id : Z) (h : RequestHeader) := MkRequestHeader (api_key h) (api_version h) id (client_id h).
(* src/crates/fluvio-protocol/src/api/mod.rs:148-154 RequestHeader::set_client_id *)
Definition set_client_id (id : string) (h : RequestHeader) := MkRequestHeader (api_key h) (api_version h) (correlation_id h) id.

(* src/crates/fluvio-protocol/src/api/mod.rs:112-120 RequestHeader::new_with_client *)
Definition new_with_client (api_key : Z) (client_id : string) : RequestHeader := MkRequestHeader api_key 1 1 client_id.
(* src/crates/fluvio-protocol/src/api/mod.rs:107-110 RequestHeader::new *)
Definition request_header_new (api_key : Z) : RequestHeader := new_with_client api_key "dummy".

(** The derived codec: the fields in their order. *)
(* src/crates/fluvio-protocol/src/api/mod.rs:92-98 RequestHeader (derive) *)
Definition codec_request_header : Codec RequestHeader :=
  MkCodec (MkRequestHeader 0 0 0 EmptyString)
    (fun v h => write_size codec_u16 v (api_key h) + write_size codec_i16 v (api_version h)
       + write_size codec_i32 v (correlation_id h) + write_size codec_string v (client_id h))
    (fun v h =>
       encode codec_u16 v (api_key h) ;;
       encode codec_i16 v (api_version h) ;;
       encode codec_i32 v (correlation_id h) ;;
       encode codec_string v (client_id h))
    (fun v =>
       on_field api_key set_api_key (decode codec_u16 v) ;;
       on_field api_version set_api_version (decode codec_i16 v) ;;
       on_field correlation_id set_correlation_id (decode codec_i32 v) ;;
       on_field client_id set_client_id (decode codec_string v)).

(** What an API is: the key, the versions and the codecs of its two messages. *)
(* src/crates/fluvio-protocol/src/api/mod.rs:38-46 Request *)
Record RequestApi (R P : Type) := MkRequestApi {
  API_KEY : Z;
  DEFAULT_API_VERSION : Z;
  MIN_API_VERSION : Z;
  MAX_API_VERSION : Z;
  codec_of_request : Codec R;
  codec_of_response : Codec P;
}.
Arguments MkRequestApi {R P}.
Arguments API_KEY {R P}.
Arguments DEFAULT_API_VERSION {R P}.
Arguments MIN_API_VERSION {R P}.
Arguments MAX_API_VERSION {R P}.
Arguments codec_of_request {R P}.
Arguments codec_of_response {R P}.
(** The versions of an API that sets only [DEFAULT_API_VERSION]. *)
Definition default_api {R P} (key version : Z) (request : Codec R) (response : Codec P) : RequestApi R P :=
  MkRequestApi key version (Z.max (as_i16 (version - 2)) 0) version request response.

(* src/crates/fluvio-protocol/src/api/request.rs:20-23 RequestMessage *)
Record RequestMessage (R : Type) := MkRequestMessage { rm_header : RequestHeader; rm_request : R }.
Arguments MkRequestMessage {R}.
Arguments rm_header {R}.
Arguments rm_request {R}.
(* src/crates/fluvio-protocol/src/api/response.rs:16-19 ResponseMessage *)
Record ResponseMessage (P : Type) := MkResponseMessage { rsp_correlation_id : Z; rsp_response : P }.
Arguments MkResponseMessage {P}.
Arguments rsp_correlation_id {P}.
Arguments rsp_response {P}.

Section message.
Context {R P : Type} (api : RequestApi R P).

(* src/crates/fluvio-protocol/src/api/request.rs:69-74 RequestMessage::new_request *)
Definition new_request (request : R) : RequestMessage R :=
  MkRequestMessage (set_api_version (DEFAULT_API_VERSION api) (request_header_new (API_KEY api))) request.
(* src/crates/fluvio-protocol/src/api/request.rs:88-90 RequestMessage::new_response *)
Definition new_response (self : RequestMessage R) (response : P) : ResponseMessage P :=
  MkResponseMessage (correlation_id (rm_header self)) response.

(** The header is coded with the version of the message, the request with the
    one in the header. *)
(* src/crates/fluvio-protocol/src/api/request.rs:131-172 impl Encoder, Decoder for RequestMessage *)
Definition codec_request : Codec (RequestMessage R) :=
  MkCodec (MkRequestMessage (set_api_version (DEFAULT_API_VERSION api) (dflt codec_request_header)) (dflt (codec_of_request api)))
    (fun v m => write_size codec_request_header v (rm_header m)
       + write_size (codec_of_request api) (api_version (rm_header m)) (rm_request m))
    (fun v m =>
       encode codec_request_header v (rm_header m) ;;
       encode (codec_of_request api) (api_version (rm_header m)) (rm_request m))
    (fun v =>
       on_field rm_header (fun h m => MkRequestMessage h (rm_request m)) (decode codec_request_header v) ;;
       self ← self_get;
       on_field rm_request (fun r m => MkRequestMessage (rm_header m) r)
         (decode (codec_of_request api) (api_version (rm_header self)))).

(* src/crates/fluvio-protocol/src/api/response.rs:83-106 impl Encoder for ResponseMessage *)
Definition codec_response : Codec (ResponseMessage P) :=
  MkCodec (MkResponseMessage 0 (dflt (codec_of_response api)))
    (fun v m => write_size codec_i32 v (rsp_correlation_id m) + write_size (codec_of_response api) v (rsp_response m))
    (fun v m =>
       encode codec_i32 v (rsp_correlation_id m) ;;
       encode (codec_of_response api) v (rsp_response m))
    (fun v =>
       on_field rsp_correlation_id (fun x m => MkResponseMessage x (rsp_response m)) (decode codec_i32 v) ;;
       on_field rsp_response (fun x m => MkResponseMessage (rsp_correlation_id m) x) (decode (codec_of_response api) v)).

(* src/crates/fluvio-protocol/src/api/response.rs:39-52 ResponseMessage::decode_from *)
Definition response_decode_from (version : Z) (src : list byte) : res (ResponseMessage P) * list byte :=
  decode_from codec_response version src.
(* src/crates/fluvio-protocol/src/api/request.rs:100-109 RequestMessage::decode_response *)
Definition decode_response (src : list byte) (version : Z) : res (ResponseMessage P) * list byte :=
  response_decode_from version src.

(** A response that is decoded after its correlation id, as the multiplexer
    does. *)
Definition decode_payload (version : Z) (src : list byte) : res P := fst (decode_from (codec_of_response api) version src).
End message.

(** [decode_with_header] is the choice of the API by the key in the header. *)
(* src/crates/fluvio-protocol/src/api/mod.rs:57-63 ApiMessage::decode_from *)
Definition api_decode_from {A} (decode_with_header : RequestHeader -> list byte -> res A * list byte) (src : list byte)
    : res A * list byte :=
  match decode_from codec_request_header 0 src with
  | (Ok header, src) => decode_with_header header src
  | (Err k, src) => (Err k, src)
  | (Panic, src) => (Panic, src)
  end.

(** ** Frames *)

(** [BytesMut::split_to] and [BytesMut::split_off]: both panic past the end;
    what [split_to] gives has no room after its bytes. *)
Definition split_to (at_ : Z) (bytes : list byte) : option (list byte * list byte) :=
  if at_ <=? zlen bytes then Some (ztake at_ bytes, zdrop at_ bytes) else None.
Definition split_off (at_ : Z) (bytes : list byte) : option (list byte) :=
  if at_ <=? zlen bytes then Some (zdrop at_ bytes) else None.

(** The frame at the front of the buffer, if it is complete. *)
(* src/crates/fluvio-protocol/src/codec/mod.rs:31-68 FluvioCodec::decode *)
Definition frame_decode (bytes : list byte) : res (option (list byte)) * list byte :=
  let len := zlen bytes in
  if len =? 0 then (Ok None, bytes)
  else if 4 <=? len then
    match decode codec_i32 0 (0, bytes) with
    | (Ok _, (packet_len, _)) =>
        let total := wrap_u 64 (as_i32 (packet_len + 4)) in
        if total <=? len then
          match split_to total bytes with
          | Some (buf, bytes) =>
              match split_off 4 buf with
              | Some message => (Ok (Some message), bytes)
              | None => (Panic, bytes)
              end
          | None => (Panic, bytes)
          end
        else (Ok None, bytes)
    | (Err k, _) => (Err k, bytes)
    | (Panic, _) => (Panic, bytes)
    end
  else (Ok None, bytes).

(** The length is written with [len_slice] as its destination, then the message
    through [as_bytes]; both are appended to [buf]. *)
(* src/crates/fluvio-protocol/src/codec/mod.rs:84-103 FluvioCodec::encode *)
Definition frame_encode {A} (c : Codec A) (src : A) (version : Z) (buf : list byte) : res unit * list byte :=
  let size := as_i32 (write_size c version src) in
  match as_bytes codec_i32 version size with
  | Ok len_slice =>
      let buf := buf ++ len_slice in
      match as_bytes c version src with
      | Ok payload => (Ok tt, buf ++ payload)
      | Err k => (Err k, buf)
      | Panic => (Panic, buf)
      end
  | Err k => (Err k, buf)
  | Panic => (Panic, buf)
  end.

(* src/crates/fluvio-socket/src/sink.rs:65-71 FluvioSink::send_request *)
Definition send_request {R P} (api : RequestApi R P) (req_msg : RequestMessage R) : list byte -> res unit * list byte :=
  frame_encode (codec_request api) req_msg 0.
(* src/crates/fluvio-socket/src/sink.rs:75-86 FluvioSink::send_response *)
Definition send_response {R P} (api : RequestApi R P) (resp_msg : ResponseMessage P) (version : Z) : list byte -> res unit * list byte :=
  frame_encode (codec_response api) resp_msg version.

(** How a connection is read ([tokio_util]'s [FramedRead]): the decoder is
    called on the buffer until it gives nothing, then the next chunk the
    transport has is added to the buffer.  [framed_read buf chunks frames rest]:
    with [buf] in the buffer, [chunks] give [frames] and leave [rest]. *)
Inductive framed_read : list byte -> list (list byte) -> list (list byte) -> list byte -> Prop :=
| read_frame buf message buf' chunks frames rest :
    frame_decode buf = (Ok (Some message), buf') -> framed_read buf' chunks frames rest ->
    framed_read buf chunks (message :: frames) rest
| read_more buf buf' chunk chunks frames rest :
    frame_decode buf = (Ok None, buf') -> framed_read (buf' ++ chunk) chunks frames rest ->
    framed_read buf (chunk :: chunks) frames rest
| read_end buf rest : frame_decode buf = (Ok None, rest) -> framed_read buf [] [] rest.

(** ** The codecs are right *)

Definition valid_request_header (h : RequestHeader) : Prop :=
  in_u 16 (api_key h) /\ in_i 16 (api_version h) /\ in_i 32 (correlation_id h) /\ valid codec_string 0 (client_id h).

Definition wire_request_header (v : Z) (h : RequestHeader) : list byte :=
  be_split 2 (api_key h) ++ be_split 2 (api_version h) ++ be_split 4 (correlation_id h) ++ wire codec_string v (client_id h).

(** The decoder does not depend on the numbers in the header it fills. *)
Lemma reads_request_header v init h :
  client_id init = EmptyString -> valid_request_header h -> reads (decode codec_request_header v) init (wire_request_header v h) h.
Proof.
  intros E (Hk & Hv & Hc & Hi). destruct init as [k0 v0 c0 i0], h as [k ver c i]. cbn in E. subst i0.
  eapply reads_seq; [by apply reads_field, reads_u16|]. eapply reads_seq; [by apply reads_field, reads_i16|].
  eapply reads_seq; [by apply reads_field, reads_i32|]. eapply reads_field_to; [|by apply (decode_reads codec_string v i)]. done.
Qed.

#[export] Program Instance codec_request_header_ok : CodecOK codec_request_header := {|
  valid _ h := valid_request_header h;
  wire := wire_request_header;
|}.
Next Obligation.
  intros v a (Hk & Hv & Hc & Hi). apply emits_seq; [by apply emits_u16|]. apply emits_seq; [by apply emits_i16|].
  apply emits_seq; [by apply emits_i32|]. by apply (encode_emits codec_string).
Qed.
Next Obligation.
  intros v a (Hk & Hv & Hc & Hi). unfold wire_request_header. rewrite !zlen_app, !zlen_be_split, (wire_size codec_string) by done. cbn. lia.
Qed.
Next Obligation. intros v h Hh. by apply reads_request_header. Qed.

Section message_laws.
Context {R P : Type} (api : RequestApi R P) `{!CodecOK (codec_of_request api)} `{!CodecOK (codec_of_response api)}.

Definition valid_request (v : Z) (m : RequestMessage R) : Prop :=
  valid codec_request_header v (rm_header m) /\ valid (codec_of_request api) (api_version (rm_header m)) (rm_request m).
Definition valid_response (v : Z) (m : ResponseMessage P) : Prop :=
  in_i 32 (rsp_correlation_id m) /\ valid (codec_of_response api) v (rsp_response m).

#[export] Program Instance codec_request_ok : CodecOK (codec_request api) := {|
  valid := valid_request;
  wire v m := wire codec_request_header v (rm_header m) ++ wire (codec_of_request api) (api_version (rm_header m)) (rm_request m);
|}.
Next Obligation. intros v a [Hh Hr]. apply emits_seq; [by apply (encode_emits codec_request_header)|by apply encode_emits]. Qed.
Next Obligation. intros v a [Hh Hr]. by rewrite zlen_app, (wire_size codec_request_header), wire_size. Qed.
Next Obligation.
  intros v [h r] [Hh Hr]. eapply reads_seq.
  { eapply reads_field_to; [reflexivity|]. by apply reads_request_header. }
  apply reads_self_get. eapply reads_field_to; [|by apply (decode_reads (codec_of_request api))]. done.
Qed.

#[export] Program Instance codec_response_ok : CodecOK (codec_response api) := {|
  valid := valid_response;
  wire v m := be_split 4 (rsp_correlation_id m) ++ wire (codec_of_response api) v (rsp_response m);
|}.
Next Obligation. intros v a [Hc Hr]. apply emits_seq; [by apply emits_i32|by apply encode_emits]. Qed.
Next Obligation. intros v a [Hc Hr]. by rewrite zlen_app, zlen_be_split, wire_size. Qed.
Next Obligation.
  intros v [c r] [Hc Hr]. eapply reads_seq; [by apply reads_field, reads_i32|].
  eapply reads_field_to; [|by apply decode_reads]. done.
Qed.
End message_laws.

(** ** Frames arrive whole *)

Definition frame (m : list byte) : list byte := be_split 4 (zlen m) ++ m.
(** The largest message whose frame's length is not negative in 32 bits. *)
Definition small (m : list byte) : Prop := zlen m < 2 ^ 31 - 4.

Lemma zlen_frame m : zlen (frame m) = zlen m + 4.
Proof. unfold frame. rewrite zlen_app, zlen_be_split. lia. Qed.

(** The length that starts the buffer. *)
Lemma decode_length n rest :
  in_i 32 n -> decode codec_i32 0 (0, be_split 4 n ++ rest) = (Ok tt, (n, rest)).
Proof.
  intros Hn. cbn [decode codec_i32]. unfold decode_i32.
  erewrite bind_ok by (apply ensure_remaining_app; by rewrite zlen_be_split). erewrite bind_ok by (by apply get_be_app, length_be_split).
  unfold self_put. cbn [snd]. rewrite be_combine_split. by rewrite wrap_i_mod.
Qed.

(** The frame decoder on a buffer that starts with the length [n]. *)
Lemma frame_decode_length n rest :
  in_i 32 n ->
  let bytes := be_split 4 n ++ rest in
  let total := wrap_u 64 (as_i32 (n + 4)) in
  frame_decode bytes =
    if total <=? zlen rest + 4 then
      if total <? 4 then (Panic, zdrop total bytes) else (Ok (Some (ztake (total - 4) rest)), zdrop (total - 4) rest)
    else (Ok None, bytes).
Proof.
  intros Hn bytes total. unfold frame_decode.
  assert (decode codec_i32 0 (0, bytes) = (Ok tt, (n, rest))) as -> by (by apply decode_length).
  assert (zlen bytes = zlen rest + 4) as El by (unfold bytes; rewrite zlen_app, zlen_be_split; lia). pose proof (zlen_nonneg rest).
  rewrite El, (proj2 (Z.eqb_neq _ _)), (proj2 (Z.leb_le 4 _)) by lia. fold total. destruct (Z.leb_spec total (zlen rest + 4)); [|done].
  unfold split_to, split_off. rewrite El, (proj2 (Z.leb_le _ _)) by done.
  assert (0 <= total) by (apply wrap_u_range; lia). rewrite zlen_ztake, El by lia. rewrite Z.min_l by lia.
  destruct (Z.ltb_spec total 4); [by rewrite (proj2 (Z.leb_gt _ _)) by lia|]. rewrite (proj2 (Z.leb_le _ _)) by lia. f_equal.
  - replace total with (4 + (total - 4)) at 1 by lia. rewrite ztake_plus by lia.
    unfold bytes. rewrite (ztake_app_exact 4), !(zdrop_app_exact 4) by (by rewrite zlen_be_split). done.
  - unfold bytes. rewrite zdrop_app_ge; rewrite zlen_be_split; [done|lia].
Qed.

Lemma small_total m : small m -> wrap_u 64 (as_i32 (zlen m + 4)) = zlen m + 4.
Proof.
  intros Hs. pose proof (zlen_nonneg m). unfold small in Hs. rewrite wrap_i_id by (unfold in_i; lia). apply wrap_u_id. unfold in_u. lia.
Qed.

Lemma small_in_i m : small m -> in_i 32 (zlen m).
Proof. intros Hs. pose proof (zlen_nonneg m). unfold small in Hs. unfold in_i. lia. Qed.

Lemma frame_decode_whole m rest : small m -> frame_decode (frame m ++ rest) = (Ok (Some m), rest).
Proof.
  intros Hs. unfold frame. rewrite <-app_assoc, frame_decode_length by (by apply small_in_i). rewrite small_total by done.
  pose proof (zlen_nonneg m). pose proof (zlen_nonneg rest). rewrite zlen_app, (proj2 (Z.leb_le _ _)), (proj2 (Z.ltb_ge _ _)) by lia.
  rewrite ztake_app_exact, zdrop_app_exact by lia. done.
Qed.

(** A part of a frame that is not all of it. *)
Definition partial (b : list byte) : Prop := exists m rest, small m /\ rest <> [] /\ frame m = b ++ rest.

Lemma frame_decode_partial b : partial b -> frame_decode b = (Ok None, b).
Proof.
  intros (m & rest & Hs & Hne & E). pose proof (f_equal zlen E) as El. rewrite zlen_frame, zlen_app in El.
  assert (0 < zlen rest) by (destruct rest; [done|]; rewrite zlen_cons; pose proof (zlen_nonneg rest); lia).
  destruct (decide (zlen b < 4)) as [Hlt|Hge].
  { unfold frame_decode. destruct (_ =? 0); [done|]. by rewrite (proj2 (Z.leb_gt _ _)). }
  assert (b = be_split 4 (zlen m) ++ zdrop 4 b) as Eb.
  { rewrite <-(ztake_zdrop 4 b) at 1. f_equal. rewrite <-(ztake_app_le 4 b rest) by lia. rewrite <-E. unfold frame.
    apply ztake_app_exact. by rewrite zlen_be_split. }
  rewrite Eb at 1. rewrite frame_decode_length by (by apply small_in_i). rewrite small_total by done.
  rewrite zlen_zdrop by lia. rewrite (proj2 (Z.leb_gt _ _)) by lia. by rewrite <-Eb.
Qed.

Lemma partial_nil : partial [].
Proof. exists [], (frame []). split_and!; done. Qed.

Lemma partial_prefix b b' : partial (b ++ b') -> partial b.
Proof.
  intros (m & rest & Hs & Hne & E). exists m, (b' ++ rest). split; [done|]. split; [|by rewrite E, app_assoc].
  intros [-> ->]%app_nil. done.
Qed.

(** However the bytes are cut into chunks, the frames come out, and what is
    left is the part of the last frame that is there. *)
Lemma framed_read_exists chunks ms tail buf :
  Forall small ms -> partial tail -> buf ++ concat chunks = concat (map frame ms) ++ tail -> framed_read buf chunks ms tail.
Proof.
  intros Hms Ht. revert chunks buf. induction Hms as [|m ms Hm Hms IHm]; intros chunks.
  - induction chunks as [|c chunks IH]; intros buf E; cbn in E.
    + rewrite app_nil_r in E. subst. constructor. by apply frame_decode_partial.
    + eapply read_more; [apply frame_decode_partial; subst; by eapply partial_prefix|]. apply IH. by rewrite <-app_assoc.
  - induction chunks as [|c chunks IH]; intros buf E; cbn [map concat] in E; rewrite <-app_assoc in E.
    + rewrite app_nil_r in E. subst. eapply read_frame; [by apply frame_decode_whole|]. apply IHm. by rewrite app_nil_r.
    + destruct (app_eq_app _ _ _ _ E) as [[|x k] [[E1 E2]|[E1 E2]]].
      1,2: rewrite app_nil_r in E1; subst; rewrite <-(app_nil_r (frame m)); (eapply read_frame; [by apply frame_decode_whole|]); by apply IHm.
      * subst buf. eapply read_frame; [by apply frame_decode_whole|]. apply IHm. by rewrite E2.
      * eapply read_more; [apply frame_decode_partial; by exists m, (x :: k)|]. apply IH. cbn [map concat].
        rewrite <-!app_assoc. by rewrite E1, <-app_assoc, E2.
Qed.

Lemma framed_read_unique buf chunks ms tail ms' tail' :
  framed_read buf chunks ms tail -> framed_read buf chunks ms' tail' -> ms' = ms /\ tail' = tail.
Proof.
  intros H. revert ms' tail'. induction H; intros ms' tail' H'; inversion H'; subst; try congruence.
  - assert (message0 = message /\ buf'0 = buf') as [-> ->] by (split; congruence). destruct (IHframed_read frames0 tail') as [-> ->]; done.
  - assert (buf'0 = buf') as -> by congruence. by apply IHframed_read.
  - split; congruence.
Qed.

(** A prefix of the bytes of whole frames is whole frames and a part. *)
Lemma frames_prefix ms bs :
  Forall small ms -> bs `prefix_of` concat (map frame ms) ->
  exists k tail, partial tail /\ bs = concat (map frame (take k ms)) ++ tail.
Proof.
  intros Hms. revert bs. induction Hms as [|m ms Hm Hms IH]; intros bs [rest E].
  { cbn in E. destruct bs; [|done]. exists 0%nat, []. split; [apply partial_nil|done]. }
  cbn [map concat] in E. destruct (app_eq_app _ _ _ _ (eq_sym E)) as [[|x k] [[E1 E2]|[E1 E2]]].
  1,2: rewrite app_nil_r in E1; subst; exists 1%nat, []; (split; [apply partial_nil|]); cbn; by rewrite !app_nil_r.
  - subst bs. destruct (IH (x :: k)) as (n & tail & Ht & ->); [by exists rest|]. exists (S n), tail. split; [done|]. cbn. by rewrite app_assoc.
  - exists 0%nat, bs. split; [|done]. by exists m, (x :: k).
Qed.

Lemma wrap_i_over z : 2 ^ 31 <= z < 2 ^ 32 -> as_i32 z = z - 2 ^ 32.
Proof.
  intros Hz. unfold wrap_i. replace (z + 2 ^ (32 - 1)) with (z - 2 ^ 31 + 1 * 2 ^ 32) by lia. rewrite Z_mod_plus_full, Z.mod_small; lia.
Qed.

Lemma wrap_u_negative z : - 2 ^ 64 <= z < 0 -> wrap_u 64 z = z + 2 ^ 64.
Proof. intros Hz. unfold wrap_u. rewrite <-(Z_mod_plus_full z 1), Z.mod_small; lia. Qed.

(** A length below zero or past the largest message breaks the receiver: of
    the four lengths -4 to -1 it panics, the others it waits for without end. *)
Theorem broken_length n rest :
  in_i 32 n -> n < 0 \/ 2 ^ 31 - 4 <= n -> zlen rest + 4 <= isize_max ->
  fst (frame_decode (be_split 4 n ++ rest)) = if (-4 <=? n) && (n <? 0) then Panic else Ok None.
Proof.
  intros Hn Hbad Hlen. unfold in_i in Hn. rewrite frame_decode_length by done. pose proof (zlen_nonneg rest). unfold isize_max in Hlen.
  assert (in_i 32 n) as Hn' by done.
  destruct (Z.leb_spec (-4) n), (Z.ltb_spec n 0); cbn [andb].
  - rewrite wrap_i_id by (unfold in_i; lia). rewrite wrap_u_id by (unfold in_u; lia).
    by rewrite (proj2 (Z.leb_le _ _)), (proj2 (Z.ltb_lt _ _)) by lia.
  - assert (as_i32 (n + 4) = n + 4 - 2 ^ 32) as -> by (apply wrap_i_over; lia).
    rewrite wrap_u_negative by lia. by rewrite (proj2 (Z.leb_gt _ _)) by lia.
  - rewrite wrap_i_id by (unfold in_i; lia). rewrite wrap_u_negative by lia. by rewrite (proj2 (Z.leb_gt _ _)) by lia.
  - lia.
Qed.

(** ** Messages arrive as they were sent *)

Section connection.
Context {R P : Type} (api : RequestApi R P) `{!CodecOK (codec_of_request api)}.

(** The bytes that a client's requests put on the connection. *)
Fixpoint send_all (msgs : list (RequestMessage R)) (buf : list byte) : res unit * list byte :=
  match msgs with
  | [] => (Ok tt, buf)
  | msg :: msgs =>
      match send_request api msg buf with
      | (Ok _, buf) => send_all msgs buf
      | (Err k, buf) => (Err k, buf)
      | (Panic, buf) => (Panic, buf)
      end
  end.
(* src/crates/fluvio-socket/src/stream.rs:49-66 FluvioStream::request_stream *)
Definition request_stream_item (req_bytes : list byte) : res (RequestMessage R) := fst (decode_from (codec_request api) 0 req_bytes).

Definition sendable_request (m : RequestMessage R) : Prop :=
  valid (codec_request api) 0 m /\ write_size (codec_request api) 0 m < 2 ^ 31 - 4.

Lemma frame_encode_wire {A} (c : Codec A) `{!CodecOK c} v a buf :
  valid c v a -> write_size c v a < 2 ^ 31 - 4 -> frame_encode c a v buf = (Ok tt, buf ++ frame (wire c v a)) /\ small (wire c v a).
Proof.
  intros Hv Hs. pose proof (wire_size c v a Hv) as Ew. pose proof (zlen_nonneg (wire c v a)) as H0.
  split; [|unfold small; lia]. unfold frame_encode. rewrite wrap_i_id by (unfold in_i; lia).
  rewrite (as_bytes_wire codec_i32); [|change (in_i 32 (write_size c v a)); unfold in_i; lia|done].
  rewrite (as_bytes_wire c); [|done|unfold isize_max; lia].
  unfold frame. by rewrite Ew, <-app_assoc.
Qed.

Lemma send_all_wire msgs buf :
  Forall sendable_request msgs ->
  send_all msgs buf = (Ok tt, buf ++ concat (map frame (map (wire (codec_request api) 0) msgs))) /\
  Forall small (map (wire (codec_request api) 0) msgs).
Proof.
  intros H. revert buf. induction H as [|m msgs [Hv Hs] _ IH]; intros buf; cbn [send_all map concat]; [by rewrite app_nil_r|].
  unfold send_request. destruct (frame_encode_wire (codec_request api) 0 m buf Hv Hs) as [-> Hsm].
  destruct (IH (buf ++ frame (wire (codec_request api) 0 m))) as [-> Hall]. split; [by rewrite <-app_assoc|by constructor].
Qed.

(** C32: a connection delivers.  Requests that a client sends one after the other
    reach the server in this order and as they were, however the transport cuts
    the bytes into chunks; if the connection breaks, the server has the first
    ones and nothing else. *)
Theorem connection_roundtrip msgs :
  Forall sendable_request msgs ->
  exists bytes, send_all msgs [] = (Ok tt, bytes) /\
    forall chunks, concat chunks `prefix_of` bytes ->
      exists k frames rest, framed_read [] chunks frames rest /\
        (forall frames' rest', framed_read [] chunks frames' rest' -> frames' = frames /\ rest' = rest) /\
        map request_stream_item frames = map Ok (take k msgs) /\
        (concat chunks = bytes -> (length msgs <= k)%nat /\ rest = []).
Proof.
  intros Hms. destruct (send_all_wire msgs [] Hms) as [E Hsm]. eexists. split; [exact E|]. cbn [app]. intros chunks Hpre.
  destruct (frames_prefix _ _ Hsm Hpre) as (k & tail & Ht & Ec). exists k, (take k (map (wire (codec_request api) 0) msgs)), tail.
  assert (framed_read [] chunks (take k (map (wire (codec_request api) 0) msgs)) tail) as Hrun
    by (apply framed_read_exists; [by apply Forall_take|done|by rewrite <-Ec]).
  split; [exact Hrun|]. split; [intros; by eapply framed_read_unique|]. split.
  - rewrite <-!fmap_take. change (?f <$> ?l) with (map f l). rewrite map_map. apply map_ext_Forall. apply Forall_take.
    eapply Forall_impl; [exact Hms|]. intros m [Hv Hs]. unfold request_stream_item.
    rewrite <-(app_nil_r (wire _ _ _)), decode_from_wire; [done|done|]. rewrite app_nil_r, wire_size by done. unfold isize_max. lia.
  - intros Eall. assert (framed_read [] chunks (map (wire (codec_request api) 0) msgs) []) as Hall
      by (apply framed_read_exists; [done|apply partial_nil|by rewrite app_nil_r]).
    destruct (framed_read_unique _ _ _ _ _ _ Hrun Hall) as [El <-]. apply (f_equal length) in El.
    rewrite length_take, !length_map in El. split; [lia|done].
Qed.
End connection.

(** The example: two requests with a text, and the first five bytes apart. *)
Definition example_api : RequestApi string Z := default_api 18 2 codec_string codec_i32.
Definition example_requests : list (RequestMessage string) := [new_request example_api "hello"; new_request example_api "world"].

Lemma example_requests_sendable : Forall (sendable_request example_api) example_requests.
Proof. repeat constructor; vm_compute; congruence. Qed.

Lemma connection_roundtrip_witness :
  exists bytes frames, send_all example_api example_requests [] = (Ok tt, bytes) /\ zlen bytes = 52 /\
    framed_read [] [ztake 5 bytes; zdrop 5 bytes] frames [] /\
    map (request_stream_item example_api) frames = map Ok example_requests.
Proof.
  destruct (connection_roundtrip example_api example_requests example_requests_sendable) as (bytes & E & H).
  destruct (H [ztake 5 bytes; zdrop 5 bytes]) as (k & frames & rest & Hrun & _ & Hmap & Hall).
  { cbn [concat]. rewrite app_nil_r, ztake_zdrop. done. }
  destruct Hall as [Hk ->]; [cbn [concat]; by rewrite app_nil_r, ztake_zdrop|]. rewrite take_ge in Hmap by done.
  exists bytes, frames. split; [exact E|]. split; [|by split]. vm_compute in E. by injection E as <-.
Defined.
