(* ===== verification/Multiplexer.v ===== *)
(** * One connection for many callers

    [fluvio-socket/src/multiplexing.rs]: callers share a connection, each
    request has a correlation id, and a dispatcher task hands each response to
    the caller whose id it carries.  The state is that of the socket, of the
    dispatcher, of the callers and of the bytes under way; [step] is one action
    of one of them, so that a run of labels is an interleaving.  A step that
    needs the lock on the senders is only possible while the dispatcher does not
    hold it.  [fluvio-socket/src/versioned.rs]: the choice of the version. *)

From stdpp Require Import list gmap strings.
From S2P Require Import Prelude Wire Scalars Collections Api.

#[local] Open Scope Z_scope.

(** ** The socket *)

Section multiplexer.
Context {A : Type}.
(** [R::Response::decode_from] for the API and the version of a request. *)
Context (decode_body : RequestHeader -> list byte -> res A).

(** Where a caller gets its answers: a place for one message with the event of
    its caller, or a bounded channel.  [SharedMsg]'s event wakes the caller only
    if it listens already.  The key of a slot stands for the [Arc]. *)
(* src/crates/fluvio-socket/src/multiplexing.rs:44-53 SharedMsg, SharedSender *)
Inductive SharedSender :=
| SerialSlot (msg : option (list byte)) (listening notified : bool)
| QueueSlot (capacity : nat) (queue : list (option (list byte))) (closed : bool).

(* src/crates/fluvio-socket/src/multiplexing.rs:58-64 MultiplexerSocket *)
Record MultiplexerSocket := MkMultiplexer {
  correlation_id_counter : Z;
  senders : gmap Z nat;
  slots : gmap nat SharedSender;
  stale : bool;
}.
(* src/crates/fluvio-socket/src/multiplexing.rs:87-111 MultiplexerSocket::new *)
Definition multiplexer_new : MultiplexerSocket := MkMultiplexer 1 ∅ ∅ false.
Definition set_senders (x : gmap Z nat) (m : MultiplexerSocket) := MkMultiplexer (correlation_id_counter m) x (slots m) (stale m).
Definition set_slot (k : nat) (x : SharedSender) (m : MultiplexerSocket) :=
  MkMultiplexer (correlation_id_counter m) (senders m) (<[k := x]> (slots m)) (stale m).
Definition set_stale (m : MultiplexerSocket) := MkMultiplexer (correlation_id_counter m) (senders m) (slots m) true.

(* src/crates/fluvio-socket/src/multiplexing.rs:122-124 MultiplexerSocket::next_correlation_id *)
Definition next_correlation_id (m : MultiplexerSocket) : Z * MultiplexerSocket :=
  (correlation_id_counter m, MkMultiplexer (as_i32 (correlation_id_counter m + 1)) (senders m) (slots m) (stale m)).

(** A serial request: its slot is registered, then the caller listens. *)
(* src/crates/fluvio-socket/src/multiplexing.rs:145-153 send_and_receive (register) *)
Definition register_serial (correlation_id : Z) (k : nat) (m : MultiplexerSocket) : MultiplexerSocket :=
  set_senders (<[correlation_id := k]> (senders m)) (set_slot k (SerialSlot None false false) m).
(* src/crates/fluvio-socket/src/multiplexing.rs:155-157 send_and_receive (listen) *)
Definition serial_listen (k : nat) (m : MultiplexerSocket) : MultiplexerSocket :=
  match slots m !! k with
  | Some (SerialSlot msg _ notified) => set_slot k (SerialSlot msg true notified) m
  | _ => m
  end.

Inductive SocketError := ErrTimedOut | ErrClosed | ErrDecode (k : ErrorKind) | ErrPanic | ErrSend.

(* src/crates/fluvio-socket/src/multiplexing.rs:165-179 send_and_receive (timeout) *)
Definition serial_timeout (correlation_id : Z) (m : MultiplexerSocket) : (SocketError + A) * MultiplexerSocket :=
  (inl ErrTimedOut, set_stale (set_senders (delete correlation_id (senders m)) m)).
(** The caller is woken: its slot is unregistered, then read.  Nobody else
    locks the slot at this point. *)
(* src/crates/fluvio-socket/src/multiplexing.rs:181-215 send_and_receive (response) *)
Definition serial_response (header : RequestHeader) (k : nat) (m : MultiplexerSocket) : (SocketError + A) * MultiplexerSocket :=
  let m := set_senders (delete (correlation_id header) (senders m)) m in
  (match slots m !! k with
   | Some (SerialSlot (Some response_bytes) _ _) =>
       match decode_body header response_bytes with
       | Ok response => inr response
       | Err kind => inl (ErrDecode kind)
       | Panic => inl ErrPanic
       end
   | _ => inl ErrClosed
   end, m).

Definition slot_closed (k : nat) (m : MultiplexerSocket) : bool :=
  match slots m !! k with Some (QueueSlot _ _ closed) => closed | _ => false end.
(** A stream: closed channels are dropped from the senders, then the new one is
    registered. *)
(* src/crates/fluvio-socket/src/multiplexing.rs:240-258 create_stream (register) *)
Definition register_stream (correlation_id : Z) (queue_len k : nat) (m : MultiplexerSocket) : MultiplexerSocket :=
  let retained := base.filter (fun ik : Z * nat => slot_closed (snd ik) m = false) (senders m) in
  set_senders (<[correlation_id := k]> retained) (set_slot k (QueueSlot queue_len [] false) m).
(** [None] while there is no answer and the channel is open. *)
(* src/crates/fluvio-socket/src/multiplexing.rs:300-326 AsyncResponse::poll_next *)
Definition poll_next (header : RequestHeader) (k : nat) (m : MultiplexerSocket)
    : option (option (SocketError + A) * MultiplexerSocket) :=
  match slots m !! k with
  | Some (QueueSlot capacity (Some bytes :: queue) closed) =>
      let item := match decode_body header bytes with
                  | Ok value => inr value
                  | Err kind => inl (ErrDecode kind)
                  | Panic => inl ErrPanic
                  end in
      Some (Some item, set_slot k (QueueSlot capacity queue closed) m)
  | Some (QueueSlot capacity (None :: queue) closed) => Some (Some (inl ErrClosed), set_slot k (QueueSlot capacity queue closed) m)
  | Some (QueueSlot _ [] true) => Some (None, m)
  | _ => None
  end.
(* src/crates/fluvio-socket/src/multiplexing.rs:291-294 AsyncResponse::drop *)
Definition stream_drop (k : nat) (m : MultiplexerSocket) : MultiplexerSocket :=
  match slots m !! k with
  | Some (QueueSlot capacity queue _) => set_slot k (QueueSlot capacity queue true) m
  | _ => m
  end.

(** ** The dispatcher *)

(** What the dispatcher is doing: waiting for a frame, waiting for room in a
    channel with the lock held, telling the senders of a broken connection with
    the lock held, or at its end. *)
Inductive Dispatcher :=
| DispWaiting
| DispSending (k : nat) (msg : list byte)
| DispClosing (todo : gset nat)
| DispEnded.

(** Fill a slot and wake its caller. *)
Definition serial_fill (k : nat) (msg : option (list byte)) (listening notified : bool) (m : MultiplexerSocket) : MultiplexerSocket :=
  set_slot k (SerialSlot msg listening (notified || listening)) m.

(* src/crates/fluvio-socket/src/multiplexing.rs:455-506 MultiPlexingResponseDispatcher::send *)
Definition dispatch_send (correlation_id : Z) (msg : list byte) (m : MultiplexerSocket) : Dispatcher * MultiplexerSocket :=
  match senders m !! correlation_id with
  | Some k =>
      match slots m !! k with
      | Some (SerialSlot _ listening notified) => (DispWaiting, serial_fill k (Some msg) listening notified m)
      | Some (QueueSlot capacity queue closed) =>
          if closed then (DispWaiting, m)
          else if (length queue <? capacity)%nat then (DispWaiting, set_slot k (QueueSlot capacity (queue ++ [Some msg]) false) m)
          else (DispSending k msg, m)
      | None => (DispWaiting, m)
      end
  | None => (DispWaiting, m)
  end.
(** The dispatcher that waits for room goes on; [None] while there is none. *)
Definition dispatch_resume (k : nat) (msg : list byte) (m : MultiplexerSocket) : option MultiplexerSocket :=
  match slots m !! k with
  | Some (QueueSlot capacity queue closed) =>
      if closed then Some m
      else if (length queue <? capacity)%nat then Some (set_slot k (QueueSlot capacity (queue ++ [Some msg]) false) m)
      else None
  | _ => Some m
  end.
(** A frame; one without a correlation id is dropped. *)
(* src/crates/fluvio-socket/src/multiplexing.rs:405-418 dispatcher_loop (frame) *)
Definition dispatch_frame (msg : list byte) (m : MultiplexerSocket) : Dispatcher * MultiplexerSocket :=
  match decode codec_i32 0 (0, msg) with
  | (Ok _, (correlation_id, msg)) => dispatch_send correlation_id msg m
  | _ => (DispWaiting, m)
  end.
(** One of the senders is told that the connection is broken; [None] while its
    channel is full. *)
(* src/crates/fluvio-socket/src/multiplexing.rs:508-522 MultiPlexingResponseDispatcher::close *)
Definition close_one (k : nat) (m : MultiplexerSocket) : option MultiplexerSocket :=
  match slots m !! k with
  | Some (SerialSlot _ listening notified) => Some (serial_fill k None listening notified m)
  | Some (QueueSlot capacity queue closed) =>
      if closed then Some m
      else if (length queue <? capacity)%nat then Some (set_slot k (QueueSlot capacity (queue ++ [None]) false) m)
      else None
  | None => Some m
  end.

(** The socket is dropped: what is left of the streams ends. *)
(* src/crates/fluvio-socket/src/multiplexing.rs:432-448 dispatcher_loop (terminate) *)
Definition terminate_one (k : nat) (m : MultiplexerSocket) : MultiplexerSocket :=
  match slots m !! k with
  | Some (SerialSlot _ listening notified) => serial_fill k None listening notified m
  | Some (QueueSlot capacity queue _) => set_slot k (QueueSlot capacity queue true) m
  | None => m
  end.

(** ** Callers, dispatcher and server together *)

(** How far a call is. *)
Inductive Phase := HasId | Registered | Listening | Requested | Finished (result : SocketError + A) | Dropped.
Inductive CallKind := SerialCall | StreamCall (queue_len : nat).
Record Call := MkCall { call_header : RequestHeader; call_kind : CallKind; call_phase : Phase; call_items : list (SocketError + A) }.
Definition set_phase (p : Phase) (c : Call) := MkCall (call_header c) (call_kind c) p (call_items c).
Definition add_item (x : SocketError + A) (c : Call) := MkCall (call_header c) (call_kind c) (call_phase c) (call_items c ++ [x]).

(** [requested] are the calls whose request reached the connection, [inbound]
    the frames on the way back, [answered] what the server answered so far. *)
Record Connection := MkConnection {
  mux : MultiplexerSocket;
  dispatcher : Dispatcher;
  calls : list Call;
  requested : list nat;
  inbound : list (list byte);
  answered : list (nat * list byte);
}.
Definition connection_new : Connection := MkConnection multiplexer_new DispWaiting [] [] [] [].
Definition set_mux (m : MultiplexerSocket) (c : Connection) :=
  MkConnection m (dispatcher c) (calls c) (requested c) (inbound c) (answered c).
Definition set_dispatcher (d : Dispatcher) (c : Connection) :=
  MkConnection (mux c) d (calls c) (requested c) (inbound c) (answered c).
Definition set_call (k : nat) (x : Call) (c : Connection) :=
  MkConnection (mux c) (dispatcher c) (<[k := x]> (calls c)) (requested c) (inbound c) (answered c).

Inductive Label :=
| LNew (header : RequestHeader) (kind : CallKind)
| LRegister (k : nat)
| LListen (k : nat)
| LRequest (k : nat)
| LSendFails (k : nat)
| LAnswer (k : nat) (payload : list byte)
| LDispatch
| LResume
| LWake (k : nat)
| LTimeout (k : nat)
| LPoll (k : nat)
| LDrop (k : nat)
| LBroken
| LCloseOne (k : nat)
| LCloseEnd
| LTerminate.

Definition lock_free (c : Connection) : bool :=
  match dispatcher c with DispWaiting | DispEnded => true | _ => false end.

(** One step.  A server answers a request that it has, with the correlation id
    in front ([ResponseMessage]); frames stay in order. *)
(* src/crates/fluvio-socket/src/multiplexing.rs:128-274 send_and_receive, create_stream, dispatcher_loop *)
Definition step (l : Label) (c : Connection) : option Connection :=
  match l with
  | LNew header kind =>
      let '(id, m) := next_correlation_id (mux c) in
      Some (MkConnection m (dispatcher c) (calls c ++ [MkCall (set_correlation_id id header) kind HasId []])
              (requested c) (inbound c) (answered c))
  | LRegister k =>
      call ← calls c !! k;
      if lock_free c then
        match call_phase call, call_kind call with
        | HasId, SerialCall =>
            Some (set_call k (set_phase Registered call) (set_mux (register_serial (correlation_id (call_header call)) k (mux c)) c))
        | HasId, StreamCall queue_len =>
            Some (set_call k (set_phase Listening call)
                    (set_mux (register_stream (correlation_id (call_header call)) queue_len k (mux c)) c))
        | _, _ => None
        end
      else None
  | LListen k =>
      call ← calls c !! k;
      match call_phase call with
      | Registered => Some (set_call k (set_phase Listening call) (set_mux (serial_listen k (mux c)) c))
      | _ => None
      end
  | LRequest k =>
      call ← calls c !! k;
      match call_phase call with
      | Listening =>
          let c := set_call k (set_phase Requested call) c in
          Some (MkConnection (mux c) (dispatcher c) (calls c) (requested c ++ [k]) (inbound c) (answered c))
      | _ => None
      end
  | LSendFails k =>
      call ← calls c !! k;
      match call_phase call with
      | Listening => Some (set_call k (set_phase (Finished (inl ErrSend)) call) c)
      | _ => None
      end
  | LAnswer k payload =>
      call ← calls c !! k;
      if bool_decide (k ∈ requested c) then
        Some (MkConnection (mux c) (dispatcher c) (calls c) (requested c)
                (inbound c ++ [be_split 4 (correlation_id (call_header call)) ++ payload]) (answered c ++ [(k, payload)]))
      else None
  | LDispatch =>
      match dispatcher c, inbound c with
      | DispWaiting, msg :: inbound' =>
          let '(d, m) := dispatch_frame msg (mux c) in
          Some (MkConnection m d (calls c) (requested c) inbound' (answered c))
      | _, _ => None
      end
  | LResume =>
      match dispatcher c with
      | DispSending k msg => m ← dispatch_resume k msg (mux c); Some (set_dispatcher DispWaiting (set_mux m c))
      | _ => None
      end
  | LWake k =>
      call ← calls c !! k;
      match call_kind call, call_phase call, slots (mux c) !! k with
      | SerialCall, Requested, Some (SerialSlot _ _ true) =>
          if lock_free c then
            let '(result, m) := serial_response (call_header call) k (mux c) in
            Some (set_call k (set_phase (Finished result) call) (set_mux m c))
          else None
      | _, _, _ => None
      end
  | LTimeout k =>
      call ← calls c !! k;
      match call_kind call, call_phase call with
      | SerialCall, Requested =>
          if lock_free c then
            let '(result, m) := serial_timeout (correlation_id (call_header call)) (mux c) in
            Some (set_call k (set_phase (Finished result) call) (set_mux m c))
          else None
      | _, _ => None
      end
  | LPoll k =>
      call ← calls c !! k;
      match call_kind call, call_phase call with
      | StreamCall _, Requested =>
          '(item, m) ← poll_next (call_header call) k (mux c);
          item ← item;
          Some (set_call k (add_item item call) (set_mux m c))
      | _, _ => None
      end
  | LDrop k =>
      call ← calls c !! k;
      match call_kind call, call_phase call with
      | StreamCall _, Requested => Some (set_call k (set_phase Dropped call) (set_mux (stream_drop k (mux c)) c))
      | _, _ => None
      end
  | LBroken =>
      match dispatcher c with
      | DispWaiting =>
          let todo := list_to_set (map snd (map_to_list (senders (mux c)))) in
          Some (set_dispatcher (DispClosing todo) (set_mux (set_stale (mux c)) c))
      | _ => None
      end
  | LCloseOne k =>
      match dispatcher c with
      | DispClosing todo =>
          if bool_decide (k ∈ todo) then
            m ← close_one k (mux c); Some (set_dispatcher (DispClosing (todo ∖ {[k]})) (set_mux m c))
          else None
      | _ => None
      end
  | LCloseEnd =>
      match dispatcher c with
      | DispClosing todo => if bool_decide (todo = ∅) then Some (set_dispatcher DispEnded c) else None
      | _ => None
      end
  | LTerminate =>
      match dispatcher c with
      | DispWaiting =>
          Some (set_dispatcher DispEnded (set_mux (foldr terminate_one (mux c) (map snd (map_to_list (senders (mux c))))) c))
      | _ => None
      end
  end.

(** An interleaving. *)
Fixpoint run (labels : list Label) (c : Connection) : option Connection :=
  match labels with
  | [] => Some c
  | l :: labels => c ← step l c; run labels c
  end.

(** ** Answers reach the calls they belong to *)

(** The id of the call with number [k], and what the server answered to it. *)
Definition call_id (k : nat) : Z := as_i32 (1 + Z.of_nat k).
Definition answers_to (k : nat) (l : list (nat * list byte)) : list (list byte) :=
  map snd (base.filter (fun kp : nat * list byte => fst kp = k) l).
Definition frame_of (kp : nat * list byte) : list byte := be_split 4 (call_id (fst kp)) ++ snd kp.
(** What a stream gives for an entry of its channel. *)
Definition item_of (header : RequestHeader) (x : option (list byte)) : SocketError + A :=
  match x with
  | Some bytes =>
      match decode_body header bytes with Ok value => inr value | Err kind => inl (ErrDecode kind) | Panic => inl ErrPanic end
  | None => inl ErrClosed
  end.
Definition sending (d : Dispatcher) (k : nat) : list (list byte) :=
  match d with DispSending k' msg => if bool_decide (k = k') then [msg] else [] | _ => [] end.
Definition queue_of (k : nat) (m : MultiplexerSocket) : list (option (list byte)) :=
  match slots m !! k with Some (QueueSlot _ queue _) => queue | _ => [] end.

Lemma call_id_inj k k' : Z.of_nat k < 2 ^ 32 -> Z.of_nat k' < 2 ^ 32 -> call_id k = call_id k' -> k = k'.
Proof.
  intros Hk Hk' E. unfold call_id, wrap_i in E. change (2 ^ (32 - 1)) with (2 ^ 31) in E.
  assert ((1 + Z.of_nat k + 2 ^ 31) mod 2 ^ 32 = (1 + Z.of_nat k' + 2 ^ 31) mod 2 ^ 32) as E' by lia.
  pose proof (Z.div_mod (1 + Z.of_nat k + 2 ^ 31) (2 ^ 32)). pose proof (Z.div_mod (1 + Z.of_nat k' + 2 ^ 31) (2 ^ 32)). nia.
Qed.

Lemma answers_app k l l' : answers_to k (l ++ l') = answers_to k l ++ answers_to k l'.
Proof. unfold answers_to. by rewrite filter_app, map_app. Qed.

Lemma answers_one k k' p : answers_to k [(k', p)] = if bool_decide (k = k') then [p] else [].
Proof.
  unfold answers_to. rewrite filter_cons. cbn. case_bool_decide; case_decide; subst; try done.
Qed.

Lemma answers_none k l : (forall p, (k, p) ∉ l) -> answers_to k l = [].
Proof.
  intros H. induction l as [|[k' p] l IH]; [done|]. unfold answers_to. rewrite filter_cons. cbn. case_decide as E.
  - subst. exfalso. apply (H p). by left.
  - apply IH. intros p' Hp'. apply (H p'). by right.
Qed.

Definition waiting (p : Phase) : Prop := p = Registered \/ p = Listening \/ p = Requested.

(** What is kept of every call; [done] are the answers the dispatcher has
    taken off the connection. *)
Definition call_ok (m : MultiplexerSocket) (d : Dispatcher) (ans done : list (nat * list byte)) (k : nat) (call : Call) : Prop :=
  match call_kind call with
  | SerialCall =>
      (forall p l n, slots m !! k = Some (SerialSlot (Some p) l n) -> (k, p) ∈ ans) /\
      (forall cap q cl, slots m !! k <> Some (QueueSlot cap q cl)) /\
      (forall a, call_phase call = Finished (inr a) -> exists p, (k, p) ∈ ans /\ decode_body (call_header call) p = Ok a) /\
      (waiting (call_phase call) -> senders m !! call_id k = Some k /\
         exists msg l n, slots m !! k = Some (SerialSlot msg l n) /\ (call_phase call = Registered \/ l = true))
  | StreamCall _ =>
      (forall msg l n, slots m !! k <> Some (SerialSlot msg l n)) /\
      (slots m !! k = None -> call_phase call = HasId) /\
      exists raw, call_items call = map (item_of (call_header call)) raw /\
        let got := omap id (raw ++ queue_of k m) ++ sending d k in
        got `prefix_of` answers_to k done /\
        (slots m !! k <> None -> slot_closed k m = false -> senders m !! call_id k = Some k /\ got = answers_to k done)
  end.

Record connection_ok (c : Connection) : Prop := {
  co_few : zlen (calls c) <= 2 ^ 32;
  co_counter : correlation_id_counter (mux c) = call_id (length (calls c));
  co_ids k call : calls c !! k = Some call -> correlation_id (call_header call) = call_id k;
  co_senders i k : senders (mux c) !! i = Some k -> i = call_id k /\ (k < length (calls c))%nat;
  co_slots k s : slots (mux c) !! k = Some s -> (k < length (calls c))%nat;
  co_answered k p : (k, p) ∈ answered c -> k ∈ requested c;
  co_requested k : k ∈ requested c -> exists call, calls c !! k = Some call /\ call_phase call <> HasId;
  co_sending k msg : dispatcher c = DispSending k msg -> exists cap q cl, slots (mux c) !! k = Some (QueueSlot cap q cl);
  co_flow : exists done inflight, answered c = done ++ inflight /\ inbound c = map frame_of inflight /\
    forall k call, calls c !! k = Some call -> call_ok (mux c) (dispatcher c) (answered c) done k call;
}.

(** A call whose slot is not touched. *)
Lemma call_frame m m' d d' ans ans' done done' k call :
  slots m' !! k = slots m !! k ->
  (slot_closed k m = false -> senders m !! call_id k = Some k -> senders m' !! call_id k = Some k) ->
  sending d' k = sending d k -> (forall p, (k, p) ∈ ans -> (k, p) ∈ ans') -> answers_to k done' = answers_to k done ->
  call_ok m d ans done k call -> call_ok m' d' ans' done' k call.
Proof.
  intros Hs Hsend Hd Ha Hdone. unfold call_ok. destruct (call_kind call).
  - intros (H1 & H2 & H3 & H4). rewrite Hs. split; [intros; by eapply Ha, H1|]. split; [done|]. split.
    + intros a Hp. destruct (H3 a Hp) as (p & Hin & E). by exists p; auto.
    + intros Hw. destruct (H4 Hw) as [H5 (msg & l & n & Es & Hl)]. split; [|by exists msg, l, n]. apply Hsend; [|done].
      unfold slot_closed. by rewrite Es.
  - intros (H1 & H2 & raw & E & Hpre & Hopen). rewrite Hs. split; [done|]. split; [done|]. exists raw. split; [done|].
    assert (queue_of k m' = queue_of k m) as Eq by (unfold queue_of; by rewrite Hs).
    assert (slot_closed k m' = slot_closed k m) as Ec by (unfold slot_closed; by rewrite Hs).
    cbv zeta in *. rewrite Eq, Ec, Hd, Hdone. split; [done|]. intros Hn Hc. destruct (Hopen Hn Hc). split; [by apply Hsend|done].
Qed.

Lemma slots_ne k k' x m : k <> k' -> slots (set_slot k x m) !! k' = slots m !! k'.
Proof. intros. cbn. by rewrite lookup_insert_ne. Qed.

Lemma slots_eq k x m : slots (set_slot k x m) !! k = Some x.
Proof. cbn. by rewrite lookup_insert_eq. Qed.

(** A step that changes the slot, the sender and the state of one call. *)
Lemma one_call_ok c m' d' requested' k call call' :
  connection_ok c -> calls c !! k = Some call -> call_header call' = call_header call -> (call_phase call' = HasId -> call_phase call = HasId) ->
  correlation_id_counter m' = correlation_id_counter (mux c) ->
  (forall i k', senders m' !! i = Some k' -> senders (mux c) !! i = Some k' \/ i = call_id k /\ k' = k) ->
  (forall k', k' <> k -> slots m' !! k' = slots (mux c) !! k' /\ sending d' k' = sending (dispatcher c) k' /\
     (slot_closed k' (mux c) = false -> senders (mux c) !! call_id k' = Some k' -> call_id k <> call_id k' -> senders m' !! call_id k' = Some k')) ->
  (forall done, (call_phase call = HasId -> answers_to k done = []) ->
     call_ok (mux c) (dispatcher c) (answered c) done k call -> call_ok m' d' (answered c) done k call') ->
  (forall k' msg, d' = DispSending k' msg -> exists cap q cl, slots m' !! k' = Some (QueueSlot cap q cl)) ->
  (requested' = requested c \/ requested' = requested c ++ [k] /\ call_phase call' <> HasId) ->
  connection_ok (MkConnection m' d' (<[k := call']> (calls c)) requested' (inbound c) (answered c)).
Proof.
  intros Hok Hk Hh Hph Hc Hs Hother Hcall Hd Hreq. pose proof (lookup_lt_Some _ _ _ Hk) as Hlt. pose proof (co_few _ Hok) as Hfew. unfold zlen in Hfew.
  assert (forall k', k' ∈ requested c -> k' ∈ requested') as Hsub by (destruct Hreq as [->|[-> _]]; set_solver).
  split; cbn [mux dispatcher calls requested inbound answered].
  - unfold zlen. by rewrite length_insert.
  - rewrite length_insert, Hc. apply (co_counter _ Hok).
  - intros k' c' E. apply list_lookup_insert_Some in E as [(<- & <- & _)|[_ E]]; [rewrite Hh|]; by eapply (co_ids _ Hok).
  - intros i k' E. rewrite length_insert. destruct (Hs _ _ E) as [E'|[-> ->]]; [by apply (co_senders _ Hok)|done].
  - intros k' s. rewrite length_insert. destruct (decide (k' = k)) as [->|Hne]; [done|].
    destruct (Hother k' Hne) as [-> _]. apply (co_slots _ Hok).
  - intros k' p Hin. by eapply Hsub, (co_answered _ Hok).
  - intros k' Hin. assert (k' ∈ requested c \/ k' = k /\ call_phase call' <> HasId) as [Hin'|[-> Hne]] by (destruct Hreq as [->|[-> ?]]; set_solver).
    + destruct (co_requested _ Hok k' Hin') as (c0 & E0 & Hne). destruct (decide (k' = k)) as [->|Hkk].
      * exists call'. rewrite list_lookup_insert_eq by done. split; [done|]. intros E. assert (c0 = call) as -> by congruence. auto.
      * exists c0. by rewrite list_lookup_insert_ne by done.
    + exists call'. by rewrite list_lookup_insert_eq by done.
  - done.
  - destruct (co_flow _ Hok) as (done_ & inflight & Ea & Ei & Hall). exists done_, inflight. split; [done|]. split; [done|].
    intros k' c' E. apply list_lookup_insert_Some in E as [(<- & <- & _)|[Hne E]].
    + apply Hcall; [|by apply Hall]. intros Ep. apply answers_none. intros p Hin.
      destruct (co_requested _ Hok k) as (c0 & E0 & Hn); [apply (co_answered _ Hok _ p); rewrite Ea; set_solver|]. congruence.
    + destruct (Hother k' (not_eq_sym Hne)) as (E1 & E2 & E3). eapply (call_frame (mux c)); [done| |done|done|done|by apply Hall].
      intros Hcl Hse. apply E3; [done|done|]. intros Eid. apply call_id_inj in Eid; [done|lia|]. apply lookup_lt_Some in E. lia.
Qed.

(** The same when the call itself stays as it is. *)
Lemma one_slot_ok c m' d' k call :
  connection_ok c -> calls c !! k = Some call ->
  correlation_id_counter m' = correlation_id_counter (mux c) -> senders m' = senders (mux c) ->
  (forall k', k' <> k -> slots m' !! k' = slots (mux c) !! k' /\ sending d' k' = sending (dispatcher c) k') ->
  (forall done, call_ok (mux c) (dispatcher c) (answered c) done k call -> call_ok m' d' (answered c) done k call) ->
  (forall k' msg, d' = DispSending k' msg -> exists cap q cl, slots m' !! k' = Some (QueueSlot cap q cl)) ->
  connection_ok (MkConnection m' d' (calls c) (requested c) (inbound c) (answered c)).
Proof.
  intros Hok Hk Hc Hs Hother Hcall Hd. rewrite <-(list_insert_id (calls c) k call) by done.
  eapply one_call_ok; try done; [by rewrite Hs; left| |auto|by left].
  intros k' Hne. destruct (Hother k' Hne). rewrite Hs. done.
Qed.

Lemma register_ok c k call :
  connection_ok c -> calls c !! k = Some call -> call_phase call = HasId -> call_kind call = SerialCall -> lock_free c = true ->
  connection_ok (set_call k (set_phase Registered call) (set_mux (register_serial (correlation_id (call_header call)) k (mux c)) c)).
Proof.
  intros Hok Hk Hp Ek Hl. unfold set_call. cbn [mux set_mux dispatcher calls requested inbound answered].
  eapply one_call_ok; try done.
  - intros i k'. cbn. rewrite (co_ids _ Hok _ _ Hk). intros [[<- <-]|[_ E]]%lookup_insert_Some; [by right|by left].
  - intros k' Hne. split; [by apply slots_ne|]. split; [done|]. intros _ Hse Hid. cbn. rewrite (co_ids _ Hok _ _ Hk). by rewrite lookup_insert_ne.
  - intros done_ _ Hc. unfold call_ok in *. cbn [set_phase call_kind call_phase call_header]. rewrite Ek in *.
    change (slots (register_serial _ k (mux c))) with (slots (set_slot k (SerialSlot None false false) (mux c))). rewrite slots_eq.
    split; [done|]. split; [done|]. split; [done|]. intros _. cbn. rewrite (co_ids _ Hok _ _ Hk), lookup_insert_eq. split; [done|].
    eexists _, _, _. split; [done|by left].
  - intros k' msg E. unfold lock_free in Hl. by rewrite E in Hl.
  - by left.
Qed.

Lemma register_stream_ok c k call queue_len :
  connection_ok c -> calls c !! k = Some call -> call_phase call = HasId -> call_kind call = StreamCall queue_len -> lock_free c = true ->
  connection_ok (set_call k (set_phase Listening call)
    (set_mux (register_stream (correlation_id (call_header call)) queue_len k (mux c)) c)).
Proof.
  intros Hok Hk Hp Ek Hl. unfold set_call. cbn [mux set_mux dispatcher calls requested inbound answered].
  rewrite (co_ids _ Hok _ _ Hk). eapply one_call_ok; try done.
  - intros i k'. cbn. intros [[<- <-]|[_ E]]%lookup_insert_Some; [by right|]. apply map_lookup_filter_Some in E as [E _]. by left.
  - intros k' Hne. split; [by apply slots_ne|]. split; [done|]. intros Hcl Hse Hid. cbn. rewrite lookup_insert_ne by done.
    apply map_lookup_filter_Some. done.
  - intros done_ Hnil Hc. unfold call_ok in *. cbn [set_phase call_kind call_phase call_header call_items]. rewrite Ek in *.
    destruct Hc as (_ & _ & raw & E & Hpre & _).
    unfold queue_of, slot_closed. change (slots (register_stream _ _ k (mux c))) with (slots (set_slot k (QueueSlot queue_len [] false) (mux c))).
    rewrite slots_eq. split; [done|]. split; [done|]. exists raw. split; [done|]. rewrite Hnil in * by done.
    apply prefix_nil_inv in Hpre. apply app_nil in Hpre as [Hpre Hse]. rewrite omap_app in *. apply app_nil in Hpre as [-> _].
    rewrite Hse. split; [done|]. intros _ _. split; [|done]. cbn. by rewrite lookup_insert_eq.
  - intros k' msg E. unfold lock_free in Hl. by rewrite E in Hl.
  - by left.
Qed.

(** A step of a call that changes its phase only, to a later one. *)
Lemma phase_ok c k call ph requested' :
  connection_ok c -> calls c !! k = Some call -> call_phase call <> HasId -> ph <> HasId -> (forall a, ph <> Finished (inr a)) ->
  (waiting ph -> waiting (call_phase call) /\ (call_phase call = Registered -> call_kind call = SerialCall ->
     exists msg n, slots (mux c) !! k = Some (SerialSlot msg true n))) ->
  (requested' = requested c \/ requested' = requested c ++ [k]) ->
  connection_ok (MkConnection (mux c) (dispatcher c) (<[k := set_phase ph call]> (calls c)) requested' (inbound c) (answered c)).
Proof.
  intros Hok Hk Hp Hph Hfin Hwait Hreq. eapply one_call_ok; try done.
  - intros i k' E. by left.
  - intros done_ _ Hc. unfold call_ok in *. cbn. destruct (call_kind call).
    + destruct Hc as (H1 & H2 & _ & H4). split; [done|]. split; [done|]. split; [intros a E; by destruct (Hfin a)|].
      intros Hw. destruct (Hwait Hw) as [Hw' Hreg]. destruct (H4 Hw') as [H5 (msg & l & n & Es & [Er| ->])]; (split; [done|]).
      * destruct (Hreg Er eq_refl) as (msg' & n' & Es'). exists msg', true, n'. by split; [|right].
      * exists msg, true, n. by split; [|right].
    + destruct Hc as (H1 & H2 & Hc). split; [done|]. split; [|done]. intros E. by destruct Hp; apply H2.
  - apply (co_sending _ Hok).
  - destruct Hreq as [->| ->]; [by left|by right].
Qed.

Lemma listen_ok c k call :
  connection_ok c -> calls c !! k = Some call -> call_phase call = Registered ->
  connection_ok (set_call k (set_phase Listening call) (set_mux (serial_listen k (mux c)) c)).
Proof.
  intros Hok Hk Hp.
  assert (connection_ok (set_mux (serial_listen k (mux c)) c)) as Hok'.
  { unfold serial_listen. destruct (slots (mux c) !! k) as [[msg l n|]|] eqn:Es; [|by destruct c|by destruct c].
    eapply (one_slot_ok c _ _ k call); try done.
    - intros k' Hne. split; [by apply slots_ne|done].
    - cbn. intros done_ Hc. unfold call_ok in *. cbn in *. rewrite Es in Hc. rewrite lookup_insert_eq. destruct (call_kind call).
      + destruct Hc as (H1 & H2 & H3 & H4). split; [|split; [done|split; [done|]]]; [intros p l' n' [= -> _ _]; by eapply H1|].
        intros Hw. destruct (H4 Hw) as [H5 _]. split; [done|]. eexists _, _, _. split; [done|by right].
      + destruct Hc as (H1 & _). by destruct (H1 msg l n).
    - intros k' msg' E. destruct (co_sending _ Hok _ _ E) as (cap & q & cl & Eq). exists cap, q, cl.
      destruct (decide (k' = k)) as [->|]; [congruence|]. cbn. by rewrite lookup_insert_ne. }
  apply (phase_ok _ k call Listening (requested c) Hok'); try done; [by rewrite Hp| |by left].
  intros _. rewrite Hp. split; [by left|]. intros _ Ek. destruct (co_flow _ Hok) as (done_ & inflight & _ & _ & Hall).
  specialize (Hall k call Hk). unfold call_ok in Hall. rewrite Ek in Hall. destruct Hall as (_ & _ & _ & H4).
  destruct (H4 ltac:(rewrite Hp; by left)) as [_ (msg & l & n & Es & _)]. cbn. unfold serial_listen. rewrite Es, slots_eq. by eexists _, _.
Qed.

(** A serial call that ends. *)
Lemma finish_ok c m' k call result :
  connection_ok c -> calls c !! k = Some call -> call_kind call = SerialCall -> call_phase call = Requested -> lock_free c = true ->
  correlation_id_counter m' = correlation_id_counter (mux c) -> slots m' = slots (mux c) ->
  senders m' = delete (correlation_id (call_header call)) (senders (mux c)) ->
  (forall a, result = inr a -> exists p l n, slots (mux c) !! k = Some (SerialSlot (Some p) l n) /\ decode_body (call_header call) p = Ok a) ->
  connection_ok (set_call k (set_phase (Finished result) call) (set_mux m' c)).
Proof.
  intros Hok Hk Ek Hp Hl Hc Hs Hse Hres. unfold set_call. cbn [mux set_mux dispatcher calls requested inbound answered].
  eapply one_call_ok; try done.
  - intros i k'. rewrite Hse. intros [_ E]%lookup_delete_Some. by left.
  - intros k' Hne. rewrite Hs. split; [done|]. split; [done|]. intros _ Hk' Hid. rewrite Hse, (co_ids _ Hok _ _ Hk). by rewrite lookup_delete_ne.
  - intros done_ _ Hcall. unfold call_ok in *. cbn. rewrite Ek in *. rewrite Hs. destruct Hcall as (H1 & H2 & _). split; [done|]. split; [done|]. split; [|by intros [?|[?|?]]].
    intros a [= ->]. destruct (Hres a eq_refl) as (p & l & n & Ep & Ed). exists p. split; [by eapply H1|done].
  - intros k' msg E. unfold lock_free in Hl. by rewrite E in Hl.
  - by left.
Qed.

Lemma poll_ok c k call queue_len item m' :
  connection_ok c -> calls c !! k = Some call -> call_kind call = StreamCall queue_len -> call_phase call = Requested ->
  poll_next (call_header call) k (mux c) = Some (Some item, m') ->
  connection_ok (set_call k (add_item item call) (set_mux m' c)).
Proof.
  intros Hok Hk Ek Hp Epoll. unfold poll_next in Epoll. destruct (slots (mux c) !! k) as [[|cap q cl]|] eqn:Es; try done.
  destruct q as [|x q]; [by destruct cl|].
  assert (item = item_of (call_header call) x /\ m' = set_slot k (QueueSlot cap q cl) (mux c)) as [-> ->] by (destruct x; by simplify_eq/=).
  unfold set_call. cbn [mux set_mux dispatcher calls requested inbound answered]. eapply one_call_ok; try done.
  - by left.
  - intros k' Hne. split; [by apply slots_ne|done].
  - intros done_ _ Hc. unfold call_ok, queue_of, slot_closed in *. cbn [add_item call_kind call_phase call_header call_items]. rewrite Ek, Es in *.
    rewrite slots_eq. destruct Hc as (H1 & H2 & raw & E & Hpre & Hopen). split; [done|]. split; [done|]. exists (raw ++ [x]).
    split; [by rewrite map_app, E|]. rewrite <-app_assoc. cbn [app]. split; [done|]. intros _ Hcl. by apply Hopen.
  - intros k' msg E. destruct (co_sending _ Hok _ _ E) as (cap' & q' & cl' & Eq). destruct (decide (k' = k)) as [->|].
    + rewrite slots_eq. by eexists _, _, _.
    + rewrite slots_ne by done. by eexists _, _, _.
  - by left.
Qed.

(** The channel of a stream changes: what is in it and with the dispatcher stays
    in order, and an open channel loses nothing. *)
Lemma queue_call_ok m m' d d' ans done k call cap q cl cap' q' cl' :
  slots m !! k = Some (QueueSlot cap q cl) -> slots m' !! k = Some (QueueSlot cap' q' cl') -> senders m' = senders m ->
  omap id q' ++ sending d' k `prefix_of` omap id q ++ sending d k ->
  (cl' = false -> cl = false /\ omap id q' ++ sending d' k = omap id q ++ sending d k) ->
  call_ok m d ans done k call -> call_ok m' d' ans done k call.
Proof.
  intros Es Es' Hse Hpre Hopen. unfold call_ok, queue_of, slot_closed. rewrite Es, Es'. destruct (call_kind call).
  { intros (_ & H2 & _). by destruct (H2 cap q cl). }
  intros (H1 & H2 & raw & E & Hp & Ho). split; [done|]. split; [done|]. exists raw. split; [done|].
  rewrite !omap_app, <-!app_assoc in *. split.
  - etrans; [|exact Hp]. by apply prefix_app.
  - intros _ Hcl. destruct (Hopen Hcl) as [-> ->]. rewrite Hse. by apply Ho.
Qed.

(** A serial slot is emptied, or filled with an answer to its call. *)
Lemma serial_call_ok m m' d d' ans done k call msg l n msg' n' :
  slots m !! k = Some (SerialSlot msg l n) -> slots m' !! k = Some (SerialSlot msg' l n') -> senders m' = senders m ->
  (forall p, msg' = Some p -> (k, p) ∈ ans) ->
  call_ok m d ans done k call -> call_ok m' d' ans done k call.
Proof.
  intros Es Es' Hse Hm. unfold call_ok. rewrite Es, Es', Hse. destruct (call_kind call); [|intros (H1 & _); by destruct (H1 msg l n)].
  intros (_ & _ & H3 & H4). split; [intros p l0 n0 [= -> _ _]; auto|]. split; [done|]. split; [done|].
  intros Hw. destruct (H4 Hw) as [H5 (? & ? & ? & [= <- <- <-] & Hl)]. split; [done|]. by eexists _, _, _.
Qed.

Lemma slot_has_call c k s : connection_ok c -> slots (mux c) !! k = Some s -> exists call, calls c !! k = Some call.
Proof. intros Hok Es. apply lookup_lt_is_Some_2. by eapply (co_slots _ Hok). Qed.

Lemma drop_ok c k call queue_len :
  connection_ok c -> calls c !! k = Some call -> call_kind call = StreamCall queue_len -> call_phase call = Requested ->
  connection_ok (set_call k (set_phase Dropped call) (set_mux (stream_drop k (mux c)) c)).
Proof.
  intros Hok Hk Ek Hp. assert (connection_ok (set_call k (set_phase Dropped call) c)) as Hok'
    by (apply (phase_ok c k call Dropped (requested c)); try done; [by rewrite Hp|by intros [?|[?|?]]|by left]).
  unfold stream_drop. destruct (slots (mux c) !! k) as [[|cap q cl]|] eqn:Es; try done.
  eapply (one_slot_ok (set_call k (set_phase Dropped call) c) _ _ k (set_phase Dropped call)); try done.
  - cbn. apply list_lookup_insert_eq. by eapply lookup_lt_Some.
  - intros k' Hne. split; [by apply slots_ne|done].
  - cbn. intros done_. eapply queue_call_ok; [exact Es|apply slots_eq|done|done|done].
  - intros k' msg E. destruct (co_sending _ Hok _ _ E) as (cap' & q' & cl' & Eq).
    destruct (decide (k' = k)) as [->|]; [eexists _, _, _; apply slots_eq|]. cbn. rewrite lookup_insert_ne by done. by eexists _, _, _.
Qed.

Lemma resume_ok c k msg m' :
  connection_ok c -> dispatcher c = DispSending k msg -> dispatch_resume k msg (mux c) = Some m' ->
  connection_ok (set_dispatcher DispWaiting (set_mux m' c)).
Proof.
  intros Hok Hd E. destruct (co_sending _ Hok _ _ Hd) as (cap & q & cl & Es). unfold dispatch_resume in E. rewrite Es in E.
  destruct (slot_has_call c k _ Hok Es) as [call Hk].
  assert (forall k', k' <> k -> sending DispWaiting k' = sending (dispatcher c) k') as Hse.
  { intros k' Hne. rewrite Hd. cbn. by rewrite bool_decide_eq_false_2. }
  assert (sending (dispatcher c) k = [msg]) as Hk' by (rewrite Hd; cbn; by rewrite bool_decide_eq_true_2).
  destruct cl; [|destruct (_ <? _)%nat; [|done]]; injection E as <-;
    (eapply (one_slot_ok c _ DispWaiting k call); try done; [|intros done_]).
  - auto.
  - eapply queue_call_ok; [exact Es|exact Es|done| |done]. rewrite Hk'. cbn. rewrite app_nil_r. by apply prefix_app_r.
  - intros k' Hne. split; [by apply slots_ne|auto].
  - eapply queue_call_ok; [exact Es|apply slots_eq|done| |]; rewrite Hk', omap_app, app_nil_r; done.
Qed.

(** The dispatcher goes on without touching a slot. *)
Lemma dispatcher_ok c m' d' :
  connection_ok c -> correlation_id_counter m' = correlation_id_counter (mux c) -> senders m' = senders (mux c) -> slots m' = slots (mux c) ->
  (forall k, sending d' k = sending (dispatcher c) k) -> (forall k msg, d' <> DispSending k msg) ->
  connection_ok (set_dispatcher d' (set_mux m' c)).
Proof.
  intros Hok Hc Hse Hs Hd Hne. destruct Hok as [H1 H2 H3 H4 H5 H6 H7 H8 (done_ & inflight & Ea & Ei & Hall)].
  split; cbn; rewrite ?Hc, ?Hse, ?Hs; try done; [by intros k msg E; destruct (Hne k msg)|]. exists done_, inflight. split; [done|]. split; [done|].
  intros k call Hk. eapply (call_frame (mux c) m' (dispatcher c)); [by rewrite Hs|by rewrite Hse|done|done|done|by apply Hall].
Qed.

Lemma close_one_ok c k todo m' :
  connection_ok c -> dispatcher c = DispClosing todo -> close_one k (mux c) = Some m' ->
  connection_ok (set_dispatcher (DispClosing (todo ∖ {[k]})) (set_mux m' c)).
Proof.
  intros Hok Hd E. unfold close_one in E. destruct (slots (mux c) !! k) as [s|] eqn:Es.
  2:{ injection E as <-. apply dispatcher_ok; try done. by rewrite Hd. }
  destruct (slot_has_call c k _ Hok Es) as [call Hk].
  destruct s as [msg l n|cap q cl]; [|destruct cl; [|destruct (_ <? _)%nat; [|done]]]; injection E as <-;
    (eapply (one_slot_ok c _ (DispClosing (todo ∖ {[k]})) k call); try done; [|intros done_]); rewrite ?Hd.
  - intros k' Hne. split; [by apply slots_ne|done].
  - by eapply serial_call_ok; [exact Es|apply slots_eq| |].
  - done.
  - by eapply queue_call_ok; [exact Es|exact Es| | | ].
  - intros k' Hne. split; [by apply slots_ne|done].
  - eapply queue_call_ok; [exact Es|apply slots_eq|done| |]; rewrite omap_app, !app_nil_r; done.
Qed.

Lemma terminate_one_ok c k :
  connection_ok c -> dispatcher c = DispWaiting -> connection_ok (set_mux (terminate_one k (mux c)) c).
Proof.
  intros Hok Hd. unfold terminate_one. destruct (slots (mux c) !! k) as [s|] eqn:Es; [|by destruct c].
  destruct (slot_has_call c k _ Hok Es) as [call Hk].
  destruct s as [msg l n|cap q cl]; (eapply (one_slot_ok c _ _ k call); try done; [|intros done_|by rewrite Hd]).
  - intros k' Hne. split; [by apply slots_ne|done].
  - by eapply serial_call_ok; [exact Es|apply slots_eq| |].
  - intros k' Hne. split; [by apply slots_ne|done].
  - by eapply queue_call_ok; [exact Es|apply slots_eq| | | ].
Qed.

Lemma terminate_ok c ks :
  connection_ok c -> dispatcher c = DispWaiting -> connection_ok (set_mux (foldr terminate_one (mux c) ks) c).
Proof.
  intros Hok Hd. induction ks as [|k ks IH]; [by destruct c|]. cbn [foldr].
  by apply (terminate_one_ok (set_mux (foldr terminate_one (mux c) ks) c) k IH).
Qed.

(** The frame of an answer carries the id of its call. *)
Lemma dispatch_frame_of k p m : dispatch_frame (frame_of (k, p)) m = dispatch_send (call_id k) p m.
Proof. unfold dispatch_frame, frame_of. cbn [fst snd]. by rewrite decode_length by (apply wrap_i_range; lia). Qed.

(** What the dispatcher does with the answer [p] to the call [k]. *)
Lemma dispatch_call_ok m ans done k p call :
  (k, p) ∈ ans -> (forall k', senders m !! call_id k = Some k' -> k' = k) ->
  call_ok m DispWaiting ans done k call ->
  call_ok (snd (dispatch_send (call_id k) p m)) (fst (dispatch_send (call_id k) p m)) ans (done ++ [(k, p)]) k call.
Proof.
  intros Hin Hid Hc. assert (answers_to k (done ++ [(k, p)]) = answers_to k done ++ [p]) as Ea.
  { rewrite answers_app, answers_one, bool_decide_eq_true_2 by done. done. }
  assert (senders m !! call_id k = None \/ slots m !! k = None \/ slot_closed k m = true -> call_ok m DispWaiting ans (done ++ [(k, p)]) k call) as Hskip.
  { intros Hn. unfold call_ok in *. destruct (call_kind call); [done|]. destruct Hc as (H1 & H2 & raw & E & Hpre & Ho).
    split; [done|]. split; [done|]. exists raw. split; [done|]. rewrite Ea. split; [by apply prefix_app_r|].
    intros Hsl Hcl. destruct (Ho Hsl Hcl) as [E' _]. destruct Hn as [?|[?|?]]; congruence. }
  unfold dispatch_send. destruct (senders m !! call_id k) as [k'|] eqn:Ek; [|by apply Hskip; left].
  rewrite (Hid k' eq_refl) in *. destruct (slots m !! k) as [[msg l n|cap q cl]|] eqn:Es; [| |by apply Hskip; right; left].
  - cbn [fst snd]. unfold call_ok in *. destruct (call_kind call); [|destruct Hc as (H1 & _); by destruct (H1 msg l n)].
    destruct Hc as (_ & _ & H3 & H4). cbn. rewrite lookup_insert_eq. split; [by intros p' l' n' [= <- _ _]|]. split; [done|]. split; [done|].
    intros Hw. destruct (H4 Hw) as [H5 (? & ? & ? & Es' & Hl)]. rewrite Es in Es'. injection Es' as <- <- <-. split; [done|]. by eexists _, _, _.
  - destruct cl; [cbn; apply Hskip; right; right; unfold slot_closed; by rewrite Es|].
    unfold call_ok, queue_of, slot_closed in *. destruct (call_kind call); [destruct Hc as (_ & H2 & _); by destruct (H2 cap q false)|].
    rewrite Es in Hc. destruct Hc as (H1 & H2 & raw & E & Hpre & Ho). destruct (Ho ltac:(done) eq_refl) as [_ Hgot]. cbn in Hgot. rewrite app_nil_r in Hgot.
    destruct (_ <? _)%nat; cbn [fst snd].
    + cbn. rewrite lookup_insert_eq. split; [done|]. split; [done|]. exists raw. split; [done|].
      assert (omap id (raw ++ q ++ [Some p]) ++ [] = answers_to k (done ++ [(k, p)])) as ->.
      { rewrite Ea, <-Hgot, app_assoc, (omap_app _ (raw ++ q)), app_nil_r. done. }
      done.
    + rewrite Es. split; [done|]. split; [done|]. exists raw. split; [done|]. cbn. rewrite bool_decide_eq_true_2 by done.
      rewrite Hgot, Ea. done.
Qed.

Lemma dispatch_send_frame k p m :
  (forall k', senders m !! call_id k = Some k' -> k' = k) ->
  let '(d, m') := dispatch_send (call_id k) p m in
  correlation_id_counter m' = correlation_id_counter m /\ senders m' = senders m /\
  (forall k', k' <> k -> slots m' !! k' = slots m !! k' /\ sending d k' = []) /\
  (slots m !! k = None -> m' = m) /\
  (forall k' msg, d = DispSending k' msg -> exists cap q cl, slots m' !! k' = Some (QueueSlot cap q cl)).
Proof.
  intros Hid. unfold dispatch_send. destruct (senders m !! call_id k) as [k0|]; [rewrite (Hid k0 eq_refl) in *|by split_and!].
  destruct (slots m !! k) as [[msg l n|cap q cl]|] eqn:Es; [| |by split_and!].
  - split_and!; try done. intros k' Hne. split; [|done]. by apply slots_ne.
  - destruct cl; [by split_and!|]. destruct (_ <? _)%nat; split_and!; try done.
    + intros k' Hne. split; [by apply slots_ne|done].
    + intros k' Hne. split; [done|]. cbn. by rewrite bool_decide_eq_false_2.
    + intros k' msg [= <- _]. by eexists _, _, _.
Qed.

Lemma dispatch_ok c msg inbound' :
  connection_ok c -> dispatcher c = DispWaiting -> inbound c = msg :: inbound' ->
  let '(d, m) := dispatch_frame msg (mux c) in
  connection_ok (MkConnection m d (calls c) (requested c) inbound' (answered c)).
Proof.
  intros Hok Hd Hin. pose proof Hok as [H1 H2 H3 H4 H5 H6 H7 H8 (done_ & inflight & Ea & Ei & Hall)]. rewrite Hin in Ei.
  destruct inflight as [|[k p] inflight]; [done|]. injection Ei as -> Ei. rewrite dispatch_frame_of.
  assert ((k, p) ∈ answered c) as Hkp by (rewrite Ea; set_solver). unfold zlen in H1.
  destruct (H7 k (H6 _ _ Hkp)) as (call & Hk & _). pose proof (lookup_lt_Some _ _ _ Hk) as Hlt.
  assert (forall k', senders (mux c) !! call_id k = Some k' -> k' = k) as Hid.
  { intros k' E. destruct (H4 _ _ E) as [E' Hlt']. symmetry. apply call_id_inj; [lia|lia|done]. }
  pose proof (dispatch_send_frame k p (mux c) Hid) as Hf. pose proof (dispatch_call_ok (mux c) (answered c) done_ k p call Hkp Hid) as Hc.
  destruct (dispatch_send (call_id k) p (mux c)) as [d m]. destruct Hf as (F1 & F2 & F3 & F4 & F5).
  split; cbn; rewrite ?F1, ?F2; try done.
  - intros k' s Es. destruct (decide (k' = k)) as [->|Hne]; [done|]. destruct (F3 k' Hne) as [E _]. rewrite E in Es. by eapply H5.
  - exists (done_ ++ [(k, p)]), inflight. rewrite <-app_assoc. split; [done|]. split; [done|]. intros k' call' Hk'.
    destruct (decide (k' = k)) as [->|Hne].
    + assert (call' = call) as -> by congruence. apply Hc. rewrite <-Hd. by apply Hall.
    + destruct (F3 k' Hne) as [Es Ed]. eapply (call_frame (mux c) m (dispatcher c)); [done|by rewrite F2|by rewrite Hd|done| |by apply Hall].
      rewrite answers_app, answers_one, bool_decide_eq_false_2 by done. by rewrite app_nil_r.
Qed.

Lemma new_ok c header kind :
  connection_ok c -> zlen (calls c) < 2 ^ 32 ->
  let '(id, m) := next_correlation_id (mux c) in
  connection_ok (MkConnection m (dispatcher c) (calls c ++ [MkCall (set_correlation_id id header) kind HasId []])
    (requested c) (inbound c) (answered c)).
Proof.
  intros Hok Hlt. pose proof Hok as [H1 H2 H3 H4 H5 H6 H7 H8 (done_ & inflight & Ea & Ei & Hall)]. cbn.
  assert (forall k call, (calls c ++ [MkCall (set_correlation_id (correlation_id_counter (mux c)) header) kind HasId []]) !! k = Some call ->
    calls c !! k = Some call \/ k = length (calls c) /\ call = MkCall (set_correlation_id (correlation_id_counter (mux c)) header) kind HasId []) as Hcase.
  { intros k call. rewrite lookup_app_Some. intros [?|[Hge E]]; [by left|]. right.
    destruct (k - length (calls c))%nat eqn:Ek; [|done]. injection E as <-. split; [lia|done]. }
  split; cbn; rewrite ?length_app; cbn.
  - rewrite zlen_app. change (zlen [_]) with 1. lia.
  - rewrite H2. unfold call_id. rewrite wrap_i_add by lia. f_equal. lia.
  - intros k call [E|[-> ->]]%Hcase; [by apply H3|]. cbn. done.
  - intros i k E. destruct (H4 _ _ E). split; [done|lia].
  - intros k s Es. apply H5 in Es. lia.
  - done.
  - intros k Hin. destruct (H7 k Hin) as (call & Hk & Hp). exists call. split; [by apply lookup_app_l_Some|done].
  - done.
  - exists done_, inflight. split; [done|]. split; [done|]. intros k call [E|[-> ->]]%Hcase; [by apply Hall|].
    assert (slots (mux c) !! length (calls c) = None) as En.
    { destruct (slots (mux c) !! length (calls c)) eqn:Es; [|done]. apply H5 in Es. lia. }
    assert (answers_to (length (calls c)) done_ = []) as Ean.
    { apply answers_none. intros p Hin. destruct (H7 (length (calls c))) as (call & Hk & _);
        [apply (H6 _ p); rewrite Ea; set_solver|]. apply lookup_lt_Some in Hk. lia. }
    unfold call_ok, queue_of. cbn [slots call_kind call_phase call_header call_items]. rewrite En. destruct kind; [by split_and!; try intros [?|[?|?]]|].
    split; [done|]. split; [done|]. exists []. split; [done|]. rewrite Ean. cbn. split; [|done].
    assert (sending (dispatcher c) (length (calls c)) = []) as ->; [|done].
    destruct (dispatcher c) as [|k0 msg| |] eqn:Ed; try done. cbn. case_bool_decide as E; [|done]. subst.
    destruct (H8 _ _ eq_refl) as (? & ? & ? & E). congruence.
Qed.

Lemma answer_ok c k call payload :
  connection_ok c -> calls c !! k = Some call -> k ∈ requested c ->
  connection_ok (MkConnection (mux c) (dispatcher c) (calls c) (requested c)
    (inbound c ++ [be_split 4 (correlation_id (call_header call)) ++ payload]) (answered c ++ [(k, payload)])).
Proof.
  intros Hok Hk Hin. pose proof Hok as [H1 H2 H3 H4 H5 H6 H7 H8 (done_ & inflight & Ea & Ei & Hall)].
  split; cbn; try done.
  - intros k' p [?|[= -> _]%list_elem_of_singleton]%elem_of_app; [by eapply H6|done].
  - exists done_, (inflight ++ [(k, payload)]). rewrite Ea, app_assoc. split; [done|]. split.
    + rewrite map_app, Ei, (H3 _ _ Hk). done.
    + intros k' call' Hk'. eapply (call_frame (mux c) (mux c) (dispatcher c)); [done|done|done| |done|by apply Hall]. rewrite Ea. set_solver.
Qed.

Lemma connection_new_ok : connection_ok connection_new.
Proof.
  split; try done; cbn.
  - intros k p Hk. by apply not_elem_of_nil in Hk.
  - intros k Hk. by apply not_elem_of_nil in Hk.
  - by exists [], [].
Qed.

Lemma step_ok l c c' : connection_ok c -> step l c = Some c' -> zlen (calls c') <= 2 ^ 32 -> connection_ok c'.
Proof.
  intros Hok E Hfew. destruct l; cbn [step] in E; unfold mbind, option_bind in E.
  - pose proof (new_ok c header kind Hok) as Hn. destruct (next_correlation_id (mux c)). injection E as <-. apply Hn.
    cbn in Hfew. rewrite zlen_app in Hfew. change (zlen [_]) with 1 in Hfew. lia.
  - destruct (calls c !! k) as [call|] eqn:Hk; [|done]. destruct (lock_free c) eqn:Hl; [|done].
    destruct (call_kind call) eqn:Ek, (call_phase call) eqn:Hp; try done;
      injection E as <-; [by apply register_ok|by apply register_stream_ok].
  - destruct (calls c !! k) as [call|] eqn:Hk; [|done]. destruct (call_phase call) eqn:Hp; try done. injection E as <-. by apply listen_ok.
  - destruct (calls c !! k) as [call|] eqn:Hk; [|done]. destruct (call_phase call) eqn:Hp; try done. injection E as <-.
    apply (phase_ok c k call Requested); try done; [by rewrite Hp| |by right]. rewrite Hp. intros _. split; [by right; left|done].
  - destruct (calls c !! k) as [call|] eqn:Hk; [|done]. destruct (call_phase call) eqn:Hp; try done. injection E as <-.
    apply (phase_ok c k call (Finished (inl ErrSend))); try done; [by rewrite Hp|by intros [?|[?|?]]|by left].
  - destruct (calls c !! k) as [call|] eqn:Hk; [|done]. case_bool_decide; [|done]. injection E as <-. by apply answer_ok.
  - destruct (dispatcher c) eqn:Hd; try done. destruct (inbound c) as [|msg inb] eqn:Hi; [done|].
    pose proof (dispatch_ok c msg inb Hok Hd Hi) as Hn. destruct (dispatch_frame msg (mux c)). by injection E as <-.
  - destruct (dispatcher c) eqn:Hd; try done. destruct (dispatch_resume k msg (mux c)) as [m|] eqn:Er; [|done]. injection E as <-. by eapply resume_ok.
  - destruct (calls c !! k) as [call|] eqn:Hk; [|done]. destruct (call_kind call) eqn:Ek; [|done]. destruct (call_phase call) eqn:Hp; try done.
    destruct (slots (mux c) !! k) as [[msg l [] |]|] eqn:Es; try done. destruct (lock_free c) eqn:Hl; [|done].
    unfold serial_response in E. cbn [slots set_senders] in E. rewrite Es in E. injection E as <-. apply finish_ok; try done.
    intros a Ea. destruct msg as [p|]; [|done]. destruct (decode_body (call_header call) p) eqn:Ed; try done. injection Ea as ->. by eexists _, _, _.
  - destruct (calls c !! k) as [call|] eqn:Hk; [|done]. destruct (call_kind call) eqn:Ek; [|done]. destruct (call_phase call) eqn:Hp; try done.
    destruct (lock_free c) eqn:Hl; [|done]. injection E as <-. by apply finish_ok.
  - destruct (calls c !! k) as [call|] eqn:Hk; [|done]. destruct (call_kind call) eqn:Ek; [done|]. destruct (call_phase call) eqn:Hp; try done.
    destruct (poll_next (call_header call) k (mux c)) as [[[item|] m]|] eqn:Epoll; try done. injection E as <-. by eapply poll_ok.
  - destruct (calls c !! k) as [call|] eqn:Hk; [|done]. destruct (call_kind call) eqn:Ek; [done|]. destruct (call_phase call) eqn:Hp; try done.
    injection E as <-. by eapply drop_ok.
  - destruct (dispatcher c) eqn:Hd; try done. injection E as <-. apply dispatcher_ok; try done. by rewrite Hd.
  - destruct (dispatcher c) eqn:Hd; try done. case_bool_decide; [|done]. destruct (close_one k (mux c)) eqn:Ec; [|done]. injection E as <-. by apply close_one_ok.
  - destruct (dispatcher c) eqn:Hd; try done. case_bool_decide; [|done]. injection E as <-.
    replace c with (set_mux (mux c) c) by (by destruct c). apply dispatcher_ok; try done. by rewrite Hd.
  - destruct (dispatcher c) eqn:Hd; try done. injection E as <-.
    apply (dispatcher_ok (set_mux (foldr terminate_one (mux c) (map snd (map_to_list (senders (mux c))))) c) _ DispEnded); try done;
      [by apply terminate_ok|cbn; by rewrite Hd].
Qed.

Lemma step_calls l c c' : step l c = Some c' -> zlen (calls c) <= zlen (calls c').
Proof.
  intros E. unfold zlen. destruct l; cbn [step] in E; unfold mbind, option_bind in E;
    repeat case_match; simplify_eq; cbn; rewrite ?length_app, ?length_insert; lia.
Qed.

Lemma run_calls labels c c' : run labels c = Some c' -> zlen (calls c) <= zlen (calls c').
Proof.
  revert c. induction labels as [|l labels IH]; intros c E; cbn in E; [by simplify_eq|].
  destruct (step l c) as [c1|] eqn:E1; [|done]. apply step_calls in E1. apply IH in E. lia.
Qed.

Lemma run_ok labels c c' : connection_ok c -> run labels c = Some c' -> zlen (calls c') <= 2 ^ 32 -> connection_ok c'.
Proof.
  revert c. induction labels as [|l labels IH]; intros c Hok E Hfew; cbn in E; [by simplify_eq|].
  destruct (step l c) as [c1|] eqn:E1; [|done]. apply (IH c1); [|done|done]. eapply step_ok; [done|exact E1|].
  apply run_calls in E. lia.
Qed.

(** C9: whatever the interleaving of callers, dispatcher and server, and with
    timeouts, dropped streams and a connection that breaks, an answer reaches
    the call it belongs to and no other: a call that returns a response has it
    from an answer of the server to its own request, and what a stream gave so
    far are the server's first answers to its request, in their order, as long
    as there were not more than [2 ^ 32] calls on the connection. *)
Theorem responses_correlated labels c :
  run labels connection_new = Some c -> zlen (calls c) <= 2 ^ 32 ->
  forall k call, calls c !! k = Some call ->
    match call_kind call with
    | SerialCall => forall a, call_phase call = Finished (inr a) ->
        exists p, (k, p) ∈ answered c /\ decode_body (call_header call) p = Ok a
    | StreamCall _ => exists raw, call_items call = map (item_of (call_header call)) raw /\
        omap id raw `prefix_of` answers_to k (answered c)
    end.
Proof.
  intros E Hfew k call Hk. pose proof (run_ok labels connection_new c connection_new_ok E Hfew) as Hok.
  destruct (co_flow _ Hok) as (done_ & inflight & Ea & _ & Hall). specialize (Hall k call Hk). unfold call_ok in Hall.
  destruct (call_kind call); [by destruct Hall as (_ & _ & ? & _)|]. destruct Hall as (_ & _ & raw & Ei & Hpre & _).
  exists raw. split; [done|]. rewrite Ea, answers_app. rewrite omap_app, <-app_assoc in Hpre.
  etrans; [by eapply prefix_app_r|]. by apply prefix_app_r.
Qed.

(** A call that waits is answered: when the frame of an answer to its
    request is next on the connection, the dispatcher takes it and the caller
    returns the response in it. *)
Theorem waiting_call_answered labels c k call p rest :
  run labels connection_new = Some c -> zlen (calls c) <= 2 ^ 32 ->
  calls c !! k = Some call -> call_kind call = SerialCall -> call_phase call = Requested ->
  dispatcher c = DispWaiting -> inbound c = frame_of (k, p) :: rest ->
  exists c', run [LDispatch; LWake k] c = Some c' /\
    call_phase <$> calls c' !! k = Some (Finished (item_of (call_header call) (Some p))) /\
    senders (mux c') !! correlation_id (call_header call) = None.
Proof.
  intros E Hfew Hk Ek Hp Hd Hin. pose proof (run_ok labels connection_new c connection_new_ok E Hfew) as Hok.
  destruct (co_flow _ Hok) as (done_ & inflight & _ & _ & Hall). specialize (Hall k call Hk). unfold call_ok in Hall. rewrite Ek in Hall.
  destruct Hall as (_ & _ & _ & Hw). destruct (Hw ltac:(rewrite Hp; by right; right)) as [Hse (msg & l & n & Es & Hl)].
  assert (l = true) as -> by (destruct Hl; [congruence|done]).
  cbn [run step]. unfold mbind, option_bind. rewrite Hd, Hin, dispatch_frame_of. unfold dispatch_send. rewrite Hse, Es.
  cbn [step calls]. unfold mbind, option_bind. rewrite Hk, Ek, Hp. cbn [mux]. unfold serial_fill. rewrite slots_eq, orb_true_r. cbn [lock_free dispatcher].
  unfold serial_response. cbn [slots set_senders]. rewrite slots_eq. eexists. split; [reflexivity|]. split.
  - cbn. rewrite list_lookup_insert_eq by (by eapply lookup_lt_Some). done.
  - cbn. by rewrite lookup_delete_eq.
Qed.

Lemma still_requested c k0 call0 call1 :
  calls c !! k0 = Some call0 -> (call_phase call0 = Requested -> call_kind call0 = SerialCall -> call_phase call1 = Requested) ->
  forall k' call call', calls c !! k' = Some call -> <[k0 := call1]> (calls c) !! k' = Some call' -> call_phase call = Requested ->
    call_kind call = SerialCall -> call_phase call' = Requested.
Proof.
  intros Hk0 H k' call call' Hk. destruct (decide (k' = k0)) as [->|Hne].
  - rewrite list_lookup_insert_eq by (by eapply lookup_lt_Some). intros [= <-]. assert (call = call0) as -> by congruence. done.
  - rewrite list_lookup_insert_ne by done. congruence.
Qed.

Lemma listen_other k0 k cap q cl m :
  slots m !! k = Some (QueueSlot cap q cl) -> slots (serial_listen k0 m) !! k = Some (QueueSlot cap q cl).
Proof.
  intros Es. unfold serial_listen. destruct (slots m !! k0) as [[|]|] eqn:E0; try done. rewrite slots_ne; congruence.
Qed.

(** A stream whose channel is full stops the connection for everybody: until it
    is polled or dropped, no call can start, return, or even time out. *)
Theorem full_stream_blocks c k msg cap q l c' :
  dispatcher c = DispSending k msg -> slots (mux c) !! k = Some (QueueSlot cap q false) -> (cap <= length q)%nat ->
  step l c = Some c' -> l <> LPoll k -> l <> LDrop k ->
  dispatcher c' = DispSending k msg /\ slots (mux c') !! k = Some (QueueSlot cap q false) /\
  (forall k' call call', calls c !! k' = Some call -> calls c' !! k' = Some call' -> call_phase call = Requested -> call_kind call = SerialCall ->
     call_phase call' = Requested).
Proof.
  intros Hd Es Hfull E Hpoll Hdrop. unfold lock_free in *.
  destruct l; cbn [step] in E; unfold mbind, option_bind, lock_free in E; rewrite ?Hd in E; try done;
    try (destruct (calls c !! k0) as [call0|] eqn:Hk0; [|done]).
  - injection E as <-. split; [done|]. split; [done|]. cbn. intros k' call call' Hk. rewrite (lookup_app_l_Some _ _ _ _ Hk). congruence.
  - done.
  - destruct (call_phase call0) eqn:Hp; try done. injection E as <-. split; [done|]. split; [by apply listen_other|].
    apply (still_requested c k0 call0); [done|by rewrite Hp].
  - destruct (call_phase call0) eqn:Hp; try done. injection E as <-. split; [done|]. split; [done|].
    apply (still_requested c k0 call0); [done|by rewrite Hp].
  - destruct (call_phase call0) eqn:Hp; try done. injection E as <-. split; [done|]. split; [done|].
    apply (still_requested c k0 call0); [done|by rewrite Hp].
  - case_bool_decide; [|done]. injection E as <-. split; [done|]. split; [done|]. intros k' call call' Hk Hk'. cbn in Hk'. congruence.
  - unfold dispatch_resume in E. rewrite Es in E. by rewrite (proj2 (Nat.ltb_ge _ _)) in E.
  - destruct (call_kind call0), (call_phase call0), (slots (mux c) !! k0) as [[? ? []|]|]; done.
  - destruct (call_kind call0), (call_phase call0); done.
  - destruct (call_kind call0) eqn:Ek, (call_phase call0) eqn:Hp; try done.
    destruct (poll_next (call_header call0) k0 (mux c)) as [[[item|] m]|] eqn:Epoll; try done. injection E as <-. split; [done|].
    split; [|by apply (still_requested c k0 call0); [|rewrite Ek]]. unfold poll_next in Epoll. cbn.
    destruct (slots (mux c) !! k0) as [[|cap0 [|[x|] q0] cl0]|]; try done; [by destruct cl0| |]; injection Epoll as _ <-; rewrite slots_ne; congruence.
  - destruct (call_kind call0) eqn:Ek, (call_phase call0) eqn:Hp; try done.
    injection E as <-. split; [done|]. split; [|by apply (still_requested c k0 call0); [|rewrite Ek]]. cbn. unfold stream_drop.
    destruct (slots (mux c) !! k0) as [[|]|]; try done. rewrite slots_ne; congruence.
Qed.
End multiplexer.

(** ** Examples *)

Definition decode_i32_body (header : RequestHeader) (bytes : list byte) : res Z := fst (decode_from codec_i32 (api_version header) bytes).
Definition example_header : RequestHeader := request_header_new 1.

(** A call and a stream whose answers cross. *)
Definition crossing : list Label :=
  [LNew example_header SerialCall; LNew example_header (StreamCall 2); LRegister 1; LRegister 0; LListen 0; LRequest 0; LRequest 1;
   LAnswer 1 (be_split 4 20); LAnswer 0 (be_split 4 10); LAnswer 1 (be_split 4 21); LDispatch; LPoll 1].

Lemma responses_correlated_witness :
  exists c call raw, run decode_i32_body (crossing ++ [LDispatch; LWake 0]) connection_new = Some c /\
    calls c !! 1%nat = Some call /\ call_items call = [inr 20] /\ omap id raw `prefix_of` [be_split 4 20; be_split 4 21] /\
    call_items call = map (item_of decode_i32_body (call_header call)) raw.
Proof.
  destruct (run decode_i32_body (crossing ++ [LDispatch; LWake 0]) connection_new) as [c|] eqn:E; [|exfalso; vm_compute in E; discriminate].
  assert (zlen (calls c) <= 2 ^ 32) as Hfew by (vm_compute in E; injection E as <-; vm_compute; discriminate).
  destruct (calls c !! 1%nat) as [call|] eqn:Hk; [|exfalso; vm_compute in E; injection E as <-; vm_compute in Hk; discriminate].
  pose proof (responses_correlated decode_i32_body _ c E Hfew 1%nat call Hk) as H.
  assert (call_kind call = StreamCall 2 /\ call_items call = [inr 20] /\ answers_to 1 (answered c) = [be_split 4 20; be_split 4 21]) as (Ek & Ei & Ea).
  { vm_compute in E. injection E as <-. vm_compute in Hk. injection Hk as <-. by split_and!. }
  rewrite Ek in H. destruct H as (raw & Er & Hpre). exists c, call, raw. rewrite Ea in Hpre. by split_and!.
Defined.

Lemma waiting_call_answered_witness :
  exists c c', run decode_i32_body crossing connection_new = Some c /\ run decode_i32_body [LDispatch; LWake 0] c = Some c' /\
    call_phase <$> calls c' !! 0%nat = Some (Finished (inr 10)).
Proof.
  destruct (run decode_i32_body crossing connection_new) as [c|] eqn:E; [|exfalso; vm_compute in E; discriminate].
  destruct (calls c !! 0%nat) as [call|] eqn:Hk; [|exfalso; vm_compute in E; injection E as <-; vm_compute in Hk; discriminate].
  assert (zlen (calls c) <= 2 ^ 32 /\ call_kind call = SerialCall /\ call_phase call = Requested /\ dispatcher c = DispWaiting /\
    inbound c = [frame_of (0%nat, be_split 4 10); frame_of (1%nat, be_split 4 21)] /\
    item_of decode_i32_body (call_header call) (Some (be_split 4 10)) = inr 10) as (Hfew & Ek & Hp & Hd & Hi & Hres).
  { vm_compute in E. injection E as <-. vm_compute in Hk. injection Hk as <-. by split_and!. }
  destruct (waiting_call_answered decode_i32_body crossing c 0 call (be_split 4 10) _ E Hfew Hk Ek Hp Hd Hi) as (c' & E' & Hph & _).
  exists c, c'. split; [done|]. split; [exact E'|]. by rewrite Hph, Hres.
Defined.

(** An answer that is in the caller's hands is taken away again: if the
    connection breaks after the dispatcher filled the slot and before the caller
    runs, the caller reports a closed connection. *)
Theorem response_lost_on_close :
  let labels := [LNew example_header SerialCall; LRegister 0; LListen 0; LRequest 0; LAnswer 0 (be_split 4 10); LDispatch;
                 LBroken; LCloseOne 0; LCloseEnd; LWake 0] in
  exists c, run decode_i32_body labels connection_new = Some c /\ answered c = [(0%nat, be_split 4 10)] /\ inbound c = [] /\
    call_phase <$> calls c !! 0%nat = Some (Finished (inl ErrClosed)).
Proof. eexists. split; [vm_compute; reflexivity|done]. Qed.

(** A caller that is between registering and listening when the connection
    breaks is not woken. *)
Theorem close_not_noticed :
  let labels := [LNew example_header SerialCall; LRegister 0; LBroken; LCloseOne 0; LCloseEnd; LListen 0; LRequest 0] in
  exists c, run decode_i32_body labels connection_new = Some c /\ step decode_i32_body (LWake 0) c = None /\ dispatcher c = DispEnded.
Proof. eexists. split; [vm_compute; reflexivity|done]. Qed.

(** ** Versions *)

(* src/crates/fluvio-protocol/src/link/versions.rs:46-50 ApiVersionKey *)
Record ApiVersionKey := MkApiVersionKey { avk_api_key : Z; avk_min_version : Z; avk_max_version : Z }.

(* src/crates/fluvio-socket/src/versioned.rs:216-229 Versions::lookup_version *)
Fixpoint lookup_version {R P} (api : RequestApi R P) (api_versions : list ApiVersionKey) : option Z :=
  match api_versions with
  | [] => None
  | version :: api_versions =>
      if (avk_api_key version =? as_i16 (API_KEY api)) && (MIN_API_VERSION api <=? avk_max_version version)
         && (avk_min_version version <=? MAX_API_VERSION api)
      then Some (Z.min (MAX_API_VERSION api) (avk_max_version version))
      else lookup_version api api_versions
  end.
(* src/crates/fluvio-socket/src/versioned.rs:351-364 VersionedSerialSocket::new_request *)
Definition versioned_request {R P} (api : RequestApi R P) (client : string) (request : R) (version : option Z) : RequestMessage R :=
  let req_msg := new_request api request in
  let header := set_client_id client (rm_header req_msg) in
  MkRequestMessage (match version with Some ver => set_api_version ver header | None => header end) (rm_request req_msg).

(** The version of a request.  If the server lists a range of versions for
    the API that meets the client's, the request gets the largest version that
    both support; if it does not, the request is sent with the client's default
    version, which no listed range contains when the default is the largest. *)
Theorem version_negotiated {R P} (api : RequestApi R P) (versions : list ApiVersionKey) (client : string) (request : R) :
  MIN_API_VERSION api <= MAX_API_VERSION api -> Forall (fun k => avk_min_version k <= avk_max_version k) versions ->
  let common k v := avk_api_key k = as_i16 (API_KEY api) /\
    Z.max (MIN_API_VERSION api) (avk_min_version k) <= v <= Z.min (MAX_API_VERSION api) (avk_max_version k) in
  let v := api_version (rm_header (versioned_request api client request (lookup_version api versions))) in
  (exists k, k ∈ versions /\ common k v /\ forall v', common k v' -> v' <= v) \/
  v = DEFAULT_API_VERSION api /\ forall k v', k ∈ versions -> ~ common k v'.
Proof.
  intros Hapi Hkeys common v. unfold v, versioned_request. clear v. induction Hkeys as [|k versions Hk Hkeys IH]; cbn [lookup_version].
  { right. split; [done|]. intros k v' Hin. by apply not_elem_of_nil in Hin. }
  destruct ((avk_api_key k =? as_i16 (API_KEY api)) && (MIN_API_VERSION api <=? avk_max_version k) && (avk_min_version k <=? MAX_API_VERSION api)) eqn:Ec.
  - left. exists k. split; [by left|]. apply andb_prop in Ec as [[E1 E2]%andb_prop E3]. apply Z.eqb_eq in E1. apply Z.leb_le in E2, E3. cbn.
    unfold common. split; [split; [done|lia]|]. intros v' [_ Hv]. lia.
  - destruct IH as [(k' & Hin & Hc & Hmax)|[Ev Hno]]; [left; exists k'; split; [by right|done]|]. right. split; [done|].
    intros k' v' [->|Hin]%elem_of_cons [E1 Hv]; [|by apply (Hno k' v' Hin)]. rewrite E1, Z.eqb_refl in Ec. cbn in Ec.
    apply andb_false_iff in Ec as [Ec|Ec]; apply Z.leb_gt in Ec; lia.
Qed.

Lemma version_negotiated_witness :
  let api := MkRequestApi 1000 9 6 9 codec_string codec_i32 in
  api_version (rm_header (versioned_request api "fluvio" "x" (lookup_version api [MkApiVersionKey 18 0 3; MkApiVersionKey 1000 5 10]))) = 9.
Proof.
  destruct (version_negotiated (MkRequestApi 1000 9 6 9 codec_string codec_i32) [MkApiVersionKey 18 0 3; MkApiVersionKey 1000 5 10] "fluvio" "x")
    as [(k & _ & _)|[E _]]; [done|repeat constructor; cbn; lia|reflexivity|exact E].
Defined.
