(* ===== verification/Derive.v ===== *)
(** * Derived codecs

    The [Encoder] and [Decoder] implementations that the macros of
    [fluvio-protocol-derive] generate: for a struct, its fields in order, each
    guarded by the versions it exists in; for an enum, the tag of the variant
    and its fields.  A struct is described by its fields, an enum by its
    variants, and the generated code by a function of the description. *)

From S2P Require Import Prelude Wire Varint Utf8 Scalars Collections.
From stdpp Require Import list.

#[local] Open Scope Z_scope.

(** ** Structs *)

(** A field of the struct [S]: its type and codec (that of [varint]s for a
    [#[varint]] field), how it is read and assigned, and its attributes. *)
(* src/crates/fluvio-protocol-derive/src/ast/prop.rs:7-11 NamedProp *)
Record Field (S : Type) := MkField {
  field_type : Type;
  field_codec : Codec field_type;
  field_get : S -> field_type;
  field_set : field_type -> S -> S;
  attr_varint : bool;
  min_version : Z;
  max_version : option Z;
}.
Arguments MkField {S}.
Arguments field_type {S}.
Arguments field_codec {S}.
Arguments field_get {S}.
Arguments field_set {S}.
Arguments attr_varint {S}.
Arguments min_version {S}.
Arguments max_version {S}.

(** A field without attributes, and one that came with a version. *)
Definition plain {S A} (c : Codec A) (get : S -> A) (set : A -> S -> S) : Field S :=
  MkField A c get set false 0 None.
Definition since {S A} (min : Z) (c : Codec A) (get : S -> A) (set : A -> S -> S) : Field S :=
  MkField A c get set false min None.

Section struct.
Context {S : Type}.
Implicit Types (f : Field S) (fs : list (Field S)) (s : S).

(** The guard around the code of a field; a [varint] field has none. *)
(* src/crates/fluvio-protocol-derive/src/ast/prop.rs:51-92 NamedProp::version_check_token_stream *)
Definition version_check f (version : Z) : bool :=
  attr_varint f ||
  match max_version f with
  | Some max => (min_version f <=? version) && (version <=? max)
  | None => min_version f <=? version
  end.

(* src/crates/fluvio-protocol-derive/src/ser.rs:102-148 parse_struct_named_props_encoding *)
Fixpoint encode_fields (fs : list (Field S)) (version : Z) (self : S) : Enc :=
  match fs with
  | [] => mret tt
  | f :: fs =>
      (if version_check f version then encode (field_codec f) version (field_get f self) else mret tt) ;;
      encode_fields fs version self
  end.
(* src/crates/fluvio-protocol-derive/src/ser.rs:213-251 parse_struct_named_props_size *)
Definition write_size_fields fs (version : Z) (self : S) : Z :=
  fold_left (fun len f =>
    if version_check f version then len + write_size (field_codec f) version (field_get f self) else len) fs 0.
(* src/crates/fluvio-protocol-derive/src/de.rs:79-127 generate_struct_named_fields *)
Fixpoint decode_fields (fs : list (Field S)) (version : Z) : Dec S :=
  match fs with
  | [] => mret tt
  | f :: fs =>
      (if version_check f version
       then on_field (field_get f) (field_set f) (decode (field_codec f) version) else mret tt) ;;
      decode_fields fs version
  end.
(** [default] is the struct's [Default]. *)
(* src/crates/fluvio-protocol-derive/src/ser.rs:15-85 generate_encode_trait_impls *)
Definition derive_struct (default : S) fs : Codec S :=
  MkCodec default (write_size_fields fs) (encode_fields fs) (decode_fields fs).
End struct.

(** ** Enums *)

(** A variant of the enum [E]: its tag, the tuple of its fields, and how it is
    built and matched. *)
(* src/crates/fluvio-protocol-derive/src/ast/enum.rs:61-66 EnumProp *)
Record Variant (E : Type) := MkVariant {
  variant_tag : Z;
  variant_type : Type;
  variant_codec : Codec variant_type;
  variant_make : variant_type -> E;
  variant_match : E -> option variant_type;
}.
Arguments MkVariant {E}.
Arguments variant_tag {E}.
Arguments variant_type {E}.
Arguments variant_codec {E}.
Arguments variant_make {E}.
Arguments variant_match {E}.

(** The fields of a variant: no version is checked there. *)
Definition codec_unit : Codec unit := derive_struct tt [].
Definition codec_pair {A B} (ca : Codec A) (cb : Codec B) : Codec (A * B) :=
  derive_struct (dflt ca, dflt cb)
    [MkField A ca fst (fun a p => (a, snd p)) true 0 None; MkField B cb snd (fun b p => (fst p, b)) true 0 None].

Section enum.
Context {E : Type} (int_type : Codec Z).
Implicit Types (x : Variant E) (xs : list (Variant E)).

(** [match self], whose arms are the variants. *)
(* src/crates/fluvio-protocol-derive/src/ser.rs:292-376 parse_enum_variants_encoding *)
Fixpoint encode_variants (xs : list (Variant E)) (version : Z) (self : E) : Enc :=
  match xs with
  | [] => mret tt
  | x :: xs =>
      match variant_match x self with
      | Some fields => encode int_type version (variant_tag x) ;; encode (variant_codec x) version fields
      | None => encode_variants xs version self
      end
  end.
(* src/crates/fluvio-protocol-derive/src/ser.rs:378-478 parse_enum_variants_size *)
Fixpoint write_size_variants (xs : list (Variant E)) (version : Z) (self : E) : Z :=
  match xs with
  | [] => write_size int_type version 0
  | x :: xs =>
      match variant_match x self with
      | Some fields => write_size int_type version (variant_tag x) + write_size (variant_codec x) version fields
      | None => write_size_variants xs version self
      end
  end.
(** [match typ], whose arms are the tags. *)
Fixpoint decode_variants (xs : list (Variant E)) (version typ : Z) : Dec E :=
  match xs with
  | [] => fail InvalidData
  | x :: xs =>
      if variant_tag x =? typ then
        fields ← on_local (dflt (variant_codec x)) (decode (variant_codec x) version);
        self_put (variant_make x fields)
      else decode_variants xs version typ
  end.
(* src/crates/fluvio-protocol-derive/src/de.rs:179-282 generate_decode_enum_impl *)
Definition decode_enum xs (version : Z) : Dec E :=
  typ ← on_local 0 (decode int_type version);
  decode_variants xs version typ.
Definition derive_enum (default : E) xs : Codec E :=
  MkCodec default (write_size_variants xs) (encode_variants xs) (decode_enum xs).
End enum.

(** The codec of a [u8] as an element of a [Vec<u8>]. *)
(* src/crates/fluvio-protocol/src/core/encoder.rs:196-214 impl Encoder for u8 *)
Definition codec_byte : Codec byte :=
  MkCodec Byte.x00 (fun v b => write_size codec_u8 v (byte.unsigned b)) (fun v b => encode codec_u8 v (byte.unsigned b))
    (fun v => z ← on_local 0 (decode codec_u8 v); self_put (byte.of_Z z)).
Definition codec_bytes : Codec (list byte) := codec_vec codec_byte.

(** ** Laws of derived structs *)

(** What decoding a struct encoded at a version gives: the fields that exist in
    that version, and the default of the others. *)
Fixpoint rebuild {S} (fs : list (Field S)) (version : Z) (s a : S) : S :=
  match fs with
  | [] => s
  | f :: fs => rebuild fs version (if version_check f version then field_set f (field_get f a) s else s) a
  end.

(** When the decoder comes to a field, it still has its default. *)
Fixpoint fields_fresh {S} (fs : list (Field S)) (version : Z) (s a : S) : Prop :=
  match fs with
  | [] => True
  | f :: fs =>
      field_get f s = dflt (field_codec f) /\
      fields_fresh fs version (if version_check f version then field_set f (field_get f a) s else s) a
  end.
Class DeriveFresh {S} (default : S) (fs : list (Field S)) := derive_fresh (v : Z) (a : S) : fields_fresh fs v default a.

(** The codecs of the fields that a version has keep the laws. *)
Class FieldsOK {S} (fs : list (Field S)) := {
  fields_valid : Z -> S -> Prop;
  fields_wire : Z -> S -> list byte;
  fields_emits v a : fields_valid v a -> emits (encode_fields fs v a) (fields_wire v a);
  fields_size v a : fields_valid v a -> zlen (fields_wire v a) = write_size_fields fs v a;
  fields_reads v s a : fields_valid v a -> fields_fresh fs v s a ->
    reads (decode_fields fs v) s (fields_wire v a) (rebuild fs v s a);
}.
Arguments fields_valid {S} fs {_}.
Arguments fields_wire {S} fs {_}.

Lemma write_size_fields_cons {S} (f : Field S) fs v a :
  write_size_fields (f :: fs) v a =
    (if version_check f v then write_size (field_codec f) v (field_get f a) else 0) + write_size_fields fs v a.
Proof.
  unfold write_size_fields. cbn [fold_left].
  set (g := fun len f => _). assert (forall n, fold_left g fs n = n + fold_left g fs 0) as E.
  { induction fs as [|h fs IH]; intros n; cbn [fold_left]; [lia|]. rewrite IH, (IH (g 0 h)). unfold g.
    destruct (version_check h v); lia. }
  rewrite E. unfold g. destruct (version_check f v); lia.
Qed.

#[local] Obligation Tactic := idtac.

#[export] Program Instance fields_nil_ok {S} : FieldsOK (@nil (Field S)) := {|
  fields_valid _ _ := True; fields_wire _ _ := [] |}.
Next Obligation. intros S v a _. apply emits_ret. Qed.
Next Obligation. intros S v a _. done. Qed.
Next Obligation. intros S v s a _ _. apply reads_ret. Qed.

#[export] Program Instance fields_cons_ok {S} (f : Field S) fs `{!CodecOK (field_codec f)} `{!FieldsOK fs} :
    FieldsOK (f :: fs) := {|
  fields_valid v a := (version_check f v = true -> valid (field_codec f) v (field_get f a)) /\ fields_valid fs v a;
  fields_wire v a := (if version_check f v then wire (field_codec f) v (field_get f a) else []) ++ fields_wire fs v a |}.
Next Obligation.
  intros S f fs ? ? v a [Hf Hfs]. cbn [encode_fields]. apply emits_seq; [|by apply fields_emits].
  destruct (version_check f v); [by apply encode_emits, Hf|apply emits_ret].
Qed.
Next Obligation.
  intros S f fs ? ? v a [Hf Hfs]. rewrite write_size_fields_cons, zlen_app, fields_size by done. f_equal.
  destruct (version_check f v); [by apply wire_size, Hf|done].
Qed.
Next Obligation.
  intros S f fs ? ? v s a [Hf Hfs] [E Hr]. cbn [decode_fields rebuild]. eapply reads_seq; [|by apply fields_reads].
  destruct (version_check f v); [|apply reads_ret]. apply reads_field. rewrite E. by apply decode_reads, Hf.
Qed.

(** A derived codec keeps the laws on the values that have the default in every
    field their version does not have. *)
#[export] Program Instance derive_struct_ok {S} (default : S) fs `{!FieldsOK fs} `{!DeriveFresh default fs} :
    CodecOK (derive_struct default fs) := {|
  valid v a := fields_valid fs v a /\ rebuild fs v default a = a;
  wire v a := fields_wire fs v a |}.
Next Obligation. intros S d fs ? ? v a [Hv _]. by apply fields_emits. Qed.
Next Obligation. intros S d fs ? ? v a [Hv _]. by apply fields_size. Qed.
Next Obligation.
  intros S d fs ? ? v a [Hv E]. pose proof (fields_reads v d a Hv (derive_fresh v a)) as Hr. by rewrite E in Hr.
Qed.

Ltac solve_fresh := intros v a; repeat split.

#[export] Instance codec_unit_fresh : DeriveFresh tt [].
Proof. done. Qed.
#[export] Instance codec_unit_ok : CodecOK codec_unit := derive_struct_ok tt [].

#[export] Program Instance codec_pair_ok {A B} (ca : Codec A) (cb : Codec B) `{!CodecOK ca} `{!CodecOK cb} :
    CodecOK (codec_pair ca cb) := {|
  valid v p := valid ca v (fst p) /\ valid cb v (snd p);
  wire v p := wire ca v (fst p) ++ wire cb v (snd p) |}.
Next Obligation.
  intros A B ca cb ? ? v p [Ha Hb]. apply emits_seq; [by apply encode_emits|].
  rewrite <-(app_nil_r (wire cb v _)). apply emits_seq; [by apply encode_emits|apply emits_ret].
Qed.
Next Obligation.
  intros A B ca cb ? ? v p [Ha Hb]. cbn. rewrite zlen_app, !wire_size by done. done.
Qed.
Next Obligation.
  intros A B ca cb ? ? v [a b] [Ha Hb]. cbn [fst snd] in *.
  eapply reads_seq; [eapply reads_field_to; [reflexivity|]; by apply (decode_reads ca)|].
  rewrite <-(app_nil_r (wire cb v b)). eapply reads_seq; [|apply reads_ret].
  eapply reads_field_to; [|by apply (decode_reads cb)]. done.
Qed.

(** A value is decoded to the fields its version has. *)
Lemma derive_struct_decode {S} (default : S) (fs : list (Field S)) `{!FieldsOK fs} `{!DeriveFresh default fs}
    (v : Z) (a : S) (rest : list byte) :
  let c := derive_struct default fs in
  fields_valid fs v a -> write_size c v a + zlen rest <= isize_max ->
  exists bs, as_bytes c v a = Ok bs /\ zlen bs = write_size c v a /\
    decode_from c v (bs ++ rest) = (Ok (rebuild fs v default a), rest).
Proof.
  intros c Hv Hl. pose proof (zlen_nonneg rest). exists (fields_wire fs v a).
  assert (zlen (fields_wire fs v a) = write_size c v a) as Es by (by apply fields_size).
  split; [|split; [done|]].
  - unfold as_bytes. cbn [encode c derive_struct]. rewrite (fields_emits v a Hv vec_new) by (cbn; lia). done.
  - unfold decode_from. cbn [decode c derive_struct dflt].
    rewrite (fields_reads v default a Hv (derive_fresh v a)) by (rewrite zlen_app; lia). done.
Qed.

(** C34: what the derive macros generate for a struct round-trips at every
    version.  Whatever the fields and their [min_version] and [max_version],
    a value encoded at a version takes [write_size] bytes, and decoding them at
    that version gives the fields this version has, and the default for every
    other, and leaves what follows. *)
Theorem derive_roundtrip {S} (default : S) (fs : list (Field S)) `{!FieldsOK fs} `{!DeriveFresh default fs}
    (v : Z) (a : S) (rest : list byte) :
  let c := derive_struct default fs in
  fields_valid fs v a -> write_size c v a + zlen rest <= isize_max ->
  exists bs, as_bytes c v a = Ok bs /\ zlen bs = write_size c v a /\
    decode_from c v (bs ++ rest) = (Ok (rebuild fs v default a), rest).
Proof. exact (derive_struct_decode default fs v a rest). Qed.

(** ** Laws of derived enums *)

(** The tags are different, in range, and a variant is rebuilt from its fields. *)
Definition tags_distinct {E} (xs : list (Variant E)) : Prop := NoDup (map variant_tag xs).
Definition variants_match {E} (xs : list (Variant E)) : Prop :=
  Forall (fun x => forall e fields, variant_match x e = Some fields -> variant_make x fields = e) xs.
Class DeriveEnum {E} (xs : list (Variant E)) := {
  enum_tags : tags_distinct xs;
  enum_match : variants_match xs;
}.

Class VariantsOK {E} (xs : list (Variant E)) := {
  variant_valid : (Z -> Prop) -> Z -> E -> Prop;
  variant_wire : (Z -> list byte) -> Z -> E -> list byte;
  variant_laws (int_type : Codec Z) `{!CodecOK int_type} v e :
    variant_valid (valid int_type v) v e ->
    emits (encode_variants int_type xs v e) (variant_wire (wire int_type v) v e) /\
    zlen (variant_wire (wire int_type v) v e) = write_size_variants int_type xs v e;
  variant_found (P : Z -> Prop) (w : Z -> list byte) v e :
    variant_valid P v e -> variants_match xs ->
    exists tag body, P tag /\ variant_wire w v e = w tag ++ body /\ In tag (map variant_tag xs) /\
      (tags_distinct xs -> forall init, reads (decode_variants xs v tag) init body e);
}.
Arguments variant_valid {E} xs {_}.
Arguments variant_wire {E} xs {_}.

#[export] Program Instance variants_nil_ok {E} : VariantsOK (@nil (Variant E)) := {|
  variant_valid _ _ _ := False; variant_wire _ _ _ := [] |}.
Next Obligation. intros E int ? v e []. Qed.
Next Obligation. intros E P w v e []. Qed.

#[export] Program Instance variants_cons_ok {E} (x : Variant E) xs `{!CodecOK (variant_codec x)} `{!VariantsOK xs} :
    VariantsOK (x :: xs) := {|
  variant_valid P v e :=
    match variant_match x e with
    | Some fields => P (variant_tag x) /\ valid (variant_codec x) v fields
    | None => variant_valid xs P v e
    end;
  variant_wire w v e :=
    match variant_match x e with
    | Some fields => w (variant_tag x) ++ wire (variant_codec x) v fields
    | None => variant_wire xs w v e
    end |}.
Next Obligation.
  intros E x xs ? ? int ? v e Hv. cbn [encode_variants write_size_variants]. cbv beta in *.
  destruct (variant_match x e) as [fields|] eqn:Em; [|by apply variant_laws]. destruct Hv as [Ht Hf]. split.
  - apply emits_seq; by apply encode_emits.
  - by rewrite zlen_app, !wire_size.
Qed.
Next Obligation.
  intros E x xs ? ? P w v e Hv [Hm Hms]%Forall_cons. cbv beta in *. destruct (variant_match x e) as [fields|] eqn:Em.
  - destruct Hv as [Ht Hf]. eexists _, _. split_and!; [exact Ht|done|by left|]. intros _ init. cbn [decode_variants].
    rewrite Z.eqb_refl. eapply reads_local_last; [by apply decode_reads|]. rewrite (Hm _ _ Em). by apply reads_const.
  - destruct (variant_found P w v e Hv Hms) as (tag & body & Ht & Ew & Hin & Hr). exists tag, body.
    split_and!; [done|done|by right|]. intros [Hx Hnd]%NoDup_cons init. cbn [decode_variants].
    destruct (Z.eqb_spec (variant_tag x) tag) as [<-|_]; [|by apply Hr].
    destruct Hx. by apply list_elem_of_In.
Qed.

#[export] Program Instance derive_enum_ok {E} (int_type : Codec Z) (default : E) xs
    `{!CodecOK int_type} `{!VariantsOK xs} `{!DeriveEnum xs} (dflt_0 : dflt int_type = 0) :
    CodecOK (derive_enum int_type default xs) := {|
  valid v e := variant_valid xs (valid int_type v) v e;
  wire v e := variant_wire xs (wire int_type v) v e |}.
Next Obligation. intros E int d xs ? ? ? _ v e Hv. by apply variant_laws. Qed.
Next Obligation. intros E int d xs ? ? ? _ v e Hv. by apply variant_laws. Qed.
Next Obligation.
  intros E int d xs ? ? ? E0 v e Hv. cbn [decode derive_enum dflt]. unfold decode_enum.
  destruct (variant_found _ (wire int v) v e Hv enum_match) as (tag & body & Ht & -> & _ & Hr).
  eapply reads_local; [rewrite <-E0; by apply decode_reads|]. by apply Hr, enum_tags.
Qed.

(** A tag that no variant has is invalid data. *)
Lemma decode_variants_unknown {E} (xs : list (Variant E)) v typ st :
  ~ In typ (map variant_tag xs) -> decode_variants xs v typ st = (Err InvalidData, st).
Proof.
  induction xs as [|x xs IH]; intros Hn; [done|]. cbn [decode_variants]. cbn in Hn.
  destruct (Z.eqb_spec (variant_tag x) typ); [tauto|]. apply IH. tauto.
Qed.

(** ** Bytes *)

#[export] Program Instance codec_byte_ok : CodecOK codec_byte := {|
  valid _ _ := True; wire _ b := [b] |}.
Next Obligation.
  intros v b _. apply emits_ensure; [done|]. unfold put_be.
  replace (be_split 1 (byte.unsigned b)) with [b]; [apply emits_put_slice|].
  by destruct b.
Qed.
Next Obligation. done. Qed.
Next Obligation.
  intros v b _. eapply reads_local_last with (b := byte.unsigned b).
  - pose proof (decode_reads codec_u8 v (byte.unsigned b) (byte.unsigned_range b)) as Hr.
    cbn [wire codec_u8_ok] in Hr. replace (be_split 1 (byte.unsigned b)) with [b] in Hr by (by destruct b). exact Hr.
  - rewrite byte.of_Z_unsigned. by apply reads_const.
Qed.

Lemma concat_bytes (l : list byte) v : concat (map (wire codec_byte v) l) = l.
Proof. induction l as [|b l IH]; [done|]. cbn in *. by rewrite IH. Qed.
#[export] Instance codec_bytes_ok : CodecOK codec_bytes := codec_vec_ok codec_byte.
Lemma wire_bytes v l : wire codec_bytes v l = be_split 4 (zlen l) ++ l.
Proof. change (wire codec_bytes v l) with (be_split 4 (zlen l) ++ concat (map (wire codec_byte v) l)). by rewrite concat_bytes. Qed.
Lemma valid_bytes v l : valid codec_bytes v l <-> zlen l < 2 ^ 31.
Proof.
  change (valid codec_bytes v l) with (zlen l < 2 ^ 31 /\ Forall (valid codec_byte v) l).
  split; [tauto|]. intros H. split; [done|]. by apply Forall_forall.
Qed.
