(* ===== verification/SmartModule.v ===== *)
(** * SmartModules

    The messages between the SmartModule engine and a SmartModule
    ([fluvio-smartmodule/src]), the code that [fluvio-smartmodule-derive]
    generates around the function of a user, and the engine that runs chains
    of SmartModules ([fluvio-smartengine/src/engine/wasmtime]).  The
    WebAssembly runtime is a parameter; metrics are left out. *)

From stdpp Require Import gmap strings list.
From S2P Require Import Prelude Wire Varint Utf8 Scalars Collections Records Batch.
From S2P Require Import Names ClusterTypes SpuProduce Derive.

#[local] Open Scope Z_scope.

(** ** Messages *)

#[export] Program Instance string_RustOrd : RustOrd string := {| cmp := String.compare |}.
Next Obligation. intros k k'. apply String.compare_antisym. Qed.

(* src/crates/fluvio-smartmodule/src/input.rs:58-62 Lookback *)
Record Lookback := MkLookback { lb_last : Z; lb_age : option Duration }.
(* src/crates/fluvio-smartmodule/src/input.rs:17-21 SmartModuleExtraParams *)
Record SmartModuleExtraParams := MkExtraParams {
  params_inner : list (string * string);
  params_lookback : option Lookback;
}.
(* src/crates/fluvio-smartmodule/src/input.rs:82-96 SmartModuleInput *)
Record SmartModuleInput := MkSmInput {
  in_base_offset : Z;
  in_raw_bytes : list byte;
  in_params : SmartModuleExtraParams;
  in_join_record : list byte;
  in_base_timestamp : Z;
}.
(* src/crates/fluvio-smartmodule/src/input.rs:202-207 SmartModuleAggregateInput *)
Record SmartModuleAggregateInput := MkAggregateInput { agg_in_base : SmartModuleInput; agg_in_accumulator : list byte }.
(* src/crates/fluvio-smartmodule/src/output.rs:12-17 SmartModuleOutput *)
Record SmartModuleOutput := MkSmOutput {
  successes : list Record';
  out_error : option SmartModuleTransformRuntimeError;
}.
(* src/crates/fluvio-smartmodule/src/output.rs:37-42 SmartModuleAggregateOutput *)
Record SmartModuleAggregateOutput := MkAggregateOutput { agg_out_base : SmartModuleOutput; agg_out_accumulator : list byte }.
(* src/crates/fluvio-protocol/src/link/smartmodule.rs:149-158 SmartModuleLookbackRuntimeError *)
Record SmartModuleLookbackRuntimeError := MkLookbackRuntimeError {
  lbe_hint : string;
  lbe_offset : Z;
  lbe_record_key : option RecordData;
  lbe_record_value : RecordData;
}.

Definition until {S A} (max : Z) (c : Codec A) (get : S -> A) (set : A -> S -> S) : Field S :=
  MkField A c get set false 0 (Some max).
Definition between {S A} (min max : Z) (c : Codec A) (get : S -> A) (set : A -> S -> S) : Field S :=
  MkField A c get set false min (Some max).

Definition lookback_default : Lookback := MkLookback 0 None.
Definition lookback_fields : list (Field Lookback) :=
  [plain codec_u64 lb_last (fun x s => MkLookback x (lb_age s));
   since 21 (codec_option codec_duration) lb_age (fun x s => MkLookback (lb_last s) x)].
Definition codec_lookback : Codec Lookback := derive_struct lookback_default lookback_fields.

Definition params_default : SmartModuleExtraParams := MkExtraParams [] None.
Definition params_fields : list (Field SmartModuleExtraParams) :=
  [plain (codec_btree codec_string codec_string) params_inner (fun x s => MkExtraParams x (params_lookback s));
   since 20 (codec_option codec_lookback) params_lookback (fun x s => MkExtraParams (params_inner s) x)].
Definition codec_params : Codec SmartModuleExtraParams := derive_struct params_default params_fields.

Definition input_default : SmartModuleInput := MkSmInput 0 [] params_default [] 0.
Definition input_fields : list (Field SmartModuleInput) :=
  [plain codec_i64 in_base_offset
     (fun x s => MkSmInput x (in_raw_bytes s) (in_params s) (in_join_record s) (in_base_timestamp s));
   plain codec_bytes in_raw_bytes
     (fun x s => MkSmInput (in_base_offset s) x (in_params s) (in_join_record s) (in_base_timestamp s));
   until 22 codec_params in_params
     (fun x s => MkSmInput (in_base_offset s) (in_raw_bytes s) x (in_join_record s) (in_base_timestamp s));
   between 16 22 codec_bytes in_join_record
     (fun x s => MkSmInput (in_base_offset s) (in_raw_bytes s) (in_params s) x (in_base_timestamp s));
   since 22 codec_i64 in_base_timestamp
     (fun x s => MkSmInput (in_base_offset s) (in_raw_bytes s) (in_params s) (in_join_record s) x)].
Definition codec_sm_input : Codec SmartModuleInput := derive_struct input_default input_fields.

Definition aggregate_input_default : SmartModuleAggregateInput := MkAggregateInput input_default [].
Definition aggregate_input_fields : list (Field SmartModuleAggregateInput) :=
  [plain codec_sm_input agg_in_base (fun x s => MkAggregateInput x (agg_in_accumulator s));
   plain codec_bytes agg_in_accumulator (fun x s => MkAggregateInput (agg_in_base s) x)].
Definition codec_aggregate_input : Codec SmartModuleAggregateInput :=
  derive_struct aggregate_input_default aggregate_input_fields.

Definition kind_variant (tag : Z) (kind : SmartModuleKind) (is_kind : SmartModuleKind -> bool) : Variant SmartModuleKind :=
  MkVariant tag unit codec_unit (fun _ => kind) (fun k => if is_kind k then Some tt else None).
Definition kind_variants : list (Variant SmartModuleKind) :=
  [kind_variant 0 SmFilter (fun k => match k with SmFilter => true | _ => false end);
   kind_variant 1 SmMap (fun k => match k with SmMap => true | _ => false end);
   kind_variant 2 SmArrayMap (fun k => match k with SmArrayMap => true | _ => false end);
   kind_variant 3 SmAggregate (fun k => match k with SmAggregate => true | _ => false end);
   kind_variant 4 SmFilterMap (fun k => match k with SmFilterMap => true | _ => false end);
   kind_variant 5 SmJoin (fun k => match k with SmJoin => true | _ => false end);
   kind_variant 6 SmGeneric (fun k => match k with SmGeneric => true | _ => false end)].
Definition codec_kind : Codec SmartModuleKind := derive_enum codec_u8 SmFilter kind_variants.

Definition runtime_error_default : SmartModuleTransformRuntimeError :=
  MkTransformRuntimeError EmptyString 0 SmFilter None [].
Definition runtime_error_fields : list (Field SmartModuleTransformRuntimeError) :=
  [plain codec_string sm_hint
     (fun x s => MkTransformRuntimeError x (sm_offset s) (sm_kind s) (sm_record_key s) (sm_record_value s));
   plain codec_i64 sm_offset
     (fun x s => MkTransformRuntimeError (sm_hint s) x (sm_kind s) (sm_record_key s) (sm_record_value s));
   plain codec_kind sm_kind
     (fun x s => MkTransformRuntimeError (sm_hint s) (sm_offset s) x (sm_record_key s) (sm_record_value s));
   plain (codec_option codec_record_data) sm_record_key
     (fun x s => MkTransformRuntimeError (sm_hint s) (sm_offset s) (sm_kind s) x (sm_record_value s));
   plain codec_record_data sm_record_value
     (fun x s => MkTransformRuntimeError (sm_hint s) (sm_offset s) (sm_kind s) (sm_record_key s) x)].
Definition codec_runtime_error : Codec SmartModuleTransformRuntimeError :=
  derive_struct runtime_error_default runtime_error_fields.

Definition output_default : SmartModuleOutput := MkSmOutput [] None.
Definition output_fields : list (Field SmartModuleOutput) :=
  [plain codec_memory successes (fun x s => MkSmOutput x (out_error s));
   plain (codec_option codec_runtime_error) out_error (fun x s => MkSmOutput (successes s) x)].
Definition codec_sm_output : Codec SmartModuleOutput := derive_struct output_default output_fields.

Definition aggregate_output_default : SmartModuleAggregateOutput := MkAggregateOutput output_default [].
Definition aggregate_output_fields : list (Field SmartModuleAggregateOutput) :=
  [plain codec_sm_output agg_out_base (fun x s => MkAggregateOutput x (agg_out_accumulator s));
   since 16 codec_bytes agg_out_accumulator (fun x s => MkAggregateOutput (agg_out_base s) x)].
Definition codec_aggregate_output : Codec SmartModuleAggregateOutput :=
  derive_struct aggregate_output_default aggregate_output_fields.

Definition lookback_error_default : SmartModuleLookbackRuntimeError := MkLookbackRuntimeError EmptyString 0 None [].
Definition lookback_error_fields : list (Field SmartModuleLookbackRuntimeError) :=
  [plain codec_string lbe_hint
     (fun x s => MkLookbackRuntimeError x (lbe_offset s) (lbe_record_key s) (lbe_record_value s));
   plain codec_i64 lbe_offset
     (fun x s => MkLookbackRuntimeError (lbe_hint s) x (lbe_record_key s) (lbe_record_value s));
   plain (codec_option codec_record_data) lbe_record_key
     (fun x s => MkLookbackRuntimeError (lbe_hint s) (lbe_offset s) x (lbe_record_value s));
   plain codec_record_data lbe_record_value
     (fun x s => MkLookbackRuntimeError (lbe_hint s) (lbe_offset s) (lbe_record_key s) x)].
Definition codec_lookback_error : Codec SmartModuleLookbackRuntimeError :=
  derive_struct lookback_error_default lookback_error_fields.

(** ** The code generated around the function of a user *)

(* src/crates/fluvio-smartmodule/src/lib.rs:50-54 SmartModuleRecord *)
Record SmartModuleRecord := MkSmRecord { inner_record : Record'; sr_base_offset : Z; sr_base_timestamp : Z }.
(* src/crates/fluvio-smartmodule/src/lib.rs:69-71 SmartModuleRecord::timestamp *)
Definition sr_timestamp (self : SmartModuleRecord) : Z :=
  as_i64 (sr_base_timestamp self + timestamp_delta (preamble (inner_record self))).
(* src/crates/fluvio-smartmodule/src/lib.rs:73-75 SmartModuleRecord::offset *)
Definition sr_offset (self : SmartModuleRecord) : Z :=
  as_i64 (sr_base_offset self + offset_delta (preamble (inner_record self))).

(* src/crates/fluvio-smartmodule/src/error.rs:17-31 SmartModuleTransformErrorStatus *)
Inductive SmartModuleTransformErrorStatus :=
| TransformUnknownError | DecodingBaseInput | DecodingRecords | EncodingOutput | ParsingExtraParams | UndefinedRightRecord.
Definition transform_status (s : SmartModuleTransformErrorStatus) : Z :=
  match s with
  | TransformUnknownError => -1 | DecodingBaseInput => -11 | DecodingRecords => -22 | EncodingOutput => -33
  | ParsingExtraParams => -44 | UndefinedRightRecord => -55
  end.
(** [try_from(status).unwrap_or(UnknownError)] *)
Definition transform_status_of (code : Z) : SmartModuleTransformErrorStatus :=
  if code =? -11 then DecodingBaseInput else if code =? -22 then DecodingRecords
  else if code =? -33 then EncodingOutput else if code =? -44 then ParsingExtraParams
  else if code =? -55 then UndefinedRightRecord else TransformUnknownError.
(* src/crates/fluvio-smartmodule/src/error.rs:37-47 SmartModuleInitErrorStatus *)
Inductive SmartModuleInitErrorStatus := InitUnknownError | InitError | InitDecodingInput | InitEncodingOutput.
Definition init_status (s : SmartModuleInitErrorStatus) : Z :=
  match s with InitUnknownError => -1 | InitError => -2 | InitDecodingInput => -10 | InitEncodingOutput => -11 end.
Definition init_status_of (code : Z) : SmartModuleInitErrorStatus :=
  if code =? -2 then InitError else if code =? -10 then InitDecodingInput
  else if code =? -11 then InitEncodingOutput else InitUnknownError.
(* src/crates/fluvio-smartmodule/src/error.rs:60-72 SmartModuleLookbackErrorStatus *)
Inductive SmartModuleLookbackErrorStatus :=
| LookbackUnknownError | LookbackDecodingBaseInput | LookbackDecodingRecords | LookbackEncodingOutput | PropagatedError.
Definition lookback_status (s : SmartModuleLookbackErrorStatus) : Z :=
  match s with
  | LookbackUnknownError => -1 | LookbackDecodingBaseInput => -66 | LookbackDecodingRecords => -77
  | LookbackEncodingOutput => -88 | PropagatedError => -99
  end.
Definition lookback_status_of (code : Z) : SmartModuleLookbackErrorStatus :=
  if code =? -66 then LookbackDecodingBaseInput else if code =? -77 then LookbackDecodingRecords
  else if code =? -88 then LookbackEncodingOutput else if code =? -99 then PropagatedError else LookbackUnknownError.

(* src/crates/fluvio-protocol/src/link/smartmodule.rs:26-43 SmartModuleTransformRuntimeError::new *)
Definition transform_error_new (record : Record') (base_offset : Z) (kind : SmartModuleKind) (hint : string)
    : SmartModuleTransformRuntimeError :=
  MkTransformRuntimeError hint (as_i64 (base_offset + offset_delta (preamble record))) kind (key record) (value record).
(* src/crates/fluvio-protocol/src/link/smartmodule.rs:161-172 SmartModuleLookbackRuntimeError::new *)
Definition lookback_error_new (record : Record') (base_offset : Z) (hint : string) : SmartModuleLookbackRuntimeError :=
  MkLookbackRuntimeError hint (as_i64 (base_offset + offset_delta (preamble record))) (key record) (value record).

(* src/crates/fluvio-smartmodule/src/input.rs:140-142 SmartModuleInput::try_into_records *)
Definition try_into_records (version : Z) (self : SmartModuleInput) : res (list Record') :=
  fst (decode_from codec_memory version (in_raw_bytes self)).
(* src/crates/fluvio-smartmodule/src/input.rs:147-168 SmartModuleInput::try_into_smartmodule_records *)
Definition try_into_smartmodule_records (version : Z) (self : SmartModuleInput) : res (list SmartModuleRecord) :=
  match try_into_records version self with
  | Ok records => Ok (map (fun r => MkSmRecord r (in_base_offset self) (in_base_timestamp self)) records)
  | Err k => Err k
  | Panic => Panic
  end.
(* src/crates/fluvio-smartmodule/src/input.rs:99-106 SmartModuleInput::new *)
Definition input_new (raw_bytes : list byte) (base_offset base_timestamp : Z) : SmartModuleInput :=
  MkSmInput base_offset raw_bytes params_default [] base_timestamp.
(* src/crates/fluvio-smartmodule/src/input.rs:172-184 SmartModuleInput::try_from_records *)
Definition try_from_records (records : list Record') (version : Z) : res SmartModuleInput :=
  match as_bytes codec_memory version records with
  | Ok raw_bytes => Ok (input_new raw_bytes 0 0)
  | Err k => Err k
  | Panic => Panic
  end.

(** A function exported by a module: what it returns, and what it passed to
    [copy_records].  A panic of the code is a trap of the runtime. *)
Notation GuestFn U := (list byte -> Z -> ME unit U (Z * option (list byte))).

(** [U] is the state of the user's code. *)
Section guest.
Context {U : Type}.

(** The body of the loop over the records, as a function of the user's: the
    records it adds to the output, or the message of an error. *)
Notation RecordStep := (SmartModuleRecord -> ME string U (list Record')).

(* src/crates/fluvio-smartmodule-derive/src/generator/filter.rs:8-43 generate_filter_smartmodule *)
Definition filter_step (user_fn : SmartModuleRecord -> ME string U bool) : RecordStep := fun record =>
  value ← user_fn record;
  mret (if value : bool then [inner_record record] else []).
(* src/crates/fluvio-smartmodule-derive/src/generator/map.rs:8-42 generate_map_smartmodule *)
Definition map_step (user_fn : SmartModuleRecord -> ME string U (option RecordData * RecordData)) : RecordStep := fun record =>
  '(maybe_key, value) ← user_fn record;
  mret [set_value value (set_key maybe_key (inner_record record))].
(* src/crates/fluvio-smartmodule-derive/src/generator/filter_map.rs:8-44 generate_filter_map_smartmodule *)
Definition filter_map_step (user_fn : SmartModuleRecord -> ME string U (option (option RecordData * RecordData)))
    : RecordStep := fun record =>
  result ← user_fn record;
  mret match result with
  | Some (maybe_key, value) => [set_value value (set_key maybe_key (inner_record record))]
  | None => []
  end.
(* src/crates/fluvio-smartmodule-derive/src/generator/array_map.rs:8-45 generate_array_map_smartmodule *)
Definition array_map_step (user_fn : SmartModuleRecord -> ME string U (list (option RecordData * RecordData)))
    : RecordStep := fun record =>
  output_records ← user_fn record;
  mret (map (fun '(output_key, output_value) =>
    record_new_key_value (match output_key with Some k => Key k | None => KeyNull end) output_value) output_records).

(** [for mut record in records.into_iter()], which ends at the first error. *)
Fixpoint transform_records (kind : SmartModuleKind) (step : RecordStep) (base_offset : Z)
    (records : list SmartModuleRecord) (out : list Record') : ME unit U SmartModuleOutput := fun u =>
  match records with
  | [] => (Ok (MkSmOutput out None), u)
  | record :: records =>
      match step record u with
      | (Ok added, u) => transform_records kind step base_offset records (out ++ added) u
      | (Err err, u) =>
          (Ok (MkSmOutput out (Some (transform_error_new (inner_record record) base_offset kind err))), u)
      | (Panic, u) => (Panic, u)
      end
  end.
(** The records are decoded as the generated code of
    [generate_records_code] does; a failure there has the same status. *)
(* src/crates/fluvio-smartmodule-derive/src/generator/transform.rs:9-65 generate_transform *)
Definition transform_guest (kind : SmartModuleKind) (step : RecordStep) : GuestFn U := fun input_data version =>
  match fst (decode_from codec_sm_input version input_data) with
  | Err _ => mret (transform_status DecodingBaseInput, None)
  | Panic => panic
  | Ok smartmodule_input =>
      match try_into_smartmodule_records version smartmodule_input with
      | Err _ => mret (transform_status DecodingBaseInput, None)
      | Panic => panic
      | Ok records =>
          output ← transform_records kind step (in_base_offset smartmodule_input) records [];
          match as_bytes codec_sm_output version output with
          | Err _ => mret (transform_status EncodingOutput, None)
          | Panic => panic
          | Ok out => mret (as_i32 (zlen (successes output)), Some out)
          end
      end
  end.

Fixpoint aggregate_records (user_fn : RecordData -> SmartModuleRecord -> ME string U RecordData) (base_offset : Z)
    (records : list SmartModuleRecord) (accumulator : list byte) (out : list Record')
    : ME unit U SmartModuleAggregateOutput := fun u =>
  match records with
  | [] => (Ok (MkAggregateOutput (MkSmOutput out None) accumulator), u)
  | record :: records =>
      match user_fn accumulator record u with
      | (Ok value, u) =>
          aggregate_records user_fn base_offset records value (out ++ [set_value value (inner_record record)]) u
      | (Err err, u) =>
          (Ok (MkAggregateOutput
             (MkSmOutput out (Some (transform_error_new (inner_record record) base_offset SmAggregate err))) accumulator), u)
      | (Panic, u) => (Panic, u)
      end
  end.
(* src/crates/fluvio-smartmodule-derive/src/generator/aggregate.rs:6-114 generate_aggregate_smartmodule *)
Definition aggregate_guest (user_fn : RecordData -> SmartModuleRecord -> ME string U RecordData) : GuestFn U :=
  fun input_data version =>
  match fst (decode_from codec_aggregate_input version input_data) with
  | Err _ => mret (transform_status DecodingBaseInput, None)
  | Panic => panic
  | Ok smartmodule_input =>
      let base := agg_in_base smartmodule_input in
      match try_into_smartmodule_records version base with
      | Err _ => mret (transform_status DecodingRecords, None)
      | Panic => panic
      | Ok records =>
          output ← aggregate_records user_fn (in_base_offset base) records (agg_in_accumulator smartmodule_input) [];
          match as_bytes codec_aggregate_output version output with
          | Err _ => mret (transform_status EncodingOutput, None)
          | Panic => panic
          | Ok out => mret (as_i32 (zlen (successes (agg_out_base output))), Some out)
          end
      end
  end.

Fixpoint look_back_records (user_fn : SmartModuleRecord -> ME string U unit) (base_offset version : Z)
    (records : list SmartModuleRecord) : ME unit U (Z * option (list byte)) := fun u =>
  match records with
  | [] => (Ok (0, None), u)
  | record :: records =>
      match user_fn record u with
      | (Ok _, u) => look_back_records user_fn base_offset version records u
      | (Err err, u) =>
          match as_bytes codec_lookback_error version (lookback_error_new (inner_record record) base_offset err) with
          | Err _ => (Ok (lookback_status LookbackEncodingOutput, None), u)
          | Panic => (Panic, u)
          | Ok out => (Ok (lookback_status PropagatedError, Some out), u)
          end
      | (Panic, u) => (Panic, u)
      end
  end.
(** The output is a struct of one field, encoded as that field. *)
(* src/crates/fluvio-smartmodule-derive/src/generator/look_back.rs:7-70 generate_look_back_smartmodule *)
Definition look_back_guest (user_fn : SmartModuleRecord -> ME string U unit) : GuestFn U := fun input_data version =>
  match fst (decode_from codec_sm_input version input_data) with
  | Err _ => mret (lookback_status LookbackDecodingBaseInput, None)
  | Panic => panic
  | Ok smartmodule_input =>
      match try_into_smartmodule_records version smartmodule_input with
      | Err _ => mret (lookback_status LookbackDecodingBaseInput, None)
      | Panic => panic
      | Ok records => look_back_records user_fn (in_base_offset smartmodule_input) version records
      end
  end.
(* src/crates/fluvio-smartmodule-derive/src/generator/init.rs:6-71 generate_init_smartmodule *)
Definition init_guest (user_fn : SmartModuleExtraParams -> ME string U unit) : GuestFn U := fun input_data version u =>
  match fst (decode_from codec_params version input_data) with
  | Err _ => (Ok (init_status InitDecodingInput, None), u)
  | Panic => (Panic, u)
  | Ok params =>
      match user_fn params u with
      | (Ok _, u) => (Ok (0, None), u)
      | (Err err, u) =>
          match as_bytes codec_string version err with
          | Err _ => (Ok (init_status InitEncodingOutput, None), u)
          | Panic => (Panic, u)
          | Ok out => (Ok (init_status InitError, Some out), u)
          end
      | (Panic, u) => (Panic, u)
      end
  end.
End guest.

(** ** The engine *)

(** A function exported under a name, with the expected type or with another. *)
Inductive Export := NoFunc | TypedFunc | MistypedFunc.

(** The WebAssembly runtime: an instance of a module, and calls of its
    exported functions with a copy of the input and a version. *)
Class Wasm (W : Type) := {
  get_func : string -> W -> Export;
  wasm_call : string -> list byte -> Z -> ME unit W (Z * option (list byte));
}.

(** The errors of the engine, [anyhow] errors in the code. *)
(* src/crates/fluvio-smartengine/src/engine/error.rs:2-13 EngineError *)
Inductive EngineError :=
| UnknownSmartModule
| EngineIo (k : ErrorKind)
| WasmError
| TransformStatus (s : SmartModuleTransformErrorStatus)
| InitStatus (s : SmartModuleInitErrorStatus)
| InitRuntime (hint : string)
| LookbackStatus (s : SmartModuleLookbackErrorStatus)
| LookbackRuntime (e : SmartModuleLookbackRuntimeError).

(* src/crates/fluvio-smartengine/src/engine/config.rs:15-21 SmartModuleInitialData *)
Inductive SmartModuleInitialData := InitialNone | InitialAggregate (accumulator : list byte).
(** [SimpleTansform] and [SmartModuleAggregate]. *)
(* src/crates/fluvio-smartengine/src/engine/wasmtime/transforms/simple_transform.rs:19-22 SimpleTansform *)
Inductive Transform := SimpleTransform (name : string) | AggregateTransform (accumulator : list byte).

(* src/crates/fluvio-smartengine/src/engine/config.rs:9-9 DEFAULT_SMARTENGINE_VERSION *)
Definition DEFAULT_SMARTENGINE_VERSION : Z := 22.

Section engine.
Context {W : Type} `{Wasm W}.

(** Without the names, which label metrics. *)
(* src/crates/fluvio-smartengine/src/engine/config.rs:31-44 SmartModuleConfig *)
Record SmartModuleConfig := MkConfig {
  conf_initial_data : SmartModuleInitialData;
  conf_params : SmartModuleExtraParams;
  conf_version : option Z;
  conf_lookback : option Lookback;
}.
(* src/crates/fluvio-smartengine/src/engine/config.rs:68-70 SmartModuleConfig::version *)
Definition config_version (self : SmartModuleConfig) : Z := default DEFAULT_SMARTENGINE_VERSION (conf_version self).

(** With the context of the instance, whose callback holds what the last call
    passed to [copy_records]. *)
(* src/crates/fluvio-smartengine/src/engine/wasmtime/instance.rs:24-30 SmartModuleInstance *)
Record SmartModuleInstance := MkInstance {
  inst_wasm : W;
  inst_params : SmartModuleExtraParams;
  inst_lookback : option Lookback;
  inst_init : bool;
  inst_look_back : bool;
  inst_transform : Transform;
  inst_version : Z;
}.
Definition set_inst_wasm w (self : SmartModuleInstance) :=
  MkInstance w (inst_params self) (inst_lookback self) (inst_init self) (inst_look_back self) (inst_transform self) (inst_version self).
Definition set_inst_transform t (self : SmartModuleInstance) :=
  MkInstance (inst_wasm self) (inst_params self) (inst_lookback self) (inst_init self) (inst_look_back self) t (inst_version self).
Notation InstM := (ME EngineError SmartModuleInstance).

(* src/crates/fluvio-smartengine/src/engine/wasmtime/instance.rs:192-208 SmartModuleInstanceContext::write_input *)
Definition write_input {E} (c : Codec E) (version : Z) (input : E) : outcome EngineError (list byte) :=
  map_err EngineIo (as_bytes c version input).
(* src/crates/fluvio-smartengine/src/engine/wasmtime/instance.rs:210-219 SmartModuleInstanceContext::read_output *)
Definition read_output {D} (c : Codec D) (version : Z) (copied : option (list byte)) : outcome EngineError D :=
  map_err EngineIo (fst (decode_from c version (default [] copied))).

(** [f.call(store, slice)] with the encoded input. *)
Definition call_wasm {E} (name : string) (c : Codec E) (input : E) : InstM (Z * option (list byte)) :=
  self ← get;
  bytes ← lift (write_input c (inst_version self) input);
  zoom inst_wasm set_inst_wasm (fun w =>
    let '(r, w) := wasm_call name bytes (inst_version self) w in
    (match r with Ok x => Ok x | _ => Err WasmError end, w)).

(* src/crates/fluvio-smartengine/src/engine/wasmtime/transforms/simple_transform.rs:55-76 SimpleTansform::process *)
Definition simple_process (name : string) (input : SmartModuleInput) : InstM SmartModuleOutput :=
  '(map_output, copied) ← call_wasm name codec_sm_input input;
  if map_output <? 0 then fail (TransformStatus (transform_status_of map_output))
  else self ← get; lift (read_output codec_sm_output (inst_version self) copied).
(* src/crates/fluvio-smartengine/src/engine/wasmtime/transforms/aggregate.rs:73-98 SmartModuleAggregate::process *)
Definition aggregate_process (accumulator : list byte) (input : SmartModuleInput) : InstM SmartModuleOutput :=
  '(aggregate_output, copied) ← call_wasm "aggregate" codec_aggregate_input (MkAggregateInput input accumulator);
  if aggregate_output <? 0 then fail (TransformStatus (transform_status_of aggregate_output))
  else
    self ← get;
    output ← lift (read_output codec_aggregate_output (inst_version self) copied);
    modify (set_inst_transform (AggregateTransform (agg_out_accumulator output))) ;;
    mret (agg_out_base output).
(* src/crates/fluvio-smartengine/src/engine/wasmtime/instance.rs:60-84 SmartModuleInstance::process *)
Definition instance_process (input : SmartModuleInput) : InstM SmartModuleOutput :=
  self ← get;
  match inst_transform self with
  | SimpleTransform name => simple_process name input
  | AggregateTransform accumulator => aggregate_process accumulator input
  end.
(* src/crates/fluvio-smartengine/src/engine/wasmtime/init.rs:42-65 SmartModuleInit::initialize *)
Definition init_initialize (params : SmartModuleExtraParams) : InstM unit :=
  '(init_output, copied) ← call_wasm "init" codec_params params;
  if init_output <? 0 then
    match init_status_of init_output with
    | InitError =>
        self ← get;
        output ← lift (read_output codec_string (inst_version self) copied);
        fail (InitRuntime output)
    | internal_error => fail (InitStatus internal_error)
    end
  else mret tt.
(* src/crates/fluvio-smartengine/src/engine/wasmtime/instance.rs:88-97 SmartModuleInstance::call_init *)
Definition call_init : InstM unit :=
  self ← get;
  if inst_init self then init_initialize (inst_params self) else mret tt.
(* src/crates/fluvio-smartengine/src/engine/wasmtime/look_back.rs:39-62 SmartModuleLookBack::call *)
Definition look_back_call (input : SmartModuleInput) : InstM unit :=
  '(output, copied) ← call_wasm "look_back" codec_sm_input input;
  if output <? 0 then
    match lookback_status_of output with
    | PropagatedError =>
        self ← get;
        output ← lift (read_output codec_lookback_error (inst_version self) copied);
        fail (LookbackRuntime output)
    | internal_error => fail (LookbackStatus internal_error)
    end
  else mret tt.
(* src/crates/fluvio-smartengine/src/engine/wasmtime/instance.rs:99-109 SmartModuleInstance::call_look_back *)
Definition call_look_back (input : SmartModuleInput) : InstM unit :=
  self ← get;
  if inst_look_back self then look_back_call input else mret tt.
(* src/crates/fluvio-smartengine/src/engine/wasmtime/instance.rs:111-114 SmartModuleInstance::lookback *)
Definition instance_lookback (self : SmartModuleInstance) : option Lookback :=
  if inst_look_back self then inst_lookback self else None.

(** [try_instantiate]: whether the module has the function; another type of
    function is an error. *)
Definition try_instantiate (name : string) (w : W) : outcome EngineError bool :=
  match get_func name w with NoFunc => Ok false | TypedFunc => Ok true | MistypedFunc => Err WasmError end.
(* src/crates/fluvio-smartengine/src/engine/wasmtime/transforms/mod.rs:24-52 create_transform *)
Definition create_transform (w : W) (initial_data : SmartModuleInitialData) : outcome EngineError Transform :=
  let or_else name found rest :=
    match try_instantiate name w with
    | Ok true => Ok found
    | Ok false => rest
    | Err e => Err e
    | Panic => Panic
    end in
  or_else "filter"%string (SimpleTransform "filter")
    (or_else "map"%string (SimpleTransform "map")
      (or_else "filter_map"%string (SimpleTransform "filter_map")
        (or_else "array_map"%string (SimpleTransform "array_map")
          (or_else "aggregate"%string
            (AggregateTransform (match initial_data with InitialAggregate a => a | InitialNone => [] end))
            (Err UnknownSmartModule))))).

(** The instances of the modules, in the order of the chain; [instantiate]
    compiles a module and makes an instance of it. *)
(* src/crates/fluvio-smartengine/src/engine/wasmtime/engine.rs:69-96 SmartModuleChainBuilder::initialize *)
Fixpoint chain_initialize (instantiate : list byte -> outcome EngineError W)
    (smart_modules : list (SmartModuleConfig * list byte)) : outcome EngineError (list SmartModuleInstance) :=
  match smart_modules with
  | [] => Ok []
  | (config, bytes) :: smart_modules =>
      match instantiate bytes with
      | Ok w =>
          match try_instantiate "init" w, try_instantiate "look_back" w, create_transform w (conf_initial_data config) with
          | Ok init, Ok look_back, Ok transform =>
              let instance := MkInstance w (conf_params config) (conf_lookback config) init look_back transform (config_version config) in
              match call_init instance with
              | (Ok _, instance) =>
                  match chain_initialize instantiate smart_modules with
                  | Ok instances => Ok (instance :: instances)
                  | r => r
                  end
              | (Err e, _) => Err e
              | (Panic, _) => Panic
              end
          | Err e, _, _ | Ok _, Err e, _ | Ok _, Ok _, Err e => Err e
          | _, _, _ => Panic
          end
      | Err e => Err e
      | Panic => Panic
      end
  end.

(** All but the last pass their records on, encoded again. *)
Fixpoint process_instances (base_offset base_timestamp : Z) (instances : list SmartModuleInstance)
    (input : SmartModuleInput) : outcome EngineError SmartModuleOutput * list SmartModuleInstance :=
  match instances with
  | [] => (Ok (MkSmOutput [] None), [])
  | [last] => let '(r, last) := instance_process input last in (r, [last])
  | instance :: instances =>
      match instance_process input instance with
      | (Ok output, instance) =>
          match out_error output with
          | Some _ => (Ok output, instance :: instances)
          | None =>
              match try_from_records (successes output) (inst_version instance) with
              | Ok next_input =>
                  let next_input := input_new (in_raw_bytes next_input) base_offset base_timestamp in
                  let '(r, instances) := process_instances base_offset base_timestamp instances next_input in
                  (r, instance :: instances)
              | Err k => (Err (EngineIo k), instance :: instances)
              | Panic => (Panic, instance :: instances)
              end
          end
      | (Err e, instance) => (Err e, instance :: instances)
      | (Panic, instance) => (Panic, instance :: instances)
      end
  end.
(* src/crates/fluvio-smartengine/src/engine/wasmtime/engine.rs:181-224 SmartModuleChainInstance::process *)
Definition chain_process (input : SmartModuleInput) : ME EngineError (list SmartModuleInstance) SmartModuleOutput :=
  fun instances =>
  match instances with
  | [] =>
      (match try_into_records DEFAULT_SMARTENGINE_VERSION input with
       | Ok records => Ok (MkSmOutput records None)
       | Err k => Err (EngineIo k)
       | Panic => Panic
       end, [])
  | _ => process_instances (in_base_offset input) (in_base_timestamp input) instances input
  end.

(** [read_fn] reads the records that a look-back asks for. *)
(* src/crates/fluvio-smartengine/src/engine/wasmtime/engine.rs:226-257 SmartModuleChainInstance::look_back *)
Fixpoint chain_look_back (read_fn : Lookback -> outcome EngineError (list Record')) (instances : list SmartModuleInstance)
    : outcome EngineError unit * list SmartModuleInstance :=
  match instances with
  | [] => (Ok tt, [])
  | instance :: instances =>
      let next '(r, instance) :=
        match r : outcome EngineError unit with
        | Ok _ => let '(r, instances) := chain_look_back read_fn instances in (r, instance :: instances)
        | r => (r, instance :: instances)
        end in
      match instance_lookback instance with
      | None => next (Ok tt, instance)
      | Some lookback =>
          next ((records ← lift (read_fn lookback);
                 input ← lift (map_err EngineIo (try_from_records records (inst_version instance)));
                 call_look_back input) instance)
      end
  end.
End engine.
Arguments SmartModuleInstance : clear implicits.
Arguments SmartModuleConfig : clear implicits.

(** ** Laws of the messages *)

#[export] Instance lookback_fresh : DeriveFresh lookback_default lookback_fields.
Proof. solve_fresh; cbn; by destruct (_ <=? _). Qed.
#[export] Instance codec_lookback_ok : CodecOK codec_lookback := derive_struct_ok _ _.
#[export] Instance params_fresh : DeriveFresh params_default params_fields.
Proof. solve_fresh; cbn; by destruct (_ <=? _). Qed.
#[export] Instance codec_params_ok : CodecOK codec_params := derive_struct_ok _ _.
#[export] Instance input_fresh : DeriveFresh input_default input_fields.
Proof. solve_fresh; cbn; repeat case_match; done. Qed.
#[export] Instance codec_sm_input_ok : CodecOK codec_sm_input := derive_struct_ok _ _.
#[export] Instance aggregate_input_fresh : DeriveFresh aggregate_input_default aggregate_input_fields.
Proof. solve_fresh; cbn; by destruct (_ <=? _). Qed.
#[export] Instance kind_enum : DeriveEnum kind_variants.
Proof.
  split; [repeat constructor; set_solver|].
  repeat constructor; intros [] fields E; by simplify_eq/=.
Qed.
#[export] Instance codec_kind_ok : CodecOK codec_kind := derive_enum_ok codec_u8 SmFilter kind_variants eq_refl.
#[export] Instance runtime_error_fresh : DeriveFresh runtime_error_default runtime_error_fields.
Proof. solve_fresh; cbn; repeat case_match; done. Qed.
#[export] Instance codec_runtime_error_ok : CodecOK codec_runtime_error := derive_struct_ok _ _.
#[export] Instance output_fresh : DeriveFresh output_default output_fields.
Proof. solve_fresh; cbn; by destruct (_ <=? _). Qed.
#[export] Instance codec_sm_output_ok : CodecOK codec_sm_output := derive_struct_ok _ _.
#[export] Instance aggregate_output_fresh : DeriveFresh aggregate_output_default aggregate_output_fields.
Proof. solve_fresh; cbn; by destruct (_ <=? _). Qed.
#[export] Instance codec_aggregate_output_ok : CodecOK codec_aggregate_output := derive_struct_ok _ _.

(** What a version carries of the base timestamp. *)
Definition seen_timestamp (v base_timestamp : Z) : Z := if 22 <=? v then base_timestamp else 0.

(** Records that fit in a message. *)
Definition records_fit (rs : list Record') : Prop := valid_memory rs /\ zlen (wire codec_memory 0 rs) < 2 ^ 31.

Lemma params_default_valid v : valid codec_params v params_default.
Proof.
  split; [split; [intros _|split; [intros _; done|done]]|by cbn; repeat case_match].
  cbn. split; [done|]. split; [constructor|done].
Qed.

Lemma input_valid v raw base ts :
  zlen raw < 2 ^ 31 -> in_i 64 base -> in_i 64 ts -> fields_valid input_fields v (input_new raw base ts).
Proof.
  intros Hr Hb Ht. split; [intros _; exact Hb|]. split; [intros _; by apply valid_bytes|].
  split; [intros _; apply params_default_valid|split; [intros _; by apply valid_bytes|split; [intros _; exact Ht|done]]].
Qed.

Lemma input_rebuild v raw base ts :
  0 <= v -> rebuild input_fields v input_default (input_new raw base ts) = input_new raw base (seen_timestamp v ts).
Proof.
  intros Hv. unfold seen_timestamp. cbn. unfold version_check. cbn.
  destruct (Z.leb_spec 0 v); [|lia]. by destruct (_ && _), (v <=? 22), (22 <=? v).
Qed.

Lemma write_size_bytes v bs : zlen bs < 2 ^ 31 -> write_size codec_bytes v bs = 4 + zlen bs.
Proof.
  intros Hb. rewrite <-(wire_size codec_bytes v bs), wire_bytes, zlen_app, zlen_be_split; [lia|by apply valid_bytes].
Qed.

Lemma input_size v raw base ts :
  zlen raw < 2 ^ 31 -> write_size codec_sm_input v (input_new raw base ts) <= 2 ^ 31 + 100.
Proof.
  intros Hr. cbn [codec_sm_input derive_struct write_size]. unfold write_size_fields. cbn [fold_left input_fields].
  cbn [plain until between since field_codec field_get input_new in_base_offset in_raw_bytes in_params in_join_record in_base_timestamp].
  rewrite !write_size_bytes by done. change (write_size codec_i64 v base) with 8. change (write_size codec_i64 v ts) with 8.
  repeat match goal with |- context [if ?b then _ else _] => destruct b end; cbn; repeat case_match; unfold zlen in *; cbn [length]; lia.
Qed.

(** What the generated code makes of an input the engine encoded. *)
Lemma input_received v raw base ts :
  0 <= v -> zlen raw < 2 ^ 31 -> in_i 64 base -> in_i 64 ts ->
  exists bs, as_bytes codec_sm_input v (input_new raw base ts) = Ok bs /\
    fst (decode_from codec_sm_input v bs) = Ok (input_new raw base (seen_timestamp v ts)).
Proof.
  intros Hv Hr Hb Ht.
  destruct (derive_struct_decode input_default input_fields v (input_new raw base ts) []) as (bs & E & _ & D).
  - by apply input_valid.
  - pose proof (input_size v raw base ts Hr) as Hs. unfold codec_sm_input in Hs. rewrite zlen_nil. unfold isize_max. lia.
  - exists bs. split; [exact E|]. rewrite app_nil_r in D. unfold codec_sm_input. rewrite D. cbn [fst]. f_equal. by apply input_rebuild.
Qed.

Lemma records_received v base ts rs :
  records_fit rs ->
  try_into_records v (input_new (wire codec_memory 0 rs) base ts) = Ok rs /\
  try_into_smartmodule_records v (input_new (wire codec_memory 0 rs) base ts) = Ok (map (fun r => MkSmRecord r base ts) rs).
Proof.
  intros [Hv Hl]. assert (try_into_records v (input_new (wire codec_memory 0 rs) base ts) = Ok rs) as E.
  { unfold try_into_records. cbn [in_raw_bytes input_new]. rewrite <-(wire_memory_version v), <-(app_nil_r (wire _ _ _)).
    rewrite (decode_from_wire codec_memory); [done|by apply valid_memory_version|].
    rewrite app_nil_r, wire_memory_version. unfold isize_max. lia. }
  split; [done|]. unfold try_into_smartmodule_records. by rewrite E.
Qed.

Lemma records_sent v rs : records_fit rs -> try_from_records rs v = Ok (input_new (wire codec_memory 0 rs) 0 0).
Proof.
  intros [Hv Hl]. unfold try_from_records. rewrite (as_bytes_wire codec_memory v rs).
  - by rewrite wire_memory_version.
  - by apply valid_memory_version.
  - rewrite <-(wire_size codec_memory v rs) by (by apply valid_memory_version). rewrite wire_memory_version. unfold isize_max. lia.
Qed.

(** ** Chains as functions on records *)

(** A SmartModule as its loop runs it: the step of the loop and its state,
    the part of the state that is the accumulator of an aggregate, and the
    version it is called with. *)
Record Running := MkRunning {
  run_state : Type;
  run_kind : SmartModuleKind;
  run_step : SmartModuleRecord -> ME string run_state (list Record');
  run_acc : run_state -> list byte;
  run_version : Z;
  run_u : run_state;
}.
Definition set_run_u (m : Running) (u : run_state m) : Running :=
  MkRunning (run_state m) (run_kind m) (run_step m) (run_acc m) (run_version m) u.

(** The records of a batch through one SmartModule, and through a chain, which
    an error ends. *)
Definition run_loop (base ts : Z) (rs : list Record') (m : Running) : outcome unit SmartModuleOutput * run_state m :=
  transform_records (run_kind m) (run_step m) base
    (map (fun r => MkSmRecord r base (seen_timestamp (run_version m) ts)) rs) [] (run_u m).
Definition run_module (base ts : Z) (rs : list Record') (m : Running) : outcome unit SmartModuleOutput * Running :=
  let '(r, u) := run_loop base ts rs m in (r, set_run_u m u).
Fixpoint run_chain (base ts : Z) (rs : list Record') (ms : list Running) : outcome unit SmartModuleOutput * list Running :=
  match ms with
  | [] => (Ok (MkSmOutput rs None), [])
  | m :: ms =>
      match run_module base ts rs m with
      | (Ok o, m) =>
          match out_error o with
          | Some _ => (Ok o, m :: ms)
          | None => let '(r, ms) := run_chain base ts (successes o) ms in (r, m :: ms)
          end
      | (r, m) => (r, m :: ms)
      end
  end.

(** Everything that is passed on the way fits in messages. *)
Definition output_fits (m : Running) (o : SmartModuleOutput) : Prop :=
  valid codec_sm_output (run_version m) o /\ records_fit (successes o) /\
  write_size codec_sm_output (run_version m) o + 2 ^ 32 <= isize_max /\ zlen (run_acc m (run_u m)) < 2 ^ 31.
Fixpoint chain_fits (base ts : Z) (rs : list Record') (ms : list Running) : Prop :=
  match ms with
  | [] => True
  | m :: ms =>
      zlen (run_acc m (run_u m)) < 2 ^ 31 /\
      match run_module base ts rs m with
      | (Ok o, m) => output_fits m o /\ (out_error o = None -> chain_fits base ts (successes o) ms)
      | _ => True
      end
  end.

(** The loop of an aggregate, with the accumulator as part of the state. *)
Definition aggregate_step {U} (user_fn : RecordData -> SmartModuleRecord -> ME string U RecordData)
    : SmartModuleRecord -> ME string (list byte * U) (list Record') := fun record '(accumulator, u) =>
  match user_fn accumulator record u with
  | (Ok value, u) => (Ok [set_value value (inner_record record)], (value, u))
  | (Err err, u) => (Err err, (accumulator, u))
  | (Panic, u) => (Panic, (accumulator, u))
  end.

Section chain.
Context {W : Type} `{Wasm W}.
Implicit Types (i : SmartModuleInstance W) (m : Running).

(** The runtime executes the generated code: [R] relates the instance to the
    state of the code. *)
Definition implements {U} (name : string) (guest : GuestFn U) (R : W -> U -> Prop) : Prop :=
  forall w u bytes v, R w u ->
  match guest bytes v u with
  | (Ok x, u') => exists w', wasm_call name bytes v w = (Ok x, w') /\ R w' u'
  | _ => exists w', wasm_call name bytes v w = (Err tt, w')
  end.

(** An instance of a module whose code runs [m]. *)
Definition executes i m : Prop :=
  inst_version i = run_version m /\ 0 <= run_version m /\
  match inst_transform i with
  | SimpleTransform name => exists R : W -> run_state m -> Prop,
      implements name (transform_guest (run_kind m) (run_step m)) R /\ R (inst_wasm i) (run_u m)
  | AggregateTransform acc => 22 <= run_version m /\
      exists U (user_fn : RecordData -> SmartModuleRecord -> ME string U RecordData) u (R : W -> U -> Prop),
        m = MkRunning (list byte * U) SmAggregate (aggregate_step user_fn) fst (run_version m) (acc, u) /\
        implements "aggregate" (aggregate_guest user_fn) R /\ R (inst_wasm i) u
  end.

Lemma output_received v o :
  valid codec_sm_output v o -> write_size codec_sm_output v o <= isize_max ->
  exists out, as_bytes codec_sm_output v o = Ok out /\ read_output codec_sm_output v (Some out) = Ok o.
Proof.
  intros Hv Hs. exists (wire codec_sm_output v o). split; [by apply (as_bytes_wire codec_sm_output)|].
  unfold read_output. cbn [from_option]. unfold id. rewrite <-(app_nil_r (wire codec_sm_output v o)).
  rewrite (decode_from_wire codec_sm_output); [done|done|]. by rewrite app_nil_r, (wire_size codec_sm_output).
Qed.

Lemma records_count rs : records_fit rs -> as_i32 (zlen rs) <? 0 = false.
Proof.
  intros [[Hn _] _]. pose proof (zlen_nonneg rs). rewrite wrap_i_id by (unfold in_i; lia). apply Z.ltb_ge. lia.
Qed.

Lemma call_wasm_runs {E} name (c : Codec E) input bytes i r w' :
  as_bytes c (inst_version i) input = Ok bytes -> wasm_call name bytes (inst_version i) (inst_wasm i) = (r, w') ->
  call_wasm name c input i = (match r with Ok x => Ok x | _ => Err WasmError end, set_inst_wasm w' i).
Proof.
  intros Eb Ew. unfold call_wasm. erewrite bind_ok by done.
  erewrite bind_ok by (unfold lift, write_input; rewrite Eb; reflexivity). unfold zoom. by rewrite Ew.
Qed.

Lemma simple_runs i m name (R : W -> run_state m -> Prop) base ts rs :
  inst_version i = run_version m -> 0 <= run_version m -> inst_transform i = SimpleTransform name ->
  implements name (transform_guest (run_kind m) (run_step m)) R -> R (inst_wasm i) (run_u m) ->
  records_fit rs -> in_i 64 base -> in_i 64 ts ->
  match run_loop base ts rs m with
  | (Ok o, u') => output_fits (set_run_u m u') o ->
      exists w', simple_process name (input_new (wire codec_memory 0 rs) base ts) i = (Ok o, set_inst_wasm w' i) /\ R w' u'
  | _ => exists w', simple_process name (input_new (wire codec_memory 0 rs) base ts) i = (Err WasmError, set_inst_wasm w' i)
  end.
Proof.
  intros Ev Hv Et Himp HR Hrs Hb Ht. set (input := input_new _ _ _).
  destruct (input_received (run_version m) (wire codec_memory 0 rs) base ts) as (bytes & Ebytes & Edec); [done|apply Hrs|done..|].
  specialize (Himp _ _ bytes (run_version m) HR). unfold run_loop.
  unfold transform_guest in Himp. rewrite Edec in Himp.
  destruct (records_received (run_version m) base (seen_timestamp (run_version m) ts) rs Hrs) as [_ Erec].
  rewrite Erec in Himp. cbn [in_base_offset input_new] in Himp.
  pose proof (call_wasm_runs name codec_sm_input input bytes i) as Ecall. rewrite Ev in Ecall.
  unfold mbind, M_bind in Himp.
  destruct (transform_records _ _ _ _ _ _) as [[o|e|] u'] eqn:Etr.
  - intros (Ho & Hfit & Hsz & _). cbn [run_version set_run_u] in *.
    destruct (output_received (run_version m) o Ho) as (out & Eout & Eread); [lia|]. rewrite Eout in Himp.
    destruct Himp as (w' & Ew & HR'). exists w'. split; [|exact HR'].
    unfold simple_process. erewrite bind_ok by (by apply (Ecall _ _ Ebytes Ew)). cbv beta iota. rewrite records_count by done.
    erewrite bind_ok by done. cbn [inst_version set_inst_wasm]. unfold lift. by rewrite Ev, Eread.
  - destruct Himp as (w' & Ew). exists w'. unfold simple_process. by erewrite bind_err by (by apply (Ecall _ _ Ebytes Ew)).
  - destruct Himp as (w' & Ew). exists w'. unfold simple_process. by erewrite bind_err by (by apply (Ecall _ _ Ebytes Ew)).
Qed.

Lemma aggregate_loop {U} (user_fn : RecordData -> SmartModuleRecord -> ME string U RecordData) base rs acc out u :
  aggregate_records user_fn base rs acc out u =
    let '(r, (acc', u')) := transform_records SmAggregate (aggregate_step user_fn) base rs out (acc, u) in
    (match r with Ok o => Ok (MkAggregateOutput o acc') | Err e => Err e | Panic => Panic end, u').
Proof.
  revert acc out u. induction rs as [|r rs IH]; intros acc out u; [done|].
  cbn [aggregate_records transform_records]. unfold aggregate_step at 1.
  destruct (user_fn acc r u) as [[v|e|] u']; [apply IH|done|done].
Qed.

Lemma aggregate_input_received v raw base ts acc :
  22 <= v -> zlen raw < 2 ^ 31 -> in_i 64 base -> in_i 64 ts -> zlen acc < 2 ^ 31 ->
  exists bs, as_bytes codec_aggregate_input v (MkAggregateInput (input_new raw base ts) acc) = Ok bs /\
    fst (decode_from codec_aggregate_input v bs) = Ok (MkAggregateInput (input_new raw base ts) acc).
Proof.
  intros Hv Hr Hb Ht Ha. set (a := MkAggregateInput _ _).
  assert (seen_timestamp v ts = ts) as Es by (unfold seen_timestamp; destruct (Z.leb_spec 22 v); [done|lia]).
  destruct (derive_struct_decode aggregate_input_default aggregate_input_fields v a []) as (bs & E & _ & D).
  - split; [intros _|split; [intros _; by apply valid_bytes|done]]. split; [by apply input_valid|].
    transitivity (input_new raw base (seen_timestamp v ts)); [apply input_rebuild; lia|by rewrite Es].
  - pose proof (input_size v raw base ts Hr) as Hs. pose proof (write_size_bytes v acc Ha) as Ew.
    change (write_size (derive_struct aggregate_input_default aggregate_input_fields) v a)
      with (write_size_fields aggregate_input_fields v a). unfold aggregate_input_fields.
    rewrite !write_size_fields_cons. change (write_size_fields [] v a) with 0.
    change (write_size (field_codec (plain codec_sm_input _ _)) v _) with (write_size codec_sm_input v (input_new raw base ts)).
    change (write_size (field_codec (plain codec_bytes _ _)) v _) with (write_size codec_bytes v acc).
    rewrite Ew. pose proof (zlen_nonneg acc). unfold isize_max. change (zlen []) with 0. repeat case_match; lia.
  - exists bs. split; [exact E|]. rewrite app_nil_r in D. unfold codec_aggregate_input. rewrite D. cbn [fst]. f_equal.
    cbn. unfold version_check. cbn. by destruct (Z.leb_spec 0 v); [|lia].
Qed.

Lemma aggregate_output_received v o acc :
  22 <= v -> valid codec_sm_output v o -> write_size codec_sm_output v o + 2 ^ 32 <= isize_max -> zlen acc < 2 ^ 31 ->
  exists out, as_bytes codec_aggregate_output v (MkAggregateOutput o acc) = Ok out /\
    read_output codec_aggregate_output v (Some out) = Ok (MkAggregateOutput o acc).
Proof.
  intros Hv Ho Hs Ha. destruct (derive_struct_decode aggregate_output_default aggregate_output_fields v (MkAggregateOutput o acc) [])
    as (bs & E & _ & D).
  - split; [intros _; exact Ho|split; [intros _; by apply valid_bytes|done]].
  - pose proof (write_size_bytes v acc Ha) as Ew. set (a := MkAggregateOutput o acc).
    change (write_size (derive_struct aggregate_output_default aggregate_output_fields) v a)
      with (write_size_fields aggregate_output_fields v a). unfold aggregate_output_fields.
    rewrite !write_size_fields_cons. change (write_size_fields [] v a) with 0.
    change (write_size (field_codec (plain codec_sm_output _ _)) v _) with (write_size codec_sm_output v o).
    change (write_size (field_codec (since 16 codec_bytes _ _)) v _) with (write_size codec_bytes v acc).
    rewrite Ew. pose proof (zlen_nonneg acc). unfold isize_max in *. change (zlen []) with 0. repeat case_match; lia.
  - exists bs. split; [exact E|]. rewrite app_nil_r in D. unfold read_output, codec_aggregate_output. cbn [from_option].
    unfold id. rewrite D. cbn [fst map_err]. f_equal. cbn. unfold version_check. cbn.
    destruct (Z.leb_spec 0 v); [|lia]. by destruct (Z.leb_spec 16 v); [|lia].
Qed.

Lemma aggregate_runs {U} i v (user_fn : RecordData -> SmartModuleRecord -> ME string U RecordData) acc u (R : W -> U -> Prop) base ts rs :
  let m := MkRunning (list byte * U) SmAggregate (aggregate_step user_fn) fst v (acc, u) in
  inst_version i = v -> 22 <= v ->
  implements "aggregate" (aggregate_guest user_fn) R -> R (inst_wasm i) u ->
  records_fit rs -> in_i 64 base -> in_i 64 ts -> zlen acc < 2 ^ 31 ->
  match run_loop base ts rs m with
  | (Ok o, (acc', u')) => output_fits (set_run_u m (acc', u')) o ->
      exists w', aggregate_process acc (input_new (wire codec_memory 0 rs) base ts) i =
        (Ok o, set_inst_transform (AggregateTransform acc') (set_inst_wasm w' i)) /\ R w' u'
  | _ => exists w', aggregate_process acc (input_new (wire codec_memory 0 rs) base ts) i = (Err WasmError, set_inst_wasm w' i)
  end.
Proof.
  intros m Ev Hv Himp HR Hrs Hb Ht Ha. set (input := input_new _ _ _).
  assert (seen_timestamp v ts = ts) as Es by (unfold seen_timestamp; destruct (Z.leb_spec 22 v); [done|lia]).
  destruct (aggregate_input_received v (wire codec_memory 0 rs) base ts acc Hv) as (bytes & Ebytes & Edec); [apply Hrs|done..|].
  specialize (Himp _ _ bytes v HR). unfold aggregate_guest in Himp. rewrite Edec in Himp.
  cbn [agg_in_base agg_in_accumulator] in Himp.
  destruct (records_received v base ts rs Hrs) as [_ Erec]. rewrite Erec in Himp. cbn [in_base_offset input_new] in Himp.
  pose proof (call_wasm_runs "aggregate" codec_aggregate_input (MkAggregateInput input acc) bytes i) as Ecall. rewrite Ev in Ecall.
  unfold mbind, M_bind in Himp. rewrite aggregate_loop in Himp.
  unfold run_loop. cbn [run_kind run_step run_version run_u m]. rewrite Es.
  destruct (transform_records _ _ _ _ _ _) as [[o|e|] [acc' u']] eqn:Etr.
  - intros (Ho & Hfit & Hsz & Hacc). cbn [run_version set_run_u run_acc run_u m fst] in *.
    destruct (aggregate_output_received v o acc' Hv Ho Hsz Hacc) as (out & Eout & Eread). rewrite Eout in Himp.
    destruct Himp as (w' & Ew & HR'). exists w'. split; [|exact HR'].
    unfold aggregate_process. erewrite bind_ok by (by apply (Ecall _ _ Ebytes Ew)). cbv beta iota.
    cbn [agg_out_base]. rewrite records_count by done.
    erewrite bind_ok by done. cbn [inst_version set_inst_wasm].
    erewrite bind_ok by (unfold lift; rewrite Ev, Eread; reflexivity). by erewrite bind_ok by done.
  - destruct Himp as (w' & Ew). exists w'. unfold aggregate_process. by erewrite bind_err by (by apply (Ecall _ _ Ebytes Ew)).
  - destruct Himp as (w' & Ew). exists w'. unfold aggregate_process. by erewrite bind_err by (by apply (Ecall _ _ Ebytes Ew)).
Qed.

(** An instance does to the records of its input what its module does. *)
Lemma module_runs i m base ts rs :
  executes i m -> records_fit rs -> in_i 64 base -> in_i 64 ts -> zlen (run_acc m (run_u m)) < 2 ^ 31 ->
  match run_module base ts rs m with
  | (Ok o, m') => output_fits m' o ->
      exists i', instance_process (input_new (wire codec_memory 0 rs) base ts) i = (Ok o, i') /\ executes i' m'
  | _ => fst (instance_process (input_new (wire codec_memory 0 rs) base ts) i) = Err WasmError
  end.
Proof.
  intros (Ev & Hv & Ht) Hrs Hb Hts Ha. unfold run_module, instance_process. erewrite bind_ok by done.
  destruct (inst_transform i) as [name|acc] eqn:Et.
  - destruct Ht as (R & Himp & HR).
    pose proof (simple_runs i m name R base ts rs Ev Hv Et Himp HR Hrs Hb Hts) as Hrun.
    destruct (run_loop base ts rs m) as [[o|e|] u'].
    + intros Hfit. destruct (Hrun Hfit) as (w' & E & HR'). eexists. split; [exact E|].
      split; [exact Ev|]. split; [exact Hv|]. cbn [inst_transform set_inst_wasm]. rewrite Et. by exists R.
    + destruct Hrun as (w' & ->). done.
    + destruct Hrun as (w' & ->). done.
  - destruct Ht as (H22 & U & user_fn & u & R & Em & Himp & HR). rewrite Em in *. cbn [run_version run_acc run_u fst] in *.
    pose proof (aggregate_runs i (run_version m) user_fn acc u R base ts rs Ev H22 Himp HR Hrs Hb Hts Ha) as Hrun.
    cbv zeta in Hrun. destruct (run_loop base ts rs _) as [[o|e|] [acc' u']].
    + intros Hfit. destruct (Hrun Hfit) as (w' & E & HR'). eexists. split; [exact E|].
      split; [exact Ev|]. split; [exact Hv|]. cbn. split; [done|]. by exists U, user_fn, u', R.
    + destruct Hrun as (w' & ->). done.
    + destruct Hrun as (w' & ->). done.
Qed.

Lemma chain_runs ins ms base ts rs :
  Forall2 executes ins ms -> ins <> [] -> records_fit rs -> in_i 64 base -> in_i 64 ts -> chain_fits base ts rs ms ->
  match run_chain base ts rs ms with
  | (Ok o, ms') => exists ins', process_instances base ts ins (input_new (wire codec_memory 0 rs) base ts) = (Ok o, ins') /\
      Forall2 executes ins' ms'
  | _ => fst (process_instances base ts ins (input_new (wire codec_memory 0 rs) base ts)) = Err WasmError
  end.
Proof.
  intros Hex. revert rs. induction Hex as [|i m ins ms Hi Hms IH]; intros rs Hne Hrs Hb Hts Hfit; [done|].
  destruct Hfit as [Ha Hfit]. pose proof (module_runs i m base ts rs Hi Hrs Hb Hts Ha) as Hrun.
  cbn [run_chain]. destruct (run_module base ts rs m) as [[o|e|] m'].
  2-3: destruct ins as [|i2 ins]; cbn [process_instances];
    destruct (instance_process _ i) as [r i'']; cbn [fst] in *; by rewrite Hrun.
  destruct Hfit as [Ho Hnext]. destruct (Hrun Ho) as (i' & Ei & Hi'). destruct ins as [|i2 ins].
  { apply Forall2_nil_inv_l in Hms as ->. cbn [process_instances run_chain]. rewrite Ei.
    destruct o as [out err]. cbn [out_error successes]. destruct err; eexists; (split; [reflexivity|by constructor]). }
  assert (process_instances base ts (i :: i2 :: ins) (input_new (wire codec_memory 0 rs) base ts) =
    match out_error o with
    | Some _ => (Ok o, i' :: i2 :: ins)
    | None => let '(r, ins') := process_instances base ts (i2 :: ins) (input_new (wire codec_memory 0 (successes o)) base ts) in
        (r, i' :: ins')
    end) as Estep.
  { cbn [process_instances]. rewrite Ei. destruct (out_error o); [done|].
    by rewrite records_sent by apply Ho. }
  rewrite Estep. clear Estep. destruct (out_error o) eqn:Eo; [eexists; split; [done|by constructor]|].
  specialize (IH (successes o) ltac:(done) (proj1 (proj2 Ho)) Hb Hts (Hnext eq_refl)).
  destruct (run_chain base ts (successes o) ms) as [[o'|e|] ms'].
  - destruct IH as (ins' & -> & Hall). eexists. split; [reflexivity|by constructor].
  - destruct (process_instances _ _ (i2 :: ins) _) as [r ins'] eqn:E'. cbn [fst] in *. by rewrite IH.
  - destruct (process_instances _ _ (i2 :: ins) _) as [r ins'] eqn:E'. cbn [fst] in *. by rewrite IH.
Qed.
End chain.

(** ** Filters *)

(** A filter without state. *)
Definition filter_module (v : Z) (p : SmartModuleRecord -> bool) : Running :=
  MkRunning unit SmFilter (filter_step (fun record u => (Ok (p record), u))) (fun _ => []) v tt.

Lemma filter_loop p base rs out :
  transform_records (U := unit) SmFilter (filter_step (fun record u => (Ok (p record), u))) base rs out tt =
    (Ok (MkSmOutput (out ++ map inner_record (List.filter p rs)) None), tt).
Proof.
  revert out. induction rs as [|r rs IH]; intros out; cbn [transform_records]; [by rewrite app_nil_r|].
  change (filter_step _ r tt) with (@Ok string _ (if p r then [inner_record r] else []), tt). cbv beta iota.
  rewrite IH. cbn [List.filter]. destruct (p r); cbn; [by rewrite <-app_assoc|by rewrite app_nil_r].
Qed.

Lemma run_filter base ts rs v p :
  run_module base ts rs (filter_module v p) =
    (Ok (MkSmOutput (List.filter (fun r => p (MkSmRecord r base (seen_timestamp v ts))) rs) None), filter_module v p).
Proof.
  unfold run_module, run_loop. cbn [run_kind run_step run_version run_u filter_module]. rewrite filter_loop. cbn [app].
  f_equal. f_equal. f_equal. induction rs as [|r rs IH]; cbn; [done|]. destruct (p _); cbn; by rewrite IH.
Qed.

(** A chain of filters keeps the records that all of them keep. *)
Lemma run_filters base ts rs v ps :
  run_chain base ts rs (map (filter_module v) ps) =
    (Ok (MkSmOutput (List.filter (fun r => forallb (fun p => p (MkSmRecord r base (seen_timestamp v ts))) ps) rs) None),
     map (filter_module v) ps).
Proof.
  revert rs. induction ps as [|p ps IH]; intros rs; cbn [map run_chain].
  - f_equal. f_equal. f_equal. induction rs as [|r rs IHr]; cbn; [done|]. f_equal; exact IHr.
  - rewrite run_filter. cbn [out_error successes]. rewrite IH. f_equal. f_equal. f_equal. clear IH.
    induction rs as [|r rs IHr]; cbn; [done|]. destruct (p _); cbn; [|done]. destruct (forallb _ _); by rewrite IHr.
Qed.

(** ** Properties *)

(** C8: a chain of SmartModules is the composition of their functions.  Let
    the runtime execute the code generated around the functions of the users,
    filters, maps, aggregates with the accumulator that the engine keeps.  Then
    the engine turns the records of a batch into what the functions make of
    them one after the other, each record in order, and an error ends the chain
    with the records of that SmartModule so far; the states of the functions
    are carried on to the next batch, and a trap is an error of the engine. *)
Theorem chain_refines {W : Type} `{Wasm W} (ins : list (SmartModuleInstance W)) (ms : list Running)
    (base ts : Z) (rs : list Record') :
  Forall2 executes ins ms -> records_fit rs -> in_i 64 base -> in_i 64 ts -> chain_fits base ts rs ms ->
  let input := input_new (wire codec_memory 0 rs) base ts in
  match run_chain base ts rs ms with
  | (Ok o, ms') => exists ins', chain_process input ins = (Ok o, ins') /\ Forall2 executes ins' ms'
  | _ => fst (chain_process input ins) = Err WasmError
  end.
Proof.
  intros Hex Hrs Hb Ht Hfit input. destruct ins as [|i ins].
  - apply Forall2_nil_inv_l in Hex as ->. cbn [run_chain chain_process].
    destruct (records_received DEFAULT_SMARTENGINE_VERSION base ts rs Hrs) as [E _]. unfold input. rewrite E.
    by exists [].
  - exact (chain_runs (i :: ins) ms base ts rs Hex ltac:(done) Hrs Hb Ht Hfit).
Qed.

(** A runtime with one filter, for records with a key, and one aggregate, which
    joins the values. *)
Definition example_filter : SmartModuleRecord -> bool := fun r => match key (inner_record r) with Some _ => true | None => false end.
Definition example_join : RecordData -> SmartModuleRecord -> ME string unit RecordData := fun acc r u =>
  (Ok (acc ++ value (inner_record r)), u).
#[local] Instance example_wasm : Wasm unit := {|
  get_func _ _ := TypedFunc;
  wasm_call name bytes v w :=
    match (if String.eqb name "filter"
           then transform_guest SmFilter (filter_step (fun record u => (Ok (example_filter record), u)))
           else aggregate_guest example_join) bytes v w with
    | (Ok x, w) => (Ok x, w)
    | (_, w) => (Err tt, w)
    end |}.
Definition example_instances : list (SmartModuleInstance unit) :=
  [MkInstance tt params_default None false false (SimpleTransform "filter") 22;
   MkInstance tt params_default None false false (AggregateTransform [Byte.x41]) 22].
Definition example_running (acc : list byte) : list Running :=
  [filter_module 22 example_filter;
   MkRunning (list byte * unit) SmAggregate (aggregate_step example_join) fst 22 (acc, tt)].
Definition example_input : list Record' :=
  [record_new_key_value (Key [Byte.x6b]) [Byte.x42]; record_new [Byte.x43]; record_new_key_value (Key [Byte.x6b]) [Byte.x44]].
Definition example_output : list Record' :=
  [record_new_key_value (Key [Byte.x6b]) [Byte.x41; Byte.x42];
   record_new_key_value (Key [Byte.x6b]) [Byte.x41; Byte.x42; Byte.x44]].

Lemma example_executes acc : Forall2 executes
  [MkInstance tt params_default None false false (SimpleTransform "filter") 22;
   MkInstance tt params_default None false false (AggregateTransform acc) 22] (example_running acc).
Proof.
  constructor; [|constructor; [|constructor]].
  - split; [done|]. split; [done|]. exists (fun _ _ => True). split; [|done]. intros [] [] bytes v _. cbn.
    destruct (transform_guest _ _ _ _ _) as [[] []]; by exists tt.
  - split; [done|]. split; [done|]. split; [done|]. exists unit, example_join, tt, (fun _ _ => True). split; [done|]. split; [|done].
    intros [] [] bytes v _. cbn. destruct (aggregate_guest _ _ _ _) as [[] []]; by exists tt.
Qed.

Ltac fits_records :=
  split; [unfold valid_memory, valid, codec_memory, codec_vec_ok; cbn;
          repeat first [split | constructor | (unfold valid_record, valid_record_header, in_i; cbn; repeat split; vm_compute; congruence)];
          try (vm_compute; congruence) |vm_compute; congruence].

Lemma output_without_error m rs :
  0 <= run_version m -> records_fit rs -> zlen (run_acc m (run_u m)) < 2 ^ 31 -> output_fits m (MkSmOutput rs None).
Proof.
  intros Hv Hrs Ha. set (v := run_version m) in *. set (o := MkSmOutput rs None).
  assert (valid codec_sm_output v o) as Ho.
  { split; [split; [intros _; apply (valid_memory_version v rs (proj1 Hrs))|split; [intros _; done|done]]|].
    cbn. unfold version_check. cbn. by destruct (Z.leb_spec 0 v); [|lia]. }
  unfold output_fits. fold v. split; [exact Ho|]. split; [exact Hrs|]. split; [|exact Ha].
  change (write_size codec_sm_output v o) with (write_size_fields output_fields v o). unfold output_fields.
  rewrite !write_size_fields_cons. change (write_size_fields [] v o) with 0.
  change (write_size (field_codec (plain codec_memory _ _)) v _) with (write_size codec_memory v rs).
  change (write_size (field_codec (plain (codec_option _) _ _)) v _) with 1.
  rewrite <-(wire_size codec_memory v rs) by (apply valid_memory_version, Hrs). rewrite wire_memory_version.
  destruct Hrs as [_ Hl]. unfold isize_max. repeat case_match; lia.
Qed.

Lemma example_fits : chain_fits 10 0 example_input (example_running [Byte.x41]).
Proof.
  split; [done|]. cbn [filter_module]. change (MkRunning unit _ _ _ _ _) with (filter_module 22 example_filter).
  rewrite run_filter. split; [apply output_without_error; [done|fits_records|done]|]. intros _.
  split; [done|]. change (run_module _ _ _ _) with
    (@Ok unit _ (MkSmOutput example_output None), MkRunning (list byte * unit) SmAggregate (aggregate_step example_join) fst 22
      ([Byte.x41; Byte.x42; Byte.x44], tt)).
  split; [apply output_without_error; [done|fits_records|done]|done].
Qed.

(** Two records pass the filter, and come out joined to the accumulator. *)
Lemma chain_refines_witness :
  exists ins', chain_process (input_new (wire codec_memory 0 example_input) 10 0) example_instances
    = (Ok (MkSmOutput example_output None), ins') /\
    Forall2 executes ins' (example_running [Byte.x41; Byte.x42; Byte.x44]).
Proof.
  apply (chain_refines example_instances (example_running [Byte.x41]) 10 0 example_input).
  - apply example_executes.
  - fits_records.
  - unfold in_i; lia.
  - unfold in_i; lia.
  - exact example_fits.
Defined.

(** A version without the base timestamp and without the join record. *)
Lemma derive_roundtrip_witness :
  let a := MkSmInput 7 [Byte.x01] params_default [Byte.x02; Byte.x03] 99 in
  exists bs, as_bytes codec_sm_input 15 a = Ok bs /\ zlen bs = write_size codec_sm_input 15 a /\
    decode_from codec_sm_input 15 (bs ++ [Byte.xff]) = (Ok (MkSmInput 7 [Byte.x01] params_default [] 0), [Byte.xff]).
Proof.
  apply (derive_roundtrip input_default input_fields 15 (MkSmInput 7 [Byte.x01] params_default [Byte.x02; Byte.x03] 99) [Byte.xff]).
  - split; [intros _; split; vm_compute; congruence|]. split; [intros _; by apply valid_bytes|].
    split; [intros _; apply params_default_valid|]. split; [intros E; discriminate|split; [intros E; discriminate|done]].
  - vm_compute. discriminate.
Defined.
