(* ===== verification/KvLog.v ===== *)
(** * Key-value storage on a log

    [fluvio-kv-storage/src/log.rs]: a map that is kept in memory and whose
    changes are written to a log, from which it is read back.  The log is an
    interface; [ConsumerOffsets.v] has the one on a replica.  The order in which
    a [HashMap] is iterated is a parameter. *)

From stdpp Require Import gmap strings list.
From S2P Require Import Prelude Wire Varint Utf8 Scalars Collections Records Batch RecordSet StorageIndex.
From S2P Require Import StorageLog StorageSegment StorageReplica Derive.

#[local] Open Scope Z_scope.

(** Errors are of any type: [anyhow::Error]. *)
Inductive KvError :=
| KvIo (k : ErrorKind)
| KvStorage (e : StorageError)
| KvRead (e : ReadError)
| KvCompression (e : CompressionError)
| UnexpectedCheckpoint
| KvOther.
Notation KM := (ME KvError).
Notation kresult := (outcome KvError).

(** ** Logs *)

(** A log of byte strings.  A stream read from its end is the list of its
    items; an item [Panic] is one at which polling the stream panics. *)
(* src/crates/fluvio-kv-storage/src/log.rs:15-23 Log *)
Class Log (L : Type) := {
  log_append_batch : list (list byte) -> KM L unit;
  log_read_from_end : L -> kresult (list (kresult (list byte)));
}.

(** What a log promises: a batch it accepts is appended, and reading gives the
    entries it holds, last first.  Entries that were removed from its start
    make a stream that has something else, [tail], after those it holds. *)
Class LogOK (L : Type) `{Log L} := {
  log_holds : L -> list (list byte) -> list (kresult (list byte)) -> Prop;
  log_accepts : L -> list (list byte) -> Prop;
  log_append_ok l es tail batch :
    log_holds l es tail -> log_accepts l batch ->
    exists l', log_append_batch batch l = (Ok tt, l') /\ log_holds l' (es ++ batch) tail;
  log_read_ok l es tail :
    log_holds l es tail -> log_read_from_end l = Ok (map Ok (rev es) ++ tail);
}.

(** A vector of entries, the log of the unit tests. *)
(* src/crates/fluvio-kv-storage/src/log.rs:169-173 Vec::read_from_end *)
Definition vec_read_from_end (self : list (list byte)) : kresult (list (kresult (list byte))) := Ok (map Ok (rev self)).
(* src/crates/fluvio-kv-storage/src/log.rs:175-178 Vec::append_batch *)
Definition vec_append_batch (entries : list (list byte)) : KM (list (list byte)) unit := modify (fun self => self ++ entries).
#[export] Instance vec_log : Log (list (list byte)) := {|
  log_append_batch := vec_append_batch; log_read_from_end := vec_read_from_end |}.

(** ** Entries *)

(* src/crates/fluvio-kv-storage/src/log.rs:131-139 Entry *)
Inductive Entry :=
| RecordUpdated (key value : list byte)
| RecordDeleted (key : list byte)
| Checkpoint.

Definition entry_variants : list (Variant Entry) :=
  [MkVariant 0 (list byte * list byte) (codec_pair codec_bytes codec_bytes) (fun '(key, value) => RecordUpdated key value)
     (fun e => match e with RecordUpdated key value => Some (key, value) | _ => None end);
   MkVariant 1 (list byte) codec_bytes RecordDeleted (fun e => match e with RecordDeleted key => Some key | _ => None end);
   MkVariant 2 unit codec_unit (fun _ => Checkpoint) (fun e => match e with Checkpoint => Some tt | _ => None end)].
Definition codec_entry : Codec Entry := derive_enum codec_u8 Checkpoint entry_variants.

(* src/crates/fluvio-kv-storage/src/log.rs:12-12 ENTRIES_SERIALIZATION_VERSION *)
Definition ENTRIES_SERIALIZATION_VERSION : Z := 0.
(* src/crates/fluvio-kv-storage/src/log.rs:181-185 encode *)
Definition kv_encode {T} (c : Codec T) (item : T) : kresult (list byte) :=
  map_err KvIo (as_bytes c ENTRIES_SERIALIZATION_VERSION item).
(* src/crates/fluvio-kv-storage/src/log.rs:187-191 decode *)
Definition kv_decode {T} (c : Codec T) (bytes : list byte) : kresult T :=
  map_err KvIo (fst (decode_from c ENTRIES_SERIALIZATION_VERSION bytes)).

(** [collect::<Result<Vec<_>, _>>()] *)
Fixpoint collect_ok {E A} (l : list (outcome E A)) : outcome E (list A) :=
  match l with
  | [] => Ok []
  | r :: l => obind r (fun a => obind (collect_ok l) (fun l => Ok (a :: l)))
  end.

Section entries_log.
Context {L : Type} `{Log L}.

(* src/crates/fluvio-kv-storage/src/log.rs:153-159 EntriesLog::read_from_end *)
Definition entries_read_from_end (self : L) : kresult (list (kresult Entry)) :=
  obind (log_read_from_end self) (fun stream => Ok (map (fun e => obind e (kv_decode codec_entry)) stream)).
(* src/crates/fluvio-kv-storage/src/log.rs:161-165 EntriesLog::append_batch *)
Definition entries_append_batch (entries : list Entry) : KM L unit :=
  entries ← lift (collect_ok (map (kv_encode codec_entry) entries));
  log_append_batch entries.
(* src/crates/fluvio-kv-storage/src/log.rs:18-20 Log::append *)
Definition entries_append (entry : Entry) : KM L unit := entries_append_batch [entry].
End entries_log.

(** ** The storage *)

(** The order in which the entries of a map come when it is iterated. *)
Class HashOrder (K V : Type) `{Countable K} := hash_iter : gmap K V -> list (K * V).
Class HashOrderOK (K V : Type) `{Countable K} `{!HashOrder K V} :=
  hash_iter_perm m : hash_iter m ≡ₚ map_to_list m.

(* src/crates/fluvio-kv-storage/src/log.rs:26-29 LogBasedKVStorage *)
Record LogBasedKVStorage (K V L : Type) `{Countable K} := MkKV { kv_cache : gmap K V; kv_log : L }.
Arguments MkKV {K V L _ _}.
Arguments kv_cache {K V L _ _}.
Arguments kv_log {K V L _ _}.

(** The entries after the last checkpoint, last first: [take_while], [collect]. *)
Fixpoint until_checkpoint (stream : list (kresult Entry)) : kresult (list (kresult Entry)) :=
  match stream with
  | [] => Ok []
  | Ok Checkpoint :: _ => Ok []
  | Panic :: _ => Panic
  | entry :: stream => obind (until_checkpoint stream) (fun rest => Ok (entry :: rest))
  end.

Section kv.
Context {K V L : Type} `{Countable K} `{!HashOrder K V} `{Log L} (ck : Codec K) (cv : Codec V).
Implicit Types (self : LogBasedKVStorage K V L) (m : gmap K V).

Definition on_log {A} (m : KM L A) : KM (LogBasedKVStorage K V L) A :=
  zoom kv_log (fun log self => MkKV (kv_cache self) log) m.
Definition on_cache (f : gmap K V -> gmap K V) : KM (LogBasedKVStorage K V L) unit :=
  modify (fun self => MkKV (f (kv_cache self)) (kv_log self)).

(* src/crates/fluvio-kv-storage/src/log.rs:76-80 LogBasedKVStorage::new *)
Definition kv_new (log : L) : LogBasedKVStorage K V L := MkKV ∅ log.
(* src/crates/fluvio-kv-storage/src/log.rs:37-39 LogBasedKVStorage::get *)
Definition kv_get (key : K) self : option V := kv_cache self !! key.
(* src/crates/fluvio-kv-storage/src/log.rs:41-46 LogBasedKVStorage::delete *)
Definition kv_delete (key : K) : KM (LogBasedKVStorage K V L) unit :=
  on_cache (delete key) ;;
  bytes ← lift (kv_encode ck key);
  on_log (entries_append (RecordDeleted bytes)).
(* src/crates/fluvio-kv-storage/src/log.rs:48-59 LogBasedKVStorage::put *)
Definition kv_put (key : K) (value : V) : KM (LogBasedKVStorage K V L) unit :=
  key_bytes ← lift (kv_encode ck key);
  value_bytes ← lift (kv_encode cv value);
  on_log (entries_append (RecordUpdated key_bytes value_bytes)) ;;
  on_cache <[key := value]>.
(* src/crates/fluvio-kv-storage/src/log.rs:61-67 LogBasedKVStorage::entries *)
Definition kv_entries self : list (K * V) := hash_iter (kv_cache self).

(** [records.push(Entry::RecordUpdated { .. })] for an entry of the cache. *)
Definition updated_entry (kv : K * V) : kresult Entry :=
  obind (kv_encode ck (fst kv)) (fun key => obind (kv_encode cv (snd kv)) (fun value => Ok (RecordUpdated key value))).
(* src/crates/fluvio-kv-storage/src/log.rs:86-96 LogBasedKVStorage::flush *)
Definition kv_flush : KM (LogBasedKVStorage K V L) unit :=
  self ← get;
  records ← lift (collect_ok (map updated_entry (hash_iter (kv_cache self))));
  on_log (entries_append_batch (Checkpoint :: records)).

(** [for entry in last_entries.into_iter().rev()] *)
Fixpoint replay_entries (entries : list (kresult Entry)) (new_cache : gmap K V) : kresult (gmap K V) :=
  match entries with
  | [] => Ok new_cache
  | entry :: entries =>
      obind entry (fun entry =>
      obind
        match entry with
        | RecordUpdated key value =>
            obind (kv_decode ck key) (fun key => obind (kv_decode cv value) (fun value => Ok (<[key := value]> new_cache)))
        | RecordDeleted key => obind (kv_decode ck key) (fun key => Ok (delete key new_cache))
        | Checkpoint => Err UnexpectedCheckpoint
        end (replay_entries entries))
  end.
(* src/crates/fluvio-kv-storage/src/log.rs:98-127 LogBasedKVStorage::replay *)
Definition kv_replay : KM (LogBasedKVStorage K V L) unit :=
  self ← get;
  stream ← lift (entries_read_from_end (kv_log self));
  last_entries ← lift (until_checkpoint stream);
  new_cache ← lift (replay_entries (rev last_entries) ∅);
  on_cache (const new_cache).
(* src/crates/fluvio-kv-storage/src/log.rs:82-84 LogBasedKVStorage::sync_from_log *)
Definition kv_sync_from_log : KM (LogBasedKVStorage K V L) unit := kv_replay.
End kv.

(** ** Laws *)

#[local] Obligation Tactic := idtac.

#[export] Program Instance vec_log_ok : LogOK (list (list byte)) := {|
  log_holds l es tail := l = es /\ tail = []; log_accepts _ _ := True |}.
Next Obligation. intros l es tail batch [-> ->] _. eexists. by split. Qed.
Next Obligation. intros l es tail [-> ->]. cbn. by rewrite app_nil_r. Qed.

#[export] Instance entry_enum : DeriveEnum entry_variants.
Proof.
  split; [repeat constructor; set_solver|].
  repeat constructor; intros [] fields E; by simplify_eq/=.
Qed.
#[export] Instance codec_entry_ok : CodecOK codec_entry := derive_enum_ok codec_u8 Checkpoint entry_variants eq_refl.

Lemma valid_entry e :
  valid codec_entry 0 e <->
  match e with
  | RecordUpdated key value => zlen key < 2 ^ 31 /\ zlen value < 2 ^ 31
  | RecordDeleted key => zlen key < 2 ^ 31
  | Checkpoint => True
  end.
Proof.
  destruct e as [key value|key|].
  - change (valid codec_entry 0 (RecordUpdated key value))
      with (in_u 8 0 /\ valid codec_bytes 0 key /\ valid codec_bytes 0 value).
    rewrite !valid_bytes. unfold in_u. lia.
  - change (valid codec_entry 0 (RecordDeleted key)) with (in_u 8 1 /\ valid codec_bytes 0 key).
    rewrite !valid_bytes. unfold in_u. lia.
  - change (valid codec_entry 0 Checkpoint) with (in_u 8 2 /\ True /\ tt = tt). unfold in_u. split; [done|]. intros _. split; [lia|done].
Qed.

Lemma entry_size e : valid codec_entry 0 e -> zlen (wire codec_entry 0 e) <= 2 ^ 33.
Proof.
  rewrite valid_entry. destruct e as [key value|key|]; intros He.
  - change (wire codec_entry 0 (RecordUpdated key value)) with (be_split 1 0 ++ wire codec_bytes 0 key ++ wire codec_bytes 0 value).
    rewrite !wire_bytes, !zlen_app, !zlen_be_split. lia.
  - change (wire codec_entry 0 (RecordDeleted key)) with (be_split 1 1 ++ wire codec_bytes 0 key).
    rewrite !wire_bytes, !zlen_app, !zlen_be_split. lia.
  - done.
Qed.

Lemma encode_entry e : valid codec_entry 0 e -> kv_encode codec_entry e = Ok (wire codec_entry 0 e).
Proof.
  intros Hv. unfold kv_encode, ENTRIES_SERIALIZATION_VERSION. rewrite (as_bytes_wire codec_entry); [done|done|].
  rewrite <-(wire_size codec_entry) by done. pose proof (entry_size e Hv). unfold isize_max. lia.
Qed.

Lemma decode_entry e : valid codec_entry 0 e -> kv_decode codec_entry (wire codec_entry 0 e) = Ok e.
Proof.
  intros Hv. unfold kv_decode, ENTRIES_SERIALIZATION_VERSION. rewrite <-(app_nil_r (wire codec_entry 0 e)). rewrite (decode_from_wire codec_entry); [done|done|].
  rewrite app_nil_r. pose proof (entry_size e Hv). unfold isize_max. lia.
Qed.

Lemma collect_ok_map {E A B} (f : A -> outcome E B) (g : A -> B) l :
  Forall (fun a => f a = Ok (g a)) l -> collect_ok (map f l) = Ok (map g l).
Proof. induction 1 as [|a l Ha _ IH]; [done|]. cbn. by rewrite Ha, IH. Qed.

Section laws.
Context {K V L : Type} `{Countable K} `{!HashOrder K V} `{!HashOrderOK K V} `{LogOK L}.
Context (ck : Codec K) (cv : Codec V) `{!CodecOK ck} `{!CodecOK cv}.
Implicit Types (self : LogBasedKVStorage K V L) (m : gmap K V).

(** Keys and values that fit an entry. *)
Definition key_fits (k : K) : Prop := valid ck 0 k /\ write_size ck 0 k < 2 ^ 31.
Definition value_fits (v : V) : Prop := valid cv 0 v /\ write_size cv 0 v < 2 ^ 31.

(** What an entry means. *)
Inductive Change := Put (k : K) (v : V) | Remove (k : K) | Clear.
Definition change_fits (c : Change) : Prop :=
  match c with Put k v => key_fits k /\ value_fits v | Remove k => key_fits k | Clear => True end.
Definition entry_of (c : Change) : Entry :=
  match c with
  | Put k v => RecordUpdated (wire ck 0 k) (wire cv 0 v)
  | Remove k => RecordDeleted (wire ck 0 k)
  | Clear => Checkpoint
  end.
Definition change (m : gmap K V) (c : Change) : gmap K V :=
  match c with Put k v => <[k := v]> m | Remove k => delete k m | Clear => ∅ end.
Definition entry_bytes (c : Change) : list byte := wire codec_entry 0 (entry_of c).

Lemma encode_fits {T} (c : Codec T) `{!CodecOK c} x :
  valid c 0 x /\ write_size c 0 x < 2 ^ 31 -> kv_encode c x = Ok (wire c 0 x).
Proof.
  intros [Hv Hs]. unfold kv_encode, ENTRIES_SERIALIZATION_VERSION.
  rewrite (as_bytes_wire c); [done|done|]. unfold isize_max. lia.
Qed.
Lemma wire_fits {T} (c : Codec T) `{!CodecOK c} x :
  valid c 0 x /\ write_size c 0 x < 2 ^ 31 -> zlen (wire c 0 x) < 2 ^ 31.
Proof. intros [Hv Hs]. by rewrite (wire_size c). Qed.
Lemma decode_fits {T} (c : Codec T) `{!CodecOK c} x :
  valid c 0 x /\ write_size c 0 x < 2 ^ 31 -> kv_decode c (wire c 0 x) = Ok x.
Proof.
  intros [Hv Hs]. unfold kv_decode, ENTRIES_SERIALIZATION_VERSION. rewrite <-(app_nil_r (wire c 0 x)). rewrite (decode_from_wire c); [done|done|].
  rewrite app_nil_r, (wire_size c) by done. unfold isize_max. lia.
Qed.

Lemma entry_of_valid c : change_fits c -> valid codec_entry 0 (entry_of c).
Proof.
  rewrite valid_entry. destruct c as [k v|k|]; cbn; [|by apply wire_fits|done].
  intros [? ?]. split; by apply wire_fits.
Qed.

Lemma read_entry c : change_fits c -> kv_decode codec_entry (entry_bytes c) = Ok (entry_of c).
Proof. intros Hc. by apply decode_entry, entry_of_valid. Qed.

(** Appending entries to the log. *)
Lemma append_changes (l : L) es tail cs :
  log_holds l es tail -> Forall change_fits cs -> log_accepts l (map entry_bytes cs) ->
  exists l', entries_append_batch (map entry_of cs) l = (Ok tt, l') /\ log_holds l' (es ++ map entry_bytes cs) tail.
Proof.
  intros Hl Hcs Ha. destruct (log_append_ok _ _ _ _ Hl Ha) as (l' & E & Hl'). exists l'. split; [|done].
  unfold entries_append_batch. erewrite bind_ok; [exact E|]. unfold lift. f_equal.
  rewrite map_map. apply collect_ok_map. eapply Forall_impl; [exact Hcs|]. intros c Hc. by apply encode_entry, entry_of_valid.
Qed.

(** Reading them back: the changes since the last checkpoint. *)
Lemma until_changes rcs tail :
  Forall change_fits rcs -> tail = [] \/ In Clear rcs ->
  exists rc, until_checkpoint (map (fun c => Ok (entry_of c)) rcs ++ tail) = Ok (map (fun c => Ok (entry_of c)) rc) /\
    Forall (fun c => change_fits c /\ c <> Clear) rc /\
    fold_left change (rev rc) ∅ = fold_left change (rev rcs) ∅.
Proof.
  intros Hf. induction Hf as [|c rcs Hc Hf IH]; intros Ht.
  - destruct Ht as [->|[]]. by exists [].
  - assert (c = Clear \/ c <> Clear) as [->|Hn] by (destruct c; auto; by right).
    + exists []. split; [done|]. split; [done|]. cbn [rev]. by rewrite fold_left_app.
    + destruct IH as (rc & E & Hrc & Ef); [destruct Ht as [|[|]]; [auto|done|auto]|]. exists (c :: rc).
      split; [|split; [by constructor|]].
      * cbn [map app]. destruct c; [| |done]; cbn [entry_of until_checkpoint]; by rewrite E.
      * cbn [rev]. by rewrite !fold_left_app, Ef.
Qed.

Lemma replay_changes cs m :
  Forall (fun c => change_fits c /\ c <> Clear) cs ->
  replay_entries ck cv (map (fun c => Ok (entry_of c)) cs) m = Ok (fold_left change cs m).
Proof.
  intros Hcs. revert m. induction Hcs as [|c cs [Hc Hn] _ IH]; intros m; [done|].
  destruct c as [k v|k|]; [| |done]; cbn [map replay_entries entry_of obind].
  - destruct Hc as [? ?]. rewrite !decode_fits by done. cbn [obind]. apply IH.
  - rewrite !decode_fits by done. cbn [obind]. apply IH.
Qed.

(** ** The invariant

    The log holds changes that lead to the map in memory; a checkpoint is among
    them if the start of the log is missing. *)
Definition kv_ok self : Prop :=
  exists cs tail, log_holds (kv_log self) (map entry_bytes cs) tail /\ Forall change_fits cs /\
    kv_cache self = fold_left change cs ∅ /\ (tail = [] \/ In Clear cs).

Lemma kv_new_ok (l : L) : log_holds l [] [] -> kv_ok (kv_new l).
Proof. intros Hl. exists [], []. split_and!; auto. Qed.

(** A change that is appended. *)
Lemma append_ok cs l' tail bs m' :
  log_holds l' (map entry_bytes cs ++ map entry_bytes bs) tail -> Forall change_fits cs -> Forall change_fits bs ->
  m' = fold_left change bs (fold_left change cs ∅) -> tail = [] \/ In Clear cs -> kv_ok (MkKV m' l').
Proof.
  intros Hl Hcs Hbs -> Ht. exists (cs ++ bs), tail. rewrite map_app, fold_left_app. split_and!; [done| |done|].
  - by apply Forall_app.
  - rewrite in_app_iff. tauto.
Qed.

Lemma kv_put_ok self k v :
  kv_ok self -> key_fits k -> value_fits v -> log_accepts (kv_log self) [entry_bytes (Put k v)] ->
  exists self', kv_put ck cv k v self = (Ok tt, self') /\ kv_ok self' /\ kv_cache self' = <[k := v]> (kv_cache self).
Proof.
  intros (cs & tail & Hl & Hcs & Ec & Ht) Hk Hv Ha. unfold kv_put.
  erewrite bind_ok by (unfold lift; by rewrite (encode_fits ck k Hk)).
  erewrite bind_ok by (unfold lift; by rewrite (encode_fits cv v Hv)).
  destruct (append_changes _ _ _ [Put k v] Hl) as (l' & E & Hl'); [by apply Forall_singleton|done|].
  erewrite bind_ok by (unfold on_log, zoom, entries_append; cbn [map entry_of] in E; rewrite E; reflexivity).
  eexists. split; [reflexivity|]. cbn [kv_cache kv_log]. split; [|done].
  eapply (append_ok cs _ _ [Put k v]); [exact Hl'|done|by apply Forall_singleton|by rewrite Ec|done].
Qed.

Lemma kv_delete_ok self k :
  kv_ok self -> key_fits k -> log_accepts (kv_log self) [entry_bytes (Remove k)] ->
  exists self', kv_delete ck k self = (Ok tt, self') /\ kv_ok self' /\ kv_cache self' = delete k (kv_cache self).
Proof.
  intros (cs & tail & Hl & Hcs & Ec & Ht) Hk Ha. unfold kv_delete. erewrite bind_ok by reflexivity.
  erewrite bind_ok by (unfold lift; by rewrite (encode_fits ck k Hk)).
  destruct (append_changes _ _ _ [Remove k] Hl) as (l' & E & Hl'); [by apply Forall_singleton|done|].
  unfold on_log, zoom, entries_append. cbn [map entry_of kv_log] in *. rewrite E.
  eexists. split; [reflexivity|]. cbn [kv_cache kv_log]. split; [|done].
  eapply (append_ok cs _ _ [Remove k]); [exact Hl'|done|by apply Forall_singleton|by rewrite Ec|done].
Qed.

(** What a flush writes. *)
Definition snapshot m : list Change := Clear :: map (fun kv => Put (fst kv) (snd kv)) (hash_iter m).

Lemma fold_puts l m :
  NoDup (map fst l) -> (forall k, In k (map fst l) -> m !! k = None) ->
  fold_left change (map (fun kv => Put (fst kv) (snd kv)) l) m = list_to_map l ∪ m.
Proof.
  revert m. induction l as [|[k v] l IH]; intros m Hnd Hm; cbn [map fold_left list_to_map foldr].
  - by rewrite (left_id_L ∅ (∪)).
  - cbn in Hnd. apply NoDup_cons in Hnd as [Hk Hnd]. cbn [change fst snd]. rewrite IH; [|done|].
    + rewrite <-insert_union_r by (by apply not_elem_of_list_to_map_1). by rewrite <-insert_union_l.
    + intros k' Hk'. rewrite lookup_insert_ne; [apply Hm; by right|]. intros ->. by apply Hk, list_elem_of_In.
Qed.

Lemma fold_snapshot m m' : fold_left change (snapshot m) m' = m.
Proof.
  unfold snapshot. cbn [fold_left change]. pose proof (hash_iter_perm m) as Hp.
  assert (NoDup (map fst (hash_iter m))) as Hnd.
  { change (NoDup (fst <$> hash_iter m)). rewrite Hp. apply NoDup_fst_map_to_list. }
  rewrite fold_puts; [|done|by intros; apply lookup_empty]. rewrite (right_id_L ∅ (∪)).
  rewrite (list_to_map_proper _ (map_to_list m)) by done. apply list_to_map_to_list.
Qed.

Lemma kv_flush_ok self :
  kv_ok self -> map_Forall (fun k v => key_fits k /\ value_fits v) (kv_cache self) ->
  log_accepts (kv_log self) (map entry_bytes (snapshot (kv_cache self))) ->
  exists self', kv_flush ck cv self = (Ok tt, self') /\ kv_ok self' /\ kv_cache self' = kv_cache self.
Proof.
  intros (cs & tail & Hl & Hcs & Ec & Ht) Hfit Ha. unfold kv_flush. erewrite bind_ok by reflexivity.
  assert (Forall (fun kv => key_fits (fst kv) /\ value_fits (snd kv)) (hash_iter (kv_cache self))) as Hit.
  { rewrite hash_iter_perm. apply Forall_forall. intros [k v] Hkv%elem_of_map_to_list. by apply Hfit. }
  assert (Forall change_fits (snapshot (kv_cache self))) as Hsn.
  { constructor; [done|]. apply Forall_map. eapply Forall_impl; [exact Hit|]. done. }
  destruct (append_changes _ _ _ _ Hl Hsn Ha) as (l' & E & Hl').
  erewrite bind_ok.
  2:{ unfold lift. erewrite (collect_ok_map _ (fun kv => entry_of (Put (fst kv) (snd kv)))); [reflexivity|].
      eapply Forall_impl; [exact Hit|]. intros [k v] [? ?]. unfold updated_entry. cbn [fst snd] in *. by rewrite (encode_fits ck), (encode_fits cv). }
  unfold snapshot in E. cbn [map entry_of] in E. rewrite map_map in E. unfold on_log, zoom.
  cbn [entry_of] in *. rewrite E.
  eexists. split; [reflexivity|]. split; [|done].
  eapply append_ok; [exact Hl'|done|done|by rewrite fold_snapshot|done].
Qed.

Lemma kv_sync_ok self m :
  kv_ok self -> exists self', kv_sync_from_log ck cv (MkKV m (kv_log self)) = (Ok tt, self') /\ kv_ok self' /\
    kv_cache self' = kv_cache self /\ kv_log self' = kv_log self.
Proof.
  intros Hok. pose proof Hok as (cs & tail & Hl & Hcs & Ec & Ht). unfold kv_sync_from_log, kv_replay.
  erewrite bind_ok by reflexivity. cbn [kv_log].
  assert (entries_read_from_end (kv_log self)
    = Ok (map (fun c => Ok (entry_of c)) (rev cs) ++ map (fun e => obind e (kv_decode codec_entry)) tail)) as Er.
  { unfold entries_read_from_end. rewrite (log_read_ok _ _ _ Hl). cbn [obind]. f_equal.
    rewrite map_app. f_equal. rewrite <-map_rev, !map_map. apply map_ext_in. intros c Hc. cbn [obind].
    apply read_entry. eapply Forall_forall; [exact Hcs|]. apply in_rev in Hc. by apply list_elem_of_In. }
  erewrite bind_ok by (unfold lift; rewrite Er; reflexivity).
  destruct (until_changes (rev cs) (map (fun e => obind e (kv_decode codec_entry)) tail)) as (rc & Eu & Hrc & Ef).
  { by apply Forall_rev. }
  { destruct Ht as [->|]; [by left|right]. by rewrite <-in_rev. }
  erewrite bind_ok by (unfold lift; rewrite Eu; reflexivity).
  rewrite <-map_rev. erewrite bind_ok by (unfold lift; rewrite replay_changes by (by apply Forall_rev); reflexivity).
  eexists. split; [reflexivity|]. cbn [kv_cache kv_log const]. rewrite Ef, rev_involutive, <-Ec. by destruct self.
Qed.

(** ** Any sequence of operations *)

Inductive KvOp := OpPut (k : K) (v : V) | OpDelete (k : K) | OpFlush | OpRestart.

(** [OpRestart]: the storage is dropped, and a new one is read from its log. *)
Definition kv_step (op : KvOp) : KM (LogBasedKVStorage K V L) unit :=
  match op with
  | OpPut k v => kv_put ck cv k v
  | OpDelete k => kv_delete ck k
  | OpFlush => kv_flush ck cv
  | OpRestart => modify (fun self => kv_new (kv_log self)) ;; kv_sync_from_log ck cv
  end.
Fixpoint kv_run (ops : list KvOp) : KM (LogBasedKVStorage K V L) unit :=
  match ops with [] => mret tt | op :: ops => kv_step op ;; kv_run ops end.

(** The map they stand for. *)
Definition map_step m (op : KvOp) : gmap K V :=
  match op with OpPut k v => <[k := v]> m | OpDelete k => delete k m | OpFlush | OpRestart => m end.

Definition op_fits (op : KvOp) : Prop :=
  match op with OpPut k v => key_fits k /\ value_fits v | OpDelete k => key_fits k | _ => True end.
(** What an operation appends, and that the log accepts it each time. *)
Definition op_batch (op : KvOp) m : option (list (list byte)) :=
  match op with
  | OpPut k v => Some [entry_bytes (Put k v)]
  | OpDelete k => Some [entry_bytes (Remove k)]
  | OpFlush => Some (map entry_bytes (snapshot m))
  | OpRestart => None
  end.
Fixpoint run_accepted (ops : list KvOp) self : Prop :=
  match ops with
  | [] => True
  | op :: ops =>
      (forall batch, op_batch op (kv_cache self) = Some batch -> log_accepts (kv_log self) batch) /\
      forall self', kv_step op self = (Ok tt, self') -> run_accepted ops self'
  end.

Definition cache_fits self : Prop := map_Forall (fun k v => key_fits k /\ value_fits v) (kv_cache self).

Lemma kv_step_ok op self :
  kv_ok self -> cache_fits self -> op_fits op ->
  (forall batch, op_batch op (kv_cache self) = Some batch -> log_accepts (kv_log self) batch) ->
  exists self', kv_step op self = (Ok tt, self') /\ kv_ok self' /\ cache_fits self' /\
    kv_cache self' = map_step (kv_cache self) op.
Proof.
  intros Hok Hfit Hop Ha. unfold cache_fits in *. destruct op as [k v|k| |]; cbn [kv_step map_step op_fits op_batch] in *.
  - destruct Hop as [Hk Hv]. destruct (kv_put_ok self k v Hok Hk Hv (Ha _ eq_refl)) as (self' & E & Hok' & Ec).
    exists self'. rewrite Ec. split_and!; [done|done| |done]. by apply map_Forall_insert_2.
  - destruct (kv_delete_ok self k Hok Hop (Ha _ eq_refl)) as (self' & E & Hok' & Ec).
    exists self'. rewrite Ec. split_and!; [done|done| |done]. by apply map_Forall_delete.
  - destruct (kv_flush_ok self Hok Hfit (Ha _ eq_refl)) as (self' & E & Hok' & Ec). exists self'. by rewrite Ec.
  - destruct (kv_sync_ok self ∅ Hok) as (self' & E & Hok' & Ec & _). exists self'.
    erewrite bind_ok by reflexivity. by rewrite Ec.
Qed.

Lemma kv_run_ok ops self :
  kv_ok self -> cache_fits self -> Forall op_fits ops -> run_accepted ops self ->
  exists self', kv_run ops self = (Ok tt, self') /\ kv_ok self' /\ kv_cache self' = fold_left map_step ops (kv_cache self).
Proof.
  intros Hok Hfit Hops. revert self Hok Hfit. induction Hops as [|op ops Hop _ IH]; intros self Hok Hfit Hacc.
  - by exists self.
  - destruct Hacc as [Ha Hacc]. destruct (kv_step_ok op self Hok Hfit Hop Ha) as (self1 & E & Hok1 & Hfit1 & Ec).
    cbn [kv_run fold_left]. erewrite bind_ok by exact E. rewrite <-Ec. apply IH; [done|done|by apply Hacc].
Qed.
End laws.
Arguments KvOp : clear implicits.
Arguments Change : clear implicits.

(** C27: the key-value storage is a durable map.  On any log that appends the
    batches it accepts and reads them back last first, any sequence of puts,
    deletes, flushes and restarts (each a new storage that replays the log)
    succeeds and leaves in memory exactly the map of the puts and deletes; the
    order in which the hash map is iterated does not matter. *)
Theorem kv_refines_map {K V L : Type} `{Countable K} `{!HashOrder K V} `{!HashOrderOK K V} `{LogOK L}
    (ck : Codec K) (cv : Codec V) `{!CodecOK ck} `{!CodecOK cv} (log : L) (ops : list (KvOp K V)) :
  log_holds log [] [] -> Forall (op_fits ck cv) ops -> run_accepted ck cv ops (kv_new log) ->
  exists self, kv_run ck cv ops (kv_new log) = (Ok tt, self) /\
    kv_cache self = fold_left map_step ops ∅ /\
    exists self', kv_step ck cv OpRestart self = (Ok tt, self') /\ kv_cache self' = kv_cache self.
Proof.
  intros Hl Hops Hacc.
  destruct (kv_run_ok ck cv ops (kv_new log)) as (self & E & Hok & Ec); [by apply kv_new_ok|by apply map_Forall_empty|done|done|].
  exists self. split; [done|]. split; [done|]. destruct (kv_sync_ok ck cv self ∅ Hok) as (self' & E' & _ & Ec' & _).
  exists self'. split; [|done]. cbn [kv_step]. by erewrite bind_ok.
Qed.

#[export] Instance list_order {K V} `{Countable K} : HashOrder K V := map_to_list.
#[export] Instance list_order_ok {K V} `{Countable K} : HashOrderOK K V.
Proof. intros m. reflexivity. Qed.

Definition example_ops : list (KvOp string string) :=
  [OpPut "a" "1"; OpPut "b" "2"; OpFlush; OpDelete "a"; OpPut "b" "3"; OpRestart; OpPut "c" "4"]%string.

Lemma example_ops_fit : Forall (op_fits codec_string codec_string) example_ops.
Proof. repeat constructor. Qed.

Lemma kv_refines_map_witness :
  exists self, kv_run codec_string codec_string example_ops (kv_new ([] : list (list byte))) = (Ok tt, self) /\
    kv_cache self = {["b" := "3"; "c" := "4"]}%string.
Proof.
  destruct (kv_refines_map codec_string codec_string ([] : list (list byte)) example_ops) as (self & E & Ec & _).
  - split; reflexivity.
  - exact example_ops_fit.
  - repeat split.
  - exists self. split; [exact E|]. rewrite Ec. vm_compute. reflexivity.
Defined.

(** ** Deviations *)

(** A delete whose append fails has already removed the key from the map in
    memory: the storage no longer agrees with its log, and the key is back
    after the next restart. *)
Theorem failed_delete_reappears {K V L : Type} `{Countable K} `{!HashOrder K V} `{!HashOrderOK K V} `{LogOK L}
    (ck : Codec K) (cv : Codec V) `{!CodecOK ck} `{!CodecOK cv} (self : LogBasedKVStorage K V L) k v e :
  kv_ok ck cv self -> kv_cache self !! k = Some v -> key_fits ck k ->
  log_append_batch [wire codec_entry 0 (RecordDeleted (wire ck 0 k))] (kv_log self) = (Err e, kv_log self) ->
  exists self1 self2, kv_delete ck k self = (Err e, self1) /\ kv_get k self1 = None /\
    kv_step ck cv OpRestart self1 = (Ok tt, self2) /\ kv_get k self2 = Some v.
Proof.
  intros Hok Ek Hk Ea. eexists (MkKV (delete k (kv_cache self)) (kv_log self)).
  destruct (kv_sync_ok ck cv self ∅ Hok) as (self' & E' & _ & Ec' & _). exists self'. split_and!.
  - unfold kv_delete. erewrite bind_ok by reflexivity. erewrite bind_ok by (unfold lift; by rewrite (encode_fits ck k Hk)).
    unfold on_log, zoom, entries_append, entries_append_batch. cbn [kv_log].
    erewrite bind_ok by (unfold lift; cbn [map collect_ok];
      rewrite encode_entry by (apply valid_entry; by apply wire_fits); reflexivity).
    by rewrite Ea.
  - apply lookup_delete_eq.
  - cbn [kv_step]. by erewrite bind_ok.
  - unfold kv_get. by rewrite Ec'.
Qed.
