(* ===== verification/FileIter.v ===== *)
(** * Iterating over the batches and records of a file

    [fluvio-storage/src/iterators.rs]: the batches of a region of a log file,
    read with [pread] and decompressed, and their records with the offsets and
    times they stand for. *)

From stdpp Require Import strings list.
From S2P Require Import Prelude Wire Varint Utf8 Scalars Collections Records Batch RecordSet StorageIndex.
From S2P Require Import StorageLog StorageSegment.

#[local] Open Scope Z_scope.

(** ** Iterators *)

(** The batch without its records, and their bytes. *)
(* src/crates/fluvio-storage/src/iterators.rs:15-18 FileBatch *)
Record FileBatch := MkFileBatch { fb_batch : Batch MemoryRecords; fb_records : list byte }.
(* src/crates/fluvio-storage/src/iterators.rs:21-25 RecordItem *)
Record RecordItem := MkRecordItem { item_record : Record'; item_offset : Z; item_timestamp : Z }.

(** A file descriptor is the bytes of its file. *)
(* src/crates/fluvio-storage/src/iterators.rs:28-32 FileBatchIterator *)
Record FileBatchIterator := MkFileBatchIter { it_file : list byte; it_offset : Z; it_end : Z }.

(** [Iterator]: the next item, if there is one. *)
Class Iter (I A : Type) := iter_next : I -> option A * I.
(** [Iterator::take] *)
Record Take (I : Type) := MkTake { take_left : nat; take_iter : I }.
Arguments MkTake {I}.
Arguments take_left {I}.
Arguments take_iter {I}.
#[export] Instance take_Iter {I A} `{Iter I A} : Iter (Take I) A := fun self =>
  match take_left self with
  | O => (None, self)
  | S n => let '(r, it) := iter_next (take_iter self) in (r, MkTake n it)
  end.

(* src/crates/fluvio-storage/src/iterators.rs:158-162 FileRecordIterator *)
Record FileRecordIterator (T : Type) := MkFileRecordIter {
  batch_iterator : T;
  item_batch : list RecordItem;
  item_version : Z;
}.
Arguments MkFileRecordIter {T}.
Arguments batch_iterator {T}.
Arguments item_batch {T}.
Arguments item_version {T}.

Section iterators.
Context `{PRead} (gzip snappy lz4 zstd : Backend).

(* src/crates/fluvio-storage/src/iterators.rs:44-52 FileBatchIterator::from_raw_slice *)
Definition from_raw_slice (file : list byte) (slice : FileSlice) : FileBatchIterator :=
  let offset := as_i64 (slice_pos slice) in
  MkFileBatchIter file offset (as_i64 (offset + as_i64 (slice_len slice))).

(** [vec![0u8; n]] filled by one [pread]: [None] is an error. *)
Definition read_vec (file : list byte) (offset n : Z) : res (list byte) :=
  if isize_max <? n then Panic
  else
    match sys_pread file offset n with
    | None => Err OtherError
    | Some bytes_read => if bytes_read <? n then Err UnexpectedEof else Ok (ztake n (zdrop offset file))
    end.

(* src/crates/fluvio-storage/src/iterators.rs:58-153 FileBatchIterator::next *)
Definition file_batch_next (self : FileBatchIterator) : option (res FileBatch) * FileBatchIterator :=
  if it_end self <=? it_offset self then (None, self)
  else
    match read_vec (it_file self) (it_offset self) BATCH_FILE_HEADER_SIZE with
    | Err k => (Some (Err k), self)
    | Panic => (Some Panic, self)
    | Ok header =>
        match decode_buf (decode_from_file_buf 0) (batch_default codec_memory) header with
        | Err _ => (Some (Err OtherError), self)
        | Panic => (Some Panic, self)
        | Ok batch =>
            let remainder := wrap_u 64 (as_usize (batch_len batch) - BATCH_HEADER_SIZE) in
            let self := MkFileBatchIter (it_file self) (as_i64 (it_offset self + BATCH_FILE_HEADER_SIZE)) (it_end self) in
            match read_vec (it_file self) (it_offset self) remainder with
            | Err k => (Some (Err k), self)
            | Panic => (Some Panic, self)
            | Ok raw_records =>
                match get_compression (Batch.header batch) with
                | inr _ => (Some (Err OtherError), self)
                | inl compression =>
                    match uncompress gzip snappy lz4 zstd compression raw_records with
                    | inr _ => (Some (Err OtherError), self)
                    | inl records =>
                        (Some (Ok (MkFileBatch batch (default raw_records records))),
                         MkFileBatchIter (it_file self) (as_i64 (it_offset self + zlen raw_records)) (it_end self))
                    end
                end
            end
        end
    end.
#[export] Instance file_batch_Iter : Iter FileBatchIterator (res FileBatch) := file_batch_next.

Section records.
Context {T : Type} `{!Iter T (res FileBatch)}.

(* src/crates/fluvio-storage/src/iterators.rs:165-171 FileRecordIterator::new *)
Definition file_records_new (batch_iterator : T) (version : Z) : FileRecordIterator T :=
  MkFileRecordIter batch_iterator [] version.

(** [records.into_iter().map(..)] *)
Definition record_item (base_offset base_timestamp : Z) (record : Record') : RecordItem :=
  MkRecordItem record (as_i64 (base_offset + offset_delta (preamble record)))
    (as_i64 (base_timestamp + timestamp_delta (preamble record))).
Definition record_items (b : Batch MemoryRecords) (rs : MemoryRecords) : list RecordItem :=
  map (record_item (base_offset b) (first_timestamp (Batch.header b))) rs.

(* src/crates/fluvio-storage/src/iterators.rs:177-215 FileRecordIterator::next *)
Definition file_record_next (self : FileRecordIterator T) : option (res RecordItem) * FileRecordIterator T :=
  match item_batch self with
  | r :: batch => (Some (Ok r), MkFileRecordIter (batch_iterator self) batch (item_version self))
  | [] =>
      let '(next, it) := iter_next (batch_iterator self) in
      let self := MkFileRecordIter it [] (item_version self) in
      match next with
      | None => (None, self)
      | Some (Err err) => (Some (Err err), self)
      | Some Panic => (Some Panic, self)
      | Some (Ok next_batch) =>
          match decode codec_memory (item_version self) ([], fb_records next_batch) with
          | (Err err, _) => (Some (Err err), self)
          | (Panic, _) => (Some Panic, self)
          | (Ok _, (records, _)) =>
              match record_items (fb_batch next_batch) records with
              | [] => (None, self)
              | r :: batch => (Some (Ok r), MkFileRecordIter it batch (item_version self))
              end
          end
      end
  end.
End records.
End iterators.

(** ** Laws *)

(** [pread] on a regular file of Linux, not interrupted by a signal: all the
    bytes there are, up to the most it reads at once. *)
Definition PREAD_MAX : Z := 2 ^ 31 - 4096.
Class PReadFull `{PRead} :=
  sys_pread_full file offset n : 0 <= offset <= zlen file -> 0 <= n <= PREAD_MAX ->
    sys_pread file offset n = Some (Z.min n (zlen file - offset)).

(** The items of an iterator. *)
Fixpoint take_items {I A} `{Iter I (res A)} (n : nat) (it : I) : list A * I :=
  match n with
  | O => ([], it)
  | S n =>
      match iter_next it with
      | (Some (Ok x), it) => let '(l, it) := take_items n it in (x :: l, it)
      | (_, it) => ([], it)
      end
  end.

Lemma take_items_app {I A} `{Iter I (res A)} n m (it : I) l it1 :
  take_items n it = (l, it1) -> length l = n ->
  take_items (n + m) it = let '(l', it2) := take_items m it1 in (l ++ l', it2).
Proof.
  revert it l. induction n as [|n IH]; intros it l E Hl; cbn [take_items Nat.add] in *.
  - simplify_eq. by destruct (take_items m it1).
  - destruct (iter_next it) as [[[x|k|]|] it'] eqn:En; try by simplify_eq.
    destruct (take_items n it') as [l0 it2] eqn:E0. simplify_eq. injection Hl as Hl.
    rewrite (IH _ _ E0 Hl). by destruct (take_items m it1).
Qed.

Section laws.
Context `{PReadFull} (gzip snappy lz4 zstd : Backend).
Context (crc32c : list byte -> Z) (crc32c_u32 : forall bs, in_u 32 (crc32c bs)).
Implicit Types (b : Batch (list byte)).

#[local] Existing Instance file_batch_Iter.
#[export] Instance file_record_Iter {T} `{!Iter T (res FileBatch)} : Iter (FileRecordIterator T) (res RecordItem) :=
  file_record_next.

Lemma read_vec_ok file offset n :
  0 <= offset -> 0 <= n <= PREAD_MAX -> offset + n <= zlen file -> read_vec file offset n = Ok (ztake n (zdrop offset file)).
Proof.
  intros Ho Hn Hl. unfold read_vec. destruct (Z.ltb_spec isize_max n); [unfold isize_max, PREAD_MAX in *; lia|].
  rewrite sys_pread_full by lia. rewrite Z.min_l by lia. by rewrite Z.ltb_irrefl.
Qed.

(** The batch that an iterator gives for a stored one. *)
Definition file_header b : Batch MemoryRecords :=
  set_header (header (sealed crc32c codec_raw b)) (set_batch_len (calc_batch_len codec_raw b)
    (set_base_offset (base_offset b) (batch_default codec_memory))).

(** A stored batch whose bytes are these records, as its compression says. *)
Definition holds_records b (rs : MemoryRecords) : Prop :=
  valid_batch codec_raw b /\ has_schema (header b) = false /\ zlen (records b) <= PREAD_MAX /\
  valid_memory rs /\ zlen (wire codec_memory 0 rs) <= isize_max /\
  exists a out, get_compression (header b) = inl a /\ uncompress gzip snappy lz4 zstd a (records b) = inl out /\
    default (records b) out = wire codec_memory 0 rs.

Lemma file_batch_next_wire file offset stop b rs post :
  holds_records b rs -> 0 <= offset < stop -> zlen file < 2 ^ 63 ->
  zdrop offset file = wire_batch crc32c codec_raw b ++ post ->
  file_batch_next gzip snappy lz4 zstd (MkFileBatchIter file offset stop)
  = (Some (Ok (MkFileBatch (file_header b) (wire codec_memory 0 rs))),
     MkFileBatchIter file (offset + zlen (wire_batch crc32c codec_raw b)) stop).
Proof.
  intros (Hv & Hs & Hl & _ & _ & a & out & Ea & Eu & Ew) Ho Hf E.
  pose proof E as Eall. apply (f_equal zlen) in Eall. rewrite zlen_zdrop, zlen_app in Eall by lia.
  rewrite (wire_batch_content crc32c codec_raw) in *. rewrite zlen_app, (zlen_wire_preamble crc32c codec_raw) in *.
  assert (content codec_raw b = records b) as Ec.
  { unfold content, wire_schema. rewrite Hs. done. }
  rewrite Ec in *. pose proof (zlen_nonneg post). pose proof (zlen_nonneg (records b)).
  assert (0 < BATCH_FILE_HEADER_SIZE <= 100) as Hh by (vm_compute; split; congruence).
  unfold file_batch_next. cbn [it_end it_offset it_file]. destruct (Z.leb_spec stop offset); [lia|].
  rewrite read_vec_ok by (unfold PREAD_MAX; lia). rewrite <-app_assoc in E.
  rewrite E, ztake_app_exact by (by rewrite (zlen_wire_preamble crc32c codec_raw)).
  assert (decode_buf (decode_from_file_buf 0) (batch_default codec_memory) (wire_preamble crc32c codec_raw b)
    = Ok (file_header b)) as ->.
  { unfold decode_buf. rewrite <-(app_nil_r (wire_preamble crc32c codec_raw b)).
    rewrite (reads_batch_preamble crc32c crc32c_u32 codec_raw 0 b (batch_default codec_memory) Hv []); [done|].
    rewrite app_nil_r, zlen_wire_preamble. vm_compute. discriminate. }
  change (batch_len (file_header b)) with (batch_len (header_of crc32c codec_raw b)).
  rewrite (content_len_eq crc32c codec_raw b Hv), Ec. cbv zeta. cbn [it_file it_offset it_end].
  rewrite wrap_i_id by (unfold in_i; lia). rewrite read_vec_ok by lia.
  apply zdrop_app_zdrop in E; [|lia]. rewrite (zlen_wire_preamble crc32c codec_raw) in E.
  rewrite E, ztake_app_exact by done.
  change (get_compression (header (file_header b))) with (get_compression (header b)). rewrite Ea, Eu, Ew.
  rewrite wrap_i_id by (unfold in_i; lia). do 2 f_equal. lia.
Qed.

(** The records of a batch. *)
Definition stored_items b (rs : MemoryRecords) : list RecordItem := record_items (file_header b) rs.

Section batches.
Context {T : Type} `{!Iter T (res FileBatch)}.

Lemma take_buffered (it : T) l v :
  take_items (length l) (MkFileRecordIter it l v) = (l, MkFileRecordIter it [] v).
Proof. induction l as [|r l IH]; [done|]. cbn [length take_items]. cbn -[take_items]. by rewrite IH. Qed.

(** A batch that comes from the iterator below. *)
Lemma take_batch (it it' : T) b rs v :
  holds_records b rs -> rs <> [] -> iter_next it = (Some (Ok (MkFileBatch (file_header b) (wire codec_memory 0 rs))), it') ->
  take_items (length (stored_items b rs)) (MkFileRecordIter it [] v) = (stored_items b rs, MkFileRecordIter it' [] v).
Proof.
  intros (_ & _ & _ & Hm & Hi & _) Hne E. destruct rs as [|r rs]; [done|]. cbn [stored_items record_items length map].
  cbn [take_items]. unfold iter_next at 1, file_record_Iter, file_record_next. cbn [item_batch batch_iterator item_version].
  rewrite E. cbn [fb_records fb_batch].
  pose proof (@rdecode_exact _ codec_memory codec_memory_ok v (r :: rs) Hm Hi) as Ed. cbn [rwire codec_memory_ok] in Ed.
  change (dflt codec_memory) with (@nil Record') in Ed. rewrite Ed. cbn [record_items map]. rewrite length_map, <-(length_map (record_item (base_offset (file_header b))
    (first_timestamp (header (file_header b)))) rs). by rewrite take_buffered.
Qed.
End batches.

#[local] Existing Instance file_batch_Iter.
#[local] Instance slice_Iter : Iter FileBatchIterator (res FileBatch) := file_batch_next gzip snappy lz4 zstd.

Lemma next_at_end file stop v :
  fst (file_record_next (MkFileRecordIter (MkFileBatchIter file stop stop) [] v)) = None.
Proof.
  unfold file_record_next. cbn [item_batch batch_iterator]. unfold iter_next, slice_Iter, file_batch_next.
  cbn [it_end it_offset]. by rewrite Z.leb_refl.
Qed.

Lemma take_slice file pos bs rss post stop v :
  Forall2 holds_records bs rss -> Forall (fun rs => rs <> []) rss -> 0 <= pos -> zlen file < 2 ^ 63 ->
  zdrop pos file = wire_batches crc32c codec_raw bs ++ post -> stop = pos + zlen (wire_batches crc32c codec_raw bs) ->
  take_items (length (concat (zip_with stored_items bs rss))) (MkFileRecordIter (MkFileBatchIter file pos stop) [] v)
  = (concat (zip_with stored_items bs rss), MkFileRecordIter (MkFileBatchIter file stop stop) [] v).
Proof.
  intros Hh. revert pos. induction Hh as [|b rs bs rss Hb Hh IH]; intros pos Hne Hp Hf E Es.
  - cbn in Es. by rewrite Z.add_0_r in Es; subst.
  - apply Forall_cons in Hne as [Hrs Hne]. rewrite wire_batches_cons in *. rewrite zlen_app in Es.
    rewrite <-app_assoc in E. pose proof (zlen_nonneg (wire_batches crc32c codec_raw bs)) as H1.
    pose proof (zlen_wire_batch_min crc32c codec_raw b) as H2. unfold BATCH_FILE_HEADER_SIZE, BATCH_PREAMBLE_SIZE, BATCH_HEADER_SIZE in H2.
    cbn [zip_with concat]. rewrite length_app.
    erewrite take_items_app; [|eapply take_batch; [done|done|eapply file_batch_next_wire; [done|lia|done|exact E]]|done].
    rewrite IH; [reflexivity|done|lia|done|by apply zdrop_app_zdrop|lia].
Qed.

Lemma slice_records_read file pos bs rss post v :
  Forall2 holds_records bs rss -> Forall (fun rs => rs <> []) rss ->
  0 <= pos -> zlen file < 2 ^ 63 -> zdrop pos file = wire_batches crc32c codec_raw bs ++ post ->
  let items := concat (zip_with stored_items bs rss) in
  let slice := MkFileSlice pos (zlen (wire_batches crc32c codec_raw bs)) in
  exists it', take_items (length items) (file_records_new (from_raw_slice file slice) v) = (items, it') /\
    fst (file_record_next it') = None.
Proof.
  intros Hh Hne Hp Hf E items slice.
  pose proof E as El. apply (f_equal zlen) in El. rewrite zlen_app in El. pose proof (zlen_nonneg post).
  pose proof (zlen_nonneg (wire_batches crc32c codec_raw bs)).
  assert (pos + zlen (wire_batches crc32c codec_raw bs) < 2 ^ 63 \/ bs = []) as Hb.
  { destruct bs as [|b bs]; [by right|left]. rewrite wire_batches_cons, zlen_app in *.
    pose proof (zlen_wire_batch_min crc32c codec_raw b) as Hmin. unfold BATCH_FILE_HEADER_SIZE, BATCH_PREAMBLE_SIZE, BATCH_HEADER_SIZE in Hmin.
    pose proof (zlen_nonneg (wire_batches crc32c codec_raw bs)).
    destruct (Z.le_gt_cases (zlen file) pos) as [Hle|Hgt].
    - rewrite zlen_zdrop in El by lia. lia.
    - rewrite zlen_zdrop in El by lia. lia. }
  assert (from_raw_slice file slice = MkFileBatchIter file pos (pos + zlen (wire_batches crc32c codec_raw bs)) \/ bs = []) as [Es| ->].
  { destruct Hb as [Hb|]; [left|by right]. unfold from_raw_slice, slice. cbn [slice_pos slice_len].
    by rewrite !(wrap_i_id 64) by (rewrite ?wrap_i_id; unfold in_i; lia). }
  - eexists. split.
    + unfold file_records_new. rewrite Es. by eapply take_slice.
    + apply next_at_end.
  - inversion Hh. subst. eexists. split; [reflexivity|].
    replace (from_raw_slice file slice) with (MkFileBatchIter file (as_i64 pos) (as_i64 pos)); [apply next_at_end|].
    unfold from_raw_slice, slice. cbn [slice_pos slice_len]. change (as_i64 (zlen (wire_batches crc32c codec_raw []))) with 0.
    rewrite Z.add_0_r, (wrap_i_id 64 (as_i64 pos)); [done|lia|]. by apply wrap_i_range.
Qed.
End laws.

(** The record iterator over a region of a log file that holds batches gives
    every record of every batch, in order, whatever the compression of each
    batch, with the offset and the time it stands for, and then ends.  [pread]
    is assumed to read what there is, and no batch to be without records. *)
Theorem file_records_read `{PReadFull} (gzip snappy lz4 zstd : Backend)
    (crc32c : list byte -> Z) (crc32c_u32 : forall bs, in_u 32 (crc32c bs))
    (file : list byte) (pos : Z) (bs : list (Batch (list byte))) (rss : list MemoryRecords) (post : list byte) (version : Z) :
  Forall2 (holds_records gzip snappy lz4 zstd) bs rss -> Forall (fun rs => rs <> []) rss ->
  0 <= pos -> zlen file < 2 ^ 63 -> zdrop pos file = wire_batches crc32c codec_raw bs ++ post ->
  let items := concat (zip_with (stored_items crc32c) bs rss) in
  let slice := MkFileSlice pos (zlen (wire_batches crc32c codec_raw bs)) in
  let next := @file_record_next _ (file_batch_next gzip snappy lz4 zstd) in
  exists it', @take_items _ _ next (length items) (file_records_new (from_raw_slice file slice) version) = (items, it') /\
    fst (next it') = None.
Proof. exact (slice_records_read gzip snappy lz4 zstd crc32c crc32c_u32 file pos bs rss post version). Qed.

#[export] Instance plain_pread_full : PReadFull.
Proof. intros file offset n Ho Hn. unfold sys_pread, plain_pread. f_equal. lia. Qed.

(** The same records twice, the second time compressed. *)
Definition example_bytes : list byte := Eval vm_compute in wire codec_memory 0 (number_records example_records).
Definition stored_plain : Batch (list byte) :=
  MkBatch 7 0 (set_last_offset_delta 1 batch_header_default) SCHEMA_ID_NULL example_bytes.
Definition stored_gzip : Batch (list byte) :=
  MkBatch 9 0 (set_compression Gzip (set_last_offset_delta 1 batch_header_default)) SCHEMA_ID_NULL (rev example_bytes).

Lemma stored_plain_holds : holds_records mirror mirror mirror mirror stored_plain (number_records example_records).
Proof.
  split_and!; [repeat split; try (vm_compute; congruence)|reflexivity|vm_compute; congruence|exact example_records_valid|vm_compute; congruence|].
  eexists CompNone, None. split_and!; vm_compute; reflexivity.
Qed.
Lemma stored_gzip_holds : holds_records mirror mirror mirror mirror stored_gzip (number_records example_records).
Proof.
  split_and!; [repeat split; try (vm_compute; congruence)|reflexivity|vm_compute; congruence|exact example_records_valid|vm_compute; congruence|].
  eexists Gzip, (Some example_bytes). split_and!; vm_compute; reflexivity.
Qed.

Lemma file_records_read_witness :
  let bs := [stored_plain; stored_gzip] in
  let file := bytes_of_string "head"%string ++ wire_batches sum32 codec_raw bs in
  let next := @file_record_next _ (@file_batch_next plain_pread mirror mirror mirror mirror) in
  exists items it', @take_items _ _ next 4 (file_records_new (from_raw_slice file (MkFileSlice 4 (zlen file - 4))) 0) = (items, it') /\
    map item_offset items = [7; 8; 9; 10] /\ fst (next it') = None.
Proof.
  intros bs file next.
  destruct (@file_records_read plain_pread plain_pread_full mirror mirror mirror mirror sum32 sum32_u32 file 4 bs
    [number_records example_records; number_records example_records] [] 0) as (it' & E & En).
  - constructor; [exact stored_plain_holds|constructor; [exact stored_gzip_holds|constructor]].
  - repeat constructor; discriminate.
  - lia.
  - vm_compute. reflexivity.
  - rewrite app_nil_r. vm_compute. reflexivity.
  - eexists _, it'. split; [exact E|]. split; [vm_compute; reflexivity|exact En].
Defined.
