(* ===== verification/ReplicaLog.v ===== *)
(** * A replica as the log of a key-value storage

    [fluvio-spu/src/replication/leader/kv.rs]: entries are appended to the
    replica of which the SPU is the leader as the records of a batch, and read
    back from its high watermark downwards, a batch at a time. *)

From stdpp Require Import gmap strings list.
From S2P Require Import Prelude Wire Varint Utf8 Scalars Collections Records Batch RecordSet.
From S2P Require Import StorageIndex StorageLog StorageSegment StorageCheckpoint StorageReplica StorageReplicaLaws.
From S2P Require Import SpuStorage Replication ReplicationLaws Derive KvLog FileIter.

#[local] Open Scope Z_scope.

(* src/crates/fluvio-spu/src/replication/leader/kv.rs:18-18 RECORDS_SERIALIZATION_VERSION *)
Definition RECORDS_SERIALIZATION_VERSION : Z := 0.
Definition u32_max : Z := 2 ^ 32 - 1.

(** [record_it.collect::<Result<Vec<_>, _>>()] *)
Fixpoint collect_items {I A} `{Iter I (res A)} (fuel : nat) (it : I) : res (list A) :=
  match fuel with
  | O => Panic
  | Datatypes.S fuel =>
      match iter_next it with
      | (None, _) => Ok []
      | (Some (Ok x), it) => obind (collect_items fuel it) (fun l => Ok (x :: l))
      | (Some (Err k), _) => Err k
      | (Some Panic, _) => Panic
      end
  end.

Lemma collect_items_S {I A} `{Iter I (res A)} fuel (it : I) :
  collect_items (Datatypes.S fuel) it =
  match iter_next it with
  | (None, _) => Ok []
  | (Some (Ok x), it) => obind (collect_items fuel it) (fun l => Ok (x :: l))
  | (Some (Err k), _) => Err k
  | (Some Panic, _) => Panic
  end.
Proof. done. Qed.

Section replica_log.
Context `{PRead} (gzip snappy lz4 zstd : Backend) {S : Type} `{ReplicaStorage S}.

#[local] Instance batches_Iter : Iter FileBatchIterator (res FileBatch) := file_batch_next gzip snappy lz4 zstd.
#[local] Instance records_Iter {T} `{!Iter T (res FileBatch)} : Iter (FileRecordIterator T) (res RecordItem) := file_record_next.

(** The batch of a list of entries. *)
Definition entries_batch (entries : list (list byte)) : Batch MemoryRecords :=
  fold_left (fun batch entry => add_record (record_new entry) batch) entries (batch_default codec_memory).
(** The notification of the followers goes with [leader_write_record_set]. *)
(* src/crates/fluvio-spu/src/replication/leader/kv.rs:45-58 LeaderReplicaLog::append_batch *)
Definition replica_append_batch (entries : list (list byte)) : KM (LeaderReplicaState S) unit := fun self =>
  match raw_of_batch gzip snappy lz4 zstd (entries_batch entries) with
  | inr e => (Err (KvCompression e), self)
  | inl batch =>
      match leader_write_record_set Ok (self, MkRecordSet [batch]) with
      | (Ok _, (self, _)) => (Ok tt, self)
      | (Err e, (self, _)) => (Err (KvStorage e), self)
      | (Panic, (self, _)) => (Panic, self)
      end
  end.

(** One batch: what is in the buffer after the first record is the rest. *)
Definition first_batch (file : list byte) (slice : FileSlice) : res (list RecordItem) :=
  let it := file_records_new (MkTake 1 (from_raw_slice file slice)) RECORDS_SERIALIZATION_VERSION in
  collect_items (3 + length (item_batch (snd (iter_next it)))) it.
(* src/crates/fluvio-spu/src/replication/leader/kv.rs:76-96 ReplicaRevStream::read_batch *)
Definition read_batch (replica : LeaderReplicaState S) (last_seen_offset : Z) : kresult (list RecordItem) :=
  let next := last_seen_offset - 1 in
  if next <? - 2 ^ 63 then Ok []
  else if next <? 0 then Ok []
  else
    obind (map_err KvRead (sh_read_records next u32_max ReadUncommitted (leader_storage replica))) (fun slice =>
      match file_slice slice with
      | Some (file, slice) => map_err KvIo (first_batch file slice)
      | None => Ok []
      end).

(** The stream: the records of a batch from the last to the first, then those
    of the batch before.  A read that failed is a future that has completed:
    polling it again panics. *)
(* src/crates/fluvio-spu/src/replication/leader/kv.rs:102-138 ReplicaRevStream::poll_next *)
Fixpoint rev_stream (fuel : nat) (replica : LeaderReplicaState S) (last_seen_offset : Z)
    : list (kresult (list byte)) :=
  match fuel with
  | O => [Panic]
  | Datatypes.S fuel =>
      match read_batch replica last_seen_offset with
      | Ok [] => []
      | Ok (first :: records) =>
          map (fun item => Ok (value (item_record item))) (rev (first :: records)) ++
          rev_stream fuel replica (item_offset first)
      | Err e => [Err e; Panic]
      | Panic => [Panic]
      end
  end.
(** Every batch read ends below the one before, so the fuel is enough:
    [rev_stream_holds]. *)
(* src/crates/fluvio-spu/src/replication/leader/kv.rs:41-43 LeaderReplicaLog::read_from_end *)
Definition replica_read_from_end (self : LeaderReplicaState S) : kresult (list (kresult (list byte))) :=
  let hw := pub_hw (leader_storage self) in
  Ok (rev_stream (Datatypes.S (Z.to_nat hw)) self hw).

#[export] Instance replica_log : Log (LeaderReplicaState S) := {|
  log_append_batch := replica_append_batch; log_read_from_end := replica_read_from_end |}.
End replica_log.

(** ** Building the batch *)

Lemma number_records_again rs r : number_records (number_records rs ++ [r]) = number_records (rs ++ [r]).
Proof.
  unfold number_records. rewrite !imap_app, length_imap. f_equal.
  apply list_eq. intros i. rewrite !list_lookup_imap. by destruct (rs !! i).
Qed.

Lemma entries_batch_spec entries :
  entries <> [] -> zlen entries < 2 ^ 31 ->
  let b := entries_batch entries in
  records b = number_records (map record_new entries) /\ base_offset b = 0 /\ schema_id b = SCHEMA_ID_NULL /\
  header b = set_last_offset_delta (zlen entries - 1) batch_header_default.
Proof.
  induction entries as [|e entries IH] using rev_ind; [done|]. intros _ Hl.
  unfold entries_batch. rewrite fold_left_app. cbn [fold_left]. fold (entries_batch entries).
  rewrite zlen_app, zlen_cons, zlen_nil in Hl. pose proof (zlen_nonneg entries) as H0.
  assert (zlen (number_records (number_records (map record_new entries) ++ [record_new e])) = zlen entries + 1) as Ez.
  { rewrite zlen_number_records, zlen_app, zlen_number_records. unfold zlen. by rewrite length_map. }
  destruct entries as [|e0 entries]; [done|].
  destruct IH as (Er & Eb & Es & Eh); [done|lia|]. cbv zeta in *.
  unfold add_record, add_records, update_offset_deltas.
  cbn [records base_offset schema_id header set_batch_len set_header set_records]. rewrite Er, Eb, Es, Eh.
  split_and!; [|done|done|].
  - rewrite number_records_again, map_app. done.
  - rewrite Ez, !wrap_i_id by (rewrite ?wrap_i_id; unfold in_i; lia).
    rewrite zlen_app, (zlen_cons e), zlen_nil. done.
Qed.

Lemma number_records_values rs : map value (number_records rs) = map value rs.
Proof.
  change (value <$> number_records rs = value <$> rs). unfold number_records. rewrite fmap_imap.
  by rewrite (imap_ext _ (const value)), imap_const by done.
Qed.

Lemma wire_record_min r : 1 <= zlen (wire codec_record 0 r).
Proof.
  change (wire codec_record 0 r) with (wire_varint (zlen (wire_record_inner codec_record_data 0 r)) ++ wire_record_inner codec_record_data 0 r).
  rewrite zlen_app. pose proof (zlen_nonneg (wire_varint (zlen (wire_record_inner codec_record_data 0 r)))).
  unfold wire_record_inner at 2. rewrite zlen_app.
  change (wire codec_record_header 0 (preamble r)) with
    (be_split 1 (attributes (preamble r)) ++ wire_varint (timestamp_delta (preamble r)) ++ wire_varint (offset_delta (preamble r))).
  rewrite zlen_app, zlen_be_split, zlen_app.
  pose proof (zlen_nonneg (wire_varint (timestamp_delta (preamble r)))). pose proof (zlen_nonneg (wire_varint (offset_delta (preamble r)))).
  match goal with |- context [zlen (wire (codec_option codec_record_data) 0 (key r) ++ ?l)] =>
    pose proof (zlen_nonneg (wire (codec_option codec_record_data) 0 (key r) ++ l)) end. lia.
Qed.

Lemma wire_memory_count rs : zlen rs <= zlen (wire codec_memory 0 rs).
Proof.
  change (wire codec_memory 0 rs) with (be_split 4 (zlen rs) ++ concat (map (wire codec_record 0) rs)).
  rewrite zlen_app, zlen_be_split. enough (zlen rs <= zlen (concat (map (wire codec_record 0) rs))) by lia.
  induction rs as [|r rs IH]; [done|]. cbn [map concat]. rewrite zlen_cons, zlen_app. pose proof (wire_record_min r). lia.
Qed.

(** ** The replica is a log *)

Section replica_log_laws.
Context `{PReadFull} (gzip snappy lz4 zstd : Backend).
Context (crc32c : list byte -> Z) (crc32c_u32 : forall bs, in_u 32 (crc32c bs)).
Context {S : Type} `{!ReplicaStorage S} `{!ReplicaStorageOK crc32c S}.
Implicit Types (l : LeaderReplicaState S) (b : RawBatch) (L : list RawBatch).

#[local] Instance laws_batches_Iter : Iter FileBatchIterator (res FileBatch) := file_batch_next gzip snappy lz4 zstd.
#[local] Instance laws_records_Iter {T} `{!Iter T (res FileBatch)} : Iter (FileRecordIterator T) (res RecordItem) := file_record_next.

(** A stored batch of entries. *)
Definition stored_entries b (entries : list (list byte)) : Prop :=
  exists rs, holds_records gzip snappy lz4 zstd b rs /\ map value rs = entries /\ rs <> [] /\
    (forall r, head rs = Some r -> offset_delta (preamble r) = 0).

(** The end of the stream: where the log starts after offset 0, there was
    something that is gone. *)
Definition evicted_tail (start : Z) : list (kresult (list byte)) :=
  if start =? 0 then [] else [Err (KvRead (OffsetEvicted (start - 1) start)); Panic].

(** The SPU is the only replica; everything written is committed. *)
Definition replica_holds l (entries : list (list byte)) (tail : list (kresult (list byte))) : Prop :=
  exists start L ess, stores (sh_inner (leader_storage l)) start L /\
    pub_leo (leader_storage l) = st_leo (sh_inner (leader_storage l)) /\
    pub_hw (leader_storage l) = st_leo (sh_inner (leader_storage l)) /\
    in_sync_replica l = 1 /\ Forall2 stored_entries L ess /\ entries = concat ess /\ tail = evicted_tail start.

Definition replica_accepts l (entries : list (list byte)) : Prop :=
  let rs := number_records (map record_new entries) in
  entries <> [] /\ valid_memory rs /\ zlen (wire codec_memory 0 rs) <= PREAD_MAX /\
  BATCH_FILE_HEADER_SIZE + zlen (wire codec_memory 0 rs) <= st_limit (sh_inner (leader_storage l)) /\
  st_leo (sh_inner (leader_storage l)) + zlen entries < 2 ^ 63.

(** The raw batch of a list of entries. *)
Lemma raw_entries entries :
  let rs := number_records (map record_new entries) in
  entries <> [] -> valid_memory rs -> zlen (wire codec_memory 0 rs) <= PREAD_MAX ->
  exists rb, raw_of_batch gzip snappy lz4 zstd (entries_batch entries) = inl rb /\ storable codec_raw rb /\
    last_offset_delta (header rb) = zlen entries - 1 /\ write_size_batch codec_raw 0 rb = BATCH_FILE_HEADER_SIZE + zlen (wire codec_memory 0 rs) /\
    forall o, in_i 64 o -> stored_entries (set_base_offset o rb) entries.
Proof.
  intros rs Hne Hv Hl. pose proof (wire_memory_count rs) as Hc. pose proof (zlen_nonneg entries) as H1.
  assert (zlen rs = zlen entries) as Ers by (unfold rs; rewrite zlen_number_records; unfold zlen; by rewrite length_map).
  assert (zlen (wire codec_memory 0 rs) < 2 ^ 31 - 4095) as Hl' by (unfold PREAD_MAX in Hl; lia).
  destruct (entries_batch_spec entries Hne ltac:(lia)) as (Er & Eb & Es & Eh).
  assert (0 < zlen entries) as Hpos by (by apply zlen_pos).
  unfold raw_of_batch. rewrite Er. fold rs. rewrite encode_memory_vec by (done || unfold isize_max; lia).
  cbn [written buf_append vec_new app]. rewrite Eh, Eb, Es.
  change (get_compression (set_last_offset_delta (zlen entries - 1) batch_header_default)) with (inl CompNone : cresult Compression).
  cbn [cbind compress]. eexists. split; [reflexivity|].
  assert (forall o, in_i 64 o -> valid_batch codec_raw (MkBatch o
    (as_i32 (as_i32 (BATCH_HEADER_SIZE + as_i32 (zlen (wire codec_memory 0 rs))) +
       (if has_schema (set_last_offset_delta (zlen entries - 1) batch_header_default) then SCHEMA_ID_SIZE else 0)))
    (set_last_offset_delta (zlen entries - 1) batch_header_default) SCHEMA_ID_NULL (wire codec_memory 0 rs))) as Hvb.
  { intros o Ho. split; [exact Ho|]. cbn [header schema_id records].
    split; [|split; [split; [done|vm_compute; reflexivity]|split; [done|split; [done|]]]].
    - unfold valid_batch_header. cbn -[in_i]. unfold in_i, NO_TIMESTAMP. split_and!; lia.
    - cbn [rwire codec_raw_ok]. unfold BATCH_HEADER_SIZE, SCHEMA_ID_SIZE. lia. }
  split; [|split; [done|split; [done|]]].
  - split; [apply (Hvb 0); unfold in_i; lia|]. split; [done|]. cbn [header last_offset_delta set_last_offset_delta].
    split; [lia|]. unfold write_size_batch. cbn [write_size codec_raw records]. unfold BATCH_FILE_HEADER_SIZE, BATCH_PREAMBLE_SIZE, BATCH_HEADER_SIZE. lia.
  - intros o Ho. exists rs. split_and!.
    + split_and!; [apply (Hvb o Ho)|done|done|done|unfold isize_max; lia|]. by exists CompNone, None.
    + unfold rs. rewrite number_records_values, map_map. cbn. by rewrite map_id.
    + intros E. rewrite E, zlen_nil in Ers. lia.
    + intros r E. unfold rs in E. destruct entries as [|e entries]; [done|]. cbn in E. by simplify_eq.
Qed.

Lemma replica_append_ok l es tail entries :
  replica_holds l es tail -> replica_accepts l entries ->
  exists l', replica_append_batch gzip snappy lz4 zstd entries l = (Ok tt, l') /\ replica_holds l' (es ++ entries) tail.
Proof.
  intros (start & L & ess & Hs & El & Eh & Ei & Hf & -> & ->) (Hne & Hv & Hl & Hlim & Hend).
  destruct (raw_entries entries Hne Hv Hl) as (rb & Er & Hst & Ed & Ew & Hse).
  destruct (stores_log _ _ _ Hs) as (Hstart & HL & Ee & _). pose proof (end_from_ge codec_raw _ _ HL) as Hge. pose proof (zlen_nonneg L).
  destruct (stores_write _ _ _ [rb] true Hs) as (i' & size & E & Hs' & El' & Eh' & Elim').
  { by apply Forall_singleton. }
  { apply Forall_singleton. by rewrite Ew. }
  { cbn. lia. }
  assert (0 < zlen entries) as Hpos by (by apply zlen_pos).
  unfold replica_append_batch. rewrite Er. unfold leader_write_record_set.
  erewrite bind_ok by done. cbv beta iota. erewrite bind_ok by done. erewrite bind_ok by done.
  assert (total_records (MkRecordSet [rb]) =? 0 = false) as ->.
  { apply Z.eqb_neq. unfold total_records. cbn. unfold records_len. rewrite Ed.
    destruct (Z.ltb_spec (zlen entries - 1) 0); [lia|]. rewrite wrap_u_id by (unfold in_u; lia). lia. }
  unfold sh_write_record_set. rewrite Ei, Z.eqb_refl.
  erewrite bind_ok.
  2:{ unfold zoom at 1. cbn [fst snd]. erewrite bind_ok by done. cbv beta iota zeta.
      erewrite bind_ok by (unfold zoom; cbn [fst snd]; rewrite E; reflexivity).
      erewrite bind_ok by done. cbv beta iota zeta. erewrite bind_ok by done. erewrite bind_ok by done. reflexivity. }
  erewrite bind_ok by done. cbv beta iota.
  eexists. split; [reflexivity|]. eexists start, _, (ess ++ [entries]). cbn [leader_storage set_leader_storage sh_inner pub_leo pub_hw in_sync_replica].
  split_and!; [exact Hs'|done|done|done| |by rewrite concat_app; cbn; rewrite app_nil_r|done].
  cbn [number_batches]. apply Forall2_app; [done|]. constructor; [|constructor]. apply Hse. unfold in_i. lia.
Qed.

(** Collecting the records of one batch. *)
Lemma collect_buffered (it : FileBatchIterator) items v :
  collect_items (2 + length items) (MkFileRecordIter (MkTake 0 it) items v) = Ok items.
Proof.
  induction items as [|x items IH]; [done|].
  change (2 + length (x :: items))%nat with (Datatypes.S (2 + length items)). rewrite collect_items_S.
  change (iter_next (MkFileRecordIter (MkTake 0 it) (x :: items) v))
    with (Some (Ok x : res RecordItem), MkFileRecordIter (MkTake 0 it) items v).
  cbv beta iota. by rewrite IH.
Qed.

Lemma first_batch_items file slice it' b rs :
  holds_records gzip snappy lz4 zstd b rs -> rs <> [] ->
  file_batch_next gzip snappy lz4 zstd (from_raw_slice file slice)
    = (Some (Ok (MkFileBatch (file_header crc32c b) (wire codec_memory 0 rs))), it') ->
  first_batch gzip snappy lz4 zstd file slice = Ok (stored_items crc32c b rs).
Proof.
  intros (_ & _ & _ & Hm & Hi & _) Hne E. destruct rs as [|r rs]; [done|].
  assert (@iter_next _ _ (@file_record_next _ (@take_Iter _ _ (file_batch_next gzip snappy lz4 zstd)))
      (file_records_new (MkTake 1 (from_raw_slice file slice)) 0)
    = (Some (Ok (record_item (base_offset (file_header crc32c b)) (first_timestamp (header (file_header crc32c b))) r)),
       MkFileRecordIter (MkTake 0 it') (record_items (file_header crc32c b) rs) 0)) as En.
  { unfold iter_next at 1, file_record_next, file_records_new. cbn [item_batch batch_iterator item_version].
    unfold iter_next at 1, take_Iter. cbn [take_left take_iter]. unfold iter_next at 1. rewrite E. cbn [fb_records fb_batch].
    pose proof (@rdecode_exact _ codec_memory codec_memory_ok 0 (r :: rs) Hm Hi) as Ed. cbn [rwire codec_memory_ok] in Ed.
    change (dflt codec_memory) with (@nil Record') in Ed. rewrite Ed. done. }
  unfold first_batch, RECORDS_SERIALIZATION_VERSION. cbv zeta. unfold records_Iter, batches_Iter in *. rewrite En. cbn [snd item_batch].
  change (3 + ?n)%nat with (Datatypes.S (2 + n)). rewrite collect_items_S, En.
  pose proof (collect_buffered it' (record_items (file_header crc32c b) rs) 0) as Ec.
  unfold laws_records_Iter, laws_batches_Iter in Ec. by rewrite Ec.
Qed.

(** The batch that ends at an offset is the one found below it. *)
Lemma batch_below o L1 L2 pre post b b' :
  log_from codec_raw o (L1 ++ b :: L2) -> L1 ++ b :: L2 = pre ++ b' :: post ->
  base_offset b' <= base_offset b + last_offset_delta (header b) <= base_offset b' + last_offset_delta (header b') ->
  b = b'.
Proof.
  intros Hl E Hb. destruct (Z.le_gt_cases (base_offset b') (base_offset b)) as [Hle|Hgt].
  - assert (0 <= last_offset_delta (header b)).
    { apply (log_from_app codec_raw) in Hl as [_ Hl]. cbn in Hl. tauto. }
    destruct (log_split_unique o L1 L2 pre post b b' Hl E) as (_ & Eb & _); [lia|done].
  - rewrite E in Hl. symmetry in E. destruct (log_split_unique o pre post L1 L2 b' b Hl E) as (_ & Eb & _); [lia|done].
Qed.

Lemma slice_starts file s bs rest max_len :
  0 <= slice_pos s -> 0 <= max_len -> slice_bytes file s = ztake max_len (bs ++ rest) -> 0 < zlen bs <= max_len ->
  exists rest', zdrop (slice_pos s) file = bs ++ rest' /\ 0 < slice_len s.
Proof.
  intros Hp Hm E Hb. unfold slice_bytes in E.
  assert (bs = ztake (zlen bs) (zdrop (slice_pos s) file)) as Eb.
  { apply (f_equal (ztake (zlen bs))) in E. rewrite !ztake_take, !take_take in E.
    rewrite !ztake_take.
    assert (Z.to_nat (zlen bs) <= Z.to_nat (slice_len s))%nat as Hn.
    { apply (f_equal length) in E. rewrite !length_take, length_app in E. unfold zlen in *. lia. }
    rewrite Nat.min_l in E by lia. rewrite E, Nat.min_l by lia. by rewrite take_app_le, firstn_all2 by (unfold zlen; lia). }
  exists (zdrop (zlen bs) (zdrop (slice_pos s) file)). split.
  - transitivity (ztake (zlen bs) (zdrop (slice_pos s) file) ++ zdrop (zlen bs) (zdrop (slice_pos s) file)).
    + symmetry. apply ztake_zdrop.
    + by rewrite <-Eb.
  - apply (f_equal zlen) in E. destruct (Z.ltb_spec 0 (slice_len s)) as [|Hle]; [done|]. exfalso.
    rewrite !ztake_take in E. unfold zlen in *. rewrite !length_take, length_app in E. lia.
Qed.

(** Reading the batch that ends at an offset. *)
Lemma read_batch_at l start L1 b L2 es rs :
  stores (sh_inner (leader_storage l)) start (L1 ++ b :: L2) ->
  holds_records gzip snappy lz4 zstd b rs -> map value rs = es -> rs <> [] ->
  read_batch gzip snappy lz4 zstd l (base_offset b + last_offset_delta (header b) + 1) = Ok (stored_items crc32c b rs).
Proof.
  intros Hs Hh Ees Hne. destruct (stores_log _ _ _ Hs) as (Hst & HL & Ee & H63).
  pose proof HL as HL'. apply (log_from_app codec_raw) in HL' as [HL1 (Eb & Hd & Hv & HL2)].
  pose proof (end_from_ge codec_raw _ _ HL1) as G1. pose proof (end_from_ge codec_raw _ _ HL2) as G2.
  pose proof (zlen_nonneg L1). pose proof (zlen_nonneg L2). rewrite end_from_app in Ee. cbn [end_from] in Ee. rewrite <-Eb in Ee, G2.
  unfold read_batch. rewrite Z.add_simpl_r. cbv zeta.
  destruct (Z.ltb_spec (base_offset b + last_offset_delta (header b)) (- 2 ^ 63)) as [|_]; [lia|].
  destruct (Z.ltb_spec (base_offset b + last_offset_delta (header b)) 0) as [|_]; [lia|].
  assert (start <= base_offset b + last_offset_delta (header b) < st_leo (sh_inner (leader_storage l))) as Hin by lia.
  destruct (stores_read crc32c _ _ _ (base_offset b + last_offset_delta (header b)) u32_max Hs Hin) as (sl & data & Er & Ed & pre & b' & post & n & EL & Hb' & -> & _ & Hn).
  assert (b = b') as <- by (eapply batch_below; [exact HL|exact EL|lia]).
  specialize (Hn ltac:(done)). destruct n as [|n]; [lia|]. cbn [take] in Ed. rewrite wire_batches_cons in Ed.
  pose proof (stores_slice _ _ _ _ _ ReadUncommitted _ Hs Hin (Z.lt_le_incl _ _ (proj2 Hin)) Er) as Hok. unfold sh_read_records. rewrite Er. cbn [map_err obind].
  assert (0 < zlen (wire_batch crc32c codec_raw b) <= u32_max) as Hw.
  { pose proof (zlen_wire_batch_min crc32c codec_raw b) as Hmin. unfold BATCH_FILE_HEADER_SIZE, BATCH_PREAMBLE_SIZE, BATCH_HEADER_SIZE in Hmin.
    rewrite (wire_batch_content crc32c codec_raw), zlen_app, (zlen_wire_preamble crc32c codec_raw) in *.
    pose proof (zlen_content codec_raw b Hv) as [_ ?]. unfold u32_max, BATCH_FILE_HEADER_SIZE, BATCH_PREAMBLE_SIZE, BATCH_HEADER_SIZE. lia. }
  unfold slice_data, slice_ok in *. destruct (file_slice sl) as [[file s]|].
  2:{ apply (f_equal zlen) in Ed. rewrite zlen_ztake, zlen_app, zlen_nil in Ed by (unfold u32_max; lia).
      pose proof (zlen_nonneg (wire_batches crc32c codec_raw (take n post))). lia. }
  destruct (slice_starts file s _ _ u32_max ltac:(tauto) ltac:(unfold u32_max; lia) Ed Hw) as (rest & Ez & Hsl).
  erewrite first_batch_items; [done|done|done|].
  unfold from_raw_slice. rewrite (wrap_i_id 64 (slice_pos s)), (wrap_i_id 64 (slice_len s)), wrap_i_id by (unfold in_i; lia).
  eapply file_batch_next_wire; [done|done|lia|lia|exact Ez].
Qed.

(** The stream below the end of the first batches. *)
Lemma rev_stream_holds l start L1 L2 ess fuel :
  stores (sh_inner (leader_storage l)) start (L1 ++ L2) -> Forall2 stored_entries L1 ess -> (length L1 < fuel)%nat ->
  rev_stream gzip snappy lz4 zstd fuel l (end_from start L1) = map Ok (rev (concat ess)) ++ evicted_tail start.
Proof.
  intros Hs Hf. revert ess fuel L2 Hs Hf. induction L1 as [|b L1 IH] using rev_ind; intros ess fuel L2 Hs Hf Hfu.
  - apply Forall2_nil_inv_l in Hf as ->. destruct fuel as [|fuel]; [cbn in Hfu; lia|]. cbn [rev_stream end_from concat rev map app].
    destruct (stores_log _ _ _ Hs) as (Hst & _ & _ & H63). unfold read_batch, evicted_tail. cbv zeta.
    destruct (Z.eqb_spec start 0) as [->|Hne]; [done|].
    destruct (Z.ltb_spec (start - 1) (- 2 ^ 63)); [lia|]. destruct (Z.ltb_spec (start - 1) 0); [lia|].
    unfold sh_read_records. by rewrite (stores_evicted _ start _ (start - 1) u32_max ReadUncommitted Hs) by lia.
  - apply Forall2_app_inv_l in Hf as (ess1 & ess2 & Hf1 & Hf2 & ->).
    apply Forall2_cons_inv_l in Hf2 as (es & ess' & (rs & Hh & Ees & Hne & Hfirst) & Hnil & ->). apply Forall2_nil_inv_l in Hnil as ->.
    rewrite length_app in Hfu. cbn in Hfu. destruct fuel as [|fuel]; [lia|]. cbn [rev_stream].
    destruct (stores_log _ _ _ Hs) as (Hst & HL & Ee & H63). rewrite <-app_assoc in Hs, HL.
    pose proof HL as HL'. apply (log_from_app codec_raw) in HL' as [HL1 (Eb & Hd & Hv & HL2)].
    rewrite end_from_app. cbn [end_from]. rewrite <-Eb.
    rewrite (read_batch_at l start L1 b L2 es rs Hs Hh Ees Hne).
    destruct rs as [|r rs]; [done|]. cbn [stored_items record_items map].
    change (record_item ?x ?y r :: map (record_item ?x ?y) rs) with (map (record_item x y) (r :: rs)).
    rewrite <-map_rev, map_map. cbn [item_record record_item item_offset]. rewrite (Hfirst r) by done.
    assert (in_i 64 (base_offset b)) as Hi by apply Hv.
    change (base_offset (file_header crc32c b)) with (base_offset b). rewrite Z.add_0_r, wrap_i_id by done.
    rewrite Eb. erewrite IH; [|exact Hs|done|lia]. rewrite concat_app. cbn [concat]. rewrite app_nil_r, rev_app_distr, map_app.
    rewrite <-app_assoc. f_equal. rewrite <-Ees, <-map_rev, map_map. done.
Qed.

#[export] Program Instance replica_log_ok :
    @LogOK (LeaderReplicaState S) (replica_log gzip snappy lz4 zstd) :=
  @Build_LogOK _ (replica_log gzip snappy lz4 zstd) replica_holds replica_accepts _ _.
Next Obligation. intros. by eapply replica_append_ok. Qed.
Next Obligation.
  intros l es tail (start & L & ess & Hs & El & Eh & Ei & Hf & -> & ->).
  cbn [log_read_from_end replica_log]. unfold replica_read_from_end. cbv zeta. f_equal.
  destruct (stores_log _ _ _ Hs) as (Hst & HL & Ee & H63). rewrite Eh, <-Ee. rewrite <-(app_nil_r L) in Hs.
  eapply rev_stream_holds; [exact Hs|done|].
  pose proof (end_from_ge codec_raw _ _ HL). unfold zlen in *. lia.
Qed.
End replica_log_laws.

(** ** Deviations *)

(** Entries written while more than one replica has to have them are not
    committed, and are not read back: the storage has acknowledged them, and
    after a restart they are gone. *)
Theorem uncommitted_entries_unread `{PRead} (gzip snappy lz4 zstd : Backend) (crc32c : list byte -> Z) {S : Type}
    `{!ReplicaStorage S} `{!ReplicaStorageOK crc32c S} (l l' : LeaderReplicaState S) limit L entries rb :
  leader_ok crc32c l limit L -> in_sync_replica l <> 1 -> pub_hw (leader_storage l) = 0 ->
  raw_of_batch gzip snappy lz4 zstd (entries_batch entries) = inl rb -> sendable limit rb ->
  end_from (pub_leo (leader_storage l)) [rb] < 2 ^ 63 ->
  replica_append_batch gzip snappy lz4 zstd entries l = (Ok tt, l') ->
  replica_read_from_end gzip snappy lz4 zstd l' = Ok [].
Proof.
  intros Hl Hi Eh Er Hs Hend. unfold replica_append_batch. rewrite Er.
  destruct (leader_write_record_set Ok (l, MkRecordSet [rb])) as [[res|e|] [l1 recs]] eqn:E; [|done|done].
  intros [= <-]. destruct (leader_write_spec crc32c l limit L (MkRecordSet [rb]) res l1 recs Hl) as (new & _ & _ & _ & _ & Ehw);
    [by apply Forall_singleton|done|done|].
  unfold replica_read_from_end. cbv zeta. by rewrite (Ehw Hi), Eh.
Qed.

(** A log that no longer starts at offset 0 and has no checkpoint left cannot be
    replayed: the stream gives an error, and the replay polls it again. *)
Theorem evicted_replay_panics {K V L : Type} `{Countable K} `{Log L} (ck : Codec K) (cv : Codec V)
    (log : L) (es : list (list byte)) (start : Z) :
  start <> 0 -> log_read_from_end log = Ok (map Ok (rev es) ++ evicted_tail start) ->
  Forall (fun e => kv_decode codec_entry e <> Ok Checkpoint /\ kv_decode codec_entry e <> Panic) es ->
  fst (kv_sync_from_log ck cv (kv_new log : LogBasedKVStorage K V L)) = Panic.
Proof.
  intros Hst Er Hes. unfold kv_sync_from_log, kv_replay. erewrite bind_ok by reflexivity. unfold kv_new. cbn [kv_log].
  unfold entries_read_from_end. rewrite Er. cbn [obind]. erewrite bind_ok by reflexivity.
  assert (until_checkpoint (map (fun e => obind e (kv_decode codec_entry)) (map Ok (rev es) ++ evicted_tail start)) = Panic) as ->.
  { clear Er. unfold evicted_tail. destruct (Z.eqb_spec start 0) as [|_]; [done|]. apply Forall_rev in Hes.
    induction Hes as [|e l [Hc Hp] _ IH]; [done|]. cbn [map app obind until_checkpoint].
    destruct (kv_decode codec_entry e) as [[k v|k|]|k|]; cbn [obind until_checkpoint]; try done; by rewrite IH. }
  done.
Qed.
