(* ===== verification/SmartBatch.v ===== *)
(** * SmartModules in the SPU

    [fluvio-spu/src/smartengine]: the chain of a request, from its invocations
    ([context.rs], [chain.rs]), the batches of a slice or of a produce request
    through it ([batch.rs], [file_batch.rs], [produce_batch.rs]), and the records
    that a chain looks back at. *)

From stdpp Require Import gmap strings list.
From S2P Require Import Prelude Wire Varint Utf8 Scalars Collections Records Batch RecordSet.
From S2P Require Import StorageIndex StorageLog StorageSegment StorageCheckpoint StorageReplica StorageReplicaLaws.
From S2P Require Import SpuStorage Replication ReplicationLaws Names ClusterTypes SpuProduce.
From S2P Require Import Derive SmartModule KvLog FileIter ReplicaLog.

#[local] Open Scope Z_scope.

(** ** Batches through a chain *)

(* src/crates/fluvio-spu/src/smartengine/batch.rs:19-29 SmartModuleInputBatch *)
Class SmartModuleInputBatch (R : Type) := {
  ib_records : R -> list byte;
  ib_base_offset : R -> Z;
  ib_base_timestamp : R -> Z;
  ib_offset_delta : R -> Z;
  ib_compression : R -> cresult Compression;
}.

(** [impl SmartModuleInputBatch for FileBatch] *)
#[export] Instance file_input_batch : SmartModuleInputBatch FileBatch := {|
  ib_records := fb_records;
  ib_base_offset b := base_offset (fb_batch b);
  ib_base_timestamp b := first_timestamp (header (fb_batch b));
  ib_offset_delta b := last_offset_delta (header (fb_batch b));
  ib_compression b := get_compression (header (fb_batch b)) |}.

(* src/crates/fluvio-spu/src/smartengine/produce_batch.rs:9-12 ProduceBatch *)
Record ProduceBatch := MkProduceBatch { prod_batch : RawBatch; prod_records : list byte }.
#[export] Instance produce_input_batch : SmartModuleInputBatch ProduceBatch := {|
  ib_records := prod_records;
  ib_base_offset b := base_offset (prod_batch b);
  ib_base_timestamp b := first_timestamp (header (prod_batch b));
  ib_offset_delta b := last_offset_delta (header (prod_batch b));
  ib_compression b := get_compression (header (prod_batch b)) |}.

Section produce_batches.
Context (gzip snappy lz4 zstd : Backend).

(** The items of the iterator; a failure is given again and again, and ends
    every loop over it. *)
(* src/crates/fluvio-spu/src/smartengine/produce_batch.rs:55-85 ProduceBatchIterator::next *)
Fixpoint produce_batches (batches : list RawBatch) : list (res ProduceBatch) :=
  match batches with
  | [] => []
  | batch :: batches =>
      match get_compression (header batch) with
      | inr _ => [Err OtherError]
      | inl compression =>
          match uncompress gzip snappy lz4 zstd compression (records batch) with
          | inr _ => [Err OtherError]
          | inl uncompressed =>
              Ok (MkProduceBatch batch (default (records batch) uncompressed)) :: produce_batches batches
          end
      end
  end.
End produce_batches.

(** The items of an iterator, up to its first error. *)
Fixpoint iter_items {I A} `{Iter I (res A)} (fuel : nat) (it : I) : list (res A) :=
  match fuel with
  | O => []
  | Datatypes.S fuel =>
      match iter_next it with
      | (None, _) => []
      | (Some (Ok x), it) => Ok x :: iter_items fuel it
      | (Some r, _) => [r]
      end
  end.

(* src/crates/fluvio-protocol/src/record/batch.rs:133-135 Batch::add_to_offset_delta *)
Definition add_to_offset_delta {R} (delta : Z) (b : Batch R) : Batch R :=
  set_header (set_last_offset_delta (as_i32 (last_offset_delta (header b) + delta)) (header b)) b.
(* src/crates/fluvio-protocol/src/record/batch.rs:137-139 Batch::set_offset_delta *)
Definition set_offset_delta_of {R} (delta : Z) (b : Batch R) : Batch R :=
  set_header (set_last_offset_delta delta (header b)) b.
(* src/crates/fluvio-protocol/src/record/data.rs:455-457 Record::add_base_offset *)
Definition record_add_base_offset (relative_base_offset : Z) (r : Record') : Record' :=
  set_preamble (header_add_base_offset relative_base_offset (preamble r)) r.

Section process.
Context {W : Type} `{Wasm W} {R : Type} `{SmartModuleInputBatch R}.
Notation ChainM := (ME EngineError (list (SmartModuleInstance W))).

(* src/crates/fluvio-spu/src/smartengine/batch.rs:143-153 set_compression *)
Definition set_batch_compression (input_batch : R) (smartmodule_batch : Batch MemoryRecords) : Batch MemoryRecords :=
  match ib_compression input_batch with
  | inl compression => set_header (set_compression compression (header smartmodule_batch)) smartmodule_batch
  | inr _ => smartmodule_batch
  end.

(** [for batch_result in input_batches] *)
Fixpoint process_batches (max_bytes : Z) (input_batches : list (res R)) (smartmodule_batch : Batch MemoryRecords) (total_bytes : Z)
    : ChainM (Batch MemoryRecords * option SmartModuleTransformRuntimeError) :=
  match input_batches with
  | [] => mret (smartmodule_batch, None)
  | Err k :: _ => fail (EngineIo k)
  | Panic :: _ => panic
  | Ok input_batch :: input_batches =>
      output ← chain_process (input_new (ib_records input_batch) (ib_base_offset input_batch) (ib_base_timestamp input_batch));
      let maybe_error := out_error output in
      let next smartmodule_batch total_bytes :=
        let smartmodule_batch :=
          if base_offset smartmodule_batch =? -1 then smartmodule_batch
          else add_to_offset_delta (as_i32 (ib_offset_delta input_batch + 1)) smartmodule_batch in
        match maybe_error with
        | Some _ => mret (smartmodule_batch, maybe_error)
        | None => process_batches max_bytes input_batches smartmodule_batch total_bytes
        end in
      match successes output with
      | [] => next smartmodule_batch total_bytes
      | output_records =>
          let smartmodule_batch :=
            if base_offset smartmodule_batch =? -1
            then set_base_offset (ib_base_offset input_batch) (set_batch_compression input_batch smartmodule_batch)
            else smartmodule_batch in
          let relative_base_offset := as_i64 (base_offset smartmodule_batch - ib_base_offset input_batch) in
          let output_records := map (record_add_base_offset relative_base_offset) output_records in
          let record_bytes := write_size codec_memory 0 output_records in
          if max_bytes <? total_bytes + record_bytes then mret (smartmodule_batch, maybe_error)
          else next (set_records (records smartmodule_batch ++ output_records) smartmodule_batch) (total_bytes + record_bytes)
      end
  end.
(* src/crates/fluvio-spu/src/smartengine/batch.rs:41-141 process_batch *)
Definition process_batch (input_batches : list (res R)) (max_bytes : Z)
    : ChainM (Batch MemoryRecords * option SmartModuleTransformRuntimeError) :=
  process_batches max_bytes input_batches
    (set_offset_delta_of (-1) (set_base_offset (-1) (batch_default codec_memory))) 0.
End process.

Definition usize_max : Z := 2 ^ 64 - 1.

Section transforms.
Context {W : Type} `{Wasm W} (gzip snappy lz4 zstd : Backend).
Notation ChainM := (ME EngineError (list (SmartModuleInstance W))).

(* src/crates/fluvio-spu/src/smartengine/batch.rs:31-38 process_record_set *)
Definition process_record_set (records : RawRecordSet) : ChainM (Batch MemoryRecords * option SmartModuleTransformRuntimeError) :=
  process_batch (produce_batches gzip snappy lz4 zstd (batches records)) usize_max.

Inductive TransformError :=
| TeEngine (e : EngineError)
| TeRuntime (e : SmartModuleTransformRuntimeError)
| TeCompression (e : CompressionError).
(** The SmartModule of the replica, for deduplication. *)
(* src/crates/fluvio-spu/src/replication/leader/replica_state.rs:369-383 LeaderReplicaState::transform *)
Definition replica_transform (records : RawRecordSet) : ME TransformError (list (SmartModuleInstance W)) RawRecordSet := fun chain =>
  match process_record_set records chain with
  | (Ok (sm_result, None), chain) =>
      (match Batch.records sm_result with
       | [] => Ok (MkRecordSet [])
       | _ =>
           match raw_of_batch gzip snappy lz4 zstd sm_result with
           | inl transformed_batch => Ok (MkRecordSet [transformed_batch])
           | inr e => Err (TeCompression e)
           end
       end, chain)
  | (Ok (_, Some error), chain) => (Err (TeRuntime error), chain)
  | (Err e, chain) => (Err (TeEngine e), chain)
  | (Panic, chain) => (Panic, chain)
  end.
(** The chain of a produce request, which looked back already. *)
(* src/crates/fluvio-spu/src/services/public/produce_handler.rs:286-334 apply_smartmodules *)
Definition apply_chain (records : RawRecordSet) (chain : list (SmartModuleInstance W)) : outcome Empty_set (ErrorCode + RawRecordSet) :=
  match process_record_set records chain with
  | (Ok (_, Some error), _) => Ok (inl (EcSmartModuleRuntimeError error))
  | (Ok (sm_result, None), _) =>
      match raw_of_batch gzip snappy lz4 zstd sm_result with
      | inl smartmoduled_records => Ok (inr (MkRecordSet [smartmoduled_records]))
      | inr _ => Ok (inl (EcOther "Compression Error"))
      end
  | (Err _, _) => Ok (inl (EcOther "smartmodule chain failed"))
  | (Panic, _) => Panic
  end.
End transforms.

(** ** Laws of [process_batch] *)

Section process_laws.
Context {W : Type} `{Wasm W} {R : Type} `{SmartModuleInputBatch R}.
Implicit Types (b : R) (bs : list R) (outs : list (list Record')) (chain : list (SmartModuleInstance W)) (sm : Batch MemoryRecords).

(** Batches that follow one another. *)
Fixpoint batches_from (o : Z) bs : Prop :=
  match bs with
  | [] => True
  | b :: bs => ib_base_offset b = o /\ 0 <= ib_offset_delta b /\ batches_from (o + ib_offset_delta b + 1) bs
  end.
Fixpoint batches_end (o : Z) bs : Z :=
  match bs with [] => o | b :: bs => batches_end (o + ib_offset_delta b + 1) bs end.

(** The records the chain makes of them, without an error. *)
Inductive processed : list (SmartModuleInstance W) -> list R -> list (list Record') -> list (SmartModuleInstance W) -> Prop :=
| processed_nil chain : processed chain [] [] chain
| processed_cons chain chain1 chain2 b bs out outs :
    chain_process (input_new (ib_records b) (ib_base_offset b) (ib_base_timestamp b)) chain = (Ok (MkSmOutput out None), chain1) ->
    processed chain1 bs outs chain2 -> processed chain (b :: bs) (out :: outs) chain2.

(** The records as the code adds them to a batch that begins at [base]; their
    offset deltas are moved the wrong way ([later_deltas_wrong]), so that this
    is used only for the size that is counted for them. *)
Definition rebased (base : Z) b (out : list Record') : list Record' :=
  map (record_add_base_offset (as_i64 (base - ib_base_offset b))) out.
Fixpoint rebased_all (base : Z) bs outs : list Record' :=
  match bs, outs with b :: bs, out :: outs => rebased base b out ++ rebased_all base bs outs | _, _ => [] end.
Fixpoint out_bytes (base : Z) bs outs : Z :=
  match bs, outs with
  | b :: bs, out :: outs =>
      (match out with [] => 0 | _ => write_size codec_memory 0 (rebased base b out) end) + out_bytes base bs outs
  | _, _ => 0
  end.
(** The first batch of which something is left. *)
Fixpoint first_base bs outs : Z :=
  match bs, outs with
  | b :: bs, [] :: outs => first_base bs outs
  | b :: _, _ :: _ => ib_base_offset b
  | _, _ => -1
  end.

Lemma batches_end_ge o bs : batches_from o bs -> o <= batches_end o bs.
Proof. revert o. induction bs as [|b bs IH]; intros o; cbn; [lia|]. intros (_ & Hd & Hb). specialize (IH _ Hb). lia. Qed.

Lemma batches_end_take o bs k : batches_from o bs -> o <= batches_end o (take k bs) <= batches_end o bs.
Proof.
  revert o k. induction bs as [|b bs IH]; intros o [|k]; cbn; [lia..| |]; intros (_ & Hd & Hb).
  - pose proof (batches_end_ge _ _ Hb). lia.
  - specialize (IH _ k Hb). lia.
Qed.

Lemma first_base_ge o bs outs : batches_from o bs -> 0 <= o -> -1 <= first_base bs outs.
Proof.
  revert o outs. induction bs as [|b bs IH]; intros o [|[|r out] outs]; cbn; [lia..| |]; intros (Eb & Hd & Hb) Ho; [|lia].
  apply (IH _ _ Hb). lia.
Qed.

Lemma processed_length chain bs outs chain' : processed chain bs outs chain' -> length bs = length outs.
Proof. induction 1; cbn; congruence. Qed.

Lemma rebased_content base bs outs k :
  length bs = length outs ->
  map (fun r => (key r, value r)) (rebased_all base (take k bs) (take k outs)) =
  map (fun r => (key r, value r)) (concat (take k outs)).
Proof.
  revert outs k. induction bs as [|b bs IH]; intros [|out outs] [|k] Hl; cbn; try done.
  injection Hl as Hl. rewrite !map_app, IH by done. f_equal. unfold rebased. rewrite map_map. done.
Qed.

Lemma process_batches_step max_bytes b bs sm total chain chain1 out :
  chain_process (input_new (ib_records b) (ib_base_offset b) (ib_base_timestamp b)) chain = (Ok (MkSmOutput out None), chain1) ->
  process_batches max_bytes (Ok b :: map Ok bs) sm total chain =
    match out with
    | [] => process_batches max_bytes (map Ok bs)
        (if base_offset sm =? -1 then sm else add_to_offset_delta (as_i32 (ib_offset_delta b + 1)) sm) total chain1
    | _ =>
        let sm := if base_offset sm =? -1 then set_base_offset (ib_base_offset b) (set_batch_compression b sm) else sm in
        let out := rebased (base_offset sm) b out in
        let record_bytes := write_size codec_memory 0 out in
        if max_bytes <? total + record_bytes then (Ok (sm, None), chain1)
        else
          let sm := set_records (records sm ++ out) sm in
          process_batches max_bytes (map Ok bs)
            (if base_offset sm =? -1 then sm else add_to_offset_delta (as_i32 (ib_offset_delta b + 1)) sm)
            (total + record_bytes) chain1
    end.
Proof.
  intros E. cbn [process_batches]. erewrite bind_ok by exact E. cbn [out_error successes]. destruct out as [|r out]; [done|].
  unfold rebased. cbv zeta. by case_ltb.
Qed.

(** After the first records the batch has a base offset, and its end follows
    the batches that were processed. *)
Lemma process_rest max_bytes bs outs chain chain' sm total base o :
  processed chain bs outs chain' -> batches_from o bs ->
  base_offset sm = base -> 0 <= base <= o -> last_offset_delta (header sm) = o - base - 1 ->
  batches_end o bs - base < 2 ^ 31 -> total <= max_bytes ->
  exists k sm' chain1, process_batches max_bytes (map Ok bs) sm total chain = (Ok (sm', None), chain1) /\ (k <= length bs)%nat /\
    base_offset sm' = base /\ records sm' = records sm ++ rebased_all base (take k bs) (take k outs) /\
    base + last_offset_delta (header sm') + 1 = batches_end o (take k bs) /\
    total + out_bytes base (take k bs) (take k outs) <= max_bytes /\
    ((k < length bs)%nat -> max_bytes < total + out_bytes base (take (Datatypes.S k) bs) (take (Datatypes.S k) outs)) /\
    (k = length bs -> chain1 = chain').
Proof.
  intros Hp. revert sm total o. induction Hp as [chain|chain chain1 chain2 b bs out outs E Hp IH]; intros sm total o Hf Eb Hb Hd Hend Ht.
  { exists 0%nat, sm, chain. cbn. rewrite app_nil_r. split_and!; try done; try lia. }
  destruct Hf as (Ebase & Hdelta & Hf). cbn [batches_end] in Hend. pose proof (batches_end_ge _ _ Hf) as Hge.
  cbn [map]. rewrite (process_batches_step _ _ _ _ _ _ _ _ E).
  assert (forall recs, let sm1 := add_to_offset_delta (as_i32 (ib_offset_delta b + 1)) (set_records recs sm) in
    last_offset_delta (header sm1) = o + ib_offset_delta b + 1 - base - 1) as Hsm1.
  { intros recs. cbn. rewrite Hd, (wrap_i_id 32 (ib_offset_delta b + 1)) by (unfold in_i; lia).
    rewrite wrap_i_id by (unfold in_i; lia). lia. }
  assert (base_offset sm =? -1 = false) as Hinit by (apply Z.eqb_neq; lia).
  destruct out as [|r out].
  - rewrite Hinit. destruct (IH (add_to_offset_delta (as_i32 (ib_offset_delta b + 1)) sm) total (o + ib_offset_delta b + 1))
      as (k & sm' & c1 & Er & Hk & Eb' & Erec & Eend & Hle & Hmax & Hc); [done|done|lia|apply (Hsm1 (records sm))|done|done|].
    exists (Datatypes.S k), sm', c1. cbn [take rebased_all out_bytes batches_end length]. split_and!; try done; try lia.
    intros Hl. apply Hc. lia.
  - cbv zeta. rewrite Hinit. rewrite Eb. destruct (Z.ltb_spec max_bytes (total + write_size codec_memory 0 (rebased base b (r :: out)))).
    + exists 0%nat, sm, chain1. cbn [take rebased_all out_bytes batches_end length]. rewrite app_nil_r. split_and!; try done; try lia. intros _. rewrite !take_0. cbn [out_bytes]. lia.
    + cbn [base_offset set_records]. rewrite Hinit.
      destruct (IH (add_to_offset_delta (as_i32 (ib_offset_delta b + 1)) (set_records (records sm ++ rebased base b (r :: out)) sm))
        (total + write_size codec_memory 0 (rebased base b (r :: out))) (o + ib_offset_delta b + 1))
        as (k & sm' & c1 & Er & Hk & Eb' & Erec & Eend & Hle & Hmax & Hc); [done|done|lia|apply Hsm1|done|lia|].
      exists (Datatypes.S k), sm', c1. cbn [take rebased_all out_bytes batches_end length]. split_and!; try done; try lia.
      * rewrite Erec. cbn. by rewrite <-app_assoc.
      * intros Hl. apply Hc. lia.
Qed.

Lemma process_first max_bytes bs outs chain chain' sm o :
  processed chain bs outs chain' -> batches_from o bs -> 0 <= o ->
  base_offset sm = -1 -> last_offset_delta (header sm) = -1 -> records sm = [] ->
  batches_end o bs - o < 2 ^ 31 -> 0 <= max_bytes ->
  let base := first_base bs outs in
  exists k sm' chain1, process_batches max_bytes (map Ok bs) sm 0 chain = (Ok (sm', None), chain1) /\ (k <= length bs)%nat /\
    records sm' = rebased_all base (take k bs) (take k outs) /\
    (records sm' <> [] -> base_offset sm' = base /\ base + last_offset_delta (header sm') + 1 = batches_end o (take k bs)) /\
    out_bytes base (take k bs) (take k outs) <= max_bytes /\
    ((k < length bs)%nat -> max_bytes < out_bytes base (take (Datatypes.S k) bs) (take (Datatypes.S k) outs)) /\
    (k = length bs -> chain1 = chain').
Proof.
  intros Hp. revert o. induction Hp as [chain|chain chain1 chain2 b bs out outs E Hp IH]; intros o Hf Ho Eb Hd Er Hend Hmax base.
  { exists 0%nat, sm, chain. cbn. split_and!; try done; try lia. }
  destruct Hf as (Ebase & Hdelta & Hf). cbn [batches_end] in Hend. pose proof (batches_end_ge _ _ Hf) as Hge.
  cbn [map]. rewrite (process_batches_step _ _ _ _ _ _ _ _ E). rewrite Eb. change (-1 =? -1) with true. cbv iota.
  destruct out as [|r out].
  - destruct (IH (o + ib_offset_delta b + 1)) as (k & sm' & c1 & Ep & Hk & Erec & Hres & Hle & Hgt & Hc); [done|lia|done..|lia|done|].
    exists (Datatypes.S k), sm', c1. cbn [take rebased_all out_bytes batches_end length first_base base] in *.
    split_and!; try done; try lia. intros Hl. apply Hc. lia.
  - cbv zeta. set (sm1 := set_base_offset (ib_base_offset b) (set_batch_compression b sm)).
    assert (last_offset_delta (header sm1) = -1 /\ records sm1 = []) as [Hd1 Er1].
    { unfold sm1, set_batch_compression. destruct (ib_compression b); [|done]. cbn. split; [|done].
      unfold set_compression. cbn. done. }
    change (base_offset sm1) with (ib_base_offset b). cbn [first_base base].
    rewrite Z.add_0_l. destruct (Z.ltb_spec max_bytes (write_size codec_memory 0 (rebased (ib_base_offset b) b (r :: out)))).
    + exists 0%nat, sm1, chain1. cbn [take rebased_all out_bytes batches_end length]. split_and!; try done; try lia.
      intros _. rewrite !take_0. cbn [out_bytes]. lia.
    + cbn [base_offset set_records]. change (base_offset sm1) with (ib_base_offset b).
      destruct (Z.eqb_spec (ib_base_offset b) (-1)); [lia|]. rewrite Er1. cbn [app].
      destruct (process_rest max_bytes bs outs chain1 chain2
        (add_to_offset_delta (as_i32 (ib_offset_delta b + 1)) (set_records (rebased (ib_base_offset b) b (r :: out)) sm1))
        (write_size codec_memory 0 (rebased (ib_base_offset b) b (r :: out))) (ib_base_offset b) (o + ib_offset_delta b + 1))
        as (k & sm' & c1 & Ep & Hk & Eb' & Erec & Eend & Hle & Hgt & Hc); [done|done|done|lia| |lia|done|].
      { change (as_i32 (last_offset_delta (header sm1) + as_i32 (ib_offset_delta b + 1)) = o + ib_offset_delta b + 1 - ib_base_offset b - 1).
        rewrite Hd1, (wrap_i_id 32 (ib_offset_delta b + 1)) by (unfold in_i; lia).
        rewrite wrap_i_id by (unfold in_i; lia). lia. }
      exists (Datatypes.S k), sm', c1. cbn [take rebased_all out_bytes batches_end length]. split_and!; try done; try lia.
      intros Hl. apply Hc. lia.
Qed.
End process_laws.

(** ** Properties *)

(** C33: what the SPU sends a consumer with SmartModules for the batches of a
    slice, when the batches follow each other and the chain has no error on
    them.  The response holds, in order, the keys and values of what the chain
    made of the longest prefix of the batches whose records fit in the most
    bytes it may send; and if it holds any, the offset after its last one, from
    which the consumer goes on, is the first offset of the batches that were
    left out, so that no batch is skipped and none sent twice.  (The offsets of
    the single records are not part of this, see [later_deltas_wrong].) *)
Theorem process_batch_resumes {W : Type} `{Wasm W} {R : Type} `{SmartModuleInputBatch R}
    (bs : list R) (outs : list (list Record')) (chain chain' : list (SmartModuleInstance W)) (o max_bytes : Z) :
  processed chain bs outs chain' -> batches_from o bs -> 0 <= o -> batches_end o bs < 2 ^ 63 ->
  batches_end o bs - o < 2 ^ 31 -> 0 <= max_bytes ->
  let base := first_base bs outs in
  exists k sm chain1, process_batch (map Ok bs) max_bytes chain = (Ok (sm, None), chain1) /\ (k <= length bs)%nat /\
    map (fun r => (key r, value r)) (records sm) = map (fun r => (key r, value r)) (concat (take k outs)) /\
    (records sm <> [] -> get_last_offset sm + 1 = batches_end o (take k bs)) /\
    out_bytes base (take k bs) (take k outs) <= max_bytes /\
    ((k < length bs)%nat -> max_bytes < out_bytes base (take (Datatypes.S k) bs) (take (Datatypes.S k) outs)) /\
    (k = length bs -> chain1 = chain').
Proof.
  intros Hp Hf Ho H63 Hend Hmax base.
  destruct (process_first max_bytes bs outs chain chain' (set_offset_delta_of (-1) (set_base_offset (-1) (batch_default codec_memory))) o
    Hp Hf Ho eq_refl eq_refl eq_refl Hend Hmax) as (k & sm & c1 & E & Hk & Erec & Hres & Hrest).
  exists k, sm, c1. split; [exact E|]. split; [done|]. split; [|split; [|exact Hrest]].
  - rewrite Erec. apply rebased_content. by eapply processed_length.
  - intros Hne. destruct (Hres Hne) as [Eb Eend]. unfold get_last_offset. rewrite Eb.
    pose proof (batches_end_take o bs k Hf). pose proof (first_base_ge o bs outs Hf Ho). rewrite wrap_i_id by (unfold in_i; lia). lia.
Qed.

(** Two batches of three records; one batch of the two that pass the filter
    fits in 40 bytes. *)
#[local] Existing Instance example_wasm.
Definition example_filter_chain : list (SmartModuleInstance unit) :=
  [MkInstance tt params_default None false false (SimpleTransform "filter") 22].
Definition example_input_bytes : list byte := Eval vm_compute in wire codec_memory 0 (number_records example_input).
Definition example_file_batch (o : Z) : FileBatch :=
  MkFileBatch (set_offset_delta_of 2 (set_base_offset o (batch_default codec_memory))) example_input_bytes.
Definition example_filtered : list Record' :=
  List.filter (fun r => match key r with Some _ => true | None => false end) (number_records example_input).

Lemma process_batch_resumes_witness :
  exists k sm chain1, process_batch (map Ok [example_file_batch 10; example_file_batch 13]) 40 example_filter_chain = (Ok (sm, None), chain1) /\
    (k <= 2)%nat /\ records sm <> [] /\ get_last_offset sm + 1 = batches_end 10 (take k [example_file_batch 10; example_file_batch 13]).
Proof.
  destruct (process_batch_resumes [example_file_batch 10; example_file_batch 13] [example_filtered; example_filtered]
    example_filter_chain example_filter_chain 10 40) as (k & sm & c1 & E & Hk & Erec & Hres & Hle & Hgt & _).
  - apply (processed_cons _ example_filter_chain); [vm_compute; reflexivity|].
    apply (processed_cons _ example_filter_chain); [vm_compute; reflexivity|apply processed_nil].
  - repeat split; vm_compute; congruence.
  - lia.
  - vm_compute; reflexivity.
  - vm_compute; reflexivity.
  - lia.
  - assert (records sm <> []) as Hne.
    { intros E0. rewrite E0 in Erec. clear Hres E E0. symmetry in Erec. revert Erec. destruct k as [|[|[|k]]];
        [|intros E1; apply (f_equal (@length _)) in E1; vm_compute in E1; discriminate..|cbn in Hk; lia].
      specialize (Hgt ltac:(cbn; lia)). vm_compute in Hgt. discriminate. }
    exists k, sm, c1. split; [exact E|]. split; [exact Hk|]. split; [exact Hne|]. exact (Hres Hne).
Defined.

(** A batch whose records do not fit: the chain has seen them, an aggregate has
    them in its accumulator, but none are returned, and there is no error. *)
Theorem cut_batch_seen {W : Type} `{Wasm W} {R : Type} `{SmartModuleInputBatch R} (b : R) (rest : list (res R))
    (chain chain' : list (SmartModuleInstance W)) (r : Record') (out : list Record') (max_bytes : Z) :
  chain_process (input_new (ib_records b) (ib_base_offset b) (ib_base_timestamp b)) chain = (Ok (MkSmOutput (r :: out) None), chain') ->
  max_bytes < write_size codec_memory 0 (rebased (ib_base_offset b) b (r :: out)) ->
  exists sm, process_batch (Ok b :: rest) max_bytes chain = (Ok (sm, None), chain') /\ records sm = [].
Proof.
  intros E Hmax. unfold process_batch. cbn [process_batches]. erewrite bind_ok by exact E. cbn [out_error successes].
  change (base_offset (set_offset_delta_of _ _) =? -1) with true. cbv iota zeta. fold (rebased (ib_base_offset b) b (r :: out)).
  set (sm := set_base_offset (ib_base_offset b) _).
  change (map (record_add_base_offset (as_i64 (base_offset sm - ib_base_offset b))) (r :: out)) with (rebased (ib_base_offset b) b (r :: out)).
  rewrite Z.add_0_l. destruct (Z.ltb_spec max_bytes (write_size codec_memory 0 (rebased (ib_base_offset b) b (r :: out)))); [|lia].
  exists sm. split; [done|]. unfold sm, set_batch_compression. by destruct (ib_compression b).
Qed.

(** The records of a later batch: the distance between the batches is taken
    off their offset deltas instead of being added, so that base offset and
    delta give an offset that is too small by twice that distance. *)
Theorem later_deltas_wrong {R : Type} `{SmartModuleInputBatch R} (base : Z) (b : R) (r : Record') :
  in_i 64 (base - ib_base_offset b) -> in_i 64 (offset_delta (preamble r) + (base - ib_base_offset b)) ->
  let stored := record_add_base_offset (as_i64 (base - ib_base_offset b)) r in
  base + offset_delta (preamble stored) = ib_base_offset b + offset_delta (preamble r) - 2 * (ib_base_offset b - base).
Proof. intros H1 H2. cbn. rewrite (wrap_i_id 64 (base - _)) by done. rewrite wrap_i_id by done. lia. Qed.
