(* ===== verification/SmartContext.v ===== *)
(** * SmartModule packages and the chain of a request

    [fluvio-controlplane-metadata/src/smartmodule/package.rs], the names under
    which SmartModules are stored and asked for, and the chain that the SPU
    builds for a request ([fluvio-spu/src/smartengine/context.rs] and
    [chain.rs]), with the records that its SmartModules look back at.  The
    text of errors is abbreviated. *)

From Stdlib Require Import Ascii.
From stdpp Require Import gmap strings list.
From S2P Require Import Prelude Wire Varint Utf8 Scalars Collections Records Batch RecordSet.
From S2P Require Import StorageIndex StorageLog StorageSegment StorageCheckpoint StorageReplica StorageReplicaLaws.
From S2P Require Import SpuStorage Replication ReplicationLaws Names ClusterTypes SpuProduce.
From S2P Require Import Derive SmartModule KvLog FileIter ReplicaLog SmartBatch.

#[local] Open Scope Z_scope.

(** ** Packages *)

(** [str::split]: what is before the first separator, and what is after it. *)
Fixpoint split_first (c : Ascii.ascii) (s : string) : string * option string :=
  match s with
  | EmptyString => (EmptyString, None)
  | String c' s =>
      if Ascii.eqb c c' then (EmptyString, Some s)
      else let '(first, rest) := split_first c s in (String c' first, rest)
  end.

(** The version of a package, as [semver] reads and prints it. *)
Section packages.
Context {SemVersion : Type} `{!EqDecision SemVersion} (parse_version : string -> option SemVersion)
  (version_to_string : SemVersion -> string).

(** Without the fields that are for people. *)
(* src/crates/fluvio-controlplane-metadata/src/smartmodule/package.rs:76-91 SmartModulePackage *)
Record SmartModulePackage := MkPackage { pkg_name : string; pkg_group : string; pkg_version : SemVersion }.
(* src/crates/fluvio-controlplane-metadata/src/smartmodule/package.rs:141-145 SmartModulePackageKey *)
Record SmartModulePackageKey := MkPackageKey {
  pk_name : string;
  pk_group : option string;
  pk_version : option SemVersion;
}.
(* src/crates/fluvio-controlplane-metadata/src/smartmodule/package.rs:211-225 SmartModulePackageKey::store_id *)
Definition key_store_id (self : SmartModulePackageKey) : string :=
  let group_id := match pk_group self with Some package => ("-" ++ package)%string | None => EmptyString end in
  let version_id := match pk_version self with Some version => ("-" ++ version_to_string version)%string | None => EmptyString end in
  (pk_name self ++ group_id ++ version_id)%string.
(* src/crates/fluvio-controlplane-metadata/src/smartmodule/package.rs:95-102 SmartModulePackage::store_id *)
Definition package_store_id (self : SmartModulePackage) : string :=
  key_store_id (MkPackageKey (pkg_name self) (Some (pkg_group self)) (Some (pkg_version self))).
(* src/crates/fluvio-controlplane-metadata/src/smartmodule/package.rs:104-106 SmartModulePackage::is_valid *)
Definition package_is_valid (self : SmartModulePackage) : bool :=
  negb (String.eqb (pkg_name self) EmptyString) && negb (String.eqb (pkg_group self) EmptyString).
(* src/crates/fluvio-controlplane-metadata/src/smartmodule/package.rs:108-113 SmartModulePackage::fqdn *)
Definition fqdn (self : SmartModulePackage) : string :=
  (pkg_group self ++ "/" ++ pkg_name self ++ "@" ++ version_to_string (pkg_version self))%string.
(** An error is the version that is not valid. *)
(* src/crates/fluvio-controlplane-metadata/src/smartmodule/package.rs:153-185 SmartModulePackageKey::from_qualified_name *)
Definition from_qualified_name (fqdn : string) : string + SmartModulePackageKey :=
  match split_first "/"%char fqdn with
  | (first_token, Some rest) =>
      let name_part := fst (split_first "/"%char rest) in
      match split_first "@"%char name_part with
      | (second_token, Some rest) =>
          let version_part := fst (split_first "@"%char rest) in
          match parse_version version_part with
          | Some version => inr (MkPackageKey second_token (Some first_token) (Some version))
          | None => inl version_part
          end
      | (second_token, None) => inr (MkPackageKey second_token (Some first_token) None)
      end
  | (first_token, None) => inr (MkPackageKey first_token None None)
  end.
(* src/crates/fluvio-controlplane-metadata/src/smartmodule/package.rs:190-208 SmartModulePackageKey::is_match *)
Definition is_match (self : SmartModulePackageKey) (name : string) (package : option SmartModulePackage) : bool :=
  match package with
  | Some package =>
      if match pk_version self with Some version => negb (bool_decide (pkg_version package = version)) | None => false end then false
      else if match pk_group self with Some group => negb (String.eqb (pkg_group package) group) | None => false end then false
      else String.eqb (pk_name self) (pkg_name package)
  | None => String.eqb (pk_name self) name
  end.

(** A SmartModule in the SPU's store: its package, if it has one, and its
    compressed payload.  The order of the store is that of a hash map. *)
Record StoredSmartModule := MkStored { stored_package : option SmartModulePackage; stored_payload : list byte }.
(* src/crates/fluvio-spu/src/core/smartmodule/metadata.rs:28-37 LocalStore::find_by_pk_key *)
Definition find_by_pk_key (store : list (string * StoredSmartModule)) (fqdn : string) : string + option StoredSmartModule :=
  match from_qualified_name fqdn with
  | inl err => inl err
  | inr pkg_key =>
      inr (snd <$> List.find (fun '(key, sm) => is_match pkg_key key (stored_package sm)) store)
  end.

(** ** Invocations *)

(* src/crates/fluvio-spu-schema/src/server/smartmodule.rs:169-182 SmartModuleContextData *)
Inductive SmartModuleContextData :=
| CtxNone | CtxAggregate (accumulator : list byte) | CtxJoin (topic : string) | CtxJoinStream (topic derivedstream : string).
(* src/crates/fluvio-spu-schema/src/server/smartmodule.rs:124-150 SmartModuleKind *)
Inductive InvocationKind :=
| InvFilter | InvMap | InvArrayMap | InvAggregate (accumulator : list byte) | InvFilterMap | InvJoin (topic : string)
| InvJoinStream (topic derivedstream : string) | InvGeneric (data : SmartModuleContextData).
(* src/crates/fluvio-spu-schema/src/server/smartmodule.rs:78-85 SmartModuleInvocationWasm *)
Inductive SmartModuleInvocationWasm := Predefined (name : string) | AdHoc (gzipped : list byte).
(* src/crates/fluvio-spu-schema/src/server/smartmodule.rs:26-33 SmartModuleInvocation *)
Record SmartModuleInvocation := MkInvocation {
  inv_wasm : SmartModuleInvocationWasm;
  inv_kind : InvocationKind;
  inv_params : SmartModuleExtraParams;
  inv_name : option string;
}.

(* src/crates/fluvio-spu/src/smartengine/context.rs:99-120 resolve_invocation *)
Definition resolve_invocation (store : list (string * StoredSmartModule)) (invocation : SmartModuleInvocation)
    : ErrorCode + SmartModuleInvocation :=
  match inv_wasm invocation with
  | Predefined name =>
      match find_by_pk_key store name with
      | inl _ => inl (EcOther "error parsing SmartModule name")
      | inr (Some smartmodule) =>
          inr (MkInvocation (AdHoc (stored_payload smartmodule)) (inv_kind invocation) (inv_params invocation) (Some name))
      | inr None => inl (EcSmartModuleNotFound name)
      end
  | AdHoc _ => inr invocation
  end.

(** [unzip] is the decompression of [flate2]. *)
Context (unzip : list byte -> option (list byte)).

(* src/crates/fluvio-spu-schema/src/server/smartmodule.rs:93-101 SmartModuleInvocationWasm::into_raw *)
Definition into_raw (self : SmartModuleInvocationWasm) : option (list byte) :=
  match self with AdHoc gzipped => unzip gzipped | Predefined _ => None end.

(** The configuration of a SmartModule of the chain. *)
Definition invocation_config (version : Z) (invocation : SmartModuleInvocation) : SmartModuleConfig :=
  MkConfig
    match inv_kind invocation with
    | InvAggregate accumulator | InvGeneric (CtxAggregate accumulator) => InitialAggregate accumulator
    | _ => InitialNone
    end
    (inv_params invocation) (Some version) (params_lookback (inv_params invocation)).
Fixpoint chain_modules (version : Z) (invocations : list SmartModuleInvocation)
    : ErrorCode + list (SmartModuleConfig * list byte) :=
  match invocations with
  | [] => inr []
  | invocation :: invocations =>
      match into_raw (inv_wasm invocation) with
      | None => inl (EcSmartModuleInvalid "not a module" None)
      | Some raw =>
          match chain_modules version invocations with
          | inl e => inl e
          | inr modules => inr ((invocation_config version invocation, raw) :: modules)
          end
      end
  end.

Context {W : Type} `{Wasm W} (instantiate : list byte -> outcome EngineError W).

Definition of_sum {E A} (r : E + A) : outcome E A := match r with inl e => Err e | inr a => Ok a end.

(** The memory limit is an error of the runtime here. *)
(* src/crates/fluvio-spu/src/smartengine/chain.rs:28-90 build_chain *)
Definition build_chain (version : Z) (invocations : list SmartModuleInvocation) : outcome ErrorCode (list (SmartModuleInstance W)) :=
  obind (of_sum (chain_modules version invocations)) (fun modules =>
    map_err (fun _ => EcSmartModuleChainInitError "chain") (chain_initialize instantiate modules)).
Fixpoint resolve_invocations (store : list (string * StoredSmartModule)) (invocations : list SmartModuleInvocation)
    : ErrorCode + list SmartModuleInvocation :=
  match invocations with
  | [] => inr []
  | invocation :: invocations =>
      match resolve_invocation store invocation with
      | inl e => inl e
      | inr fetched =>
          match resolve_invocations store invocations with inl e => inl e | inr rest => inr (fetched :: rest) end
      end
  end.
(* src/crates/fluvio-spu/src/smartengine/context.rs:60-88 SmartModuleContext::build_smartmodule_context *)
Definition build_smartmodule_context (store : list (string * StoredSmartModule)) (version : Z)
    (invocations : list SmartModuleInvocation) : outcome ErrorCode (option (list (SmartModuleInstance W))) :=
  match invocations with
  | [] => Ok None
  | _ =>
      obind (of_sum (resolve_invocations store invocations)) (fun fetched_invocations =>
      obind (build_chain version fetched_invocations) (fun chain => Ok (Some chain)))
  end.
End packages.
Arguments SmartModulePackage : clear implicits.
Arguments SmartModulePackageKey : clear implicits.
Arguments StoredSmartModule : clear implicits.

(** ** Looking back *)

Section look_back.
Context `{PRead} (gzip snappy lz4 zstd : Backend) {S : Type} `{ReplicaStorage S}.
Implicit Types replica : LeaderReplicaState S.

#[local] Instance batches_Iter : Iter FileBatchIterator (res FileBatch) := file_batch_next gzip snappy lz4 zstd.
#[local] Instance records_Iter {T} `{!Iter T (res FileBatch)} : Iter (FileRecordIterator T) (res RecordItem) := file_record_next.
(** [Vec::into_iter().map(Ok)] *)
#[local] Instance vec_Iter {A} : Iter (list A) (res A) := fun l =>
  match l with [] => (None, []) | x :: l => (Some (Ok x), l) end.

Inductive LookbackError := LeRead (e : ReadError) | LeIo (k : ErrorKind) | LeConversion.

(* src/crates/fluvio-spu/src/storage/mod.rs:100-103 SharableReplicaStorage::start_offset_info *)
Definition start_offset_info (self : SharableReplicaStorage S) : Z * Z :=
  (st_log_start (sh_inner self), st_hw (sh_inner self)).

(** [i64::clamp], which panics when there is nothing between the bounds. *)
Definition clamp {E} (z lo hi : Z) : outcome E Z := if hi <? lo then Panic else Ok (Z.max lo (Z.min z hi)).

(** The items are collected, [fuel] of them at most. *)
(* src/crates/fluvio-spu/src/smartengine/context.rs:148-176 lookback_last_iterator *)
Definition lookback_last (fuel : nat) replica (last version : Z) : outcome LookbackError (list RecordItem) :=
  let '(start_offset, hw) := start_offset_info (leader_storage replica) in
  if 2 ^ 63 <=? last then Err LeConversion
  else
    obind (clamp (Z.max (as_i64 (hw - last)) 0) start_offset hw) (fun offset =>
    obind (map_err LeRead (sh_read_records offset u32_max ReadCommitted (leader_storage replica))) (fun slice =>
      match file_slice slice with
      | None => Ok []
      | Some (file, file_slice) =>
          obind (map_err LeIo (collect_items fuel (file_records_new (from_raw_slice file file_slice) version))) (fun items =>
            Ok (List.filter (fun item => offset <=? item_offset item) items))
      end)).

(** One turn of the loop: the batches read so far, newest first, and the next
    offset. *)
Fixpoint batches_by_age (fuel : nat) replica (min_timestamp offset : Z) (result : list FileBatch)
    : outcome LookbackError (list FileBatch) :=
  match fuel with
  | O => Ok result
  | Datatypes.S fuel =>
      if offset <? 0 then Ok result
      else
        obind (map_err LeRead (sh_read_records (offset - 1) u32_max ReadCommitted (leader_storage replica))) (fun slice =>
          match file_slice slice with
          | None => Ok result
          | Some (file, file_slice) =>
              match iter_next (from_raw_slice file file_slice) with
              | (None, _) => Ok result
              | (Some (Err k), _) => Err (LeIo k)
              | (Some Panic, _) => Panic
              | (Some (Ok batch), _) =>
                  if max_time_stamp (header (fb_batch batch)) <? min_timestamp then Ok result
                  else batches_by_age fuel replica min_timestamp (as_i64 (base_offset (fb_batch batch) - 1)) (batch :: result)
              end
          end)
  end.
(** Every turn goes to a smaller offset, so there are fewer than the high
    watermark and one. *)
(* src/crates/fluvio-spu/src/smartengine/context.rs:206-246 read_batches_by_age *)
Definition read_batches_by_age replica (min_timestamp : Z) : outcome LookbackError (list FileBatch) :=
  let hw := pub_hw (leader_storage replica) in
  batches_by_age (Datatypes.S (Z.to_nat hw)) replica min_timestamp (hw - 1) [].

(** [now] in milliseconds; [age] is a duration, whose milliseconds must fit. *)
(* src/crates/fluvio-spu/src/smartengine/context.rs:178-204 lookback_age_iterator *)
Definition lookback_age (fuel : nat) (now : Z) replica (age : Duration) (last version : Z) : outcome LookbackError (list RecordItem) :=
  let millis := as_secs age * 1000 + subsec_nanos age / 10 ^ 6 in
  if 2 ^ 63 <=? millis then Err LeConversion
  else
    let min_timestamp := now - millis in
    if min_timestamp <? - 2 ^ 63 then Err LeConversion
    else
      obind (if 0 <? last then lookback_last fuel replica last version
             else obind (read_batches_by_age replica min_timestamp) (fun batches =>
               map_err LeIo (collect_items fuel (file_records_new batches version)))) (fun items =>
        Ok (List.filter (fun item => min_timestamp <=? item_timestamp item) items)).
(* src/crates/fluvio-spu/src/smartengine/context.rs:122-133 read_records *)
Definition lookback_records (fuel : nat) (now : Z) replica (lookback : Lookback) (version : Z)
    : outcome LookbackError (list Record') :=
  obind (match lb_age lookback with
         | None => lookback_last fuel replica (lb_last lookback) version
         | Some age => lookback_age fuel now replica age (lb_last lookback) version
         end) (fun items => Ok (map item_record items)).
End look_back.

(** ** Laws *)

(** A string without a character. *)
Fixpoint lacks (c : ascii) (s : string) : bool :=
  match s with EmptyString => true | String c' s => negb (Ascii.eqb c c') && lacks c s end.

Lemma split_first_app c a b : lacks c a = true -> split_first c (a ++ String c b) = (a, Some b).
Proof.
  induction a as [|x a IH].
  - intros _. change ((EmptyString ++ String c b)%string) with (String c b). cbn [split_first]. by rewrite Ascii.eqb_refl.
  - intros [Hx Ha]%andb_true_iff. apply negb_true_iff in Hx. rewrite app_cons. cbn [split_first]. by rewrite Hx, (IH Ha).
Qed.

Lemma split_first_lacks c a : lacks c a = true -> split_first c a = (a, None).
Proof.
  induction a as [|x a IH]; cbn; [done|]. intros [Hx Ha]%andb_true_iff. apply negb_true_iff in Hx. by rewrite Hx, (IH Ha).
Qed.

Lemma lacks_app c a b : lacks c (a ++ b) = lacks c a && lacks c b.
Proof.
  induction a as [|x a IH]; [done|]. rewrite app_cons. cbn [lacks]. by rewrite IH, andb_assoc.
Qed.

(** The name that a package prints is read back to its key. *)
Lemma fqdn_parses {V : Type} (parse_version : string -> option V) (version_to_string : V -> string) (pkg : SmartModulePackage V) :
  parse_version (version_to_string (pkg_version pkg)) = Some (pkg_version pkg) ->
  lacks "/" (pkg_group pkg) = true -> lacks "/" (pkg_name pkg) = true -> lacks "@" (pkg_name pkg) = true ->
  lacks "/" (version_to_string (pkg_version pkg)) = true -> lacks "@" (version_to_string (pkg_version pkg)) = true ->
  from_qualified_name parse_version (fqdn version_to_string pkg) =
  inr (MkPackageKey (pkg_name pkg) (Some (pkg_group pkg)) (Some (pkg_version pkg))).
Proof.
  intros Hp Hg Hn Hna Hv Hva. set (vs := version_to_string (pkg_version pkg)) in *.
  change (fqdn version_to_string pkg) with (pkg_group pkg ++ String "/" (pkg_name pkg ++ String "@" vs))%string.
  assert (lacks "/" (pkg_name pkg ++ String "@" vs) = true) as Hnv.
  { rewrite lacks_app, Hn. cbn [lacks]. by rewrite Hv. }
  unfold from_qualified_name. rewrite split_first_app by done. rewrite (split_first_lacks "/" _ Hnv). cbn [fst].
  rewrite split_first_app by done. rewrite (split_first_lacks "@" vs) by done. cbn [fst]. by rewrite Hp.
Qed.

(** A SmartModule is found under the qualified name of its package and
    nothing else is: the name that a package prints is read back to a key that
    matches the packages of this name, group and version.  The version is read
    back from what is printed, and no part contains a separator. *)
Theorem fqdn_found {V : Type} `{!EqDecision V} (parse_version : string -> option V) (version_to_string : V -> string)
    (pkg : SmartModulePackage V) :
  parse_version (version_to_string (pkg_version pkg)) = Some (pkg_version pkg) ->
  lacks "/" (pkg_group pkg) = true -> lacks "/" (pkg_name pkg) = true -> lacks "@" (pkg_name pkg) = true ->
  lacks "/" (version_to_string (pkg_version pkg)) = true -> lacks "@" (version_to_string (pkg_version pkg)) = true ->
  exists key, from_qualified_name parse_version (fqdn version_to_string pkg) = inr key /\
    forall name other, is_match key name (Some other) = true <-> other = pkg.
Proof.
  intros Hp Hg Hn Hna Hv Hva. exists (MkPackageKey (pkg_name pkg) (Some (pkg_group pkg)) (Some (pkg_version pkg))).
  split; [by apply fqdn_parses|].
  intros name [n g v]. destruct pkg as [n' g' v']. unfold is_match. cbn [pk_name pk_group pk_version pkg_name pkg_group pkg_version].
  case_bool_decide as Ev; cbn [negb]; [|split; [done|intros E; by simplify_eq]]. subst.
  destruct (String.eqb_spec g g') as [->|Hne]; cbn [negb]; [|split; [done|intros E; by simplify_eq]].
  destruct (String.eqb_spec n' n) as [->|Hne]; [done|split; [done|intros E; by simplify_eq]].
Qed.

Lemma fqdn_found_witness :
  exists key, from_qualified_name (fun s => Some s) (fqdn id (MkPackage "filter" "fluvio" "0.1.0")) = inr key /\
    forall name other, is_match key name (Some other) = true <-> other = MkPackage "filter" "fluvio" "0.1.0".
Proof. apply (fqdn_found (fun s => Some s) id (MkPackage "filter" "fluvio" "0.1.0")%string); reflexivity. Defined.

(** Different packages with the same key in the store. *)
Theorem store_id_collides :
  package_store_id id (MkPackage "a-b" "c" "1") = package_store_id id (MkPackage "a" "b-c" "1").
Proof. reflexivity. Qed.

(** A version is only read after a group: without one, it is part of the name. *)
Theorem version_needs_group {V : Type} (parse_version : string -> option V) :
  from_qualified_name parse_version "module1@0.1.0" = inr (MkPackageKey "module1@0.1.0" None None).
Proof. reflexivity. Qed.

(** Looking back by age reads before the last offset it has not seen: with one
    record in the log that is before its start, and the request fails. *)
Theorem age_lookback_fails `{PRead} (gzip snappy lz4 zstd : Backend) (crc32c : list byte -> Z) {S : Type}
    `{!ReplicaStorage S} `{!ReplicaStorageOK crc32c S} (replica : LeaderReplicaState S) (L : list RawBatch)
    (fuel : nat) (now : Z) (age : Duration) (version : Z) :
  stores (sh_inner (leader_storage replica)) 0 L -> pub_hw (leader_storage replica) = 1 ->
  0 <= as_secs age < 2 ^ 40 -> 0 <= subsec_nanos age < 10 ^ 9 -> 0 <= now ->
  lookback_records gzip snappy lz4 zstd fuel now replica (MkLookback 0 (Some age)) version
    = Err (LeRead (OffsetEvicted (-1) 0)).
Proof.
  intros Hs Hh Ha Hn Hnow. unfold lookback_records, lookback_age. cbn [lb_age lb_last].
  assert (0 <= subsec_nanos age / 10 ^ 6 < 1000) by (split; [apply Z.div_pos; lia|apply Z.div_lt_upper_bound; lia]).
  destruct (Z.leb_spec (2 ^ 63) (as_secs age * 1000 + subsec_nanos age / 10 ^ 6)); [lia|]. cbv zeta.
  destruct (Z.ltb_spec (now - (as_secs age * 1000 + subsec_nanos age / 10 ^ 6)) (- 2 ^ 63)); [lia|].
  change (0 <? 0) with false. cbv iota. unfold read_batches_by_age. rewrite Hh. cbn [batches_by_age Z.to_nat Pos.to_nat Pos.iter_op Z.ltb].
  change (1 - 1 <? 0) with false. cbv iota. unfold sh_read_records.
  by rewrite (stores_evicted _ 0 L (1 - 1 - 1) u32_max ReadCommitted Hs) by lia.
Qed.
