(* ===== verification/ConsumerOffsets.v ===== *)
(** * Consumer offsets

    [fluvio-spu/src/kv/consumer.rs], the offsets of consumers as a key-value
    storage that is flushed now and then, shared between connections, and the
    handlers that use it: [fluvio-spu/src/services/public/consumer_handler.rs]
    and the peer requests of [services/internal]. *)

From stdpp Require Import gmap strings list.
From S2P Require Import Prelude Wire Varint Utf8 Scalars Collections Records Batch RecordSet.
From S2P Require Import StorageIndex StorageLog StorageSegment StorageCheckpoint StorageReplica StorageReplicaLaws.
From S2P Require Import SpuStorage Replication ReplicationLaws Names Derive KvLog FileIter ReplicaLog.

#[local] Open Scope Z_scope.

(** ** Keys and values *)

(* src/crates/fluvio-spu/src/kv/consumer.rs:33-36 ConsumerOffsetKey *)
Record ConsumerOffsetKey := MkOffsetKey { replica_id : ReplicaKey; consumer_id : string }.
#[export] Instance ConsumerOffsetKey_eq_dec : EqDecision ConsumerOffsetKey.
Proof. solve_decision. Defined.
#[export] Instance ConsumerOffsetKey_countable : Countable ConsumerOffsetKey.
Proof. by apply (inj_countable' (fun k => (replica_id k, consumer_id k)) (fun p => MkOffsetKey p.1 p.2)); intros []. Defined.
(* src/crates/fluvio-spu/src/kv/consumer.rs:40-43 ConsumerOffset *)
Record ConsumerOffset := MkOffset { offset : Z; modified_time : Z }.

Definition codec_replica_key : Codec ReplicaKey :=
  derive_struct (MkReplicaKey EmptyString 0)
    [plain codec_string topic (fun x s => MkReplicaKey x (partition s));
     plain codec_u32 partition (fun x s => MkReplicaKey (topic s) x)].
Definition codec_offset_key : Codec ConsumerOffsetKey :=
  derive_struct (MkOffsetKey (MkReplicaKey EmptyString 0) EmptyString)
    [plain codec_replica_key replica_id (fun x s => MkOffsetKey x (consumer_id s));
     plain codec_string consumer_id (fun x s => MkOffsetKey (replica_id s) x)].
Definition codec_offset : Codec ConsumerOffset :=
  derive_struct (MkOffset 0 0)
    [plain codec_i64 offset (fun x s => MkOffset x (modified_time s));
     plain codec_u64 modified_time (fun x s => MkOffset (offset s) x)].

(** ** The storage *)

(* src/crates/fluvio-spu/src/kv/consumer.rs:22-22 DEFAULT_FLUSH_THRESHOLD *)
Definition DEFAULT_FLUSH_THRESHOLD : Z := 100.

Notation OffsetKV := (LogBasedKVStorage ConsumerOffsetKey ConsumerOffset).

Section storage.
Context {L : Type} `{Log L} `{!HashOrder ConsumerOffsetKey ConsumerOffset}.

(* src/crates/fluvio-spu/src/kv/consumer.rs:46-50 ConsumerOffsetStorage *)
Record ConsumerOffsetStorage := MkOffsets {
  co_kv : OffsetKV L;
  flush_threshold : Z;
  changes_since_flush : Z;
}.

(* src/crates/fluvio-spu/src/kv/consumer.rs:80-90 ConsumerOffsetStorage::with *)
Definition offsets_with (replica : L) (flush_threshold : Z) : ConsumerOffsetStorage :=
  MkOffsets (kv_new replica) flush_threshold 0.
(* src/crates/fluvio-spu/src/kv/consumer.rs:73-78 ConsumerOffsetStorage::new *)
Definition offsets_new (replica : L) : ConsumerOffsetStorage := offsets_with replica DEFAULT_FLUSH_THRESHOLD.

Definition on_kv {A} (m : KM (OffsetKV L) A) : KM ConsumerOffsetStorage A :=
  zoom co_kv (fun kv self => MkOffsets kv (flush_threshold self) (changes_since_flush self)) m.
(* src/crates/fluvio-spu/src/kv/consumer.rs:92-98 ConsumerOffsetStorage::maybe_flush *)
Definition maybe_flush : KM ConsumerOffsetStorage unit :=
  self ← get;
  if flush_threshold self <? changes_since_flush self then
    on_kv (kv_flush codec_offset_key codec_offset) ;;
    modify (fun self => MkOffsets (co_kv self) (flush_threshold self) 0)
  else mret tt.

(** [let result = ..; self.changes_since_flush.add_assign(1);
    self.maybe_flush().await?; result] *)
Definition then_flush (m : KM (OffsetKV L) unit) : KM ConsumerOffsetStorage unit := fun self =>
  let '(result, kv) := m (co_kv self) in
  match result with
  | Panic => (Panic, MkOffsets kv (flush_threshold self) (changes_since_flush self))
  | _ =>
      (maybe_flush ;; lift result)
        (MkOffsets kv (flush_threshold self) (wrap_u 64 (changes_since_flush self + 1)))
  end.
(* src/crates/fluvio-spu/src/kv/consumer.rs:102-105 ConsumerOffsetStorage::get *)
Definition offsets_get (key : ConsumerOffsetKey) (self : ConsumerOffsetStorage) : option ConsumerOffset :=
  kv_get key (co_kv self).
(* src/crates/fluvio-spu/src/kv/consumer.rs:107-113 ConsumerOffsetStorage::delete *)
Definition offsets_delete (key : ConsumerOffsetKey) : KM ConsumerOffsetStorage unit :=
  then_flush (kv_delete codec_offset_key key).
(* src/crates/fluvio-spu/src/kv/consumer.rs:115-127 ConsumerOffsetStorage::put *)
Definition offsets_put (key : ConsumerOffsetKey) (value : ConsumerOffset) : KM ConsumerOffsetStorage unit :=
  then_flush (kv_put codec_offset_key codec_offset key value).
(* src/crates/fluvio-spu/src/kv/consumer.rs:129-132 ConsumerOffsetStorage::entries *)
Definition offsets_entries (self : ConsumerOffsetStorage) : list (ConsumerOffsetKey * ConsumerOffset) :=
  kv_entries (co_kv self).
(** The keys to delete, in the order of the map. *)
Definition keys_of_replica (replica : ReplicaKey) (self : ConsumerOffsetStorage) : list ConsumerOffsetKey :=
  List.filter (fun key => bool_decide (replica_id key = replica)) (map fst (kv_entries (co_kv self))).
(* src/crates/fluvio-spu/src/kv/consumer.rs:172-195 SharableConsumerOffsetStorage::delete_by_replica_key *)
Definition delete_by_replica_key (replica : ReplicaKey) : KM ConsumerOffsetStorage unit :=
  self ← get;
  for_each offsets_delete (keys_of_replica replica self).
End storage.
Arguments ConsumerOffsetStorage : clear implicits.

(** ** The service

    An SPU has its leader replicas by their key; the replica itself, which is
    shared, is in [replicas] under a number.  The storages that were made for
    leader replicas are kept by the replica's key and hold the replica they were
    made for. *)

Inductive OffsetError :=
| FetchSessionNotFound
| StreamWithoutConsumer
| OffsetNotLeader
| OffsetOther (e : KvError).

Section service.
Context {L : Type} `{Log L} `{!HashOrder ConsumerOffsetKey ConsumerOffset}.

Record SharedStorage := MkShared {
  ss_replica : nat;
  ss_cache : gmap ConsumerOffsetKey ConsumerOffset;
  ss_threshold : Z;
  ss_changes : Z;
}.
Record OffsetService := MkService {
  replicas : gmap nat L;
  leaders : gmap ReplicaKey nat;
  storages : gmap ReplicaKey SharedStorage;
}.

Notation SvM := (ME OffsetError OffsetService).

(** Run an operation on a shared storage with the replica it holds. *)
Definition on_storage {A} (id : ReplicaKey) (shared : SharedStorage) (m : KM (ConsumerOffsetStorage L) A) : SvM A := fun self =>
  match replicas self !! ss_replica shared with
  | None => (Panic, self)
  | Some log =>
      let '(r, st) := m (MkOffsets (MkKV (ss_cache shared) log) (ss_threshold shared) (ss_changes shared)) in
      (map_err OffsetOther r,
       MkService (<[ss_replica shared := kv_log (co_kv st)]> (replicas self)) (leaders self)
         (<[id := MkShared (ss_replica shared) (kv_cache (co_kv st)) (flush_threshold st) (changes_since_flush st)]> (storages self)))
  end.
(** The storage of the replica [replica], which has the key [id]: one that
    cannot be read is not kept. *)
(* src/crates/fluvio-spu/src/kv/consumer.rs:53-69 SharedConsumerOffsetStorages::get_or_insert *)
Definition get_or_insert (id : ReplicaKey) (replica : nat) : SvM SharedStorage := fun self =>
  match storages self !! id with
  | Some shared => (Ok shared, self)
  | None =>
      match replicas self !! replica with
      | None => (Panic, self)
      | Some log =>
          let st := offsets_new log in
          match kv_sync_from_log codec_offset_key codec_offset (co_kv st) with
          | (Ok _, kv) =>
              let shared := MkShared replica (kv_cache kv) (flush_threshold st) (changes_since_flush st) in
              (Ok shared, MkService (replicas self) (leaders self) (<[id := shared]> (storages self)))
          | (Err e, _) => (Err (OffsetOther e), self)
          | (Panic, _) => (Panic, self)
          end
      end
  end.

(* src/crates/fluvio-types/src/defaults.rs:60-61 CONSUMER_REPLICA_KEY *)
Definition CONSUMER_REPLICA_KEY : ReplicaKey := MkReplicaKey "consumer-offset" 0.

(** Run [m] on the storage of the leader of the offsets. *)
Definition on_offsets {A} (m : KM (ConsumerOffsetStorage L) A) (replica : nat) : SvM A :=
  shared ← get_or_insert CONSUMER_REPLICA_KEY replica;
  on_storage CONSUMER_REPLICA_KEY shared m.
Definition offsets_leader : SvM nat := fun self =>
  match leaders self !! CONSUMER_REPLICA_KEY with
  | Some replica => (Ok replica, self)
  | None => (Err OffsetNotLeader, self)
  end.

(** [now] is the time in seconds. *)
(* src/crates/fluvio-spu/src/services/public/consumer_handler.rs:236-253 update_offset_for_leader *)
Definition update_offset_for_leader (now : Z) (replica : nat) (topic : string) (partition : Z)
    (consumer_id : string) (offset : Z) : SvM unit :=
  on_offsets (offsets_put (MkOffsetKey (MkReplicaKey topic partition) consumer_id) (MkOffset offset now)) replica.

(** A stream of the connection: what it reads and for whom; its offset publisher
    is not used here. *)
(* src/crates/fluvio-spu/src/services/public/stream_fetch.rs:651-656 StreamPublisher *)
Record StreamPublisher := MkPublisher { pub_topic : string; pub_partition : Z; pub_consumer : option string }.

(** [peer] is the request to the SPU that leads the offsets. *)
(* src/crates/fluvio-spu/src/services/public/consumer_handler.rs:108-159 handle_update *)
Definition handle_update (now : Z) (peer : string -> Z -> string -> Z -> outcome OffsetError unit)
    (publishers : gmap Z StreamPublisher) (offset session_id : Z) : SvM Z :=
  match publishers !! session_id with
  | None => fail FetchSessionNotFound
  | Some publisher =>
      match pub_consumer publisher with
      | None => fail StreamWithoutConsumer
      | Some consumer =>
          self ← get;
          match leaders self !! CONSUMER_REPLICA_KEY with
          | Some replica =>
              update_offset_for_leader now replica (pub_topic publisher) (pub_partition publisher) consumer offset ;;
              mret offset
          | None =>
              lift (peer (pub_topic publisher) (pub_partition publisher) consumer offset) ;; mret offset
          end
      end
  end.
(* src/crates/fluvio-spu/src/services/public/consumer_handler.rs:161-181 handle_delete *)
Definition handle_delete (target_replica : ReplicaKey) (consumer_id : string) : SvM unit :=
  replica ← offsets_leader;
  on_offsets (offsets_delete (MkOffsetKey target_replica consumer_id)) replica.

(* src/crates/fluvio-spu-schema/src/server/consumer_offset.rs:66-69 FilterOpts *)
Record FilterOpts := MkFilter { filter_replica : option ReplicaKey; filter_consumer : option string }.
Definition filter_keeps (opts : option FilterOpts) (key : ConsumerOffsetKey) : bool :=
  match opts with
  | None => true
  | Some opts =>
      match filter_replica opts with Some r => bool_decide (replica_id key = r) | None => true end &&
      match filter_consumer opts with Some c => bool_decide (consumer_id key = c) | None => true end
  end.
(** [not_deleted] are the replicas the SPU knows of. *)
(* src/crates/fluvio-spu/src/services/public/consumer_handler.rs:183-234 handle_fetch_consumers *)
Definition handle_fetch_consumers (filter_opts : option FilterOpts) (not_deleted : gset ReplicaKey)
    : SvM (list (ConsumerOffsetKey * ConsumerOffset)) :=
  replica ← offsets_leader;
  all_consumers ← on_offsets (st ← get; mret (offsets_entries st)) replica;
  mret (List.filter (fun '(key, _) => filter_keeps filter_opts key && bool_decide (replica_id key ∈ not_deleted)) all_consumers).

(* src/crates/fluvio-spu/src/services/internal/update_consumer_offset_handler.rs:22-49 handle_update_consumer_offset_request *)
Definition handle_update_peer (now : Z) (replica_id : ReplicaKey) (consumer_id : string) (offset : Z) : SvM unit :=
  replica ← offsets_leader;
  on_offsets (offsets_put (MkOffsetKey replica_id consumer_id) (MkOffset offset now)) replica.
(* src/crates/fluvio-spu/src/services/internal/fetch_consumer_offset_handler.rs:22-49 handle_fetch_consumer_offset_request *)
Definition handle_fetch_peer (replica_id : ReplicaKey) (consumer_id : string) : SvM (option Z) :=
  replica ← offsets_leader;
  consumer ← on_offsets (st ← get; mret (offsets_get (MkOffsetKey replica_id consumer_id) st)) replica;
  mret (offset <$> consumer).
(* src/crates/fluvio-spu/src/core/global_context.rs:494-511 delete_consumers_offset *)
Definition delete_consumers_offset (replica : ReplicaKey) : SvM unit := fun self =>
  match leaders self !! CONSUMER_REPLICA_KEY with
  | None => (Ok tt, self)
  | Some replica_consumer => on_offsets (delete_by_replica_key replica) replica_consumer self
  end.
End service.

(** ** Laws *)

#[export] Instance replica_key_fresh : DeriveFresh (MkReplicaKey EmptyString 0)
    [plain codec_string topic (fun x s => MkReplicaKey x (partition s));
     plain codec_u32 partition (fun x s => MkReplicaKey (topic s) x)].
Proof. solve_fresh; cbn; by destruct (_ <=? _). Qed.
#[export] Instance codec_replica_key_ok : CodecOK codec_replica_key := derive_struct_ok _ _.
#[export] Instance offset_key_fresh : DeriveFresh (MkOffsetKey (MkReplicaKey EmptyString 0) EmptyString)
    [plain codec_replica_key replica_id (fun x s => MkOffsetKey x (consumer_id s));
     plain codec_string consumer_id (fun x s => MkOffsetKey (replica_id s) x)].
Proof. solve_fresh; cbn; by destruct (_ <=? _). Qed.
#[export] Instance codec_offset_key_ok : CodecOK codec_offset_key := derive_struct_ok _ _.
#[export] Instance offset_fresh : DeriveFresh (MkOffset 0 0)
    [plain codec_i64 offset (fun x s => MkOffset x (modified_time s));
     plain codec_u64 modified_time (fun x s => MkOffset (offset s) x)].
Proof. solve_fresh; cbn; by destruct (_ <=? _). Qed.
#[export] Instance codec_offset_ok : CodecOK codec_offset := derive_struct_ok _ _.

Section laws.
Context {L : Type} `{LogOK L} `{!HashOrder ConsumerOffsetKey ConsumerOffset} `{!HashOrderOK ConsumerOffsetKey ConsumerOffset}.
Notation ck := codec_offset_key.
Notation cv := codec_offset.
Notation Op := (KvOp ConsumerOffsetKey ConsumerOffset).
Implicit Types (st : ConsumerOffsetStorage L) (m : gmap ConsumerOffsetKey ConsumerOffset).

Definition map_fits m : Prop := map_Forall (fun k v => key_fits ck k /\ value_fits cv v) m.
Definition offsets_ok st : Prop := kv_ok ck cv (co_kv st) /\ map_fits (kv_cache (co_kv st)).

Definition flush_due st : bool := flush_threshold st <? wrap_u 64 (changes_since_flush st + 1).
(** The log accepts what an operation appends, and the flush after it. *)
Definition op_accepted (op : Op) st : Prop :=
  (forall batch, op_batch ck cv op (kv_cache (co_kv st)) = Some batch -> log_accepts (kv_log (co_kv st)) batch) /\
  (forall kv, kv_step ck cv op (co_kv st) = (Ok tt, kv) -> flush_due st = true ->
     log_accepts (kv_log kv) (map (entry_bytes ck cv) (snapshot (kv_cache kv)))).
Definition run_ops (ops : list Op) : KM (ConsumerOffsetStorage L) unit := for_each (fun op => then_flush (kv_step ck cv op)) ops.
Fixpoint ops_accepted (ops : list Op) st : Prop :=
  match ops with
  | [] => True
  | op :: ops => op_accepted op st /\ forall st', then_flush (kv_step ck cv op) st = (Ok tt, st') -> ops_accepted ops st'
  end.

Lemma then_flush_ok op st :
  offsets_ok st -> op_fits ck cv op -> op_accepted op st ->
  exists st', then_flush (kv_step ck cv op) st = (Ok tt, st') /\ offsets_ok st' /\
    kv_cache (co_kv st') = map_step (kv_cache (co_kv st)) op.
Proof.
  intros [Hok Hfit] Hop [Ha Hfl].
  destruct (kv_step_ok ck cv op (co_kv st) Hok Hfit Hop Ha) as (kv & E & Hok1 & Hfit1 & Ec).
  unfold then_flush. rewrite E. specialize (Hfl _ E). unfold flush_due in Hfl.
  unfold maybe_flush. rewrite bind_assoc. erewrite bind_ok by reflexivity. cbn [flush_threshold changes_since_flush].
  destruct (_ <? _).
  - destruct (kv_flush_ok ck cv kv Hok1 Hfit1 (Hfl eq_refl)) as (kv2 & E2 & Hok2 & Ec2).
    rewrite bind_assoc. erewrite bind_ok by (unfold on_kv, zoom; cbn [co_kv]; rewrite E2; reflexivity).
    erewrite bind_ok by reflexivity. eexists. split; [reflexivity|]. unfold offsets_ok, map_fits in *.
    cbn [co_kv]. rewrite Ec2, <-Ec. done.
  - erewrite bind_ok by reflexivity. eexists. split; [reflexivity|]. unfold offsets_ok. cbn [co_kv]. by rewrite <-Ec.
Qed.

Lemma run_ops_ok ops st :
  offsets_ok st -> Forall (op_fits ck cv) ops -> ops_accepted ops st ->
  exists st', run_ops ops st = (Ok tt, st') /\ offsets_ok st' /\
    kv_cache (co_kv st') = fold_left map_step ops (kv_cache (co_kv st)).
Proof.
  intros Hok Hops. revert st Hok. induction Hops as [|op ops Hop _ IH]; intros st Hok Hacc.
  - by exists st.
  - destruct Hacc as [Ha Hacc]. destruct (then_flush_ok op st Hok Hop Ha) as (st1 & E & Hok1 & Ec).
    unfold run_ops. cbn [for_each fold_left]. erewrite bind_ok by exact E. rewrite <-Ec. apply IH; [done|by apply Hacc].
Qed.

(** Deleting the keys of a replica. *)
Lemma fold_deletes ks m k :
  fold_left map_step (map OpDelete ks) m !! k = if decide (k ∈ ks) then None else m !! k.
Proof.
  revert m. induction ks as [|k0 ks IH]; intros m; [by rewrite decide_False by set_solver|].
  cbn [map fold_left map_step]. rewrite IH. destruct (decide (k ∈ ks)) as [Hin|Hn].
  - by rewrite decide_True by set_solver.
  - destruct (decide (k = k0)) as [->|Hne].
    + rewrite decide_True by set_solver. apply lookup_delete_eq.
    + rewrite decide_False by set_solver. by apply lookup_delete_ne.
Qed.

Lemma elem_of_keys_of_replica r st k :
  k ∈ keys_of_replica r st <-> is_Some (kv_cache (co_kv st) !! k) /\ replica_id k = r.
Proof.
  unfold keys_of_replica. rewrite list_elem_of_In, filter_In, bool_decide_eq_true, in_map_iff. unfold kv_entries.
  split.
  - intros [([k' v] & <- & Hin) Hr]. split; [|done]. apply list_elem_of_In in Hin. rewrite hash_iter_perm in Hin.
    apply elem_of_map_to_list in Hin. by exists v.
  - intros [[v Hv] Hr]. split; [|done]. exists (k, v). split; [done|]. apply list_elem_of_In. rewrite hash_iter_perm.
    by apply elem_of_map_to_list.
Qed.

Lemma delete_replica_map r st :
  fold_left map_step (map OpDelete (keys_of_replica r st)) (kv_cache (co_kv st))
  = filter (fun kv => replica_id kv.1 <> r) (kv_cache (co_kv st)).
Proof.
  apply map_eq. intros k. rewrite fold_deletes. symmetry. destruct (decide (k ∈ keys_of_replica r st)) as [Hin|Hn].
  - apply elem_of_keys_of_replica in Hin as [_ Hr]. apply map_lookup_filter_None. right. intros v _ Hne. by apply Hne.
  - destruct (kv_cache (co_kv st) !! k) as [v|] eqn:E.
    + apply map_lookup_filter_Some. split; [done|]. cbn. intros Hr. apply Hn, elem_of_keys_of_replica. split; [by rewrite E|done].
    + apply map_lookup_filter_None. by left.
Qed.

(** *** The service *)

Implicit Types (sv : @OffsetService L).

(** The SPU leads the offsets; its log holds the map [m], and so does the storage
    in memory if there is one. *)
Definition offsets_map sv m : Prop :=
  exists replica log, leaders sv !! CONSUMER_REPLICA_KEY = Some replica /\ replicas sv !! replica = Some log /\
    kv_ok ck cv (MkKV m log) /\ map_fits m /\
    (forall shared, storages sv !! CONSUMER_REPLICA_KEY = Some shared -> ss_replica shared = replica /\ ss_cache shared = m).

(** The storage that a handler comes to work on. *)
Definition storage_of sv : option (ConsumerOffsetStorage L) :=
  replica ← leaders sv !! CONSUMER_REPLICA_KEY;
  match get_or_insert CONSUMER_REPLICA_KEY replica sv with
  | (Ok shared, sv) =>
      (fun log => MkOffsets (MkKV (ss_cache shared) log) (ss_threshold shared) (ss_changes shared)) <$>
        (replicas sv !! ss_replica shared)
  | _ => None
  end.

Lemma get_or_insert_ok sv m replica log :
  offsets_map sv m -> leaders sv !! CONSUMER_REPLICA_KEY = Some replica -> replicas sv !! replica = Some log ->
  exists shared sv', get_or_insert CONSUMER_REPLICA_KEY replica sv = (Ok shared, sv') /\ ss_replica shared = replica /\
    ss_cache shared = m /\ leaders sv' = leaders sv /\ replicas sv' = replicas sv /\
    storages sv' !! CONSUMER_REPLICA_KEY = Some shared /\ kv_ok ck cv (MkKV m log) /\
    storage_of sv = Some (MkOffsets (MkKV m log) (ss_threshold shared) (ss_changes shared)).
Proof.
  intros (replica' & log' & El & Er & Hok & Hfit & Hst) El2 Er2. rewrite El in El2. injection El2 as <-. rewrite Er in Er2. injection Er2 as <-.
  unfold storage_of. rewrite El. unfold mbind, option_bind, get_or_insert. cbv beta.
  destruct (storages sv !! CONSUMER_REPLICA_KEY) as [shared|] eqn:Es.
  - destruct (Hst shared eq_refl) as [<- <-]. exists shared, sv. split_and!; try done. by rewrite Er.
  - rewrite Er. destruct (kv_sync_ok ck cv (MkKV m log') ∅ Hok) as (kv & E & Hok1 & Ec & El1). cbn [kv_log kv_cache] in *.
    unfold offsets_new, offsets_with. cbn [co_kv flush_threshold changes_since_flush]. unfold kv_new. rewrite E, Ec.
    eexists _, _. split_and!; try done.
    + cbn [storages]. by rewrite lookup_insert_eq.
    + cbn [replicas ss_replica]. by rewrite Er.
Qed.

(** An operation on the storage, through the service. *)
Lemma on_offsets_ok {A} (op : KM (ConsumerOffsetStorage L) A) (a : ConsumerOffsetStorage L -> A) sv m m' replica :
  offsets_map sv m -> leaders sv !! CONSUMER_REPLICA_KEY = Some replica ->
  (forall st, storage_of sv = Some st -> offsets_ok st -> kv_cache (co_kv st) = m ->
     exists st', op st = (Ok (a st), st') /\ offsets_ok st' /\ kv_cache (co_kv st') = m') ->
  exists st sv', storage_of sv = Some st /\ kv_cache (co_kv st) = m /\ on_offsets op replica sv = (Ok (a st), sv') /\
    offsets_map sv' m' /\ leaders sv' = leaders sv.
Proof.
  intros Hm El Hop. pose proof Hm as (replica' & log & El' & Er & Hok & Hfit & _). rewrite El in El'. simplify_eq.
  destruct (get_or_insert_ok sv m replica' log Hm El Er) as (shared & sv1 & E1 & Esr & Esc & El1 & Er1 & Es1 & _ & Eso).
  unfold on_offsets. erewrite bind_ok by exact E1. unfold on_storage. rewrite Er1, Esr, Er, Esc.
  destruct (Hop _ Eso) as (st' & Eop & [Hok' Hfit'] & Ec'); [by split|done|]. rewrite Eop. cbn [map_err].
  eexists _, _. split_and!; [exact Eso|done|reflexivity| |done].
  exists replica', (kv_log (co_kv st')). cbn [leaders replicas storages]. rewrite El1. split_and!; [done| | | |].
  - by rewrite lookup_insert_eq.
  - rewrite <-Ec'. by destruct (co_kv st').
  - by rewrite <-Ec'.
  - intros shared'. rewrite lookup_insert_eq. intros [= <-]. by split.
Qed.

(** The operations of clients and peers, and the loss of what is in memory. *)
Inductive SvOp :=
| SvUpdate (now : Z) (publishers : gmap Z StreamPublisher) (offset session_id : Z)
| SvUpdatePeer (now : Z) (replica : ReplicaKey) (consumer : string) (offset : Z)
| SvDelete (replica : ReplicaKey) (consumer : string)
| SvDeleteReplica (replica : ReplicaKey)
| SvRestart.

Definition sv_step (op : SvOp) : ME OffsetError (@OffsetService L) unit :=
  match op with
  | SvUpdate now publishers offset session_id =>
      handle_update now (fun _ _ _ _ => Err OffsetNotLeader) publishers offset session_id ;; mret tt
  | SvUpdatePeer now replica consumer offset => handle_update_peer now replica consumer offset
  | SvDelete replica consumer => handle_delete replica consumer
  | SvDeleteReplica replica => delete_consumers_offset replica
  | SvRestart => modify (fun sv => MkService (replicas sv) (leaders sv) ∅)
  end.
(** One after the other, with the answer to each. *)
Fixpoint sv_run (ops : list SvOp) (sv : @OffsetService L) : list (outcome OffsetError unit) * @OffsetService L :=
  match ops with
  | [] => ([], sv)
  | op :: ops => let '(answer, sv) := sv_step op sv in let '(answers, sv) := sv_run ops sv in (answer :: answers, sv)
  end.
(** Every one is answered by success, but for updates by unknown sessions and by
    streams without a consumer. *)
Definition sv_answer (op : SvOp) : outcome OffsetError unit :=
  match op with
  | SvUpdate _ publishers _ session_id =>
      match publishers !! session_id with
      | None => Err FetchSessionNotFound
      | Some (MkPublisher _ _ None) => Err StreamWithoutConsumer
      | Some (MkPublisher _ _ (Some _)) => Ok tt
      end
  | _ => Ok tt
  end.

(** The key and value of an update by a stream. *)
Definition update_of (now : Z) (publishers : gmap Z StreamPublisher) (offset session_id : Z)
    : option (ConsumerOffsetKey * ConsumerOffset) :=
  publisher ← publishers !! session_id;
  consumer ← pub_consumer publisher;
  Some (MkOffsetKey (MkReplicaKey (pub_topic publisher) (pub_partition publisher)) consumer, MkOffset offset now).

(** What an operation does to the map, and what it does to the storage. *)
Definition sv_map (op : SvOp) m : gmap ConsumerOffsetKey ConsumerOffset :=
  match op with
  | SvUpdate now publishers offset session_id =>
      match update_of now publishers offset session_id with Some (k, v) => <[k := v]> m | None => m end
  | SvUpdatePeer now replica consumer offset => <[MkOffsetKey replica consumer := MkOffset offset now]> m
  | SvDelete replica consumer => delete (MkOffsetKey replica consumer) m
  | SvDeleteReplica replica => filter (fun kv => replica_id kv.1 <> replica) m
  | SvRestart => m
  end.
Definition sv_ops (op : SvOp) st : list Op :=
  match op with
  | SvUpdate now publishers offset session_id =>
      match update_of now publishers offset session_id with Some (k, v) => [OpPut k v] | None => [] end
  | SvUpdatePeer now replica consumer offset => [OpPut (MkOffsetKey replica consumer) (MkOffset offset now)]
  | SvDelete replica consumer => [OpDelete (MkOffsetKey replica consumer)]
  | SvDeleteReplica replica => map OpDelete (keys_of_replica replica st)
  | SvRestart => []
  end.

(** Keys and values that fit in an entry of the log. *)
Definition sv_valid (op : SvOp) : Prop :=
  match op with
  | SvUpdate now publishers offset session_id =>
      forall k v, update_of now publishers offset session_id = Some (k, v) -> key_fits ck k /\ value_fits cv v
  | SvUpdatePeer now replica consumer offset =>
      key_fits ck (MkOffsetKey replica consumer) /\ value_fits cv (MkOffset offset now)
  | SvDelete replica consumer => key_fits ck (MkOffsetKey replica consumer)
  | _ => True
  end.
Fixpoint sv_accepted (ops : list SvOp) sv : Prop :=
  match ops with
  | [] => True
  | op :: ops =>
      (forall st, storage_of sv = Some st -> ops_accepted (sv_ops op st) st) /\
      sv_accepted ops (snd (sv_step op sv))
  end.

Lemma on_offsets_run (op : KM (ConsumerOffsetStorage L) unit) (ops : ConsumerOffsetStorage L -> list Op) sv m replica m' :
  (forall st, op st = run_ops (ops st) st) -> offsets_map sv m -> leaders sv !! CONSUMER_REPLICA_KEY = Some replica ->
  (forall st, storage_of sv = Some st -> ops_accepted (ops st) st) ->
  (forall st, kv_cache (co_kv st) = m -> map_fits m -> Forall (op_fits ck cv) (ops st) /\ fold_left map_step (ops st) m = m') ->
  exists sv', on_offsets op replica sv = (Ok tt, sv') /\ offsets_map sv' m' /\ leaders sv' = leaders sv.
Proof.
  intros Eop Hm El Hacc Hops.
  destruct (on_offsets_ok op (fun _ => tt) sv m m' replica Hm El) as (st & sv' & _ & _ & E & Hm' & El').
  { intros st Est Hok Ec. destruct (Hops st Ec) as [Hf Em]; [rewrite <-Ec; apply Hok|]. rewrite Eop, <-Em, <-Ec.
    apply run_ops_ok; auto. }
  by exists sv'.
Qed.

Lemma run_single (op : Op) st : then_flush (kv_step ck cv op) st = run_ops [op] st.
Proof. unfold run_ops. cbn [for_each]. by rewrite bind_ret_r. Qed.
Lemma put_single k v st : offsets_put k v st = run_ops [OpPut k v] st.
Proof. apply (run_single (OpPut k v)). Qed.
Lemma delete_single k st : offsets_delete k st = run_ops [OpDelete k] st.
Proof. apply (run_single (OpDelete k)). Qed.

Lemma on_offsets_single f op sv m replica :
  (forall st, f st = run_ops [op] st) -> offsets_map sv m -> leaders sv !! CONSUMER_REPLICA_KEY = Some replica ->
  op_fits ck cv op -> (forall st, storage_of sv = Some st -> ops_accepted [op] st) ->
  exists sv', on_offsets f replica sv = (Ok tt, sv') /\ offsets_map sv' (map_step m op).
Proof.
  intros Ef Hm El Hop Hacc.
  destruct (on_offsets_run f (fun _ => [op]) sv m replica (map_step m op) Ef Hm El Hacc) as (sv' & E & Hm' & _); [|by exists sv'].
  intros st _ _. split; [by apply Forall_singleton|reflexivity].
Qed.

Lemma sv_step_ok op sv m :
  offsets_map sv m -> sv_valid op -> (forall st, storage_of sv = Some st -> ops_accepted (sv_ops op st) st) ->
  exists sv', sv_step op sv = (sv_answer op, sv') /\ offsets_map sv' (sv_map op m).
Proof.
  intros Hm Hv Hacc. pose proof Hm as (replica & log & El & _).
  assert (offsets_leader sv = (Ok replica, sv)) as Elead by (unfold offsets_leader; by rewrite El).
  destruct op as [now pubs o sid|now r c o|r c|r|]; cbn [sv_step sv_map sv_ops sv_valid] in *.
  - unfold update_of, handle_update, sv_answer in *. destruct (pubs !! sid) as [[t p [c|]]|] eqn:Ep; [|by exists sv..].
    change (Some ?x ≫= ?f) with (f x) in *. cbn [pub_topic pub_partition pub_consumer] in *. change (Some ?x ≫= ?f) with (f x) in *. cbv beta in *.
    destruct (on_offsets_single _ _ sv m replica (put_single _ _) Hm El (Hv _ _ eq_refl) Hacc) as (sv' & E & Hm').
    exists sv'. split; [|done]. rewrite bind_assoc. erewrite bind_ok by reflexivity.
    cbv beta iota. rewrite El, bind_assoc. unfold update_offset_for_leader. erewrite bind_ok by exact E. done.
  - destruct (on_offsets_single _ _ sv m replica (put_single _ _) Hm El Hv Hacc) as (sv' & E & Hm').
    exists sv'. split; [|done]. unfold handle_update_peer. erewrite bind_ok by exact Elead. exact E.
  - destruct (on_offsets_single _ _ sv m replica (delete_single _) Hm El Hv Hacc) as (sv' & E & Hm').
    exists sv'. split; [|done]. unfold handle_delete. erewrite bind_ok by exact Elead. exact E.
  - destruct (on_offsets_run (delete_by_replica_key r) (fun st => map OpDelete (keys_of_replica r st)) sv m replica
      (filter (fun kv => replica_id kv.1 <> r) m)) as (sv' & E & Hm' & _); [|done|done|done| |].
    { intros st. unfold delete_by_replica_key, run_ops. erewrite bind_ok by reflexivity.
      induction (keys_of_replica r st) as [|k ks IH] in st |- *; [done|]. cbn [map for_each]. unfold mbind, M_bind.
      change (then_flush (kv_step ck cv (OpDelete k)) st) with (offsets_delete k st).
      destruct (offsets_delete k st) as [[[]|e|] st1]; [apply IH|done|done]. }
    { intros st <- Hfit. split; [|apply delete_replica_map]. apply Forall_map, Forall_forall. intros k Hk.
      apply elem_of_keys_of_replica in Hk as [[v Hkv] _]. by apply (Hfit k v). }
    exists sv'. split; [|done]. unfold delete_consumers_offset. by rewrite El.
  - eexists. split; [reflexivity|]. destruct Hm as (replica' & log' & El' & Er & Hok & Hfit & _).
    exists replica', log'. cbn. split_and!; try done.
Qed.

Lemma sv_run_ok ops sv m :
  offsets_map sv m -> Forall sv_valid ops -> sv_accepted ops sv ->
  exists sv', sv_run ops sv = (map sv_answer ops, sv') /\ offsets_map sv' (fold_left (fun m op => sv_map op m) ops m).
Proof.
  intros Hm Hv. revert sv m Hm. induction Hv as [|op ops Hop _ IH]; intros sv m Hm Hacc.
  - by exists sv.
  - destruct Hacc as [Ha Hacc]. destruct (sv_step_ok op sv m Hm Hop Ha) as (sv1 & E & Hm1).
    rewrite E in Hacc. destruct (IH sv1 _ Hm1 Hacc) as (sv2 & E2 & Hm2). exists sv2. split; [|done].
    cbn [sv_run map]. by rewrite E, E2.
Qed.

Lemma fetch_peer_ok sv m r c :
  offsets_map sv m -> exists sv', handle_fetch_peer r c sv = (Ok (offset <$> m !! MkOffsetKey r c), sv') /\ offsets_map sv' m.
Proof.
  intros Hm. pose proof Hm as (replica & log & El & _).
  destruct (on_offsets_ok (st ← get; mret (offsets_get (MkOffsetKey r c) st))
    (fun st => offsets_get (MkOffsetKey r c) st) sv m m replica Hm El) as (st & sv' & _ & Ec & E & Hm' & _).
  { intros st _ Hok Ec. by exists st. }
  exists sv'. split; [|done]. unfold handle_fetch_peer.
  erewrite bind_ok by (unfold offsets_leader; by rewrite El). erewrite bind_ok by exact E.
  unfold offsets_get, kv_get. by rewrite Ec.
Qed.

Lemma fetch_consumers_ok sv m opts known :
  offsets_map sv m -> exists l sv', handle_fetch_consumers opts known sv = (Ok l, sv') /\ offsets_map sv' m /\
    forall k v, (k, v) ∈ l <-> m !! k = Some v /\ filter_keeps opts k = true /\ replica_id k ∈ known.
Proof.
  intros Hm. pose proof Hm as (replica & log & El & _).
  destruct (on_offsets_ok (st ← get; mret (offsets_entries st)) offsets_entries sv m m replica Hm El)
    as (st & sv' & _ & Ec & E & Hm' & _).
  { intros st _ Hok Ec. by exists st. }
  eexists _, sv'. split; [|split; [done|]].
  - unfold handle_fetch_consumers. erewrite bind_ok by (unfold offsets_leader; by rewrite El).
    erewrite bind_ok by exact E. reflexivity.
  - intros k v. rewrite list_elem_of_In, filter_In, andb_true_iff, bool_decide_eq_true, <-list_elem_of_In.
    unfold offsets_entries, kv_entries. rewrite hash_iter_perm, elem_of_map_to_list, Ec. tauto.
Qed.
End laws.

(** C7: committed consumer offsets are durable, on a log that accepts every
    append and every flush of the whole map and gives back what it accepted (of
    a replica: one whose only in-sync copy is the leader's).  Whatever clients
    and other SPUs ask of the SPU that leads the offsets, updates by streams
    and by peers, deletes of consumers and of whole replicas, of keys that fit
    in an entry, and however often what it keeps in memory is lost in between:
    updates by unknown sessions and by streams without a consumer are answered
    by the error for it and change nothing, and all other requests succeed; a
    fetch then gives the offset of the last update that was not deleted, or
    none, and a listing exactly the consumers that are left and asked for. *)
Theorem offsets_durable {L : Type} `{LogOK L} `{!HashOrder ConsumerOffsetKey ConsumerOffset}
    `{!HashOrderOK ConsumerOffsetKey ConsumerOffset} (replica : nat) (log : L) (ops : list SvOp) :
  let sv := MkService {[replica := log]} {[CONSUMER_REPLICA_KEY := replica]} ∅ in
  let m := fold_left (fun m op => sv_map op m) ops ∅ in
  log_holds log [] [] -> Forall sv_valid ops -> sv_accepted ops sv ->
  exists sv', sv_run ops sv = (map sv_answer ops, sv') /\
    (forall r c, exists sv'', handle_fetch_peer r c sv' = (Ok (offset <$> m !! MkOffsetKey r c), sv'')) /\
    (forall opts known, exists l sv'', handle_fetch_consumers opts known sv' = (Ok l, sv'') /\
       forall k v, (k, v) ∈ l <-> m !! k = Some v /\ filter_keeps opts k = true /\ replica_id k ∈ known).
Proof.
  intros sv m Hl Hv Hacc. destruct (sv_run_ok ops sv ∅) as (sv' & E & Hm); [|done|done|].
  - exists replica, log. cbn. rewrite !lookup_singleton_eq. split_and!; try done.
    + apply (kv_new_ok codec_offset_key codec_offset log Hl).
  - exists sv'. split; [done|]. split.
    + intros r c. destruct (fetch_peer_ok sv' m r c Hm) as (sv'' & Ef & _). by exists sv''.
    + intros opts known. destruct (fetch_consumers_ok sv' m opts known Hm) as (l & sv'' & Ef & _ & Hin). by exists l, sv''.
Qed.

(** The example: a file replica as the log. *)
#[local] Instance offsets_file : ReplicaStorage FileReplica := FileReplica_Storage 0 sum32.
#[local] Instance offsets_file_ok : ReplicaStorageOK sum32 FileReplica := FileReplica_OK 0 sum32 sum32_u32.
#[local] Instance offsets_log : Log (LeaderReplicaState FileReplica) := replica_log mirror mirror mirror mirror.
#[local] Instance offsets_log_ok : LogOK (LeaderReplicaState FileReplica) :=
  replica_log_ok mirror mirror mirror mirror sum32 sum32_u32.

Definition example_update : SvOp := SvUpdatePeer 1700 (MkReplicaKey "orders" 3) "billing" 42.
Definition example_entries : list (list byte) := Eval vm_compute in
  [entry_bytes codec_offset_key codec_offset
     (Put (MkOffsetKey (MkReplicaKey "orders" 3) "billing") (MkOffset 42 1700))].

Lemma example_offsets_log :
  exists r, create_or_load_inner 0 dense_config [] None = Ok r /\
    let l := MkLeader 1 [1] 1 (sharable_create r) [] in
    log_holds l [] [] /\ log_accepts l example_entries.
Proof.
  destruct example_fresh as (r & E & Eh & El & Hst & _). exists r. split; [done|]. split.
  - exists 0, [], []. split_and!; try done. cbn. by rewrite Eh, El.
  - split_and!.
    + done.
    + unfold valid_memory, valid, codec_memory, codec_vec_ok, example_entries. cbn.
      repeat (split || constructor || discriminate).
    + vm_compute. discriminate.
    + destruct (load_fresh sum32 codec_raw 0 dense_config dense_config_ok) as (r0 & E1 & _ & Eopt & _ & _ & Em & _); [done|].
      rewrite E in E1. injection E1 as <-. cbn [leader_storage sh_inner sharable_create st_limit offsets_file_ok FileReplica_OK].
      rewrite Eopt, Em. vm_compute. discriminate.
    + cbn [leader_storage sh_inner sharable_create st_leo offsets_file FileReplica_Storage]. rewrite El. reflexivity.
Qed.

Lemma example_accepted (l : LeaderReplicaState FileReplica) st :
  log_holds l [] [] -> log_accepts l example_entries ->
  storage_of (MkService {[7%nat := l]} {[CONSUMER_REPLICA_KEY := 7%nat]} ∅) = Some st ->
  ops_accepted (sv_ops example_update st) st.
Proof.
  intros Hl Ha Est.
  assert (offsets_map (MkService {[7%nat := l]} {[CONSUMER_REPLICA_KEY := 7%nat]} ∅) ∅) as Hm.
  { exists 7%nat, l. cbn. rewrite !lookup_singleton_eq. split_and!; try done.
    apply (kv_new_ok codec_offset_key codec_offset l Hl). }
  destruct (get_or_insert_ok _ _ 7%nat l Hm) as (shared & sv' & Eg & _ & _ & _ & _ & _ & _ & Es);
    [apply lookup_singleton_eq|apply lookup_singleton_eq|].
  rewrite Est in Es. injection Es as ->.
  assert (ss_threshold shared = 100 /\ ss_changes shared = 0) as [-> ->].
  { unfold get_or_insert in Eg. cbn [storages replicas] in Eg. rewrite lookup_empty, lookup_singleton_eq in Eg.
    destruct (kv_sync_from_log _ _ _) as [[]]; [|done|done]. by injection Eg as <- _. }
  split; [|done]. split; [|done]. intros batch [= <-]. exact Ha.
Qed.

Lemma offsets_durable_witness :
  exists r sv', create_or_load_inner 0 dense_config [] None = Ok r /\
    let log := MkLeader 1 [1] 1 (sharable_create r) [] in
    sv_run [example_update; SvUpdate 1701 ∅ 50 1; SvRestart] (MkService {[7%nat := log]} {[CONSUMER_REPLICA_KEY := 7%nat]} ∅)
      = ([Ok tt; Err FetchSessionNotFound; Ok tt], sv') /\
    exists sv'', handle_fetch_peer (MkReplicaKey "orders" 3) "billing" sv' = (Ok (Some 42), sv'').
Proof.
  destruct example_offsets_log as (r & E & Hl & Ha). exists r.
  destruct (offsets_durable 7 (MkLeader 1 [1] 1 (sharable_create r) []) [example_update; SvUpdate 1701 ∅ 50 1; SvRestart]) as (sv' & Er & Hf & _).
  - exact Hl.
  - constructor; [|constructor; [intros k v [=]|constructor; [exact I|constructor]]]. split; (split; [|vm_compute; reflexivity]); repeat split;
      try reflexivity; try (vm_compute; congruence); intros _; vm_compute; split; congruence.
  - split; [|split; [intros st _; exact I|split; [intros st _; exact I|exact I]]].
    intros st Est. apply example_accepted in Est; [|exact Hl|exact Ha]. exact Est.
  - exists sv'. split; [exact E|]. split; [exact Er|]. destruct (Hf (MkReplicaKey "orders" 3) "billing"%string) as (sv'' & Ef).
    exists sv''. exact Ef.
Defined.

(** ** Deviations *)

(** The storages are kept by the key of the replica: when the SPU gives up the
    lead of the offsets and gets it back, the replica it leads is another, and
    updates still go to the one before, with the offsets of that time. *)
Theorem stale_storage_written {L : Type} `{Log L} `{!HashOrder ConsumerOffsetKey ConsumerOffset}
    (sv sv' : @OffsetService L) (shared : SharedStorage) (replica : nat) now r c o res :
  leaders sv !! CONSUMER_REPLICA_KEY = Some replica -> storages sv !! CONSUMER_REPLICA_KEY = Some shared ->
  ss_replica shared <> replica -> handle_update_peer now r c o sv = (res, sv') ->
  replicas sv' !! replica = replicas sv !! replica /\
  fst (handle_fetch_peer r c sv) = match replicas sv !! ss_replica shared with
    | Some _ => Ok (offset <$> ss_cache shared !! MkOffsetKey r c) | None => Panic end.
Proof.
  intros El Es Hne. unfold handle_update_peer, handle_fetch_peer, offsets_leader, on_offsets, get_or_insert, mbind, M_bind.
  rewrite El, Es. unfold on_storage. destruct (replicas sv !! ss_replica shared) as [log|]; [|intros [= _ <-]; done].
  destruct (offsets_put _ _ _) as [r0 st] eqn:E. intros [= _ <-]. cbn [replicas]. split; [by rewrite lookup_insert_ne|done].
Qed.
