(* ===== verification/StreamFetch.v ===== *)
(** * Fetching records from the SPU

    The publication of offsets ([fluvio-types/src/event.rs]) and the handlers of
    [fluvio-spu/src/services/public] that serve consumers: single fetches
    ([fetch_handler.rs]), the offsets of a partition ([offset_request.rs]), the
    offsets a consumer has reached ([offset_update.rs]) and continuous fetches
    ([stream_fetch.rs]).  Metrics are left out, and the text of errors is
    abbreviated. *)

From stdpp Require Import gmap strings list.
From S2P Require Import Prelude Wire Varint Utf8 Scalars Collections Records Batch RecordSet.
From S2P Require Import StorageIndex StorageLog StorageSegment StorageCheckpoint StorageReplica StorageReplicaLaws.
From S2P Require Import SpuStorage Replication ReplicationLaws Names ClusterTypes SpuProduce.
From S2P Require Import Derive SmartModule KvLog FileIter ReplicaLog SmartBatch SmartContext ConsumerOffsets.

#[local] Open Scope Z_scope.

(** ** Publishing offsets *)

(* src/crates/fluvio-types/src/event.rs:67-67 INIT_OFFSET *)
Definition INIT_OFFSET : Z := -1.
(* src/crates/fluvio-types/src/event.rs:68-68 TOPIC_DELETED *)
Definition TOPIC_DELETED : Z := -2.

(** The value of a publisher is an atomic; [update] stores it and wakes the
    listeners in one step here. *)
(* src/crates/fluvio-types/src/event.rs:72-75 OffsetPublisher *)
Record OffsetPublisher := MkOffsetPublisher { current_value : Z }.
(* src/crates/fluvio-types/src/event.rs:99-102 OffsetPublisher::update *)
Definition publisher_update (new_value : Z) (self : OffsetPublisher) : OffsetPublisher := MkOffsetPublisher new_value.
(* src/crates/fluvio-types/src/event.rs:105-107 OffsetPublisher::update_increment *)
Definition update_increment (self : OffsetPublisher) : OffsetPublisher :=
  publisher_update (as_i64 (current_value self + 1)) self.
(* src/crates/fluvio-types/src/event.rs:119-122 OffsetChangeListener *)
Record OffsetChangeListener := MkListener { last_value : Z }.
(* src/crates/fluvio-types/src/event.rs:131-136 OffsetChangeListener::new *)
Definition change_listener : OffsetChangeListener := MkListener 0.
(* src/crates/fluvio-types/src/event.rs:146-153 OffsetChangeListener::has_new_value *)
Definition has_new_value (publisher : OffsetPublisher) (self : OffsetChangeListener) : option Z :=
  if current_value publisher =? last_value self then None else Some (current_value publisher).
(** A value, or still waiting.  A wake-up after the value has changed back to the
    one last seen, of which the source would return the value, is left out. *)
(* src/crates/fluvio-types/src/event.rs:166-186 OffsetChangeListener::listen *)
Definition listen (publisher : OffsetPublisher) (self : OffsetChangeListener) : option (Z * OffsetChangeListener) :=
  match has_new_value publisher self with
  | Some new_value => Some (new_value, MkListener new_value)
  | None => None
  end.

(** ** The streams of a connection *)

(** A publisher of the offset a consumer has reached, and its stream. *)
(* src/crates/fluvio-spu/src/services/public/stream_fetch.rs:645-648 StreamPublishers *)
Record StreamPublishers := MkStreamPublishers {
  sp_publishers : gmap Z (OffsetPublisher * StreamPublisher);
  stream_id_seq : Z;
}.
(* src/crates/fluvio-spu/src/services/public/stream_fetch.rs:670-675 StreamPublishers::new *)
Definition stream_publishers_new : StreamPublishers := MkStreamPublishers ∅ 0.
(** Ids are [u32]s and begin again after the last one. *)
(* src/crates/fluvio-spu/src/services/public/stream_fetch.rs:683-700 StreamPublishers::create_new_publisher *)
Definition create_new_publisher (topic : string) (partition : Z) (consumer_id : option string) (self : StreamPublishers)
    : Z * StreamPublishers :=
  let stream_id := wrap_u 32 (stream_id_seq self + 1) in
  (stream_id, MkStreamPublishers
    (<[stream_id := (MkOffsetPublisher INIT_OFFSET, MkPublisher topic partition consumer_id)]> (sp_publishers self)) stream_id).

(* src/crates/fluvio-spu-schema/src/server/update_offset.rs:13-16 OffsetUpdate *)
Record OffsetUpdate := MkOffsetUpdate { upd_offset : Z; upd_session_id : Z }.
(* src/crates/fluvio-spu-schema/src/server/update_offset.rs:37-40 OffsetUpdateStatus *)
Record OffsetUpdateStatus := MkOffsetUpdateStatus { ups_session_id : Z; ups_error : ErrorCode }.
(* src/crates/fluvio-spu/src/services/public/offset_update.rs:12-53 handle_offset_update *)
Fixpoint handle_offset_update (offsets : list OffsetUpdate) (publishers : StreamPublishers)
    : list OffsetUpdateStatus * StreamPublishers :=
  match offsets with
  | [] => ([], publishers)
  | update :: offsets =>
      let '(status, publishers) :=
        match sp_publishers publishers !! upd_session_id update with
        | Some (publisher, stream) =>
            (EcNone, MkStreamPublishers
              (<[upd_session_id update := (publisher_update (upd_offset update) publisher, stream)]> (sp_publishers publishers))
              (stream_id_seq publishers))
        | None => (EcFetchSessionNotFoud, publishers)
        end in
      let '(status_list, publishers) := handle_offset_update offsets publishers in
      (MkOffsetUpdateStatus (upd_session_id update) status :: status_list, publishers)
  end.

(** ** Responses *)

(** The code of an error of a read. *)
Definition read_error_code (e : ReadError) : ErrorCode :=
  match e with
  | ReadOther => EcOther "read"
  | StorageSegment.OffsetEvicted offset next_available => EcOffsetEvicted offset next_available
  end.

(** The records of a response: the bytes of a region of a log file, or a set
    made in memory. *)
Inductive ResponseRecords := FileRecordSet (bytes : list byte) | MemoryRecordSet (set : RawRecordSet).
(* src/crates/fluvio-spu-schema/src/fetch/response.rs:56-79 FetchablePartitionResponse *)
Record FetchablePartitionResponse := MkFetchable {
  fpr_partition_index : Z;
  fpr_error_code : ErrorCode;
  fpr_high_watermark : Z;
  fpr_next_filter_offset : Z;
  fpr_log_start_offset : Z;
  fpr_records : ResponseRecords;
}.
(** [FilePartitionResponse { partition_index, error_code, ..Default::default() }] *)
Definition fetchable_default (partition_index : Z) (error_code : ErrorCode) : FetchablePartitionResponse :=
  MkFetchable partition_index error_code 0 0 0 (FileRecordSet []).
(* src/crates/fluvio-spu-schema/src/server/stream_fetch.rs:119-123 StreamFetchResponse *)
Record StreamFetchResponse := MkStreamFetchResponse {
  sfr_topic : string;
  sfr_stream_id : Z;
  sfr_partition : FetchablePartitionResponse;
}.

(** ** Single fetches *)

(* src/crates/fluvio-spu-schema/src/fetch/request.rs:81-100 FetchPartition *)
Record FetchPartition := MkFetchPartition { fp_partition_index : Z; fp_fetch_offset : Z }.
(* src/crates/fluvio-spu-schema/src/fetch/request.rs:61-67 FetchableTopic *)
Record FetchableTopic := MkFetchableTopic { ft_name : string; ft_fetch_partitions : list FetchPartition }.
(** The fields that the handler uses. *)
(* src/crates/fluvio-spu-schema/src/fetch/request.rs:18-46 FetchRequest *)
Record FetchRequest := MkFetchRequest { fr_max_bytes : Z; fr_isolation_level : Isolation; fr_topics : list FetchableTopic }.
(* src/crates/fluvio-spu-schema/src/fetch/response.rs:46-53 FetchableTopicResponse *)
Record FetchableTopicResponse := MkFetchableTopicResponse { ftr_name : string; ftr_partitions : list FetchablePartitionResponse }.

Section handlers.
Context {S : Type} `{ReplicaStorage S}.
Implicit Types leaders : gmap ReplicaKey (SharableReplicaStorage S).

(* src/crates/fluvio-spu/src/services/public/fetch_handler.rs:92-146 handle_fetch_partition *)
Definition handle_fetch_partition leaders (replica_id : ReplicaKey) (fetch_request : FetchRequest)
    (partition_request : FetchPartition) : outcome Empty_set FetchablePartitionResponse :=
  let partition_index := fp_partition_index partition_request in
  match leaders !! replica_id with
  | None => Ok (fetchable_default partition_index EcNotLeaderForPartition)
  | Some leader_state =>
      match sh_read_records (fp_fetch_offset partition_request) (wrap_u 32 (fr_max_bytes fetch_request))
              (fr_isolation_level fetch_request) leader_state with
      | Ok slice =>
          Ok (MkFetchable partition_index EcNone (hw (slice_end slice)) 0 (slice_start slice) (FileRecordSet (slice_data slice)))
      | Err err => Ok (fetchable_default partition_index (read_error_code err))
      | Panic => Panic
      end
  end.
(** [for .. in .. { .push(..?) }] *)
Fixpoint try_map {E A B} (f : A -> outcome E B) (l : list A) : outcome E (list B) :=
  match l with [] => Ok [] | a :: l => obind (f a) (fun b => obind (try_map f l) (fun bs => Ok (b :: bs))) end.
(* src/crates/fluvio-spu/src/services/public/fetch_handler.rs:59-86 handle_fetch_topic *)
Definition handle_fetch_topic leaders (fetch_request : FetchRequest) (topic_request : FetchableTopic)
    : outcome Empty_set FetchableTopicResponse :=
  obind (try_map (fun partition_request =>
    handle_fetch_partition leaders (MkReplicaKey (ft_name topic_request) (fp_partition_index partition_request))
      fetch_request partition_request) (ft_fetch_partitions topic_request)) (fun partitions =>
  Ok (MkFetchableTopicResponse (ft_name topic_request) partitions)).
(* src/crates/fluvio-spu/src/services/public/fetch_handler.rs:25-53 handle_fetch_request *)
Definition handle_fetch_request leaders (fetch_request : FetchRequest) : outcome Empty_set (list FetchableTopicResponse) :=
  try_map (handle_fetch_topic leaders fetch_request) (fr_topics fetch_request).
End handlers.

(** ** The offsets of a partition *)

(* src/crates/fluvio-spu-schema/src/server/fetch_offset.rs:106-118 FetchOffsetPartitionResponse *)
Record FetchOffsetPartitionResponse := MkFetchOffset {
  fop_error_code : ErrorCode;
  fop_partition_index : Z;
  fop_start_offset : Z;
  fop_last_stable_offset : Z;
}.
(* src/crates/fluvio-spu-schema/src/server/fetch_offset.rs:97-103 FetchOffsetTopicResponse *)
Record FetchOffsetTopicResponse := MkFetchOffsetTopic { fot_name : string; fot_partitions : list FetchOffsetPartitionResponse }.
(* src/crates/fluvio-spu-schema/src/server/fetch_offset.rs:81-93 FetchOffsetsResponse::find_partition *)
Definition find_partition (topics : list FetchOffsetTopicResponse) (replica : ReplicaKey) : option FetchOffsetPartitionResponse :=
  List.find (fun p => fop_partition_index p =? partition replica)
    (concat (map fot_partitions (List.filter (fun t => String.eqb (fot_name t) (topic replica)) topics))).

Section offsets.
Context {S : Type} `{ReplicaStorage S} {L : Type} `{Log L} `{!HashOrder ConsumerOffsetKey ConsumerOffset}.
Implicit Types leaders_state : gmap ReplicaKey (SharableReplicaStorage S).

(** [peer] is the request to the SPU that leads the offsets. *)
(* src/crates/fluvio-spu/src/services/public/offset_request.rs:86-116 fetch_consumer_offset *)
Definition fetch_consumer_offset (peer : string -> Z -> string -> outcome OffsetError (option Z))
    (topic : string) (partition : Z) (consumer_id : string) : ME OffsetError OffsetService (option Z) :=
  self ← get;
  match leaders self !! CONSUMER_REPLICA_KEY with
  | Some leader =>
      consumer ← on_offsets (st ← get; mret (offsets_get (MkOffsetKey (MkReplicaKey topic partition) consumer_id) st)) leader;
      mret (offset <$> consumer)
  | None => lift (peer topic partition consumer_id)
  end.

(** One partition of the request. *)
Definition offset_response (peer : string -> Z -> string -> outcome OffsetError (option Z)) leaders_state
    (consumer_id : option string) (topic : string) (partition : Z)
    : ME Empty_set (@OffsetService L) FetchOffsetPartitionResponse := fun service =>
  match leaders_state !! MkReplicaKey topic partition with
  | None => (Ok (MkFetchOffset EcPartitionNotLeader partition 0 0), service)
  | Some replica =>
      let '(start_offset, hw) := start_offset_info replica in
      match consumer_id with
      | None => (Ok (MkFetchOffset EcNone partition start_offset hw), service)
      | Some consumer_id =>
          match fetch_consumer_offset peer topic partition consumer_id service with
          | (Ok (Some consumer_offset), service) => (Ok (MkFetchOffset EcNone partition (as_i64 (consumer_offset + 1)) hw), service)
          | (Ok None, service) => (Ok (MkFetchOffset EcNone partition start_offset hw), service)
          | (Err e, service) => (Ok (MkFetchOffset (EcOther "consumer offset") partition start_offset hw), service)
          | (Panic, service) => (Panic, service)
          end
      end
  end.
Fixpoint map_m {E St A B} (f : A -> ME E St B) (l : list A) : ME E St (list B) :=
  match l with [] => mret [] | a :: l => b ← f a; bs ← map_m f l; mret (b :: bs) end.
(* src/crates/fluvio-spu/src/services/public/offset_request.rs:22-84 handle_offset_request *)
Definition handle_offset_request (peer : string -> Z -> string -> outcome OffsetError (option Z)) leaders_state
    (consumer_id : option string) (topics : list (string * list Z))
    : ME Empty_set (@OffsetService L) (list FetchOffsetTopicResponse) :=
  map_m (fun '(topic, partitions) =>
    partitions ← map_m (offset_response peer leaders_state consumer_id topic) partitions;
    mret (MkFetchOffsetTopic topic partitions)) topics.
End offsets.

(** ** Continuous fetches *)

(** A failure of the socket ends the handler, and is not modelled. *)
(* src/crates/fluvio-spu/src/services/public/stream_fetch.rs:611-615 StreamFetchError *)
Inductive StreamFetchError := SfCompression (e : CompressionError) | SfFetch (e : ErrorCode).

Definition offset_info_isolation (isolation : Isolation) (info : OffsetInfo) : Z :=
  match isolation with ReadCommitted => hw info | ReadUncommitted => info_leo info end.

Section stream.
Context `{PRead} (gzip snappy lz4 zstd : Backend) {S : Type} `{ReplicaStorage S} {W : Type} `{Wasm W}.
Notation Chain := (list (SmartModuleInstance W)).

(** The request, and the variables of [process]: what its listeners have seen,
    the chain of SmartModules, and what was sent. *)
(* src/crates/fluvio-spu/src/services/public/stream_fetch.rs:42-54 StreamFetchHandler *)
Record StreamFetchHandler := MkHandler {
  sf_replica : ReplicaKey;
  sf_isolation : Isolation;
  sf_max_bytes : Z;
  sf_max_fetch_bytes : Z;
  sf_stream_id : Z;
  sm_ctx : option Chain;
  consumer_offset_listener : OffsetChangeListener;
  leader_offset_receiver : OffsetChangeListener;
  last_partition_offset : Z;
  last_known_consumer_offset : option Z;
  sf_sink : list StreamFetchResponse;
}.
Definition set_sm_ctx x (self : StreamFetchHandler) := MkHandler (sf_replica self) (sf_isolation self) (sf_max_bytes self)
  (sf_max_fetch_bytes self) (sf_stream_id self) x (consumer_offset_listener self) (leader_offset_receiver self)
  (last_partition_offset self) (last_known_consumer_offset self) (sf_sink self).
Definition set_consumer_listener x (self : StreamFetchHandler) := MkHandler (sf_replica self) (sf_isolation self) (sf_max_bytes self)
  (sf_max_fetch_bytes self) (sf_stream_id self) (sm_ctx self) x (leader_offset_receiver self)
  (last_partition_offset self) (last_known_consumer_offset self) (sf_sink self).
Definition set_leader_receiver x (self : StreamFetchHandler) := MkHandler (sf_replica self) (sf_isolation self) (sf_max_bytes self)
  (sf_max_fetch_bytes self) (sf_stream_id self) (sm_ctx self) (consumer_offset_listener self) x
  (last_partition_offset self) (last_known_consumer_offset self) (sf_sink self).
Definition set_offsets partition consumer (self : StreamFetchHandler) := MkHandler (sf_replica self) (sf_isolation self) (sf_max_bytes self)
  (sf_max_fetch_bytes self) (sf_stream_id self) (sm_ctx self) (consumer_offset_listener self) (leader_offset_receiver self)
  partition consumer (sf_sink self).
Definition set_sink x (self : StreamFetchHandler) := MkHandler (sf_replica self) (sf_isolation self) (sf_max_bytes self)
  (sf_max_fetch_bytes self) (sf_stream_id self) (sm_ctx self) (consumer_offset_listener self) (leader_offset_receiver self)
  (last_partition_offset self) (last_known_consumer_offset self) x.
Notation SfM := (ME StreamFetchError StreamFetchHandler).

(** [inner_sink.send_response(..)] *)
Definition send_response (response : FetchablePartitionResponse) : SfM unit :=
  modify (fun self => set_sink (sf_sink self ++ [MkStreamFetchResponse (topic (sf_replica self)) (sf_stream_id self) response]) self).

(* src/crates/fluvio-spu/src/services/public/stream_fetch.rs:506-575 StreamFetchHandler::send_processed_response *)
Definition send_processed_response (file_partition_response : FetchablePartitionResponse) (next_offset : Z)
    (batch : Batch MemoryRecords) (smartmodule_error : option SmartModuleTransformRuntimeError) : SfM (Z * bool) :=
  let error_code :=
    match smartmodule_error with
    | Some error => EcSmartModuleRuntimeError error
    | None => fpr_error_code file_partition_response
    end in
  let has_error := negb (error_is_ok error_code) in
  let has_records := match records batch with [] => false | _ => true end in
  if negb has_records && negb has_error then mret (next_offset, false)
  else
    let next_filter_offset := if has_records then as_i64 (get_last_offset batch + 1) else next_offset in
    match raw_of_batch gzip snappy lz4 zstd batch with
    | inr e => fail (SfCompression e)
    | inl raw =>
        send_response (MkFetchable (fpr_partition_index file_partition_response) error_code
          (fpr_high_watermark file_partition_response) next_filter_offset (fpr_log_start_offset file_partition_response)
          (MemoryRecordSet (MkRecordSet [raw]))) ;;
        mret (next_offset, true)
    end.

(** The batches of a slice; each takes a byte at least. *)
Definition slice_batches (slice : ReplicaSlice) : list (res FileBatch) :=
  match file_slice slice with
  | None => []
  | Some (file, s) => @iter_items _ _ (file_batch_next gzip snappy lz4 zstd) (Datatypes.S (Z.to_nat (slice_len s))) (from_raw_slice file s)
  end.
(** [process_batch] on the chain of the handler. *)
Definition run_chain_on (slice : ReplicaSlice) (chain : Chain) : SfM (Batch MemoryRecords * option SmartModuleTransformRuntimeError) := fun self =>
  match process_batch (slice_batches slice) (sf_max_bytes self) chain with
  | (Ok x, chain) => (Ok x, set_sm_ctx (Some chain) self)
  | (Err _, chain) => (Err (SfFetch (EcOther "SmartModule err")), set_sm_ctx (Some chain) self)
  | (Panic, chain) => (Panic, set_sm_ctx (Some chain) self)
  end.

(* src/crates/fluvio-spu/src/services/public/stream_fetch.rs:352-503 StreamFetchHandler::send_back_records *)
Definition send_back_records (leader_state : SharableReplicaStorage S) (starting_offset : Z) : SfM (Z * bool) :=
  self ← get;
  match sh_read_records starting_offset (sf_max_fetch_bytes self) (sf_isolation self) leader_state with
  | Err err => fail (SfFetch (read_error_code err))
  | Panic => panic
  | Ok slice =>
      let file_partition_response :=
        MkFetchable (partition (sf_replica self)) EcNone (hw (slice_end slice)) 0 (slice_start slice) (FileRecordSet (slice_data slice)) in
      let next_offset := offset_info_isolation (sf_isolation self) (slice_end slice) in
      if zlen (slice_data slice) =? 0 then mret (starting_offset, false)
      else
        match sm_ctx self with
        | Some chain =>
            '(batch, smartmodule_error) ← run_chain_on slice chain;
            send_processed_response file_partition_response next_offset batch smartmodule_error
        | None =>
            send_response file_partition_response ;;
            mret (next_offset, true)
        end
  end.

(** The variables after a read. *)
Definition sent_back (offset : Z) (wait : bool) : SfM unit :=
  modify (set_offsets offset (if wait then None else Some offset)).
(** What comes before the loop. *)
Definition process_start (leader_state : SharableReplicaStorage S) (starting_offset : Z) : SfM unit :=
  '(offset, consumer_wait) ← send_back_records leader_state starting_offset;
  modify (set_leader_receiver change_listener) ;;
  sent_back offset consumer_wait.
(** The branch of an update from the consumer. *)
Definition on_consumer_update (leader_state : SharableReplicaStorage S) (consumer_offset_update : Z) : SfM unit :=
  if consumer_offset_update =? INIT_OFFSET then mret tt
  else if consumer_offset_update =? TOPIC_DELETED then fail (SfFetch EcTopicDeleted)
  else
    self ← get;
    if last_partition_offset self <=? consumer_offset_update then
      modify (set_offsets (last_partition_offset self) (Some consumer_offset_update))
    else
      '(offset, wait) ← send_back_records leader_state consumer_offset_update;
      sent_back offset wait.
(** The branch of new records in the partition. *)
Definition on_leader_update (leader_state : SharableReplicaStorage S) (partition_offset_update : Z) : SfM unit :=
  self ← get;
  match last_known_consumer_offset self with
  | None => modify (set_offsets partition_offset_update None)
  | Some last_consumer_offset =>
      if partition_offset_update <=? last_consumer_offset then
        modify (set_offsets partition_offset_update (Some last_consumer_offset))
      else
        '(offset, wait) ← send_back_records leader_state last_consumer_offset;
        sent_back offset wait
  end.

(* src/crates/fluvio-spu/src/storage/mod.rs:82-87 SharableReplicaStorage::offset_listener *)
Definition published (isolation : Isolation) (self : SharableReplicaStorage S) : OffsetPublisher :=
  MkOffsetPublisher (match isolation with ReadCommitted => pub_hw self | ReadUncommitted => pub_leo self end).

(** The events of the loop; each turn handles one that is ready. *)
Inductive StreamEvent := EndEvent | ConsumerEvent | LeaderEvent.
(** A turn of the loop; [Ok false] ends it, and [None] is an event that is not
    ready. *)
(* src/crates/fluvio-spu/src/services/public/stream_fetch.rs:222-343 StreamFetchHandler::process *)
Definition process_turn (end_event : bool) (consumer : OffsetPublisher) (leader_state : SharableReplicaStorage S)
    (event : StreamEvent) (self : StreamFetchHandler) : option (outcome StreamFetchError bool * StreamFetchHandler) :=
  match event with
  | EndEvent => if end_event then Some (Ok false, self) else None
  | ConsumerEvent =>
      match listen consumer (consumer_offset_listener self) with
      | None => None
      | Some (update, listener) =>
          Some ((on_consumer_update leader_state update ;; mret true) (set_consumer_listener listener self))
      end
  | LeaderEvent =>
      match listen (published (sf_isolation self) leader_state) (leader_offset_receiver self) with
      | None => None
      | Some (update, listener) =>
          Some ((on_leader_update leader_state update ;; mret true) (set_leader_receiver listener self))
      end
  end.

(* src/crates/fluvio-spu/src/services/public/stream_fetch.rs:578-609 send_back_error *)
Definition send_back_error (replica : ReplicaKey) (stream_id : Z) (error_code : ErrorCode) : StreamFetchResponse :=
  MkStreamFetchResponse (topic replica) stream_id (fetchable_default (partition replica) error_code).
(** The response that the end of [process] with an error gives. *)
Definition error_response (replica : ReplicaKey) (stream_id : Z) (e : StreamFetchError) : StreamFetchResponse :=
  match e with
  | SfFetch error_code => send_back_error replica stream_id error_code
  | SfCompression _ => send_back_error replica stream_id EcCompressionError
  end.
(** The fields of the request that are used here. *)
(* src/crates/fluvio-spu-schema/src/server/stream_fetch.rs:63-92 StreamFetchRequest *)
Record StreamFetchRequest := MkStreamFetchRequest {
  sfq_replica : ReplicaKey;
  sfq_fetch_offset : Z;
  sfq_max_bytes : Z;
  sfq_isolation : Isolation;
  sfq_consumer_id : option string;
}.
(** The handler of a request, whose chain has looked back, before [process]. *)
(* src/crates/fluvio-spu/src/services/public/stream_fetch.rs:132-220 StreamFetchHandler::fetch *)
Definition handler_new (msg : StreamFetchRequest) (stream_id : Z) (sm_ctx : option Chain) : StreamFetchHandler :=
  let max_bytes := wrap_u 32 (sfq_max_bytes msg) in
  MkHandler (sfq_replica msg) (sfq_isolation msg) max_bytes
    (match sm_ctx with Some _ => u32_max | None => max_bytes end) stream_id sm_ctx change_listener change_listener 0 None [].
(** The streams after the request, and the handler, unless this SPU is not the
    leader of the replica. *)
(* src/crates/fluvio-spu/src/services/public/stream_fetch.rs:59-122 StreamFetchHandler::start *)
Definition stream_start (leaders : gmap ReplicaKey (SharableReplicaStorage S)) (msg : StreamFetchRequest)
    (sm_ctx : option Chain) (publishers : StreamPublishers)
    : StreamPublishers * (StreamFetchResponse + StreamFetchHandler * outcome StreamFetchError unit) :=
  match leaders !! sfq_replica msg with
  | None => (publishers, inl (send_back_error (sfq_replica msg) 0 EcNotLeaderForPartition))
  | Some leader_state =>
      let '(stream_id, publishers) :=
        create_new_publisher (topic (sfq_replica msg)) (partition (sfq_replica msg)) (sfq_consumer_id msg) publishers in
      let '(r, handler) := process_start leader_state (sfq_fetch_offset msg) (handler_new msg stream_id sm_ctx) in
      (publishers, inr (handler, r))
  end.
End stream.
Arguments StreamFetchHandler : clear implicits.
