(* ===== verification/Consumer.v ===== *)
(** * The consumer

    The client of a stream of records, [fluvio/src/consumer] and
    [fluvio/src/offset.rs]: where a stream begins, what becomes of a response,
    how many records a stream takes that is not continuous, the offsets a
    consumer commits and flushes, and streams that reconnect.  Metrics are left
    out, and the text of errors is abbreviated. *)

From stdpp Require Import gmap strings list.
From S2P Require Import Prelude Wire Varint Utf8 Scalars Collections Records Batch RecordSet.
From S2P Require Import StorageIndex StorageLog StorageSegment StorageCheckpoint StorageReplica StorageReplicaLaws.
From S2P Require Import SpuStorage Replication ReplicationLaws Names ClusterTypes SpuProduce.
From S2P Require Import Derive SmartModule KvLog FileIter ReplicaLog SmartBatch SmartContext ConsumerOffsets StreamFetch.

#[local] Open Scope Z_scope.

(** ** Where a stream begins *)

(* src/crates/fluvio/src/offset.rs:13-17 OffsetInner *)
Inductive OffsetInner := Absolute (offset : Z) | FromBeginning (offset : Z) | FromEnd (offset : Z).
(** [None] is [FluvioError::NegativeOffset]. *)
(* src/crates/fluvio/src/offset.rs:131-138 Offset::absolute *)
Definition offset_absolute (index : Z) : option OffsetInner :=
  if index <? 0 then None else Some (Absolute index).
(* src/crates/fluvio/src/offset.rs:195-199 Offset::from_beginning *)
Definition offset_from_beginning (offset : Z) : OffsetInner := FromBeginning offset.
(* src/crates/fluvio/src/offset.rs:276-280 Offset::from_end *)
Definition offset_from_end (offset : Z) : OffsetInner := FromEnd offset.
(** [clamp] panics when the least is above the greatest. *)
Definition clamp_i64 (x least greatest : Z) : outcome Empty_set Z :=
  if least <=? greatest then Ok (Z.min greatest (Z.max least x)) else Panic.
(* src/crates/fluvio/src/offset.rs:20-40 OffsetInner::resolve *)
Definition inner_resolve (self : OffsetInner) (offsets : FetchOffsetPartitionResponse) (consumer_offset : option Z)
    : outcome Empty_set Z :=
  match self with
  | Absolute offset => Ok offset
  | FromBeginning offset =>
      let resolved :=
        match consumer_offset with
        | Some consumer_offset => as_i64 (consumer_offset + offset)
        | None => as_i64 (fop_start_offset offsets + offset)
        end in
      clamp_i64 resolved (fop_start_offset offsets) (fop_last_stable_offset offsets)
  | FromEnd offset =>
      let resolved :=
        match consumer_offset with
        | Some consumer_offset => as_i64 (consumer_offset - offset)
        | None => as_i64 (fop_last_stable_offset offsets - offset)
        end in
      clamp_i64 resolved (fop_start_offset offsets) (fop_last_stable_offset offsets)
  end.
(* src/crates/fluvio/src/offset.rs:299-309 Offset::resolve *)
Definition offset_resolve (self : OffsetInner) (offsets : FetchOffsetPartitionResponse) (consumer_offset : option Z)
    : outcome Empty_set Z :=
  obind (inner_resolve self offsets consumer_offset) (fun offset => Ok (Z.max offset 0)).

(** ** Responses *)

(** A response as the client decodes it. *)
Record ClientResponse := MkClientResponse {
  cl_stream_id : Z;
  cl_error_code : ErrorCode;
  cl_next_filter_offset : Z;
  cl_records : RawRecordSet;
}.

Section client.
Context (crc32c : list byte -> Z) (gzip snappy lz4 zstd : Backend).

(** The bytes of the records of a response, with their length before them. *)
Definition response_wire (version : Z) (records : ResponseRecords) : list byte :=
  match records with
  | FileRecordSet bytes => be_split 4 (zlen bytes) ++ bytes
  | MemoryRecordSet set => written (snd (encode (codec_record_set crc32c codec_raw) version set vec_new))
  end.
Definition receive_records (version : Z) (records : ResponseRecords) : res RawRecordSet :=
  fst (decode_from (codec_record_set crc32c codec_raw) version (response_wire version records)).
(** The other fields come unchanged, [next_filter_offset] from version 11 on. *)
Definition receive (version : Z) (response : StreamFetchResponse) : res ClientResponse :=
  match receive_records version (fpr_records (sfr_partition response)) with
  | Ok set => Ok (MkClientResponse (sfr_stream_id response) (fpr_error_code (sfr_partition response))
      (if 11 <=? version then fpr_next_filter_offset (sfr_partition response) else 0) set)
  | Err k => Err k
  | Panic => Panic
  end.

(* src/crates/fluvio-spu-schema/src/fetch/response.rs:85-91 FetchablePartitionResponse::next_offset_for_fetch *)
Definition next_offset_for_fetch (self : ClientResponse) : option Z :=
  if 0 <? cl_next_filter_offset self then Some (cl_next_filter_offset self)
  else last_offset codec_raw (cl_records self).

(** An item of a stream: a value or an error. *)
(* src/crates/fluvio/src/consumer/mod.rs:312-387 PartitionConsumer::inner_stream_batches_with_config *)
Definition response_batches (response : ClientResponse) : list (Batch MemoryRecords + ErrorCode) :=
  let batches :=
    omap (fun raw_batch =>
      if negb (validate_decoding codec_raw raw_batch) then None
      else
        Some match batch_of_raw gzip snappy lz4 zstd raw_batch with
             | inl batch => inl batch
             | inr err => inr (EcOther "compression")
             end) (batches (cl_records response)) in
  let error := match cl_error_code response with EcNone => [] | code => [inr code] end in
  batches ++ error.
Definition batch_items (partition start_offset : Z) (result : Batch MemoryRecords + ErrorCode) : list (ConsumerRecord + ErrorCode) :=
  match result with
  | inr e => [inr e]
  | inl batch =>
      map inl (List.filter (fun record => start_offset <=? cr_offset record) (into_consumer_records partition batch))
  end.
(* src/crates/fluvio/src/consumer/mod.rs:620-654 PartitionConsumer::consumer_stream_with_config *)
Definition response_items (partition start_offset : Z) (response : ClientResponse) : list (ConsumerRecord + ErrorCode) :=
  concat (map (batch_items partition start_offset) (response_batches response)).
End client.

(** ** The stream of a connection *)

(** A message to the task that owns the connection. *)
(* src/crates/fluvio/src/consumer/mod.rs:960-967 StreamToServer *)
Inductive StreamToServer := UpdateOffset (offset : Z) | FlushManagedOffset (offset : Z) (callback : bool) | CloseStream.

(* src/crates/fluvio/src/consumer/mod.rs:65-65 STREAM_TO_SERVER_CHANNEL_SIZE *)
Definition STREAM_TO_SERVER_CHANNEL_SIZE : Z := 100.
(** Where the stream begins, and how many records there are; the offset the
    server keeps for the consumer is that of the last record it has seen. *)
(* src/crates/fluvio/src/consumer/mod.rs:407-436 PartitionConsumer::request_stream *)
Definition stream_range (offset : OffsetInner) (consumers : list Z) (offsets : FetchOffsetPartitionResponse)
    : outcome Empty_set (Z * Z) :=
  let consumer_offset := (fun o => as_i64 (o + 1)) <$> head consumers in
  obind (offset_resolve offset offsets consumer_offset) (fun start_absolute_offset =>
  let end_absolute_offset := fop_last_stable_offset offsets in
  Ok (start_absolute_offset, as_i64 (end_absolute_offset - start_absolute_offset))).

(** The id of the stream, once the first response came, and the messages that
    wait to be sent. *)
Record ClientStream := MkClientStream { stream_id : option Z; server_channel : list StreamToServer }.
(** The first response waits for room in the channel, later ones do not. *)
(* src/crates/fluvio/src/consumer/mod.rs:547-568 PartitionConsumer::request_stream *)
Definition client_receive (response : ClientResponse) (self : ClientStream) : ClientStream :=
  let id := default (cl_stream_id response) (stream_id self) in
  match next_offset_for_fetch response with
  | None => MkClientStream (Some id) (server_channel self)
  | Some last_offset =>
      let full := STREAM_TO_SERVER_CHANNEL_SIZE <=? zlen (server_channel self) in
      match stream_id self with
      | Some _ => if full then self else MkClientStream (Some id) (server_channel self ++ [UpdateOffset last_offset])
      | None => MkClientStream (Some id) (server_channel self ++ [UpdateOffset last_offset])
      end
  end.
(** The requests that the task sends. *)
Inductive TaskRequest := UpdateOffsetsRequest (offsets : list OffsetUpdate) | UpdateConsumerOffsetRequest (session_id offset : Z).
(** The request for a message; [None] ends the task. *)
(* src/crates/fluvio/src/consumer/mod.rs:492-543 PartitionConsumer::request_stream *)
Definition task_request (stream_id : Z) (message : StreamToServer) : option TaskRequest :=
  match message with
  | UpdateOffset fetch_last_value => Some (UpdateOffsetsRequest [MkOffsetUpdate fetch_last_value stream_id])
  | FlushManagedOffset offset _ => Some (UpdateConsumerOffsetRequest stream_id offset)
  | CloseStream => None
  end.

(** ** Streams that are not continuous *)

(** [remaining] and what is left of the inner stream. *)
(* src/crates/fluvio/src/consumer/mod.rs:666-669 TakeRecords *)
Record TakeRecords := MkTakeRecords { tr_remaining : Z; tr_stream : list (ClientResponse + ErrorCode) }.
(* src/crates/fluvio/src/consumer/mod.rs:689-715 TakeRecords::poll_next *)
Definition take_next (self : TakeRecords) : option (ClientResponse + ErrorCode) * TakeRecords :=
  if tr_remaining self <=? 0 then (None, self)
  else
    match tr_stream self with
    | [] => (None, self)
    | inl response :: stream =>
        let count := fold_left (fun sum b => wrap_u 64 (sum + records_len b)) (batches (cl_records response)) 0 in
        let diff := as_i64 (tr_remaining self - as_i64 count) in
        (Some (inl response), MkTakeRecords (Z.max diff 0) stream)
    | inr e :: stream => (Some (inr e), MkTakeRecords (tr_remaining self) stream)
    end.

(** ** Committed offsets *)

(** The offsets, and the channel to that task, which takes so many messages. *)
(* src/crates/fluvio/src/consumer/offset.rs:18-23 OffsetLocalStore *)
Record OffsetLocalStore := MkStore {
  ls_seen : Z;
  ls_comitted : Z;
  ls_flushed : Z;
  stream_to_server : list StreamToServer;
  ls_capacity : Z;
}.
(* src/crates/fluvio/src/consumer/offset.rs:26-33 OffsetLocalStore::new *)
Definition local_store_new (channel : list StreamToServer) (capacity : Z) : OffsetLocalStore :=
  MkStore (-1) (-1) (-1) channel capacity.
(* src/crates/fluvio/src/consumer/offset.rs:35-37 OffsetLocalStore::update *)
Definition local_update (offset : Z) (self : OffsetLocalStore) : OffsetLocalStore :=
  MkStore (Z.max (ls_seen self) offset) (ls_comitted self) (ls_flushed self) (stream_to_server self) (ls_capacity self).
(* src/crates/fluvio/src/consumer/offset.rs:39-42 OffsetLocalStore::commit *)
Definition local_commit (self : OffsetLocalStore) : OffsetLocalStore :=
  MkStore (ls_seen self) (ls_seen self) (ls_flushed self) (stream_to_server self) (ls_capacity self).
Definition set_flushed (val : Z) (self : OffsetLocalStore) : OffsetLocalStore :=
  MkStore (ls_seen self) (ls_comitted self) val (stream_to_server self) (ls_capacity self).
Definition push_message (message : StreamToServer) (self : OffsetLocalStore) : OffsetLocalStore :=
  MkStore (ls_seen self) (ls_comitted self) (ls_flushed self) (stream_to_server self ++ [message]) (ls_capacity self).
(** [reply] is what the server answers to the message, if the connection lasts
    until then. *)
(* src/crates/fluvio/src/consumer/offset.rs:44-67 OffsetLocalStore::flush *)
Definition local_flush (reply : Z -> option ErrorCode) (self : OffsetLocalStore) : (unit + ErrorCode) * OffsetLocalStore :=
  if ls_comitted self <=? ls_flushed self then (inl tt, self)
  else
    let self := push_message (FlushManagedOffset (ls_comitted self) true) self in
    match reply (ls_comitted self) with
    | None => (inr (EcOther "channel closed"), self)
    | Some EcNone => (inl tt, set_flushed (ls_comitted self) self)
    | Some other => (inr other, self)
    end.
(** [false] is a channel that is full. *)
(* src/crates/fluvio/src/consumer/offset.rs:69-80 OffsetLocalStore::try_flush *)
Definition local_try_flush (self : OffsetLocalStore) : bool * OffsetLocalStore :=
  if ls_comitted self <=? ls_flushed self then (true, self)
  else if ls_capacity self <=? zlen (stream_to_server self) then (false, self)
  else
    let self := push_message (FlushManagedOffset (ls_comitted self) false) self in
    (true, set_flushed (ls_comitted self) self).

(* src/crates/fluvio/src/consumer/config.rs:47-56 OffsetManagementStrategy *)
Inductive OffsetManagementStrategy := StrategyNone | StrategyManual | StrategyAuto.
(** The period is in nanoseconds, times are in seconds. *)
(* src/crates/fluvio/src/consumer/stream.rs:54-66 OffsetManagement *)
Inductive OffsetManagement :=
| ManagementNone
| ManagementManual (offset_store : OffsetLocalStore)
| ManagementAuto (flush_period : Z) (offset_store : OffsetLocalStore) (last_flush_time : Z).
(* src/crates/fluvio/src/consumer/stream.rs:100-131 SinglePartitionConsumerStream::new *)
Definition management_new (strategy : OffsetManagementStrategy) (flush_period : Z) (channel : list StreamToServer) (capacity : Z)
    : OffsetManagement :=
  match strategy with
  | StrategyNone => ManagementNone
  | StrategyManual => ManagementManual (local_store_new channel capacity)
  | StrategyAuto => ManagementAuto flush_period (local_store_new channel capacity) 0
  end.
(* src/crates/fluvio/src/consumer/stream.rs:261-281 OffsetManagement::run_auto_flush *)
Definition run_auto_flush (now : Z) (self : OffsetManagement) : OffsetManagement :=
  match self with
  | ManagementAuto flush_period offset_store last_flush_time =>
      if flush_period <=? 1000000000 * wrap_u 64 (now - last_flush_time)
      then ManagementAuto flush_period (snd (local_try_flush offset_store)) now
      else self
  | _ => self
  end.
(* src/crates/fluvio/src/consumer/stream.rs:247-259 OffsetManagement::update *)
Definition management_update (now offset : Z) (self : OffsetManagement) : OffsetManagement :=
  match self with
  | ManagementNone => ManagementNone
  | ManagementManual offset_store => ManagementManual (local_update offset offset_store)
  | ManagementAuto flush_period offset_store last_flush_time =>
      run_auto_flush now (ManagementAuto flush_period (local_commit (local_update offset offset_store)) last_flush_time)
  end.
(* src/crates/fluvio/src/consumer/stream.rs:283-295 OffsetManagement::commit *)
Definition management_commit (self : OffsetManagement) : (unit + ErrorCode) * OffsetManagement :=
  match self with
  | ManagementNone => (inr EcOffsetManagementDisabled, self)
  | ManagementManual offset_store => (inl tt, ManagementManual (local_commit offset_store))
  | ManagementAuto flush_period offset_store last_flush_time =>
      (inl tt, ManagementAuto flush_period (local_commit offset_store) last_flush_time)
  end.
(* src/crates/fluvio/src/consumer/stream.rs:297-314 OffsetManagement::flush *)
Definition management_flush (now : Z) (reply : Z -> option ErrorCode) (self : OffsetManagement) : (unit + ErrorCode) * OffsetManagement :=
  match self with
  | ManagementNone => (inr EcOffsetManagementDisabled, self)
  | ManagementManual offset_store =>
      let '(r, offset_store) := local_flush reply offset_store in (r, ManagementManual offset_store)
  | ManagementAuto flush_period offset_store last_flush_time =>
      match local_flush reply offset_store with
      | (inl _, offset_store) => (inl tt, ManagementAuto flush_period offset_store now)
      | (inr e, offset_store) => (inr (EcOther "flush"), ManagementAuto flush_period offset_store last_flush_time)
      end
  end.
(* src/crates/fluvio/src/consumer/stream.rs:318-332 OffsetManagement::drop *)
Definition management_drop (self : OffsetManagement) : OffsetManagement :=
  match self with
  | ManagementAuto flush_period offset_store last_flush_time =>
      ManagementAuto flush_period (snd (local_try_flush (local_commit offset_store))) last_flush_time
  | _ => self
  end.

(** The stream of a partition: what is left of the inner one, and its offsets. *)
(* src/crates/fluvio/src/consumer/stream.rs:40-43 SinglePartitionConsumerStream *)
Record SinglePartitionConsumerStream := MkSingle {
  inner_stream : list (ConsumerRecord + ErrorCode);
  offset_mngt : OffsetManagement;
}.
(* src/crates/fluvio/src/consumer/stream.rs:139-155 SinglePartitionConsumerStream::poll_next *)
Definition single_next (now : Z) (self : SinglePartitionConsumerStream)
    : option (ConsumerRecord + ErrorCode) * SinglePartitionConsumerStream :=
  match inner_stream self with
  | inl last :: inner => (Some (inl last), MkSingle inner (management_update now (cr_offset last) (offset_mngt self)))
  | inr e :: inner => (Some (inr e), MkSingle inner (run_auto_flush now (offset_mngt self)))
  | [] => (None, MkSingle [] (run_auto_flush now (offset_mngt self)))
  end.

(** ** Streams that reconnect *)

(* src/crates/fluvio/src/consumer/config.rs:74-79 RetryMode *)
Inductive RetryMode := RetryDisabled | TryUntil (max : Z) | TryForever.
Definition retry_disabled (mode : RetryMode) : bool := match mode with RetryDisabled => true | _ => false end.
Notation Items := (list (ConsumerRecord + ErrorCode)).
(** The fields of the configuration that matter here. *)
(* src/crates/fluvio/src/consumer/config.rs:83-109 ConsumerConfigExt *)
Record ConsumerConfigExt := MkConsumerConfig {
  offset_start : OffsetInner;
  disable_continuous : bool;
  retry_mode : RetryMode;
}.
(** What [strategy.reconnect(..)] gives at the next attempts for a start: a
    stream, or an error. *)
Notation Connections := (list (OffsetInner -> option Items)).
(* src/crates/fluvio/src/consumer/retry.rs:62-69 ConsumerRetryInner *)
Record ConsumerRetryInner := MkRetryInner {
  next_offset_to_read : option Z;
  consumer_config : ConsumerConfigExt;
}.
Definition set_next_offset (next : option Z) (inner : ConsumerRetryInner) : ConsumerRetryInner :=
  MkRetryInner next (consumer_config inner).
(* src/crates/fluvio/src/consumer/retry.rs:72-78 ConsumerRetryInner::next_offset *)
Definition retry_next_offset (inner : ConsumerRetryInner) : OffsetInner :=
  match next_offset_to_read inner with
  | Some next => default (offset_start (consumer_config inner)) (offset_absolute next)
  | None => offset_start (consumer_config inner)
  end.
(** The result, when there is one to return, and the state. *)
(* src/crates/fluvio/src/consumer/retry.rs:277-331 ConsumerRetryStream::handle_consumer_records *)
Definition handle_consumer_records (inner : ConsumerRetryInner) (stream : Items)
    : option (ConsumerRecord * Z + ErrorCode) * ConsumerRetryInner * Items :=
  match stream with
  | [] => (None, inner, [])
  | inl record :: stream => (Some (inl (record, as_i64 (cr_offset record + 1))), inner, stream)
  | inr (EcOffsetEvicted offset next_available) :: stream =>
      let inner := set_next_offset (Some next_available) inner in
      if retry_disabled (retry_mode (consumer_config inner))
      then (Some (inr (EcOffsetEvicted offset next_available)), inner, stream)
      else (None, inner, stream)
  | inr e :: stream =>
      if retry_disabled (retry_mode (consumer_config inner)) then (Some (inr e), inner, stream) else (None, inner, stream)
  end.
(** [None] is an attempt that has not ended. *)
(* src/crates/fluvio/src/consumer/retry.rs:334-371 ConsumerRetryStream::handle_reconnection_loop *)
Fixpoint handle_reconnection_loop (mode : RetryMode) (attempts : Z) (offset_start : OffsetInner) (connections : Connections)
    : option ((Items + ErrorCode) * Connections) :=
  match connections with
  | [] => None
  | reconnect :: connections =>
      match reconnect offset_start with
      | Some new_stream => Some (inl new_stream, connections)
      | None =>
          let attempts := wrap_u 32 (attempts + 1) in
          match mode with
          | TryUntil max =>
              if max <=? attempts then Some (inr EcMaxRetryReached, connections)
              else handle_reconnection_loop mode attempts offset_start connections
          | RetryDisabled => Some (inr (EcOther "reconnect"), connections)
          | TryForever => handle_reconnection_loop mode attempts offset_start connections
          end
      end
  end.
(** What a task gives: nothing when the stream has ended; [None] is a task that
    has not ended.  Each turn but the last one uses a connection, so a turn for
    each of them and one more is enough. *)
Fixpoint retry_turns (turns : nat) (inner : ConsumerRetryInner) (attempts : Z) (stream : Items) (connections : Connections)
    : option (option (ConsumerRecord * Z + ErrorCode) * Items * Connections) :=
  match turns with
  | O => None
  | Datatypes.S turns =>
      match handle_consumer_records inner stream with
      | (Some consumer, _, stream) => Some (Some consumer, stream, connections)
      | (None, inner, stream) =>
          if retry_disabled (retry_mode (consumer_config inner)) || disable_continuous (consumer_config inner)
          then Some (None, stream, connections)
          else
            let attempts := wrap_u 32 (attempts + 1) in
            match handle_reconnection_loop (retry_mode (consumer_config inner)) attempts (retry_next_offset inner) connections with
            | None => None
            | Some (inl new_stream, connections) => retry_turns turns inner attempts new_stream connections
            | Some (inr err, connections) => Some (Some (inr err), stream, connections)
            end
      end
  end.
(* src/crates/fluvio/src/consumer/retry.rs:230-274 ConsumerRetryStream::consumer_with_retry *)
Definition consumer_with_retry (inner : ConsumerRetryInner) (stream : Items) (connections : Connections)
    : option (option (ConsumerRecord * Z + ErrorCode) * Items * Connections) :=
  retry_turns (Datatypes.S (length connections)) inner 0 stream connections.

(* src/crates/fluvio/src/consumer/retry.rs:37-41 ConsumerRetryStream *)
Record ConsumerRetryStream := MkRetryStream {
  retry_inner : ConsumerRetryInner;
  retry_terminated : bool;
  retry_stream : Items;
  retry_connections : Connections;
}.
(** An item, the end of the stream, or [None] for a stream that waits. *)
(* src/crates/fluvio/src/consumer/retry.rs:135-166 ConsumerRetryStream::poll_next *)
Definition retry_next (self : ConsumerRetryStream) : option (option (ConsumerRecord + ErrorCode) * ConsumerRetryStream) :=
  if retry_terminated self then Some (None, self)
  else
    match consumer_with_retry (retry_inner self) (retry_stream self) (retry_connections self) with
    | None => None
    | Some (Some (inl (record, new_offset)), stream, connections) =>
        Some (Some (inl record), MkRetryStream (set_next_offset (Some new_offset) (retry_inner self)) false stream connections)
    | Some (Some (inr e), stream, connections) =>
        Some (Some (inr e), MkRetryStream (retry_inner self) false stream connections)
    | Some (None, stream, connections) =>
        Some (None, MkRetryStream (retry_inner self) true stream connections)
    end.
