(* ===== verification/ConsumerStream.v ===== *)
(** * A stream of records from a leader to a consumer

    The leader of a partition ([SpuStorage], [Replication]), the handler of a
    stream ([StreamFetch]) and the client ([Consumer]) run together: records are
    produced and committed, the handler reads and sends them, the client
    decodes them and acknowledges what it has.  Each is a step of a relation,
    in any order; the network keeps the order of messages.  A consumer gets
    every record exactly once and in order, and no one that is not committed
    when it asks for committed ones. *)

From stdpp Require Import gmap strings list.
From S2P Require Import Prelude Wire Varint Utf8 Scalars Collections Records Batch RecordSet.
From S2P Require Import StorageIndex StorageLog StorageSegment StorageCheckpoint StorageReplica StorageReplicaLaws.
From S2P Require Import SpuStorage Replication ReplicationLaws Names ClusterTypes SpuProduce.
From S2P Require Import Derive SmartModule KvLog FileIter ReplicaLog SmartBatch SmartContext ConsumerOffsets StreamFetch Consumer.

#[local] Open Scope Z_scope.

(** ** What a response brings *)

Section cut.
Context (crc32c : list byte -> Z) (crc32c_u32 : forall bs, in_u 32 (crc32c bs)).
Notation seal := (sealed crc32c codec_raw).
Notation wires := (wire_batches crc32c codec_raw).

(** The first bytes of some batches are whole batches and a part of one. *)
Lemma wire_batches_cut max bs :
  0 <= max ->
  exists j t, ztake max (wires bs) = wires (take j bs) ++ t /\ (j <= length bs)%nat /\
    (t = [] \/ exists b t', bs !! j = Some b /\ t ++ t' = wire_batch crc32c codec_raw b /\ t <> [] /\ t' <> []).
Proof.
  revert max. induction bs as [|b bs IH]; intros max Hmax.
  { exists 0%nat, []. split; [|split; [done|by left]]. apply ztake_all. cbn. done. }
  rewrite wire_batches_cons. destruct (Z.le_gt_cases (zlen (wire_batch crc32c codec_raw b)) max) as [Hle|Hgt].
  - pose proof (zlen_nonneg (wire_batch crc32c codec_raw b)). destruct (IH (max - zlen (wire_batch crc32c codec_raw b))) as (j & t & E & Hj & Ht); [lia|].
    exists (Datatypes.S j), t. split; [|split; [cbn; lia|exact Ht]]. cbn [take]. rewrite wire_batches_cons, <-app_assoc, <-E.
    rewrite <-(ztake_app_exact _ (wire_batch crc32c codec_raw b) (wires bs) eq_refl) at 2.
    rewrite <-(zdrop_app_exact _ (wire_batch crc32c codec_raw b) (wires bs) eq_refl) at 3.
    rewrite <-ztake_plus by lia. f_equal. lia.
  - rewrite ztake_app_le by lia. exists 0%nat, (ztake max (wire_batch crc32c codec_raw b)). split; [done|]. split; [lia|].
    destruct (decide (ztake max (wire_batch crc32c codec_raw b) = [])) as [->|Hne]; [by left|]. right.
    exists b, (zdrop max (wire_batch crc32c codec_raw b)). split; [done|]. split; [apply ztake_zdrop|]. split; [done|].
    intros E. apply (f_equal zlen) in E. rewrite zlen_zdrop, zlen_nil in E by lia. lia.
Qed.

(** The client gets the whole batches, and perhaps another one that it
    recognises as cut. *)
Lemma receive_cut v max b bs :
  Forall (valid_batch codec_raw) (b :: bs) -> zlen (wire_batch crc32c codec_raw b) <= max < 2 ^ 31 ->
  exists j extra, (j <= length bs)%nat /\
    receive_records crc32c v (FileRecordSet (ztake max (wires (b :: bs))))
      = Ok (MkRecordSet (map seal (take (Datatypes.S j) (b :: bs)) ++ extra)) /\
    Forall (fun x => validate_decoding codec_raw x = false) extra.
Proof.
  intros Hv Hmax. pose proof (zlen_nonneg (wire_batch crc32c codec_raw b)) as H0.
  destruct (wire_batches_cut max (b :: bs) ltac:(lia)) as (j & t & E & Hj & Ht).
  assert (zlen (ztake max (wires (b :: bs))) <= max) as Hlen.
  { rewrite ztake_take. unfold zlen. rewrite length_take. lia. }
  destruct j as [|j].
  { exfalso. destruct Ht as [->|(b' & t' & Hb & Et & _ & Hne)].
    - rewrite wire_batches_cons in E. pose proof (zlen_wire_batch_min crc32c codec_raw b) as Hm.
      unfold BATCH_FILE_HEADER_SIZE, BATCH_PREAMBLE_SIZE, BATCH_HEADER_SIZE in Hm.
      apply (f_equal zlen) in E. rewrite ztake_take in E. cbn in E. unfold zlen in *. rewrite length_take, length_app in E. cbn in E. lia.
    - injection Hb as <-. apply zlen_pos in Hne. rewrite wire_batches_cons in E. cbn [take] in E.
      change (wires []) with (@nil byte) in E. cbn [app] in E. apply (f_equal zlen) in E, Et.
      rewrite zlen_app in Et. rewrite ztake_take in E. unfold zlen in *. rewrite length_take, length_app in E. lia. }
  assert (Forall (valid_batch codec_raw) (take (Datatypes.S j) (b :: bs))) as Hvt by (by apply Forall_take).
  unfold receive_records, response_wire. rewrite E in Hlen |- *.
  exists j. destruct Ht as [->|(b' & t' & Hb & Et & Hne & Hne')].
  - exists []. rewrite !app_nil_r in *. split; [cbn in Hj; lia|]. split; [|done].
    pose proof (reads_record_set crc32c crc32c_u32 codec_raw v (MkRecordSet (take (Datatypes.S j) (b :: bs)))) as Hr.
    specialize (Hr ltac:(split; [done|cbn [batches]; lia]) []). unfold wire_record_set in Hr. rewrite app_nil_r in Hr.
    unfold decode_from. cbn [Wire.decode codec_record_set dflt]. cbn [batches] in Hr. rewrite Hr; [done|].
    rewrite zlen_app, zlen_be_split. unfold isize_max. lia.
  - destruct (decode_batches_truncated crc32c crc32c_u32 v (take (Datatypes.S j) (b :: bs)) b' t t') as (extra & st & Ed & Hx);
      [done| |done..|unfold isize_max; lia|].
    { rewrite Forall_forall in Hv. apply Hv. by eapply list_elem_of_lookup_2. }
    exists extra. split; [cbn in Hj; lia|]. split; [|done].
    unfold decode_from. cbn [Wire.decode codec_record_set dflt].
    assert (zlen (wires (take (Datatypes.S j) (b :: bs)) ++ t) < 2 ^ 31) as Hlt by lia.
    pose proof (fun rs => decode_record_set_payload crc32c codec_raw v _ [] rs st Hlt) as Ep.
    specialize (Ep (map seal (take (Datatypes.S j) (b :: bs)) ++ extra)). rewrite !app_nil_r in Ep.
    rewrite Ep; [done|unfold isize_max; lia|exact Ed].
Qed.

Lemma omap_all_none {A B} (f : A -> option B) l : Forall (fun x => f x = None) l -> omap f l = [].
Proof. induction 1 as [|x l Hx _ IH]; [done|]. cbn. by rewrite Hx. Qed.
End cut.

Section records.
Context (crc32c : list byte -> Z) (gzip snappy lz4 zstd : Backend).
Notation seal := (sealed crc32c codec_raw).
Implicit Types (b : RawBatch) (bs : list RawBatch).

(** A batch whose records can be read, and are as many as its offsets. *)
Definition readable b : Prop :=
  exists rs, memory_records gzip snappy lz4 zstd b = inl rs /\ zlen rs = last_offset_delta (header b) + 1.

(** The records of a log, as consumers see them. *)
Definition batch_records (partition : Z) b : list ConsumerRecord :=
  match batch_of_raw gzip snappy lz4 zstd b with inl batch => into_consumer_records partition batch | inr _ => [] end.
Definition log_records (partition : Z) bs : list ConsumerRecord := concat (map (batch_records partition) bs).
Definition records_from (start : Z) (rs : list ConsumerRecord) : list ConsumerRecord :=
  List.filter (fun r => start <=? cr_offset r) rs.

Lemma batch_records_sealed partition b : batch_records partition (seal b) = batch_records partition b.
Proof. unfold batch_records, batch_of_raw. change (memory_records _ _ _ _ (seal b)) with (memory_records gzip snappy lz4 zstd b).
  destruct (memory_records _ _ _ _ b); done. Qed.

Lemma log_records_app partition bs bs' : log_records partition (bs ++ bs') = log_records partition bs ++ log_records partition bs'.
Proof. unfold log_records. by rewrite map_app, concat_app. Qed.

Lemma batch_records_offsets partition b :
  readable b -> 0 <= base_offset b -> base_offset b + last_offset_delta (header b) < 2 ^ 63 ->
  map cr_offset (batch_records partition b) = seqZ (base_offset b) (last_offset_delta (header b) + 1).
Proof.
  intros (rs & Er & Hl) H0 H63. unfold batch_records, batch_of_raw. rewrite Er. cbn [cbind]. unfold into_consumer_records.
  cbn [records base_offset header]. apply list_eq. intros i. change (map cr_offset) with (fmap (M := list) cr_offset).
  rewrite fmap_imap, list_lookup_imap. destruct (rs !! i) as [r|] eqn:Ei.
  - apply lookup_lt_Some in Ei. unfold zlen in Hl. rewrite lookup_seqZ_lt by lia. cbn. f_equal. apply wrap_i_id; [lia|]. unfold in_i. lia.
  - apply lookup_ge_None in Ei. unfold zlen in Hl. symmetry. apply lookup_seqZ_ge. lia.
Qed.

Lemma log_records_offsets partition o bs :
  log_from codec_raw o bs -> Forall readable bs -> 0 <= o -> end_from o bs < 2 ^ 63 ->
  map cr_offset (log_records partition bs) = seqZ o (end_from o bs - o).
Proof.
  revert o. induction bs as [|b bs IH]; intros o Hl Hr Ho He.
  { cbn. by rewrite Z.sub_diag. }
  apply Forall_cons in Hr as [Hb Hr]. destruct Hl as (Eb & Hd & _ & Hl). cbn [end_from] in *.
  pose proof (end_from_ge codec_raw _ _ Hl). pose proof (zlen_nonneg bs). unfold log_records in *. cbn [map concat].
  rewrite map_app. rewrite (IH _ Hl Hr); [|lia|lia]. rewrite batch_records_offsets by (done || lia). rewrite Eb.
  replace (end_from (o + last_offset_delta (header b) + 1) bs - o)
    with ((last_offset_delta (header b) + 1) + (end_from (o + last_offset_delta (header b) + 1) bs - (o + last_offset_delta (header b) + 1))) by lia.
  rewrite (seqZ_app o (last_offset_delta (header b) + 1)) by lia. by rewrite Z.add_assoc.
Qed.

Lemma records_from_all first rs o n : map cr_offset rs = seqZ o n -> first <= o -> records_from first rs = rs.
Proof.
  revert o n. induction rs as [|r rs IH]; intros o n Er Ho; [done|]. cbn in Er |- *.
  destruct (Z.le_gt_cases n 0); [rewrite seqZ_nil in Er by lia; done|]. rewrite seqZ_cons in Er by lia. injection Er as Eoff Er.
  destruct (Z.leb_spec first (cr_offset r)); [|lia]. f_equal. apply (IH _ _ Er). lia.
Qed.

Lemma records_from_seq first rs o n :
  0 <= n -> map cr_offset rs = seqZ o n -> o <= first ->
  map cr_offset (records_from first rs) = seqZ first (Z.max first (o + n) - first).
Proof.
  revert o n. induction rs as [|r rs IH]; intros o n Hn Er Ho.
  - cbn in *. destruct (Z.eq_dec n 0) as [->|]; [|rewrite seqZ_cons in Er by lia; done]. rewrite Z.max_l by lia. by rewrite Z.sub_diag.
  - destruct (Z.le_gt_cases n 0); [rewrite seqZ_nil in Er by lia; done|].
    pose proof Er as Er0. rewrite seqZ_cons in Er by lia. injection Er as Eoff Er.
    destruct (Z.eq_dec o first) as [->|].
    + rewrite (records_from_all first (r :: rs) first n Er0) by lia. rewrite Er0, Z.max_r by lia. f_equal. lia.
    + cbn. destruct (Z.leb_spec first (cr_offset r)); [lia|]. fold (records_from first rs).
      rewrite (IH (Z.succ o) (Z.pred n)); [f_equal; lia|lia|done|lia].
Qed.

(** What the client makes of a response. *)
Lemma response_items_records partition start response bs extra :
  batches (cl_records response) = map seal bs ++ extra -> cl_error_code response = EcNone ->
  Forall readable bs -> Forall (fun x => validate_decoding codec_raw x = false) extra ->
  response_items gzip snappy lz4 zstd partition start response = map inl (records_from start (log_records partition bs)).
Proof.
  intros Eb Ee Hr Hx. unfold response_items, response_batches. rewrite Eb, Ee, omap_app, app_nil_r.
  rewrite (omap_all_none _ extra).
  2:{ eapply List.Forall_impl; [|exact Hx]. cbn. by intros b ->. }
  rewrite app_nil_r. clear Eb. induction Hr as [|b bs (rs & Er & _) _ IH]; [done|]. cbn [map omap list_omap].
  change (omap _ (map seal bs)) with (omap (fun raw_batch => if negb (validate_decoding codec_raw raw_batch) then None
    else Some match batch_of_raw gzip snappy lz4 zstd raw_batch with inl batch => @inl _ ErrorCode batch | inr err => inr (EcOther "compression") end) (map seal bs)) in IH.
  rewrite validate_sealed. cbn [negb]. cbn [map concat]. rewrite IH. unfold records_from. unfold log_records. cbn [map concat].
  rewrite List.filter_app, map_app. f_equal. unfold batch_records, batch_of_raw.
  change (memory_records _ _ _ _ (seal b)) with (memory_records gzip snappy lz4 zstd b). rewrite Er. done.
Qed.

Lemma response_next response bs extra o :
  batches (cl_records response) = map seal bs ++ extra -> cl_next_filter_offset response = 0 ->
  Forall (fun x => validate_decoding codec_raw x = false) extra ->
  log_from codec_raw o bs -> bs <> [] -> 0 <= o -> end_from o bs < 2 ^ 63 ->
  next_offset_for_fetch response = Some (end_from o bs).
Proof.
  intros Eb En Hx Hl Hne Ho He. unfold next_offset_for_fetch. rewrite En. cbn. unfold last_offset. rewrite Eb, find_rev_app_false by done.
  pose proof (last_offset_sealed crc32c codec_raw bs) as El. unfold last_offset in El. cbn [batches] in El. rewrite El. clear El.
  destruct bs as [|b bs _] using rev_ind; [done|]. rewrite last_snoc. cbn. f_equal.
  apply log_from_app in Hl as [Hl (Eb' & Hd & _)]. rewrite end_from_app in He |- *. cbn in He |- *.
  pose proof (end_from_ge codec_raw _ _ Hl). pose proof (zlen_nonneg bs).
  unfold computed_last_offset, records_len. rewrite Eb'. destruct (Z.ltb_spec (last_offset_delta (header b)) (-1)); case_ltb; try lia;
    rewrite wrap_i_id by (unfold in_i; lia); lia.
Qed.
End records.

(** ** Reading from the leader *)

Section reading.
Context (crc32c : list byte -> Z) {S : Type} `{!ReplicaStorage S} `{!ReplicaStorageOK crc32c S}.
Implicit Types (leader : SharableReplicaStorage S) (log : list RawBatch).
Notation wires := (wire_batches crc32c codec_raw).

(** The [k]-th batch of the log is the next one for a reader at [pos]; there
    may be none yet. *)
Definition next_batch (o : Z) log (k : nat) (pos : Z) : Prop :=
  (k <= length log)%nat /\ offset_at o log k <= pos /\
  (if decide (k < length log)%nat then pos < offset_at o log (Datatypes.S k) else pos = offset_at o log k).

Lemma offset_at_le o log i j :
  log_from codec_raw o log -> (i <= j <= length log)%nat -> offset_at o log i <= offset_at o log j.
Proof.
  intros Hl Hij. destruct (decide (i = j)) as [->|]; [done|]. pose proof (offset_at_mono codec_raw o log i j Hl ltac:(lia)). lia.
Qed.

Lemma next_batch_unique o log i k pos :
  log_from codec_raw o log -> (i < length log)%nat -> (k < length log)%nat ->
  offset_at o log i <= pos < offset_at o log (Datatypes.S i) -> offset_at o log k <= pos < offset_at o log (Datatypes.S k) -> i = k.
Proof.
  intros Hl Hi Hk Hpi Hpk. destruct (Nat.lt_trichotomy i k) as [Hlt|[E|Hgt]]; [|done|].
  - pose proof (offset_at_le o log (Datatypes.S i) k Hl ltac:(lia)). lia.
  - pose proof (offset_at_le o log (Datatypes.S k) i Hl ltac:(lia)). lia.
Qed.

(** There is a next batch for any offset of the log. *)
Lemma next_batch_exists o log pos :
  log_from codec_raw o log -> o <= pos <= end_from o log -> exists k, next_batch o log k pos.
Proof.
  intros Hl Hp. unfold next_batch. destruct (decide (pos = end_from o log)) as [->|Hne].
  { exists (length log). rewrite offset_at_all. split; [lia|]. split; [lia|]. by destruct (decide _); [lia|]. }
  assert (forall n, (n <= length log)%nat -> pos < offset_at o log n ->
    exists k, (k < n)%nat /\ offset_at o log k <= pos < offset_at o log (Datatypes.S k)) as Hfind.
  { induction n as [|n IH]; intros Hn Hlt.
    - unfold offset_at in Hlt. rewrite take_0 in Hlt. cbn in Hlt. lia.
    - destruct (Z.lt_ge_cases pos (offset_at o log n)) as [Hc|Hc].
      + destruct (IH ltac:(lia) Hc) as (k & Hk & ?). exists k. split; [lia|done].
      + exists n. split; [lia|lia]. }
  destruct (Hfind (length log)) as (k & Hk & Hr); [lia|rewrite offset_at_all; lia|].
  exists k. split; [lia|]. split; [lia|]. destruct (decide _); lia.
Qed.

Lemma isolation_end_published start leader limit log isolation :
  sh_ok_from crc32c start leader limit log ->
  isolation_end isolation (sh_inner leader) = current_value (published isolation leader).
Proof. intros (_ & El & Eh & _). by destruct isolation. Qed.

(** A read before the end gives the next batch, and perhaps later ones, none
    past the end. *)
Lemma read_before_end start leader limit log k pos isolation max j :
  sh_ok_from crc32c start leader limit log -> next_batch start log k pos ->
  (j <= length log)%nat -> isolation_end isolation (sh_inner leader) = offset_at start log j -> pos < offset_at start log j ->
  exists n sl, sh_read_records pos max isolation leader = Ok sl /\
    slice_data sl = ztake max (wires (take (Datatypes.S n) (drop k log))) /\ (k + Datatypes.S n <= length log)%nat /\
    offset_at start log (k + Datatypes.S n) <= offset_at start log j /\ slice_end sl = MkOffsetInfo (pub_hw leader) (pub_leo leader).
Proof.
  intros Hok (Hk & Hpos & Hnext) Hj Eend Hlt. pose proof Hok as (Hst & Eleo & Ehw & _).
  destruct (stores_log _ _ _ Hst) as (H0 & Hl & Ee & _).
  assert (k < j)%nat as Hkj.
  { destruct (Nat.le_gt_cases j k) as [Hle|]; [|lia]. pose proof (offset_at_le start log j k Hl ltac:(lia)). lia. }
  destruct (decide (k < length log)%nat) as [Hklt|]; [|lia].
  pose proof (offset_at_le start log j (length log) Hl ltac:(lia)) as Hend. rewrite offset_at_all in Hend.
  pose proof (offset_at_bounds codec_raw start log k Hl Hk) as Hb.
  destruct (stores_read_at (sh_inner leader) start log pos max isolation Hst) as (sl & data & Er & Ed & Hr & _ & Es); [lia|lia|].
  destruct Hr as (pre & b & post & n & E & Hin & Edata & Hmax & Hn).
  assert (log !! length pre = Some b) as Hlook by (rewrite E; by apply list_lookup_middle).
  destruct (log_from_lookup codec_raw _ _ _ _ Hl Hlook) as (Eb & _). pose proof (offset_at_S start log _ _ Hlook) as ES.
  pose proof (lookup_lt_Some _ _ _ Hlook).
  assert (length pre = k) as Epre by (apply (next_batch_unique start log _ _ pos Hl); lia).
  assert (b :: post = drop k log) as Edrop by (rewrite E, <-Epre; by rewrite drop_app_length).
  assert (0 < n)%nat as Hn0.
  { apply Hn. intros m Em. pose proof (offset_at_le start log (Datatypes.S k) j Hl ltac:(lia)).
    rewrite Epre in *. destruct isolation; [done|]. cbn in Em, Eend. injection Em as <-. lia. }
  set (n' := Nat.min n (length log - k)). assert (take n (b :: post) = take n' (drop k log)) as Etake.
  { rewrite Edrop. unfold n'. destruct (Nat.min_spec n (length log - k)) as [[? ->]|[? ->]]; [done|].
    rewrite !firstn_all2; [done|rewrite length_drop; lia..]. }
  exists (n' - 1)%nat, sl. replace (Datatypes.S (n' - 1)) with n' by lia.
  split; [exact Er|]. split; [by rewrite Ed, Edata, Etake|]. split; [lia|]. split; [|by rewrite Es, Ehw, Eleo].
  assert (offset_at start log (k + n') = end_from start (pre ++ take n (b :: post))) as EE.
  { unfold offset_at. f_equal. rewrite Etake.
    rewrite <-(take_drop k log) at 1. rewrite take_app_ge by (rewrite length_take; lia). rewrite length_take, Nat.min_l by lia.
    replace (k + n' - k)%nat with n' by lia. f_equal. rewrite E, <-Epre. by rewrite take_app_length. }
  destruct isolation.
  - rewrite <-Eend. cbn. rewrite <-Ee, <-offset_at_all. apply offset_at_le; [done|lia].
  - rewrite EE, <-Eend. cbn. by apply Hmax.
Qed.

(** A read at the end gives nothing. *)
Lemma read_at_end start leader limit log k pos isolation max :
  sh_ok_from crc32c start leader limit log -> next_batch start log k pos ->
  isolation_end isolation (sh_inner leader) = pos ->
  exists sl, sh_read_records pos max isolation leader = Ok sl /\ slice_data sl = [].
Proof.
  intros Hok (Hk & Hpos & Hnext) Eend. pose proof Hok as (Hst & Eleo & Ehw & _).
  destruct (stores_log _ _ _ Hst) as (H0 & Hl & Ee & _).
  pose proof (offset_at_bounds codec_raw start log k Hl Hk) as Hb.
  destruct (decide (k < length log)%nat) as [Hklt|Hge].
  2:{ assert (k = length log) as -> by lia. rewrite offset_at_all in Hnext. rewrite Ee in Hnext. rewrite Hnext.
      eexists. split; [exact (stores_read_end (sh_inner leader) start log max isolation Hst)|reflexivity]. }
  pose proof (offset_at_le start log (Datatypes.S k) (length log) Hl ltac:(lia)) as Hend. rewrite offset_at_all in Hend.
  destruct (stores_read_at (sh_inner leader) start log pos max isolation Hst) as (sl & data & Er & Ed & Hr & _ & Es); [lia|lia|].
  exists sl. split; [exact Er|]. rewrite Ed. destruct Hr as (pre & b & post & n & E & Hin & Edata & Hmax & Hn).
  assert (log !! length pre = Some b) as Hlook by (rewrite E; by apply list_lookup_middle).
  destruct (log_from_lookup codec_raw _ _ _ _ Hl Hlook) as (Eb & _). pose proof (offset_at_S start log _ _ Hlook) as ES.
  destruct isolation; cbn in Eend; [lia|]. specialize (Hmax _ eq_refl). rewrite Eend in Hmax.
  destruct n as [|n]; [rewrite Edata, take_0, ztake_take; apply take_nil|]. exfalso.
  rewrite end_from_app in Hmax. cbn [take end_from] in Hmax.
  assert (log_from codec_raw (end_from start pre + last_offset_delta (header b) + 1) (take n post)) as Hlt.
  { rewrite E in Hl. apply log_from_app in Hl as [_ (_ & _ & _ & Hl)]. by apply log_from_take. }
  pose proof (end_from_ge codec_raw _ _ Hlt). pose proof (zlen_nonneg (take n post)).
  assert (offset_at start log (length pre) = end_from start pre) as Ep by (unfold offset_at; rewrite E; by rewrite take_app_length).
  lia.
Qed.
End reading.

(** ** The system *)

Section system.
Context `{PRead} (crc32c : list byte -> Z) (gzip snappy lz4 zstd : Backend).
Context {S : Type} `{!ReplicaStorage S} `{!ReplicaStorageOK crc32c S} {W : Type} `{Wasm W}.
Notation Handler := (StreamFetchHandler W).
Notation Leader := (SharableReplicaStorage S).
Notation seal := (sealed crc32c codec_raw).

(** The leader and what was ever written to it, the streams of the connection
    and the task that handles this one, and the client with the items it has
    given to its user.  The responses of the handler that the client has not
    received are in its sink. *)
Record StreamSystem := MkSystem {
  ss_log : list RawBatch;
  ss_leader : Leader;
  ss_publishers : StreamPublishers;
  ss_handler : Handler;
  ss_running : bool;
  ss_client : ClientStream;
  ss_items : list (ConsumerRecord + ErrorCode);
}.

(** The end of the task of the handler. *)
Definition after_turn (r : outcome StreamFetchError bool) (handler : Handler) : Handler * bool :=
  match r with
  | Ok running => (handler, running)
  | Err e => (set_sink (sf_sink handler ++ [error_response (sf_replica handler) (sf_stream_id handler) e]) handler, false)
  | Panic => (handler, false)
  end.
(** The stream after the request of the client has been handled. *)
Definition stream_system (leader : Leader) (log : list RawBatch) (msg : StreamFetchRequest) (publishers : StreamPublishers)
    : option StreamSystem :=
  match stream_start gzip snappy lz4 zstd (W := W) {[sfq_replica msg := leader]} msg None publishers with
  | (_, inl _) => None
  | (publishers, inr (handler, r)) =>
      let '(handler, running) := after_turn (match r with Ok _ => Ok true | Err e => Err e | Panic => Panic end) handler in
      Some (MkSystem log leader publishers handler running (MkClientStream None []) [])
  end.

(** The condition on what is produced: a batch can be stored, its records can be
    read, and it is not larger than the consumer asked for at most.  The last
    one nothing enforces, see [oversized_batch_stalls]. *)
Definition deliverable (limit max_bytes : Z) (b : RawBatch) : Prop :=
  sendable limit b /\ write_size_batch codec_raw 0 b <= max_bytes /\ readable gzip snappy lz4 zstd b.

(** The steps of the handler, the network and the client; [first] is the offset
    the client asked for. *)
Inductive stream_internal (version first : Z) : StreamSystem -> StreamSystem -> Prop :=
| stream_turn st event consumer r handler :
    ss_running st = true ->
    fst <$> sp_publishers (ss_publishers st) !! sf_stream_id (ss_handler st) = Some consumer ->
    process_turn gzip snappy lz4 zstd false consumer (ss_leader st) event (ss_handler st) = Some (r, handler) ->
    stream_internal version first st
      (MkSystem (ss_log st) (ss_leader st) (ss_publishers st) (fst (after_turn r handler)) (snd (after_turn r handler))
        (ss_client st) (ss_items st))
| stream_receive st response rest received :
    sf_sink (ss_handler st) = response :: rest ->
    receive crc32c version response = Ok received ->
    stream_internal version first st
      (MkSystem (ss_log st) (ss_leader st) (ss_publishers st) (set_sink rest (ss_handler st)) (ss_running st)
        (client_receive received (ss_client st))
        (ss_items st ++ response_items gzip snappy lz4 zstd (partition (sf_replica (ss_handler st))) first received))
| stream_update st id message rest offsets :
    stream_id (ss_client st) = Some id -> server_channel (ss_client st) = message :: rest ->
    task_request id message = Some (UpdateOffsetsRequest offsets) ->
    stream_internal version first st
      (MkSystem (ss_log st) (ss_leader st) (snd (handle_offset_update offsets (ss_publishers st))) (ss_handler st) (ss_running st)
        (MkClientStream (Some id) rest) (ss_items st)).

(** The steps with those of producers and of replication; [start] is the first
    offset of the log.  What is committed ends with a batch. *)
Inductive stream_step (version limit max_bytes start first : Z) : StreamSystem -> StreamSystem -> Prop :=
| stream_produce st bs upd r leader stored :
    Forall (deliverable limit max_bytes) bs -> end_from (pub_leo (ss_leader st)) bs < 2 ^ 63 ->
    sh_write_record_set upd (ss_leader st, MkRecordSet bs) = (Ok r, (leader, MkRecordSet stored)) ->
    stream_step version limit max_bytes start first st
      (MkSystem (ss_log st ++ stored) leader (ss_publishers st) (ss_handler st) (ss_running st) (ss_client st) (ss_items st))
| stream_commit st n r leader :
    (n <= length (ss_log st))%nat -> pub_hw (ss_leader st) <= offset_at start (ss_log st) n ->
    sh_update_hw (offset_at start (ss_log st) n) (ss_leader st) = (Ok r, leader) ->
    stream_step version limit max_bytes start first st
      (MkSystem (ss_log st) leader (ss_publishers st) (ss_handler st) (ss_running st) (ss_client st) (ss_items st))
| stream_inside st st' :
    stream_internal version first st st' -> stream_step version limit max_bytes start first st st'.

Inductive stream_reach (version limit max_bytes start first : Z) (st0 : StreamSystem) : StreamSystem -> Prop :=
| stream_here : stream_reach version limit max_bytes start first st0 st0
| stream_next st st' :
    stream_reach version limit max_bytes start first st0 st -> stream_step version limit max_bytes start first st st' ->
    stream_reach version limit max_bytes start first st0 st'.
End system.
Arguments StreamSystem : clear implicits.

(** ** The invariant *)

Section invariant.
Context `{PRead} (crc32c : list byte -> Z) (crc32c_u32 : forall bs, in_u 32 (crc32c bs)) (gzip snappy lz4 zstd : Backend).
Context {S : Type} `{!ReplicaStorage S} `{!ReplicaStorageOK crc32c S} {W : Type} `{Wasm W}.
Context (version limit max_bytes start first part id : Z) (iso : Isolation).
Context (first_start : 0 <= start <= first) (max_bytes_i32 : max_bytes < 2 ^ 31).
Notation Handler := (StreamFetchHandler W).
Notation Leader := (SharableReplicaStorage S).
Notation seal := (sealed crc32c codec_raw).
Implicit Types (st : StreamSystem S W) (log : list RawBatch) (leader : Leader) (handler : Handler) (client : ClientStream).

Definition fits (b : RawBatch) : Prop :=
  readable gzip snappy lz4 zstd b /\ zlen (wire_batch crc32c codec_raw b) <= max_bytes.

(** The log of the leader, and that its high watermark is the end of a batch. *)
Definition leads leader log : Prop :=
  sh_ok_from crc32c start leader limit log /\ Forall fits log /\
  exists j, (j <= length log)%nat /\ pub_hw leader = offset_at start log j.
Notation the_end leader := (isolation_end iso (sh_inner leader)).

Definition static handler : Prop :=
  sf_isolation handler = iso /\ sf_max_fetch_bytes handler = max_bytes /\ sm_ctx handler = None /\ sf_stream_id handler = id /\
  partition (sf_replica handler) = part.

(** A response that brings the batches from the [k]-th on. *)
Definition in_flight log (stop : Z) (k : nat) (response : StreamFetchResponse) : Prop :=
  exists j extra,
    receive crc32c version response
      = Ok (MkClientResponse id EcNone 0 (MkRecordSet (map seal (take (Datatypes.S j) (drop k log)) ++ extra))) /\
    Forall (fun x => validate_decoding codec_raw x = false) extra /\
    (k + Datatypes.S j <= length log)%nat /\ offset_at start log (k + Datatypes.S j) <= stop.

(** Where the client is, and the message that is on its way.  [value] is the
    offset that was last published for the consumer. *)
Definition quiet (value : Z) handler : Prop :=
  value = INIT_OFFSET \/ last_value (consumer_offset_listener handler) = value.
Definition phase log (stop : Z) handler client (value : Z) (k : nat) (pos : Z) : Prop :=
  value <= pos /\ last_value (consumer_offset_listener handler) <= pos /\
  match last_known_consumer_offset handler with
  | Some c =>
      c = pos /\ sf_sink handler = [] /\ server_channel client = [] /\ last_value (leader_offset_receiver handler) <= pos /\
      quiet value handler
  | None =>
      last_value (leader_offset_receiver handler) <= last_partition_offset handler <= stop /\
      ((exists response, sf_sink handler = [response] /\ in_flight log stop k response /\ server_channel client = [] /\ quiet value handler) \/
       (sf_sink handler = [] /\ server_channel client = [UpdateOffset pos] /\ stream_id client = Some id /\
        value < pos /\ last_value (consumer_offset_listener handler) < pos /\ 0 < pos /\ quiet value handler) \/
       (sf_sink handler = [] /\ server_channel client = [] /\ value = pos /\ last_value (consumer_offset_listener handler) < pos /\ 0 < pos))
  end.

Definition position log (k : nat) : Z := Z.max first (offset_at start log k).
Record stream_inv st : Prop := {
  si_leads : leads (ss_leader st) (ss_log st);
  si_static : static (ss_handler st);
  si_running : ss_running st = true;
  si_id : stream_id (ss_client st) = None \/ stream_id (ss_client st) = Some id;
  si_at : exists k value info,
    sp_publishers (ss_publishers st) !! id = Some (MkOffsetPublisher value, info) /\
    ss_items st = map inl (records_from first (log_records gzip snappy lz4 zstd part (take k (ss_log st)))) /\
    next_batch start (ss_log st) k (position (ss_log st) k) /\ position (ss_log st) k <= the_end (ss_leader st) /\
    phase (ss_log st) (the_end (ss_leader st)) (ss_handler st) (ss_client st) value k (position (ss_log st) k);
}.

Lemma leads_end leader log : leads leader log -> exists j, (j <= length log)%nat /\ the_end leader = offset_at start log j.
Proof.
  intros ((Hst & El & Eh & _) & _ & j & Hj & Ej). destruct (stores_log _ _ _ Hst) as (_ & _ & Ee & _).
  destruct iso; cbn.
  - exists (length log). by rewrite offset_at_all.
  - exists j. split; [done|congruence].
Qed.
Lemma leads_log leader log : leads leader log -> log_from codec_raw start log /\ end_from start log < 2 ^ 63.
Proof. intros ((Hst & _) & _). destruct (stores_log _ _ _ Hst) as (_ & Hl & -> & Hb). done. Qed.

(** A read before the end sends the next batch. *)
Lemma send_back_sends leader log handler k pos :
  leads leader log -> static handler -> next_batch start log k pos -> pos < the_end leader ->
  exists response,
    send_back_records gzip snappy lz4 zstd leader pos handler
      = (Ok (the_end leader, true), set_sink (sf_sink handler ++ [response]) handler) /\
    in_flight log (the_end leader) k response.
Proof.
  intros Hl (Ei & Em & Ec & Eid & Ep) Hk Hlt. destruct (leads_end _ _ Hl) as (j & Hj & Ej). pose proof Hl as (Hok & Hfit & _).
  destruct (leads_log _ _ Hl) as [Hlog H63]. rewrite Ej in Hlt.
  destruct (read_before_end crc32c start leader limit log k pos iso max_bytes j Hok Hk Hj Ej Hlt) as (n & sl & Er & Ed & Hn & Hend & Es).
  destruct (drop k log) as [|b bs] eqn:Edrop.
  { apply (f_equal length) in Edrop. rewrite length_drop in Edrop. cbn in Edrop. lia. }
  cbn [take] in Ed.
  assert (log_from codec_raw (offset_at start log k) (b :: bs)) as Hlb by (rewrite <-Edrop; by apply log_from_drop).
  assert (Forall (valid_batch codec_raw) (b :: take n bs)) as Hv.
  { apply (log_from_valid codec_raw _ _ (log_from_take _ _ (Datatypes.S n) Hlb)). }
  assert (fits b) as [_ Hsize].
  { rewrite Forall_forall in Hfit. apply Hfit. assert (b ∈ drop k log) as Hin by (rewrite Edrop; by left).
    rewrite <-(take_drop k log). apply elem_of_app. by right. }
  destruct (receive_cut crc32c crc32c_u32 version max_bytes b (take n bs) Hv ltac:(lia)) as (m & extra & Hm & Erec & Hx).
  rewrite length_take in Hm.
  eexists. unfold send_back_records. erewrite bind_ok by reflexivity. cbn beta. rewrite Ei, Em, Er, Ec. cbv zeta.
  assert (zlen (slice_data sl) =? 0 = false) as ->.
  { apply Z.eqb_neq. rewrite Ed, wire_batches_cons, ztake_take. pose proof (zlen_wire_batch_min crc32c codec_raw b) as Hmin.
    unfold BATCH_FILE_HEADER_SIZE, BATCH_PREAMBLE_SIZE, BATCH_HEADER_SIZE in Hmin.
    unfold zlen in *. rewrite length_take, length_app. lia. }
  split.
  - unfold send_response. erewrite bind_ok by reflexivity. rewrite Es.
    destruct Hok as (_ & El & Eh & _). destruct iso; cbn; by rewrite ?El, ?Eh.
  - exists m, extra. unfold receive. cbn [sfr_partition fpr_records]. rewrite Ed, Erec. split; [|split; [exact Hx|split]].
    + rewrite Eid. cbn [sfr_stream_id fpr_error_code fpr_next_filter_offset]. rewrite Edrop. cbn [take]. rewrite take_take, Nat.min_l by lia.
      by destruct (11 <=? version).
    + lia.
    + rewrite Ej. etrans; [|exact Hend]. apply offset_at_le; [done|lia].
Qed.

(** *** The log grows *)

Lemma next_batch_grow log log' k pos :
  log_from codec_raw start (log ++ log') -> next_batch start log k pos -> next_batch start (log ++ log') k pos.
Proof.
  intros Hl (Hk & Hp & Hn). unfold next_batch. rewrite length_app, offset_at_app by done. split; [lia|]. split; [done|].
  destruct (decide (k < length log)%nat).
  - rewrite decide_True by lia. by rewrite offset_at_app by lia.
  - destruct (decide (k < length log + length log')%nat); [|done].
    pose proof (offset_at_mono codec_raw start (log ++ log') k (Datatypes.S k) Hl) as Hm. rewrite length_app in Hm.
    specialize (Hm ltac:(lia)). rewrite (offset_at_app start log log' k) in Hm by done. lia.
Qed.

Lemma in_flight_grow log log' stop stop' k response :
  in_flight log stop k response -> stop <= stop' -> in_flight (log ++ log') stop' k response.
Proof.
  intros (j & extra & Er & Hx & Hj & Hend) Hs. exists j, extra. rewrite length_app, offset_at_app by done.
  rewrite drop_app_le by lia. rewrite take_app_le by (rewrite length_drop; lia). split_and!; [done..|lia|lia].
Qed.

Lemma phase_grow log log' stop stop' handler client value k pos :
  phase log stop handler client value k pos -> stop <= stop' -> phase (log ++ log') stop' handler client value k pos.
Proof.
  unfold phase. intros (Hv & Hs & Hp) Hle. split; [done|]. split; [done|].
  destruct (last_known_consumer_offset handler); [done|]. destruct Hp as [Hlast Hp]. split; [lia|].
  destruct Hp as [(response & Es & Hf & Hrest)|Hp]; [left|by right]. exists response. split; [done|]. split; [|done].
  by apply (in_flight_grow log log' stop).
Qed.

Lemma inv_grow st log' leader :
  stream_inv st -> leads leader (ss_log st ++ log') -> the_end (ss_leader st) <= the_end leader ->
  stream_inv (MkSystem (ss_log st ++ log') leader (ss_publishers st) (ss_handler st) (ss_running st) (ss_client st) (ss_items st)).
Proof.
  intros [Hl Hs Hr Hid (k & value & info & Hpub & Ei & Hn & Hp & Hph)] Hl' Hle.
  assert (k <= length (ss_log st))%nat as Hk by (by destruct Hn).
  assert (position (ss_log st ++ log') k = position (ss_log st) k) as Epos by (unfold position; by rewrite offset_at_app).
  split; cbn; try done. exists k, value, info. rewrite Epos, take_app_le by done. split_and!; [done..| |lia|].
  - apply next_batch_grow; [by apply (leads_log leader)|done].
  - by apply (phase_grow _ _ (the_end (ss_leader st))).
Qed.

Lemma number_batches_fits o bs :
  Forall (deliverable gzip snappy lz4 zstd limit max_bytes) bs -> 0 <= o -> end_from o bs < 2 ^ 63 -> Forall fits (number_batches o bs).
Proof.
  intros Hb. revert o. induction Hb as [|b bs ((Hst & _) & Hsize & Hr) Hbs IH]; intros o Ho He; cbn; [done|].
  pose proof Hst as (_ & _ & Hd & _). cbn in He.
  assert (o + last_offset_delta (header b) + 1 <= end_from (o + last_offset_delta (header b) + 1) bs) as Hge.
  { apply (sendable_end limit). eapply List.Forall_impl; [|exact Hbs]. by intros ? [? _]. }
  constructor; [|apply IH; lia]. split; [exact Hr|]. rewrite storable_size by (done || (unfold in_i; lia)). done.
Qed.

Lemma stream_inv_produce st bs upd r leader stored :
  stream_inv st -> Forall (deliverable gzip snappy lz4 zstd limit max_bytes) bs -> end_from (pub_leo (ss_leader st)) bs < 2 ^ 63 ->
  sh_write_record_set upd (ss_leader st, MkRecordSet bs) = (Ok r, (leader, MkRecordSet stored)) ->
  stream_inv (MkSystem (ss_log st ++ stored) leader (ss_publishers st) (ss_handler st) (ss_running st) (ss_client st) (ss_items st)).
Proof.
  intros Hinv Hb Hend E. pose proof (si_leads _ Hinv) as (Hok & Hfit & j & Hj & Ej).
  assert (Forall (sendable limit) bs) as Hsend by (eapply List.Forall_impl; [|exact Hb]; by intros ? [? _]).
  destruct (sh_write_from crc32c start (ss_leader st) limit (ss_log st) bs upd Hok Hsend Hend) as (size & leader' & Ew & Hok' & El & Eh).
  rewrite E in Ew. injection Ew as _ -> ->. pose proof Hok as (Hst & El0 & Eh0 & _). pose proof Hok' as (Hst' & El1 & Eh1 & _).
  destruct (stores_log _ _ _ Hst) as (_ & Hl & Ee & _). destruct (stores_log _ _ _ Hst') as (_ & Hl' & Ee' & _).
  pose proof (offset_at_bounds codec_raw start _ j Hl Hj) as Hbj. pose proof (sendable_end limit (pub_leo (ss_leader st)) bs Hsend).
  apply inv_grow; [done| |].
  - split; [done|]. split.
    + apply Forall_app. split; [done|]. apply number_batches_fits; [done|lia|done].
    + destruct upd.
      * exists (length (ss_log st ++ number_batches (pub_leo (ss_leader st)) bs)). split; [done|]. rewrite offset_at_all, Eh, Ee'. done.
      * exists j. rewrite length_app, offset_at_app by done. split; [lia|congruence].
  - destruct iso; cbn; [lia|]. rewrite <-Eh1, Eh. destruct upd; lia.
Qed.

Lemma inv_commit st n r leader :
  stream_inv st -> (n <= length (ss_log st))%nat -> pub_hw (ss_leader st) <= offset_at start (ss_log st) n ->
  sh_update_hw (offset_at start (ss_log st) n) (ss_leader st) = (Ok r, leader) ->
  stream_inv (MkSystem (ss_log st) leader (ss_publishers st) (ss_handler st) (ss_running st) (ss_client st) (ss_items st)).
Proof.
  intros Hinv Hn Hle E. pose proof (si_leads _ Hinv) as (Hok & Hfit & j & Hj & Ej).
  destruct (sh_update_hw_from crc32c start (ss_leader st) limit (ss_log st) (offset_at start (ss_log st) n) Hok) as (b & leader' & Ew & Hok' & Eh & El).
  rewrite E in Ew. injection Ew as _ ->. pose proof (inv_grow st [] leader' Hinv) as Hg. rewrite app_nil_r in Hg. apply Hg.
  - split; [done|]. split; [done|]. by exists n.
  - destruct Hok as (_ & El0 & Eh0 & _). destruct Hok' as (_ & El1 & Eh1 & _). destruct iso; cbn; lia.
Qed.

(** *** A turn of the handler *)

(** How far the stream is from waiting for more records: from the last message
    to the next one. *)
Definition rank handler client : Z :=
  match last_known_consumer_offset handler with
  | Some _ => 2
  | None => match sf_sink handler with _ :: _ => 1 | [] => match server_channel client with [] => 3 | _ => 4 end end
  end.

Lemma set_sink_static handler sink : static handler -> static (set_sink sink handler).
Proof. done. Qed.

(** After a read from the position, the response is on its way. *)
Lemma sent_phase leader log handler client value k response :
  in_flight log (the_end leader) k response -> sf_sink handler = [] -> server_channel client = [] ->
  value <= position log k -> last_value (consumer_offset_listener handler) <= position log k -> quiet value handler ->
  last_value (leader_offset_receiver handler) <= the_end leader ->
  phase log (the_end leader) (set_offsets (the_end leader) None (set_sink (sf_sink handler ++ [response]) handler)) client value k (position log k).
Proof.
  intros Hf Es Ec Hv Hc Hq Hl. split; [done|]. split; [done|]. cbn. split; [lia|]. left. exists response. by rewrite Es.
Qed.

(** What a read leaves. *)
Definition resent leader (offset : Z) handler : outcome StreamFetchError bool * Handler :=
  match send_back_records gzip snappy lz4 zstd leader offset handler with
  | (Ok (offset, wait), handler) => (Ok true, set_offsets offset (if wait then None else Some offset) handler)
  | (Err e, handler) => (Err e, handler)
  | (Panic, handler) => (Panic, handler)
  end.

Lemma resend_turn leader offset handler :
  (('(offset, wait) ← send_back_records gzip snappy lz4 zstd leader offset; sent_back offset wait) ;; mret true) handler = resent leader offset handler.
Proof.
  unfold resent, mbind, M_bind. destruct (send_back_records gzip snappy lz4 zstd leader offset handler) as [[[o w]|e|] h]; done.
Qed.

Lemma leader_update_turn leader update handler :
  (on_leader_update gzip snappy lz4 zstd leader update ;; mret true) handler =
  match last_known_consumer_offset handler with
  | None => (Ok true, set_offsets update None handler)
  | Some c => if update <=? c then (Ok true, set_offsets update (Some c) handler) else resent leader c handler
  end.
Proof.
  unfold on_leader_update, mbind at 1 2, M_bind at 1 2. cbn [get].
  destruct (last_known_consumer_offset handler) as [c|]; [|done]. destruct (update <=? c); [done|]. exact (resend_turn leader c handler).
Qed.

Lemma consumer_update_turn leader update handler :
  update <> INIT_OFFSET -> update <> TOPIC_DELETED ->
  (on_consumer_update gzip snappy lz4 zstd leader update ;; mret true) handler =
  if last_partition_offset handler <=? update then (Ok true, set_offsets (last_partition_offset handler) (Some update) handler)
  else resent leader update handler.
Proof.
  intros Hi Ht. unfold on_consumer_update. destruct (Z.eqb_spec update INIT_OFFSET); [done|]. destruct (Z.eqb_spec update TOPIC_DELETED); [done|].
  unfold mbind at 1 2, M_bind at 1 2. cbn [get]. destruct (last_partition_offset handler <=? update); [done|]. exact (resend_turn leader update handler).
Qed.

Lemma leader_turn leader log handler client value k update r handler' :
  leads leader log -> static handler -> next_batch start log k (position log k) -> position log k <= the_end leader ->
  phase log (the_end leader) handler client value k (position log k) -> update = the_end leader ->
  (on_leader_update gzip snappy lz4 zstd leader update ;; mret true) (set_leader_receiver (MkListener update) handler) = (r, handler') ->
  (r = Ok true /\ static handler' /\ phase log (the_end leader) handler' client value k (position log k)) /\
  leader_offset_receiver handler' = MkListener update /\ consumer_offset_listener handler' = consumer_offset_listener handler /\
  rank handler' client <= rank handler client.
Proof.
  intros Hl Hs Hn Hp (Hv & Hc & Hph) Eu E. revert E. rewrite leader_update_turn.
  cbn [last_known_consumer_offset set_leader_receiver]. unfold rank.
  destruct (last_known_consumer_offset handler) as [c|] eqn:Ek.
  2:{ intros [= <- <-]. split; [|done]. split; [done|]. split; [done|]. split; [done|]. split; [done|]. cbn. destruct Hph as [_ Hph]. split; [lia|]. exact Hph. }
  destruct Hph as (-> & Es & Ech & Hseen & Hq). destruct (Z.leb_spec update (position log k)) as [Hle|Hgt].
  - intros [= <- <-]. split; [|done]. split; [done|]. split; [done|]. split; [done|]. split; [done|]. cbn. by split_and!.
  - destruct (send_back_sends leader log (set_leader_receiver (MkListener update) handler) k (position log k) Hl Hs Hn) as (response & Er & Hf); [lia|].
    unfold resent. rewrite Er. intros [= <- <-]. cbn [sf_sink set_leader_receiver] in *. split; [|cbn; rewrite Es; done].
    split; [done|]. split; [done|].
    apply (sent_phase leader log (set_leader_receiver (MkListener update) handler)); try done. cbn. lia.
Qed.

Lemma consumer_turn leader log handler client value k r handler' :
  leads leader log -> static handler -> next_batch start log k (position log k) -> position log k <= the_end leader ->
  phase log (the_end leader) handler client value k (position log k) ->
  last_value (consumer_offset_listener handler) <> value ->
  (on_consumer_update gzip snappy lz4 zstd leader value ;; mret true) (set_consumer_listener (MkListener value) handler) = (r, handler') ->
  (r = Ok true /\ static handler' /\ phase log (the_end leader) handler' client value k (position log k)) /\
  leader_offset_receiver handler' = leader_offset_receiver handler /\ consumer_offset_listener handler' = MkListener value /\
  rank handler' client <= rank handler client - (if value =? INIT_OFFSET then 0 else 1).
Proof.
  intros Hl Hs Hn Hp (Hv & Hc & Hph) Hne E. revert E. unfold rank.
  destruct (Z.eqb_spec value INIT_OFFSET) as [->|Hinit].
  { intros [= <- <-]. split; [|split; [done|split; [done|cbn; lia]]]. split; [done|]. split; [done|]. split; [done|]. split; [done|]. cbn.
    destruct (last_known_consumer_offset handler); [destruct Hph as (? & ? & ? & ? & _); by split_and!; [..|left]|].
    destruct Hph as [Hlast Hph]. split; [done|]. destruct Hph as [(response & ? & ? & ? & _)|[(? & ? & ? & ? & ? & ? & _)|(? & ? & Ev & ? & ?)]].
    - left. exists response. by split_and!; [..|left].
    - right; left. split_and!; try done. by left.
    - unfold INIT_OFFSET in Ev. lia. }
  destruct (last_known_consumer_offset handler) as [c|] eqn:Ek.
  { destruct Hph as (_ & _ & _ & _ & [?|?]); done. }
  destruct Hph as [Hlast [(response & _ & _ & _ & [?|?])|[(_ & _ & _ & _ & _ & _ & [?|?])|(Es & Ech & Ev & Hlt & Hpos)]]]; try done.
  rewrite consumer_update_turn by (done || (unfold TOPIC_DELETED; lia)). cbn [last_partition_offset set_consumer_listener].
  destruct (Z.leb_spec (last_partition_offset handler) value) as [Hle|Hgt].
  - intros [= <- <-]. split; [|cbn; by rewrite Es, Ech]. split; [done|]. split; [done|]. split; [done|]. split; [cbn; lia|]. cbn.
    split_and!; try done; [lia|by right].
  - subst value. destruct (send_back_sends leader log (set_consumer_listener (MkListener (position log k)) handler) k (position log k) Hl Hs Hn) as (response & Er & Hf); [lia|].
    unfold resent. rewrite Er. intros [= <- <-]. cbn [sf_sink set_consumer_listener] in *. split; [|cbn; by rewrite Es, Ech].
    split; [done|]. split; [done|].
    apply (sent_phase leader log (set_consumer_listener (MkListener (position log k)) handler)); try done; cbn; try lia. by right.
Qed.

(** The records the client has given to its user. *)
Lemma delivered_offsets st k :
  leads (ss_leader st) (ss_log st) -> next_batch start (ss_log st) k (position (ss_log st) k) ->
  map cr_offset (records_from first (log_records gzip snappy lz4 zstd part (take k (ss_log st)))) = seqZ first (position (ss_log st) k - first).
Proof.
  intros Hl (Hk & _). destruct (leads_log _ _ Hl) as [Hlog H63]. destruct Hl as (_ & Hf & _).
  pose proof (offset_at_bounds codec_raw start _ k Hlog Hk) as Hb.
  assert (map cr_offset (log_records gzip snappy lz4 zstd part (take k (ss_log st))) = seqZ start (offset_at start (ss_log st) k - start)) as Eo.
  { apply log_records_offsets; [by apply log_from_take| |lia|fold (offset_at start (ss_log st) k); lia].
    apply Forall_take. eapply List.Forall_impl; [|exact Hf]. by intros b [? _]. }
  rewrite (records_from_seq first _ start (offset_at start (ss_log st) k - start)); [|lia|done|lia]. unfold position. f_equal. lia.
Qed.

(** What is left to do: records to deliver, the message on its way, offsets
    that the handler has not seen. *)
Definition unseen st : Z :=
  (if last_value (leader_offset_receiver (ss_handler st)) =? the_end (ss_leader st) then 0 else 1) +
  match sp_publishers (ss_publishers st) !! id with
  | Some (p, _) => if (current_value p =? INIT_OFFSET) && negb (last_value (consumer_offset_listener (ss_handler st)) =? INIT_OFFSET) then 1 else 0
  | None => 0
  end.
Definition left_to_do st : Z :=
  5 * (the_end (ss_leader st) - first - zlen (ss_items st)) + rank (ss_handler st) (ss_client st) + unseen st.

Lemma rank_bounds handler client : 1 <= rank handler client <= 4.
Proof. unfold rank. destruct (last_known_consumer_offset handler), (sf_sink handler), (server_channel client); lia. Qed.
Lemma unseen_nonneg st : 0 <= unseen st.
Proof.
  unfold unseen. destruct (sp_publishers (ss_publishers st) !! id) as [[p ?]|]; repeat case_match; lia.
Qed.
Lemma items_position st k :
  leads (ss_leader st) (ss_log st) -> next_batch start (ss_log st) k (position (ss_log st) k) ->
  ss_items st = map inl (records_from first (log_records gzip snappy lz4 zstd part (take k (ss_log st)))) ->
  zlen (ss_items st) = position (ss_log st) k - first.
Proof.
  intros Hl Hn ->. pose proof (f_equal zlen (delivered_offsets st k Hl Hn)) as E. unfold zlen in *.
  rewrite !length_map in *. rewrite E, length_seqZ. unfold position. lia.
Qed.
Lemma left_nonneg st : stream_inv st -> 0 <= left_to_do st.
Proof.
  intros [Hl _ _ _ (k & value & info & _ & Ei & Hn & Hp & _)]. unfold left_to_do. rewrite (items_position st k Hl Hn Ei).
  pose proof (rank_bounds (ss_handler st) (ss_client st)). pose proof (unseen_nonneg st). lia.
Qed.

Lemma inv_turn st event consumer r handler :
  stream_inv st -> fst <$> sp_publishers (ss_publishers st) !! sf_stream_id (ss_handler st) = Some consumer ->
  process_turn gzip snappy lz4 zstd false consumer (ss_leader st) event (ss_handler st) = Some (r, handler) ->
  let st' := MkSystem (ss_log st) (ss_leader st) (ss_publishers st) (fst (after_turn r handler)) (snd (after_turn r handler))
    (ss_client st) (ss_items st) in
  stream_inv st' /\ left_to_do st' < left_to_do st.
Proof.
  intros [Hl Hs Hr Hid (k & value & info & Hpub & Ei & Hn & Hp & Hph)] Hc E.
  pose proof Hs as (Eiso & _ & _ & Eid & _). rewrite Eid, Hpub in Hc. injection Hc as <-.
  pose proof (isolation_end_published crc32c _ _ _ _ iso (proj1 Hl)) as Ep.
  assert ((r = Ok true /\ static handler /\ phase (ss_log st) (the_end (ss_leader st)) handler (ss_client st) value k (position (ss_log st) k)) /\
    left_to_do (MkSystem (ss_log st) (ss_leader st) (ss_publishers st) handler true (ss_client st) (ss_items st)) < left_to_do st)
    as ((-> & Hs' & Hph') & Hdec).
  { unfold left_to_do, unseen. cbn [ss_leader ss_items ss_handler ss_client ss_publishers]. rewrite Hpub. cbn [current_value].
    destruct event; unfold process_turn, listen, has_new_value in E; cbn [current_value] in E; [done|..].
    - destruct (Z.eqb_spec value (last_value (consumer_offset_listener (ss_handler st)))) as [|Hne]; [done|]. injection E as E.
      destruct (consumer_turn (ss_leader st) (ss_log st) (ss_handler st) _ _ _ _ _ Hl Hs Hn Hp Hph ltac:(congruence) E) as (Hok & -> & -> & Hrank).
      split; [done|]. cbn [last_value]. destruct (Z.eqb_spec value INIT_OFFSET) as [->|]; cbn [andb negb]; [|lia].
      destruct (Z.eqb_spec INIT_OFFSET INIT_OFFSET); [|done]. destruct (Z.eqb_spec (last_value (consumer_offset_listener (ss_handler st))) INIT_OFFSET); [congruence|].
      cbn [negb]. lia.
    - destruct (Z.eqb_spec (current_value (published (sf_isolation (ss_handler st)) (ss_leader st)))
        (last_value (leader_offset_receiver (ss_handler st)))) as [|Hne]; [done|]. injection E as E.
      cbn [current_value published] in Ep. cbn [current_value published] in Hne. rewrite Eiso, <-Ep in E, Hne.
      destruct (leader_turn (ss_leader st) (ss_log st) (ss_handler st) _ _ _ _ _ _ Hl Hs Hn Hp Hph eq_refl E) as (Hok & -> & -> & Hrank).
      split; [done|]. cbn [last_value]. rewrite Z.eqb_refl. destruct (Z.eqb_spec (last_value (leader_offset_receiver (ss_handler st))) (the_end (ss_leader st))); [congruence|]. lia. }
  split; [|exact Hdec]. split; cbn; try done. by exists k, value, info.
Qed.

Lemma inv_receive st response rest received :
  stream_inv st -> sf_sink (ss_handler st) = response :: rest -> receive crc32c version response = Ok received ->
  let st' := MkSystem (ss_log st) (ss_leader st) (ss_publishers st) (set_sink rest (ss_handler st)) (ss_running st)
    (client_receive received (ss_client st))
    (ss_items st ++ response_items gzip snappy lz4 zstd (partition (sf_replica (ss_handler st))) first received) in
  stream_inv st' /\ left_to_do st' < left_to_do st.
Proof.
  intros [Hl Hs Hr Hid (k & value & info & Hpub & Ei & Hn & Hp & (Hv & Hc & Hph))] Es Er.
  destruct (last_known_consumer_offset (ss_handler st)) as [c|] eqn:Ek; [destruct Hph as (_ & Es' & _); congruence|].
  destruct Hph as [Hlast [(response' & Es' & (j & extra & Er' & Hx & Hj & Hend) & Ech & Hq)|[(Es' & _)|(Es' & _)]]]; [|congruence..].
  rewrite Es' in Es. injection Es as <- <-. rewrite Er in Er'. injection Er' as ->.
  destruct (leads_log _ _ Hl) as [Hlog H63]. pose proof Hl as (_ & Hfit & _). pose proof Hs as (_ & _ & _ & _ & Epart).
  set (bs := take (Datatypes.S j) (drop k (ss_log st))) in *. set (k' := (k + Datatypes.S j)%nat) in *.
  assert (offset_at start (ss_log st) k' = end_from (offset_at start (ss_log st) k) bs) as Eoff.
  { unfold offset_at at 2. rewrite <-end_from_app. unfold bs, k', offset_at. by rewrite take_take_drop. }
  assert (log_from codec_raw (offset_at start (ss_log st) k) bs) as Hlb by (by apply log_from_take, log_from_drop).
  assert (length bs = Datatypes.S j) as Hlen by (unfold bs; rewrite length_take, length_drop; lia).
  assert (k < k')%nat as Hkk by lia.
  pose proof (offset_at_mono codec_raw start _ k k' Hlog ltac:(lia)) as Hmono.
  pose proof (offset_at_bounds codec_raw start _ k Hlog ltac:(lia)) as Hbk.
  pose proof (offset_at_bounds codec_raw start _ k' Hlog ltac:(lia)) as Hbk'.
  pose proof Hn as (_ & Hge & Hnext). rewrite decide_True in Hnext by lia.
  pose proof (offset_at_le start _ (Datatypes.S k) k' Hlog ltac:(lia)) as Hle.
  assert (position (ss_log st) k' = offset_at start (ss_log st) k') as Epos by (unfold position in *; lia).
  set (resp := MkClientResponse id EcNone 0 (MkRecordSet (map seal bs ++ extra))).
  assert (next_offset_for_fetch resp = Some (offset_at start (ss_log st) k')) as Enext.
  { rewrite Eoff. apply (response_next crc32c resp bs extra); try done; [by destruct bs|lia|lia]. }
  assert (client_receive resp (ss_client st) = MkClientStream (Some id) [UpdateOffset (offset_at start (ss_log st) k')]) as Ecl.
  { unfold client_receive. rewrite Enext, Ech. by destruct Hid as [-> | ->]. }
  assert (Forall (readable gzip snappy lz4 zstd) bs) as Hread.
  { apply Forall_take, Forall_drop. eapply List.Forall_impl; [|exact Hfit]. by intros b [? _]. }
  set (st' := MkSystem _ _ _ _ _ _ _).
  assert (ss_items st' = map inl (records_from first (log_records gzip snappy lz4 zstd part (take k' (ss_log st))))) as Ei'.
  { unfold st'. cbn [ss_items]. rewrite Ei, Epart, (response_items_records crc32c gzip snappy lz4 zstd part first resp bs extra) by done.
    rewrite <-map_app. f_equal. unfold k'. rewrite <-take_take_drop, log_records_app. unfold records_from. by rewrite List.filter_app. }
  assert (next_batch start (ss_log st) k' (position (ss_log st) k')) as Hn'.
  { rewrite Epos. split; [lia|]. split; [lia|]. destruct (decide (k' < length (ss_log st))%nat); [|done].
    apply (offset_at_mono codec_raw); [done|lia]. }
  assert (stream_inv st') as Hinv'.
  { split; try done; [right; cbn; by rewrite Ecl|]. exists k', value, info. split; [done|]. split; [exact Ei'|]. split; [exact Hn'|].
    cbn [ss_leader ss_log ss_handler ss_client st']. rewrite Epos. split; [exact Hend|].
    split; [unfold position in *; lia|]. split; [cbn; unfold position in *; lia|]. cbn. rewrite Ek. split; [done|]. right; left.
    rewrite Ecl. cbn. unfold position in *. split_and!; try done; lia. }
  split; [done|]. unfold left_to_do. rewrite (items_position st k Hl Hn Ei), (items_position st' k' Hl Hn' Ei'). cbn [ss_leader ss_log ss_handler ss_client st'].
  pose proof (rank_bounds (set_sink [] (ss_handler st)) (client_receive resp (ss_client st))).
  assert (rank (ss_handler st) (ss_client st) = 1) as -> by (unfold rank; by rewrite Ek, Es').
  assert (unseen st' = unseen st) as -> by done. rewrite Epos. unfold position in *. lia.
Qed.

Lemma stream_inv_update st sid message rest offsets :
  stream_inv st -> stream_id (ss_client st) = Some sid -> server_channel (ss_client st) = message :: rest ->
  task_request sid message = Some (UpdateOffsetsRequest offsets) ->
  let st' := MkSystem (ss_log st) (ss_leader st) (snd (handle_offset_update offsets (ss_publishers st))) (ss_handler st) (ss_running st)
    (MkClientStream (Some sid) rest) (ss_items st) in
  stream_inv st' /\ left_to_do st' < left_to_do st.
Proof.
  intros [Hl Hs Hr Hid (k & value & info & Hpub & Ei & Hn & Hp & (Hv & Hc & Hph))] Es Ech Et.
  destruct (last_known_consumer_offset (ss_handler st)) as [c|] eqn:Ek; [destruct Hph as (_ & _ & ? & _); congruence|].
  destruct Hph as [Hlast [(response & _ & _ & ? & _)|[(Esink & Ech' & Esid & Hv' & Hc' & Hpos & Hq)|(_ & ? & _)]]]; [congruence| |congruence].
  rewrite Ech' in Ech. injection Ech as <- <-. injection Et as <-. assert (sid = id) as -> by congruence.
  cbn [handle_offset_update upd_session_id upd_offset]. rewrite Hpub. cbn [snd]. cbv zeta. split.
  2:{ unfold left_to_do, unseen, rank. cbn. rewrite Hpub, lookup_insert_eq, Ek, Esink, Ech'. cbn.
      destruct (Z.eqb_spec (position (ss_log st) k) INIT_OFFSET) as [E|]; [unfold INIT_OFFSET in E; lia|]. cbn [andb]. repeat case_match; lia. }
  split; cbn [ss_leader ss_log ss_handler ss_running ss_client ss_publishers ss_items]; try done; [by right|].
  exists k, (position (ss_log st) k), info. cbn [sp_publishers]. rewrite lookup_insert_eq. do 4 (split; [done|]).
  split; [done|]. split; [done|]. rewrite Ek. split; [done|]. right; right. by split_and!.
Qed.

Lemma inv_internal st st' :
  stream_inv st -> stream_internal crc32c gzip snappy lz4 zstd version first st st' -> stream_inv st' /\ left_to_do st' < left_to_do st.
Proof.
  intros Hinv Hi. destruct Hi as [st event consumer r handler|st response rest received|st sid message rest offsets].
  - by eapply inv_turn.
  - by eapply inv_receive.
  - by eapply stream_inv_update.
Qed.

Lemma stream_inv_step st st' :
  stream_inv st -> stream_step crc32c gzip snappy lz4 zstd version limit max_bytes start first st st' -> stream_inv st'.
Proof.
  intros Hinv Hstep. destruct Hstep as [st bs upd r leader stored|st n r leader|st st' Hi].
  - by eapply stream_inv_produce.
  - by eapply inv_commit.
  - by apply (inv_internal st).
Qed.

(** *** The beginning *)

Lemma send_back_nothing leader log handler k pos :
  leads leader log -> static handler -> next_batch start log k pos -> pos = the_end leader ->
  send_back_records gzip snappy lz4 zstd leader pos handler = (Ok (pos, false), handler).
Proof.
  intros Hl (Ei & Em & Ec & Eid & Ep) Hk Epos. pose proof Hl as (Hok & _).
  destruct (read_at_end crc32c start leader limit log k pos iso max_bytes Hok Hk (eq_sym Epos)) as (sl & Er & Ed).
  unfold send_back_records. erewrite bind_ok by reflexivity. cbn beta. by rewrite Ei, Em, Er, Ed.
Qed.

Lemma process_start_turn leader handler :
  (process_start gzip snappy lz4 zstd leader first ;; mret true) handler =
  match send_back_records gzip snappy lz4 zstd leader first handler with
  | (Ok (offset, wait), handler) => (Ok true, set_offsets offset (if wait then None else Some offset) (set_leader_receiver change_listener handler))
  | (Err e, handler) => (Err e, handler)
  | (Panic, handler) => (Panic, handler)
  end.
Proof.
  unfold process_start, mbind, M_bind. destruct (send_back_records gzip snappy lz4 zstd leader first handler) as [[[o w]|e|] h]; done.
Qed.

Lemma log_records_before log k :
  log_from codec_raw start log -> end_from start log < 2 ^ 63 -> Forall fits log -> (k <= length log)%nat -> offset_at start log k <= first ->
  records_from first (log_records gzip snappy lz4 zstd part (take k log)) = [].
Proof.
  intros Hl H63 Hf Hk Ho. pose proof (offset_at_bounds codec_raw start log k Hl Hk) as Hb.
  assert (map cr_offset (log_records gzip snappy lz4 zstd part (take k log)) = seqZ start (offset_at start log k - start)) as Eo.
  { apply log_records_offsets; [by apply log_from_take| |lia|fold (offset_at start log k); lia].
    apply Forall_take. eapply List.Forall_impl; [|exact Hf]. by intros b [? _]. }
  epose proof (records_from_seq first _ start (offset_at start log k - start) ltac:(lia) Eo ltac:(lia)) as Er. rewrite seqZ_nil in Er by lia.
  by destruct (records_from first _).
Qed.

Lemma stream_system_inv leader log msg publishers st :
  leads leader log -> first <= the_end leader ->
  sfq_fetch_offset msg = first -> sfq_isolation msg = iso -> wrap_u 32 (sfq_max_bytes msg) = max_bytes ->
  partition (sfq_replica msg) = part -> wrap_u 32 (stream_id_seq publishers + 1) = id ->
  stream_system gzip snappy lz4 zstd leader log msg publishers = Some st -> stream_inv st.
Proof.
  intros Hl Hend Ef Ei Em Ep Eid E. destruct (leads_log _ _ Hl) as [Hlog H63].
  destruct (leads_end _ _ Hl) as (j & Hj & Ej). pose proof (offset_at_bounds codec_raw start log j Hlog Hj).
  destruct (next_batch_exists start log first Hlog ltac:(lia)) as [k Hk]. pose proof Hk as (Hkl & Hko & _).
  assert (position log k = first) as Epos by (unfold position; lia).
  unfold stream_system, stream_start in E. rewrite lookup_singleton_eq in E. unfold create_new_publisher in E. rewrite Ef, Eid in E.
  set (h0 := handler_new msg id None) in E. assert (static h0) as Hs0 by (by split_and!).
  pose proof (process_start_turn leader h0) as Eturn. unfold mbind at 1, M_bind at 1 in Eturn.
  destruct (process_start gzip snappy lz4 zstd leader first h0) as [r h] eqn:Estart.
  assert (r = Ok tt /\ static h /\ phase log (the_end leader) h (MkClientStream None []) INIT_OFFSET k (position log k)) as (-> & Hs & Hph).
  { destruct (Z.eq_dec first (the_end leader)) as [Eend|Hne].
    - rewrite (send_back_nothing leader log h0 k first Hl Hs0 Hk Eend) in Eturn. destruct r as [[]|e|]; [|done..]. injection Eturn as ->.
      split; [done|]. split; [done|]. rewrite Epos. split; [unfold INIT_OFFSET; lia|]. split; [cbn; lia|]. cbn. split_and!; try done; [lia|by left].
    - destruct (send_back_sends leader log h0 k first Hl Hs0 Hk ltac:(lia)) as (response & Er & Hf). rewrite Er in Eturn.
      destruct r as [[]|e|]; [|done..]. injection Eturn as ->. split; [done|]. split; [done|]. rewrite Epos.
      split; [unfold INIT_OFFSET; lia|]. split; [cbn; lia|]. cbn. split; [lia|]. left. exists response. split_and!; try done. by left. }
  injection E as <-. split; cbn; try done; [by left|]. exists k, INIT_OFFSET, (MkPublisher (topic (sfq_replica msg)) (partition (sfq_replica msg)) (sfq_consumer_id msg)).
  rewrite lookup_insert_eq, Epos. split_and!; try done; [|by rewrite Epos in Hph].
  rewrite log_records_before; [done..|by destruct Hl as (_ & ? & _)|done|lia].
Qed.

Lemma reach_inv st0 st :
  stream_inv st0 -> stream_reach crc32c gzip snappy lz4 zstd version limit max_bytes start first st0 st -> stream_inv st.
Proof. intros Hinv0 Hr. induction Hr as [|st st' _ IH Hstep]; [done|]. by apply (stream_inv_step st). Qed.

(** *** The end *)

(** Until the client has everything, there is a step. *)
Lemma step_or_end st k value info :
  stream_inv st -> sp_publishers (ss_publishers st) !! id = Some (MkOffsetPublisher value, info) ->
  position (ss_log st) k <= the_end (ss_leader st) ->
  phase (ss_log st) (the_end (ss_leader st)) (ss_handler st) (ss_client st) value k (position (ss_log st) k) ->
  position (ss_log st) k = the_end (ss_leader st) \/ exists st', stream_internal crc32c gzip snappy lz4 zstd version first st st'.
Proof.
  intros [Hl (Ei & _ & _ & Eid & _) Hr Hid _] Hpub Hp (Hv & Hc & Hph).
  assert (fst <$> sp_publishers (ss_publishers st) !! sf_stream_id (ss_handler st) = Some (MkOffsetPublisher value)) as Hcons
    by (rewrite Eid, Hpub; done).
  destruct (last_known_consumer_offset (ss_handler st)) as [c|].
  - destruct Hph as (_ & _ & _ & Hseen & _). pose proof (isolation_end_published crc32c _ _ _ _ iso (proj1 Hl)) as Ee.
    destruct (Z.eq_dec (current_value (published iso (ss_leader st))) (last_value (leader_offset_receiver (ss_handler st)))) as [E|Hne]; [lia|].
    right. destruct (process_turn gzip snappy lz4 zstd false (MkOffsetPublisher value) (ss_leader st) LeaderEvent (ss_handler st))
      as [[r h]|] eqn:E; [eexists; by eapply stream_turn|].
    unfold process_turn, listen, has_new_value in E. rewrite Ei in E. destruct (Z.eqb_spec (current_value (published iso (ss_leader st)))
      (last_value (leader_offset_receiver (ss_handler st)))); done.
  - right. destruct Hph as [_ [(response & Es & (j & extra & Er & _) & _)|[(_ & Ech & Esid & _)|(_ & _ & Ev & Hlt & _)]]].
    + eexists. by eapply stream_receive.
    + eexists. by eapply stream_update.
    + destruct (process_turn gzip snappy lz4 zstd false (MkOffsetPublisher value) (ss_leader st) ConsumerEvent (ss_handler st))
        as [[r h]|] eqn:E; [eexists; by eapply stream_turn|].
      unfold process_turn, listen, has_new_value in E. cbn [current_value] in E.
      destruct (Z.eqb_spec value (last_value (consumer_offset_listener (ss_handler st)))); [lia|done].
Qed.

(** What the user of the client has got. *)
Definition delivered st (p : Z) : Prop :=
  exists n, ss_items st = map inl (records_from first (log_records gzip snappy lz4 zstd part (take n (ss_log st)))) /\
    map cr_offset (records_from first (log_records gzip snappy lz4 zstd part (take n (ss_log st)))) = seqZ first (p - first).

Lemma inv_delivered st :
  stream_inv st ->
  exists p, delivered st p /\ first <= p <= the_end (ss_leader st) /\
    (p = the_end (ss_leader st) \/ exists st', stream_internal crc32c gzip snappy lz4 zstd version first st st').
Proof.
  intros Hinv. pose proof Hinv as [Hl _ _ _ (k & value & info & Hpub & Ei & Hn & Hp & Hph)]. exists (position (ss_log st) k).
  split; [exists k; split; [done|by apply delivered_offsets]|]. split; [unfold position in *; lia|]. by apply (step_or_end st k value info).
Qed.

Lemma inv_acc st : stream_inv st -> Acc (fun b a => stream_internal crc32c gzip snappy lz4 zstd version first a b) st.
Proof.
  intros Hinv. remember (Z.to_nat (left_to_do st)) as n eqn:En. revert st Hinv En.
  induction n as [n IH] using lt_wf_ind. intros st Hinv En. constructor. intros st' Hstep.
  destruct (inv_internal st st' Hinv Hstep) as [Hinv' Hlt]. pose proof (left_nonneg st' Hinv'). apply (IH (Z.to_nat (left_to_do st'))); [lia|done|done].
Qed.

Lemma internal_same st st' :
  stream_internal crc32c gzip snappy lz4 zstd version first st st' -> ss_leader st' = ss_leader st /\ ss_log st' = ss_log st.
Proof. by destruct 1. Qed.

Lemma inv_drains st :
  stream_inv st ->
  exists st', rtc (stream_internal crc32c gzip snappy lz4 zstd version first) st st' /\ ss_leader st' = ss_leader st /\ ss_log st' = ss_log st /\
    delivered st' (the_end (ss_leader st')).
Proof.
  intros Hinv. pose proof (inv_acc st Hinv) as Hacc. induction Hacc as [st _ IH].
  destruct (inv_delivered st Hinv) as (p & Hd & _ & [->|[st1 Hstep]]); [by exists st|].
  destruct (inv_internal st st1 Hinv Hstep) as [Hinv1 _]. destruct (IH st1 Hstep Hinv1) as (st' & Hr & El & Eg & Hd').
  destruct (internal_same st st1 Hstep) as [El1 Eg1].
  exists st'. split; [by eapply rtc_l|]. split; [congruence|]. split; [congruence|done].
Qed.
End invariant.

(** ** Properties *)

(** What the claims below assume of a stream: a leader whose log begins at
    [start], a client that asks for the records from an offset that the leader
    has on, and batches that fit in a response of the size the client asked
    for. *)
Section streams.
Context `{PRead} (crc32c : list byte -> Z) (gzip snappy lz4 zstd : Backend).
Context {S : Type} `{!ReplicaStorage S} `{!ReplicaStorageOK crc32c S} {W : Type} `{Wasm W}.

Record stream_setup (limit start : Z) (leader : SharableReplicaStorage S) (log : list RawBatch) (msg : StreamFetchRequest) : Prop := {
  setup_leads : leads crc32c gzip snappy lz4 zstd limit (sfq_max_bytes msg) start leader log;
  setup_max_bytes : 0 <= sfq_max_bytes msg < 2 ^ 31;
  setup_start : 0 <= start <= sfq_fetch_offset msg;
  setup_first : sfq_fetch_offset msg <= isolation_end (sfq_isolation msg) (sh_inner leader);
}.

Lemma setup_inv version limit start leader log msg publishers (st0 st : StreamSystem S W) :
  (forall bs, in_u 32 (crc32c bs)) -> stream_setup limit start leader log msg ->
  stream_system gzip snappy lz4 zstd leader log msg publishers = Some st0 ->
  stream_reach crc32c gzip snappy lz4 zstd version limit (sfq_max_bytes msg) start (sfq_fetch_offset msg) st0 st ->
  stream_inv crc32c gzip snappy lz4 zstd version limit (sfq_max_bytes msg) start (sfq_fetch_offset msg) (partition (sfq_replica msg))
    (wrap_u 32 (stream_id_seq publishers + 1)) (sfq_isolation msg) st.
Proof.
  intros Hc [Hl Hm Hs Hf] E Hr. assert (sfq_max_bytes msg < 2 ^ 31) as Hm' by lia.
  eapply reach_inv; [done|done|done| |exact Hr].
  eapply (stream_system_inv crc32c Hc gzip snappy lz4 zstd version limit (sfq_max_bytes msg) start (sfq_fetch_offset msg)); try done.
  apply wrap_u_id. unfold in_u. lia.
Qed.

Lemma stream_system_some leader log msg publishers :
  exists st0 : StreamSystem S W, stream_system gzip snappy lz4 zstd leader log msg publishers = Some st0 /\ ss_leader st0 = leader /\ ss_log st0 = log.
Proof.
  unfold stream_system, stream_start. rewrite lookup_singleton_eq. destruct (create_new_publisher _ _ _ _) as [i ps].
  destruct (process_start _ _ _ _ _ _ _) as [r h]. destruct (after_turn _ h) as [h' b]. by eexists.
Qed.
End streams.

(** A batch that does not fit in a response is never delivered, and stops the
    stream: the client gets nothing of it and acknowledges nothing, and the
    handler waits for that. *)
Theorem oversized_batch_stalls (crc32c : list byte -> Z) (gzip snappy lz4 zstd : Backend) (version max partition first id : Z) (b : RawBatch) (bs : list RawBatch) :
  (forall x, in_u 32 (crc32c x)) -> valid_batch codec_raw b -> 0 < max < zlen (wire_batch crc32c codec_raw b) -> max < 2 ^ 31 ->
  exists set, receive_records crc32c version (FileRecordSet (ztake max (wire_batches crc32c codec_raw (b :: bs)))) = Ok set /\
    let response := MkClientResponse id EcNone 0 set in
    next_offset_for_fetch response = None /\ response_items gzip snappy lz4 zstd partition first response = [].
Proof.
  intros Hc Hv Hmax H31. set (w := wire_batch crc32c codec_raw b) in *.
  assert (ztake max (wire_batches crc32c codec_raw (b :: bs)) = ztake max w) as -> by (rewrite wire_batches_cons; apply ztake_app_le; fold w; lia).
  assert (zlen (ztake max w) = max) as Hlen by (rewrite zlen_ztake; lia).
  assert (ztake max w <> []) as Hne by (intros E; rewrite E in Hlen; rewrite zlen_nil in Hlen; lia).
  assert (zdrop max w <> []) as Hne'.
  { intros E. apply (f_equal zlen) in E. rewrite zlen_zdrop, zlen_nil in E by lia. lia. }
  destruct (decode_batches_truncated crc32c Hc version [] b (ztake max w) (zdrop max w)) as (extra & st & Ed & Hx);
    [done|done|apply ztake_zdrop|done|done|change (wire_batches crc32c codec_raw []) with (@nil byte); cbn [app]; unfold isize_max; lia|].
  change (wire_batches crc32c codec_raw []) with (@nil byte) in Ed. cbn [app map] in Ed.
  assert (zlen (ztake max w) < 2 ^ 31) as Hlt by lia.
  pose proof (decode_record_set_payload crc32c codec_raw version (ztake max w) [] extra st Hlt) as Ep. rewrite !app_nil_r in Ep.
  exists (MkRecordSet extra). split.
  - unfold receive_records, response_wire, decode_from. cbn [Wire.decode codec_record_set dflt]. rewrite Ep; [done|unfold isize_max; lia|exact Ed].
  - split.
    + unfold next_offset_for_fetch, last_offset. cbn [cl_next_filter_offset cl_records batches]. rewrite <-(app_nil_l extra), find_rev_app_false by done. done.
    + apply (response_items_records crc32c gzip snappy lz4 zstd partition first (MkClientResponse id EcNone 0 (MkRecordSet extra)) [] extra); done.
Qed.


(** C5: under the same conditions, every batch of the log fitting in the most
    bytes that the consumer asks for among them, the stream delivers everything:
    between two writes or commits there is no endless run of its steps, and
    some run of them ends with the client having given its user every record
    from the one it asked for up to the log end offset, or the high watermark
    for committed records. *)
Theorem stream_delivers_all `{PRead} (crc32c : list byte -> Z) (gzip snappy lz4 zstd : Backend)
    {S : Type} `{!ReplicaStorage S} `{!ReplicaStorageOK crc32c S} {W : Type} `{Wasm W}
    (version limit start : Z) (leader : SharableReplicaStorage S) (log : list RawBatch) (msg : StreamFetchRequest)
    (publishers : StreamPublishers) (st0 st : StreamSystem S W) :
  (forall bs, in_u 32 (crc32c bs)) -> stream_setup crc32c gzip snappy lz4 zstd limit start leader log msg ->
  stream_system gzip snappy lz4 zstd leader log msg publishers = Some st0 ->
  stream_reach crc32c gzip snappy lz4 zstd version limit (sfq_max_bytes msg) start (sfq_fetch_offset msg) st0 st ->
  let first := sfq_fetch_offset msg in
  Acc (fun b a => stream_internal crc32c gzip snappy lz4 zstd version first a b) st /\
  exists st', rtc (stream_internal crc32c gzip snappy lz4 zstd version first) st st' /\
    ss_leader st' = ss_leader st /\ ss_log st' = ss_log st /\
    delivered gzip snappy lz4 zstd first (partition (sfq_replica msg)) st' (isolation_end (sfq_isolation msg) (sh_inner (ss_leader st'))).
Proof.
  intros Hc Hs E Hr first. pose proof (setup_inv crc32c gzip snappy lz4 zstd version _ _ _ _ _ _ _ _ Hc Hs E Hr) as Hinv.
  assert (sfq_max_bytes msg < 2 ^ 31) as Hm by apply (setup_max_bytes _ _ _ _ _ _ _ _ _ _ Hs).
  split; [eapply inv_acc|eapply inv_drains]; try done; apply (setup_start _ _ _ _ _ _ _ _ _ _ Hs).
Qed.

(** The example: a new file replica, a stream from its beginning, and a batch
    of two records that is written then. *)
#[local] Instance stream_storage : ReplicaStorage FileReplica := FileReplica_Storage 0 sum32.
#[local] Instance stream_storage_ok : ReplicaStorageOK sum32 FileReplica := FileReplica_OK 0 sum32 sum32_u32.
#[local] Existing Instance example_wasm.
Definition example_request : StreamFetchRequest := MkStreamFetchRequest (MkReplicaKey "topic" 0) 0 1000 ReadUncommitted None.

Lemma stored_plain_deliverable : deliverable mirror mirror mirror mirror 1000 1000 stored_plain.
Proof.
  split; [|split; [vm_compute; congruence|]].
  - split; [|vm_compute; congruence]. repeat split; try (vm_compute; congruence).
  - eexists. split; vm_compute; reflexivity.
Qed.

Lemma example_stream :
  exists r (st0 st : StreamSystem FileReplica unit),
    create_or_load_inner 0 dense_config [] None = Ok r /\
    stream_setup sum32 mirror mirror mirror mirror 1000 0 (sharable_create r) [] example_request /\
    stream_system mirror mirror mirror mirror (sharable_create r) [] example_request stream_publishers_new = Some st0 /\
    stream_reach sum32 mirror mirror mirror mirror 0 1000 1000 0 0 st0 st /\
    pub_leo (ss_leader st) = 2 /\ st_leo (sh_inner (ss_leader st)) = 2 /\ ss_log st = [set_base_offset 0 stored_plain].
Proof.
  destruct (load_fresh sum32 codec_raw 0 dense_config dense_config_ok) as (r & E & Hok & Eo & El & Eh & Em & _); [split; [done|reflexivity]|].
  assert (sh_ok_from sum32 0 (sharable_create r) 1000 []) as Hsh.
  { split; [by exists [], []|]. split; [done|]. split; [done|]. cbn. rewrite Eo, Em. reflexivity. }
  destruct (stream_system_some mirror mirror mirror mirror (W := unit) (sharable_create r) [] example_request stream_publishers_new)
    as (st0 & E0 & El0 & Eg0).
  destruct (sh_write_from sum32 0 (sharable_create r) 1000 [] [stored_plain] false Hsh) as (size & leader & Ew & Hsh' & El' & _).
  { constructor; [apply stored_plain_deliverable|done]. }
  { cbn. rewrite El. vm_compute. reflexivity. }
  assert (pub_leo leader = 2) as E2 by (rewrite El'; cbn; by rewrite El).
  eexists r, st0, _. split; [done|]. split; [|split; [exact E0|split]].
  - split; [|vm_compute; by split; congruence|vm_compute; by split; congruence|cbn; by rewrite El].
    split; [done|]. split; [done|]. exists 0%nat. split; [done|]. cbn. done.
  - eapply stream_next; [apply stream_here|].
    eapply (stream_produce _ _ _ _ _ 0 1000 1000 0 0 st0 [stored_plain]); [by constructor; [apply stored_plain_deliverable|]| |rewrite El0; exact Ew].
    rewrite El0. cbn. rewrite El. vm_compute. reflexivity.
  - cbn [ss_leader ss_log]. split; [done|]. split; [destruct Hsh' as (_ & <- & _); done|]. rewrite Eg0. cbn. by rewrite El.
Qed.


(** The user of the client gets both records. *)
Lemma stream_delivers_all_witness :
  exists r (st st' : StreamSystem FileReplica unit),
    create_or_load_inner 0 dense_config [] None = Ok r /\ ss_log st = [set_base_offset 0 stored_plain] /\
    rtc (stream_internal sum32 mirror mirror mirror mirror 0 0) st st' /\
    exists rs, ss_items st' = map inl rs /\ map cr_offset rs = [0; 1].
Proof.
  destruct example_stream as (r & st0 & st & E & Hs & E0 & Hr & _ & El & Eg).
  destruct (stream_delivers_all sum32 mirror mirror mirror mirror 0 1000 0 (sharable_create r) [] example_request
    stream_publishers_new st0 st sum32_u32 Hs E0 Hr) as (_ & st' & Hrun & El' & Eg' & n & Ei & Eo).
  exists r, st, st'. split; [done|]. split; [done|]. split; [exact Hrun|]. eexists. split; [exact Ei|]. rewrite Eo, El'.
  cbn in El |- *. rewrite El. reflexivity.
Defined.
