(* ===== verification/ConsumerRetry.v ===== *)
(** * Streams that reconnect, and where consumers resume

    What [Consumer.v] promises to the user of a stream that reconnects, on top
    of the connections of [ConsumerStream.v]: no record is lost or repeated
    over reconnections of a stream of one partition.  Then the offsets that are
    committed, and cases in which records are lost. *)

From stdpp Require Import gmap strings list.
From S2P Require Import Prelude Wire Varint Utf8 Scalars Collections Records Batch RecordSet.
From S2P Require Import StorageIndex StorageLog StorageSegment StorageCheckpoint StorageReplica StorageReplicaLaws.
From S2P Require Import SpuStorage Replication ReplicationLaws Names ClusterTypes SpuProduce.
From S2P Require Import Derive SmartModule KvLog FileIter ReplicaLog SmartBatch SmartContext ConsumerOffsets StreamFetch Consumer ConsumerStream.

#[local] Open Scope Z_scope.

(** ** What a connection promises *)

(** The records of a log that begins at [base] with offsets from [a] up to [b]. *)
Definition between (base : Z) (log : list ConsumerRecord) (a b : Z) : list ConsumerRecord :=
  take (Z.to_nat (b - a)) (drop (Z.to_nat (a - base)) log).

(** A stream that was asked for the records from [a] on gives them in order, and
    may end with an error, but not with that of an offset that is gone. *)
Definition serves (base : Z) (log : list ConsumerRecord) (a : Z) (stream : Items) : Prop :=
  exists b rest, stream = map inl (between base log a b) ++ rest /\ a <= b <= base + zlen log /\
    (rest = [] \/ exists e, rest = [inr e] /\ forall offset next_available, e <> EcOffsetEvicted offset next_available).

Lemma between_nil base log a : between base log a a = [].
Proof. unfold between. by rewrite Z.sub_diag. Qed.

Lemma between_cons base log a b r :
  log !! Z.to_nat (a - base) = Some r -> base <= a < b -> between base log a b = r :: between base log (a + 1) b.
Proof.
  intros Hr Hb. unfold between. rewrite (drop_S _ _ _ Hr).
  replace (Z.to_nat (b - a)) with (Datatypes.S (Z.to_nat (b - (a + 1)))) by lia. cbn. do 2 f_equal. f_equal. lia.
Qed.

Lemma log_at base log a :
  map cr_offset log = seqZ base (zlen log) -> base <= a < base + zlen log ->
  exists r, log !! Z.to_nat (a - base) = Some r /\ cr_offset r = a.
Proof.
  intros Hlog Ha. destruct (lookup_lt_is_Some_2 log (Z.to_nat (a - base))) as [r Hr]; [unfold zlen in *; lia|].
  exists r. split; [done|]. pose proof (f_equal (fun l => l !! Z.to_nat (a - base)) Hlog) as E. cbn in E.
  change (map cr_offset log) with (cr_offset <$> log) in E. rewrite list_lookup_fmap, Hr in E. cbn in E.
  unfold zlen in *. rewrite lookup_seqZ_lt in E by lia. injection E as ->. lia.
Qed.

(** ** Reconnecting *)

(** The items of up to so many polls, as long as the stream does not wait. *)
Fixpoint retry_run (polls : nat) (self : ConsumerRetryStream) : Items :=
  match polls with
  | O => []
  | Datatypes.S polls =>
      match retry_next self with
      | Some (Some item, self) => item :: retry_run polls self
      | _ => []
      end
  end.
(** The records among them. *)
Definition records_of (items : Items) : list ConsumerRecord := omap (fun i => match i with inl r => Some r | inr _ => None end) items.
Definition errors_of (items : Items) : list ErrorCode := omap (fun i => match i with inl _ => None | inr e => Some e end) items.

Section retry.
Context (base : Z) (log : list ConsumerRecord) (base_nonneg : 0 <= base) (log_bounded : base + zlen log < 2 ^ 63).
Context (log_numbered : map cr_offset log = seqZ base (zlen log)).
Context (config : ConsumerConfigExt) (retries : retry_disabled (retry_mode config) = false) (continuous : disable_continuous config = false).

(** Every connection serves the log. *)
Definition all_serve (connections : Connections) : Prop :=
  Forall (fun reconnect => forall a stream, base <= a <= base + zlen log -> reconnect (Absolute a) = Some stream -> serves base log a stream) connections.

(** The next record to be delivered is that of offset [a]. *)
Definition reads_at (inner : ConsumerRetryInner) (a : Z) : Prop :=
  consumer_config inner = config /\ base <= a <= base + zlen log /\
  (next_offset_to_read inner = Some a \/ next_offset_to_read inner = None /\ offset_start config = Absolute a).

Lemma reads_at_offset inner a : reads_at inner a -> retry_next_offset inner = Absolute a.
Proof.
  intros (Ec & Ha & [E|[E Es]]); unfold retry_next_offset; rewrite E; [|by rewrite Ec].
  unfold offset_absolute. destruct (Z.ltb_spec a 0); [lia|done].
Qed.

Lemma serves_nil a : base <= a <= base + zlen log -> serves base log a [].
Proof. intros Ha. exists a, []. rewrite between_nil. split; [done|]. split; [lia|by left]. Qed.

(** A connection gives the next record, or nothing any more. *)
Lemma handle_served inner a stream :
  reads_at inner a -> serves base log a stream ->
  (exists r, handle_consumer_records inner stream = (Some (inl (r, a + 1)), inner, tail stream) /\
     log !! Z.to_nat (a - base) = Some r /\ a < base + zlen log /\ serves base log (a + 1) (tail stream)) \/
  (exists stream', handle_consumer_records inner stream = (None, inner, stream') /\ serves base log a stream').
Proof.
  intros (Ec & Ha & _) (b & rest & -> & Hb & Hrest).
  destruct (Z.eq_dec a b) as [<-|Hne].
  - right. rewrite between_nil. cbn [map app]. exists []. split; [|by apply serves_nil].
    destruct Hrest as [->|(e & -> & He)]; [done|]. cbn. rewrite Ec. destruct e; cbn; rewrite ?retries; try done. by destruct (He offset next_available).
  - left. destruct (log_at base log a log_numbered) as (r & Hr & Er); [lia|].
    exists r. rewrite (between_cons base log a b r Hr) by lia. cbn [map app tail handle_consumer_records]. split.
    + rewrite Er. rewrite wrap_i_id by (unfold in_i; lia). done.
    + split; [done|]. split; [lia|]. exists b, rest. split_and!; (done || lia).
Qed.

Lemma reconnection_served mode attempts a connections :
  retry_disabled mode = false -> base <= a <= base + zlen log -> all_serve connections ->
  match handle_reconnection_loop mode attempts (Absolute a) connections with
  | None => True
  | Some (r, rest) =>
      all_serve rest /\ (length rest < length connections)%nat /\
      match r with inl stream => serves base log a stream | inr e => e = EcMaxRetryReached end
  end.
Proof.
  intros Hm Ha. revert attempts. induction connections as [|f connections IH]; intros attempts Hc; cbn [handle_reconnection_loop]; [done|].
  apply Forall_cons in Hc as [Hf Hc]. destruct (f (Absolute a)) as [stream|] eqn:Ef.
  - split; [done|]. split; [cbn; lia|]. by apply (Hf a stream).
  - cbv zeta. specialize (IH (wrap_u 32 (attempts + 1)) Hc). destruct mode as [|max|]; [done| |].
    + destruct (max <=? wrap_u 32 (attempts + 1)); [split; [done|split; [cbn; lia|done]]|].
      destruct (handle_reconnection_loop _ _ _ connections) as [[r rest]|]; [|done]. destruct IH as (? & ? & ?). split_and!; [done|cbn; lia|done].
    + destruct (handle_reconnection_loop _ _ _ connections) as [[r rest]|]; [|done]. destruct IH as (? & ? & ?). split_and!; [done|cbn; lia|done].
Qed.

(** A task gives the next record, or the error that there were too many
    attempts. *)
Lemma retry_turns_served turns inner attempts a stream connections :
  reads_at inner a -> serves base log a stream -> all_serve connections ->
  match retry_turns turns inner attempts stream connections with
  | None => True
  | Some (Some (inl (r, next)), stream', connections') =>
      log !! Z.to_nat (a - base) = Some r /\ a < base + zlen log /\ next = a + 1 /\ serves base log (a + 1) stream' /\ all_serve connections'
  | Some (Some (inr e), stream', connections') => e = EcMaxRetryReached /\ serves base log a stream' /\ all_serve connections'
  | Some (None, _, _) => False
  end.
Proof.
  revert inner attempts stream connections. induction turns as [|turns IH]; intros inner attempts stream connections Hr Hs Hc; cbn [retry_turns]; [done|].
  destruct (handle_served inner a stream Hr Hs) as [(r & E & Eb & Ha & Hs')|(stream' & E & Hs')]; rewrite E; [done|].
  pose proof Hr as (Ec & Ha & _). rewrite Ec, retries, continuous. cbn [orb]. cbv zeta. rewrite (reads_at_offset inner a Hr).
  pose proof (reconnection_served (retry_mode config) (wrap_u 32 (attempts + 1)) a connections retries Ha Hc) as Hrec.
  destruct (handle_reconnection_loop _ _ _ connections) as [[[new|e] rest]|]; [| |done].
  - destruct Hrec as (Hc' & _ & Hnew). by apply IH.
  - destruct Hrec as (Hc' & _ & ->). done.
Qed.

Lemma retry_run_served polls inner a stream connections :
  reads_at inner a -> serves base log a stream -> all_serve connections ->
  let items := retry_run polls (MkRetryStream inner false stream connections) in
  records_of items = between base log a (a + zlen (records_of items)) /\ a + zlen (records_of items) <= base + zlen log /\
  Forall (eq EcMaxRetryReached) (errors_of items).
Proof.
  revert inner a stream connections. induction polls as [|polls IH]; intros inner a stream connections Hr Hs Hc; cbn [retry_run]; cbv zeta.
  { cbn. rewrite Z.add_0_r, between_nil. pose proof Hr as (_ & Ha & _). split_and!; [done|lia|done]. }
  unfold retry_next, consumer_with_retry. cbn [retry_terminated retry_inner retry_stream retry_connections].
  pose proof (retry_turns_served (Datatypes.S (length connections)) inner 0 a stream connections Hr Hs Hc) as Ht.
  destruct (retry_turns _ _ _ _ _) as [[[[[[r next]|e]|] stream'] connections']|]; [| |done|].
  - destruct Ht as (Eb & Ha & -> & Hs' & Hc'). destruct Hr as (Ec & Ha' & _).
    assert (reads_at (set_next_offset (Some (a + 1)) inner) (a + 1)) as Hr' by (split; [done|split; [lia|by left]]).
    destruct (IH _ _ _ _ Hr' Hs' Hc') as (E & Hle & He). set (items := retry_run polls _) in *.
    change (records_of (inl r :: items)) with (r :: records_of items). change (errors_of (inl r :: items)) with (errors_of items). rewrite zlen_cons.
    pose proof (zlen_nonneg (records_of items)). split; [|split; [lia|exact He]].
    rewrite E at 1. rewrite (between_cons base log a _ r Eb) by lia. do 2 f_equal. lia.
  - destruct Ht as (-> & Hs' & Hc'). destruct (IH _ _ _ _ Hr Hs' Hc') as (E & Hle & He). set (items := retry_run polls _) in *.
    change (records_of (inr EcMaxRetryReached :: items)) with (records_of items).
    change (errors_of (inr EcMaxRetryReached :: items)) with (EcMaxRetryReached :: errors_of items). split; [exact E|]. split; [exact Hle|]. by constructor.
  - cbn. rewrite Z.add_0_r, between_nil. pose proof Hr as (_ & Ha & _). split_and!; [done|lia|done].
Qed.
End retry.

(** A turn for each connection and one more is enough: with more turns a task
    waits for the same connection. *)
Lemma reconnection_fewer mode attempts offset_start connections r rest :
  handle_reconnection_loop mode attempts offset_start connections = Some (r, rest) -> (length rest < length connections)%nat.
Proof.
  revert attempts. induction connections as [|f connections IH]; intros attempts; cbn [handle_reconnection_loop]; [done|].
  destruct (f offset_start); [intros [= <- <-]; cbn; lia|]. cbv zeta. destruct mode as [|max|].
  - intros [= <- <-]. cbn. lia.
  - destruct (max <=? _); [intros [= <- <-]; cbn; lia|]. intros E%IH. cbn. lia.
  - intros E%IH. cbn. lia.
Qed.
Lemma retry_turns_enough turns turns' inner attempts stream connections :
  (length connections < turns)%nat -> (length connections < turns')%nat ->
  retry_turns turns inner attempts stream connections = retry_turns turns' inner attempts stream connections.
Proof.
  revert turns' inner attempts stream connections.
  induction turns as [|turns IH]; intros [|turns'] inner attempts stream connections Hl Hl'; [lia..|]. cbn [retry_turns].
  destruct (handle_consumer_records inner stream) as [[[c|] inner'] stream']; [done|].
  destruct (_ || _); [done|]. cbv zeta. destruct (handle_reconnection_loop _ _ _ connections) as [[[new|e] rest]|] eqn:E; [|done..].
  apply reconnection_fewer in E. apply IH; lia.
Qed.

(** ** Connections to a leader *)

Lemma records_from_drop first rs base :
  map cr_offset rs = seqZ base (zlen rs) -> base <= first -> records_from first rs = drop (Z.to_nat (first - base)) rs.
Proof.
  revert base. induction rs as [|r rs IH]; intros base Er Hf; [by destruct (Z.to_nat _)|].
  rewrite zlen_cons in Er. pose proof (zlen_nonneg rs). destruct (Z.eq_dec base first) as [->|Hne].
  - rewrite Z.sub_diag. apply (records_from_all first (r :: rs) first (1 + zlen rs)); [done|lia].
  - rewrite seqZ_cons in Er by lia. injection Er as Eo Er. cbn [records_from List.filter].
    destruct (Z.leb_spec first (cr_offset r)); [lia|]. fold (records_from first rs).
    rewrite (IH (Z.succ base)); [|rewrite Er; f_equal; lia|lia].
    replace (Z.to_nat (first - base)) with (Datatypes.S (Z.to_nat (first - Z.succ base))) by lia. done.
Qed.

Lemma delivered_serves gzip snappy lz4 zstd {S W} (part start first p : Z) (st : StreamSystem S W) :
  map cr_offset (log_records gzip snappy lz4 zstd part (ss_log st)) = seqZ start (zlen (log_records gzip snappy lz4 zstd part (ss_log st))) ->
  start <= first <= start + zlen (log_records gzip snappy lz4 zstd part (ss_log st)) -> first <= p ->
  delivered gzip snappy lz4 zstd first part st p ->
  serves start (log_records gzip snappy lz4 zstd part (ss_log st)) first (ss_items st).
Proof.
  intros Hlog Hf Hp (n & Ei & Eo). set (l := log_records gzip snappy lz4 zstd part (ss_log st)) in *.
  set (ln := log_records gzip snappy lz4 zstd part (take n (ss_log st))) in *.
  assert (l = ln ++ log_records gzip snappy lz4 zstd part (drop n (ss_log st))) as El.
  { unfold l, ln. by rewrite <-log_records_app, take_drop. }
  set (rest := log_records gzip snappy lz4 zstd part (drop n (ss_log st))) in *.
  assert (map cr_offset ln = seqZ start (zlen ln)) as Hln.
  { rewrite El, map_app, zlen_app, seqZ_app in Hlog by apply zlen_nonneg. apply app_inj_1 in Hlog as [? _]; [done|].
    rewrite length_map, length_seqZ. unfold zlen. lia. }
  assert (records_from first ln = between start l first p) as Eb.
  { rewrite (records_from_drop first ln start Hln) in Eo |- * by lia. unfold between. rewrite El.
    pose proof (f_equal length Eo) as Elen. rewrite length_map, length_seqZ, length_drop in Elen.
    destruct (Z.le_gt_cases (first - start) (zlen ln)) as [Hle|Hgt].
    - rewrite drop_app_le by (unfold zlen in *; lia). rewrite take_app_le by (rewrite length_drop; lia). symmetry. apply take_ge. rewrite length_drop. lia.
    - rewrite (drop_ge ln) by (unfold zlen in *; lia). assert (p = first) as -> by (unfold zlen in *; lia). by rewrite Z.sub_diag. }
  exists p, []. rewrite app_nil_r, Ei, Eb. split; [done|]. split; [|by left]. split; [done|].
  pose proof (f_equal length Eo) as Elen. rewrite length_map, length_seqZ, (records_from_drop first ln start Hln), length_drop in Elen by lia.
  rewrite El in Hf |- *. rewrite zlen_app in *. pose proof (zlen_nonneg rest). unfold zlen in *. lia.
Qed.

(** The items of a stream of [ConsumerStream] are as [serves] asks. *)
Theorem stream_serves `{PRead} (crc32c : list byte -> Z) (gzip snappy lz4 zstd : Backend)
    {S : Type} `{!ReplicaStorage S} `{!ReplicaStorageOK crc32c S} {W : Type} `{Wasm W}
    (version limit start : Z) (leader : SharableReplicaStorage S) (log : list RawBatch) (msg : StreamFetchRequest)
    (publishers : StreamPublishers) (st0 st : StreamSystem S W) :
  (forall bs, in_u 32 (crc32c bs)) -> stream_setup crc32c gzip snappy lz4 zstd limit start leader log msg ->
  stream_system gzip snappy lz4 zstd leader log msg publishers = Some st0 ->
  stream_reach crc32c gzip snappy lz4 zstd version limit (sfq_max_bytes msg) start (sfq_fetch_offset msg) st0 st ->
  serves start (log_records gzip snappy lz4 zstd (partition (sfq_replica msg)) (ss_log st)) (sfq_fetch_offset msg) (ss_items st).
Proof.
  intros Hc Hs E Hr. pose proof (setup_inv crc32c gzip snappy lz4 zstd version _ _ _ _ _ _ _ _ Hc Hs E Hr) as Hinv.
  pose proof (setup_start _ _ _ _ _ _ _ _ _ _ Hs) as Hstart.
  destruct (inv_delivered crc32c gzip snappy lz4 zstd _ _ _ _ _ _ _ _ Hstart st Hinv) as (p & Hd & Hp & _).
  pose proof (si_leads _ _ _ _ _ _ _ _ _ _ _ _ _ _ Hinv) as Hl. destruct (leads_log _ _ _ _ _ _ _ _ _ _ Hl) as [Hlog H63].
  assert (map cr_offset (log_records gzip snappy lz4 zstd (partition (sfq_replica msg)) (ss_log st)) = seqZ start (end_from start (ss_log st) - start)) as Eo.
  { apply log_records_offsets; [done| |lia|done]. destruct Hl as (_ & Hfit & _). eapply List.Forall_impl; [|exact Hfit]. by intros b [? _]. }
  pose proof (end_from_ge codec_raw _ _ Hlog) as Hge. pose proof (zlen_nonneg (ss_log st)).
  assert (zlen (log_records gzip snappy lz4 zstd (partition (sfq_replica msg)) (ss_log st)) = end_from start (ss_log st) - start) as Elen.
  { pose proof (f_equal length Eo) as El. rewrite length_map, length_seqZ in El. unfold zlen. lia. }
  apply (delivered_serves gzip snappy lz4 zstd _ _ _ p); [by rewrite Elen| |lia|done]. rewrite Elen.
  destruct (leads_end _ _ _ _ _ _ _ _ (sfq_isolation msg) _ _ Hl) as (j & Hj & Ej). pose proof (offset_at_bounds codec_raw start _ j Hlog Hj). lia.
Qed.

(** ** Properties *)

(** C26: a stream of one partition that begins at an absolute offset, does not
    end by itself and reconnects loses and repeats nothing.  If the log keeps
    its records and each connection that is asked for the records from an
    offset on gives them in order until it breaks, the records that the stream
    gives its user are those of the log from the offset it began with, in
    order and each once, over all reconnections; the only errors are those that
    tell the user that there were too many attempts to connect, and the stream
    goes on after them where it was.  For several partitions see
    [retry_loses_partition]. *)
Theorem retry_exactly_once (base start : Z) (log : list ConsumerRecord) (mode : RetryMode) (stream : Items) (connections : Connections) (polls : nat) :
  0 <= base -> base + zlen log < 2 ^ 63 -> map cr_offset log = seqZ base (zlen log) -> base <= start <= base + zlen log ->
  mode <> RetryDisabled -> serves base log start stream -> all_serve base log connections ->
  let config := MkConsumerConfig (Absolute start) false mode in
  let items := retry_run polls (MkRetryStream (MkRetryInner None config) false stream connections) in
  records_of items = between base log start (start + zlen (records_of items)) /\ start + zlen (records_of items) <= base + zlen log /\
  Forall (eq EcMaxRetryReached) (errors_of items).
Proof.
  intros H0 H63 Hlog Hs Hm Hserve Hall config. apply (retry_run_served base log H0 H63 Hlog config); try done; [by destruct mode|].
  split; [done|]. split; [done|]. by right.
Qed.

(** A log of four records; the first connection breaks after one record, there
    is no connection at the next attempt, the third one brings the rest. *)
Definition example_log : list ConsumerRecord :=
  [MkConsumerRecord 5 0 (record_new (bytes_of_string "a")) 0; MkConsumerRecord 6 0 (record_new (bytes_of_string "b")) 0;
   MkConsumerRecord 7 0 (record_new (bytes_of_string "c")) 0; MkConsumerRecord 8 0 (record_new (bytes_of_string "d")) 0].
Definition example_connection (offset_start : OffsetInner) : option Items :=
  match offset_start with Absolute a => Some (map inl (between 5 example_log a 9)) | _ => None end.
Definition no_connection (offset_start : OffsetInner) : option Items := None.

Lemma example_connections_serve : all_serve 5 example_log [no_connection; example_connection].
Proof.
  constructor; [done|]. constructor; [|done]. intros a stream Ha [= <-]. exists 9, []. rewrite app_nil_r.
  split; [done|]. split; [change (zlen example_log) with 4 in *; lia|by left].
Qed.

Lemma retry_exactly_once_witness :
  let items := retry_run 5 (MkRetryStream (MkRetryInner None (MkConsumerConfig (Absolute 5) false TryForever)) false
    (map inl (between 5 example_log 5 6) ++ [inr EcSpuError]) [no_connection; example_connection]) in
  records_of items = between 5 example_log 5 (5 + zlen (records_of items)) /\ map cr_offset (records_of items) = [5; 6; 7; 8].
Proof.
  cbv zeta. split; [|vm_compute; reflexivity].
  apply (retry_exactly_once 5 5 example_log TryForever (map inl (between 5 example_log 5 6) ++ [inr EcSpuError]) [no_connection; example_connection] 5).
  - lia.
  - vm_compute. reflexivity.
  - vm_compute. reflexivity.
  - vm_compute. split; discriminate.
  - discriminate.
  - exists 6, [inr EcSpuError]. split; [done|]. split; [vm_compute; split; discriminate|]. right. by exists EcSpuError.
  - exact example_connections_serve.
Defined.

(** A stream over several partitions remembers one offset for all of them: when
    it reconnects after the fifth record of one partition, the first records of
    the other one are never delivered, though each connection gives all records
    from the offset it is asked for. *)
Definition example_partitions (offset_start : OffsetInner) : option Items :=
  match offset_start with
  | Absolute a =>
      Some (map inl (records_from a (map (fun i => MkConsumerRecord i 0 (record_new []) 0) (seqZ 0 6)) ++
                     records_from a (map (fun i => MkConsumerRecord i 1 (record_new []) 0) (seqZ 0 2))))
  | _ => None
  end.
Theorem retry_loses_partition :
  let all := default [] (example_partitions (Absolute 0)) in
  let items := retry_run 20 (MkRetryStream (MkRetryInner None (MkConsumerConfig (Absolute 0) false TryForever)) false
    (take 5 all ++ [inr EcSpuError]) [example_partitions; example_partitions]) in
  map (fun r => (cr_partition r, cr_offset r)) (records_of all) = [(0, 0); (0, 1); (0, 2); (0, 3); (0, 4); (0, 5); (1, 0); (1, 1)] /\
  map (fun r => (cr_partition r, cr_offset r)) (records_of items) = [(0, 0); (0, 1); (0, 2); (0, 3); (0, 4); (0, 5)].
Proof. split; vm_compute; reflexivity. Qed.

(** *** Committed offsets *)

(** The items of so many polls, at one time. *)
Fixpoint single_run (polls : nat) (now : Z) (self : SinglePartitionConsumerStream) : Items * SinglePartitionConsumerStream :=
  match polls with
  | O => ([], self)
  | Datatypes.S polls =>
      match single_next now self with
      | (Some item, self) => let '(items, self) := single_run polls now self in (item :: items, self)
      | (None, self) => ([], self)
      end
  end.

Lemma single_run_manual n now rs rest store :
  (n <= length rs)%nat ->
  single_run n now (MkSingle (map inl rs ++ rest) (ManagementManual store)) =
  (map inl (take n rs), MkSingle (map inl (drop n rs) ++ rest) (ManagementManual (foldl (fun st r => local_update (cr_offset r) st) store (take n rs)))).
Proof.
  revert rs store. induction n as [|n IH]; intros [|r rs] store Hn; cbn in Hn; [done..|lia|].
  cbn [map app single_run single_next inner_stream offset_mngt management_update take drop foldl]. by rewrite IH by lia.
Qed.

Lemma foldl_update store rs a :
  map cr_offset rs = seqZ a (zlen rs) -> rs <> [] -> ls_seen store <= a ->
  foldl (fun st r => local_update (cr_offset r) st) store rs
    = MkStore (a + zlen rs - 1) (ls_comitted store) (ls_flushed store) (stream_to_server store) (ls_capacity store).
Proof.
  revert store a. induction rs as [|r rs IH]; intros store a Er Hne Hs; [done|]. rewrite zlen_cons in Er |- *. pose proof (zlen_nonneg rs).
  rewrite seqZ_cons in Er by lia. injection Er as Eo Er. cbn [foldl]. destruct rs as [|r' rs].
  - cbn. unfold local_update. rewrite zlen_nil, Eo. f_equal. lia.
  - rewrite (IH _ (Z.succ a)); [unfold local_update; cbn [ls_comitted ls_flushed stream_to_server ls_capacity]; f_equal; lia| |done|cbn; lia].
    rewrite Er. f_equal. lia.
Qed.

(** C35: a consumer that manages its offsets resumes where it committed.  When
    it has taken some records from a stream, commits and flushes, and the server
    stores the offset it is sent, the server was sent the offset of the last
    record taken; a new stream of this consumer that starts from the beginning
    then begins with the record after that one, if the log still has it. *)
Theorem commit_resumes (base start n now capacity : Z) (log : list ConsumerRecord) (stream : Items) (offsets : FetchOffsetPartitionResponse) :
  0 <= base <= start -> base + zlen log < 2 ^ 63 -> map cr_offset log = seqZ base (zlen log) ->
  0 < n -> start + n <= base + zlen log -> stream = map inl (between base log start (start + n)) ++ drop (Z.to_nat n) stream ->
  fop_start_offset offsets <= start + n <= fop_last_stable_offset offsets ->
  let '(items, self) := single_run (Z.to_nat n) now (MkSingle stream (management_new StrategyManual 0 [] capacity)) in
  let '(r, mngt) := management_flush now (fun _ => Some EcNone) (snd (management_commit (offset_mngt self))) in
  items = map inl (between base log start (start + n)) /\ r = inl tt /\
  exists store, mngt = ManagementManual store /\ stream_to_server store = [FlushManagedOffset (start + n - 1) true] /\ ls_flushed store = start + n - 1 /\
    exists record_count, stream_range (FromBeginning 0) [start + n - 1] offsets = Ok (start + n, record_count).
Proof.
  intros Hb H63 Hlog Hn Hend Es Ho. set (rs := between base log start (start + n)) in *.
  assert (length rs = Z.to_nat n) as Hlen by (unfold rs, between; rewrite length_take, length_drop; unfold zlen in *; lia).
  assert (zlen rs = n) as Ez by (unfold zlen; lia).
  assert (map cr_offset rs = seqZ start (zlen rs)) as Ers.
  { rewrite Ez. unfold rs, between. change (map cr_offset) with (fmap (M := list) cr_offset). rewrite fmap_take, fmap_drop.
    change (fmap (M := list) cr_offset log) with (map cr_offset log). rewrite Hlog. apply list_eq. intros i.
    destruct (decide (i < Z.to_nat n)%nat).
    - rewrite lookup_take_lt, lookup_drop, !lookup_seqZ_lt by lia. f_equal. lia.
    - rewrite lookup_take_ge by lia. symmetry. apply lookup_seqZ_ge. lia. }
  rewrite Es. cbn [management_new]. rewrite single_run_manual by lia. rewrite take_ge by lia.
  cbn [offset_mngt management_commit snd management_flush].
  rewrite (foldl_update _ rs start); [|done|by destruct rs; [cbn in Hlen; lia|]|cbn; lia]. rewrite Ez.
  unfold local_flush, local_commit. cbn [ls_comitted ls_flushed ls_seen local_store_new stream_to_server ls_capacity].
  destruct (Z.leb_spec (start + n - 1) (-1)); [lia|]. cbn. split; [done|]. split; [done|]. eexists. split; [reflexivity|]. cbn.
  do 2 (split; [done|]). eexists. unfold stream_range, offset_resolve, inner_resolve. cbn [head fmap option_fmap option_map].
  rewrite (wrap_i_id 64 (start + n - 1 + 1)) by (unfold in_i; lia). rewrite wrap_i_id by (unfold in_i; lia).
  unfold clamp_i64. destruct (Z.leb_spec (fop_start_offset offsets) (fop_last_stable_offset offsets)); [|lia]. cbn.
  replace (Z.max (Z.min _ _) 0) with (start + n) by lia. reflexivity.
Qed.

Lemma commit_resumes_witness :
  let '(items, self) := single_run 2 100 (MkSingle (map inl example_log) (management_new StrategyManual 0 [] 100)) in
  let '(r, mngt) := management_flush 100 (fun _ => Some EcNone) (snd (management_commit (offset_mngt self))) in
  r = inl tt /\ exists store, mngt = ManagementManual store /\ stream_to_server store = [FlushManagedOffset 6 true].
Proof.
  pose proof (commit_resumes 5 5 2 100 100 example_log (map inl example_log) (MkFetchOffset EcNone 0 5 9)
    ltac:(lia) ltac:(vm_compute; reflexivity) ltac:(vm_compute; reflexivity) ltac:(lia) ltac:(vm_compute; discriminate)
    ltac:(vm_compute; reflexivity) ltac:(cbn; lia)) as H.
  change (Z.to_nat 2) with 2%nat in H. destruct (single_run 2 100 _) as [items self]. destruct (management_flush _ _ _) as [r mngt].
  destruct H as (_ & -> & store & -> & E & _). split; [done|]. by exists store.
Defined.

(** With the automatic strategy a record is committed, and its offset may be
    sent to the server, before the user gets it. *)
Theorem auto_commits_before_yield (record : ConsumerRecord) (inner : Items) (flush_period now last : Z) (store : OffsetLocalStore) :
  ls_seen store < cr_offset record -> ls_flushed store < cr_offset record -> zlen (stream_to_server store) < ls_capacity store ->
  flush_period <= 1000000000 * wrap_u 64 (now - last) ->
  exists self store', single_next now (MkSingle (inl record :: inner) (ManagementAuto flush_period store last)) = (Some (inl record), self) /\
    offset_mngt self = ManagementAuto flush_period store' now /\
    stream_to_server store' = stream_to_server store ++ [FlushManagedOffset (cr_offset record) false].
Proof.
  intros Hs Hf Hc Hp. eexists. eexists. unfold single_next. cbn [inner_stream]. split; [reflexivity|].
  cbn [offset_mngt management_update run_auto_flush]. destruct (Z.leb_spec flush_period (1000000000 * wrap_u 64 (now - last))); [|lia].
  split; [reflexivity|]. unfold local_try_flush, local_commit, local_update. cbn [ls_comitted ls_flushed ls_seen stream_to_server ls_capacity].
  rewrite Z.max_r by lia. destruct (Z.leb_spec (cr_offset record) (ls_flushed store)); [lia|].
  destruct (Z.leb_spec (ls_capacity store) (zlen (stream_to_server store))); [lia|]. reflexivity.
Qed.

(** *** Records that are lost *)

Definition raw_of_records (base : Z) (rs : list Record') : Batch (list byte) :=
  sealed sum32 codec_raw (MkBatch base 0 (set_last_offset_delta (zlen rs - 1) batch_header_default) SCHEMA_ID_NULL (wire codec_memory 0 (number_records rs))).

(** A stream that is not continuous counts the records that come before the
    offset it starts with: one that starts with the last record of a batch of
    three, of which the next and last batch has one more, ends before that
    one. *)
Theorem take_records_short :
  let first := MkClientResponse 1 EcNone 0 (MkRecordSet [raw_of_records 0 example_input]) in
  let second := MkClientResponse 1 EcNone 0 (MkRecordSet [raw_of_records 3 (take 1 example_input)]) in
  let items r := map (fun i => match i with inl r => cr_offset r | inr _ => -1 end) (response_items mirror mirror mirror mirror 0 2 r) in
  stream_range (Absolute 2) [] (MkFetchOffset EcNone 0 0 4) = Ok (2, 2) /\
  items first = [2] /\ items second = [3] /\
  let '(r1, stream) := take_next (MkTakeRecords 2 [inl first; inl second]) in
  r1 = Some (inl first) /\ fst (take_next stream) = None.
Proof. vm_compute. repeat split. Qed.

(** The client numbers the records of a batch from its base offset on, but a
    filter leaves gaps: of the records 0 and 2 that pass a filter, the second
    one is given the offset 1, and a consumer that starts at 2 loses it. *)
#[local] Existing Instance example_wasm.
Theorem filtered_records_dropped :
  exists sm chain raw, process_batch [Ok (example_file_batch 0)] 1000 example_filter_chain = (Ok (sm, None), chain) /\
    map (fun r => offset_delta (preamble r)) (records sm) = [0; 2] /\ raw_of_batch mirror mirror mirror mirror sm = inl raw /\
    let response := MkClientResponse 1 EcNone 3 (MkRecordSet [raw]) in
    map (fun i => match i with inl r => cr_offset r | inr _ => -1 end) (response_items mirror mirror mirror mirror 0 0 response) = [0; 1] /\
    response_items mirror mirror mirror mirror 0 2 response = [].
Proof. do 3 eexists. split; [vm_compute; reflexivity|]. split; [vm_compute; reflexivity|]. split; [vm_compute; reflexivity|]. vm_compute. done. Qed.

(** The error of a response with offsets is not looked at: a consumer that asks
    for new records, of a server that does not lead the partition, is told to
    start at the beginning. *)
Theorem offsets_error_ignored {S : Type} `{ReplicaStorage S} {L : Type} `{Log L} `{!HashOrder ConsumerOffsetKey ConsumerOffset}
    (peer : string -> Z -> string -> outcome OffsetError (option Z)) (leaders_state : gmap ReplicaKey (SharableReplicaStorage S))
    (topic : string) (partition : Z) (service : @OffsetService L) :
  leaders_state !! MkReplicaKey topic partition = None ->
  exists response, handle_offset_request peer leaders_state None [(topic, [partition])] service = (Ok response, service) /\
    exists offsets, find_partition response (MkReplicaKey topic partition) = Some offsets /\ fop_error_code offsets = EcPartitionNotLeader /\
      stream_range (FromEnd 0) [] offsets = Ok (0, 0).
Proof.
  intros E. unfold handle_offset_request. cbn [map_m]. unfold mbind, M_bind, offset_response. rewrite E. cbn.
  eexists. split; [reflexivity|]. cbn. rewrite String.eqb_refl. cbn. rewrite Z.eqb_refl. eexists. split; [reflexivity|]. done.
Qed.

(** A read gives records of one segment only.  When a SmartModule leaves none of
    them, the handler goes on from the end of the whole log: records in later
    segments, which pass the filter, are never sent. *)
#[local] Instance skipping_storage : ReplicaStorage FileReplica := FileReplica_Storage 0 sum32.
Definition small_config : ReplicaConfig := {|
  base_dir := "/tmp"; index_max_bytes := 64; index_max_interval_bytes := 1;
  segment_max_bytes := 100; flush_write_count := 1; flush_idle_msec := 0;
  max_batch_size := 1000; max_request_size := 1000; update_hw := true;
  retention_seconds := 60; max_partition_size := 5000 |}.
Definition without_key : Batch (list byte) := Eval vm_compute in raw_of_records 0 [record_new (bytes_of_string "x")].
Definition with_key : Batch (list byte) :=
  Eval vm_compute in raw_of_records 0 (List.filter (fun r => match key r with Some _ => true | None => false end) example_input).
Definition filtering_handler : StreamFetchHandler unit :=
  handler_new (MkStreamFetchRequest (MkReplicaKey "topic" 0) 0 1000 ReadCommitted None) 1 (Some example_filter_chain).
Definition two_segments : outcome StorageError (SharableReplicaStorage FileReplica) :=
  match create_or_load_inner 0 small_config [] None with
  | Ok r =>
      match sh_write_record_set true (sharable_create r, MkRecordSet [without_key]) with
      | (Ok _, (leader, _)) =>
          match sh_write_record_set true (leader, MkRecordSet [with_key]) with
          | (Ok _, (leader, _)) => Ok leader
          | _ => Panic
          end
      | _ => Panic
      end
  | _ => Panic
  end.
Theorem filtered_segment_skips :
  exists leader h h', two_segments = Ok leader /\ pub_hw leader = 3 /\
    send_back_records mirror mirror mirror mirror leader 0 filtering_handler = (Ok (3, false), h) /\ sf_sink h = [] /\
    send_back_records mirror mirror mirror mirror leader 1 filtering_handler = (Ok (3, true), h') /\ length (sf_sink h') = 1%nat.
Proof.
  do 3 eexists. split; [vm_compute; reflexivity|]. split; [reflexivity|]. split; [vm_compute; reflexivity|]. split; [reflexivity|].
  split; [vm_compute; reflexivity|]. reflexivity.
Qed.
