(* ===== verification/LocalMeta.v ===== *)
(** * Metadata kept in local files

    [fluvio-stream-dispatcher/src/metadata/local.rs]: a cluster without
    Kubernetes keeps its objects in YAML files, one directory per kind, with a
    cache of each directory in memory and a channel of its changes.

    A value of a kind's type is a value of the sum of the types of all kinds,
    with the kind as a tag where the code has a [dyn Any].  The file system is
    a map from directory and file name to contents; which accesses fail, and
    [serde_yaml], are parameters. *)

From S2P Require Import Prelude Names EpochMap MetadataStore.
From stdpp Require Import gmap strings.
From Stdlib Require Import Ascii String.

#[local] Open Scope string_scope.
#[local] Open Scope Z_scope.

(** ** Metadata of an object *)

(* src/crates/fluvio-stream-dispatcher/src/metadata/local.rs:8-15 LocalMetadataItem *)
Inductive LocalMetadataItem := MkItem {
  item_id : string;
  revision : Z;
  item_parent : option LocalMetadataItem;
  item_children : option (gmap string (list LocalMetadataItem));
}.
#[export] Instance LocalMetadataItem_eq_dec : EqDecision LocalMetadataItem.
Proof.
  refine (fix go x y := let eqd : EqDecision LocalMetadataItem := @go in
    match x, y with
    | MkItem i r p c, MkItem i' r' p' c' =>
        cast_if_and4 (decide (i = i')) (decide (r = r')) (decide (p = p')) (decide (c = c'))
    end); clear eqd go; abstract congruence.
Defined.

(* src/crates/fluvio-stream-dispatcher/src/metadata/local.rs:46-51 LocalMetadataItem::new *)
Definition item_new (id : string) : LocalMetadataItem := MkItem id 0 None None.
(* src/crates/fluvio-stream-dispatcher/src/metadata/local.rs:53-59 LocalMetadataItem::with_parent *)
Definition with_parent (id : string) (parent : LocalMetadataItem) : LocalMetadataItem :=
  MkItem id 0 (Some parent) None.
(* src/crates/fluvio-stream-dispatcher/src/metadata/local.rs:61-64 LocalMetadataItem::with_revision *)
Definition with_revision (rev : Z) (self : LocalMetadataItem) : LocalMetadataItem :=
  MkItem (item_id self) rev (item_parent self) (item_children self).
Definition set_item_id (id : string) (self : LocalMetadataItem) : LocalMetadataItem :=
  MkItem id (revision self) (item_parent self) (item_children self).
Definition without_parent (self : LocalMetadataItem) : LocalMetadataItem :=
  MkItem (item_id self) (revision self) None (item_children self).
(* src/crates/fluvio-stream-dispatcher/src/metadata/local.rs:40-42 LocalMetadataItem::set_children *)
Definition set_children (children : gmap string (list LocalMetadataItem)) (self : LocalMetadataItem) : LocalMetadataItem :=
  MkItem (item_id self) (revision self) (item_parent self) (Some children).
(* src/crates/fluvio-stream-dispatcher/src/metadata/local.rs:66-79 LocalMetadataItem::put_child *)
Definition put_child (kind : string) (child self : LocalMetadataItem) : LocalMetadataItem :=
  let children := default ∅ (item_children self) in
  set_children
    match children !! kind with
    | Some vec => if bool_decide (child ∈ vec) then children else <[kind := (vec ++ [child])%list]> children
    | None => <[kind := [child]]> children
    end self.
(* src/crates/fluvio-stream-dispatcher/src/metadata/local.rs:80-91 LocalMetadataItem::remove_child *)
Definition remove_child (kind : string) (child self : LocalMetadataItem) : LocalMetadataItem :=
  let children := default ∅ (item_children self) in
  set_children
    match children !! kind with
    | Some vec =>
        let vec := List.filter (fun i => negb (bool_decide (i = child))) vec in
        if is_nil vec then delete kind children else <[kind := vec]> children
    | None => children
    end self.

(* src/crates/fluvio-stream-dispatcher/src/metadata/local.rs:17-43 LocalMetadataItem (impl MetadataItem) *)
Definition local_item : MetadataItem LocalMetadataItem := {|
  UId := string;
  uid_eqb := String.eqb;
  item_default := item_new EmptyString;
  item_eqb a b := bool_decide (a = b);
  item_uid := item_id;
  item_is_newer self another := revision another <? revision self;
  item_is_being_deleted _ := false;
  item_owner := item_parent;
  item_set_owner self owner := MkItem (item_id self) (revision self) (Some owner) (item_children self);
|}.
#[export] Existing Instance local_item.

(** ** Errors *)

(** [LoadError] is the context that [SpecStore::load] puts around an error,
    [OtherError] an error of the system or of [serde_yaml] with its text. *)
Inductive MetaError :=
| NotFoundItem (uid : string)
| StaleValue (current proposed : Z)
| IncompatibleType (label : string)
| StoreNotFound (key : string)
| KeyFromString (uid : string)
| KeyFrom (key : string)
| LoadError (label path : string)
| OtherError (text : string).

(** [err.to_string()] *)
Definition error_text (e : MetaError) : string :=
  match e with
  | NotFoundItem uid => "'" ++ uid ++ "' not found"
  | StaleValue current proposed =>
      "attempt to update by stale value: current version: " ++ show_unsigned current ++ ", proposed: "
      ++ show_unsigned proposed
  | IncompatibleType label => "incompatible type for spec kind " ++ label
  | StoreNotFound key => "store not found for key " ++ key
  | KeyFromString uid => "failed to parse key from a string: " ++ uid
  | KeyFrom key => "failed to parse key from '" ++ key ++ "'"
  | LoadError label path => "loading metadata '" ++ label ++ "' from " ++ path
  | OtherError text => text
  end.

(** ** Kinds of objects and the disk *)

(** The types of a kind [u] that implements [Spec]: its label, its owner, and
    how its keys are written and read. *)
(* src/crates/fluvio-stream-model/src/core.rs:172-187 Spec *)
Class SpecKinds (U K S St : Type) := {
  LABEL : U -> string;
  Owner : U -> U;
  key_to_string : K -> string;
  key_from_str : U -> string -> option K;
  status_default : U -> St;
}.

(* src/crates/fluvio-stream-dispatcher/src/metadata/local.rs:626-634 SpecStorageV1 *)
Record SpecStorageV1 (S St : Type) := MkStorageV1 {
  sv_meta : LocalMetadataItem;
  sv_key : string;
  sv_status : St;
  sv_spec : S;
}.
Arguments MkStorageV1 {S St}.
Arguments sv_meta {S St}.
Arguments sv_key {S St}.
Arguments sv_status {S St}.
Arguments sv_spec {S St}.
(* src/crates/fluvio-stream-dispatcher/src/metadata/local.rs:608-614 VersionedSpecStorage *)
Inductive VersionedSpecStorage (S St : Type) := V1 (storage : SpecStorageV1 S St).
Arguments V1 {S St}.

(** A file is a directory and a name in it. *)
Notation FilePath := (string * string)%type.

(** [to_yaml] gives what has been written when the writer returns, and an
    error if it failed; the other fields say which accesses succeed. *)
Class Disk (U S St Y : Type) := {
  to_yaml : U -> VersionedSpecStorage S St -> Y * option string;
  from_yaml : U -> Y -> VersionedSpecStorage S St + string;
  can_read_dir : string -> option string;
  can_list : FilePath -> bool;
  can_open : FilePath -> option string;
  can_create : FilePath -> option string;
  can_remove : FilePath -> bool;
}.

(** [Path::join] with a relative path, and [Path::extension] of a file name. *)
Definition path_join (a b : string) : string := a ++ "/" ++ b.
Definition path_extension (name : string) : option string :=
  match rsplit "." name with
  | None | Some ("", _) => None
  | Some (_, ext) => Some ext
  end.
Definition show_path (p : FilePath) : string := path_join (fst p) (snd p).

(** The first error, or success. *)
Definition check {E A} (f : string -> E) (e : option string) (a : A) : outcome E A :=
  match e with Some text => Err (f text) | None => Ok a end.

Section local.
Context {U K S St Y : Type} `{!EqDecision U} `{!SpecKinds U K S St} `{!Disk U S St Y}.
Notation Obj := (MetadataStoreObject K S St LocalMetadataItem).

(** *** Fields of an object *)

Definition obj_item (o : Obj) : LocalMetadataItem := ctx_item (obj_ctx o).
Definition set_item (item : LocalMetadataItem) (o : Obj) : Obj :=
  MkObject (obj_spec o) (obj_status o) (obj_key o) (MkContext item).
(* src/crates/fluvio-stream-model/src/store/metadata.rs:98-100 MetadataStoreObject::set_spec *)
Definition set_spec (spec : S) (o : Obj) : Obj := MkObject spec (obj_status o) (obj_key o) (obj_ctx o).
(* src/crates/fluvio-stream-model/src/store/metadata.rs:106-108 MetadataStoreObject::set_status *)
Definition set_status (status : St) (o : Obj) : Obj := MkObject (obj_spec o) status (obj_key o) (obj_ctx o).
(* src/crates/fluvio-stream-model/src/store/metadata.rs:56-63 MetadataStoreObject::new_with_context *)
Definition new_with_context (u : U) (key : K) (spec : S) (item : LocalMetadataItem) : Obj :=
  MkObject spec (status_default u) key (MkContext item).

(** ** Pointers to objects *)

(** [ptr_type] is the [TypeId] of what [inner] points to. *)
(* src/crates/fluvio-stream-dispatcher/src/metadata/local.rs:293-297 SpecPointer *)
Record SpecPointer := MkPointer {
  ptr_type : U;
  inner : Obj;
  store_revision : Z;
  ptr_path : FilePath;
}.
(* src/crates/fluvio-stream-dispatcher/src/metadata/local.rs:541-550 SpecPointer::new *)
Definition pointer_new (u : U) (path : FilePath) (obj : Obj) : SpecPointer := MkPointer u obj 0 path.
(* src/crates/fluvio-stream-dispatcher/src/metadata/local.rs:566-568 SpecPointer::downcast *)
Definition downcast (u : U) (self : SpecPointer) : outcome MetaError Obj :=
  if decide (ptr_type self = u) then Ok (inner self) else Err (IncompatibleType (LABEL u)).

Definition storage_of (o : Obj) : VersionedSpecStorage S St :=
  V1 (MkStorageV1 (obj_item o) (key_to_string (obj_key o)) (obj_status o) (obj_spec o)).
(* src/crates/fluvio-stream-dispatcher/src/metadata/local.rs:639-655 VersionedSpecStorage::try_from *)
Definition storage_try_from (u : U) (value : SpecPointer) : outcome MetaError (VersionedSpecStorage S St) :=
  match downcast u value with
  | Ok obj => Ok (storage_of obj)
  | Err e => Err e
  | Panic => Panic
  end.
(* src/crates/fluvio-stream-dispatcher/src/metadata/local.rs:664-684 SpecPointer::try_from *)
Definition pointer_try_from (u : U) (value : VersionedSpecStorage S St) (path : FilePath)
    : outcome MetaError SpecPointer :=
  let 'V1 storage := value in
  match key_from_str u (sv_key storage) with
  | Some key =>
      Ok (pointer_new u path (set_status (sv_status storage) (new_with_context u key (sv_spec storage) (sv_meta storage))))
  | None => Err (KeyFrom (sv_key storage))
  end.

Notation Files := (gmap FilePath Y).

(* src/crates/fluvio-stream-dispatcher/src/metadata/local.rs:552-558 SpecPointer::load *)
Definition pointer_load (u : U) (path : FilePath) (fs : Files) : outcome MetaError (string * SpecPointer) :=
  match can_open path, fs !! path with
  | Some text, _ => Err (OtherError text)
  | None, None => Err (OtherError "No such file or directory")
  | None, Some c =>
      match from_yaml u c with
      | inl (V1 storage) =>
          match pointer_try_from u (V1 storage) path with
          | Ok pointer => Ok (item_id (sv_meta storage), pointer)
          | Err e => Err e
          | Panic => Panic
          end
      | inr text => Err (OtherError text)
      end
  end.
(* src/crates/fluvio-stream-dispatcher/src/metadata/local.rs:570-574 SpecPointer::delete *)
Definition pointer_delete (self : SpecPointer) (fs : Files) : Files :=
  if can_remove (ptr_path self) then delete (ptr_path self) fs else fs.
(** [File::create] empties the file, which [to_yaml] then fills. *)
(* src/crates/fluvio-stream-dispatcher/src/metadata/local.rs:576-580 SpecPointer::flush *)
Definition pointer_flush (u : U) (self : SpecPointer) (fs : Files) : outcome MetaError unit * Files :=
  match storage_try_from u self with
  | Ok storage =>
      match can_create (ptr_path self) with
      | Some text => (Err (OtherError text), fs)
      | None =>
          let '(written, error) := to_yaml u storage in
          (check OtherError error tt, <[ptr_path self := written]> fs)
      end
  | Err e => (Err e, fs)
  | Panic => (Panic, fs)
  end.

(** ** The store of a kind *)

(* src/crates/fluvio-stream-dispatcher/src/metadata/local.rs:300-303 SpecUpdate *)
Inductive SpecUpdate := SpecMod (p : SpecPointer) | SpecDelete (p : SpecPointer).
Definition update_pointer (self : SpecUpdate) : SpecPointer :=
  match self with SpecMod p | SpecDelete p => p end.
(* src/crates/fluvio-stream-dispatcher/src/metadata/local.rs:591-596 SpecUpdate::store_revision *)
Definition update_revision (self : SpecUpdate) : Z := store_revision (update_pointer self).
Definition with_store_revision (rev : Z) (p : SpecPointer) : SpecPointer :=
  MkPointer (ptr_type p) (inner p) rev (ptr_path p).
(* src/crates/fluvio-stream-dispatcher/src/metadata/local.rs:598-603 SpecUpdate::set_store_revision *)
Definition set_store_revision (rev : Z) (self : SpecUpdate) : SpecUpdate :=
  match self with
  | SpecMod p => SpecMod (with_store_revision rev p)
  | SpecDelete p => SpecDelete (with_store_revision rev p)
  end.
(* src/crates/fluvio-stream-dispatcher/src/metadata/local.rs:584-589 SpecUpdate::into_ls_update *)
Definition into_ls_update (u : U) (self : SpecUpdate) : outcome MetaError (LSUpdate K S St LocalMetadataItem) :=
  match self with
  | SpecMod p => match downcast u p with Ok o => Ok (UpdateMod o) | Err e => Err e | Panic => Panic end
  | SpecDelete p => match downcast u p with Ok o => Ok (UpdateDelete (obj_key o)) | Err e => Err e | Panic => Panic end
  end.

(* src/crates/fluvio-stream-dispatcher/src/metadata/local.rs:119-119 MAX_UPDATES_CAPACITY *)
Definition MAX_UPDATES_CAPACITY : nat := 100.

(** [queue] is what the channel holds. *)
(* src/crates/fluvio-stream-dispatcher/src/metadata/local.rs:284-290 SpecStore *)
Record SpecStore := MkSpecStore {
  version : Z;
  data : gmap string SpecPointer;
  queue : list SpecUpdate;
  store_path : string;
}.
Definition set_data x (self : SpecStore) : SpecStore := MkSpecStore (version self) x (queue self) (store_path self).

(* src/crates/fluvio-stream-dispatcher/src/metadata/local.rs:524-526 SpecStore::spec_file_name *)
Definition spec_file_name (name : string) (self : SpecStore) : FilePath := (store_path self, name ++ ".yaml").

(** [send] waits while the channel is full; the model appends, and an operation
    has not waited when no channel holds more than [MAX_UPDATES_CAPACITY]
    after it. *)
(* src/crates/fluvio-stream-dispatcher/src/metadata/local.rs:528-537 SpecStore::send_update *)
Definition send_update (update : SpecUpdate) (self : SpecStore) : SpecStore :=
  MkSpecStore (as_u64 (version self + 1)) (data self) (queue self ++ [set_store_revision (version self) update])
    (store_path self).

(** The names in a directory, in the order of [map_to_list]. *)
Definition read_dir (dir : string) (fs : Files) : list FilePath :=
  List.filter (fun p => String.eqb (fst p) dir && can_list p) (map fst (map_to_list fs)).

Fixpoint load_entries (u : U) (entries : list FilePath) (fs : Files) (data : gmap string SpecPointer)
    : outcome MetaError (gmap string SpecPointer) :=
  match entries with
  | [] => Ok data
  | path :: entries =>
      if bool_decide (path_extension (snd path) = Some "yaml") then
        match pointer_load u path fs with
        | Ok (name, item) => load_entries u entries fs (<[name := item]> data)
        | Err _ => Err (LoadError (LABEL u) (show_path path))
        | Panic => Panic
        end
      else load_entries u entries fs data
  end.
(* src/crates/fluvio-stream-dispatcher/src/metadata/local.rs:381-411 SpecStore::load *)
Definition spec_store_load (u : U) (path : string) (fs : Files) : outcome MetaError SpecStore :=
  match can_read_dir path with
  | Some text => Err (OtherError text)
  | None =>
      match load_entries u (read_dir path fs) fs ∅ with
      | Ok data => Ok (MkSpecStore 0 data [] path)
      | Err e => Err e
      | Panic => Panic
      end
  end.

Fixpoint downcast_all (u : U) (ps : list SpecPointer) : outcome MetaError (list Obj) :=
  match ps with
  | [] => Ok []
  | p :: ps =>
      match downcast u p with
      | Ok o => match downcast_all u ps with Ok os => Ok (o :: os) | Err e => Err e | Panic => Panic end
      | Err e => Err e
      | Panic => Panic
      end
  end.
(* src/crates/fluvio-stream-dispatcher/src/metadata/local.rs:413-428 SpecStore::retrieve_items *)
Definition store_retrieve_items (u : U) (self : SpecStore) : outcome MetaError (string * list Obj) :=
  let version := show_unsigned (version self) in
  match downcast_all u (map snd (map_to_list (data self))) with
  | Ok items => Ok (version, items)
  | Err e => Err e
  | Panic => Panic
  end.
(* src/crates/fluvio-stream-dispatcher/src/metadata/local.rs:430-441 SpecStore::try_retrieve_item *)
Definition try_retrieve_item (u : U) (metadata : LocalMetadataItem) (self : SpecStore)
    : outcome MetaError (option Obj) :=
  match data self !! item_id metadata with
  | Some p => match downcast u p with Ok o => Ok (Some o) | Err e => Err e | Panic => Panic end
  | None => Ok None
  end.
(* src/crates/fluvio-stream-dispatcher/src/metadata/local.rs:443-450 SpecStore::retrieve_item *)
Definition retrieve_item (u : U) (metadata : LocalMetadataItem) (self : SpecStore) : outcome MetaError Obj :=
  match try_retrieve_item u metadata self with
  | Ok (Some o) => Ok o
  | Ok None => Err (NotFoundItem (item_id metadata))
  | Err e => Err e
  | Panic => Panic
  end.

(** What [delete_item] and [apply] do while they hold the lock. *)
Definition delete_locked (metadata : LocalMetadataItem) (self : SpecStore) (fs : Files)
    : option SpecPointer * SpecStore * Files :=
  match data self !! item_id metadata with
  | Some removed => (Some removed, set_data (delete (item_id metadata) (data self)) self, pointer_delete removed fs)
  | None => (None, self, fs)
  end.
(* src/crates/fluvio-stream-dispatcher/src/metadata/local.rs:452-467 SpecStore::delete_item *)
Definition store_delete_item (metadata : LocalMetadataItem) : ME MetaError (SpecStore * Files) unit := fun '(self, fs) =>
  match delete_locked metadata self fs with
  | (Some removed, self, fs) => (Ok tt, (send_update (SpecDelete removed) self, fs))
  | (None, self, fs) => (Ok tt, (self, fs))
  end.

Definition insert_flush (u : U) (value : Obj) : ME MetaError (SpecStore * Files) SpecPointer := fun '(self, fs) =>
  let id := item_id (obj_item value) in
  let pointer := pointer_new u (spec_file_name id self) value in
  let self := set_data (<[id := pointer]> (data self)) self in
  match pointer_flush u pointer fs with
  | (Ok _, fs) => (Ok pointer, (self, fs))
  | (Err e, fs) => (Err e, (self, fs))
  | (Panic, fs) => (Panic, (self, fs))
  end.
Definition apply_locked (u : U) (value : Obj) : ME MetaError (SpecStore * Files) SpecPointer := fun '(self, fs) =>
  match data self !! item_id (obj_item value) with
  | Some prev =>
      match downcast u prev with
      | Ok prev =>
          let prev_rev := revision (obj_item prev) in
          if item_is_newer (obj_item prev) (obj_item value) then
            (Err (StaleValue prev_rev (revision (obj_item value))), (self, fs))
          else insert_flush u (set_item (with_revision (as_u64 (prev_rev + 1)) (obj_item value)) value) (self, fs)
      | Err e => (Err e, (self, fs))
      | Panic => (Panic, (self, fs))
      end
  | None => insert_flush u value (self, fs)
  end.
(** The update is announced after the lock on the data is released; as one step
    the two follow each other at once.  The other order of two tasks is in
    [late_update_resurrects]. *)
(* src/crates/fluvio-stream-dispatcher/src/metadata/local.rs:469-494 SpecStore::apply *)
Definition store_apply (u : U) (value : Obj) : ME MetaError (SpecStore * Files) unit :=
  pointer ← apply_locked u value;
  modify (fun '(self, fs) => (send_update (SpecMod pointer) self, fs)).

(** The version a stream of changes begins with; an error is the only element
    of the stream. *)
(* src/crates/fluvio-stream-dispatcher/src/metadata/local.rs:496-522 SpecStore::watch_stream_since *)
Definition watch_since (resources_version : option string) : outcome MetaError (option Z) :=
  match resources_version with
  | Some rv =>
      match parse_int 0 (2 ^ 64 - 1) rv with
      | Some version => Ok (Some version)
      | None => Err (OtherError "invalid digit found in string")
      end
  | None => Ok None
  end.
(** One [next] of the stream, with what is left in the channel; [None] when it
    waits.  Updates from before the version it began with are dropped. *)
Fixpoint watch_next (since : option Z) (queue : list SpecUpdate) : option SpecUpdate * list SpecUpdate :=
  match queue with
  | [] => (None, [])
  | update :: queue =>
      match since with
      | Some version => if version <=? update_revision update then (Some update, queue) else watch_next since queue
      | None => (Some update, queue)
      end
  end.

(** ** The storage *)

(* src/crates/fluvio-stream-dispatcher/src/metadata/local.rs:121-124 LocalMetadataStorage *)
Record LocalMetadataStorage := MkStorage { root : string; stores : gmap string SpecStore; files : Files }.
(* src/crates/fluvio-stream-dispatcher/src/metadata/local.rs:306-310 LocalMetadataStorage::new *)
Definition storage_new (path : string) (fs : Files) : LocalMetadataStorage := MkStorage path ∅ fs.
Notation MS := (ME MetaError LocalMetadataStorage).

(** The read lock is given up before the write lock is taken, and two tasks that
    ask for a new store at the same time each load it; here one does so after
    the other. *)
(* src/crates/fluvio-stream-dispatcher/src/metadata/local.rs:312-326 LocalMetadataStorage::get_store *)
Definition get_store (u : U) : MS unit := fun self =>
  match stores self !! LABEL u with
  | Some _ => (Ok tt, self)
  | None =>
      match spec_store_load u (path_join (root self) (LABEL u)) (files self) with
      | Ok store => (Ok tt, MkStorage (root self) (<[LABEL u := store]> (stores self)) (files self))
      | Err e => (Err e, self)
      | Panic => (Panic, self)
      end
  end.
(* src/crates/fluvio-stream-dispatcher/src/metadata/local.rs:371-377 LocalMetadataStorage::get_store_by_key *)
Definition get_store_by_key (key : string) : MS unit := fun self =>
  match stores self !! key with
  | Some _ => (Ok tt, self)
  | None => (Err (StoreNotFound key), self)
  end.
(** Read from or run an operation on the store with a label, which the callers
    have got before. *)
Definition in_store {A} (label : string) (f : SpecStore -> outcome MetaError A) : MS A := fun self =>
  match stores self !! label with
  | Some store => (f store, self)
  | None => (Panic, self)
  end.
Definition on_store {A} (label : string) (m : ME MetaError (SpecStore * Files) A) : MS A := fun self =>
  match stores self !! label with
  | Some store =>
      let '(r, (store, fs)) := m (store, files self) in
      (r, MkStorage (root self) (<[label := store]> (stores self)) fs)
  | None => (Panic, self)
  end.

(* src/crates/fluvio-stream-dispatcher/src/metadata/local.rs:328-339 LocalMetadataStorage::delete_children *)
Definition delete_children (item : Obj) : MS unit :=
  match item_children (obj_item item) with
  | Some all =>
      for_each (fun '(kind, children) =>
        get_store_by_key kind ;;
        for_each (fun child => on_store kind (store_delete_item child)) children) (map_to_list all)
  | None => mret tt
  end.
(** [link_parent] and [unlink_parent], with the change of the parent. *)
Definition change_parent (u : U) (change : string -> LocalMetadataItem -> LocalMetadataItem -> LocalMetadataItem)
    (parent child : LocalMetadataItem) : MS unit :=
  let owner := Owner u in
  get_store owner ;;
  parent_obj ← in_store (LABEL owner) (retrieve_item owner parent);
  on_store (LABEL owner)
    (store_apply owner (set_item (change (LABEL u) (without_parent child) (obj_item parent_obj)) parent_obj)).
(* src/crates/fluvio-stream-dispatcher/src/metadata/local.rs:341-354 LocalMetadataStorage::link_parent *)
Definition link_parent (u : U) : LocalMetadataItem -> LocalMetadataItem -> MS unit := change_parent u put_child.
(* src/crates/fluvio-stream-dispatcher/src/metadata/local.rs:356-369 LocalMetadataStorage::unlink_parent *)
Definition unlink_parent (u : U) : LocalMetadataItem -> LocalMetadataItem -> MS unit := change_parent u remove_child.

(** *** The operations of a metadata client *)

(* src/crates/fluvio-stream-dispatcher/src/metadata/local.rs:129-138 LocalMetadataStorage::retrieve_items *)
Definition retrieve_items (u : U) : MS (string * list Obj) :=
  get_store u ;; in_store (LABEL u) (store_retrieve_items u).
(* src/crates/fluvio-stream-dispatcher/src/metadata/local.rs:140-154 LocalMetadataStorage::delete_item *)
Definition delete_item (u : U) (metadata : LocalMetadataItem) : MS unit :=
  get_store u ;;
  found ← in_store (LABEL u) (try_retrieve_item u metadata);
  match found with
  | Some item =>
      match item_owner (obj_item item) with
      | Some owner => unlink_parent u owner (obj_item item)
      | None => mret tt
      end ;;
      delete_children item ;;
      on_store (LABEL u) (store_delete_item metadata)
  | None => mret tt
  end.
(* src/crates/fluvio-stream-dispatcher/src/metadata/local.rs:156-161 LocalMetadataStorage::finalize_delete_item *)
Definition finalize_delete_item : U -> LocalMetadataItem -> MS unit := delete_item.
(* src/crates/fluvio-stream-dispatcher/src/metadata/local.rs:163-177 LocalMetadataStorage::apply *)
Definition client_apply (u : U) (value : Obj) : MS unit :=
  get_store u ;;
  let value := set_item (set_item_id (key_to_string (obj_key value)) (obj_item value)) value in
  let item := obj_item value in
  on_store (LABEL u) (store_apply u value) ;;
  match item_owner item with
  | Some owner => link_parent u owner item
  | None => mret tt
  end.
(* src/crates/fluvio-stream-dispatcher/src/metadata/local.rs:179-203 LocalMetadataStorage::update_spec *)
Definition update_spec (u : U) (metadata : LocalMetadataItem) (spec : S) : MS unit :=
  get_store u ;;
  found ← in_store (LABEL u) (try_retrieve_item u metadata);
  item ← match found with
         | Some item => mret (set_spec spec (set_item metadata item))
         | None =>
             match key_from_str u (item_id metadata) with
             | Some key => mret (new_with_context u key spec metadata)
             | None => fail (KeyFromString (item_id metadata))
             end
         end;
  on_store (LABEL u) (store_apply u item).
(* src/crates/fluvio-stream-dispatcher/src/metadata/local.rs:205-228 LocalMetadataStorage::update_spec_by_key *)
Definition update_spec_by_key (u : U) (key : K) (spec : S) : MS unit :=
  let metadata := item_new (key_to_string key) in
  get_store u ;;
  found ← in_store (LABEL u) (try_retrieve_item u metadata);
  let item := match found with
              | Some item => set_spec spec item
              | None => new_with_context u key spec metadata
              end in
  on_store (LABEL u) (store_apply u item).
(* src/crates/fluvio-stream-dispatcher/src/metadata/local.rs:230-246 LocalMetadataStorage::update_status *)
Definition update_status (u : U) (metadata : LocalMetadataItem) (status : St) : MS Obj :=
  get_store u ;;
  item ← in_store (LABEL u) (retrieve_item u metadata);
  on_store (LABEL u) (store_apply u (set_status status (set_item metadata item))) ;;
  in_store (LABEL u) (retrieve_item u metadata).
(* src/crates/fluvio-stream-dispatcher/src/metadata/local.rs:264-280 LocalMetadataStorage::patch_status *)
Definition patch_status (u : U) (metadata : LocalMetadataItem) (status : St) : MS Obj :=
  get_store u ;;
  item ← in_store (LABEL u) (retrieve_item u metadata);
  on_store (LABEL u) (store_apply u (set_status status (set_item metadata item))) ;;
  in_store (LABEL u) (retrieve_item u metadata).
End local.
Arguments SpecPointer : clear implicits.
Arguments SpecUpdate : clear implicits.
Arguments SpecStore : clear implicits.
Arguments LocalMetadataStorage : clear implicits.
