(* ===== verification/LocalMetaLaws.v ===== *)
(** * Metadata in local files is durable

    The storage of [LocalMeta] as an implementation of one map of objects per
    kind: the cache of a kind and the files of its directory both hold that map,
    every operation of a client is a sequence of insertions and removals in
    stores, and a directory that is read again gives the same objects. *)

From S2P Require Import Prelude Names EpochMap MetadataStore LocalMeta.
From stdpp Require Import gmap strings relations.
From Stdlib Require Import Ascii String.

#[local] Open Scope string_scope.
#[local] Open Scope Z_scope.

(** What the kinds and [serde_yaml] document: labels tell the kinds apart, keys
    of valid objects are read as they are written, and what is written as YAML
    is read back. *)
Class MetaOK (U K S St Y : Type) `{!SpecKinds U K S St} `{!Disk U S St Y} := {
  key_valid : U -> K -> Prop;
  label_inj : forall u v, LABEL u = LABEL v -> u = v;
  valid_parse : forall u k, key_valid u k -> key_from_str u (key_to_string k) = Some k;
  valid_nonempty : forall u k, key_valid u k -> key_to_string k <> EmptyString;
  yaml_read : forall u s, from_yaml u (fst (to_yaml u s)) = inl s;
}.
(** The condition of the theorems, which no file system promises: no access to
    a file fails.  What a failure does is in [failed_flush_in_memory] and in
    the definitions' error branches. *)
Class NoAccessFails (U K S St Y : Type) `{!SpecKinds U K S St} `{!Disk U S St Y} `{!MetaOK U K S St Y} := {
  valid_create : forall u k dir, key_valid u k -> can_create (dir, (key_to_string k ++ ".yaml")%string) = None;
  yaml_written : forall u s, snd (to_yaml u s) = None;
  dirs_read : forall dir, can_read_dir dir = None;
  files_listed : forall p, can_list p = true;
  files_open : forall p, can_open p = None;
  files_removed : forall p, can_remove p = true;
}.

(** ** Names of files *)

Lemma append_inj_l a b c : a ++ b = a ++ c -> b = c.
Proof. induction a as [|x a IH]; cbn; [done|]. intros [= E]. by apply IH. Qed.

Lemma append_inj_r a b c : a ++ c = b ++ c -> a = b.
Proof.
  revert b. induction a as [|x a IH]; intros [|y b] E; [done| | |].
  - exfalso. apply (f_equal String.length) in E. rewrite !length_app_string in E. cbn in E. lia.
  - exfalso. apply (f_equal String.length) in E. rewrite !length_app_string in E. cbn in E. lia.
  - injection E as <- E. f_equal. by apply IH.
Qed.

Lemma yaml_extension id : id <> EmptyString -> path_extension (id ++ ".yaml") = Some "yaml".
Proof. intros Hid. unfold path_extension. rewrite rsplit_app by done. by destruct id. Qed.

Section laws.
Context {U K S St Y : Type} `{!EqDecision U} `{!EqDecision S} `{!EqDecision St} `{!SpecKinds U K S St}
  `{!Disk U S St Y} `{!MetaOK U K S St Y} `{!NoAccessFails U K S St Y}.
Notation Obj := (MetadataStoreObject K S St LocalMetadataItem).
Notation Files := (gmap FilePath Y).
Notation Ptr := (SpecPointer U K S St).
Notation Store := (SpecStore U K S St).
Notation Storage := (LocalMetadataStorage U K S St Y).
Notation MS := (ME MetaError Storage).
Implicit Types (u v : U) (o : Obj) (s : Storage) (st : Store) (fs : Files) (m : gmap string Obj) (M : U -> gmap string Obj).

Definition dir_of (root : string) u : string := path_join root (LABEL u).
Definition file_of (root : string) u (id : string) : FilePath := (dir_of root u, id ++ ".yaml").

Lemma dir_of_inj root u v : dir_of root u = dir_of root v -> u = v.
Proof. unfold dir_of, path_join. intros E. by apply label_inj, (append_inj_l "/"), (append_inj_l root). Qed.

(** ** Objects on disk and in memory *)

(** An object kept under a name is of a valid key with that name. *)
Record obj_ok u (id : string) o : Prop := {
  ok_id : item_id (obj_item o) = id;
  ok_key : key_to_string (obj_key o) = id;
  ok_valid : key_valid u (obj_key o);
  ok_revision : in_u 64 (revision (obj_item o));
}.

(** The files of a kind's directory that the storage looks at hold [m]. *)
Record on_disk root u fs m : Prop := {
  disk_file : forall id o, m !! id = Some o ->
    obj_ok u id o /\ fs !! file_of root u id = Some (fst (to_yaml u (storage_of o)));
  disk_only : forall f, is_Some (fs !! (dir_of root u, f)) -> path_extension f = Some "yaml" ->
    exists id, f = id ++ ".yaml" /\ is_Some (m !! id);
}.

(** The cache of a kind holds [m]. *)
Record in_memory root u st m : Prop := {
  mem_objects : inner <$> data st = m;
  mem_pointer : forall id p, data st !! id = Some p -> ptr_type p = u /\ ptr_path p = file_of root u id;
  mem_path : store_path st = dir_of root u;
  mem_version : 0 <= version st < 2 ^ 64;
}.

Record meta_ok s M : Prop := {
  ok_disk : forall u, on_disk (root s) u (files s) (M u);
  ok_memory : forall u st, stores s !! LABEL u = Some st -> in_memory (root s) u st (M u);
  ok_labels : forall l, is_Some (stores s !! l) -> exists u, l = LABEL u;
}.

Definition fn_insert u m M : U -> gmap string Obj := fun v => if decide (v = u) then m else M v.
Lemma fn_insert_eq u m M : fn_insert u m M u = m.
Proof. unfold fn_insert. by rewrite decide_True. Qed.
Lemma fn_insert_ne u v m M : v <> u -> fn_insert u m M v = M v.
Proof. intros. unfold fn_insert. by rewrite decide_False. Qed.

Lemma ok_nonempty u id o : obj_ok u id o -> id <> EmptyString.
Proof. intros [_ <- Hv _]. by eapply valid_nonempty. Qed.

Lemma file_of_ne root u id id' : id <> id' -> file_of root u id <> file_of root u id'.
Proof. intros Hne [= E]. by apply append_inj_r in E. Qed.

(** Other directories are not touched. *)
Lemma on_disk_other root u v fs fs' m :
  u <> v -> (forall p, fst p <> dir_of root u -> fs' !! p = fs !! p) -> on_disk root v fs m -> on_disk root v fs' m.
Proof.
  intros Hne Hf [H1 H2]. assert (forall f, fs' !! (dir_of root v, f) = fs !! (dir_of root v, f)) as Hv.
  { intros f. apply Hf. cbn. intros E. by apply dir_of_inj in E. }
  split.
  - intros id o Ho. destruct (H1 id o Ho) as [Hok Hl]. split; [done|]. unfold file_of. by rewrite Hv.
  - intros f. rewrite Hv. apply H2.
Qed.

Lemma on_disk_insert root u fs m id o :
  obj_ok u id o -> on_disk root u fs m ->
  on_disk root u (<[file_of root u id := fst (to_yaml u (storage_of o))]> fs) (<[id := o]> m).
Proof.
  intros Hok [H1 H2]. split.
  - intros id' o' [[<- <-]|[Hne Ho]]%lookup_insert_Some.
    + split; [done|]. by rewrite lookup_insert_eq.
    + destruct (H1 id' o' Ho). split; [done|]. by rewrite lookup_insert_ne by (by apply file_of_ne).
  - intros f Hf Hext. destruct (decide (file_of root u id = (dir_of root u, f))) as [E|Hne].
    + injection E as <-. exists id. by rewrite lookup_insert_eq.
    + rewrite lookup_insert_ne in Hf by done. destruct (H2 f Hf Hext) as (id' & -> & Hm).
      exists id'. split; [done|]. apply lookup_insert_is_Some'. by right.
Qed.

Lemma on_disk_delete root u fs m id :
  on_disk root u fs m -> on_disk root u (delete (file_of root u id) fs) (delete id m).
Proof.
  intros [H1 H2]. split.
  - intros id' o' [Hne Ho]%lookup_delete_Some. destruct (H1 id' o' Ho). split; [done|].
    by rewrite lookup_delete_ne by (by apply file_of_ne).
  - intros f Hf Hext. destruct (decide (file_of root u id = (dir_of root u, f))) as [E|Hne].
    + rewrite E, lookup_delete_eq in Hf. by destruct Hf.
    + rewrite lookup_delete_ne in Hf by done. destruct (H2 f Hf Hext) as (id' & -> & Hm).
      exists id'. split; [done|]. rewrite lookup_delete_ne; [done|]. by intros <-.
Qed.

(** ** Reading a directory *)

Definition pointer_of root u (id : string) o : Ptr := pointer_new u (file_of root u id) o.

Lemma pointer_load_on_disk root u fs m id o :
  on_disk root u fs m -> m !! id = Some o ->
  pointer_load u (file_of root u id) fs = Ok (id, pointer_of root u id o).
Proof.
  intros [H1 _] Ho. destruct (H1 id o Ho) as [Hok Hf]. unfold pointer_load. rewrite files_open, Hf, yaml_read.
  unfold storage_of, pointer_try_from. cbn [sv_key sv_meta sv_status sv_spec].
  rewrite valid_parse by apply (ok_valid _ _ _ Hok). rewrite (ok_id _ _ _ Hok).
  by destruct o as [? ? ? []].
Qed.

Lemma load_entries_on_disk root u fs m entries acc :
  on_disk root u fs m -> Forall (fun p => fst p = dir_of root u /\ is_Some (fs !! p)) entries ->
  exists acc', load_entries u entries fs acc = Ok acc' /\
    forall id, acc' !! id = if bool_decide (file_of root u id ∈ entries) then
        match m !! id with Some o => Some (pointer_of root u id o) | None => acc !! id end
      else acc !! id.
Proof.
  intros Hd He. revert acc. induction He as [|[d f] entries [Ed Hf] _ IH]; intros acc; [by exists acc|].
  cbn in Ed. subst d. cbn [load_entries snd]. destruct (bool_decide (path_extension f = Some "yaml")) eqn:Ee.
  - apply bool_decide_eq_true in Ee. destruct (disk_only _ _ _ _ Hd f Hf Ee) as (id & -> & o & Ho).
    change (dir_of root u, id ++ ".yaml") with (file_of root u id). rewrite (pointer_load_on_disk _ _ _ _ _ _ Hd Ho).
    destruct (IH (<[id := pointer_of root u id o]> acc)) as (acc' & -> & Hacc). exists acc'. split; [done|].
    intros id'. rewrite Hacc. destruct (decide (id = id')) as [<-|Hne].
    + rewrite lookup_insert_eq, Ho. rewrite (bool_decide_eq_true_2 (_ ∈ _ :: _)) by (by left). by case_bool_decide.
    + rewrite lookup_insert_ne by done. erewrite bool_decide_ext; [done|]. rewrite elem_of_cons.
      split; [by right|]. intros [E|]; [|done]. by apply file_of_ne in E.
  - destruct (IH acc) as (acc' & -> & Hacc). exists acc'. split; [done|]. intros id'. rewrite Hacc.
    destruct (m !! id') as [o|] eqn:Ho; [|by repeat case_bool_decide].
    erewrite bool_decide_ext; [done|]. rewrite elem_of_cons. split; [by right|]. intros [E|]; [|done].
    injection E as <-. destruct (disk_file _ _ _ _ Hd id' o Ho) as [Hok _].
    by rewrite yaml_extension in Ee by (by eapply ok_nonempty).
Qed.

Lemma load_on_disk root u fs m :
  on_disk root u fs m -> exists st, spec_store_load u (dir_of root u) fs = Ok st /\ in_memory root u st m /\
    version st = 0 /\ queue st = [].
Proof.
  intros Hd. unfold spec_store_load. rewrite dirs_read.
  assert (forall p, p ∈ read_dir (dir_of root u) fs <-> fst p = dir_of root u /\ is_Some (fs !! p)) as Hin.
  { intros p. unfold read_dir. rewrite list_elem_of_In, List.filter_In, files_listed, andb_true_r, String.eqb_eq.
    rewrite <-list_elem_of_In. split.
    - intros [([p' y] & -> & Hy)%list_elem_of_fmap Ed]. apply elem_of_map_to_list in Hy. by eauto.
    - intros [Ed [y Hy]]. split; [|done]. apply list_elem_of_fmap. exists (p, y). split; [done|].
      by apply elem_of_map_to_list. }
  destruct (load_entries_on_disk root u fs m (read_dir (dir_of root u) fs) ∅ Hd) as (d & -> & Hlook).
  { apply Forall_forall. intros p Hp. by apply Hin. }
  assert (forall id, d !! id = pointer_of root u id <$> m !! id) as Hlook'.
  { intros id. rewrite Hlook. destruct (m !! id) as [o|] eqn:Ho; [|by case_bool_decide].
    rewrite bool_decide_eq_true_2; [done|]. apply Hin. split; [done|].
    destruct (disk_file _ _ _ _ Hd id o Ho) as [_ ->]. done. }
  eexists. split; [done|]. split_and!; [split|done|done]; cbn.
  - apply map_eq. intros id. rewrite lookup_fmap, Hlook'. by destruct (m !! id).
  - intros id p. rewrite Hlook'. intros (o & _ & ->)%fmap_Some. done.
  - done.
  - lia.
Qed.

(** ** Insertions and removals *)

(** What [apply] makes of the map of a kind. *)
Definition stale o m : option Z :=
  match m !! item_id (obj_item o) with
  | Some prev => if item_is_newer (obj_item prev) (obj_item o) then Some (revision (obj_item prev)) else None
  | None => None
  end.
Definition bumped o m : Obj :=
  match m !! item_id (obj_item o) with
  | Some prev => set_item (with_revision (as_u64 (revision (obj_item prev) + 1)) (obj_item o)) o
  | None => o
  end.
Definition put_spec o m : outcome MetaError unit * gmap string Obj :=
  match stale o m with
  | Some current => (Err (StaleValue current (revision (obj_item o))), m)
  | None => (Ok tt, <[item_id (obj_item o) := bumped o m]> m)
  end.

Lemma bumped_id o m : item_id (obj_item (bumped o m)) = item_id (obj_item o).
Proof. unfold bumped. by case_match. Qed.
Lemma bumped_ok u o m : obj_ok u (item_id (obj_item o)) o -> obj_ok u (item_id (obj_item o)) (bumped o m).
Proof.
  intros [H1 H2 H3 H4]. unfold bumped. case_match; [|done]. split; [done..|].
  cbn. unfold in_u. apply Z.mod_pos_bound. lia.
Qed.

Lemma mem_lookup root u st m id : in_memory root u st m -> data st !! id =
  (fun o => MkPointer u o (default 0 (store_revision <$> data st !! id)) (file_of root u id)) <$> m !! id.
Proof.
  intros [<- Hp _ _]. rewrite lookup_fmap. destruct (data st !! id) as [p|] eqn:E; [|done]. cbn.
  destruct (Hp id p E) as [<- <-]. by destruct p.
Qed.

Lemma insert_flush_eq root u st fs m o :
  in_memory root u st m -> obj_ok u (item_id (obj_item o)) o ->
  let id := item_id (obj_item o) in
  insert_flush u o (st, fs) =
    (Ok (pointer_of root u id o),
     (set_data (<[id := pointer_of root u id o]> (data st)) st,
      <[file_of root u id := fst (to_yaml u (storage_of o))]> fs)).
Proof.
  intros Hm Hok id.
  assert (can_create (dir_of root u, id ++ ".yaml") = None) as Hc.
  { unfold id. rewrite <-(ok_key _ _ _ Hok). apply valid_create with u, (ok_valid _ _ _ Hok). }
  unfold insert_flush, spec_file_name. rewrite (mem_path _ _ _ _ Hm). fold id.
  unfold pointer_flush, storage_try_from, downcast. cbn [ptr_type pointer_new inner]. rewrite decide_True by done.
  cbn [ptr_path pointer_new]. rewrite Hc.
  destruct (to_yaml u (storage_of o)) as [w e] eqn:Ey.
  pose proof (yaml_written u (storage_of o)) as He. rewrite Ey in He. cbn in He. by subst e.
Qed.

Lemma store_apply_eq root u st fs m o :
  in_memory root u st m -> obj_ok u (item_id (obj_item o)) o ->
  let id := item_id (obj_item o) in
  store_apply u o (st, fs) =
    match stale o m with
    | Some current => (Err (StaleValue current (revision (obj_item o))), (st, fs))
    | None =>
        let p := pointer_of root u id (bumped o m) in
        (Ok tt, (send_update (SpecMod p) (set_data (<[id := p]> (data st)) st),
                 <[file_of root u id := fst (to_yaml u (storage_of (bumped o m)))]> fs))
    end.
Proof.
  intros Hm Hok id. pose proof (bumped_ok u o m Hok) as Hb. unfold store_apply, mbind, M_bind, apply_locked.
  rewrite (mem_lookup _ _ _ _ _ Hm). unfold stale. fold id. revert Hb. unfold bumped. fold id.
  destruct (m !! id) as [prev|]; cbn [fmap option_fmap option_map].
  - unfold downcast. cbn [ptr_type inner]. rewrite decide_True by done. intros Hb.
    destruct (item_is_newer (obj_item prev) (obj_item o)); [done|].
    by rewrite (insert_flush_eq root u st fs m).
  - intros _. by rewrite (insert_flush_eq root u st fs m).
Qed.

Lemma store_delete_eq root u st fs m (i : LocalMetadataItem) :
  in_memory root u st m ->
  store_delete_item i (st, fs) =
    match data st !! item_id i with
    | Some p => (Ok tt, (send_update (SpecDelete p) (set_data (delete (item_id i) (data st)) st),
                         delete (file_of root u (item_id i)) fs))
    | None => (Ok tt, (st, fs))
    end.
Proof.
  intros Hm. unfold store_delete_item, delete_locked. destruct (data st !! item_id i) as [p|] eqn:E; [|done].
  unfold pointer_delete. rewrite files_removed. by destruct (mem_pointer _ _ _ _ Hm _ _ E) as [_ ->].
Qed.

Lemma in_memory_send root u st m c : in_memory root u st m -> in_memory root u (send_update c st) m.
Proof. intros [H1 H2 H3 H4]. split; cbn; [done..|]. apply Z.mod_pos_bound. lia. Qed.

Lemma in_memory_insert root u st m id o :
  in_memory root u st m -> in_memory root u (set_data (<[id := pointer_of root u id o]> (data st)) st) (<[id := o]> m).
Proof.
  intros [H1 H2 H3 H4]. split; cbn; [|intros id' p|done..].
  - by rewrite fmap_insert, H1.
  - intros [[<- <-]|[_ Hp]]%lookup_insert_Some; [done|by apply H2].
Qed.

Lemma in_memory_delete root u st m id :
  in_memory root u st m -> in_memory root u (set_data (delete id (data st)) st) (delete id m).
Proof.
  intros [H1 H2 H3 H4]. split; cbn; [|intros id' p|done..].
  - by rewrite fmap_delete, H1.
  - intros [_ Hp]%lookup_delete_Some. by apply H2.
Qed.

(** ** Events *)

Inductive MetaEvent := EvLoad u | EvPut u o | EvDelete u (i : LocalMetadataItem).

(** One event at the storage. *)
Inductive meta_step s : MetaEvent -> Storage -> Prop :=
| step_load u st :
    stores s !! LABEL u = None -> spec_store_load u (dir_of (root s) u) (files s) = Ok st ->
    meta_step s (EvLoad u) (MkStorage (root s) (<[LABEL u := st]> (stores s)) (files s))
| step_put u o :
    is_Some (stores s !! LABEL u) -> obj_ok u (item_id (obj_item o)) o ->
    meta_step s (EvPut u o) (snd (on_store (LABEL u) (store_apply u o) s))
| step_delete u i :
    is_Some (stores s !! LABEL u) ->
    meta_step s (EvDelete u i) (snd (on_store (LABEL u) (store_delete_item i) s)).

(** And what it is at the maps of objects. *)
Definition event_spec (e : MetaEvent) M : U -> gmap string Obj :=
  match e with
  | EvLoad _ => M
  | EvPut u o => fn_insert u (snd (put_spec o (M u))) M
  | EvDelete u i => fn_insert u (delete (item_id i) (M u)) M
  end.

Lemma meta_ok_update s M u st fs m :
  meta_ok s M -> in_memory (root s) u st m -> on_disk (root s) u fs m ->
  (forall p, fst p <> dir_of (root s) u -> fs !! p = files s !! p) ->
  meta_ok (MkStorage (root s) (<[LABEL u := st]> (stores s)) fs) (fn_insert u m M).
Proof.
  intros [H1 H2 H3] Hm Hd Hf. split; cbn.
  - intros v. destruct (decide (v = u)) as [->|Hne]; [by rewrite fn_insert_eq|].
    rewrite fn_insert_ne by done. by apply (on_disk_other _ u v (files s)); [done..|].
  - intros v st' [[E <-]|[Hne Hst]]%lookup_insert_Some.
    + apply label_inj in E as <-. by rewrite fn_insert_eq.
    + rewrite fn_insert_ne; [by apply H2|]. by intros ->.
  - intros l [<-|[_ Hl]]%lookup_insert_is_Some; [by eauto|by apply H3].
Qed.

Lemma lookup_insert_dir root u id (y : Y) fs p : fst p <> dir_of root u -> <[file_of root u id := y]> fs !! p = fs !! p.
Proof. intros Hp. apply lookup_insert_ne. by intros <-. Qed.
Lemma lookup_delete_dir root u id fs p : fst p <> dir_of root u -> delete (file_of root u id) fs !! p = fs !! p.
Proof. intros Hp. apply lookup_delete_ne. by intros <-. Qed.

Lemma meta_ok_ext s M M' : (forall u, M u = M' u) -> meta_ok s M -> meta_ok s M'.
Proof. intros E [H1 H2 H3]. split; [| |done]; intros u; rewrite <-E; [apply H1|apply H2]. Qed.

Lemma fn_insert_same u M v : fn_insert u (M u) M v = M v.
Proof. unfold fn_insert. by case_decide as E; [rewrite E|]. Qed.

(** Every event keeps the cache, the files and the maps the same. *)
Lemma meta_step_ok s M e s' : meta_ok s M -> meta_step s e s' -> meta_ok s' (event_spec e M).
Proof.
  intros Hok Hs. destruct Hs as [u st Hnone Hl|u o [st Hst] Ho|u i [st Hst]]; cbn [event_spec].
  - destruct (load_on_disk (root s) u (files s) (M u)) as (st' & Hl' & Hm & _); [apply Hok|].
    rewrite Hl in Hl'. injection Hl' as <-. eapply meta_ok_ext; [apply (fn_insert_same u)|].
    apply meta_ok_update; [done|done|apply Hok|done].
  - pose proof (ok_memory _ _ Hok u st Hst) as Hm. pose proof (ok_disk _ _ Hok u) as Hd.
    unfold on_store. rewrite Hst, (store_apply_eq _ _ _ _ _ _ Hm Ho). unfold put_spec.
    destruct (stale o (M u)); cbn [snd]; [by apply meta_ok_update|].
    apply meta_ok_update; [done| | |].
    + by apply in_memory_send, in_memory_insert.
    + apply on_disk_insert; [by apply bumped_ok|done].
    + intros p Hp. by apply lookup_insert_dir.
  - pose proof (ok_memory _ _ Hok u st Hst) as Hm. pose proof (ok_disk _ _ Hok u) as Hd.
    unfold on_store. rewrite Hst, (store_delete_eq _ _ _ _ _ _ Hm). rewrite (mem_lookup _ _ _ _ _ Hm).
    destruct (M u !! item_id i) as [o|] eqn:Eo; cbn [fmap option_fmap option_map snd].
    + apply meta_ok_update; [done| | |].
      * by apply in_memory_send, in_memory_delete.
      * by apply on_disk_delete.
      * intros p Hp. by apply lookup_delete_dir.
    + rewrite delete_id by done. by apply meta_ok_update.
Qed.

(** ** Counters below a bound *)

(** The revisions of objects and the versions of stores are below [n]. *)
Record below (n : Z) s M : Prop := {
  below_revision : forall u id o, M u !! id = Some o -> revision (obj_item o) < n;
  below_version : forall u st, stores s !! LABEL u = Some st -> version st < n;
}.
Definition event_below (n : Z) (e : MetaEvent) : Prop :=
  match e with EvPut _ o => revision (obj_item o) < n | _ => True end.

Lemma below_mono n n' s M : n <= n' -> below n s M -> below n' s M.
Proof.
  intros Hn [H1 H2]. split; intros.
  - eapply Z.lt_le_trans; [by eapply H1|done].
  - eapply Z.lt_le_trans; [by eapply H2|done].
Qed.

Lemma below_update n s M u st fs m :
  below n s M -> version st < n -> (forall id o, m !! id = Some o -> revision (obj_item o) < n) ->
  below n (MkStorage (root s) (<[LABEL u := st]> (stores s)) fs) (fn_insert u m M).
Proof.
  intros [H1 H2] Hv Hm. split.
  - intros v id o. destruct (decide (v = u)) as [->|Hne]; [rewrite fn_insert_eq; apply Hm|].
    rewrite fn_insert_ne by done. apply H1.
  - cbn. intros v st' [[_ <-]|[_ Hst]]%lookup_insert_Some; [done|by eapply H2].
Qed.

Lemma below_ext n s M M' : (forall u, M u = M' u) -> below n s M -> below n s M'.
Proof. intros E [H1 H2]. split; [|done]. intros u. rewrite <-E. apply H1. Qed.

Lemma send_version n c st : 0 <= version st -> version st < n -> n < 2 ^ 64 -> version (send_update c st) = version st + 1.
Proof. intros. cbn. apply wrap_u_id. unfold in_u. lia. Qed.

Lemma bumped_revision n o m :
  (forall id p, m !! id = Some p -> 0 <= revision (obj_item p) < n) -> n < 2 ^ 64 -> revision (obj_item o) < n ->
  revision (obj_item (bumped o m)) =
    match m !! item_id (obj_item o) with Some prev => revision (obj_item prev) + 1 | None => revision (obj_item o) end.
Proof.
  intros Hm Hn Ho. unfold bumped. destruct (m !! _) as [prev|] eqn:E; [|done]. cbn.
  apply wrap_u_id. destruct (Hm _ _ E). unfold in_u. lia.
Qed.

Lemma meta_revisions s M u n id p :
  meta_ok s M -> below n s M -> M u !! id = Some p -> 0 <= revision (obj_item p) < n.
Proof.
  intros Hok Hb Hp. destruct (disk_file _ _ _ _ (ok_disk _ _ Hok u) id p Hp) as [[_ _ _ Hr] _].
  split; [apply Hr|by eapply below_revision].
Qed.

(** An event raises the bound by one. *)
Lemma meta_step_below n s M e s' :
  meta_ok s M -> below n s M -> 0 <= n < 2 ^ 64 -> event_below n e -> meta_step s e s' -> below (n + 1) s' (event_spec e M).
Proof.
  intros Hok Hb Hn He Hs. assert (below (n + 1) s M) as Hb1 by (eapply below_mono, Hb; lia).
  destruct Hs as [u st Hnone Hl|u o [st Hst] Ho|u i [st Hst]]; cbn [event_spec].
  - destruct (load_on_disk (root s) u (files s) (M u)) as (st' & Hl' & Hm & Hv & _); [apply Hok|].
    rewrite Hl in Hl'. injection Hl' as <-. eapply below_ext; [apply (fn_insert_same u)|].
    apply below_update; [done|lia|apply Hb1].
  - pose proof (ok_memory _ _ Hok u st Hst) as Hm. pose proof (below_version _ _ _ Hb u st Hst) as Hv.
    pose proof (mem_version _ _ _ _ Hm) as Hv0.
    unfold on_store. rewrite Hst, (store_apply_eq _ _ _ _ _ _ Hm Ho). unfold put_spec.
    destruct (stale o (M u)); cbn [snd]; [apply below_update; [done|lia|apply Hb1]|].
    apply below_update; [done|rewrite (send_version n); cbn; lia|].
    intros id p [[_ <-]|[_ Hp]]%lookup_insert_Some; [|by eapply below_revision].
    rewrite (bumped_revision n); [|intros; by eapply meta_revisions|lia|done].
    destruct (M u !! _) as [prev|] eqn:Ep; [|cbn in He; lia]. pose proof (below_revision _ _ _ Hb _ _ _ Ep). lia.
  - pose proof (ok_memory _ _ Hok u st Hst) as Hm. pose proof (below_version _ _ _ Hb u st Hst) as Hv.
    pose proof (mem_version _ _ _ _ Hm) as Hv0.
    unfold on_store. rewrite Hst, (store_delete_eq _ _ _ _ _ _ Hm).
    assert (forall id p, delete (item_id i) (M u) !! id = Some p -> revision (obj_item p) < n + 1) as Hd.
    { intros id p [_ Hp]%lookup_delete_Some. by eapply below_revision. }
    destruct (data st !! item_id i) as [p|]; cbn [snd]; apply below_update; try done; [|lia].
    rewrite (send_version n); cbn; lia.
Qed.

(** ** Operations of clients are sequences of events *)

Definition well (n : Z) s : Prop := exists M, meta_ok s M /\ below n s M.
(** An event of which no counter leaves its type. *)
Definition safe_step s s' : Prop := exists e n, meta_step s e s' /\ well n s /\ event_below n e /\ 0 <= n < 2 ^ 64.
Definition loaded u s : Prop := is_Some (stores s !! LABEL u).

Lemma well_mono n n' s : n <= n' -> well n s -> well n' s.
Proof. intros Hn (M & Hok & Hb). exists M. split; [done|by eapply below_mono]. Qed.

(** [m] runs without a panic as at most [k] events, and ends in [Q] if it
    returns; [n] bounds the counters. *)
Definition triple {A} (k : nat) (P : Z -> Storage -> Prop) (m : MS A) (Q : A -> Z -> Storage -> Prop) : Prop :=
  forall n s, 0 <= n -> n + Z.of_nat k <= 2 ^ 64 -> well n s -> P n s ->
    bsteps safe_step k s (snd (m s)) /\ well (n + Z.of_nat k) (snd (m s)) /\
    match fst (m s) with Ok a => Q a (n + Z.of_nat k) (snd (m s)) | Err _ => True | Panic => False end.

(** What every event keeps, a sequence of them keeps. *)
Lemma bsteps_keep (P : Storage -> Prop) n s s' :
  (forall s s', safe_step s s' -> P s -> P s') -> bsteps safe_step n s s' -> P s -> P s'.
Proof. intros HP. induction 1 as [|n s1 s2 s3 He _ IH]; [done|]. intros H1. by eapply IH, HP. Qed.

Lemma meta_step_root s e s' : meta_step s e s' -> root s' = root s.
Proof.
  destruct 1 as [u st _ _|u o [st Hst] _|u i [st Hst]]; [done|..]; unfold on_store; rewrite Hst.
  - by destruct (store_apply u o (st, files s)) as [r []].
  - by destruct (store_delete_item i (st, files s)) as [r []].
Qed.

Lemma meta_step_loaded v s e s' : meta_step s e s' -> loaded v s -> loaded v s'.
Proof.
  assert (forall l (st : Store) (fs : Files), loaded v s -> loaded v (MkStorage (root s) (<[l := st]> (stores s)) fs)) as Hi.
  { intros l st fs Hv. unfold loaded. cbn. apply lookup_insert_is_Some'. by right. }
  destruct 1 as [u st _ _|u o [st Hst] _|u i [st Hst]]; [apply Hi|..]; unfold on_store; rewrite Hst.
  - destruct (store_apply u o (st, files s)) as [r []]. apply Hi.
  - destruct (store_delete_item i (st, files s)) as [r []]. apply Hi.
Qed.
Lemma bsteps_loaded v n s s' : bsteps safe_step n s s' -> loaded v s -> loaded v s'.
Proof. apply bsteps_keep. intros s1 s2 (e & k & He & _). by eapply meta_step_loaded. Qed.

(** *** Rules *)

Lemma triple_ret {A} (a : A) (Q : A -> Z -> Storage -> Prop) : triple 0 (Q a) (mret a) Q.
Proof. intros n s Hn Hk Hw HP. rewrite Z.add_0_r. split; [apply bsteps_refl|done]. Qed.
Lemma triple_weaken {A} k k' (P P' : Z -> Storage -> Prop) (m : MS A) (Q Q' : A -> Z -> Storage -> Prop) :
  triple k P m Q -> (k <= k')%nat -> (forall n s, P' n s -> P n s) ->
  (forall a n n' s, n <= n' -> Q a n s -> Q' a n' s) -> triple k' P' m Q'.
Proof.
  intros Hm Hk HP HQ n s Hn Hnk Hw HP'. destruct (Hm n s) as (Hs & Hw' & Hr); [done|lia|done|by apply HP|].
  split_and!; [by eapply bsteps_weaken|eapply well_mono, Hw'; lia|].
  destruct (fst (m s)); [|done|done]. eapply HQ, Hr. lia.
Qed.
Lemma triple_bind {A B} k1 k2 P (m : MS A) Q (f : A -> MS B) R :
  triple k1 P m Q -> (forall a, triple k2 (Q a) (f a) R) -> triple (k1 + k2) P (m ≫= f) R.
Proof.
  intros Hm Hf n s Hn Hk Hw HP. rewrite Nat2Z.inj_add, Z.add_assoc in *.
  destruct (Hm n s) as (Hs & Hw' & Hr); [lia|lia|done..|]. unfold mbind, M_bind.
  destruct (m s) as [[a|e|] s1]; cbn in *; [| |done].
  - destruct (Hf a (n + Z.of_nat k1) s1) as (Hs' & Hw2 & Hr'); [lia|lia|done..|].
    split_and!; [by eapply bsteps_trans|done..].
  - split_and!; [eapply bsteps_weaken; [|done]; lia|eapply well_mono, Hw'; lia|done].
Qed.
Lemma triple_exists {A B} k (P : B -> Z -> Storage -> Prop) (m : MS A) Q :
  (forall b, triple k (P b) m Q) -> triple k (fun n s => exists b, P b n s) m Q.
Proof. intros Hm n s Hn Hk Hw [b HP]. by apply (Hm b). Qed.
Lemma triple_pure {A} (phi : Prop) k P (m : MS A) Q :
  (phi -> triple k P m Q) -> triple k (fun n s => P n s /\ phi) m Q.
Proof. intros Hm n s Hn Hk Hw [HP Hphi]. by apply (Hm Hphi). Qed.
(** A kind once loaded stays so. *)
Lemma triple_frame {A} v k P (m : MS A) Q :
  triple k P m Q -> triple k (fun n s => P n s /\ loaded v s) m (fun a n s => Q a n s /\ loaded v s).
Proof.
  intros Hm n s Hn Hk Hw [HP Hv]. destruct (Hm n s) as (Hs & Hw' & Hr); [done..|]. split_and!; [done|done|].
  destruct (fst (m s)); [|done|done]. split; [done|]. by eapply bsteps_loaded.
Qed.
Lemma triple_for_each {A} (cost : A -> nat) (f : A -> MS unit) (l : list A) (P : Z -> Storage -> Prop) :
  (forall a, triple (cost a) P (f a) (fun _ => P)) -> triple (sum_list_with cost l) P (for_each f l) (fun _ => P).
Proof.
  intros Hf. induction l as [|a l IH]; [apply (triple_ret tt (fun _ => P))|]. cbn.
  eapply triple_bind; [apply Hf|]. by intros [].
Qed.
(** An operation that is one event. *)
Lemma triple_event (m : MS unit) P (e : MetaEvent) (Q : Storage -> Prop) :
  (forall n s M, meta_ok s M -> P n s -> event_below n e /\ meta_step s e (snd (m s)) /\ Q (snd (m s)) /\ fst (m s) <> Panic) ->
  triple 1 P m (fun _ _ => Q).
Proof.
  intros Hm n s Hn Hk (M & Hok & Hb) HP. destruct (Hm n s M Hok HP) as (He & Hs & HQ & Hp).
  assert (0 <= n < 2 ^ 64) as Hn' by lia. split_and!.
  - apply bsteps_once. exists e, n. split_and!; [done|by exists M|done|lia|lia].
  - exists (event_spec e M). split; [by eapply meta_step_ok|by eapply meta_step_below].
  - by destruct (fst (m s)).
Qed.

(** *** Operations on stores *)

Notation is_loaded u := (fun (_ : Z) => loaded u).
Definition anything (_ : Z) (_ : Storage) : Prop := True.

Lemma triple_get_store u : triple 1 anything (get_store u) (fun _ => is_loaded u).
Proof.
  intros n s Hn Hk Hw _. destruct (stores s !! LABEL u) as [st|] eqn:Hst.
  - unfold get_store. rewrite Hst. split_and!; [apply bsteps_refl|eapply well_mono, Hw; lia|by exists st].
  - revert n s Hn Hk Hw Hst. apply (triple_event _ (fun _ s => stores s !! LABEL u = None) (EvLoad u) (loaded u)).
    intros n s M Hok Hst. unfold get_store. rewrite Hst.
    destruct (load_on_disk (root s) u (files s) (M u)) as (st & Hl & _); [apply Hok|].
    fold (dir_of (root s) u). rewrite Hl. cbn. split_and!; [done|by apply step_load| |done].
    exists st. cbn. by rewrite lookup_insert_eq.
Qed.

Lemma triple_get_store_by_key key :
  triple 0 anything (get_store_by_key key) (fun _ _ s => exists u, loaded u s /\ key = LABEL u).
Proof.
  intros n s Hn Hk Hw _. rewrite Z.add_0_r. unfold get_store_by_key.
  destruct (stores s !! key) as [st|] eqn:Hst; (split_and!; [apply bsteps_refl|done|]); [|done].
  destruct Hw as (M & Hok & _). destruct (ok_labels _ _ Hok key) as [u ->]; [done|]. exists u. split; [by exists st|done].
Qed.

Lemma retrieve_ok s M u st (i : LocalMetadataItem) :
  meta_ok s M -> stores s !! LABEL u = Some st -> try_retrieve_item u i st = Ok (M u !! item_id i).
Proof.
  intros Hok Hst. unfold try_retrieve_item. rewrite (mem_lookup _ _ _ _ _ (ok_memory _ _ Hok u st Hst)).
  destruct (M u !! item_id i); [|done]. cbn. unfold downcast. cbn. by rewrite decide_True.
Qed.

(** The objects of a kind all satisfy [phi]. *)
Definition stored u (phi : Obj -> Prop) s : Prop :=
  forall st id p, stores s !! LABEL u = Some st -> data st !! id = Some p -> phi (inner p).

Lemma stored_lookup s M u st id o (phi : Obj -> Prop) :
  meta_ok s M -> stores s !! LABEL u = Some st -> stored u phi s -> M u !! id = Some o -> phi o.
Proof.
  intros Hok Hst Hphi Ho. pose proof (mem_lookup _ _ _ _ id (ok_memory _ _ Hok u st Hst)) as Hp.
  rewrite Ho in Hp. by apply (Hphi st id _ Hst Hp).
Qed.

(** An object that has been found. *)
Definition found_ok u (i : LocalMetadataItem) o (n : Z) : Prop := obj_ok u (item_id i) o /\ revision (obj_item o) < n.

Lemma triple_try_retrieve u i (phi : Obj -> Prop) :
  triple 0 (fun _ s => loaded u s /\ stored u phi s) (in_store (LABEL u) (try_retrieve_item u i))
    (fun r n s => loaded u s /\ forall o, r = Some o -> found_ok u i o n /\ phi o).
Proof.
  intros n s Hn Hk Hw [[st Hst] Hphi]. rewrite Z.add_0_r. unfold in_store. rewrite Hst.
  split_and!; [apply bsteps_refl|done|]. destruct Hw as (M & Hok & Hb). cbn. rewrite (retrieve_ok _ _ _ _ _ Hok Hst).
  split; [by exists st|]. intros o Ho. split; [|by eapply stored_lookup].
  split; [by apply (disk_file _ _ _ _ (ok_disk _ _ Hok u))|by eapply below_revision].
Qed.
Lemma triple_retrieve u i :
  triple 0 (is_loaded u) (in_store (LABEL u) (retrieve_item u i)) (fun o n s => loaded u s /\ found_ok u i o n).
Proof.
  intros n s Hn Hk Hw [st Hst]. rewrite Z.add_0_r. unfold in_store. rewrite Hst.
  split_and!; [apply bsteps_refl|done|]. destruct Hw as (M & Hok & Hb). cbn. unfold retrieve_item.
  rewrite (retrieve_ok _ _ _ _ _ Hok Hst). destruct (M u !! item_id i) as [o|] eqn:Eo; [|done].
  split; [by exists st|]. split; [by apply (disk_file _ _ _ _ (ok_disk _ _ Hok u))|by eapply below_revision].
Qed.

Lemma triple_apply u o :
  obj_ok u (item_id (obj_item o)) o ->
  triple 1 (fun n s => loaded u s /\ revision (obj_item o) < n) (on_store (LABEL u) (store_apply u o)) (fun _ => is_loaded u).
Proof.
  intros Ho. apply triple_event with (EvPut u o). intros n s M Hok [Hl Hr].
  assert (meta_step s (EvPut u o) (snd (on_store (LABEL u) (store_apply u o) s))) as Hstep by (by apply step_put).
  split_and!; [done|done|by eapply meta_step_loaded|]. destruct Hl as [st Hst]. unfold on_store. rewrite Hst.
  rewrite (store_apply_eq _ _ _ _ _ _ (ok_memory _ _ Hok u st Hst) Ho). by destruct (stale o (M u)).
Qed.
Lemma triple_delete u i : triple 1 (is_loaded u) (on_store (LABEL u) (store_delete_item i)) (fun _ => is_loaded u).
Proof.
  apply triple_event with (EvDelete u i). intros n s M Hok Hl.
  assert (meta_step s (EvDelete u i) (snd (on_store (LABEL u) (store_delete_item i) s))) as Hstep by (by apply step_delete).
  split_and!; [done|done|by eapply meta_step_loaded|]. destruct Hl as [st Hst]. unfold on_store. rewrite Hst.
  rewrite (store_delete_eq _ _ _ _ _ _ (ok_memory _ _ Hok u st Hst)). by destruct (data st !! item_id i).
Qed.

(** *** Operations of clients *)

Definition any_state {A} (_ : A) (_ : Z) (_ : Storage) : Prop := True.
Definition children_count o : nat :=
  match item_children (obj_item o) with
  | Some all => sum_list_with (fun kv => List.length (snd kv)) (map_to_list all)
  | None => 0
  end.

Lemma sum_list_const {A} (l : list A) : sum_list_with (fun _ => 1%nat) l = List.length l.
Proof. induction l as [|a l IH]; cbn; [done|]. by rewrite IH. Qed.

Lemma triple_delete_children o : triple (children_count o) anything (delete_children o) any_state.
Proof.
  unfold delete_children, children_count.
  destruct (item_children (obj_item o)) as [all|]; [|by apply (triple_ret tt any_state)].
  eapply triple_weaken; [apply triple_for_each with (cost := fun kv => List.length (snd kv)) (P := anything)|done..].
  intros [kind children]. apply (triple_bind 0 (List.length children) _ _ _ _ _ (triple_get_store_by_key kind)). intros [].
  apply triple_exists. intros u. apply triple_pure. intros ->. rewrite <-sum_list_const.
  eapply triple_weaken; [apply triple_for_each with (P := is_loaded u)|done..]. intros i. apply triple_delete.
Qed.

Lemma triple_change_parent u change parent child :
  (forall l c i, item_id (change l c i) = item_id i /\ revision (change l c i) = revision i) ->
  triple 2 anything (change_parent u change parent child) any_state.
Proof.
  intros Hc. unfold change_parent. apply (triple_bind 1 1 _ _ _ _ _ (triple_get_store _)). intros [].
  apply (triple_bind 0 1 _ _ _ _ _ (triple_retrieve _ _)). intros o.
  destruct (Hc (LABEL u) (without_parent child) (obj_item o)) as [E1 E2].
  apply triple_weaken with (k := 1%nat) (P := fun n s => (loaded (Owner u) s /\ revision (obj_item o) < n) /\ obj_ok (Owner u) (item_id parent) o)
    (Q := fun _ => is_loaded (Owner u)); [|done|by intros n s (? & ? & ?)|done].
  apply triple_pure. intros [H1 H2 H3 H4]. rewrite <-E2.
  refine (triple_apply _ (set_item (change (LABEL u) (without_parent child) (obj_item o)) o) _).
  split; cbn [obj_item set_item obj_ctx ctx_item obj_key]; [done| |done|by rewrite E2].
  by rewrite E1, H1.
Qed.
Lemma triple_link u parent child : triple 2 anything (link_parent u parent child) any_state.
Proof. by apply triple_change_parent. Qed.
Lemma triple_unlink u parent child : triple 2 anything (unlink_parent u parent child) any_state.
Proof. by apply triple_change_parent. Qed.

(** [get_store] of a loaded kind, and then the lookup of an object. *)
Lemma triple_find u i (phi : Obj -> Prop) {A} k (f : option Obj -> MS A) (P : Z -> Prop) Q :
  (forall n n', n <= n' -> P n -> P n') ->
  (forall r, triple k (fun n s => (loaded u s /\ P n) /\ forall o, r = Some o -> found_ok u i o n /\ phi o) (f r) Q) ->
  triple (1 + k) (fun n s => (loaded u s /\ stored u phi s) /\ P n)
    (get_store u ;; found ← in_store (LABEL u) (try_retrieve_item u i); f found) Q.
Proof.
  intros HP Hf. apply (triple_bind 1 k _ _ (fun _ n s => (loaded u s /\ stored u phi s) /\ P n)).
  - intros n s Hn Hk Hw [[[st Hst] Hphi] Hp]. unfold get_store. rewrite Hst.
    split_and!; [apply bsteps_refl|eapply well_mono, Hw; lia|]. split; [|by eapply HP, Hp; lia]. split; [by exists st|done].
  - intros []. apply (triple_bind 0 k _ _ (fun r n s => (loaded u s /\ P n) /\ forall o, r = Some o -> found_ok u i o n /\ phi o)); [|done].
    intros n s Hn Hk Hw [Hl Hp]. destruct (triple_try_retrieve u i phi n s Hn Hk Hw Hl) as (H1 & H2 & H3).
    split_and!; [done..|]. destruct (fst _) as [r| |]; [|done|done]. destruct H3 as [H3 H4]. by rewrite Z.add_0_r in *.
Qed.

Definition no_bound (_ : Z) : Prop := True.
#[local] Hint Unfold any_state anything no_bound : core.

Lemma triple_delete_item u i c :
  triple (4 + c) (fun _ s => loaded u s /\ stored u (fun o => (children_count o <= c)%nat) s) (delete_item u i) any_state.
Proof.
  unfold delete_item. eapply triple_weaken; [apply (triple_find u i (fun o => (children_count o <= c)%nat) (3 + c) _ no_bound any_state)|done|done|done]; [done|].
  intros [o|]; [|eapply triple_weaken; [apply (triple_ret tt any_state)|lia|done..]].
  apply triple_weaken with (k := (3 + c)%nat) (P := fun _ s => loaded u s /\ (children_count o <= c)%nat) (Q := any_state);
    [|done|intros n s [[Hl _] Ho]; by destruct (Ho o eq_refl)|done].
  apply triple_pure. intros Hc. apply (triple_bind 2 (1 + c) _ _ (fun _ => is_loaded u)).
  { destruct (item_owner (obj_item o)) as [owner|].
    - eapply triple_weaken; [apply (triple_frame u), triple_unlink|done|done|by intros ? ? ? ? _ [_ ?]].
    - eapply triple_weaken; [apply (triple_ret tt (fun _ => is_loaded u))|lia|done..]. }
  intros []. replace (1 + c)%nat with (c + 1)%nat by lia. apply (triple_bind c 1 _ _ (fun _ => is_loaded u)).
  { eapply triple_weaken; [apply (triple_frame u), triple_delete_children|done|done|by intros ? ? ? ? _ [_ ?]]. }
  intros []. eapply triple_weaken; [apply triple_delete|done..].
Qed.

Lemma triple_client_apply u o :
  key_valid u (obj_key o) -> in_u 64 (revision (obj_item o)) ->
  triple 4 (fun n _ => revision (obj_item o) < n) (client_apply u o) any_state.
Proof.
  intros Hk Hr. unfold client_apply. apply (triple_bind 1 3 _ _ (fun _ n s => loaded u s /\ revision (obj_item o) < n)).
  { intros n s Hn Hnk Hw Hb. destruct (triple_get_store u n s Hn Hnk Hw I) as (H1 & H2 & H3). split_and!; [done..|].
    destruct (fst _); [|done|done]. split; [done|lia]. }
  intros []. cbv zeta. set (o' := set_item _ o).
  assert (obj_ok u (item_id (obj_item o')) o') as Ho' by done.
  apply (triple_bind 1 2 _ _ _ _ _ (triple_apply u o' Ho')). intros []. destruct (item_owner _) as [owner|].
  - eapply triple_weaken; [apply triple_link|done..].
  - eapply triple_weaken; [apply (triple_ret tt any_state)|lia|done..].
Qed.

Lemma triple_update_spec u i k spec :
  item_id i = key_to_string k -> key_valid u k -> in_u 64 (revision i) ->
  triple 2 (fun n s => loaded u s /\ revision i < n) (update_spec u i spec) any_state.
Proof.
  intros Hi Hk Hr. unfold update_spec.
  eapply triple_weaken; [apply (triple_find u i (fun _ => True) 1 _ (fun n => revision i < n) any_state)|done|by intros n s []|done]; [lia|].
  intros found. apply (triple_bind 0 1 _ _ (fun o n s => (loaded u s /\ revision (obj_item o) < n) /\ obj_ok u (item_id (obj_item o)) o)).
  - intros n s Hn Hnk Hw [[Hl Hb] Ho]. rewrite Z.add_0_r. destruct found as [o|].
    + split_and!; [apply bsteps_refl|done|]. split; [done|]. by destruct (Ho o eq_refl) as [[[H1 H2 H3 H4] _] _].
    + rewrite Hi, valid_parse by done. split_and!; [apply bsteps_refl|done|]. by split.
  - intros o. apply triple_pure. intros Hok. by eapply triple_weaken; [apply triple_apply|..].
Qed.

Lemma triple_update_spec_by_key u k spec :
  key_valid u k -> triple 2 (fun n s => loaded u s /\ 0 < n) (update_spec_by_key u k spec) any_state.
Proof.
  intros Hk. unfold update_spec_by_key.
  eapply triple_weaken; [apply (triple_find u (item_new (key_to_string k)) (fun _ => True) 1 _ (fun n => 0 < n) any_state)|done|by intros n s []|done]; [lia|].
  intros found. set (o := match found with Some item => _ | None => _ end).
  apply triple_weaken with (k := 1%nat) (P := fun n s => (loaded u s /\ revision (obj_item o) < n) /\ obj_ok u (item_id (obj_item o)) o)
    (Q := fun _ => is_loaded u); [|done| |done].
  - apply triple_pure. apply triple_apply.
  - intros n s [[Hl Hp] Ho]. destruct found as [p|]; [|by split].
    destruct (Ho p eq_refl) as [[[H1 H2 H3 H4] Hb] _]. split; [done|]. by rewrite <-H1 in H2.
Qed.

Lemma triple_update_status u i status :
  in_u 64 (revision i) ->
  triple 2 (fun n s => loaded u s /\ revision i < n) (update_status u i status) (fun o n s => found_ok u i o n).
Proof.
  intros Hr. unfold update_status. apply (triple_bind 1 1 _ _ (fun _ n s => loaded u s /\ revision i < n)).
  { intros n s Hn Hnk Hw [Hl Hb]. destruct (triple_get_store u n s Hn Hnk Hw I) as (H1 & H2 & H3). split_and!; [done..|].
    destruct (fst _); [|done|done]. split; [done|lia]. }
  intros []. apply (triple_bind 0 1 _ _ (fun o n s => (loaded u s /\ revision i < n) /\ obj_ok u (item_id i) o)).
  { intros n s Hn Hnk Hw [Hl Hb]. destruct (triple_retrieve u i n s Hn Hnk Hw Hl) as (H1 & H2 & H3). split_and!; [done..|].
    destruct (fst _); [|done|done]. destruct H3 as [H3 [H4 _]]. split; [|done]. split; [done|lia]. }
  intros o. apply (triple_bind 1 0 _ _ (fun _ => is_loaded u)).
  - apply triple_pure. intros [H1 H2 H3 H4]. by refine (triple_apply u (set_status status (set_item i o)) _).
  - intros []. by eapply triple_weaken; [apply triple_retrieve| | |intros ? ? ? ? ? [_ [? ?]]; split; [|lia]].
Qed.
End laws.
