(* ===== verification/Dispatch.v ===== *)
(** * Dispatch of metadata

    [fluvio-stream-dispatcher]: the dispatcher of a kind keeps the controller's
    store of it in step with the metadata storage ([dispatcher/metadata.rs]),
    and carries out the actions that controllers and the admin API send
    ([store/mod.rs]).  The storage is that of [LocalMeta]. *)

From S2P Require Import Prelude Names EpochMap MetadataStore ScPartitions LocalMeta LocalMetaLaws.
From stdpp Require Import gmap strings relations.
From Stdlib Require Import Ascii String.

#[local] Open Scope string_scope.
#[local] Open Scope Z_scope.

(** [str::contains] *)
Definition str_contains (sub s : string) : bool :=
  match String.index 0 sub s with Some _ => true | None => false end.

Section dispatch.
Context {U K S St Y : Type} `{!EqDecision U} `{Countable K} `{!EqDecision S} `{!EqDecision St} `{!SpecKinds U K S St}
  `{!Disk U S St Y}.
Notation Obj := (MetadataStoreObject K S St LocalMetadataItem).
Notation Storage := (LocalMetadataStorage U K S St Y).
Notation Ctx := (LocalStore K S St LocalMetadataItem).
Notation WSAction := (WSAction K S St LocalMetadataItem).

Definition ctx_get (key : K) (ctx : Ctx) : option Obj := dual_inner <$> values (store ctx) !! key.

(** Errors are only logged. *)
(* src/crates/fluvio-stream-dispatcher/src/dispatcher/metadata.rs:195-309 MetadataDispatcher::process_ws_action *)
Definition process_ws_action (u : U) (action : WSAction) (st : Storage * Ctx) : Storage * Ctx :=
  let '(s, ctx) := st in
  match action with
  | Apply obj => (snd (client_apply u obj s), ctx)
  | UpdateSpec key spec =>
      match ctx_get key ctx with
      | Some obj => (snd (update_spec u (obj_item obj) spec s), ctx)
      | None => (snd (update_spec_by_key u key spec s), ctx)
      end
  | UpdateStatus key status =>
      match ctx_get key ctx with
      | Some obj =>
          let meta := obj_item obj in
          match update_status u meta status s with
          | (Ok updated_item, s) => (s, snd (apply_changes [UpdateMod updated_item] ctx))
          | (Err err, s) =>
              if str_contains "409" (error_text err) then (snd (patch_status u meta status s), ctx) else (s, ctx)
          | (Panic, s) => (s, ctx)
          end
      | None => (s, ctx)
      end
  | DeleteAction key =>
      match ctx_get key ctx with
      | Some obj => (snd (delete_item u (obj_item obj) s), ctx)
      | None => (s, ctx)
      end
  | DeleteFinal key =>
      match ctx_get key ctx with
      | Some obj => (snd (finalize_delete_item u (obj_item obj) s), ctx)
      | None => (s, ctx)
      end
  end.

(* src/crates/fluvio-stream-dispatcher/src/dispatcher/metadata.rs:169-192 MetadataDispatcher::retrieve_all_k8_items *)
Definition retrieve_all_k8_items (u : U) (st : Storage * Ctx) : outcome MetaError string * (Storage * Ctx) :=
  let '(s, ctx) := st in
  match retrieve_items u s with
  | (Ok (version, items), s) => (Ok version, (s, snd (sync_all items ctx)))
  | (Err e, s) => (Err e, (s, ctx))
  | (Panic, s) => (Panic, (s, ctx))
  end.

(** A dispatcher whose loop runs: the store of the kind and the version its
    stream began with. *)
(* src/crates/fluvio-stream-dispatcher/src/dispatcher/metadata.rs:36-45 MetadataDispatcher *)
Record Dispatcher := MkDispatcher { d_ctx : Ctx; d_since : option Z }.

(** The reconciliation loop: how it begins, and what it does with an element
    of the stream.  An error of the stream is logged. *)
Definition begin_reconciliation (u : U) (st : Storage * Ctx) : outcome MetaError (option Z) * (Storage * Ctx) :=
  match retrieve_all_k8_items u st with
  | (Ok version, st) => (watch_since (Some version), st)
  | (Err e, st) => (Err e, st)
  | (Panic, st) => (Panic, st)
  end.
Definition set_queue (u : U) (q : list (SpecUpdate U K S St)) (s : Storage) : Storage :=
  match stores s !! LABEL u with
  | Some st => MkStorage (root s) (<[LABEL u := MkSpecStore (version st) (data st) q (store_path st)]> (stores s)) (files s)
  | None => s
  end.
Definition stream_event (u : U) (update : SpecUpdate U K S St) (ctx : Ctx) : Ctx :=
  match into_ls_update u update with
  | Ok change => snd (apply_changes [change] ctx)
  | _ => ctx
  end.
(** What the [select] can do in a turn; the timer begins a new loop. *)
Inductive Turn := TurnTimer | TurnStream | TurnAction (action : WSAction).
(** [None] when the branch is not ready. *)
(* src/crates/fluvio-stream-dispatcher/src/dispatcher/metadata.rs:104-163 MetadataDispatcher::reconcillation_loop *)
Definition dispatcher_turn (u : U) (turn : Turn) (st : Storage * Dispatcher) : option (Storage * Dispatcher) :=
  let '(s, d) := st in
  match turn with
  | TurnTimer =>
      match begin_reconciliation u (s, d_ctx d) with
      | (Ok since, (s, ctx)) => Some (s, MkDispatcher ctx since)
      | (_, (s, ctx)) => None
      end
  | TurnStream =>
      match stores s !! LABEL u with
      | Some store =>
          match watch_next (d_since d) (queue store) with
          | (Some update, q) => Some (set_queue u q s, MkDispatcher (stream_event u update (d_ctx d)) (d_since d))
          | (None, q) => None
          end
      | None => None
      end
  | TurnAction action =>
      let '(s, ctx) := process_ws_action u action (s, d_ctx d) in
      Some (s, MkDispatcher ctx (d_since d))
  end.

End dispatch.
Arguments Turn : clear implicits.
Arguments Dispatcher K S St {_ _}.
