(* ===== verification/DispatchLaws.v ===== *)
(** * Controllers see the metadata that is stored

    The dispatchers of all kinds, the metadata storage they share and restarts
    of the process: whatever the actions and their order, a dispatcher that has
    read what its channel holds has exactly the objects of the storage. *)

From S2P Require Import Prelude Names EpochMap MetadataStore ScPartitions LocalMeta LocalMetaLaws Dispatch.
From stdpp Require Import gmap strings relations.
From Stdlib Require Import Ascii String.

#[local] Open Scope string_scope.
#[local] Open Scope Z_scope.

Section laws.
Context {U K S St Y : Type} `{!EqDecision U} `{Countable K} `{!EqDecision S} `{!EqDecision St} `{!SpecKinds U K S St}
  `{!Disk U S St Y} `{!MetaOK U K S St Y} `{!NoAccessFails U K S St Y}.
Notation Obj := (MetadataStoreObject K S St LocalMetadataItem).
Notation Storage := (LocalMetadataStorage U K S St Y).
Notation Store := (SpecStore U K S St).
Notation Update := (SpecUpdate U K S St).
Notation Ctx := (LocalStore K S St LocalMetadataItem).
Notation Map := (DualEpochMap K Obj).
Implicit Types (u : U) (o : Obj) (s : Storage) (st : Store) (c : Update) (ctx : Ctx) (M : U -> gmap string Obj).

(** ** The objects of a controller's store *)

Definition objects (m : Map) : gmap K Obj := dual_inner <$> values m.
Definition newer (old o : Obj) : bool := revision (obj_item o) <? revision (obj_item old).

(** What becomes of the object of a key when [o] arrives. *)
Definition take o (v : option Obj) : option Obj :=
  match v with Some old => if newer old o then Some old else Some o | None => Some o end.

Lemma objects_lookup m k : objects m !! k = dual_inner <$> values m !! k.
Proof. apply lookup_fmap. Qed.

Lemma is_newer_eq old o : is_newer o old = newer old o.
Proof. done. Qed.

Lemma diff_none old o : obj_key old = obj_key o -> newer old o = false -> has_no_changes (diff old o) = true -> old = o.
Proof.
  intros Hk Hn. unfold diff, object_DualDiff, object_diff. rewrite is_newer_eq, Hn. unfold has_no_changes. cbn. rewrite !negb_involutive, !andb_true_iff, !bool_decide_eq_true.
  destruct old as [? ? ? []], o as [? ? ? []]. cbn in *. intros [[-> ->] ->]. by rewrite Hk.
Qed.

Lemma objects_update o m k :
  dm_ok obj_key m -> objects (snd (dm_update (obj_key o) o m)) !! k =
    if decide (obj_key o = k) then take o (objects m !! k) else objects m !! k.
Proof.
  intros Hok. rewrite !objects_lookup, update_eq. destruct (values m !! obj_key o) as [old|] eqn:Eo; cbn [snd]; cbv zeta.
  - destruct (newer (dual_inner old) o) eqn:En.
    + assert (has_no_changes (diff (dual_inner old) o) = true) as ->.
      { unfold diff, object_DualDiff, object_diff. by rewrite is_newer_eq, En. }
      case_decide as E; [|done]. subst k. rewrite Eo. cbn. by rewrite En.
    + destruct (has_no_changes _) eqn:Ed; cbn [values set_values].
      * case_decide as E; [|done]. subst k. rewrite Eo. cbn. rewrite En. f_equal.
        apply diff_none; [by apply (ok_keyed _ _ Hok)|done|done].
      * case_decide as E; [subst k; rewrite lookup_insert_eq, Eo; cbn; by rewrite En|by rewrite lookup_insert_ne].
  - cbn [values set_values]. case_decide as E; [subst k; by rewrite lookup_insert_eq, Eo|by rewrite lookup_insert_ne].
Qed.

Lemma objects_remove n m k :
  objects (snd (dm_remove n m)) !! k = if decide (n = k) then None else objects m !! k.
Proof.
  rewrite !objects_lookup. unfold dm_remove. destruct (values m !! n) eqn:E; cbn [snd values].
  - case_decide as En; [subst k; by rewrite lookup_delete_eq|by rewrite lookup_delete_ne].
  - case_decide as En; [subst k; by rewrite E|done].
Qed.

(** *** One change *)

Definition change_key (c : LSUpdate K S St LocalMetadataItem) : K :=
  match c with UpdateMod o => obj_key o | UpdateDelete k => k end.
Definition change_value (c : LSUpdate K S St LocalMetadataItem) (v : option Obj) : option Obj :=
  match c with UpdateMod o => take o v | UpdateDelete _ => None end.

Lemma ctx_apply (c : LSUpdate K S St LocalMetadataItem) ctx :
  dm_ok obj_key (store ctx) -> epoch (store ctx) < 2 ^ 63 - 1 ->
  let ctx' := snd (apply_changes [c] ctx) in
  dm_ok obj_key (store ctx') /\ epoch (store ctx') <= epoch (store ctx) + 1 /\
  forall k, ctx_get k ctx' = if decide (change_key c = k) then change_value c (ctx_get k ctx) else ctx_get k ctx.
Proof.
  intros Hok He. unfold apply_changes. destruct (apply_changes_locked [c] (store ctx)) as [r m'] eqn:E.
  pose proof (apply_changes_ok [c] (store ctx) r m' Hok He ltac:(done) E) as Hr.
  assert (dm_ok obj_key m') as Hok' by (destruct r; [apply Hr|by subst m']).
  assert (forall k, objects m' !! k = if decide (change_key c = k) then change_value c (objects (store ctx) !! k) else objects (store ctx) !! k) as Hv.
  { unfold apply_changes_locked in E. cbn [foldl] in E.
    destruct (dm_ok_increment obj_key (store ctx) He Hok) as [Hok1 _].
    assert (forall k, objects (snd (apply_change (no_counts, increment_epoch (store ctx)) c)) !! k =
      if decide (change_key c = k) then change_value c (objects (store ctx) !! k) else objects (store ctx) !! k) as Hc.
    { intros k. destruct c as [o|n]; cbn [apply_change change_key change_value].
      - rewrite (surjective_pairing (dm_update _ _ _)). cbn [snd]. by rewrite objects_update.
      - rewrite (surjective_pairing (dm_remove _ _)). cbn [snd]. by rewrite objects_remove. }
    destruct (apply_change _ c) as [sy m1]. destruct (no_counted sy); injection E as <- <-; apply Hc. }
  assert (epoch m' <= epoch (store ctx) + 1) as He' by (destruct r; [destruct Hr as (_ & -> & _)|subst m']; lia).
  destruct r; cbn [snd store store_change]; (split; [done|]); (split; [done|]); intros k; unfold ctx_get; cbn [store store_change];
    rewrite <-!objects_lookup; apply Hv.
Qed.

(** *** All objects *)

Lemma objects_sync_incoming sy m ks os k :
  dm_ok obj_key m ->
  let m' := snd (fst (foldl sync_incoming (sy, m, ks) os)) in
  dm_ok obj_key m' /\ objects m' !! k = foldl (fun (x : option Obj) o => if decide (obj_key o = k) then take o x else x) (objects m !! k) os.
Proof.
  revert sy m ks. induction os as [|o os IH]; intros sy m ks Hok; [done|]. cbn [foldl sync_incoming].
  pose proof (objects_update o m k Hok) as Hu. pose proof (dm_ok_update obj_key (obj_key o) o m eq_refl Hok) as Hok'.
  destruct (dm_update (obj_key o) o m) as [fl m1]. cbn in Hu, Hok'. rewrite <-Hu. by apply IH.
Qed.

Lemma sync_keys sy (m : Map) ks os n :
  n ∈ snd (foldl sync_incoming (sy, m, ks) os) <-> n ∈ ks /\ n ∉ map obj_key os.
Proof.
  revert sy m ks. induction os as [|p os IH]; intros sy m ks; [split; [|by intros []]; split; [done|apply not_elem_of_nil]|].
  cbn [foldl sync_incoming]. destruct (dm_update (obj_key p) p m) as [fl m']. rewrite IH. cbn [map].
  rewrite !list_elem_of_In, List.filter_In, <-!list_elem_of_In, not_elem_of_cons, negb_true_iff, bool_decide_eq_false. tauto.
Qed.

Lemma objects_sync_delete sy (m : Map) ks k :
  objects (snd (foldl sync_delete (sy, m) ks)) !! k = if bool_decide (k ∈ ks) then None else objects m !! k.
Proof.
  revert sy m. induction ks as [|n ks IH]; intros sy m; [done|]. cbn [foldl sync_delete].
  assert (forall sy', objects (snd (foldl sync_delete (sy', snd (dm_remove n m)) ks)) !! k =
    if bool_decide (k ∈ n :: ks) then None else objects m !! k) as Hgo.
  { intros sy'. rewrite IH, objects_remove. destruct (decide (n = k)) as [->|Hne].
    - rewrite (bool_decide_eq_true_2 (k ∈ k :: ks)) by (by left). by case_match.
    - erewrite bool_decide_ext; [done|]. rewrite elem_of_cons. split; [by right|]. by intros [->|]. }
  destruct (values m !! n) eqn:En.
  - destruct (dm_remove n m) as [old m'] eqn:Er. apply Hgo.
  - specialize (Hgo sy). unfold dm_remove in Hgo. by rewrite En in Hgo.
Qed.

(** A full update gives the store the objects it brings, if it has no newer
    ones with their keys. *)
Lemma ctx_sync os ctx :
  dm_ok obj_key (store ctx) -> epoch (store ctx) < 2 ^ 63 - 1 -> NoDup (map obj_key os) ->
  (forall o old, o ∈ os -> ctx_get (obj_key o) ctx = Some old -> newer old o = false) ->
  let ctx' := snd (sync_all os ctx) in
  dm_ok obj_key (store ctx') /\
  (forall o, o ∈ os -> ctx_get (obj_key o) ctx' = Some o) /\
  (forall k, k ∉ map obj_key os -> ctx_get k ctx' = None).
Proof.
  intros Hok He Hnd Hnew. unfold sync_all. destruct (sync_all_locked os (store ctx)) as [sy m'] eqn:E.
  destruct (sync_all_ok os (store ctx) sy m' Hok He E) as (Hok' & _). unfold sync_all_locked in E.
  destruct (dm_ok_increment obj_key (store ctx) He Hok) as [Hok1 _].
  pose proof (fun k => objects_sync_incoming no_counts (increment_epoch (store ctx)) (clone_keys (store ctx)) os k Hok1) as Hv.
  pose proof (sync_keys no_counts (increment_epoch (store ctx)) (clone_keys (store ctx)) os) as Hks.
  destruct (foldl sync_incoming _ _) as [[s1 m1] ks]. cbn [fst snd] in Hv, Hks.
  pose proof (objects_sync_delete s1 m1 ks) as Hd. destruct (foldl sync_delete _ _) as [s2 m2]. cbn in Hd.
  injection E as <- <-. cbn [snd]. split; [done|].
  assert (forall k, ctx_get k (store_change (ss_epoch (with_epoch (epoch (mark_fence m2)) s2)) (MkLocalStore (mark_fence m2) (published ctx)))
    = if bool_decide (k ∈ ks) then None else objects m1 !! k) as Hget.
  { intros k. rewrite <-Hd. unfold ctx_get. cbn [store store_change]. by rewrite objects_lookup. }
  assert (forall k (v : option Obj) l, k ∉ map obj_key l ->
    foldl (fun (x : option Obj) o => if decide (obj_key o = k) then take o x else x) v l = v) as Hskip.
  { clear. intros k v l. revert v. induction l as [|p l IH]; intros v Hl; [done|]. cbn in Hl. apply not_elem_of_cons in Hl as [Hp Hl].
    cbn. rewrite decide_False by done. by apply IH. }
  split.
  - intros o Ho. rewrite Hget, bool_decide_eq_false_2.
    2: { rewrite Hks. intros [_ Hni]. apply Hni. apply list_elem_of_fmap. by exists o. }
    destruct (Hv (obj_key o)) as [_ ->]. specialize (Hnew o).
    replace (objects (increment_epoch (store ctx)) !! obj_key o) with (ctx_get (obj_key o) ctx) by (unfold ctx_get; by rewrite objects_lookup).
    apply list_elem_of_split in Ho as (l1 & l2 & Eos).
    assert (o ∈ os) as Ho by (rewrite Eos; apply elem_of_app; right; by left).
    rewrite Eos, map_app in Hnd. cbn in Hnd. apply NoDup_app in Hnd as (_ & Hn1 & Hn2). apply NoDup_cons in Hn2 as [Hn2 _].
    rewrite Eos, foldl_app, (Hskip _ _ l1) by (intros Hin; by apply (Hn1 _ Hin); left). cbn. rewrite decide_True by done.
    rewrite Hskip by done. destruct (ctx_get (obj_key o) ctx) as [old|] eqn:Eold; [|done]. cbn.
    by rewrite (Hnew old Ho eq_refl).
  - intros k Hk. rewrite Hget. destruct (bool_decide (k ∈ ks)) eqn:Eb; [done|].
    destruct (Hv k) as [_ ->]. rewrite Hskip by done. apply bool_decide_eq_false in Eb. rewrite objects_lookup. cbn [values increment_epoch].
    destruct (values (store ctx) !! k) as [x|] eqn:Ex; [|done]. exfalso. apply Eb, Hks. split; [|done].
    apply list_elem_of_fmap. exists (k, x). split; [done|]. by apply elem_of_map_to_list.
Qed.

(** ** The objects of a storage are those of its files *)

Lemma key_string_inj u k k' : key_valid u k -> key_valid u k' -> key_to_string k = key_to_string k' -> k = k'.
Proof. intros Hk Hk' E. apply valid_parse in Hk, Hk'. rewrite E in Hk. congruence. Qed.

Lemma storage_of_inj u id o o' : obj_ok u id o -> obj_ok u id o' -> storage_of o = storage_of o' -> o = o'.
Proof.
  intros [_ _ Hv _] [_ _ Hv' _] [= Ei Ek Es Ep]. apply (key_string_inj u) in Ek; [|done..].
  destruct o as [? ? ? []], o' as [? ? ? []]. cbn in *. unfold obj_item in Ei. cbn in Ei. congruence.
Qed.

Lemma on_disk_sub (root : string) u (fs : gmap FilePath Y) (m m' : gmap string Obj) (id : string) o :
  on_disk root u fs m -> on_disk root u fs m' -> m !! id = Some o -> m' !! id = Some o.
Proof.
  intros [H1 _] [H1' H2'] Ho. destruct (H1 id o Ho) as [Hok Hf].
  destruct (H2' (id ++ ".yaml")) as (id' & Eid & o' & Ho').
  - unfold file_of in Hf. by rewrite Hf.
  - apply yaml_extension. by eapply ok_nonempty.
  - apply append_inj_r in Eid as <-. destruct (H1' id o' Ho') as [Hok' Hf']. rewrite Ho'. f_equal.
    rewrite Hf in Hf'. injection Hf' as E. symmetry. eapply storage_of_inj; [done..|].
    apply (f_equal (from_yaml u)) in E. rewrite !yaml_read in E. congruence.
Qed.

Lemma meta_ok_unique s M M' u : meta_ok s M -> meta_ok s M' -> M u = M' u.
Proof.
  intros H1 H2. apply map_eq. intros id. pose proof (ok_disk _ _ H1 u) as D1. pose proof (ok_disk _ _ H2 u) as D2.
  destruct (M u !! id) as [o|] eqn:E1; [symmetry; by apply (on_disk_sub _ _ _ _ _ _ _ D1 D2)|].
  destruct (M' u !! id) as [o|] eqn:E2; [|done]. rewrite <-E1. by apply (on_disk_sub _ _ _ _ _ _ _ D2 D1).
Qed.

(** ** Changes on the way *)

Definition upd_obj c : Obj := inner (update_pointer c).

(** What becomes of the object of key [k] when a change arrives. *)
Definition replay (k : K) (x : option Obj) c : option Obj :=
  if decide (obj_key (upd_obj c) = k) then
    match c with SpecMod _ => take (upd_obj c) x | SpecDelete _ => None end
  else x.
Definition pending (since : Z) (q : list Update) : list Update :=
  List.filter (fun c => since <=? update_revision c) q.

(** An object that is the outcome of the changes on the way may arrive before
    them. *)
Lemma replay_shortcut k q x o :
  foldl (replay k) x q = Some o -> foldl (replay k) (take o x) q = Some o.
Proof.
  revert x. induction q as [|c q IH]; intros x Hx; cbn in *; [by subst x; cbn; case_match|].
  revert Hx. unfold replay at 2 4. case_decide as Ek; [|by apply IH].
  destruct c as [p|p]; [|done]. intros Hx. pose proof (IH _ Hx) as Hi. unfold upd_obj in *. cbn [update_pointer] in *.
  destruct x as [x|]; cbn [take] in *; unfold newer in *.
  - destruct (revision (obj_item (inner p)) <? revision (obj_item x)) eqn:E1,
      (revision (obj_item o) <? revision (obj_item x)) eqn:E2; cbn [take] in *; unfold newer in *; rewrite ?E1, ?E2 in *; try done.
    all: destruct (revision (obj_item (inner p)) <? revision (obj_item o)) eqn:E3; try done;
      destruct (revision (obj_item o) <? revision (obj_item (inner p))) eqn:E4; try done; lia.
  - destruct (revision (obj_item (inner p)) <? revision (obj_item o)) eqn:E3; try done;
      destruct (revision (obj_item o) <? revision (obj_item (inner p))) eqn:E4; try done; lia.
Qed.

(** The changes in a channel are of the kind's objects. *)
Definition update_ok u (version : Z) c : Prop :=
  ptr_type (update_pointer c) = u /\ obj_ok u (key_to_string (obj_key (upd_obj c))) (upd_obj c) /\
  0 <= update_revision c < version.
Definition queue_ok u st : Prop := Forall (update_ok u (version st)) (queue st).

Lemma update_ok_mono u n n' c : n <= n' -> update_ok u n c -> update_ok u n' c.
Proof. intros Hn (? & ? & ?). split_and!; [done|done|lia..]. Qed.

Lemma pending_none v u st : queue_ok u st -> version st <= v -> pending v (queue st) = [].
Proof.
  intros Hq Hv. apply list_filter_none. intros c Hc. destruct (proj1 (Forall_forall _ _) Hq c Hc) as (_ & _ & Hr).
  apply Z.leb_gt. lia.
Qed.

Lemma watch_next_some v q c q' :
  watch_next (Some v) q = (Some c, q') -> (exists l, q = l ++ c :: q')%list /\ pending v q = c :: pending v q'.
Proof.
  induction q as [|x q IH]; cbn; [done|]. destruct (v <=? update_revision x).
  - intros [= <- <-]. split; [by exists []|done].
  - intros E. destruct (IH E) as [[l ->] Hp]. split; [by exists (x :: l)|done].
Qed.
Lemma watch_next_none v q q' : watch_next (Some v) q = (None, q') -> pending v q = [].
Proof. induction q as [|x q IH]; cbn; [done|]. by destruct (v <=? update_revision x). Qed.

(** *** What an event sends *)

Definition sends u M M' st st' : Prop :=
  (queue st' = queue st /\ version st' = version st /\ M' u = M u) \/
  (exists c, queue st' = (queue st ++ [c])%list /\ version st' = version st + 1 /\ update_revision c = version st /\
     update_ok u (version st') c /\
     forall k, key_valid u k -> M' u !! key_to_string k = replay k (M u !! key_to_string k) c).

Lemma sends_same u M M' st : M' u = M u -> sends u M M' st st.
Proof. by left. Qed.

Lemma put_sends n u s M st o :
  meta_ok s M -> below n s M -> 0 <= n < 2 ^ 64 -> revision (obj_item o) < n -> stores s !! LABEL u = Some st ->
  obj_ok u (item_id (obj_item o)) o ->
  exists st', stores (snd (on_store (LABEL u) (store_apply u o) s)) !! LABEL u = Some st' /\
    sends u M (event_spec (EvPut u o) M) st st'.
Proof.
  intros Hok Hb Hn Hr Hst Ho. pose proof (ok_memory _ _ Hok u st Hst) as Hm.
  pose proof (below_version _ _ _ Hb u st Hst) as Hv. pose proof (mem_version _ _ _ _ Hm) as Hv0.
  unfold on_store. rewrite Hst, (store_apply_eq _ _ _ _ _ _ Hm Ho). unfold event_spec, put_spec.
  destruct (stale o (M u)) eqn:Es; cbn [snd stores]; rewrite lookup_insert_eq; eexists; (split; [done|]).
  { apply sends_same. by rewrite fn_insert_eq. }
  right. eexists. split; [done|]. split; [rewrite (send_version n); cbn; lia|]. split; [done|].
  pose proof (bumped_ok u o (M u) Ho) as Hbo. split.
  - unfold update_ok, upd_obj, update_revision. cbn [update_pointer set_store_revision with_store_revision ptr_type inner store_revision pointer_of pointer_new].
    split_and!; [done| |cbn; lia|rewrite (send_version n); cbn; lia]. by rewrite (ok_key _ _ _ Hbo).
  - intros k Hk. rewrite fn_insert_eq. unfold replay, upd_obj.
    cbn [update_pointer set_store_revision with_store_revision inner pointer_of pointer_new].
    assert (key_to_string (obj_key (bumped o (M u))) = item_id (obj_item o)) as Ekey by apply Hbo.
    case_decide as E.
    + subst k. rewrite Ekey, lookup_insert_eq. destruct (M u !! item_id (obj_item o)) as [prev|] eqn:Ep; [|done]. cbn [take].
      unfold newer. rewrite (bumped_revision n); [|intros; by eapply meta_revisions|lia|done]. rewrite Ep.
      rewrite (proj2 (Z.ltb_ge _ _)) by lia. done.
    + rewrite lookup_insert_ne; [done|]. rewrite <-Ekey. intros E'. apply E. eapply key_string_inj; [|done..]. apply Hbo.
Qed.

Lemma delete_sends n u s M st i :
  meta_ok s M -> below n s M -> 0 <= n < 2 ^ 64 -> stores s !! LABEL u = Some st ->
  exists st', stores (snd (on_store (LABEL u) (store_delete_item i) s)) !! LABEL u = Some st' /\
    sends u M (event_spec (EvDelete u i) M) st st'.
Proof.
  intros Hok Hb Hn Hst. pose proof (ok_memory _ _ Hok u st Hst) as Hm.
  pose proof (below_version _ _ _ Hb u st Hst) as Hv. pose proof (mem_version _ _ _ _ Hm) as Hv0.
  unfold on_store. rewrite Hst, (store_delete_eq _ _ _ _ _ _ Hm). rewrite (mem_lookup _ _ _ _ _ Hm).
  destruct (M u !! item_id i) as [o|] eqn:Eo; cbn [fmap option_fmap option_map snd stores]; rewrite lookup_insert_eq; eexists; (split; [done|]).
  2: { apply sends_same. cbn. by rewrite fn_insert_eq, delete_id. }
  destruct (disk_file _ _ _ _ (ok_disk _ _ Hok u) _ _ Eo) as [Hoo _].
  right. eexists. split; [done|]. split; [rewrite (send_version n); cbn; lia|]. split; [done|]. split.
  - unfold update_ok, upd_obj, update_revision. cbn [update_pointer set_store_revision with_store_revision ptr_type inner store_revision].
    split_and!; [done| |cbn; lia|rewrite (send_version n); cbn; lia]. by rewrite (ok_key _ _ _ Hoo).
  - intros k Hk. cbn [event_spec]. rewrite fn_insert_eq. unfold replay, upd_obj.
    cbn [update_pointer set_store_revision with_store_revision inner].
    assert (key_to_string (obj_key o) = item_id i) as Ekey by apply Hoo. case_decide as E.
    + subst k. by rewrite Ekey, lookup_delete_eq.
    + rewrite lookup_delete_ne; [done|]. rewrite <-Ekey. intros E'. apply E. eapply key_string_inj; [|done..]. apply Hoo.
Qed.

Lemma step_sends n s M e s' u st :
  meta_ok s M -> below n s M -> 0 <= n < 2 ^ 64 -> event_below n e -> meta_step s e s' -> stores s !! LABEL u = Some st ->
  exists st', stores s' !! LABEL u = Some st' /\ sends u M (event_spec e M) st st'.
Proof.
  intros Hok Hb Hn He Hs Hst.
  assert (forall v m, v <> u -> fn_insert v m M u = M u) as Hother by (intros v m Hne; by apply fn_insert_ne).
  destruct Hs as [v sv Hnone _|v o Hl Ho|v i Hl].
  - exists st. split; [|by apply sends_same]. cbn. rewrite lookup_insert_ne; [done|]. intros E. congruence.
  - destruct (decide (v = u)) as [->|Hne]; [by eapply put_sends|]. exists st. split; [|by apply sends_same, Hother].
    unfold on_store. destruct Hl as [sv Hsv]. rewrite Hsv. destruct (store_apply v o _) as [r [? ?]]. cbn.
    rewrite lookup_insert_ne; [done|]. intros E. by apply label_inj in E.
  - destruct (decide (v = u)) as [->|Hne]; [by eapply delete_sends|]. exists st. split; [|by apply sends_same, Hother].
    unfold on_store. destruct Hl as [sv Hsv]. rewrite Hsv. destruct (store_delete_item i _) as [r [? ?]]. cbn.
    rewrite lookup_insert_ne; [done|]. intros E. by apply label_inj in E.
Qed.

(** ** Dispatchers *)

(** The store of a kind, the changes in its channel since [v] and the storage
    fit together. *)
Record follows u s M ctx (v : Z) : Prop := {
  fo_loaded : loaded u s;
  fo_since : forall st, stores s !! LABEL u = Some st -> 0 <= v <= version st;
  fo_map : dm_ok obj_key (store ctx);
  fo_objects : forall k o, ctx_get k ctx = Some o -> obj_ok u (key_to_string k) o;
  fo_replay : forall st k, stores s !! LABEL u = Some st -> key_valid u k ->
    foldl (replay k) (ctx_get k ctx) (pending v (queue st)) = M u !! key_to_string k;
}.

(** The processes of a cluster: the metadata storage and the dispatchers that
    run. *)
Record Cluster := MkCluster { c_storage : Storage; c_dispatcher : U -> option (Dispatcher K S St) }.

Definition queues_ok s : Prop := forall u st, stores s !! LABEL u = Some st -> queue_ok u st.
Record storage_inv (disp : U -> option (Dispatcher K S St)) s M : Prop := {
  si_meta : meta_ok s M;
  si_queues : queues_ok s;
  si_follows : forall u d, disp u = Some d -> exists v, d_since d = Some v /\ follows u s M (d_ctx d) v;
}.
Definition cluster_inv (c : Cluster) : Prop := exists M, storage_inv (c_dispatcher c) (c_storage c) M.

Lemma ctx_key k o ctx : dm_ok obj_key (store ctx) -> ctx_get k ctx = Some o -> obj_key o = k.
Proof.
  unfold ctx_get. intros Hok Ho. destruct (values (store ctx) !! k) as [x|] eqn:E; [|done].
  injection Ho as <-. by apply (ok_keyed _ _ Hok).
Qed.

Lemma pending_app v q c : v <= update_revision c -> pending v (q ++ [c])%list = (pending v q ++ [c])%list.
Proof. intros Hv. unfold pending. rewrite List.filter_app. cbn. by rewrite (proj2 (Z.leb_le _ _) Hv). Qed.

Lemma sends_queue_ok u M M' st st' : sends u M M' st st' -> queue_ok u st -> queue_ok u st'.
Proof.
  unfold queue_ok. intros [(-> & -> & _)|(c & -> & Ev & _ & Hc & _)] Hq; [done|].
  apply Forall_app. split; [|by apply Forall_singleton]. eapply Forall_impl; [done|]. intros x. apply update_ok_mono. lia.
Qed.

Lemma sends_follows u s s' M M' st st' ctx v :
  stores s !! LABEL u = Some st -> stores s' !! LABEL u = Some st' -> sends u M M' st st' ->
  follows u s M ctx v -> follows u s' M' ctx v.
Proof.
  intros Hst Hst' Hsd [Hl Hv Hm Ho Hr]. specialize (Hv st Hst). split; [by exists st'| |done|done|].
  - intros x Hx. rewrite Hst' in Hx. injection Hx as <-. destruct Hsd as [(_ & -> & _)|(c & _ & -> & _)]; lia.
  - intros x k Hx Hk. rewrite Hst' in Hx. injection Hx as <-. specialize (Hr st k Hst Hk).
    destruct Hsd as [(-> & _ & ->)|(c & -> & _ & Er & _ & Hc)]; [done|].
    rewrite pending_app by lia. rewrite foldl_app, Hr. cbn. by rewrite Hc.
Qed.

Lemma cluster_inv_step disp s s' M : storage_inv disp s M -> safe_step s s' -> exists M', storage_inv disp s' M'.
Proof.
  intros [Hok Hq Hf] (e & n & Hs & (M1 & Hok1 & Hb1) & He & Hn). exists (event_spec e M1).
  assert (below n s M) as Hb by (eapply below_ext, Hb1; intros; by eapply meta_ok_unique).
  split; [by eapply meta_step_ok| |].
  - intros u st' Hst'. destruct (stores s !! LABEL u) as [st|] eqn:Hst.
    + destruct (step_sends n s M1 e s' u st) as (x & Hx & Hsd); [done..|]. rewrite Hst' in Hx. injection Hx as <-.
      eapply sends_queue_ok; [done|]. by apply Hq.
    + revert Hst'. destruct Hs as [v sv Hnone Hl|v o [sv Hsv] Ho|v i [sv Hsv]].
      * cbn. intros [[_ <-]|[_ ?]]%lookup_insert_Some; [|congruence].
        destruct (load_on_disk (root s) v (files s) (M v)) as (x & Hx & _ & _ & Eq); [apply Hok|].
        rewrite Hl in Hx. injection Hx as <-. unfold queue_ok. by rewrite Eq.
      * unfold on_store. rewrite Hsv. destruct (store_apply v o _) as [r [? ?]]. cbn.
        intros [[E _]|[_ ?]]%lookup_insert_Some; congruence.
      * unfold on_store. rewrite Hsv. destruct (store_delete_item i _) as [r [? ?]]. cbn.
        intros [[E _]|[_ ?]]%lookup_insert_Some; congruence.
  - intros u d Hd. destruct (Hf u d Hd) as (v & Hv & Hfo). exists v. split; [done|].
    destruct (fo_loaded _ _ _ _ _ Hfo) as [st Hst]. destruct (step_sends n s M1 e s' u st) as (st' & Hst' & Hsd); [done..|].
    apply (sends_follows u s s' M1 _ st st'); [done..|]. destruct Hfo as [F1 F2 F3 F4 F5]. split; [done..|].
    intros x k Hx Hk. rewrite <-(meta_ok_unique s M M1) by done. by apply F5.
Qed.

Lemma inv_steps disp k s s' : bsteps safe_step k s s' -> (exists M, storage_inv disp s M) -> exists M', storage_inv disp s' M'.
Proof. apply (bsteps_keep (fun s => exists M, storage_inv disp s M)). intros s1 s2 Hs [M Hi]. by eapply cluster_inv_step. Qed.

(** *** Reading the stream *)

Lemma set_queue_stores u q s st :
  stores s !! LABEL u = Some st ->
  set_queue u q s = MkStorage (root s) (<[LABEL u := MkSpecStore (version st) (data st) q (store_path st)]> (stores s)) (files s).
Proof. intros Hst. unfold set_queue. by rewrite Hst. Qed.

Lemma meta_ok_set_queue u q s M st : stores s !! LABEL u = Some st -> meta_ok s M -> meta_ok (set_queue u q s) M.
Proof.
  intros Hst Hok. rewrite (set_queue_stores _ _ _ _ Hst). destruct (ok_memory _ _ Hok u st Hst) as [H1 H2 H3 H4].
  eapply meta_ok_ext; [apply (fn_insert_same u)|]. apply meta_ok_update; [done|by split|apply Hok|done].
Qed.

Lemma stream_event_get u c n ctx :
  update_ok u n c -> dm_ok obj_key (store ctx) -> epoch (store ctx) < 2 ^ 63 - 1 ->
  dm_ok obj_key (store (stream_event u c ctx)) /\ epoch (store (stream_event u c ctx)) <= epoch (store ctx) + 1 /\
  forall k, ctx_get k (stream_event u c ctx) = replay k (ctx_get k ctx) c.
Proof.
  intros (Ht & _ & _) Hok He. unfold stream_event, into_ls_update, downcast, replay, upd_obj.
  destruct c as [p|p]; cbn [update_pointer] in *; rewrite decide_True by done.
  - apply (ctx_apply (UpdateMod (inner p)) ctx Hok He).
  - apply (ctx_apply (UpdateDelete (obj_key (inner p))) ctx Hok He).
Qed.

Lemma replay_ok u n c k x : update_ok u n c ->
  (forall o, x = Some o -> obj_ok u (key_to_string k) o) -> forall o, replay k x c = Some o -> obj_ok u (key_to_string k) o.
Proof.
  intros (_ & Ho & _) Hx o. unfold replay. case_decide as E; [|apply Hx]. destruct c as [p|p]; [|done].
  assert (obj_ok u (key_to_string k) (upd_obj (SpecMod p))) as Hp by (by rewrite <-E).
  unfold take. destruct x as [old|]; [case_match|]; intros [= <-]; [by apply Hx|done..].
Qed.

Lemma stream_follows u s M st ctx v c q :
  stores s !! LABEL u = Some st -> queue_ok u st -> watch_next (Some v) (queue st) = (Some c, q) ->
  epoch (store ctx) < 2 ^ 63 - 1 -> follows u s M ctx v -> follows u (set_queue u q s) M (stream_event u c ctx) v.
Proof.
  intros Hst Hq Hn He [Hl Hv Hm Ho Hr]. apply watch_next_some in Hn as [[l El] Hp].
  assert (update_ok u (version st) c) as Hc by (unfold queue_ok in Hq; rewrite El in Hq; by apply Forall_app in Hq as [_ []%Forall_cons]).
  destruct (stream_event_get u c _ ctx Hc Hm He) as (Hm' & _ & Hget).
  assert (forall x, stores (set_queue u q s) !! LABEL u = Some x -> version x = version st /\ queue x = q) as Hx.
  { intros x. rewrite (set_queue_stores _ _ _ _ Hst). cbn. rewrite lookup_insert_eq. by intros [= <-]. }
  split.
  - unfold loaded. rewrite (set_queue_stores _ _ _ _ Hst). cbn. by rewrite lookup_insert_eq.
  - intros x [-> _]%Hx. by apply Hv.
  - done.
  - intros k o. rewrite Hget. apply (replay_ok u (version st)); [done|]. intros o'. apply Ho.
  - intros x k [_ ->]%Hx Hk. rewrite <-(Hr st k Hst Hk), Hp. cbn. by rewrite Hget.
Qed.

Lemma set_queue_other u v q s : v <> u -> stores (set_queue u q s) !! LABEL v = stores s !! LABEL v.
Proof.
  intros Hne. unfold set_queue. destruct (stores s !! LABEL u); [|done]. cbn. apply lookup_insert_ne.
  intros E. by apply label_inj in E.
Qed.

Lemma follows_other u s s' M ctx v :
  stores s' !! LABEL u = stores s !! LABEL u -> follows u s M ctx v -> follows u s' M ctx v.
Proof. intros E [H1 H2 H3 H4 H5]. unfold loaded in H1. split; [unfold loaded| |done|done|]; by rewrite E. Qed.

(** *** Reading all objects *)

Definition listed st : list Obj := map (fun kv => inner (snd kv)) (map_to_list (data st)).

Lemma listed_elem s M u st o :
  meta_ok s M -> stores s !! LABEL u = Some st -> o ∈ listed st <-> exists id, M u !! id = Some o.
Proof.
  intros Hok Hst. unfold listed. rewrite list_elem_of_fmap. rewrite <-(mem_objects _ _ _ _ (ok_memory _ _ Hok u st Hst)). split.
  - intros ([id p] & -> & Hp). apply elem_of_map_to_list in Hp. exists id. by rewrite lookup_fmap, Hp.
  - intros (id & Hid). rewrite lookup_fmap in Hid. destruct (data st !! id) as [p|] eqn:E; [|done]. injection Hid as <-.
    exists (id, p). split; [done|]. by apply elem_of_map_to_list.
Qed.

Lemma listed_nodup s M u st : meta_ok s M -> stores s !! LABEL u = Some st -> NoDup (map obj_key (listed st)).
Proof.
  intros Hok Hst. unfold listed. rewrite map_map. apply NoDup_fmap_2_strong; [|apply NoDup_map_to_list].
  intros [id p] [id' p'] Hp Hp' E. apply elem_of_map_to_list in Hp, Hp'. cbn in E.
  assert (forall id p, data st !! id = Some p -> key_to_string (obj_key (inner p)) = id) as Hkey.
  { intros i x Hx. apply (disk_file _ _ _ _ (ok_disk _ _ Hok u)).
    rewrite <-(mem_objects _ _ _ _ (ok_memory _ _ Hok u st Hst)). by rewrite lookup_fmap, Hx. }
  assert (id = id') as <- by (rewrite <-(Hkey _ _ Hp), <-(Hkey _ _ Hp'); by rewrite E). congruence.
Qed.

Lemma downcast_all_ok u ps :
  Forall (fun p : SpecPointer U K S St => ptr_type p = u) ps -> downcast_all u ps = Ok (map inner ps).
Proof. induction 1 as [|p ps Hp _ IH]; [done|]. cbn. unfold downcast. rewrite decide_True by done. by rewrite IH. Qed.

Lemma retrieve_items_loaded s M u st :
  meta_ok s M -> stores s !! LABEL u = Some st -> retrieve_items u s = (Ok (show_unsigned (version st), listed st), s).
Proof.
  intros Hok Hst. unfold retrieve_items, mbind, M_bind, get_store. rewrite Hst. unfold in_store. rewrite Hst. f_equal.
  unfold store_retrieve_items. rewrite downcast_all_ok; [unfold listed; by rewrite map_map|].
  apply Forall_fmap, Forall_forall. intros [id p] Hp. apply elem_of_map_to_list in Hp.
  by apply (mem_pointer _ _ _ _ (ok_memory _ _ Hok u st Hst) id).
Qed.

Lemma begin_loaded s M u st ctx :
  meta_ok s M -> stores s !! LABEL u = Some st ->
  begin_reconciliation u (s, ctx) = (Ok (Some (version st)), (s, snd (sync_all (listed st) ctx))).
Proof.
  intros Hok Hst. unfold begin_reconciliation, retrieve_all_k8_items. rewrite (retrieve_items_loaded s M u st) by done.
  unfold watch_since. pose proof (mem_version _ _ _ _ (ok_memory _ _ Hok u st Hst)).
  by rewrite parse_show_unsigned by lia.
Qed.

(** No object of the store is newer than that of the storage: no object that was
    deleted and created again is still to be read from the channel, as in
    [resync_keeps_stale]. *)
Definition current u s ctx : Prop := forall st k p old,
  stores s !! LABEL u = Some st -> data st !! key_to_string k = Some p -> ctx_get k ctx = Some old -> newer old (inner p) = false.

Lemma sync_follows u s M st ctx :
  meta_ok s M -> queues_ok s -> stores s !! LABEL u = Some st -> dm_ok obj_key (store ctx) -> epoch (store ctx) < 2 ^ 63 - 1 ->
  current u s ctx -> follows u s M (snd (sync_all (listed st) ctx)) (version st).
Proof.
  intros Hok Hq Hst Hm He Hcur.
  assert (forall o, o ∈ listed st -> obj_ok u (key_to_string (obj_key o)) o /\ M u !! key_to_string (obj_key o) = Some o) as Hl.
  { intros o [id Hid]%(listed_elem s M u st o Hok Hst). destruct (disk_file _ _ _ _ (ok_disk _ _ Hok u) id o Hid) as [Ho _].
    by rewrite (ok_key _ _ _ Ho). }
  destruct (ctx_sync (listed st) ctx) as (Hm' & Hin & Hout); [done|done|by eapply listed_nodup| |].
  { intros o old Ho Hold. destruct (Hl o Ho) as [_ HM]. apply (Hcur st (obj_key o) (MkPointer u o (default 0 (store_revision <$> data st !! key_to_string (obj_key o))) (file_of (root s) u (key_to_string (obj_key o)))) old Hst); [|done].
    rewrite (mem_lookup _ _ _ _ _ (ok_memory _ _ Hok u st Hst)) at 1. by rewrite HM. }
  assert (forall k, ctx_get k (snd (sync_all (listed st) ctx)) = None \/
    exists o, o ∈ listed st /\ obj_key o = k /\ ctx_get k (snd (sync_all (listed st) ctx)) = Some o) as Hcase.
  { intros k. destruct (decide (k ∈ map obj_key (listed st))) as [(o & -> & Ho)%list_elem_of_fmap|Hn]; [|by left; apply Hout].
    right. exists o. split_and!; [done|done|by apply Hin]. }
  split; [by exists st| |done| |].
  - intros x Hx. rewrite Hst in Hx. injection Hx as <-. pose proof (mem_version _ _ _ _ (ok_memory _ _ Hok u st Hst)). lia.
  - intros k o Ho. destruct (Hcase k) as [E|(p & Hp & <- & E)]; rewrite E in Ho; [done|]. injection Ho as <-. by apply Hl.
  - intros x k Hx Hk. rewrite Hst in Hx. injection Hx as <-. rewrite (pending_none _ u); [|by apply Hq|done]. cbn.
    destruct (Hcase k) as [E|(p & Hp & <- & E)]; rewrite E; [|symmetry; by apply Hl].
    destruct (M u !! key_to_string k) as [o|] eqn:Eo; [|done]. exfalso.
    destruct (disk_file _ _ _ _ (ok_disk _ _ Hok u) _ o Eo) as [Ho _].
    assert (obj_key o = k) as Ek by (eapply key_string_inj; [apply Ho|done|apply Ho]).
    assert (o ∈ listed st) as Hin' by (apply (listed_elem s M u st o Hok Hst); by eauto).
    specialize (Hin o Hin'). rewrite Ek in Hin. congruence.
Qed.

(** *** Actions *)

Definition action_ok u (a : WSAction K S St LocalMetadataItem) s : Prop :=
  match a with
  | Apply o => key_valid u (obj_key o) /\ 0 <= revision (obj_item o) < 2 ^ 63
  | UpdateSpec k _ => key_valid u k
  | UpdateStatus _ _ => True
  | DeleteAction _ | DeleteFinal _ =>
      exists c : nat, Z.of_nat c <= 2 ^ 62 /\ stored u (fun o => (children_count o <= c)%nat) s
  end.
Definition small_objects ctx : Prop := forall k o, ctx_get k ctx = Some o -> revision (obj_item o) < 2 ^ 63.

(** An update of a status returns the object that is then stored. *)
Lemma update_status_stored u i status s o s' :
  update_status u i status s = (Ok o, s') ->
  exists st, stores s' !! LABEL u = Some st /\ retrieve_item u i st = Ok o.
Proof.
  unfold update_status, mbind, M_bind. destruct (get_store u s) as [[[]| |] s1]; [|done..].
  destruct (in_store _ _ s1) as [[x| |] s2]; [|done..]. destruct (on_store _ _ s2) as [[[]| |] s3]; [|done..].
  unfold in_store. destruct (stores s3 !! LABEL u) as [st|] eqn:E; [|done]. intros [= Hr <-]. by exists st.
Qed.

Lemma process_action u a s ctx M v :
  well (2 ^ 63) s -> action_ok u a s -> small_objects ctx -> follows u s M ctx v ->
  let '(s', ctx') := process_ws_action u a (s, ctx) in
  (exists k, bsteps safe_step k s s') /\
  (ctx' = ctx \/ exists k o, ctx' = snd (apply_changes [UpdateMod o] ctx) /\ key_valid u k /\
     forall M', meta_ok s' M' -> M' u !! key_to_string k = Some o).
Proof.
  intros Hw Ha Hsm Hf.
  assert (forall k o, ctx_get k ctx = Some o -> obj_ok u (key_to_string k) o /\ key_valid u k /\ revision (obj_item o) < 2 ^ 63) as Hget.
  { intros k o Ho. pose proof (fo_objects _ _ _ _ _ Hf k o Ho) as Hok. split_and!; [done| |by eapply Hsm].
    rewrite <-(ctx_key k o ctx) by (done || apply Hf). apply Hok. }
  assert (forall A n P (m : ME MetaError Storage A) Q, triple n P m Q -> Z.of_nat n <= 2 ^ 62 + 4 -> P (2 ^ 63) s ->
    exists k, bsteps safe_step k s (snd (m s))) as Hrun.
  { intros A n P m Q Ht Hn HP. exists n. by apply (Ht (2 ^ 63) s); [lia|lia|..]. }
  assert (forall (c : Z) (n : nat), c <= 2 ^ 62 -> Z.of_nat n = c -> Z.of_nat (4 + n) <= 2 ^ 62 + 4) as Hlen by lia.
  pose proof (fo_loaded _ _ _ _ _ Hf) as Hl.
  destruct a as [o|k spec|k status|k|k]; cbn [process_ws_action].
  - destruct Ha as [Hk Hr]. split; [|by left]. eapply Hrun; [apply triple_client_apply; [done|unfold in_u; lia]|lia|cbn; lia].
  - destruct (ctx_get k ctx) as [o|] eqn:Eo; (split; [|by left]).
    + destruct (Hget k o Eo) as ([H1 H2 H3 H4] & Hk & Hr). eapply Hrun; [by apply (triple_update_spec u _ k)|lia|by split].
    + eapply Hrun; [by apply triple_update_spec_by_key|lia|by split].
  - destruct (ctx_get k ctx) as [o|] eqn:Eo; [|split; [exists 0%nat; apply bsteps_refl|by left]].
    destruct (Hget k o Eo) as ([H1 H2 H3 H4] & Hk & Hr).
    destruct (triple_update_status u (obj_item o) status H4 (2 ^ 63) s) as (Hs & Hw' & Hres); [lia|lia|done|by split|].
    destruct (update_status u (obj_item o) status s) as [[o'|e|] s'] eqn:Eu; cbn [fst snd] in *; [|clear Hres|done].
    + split; [by eauto|]. right. exists k, o'. split_and!; [done|done|]. intros M' Hok'.
      destruct (update_status_stored _ _ _ _ _ _ Eu) as (st & Hst & Hret). unfold retrieve_item in Hret.
      rewrite (retrieve_ok _ _ _ _ _ Hok' Hst), H1 in Hret. destruct (M' u !! key_to_string k); congruence.
    + destruct (str_contains _ _); (split; [|by left]); [|by eauto].
      destruct (triple_update_status u (obj_item o) status H4 (2 ^ 63 + Z.of_nat 2) s') as (Hs' & _); [lia|lia|done| |].
      * split; [by eapply bsteps_loaded|lia].
      * exists 4%nat. by eapply (bsteps_trans 2 2).
  - destruct (ctx_get k ctx) as [o|] eqn:Eo; (split; [|by left]); [|exists 0%nat; apply bsteps_refl].
    destruct Ha as (c & Hc & Hst). eapply Hrun; [apply (triple_delete_item u _ c)|lia|done].
  - destruct (ctx_get k ctx) as [o|] eqn:Eo; (split; [|by left]); [|exists 0%nat; apply bsteps_refl].
    destruct Ha as (c & Hc & Hst). eapply Hrun; [apply (triple_delete_item u _ c)|lia|done].
Qed.

(** ** Clusters *)

Definition disp_insert u (d : Dispatcher K S St) (disp : U -> option (Dispatcher K S St)) : U -> option (Dispatcher K S St) :=
  fun v => if decide (v = u) then Some d else disp v.

(** The counters of the storage and of the dispatchers are far from the limits
    of their types. *)
Definition calm (c : Cluster) : Prop :=
  well (2 ^ 63) (c_storage c) /\
  forall u d, c_dispatcher c u = Some d -> epoch (store (d_ctx d)) < 2 ^ 63 - 1 /\ small_objects (d_ctx d).
Definition turn_ok u (turn : Turn K S St) s (d : Dispatcher K S St) : Prop :=
  match turn with
  | TurnTimer => current u s (d_ctx d)
  | TurnStream => True
  | TurnAction a => action_ok u a s
  end.

(** A dispatcher starts, takes a turn, another task changes an object of a
    store, or the process is started again. *)
Inductive cluster_step (c : Cluster) : Cluster -> Prop :=
| cluster_starts u since s ctx :
    calm c -> c_dispatcher c u = None ->
    begin_reconciliation u (c_storage c, store_default) = (Ok since, (s, ctx)) ->
    cluster_step c (MkCluster s (disp_insert u (MkDispatcher ctx since) (c_dispatcher c)))
| cluster_turn u turn d s' d' :
    calm c -> c_dispatcher c u = Some d -> turn_ok u turn (c_storage c) d ->
    dispatcher_turn u turn (c_storage c, d) = Some (s', d') ->
    cluster_step c (MkCluster s' (disp_insert u d' (c_dispatcher c)))
| cluster_event e s' :
    calm c -> event_below (2 ^ 63) e -> meta_step (c_storage c) e s' ->
    cluster_step c (MkCluster s' (c_dispatcher c))
| cluster_restart :
    cluster_step c (MkCluster (storage_new (root (c_storage c)) (files (c_storage c))) (fun _ => None)).
(** Begin without files. *)
Definition cluster_init (path : string) : Cluster := MkCluster (storage_new path ∅) (fun _ => None).
Inductive cluster_reach (path : string) : Cluster -> Prop :=
| reach_init : cluster_reach path (cluster_init path)
| reach_step (c c' : Cluster) : cluster_reach path c -> cluster_step c c' -> cluster_reach path c'.

Lemma inv_replace disp s s' M u d v :
  storage_inv disp s M -> meta_ok s' M -> queues_ok s' -> (forall w, w <> u -> stores s' !! LABEL w = stores s !! LABEL w) ->
  d_since d = Some v -> follows u s' M (d_ctx d) v -> storage_inv (disp_insert u d disp) s' M.
Proof.
  intros [H1 H2 H3] Hok Hq Hother Hd Hf. split; [done..|]. intros w d'. unfold disp_insert. case_decide as E.
  - intros [= <-]. subst w. by exists v.
  - intros Hd'. destruct (H3 w d' Hd') as (v' & Hv' & Hf'). exists v'. split; [done|].
    eapply follows_other, Hf'. by apply Hother.
Qed.
Lemma inv_insert disp s M u d v :
  storage_inv disp s M -> d_since d = Some v -> follows u s M (d_ctx d) v -> storage_inv (disp_insert u d disp) s M.
Proof. intros Hi. pose proof Hi as [H1 H2 _]. by apply inv_replace with s. Qed.

Lemma queues_ok_set_queue u q s st l :
  stores s !! LABEL u = Some st -> queue st = (l ++ q)%list -> queues_ok s -> queues_ok (set_queue u q s).
Proof.
  intros Hst El Hq w x. destruct (decide (w = u)) as [->|Hne]; [|rewrite set_queue_other by done; apply Hq].
  rewrite (set_queue_stores _ _ _ _ Hst). cbn. rewrite lookup_insert_eq. intros [= <-].
  specialize (Hq u st Hst). unfold queue_ok in *. cbn. rewrite El in Hq. by apply Forall_app in Hq as [_ ?].
Qed.

(** The object of an update of a status arrives early. *)
Lemma take_follows u s M ctx v k o :
  follows u s M ctx v -> epoch (store ctx) < 2 ^ 63 - 1 -> key_valid u k -> obj_ok u (key_to_string k) o ->
  M u !! key_to_string k = Some o -> follows u s M (snd (apply_changes [UpdateMod o] ctx)) v.
Proof.
  intros [F1 F2 F3 F4 F5] He Hk Ho HM. destruct (ctx_apply (UpdateMod o) ctx F3 He) as (Hm & _ & Hget).
  assert (obj_key o = k) as Ek by (eapply key_string_inj; [apply Ho|done|apply Ho]). cbn [change_key change_value] in Hget.
  split; [done|done|done| |].
  - intros k' o'. rewrite Hget. case_decide as E; [|apply F4]. rewrite Ek in E. subst k'.
    unfold take. destruct (ctx_get k ctx) as [old|] eqn:Eold; [case_match|]; intros [= <-]; [by apply F4|done..].
  - intros st k' Hst Hk'. rewrite Hget. case_decide as E; [|by apply F5]. rewrite Ek in E. subst k'.
    rewrite HM. apply replay_shortcut. by rewrite F5.
Qed.

Lemma dm_ok_empty : dm_ok obj_key (store (store_default : Ctx)).
Proof. split; cbn; [by intros k x ?%lookup_empty_Some..|done|done|done]. Qed.

Lemma inv_meta_ok disp s M M' : storage_inv disp s M -> meta_ok s M' -> storage_inv disp s M'.
Proof.
  intros [H1 H2 H3] H1'. split; [done..|]. intros u d Hd. destruct (H3 u d Hd) as (v & Hv & [F1 F2 F3 F4 F5]).
  exists v. split; [done|]. split; [done..|]. intros st k Hst Hk. rewrite <-(meta_ok_unique s M M') by done. by apply F5.
Qed.

Lemma inv_starts (c : Cluster) u since s ctx :
  calm c -> cluster_inv c -> begin_reconciliation u (c_storage c, store_default) = (Ok since, (s, ctx)) ->
  cluster_inv (MkCluster s (disp_insert u (MkDispatcher ctx since) (c_dispatcher c))).
Proof.
  intros [Hw _] Hi E. destruct (triple_get_store u (2 ^ 63) (c_storage c)) as (Hs & _ & Hl); [lia|lia|done|done|].
  destruct (get_store u (c_storage c)) as [[[]|e|] s1] eqn:Eg; cbn [fst snd] in *; [| |done].
  2: { exfalso. revert E. unfold begin_reconciliation, retrieve_all_k8_items, retrieve_items. erewrite bind_err by done. done. }
  destruct (inv_steps (c_dispatcher c) 1 _ s1 Hs Hi) as [M HM]. destruct Hl as [st Hst].
  assert (begin_reconciliation u (s1, store_default) = (Ok since, (s, ctx))) as E1.
  { rewrite <-E. unfold begin_reconciliation, retrieve_all_k8_items, retrieve_items. rewrite (bind_ok _ _ (c_storage c) s1 tt Eg).
    unfold mbind, M_bind, get_store. by rewrite Hst. }
  rewrite (begin_loaded s1 M u st) in E1 by (done || apply HM). injection E1 as <- <- <-.
  exists M. eapply inv_insert; [done|done|]. apply sync_follows; [apply HM|apply HM|done|apply dm_ok_empty|done|].
  intros x k p old _ _. unfold ctx_get. cbn. by rewrite lookup_empty.
Qed.

Lemma cluster_inv_turn (c : Cluster) u turn d s' d' :
  calm c -> cluster_inv c -> c_dispatcher c u = Some d -> turn_ok u turn (c_storage c) d ->
  dispatcher_turn u turn (c_storage c, d) = Some (s', d') -> cluster_inv (MkCluster s' (disp_insert u d' (c_dispatcher c))).
Proof.
  intros [Hw Hcalm] [M HM] Hd Hok E. destruct (Hcalm u d Hd) as [He Hsm].
  destruct (si_follows _ _ _ HM u d Hd) as (v & Hv & Hf). destruct (fo_loaded _ _ _ _ _ Hf) as [st Hst].
  destruct turn as [| |a]; cbn [dispatcher_turn] in E.
  - rewrite (begin_loaded _ M u st) in E by (done || apply HM). injection E as <- <-.
    exists M. eapply inv_insert; [done|done|]. by apply sync_follows; [apply HM|apply HM|done|apply Hf|..].
  - rewrite Hst, Hv in E. destruct (watch_next (Some v) (queue st)) as [[x|] q] eqn:Ew; [|done]. injection E as <- <-.
    destruct (watch_next_some _ _ _ _ Ew) as [[l El] _].
    exists M. cbn [c_storage c_dispatcher]. apply inv_replace with (c_storage c) v; [done| | | |done|].
    + by eapply meta_ok_set_queue, HM.
    + apply (queues_ok_set_queue u q _ st (l ++ [x])%list); [done|by rewrite <-app_assoc|apply HM].
    + intros w Hne. by apply set_queue_other.
    + cbn [d_ctx]. eapply stream_follows; [done|by apply HM|done..].
  - pose proof (process_action u a _ _ M v Hw Hok Hsm Hf) as Hp.
    destruct (process_ws_action u a (c_storage c, d_ctx d)) as [s1 ctx1]. injection E as <- <-.
    destruct Hp as [(k & Hs) Hctx]. destruct (inv_steps _ k _ s1 Hs (ex_intro _ M HM)) as [M1 HM1].
    exists M1. cbn [c_storage c_dispatcher]. destruct (si_follows _ _ _ HM1 u d Hd) as (v1 & Hv1 & Hf1).
    eapply inv_insert; [done|done|]. cbn [d_ctx]. destruct Hctx as [->|(k1 & o & -> & Hk1 & Hcur)]; [done|].
    specialize (Hcur M1 (si_meta _ _ _ HM1)). eapply take_follows; [done..| |done].
    by apply (disk_file _ _ _ _ (ok_disk _ _ (si_meta _ _ _ HM1) u)).
Qed.

Lemma inv_restart (c : Cluster) : cluster_inv c ->
  cluster_inv (MkCluster (storage_new (root (c_storage c)) (files (c_storage c))) (fun _ => None)).
Proof.
  intros [M [Hok _ _]]. exists M. split; [|by intros u st; cbn; rewrite lookup_empty|done].
  split; [apply Hok|by intros u st; cbn; rewrite lookup_empty|by intros l; cbn; rewrite lookup_empty; intros []].
Qed.

Lemma cluster_reach_inv path (c : Cluster) : cluster_reach path c -> cluster_inv c.
Proof.
  induction 1 as [|c c' _ IH Hs].
  - exists (fun _ => ∅). split; [|by intros u st; cbn; rewrite lookup_empty|done].
    split; [intros u; split|by intros u st; cbn; rewrite lookup_empty|by intros l; cbn; rewrite lookup_empty; intros []].
    + intros id o. by rewrite lookup_empty.
    + intros f. cbn. rewrite lookup_empty. by intros [].
  - destruct Hs as [u since s ctx Hc Hd E|u turn d s' d' Hc Hd Hok E|e s' [Hw _] He Hs|].
    + by eapply inv_starts.
    + by eapply cluster_inv_turn.
    + destruct IH as [M HM]. destruct (cluster_inv_step _ _ s' M HM) as [M' HM']; [|by exists M'].
      exists e, (2 ^ 63). split_and!; [done|done|done|lia|lia].
    + by apply inv_restart.
Qed.

(** *** What reachable clusters have *)

(** The objects of the store of a kind are those of the storage. *)
Definition same_objects u s ctx : Prop := forall k o,
  ctx_get k ctx = Some o <->
  exists st p, stores s !! LABEL u = Some st /\ data st !! key_to_string k = Some p /\ inner p = o /\ obj_key o = k.

Lemma follows_drained u s M ctx v st :
  meta_ok s M -> follows u s M ctx v -> stores s !! LABEL u = Some st -> pending v (queue st) = [] -> same_objects u s ctx.
Proof.
  intros Hok Hf Hst Hp k o. pose proof (ok_memory _ _ Hok u st Hst) as Hm. split.
  - intros Ho. pose proof (fo_objects _ _ _ _ _ Hf k o Ho) as Hoo. pose proof (ctx_key _ _ _ (fo_map _ _ _ _ _ Hf) Ho) as Ek.
    assert (key_valid u k) as Hk by (rewrite <-Ek; apply Hoo).
    pose proof (fo_replay _ _ _ _ _ Hf st k Hst Hk) as Hr. rewrite Hp, Ho in Hr. cbn in Hr.
    exists st. rewrite (mem_lookup _ _ _ _ _ Hm), <-Hr. cbn. by eauto.
  - intros (st' & p & Hst' & Hd & <- & Ek). rewrite Hst in Hst'. injection Hst' as <-.
    assert (M u !! key_to_string k = Some (inner p)) as HM by (rewrite <-(mem_objects _ _ _ _ Hm), lookup_fmap; by rewrite Hd).
    destruct (disk_file _ _ _ _ (ok_disk _ _ Hok u) _ _ HM) as [Hoo _].
    assert (key_valid u k) as Hk by (rewrite <-Ek; apply Hoo).
    pose proof (fo_replay _ _ _ _ _ Hf st k Hst Hk) as Hr. rewrite Hp, HM in Hr. done.
Qed.

(** Turns of the stream as long as it is ready, at most [n]. *)
Fixpoint stream_turns (n : nat) u (sd : Storage * Dispatcher K S St) : Storage * Dispatcher K S St :=
  match n with
  | O => sd
  | Datatypes.S n =>
      match dispatcher_turn u TurnStream sd with
      | Some sd => stream_turns n u sd
      | None => sd
      end
  end.

Lemma stream_turns_drain n u s d M v st :
  meta_ok s M -> queues_ok s -> d_since d = Some v -> follows u s M (d_ctx d) v -> stores s !! LABEL u = Some st ->
  (List.length (queue st) <= n)%nat -> epoch (store (d_ctx d)) + Z.of_nat n <= 2 ^ 63 - 1 ->
  same_objects u (fst (stream_turns n u (s, d))) (d_ctx (snd (stream_turns n u (s, d)))).
Proof.
  revert s d st. induction n as [|n IH]; intros s d st Hok Hq Hd Hf Hst Hlen He.
  - cbn. eapply follows_drained; [done..|]. destruct (queue st); [done|cbn in Hlen; lia].
  - cbn [stream_turns dispatcher_turn]. rewrite Hst, Hd. destruct (watch_next (Some v) (queue st)) as [[x|] q] eqn:Ew.
    + destruct (watch_next_some _ _ _ _ Ew) as [[l El] _].
      apply (IH _ _ (MkSpecStore (version st) (data st) q (store_path st))).
      * by eapply meta_ok_set_queue.
      * apply (queues_ok_set_queue u q _ st (l ++ [x])%list); [done|by rewrite <-app_assoc|done].
      * done.
      * cbn [d_ctx]. eapply stream_follows; [done|by apply Hq|done|lia|done].
      * rewrite (set_queue_stores _ _ _ _ Hst). cbn. by rewrite lookup_insert_eq.
      * cbn. rewrite El, length_app in Hlen. cbn in Hlen. lia.
      * cbn [d_ctx]. assert (update_ok u (version st) x) as Hx.
        { specialize (Hq u st Hst). unfold queue_ok in Hq. rewrite El in Hq. by apply Forall_app in Hq as [_ []%Forall_cons]. }
        destruct (stream_event_get u x _ (d_ctx d) Hx (fo_map _ _ _ _ _ Hf)) as (_ & ? & _); lia.
    + cbn. eapply follows_drained; [done..|]. by eapply watch_next_none.
Qed.

(** C11: as long as no file access fails, each operation on the metadata storage
    is done with its announcement before the next one begins, and a dispatcher
    lists everything again only when no object that was deleted and created
    again is still to be read: whatever dispatchers start, which actions they
    carry out, what other tasks change and how often the process is started
    again, a dispatcher that has read as many updates as its channel holds has
    in its store exactly the objects of the metadata storage, each under its
    key.  [late_update_resurrects], [resync_keeps_stale] and
    [failed_flush_in_memory] show what happens otherwise. *)
Theorem dispatch_converges path (c : Cluster) u d st :
  cluster_reach path c -> c_dispatcher c u = Some d -> stores (c_storage c) !! LABEL u = Some st ->
  epoch (store (d_ctx d)) + Z.of_nat (List.length (queue st)) <= 2 ^ 63 - 1 ->
  let '(s', d') := stream_turns (List.length (queue st)) u (c_storage c, d) in same_objects u s' (d_ctx d').
Proof.
  intros [M HM]%cluster_reach_inv Hd Hst He. destruct (si_follows _ _ _ HM u d Hd) as (v & Hv & Hf).
  rewrite (surjective_pairing (stream_turns _ _ _)).
  apply (stream_turns_drain _ u _ _ M v st); [apply HM|apply HM|done..].
Qed.

(** C18: as long as no file access fails, the files hold the objects of the
    storage: in every state that dispatchers, other tasks and restarts reach, to
    read the directory of a kind again succeeds and gives the objects that the
    storage has in memory.  After a failed access they can differ
    ([failed_flush_in_memory]). *)
Theorem metadata_durable path (c : Cluster) u :
  cluster_reach path c ->
  exists st', spec_store_load u (dir_of (root (c_storage c)) u) (files (c_storage c)) = Ok st' /\
    forall st, stores (c_storage c) !! LABEL u = Some st -> inner <$> data st' = inner <$> data st.
Proof.
  intros [M HM]%cluster_reach_inv. destruct (load_on_disk _ u _ _ (ok_disk _ _ (si_meta _ _ _ HM) u)) as (st' & Hl & Hm & _).
  exists st'. split; [done|]. intros st Hst. rewrite (mem_objects _ _ _ _ Hm).
  symmetry. apply (mem_objects _ _ _ _ (ok_memory _ _ (si_meta _ _ _ HM) u st Hst)).
Qed.

Lemma cluster_well path (c : Cluster) n :
  cluster_reach path c -> files (c_storage c) = ∅ ->
  (forall u st, stores (c_storage c) !! LABEL u = Some st -> version st < n) -> well n (c_storage c).
Proof.
  intros [M [Hok _ _]]%cluster_reach_inv Hf Hv. exists M. split; [done|]. split; [|done]. intros u id o Ho.
  destruct (disk_file _ _ _ _ (ok_disk _ _ Hok u) id o Ho) as [_ Hfile]. by rewrite Hf, lookup_empty in Hfile.
Qed.

(** An update that does not come from the present revision or a later one is
    refused and changes nothing; any other one is stored with the next
    revision, in memory and on disk, and is announced. *)
Lemma apply_optimistic s M u st o :
  meta_ok s M -> stores s !! LABEL u = Some st -> obj_ok u (item_id (obj_item o)) o ->
  match M u !! item_id (obj_item o) with
  | Some prev =>
      if newer prev o then
        on_store (LABEL u) (store_apply u o) s =
          (Err (StaleValue (revision (obj_item prev)) (revision (obj_item o))), MkStorage (root s) (<[LABEL u := st]> (stores s)) (files s))
      else fst (on_store (LABEL u) (store_apply u o) s) = Ok tt
  | None => fst (on_store (LABEL u) (store_apply u o) s) = Ok tt
  end.
Proof.
  intros Hok Hst Ho. unfold on_store. rewrite Hst, (store_apply_eq _ _ _ _ _ _ (ok_memory _ _ Hok u st Hst) Ho).
  unfold stale, newer. cbn [item_is_newer local_item]. destruct (M u !! _) as [prev|]; [|done]. by destruct (_ <? _).
Qed.
End laws.
Arguments Cluster U K S St Y {_ _}.

(** ** Two kinds *)

(** Objects of the kind [Child] belong to objects of the kind [Parent]; a file
    holds the object itself. *)
Inductive ExKind := Parent | Child.
#[export] Instance ExKind_eq_dec : EqDecision ExKind.
Proof. solve_decision. Defined.
Definition ex_kinds : SpecKinds ExKind string Z Z := {|
  LABEL u := match u with Parent => "PARENT" | Child => "CHILD" end;
  Owner _ := Parent;
  key_to_string k := k;
  key_from_str _ s := Some s;
  status_default _ := 0;
|}.
(** A disk on which the files of [bad] cannot be created. *)
Definition ex_disk (bad : string) : Disk ExKind Z Z (VersionedSpecStorage Z Z) := {|
  to_yaml _ s := (s, None);
  from_yaml _ y := inl y;
  can_read_dir _ := None;
  can_list _ := true;
  can_open _ := None;
  can_create p := if String.eqb (snd p) (bad ++ ".yaml") then Some "No space left on device" else None;
  can_remove _ := true;
|}.
#[local] Existing Instance ex_kinds.
#[local] Instance ex_good_disk : Disk ExKind Z Z (VersionedSpecStorage Z Z) := ex_disk EmptyString.
#[local] Instance ex_meta_ok : MetaOK ExKind string Z Z (VersionedSpecStorage Z Z).
Proof.
  refine {| key_valid _ k := k <> EmptyString |}; try done.
  by intros [] [].
Defined.
#[local] Instance ex_no_failure : NoAccessFails ExKind string Z Z (VersionedSpecStorage Z Z).
Proof.
  split; try done. intros u k dir Hk. cbn -[String.eqb String.append]. destruct (String.eqb_spec (k ++ ".yaml") (EmptyString ++ ".yaml")) as [E|]; [|done].
  by apply append_inj_r in E.
Defined.

Notation ExStorage := (LocalMetadataStorage ExKind string Z Z (VersionedSpecStorage Z Z)).
Notation ExObj := (MetadataStoreObject string Z Z LocalMetadataItem).
Definition ex_obj (key : string) (spec : Z) (item : LocalMetadataItem) : ExObj := MkObject spec 0 key (MkContext item).

Definition ex_init : Cluster ExKind string Z Z (VersionedSpecStorage Z Z) := cluster_init "/meta".
(** A dispatcher of the children that has begun, and one that created an object. *)
Definition ex_begin := Eval vm_compute in begin_reconciliation Child (c_storage ex_init, store_default).
Definition ex_started : ExStorage * Dispatcher string Z Z := (fst (snd ex_begin), MkDispatcher (snd (snd ex_begin)) (Some 0)).
Definition ex_created : ExStorage * Dispatcher string Z Z :=
  default ex_started (dispatcher_turn Child (TurnAction (UpdateSpec "a" 7)) ex_started).

Lemma ex_reach : cluster_reach "/meta"
  (MkCluster (fst ex_created) (disp_insert Child (snd ex_created) (disp_insert Child (snd ex_started) (c_dispatcher ex_init)))).
Proof.
  assert (calm ex_init) as Hc.
  { split; [|done]. apply (cluster_well "/meta"); [apply reach_init|done|by intros []]. }
  assert (cluster_reach "/meta" (MkCluster (fst ex_started) (disp_insert Child (snd ex_started) (c_dispatcher ex_init)))) as Hr.
  { eapply reach_step; [apply reach_init|]. apply (cluster_starts _ Child (Some 0) (fst ex_started)); [done|done|]. vm_compute. reflexivity. }
  eapply reach_step; [exact Hr|]. apply cluster_turn with (turn := TurnAction (UpdateSpec "a" 7)) (d := snd ex_started).
  - split.
    + apply (cluster_well "/meta"); [done|done|]. intros [] st Hst; vm_compute in Hst; [done|]. injection Hst as <-. done.
    + intros [] d Hd; [done|]. injection Hd as <-. split; [done|]. intros k o Ho. discriminate Ho.
  - done.
  - cbn. done.
  - vm_compute. reflexivity.
Qed.

Lemma dispatch_converges_witness : exists st,
  stores (fst ex_created) !! "CHILD" = Some st /\ List.length (queue st) = 1%nat /\
  let '(s', d') := stream_turns 1 Child ex_created in same_objects Child s' (d_ctx d').
Proof.
  eexists. split; [vm_compute; reflexivity|]. split; [reflexivity|].
  exact (dispatch_converges "/meta" _ Child (snd ex_created) _ ex_reach eq_refl eq_refl ltac:(vm_compute; discriminate)).
Defined.

Lemma metadata_durable_witness : exists st',
  spec_store_load Child "/meta/CHILD" (files (fst ex_created)) = Ok st' /\
  forall st, stores (fst ex_created) !! "CHILD" = Some st -> inner <$> data st' = inner <$> data st.
Proof. exact (metadata_durable "/meta" _ Child ex_reach). Defined.

(** ** Where the storage and its readers part *)

(** Turns that are all ready. *)
Fixpoint turns (ts : list (Turn string Z Z)) (sd : ExStorage * Dispatcher string Z Z) : option (ExStorage * Dispatcher string Z Z) :=
  match ts with
  | [] => Some sd
  | t :: ts => sd ← dispatcher_turn Child t sd; turns ts sd
  end.
Definition stored_spec (key : string) (s : ExStorage) : option Z :=
  st ← stores s !! "CHILD"; p ← data st !! key; Some (obj_spec (inner p)).
Definition seen_spec (key : string) (d : Dispatcher string Z Z) : option Z := obj_spec <$> ctx_get key (d_ctx d).

(** An object with revision 1 is deleted and created again before the
    dispatcher reads of it, and then the timer fires.  The full update does not
    replace the old object, since its revision is higher, and the new stream
    skips both changes: nothing is left to read, and the controllers keep the
    object that is gone. *)
Theorem resync_keeps_stale : exists s d,
  turns [TurnAction (UpdateSpec "a" 7); TurnStream; TurnAction (UpdateStatus "a" 1); TurnStream;
         TurnAction (DeleteAction "a"); TurnAction (Apply (ex_obj "a" 9 (item_new "a"))); TurnTimer] ex_started = Some (s, d) /\
  stored_spec "a" s = Some 9 /\ seen_spec "a" d = Some 7 /\ dispatcher_turn Child TurnStream (s, d) = None.
Proof. eexists _, _. split; [vm_compute; reflexivity|]. vm_compute. done. Qed.

(** The link to a child carries the child's revision.  When the child has been
    updated since, its deletion does not find the link, and the parent keeps a
    child that is gone. *)
Definition parent_children (s : ExStorage) : option (list string) :=
  st ← stores s !! "PARENT"; p ← data st !! "p"; all ← item_children (obj_item (inner p)); cs ← all !! "CHILD";
  Some (map item_id cs).
Definition with_updated_child : ME MetaError ExStorage unit :=
  client_apply Parent (ex_obj "p" 1 (item_new "p")) ;;
  client_apply Child (ex_obj "c" 2 (with_parent "c" (item_new "p"))) ;;
  update_spec_by_key Child "c" 3 ;;
  delete_item Child (item_new "c").
Theorem unlink_misses_updated_child :
  let '(r, s) := with_updated_child (storage_new "/meta" ∅) in
  r = Ok tt /\ stored_spec "c" s = None /\ parent_children s = Some ["c"].
Proof. vm_compute. done. Qed.

(** After a restart an object with children cannot be deleted until the store
    of the children has been loaded. *)
Definition with_child : ME MetaError ExStorage unit :=
  client_apply Parent (ex_obj "p" 1 (item_new "p")) ;;
  client_apply Child (ex_obj "c" 2 (with_parent "c" (item_new "p"))).
Theorem delete_needs_children_loaded :
  fst (delete_item Parent (item_new "p") (storage_new "/meta" (files (snd (with_child (storage_new "/meta" ∅))))))
  = Err (StoreNotFound "CHILD").
Proof. vm_compute. done. Qed.

(** When the file of an object cannot be written, [apply] fails, but the
    storage has the new object in memory, and no watcher is told. *)
Theorem failed_flush_in_memory :
  let '(r, s) := client_apply (Disk0 := ex_disk "a") Child (ex_obj "a" 1 (item_new "a")) (storage_new "/meta" ∅) in
  r = Err (OtherError "No space left on device") /\ stored_spec "a" s = Some 1 /\ files s = ∅ /\
  queue <$> stores s !! "CHILD" = Some [].
Proof. vm_compute. done. Qed.

(** [apply] sends its update after it has released the lock.  A deletion by
    another task in between is announced first, and the update then brings the
    object back in every store that follows. *)
Theorem late_update_resurrects :
  let start : SpecStore ExKind string Z Z := MkSpecStore 0 ∅ [] "/meta/CHILD" in
  let o := ex_obj "a" 1 (item_new "a") in
  let '(r, (st, fs)) := apply_locked Child o (start, ∅) in
  let '(_, (st, fs)) := store_delete_item (item_new "a") (st, fs) in
  match r with
  | Ok p =>
      let st := send_update (SpecMod p) st in
      data st = ∅ /\ fs = ∅ /\
      ctx_get "a" (foldl (fun ctx c => stream_event Child c ctx) store_default (queue st)) = Some o
  | _ => False
  end.
Proof. vm_compute. done. Qed.

(** A conflict is recognised by the number 409 in the text of the error, which
    a stale revision can contain. *)
Theorem stale_revision_looks_like_conflict : str_contains "409" (error_text (StaleValue 409 408)) = true.
Proof. vm_compute. done. Qed.
