(* ===== verification/Auth.v ===== *)
(** * Authorization

    [fluvio-auth] and [fluvio-sc/src/services/auth]: what an identity may do.
    A context answers whether an action on a type of objects, or on one object,
    is allowed; the error of a context is an I/O error. *)

From S2P Require Import Prelude Names EpochMap MetadataStore ScPartitions LocalMeta LocalMetaLaws Dispatch SmartContext.
From stdpp Require Import gmap strings list.
From Stdlib Require Import Ascii String.

#[local] Open Scope string_scope.
#[local] Open Scope Z_scope.

(* src/crates/fluvio-controlplane-metadata/src/lib.rs:31-42 ObjectType *)
Inductive ObjectType :=
| TySpu | TyCustomSpu | TySpuGroup | TyTopic | TyPartition | TyManagedConnector | TySmartModule | TyTableFormat
| TyDerivedStream | TyMirror.
#[export] Instance ObjectType_eq_dec : EqDecision ObjectType. Proof. solve_decision. Defined.
#[export] Instance ObjectType_countable : Countable ObjectType.
Proof.
  refine (inj_countable'
    (fun t => match t with
      | TySpu => 0 | TyCustomSpu => 1 | TySpuGroup => 2 | TyTopic => 3 | TyPartition => 4 | TyManagedConnector => 5
      | TySmartModule => 6 | TyTableFormat => 7 | TyDerivedStream => 8 | TyMirror => 9
      end%nat)
    (fun n => match n with
      | 0 => TySpu | 1 => TyCustomSpu | 2 => TySpuGroup | 3 => TyTopic | 4 => TyPartition | 5 => TyManagedConnector
      | 6 => TySmartModule | 7 => TyTableFormat | 8 => TyDerivedStream | _ => TyMirror
      end%nat) _); abstract by intros [].
Defined.

(* src/crates/fluvio-auth/src/policy.rs:12-15 TypeAction *)
Inductive TypeAction := TypeCreate | TypeRead.
(* src/crates/fluvio-auth/src/policy.rs:17-20 InstanceAction *)
Inductive InstanceAction := InstanceDelete | InstanceUpdate.

(** [inl] is an [AuthError], which is an I/O error. *)
(* src/crates/fluvio-auth/src/policy.rs:22-38 AuthContext *)
Class AuthContext (AC : Type) := {
  allow_type_action : AC -> ObjectType -> TypeAction -> string + bool;
  allow_instance_action : AC -> ObjectType -> InstanceAction -> string -> string + bool;
}.

(* src/crates/fluvio-auth/src/root.rs:30-50 RootAuthContext *)
Inductive RootAuthContext := MkRootAuthContext.
#[export] Instance root_auth : AuthContext RootAuthContext := {|
  allow_type_action _ _ _ := inr true;
  allow_instance_action _ _ _ _ := inr true;
|}.

(* src/crates/fluvio-sc/src/services/auth/mod.rs:76-76 ReadOnlyAuthContext *)
Inductive ReadOnlyAuthContext := MkReadOnlyAuthContext.
(* src/crates/fluvio-sc/src/services/auth/mod.rs:80-86 ReadOnlyAuthContext::allow_type_action *)
Definition read_only_type_action (ty : ObjectType) (action : TypeAction) : bool :=
  match action with TypeRead => true | TypeCreate => match ty with TyCustomSpu => true | _ => false end end.
(* src/crates/fluvio-sc/src/services/auth/mod.rs:88-96 ReadOnlyAuthContext::allow_instance_action *)
Definition read_only_instance_action (ty : ObjectType) (action : InstanceAction) (key : string) : bool := true.
#[export] Instance read_only_auth : AuthContext ReadOnlyAuthContext := {|
  allow_type_action _ ty action := inr (read_only_type_action ty action);
  allow_instance_action _ ty action key := inr (read_only_instance_action ty action key);
|}.

(** ** The basic policy *)

(* src/crates/fluvio-sc/src/services/auth/basic.rs:147-153 Action *)
Inductive Action := ActCreate | ActRead | ActUpdate | ActDelete | ActAll.
#[export] Instance Action_eq_dec : EqDecision Action. Proof. solve_decision. Defined.
(* src/crates/fluvio-sc/src/services/auth/basic.rs:155-162 Action::from(TypeAction) *)
Definition action_of_type (action : TypeAction) : Action :=
  match action with TypeCreate => ActCreate | TypeRead => ActRead end.
(* src/crates/fluvio-sc/src/services/auth/basic.rs:95-98 ActionUrn *)
Record ActionUrn := MkActionUrn { urn_action : Action; urn_instance : option string }.
#[export] Instance ActionUrn_eq_dec : EqDecision ActionUrn. Proof. solve_decision. Defined.

(* src/crates/fluvio-auth/src/x509/identity.rs:11-14 X509Identity *)
Record X509Identity := MkIdentity { principal : string; scopes : list string }.
(* src/crates/fluvio-auth/src/x509/authenticator.rs:26-35 ScopeBindings::get_scopes *)
Definition get_scopes (self : gmap string (list string)) (principal : string) : list string :=
  default [] (self !! principal).

(* src/crates/fluvio-sc/src/services/auth/basic.rs:174-174 BasicRbacPolicy *)
Definition BasicRbacPolicy : Type := gmap string (gmap ObjectType (list ActionUrn)).

(** Whether a permission of a role is one for the action on the instance. *)
(* src/crates/fluvio-sc/src/services/auth/basic.rs:210-222 evaluate (closure) *)
Definition permission_grants (action : Action) (instance : option string) (permission : ActionUrn) : bool :=
  let granted := bool_decide (urn_action permission = action) || bool_decide (urn_action permission = ActAll) in
  match urn_instance permission, instance with
  | Some _, None => false
  | Some pi, Some i => if negb (str_contains i pi) then false else granted
  | _, _ => granted
  end.
(* src/crates/fluvio-sc/src/services/auth/basic.rs:193-230 BasicRbacPolicy::evaluate *)
Definition evaluate (self : BasicRbacPolicy) (action : Action) (object_type : ObjectType) (instance : option string)
    (identity : X509Identity) : bool :=
  existsb (fun scope =>
    match self !! scope with
    | Some objects =>
        match objects !! object_type with
        | Some actions => existsb (permission_grants action instance) actions
        | None => false
        end
    | None => false
    end) (scopes identity).

(* src/crates/fluvio-sc/src/services/auth/basic.rs:235-269 BasicRbacPolicy::default *)
Definition default_policy : BasicRbacPolicy :=
  let all := [MkActionUrn ActAll None] in
  {[ "Root" :=
     <[TySpu := all]> (<[TyCustomSpu := all]> (<[TySpuGroup := all]> (<[TyTopic := all]> (<[TyPartition := all]>
       (<[TyTableFormat := all]>
         {[ TyMirror := [MkActionUrn ActAll (Some "user1"); MkActionUrn ActAll (Some "user2")] ]}))))) ]}.

(* src/crates/fluvio-sc/src/services/auth/basic.rs:47-50 BasicAuthContext *)
Record BasicAuthContext := MkBasicAuthContext { identity : X509Identity; policy : BasicRbacPolicy }.
(* src/crates/fluvio-sc/src/services/auth/basic.rs:54-62 BasicAuthContext::allow_type_action *)
Definition basic_type_action (self : BasicAuthContext) (ty : ObjectType) (action : TypeAction) : bool :=
  evaluate (policy self) (action_of_type action) ty None (identity self).
(* src/crates/fluvio-sc/src/services/auth/basic.rs:64-72 BasicAuthContext::allow_instance_action *)
Definition basic_instance_action (self : BasicAuthContext) (ty : ObjectType) (action : InstanceAction) (key : string) : bool :=
  true.
#[export] Instance basic_auth : AuthContext BasicAuthContext := {|
  allow_type_action self ty action := inr (basic_type_action self ty action);
  allow_instance_action self ty action key := inr (basic_instance_action self ty action key);
|}.

(** ** The text of a permission

    The name of an action is written and read by [serde_json]. *)

Section urn.
Context (action_to_string : Action -> string) (action_from_str : string -> option Action).

(* src/crates/fluvio-sc/src/services/auth/basic.rs:107-120 ActionUrn::serialize *)
Definition urn_to_string (self : ActionUrn) : string :=
  match urn_instance self with
  | Some instance => action_to_string (urn_action self) ++ ":" ++ instance
  | None => action_to_string (urn_action self)
  end.
(** [urn.split(':')], of which the first two parts are read. *)
(* src/crates/fluvio-sc/src/services/auth/basic.rs:124-143 ActionUrn::deserialize *)
Definition urn_from_str (urn : string) : option ActionUrn :=
  let '(action_str, rest) := split_first ":"%char urn in
  action ← action_from_str action_str;
  Some (MkActionUrn action (match rest with Some rest => Some (fst (split_first ":"%char rest)) | None => None end)).
End urn.

(** ** Laws *)

(** An identity may do what a permission of one of its roles is for. *)
Lemma evaluate_iff (self : BasicRbacPolicy) action ty instance who :
  evaluate self action ty instance who = true <->
  exists scope objects actions p,
    scope ∈ scopes who /\ self !! scope = Some objects /\ objects !! ty = Some actions /\ p ∈ actions /\
    permission_grants action instance p = true.
Proof.
  unfold evaluate. rewrite existsb_exists. split.
  - intros (scope & Hs & E). apply list_elem_of_In in Hs. destruct (self !! scope) as [objects|] eqn:E1; [|done].
    destruct (objects !! ty) as [actions|] eqn:E2; [|done]. apply existsb_exists in E as (p & Hp & E).
    apply list_elem_of_In in Hp. by exists scope, objects, actions, p.
  - intros (scope & objects & actions & p & Hs & E1 & E2 & Hp & E). exists scope. split; [by apply list_elem_of_In|].
    rewrite E1, E2. apply existsb_exists. exists p. split; [by apply list_elem_of_In|done].
Qed.

(** More roles never take a permission away. *)
Lemma evaluate_mono (self : BasicRbacPolicy) action ty instance who who' :
  scopes who ⊆ scopes who' -> evaluate self action ty instance who = true -> evaluate self action ty instance who' = true.
Proof. rewrite !evaluate_iff. intros Hs (scope & ? & ? & ? & ? & ?). exists scope. naive_solver. Qed.

(** A permission that names an instance grants nothing when none is asked
    for, as in [allow_type_action]. *)
Lemma instance_grants_no_type action p i : urn_instance p = Some i -> permission_grants action None p = false.
Proof. intros E. unfold permission_grants. by rewrite E. Qed.

(** The permissions of the default policy: [Root] may create and read objects
    of every kind but SmartModules, mirrors, connectors and derived streams. *)
Lemma default_policy_root ty action :
  basic_type_action (MkBasicAuthContext (MkIdentity "root" ["Root"]) default_policy) ty action =
  match ty with TySmartModule | TyMirror | TyManagedConnector | TyDerivedStream => false | _ => true end.
Proof. by destruct ty, action. Qed.

(** A permission is read back as it was written when its instance has no
    colon in it. *)
Lemma urn_roundtrip (action_to_string : Action -> string) (action_from_str : string -> option Action) (urn : ActionUrn) :
  (forall a, action_from_str (action_to_string a) = Some a) ->
  (forall a, lacks ":"%char (action_to_string a) = true) ->
  (forall i, urn_instance urn = Some i -> lacks ":"%char i = true) ->
  urn_from_str action_from_str (urn_to_string action_to_string urn) = Some urn.
Proof.
  intros Hp Hl Hi. destruct urn as [a [i|]]; unfold urn_to_string, urn_from_str; cbn [urn_instance urn_action].
  - change (":" ++ i)%string with (String ":"%char i). rewrite split_first_app by apply Hl. cbn. rewrite Hp. cbn. by rewrite split_first_lacks by (by apply Hi).
  - rewrite split_first_lacks by apply Hl. cbn. by rewrite Hp.
Qed.
