(* ===== verification/AdminTypes.v ===== *)
(** * Objects and requests of the admin API

    The specs of SPU groups, table formats, SmartModules and mirrors
    ([fluvio-controlplane-metadata]), the requests of the admin API and their
    replies ([fluvio-sc-schema]), and how names are checked and filtered. *)

From S2P Require Import Prelude Names EpochMap MetadataStore ClusterTypes Topics SpuProduce SmartContext ScPartitions LocalMeta.
From S2P Require Import LocalMetaLaws Dispatch.
From stdpp Require Import gmap strings list.
From Stdlib Require Import Ascii String.

#[local] Open Scope string_scope.
#[local] Open Scope Z_scope.

(** ** SPU groups *)

(* src/crates/fluvio-controlplane-metadata/src/spg/spec.rs:53-55 ReplicationConfig *)
Record ReplicationConfig := MkReplicationConfig { in_sync_replica_min : option Z }.
(* src/crates/fluvio-controlplane-metadata/src/spg/spec.rs:63-66 StorageConfig *)
Record StorageConfig := MkStorageConfig { sc_log_dir : option string; sc_size : option string }.
(* src/crates/fluvio-controlplane-metadata/src/spg/spec.rs:94-97 EnvVar *)
Record EnvVar := MkEnvVar { env_name : string; env_value : string }.
(* src/crates/fluvio-controlplane-metadata/src/spg/spec.rs:30-35 SpuConfig *)
Record SpuConfig := MkSpuConfig {
  config_rack : option string;
  config_replication : option ReplicationConfig;
  config_storage : option StorageConfig;
  config_env : list EnvVar;
}.
(* src/crates/fluvio-controlplane-metadata/src/spg/spec.rs:12-22 SpuGroupSpec *)
Record SpuGroupSpec := MkSpuGroupSpec { spg_replicas : Z; spg_min_id : Z; spg_spu_config : SpuConfig }.
(* src/crates/fluvio-controlplane-metadata/src/spg/status.rs:49-57 SpuGroupStatusResolution *)
Inductive SpuGroupStatusResolution := SpgInit | SpgInvalid | SpgReserved.
(* src/crates/fluvio-controlplane-metadata/src/spg/status.rs:13-19 SpuGroupStatus *)
Record SpuGroupStatus := MkSpuGroupStatus { spg_resolution : SpuGroupStatusResolution; spg_reason : option string }.

(** ** Table formats *)

(* src/crates/fluvio-controlplane-metadata/src/tableformat/spec.rs:46-52 DataFormat *)
Inductive DataFormat := JSON.
(* src/crates/fluvio-controlplane-metadata/src/tableformat/spec.rs:78-86 TableFormatAlignment *)
Inductive TableFormatAlignment := AlignLeft | AlignRight | AlignCenter.
(* src/crates/fluvio-controlplane-metadata/src/tableformat/spec.rs:133-141 Color *)
Inductive Color := Blue | Yellow | Green.
(* src/crates/fluvio-controlplane-metadata/src/tableformat/spec.rs:60-70 TableFormatColumnConfig *)
Record TableFormatColumnConfig := MkColumn {
  header_label : option string;
  col_width : option string;
  alignment : option TableFormatAlignment;
  key_path : string;
  col_format : option string;
  col_display : option bool;
  primary_key : option bool;
  header_bg_color : option Color;
  header_text_color : option Color;
}.
(* src/crates/fluvio-controlplane-metadata/src/tableformat/spec.rs:11-17 TableFormatSpec *)
Record TableFormatSpec := MkTableFormatSpec {
  tf_name : string;
  tf_input_format : option DataFormat;
  tf_columns : option (list TableFormatColumnConfig);
  tf_smartmodule : option string;
}.
(* src/crates/fluvio-controlplane-metadata/src/tableformat/status.rs:49-61 TableFormatStatusResolution *)
Inductive TableFormatStatusResolution := TfInit | TfInvalid | TfRunning | TfPending | TfFailed.
(* src/crates/fluvio-controlplane-metadata/src/tableformat/status.rs:13-19 TableFormatStatus *)
Record TableFormatStatus := MkTableFormatStatus { tf_resolution : TableFormatStatusResolution; tf_reason : option string }.

(** ** Mirrors *)

(* src/crates/fluvio-controlplane-metadata/src/mirror/spec.rs:88-93 ClientTls *)
Record ClientTls := MkClientTls { tls_domain : string; tls_ca_cert : string; tls_client_cert : string; tls_client_key : string }.
(* src/crates/fluvio-controlplane-metadata/src/mirror/spec.rs:74-80 Home *)
Record Home := MkHome { home_id : string; home_remote_id : string; home_public_endpoint : string; home_client_tls : option ClientTls }.
(** A remote cluster is known by its id. *)
(* src/crates/fluvio-controlplane-metadata/src/mirror/spec.rs:33-40 MirrorType *)
Inductive MirrorType := RemoteType (remote_id : string) | HomeType (home : Home).
(* src/crates/fluvio-controlplane-metadata/src/mirror/spec.rs:11-14 MirrorSpec *)
Record MirrorSpec := MkMirrorSpec { mirror_type : MirrorType }.

(* src/crates/fluvio-controlplane-metadata/src/mirror/status.rs:65-79 MirrorPairStatus *)
Inductive MirrorPairStatus := PairWaiting | PairSuccessful | PairFailed | PairDisabled | PairUnauthorized | PairDetailFailure (msg : string).
(* src/crates/fluvio-controlplane-metadata/src/mirror/status.rs:83-89 ConnectionStatus *)
Inductive ConnectionStatus := ConnOffline | ConnOnline.
(** [last_seen] is all that the statistics of the connection have. *)
(* src/crates/fluvio-controlplane-metadata/src/mirror/status.rs:9-16 MirrorStatus *)
Record MirrorStatus := MkMirrorStatus {
  connection_status : ConnectionStatus;
  pairing_sc : MirrorPairStatus;
  pairing_spu : MirrorPairStatus;
  last_seen : Z;
}.
(* src/crates/fluvio-controlplane-metadata/src/mirror/status.rs:19-30 MirrorStatus::new *)
Definition mirror_status_new (pairing : MirrorPairStatus) (status : ConnectionStatus) (last_seen : Z) : MirrorStatus :=
  MkMirrorStatus status pairing PairWaiting last_seen.
(* src/crates/fluvio-controlplane-metadata/src/mirror/status.rs:32-38 MirrorStatus::new_by_spu *)
Definition mirror_status_by_spu (pairing : MirrorPairStatus) (last_seen : Z) : MirrorStatus :=
  MkMirrorStatus ConnOffline PairWaiting pairing last_seen.
(* src/crates/fluvio-controlplane-metadata/src/mirror/status.rs:40-44 MirrorStatus::merge_from_sc *)
Definition merge_from_sc (other self : MirrorStatus) : MirrorStatus :=
  MkMirrorStatus (connection_status other) (pairing_sc other) (pairing_spu self) (last_seen other).
(* src/crates/fluvio-controlplane-metadata/src/mirror/status.rs:46-49 MirrorStatus::merge_from_spu *)
Definition merge_from_spu (other self : MirrorStatus) : MirrorStatus :=
  MkMirrorStatus (connection_status self) (pairing_sc self) (pairing_spu other) (last_seen other).

(** ** SmartModules *)

(* src/crates/fluvio-controlplane-metadata/src/smartmodule/spec.rs:159-167 SmartModuleWasmFormat *)
Inductive SmartModuleWasmFormat := WasmBinary | WasmText.
(* src/crates/fluvio-controlplane-metadata/src/smartmodule/spec.rs:107-111 SmartModuleWasm *)
Record SmartModuleWasm := MkWasm { wasm_format : SmartModuleWasmFormat; wasm_payload : list byte }.
(** Of the metadata of a SmartModule its package is kept; its parameters are
    for people.  The summary is the length of the payload. *)
(* src/crates/fluvio-controlplane-metadata/src/smartmodule/spec.rs:18-23 SmartModuleSpec *)
Record SmartModuleSpec (V : Type) := MkSmartModuleSpec {
  sm_meta : option (SmartModulePackage V);
  sm_summary : option Z;
  sm_wasm : SmartModuleWasm;
}.
Arguments MkSmartModuleSpec {V}.
Arguments sm_meta {V}.
Arguments sm_summary {V}.
Arguments sm_wasm {V}.
(* src/crates/fluvio-sc-schema/src/smartmodule/mod.rs:13-21 SmartModuleSpec::summary *)
Definition sm_spec_summary {V} (self : SmartModuleSpec V) : SmartModuleSpec V :=
  MkSmartModuleSpec (sm_meta self) (Some (as_u32 (zlen (wasm_payload (sm_wasm self))))) (MkWasm WasmBinary []).

(** ** SPUs *)

(* src/crates/fluvio-controlplane-metadata/src/spu/spec.rs:98-103 SpuSpec::is_custom *)
Definition is_custom (self : SpuSpec) : bool := match spu_type self with Managed => false | Custom => true end.
(* src/crates/fluvio-controlplane-metadata/src/spu/spec.rs:148-159 SpuSpec::from(CustomSpuSpec) *)
Definition spu_of_custom (spec : CustomSpuSpec) : SpuSpec :=
  MkSpuSpec (custom_id spec) Custom (custom_public_endpoint spec) (custom_private_endpoint spec) (custom_rack spec)
    (custom_public_endpoint_local spec).
(** A managed SPU is turned into a custom one by a panic. *)
(* src/crates/fluvio-controlplane-metadata/src/spu/spec.rs:161-174 CustomSpuSpec::from(SpuSpec) *)
Definition custom_of_spu (spu : SpuSpec) : option CustomSpuSpec :=
  match spu_type spu with
  | Custom => Some (MkCustomSpuSpec (spu_id spu) (public_endpoint spu) (private_endpoint spu) (rack spu) (public_endpoint_local spu))
  | Managed => None
  end.
(* src/crates/fluvio-controlplane-metadata/src/spu/mod.rs:102-105 CustomSpuKey *)
Inductive CustomSpuKey := KeyName (name : string) | KeyId (id : Z).
(* src/crates/fluvio-controlplane-metadata/src/spu/mod.rs:108-113 CustomSpuKey::fmt *)
Definition custom_key_show (self : CustomSpuKey) : string :=
  match self with KeyName name => name | KeyId id => Names.show_signed id end.

(** ** Requests and replies *)

(* src/crates/fluvio-sc-schema/src/response.rs:16-20 Status *)
Record Status := MkStatus { st_name : string; st_error_code : ErrorCode; st_error_message : option string }.
(* src/crates/fluvio-sc-schema/src/response.rs:33-39 Status::new_ok *)
Definition status_ok_of (name : string) : Status := MkStatus name EcNone None.
(* src/crates/fluvio-sc-schema/src/response.rs:49-51 Status::is_error *)
Definition status_is_error (self : Status) : bool := negb (error_is_ok (st_error_code self)).
(** The default of [ErrorCode] is [None]. *)
Definition status_default : Status := MkStatus EmptyString EcNone None.

(** The timeout is in milliseconds. *)
(* src/crates/fluvio-sc-schema/src/objects/create.rs:13-18 CommonCreateRequest *)
Record CommonCreateRequest := MkCommonCreate { create_name : string; create_dry_run : bool; create_timeout : option Z }.
(** [home_to_mirror] is not read by any handler. *)
(* src/crates/fluvio-controlplane-metadata/src/topic/update.rs:16-21 UpdateTopicAction *)
Inductive UpdateTopicAction := AddPartition (count : Z) | AddMirror (remote_cluster : string) (home_to_mirror : bool).

(** [label] is the type of an object that no handler knows. *)
Inductive CreateRequest (V : Type) :=
| CreateTopic (common : CommonCreateRequest) (spec : TopicSpec)
| CreateSpuGroup (common : CommonCreateRequest) (spec : SpuGroupSpec)
| CreateCustomSpu (common : CommonCreateRequest) (spec : CustomSpuSpec)
| CreateSmartModule (common : CommonCreateRequest) (spec : SmartModuleSpec V)
| CreateTableFormat (common : CommonCreateRequest) (spec : TableFormatSpec)
| CreateMirror (common : CommonCreateRequest) (spec : MirrorSpec)
| CreateUnknown (label : string).
Arguments CreateTopic {V}.
Arguments CreateSpuGroup {V}.
Arguments CreateCustomSpu {V}.
Arguments CreateSmartModule {V}.
Arguments CreateTableFormat {V}.
Arguments CreateMirror {V}.
Arguments CreateUnknown {V}.
Inductive DeleteRequest :=
| DeleteTopic (key : string) (force : bool)
| DeleteCustomSpu (key : CustomSpuKey)
| DeleteSpuGroup (key : string)
| DeleteSmartModule (key : string)
| DeleteTableFormat (key : string)
| DeleteMirror (key : string)
| DeleteUnknown (label : string).

(** ** Filters *)

(** [str::contains] of the value. *)
(* src/crates/fluvio-stream-model/src/store/filter.rs:6-8 str::filter *)
Definition str_filter (self value : string) : bool := str_contains self value.
(* src/crates/fluvio-sc-schema/src/objects/list.rs:54-63 ListFilters::filter *)
Definition filters_match (filters : list string) (value : string) : bool :=
  match filters with
  | [] => true
  | _ => (0 <? zlen (List.filter (fun name => str_filter name value) filters))
  end.

(** ** Names *)

Definition MAX_RESOURCE_NAME_LEN : Z := 63.
(* src/crates/fluvio-sc-schema/src/shared.rs:8-13 ValidateResourceNameError *)
Inductive ValidateResourceNameError := NameLengthExceeded | InvalidCharacterEncountered.
Definition name_error_text (e : ValidateResourceNameError) : string :=
  match e with
  | NameLengthExceeded => "Name exceeds max characters allowed 63"
  | InvalidCharacterEncountered => "Contain only lowercase alphanumeric characters or '-'"
  end.
Definition in_range (lo hi : ascii) (c : ascii) : bool := (nat_of_ascii lo <=? nat_of_ascii c)%nat && (nat_of_ascii c <=? nat_of_ascii hi)%nat.
Definition name_char (ch : ascii) : bool :=
  in_range "a" "z" ch || in_range "0" "9" ch || Ascii.eqb ch "-".
Definition starts_with (c : ascii) (s : string) : bool := match s with String c' _ => Ascii.eqb c' c | EmptyString => false end.
Fixpoint ends_with (c : ascii) (s : string) : bool :=
  match s with
  | EmptyString => false
  | String c' EmptyString => Ascii.eqb c' c
  | String _ s => ends_with c s
  end.
(** [None] when the name is valid; the length is in bytes. *)
(* src/crates/fluvio-sc-schema/src/shared.rs:27-42 validate_resource_name *)
Definition validate_resource_name (name : string) : option ValidateResourceNameError :=
  if MAX_RESOURCE_NAME_LEN <? Z.of_nat (String.length name) then Some NameLengthExceeded
  else if forallb name_char (list_ascii_of_string name) && negb (ends_with "-" name) && negb (starts_with "-" name) then None
  else Some InvalidCharacterEncountered.

(** ** Laws *)

(** An SPU that is registered is a custom one, and is listed with the spec it
    was registered with. *)
Lemma custom_spu_roundtrip spec : custom_of_spu (spu_of_custom spec) = Some spec.
Proof. by destruct spec. Qed.

Lemma filters_match_iff filters value :
  filters_match filters value = true <-> filters = [] \/ exists name, name ∈ filters /\ str_filter name value = true.
Proof.
  destruct filters as [|f fs]; [by split; [left|]|]. unfold filters_match. rewrite Z.ltb_lt. set (l := f :: fs). split.
  - intros Hl. right. destruct (List.filter _ l) as [|x xs] eqn:E; [done|].
    assert (In x (List.filter (fun name => str_filter name value) l)) as [Hx Hf]%filter_In by (rewrite E; by left).
    exists x. by rewrite list_elem_of_In.
  - intros [?|(name & Hin & Hf)]; [done|]. apply list_elem_of_In in Hin.
    pose proof (proj2 (filter_In (fun name => str_filter name value) name l) (conj Hin Hf)) as H'.
    destruct (List.filter _ l); [done|]. rewrite zlen_cons. pose proof (zlen_nonneg l0). lia.
Qed.

Lemma ends_with_snoc c s : ends_with c s = true <-> exists s', s = s' ++ String c EmptyString.
Proof.
  induction s as [|a s IH]; cbn [ends_with].
  - split; [done|]. intros [[|? ?] ?]; done.
  - destruct s as [|b s].
    + rewrite Ascii.eqb_eq. split; [intros ->; by exists EmptyString|].
      intros [[|x s'] E]; [by injection E|]. destruct s'; done.
    + rewrite IH. split.
      * intros [s' ->]. by exists (String a s').
      * intros [[|x s'] E]; [done|]. exists s'. by injection E.
Qed.
Lemma starts_with_cons c s : starts_with c s = true <-> exists s', s = String c s'.
Proof.
  destruct s as [|a s]; cbn [starts_with]; [by split; [|intros []]|]. rewrite Ascii.eqb_eq.
  split; [intros ->; by eexists|]. by intros [? [= ]].
Qed.

(** What a name must be. *)
Definition valid_name (name : string) : Prop :=
  (String.length name <= 63)%nat /\ Forall (fun c => name_char c = true) (list_ascii_of_string name) /\
  (forall s, name <> String "-" s) /\ (forall s, name <> s ++ "-").
Lemma validate_resource_name_iff name : validate_resource_name name = None <-> valid_name name.
Proof.
  unfold validate_resource_name, valid_name, MAX_RESOURCE_NAME_LEN. destruct (Z.ltb_spec 63 (Z.of_nat (String.length name))).
  { split; [done|]. intros [? _]. lia. }
  rewrite Forall_forall. destruct (forallb _ _) eqn:E1.
  - rewrite forallb_forall in E1. assert (forall c, c ∈ list_ascii_of_string name -> name_char c = true) as E1'.
    { intros c Hc. apply E1. by apply list_elem_of_In. }
    pose proof (ends_with_snoc "-" name) as He. pose proof (starts_with_cons "-" name) as Hs.
    destruct (ends_with "-" name); cbn [andb negb].
    { split; [done|]. intros (_ & _ & _ & Hn). destruct (proj1 He eq_refl) as [s' ->]. by destruct (Hn s'). }
    destruct (starts_with "-" name); cbn [andb negb].
    { split; [done|]. intros (_ & _ & Hn & _). destruct (proj1 Hs eq_refl) as [s' ->]. by destruct (Hn s'). }
    split; [intros _|done]. split; [lia|]. split; [done|].
    split; intros s E; [assert (false = true) by (apply Hs; by exists s); done|assert (false = true) by (apply He; by exists s); done].
  - split; [done|]. intros (_ & Hc & _). assert (forallb name_char (list_ascii_of_string name) = true); [|congruence].
    apply forallb_forall. intros c Hin. apply Hc. by apply list_elem_of_In.
Qed.
