(* ===== verification/AdminApi.v ===== *)
(** * The admin API of the controller

    [fluvio-sc/src/services/public_api]: the handlers that create, change,
    delete and list the objects of the cluster, and the [StoreContext] through
    which they act ([fluvio-stream-dispatcher/src/store/mod.rs]).

    A handler runs beside the controllers and the dispatchers.  Each access to
    a store is an instant, and what the stores are at an instant is a function
    of the time and of the actions that the handler has sent, which stands for
    all that the other tasks do.  A wait ends by a timer after a number of wake-ups.  The text of messages is
    abbreviated where it prints an error code. *)

From S2P Require Import Prelude Names EpochMap MetadataStore MetadataSync ClusterTypes Topics ScPartitions ScTopics SpuProduce.
From S2P Require Import SmartContext LocalMeta LocalMetaLaws Dispatch Auth AdminTypes.
From stdpp Require Import gmap strings list.
From Stdlib Require Import Ascii String.

#[local] Open Scope string_scope.
#[local] Open Scope Z_scope.

(** An error as a value. *)
Definition try {E S A} (m : ME E S A) : ME E S (E + A) := fun s =>
  match m s with
  | (Ok a, s) => (Ok (inr a), s)
  | (Err e, s) => (Ok (inl e), s)
  | (Panic, s) => (Panic, s)
  end.
Definition quoted (s : string) : string := String (ascii_of_nat 34) (s ++ String (ascii_of_nat 34) EmptyString).

Section admin.
Context {C : Type} `{!MetadataItem C} {V : Type} `{!EqDecision V}.
Context (parse_version : string -> option V) (version_to_string : V -> string).
Context {AC : Type} `{!AuthContext AC}.

(** ** The context of the controller *)

(** Without the health checks; the configuration is in [World]. *)
(* src/crates/fluvio-sc/src/core/context.rs:26-36 Context *)
Record ScContext := MkScContext {
  sc_spus : LocalStore string SpuSpec SpuStatus C;
  sc_partitions : LocalStore ReplicaKey PartitionSpec PartitionStatus C;
  sc_topics : LocalStore string TopicSpec TopicStatus C;
  sc_spgs : LocalStore string SpuGroupSpec SpuGroupStatus C;
  sc_smartmodules : LocalStore string (SmartModuleSpec V) unit C;
  sc_tableformats : LocalStore string TableFormatSpec TableFormatStatus C;
  sc_mirrors : LocalStore string MirrorSpec MirrorStatus C;
}.
(** The actions on their channels. *)
Inductive ScAction :=
| OnSpus (action : WSAction string SpuSpec SpuStatus C)
| OnTopics (action : WSAction string TopicSpec TopicStatus C)
| OnSpgs (action : WSAction string SpuGroupSpec SpuGroupStatus C)
| OnSmartModules (action : WSAction string (SmartModuleSpec V) unit C)
| OnTableFormats (action : WSAction string TableFormatSpec TableFormatStatus C)
| OnMirrors (action : WSAction string MirrorSpec MirrorStatus C).

(** The stores at an instant, when actions have been sent, the wake-ups that a wait begun at an instant sees
    before its timer, and the configuration. *)
Record World := MkWorld {
  at_time : nat -> list ScAction -> ScContext;
  wakeups : nat -> nat;
  read_only_metadata : bool;
  wait_time : Z;
}.
(** A handler: the time, and what it has sent. *)
Record Task := MkTask { clock : nat; sent : list ScAction }.

Section world.
Context (w : World).

Definition look {E A} (f : ScContext -> A) : ME E Task A := fun s =>
  (Ok (f (at_time w (clock s) (sent s))), MkTask (Datatypes.S (clock s)) (sent s)).
(** A store keeps a receiver of its channel, so that sending does not fail. *)
Definition send {E} (a : ScAction) : ME E Task unit := modify (fun s => MkTask (clock s) (sent s ++ [a])).
Definition patience {E} : ME E Task nat := fun s => (Ok (wakeups w (clock s)), s).

(** ** Stores *)

(** The store of a kind, and how its actions are sent. *)
(* src/crates/fluvio-stream-dispatcher/src/store/mod.rs:44-53 StoreContext *)
Record StoreContext (S St : Type) := MkStoreContext {
  ctx_label : string;
  ctx_store : ScContext -> LocalStore string S St C;
  ctx_send : WSAction string S St C -> ScAction;
}.
Definition spus := MkStoreContext SpuSpec SpuStatus "SPU" sc_spus OnSpus.
Definition topics := MkStoreContext TopicSpec TopicStatus "Topic" sc_topics OnTopics.
Definition spgs := MkStoreContext SpuGroupSpec SpuGroupStatus "SpuGroup" sc_spgs OnSpgs.
Definition smartmodules := MkStoreContext (SmartModuleSpec V) unit "SmartModule" sc_smartmodules OnSmartModules.
Definition tableformats := MkStoreContext TableFormatSpec TableFormatStatus "TableFormat" sc_tableformats OnTableFormats.
Definition mirrors := MkStoreContext MirrorSpec MirrorStatus "Mirror" sc_mirrors OnMirrors.

Section store.
Context {S St : Type}.
Implicit Types sc : StoreContext S St.
Notation Obj := (MetadataStoreObject string S St C).
Notation WSAction := (WSAction string S St C).

(* src/crates/fluvio-stream-model/src/store/dual_store.rs:103-109 LocalStore::value *)
Definition store_value (key : string) (st : LocalStore string S St C) : option Obj := dual_inner <$> values (store st) !! key.
Definition value sc (key : string) (ctx : ScContext) : option Obj := store_value key (ctx_store _ _ sc ctx).
(* src/crates/fluvio-stream-model/src/store/dual_store.rs:135-141 LocalStore::contains_key *)
Definition contains_key sc (key : string) (ctx : ScContext) : bool :=
  match value sc key ctx with Some _ => true | None => false end.

(* src/crates/fluvio-stream-dispatcher/src/actions.rs:26-34 WSAction::fmt *)
Definition action_text sc (action : WSAction) : string :=
  ctx_label _ _ sc ++
  match action with
  | Apply obj => " Apply: " ++ obj_key obj
  | UpdateSpec key _ => " Update Spec: " ++ key
  | UpdateStatus key _ => " Update Status: " ++ key
  | DeleteAction key => " Delete: " ++ key
  | DeleteFinal key => " Delete Final: " ++ key
  end.

(** What the loop waits for: the object, newer than the one there was. *)
Definition updated_value (current_value new_value : option Obj) : option Obj :=
  match new_value with
  | Some new_value =>
      match current_value with
      | Some old_value => if is_newer old_value new_value then Some new_value else None
      | None => Some new_value
      end
  | None => None
  end.
(* src/crates/fluvio-stream-dispatcher/src/store/mod.rs:254-285 wait_action_with_timeout (loop) *)
Fixpoint wait_updated sc (key text : string) (timeout : Z) (current_value : option Obj) (n : nat) (loop_count : Z)
    : ME string Task Obj :=
  new_value ← look (value sc key);
  match updated_value current_value new_value with
  | Some value => mret value
  | None =>
      match n with
      | O => fail ("store timed out: " ++ text ++ " loop: " ++ show_unsigned loop_count ++ ", timer: " ++ show_unsigned timeout ++ " ms")
      | Datatypes.S n => wait_updated sc key text timeout current_value n (as_u16 (loop_count + 1))
      end
  end.
(* src/crates/fluvio-stream-dispatcher/src/store/mod.rs:235-294 StoreContext::wait_action_with_timeout *)
Definition wait_action_with_timeout sc (key : string) (action : WSAction) (timeout : Z) : ME string Task Obj :=
  current_value ← look (value sc key);
  send (ctx_send _ _ sc action);;
  n ← patience;
  wait_updated sc key (action_text sc action) timeout current_value n 0.
(* src/crates/fluvio-stream-dispatcher/src/store/mod.rs:218-228 StoreContext::wait_action *)
Definition wait_action sc (key : string) (action : WSAction) : ME string Task Obj :=
  wait_action_with_timeout sc key action (wait_time w * 1000).
(* src/crates/fluvio-stream-dispatcher/src/store/mod.rs:139-151 StoreContext::create_spec *)
Definition create_spec sc (key : string) (spec : S) : ME string Task Obj := wait_action sc key (UpdateSpec key spec).
(* src/crates/fluvio-stream-dispatcher/src/store/mod.rs:158-170 StoreContext::update_status *)
Definition ctx_update_status sc (key : string) (status : St) : ME string Task Obj := wait_action sc key (UpdateStatus key status).
(* src/crates/fluvio-stream-dispatcher/src/store/mod.rs:183-205 delete (loop) *)
Fixpoint wait_deleted sc (key : string) (n : nat) : ME string Task unit :=
  present ← look (contains_key sc key);
  if negb present then mret tt
  else
    match n with
    | O => fail ("store timed out: " ++ ctx_label _ _ sc ++ " for " ++ quoted key ++ ", timer: " ++ show_unsigned (wait_time w) ++ " secs")
    | Datatypes.S n => wait_deleted sc key n
    end.
(* src/crates/fluvio-stream-dispatcher/src/store/mod.rs:176-215 StoreContext::delete *)
Definition ctx_delete sc (key : string) : ME string Task unit :=
  send (ctx_send _ _ sc (DeleteAction key));;
  n ← patience;
  wait_deleted sc key n.
End store.

(** ** Authorization *)

Definition denied (name : string) : Status := MkStatus name EcPermissionDenied (Some "permission denied").
(** The check with which most handlers begin: an error of the context ends
    the connection. *)
Definition authorized (answer : string + bool) (name : string) (k : ME string Task Status) : ME string Task Status :=
  match answer with
  | inr true => k
  | inr false => mret (denied name)
  | inl _ => fail "authorization io error"
  end.
Definition authorized_list {A} (answer : string + bool) (error : string) (k : ME string Task (list A)) : ME string Task (list A) :=
  match answer with
  | inr true => k
  | inr false => mret []
  | inl _ => fail error
  end.

Section handlers.
Context (auth : AC).

(** ** Creating topics *)

Definition next_state_status (name : string) (next_state : TopicNextState (C := C)) : Status :=
  match next_resolution next_state with
  | InvalidConfig => MkStatus name EcTopicError (Some (next_reason next_state))
  | _ => status_ok_of name
  end.
(** The deduplication of a topic names a SmartModule that must be there. *)
(* src/crates/fluvio-sc/src/services/public_api/topic/create.rs:115-138 validate_topic_request (deduplication) *)
Definition validate_deduplication (deduplication : option Deduplication) : ME string Task (option Status) :=
  match deduplication with
  | Some deduplication =>
      let sm_name := uses (transform (dedup_filter deduplication)) in
      match from_qualified_name parse_version sm_name with
      | inl err => mret (Some (MkStatus sm_name (EcDeduplicationSmartModuleNameInvalid err) (Some err)))
      | inr fqdn =>
          loaded ← look (contains_key smartmodules (key_store_id version_to_string fqdn));
          mret (if negb loaded then
            Some (MkStatus sm_name EcDeduplicationSmartModuleNotLoaded
              (Some ("Hint: try `fluvio hub sm download " ++ sm_name ++ "` and repeat this operation")))
          else None)
      end
  | None => mret None
  end.
(* src/crates/fluvio-sc/src/services/public_api/topic/create.rs:79-192 validate_topic_request *)
Definition validate_topic_request (name : string) (topic_spec : TopicSpec) : ME string Task Status :=
  match validate_resource_name name with
  | Some err => mret (MkStatus name EcTopicInvalidName (Some ("Invalid topic name: '" ++ name ++ "'. " ++ name_error_text err)))
  | None =>
      exists_ ← look (contains_key topics name);
      if exists_ : bool then mret (MkStatus name EcTopicAlreadyExists (Some ("Topic '" ++ name ++ "' already exists")))
      else
        match validate_config topic_spec with
        | Some error => mret (MkStatus name EcTopicInvalidConfiguration (Some error))
        | None =>
            refused ← validate_deduplication (ts_deduplication topic_spec);
            match refused with
            | Some status => mret status
            | None =>
                match ts_replicas topic_spec with
                | Computed param => mret (next_state_status name (validate_computed_topic_parameters param))
                | Assigned partition_map =>
                    let next_state := validate_assigned_topic_parameters partition_map in
                    match next_resolution next_state with
                    | InvalidConfig => mret (next_state_status name next_state)
                    | _ =>
                        spus ← look sc_spus;
                        mret (next_state_status name (update_replica_map_for_assigned_topic partition_map spus))
                    end
                | Mirror mirror => mret (next_state_status name (validate_mirror_topic_parameter mirror))
                end
            end
        end
  end.

(** The partitions of a topic that are online, counted up to the number
    wanted: [None] when that is reached. *)
(* src/crates/fluvio-sc/src/services/public_api/topic/create.rs:251-268 process_topic_request (count) *)
Fixpoint provisioned_up_to (uid : UId) (partition_count : Z) (provisioned_count : Z)
    (partitions : list (MetadataStoreObject ReplicaKey PartitionSpec PartitionStatus C)) : option Z :=
  match partitions with
  | [] => Some provisioned_count
  | partition :: partitions =>
      if is_owned uid partition && status_is_online (obj_status partition) then
        let provisioned_count := as_u32 (provisioned_count + 1) in
        if provisioned_count =? partition_count then None
        else provisioned_up_to uid partition_count provisioned_count partitions
      else provisioned_up_to uid partition_count provisioned_count partitions
  end.
(* src/crates/fluvio-sc/src/services/public_api/topic/create.rs:248-280 process_topic_request (loop) *)
Fixpoint wait_provisioned (name : string) (uid : UId) (partition_count : Z) (n : nat) : ME string Task Status :=
  partitions ← look (fun ctx => clone_values (store (sc_partitions ctx)));
  match provisioned_up_to uid partition_count 0 partitions with
  | None => mret (status_ok_of name)
  | Some provisioned_count =>
      match n with
      | O => mret (MkStatus name EcTopicNotProvisioned
               (Some ("only " ++ show_unsigned provisioned_count ++ " out of " ++ show_unsigned partition_count ++ " provisioned")))
      | Datatypes.S n => wait_provisioned name uid partition_count n
      end
  end.
(* src/crates/fluvio-sc/src/services/public_api/topic/create.rs:196-281 process_topic_request *)
Definition process_topic_request (name : string) (topic_spec : TopicSpec) : ME string Task Status :=
  created ← try (create_spec topics name topic_spec);
  match created with
  | inl err => mret (MkStatus name EcTopicNotProvisioned (Some ("error: " ++ err)))
  | inr topic_instance =>
      match ts_replicas topic_spec with
      | Mirror _ => mret (status_ok_of name)
      | _ =>
          let partition_count := spec_partitions (ts_replicas (obj_spec topic_instance)) in
          let topic_uid := item_uid (ctx_item (obj_ctx topic_instance)) in
          n ← patience;
          wait_provisioned name topic_uid partition_count n
      end
  end.
(* src/crates/fluvio-sc/src/services/public_api/topic/create.rs:37-76 handle_create_topics_request *)
Definition handle_create_topics_request (create : CommonCreateRequest) (topic : TopicSpec) : ME string Task Status :=
  let name := create_name create in
  authorized (allow_type_action auth TyTopic TypeCreate) name
    (status ← validate_topic_request name topic;
     if status_is_error status then mret status
     else if negb (create_dry_run create) then process_topic_request name topic
     else mret status).

(** ** Creating other objects *)

Definition DEFAULT_SPG_CREATE_TIMEOUT : Z := 120 * 1000.
(* src/crates/fluvio-sc/src/services/public_api/spg/create.rs:64-85 process_custom_spu_request *)
Definition process_spu_group_request (name : string) (timeout : option Z) (spg : SpuGroupSpec) : ME string Task Status :=
  created ← try (wait_action_with_timeout spgs name (UpdateSpec name spg) (default DEFAULT_SPG_CREATE_TIMEOUT timeout));
  mret match created with
  | inl err => MkStatus name EcSpuError (Some err)
  | inr _ => status_ok_of name
  end.
(* src/crates/fluvio-sc/src/services/public_api/spg/create.rs:28-60 handle_create_spu_group_request *)
Definition handle_create_spu_group_request (create : CommonCreateRequest) (spg : SpuGroupSpec) : ME string Task Status :=
  let name := create_name create in
  authorized (allow_type_action auth TySpuGroup TypeCreate) name (process_spu_group_request name (create_timeout create) spg).

(* src/crates/fluvio-sc/src/stores/spu/store.rs:171-178 SpuLocalStore::get_by_id *)
Definition get_by_id (id : Z) (ctx : ScContext) : option (MetadataStoreObject string SpuSpec SpuStatus C) :=
  List.find (fun spu => spu_id (obj_spec spu) =? id) (clone_values (store (sc_spus ctx))).
(** The second lookup is made only when the first finds nothing. *)
(* src/crates/fluvio-sc/src/services/public_api/spu/register_custom_spus_req.rs:81-105 validate_custom_spu_request *)
Definition validate_custom_spu_request (name : string) (spec : CustomSpuSpec) : ME string Task (option Status) :=
  by_name ← look (contains_key spus name);
  taken ← (if by_name : bool then mret true
           else look (fun ctx => match get_by_id (custom_id spec) ctx with Some _ => true | None => false end));
  mret (if taken : bool then
    Some (MkStatus name EcSpuAlreadyExists
      (Some ("spu '" ++ name ++ "(" ++ Names.show_signed (custom_id spec) ++ ")' already defined")))
  else None).
(* src/crates/fluvio-sc/src/services/public_api/spu/register_custom_spus_req.rs:108-127 process_custom_spu_request *)
Definition process_custom_spu_request (name : string) (spec : CustomSpuSpec) : ME string Task Status :=
  created ← try (create_spec spus name (spu_of_custom spec));
  mret match created with
  | inl err => MkStatus name EcSpuError (Some err)
  | inr _ => status_ok_of name
  end.
(** An error of the authorization is ignored. *)
(* src/crates/fluvio-sc/src/services/public_api/spu/register_custom_spus_req.rs:31-78 handle_register_custom_spu_request *)
Definition handle_register_custom_spu_request (create : CommonCreateRequest) (spec : CustomSpuSpec) : ME string Task Status :=
  let name := create_name create in
  match allow_type_action auth TyCustomSpu TypeCreate with
  | inr false => mret (denied name)
  | _ =>
      refused ← validate_custom_spu_request name spec;
      match refused with
      | Some status => mret status
      | None =>
          if create_dry_run create then mret status_default else process_custom_spu_request name spec
      end
  end.

(* src/crates/fluvio-sc/src/services/public_api/smartmodule/create.rs:57-89 process_smartmodule_request *)
Definition process_smartmodule_request (name : string) (spec : SmartModuleSpec V) : ME string Task Status :=
  let store store_id :=
    created ← try (create_spec smartmodules store_id spec);
    mret match created with
    | inl err => MkStatus store_id EcSmartModuleError (Some err)
    | inr _ => status_ok_of store_id
    end in
  match sm_meta spec with
  | Some package =>
      if negb (package_is_valid package) then mret (MkStatus name EcSmartModuleError (Some "invalid SmartModule package"))
      else store (package_store_id version_to_string package)
  | None => store name
  end.
(* src/crates/fluvio-sc/src/services/public_api/smartmodule/create.rs:23-53 handle_create_smartmodule_request *)
Definition handle_create_smartmodule_request (create : CommonCreateRequest) (spec : SmartModuleSpec V) : ME string Task Status :=
  let name := create_name create in
  authorized (allow_type_action auth TySmartModule TypeCreate) name (process_smartmodule_request name spec).

(* src/crates/fluvio-sc/src/services/public_api/tableformat/create.rs:72-88 process_tableformat_request *)
Definition process_tableformat_request (name : string) (spec : TableFormatSpec) : ME string Task Status :=
  created ← try (create_spec tableformats name spec);
  mret match created with
  | inl err => MkStatus name EcTableFormatError (Some err)
  | inr _ => status_ok_of name
  end.
(** The name is looked up before the authorization. *)
(* src/crates/fluvio-sc/src/services/public_api/tableformat/create.rs:23-68 handle_create_tableformat_request *)
Definition handle_create_tableformat_request (create : CommonCreateRequest) (spec : TableFormatSpec) : ME string Task Status :=
  let name := create_name create in
  exists_ ← look (contains_key tableformats name);
  if exists_ : bool then mret (MkStatus name EcTableFormatAlreadyExists (Some ("tableformat '" ++ name ++ "' already defined")))
  else
    authorized (allow_type_action auth TyTableFormat TypeCreate) name (process_tableformat_request name spec).

Definition read_only_status (name : string) : Status :=
  MkStatus name (EcOther "unable to change read-only configuration") (Some "read-only error").
(** No authorization is asked for. *)
(* src/crates/fluvio-sc/src/services/public_api/mirror/register.rs:14-51 handle_register_mirror *)
Definition handle_register_mirror (create : CommonCreateRequest) (spec : MirrorSpec) : ME string Task Status :=
  let name := create_name create in
  if read_only_metadata w then mret (read_only_status name)
  else
    mirror ← look (value mirrors name);
    match (mirror_type ∘ obj_spec) <$> mirror with
    | Some (RemoteType _) =>
        mret (MkStatus name EcMirrorAlreadyExists (Some ("remote cluster " ++ quoted name ++ " already exists")))
    | _ =>
        create_spec mirrors name spec;;
        mret (status_ok_of name)
    end.

Definition unknown_type (what : string) : Status := MkStatus (what ++ " error") (EcOther "unknown admin object type") None.
(* src/crates/fluvio-sc/src/services/public_api/create.rs:21-51 handle_create_request *)
Definition handle_create_request (req : CreateRequest V) : ME string Task Status :=
  match req with
  | CreateTopic common spec => handle_create_topics_request common spec
  | CreateSpuGroup common spec => handle_create_spu_group_request common spec
  | CreateCustomSpu common spec => handle_register_custom_spu_request common spec
  | CreateSmartModule common spec => handle_create_smartmodule_request common spec
  | CreateTableFormat common spec => handle_create_tableformat_request common spec
  | CreateMirror common spec => handle_register_mirror common spec
  | CreateUnknown _ => mret (unknown_type "create")
  end.

(** ** Deleting *)

(* src/crates/fluvio-sc/src/services/public_api/topic/delete.rs:24-104 handle_delete_topic *)
Definition handle_delete_topic (topic_name : string) (force : bool) : ME string Task Status :=
  authorized (allow_instance_action auth TyTopic InstanceDelete topic_name) topic_name
    (topic ← look (value topics topic_name);
     match topic with
     | Some topic =>
         let spec := obj_spec topic in
         match ts_replicas spec with
         | Mirror (ConfigRemote _) =>
             mret (MkStatus topic_name EcMirrorDeleteFromRemote (Some "cannot delete mirrored topic from remote"))
         | _ =>
             if negb force && ts_system spec then mret (MkStatus topic_name (EcSystemSpecDeletionAttempt "topic" topic_name) None)
             else
               deleted ← try (ctx_delete topics topic_name);
               mret match deleted with
               | inl err => MkStatus topic_name EcTopicError (Some err)
               | inr _ => status_ok_of topic_name
               end
         end
     | None => mret (MkStatus topic_name EcTopicNotFound (Some "not found"))
     end).

(* src/crates/fluvio-sc/src/services/public_api/spu/unregister_custom_spus_req.rs:92-118 un_register_custom_spu *)
Definition un_register_custom_spu (spu : MetadataStoreObject string SpuSpec SpuStatus C) : ME string Task Status :=
  let spu_name := obj_key spu in
  if negb (is_custom (obj_spec spu)) then
    mret (MkStatus spu_name EcSpuError (Some "expected 'Custom' spu, found 'Managed' spu"))
  else
    deleted ← try (ctx_delete spus spu_name);
    mret match deleted with
    | inl err => MkStatus spu_name EcSpuError (Some ("error deleting: " ++ err))
    | inr _ => status_ok_of spu_name
    end.
(* src/crates/fluvio-sc/src/services/public_api/spu/unregister_custom_spus_req.rs:23-89 handle_un_register_custom_spu_request *)
Definition handle_un_register_custom_spu_request (key : CustomSpuKey) : ME string Task Status :=
  authorized (allow_instance_action auth TyCustomSpu InstanceDelete (custom_key_show key)) (custom_key_show key)
    match key with
    | KeyName spu_name =>
        spu ← look (value spus spu_name);
        match spu with
        | Some spu => un_register_custom_spu spu
        | None => mret (MkStatus spu_name EcSpuNotFound (Some "not found"))
        end
    | KeyId id =>
        spu ← look (get_by_id id);
        match spu with
        | Some spu => un_register_custom_spu spu
        | None => mret (MkStatus ("spu-" ++ Names.show_signed id) EcSpuNotFound (Some "not found"))
        end
    end.

(** What the handlers that delete by name have in common. *)
Definition delete_named {S St} (sc : StoreContext S St) (name key : string) (error_code not_found_code : ErrorCode) : ME string Task Status :=
  present ← look (contains_key sc key);
  if present : bool then
    deleted ← try (ctx_delete sc key);
    mret match deleted with
    | inl err => MkStatus name error_code (Some err)
    | inr _ => status_ok_of name
    end
  else mret (MkStatus name not_found_code (Some "not found")).
(* src/crates/fluvio-sc/src/services/public_api/spg/delete.rs:15-61 handle_delete_spu_group *)
Definition handle_delete_spu_group (name : string) : ME string Task Status :=
  authorized (allow_instance_action auth TySpuGroup InstanceDelete name) name
    (delete_named spgs name name EcSpuError EcSpuNotFound).
(** A name that is not one of a package ends the connection. *)
(* src/crates/fluvio-sc/src/services/public_api/smartmodule/delete.rs:16-73 handle_delete_smartmodule *)
Definition handle_delete_smartmodule (name : string) : ME string Task Status :=
  authorized (allow_instance_action auth TySmartModule InstanceDelete name) name
    match from_qualified_name parse_version name with
    | inl err => fail err
    | inr sm_fqdn => delete_named smartmodules name (key_store_id version_to_string sm_fqdn) EcSmartModuleError (EcSmartModuleNotFound name)
    end.
(* src/crates/fluvio-sc/src/services/public_api/tableformat/delete.rs:15-74 handle_delete_tableformat *)
Definition handle_delete_tableformat (name : string) : ME string Task Status :=
  authorized (allow_instance_action auth TyTableFormat InstanceDelete name) name
    (delete_named tableformats name name EcTableFormatError EcTableFormatNotFound).
(* src/crates/fluvio-sc/src/services/public_api/mirror/unregister.rs:9-41 handle_unregister_mirror *)
Definition handle_unregister_mirror (name : string) : ME string Task Status :=
  if read_only_metadata w then mret (read_only_status name)
  else
    present ← look (contains_key mirrors name);
    if negb present then mret (MkStatus name EcMirrorNotFound (Some ("remote cluster " ++ quoted name ++ " not found")))
    else
      deleted ← try (ctx_delete mirrors name);
      mret match deleted with
      | inl err => MkStatus name (EcOther "remote to unregister remote cluster") (Some err)
      | inr _ => status_ok_of name
      end.
(** An unknown type is answered as by [handle_create_request]. *)
(* src/crates/fluvio-sc/src/services/public_api/delete.rs:28-61 handle_delete_request *)
Definition handle_delete_request (req : DeleteRequest) : ME string Task Status :=
  match req with
  | DeleteTopic key force => handle_delete_topic key force
  | DeleteCustomSpu key => handle_un_register_custom_spu_request key
  | DeleteSpuGroup key => handle_delete_spu_group key
  | DeleteSmartModule key => handle_delete_smartmodule key
  | DeleteTableFormat key => handle_delete_tableformat key
  | DeleteMirror key => handle_unregister_mirror key
  | DeleteUnknown _ => mret (unknown_type "create")
  end.

(** ** Changing topics *)

(* src/crates/fluvio-controlplane-metadata/src/topic/spec.rs:92-94 TopicSpec::set_replicas *)
Definition set_replicas (replicas : ReplicaSpec) (self : TopicSpec) : TopicSpec :=
  MkTopicSpec replicas (ts_cleanup_policy self) (ts_storage self) (ts_compression_type self) (ts_deduplication self) (ts_system self).
(* src/crates/fluvio-controlplane-metadata/src/topic/spec.rs:854-856 HomeMirrorInner::add_partition *)
Definition add_partition (partition : HomePartitionConfig) (self : HomeMirrorInner) : HomeMirrorInner :=
  MkHomeMirrorInner (hm_partitions self ++ [partition]) (hm_source self).
Definition system_update (topic_name : string) : Status := MkStatus topic_name (EcSystemSpecUpdatingAttempt "topic" topic_name) None.

(** The sum of the numbers of partitions wraps around. *)
(* src/crates/fluvio-sc/src/services/public_api/topic/update/add_partition.rs:21-77 handle_add_partition *)
Definition handle_add_partition (topic_name : string) (count : Z) : ME string Task Status :=
  topic ← look (value topics topic_name);
  match topic with
  | Some topic =>
      let spec := obj_spec topic in
      if ts_system spec then mret (system_update topic_name)
      else
        match ts_replicas spec with
        | Computed param =>
            let new_replica_param :=
              MkTopicReplicaParam (as_u32 (param_partitions param + count)) (param_replication_factor param)
                (param_ignore_rack_assignment param) in
            create_spec topics (obj_key topic) (set_replicas (Computed new_replica_param) spec);;
            mret (status_ok_of topic_name)
        | _ => mret (MkStatus topic_name EcTopicInvalidReplicaType (Some "invalid replica type"))
        end
  | None => mret (MkStatus topic_name EcTopicNotFound (Some "not found"))
  end.

(** The partition of a mirror that a remote cluster has. *)
(* src/crates/fluvio-sc/src/services/public_api/topic/update/add_mirror.rs:55-69 handle_add_mirror (search) *)
Definition assigned_partition (remote_cluster : string) (mc : MirrorConfig) : option Z :=
  fst <$> List.find (fun ip : Z * PartitionMirrorConfig =>
    match snd ip with
    | MirrorHome home => String.eqb (ClusterTypes.remote_cluster home) remote_cluster
    | MirrorRemote _ => false
    end) (mirror_partitions mc).
(* src/crates/fluvio-sc/src/services/public_api/topic/update/add_mirror.rs:23-138 handle_add_mirror *)
Definition handle_add_mirror (topic_name remote_cluster : string) : ME string Task Status :=
  topic ← look (value topics topic_name);
  remote ← look (value mirrors remote_cluster);
  match topic with
  | Some topic =>
      match (mirror_type ∘ obj_spec) <$> remote with
      | None => mret (MkStatus topic_name EcMirrorNotFound (Some "not found"))
      | Some (HomeType _) => mret (MkStatus topic_name EcMirrorInvalidType (Some "remote cluster is not a remote mirror"))
      | Some (RemoteType _) =>
          let spec := obj_spec topic in
          match ts_replicas spec with
          | Mirror mc =>
              match assigned_partition remote_cluster mc with
              | Some i =>
                  mret (MkStatus topic_name EcMirrorAlreadyExists
                    (Some ("remote " ++ quoted remote_cluster ++ " is already assigned to partition: " ++ quoted (show_unsigned i))))
              | None =>
                  if ts_system spec then mret (system_update topic_name)
                  else
                    match mc with
                    | ConfigHome home_config =>
                        let new_home_partition_config :=
                          MkHomePartitionConfig remote_cluster (replica_key_show (MkReplicaKey (obj_key topic) 0)) (hm_source home_config) in
                        let new_home_config := add_partition new_home_partition_config home_config in
                        create_spec topics (obj_key topic) (set_replicas (Mirror (ConfigHome new_home_config)) spec);;
                        mret (status_ok_of topic_name)
                    | ConfigRemote _ => mret (MkStatus topic_name EcTopicInvalidReplicaType (Some "invalid replica type"))
                    end
              end
          | _ => mret (MkStatus topic_name EcTopicError (Some "invalid replica type"))
          end
      end
  | None => mret (MkStatus topic_name EcTopicNotFound (Some "not found"))
  end.
(* src/crates/fluvio-sc/src/services/public_api/topic/update/mod.rs:21-55 handle_topic_update_request *)
Definition handle_topic_update_request (topic_name : string) (action : UpdateTopicAction) : ME string Task Status :=
  authorized (allow_instance_action auth TyTopic InstanceUpdate topic_name) topic_name
    match action with
    | AddPartition count => handle_add_partition topic_name count
    | AddMirror remote_cluster _ => handle_add_mirror topic_name remote_cluster
    end.

(** The partitions of the topic are listed and nothing is done with them. *)
(* src/crates/fluvio-sc/src/services/public_api/clear.rs:52-100 handle_clear_topic *)
Definition handle_clear_topic (topic_name : string) (reset_high_watermark : bool) : ME string Task Status :=
  authorized (allow_instance_action auth TyTopic InstanceDelete topic_name) topic_name
    (present ← look (contains_key topics topic_name);
     if present : bool then
       _ ← look (fun ctx => List.filter (fun name => String.eqb (Names.topic name) topic_name)
                   (map obj_key (clone_values (store (sc_partitions ctx)))));
       mret (status_ok_of topic_name)
     else mret (MkStatus topic_name EcTopicNotFound (Some "not found"))).

(** ** Requests that change objects *)

Inductive AdminRequest :=
| AdminCreate (req : CreateRequest V)
| AdminUpdate (topic_name : string) (action : UpdateTopicAction)
| AdminDelete (req : DeleteRequest)
| AdminClear (topic_name : string) (reset_high_watermark : bool).
(** The requests of [api_loop!] that are answered by a status; an update or a
    clear of another type is answered as an unknown type. *)
(* src/crates/fluvio-sc/src/services/public_api/public_server.rs:93-116 PublicService::respond (requests) *)
Definition handle_admin_request (req : AdminRequest) : ME string Task Status :=
  match req with
  | AdminCreate req => handle_create_request req
  | AdminUpdate topic_name action => handle_topic_update_request topic_name action
  | AdminDelete req => handle_delete_request req
  | AdminClear topic_name reset => handle_clear_topic topic_name reset
  end.

(** ** Listing *)

Notation list_of S St := (list (Metadata S St)).

(* src/crates/fluvio-sc/src/services/public_api/topic/fetch.rs:14-55 handle_fetch_topics_request *)
Definition handle_fetch_topics_request (filters : list string) (system : bool) : ME string Task (list_of TopicSpec TopicStatus) :=
  authorized_list (allow_type_action auth TyTopic TypeRead) "authorization error"
    (values ← look (fun ctx => clone_values (store (sc_topics ctx)));
     mret (map metadata_of (List.filter (fun value => filters_match filters (obj_key value))
       (List.filter (fun value => Bool.eqb (ts_system (obj_spec value)) system) values)))).
(* src/crates/fluvio-sc/src/services/public_api/spu/fetch.rs:15-60 handle_fetch_custom_spu_request *)
Definition handle_fetch_custom_spu_request (filters : list string) : ME string Task (list_of CustomSpuSpec SpuStatus) :=
  authorized_list (allow_type_action auth TyCustomSpu TypeRead) "authorization io error"
    (values ← look (fun ctx => clone_values (store (sc_spus ctx)));
     mret (omap (fun value =>
       if is_custom (obj_spec value) && filters_match filters (obj_key value) then
         spec ← custom_of_spu (obj_spec value); Some (MkMetadata (obj_key value) spec (obj_status value))
       else None) values)).
(** An error of the authorization is ignored. *)
(* src/crates/fluvio-sc/src/services/public_api/spu/fetch.rs:63-100 handle_fetch_spus_request *)
Definition handle_fetch_spus_request (filters : list string) : ME string Task (list_of SpuSpec SpuStatus) :=
  match allow_type_action auth TySpu TypeRead with
  | inr false => mret []
  | _ =>
      values ← look (fun ctx => clone_values (store (sc_spus ctx)));
      mret (map metadata_of (List.filter (fun value => filters_match filters (obj_key value)) values))
  end.
(* src/crates/fluvio-sc/src/services/public_api/spg/fetch.rs:16-56 handle_fetch_spu_groups_request *)
Definition handle_fetch_spu_groups_request (filters : list string) : ME string Task (list_of SpuGroupSpec SpuGroupStatus) :=
  authorized_list (allow_type_action auth TySpuGroup TypeRead) "authorization io error"
    (values ← look (fun ctx => clone_values (store (sc_spgs ctx)));
     mret (map metadata_of (List.filter (fun value => filters_match filters (obj_key value)) values))).
(** The filters are not read. *)
(* src/crates/fluvio-sc/src/services/public_api/partition/mod.rs:15-50 handle_fetch_request *)
Definition handle_fetch_partitions_request (filters : list string) (system : bool)
    : ME string Task (list_of PartitionSpec PartitionStatus) :=
  authorized_list (allow_type_action auth TyPartition TypeRead) "authorization io error"
    (values ← look (fun ctx => clone_values (store (sc_partitions ctx)));
     mret (map metadata_of (List.filter (fun value => Bool.eqb (ps_system (obj_spec value)) system) values))).

(* src/crates/fluvio-sc/src/services/public_api/smartmodule/list.rs:44-47 fetch_smart_modules (keys) *)
Fixpoint filter_keys (filters : list string) : string + list (SmartModulePackageKey V) :=
  match filters with
  | [] => inr []
  | filter :: filters =>
      match from_qualified_name parse_version filter with
      | inl err => inl err
      | inr key => match filter_keys filters with inl err => inl err | inr keys => inr (key :: keys) end
      end
  end.
Definition matches_keys (sm_keys : list (SmartModulePackageKey V)) (value : MetadataStoreObject string (SmartModuleSpec V) unit C) : bool :=
  is_nil sm_keys ||
  (0 <? zlen (List.filter (fun key => is_match key (obj_key value) (sm_meta (obj_spec value))) sm_keys)).
(* src/crates/fluvio-sc/src/services/public_api/smartmodule/list.rs:18-86 fetch_smart_modules *)
Definition fetch_smart_modules (filters : list string) (summary : bool) : ME string Task (list_of (SmartModuleSpec V) unit) :=
  authorized_list (allow_type_action auth TySmartModule TypeRead) "authorization io error"
    match filter_keys filters with
    | inl err => fail err
    | inr sm_keys =>
        values ← look (fun ctx => clone_values (store (sc_smartmodules ctx)));
        mret (map (fun value =>
          if summary then MkMetadata (obj_key value) (sm_spec_summary (obj_spec value)) (obj_status value) else metadata_of value)
          (List.filter (matches_keys sm_keys) values))
    end.
(* src/crates/fluvio-sc/src/services/public_api/list.rs:113-158 fetch::handle_fetch_request *)
Definition handle_fetch_tableformats_request (filters : list string) : ME string Task (list_of TableFormatSpec TableFormatStatus) :=
  authorized_list (allow_type_action auth TyTableFormat TypeRead) "authorization io error"
    (values ← look (fun ctx => clone_values (store (sc_tableformats ctx)));
     mret (map metadata_of (List.filter (fun value => filters_match filters (obj_key value)) values))).
(** No authorization is asked for, and the filters are not read. *)
(* src/crates/fluvio-sc/src/services/public_api/mirror/list.rs:12-30 handle_list_mirror *)
Definition handle_list_mirror (filters : list string) : ME string Task (list_of MirrorSpec MirrorStatus) :=
  values ← look (fun ctx => clone_values (store (sc_mirrors ctx)));
  mret (map metadata_of values).

(** What is listed, and the lists. *)
Inductive ListRequest :=
| ListTopics (filters : list string) (system : bool)
| ListSpus (filters : list string)
| ListSpuGroups (filters : list string)
| ListCustomSpus (filters : list string)
| ListPartitions (filters : list string) (system : bool)
| ListSmartModules (filters : list string) (summary : bool)
| ListTableFormats (filters : list string)
| ListMirrors (filters : list string)
| ListUnknown (label : string).
Inductive ListResponse :=
| TopicList (items : list_of TopicSpec TopicStatus)
| SpuList (items : list_of SpuSpec SpuStatus)
| SpuGroupList (items : list_of SpuGroupSpec SpuGroupStatus)
| CustomSpuList (items : list_of CustomSpuSpec SpuStatus)
| PartitionList (items : list_of PartitionSpec PartitionStatus)
| SmartModuleList (items : list_of (SmartModuleSpec V) unit)
| TableFormatList (items : list_of TableFormatSpec TableFormatStatus)
| MirrorList (items : list_of MirrorSpec MirrorStatus).
(* src/crates/fluvio-sc/src/services/public_api/list.rs:25-91 handle_list_request *)
Definition handle_list_request (req : ListRequest) : ME string Task ListResponse :=
  match req with
  | ListTopics filters system => items ← handle_fetch_topics_request filters system; mret (TopicList items)
  | ListSpus filters => items ← handle_fetch_spus_request filters; mret (SpuList items)
  | ListSpuGroups filters => items ← handle_fetch_spu_groups_request filters; mret (SpuGroupList items)
  | ListCustomSpus filters => items ← handle_fetch_custom_spu_request filters; mret (CustomSpuList items)
  | ListPartitions filters system => items ← handle_fetch_partitions_request filters system; mret (PartitionList items)
  | ListSmartModules filters summary => items ← fetch_smart_modules filters summary; mret (SmartModuleList items)
  | ListTableFormats filters => items ← handle_fetch_tableformats_request filters; mret (TableFormatList items)
  | ListMirrors filters => items ← handle_list_mirror filters; mret (MirrorList items)
  | ListUnknown _ => fail "unsupported list request"
  end.
End handlers.
End world.
End admin.
Arguments ScContext : clear implicits.
Arguments ScAction : clear implicits.
Arguments World : clear implicits.
Arguments Task : clear implicits.
Arguments AdminRequest : clear implicits.
Arguments ListResponse : clear implicits.
