(* ===== verification/AdminLaws.v ===== *)
(** * What the admin API does

    A request sends at most one action, the one it asks for, and only when its
    sender may or the code does not ask; a topic that is created is valid, and
    its creation is answered when its partitions are online, that of a mirror
    when it is stored. *)

From S2P Require Import Prelude Names EpochMap MetadataStore MetadataSync ClusterTypes Topics ScPartitions ScTopics SpuProduce.
From S2P Require Import SmartContext LocalMeta LocalMetaLaws Dispatch Auth AdminTypes AdminApi.
From stdpp Require Import gmap strings list.
From Stdlib Require Import Ascii String.

#[local] Open Scope Z_scope.

(** ** What a computation sends *)

Section emits.
Context {C V : Type} `{!MetadataItem C} (w : World C V).
Implicit Types (s : Task C V) (a : ScAction C V) (Q : ScAction C V -> Prop).

(** Nothing, and nothing or one action. *)
Definition quiet {E A} (m : ME E (Task C V) A) : Prop := forall s, sent (snd (m s)) = sent s.
Definition emits {E A} Q (m : ME E (Task C V) A) : Prop :=
  forall s, sent (snd (m s)) = sent s \/ exists a, sent (snd (m s)) = sent s ++ [a] /\ Q a.

Lemma quiet_emits {E A} Q (m : ME E (Task C V) A) : quiet m -> emits Q m.
Proof. intros Hm s. by left. Qed.
Lemma emits_weaken {E A} Q (Q' : ScAction C V -> Prop) (m : ME E (Task C V) A) :
  (forall a, Q a -> Q' a) -> emits Q m -> emits Q' m.
Proof. intros HQ Hm s. destruct (Hm s) as [?|(a & ? & ?)]; [by left|]. right. exists a. auto. Qed.
Lemma quiet_ret {E A} (x : A) : quiet (E := E) (mret x).
Proof. done. Qed.
Lemma quiet_fail {E A} (e : E) : quiet (A := A) (fail e).
Proof. done. Qed.
Lemma quiet_look {E A} (f : ScContext C V -> A) : quiet (E := E) (look w f).
Proof. done. Qed.
Lemma quiet_patience {E} : quiet (E := E) (patience w).
Proof. done. Qed.
Lemma quiet_bind {E A B} (m : ME E (Task C V) A) (f : A -> ME E (Task C V) B) :
  quiet m -> (forall x, quiet (f x)) -> quiet (m ≫= f).
Proof.
  intros Hm Hf s. unfold mbind, M_bind. specialize (Hm s). destruct (m s) as [[x|e|] s'] eqn:E1; cbn in *; [|done..].
  by rewrite Hf.
Qed.
Lemma quiet_try {E A} (m : ME E (Task C V) A) : quiet m -> quiet (try m).
Proof. intros Hm s. unfold try. specialize (Hm s). by destruct (m s) as [[x|e|] s']. Qed.
Lemma emits_bind {E A B} Q (m : ME E (Task C V) A) (f : A -> ME E (Task C V) B) :
  quiet m -> (forall x, emits Q (f x)) -> emits Q (m ≫= f).
Proof.
  intros Hm Hf s. unfold mbind, M_bind. specialize (Hm s). destruct (m s) as [[x|e|] s'] eqn:E1; cbn in *; [|by left..].
  destruct (Hf x s') as [?|(a & ? & ?)]; [left; congruence|]. right. exists a. split; [congruence|done].
Qed.
Lemma emits_then {E A B} Q (m : ME E (Task C V) A) (f : A -> ME E (Task C V) B) :
  emits Q m -> (forall x, quiet (f x)) -> emits Q (m ≫= f).
Proof.
  intros Hm Hf s. unfold mbind, M_bind. specialize (Hm s). destruct (m s) as [[x|e|] s'] eqn:E1; cbn in *; [|done..].
  pose proof (Hf x s' : _ = _) as E2. destruct Hm as [Hm|(a & Hm & Ha)]; [left; congruence|]. right. exists a. by rewrite E2.
Qed.
Lemma emits_try {E A} Q (m : ME E (Task C V) A) : emits Q m -> emits Q (try m).
Proof. intros Hm s. unfold try. specialize (Hm s). by destruct (m s) as [[x|e|] s']. Qed.
(** A step that ends with a value, of which something is known. *)
Definition yields {E A} (m : ME E (Task C V) A) (P : A -> Prop) : Prop :=
  forall s, exists x s', m s = (Ok x, s') /\ (sent s' = sent s /\ (clock s <= clock s')%nat) /\ P x.
Lemma yields_ret {E A} (x : A) (P : A -> Prop) : P x -> yields (E := E) (mret x) P.
Proof. intros Hx s. by exists x, s. Qed.
Lemma yields_bind {E A B} (m : ME E (Task C V) A) (f : A -> ME E (Task C V) B) (P : A -> Prop) (P' : B -> Prop) :
  yields m P -> (forall x, P x -> yields (f x) P') -> yields (m ≫= f) P'.
Proof.
  intros Hm Hf s. destruct (Hm s) as (x & s1 & E1 & [Es Hc] & Hx). destruct (Hf x Hx s1) as (y & s2 & E2 & [Es' Hc'] & Hy).
  exists y, s2. rewrite (bind_ok _ _ _ _ _ E1). split; [done|]. split; [split; [congruence|lia]|done].
Qed.
Lemma yields_look {E A B} (g : ScContext C V -> A) (f : A -> ME E (Task C V) B) (P : B -> Prop) :
  (forall t l, yields (f (g (at_time w t l))) P) -> yields (look w g ≫= f) P.
Proof.
  intros Hf s. destruct (Hf (clock s) (sent s) (MkTask (Datatypes.S (clock s)) (sent s))) as (x & s' & E1 & [Es Hc] & Hx).
  exists x, s'. split; [exact E1|]. cbn in *. split; [split; [done|lia]|done].
Qed.
Lemma emits_yields {E A B} Q (m : ME E (Task C V) A) (f : A -> ME E (Task C V) B) P :
  yields m P -> (forall x, P x -> emits Q (f x)) -> emits Q (m ≫= f).
Proof. intros Hm Hf s. destruct (Hm s) as (x & s' & E1 & [Es _] & Hx). rewrite (bind_ok _ _ _ _ _ E1), <-Es. by apply Hf. Qed.
(** What is seen is so at some instant. *)
Lemma emits_look {E A B} Q (g : ScContext C V -> A) (f : A -> ME E (Task C V) B) :
  (forall t l, emits Q (f (g (at_time w t l)))) -> emits Q (look w g ≫= f).
Proof. intros Hf s. apply (Hf (clock s) (sent s) (MkTask (Datatypes.S (clock s)) (sent s))). Qed.

Lemma quiet_wait_updated {S St} (sc : StoreContext S St) key text timeout current n i :
  quiet (wait_updated w sc key text timeout current n i).
Proof.
  revert i. induction n as [|n IH]; intros i; cbn [wait_updated]; apply quiet_bind; auto using quiet_look; intros new;
    destruct (updated_value current new); auto using quiet_ret, quiet_fail.
Qed.
Lemma quiet_wait_deleted {S St} (sc : StoreContext S St) key n : quiet (wait_deleted w sc key n).
Proof.
  induction n as [|n IH]; cbn [wait_deleted]; apply quiet_bind; auto using quiet_look; intros [];
    cbn [negb]; auto using quiet_ret, quiet_fail.
Qed.
Lemma emits_send {E B} Q a (f : unit -> ME E (Task C V) B) :
  Q a -> (forall x, quiet (f x)) -> emits Q (send a ≫= f).
Proof. intros Ha Hf s. right. exists a. split; [|done]. unfold mbind, M_bind. cbn. by rewrite Hf. Qed.

Lemma emits_wait_action {S St} Q (sc : StoreContext S St) key action timeout :
  Q (ctx_send _ _ sc action) -> emits Q (wait_action_with_timeout w sc key action timeout).
Proof.
  intros HQ. apply emits_bind; [apply quiet_look|]. intros current. apply emits_send; [done|]. intros [].
  apply quiet_bind; [apply quiet_patience|]. intros n. apply quiet_wait_updated.
Qed.
Lemma emits_create_spec {S St} Q (sc : StoreContext S St) key spec :
  Q (ctx_send _ _ sc (UpdateSpec key spec)) -> emits Q (create_spec w sc key spec).
Proof. apply emits_wait_action. Qed.
Lemma emits_delete {S St} Q (sc : StoreContext S St) key :
  Q (ctx_send _ _ sc (DeleteAction key)) -> emits Q (ctx_delete w sc key).
Proof.
  intros HQ. apply emits_send; [done|]. intros []. apply quiet_bind; [apply quiet_patience|]. intros n. apply quiet_wait_deleted.
Qed.
Lemma emits_delete_named {S St} Q (sc : StoreContext S St) name key error_code not_found :
  (forall t l, contains_key sc key (at_time w t l) = true -> Q (ctx_send _ _ sc (DeleteAction key))) ->
  emits Q (delete_named w sc name key error_code not_found).
Proof.
  intros HQ. apply emits_look. intros t l. destruct (contains_key sc key (at_time w t l)) eqn:E; [|by apply quiet_emits, quiet_ret].
  apply emits_then; [|intros ?; apply quiet_ret]. apply emits_try, emits_delete. by apply (HQ t l).
Qed.
End emits.
#[export] Hint Resolve quiet_ret quiet_fail quiet_look quiet_patience quiet_try quiet_emits emits_create_spec emits_wait_action
  emits_delete emits_delete_named emits_try : admin.

(** ** What a request asks for *)

Section asked.
Context {C V AC : Type} `{!MetadataItem C} `{!EqDecision V} `{!AuthContext AC}.
Context (parse_version : string -> option V) (version_to_string : V -> string) (w : World C V) (auth : AC).

(** An answer of the authorization that lets the request through; registering
    an SPU is let through by an error too. *)
Definition allows (answer : string + bool) : bool := match answer with inr b => b | inl _ => false end.
Definition not_denied (answer : string + bool) : bool := match answer with inr b => b | inl _ => true end.
Definition let_through (req : AdminRequest V) : bool :=
  let may_create ty := allows (allow_type_action auth ty TypeCreate) in
  let may_delete ty key := allows (allow_instance_action auth ty InstanceDelete key) in
  match req with
  | AdminCreate (CreateTopic _ _) => may_create TyTopic
  | AdminCreate (CreateSpuGroup _ _) => may_create TySpuGroup
  | AdminCreate (CreateCustomSpu _ _) => not_denied (allow_type_action auth TyCustomSpu TypeCreate)
  | AdminCreate (CreateSmartModule _ _) => may_create TySmartModule
  | AdminCreate (CreateTableFormat _ _) => may_create TyTableFormat
  | AdminCreate (CreateMirror _ _) => negb (read_only_metadata w)
  | AdminCreate (CreateUnknown _) => false
  | AdminUpdate name _ => allows (allow_instance_action auth TyTopic InstanceUpdate name)
  | AdminDelete (DeleteTopic name _) => may_delete TyTopic name
  | AdminDelete (DeleteCustomSpu key) => may_delete TyCustomSpu (custom_key_show key)
  | AdminDelete (DeleteSpuGroup name) => may_delete TySpuGroup name
  | AdminDelete (DeleteSmartModule name) => may_delete TySmartModule name
  | AdminDelete (DeleteTableFormat name) => may_delete TyTableFormat name
  | AdminDelete (DeleteMirror _) => negb (read_only_metadata w)
  | AdminDelete (DeleteUnknown _) => false
  | AdminClear name _ => may_delete TyTopic name
  end.

(** The authorization says that the sender may do what the request asks for. *)
Definition sender_may (req : AdminRequest V) : Prop :=
  let create ty := allow_type_action auth ty TypeCreate = inr true in
  let delete ty key := allow_instance_action auth ty InstanceDelete key = inr true in
  match req with
  | AdminCreate (CreateTopic _ _) => create TyTopic
  | AdminCreate (CreateSpuGroup _ _) => create TySpuGroup
  | AdminCreate (CreateCustomSpu _ _) => create TyCustomSpu
  | AdminCreate (CreateSmartModule _ _) => create TySmartModule
  | AdminCreate (CreateTableFormat _ _) => create TyTableFormat
  | AdminCreate (CreateMirror _ _) => create TyMirror
  | AdminUpdate name _ => allow_instance_action auth TyTopic InstanceUpdate name = inr true
  | AdminDelete (DeleteTopic name _) => delete TyTopic name
  | AdminDelete (DeleteCustomSpu key) => delete TyCustomSpu (custom_key_show key)
  | AdminDelete (DeleteSpuGroup name) => delete TySpuGroup name
  | AdminDelete (DeleteSmartModule name) => delete TySmartModule name
  | AdminDelete (DeleteTableFormat name) => delete TyTableFormat name
  | AdminDelete (DeleteMirror name) => delete TyMirror name
  | AdminClear name _ => delete TyTopic name
  | AdminCreate (CreateUnknown _) | AdminDelete (DeleteUnknown _) => False
  end.
(** The two requests that the code does not ask the authorization about: those
    on mirrors, where only read-only metadata stops them
    ([mirrors_unprotected]), and an SPU that is registered while the
    authorization has no answer ([unanswered_registers]). *)
Definition unprotected (req : AdminRequest V) : Prop :=
  match req with
  | AdminCreate (CreateMirror _ _) | AdminDelete (DeleteMirror _) => read_only_metadata w = false
  | AdminCreate (CreateCustomSpu _ _) => exists err, allow_type_action auth TyCustomSpu TypeCreate = inl err
  | _ => False
  end.
Lemma let_through_may req : let_through req = true -> sender_may req \/ unprotected req.
Proof.
  assert (forall answer, allows answer = true -> answer = inr true) as Ha by by intros [?|[]].
  destruct req as [[]|name action|[]|name reset]; cbn [let_through sender_may unprotected]; try (intros ?; left; by apply Ha); try done.
  - destruct (allow_type_action auth TyCustomSpu TypeCreate) as [e|[]]; [by eauto|by left|done].
  - right. by apply negb_true_iff.
  - right. by apply negb_true_iff.
Qed.

(** What holds of the stores at an instant. *)
Definition once (P : ScContext C V -> Prop) : Prop := exists t l, P (at_time w t l).

(** A topic that may be created, with what must be in the stores. *)
Definition filter_loaded (M : (ScContext C V -> Prop) -> Prop) (spec : TopicSpec) : Prop :=
  forall d, ts_deduplication spec = Some d -> exists key,
    from_qualified_name parse_version (uses (transform (dedup_filter d))) = inr key /\
    M (fun ctx => contains_key smartmodules (key_store_id version_to_string key) ctx = true).
Definition replicas_ok (M : (ScContext C V -> Prop) -> Prop) (spec : TopicSpec) : Prop :=
  match ts_replicas spec with
  | Computed param => param_partitions param <> 0 /\ param_replication_factor param <> 0
  | Assigned maps =>
      validate_maps maps = None /\
      M (fun ctx => forall spu, spu ∈ unique_spus_in_partition_map maps -> spu ∈ spu_ids (sc_spus ctx))
  | Mirror _ => True
  end.
Definition acceptable (M : (ScContext C V -> Prop) -> Prop) (name : string) (spec : TopicSpec) : Prop :=
  valid_name name /\ M (fun ctx => contains_key topics name ctx = false) /\ within_limits spec /\
  filter_loaded M spec /\ replicas_ok M spec.

Inductive asked : AdminRequest V -> ScAction C V -> Prop :=
| asked_create_topic common spec :
    create_dry_run common = false -> acceptable once (create_name common) spec ->
    asked (AdminCreate (CreateTopic common spec)) (OnTopics (UpdateSpec (create_name common) spec))
| asked_create_spu_group common spec :
    asked (AdminCreate (CreateSpuGroup common spec)) (OnSpgs (UpdateSpec (create_name common) spec))
| asked_register_spu common spec :
    create_dry_run common = false -> once (fun ctx => contains_key spus (create_name common) ctx = false) ->
    once (fun ctx => get_by_id (custom_id spec) ctx = None) ->
    asked (AdminCreate (CreateCustomSpu common spec)) (OnSpus (UpdateSpec (create_name common) (spu_of_custom spec)))
| asked_create_smartmodule common spec :
    sm_meta spec = None ->
    asked (AdminCreate (CreateSmartModule common spec)) (OnSmartModules (UpdateSpec (create_name common) spec))
| asked_create_package common spec package :
    sm_meta spec = Some package -> package_is_valid package = true ->
    asked (AdminCreate (CreateSmartModule common spec)) (OnSmartModules (UpdateSpec (package_store_id version_to_string package) spec))
| asked_create_tableformat common spec :
    once (fun ctx => contains_key tableformats (create_name common) ctx = false) ->
    asked (AdminCreate (CreateTableFormat common spec)) (OnTableFormats (UpdateSpec (create_name common) spec))
| asked_register_mirror common spec :
    once (fun ctx => forall m id, value mirrors (create_name common) ctx = Some m -> mirror_type (obj_spec m) <> RemoteType id) ->
    asked (AdminCreate (CreateMirror common spec)) (OnMirrors (UpdateSpec (create_name common) spec))
| asked_add_partitions name count topic param :
    once (fun ctx => value topics name ctx = Some topic) ->
    ts_system (obj_spec topic) = false -> ts_replicas (obj_spec topic) = Computed param ->
    asked (AdminUpdate name (AddPartition count))
      (OnTopics (UpdateSpec (obj_key topic) (set_replicas (Computed (MkTopicReplicaParam (as_u32 (param_partitions param + count))
         (param_replication_factor param) (param_ignore_rack_assignment param))) (obj_spec topic))))
| asked_add_mirror name remote flag topic home mirror id :
    once (fun ctx => value topics name ctx = Some topic) -> once (fun ctx => value mirrors remote ctx = Some mirror) ->
    mirror_type (obj_spec mirror) = RemoteType id ->
    ts_system (obj_spec topic) = false -> ts_replicas (obj_spec topic) = Mirror (ConfigHome home) ->
    (forall p, p ∈ hm_partitions home -> remote_cluster p <> remote) ->
    asked (AdminUpdate name (AddMirror remote flag))
      (OnTopics (UpdateSpec (obj_key topic) (set_replicas (Mirror (ConfigHome (add_partition
         (MkHomePartitionConfig remote (replica_key_show (MkReplicaKey (obj_key topic) 0)) (hm_source home)) home)))
         (obj_spec topic))))
| asked_delete_topic name force topic :
    once (fun ctx => value topics name ctx = Some topic) ->
    (forall config, ts_replicas (obj_spec topic) <> Mirror (ConfigRemote config)) ->
    (force = true \/ ts_system (obj_spec topic) = false) ->
    asked (AdminDelete (DeleteTopic name force)) (OnTopics (DeleteAction name))
| asked_unregister_spu key spu :
    once (fun ctx => match key with KeyName name => value spus name ctx = Some spu | KeyId id => get_by_id id ctx = Some spu end) ->
    spu_type (obj_spec spu) = Custom ->
    asked (AdminDelete (DeleteCustomSpu key)) (OnSpus (DeleteAction (obj_key spu)))
| asked_delete_spu_group name :
    once (fun ctx => contains_key spgs name ctx = true) ->
    asked (AdminDelete (DeleteSpuGroup name)) (OnSpgs (DeleteAction name))
| asked_delete_smartmodule name key :
    from_qualified_name parse_version name = inr key ->
    once (fun ctx => contains_key smartmodules (key_store_id version_to_string key) ctx = true) ->
    asked (AdminDelete (DeleteSmartModule name)) (OnSmartModules (DeleteAction (key_store_id version_to_string key)))
| asked_delete_tableformat name :
    once (fun ctx => contains_key tableformats name ctx = true) ->
    asked (AdminDelete (DeleteTableFormat name)) (OnTableFormats (DeleteAction name))
| asked_unregister_mirror name :
    once (fun ctx => contains_key mirrors name ctx = true) ->
    asked (AdminDelete (DeleteMirror name)) (OnMirrors (DeleteAction name)).
#[local] Hint Constructors asked : admin.

(** ** Validation of a topic *)

Lemma status_error_iff st : status_is_error st = false <-> st_error_code st = EcNone.
Proof. unfold status_is_error. by destruct (st_error_code st). Qed.
Lemma next_state_ok name (n : TopicNextState (C := C)) :
  st_error_code (next_state_status name n) = EcNone <-> next_resolution n <> InvalidConfig.
Proof. unfold next_state_status. by destruct (next_resolution n). Qed.

Lemma assigned_placed maps (st : LocalStore string SpuSpec SpuStatus C) :
  validate_maps maps = None ->
  next_resolution (update_replica_map_for_assigned_topic (C := C) maps st) <> InvalidConfig <->
  forall spu, spu ∈ unique_spus_in_partition_map maps -> spu ∈ spu_ids st.
Proof.
  intros Hv. unfold update_replica_map_for_assigned_topic. destruct (List.find _ _) as [spu|] eqn:E.
  - apply List.find_some in E as [Hin E]. apply list_elem_of_In in Hin. split; [done|]. intros H'. specialize (H' spu Hin).
    by rewrite bool_decide_true in E.
  - assert (forall spu, spu ∈ unique_spus_in_partition_map maps -> spu ∈ spu_ids st) as Hall.
    { intros spu Hin. pose proof (List.find_none _ _ E spu (proj1 (list_elem_of_In _ _) Hin)) as H'.
      apply negb_false_iff in H'. by apply bool_decide_eq_true in H'. }
    split; [done|]. intros _. case_bool_decide as Em; [|done]. exfalso. unfold map_of_partitions in Em.
    destruct maps as [|p maps]; [done|].
    assert (forall l (m : gmap Z (list Z)), m <> ∅ -> foldl (fun m q => <[pm_id q := pm_replicas q]> m) m l <> ∅) as Hne.
    { induction l as [|q l IH]; intros m Hm; cbn; [done|]. apply IH. apply insert_non_empty. }
    revert Em. cbn [foldl]. apply Hne. apply insert_non_empty.
Qed.
Lemma assigned_valid maps :
  next_resolution (validate_assigned_topic_parameters (C := C) maps) = InvalidConfig <-> validate_maps maps <> None.
Proof. unfold validate_assigned_topic_parameters. by destruct (validate_maps maps). Qed.
Lemma computed_valid param :
  next_resolution (validate_computed_topic_parameters (C := C) param) <> InvalidConfig <->
  param_partitions param <> 0 /\ param_replication_factor param <> 0.
Proof.
  unfold validate_computed_topic_parameters, valid_partition, valid_replication_factor.
  destruct (Z.eqb_spec (param_partitions param) 0), (Z.eqb_spec (param_replication_factor param) 0); cbn; naive_solver.
Qed.

(** The validation ends, sends nothing, and answers without an error only for
    a topic that may be created. *)
Lemma deduplication_sound spec :
  yields (validate_deduplication parse_version version_to_string w (ts_deduplication spec))
    (fun r => match r with Some st => status_is_error st = true | None => filter_loaded once spec end).
Proof.
  unfold validate_deduplication, filter_loaded. destruct (ts_deduplication spec) as [d|]; [|by apply yields_ret].
  destruct (from_qualified_name parse_version _) as [e|key] eqn:Ek; [by apply yields_ret|]. apply yields_look. intros t l.
  apply yields_ret. destruct (contains_key smartmodules _ _) eqn:Eh; cbn [negb]; [|done].
  intros d' [= <-]. exists key. split; [done|]. by exists t, l.
Qed.
Lemma validation_sound name spec :
  yields (validate_topic_request parse_version version_to_string w name spec)
    (fun st => status_is_error st = false -> acceptable once name spec).
Proof.
  unfold validate_topic_request. destruct (validate_resource_name name) as [e|] eqn:En; [by apply yields_ret|].
  apply validate_resource_name_iff in En. apply yields_look. intros t l. destruct (contains_key topics name _) eqn:Et; [by apply yields_ret|].
  destruct (validate_config spec) eqn:Ec; [by apply yields_ret|]. apply validate_config_iff in Ec.
  eapply yields_bind; [apply deduplication_sound|]. intros [st|] Hr; [apply yields_ret; congruence|].
  assert (once (fun ctx => contains_key topics name ctx = false)) as Ho by (by exists t, l).
  assert (forall n : TopicNextState (C := C), (next_resolution n <> InvalidConfig -> replicas_ok once spec) ->
    status_is_error (next_state_status name n) = false -> acceptable once name spec) as Hn.
  { intros n Hn He. do 4 (split; [done|]). apply Hn. apply (next_state_ok name). by apply status_error_iff. }
  destruct (ts_replicas spec) as [maps|param|config] eqn:Er; unfold replicas_ok in Hn; rewrite Er in Hn.
  - cbv zeta. destruct (next_resolution (validate_assigned_topic_parameters (C := C) maps)) eqn:Ev.
    4: { apply yields_ret, Hn. by rewrite Ev. }
    all: apply yields_look; intros t' l'; apply yields_ret, Hn; intros Hp;
      assert (validate_maps maps = None) as Em by (destruct (validate_maps maps) eqn:Em; [|done];
        rewrite (proj2 (assigned_valid maps)) in Ev by congruence; done);
      (split; [done|]); exists t', l'; by apply assigned_placed.
  - apply yields_ret, Hn, computed_valid.
  - by apply yields_ret, Hn.
Qed.

(** ** One action, asked for and let through *)

Lemma emits_authorized (Q : ScAction C V -> Prop) answer name (k : ME string (Task C V) Status) : (allows answer = true -> emits Q k) -> emits Q (authorized answer name k).
Proof. intros Hk. unfold authorized. destruct answer as [e|[]]; auto with admin. Qed.

(** A handler that ends by an action and a status. *)
Lemma emits_created {A} (Q : ScAction C V -> Prop) (m : ME string (Task C V) A) (f : string + A -> Status) :
  emits Q m -> emits Q (r ← try m; mret (f r)).
Proof. intros Hm. apply emits_then; [by apply emits_try|]. intros r. apply quiet_ret. Qed.

(** A request's action is one it asks for, and its sender may ask for it. *)
Definition good (req : AdminRequest V) (a : ScAction C V) : Prop := asked req a /\ let_through req = true.

Lemma quiet_wait_provisioned name uid count n : quiet (wait_provisioned w name uid count n).
Proof.
  induction n as [|n IH]; cbn [wait_provisioned]; apply quiet_bind; auto with admin; intros l;
    destruct (provisioned_up_to _ _ _ _); auto with admin.
Qed.
Lemma emits_create_topic common spec :
  emits (good (AdminCreate (CreateTopic common spec)))
    (handle_create_topics_request parse_version version_to_string w auth common spec).
Proof.
  apply emits_authorized. intros Ha. eapply emits_yields; [apply validation_sound|]. cbn beta. intros st Hst.
  destruct (status_is_error st); [by auto with admin|]. destruct (create_dry_run common) eqn:Ed; cbn [negb]; [by auto with admin|].
  apply emits_then.
  - apply emits_try, emits_create_spec. split; [constructor; auto|done].
  - intros [err|inst]; [apply quiet_ret|]. destruct (ts_replicas spec); auto with admin;
      apply quiet_bind; auto using quiet_wait_provisioned with admin.
Qed.

Lemma spu_validation name spec :
  yields (validate_custom_spu_request w name spec)
    (fun r => r = None -> once (fun ctx => contains_key spus name ctx = false) /\ once (fun ctx => get_by_id (custom_id spec) ctx = None)).
Proof.
  apply yields_look. intros t l. destruct (contains_key spus name _) eqn:E.
  - eapply (yields_bind _ _ (fun b => b = true)); [by apply yields_ret|]. intros b ->. by apply yields_ret.
  - apply yields_look. intros t' l'. apply yields_ret. destruct (get_by_id (custom_id spec) _) eqn:E'; [done|]. intros _. split; by do 2 eexists.
Qed.
Lemma emits_register_spu common spec :
  emits (good (AdminCreate (CreateCustomSpu common spec))) (handle_register_custom_spu_request w auth common spec).
Proof.
  assert (not_denied (allow_type_action auth TyCustomSpu TypeCreate) = true ->
    emits (good (AdminCreate (CreateCustomSpu common spec))) (refused ← validate_custom_spu_request w (create_name common) spec;
      match refused with
      | Some status => mret status
      | None => if create_dry_run common then mret status_default else process_custom_spu_request w (create_name common) spec
      end)) as Hk.
  { intros Hp. eapply emits_yields; [apply spu_validation|]. cbn beta. intros [st|] Hn; [by auto with admin|].
    destruct (Hn eq_refl). destruct (create_dry_run common) eqn:Ed; [by auto with admin|].
    apply emits_created, emits_create_spec. split; [by constructor|done]. }
  unfold handle_register_custom_spu_request. destruct (allow_type_action auth TyCustomSpu TypeCreate) as [e|[]]; auto with admin.
Qed.

Lemma emits_create req : emits (good (AdminCreate req)) (handle_create_request parse_version version_to_string w auth req).
Proof.
  destruct req as [common spec|common spec|common spec|common spec|common spec|common spec|label]; cbn [handle_create_request].
  - apply emits_create_topic.
  - apply emits_authorized. intros Ha. apply emits_created, emits_wait_action. split; [constructor|done].
  - apply emits_register_spu.
  - apply emits_authorized. intros Ha. unfold process_smartmodule_request. destruct (sm_meta spec) as [package|] eqn:Em.
    + destruct (package_is_valid package) eqn:Ev; cbn [negb]; [|by auto with admin].
      apply emits_created, emits_create_spec. split; [by constructor|done].
    + apply emits_created, emits_create_spec. split; [by constructor|done].
  - apply emits_look. intros t l. destruct (contains_key tableformats _ _) eqn:Ek; [by auto with admin|].
    apply emits_authorized. intros Ha. apply emits_created, emits_create_spec. split; [|done]. constructor. by exists t, l.
  - unfold handle_register_mirror. destruct (read_only_metadata w) eqn:Er; [by auto with admin|]. apply emits_look. intros t l.
    assert ((forall m id, value mirrors (create_name common) (at_time w t l) = Some m -> mirror_type (obj_spec m) <> RemoteType id) ->
      emits (good (AdminCreate (CreateMirror common spec))) (create_spec w mirrors (create_name common) spec;; mret (status_ok_of (create_name common)))) as Hk.
    { intros Hm. apply emits_then; [|auto with admin]. apply emits_create_spec. split; [|cbn [let_through]; by rewrite Er].
      constructor. by exists t, l. }
    destruct (value mirrors (create_name common) (at_time w t l)) as [m|] eqn:Em; cbn [fmap option_fmap option_map].
    + unfold compose. destruct (mirror_type (obj_spec m)) eqn:Et; [by auto with admin|]. apply Hk. intros m' id [= <-]. congruence.
    + by apply Hk.
  - auto with admin.
Qed.

Lemma emits_unregister_spu key spu :
  once (fun ctx => match key with KeyName name => value spus name ctx = Some spu | KeyId id => get_by_id id ctx = Some spu end) ->
  let_through (AdminDelete (DeleteCustomSpu key)) = true ->
  emits (good (AdminDelete (DeleteCustomSpu key))) (un_register_custom_spu w spu).
Proof.
  intros Ho Hp. unfold un_register_custom_spu, is_custom. destruct (spu_type (obj_spec spu)) eqn:Et; cbn [negb]; [by auto with admin|].
  apply emits_created, emits_delete. split; [by constructor|done].
Qed.
Lemma emits_delete_request req : emits (good (AdminDelete req)) (handle_delete_request parse_version version_to_string w auth req).
Proof.
  destruct req as [name force|key|name|name|name|name|label]; cbn [handle_delete_request].
  - apply emits_authorized. intros Ha. apply emits_look. intros t l. destruct (value topics name (at_time w t l)) as [topic|] eqn:Et; [|by auto with admin].
    assert (match ts_replicas (obj_spec topic) with Mirror (ConfigRemote _) => False | _ => True end ->
      emits (good (AdminDelete (DeleteTopic name force)))
        (if negb force && ts_system (obj_spec topic) then mret (MkStatus name (EcSystemSpecDeletionAttempt "topic" name) None)
         else deleted ← try (ctx_delete w topics name);
           mret match deleted with inl err => MkStatus name EcTopicError (Some err) | inr _ => status_ok_of name end)) as Hk.
    { intros Hr. destruct (negb force && ts_system (obj_spec topic)) eqn:Ef; [by auto with admin|].
      apply emits_created, emits_delete. split; [|done]. apply (asked_delete_topic _ _ topic).
      - by exists t, l.
      - intros config E. by rewrite E in Hr.
      - destruct force; [by left|]. by right. }
    cbv zeta. destruct (ts_replicas (obj_spec topic)) as [| |[]]; [by apply Hk|by apply Hk|by auto with admin|by apply Hk].
  - apply emits_authorized. intros Ha. destruct key as [name|id]; apply emits_look; intros t l.
    + destruct (value spus name (at_time w t l)) as [spu|] eqn:E; [|by auto with admin]. apply emits_unregister_spu; [by exists t, l|done].
    + destruct (get_by_id id (at_time w t l)) as [spu|] eqn:E; [|by auto with admin]. apply emits_unregister_spu; [by exists t, l|done].
  - apply emits_authorized. intros Ha. apply emits_delete_named. intros t l Hc. split; [|done]. constructor. by exists t, l.
  - apply emits_authorized. intros Ha. destruct (from_qualified_name parse_version name) as [e|key] eqn:E; [by auto with admin|].
    apply emits_delete_named. intros t l Hc. split; [|done]. apply asked_delete_smartmodule; [done|]. by exists t, l.
  - apply emits_authorized. intros Ha. apply emits_delete_named. intros t l Hc. split; [|done]. constructor. by exists t, l.
  - unfold handle_unregister_mirror. destruct (read_only_metadata w) eqn:Er; [by auto with admin|]. apply emits_look. intros t l.
    destruct (contains_key mirrors name (at_time w t l)) eqn:E; cbn [negb]; [|by auto with admin].
    apply emits_created, emits_delete. split; [|cbn [let_through]; by rewrite Er].
    constructor. by exists t, l.
  - auto with admin.
Qed.

Lemma find_unassigned remote home :
  assigned_partition remote (ConfigHome home) = None -> forall p, p ∈ hm_partitions home -> remote_cluster p <> remote.
Proof.
  unfold assigned_partition, mirror_partitions. generalize 0. induction (hm_partitions home) as [|q l IH]; intros i E p Hp; [by apply not_elem_of_nil in Hp|].
  cbn [map enumerate List.find snd] in E. destruct (String.eqb_spec (remote_cluster q) remote) as [|Hne]; [done|].
  apply elem_of_cons in Hp as [->|Hp]; [done|]. exact (IH (i + 1) E p Hp).
Qed.
Lemma emits_update name action :
  emits (good (AdminUpdate name action)) (handle_topic_update_request w auth name action).
Proof.
  apply emits_authorized. intros Ha. destruct action as [count|remote flag].
  - apply emits_look. intros t l. destruct (value topics name (at_time w t l)) as [topic|] eqn:Et; [|by auto with admin].
    cbv zeta. destruct (ts_system (obj_spec topic)) eqn:Es; [by auto with admin|]. destruct (ts_replicas (obj_spec topic)) eqn:Er; auto with admin.
    apply emits_then; [|auto with admin]. apply emits_create_spec. split; [|done]. apply asked_add_partitions; [by exists t, l|done..].
  - apply emits_look. intros t l. apply emits_look. intros t' l'. destruct (value topics name (at_time w t l)) as [topic|] eqn:Et; [|by auto with admin].
    destruct (value mirrors remote (at_time w t' l')) as [m|] eqn:Em; cbn [fmap option_fmap option_map]; [|by auto with admin].
    unfold compose. destruct (mirror_type (obj_spec m)) eqn:Emt; [|by auto with admin].
    cbv zeta. destruct (ts_replicas (obj_spec topic)) as [| |mc] eqn:Er; auto with admin.
    destruct (assigned_partition remote mc) eqn:Ep; [by auto with admin|].
    destruct (ts_system (obj_spec topic)) eqn:Es; [by auto with admin|]. destruct mc as [config|home]; [by auto with admin|].
    apply emits_then; [|auto with admin]. apply emits_create_spec. split; [|done].
    eapply asked_add_mirror; [by exists t, l|by exists t', l'|done..|by apply find_unassigned].
Qed.
Lemma quiet_clear name reset : quiet (handle_clear_topic w auth name reset).
Proof.
  intros s. unfold handle_clear_topic, authorized. destruct (allow_instance_action _ _ _ _) as [e|[]]; [done| |done].
  unfold mbind, M_bind. cbn. by destruct (contains_key topics name _).
Qed.
Lemma emits_admin req : emits (good req) (handle_admin_request parse_version version_to_string w auth req).
Proof.
  destruct req as [req|name action|req|name reset]; cbn [handle_admin_request].
  - apply emits_create.
  - apply emits_update.
  - apply emits_delete_request.
  - apply quiet_emits, quiet_clear.
Qed.

(** ** Waiting *)

Lemma updated_value_some (current new : option (MetadataStoreObject string TopicSpec TopicStatus C)) v :
  updated_value current new = Some v -> new = Some v.
Proof. unfold updated_value. destruct new as [n|]; [|done]. destruct current as [o|]; [destruct (is_newer o n)|]; by intros [= <-]. Qed.

(** A wait that ends well has seen the object. *)
Lemma wait_updated_ok key text timeout current n i s v s' :
  wait_updated w topics key text timeout current n i s = (Ok v, s') ->
  exists t, (clock s <= t < clock s')%nat /\ value topics key (at_time w t (sent s)) = Some v.
Proof.
  revert i s. induction n as [|n IH]; intros i s; cbn [wait_updated]; unfold mbind, M_bind; cbn [look];
    (destruct (updated_value current _) as [v'|] eqn:E;
      [intros [= -> <-]; exists (clock s); apply updated_value_some in E; cbn; split; [lia|done]|]); [done|].
  intros H'. destruct (IH _ _ H') as (t & Ht & Ev). exists t. split; [cbn in Ht; lia|done].
Qed.
Lemma create_spec_ok name spec s v s' :
  create_spec w topics name spec s = (Ok v, s') ->
  exists t, (clock s <= t < clock s')%nat /\
    value topics name (at_time w t (sent s ++ [OnTopics (UpdateSpec name spec)])) = Some v.
Proof.
  unfold create_spec, wait_action, wait_action_with_timeout, mbind, M_bind. cbn. intros H'.
  destruct (wait_updated_ok _ _ _ _ _ _ _ _ _ H') as (t & Ht & Ev). exists t. split; [cbn in Ht; lia|done].
Qed.

(** The partitions of a topic that are online. *)
Definition online_partitions (uid : UId) (ctx : ScContext C V) : list (MetadataStoreObject ReplicaKey PartitionSpec PartitionStatus C) :=
  List.filter (fun p => is_owned uid p && status_is_online (obj_status p)) (clone_values (store (sc_partitions ctx))).

Lemma provisioned_enough uid count c l :
  0 <= c -> provisioned_up_to uid count c l = None ->
  count <= c + zlen (List.filter (fun p => is_owned uid p && status_is_online (obj_status p)) l).
Proof.
  revert c. induction l as [|p l IH]; intros c Hc; cbn [provisioned_up_to List.filter]; [done|].
  destruct (is_owned uid p && status_is_online (obj_status p)); [|by apply IH]. rewrite zlen_cons.
  pose proof (zlen_nonneg (List.filter (fun p => is_owned uid p && status_is_online (obj_status p)) l)).
  assert (0 <= as_u32 (c + 1) <= c + 1) by (unfold wrap_u; split; [apply Z.mod_pos_bound; lia|apply Z.mod_le; lia]).
  destruct (Z.eqb_spec (as_u32 (c + 1)) count); [lia|]. intros H'. apply IH in H'; lia.
Qed.
Lemma enough_provisioned uid count c l :
  0 <= c < count -> count < 2 ^ 32 -> count <= c + zlen (List.filter (fun p => is_owned uid p && status_is_online (obj_status p)) l) ->
  provisioned_up_to uid count c l = None.
Proof.
  revert c. induction l as [|p l IH]; intros c Hc Hb; cbn [provisioned_up_to List.filter]; [unfold zlen; cbn; lia|].
  destruct (is_owned uid p && status_is_online (obj_status p)); [|by apply IH]. rewrite zlen_cons. intros Hl.
  rewrite wrap_u_id by (unfold in_u; lia). destruct (Z.eqb_spec (c + 1) count); [done|]. apply IH; lia.
Qed.

Lemma wait_provisioned_ok name uid count n s st s' :
  wait_provisioned w name uid count n s = (Ok st, s') -> st_error_code st = EcNone ->
  exists t, (clock s <= t < clock s')%nat /\ count <= zlen (online_partitions uid (at_time w t (sent s))).
Proof.
  revert s. induction n as [|n IH]; intros s; cbn [wait_provisioned]; unfold mbind, M_bind; cbn [look];
    (destruct (provisioned_up_to uid count 0 _) as [k|] eqn:E;
      [|intros [= <- <-] _; exists (clock s); apply provisioned_enough in E; [|lia]; cbn; split; [lia|done]]).
  - by intros [= <- <-].
  - intros H' He. destruct (IH _ H' He) as (t & Ht & Ev). exists t. split; [cbn in Ht; lia|done].
Qed.

(** ** Refusals *)

(** An answer that is not a success. *)
Definition refusal (r : outcome string Status) : Prop :=
  match r with Ok st => status_is_error st = true | Err _ => True | Panic => False end.
Lemma unauthorized_refused answer name (k : ME string (Task C V) Status) s :
  allows answer = false -> refusal (fst (authorized answer name k s)).
Proof. by destruct answer as [e|[]]. Qed.
Lemma refused_request req s :
  let_through req = false -> refusal (fst (handle_admin_request parse_version version_to_string w auth req s)).
Proof.
  destruct req as [[]|name action|[]|name reset]; cbn [handle_admin_request handle_create_request handle_delete_request let_through];
    try (intros Hp; by apply unauthorized_refused); try done.
  - unfold handle_register_custom_spu_request. by destruct (allow_type_action auth TyCustomSpu TypeCreate) as [e|[]].
  - unfold handle_create_tableformat_request, mbind, M_bind. cbn. destruct (contains_key _ _ _); [done|].
    intros Hp. by apply unauthorized_refused.
  - unfold handle_register_mirror. by destruct (read_only_metadata w).
  - unfold handle_unregister_mirror. by destruct (read_only_metadata w).
Qed.

(** ** Completing a creation *)

Lemma sent_create_spec {S St} (sc : StoreContext S St) key spec s :
  sent (snd (create_spec w sc key spec s)) = sent s ++ [ctx_send _ _ sc (UpdateSpec key spec)].
Proof.
  unfold create_spec, wait_action, wait_action_with_timeout, mbind, M_bind. cbn [look send modify patience]. by rewrite quiet_wait_updated.
Qed.
Lemma sent_delete {S St} (sc : StoreContext S St) key s :
  sent (snd (ctx_delete w sc key s)) = sent s ++ [ctx_send _ _ sc (DeleteAction key)].
Proof. unfold ctx_delete, mbind, M_bind. cbn [send modify patience]. by rewrite quiet_wait_deleted. Qed.
Lemma sent_try {A} (m : ME string (Task C V) A) (f : string + A -> Status) s :
  sent (snd ((r ← try m; mret (f r)) s)) = sent (snd (m s)).
Proof. unfold try, mbind, M_bind. by destruct (m s) as [[?|?|] ?]. Qed.

(** [P] holds at [n] instants while nothing more is sent. *)
Definition during (s : Task C V) (n : nat) (P : ScContext C V -> Prop) : Prop :=
  forall t, (clock s <= t < clock s + n)%nat -> P (at_time w t (sent s)).

Lemma wait_updated_done key text timeout n i s T :
  (T <= clock s + n)%nat -> (forall t, (T <= t)%nat -> contains_key topics key (at_time w t (sent s)) = true) ->
  exists v s', wait_updated w topics key text timeout None n i s = (Ok v, s') /\ (clock s <= clock s')%nat /\
    exists t, value topics key (at_time w t (sent s)) = Some v.
Proof.
  intros HT Hk. revert i s HT Hk. induction n as [|n IH]; intros i s HT Hk; cbn [wait_updated]; unfold mbind, M_bind; cbn [look];
    unfold updated_value at 1; destruct (value topics key (at_time w (clock s) (sent s))) as [v|] eqn:E.
  - exists v. eexists. split; [done|]. split; [cbn; lia|]. by exists (clock s).
  - specialize (Hk (clock s) ltac:(lia)). unfold contains_key in Hk. by rewrite E in Hk.
  - exists v. eexists. split; [done|]. split; [cbn; lia|]. by exists (clock s).
  - destruct (IH (as_u16 (i + 1)) (MkTask (Datatypes.S (clock s)) (sent s))) as (v & s' & E' & Hc & Hv); [cbn; lia|done|].
    exists v, s'. split; [exact E'|]. cbn in Hc. split; [lia|done].
Qed.
Lemma create_spec_done name spec s T :
  let after := sent s ++ [OnTopics (UpdateSpec name spec)] in
  value topics name (at_time w (clock s) (sent s)) = None -> (forall t, (T <= t + wakeups w t)%nat) ->
  (forall t, (T <= t)%nat -> contains_key topics name (at_time w t after) = true) ->
  exists v s', create_spec w topics name spec s = (Ok v, s') /\ sent s' = after /\
    exists t, value topics name (at_time w t after) = Some v.
Proof.
  intros after Hn Hw Hk. pose proof (sent_create_spec topics name spec s) as Hs. revert Hs.
  unfold create_spec, wait_action, wait_action_with_timeout, mbind, M_bind. cbn [look send modify patience]. rewrite Hn. intros Hs.
  match goal with |- context [wait_updated w topics name ?tx ?to None ?n 0 ?st] =>
    destruct (wait_updated_done name tx to n 0 st T) as (v & s2 & E2 & _ & t & Ev); [exact (Hw _)|exact Hk|] end.
  exists v, s2. split; [exact E2|]. split; [|by exists t]. rewrite E2 in Hs. exact Hs.
Qed.
Lemma wait_provisioned_done name uid count n s T :
  0 < count < 2 ^ 32 -> (T <= clock s + n)%nat -> 
  (forall t, (T <= t)%nat -> count <= zlen (online_partitions uid (at_time w t (sent s)))) ->
  fst (wait_provisioned w name uid count n s) = Ok (status_ok_of name).
Proof.
  intros Hc HT Ho. revert s HT Ho. induction n as [|n IH]; intros s HT Ho; cbn [wait_provisioned]; unfold mbind, M_bind; cbn [look];
    destruct (provisioned_up_to uid count 0 _) eqn:E; try done.
  - specialize (Ho (clock s) ltac:(lia)). rewrite enough_provisioned in E; [done|lia..|exact Ho].
  - apply IH; [cbn; lia|done].
Qed.

Lemma during_weaken s n n' P : (n' <= n)%nat -> during s n P -> during s n' P.
Proof. intros ? Hd t Ht. apply Hd. lia. Qed.

(** In the time of its four accesses to stores the validation accepts what is
    acceptable all the time. *)
Lemma validation_complete name spec s :
  acceptable (during s 3) name spec ->
  exists st s', validate_topic_request parse_version version_to_string w name spec s = (Ok st, s') /\
    status_is_error st = false /\ sent s' = sent s /\ (clock s <= clock s' <= clock s + 3)%nat.
Proof.
  intros (Hn & Ha & Hl & Hf & Hr). unfold validate_topic_request. rewrite (proj2 (validate_resource_name_iff name) Hn).
  unfold mbind at 1, M_bind at 1. cbn [look]. rewrite Ha by lia. rewrite (proj2 (validate_config_iff spec) Hl).
  set (s1 := MkTask _ _). assert (exists s2, validate_deduplication parse_version version_to_string w (ts_deduplication spec) s1 = (Ok None, s2) /\
    sent s2 = sent s /\ (clock s + 1 <= clock s2 <= clock s + 2)%nat) as (s2 & E2 & Es2 & Hc2).
  { unfold validate_deduplication, filter_loaded in *. destruct (ts_deduplication spec) as [d|]; [|exists s1; split; [done|cbn; split; [done|lia]]].
    destruct (Hf d eq_refl) as (key & Ek & Hk). rewrite Ek. unfold mbind, M_bind. cbn. rewrite Hk by (cbn; lia). cbn.
    eexists. split; [done|]. cbn. split; [done|lia]. }
  rewrite (bind_ok _ _ _ _ _ E2). unfold replicas_ok in Hr.
  assert (forall n : TopicNextState (C := C), next_resolution n <> InvalidConfig -> status_is_error (next_state_status name n) = false) as Hs.
  { intros n Hne. by apply status_error_iff, next_state_ok. }
  destruct (ts_replicas spec) as [maps|param|config].
  - destruct Hr as [Hm Hp]. unfold validate_assigned_topic_parameters. rewrite Hm. cbn [next_from next_resolution_pending fst next_resolution].
    unfold mbind, M_bind. cbn [look]. do 2 eexists. split; [done|]. split; [|cbn; split; [done|lia]]. apply Hs, assigned_placed; [done|].
    rewrite Es2. apply Hp. lia.
  - do 2 eexists. split; [done|]. split; [|split; [done|lia]]. by apply Hs, computed_valid.
  - do 2 eexists. split; [done|]. split; [|split; [done|lia]]. by apply Hs.
Qed.

(** ** Claims *)

(** C15: Whatever the other tasks of the controller do meanwhile, a request to
    create, change, delete or clear objects sends at most one action, which is
    the one the request asks for under the conditions that the code checks.  It
    sends it only if the authorization says that its sender may, or if it is
    one of the two kinds the code lets through without: a request on mirrors
    while the metadata is not read-only, and the registration of an SPU to
    which the authorization answers with an error. *)
Theorem admin_action_asked (req : AdminRequest V) (s : Task C V) :
  let s' := snd (handle_admin_request parse_version version_to_string w auth req s) in
  sent s' = sent s \/ exists a, sent s' = sent s ++ [a] /\ asked req a /\ (sender_may req \/ unprotected req).
Proof. destruct (emits_admin req s) as [?|(a & ? & ? & ?%let_through_may)]; eauto. Qed.

(** C20: A request whose sender the authorization does not allow it is answered
    by an error, and nothing is sent; but for requests on mirrors while the
    metadata is not read-only, and the registration of an SPU to which the
    authorization answers with an error. *)
Theorem admin_refused (req : AdminRequest V) (s : Task C V) :
  ~ sender_may req -> ~ unprotected req ->
  let '(r, s') := handle_admin_request parse_version version_to_string w auth req s in refusal r /\ sent s' = sent s.
Proof.
  intros Hm Hu. assert (let_through req = false) as Hp by (destruct (let_through req) eqn:E; [by apply let_through_may in E as []|done]).
  pose proof (refused_request req s Hp) as Hr. pose proof (emits_admin req s) as He.
  destruct (handle_admin_request _ _ _ _ _ _) as [r s']. cbn in *. split; [done|].
  destruct He as [?|(a & _ & _ & Hp')]; [done|congruence].
Qed.

(** C16: When the creation of a topic is answered with success, the topic was
    valid.  If it was a dry run, nothing was sent.  Otherwise its creation was
    sent, a moment came when the topic was in the store, and, unless it is a
    mirror, whose creation is answered as soon as it is stored, a later moment
    came when at least as many of its partitions as its spec has were online. *)
Theorem create_topic_ok (common : CommonCreateRequest) (spec : TopicSpec) (s s' : Task C V) (st : Status) :
  handle_create_topics_request parse_version version_to_string w auth common spec s = (Ok st, s') ->
  st_error_code st = EcNone ->
  acceptable once (create_name common) spec /\
  if create_dry_run common then sent s' = sent s else
  sent s' = sent s ++ [OnTopics (UpdateSpec (create_name common) spec)] /\
  exists t topic, (clock s <= t)%nat /\ value topics (create_name common) (at_time w t (sent s')) = Some topic /\
    match ts_replicas spec with
    | Mirror _ => True
    | _ => exists t', (t < t')%nat /\
        spec_partitions (ts_replicas (obj_spec topic)) <= zlen (online_partitions (item_uid (ctx_item (obj_ctx topic))) (at_time w t' (sent s')))
    end.
Proof.
  intros E He. unfold handle_create_topics_request, authorized in E.
  destruct (allow_type_action auth TyTopic TypeCreate) as [e|[]]; [done| |by injection E as <- <-].
  destruct (validation_sound (create_name common) spec s) as (st1 & s1 & E1 & [Es1 Hc1] & Hv). rewrite (bind_ok _ _ _ _ _ E1) in E.
  destruct (status_is_error st1) eqn:Ee.
  { injection E as <- <-. apply status_error_iff in He. congruence. }
  split; [by apply Hv|]. destruct (create_dry_run common); cbn [negb] in E; [by injection E as <- <-|]. unfold process_topic_request, try in E.
  set (name := create_name common) in *. unfold mbind at 1, M_bind at 1 in E.
  pose proof (create_spec_ok name spec s1) as Hcs.
  assert (sent (snd (create_spec w topics name spec s1)) = sent s ++ [OnTopics (UpdateSpec name spec)]) as Hsent.
  { rewrite <-Es1. apply (sent_create_spec topics). }
  destruct (create_spec w topics name spec s1) as [[v|err|] s2]; [|by injection E as <- <-|done].
  destruct (Hcs v s2 eq_refl) as (t & Ht & Ev). cbn [snd] in Hsent. rewrite Es1, <-Hsent in Ev.
  assert (match ts_replicas spec with Mirror _ => True | _ => False end \/
    wait_provisioned w name (item_uid (ctx_item (obj_ctx v))) (spec_partitions (ts_replicas (obj_spec v))) (wakeups w (clock s2)) s2 = (Ok st, s')) as [Hm|Hw].
  { destruct (ts_replicas spec); [right; exact E..|by left]. }
  - destruct (ts_replicas spec); [done..|]. injection E as <- <-. split; [done|]. exists t, v. split; [lia|]. done.
  - assert (sent s' = sent s2) as Es'.
    { pose proof (quiet_wait_provisioned name (item_uid (ctx_item (obj_ctx v))) (spec_partitions (ts_replicas (obj_spec v)))
        (wakeups w (clock s2)) s2) as Hq. by rewrite Hw in Hq. }
    split; [congruence|]. rewrite Es'. exists t, v. split; [lia|]. split; [done|].
    destruct (wait_provisioned_ok _ _ _ _ _ _ _ Hw He) as (t' & Ht' & Hon).
    destruct (ts_replicas spec); [exists t'; split; [lia|exact Hon]..|done].
Qed.

(** C17: The creation of a topic succeeds, when the sender may create topics and
    the topic stays acceptable while it is checked, if the dispatcher stores
    the topic and its partitions come online before the timers run out. *)
Theorem create_topic_completes (common : CommonCreateRequest) (spec : TopicSpec) (s : Task C V) (uid : UId) (T : nat) :
  allow_type_action auth TyTopic TypeCreate = inr true -> create_dry_run common = false ->
  acceptable (during s 4) (create_name common) spec ->
  0 < spec_partitions (ts_replicas spec) < 2 ^ 32 ->
  let after := sent s ++ [OnTopics (UpdateSpec (create_name common) spec)] in
  (forall t topic, value topics (create_name common) (at_time w t after) = Some topic ->
     obj_spec topic = spec /\ item_uid (ctx_item (obj_ctx topic)) = uid) ->
  (forall t, (T <= t)%nat -> contains_key topics (create_name common) (at_time w t after) = true) ->
  (forall t, (T <= t)%nat -> spec_partitions (ts_replicas spec) <= zlen (online_partitions uid (at_time w t after))) ->
  (forall t, (T <= t + wakeups w t)%nat) ->
  fst (handle_create_topics_request parse_version version_to_string w auth common spec s) = Ok (status_ok_of (create_name common)).
Proof.
  intros Ha Hd Hacc Hc after Hobj Hin Hon Hw. unfold handle_create_topics_request, authorized. rewrite Ha, Hd. cbn [negb].
  set (name := create_name common) in *.
  assert (acceptable (during s 3) name spec) as Hacc3.
  { destruct Hacc as (? & ? & ? & Hf & Hr). assert (forall P, during s 4 P -> during s 3 P) as Hd3
      by (intros P; apply during_weaken; lia).
    split; [done|]. split; [by apply Hd3|]. split; [done|]. split.
    - intros d Ed. destruct (Hf d Ed) as (key & ? & ?). exists key. split; [done|by apply Hd3].
    - unfold replicas_ok in *. destruct (ts_replicas spec); [|done..]. destruct Hr. split; [done|by apply Hd3]. }
  destruct (validation_complete name spec s Hacc3) as (st1 & s1 & E1 & Ee & Es1 & Hc1). rewrite (bind_ok _ _ _ _ _ E1), Ee.
  destruct Hacc as (_ & Habs & _). assert (value topics name (at_time w (clock s1) (sent s1)) = None) as Hn1.
  { specialize (Habs (clock s1) ltac:(lia)). unfold contains_key in Habs. rewrite Es1. by destruct (value _ _ _). }
  destruct (create_spec_done name spec s1 T) as (v & s2 & E2 & Es2 & t & Ev); [done|done|by rewrite Es1|].
  rewrite Es1 in Es2, Ev. unfold process_topic_request, try, mbind, M_bind. rewrite E2. cbn [patience].
  destruct (Hobj t v Ev) as [-> ->]. destruct (ts_replicas spec) eqn:Er; [..|done].
  all: apply (wait_provisioned_done _ _ _ _ _ T); [done|apply Hw|by rewrite Es2].
Qed.

Lemma store_id_of_key pkg :
  key_store_id version_to_string (MkPackageKey (pkg_name pkg) (Some (pkg_group pkg)) (Some (pkg_version pkg))) =
  package_store_id version_to_string pkg.
Proof. done. Qed.
(** A package whose version is read back as it was printed, and whose parts do
    not contain the separators of a qualified name. *)
Definition well_named (pkg : SmartModulePackage V) : Prop :=
  parse_version (version_to_string (pkg_version pkg)) = Some (pkg_version pkg) /\
  lacks "/" (pkg_group pkg) = true /\ lacks "/" (pkg_name pkg) = true /\ lacks "@" (pkg_name pkg) = true /\
  lacks "/" (version_to_string (pkg_version pkg)) = true /\ lacks "@" (version_to_string (pkg_version pkg)) = true.


End asked.

(** ** A concrete cluster *)

Notation ExContext := (ScContext LocalMetadataItem string).
Notation ExTask := (Task LocalMetadataItem string).

Definition no_objects : ExContext :=
  MkScContext store_default store_default store_default store_default store_default store_default store_default.
Definition orders_spec : TopicSpec := new_computed 1 1 None.
Definition orders_topic : MetadataStoreObject string TopicSpec TopicStatus LocalMetadataItem :=
  MkObject orders_spec topic_status_default "orders" (MkContext (item_new "orders")).
Definition orders_partition : MetadataStoreObject ReplicaKey PartitionSpec PartitionStatus LocalMetadataItem :=
  MkObject (partition_spec_new 1 [1]) (with_resolution ResOnline partition_status_default) (MkReplicaKey "orders" 0)
    (MkContext (with_parent "orders-0" (item_new "orders"))).
(** The stores with the topic and its partition. *)
Definition with_orders : ExContext :=
  MkScContext store_default (bulk_new [orders_partition]) (bulk_new [orders_topic]) store_default store_default store_default store_default.
(** The topic and its partition are there from the fifth instant on, if something
    was sent. *)
Definition orders_world : World LocalMetadataItem string :=
  MkWorld (fun t l => if (t <? 4)%nat || is_nil l then no_objects else with_orders) (fun _ => 4%nat) false 10.
Definition create_orders : CommonCreateRequest := MkCommonCreate "orders" false None.
Definition idle : ExTask := MkTask 0 [].

Lemma orders_acceptable : acceptable Some id (during orders_world idle 4) "orders" orders_spec.
Proof.
  split; [by apply validate_resource_name_iff|]. split.
  { intros t Ht. unfold orders_world, at_time. by rewrite orb_true_r. }
  split; [by apply validate_config_iff|]. split; [intros d [=]|]. split; cbn; lia.
Qed.

Lemma create_topic_ok_witness :
  handle_create_topics_request Some id orders_world MkRootAuthContext create_orders orders_spec idle
    = (Ok (status_ok_of "orders"), MkTask 6 [OnTopics (UpdateSpec "orders" orders_spec)]) /\
  exists t topic, (0 <= t)%nat /\ value topics "orders" (at_time orders_world t [OnTopics (UpdateSpec "orders" orders_spec)]) = Some topic /\
    exists t', (t < t')%nat /\
      spec_partitions (ts_replicas (obj_spec topic)) <= zlen (online_partitions (item_uid (ctx_item (obj_ctx topic))) (at_time orders_world t' [OnTopics (UpdateSpec "orders" orders_spec)])).
Proof.
  assert (handle_create_topics_request Some id orders_world MkRootAuthContext create_orders orders_spec idle
    = (Ok (status_ok_of "orders"), MkTask 6 [OnTopics (UpdateSpec "orders" orders_spec)])) as E by (vm_compute; reflexivity).
  split; [exact E|].
  destruct (create_topic_ok Some id orders_world MkRootAuthContext create_orders orders_spec _ _ _ E eq_refl) as (_ & _ & t & topic & H').
  exists t, topic. exact H'.
Defined.

Lemma create_topic_completes_witness :
  fst (handle_create_topics_request Some id orders_world MkRootAuthContext create_orders orders_spec idle) = Ok (status_ok_of "orders").
Proof.
  apply (create_topic_completes Some id orders_world MkRootAuthContext create_orders orders_spec idle (item_uid (item_new "orders")) 4).
  - reflexivity.
  - reflexivity.
  - exact orders_acceptable.
  - split; reflexivity.
  - intros t topic. unfold orders_world, at_time. destruct (t <? 4)%nat; [done|]. vm_compute. intros [= <-]. done.
  - intros t Ht. unfold orders_world, at_time. destruct (Nat.ltb_spec t 4); [lia|]. by vm_compute.
  - intros t Ht. unfold orders_world, at_time. destruct (Nat.ltb_spec t 4); [lia|]. by vm_compute.
  - intros t. cbn [wakeups orders_world]. lia.
Defined.

(** The request is let through, and sends what it asks for. *)
Lemma admin_action_asked_witness :
  exists a, sent (snd (handle_admin_request Some id orders_world MkRootAuthContext (AdminCreate (CreateTopic create_orders orders_spec)) idle)) = [a] /\
    asked Some id orders_world (AdminCreate (CreateTopic create_orders orders_spec)) a /\
    sender_may (V := string) MkRootAuthContext (AdminCreate (CreateTopic create_orders orders_spec)).
Proof.
  destruct (admin_action_asked Some id orders_world MkRootAuthContext (AdminCreate (CreateTopic create_orders orders_spec)) idle)
    as [E|(a & E & Ha & [Hm|[]])].
  - vm_compute in E. discriminate E.
  - exists a. split; [exact E|]. split; [exact Ha|exact Hm].
Defined.

Lemma admin_refused_witness :
  let '(r, s') := handle_admin_request Some id orders_world MkReadOnlyAuthContext (AdminCreate (CreateTopic create_orders orders_spec)) idle in
  refusal r /\ sent s' = [].
Proof.
  apply (admin_refused Some id orders_world MkReadOnlyAuthContext (AdminCreate (CreateTopic create_orders orders_spec)) idle); [discriminate|exact id].
Defined.

Definition json_filter : SmartModuleSpec string :=
  MkSmartModuleSpec (Some (MkPackage "json" "acme" "0.1.0")) None (MkWasm WasmBinary []).
Definition json_object : MetadataStoreObject string (SmartModuleSpec string) unit LocalMetadataItem :=
  MkObject json_filter tt "json-acme-0.1.0" (MkContext (item_new "json-acme-0.1.0")).
Definition json_world : World LocalMetadataItem string :=
  MkWorld (fun _ _ => MkScContext store_default store_default store_default store_default (bulk_new [json_object]) store_default store_default)
    (fun _ => 0%nat) false 10.


(** ** What the API lets through *)

(** The basic authorization lets every identity delete every topic, also one
    without any role. *)
Theorem any_identity_deletes (who : X509Identity) (rules : BasicRbacPolicy) :
  sent (snd (handle_delete_topic (MkWorld (fun _ _ => with_orders) (fun _ => 0%nat) false 10) (MkBasicAuthContext who rules) "orders" false idle))
  = [OnTopics (DeleteAction "orders")].
Proof. vm_compute. reflexivity. Qed.

(** A context that denies everything, and one that has no answer. *)
Inductive NoContext := DenyAll | NoAnswer.
#[local] Instance no_auth : AuthContext NoContext := {|
  allow_type_action self _ _ := match self with DenyAll => inr false | NoAnswer => inl "io error"%string end;
  allow_instance_action self _ _ _ := match self with DenyAll => inr false | NoAnswer => inl "io error"%string end;
|}.

(** Mirrors are registered and removed without any permission. *)
Theorem mirrors_unprotected (spec : MirrorSpec) :
  sent (snd (handle_register_mirror orders_world create_orders spec idle)) = [OnMirrors (UpdateSpec "orders" spec)] /\
  forall req, sent (snd (handle_admin_request Some id orders_world DenyAll (AdminCreate req) idle)) = [] \/
    exists common spec, req = CreateMirror common spec.
Proof.
  split; [vm_compute; reflexivity|]. intros req. destruct (emits_admin Some id orders_world DenyAll (AdminCreate req) idle) as [->|(a & _ & _ & Hp)];
    [by left|]. right. destruct req; first [done|by do 2 eexists].
Qed.

(** An error of the authorization lets an SPU be registered. *)
Theorem unanswered_registers (spec : CustomSpuSpec) :
  sent (snd (handle_register_custom_spu_request orders_world NoAnswer create_orders spec idle)) =
  [OnSpus (UpdateSpec "orders" (spu_of_custom spec))].
Proof. vm_compute. reflexivity. Qed.

(** A dry run creates SPU groups, SmartModules and table formats. *)
Theorem dry_run_creates (spg : SpuGroupSpec) (tf : TableFormatSpec) :
  let dry := MkCommonCreate "orders" true None in
  let after req := sent (snd (handle_admin_request Some id orders_world MkRootAuthContext (AdminCreate req) idle)) in
  after (CreateSpuGroup dry spg) = [OnSpgs (UpdateSpec "orders" spg)] /\
  after (CreateTableFormat dry tf) = [OnTableFormats (UpdateSpec "orders" tf)] /\
  after (CreateSmartModule dry json_filter) = [OnSmartModules (UpdateSpec "json-acme-0.1.0" json_filter)] /\
  after (CreateTopic dry orders_spec) = [].
Proof. vm_compute. repeat split. Qed.

(** Clearing a topic is answered with success, and nothing is done. *)
Theorem clear_does_nothing (w : World LocalMetadataItem string) (name : string) (reset : bool) (s : ExTask) :
  contains_key topics name (at_time w (clock s) (sent s)) = true ->
  let '(r, s') := handle_clear_topic w MkRootAuthContext name reset s in r = Ok (status_ok_of name) /\ sent s' = sent s.
Proof. intros E. unfold handle_clear_topic, authorized, mbind, M_bind. cbn. by rewrite E. Qed.

(** Two requests for topics of the same name that overlap are both answered
    with success, and both specs are sent. *)
Definition orders_spec2 : TopicSpec := new_computed 1 2 None.
Theorem same_name_twice :
  let run spec t := handle_create_topics_request Some id orders_world MkRootAuthContext create_orders spec (MkTask t []) in
  run orders_spec 0%nat = (Ok (status_ok_of "orders"), MkTask 6 [OnTopics (UpdateSpec "orders" orders_spec)]) /\
  run orders_spec2 1%nat = (Ok (status_ok_of "orders"), MkTask 6 [OnTopics (UpdateSpec "orders" orders_spec2)]).
Proof. vm_compute. done. Qed.

(** Adding partitions wraps around at 32 bits, and may leave a topic with none. *)
Theorem add_partitions_wraps :
  sent (snd (handle_add_partition (MkWorld (fun _ _ => with_orders) (fun _ => 0%nat) false 10) "orders" (2 ^ 32 - 1) idle)) =
  [OnTopics (UpdateSpec "orders" (new_computed 0 1 None))].
Proof. vm_compute. reflexivity. Qed.

(** A topic without a name is accepted. *)
Theorem empty_topic_name : acceptable Some id (once orders_world) EmptyString orders_spec.
Proof.
  split; [by apply validate_resource_name_iff|]. split; [by exists 0%nat, []|]. split; [by apply validate_config_iff|].
  split; [intros d [=]|]. split; cbn; lia.
Qed.

(** A SmartModule that a list finds by the name of its package is not found by
    this name when it is to be deleted. *)
Theorem listed_not_deleted :
  fst (fetch_smart_modules Some json_world MkRootAuthContext ["json"%string] false idle) = Ok [metadata_of json_object] /\
  handle_delete_smartmodule Some id json_world MkRootAuthContext "json" idle =
  (Ok (MkStatus "json" (EcSmartModuleNotFound "json") (Some "not found"%string)), MkTask 1 []).
Proof. vm_compute. done. Qed.

(** Two packages may have the same key. *)
Theorem packages_collide :
  package_store_id id (MkPackage "json-a" "b" "0.1.0") = package_store_id id (MkPackage "json" "a-b" "0.1.0").
Proof. reflexivity. Qed.
