(* ===== verification/ScMirroring.v ===== *)
(** * Mirroring between clusters

    A remote cluster connects to the controller of its home cluster, which
    sends it the topics that it mirrors
    ([fluvio-sc/src/services/public_api/mirroring/connect.rs]), and keeps its
    own topics in step with them
    ([fluvio-sc/src/controllers/mirroring/controller.rs]).  Both act on the
    stores of their controller as the handlers of [AdminApi] do.  Connections
    and their retries are not modelled. *)

From S2P Require Import Prelude Names EpochMap MetadataStore MetadataSync ClusterTypes Topics ScPartitions ScTopics SpuProduce.
From S2P Require Import SmartContext LocalMeta LocalMetaLaws Dispatch Auth AdminTypes AdminApi AdminLaws.
From stdpp Require Import gmap strings list.
From Stdlib Require Import Ascii String.

#[local] Open Scope Z_scope.

#[export] Instance TopicReplicaParam_eq : EqDecision TopicReplicaParam. Proof. solve_decision. Defined.
#[export] Instance PartitionMap_eq : EqDecision PartitionMap. Proof. solve_decision. Defined.
#[export] Instance SpuMirrorConfig_eq : EqDecision SpuMirrorConfig. Proof. solve_decision. Defined.
#[export] Instance RemoteMirrorConfig_eq : EqDecision RemoteMirrorConfig. Proof. solve_decision. Defined.
#[export] Instance HomeMirrorInner_eq : EqDecision HomeMirrorInner. Proof. solve_decision. Defined.
#[export] Instance MirrorConfig_eq : EqDecision MirrorConfig. Proof. solve_decision. Defined.
#[export] Instance ReplicaSpec_eq : EqDecision ReplicaSpec. Proof. solve_decision. Defined.
#[export] Instance TopicSpec_eq : EqDecision TopicSpec. Proof. solve_decision. Defined.

(** ** Messages *)

(* src/crates/fluvio-controlplane-metadata/src/mirroring/mod.rs:100-106 MirroringSpecWrapper *)
Record MirroringSpecWrapper := MkSpecWrapper {
  mw_key : string;
  mw_spec : TopicSpec;
  mw_spu_id : Z;
  mw_spu_key : string;
  mw_spu_endpoint : string;
}.

(* src/crates/fluvio-controlplane-metadata/src/spu/spec.rs:225-230 IngressPort::host_string *)
Definition host_string (self : IngressPort) : string :=
  match ingress self with
  | [] => EmptyString
  | addr :: _ => default EmptyString (ingress_host addr)
  end.
(* src/crates/fluvio-controlplane-metadata/src/spu/spec.rs:233-235 IngressPort::addr *)
Definition ingress_addr (self : IngressPort) : string := (host_string self ++ ":" ++ show_unsigned (ingress_port self))%string.

(** [iter().position()] *)
Fixpoint position {A} (f : A -> bool) (l : list A) : option nat :=
  match l with
  | [] => None
  | x :: l => if f x then Some 0%nat else Datatypes.S <$> position f l
  end.

Definition option_list {A} (o : option A) : list A := match o with Some a => [a] | None => [] end.

Section mirroring.
Context {C : Type} `{!MetadataItem C} {V : Type} {AC : Type} `{!AuthContext AC}.
Notation Topic := (MetadataStoreObject string TopicSpec TopicStatus C).
Notation Spu := (MetadataStoreObject string SpuSpec SpuStatus C).
Context (w : World C V) (now : nat -> Z).

Definition now_ms {E} : ME E (Task C V) Z := fun s => (Ok (now (clock s)), s).

(** ** The home cluster *)

(** The topic for the remote cluster, with the SPU that leads its partition. *)
(* src/crates/fluvio-sc/src/services/public_api/mirroring/connect.rs:182-221 sync_and_send_topics (closure) *)
Definition mirror_topic (remote_id : string) (spus : list Spu) (topic : Topic) : option MirroringSpecWrapper :=
  match ts_replicas (obj_spec topic) with
  | Mirror (ConfigHome h) =>
      id ← position (fun p => String.eqb (remote_cluster p) remote_id) (hm_partitions h);
      ids ← replica_map (obj_status topic) !! as_u32 (Z.of_nat id);
      spu_id ← head ids;
      spu ← List.find (fun s => ClusterTypes.spu_id (obj_spec s) =? spu_id) spus;
      Some (MkSpecWrapper (obj_key topic) (obj_spec topic) spu_id (obj_key spu) (ingress_addr (public_endpoint (obj_spec spu))))
  | _ => None
  end.

(* src/crates/fluvio-sc/src/services/public_api/mirroring/connect.rs:146-165 get_remote_mirror *)
Definition get_remote_mirror (remote_id : string) (ctx : ScContext C V) : option (MirrorSpec * MirrorStatus) :=
  mirror ← value mirrors remote_id ctx;
  match mirror_type (obj_spec mirror) with
  | RemoteType id => if String.eqb id remote_id then Some (obj_spec mirror, obj_status mirror) else None
  | HomeType _ => None
  end.
(* src/crates/fluvio-sc/src/services/public_api/mirroring/connect.rs:251-272 RemoteFetchingFromHomeController::update_status *)
Definition home_update_status (remote_id : string) (pair_status : MirrorPairStatus) (status : MirrorStatus) : ME string (Task C V) unit :=
  now ← now_ms;
  let status := merge_from_sc (mirror_status_new pair_status ConnOnline now) status in
  ctx_update_status w mirrors remote_id status;;
  mret tt.

(** The topics that are sent, [None] when there is nothing new, and the error
    of updating the status after that.  The listeners are not brought up to
    date. *)
(* src/crates/fluvio-sc/src/services/public_api/mirroring/connect.rs:168-249 RemoteFetchingFromHomeController::sync_and_send_topics *)
Definition sync_and_send_topics (remote_id : string) (topics_listener spus_listener : ChangeListener) (sink_ok : bool)
    : ME string (Task C V) (option (list MirroringSpecWrapper) * option string) :=
  topics_changed ← look w (fun ctx => has_change topics_listener (sc_topics ctx));
  spus_changed ← look w (fun ctx => has_change spus_listener (sc_spus ctx));
  if negb topics_changed && negb spus_changed then mret (None, None)
  else
    spus ← look w (fun ctx => clone_values (store (sc_spus ctx)));
    topics ← look w (fun ctx => clone_values (store (sc_topics ctx)));
    let mirror_topics := omap (mirror_topic remote_id spus) topics in
    remote ← look w (value mirrors remote_id);
    match remote with
    | Some remote =>
        if negb sink_ok then fail "error sending response"%string
        else
          updated ← try (home_update_status remote_id PairSuccessful (obj_status remote));
          mret (Some mirror_topics, match updated with inl err => Some err | inr _ => None end)
    | None => fail ("remote cluster not found: " ++ remote_id)%string
    end.

(** Before the loop: the remote must be known, and the authorization must not
    deny it. *)
(* src/crates/fluvio-sc/src/services/public_api/mirroring/connect.rs:62-88 dispatch_loop (authorization) *)
Definition accept_remote (auth : AC) (remote_id : string) : ME string (Task C V) bool :=
  remote ← look w (get_remote_mirror remote_id);
  match remote with
  | Some (_, status) =>
      match allow_instance_action auth TyMirror InstanceUpdate remote_id with
      | inr false => try (home_update_status remote_id PairUnauthorized status);; mret false
      | _ => mret true
      end
  | None => mret false
  end.

(** Failures are noted in the status of the mirror, if it is still there. *)
Definition note_failure (remote_id : string) (reason : string) : ME string (Task C V) unit :=
  remote ← look w (get_remote_mirror remote_id);
  match remote with
  | Some (_, status) => try (home_update_status remote_id (PairDetailFailure reason) status);; mret tt
  | None => mret tt
  end.
(** What ends a turn of the loop, beside an error. *)
Inductive LoopEvent := Terminated | ChangeSeen.
(** The messages that are sent; of each turn, whether sending works and how the
    turn ends. *)
(* src/crates/fluvio-sc/src/services/public_api/mirroring/connect.rs:97-144 dispatch_loop (loop) *)
Fixpoint home_loop (remote_id : string) (turns : list (bool * LoopEvent)) : ME string (Task C V) (list (list MirroringSpecWrapper)) :=
  match turns with
  | [] => mret []
  | (sink_ok, event) :: turns =>
      r ← try (sync_and_send_topics remote_id listener_new listener_new sink_ok);
      match r with
      | inl err => note_failure remote_id err;; mret []
      | inr (msg, Some err) => note_failure remote_id err;; mret (option_list msg)
      | inr (msg, None) =>
          match event with
          | Terminated => note_failure remote_id "connection closed"%string;; mret (option_list msg)
          | ChangeSeen => msgs ← home_loop remote_id turns; mret (option_list msg ++ msgs)
          end
      end
  end.
(* src/crates/fluvio-sc/src/services/public_api/mirroring/connect.rs:59-144 RemoteFetchingFromHomeController::dispatch_loop *)
Definition home_dispatch_loop (auth : AC) (remote_id : string) (turns : list (bool * LoopEvent))
    : ME string (Task C V) (list (list MirroringSpecWrapper)) :=
  accepted ← accept_remote auth remote_id;
  if accepted : bool then home_loop remote_id turns else mret [].

(** ** The remote cluster *)

(* src/crates/fluvio-sc/src/controllers/mirroring/controller.rs:176-183 get_mirror_home_cluster *)
Definition get_mirror_home_cluster (ctx : ScContext C V) : option (Home * MirrorStatus) :=
  head (omap (fun r : MetadataStoreObject string MirrorSpec MirrorStatus C =>
    match mirror_type (obj_spec r) with HomeType h => Some (h, obj_status r) | RemoteType _ => None end)
    (clone_values (store (sc_mirrors ctx)))).

(** A topic that is mirrored from the home cluster. *)
Definition mirrored_from (home_id : string) (spec : TopicSpec) : bool :=
  match ts_replicas spec with
  | Mirror (ConfigRemote r) => String.eqb (rm_home_cluster r) home_id
  | _ => false
  end.
(* src/crates/fluvio-sc/src/controllers/mirroring/controller.rs:186-213 delete_not_received_topics *)
Definition delete_not_received_topics (received : list string) (home_id : string) : ME string (Task C V) unit :=
  topics ← look w (fun ctx => clone_values (store (sc_topics ctx)));
  let all_topics_keys := map obj_key (List.filter (fun t => mirrored_from home_id (obj_spec t)) topics) in
  for_each (fun topic_key =>
    if negb (bool_decide (topic_key ∈ received)) then ctx_delete w AdminApi.topics topic_key else mret tt) all_topics_keys.

(** The replicas of the mirror of a topic. *)
Definition remote_replicas (home : Home) (topic : MirroringSpecWrapper) (source : bool) : ReplicaSpec :=
  Mirror (ConfigRemote (MkRemoteMirrorConfig (home_id home)
    [MkSpuMirrorConfig (mw_spu_id topic) (mw_spu_key topic) (mw_spu_endpoint topic)] source)).
Definition with_settings_of (spec self : TopicSpec) : TopicSpec :=
  MkTopicSpec (ts_replicas self)
    (match ts_cleanup_policy spec with Some policy => Some policy | None => ts_cleanup_policy self end)
    (match ts_storage spec with Some storage => Some storage | None => ts_storage self end)
    (ts_compression_type spec) (ts_deduplication spec) (ts_system self).
(* src/crates/fluvio-sc/src/controllers/mirroring/controller.rs:216-279 sync_topic *)
Definition sync_topic (home : Home) (topic : MirroringSpecWrapper) : ME string (Task C V) unit :=
  match ts_replicas (mw_spec topic) with
  | Mirror (ConfigHome home_spec) =>
      let new_replica := remote_replicas home topic (hm_source home_spec) in
      current ← look w (value AdminApi.topics (mw_key topic));
      let update remote_topic :=
        create_spec w AdminApi.topics (mw_key topic) (with_settings_of (mw_spec topic) remote_topic);;
        mret tt in
      match current with
      | Some t =>
          let topic_spec := set_replicas new_replica (obj_spec t) in
          if bool_decide (topic_spec = obj_spec t) then mret tt else update topic_spec
      | None => update (set_replicas new_replica (mw_spec topic))
      end
  | _ => fail ("topic " ++ mw_key topic ++ " should be home mirror ")%string
  end.
(* src/crates/fluvio-sc/src/controllers/mirroring/controller.rs:282-295 RemoteMirrorController::update_status *)
Definition remote_update_status (pair_status : MirrorPairStatus) : ME string (Task C V) unit :=
  found ← look w get_mirror_home_cluster;
  match found with
  | Some (home, status) =>
      now ← now_ms;
      ctx_update_status w mirrors (home_id home) (merge_from_sc (mirror_status_new pair_status ConnOnline now) status);;
      mret tt
  | None => fail "no home cluster found"%string
  end.
(** What is done with a message of the home cluster. *)
(* src/crates/fluvio-sc/src/controllers/mirroring/controller.rs:80-99 inner_loop (response) *)
Definition handle_response (home : Home) (topics : list MirroringSpecWrapper) : ME string (Task C V) unit :=
  delete_not_received_topics (map mw_key topics) (home_id home);;
  for_each (sync_topic home) topics;;
  remote_update_status PairSuccessful.
End mirroring.
