(* ===== verification/ScMirrorLaws.v ===== *)
(** * What mirroring achieves

    Laws of [ScMirroring]: a message of the home cluster brings the topics of
    the remote cluster in step with those of the home cluster, and what this
    does to topics that are not the home's. *)

From S2P Require Import Prelude Names EpochMap MetadataStore MetadataSync ClusterTypes Topics ScPartitions ScTopics SpuProduce.
From S2P Require Import SmartContext LocalMeta LocalMetaLaws Dispatch Auth AdminTypes AdminApi AdminLaws ScMirroring.
From stdpp Require Import gmap strings list.
From Stdlib Require Import Ascii String.

#[local] Open Scope Z_scope.

(** [position] finds the first. *)
Lemma position_first {A} (f : A -> bool) l n :
  position f l = Some n -> exists x, l !! n = Some x /\ f x = true /\ forall m y, (m < n)%nat -> l !! m = Some y -> f y = false.
Proof.
  revert n. induction l as [|x l IH]; intros n; [done|]. cbn. destruct (f x) eqn:E.
  - intros [= <-]. exists x. split_and!; [done..|]. intros; lia.
  - destruct (position f l) as [m|]; [|done]. intros [= <-]. destruct (IH m eq_refl) as (y & Ey & Hy & Hb).
    exists y. split_and!; [done..|]. intros [|i] z Hi Ez; [by injection Ez as <-|]. apply (Hb i); [lia|done].
Qed.
Lemma position_found {A} (f : A -> bool) l n x :
  l !! n = Some x -> f x = true -> (forall m y, (m < n)%nat -> l !! m = Some y -> f y = false) -> position f l = Some n.
Proof.
  revert n. induction l as [|y l IH]; intros n; [done|]. destruct n as [|n]; cbn.
  - by intros [= ->] ->.
  - intros Ex Hx Hb. rewrite (Hb 0%nat y) by (done || lia). rewrite (IH n); [done..|]. intros m z Hm Ez. apply (Hb (Datatypes.S m)); [lia|done].
Qed.

Section laws.
Context {C : Type} `{!MetadataItem C} {V : Type}.
Notation Topic := (MetadataStoreObject string TopicSpec TopicStatus C).
Context (w : World C V) (now : nat -> Z).
Implicit Types (s : Task C V) (ctx : ScContext C V).

(** ** A prompt dispatcher *)

(** The specs of the topics in the store. *)
Definition topic_specs ctx : gmap string TopicSpec := (obj_spec ∘ dual_inner) <$> values (store (sc_topics ctx)).
(** Every topic is under its key. *)
Definition keyed ctx : Prop := forall k o, value AdminApi.topics k ctx = Some o -> obj_key o = k.
Definition home_status (home : Home) ctx : option MirrorStatus :=
  match get_mirror_home_cluster ctx with
  | Some (h, status) => if String.eqb (home_id h) (home_id home) then Some status else None
  | None => None
  end.
(** No one else changes topics, what is sent is carried out before it is looked
    at, and the store has the mirror under the name of the home cluster.  [F]
    is the topics after what has been sent. *)
Record prompt (home : Home) (F : list (ScAction C V) -> gmap string TopicSpec) : Prop := {
  prompt_seen t l : topic_specs (at_time w t l) = F l;
  prompt_keyed t l : keyed (at_time w t l);
  prompt_update l k spec : F (l ++ [OnTopics (UpdateSpec k spec)]) = <[k := spec]> (F l);
  prompt_delete l k : F (l ++ [OnTopics (DeleteAction k)]) = delete k (F l);
  prompt_mirrors l a : F (l ++ [OnMirrors a]) = F l;
  prompt_newer t t' l k spec :
    is_Some (updated_value (value AdminApi.topics k (at_time w t l)) (value AdminApi.topics k (at_time w t' (l ++ [OnTopics (UpdateSpec k spec)]))));
  prompt_home t l : is_Some (home_status home (at_time w t l));
  prompt_status t t' l status :
    is_Some (updated_value (value mirrors (home_id home) (at_time w t l))
      (value mirrors (home_id home) (at_time w t' (l ++ [OnMirrors (UpdateStatus (home_id home) status)]))));
}.

Lemma topic_specs_value k ctx : topic_specs ctx !! k = obj_spec <$> value AdminApi.topics k ctx.
Proof. unfold topic_specs, value, store_value. rewrite lookup_fmap. by destruct (values _ !! k). Qed.
Lemma topic_values_spec (o : Topic) ctx : o ∈ clone_values (store (sc_topics ctx)) <-> exists k, value AdminApi.topics k ctx = Some o.
Proof.
  unfold clone_values, value, store_value. cbn [ctx_store AdminApi.topics]. rewrite list_elem_of_In, in_map_iff. split.
  - intros ((k & d) & <- & Hin). apply list_elem_of_In, elem_of_map_to_list in Hin. exists k. by rewrite Hin.
  - intros (k & E). apply fmap_Some in E as (d & E & ->). exists (k, d). split; [done|]. by apply list_elem_of_In, elem_of_map_to_list.
Qed.

(** ** The remote cluster *)

Section remote.
Context (home : Home) (F : list (ScAction C V) -> gmap string TopicSpec) (Hp : prompt home F).

Lemma create_spec_prompt {S St} (sc : StoreContext S St) key (action : WSAction string S St C) s :
  (forall t t', is_Some (updated_value (value sc key (at_time w t (sent s))) (value sc key (at_time w t' (sent s ++ [ctx_send _ _ sc action]))))) ->
  exists v s', wait_action w sc key action s = (Ok v, s') /\ sent s' = sent s ++ [ctx_send _ _ sc action].
Proof.
  intros Hn. unfold wait_action, wait_action_with_timeout, mbind, M_bind. cbn [look send modify patience clock sent].
  destruct (wakeups w _); cbn [wait_updated]; unfold mbind, M_bind; cbn [look clock sent];
    (edestruct Hn as [v ->]; by exists v; eexists).
Qed.
Lemma delete_prompt key s :
  exists s', ctx_delete w AdminApi.topics key s = (Ok tt, s') /\ F (sent s') = delete key (F (sent s)).
Proof.
  unfold ctx_delete, mbind, M_bind. cbn [look send modify patience clock sent].
  assert (forall t, contains_key AdminApi.topics key (at_time w t (sent s ++ [OnTopics (DeleteAction key)])) = false) as E.
  { intros t. pose proof (topic_specs_value key (at_time w t (sent s ++ [OnTopics (DeleteAction key)]))) as Ev.
    rewrite (prompt_seen _ _ Hp), (prompt_delete _ _ Hp), lookup_delete_eq in Ev. unfold contains_key. by destruct (value _ _ _). }
  destruct (wakeups w _); cbn [wait_deleted]; unfold mbind, M_bind; cbn [look clock sent ctx_send AdminApi.topics]; rewrite E;
    (eexists; split; [done|apply (prompt_delete _ _ Hp)]).
Qed.

(** Deleting the topics that were not received. *)
Definition removed (received : list string) (m : gmap string TopicSpec) (keys : list string) : gmap string TopicSpec :=
  foldl (fun m k => if bool_decide (k ∈ received) then m else delete k m) m keys.
Lemma removed_lookup received m keys k :
  removed received m keys !! k = if bool_decide (k ∈ keys /\ k ∉ received) then None else m !! k.
Proof.
  revert m. induction keys as [|k' keys IH]; intros m; cbn [removed foldl].
  { case_bool_decide as H; [set_solver|done]. }
  unfold removed in IH. rewrite IH. destruct (decide (k' ∈ received)) as [Hr|Hr]; [rewrite (bool_decide_true _ Hr)|rewrite (bool_decide_false _ Hr)].
  - assert (bool_decide (k ∈ k' :: keys /\ k ∉ received) = bool_decide (k ∈ keys /\ k ∉ received)) as -> by (apply bool_decide_ext; set_solver). done.
  - case_bool_decide; case_bool_decide; [done|set_solver| |].
    + assert (k = k') as -> by set_solver. apply lookup_delete_eq.
    + apply lookup_delete_ne. set_solver.
Qed.
Lemma delete_not_received_prompt received s :
  exists s', delete_not_received_topics w received (home_id home) s = (Ok tt, s') /\
    forall k, F (sent s') !! k = match F (sent s) !! k with
      | Some spec => if mirrored_from (home_id home) spec && negb (bool_decide (k ∈ received)) then None else Some spec
      | None => None
      end.
Proof.
  unfold delete_not_received_topics. unfold mbind at 1, M_bind at 1. cbn [look]. set (ctx := at_time w (clock s) (sent s)).
  set (keys := map obj_key _).
  assert (forall k, k ∈ keys <-> exists spec, F (sent s) !! k = Some spec /\ mirrored_from (home_id home) spec = true) as Hkeys.
  { intros k. unfold keys. rewrite list_elem_of_In, in_map_iff. rewrite <-(prompt_seen _ _ Hp (clock s)). setoid_rewrite topic_specs_value.
    setoid_rewrite filter_In. setoid_rewrite <-list_elem_of_In. setoid_rewrite topic_values_spec. split.
    - intros (o & <- & (k' & Ev) & Hm). exists (obj_spec o). rewrite (prompt_keyed _ _ Hp _ _ _ _ Ev). fold ctx. by rewrite Ev.
    - intros (spec & E & Hm). apply fmap_Some in E as (o & Ev & ->). exists o. split; [by eapply (prompt_keyed _ _ Hp)|eauto]. }
  assert (forall ks s0, exists s', for_each (fun topic_key => if negb (bool_decide (topic_key ∈ received)) then ctx_delete w AdminApi.topics topic_key else mret tt) ks s0
    = (Ok tt, s') /\ F (sent s') = removed received (F (sent s0)) ks) as Hloop.
  { induction ks as [|k ks IH]; intros s0; cbn [for_each]; [by exists s0|]. cbn [removed foldl]. case_bool_decide; cbn [negb].
    - rewrite (bind_ok _ _ _ s0 tt) by done. apply IH.
    - destruct (delete_prompt k s0) as (s1 & E1 & <-). rewrite (bind_ok _ _ _ _ _ E1). apply IH. }
  destruct (Hloop keys (MkTask (Datatypes.S (clock s)) (sent s))) as (s' & E & Hs'). exists s'. split; [exact E|]. intros k. rewrite Hs', removed_lookup. cbn [sent].
  case_bool_decide as H.
  - destruct H as [(spec & -> & ->)%Hkeys Hr]. by rewrite bool_decide_false.
  - destruct (F (sent s) !! k) as [spec|] eqn:Ek; [|done]. destruct (mirrored_from _ spec) eqn:Em; [|done]. cbn.
    destruct (decide (k ∈ received)); [by rewrite bool_decide_true|]. destruct H. split; [apply Hkeys; eauto|done].
Qed.

(** The spec of a topic that was received. *)
Definition synced (topic : MirroringSpecWrapper) (current : option TopicSpec) : TopicSpec :=
  match ts_replicas (mw_spec topic) with
  | Mirror (ConfigHome home_spec) =>
      let new_replica := remote_replicas home topic (hm_source home_spec) in
      match current with
      | Some spec => if bool_decide (ts_replicas spec = new_replica) then spec else with_settings_of (mw_spec topic) (set_replicas new_replica spec)
      | None => with_settings_of (mw_spec topic) (set_replicas new_replica (mw_spec topic))
      end
  | _ => mw_spec topic
  end.
Definition home_mirror (topic : MirroringSpecWrapper) : Prop := exists h, ts_replicas (mw_spec topic) = Mirror (ConfigHome h).

Lemma sync_topic_prompt topic s : home_mirror topic ->
  exists s', sync_topic w home topic s = (Ok tt, s') /\ F (sent s') = <[mw_key topic := synced topic (F (sent s) !! mw_key topic)]> (F (sent s)).
Proof.
  intros [h Eh]. unfold sync_topic, synced. rewrite Eh. unfold mbind at 1, M_bind at 1. cbn [look].
  pose proof (topic_specs_value (mw_key topic) (at_time w (clock s) (sent s))) as Ev. rewrite (prompt_seen _ _ Hp) in Ev.
  assert (forall spec s0, exists s', (create_spec w AdminApi.topics (mw_key topic) spec;; mret tt) s0 = (Ok tt, s') /\ F (sent s') = <[mw_key topic := spec]> (F (sent s0))) as Hc.
  { intros spec s0. destruct (create_spec_prompt AdminApi.topics (mw_key topic) (UpdateSpec (mw_key topic) spec) s0) as (v & s' & E & Es).
    { intros. apply (prompt_newer _ _ Hp). } unfold create_spec. rewrite (bind_ok _ _ _ _ _ E). exists s'. split; [done|]. rewrite Es. apply (prompt_update _ _ Hp). }
  destruct (value _ _ _) as [o|]; cbn [fmap option_fmap option_map] in Ev; rewrite Ev; [|apply (Hc _ (MkTask _ (sent s)))].
  destruct (decide (ts_replicas (obj_spec o) = remote_replicas home topic (hm_source h))) as [Er|Er].
  - rewrite !bool_decide_true; [|done|unfold set_replicas; rewrite <-Er; by destruct (obj_spec o)]. eexists. split; [done|]. cbn. by rewrite insert_id.
  - rewrite (bool_decide_false (_ = obj_spec o)), (bool_decide_false _ Er); [|intros E; apply Er; by rewrite <-E]. apply (Hc _ (MkTask _ (sent s))).
Qed.
Lemma sync_topics_prompt topics s : Forall home_mirror topics -> NoDup (map mw_key topics) ->
  exists s', for_each (sync_topic w home) topics s = (Ok tt, s') /\
    (forall topic, topic ∈ topics -> F (sent s') !! mw_key topic = Some (synced topic (F (sent s) !! mw_key topic))) /\
    (forall k, k ∉ map mw_key topics -> F (sent s') !! k = F (sent s) !! k).
Proof.
  intros Hm. revert s. induction Hm as [|topic topics Hh Hm IH]; intros s Hd; cbn [for_each].
  { exists s. split; [done|]. split; [set_solver|done]. }
  cbn [map] in Hd. apply NoDup_cons in Hd as [Hn Hd]. destruct (sync_topic_prompt topic s Hh) as (s1 & E1 & F1). rewrite (bind_ok _ _ _ _ _ E1).
  destruct (IH s1 Hd) as (s' & E & Hin & Hout). exists s'. split; [exact E|]. rewrite F1 in Hin, Hout. split.
  - intros t [->|Ht]%elem_of_cons.
    + by rewrite Hout, lookup_insert_eq.
    + rewrite Hin by done. rewrite lookup_insert_ne; [done|]. intros Ek. apply Hn. rewrite Ek. by apply (list_elem_of_fmap_2 mw_key).
  - intros k Hk. cbn [map] in Hk. rewrite Hout, lookup_insert_ne; [done|set_solver..].
Qed.
Lemma update_status_prompt pair s : exists s', remote_update_status w now pair s = (Ok tt, s') /\ F (sent s') = F (sent s).
Proof.
  unfold remote_update_status. unfold mbind at 1, M_bind at 1. cbn [look].
  destruct (prompt_home _ _ Hp (clock s) (sent s)) as [status E]. unfold home_status in E.
  destruct (get_mirror_home_cluster _) as [[h st]|]; [|discriminate E]. destruct (String.eqb_spec (home_id h) (home_id home)) as [->|]; [|discriminate E].
  unfold now_ms. unfold mbind at 1, M_bind at 1. cbn [clock].
  match goal with |- context [ctx_update_status _ _ _ ?x] => pose (UpdateStatus (home_id home) x : WSAction string MirrorSpec MirrorStatus C) as u end.
  destruct (create_spec_prompt mirrors (home_id home) u (MkTask (Datatypes.S (clock s)) (sent s))) as (v & s' & E' & Es).
  { intros. apply (prompt_status _ _ Hp). } unfold ctx_update_status. rewrite (bind_ok _ _ _ _ _ E'). exists s'. split; [done|]. rewrite Es. apply (prompt_mirrors _ _ Hp).
Qed.

(** What a message does to the topics. *)
Definition mirrored (received : option MirroringSpecWrapper) (current : option TopicSpec) : option TopicSpec :=
  match received with
  | Some topic => Some (synced topic current)
  | None => spec ← current; if mirrored_from (home_id home) spec then None else Some spec
  end.
Lemma handle_response_prompt topics s : Forall home_mirror topics -> NoDup (map mw_key topics) ->
  exists s', handle_response w now home topics s = (Ok tt, s') /\
    (forall topic, topic ∈ topics -> F (sent s') !! mw_key topic = mirrored (Some topic) (F (sent s) !! mw_key topic)) /\
    (forall k, k ∉ map mw_key topics -> F (sent s') !! k = mirrored None (F (sent s) !! k)).
Proof.
  intros Hm Hd. unfold handle_response. destruct (delete_not_received_prompt (map mw_key topics) s) as (s1 & E1 & F1). rewrite (bind_ok _ _ _ _ _ E1).
  destruct (sync_topics_prompt topics s1 Hm Hd) as (s2 & E2 & Hin & Hout). rewrite (bind_ok _ _ _ _ _ E2).
  destruct (update_status_prompt PairSuccessful s2) as (s3 & E3 & F3). exists s3. split; [exact E3|]. rewrite F3. split.
  - intros topic Ht. rewrite Hin, F1 by done. rewrite (bool_decide_true (mw_key topic ∈ _)) by by apply (list_elem_of_fmap_2 mw_key).
    cbn [mirrored negb]. destruct (F (sent s) !! mw_key topic); [by rewrite andb_false_r|done].
  - intros k Hk. rewrite Hout, F1 by done. rewrite (bool_decide_false _ Hk). cbn [mirrored negb]. destruct (F (sent s) !! k); [|done]. cbn. by rewrite andb_true_r.
Qed.
End remote.

(** ** The home cluster *)

(** The topics for a remote cluster. *)
Definition offered (remote_id : string) (spus_of topics_of : ScContext C V) (k : string) : option MirroringSpecWrapper :=
  match value AdminApi.topics k topics_of with
  | Some topic => mirror_topic remote_id (clone_values (store (sc_spus spus_of))) topic
  | None => None
  end.
Definition message (remote_id : string) (spus_of topics_of : ScContext C V) : list MirroringSpecWrapper :=
  omap (mirror_topic remote_id (clone_values (store (sc_spus spus_of)))) (clone_values (store (sc_topics topics_of))).

Lemma mirror_topic_some remote_id spus (topic : Topic) m :
  mirror_topic remote_id spus topic = Some m -> mw_key m = obj_key topic /\ mw_spec m = obj_spec topic /\ home_mirror m.
Proof.
  unfold mirror_topic. destruct (ts_replicas (obj_spec topic)) as [| |[r|h]] eqn:E; [done..|].
  intros (i & _ & (ids & _ & (id & _ & (spu & _ & [= <-])%bind_Some)%bind_Some)%bind_Some)%bind_Some. cbn. do 2 (split; [done|]). by exists h.
Qed.
Lemma message_spec remote_id spus_of topics_of m : keyed topics_of ->
  m ∈ message remote_id spus_of topics_of <-> offered remote_id spus_of topics_of (mw_key m) = Some m.
Proof.
  intros Hk. unfold message, offered. rewrite list_elem_of_omap. split.
  - intros (o & (k & Ev)%topic_values_spec & Em). destruct (mirror_topic_some _ _ _ _ Em) as [-> _]. by rewrite (Hk _ _ Ev), Ev.
  - destruct (value _ _ _) as [o|] eqn:Ev; [|done]. intros Em. exists o. split; [|done]. apply topic_values_spec. eauto.
Qed.
Lemma message_home remote_id spus_of topics_of : Forall home_mirror (message remote_id spus_of topics_of).
Proof. apply Forall_forall. intros m (o & _ & Em)%list_elem_of_omap. by destruct (mirror_topic_some _ _ _ _ Em) as (_ & _ & ?). Qed.
Lemma clone_values_keys ctx : keyed ctx -> NoDup (map obj_key (clone_values (store (sc_topics ctx)))).
Proof.
  intros Hk. unfold clone_values. rewrite map_map.
  assert (forall l, (forall k d, (k, d) ∈ l -> obj_key (dual_inner d) = k) ->
    map (fun kv : string * DualEpochCounter Topic => obj_key (dual_inner kv.2)) l = l.*1) as ->.
  2: { apply NoDup_fst_map_to_list. }
  2: { intros k d Hin%elem_of_map_to_list. apply Hk. unfold value, store_value. cbn [ctx_store AdminApi.topics]. by rewrite Hin. }
  induction l as [|[k d] l IH]; intros H; [done|]. cbn. rewrite (H k d), IH by set_solver. done.
Qed.
Lemma message_keys remote_id spus_of topics_of : keyed topics_of -> NoDup (map mw_key (message remote_id spus_of topics_of)).
Proof.
  intros Hk. unfold message. generalize (clone_values_keys _ Hk). induction (clone_values (store (sc_topics topics_of))) as [|o l IH]; intros Hd; [constructor|].
  cbn [map] in Hd. apply NoDup_cons in Hd as [Hn Hd]. cbn [omap list_omap]. destruct (mirror_topic _ _ o) as [m|] eqn:Em; [|auto].
  cbn [map]. apply NoDup_cons. split; [|auto]. destruct (mirror_topic_some _ _ _ _ Em) as [-> _]. intros Hin. apply Hn.
  apply list_elem_of_In, in_map_iff in Hin as (m' & Ek & (o' & Ho' & Em')%list_elem_of_In%list_elem_of_omap).
  destruct (mirror_topic_some _ _ _ _ Em') as [Ek' _]. rewrite <-Ek, Ek'. by apply (list_elem_of_fmap_2 obj_key).
Qed.

(** A topic that the home cluster mirrors to the remote cluster and has placed:
    the first partition for the remote cluster is led by an SPU of the store. *)
Definition placed (remote_id : string) (spus_of topics_of : ScContext C V) (k : string)
    (topic : TopicSpec) (spu : SpuMirrorConfig) (source : bool) : Prop :=
  exists status (item : MetadataContext C) partitions n p ids (leader : MetadataStoreObject string SpuSpec SpuStatus C),
    value AdminApi.topics k topics_of = Some (MkObject topic status k item) /\
    ts_replicas topic = Mirror (ConfigHome (MkHomeMirrorInner partitions source)) /\
    partitions !! n = Some p /\ remote_cluster p = remote_id /\
    (forall n' p', (n' < n)%nat -> partitions !! n' = Some p' -> remote_cluster p' <> remote_id) /\
    replica_map status !! as_u32 (Z.of_nat n) = Some (sm_id spu :: ids) /\
    leader ∈ clone_values (store (sc_spus spus_of)) /\ spu_id (obj_spec leader) = sm_id spu /\
    sm_key spu = obj_key leader /\ sm_endpoint spu = ingress_addr (public_endpoint (obj_spec leader)).
(** The topic of the remote cluster for it: as it was if it already points to
    that SPU, and otherwise with the settings of the home cluster. *)
Definition in_step (home : Home) (topic : TopicSpec) (spu : SpuMirrorConfig) (source : bool) (before : option TopicSpec) (after : TopicSpec) : Prop :=
  ts_replicas after = Mirror (ConfigRemote (MkRemoteMirrorConfig (home_id home) [spu] source)) /\
  (before = Some after \/
   ts_compression_type after = ts_compression_type topic /\ ts_deduplication after = ts_deduplication topic /\
   (forall policy, ts_cleanup_policy topic = Some policy -> ts_cleanup_policy after = Some policy) /\
   (forall storage, ts_storage topic = Some storage -> ts_storage after = Some storage)).
(** A topic that mirrors one of the home cluster. *)
Definition points_to (home : Home) (spec : TopicSpec) : Prop :=
  exists spus target, ts_replicas spec = Mirror (ConfigRemote (MkRemoteMirrorConfig (home_id home) spus target)).

Lemma mirrored_from_spec home spec : mirrored_from (home_id home) spec = true <-> points_to home spec.
Proof.
  unfold mirrored_from, points_to. destruct (ts_replicas spec) as [| |[[h spus target]|]]; [split; [done|by intros (? & ? & ?)]..| |split; [done|by intros (? & ? & ?)]].
  cbn. rewrite String.eqb_eq. split; [intros ->; eauto|by intros (? & ? & [= -> _ _])].
Qed.
Lemma synced_in_step home m h before : ts_replicas (mw_spec m) = Mirror (ConfigHome h) ->
  in_step home (mw_spec m) (MkSpuMirrorConfig (mw_spu_id m) (mw_spu_key m) (mw_spu_endpoint m)) (hm_source h) before (synced home m before).
Proof.
  intros E. unfold synced. rewrite E. unfold in_step. destruct before as [spec|]; [case_bool_decide as Er; [by split; [|left]|]|];
    (split; [done|right]; do 2 (split; [done|]); split; intros x; cbn; by intros ->).
Qed.
Lemma offered_placed remote_id spus_of topics_of k m : keyed topics_of -> offered remote_id spus_of topics_of k = Some m ->
  exists h, ts_replicas (mw_spec m) = Mirror (ConfigHome h) /\
    placed remote_id spus_of topics_of k (mw_spec m) (MkSpuMirrorConfig (mw_spu_id m) (mw_spu_key m) (mw_spu_endpoint m)) (hm_source h).
Proof.
  intros Hk. unfold offered. destruct (value _ k _) as [[topic status k' ctx]|] eqn:Ev; [|done]. pose proof (Hk _ _ Ev) as Ek. cbn in Ek. subst k'.
  unfold mirror_topic. cbn [obj_spec obj_status obj_key]. destruct (ts_replicas topic) as [| |[r|[partitions source]]] eqn:E; [done..|]. cbn [hm_partitions].
  intros (n & En & (ids & Ei & (id & Eh & (spu & Es & [= <-])%bind_Some)%bind_Some)%bind_Some)%bind_Some.
  eexists. split; [exact E|]. destruct ids as [|id' ids]; [done|]. injection Eh as ->.
  apply position_first in En as (p & Ep & Er & Hbefore). apply String.eqb_eq in Er. apply List.find_some in Es as [Hs Es].
  exists status, ctx, partitions, n, p, ids, spu. split_and!; try done.
  - intros n' p' Hn Ep' Ep''. specialize (Hbefore n' p' Hn Ep'). by rewrite Ep'', String.eqb_refl in Hbefore.
  - by apply list_elem_of_In.
  - by apply Z.eqb_eq.
Qed.
Lemma not_offered remote_id spus_of topics_of k topic spu source :
  offered remote_id spus_of topics_of k = None -> ~ placed remote_id spus_of topics_of k topic spu source.
Proof.
  intros Ho (status & ctx & partitions & n & p & ids & leader & Ev & Er & En & Ep & Hn & Ei & Hl & El & _). revert Ho.
  unfold offered, mirror_topic. rewrite Ev. cbn [obj_spec obj_status]. rewrite Er. cbn [hm_partitions].
  rewrite (position_found _ _ n p); [|done|by apply String.eqb_eq|].
  2: { intros n' p' Hlt Ep'. apply String.eqb_neq. by eapply Hn. }
  change (Some n ≫= ?f) with (f n). cbv beta. rewrite Ei. change (Some ?x ≫= ?f) with (f x). cbv beta. cbn [head].
  change (Some ?x ≫= ?f) with (f x). cbv beta. destruct (List.find _ _) as [x|] eqn:Ef; [done|]. intros _.
  pose proof (List.find_none _ _ Ef leader (proj1 (list_elem_of_In _ _) Hl)) as Hf. cbn in Hf. by rewrite El, Z.eqb_refl in Hf.
Qed.

(** A received message has been made of the stores of the home cluster. *)
Lemma sync_and_send_message remote_id tl sl ok s msg e s' :
  sync_and_send_topics w now remote_id tl sl ok s = (Ok (Some msg, e), s') ->
  exists t, msg = message remote_id (at_time w t (sent s)) (at_time w (Datatypes.S t) (sent s)).
Proof.
  unfold sync_and_send_topics, mbind, M_bind. cbn [look clock sent]. destruct (negb _ && negb _); [done|].
  cbn [clock sent]. destruct (value mirrors _ _); [|done]. destruct ok; [|done]. cbn [negb].
  destruct (try _ _) as [[r|?|] ?]; [|done..]. intros [= <- <- <-]. by eexists.
Qed.
Lemma home_loop_messages remote_id turns s msgs s' msg :
  home_loop w now remote_id turns s = (Ok msgs, s') -> msg ∈ msgs ->
  exists t l, msg = message remote_id (at_time w t l) (at_time w (Datatypes.S t) l).
Proof.
  revert s msgs s'. induction turns as [|[ok event] turns IH]; intros s msgs s'; cbn [home_loop].
  { intros [= <- <-]. by intros ?%elem_of_nil. }
  unfold mbind at 1, M_bind at 1, try at 1. pose proof (sync_and_send_message remote_id listener_new listener_new ok s) as Hm.
  destruct (sync_and_send_topics _ _ _ _ _ _ _) as [[[m e]|err|] s1]; [| |done].
  - assert (forall m', m' ∈ option_list m -> exists t l, m' = message remote_id (at_time w t l) (at_time w (Datatypes.S t) l)) as Ho.
    { destruct m as [m|]; [|by intros ? ?%elem_of_nil]. intros m' ->%list_elem_of_singleton. destruct (Hm m e s1 eq_refl) as [t ->]. eauto. }
    destruct e as [err|]; [|destruct event].
    + unfold mbind, M_bind. destruct (note_failure _ _ _ _ _) as [[?|?|] ?]; [|done..]. intros [= <- <-]. auto.
    + unfold mbind, M_bind. destruct (note_failure _ _ _ _ _) as [[?|?|] ?]; [|done..]. intros [= <- <-]. auto.
    + unfold mbind, M_bind. pose proof (IH s1) as IHs. destruct (home_loop _ _ _ _ _) as [[ms|?|] s2]; [|done..].
      intros [= <- <-] [Hin|Hin]%elem_of_app; [auto|by eapply IHs].
  - unfold mbind, M_bind. destruct (note_failure _ _ _ _ _) as [[?|?|] ?]; [|done..]. intros [= <- <-]. by intros ?%elem_of_nil.
Qed.
Lemma dispatch_loop_messages {AC} `{!AuthContext AC} (auth : AC) remote_id turns s msgs s' msg :
  home_dispatch_loop w now auth remote_id turns s = (Ok msgs, s') -> msg ∈ msgs ->
  exists t l, msg = message remote_id (at_time w t l) (at_time w (Datatypes.S t) l).
Proof.
  unfold home_dispatch_loop. unfold mbind at 1, M_bind at 1. destruct (accept_remote _ _ _ _ _) as [[[]|?|] s1]; [|by intros [= <- <-] ?%elem_of_nil|done..].
  apply home_loop_messages.
Qed.
End laws.


(** ** Two clusters *)

#[local] Existing Instance u32_item.
Notation ExContext := (ScContext Z string).
Notation ExTask := (Task Z string).

(** The stores of the remote cluster: its topics and its home, all objects at
    one revision. *)
Definition plant : Home := MkHome "plant" "edge" "plant:9003" None.
Definition at_revision (topics : gmap string TopicSpec) (r : Z) : ExContext :=
  MkScContext store_default store_default
    (MkLocalStore (new_with_map (map_imap (fun k spec => Some (dual_counter_new (MkObject spec topic_status_default k (MkContext r)))) topics)) 0)
    store_default store_default store_default
    (bulk_new [MkObject (MkMirrorSpec (HomeType plant)) (mirror_status_new PairWaiting ConnOnline 0) "plant" (MkContext r)]).
(** Each action takes effect at once, and is a new revision. *)
Definition carried_out (topics : gmap string TopicSpec) (a : ScAction Z string) : gmap string TopicSpec :=
  match a with
  | OnTopics (UpdateSpec k spec) => <[k := spec]> topics
  | OnTopics (DeleteAction k) => delete k topics
  | _ => topics
  end.
Definition edge_world (topics : gmap string TopicSpec) : World Z string :=
  MkWorld (fun _ l => at_revision (foldl carried_out topics l) (zlen l)) (fun _ => 0%nat) false 10.

Lemma at_revision_value topics r k :
  value AdminApi.topics k (at_revision topics r) = (fun spec => MkObject spec topic_status_default k (MkContext r)) <$> topics !! k.
Proof.
  unfold value, store_value, at_revision, new_with_map. cbn [ctx_store AdminApi.topics sc_topics store values].
  rewrite map_lookup_imap. by destruct (topics !! k).
Qed.
Lemma edge_prompt topics : prompt (edge_world topics) plant (foldl carried_out topics).
Proof.
  assert (forall (l : list (ScAction Z string)) a, zlen (l ++ [a]) = zlen l + 1) as Hl by (intros; unfold zlen; rewrite length_app; cbn; lia).
  split; unfold edge_world, at_time; [| |intros; by rewrite foldl_app..| | |].
  - intros t l. apply map_eq. intros k. rewrite topic_specs_value, at_revision_value. by destruct (_ !! k).
  - intros t l k o. rewrite at_revision_value. intros (spec & _ & ->)%fmap_Some. done.
  - intros t t' l k spec. rewrite !at_revision_value, foldl_app. cbn [foldl carried_out]. rewrite lookup_insert_eq, Hl.
    destruct (_ !! k); [|by eexists]. cbn [fmap option_fmap option_map]. unfold updated_value, is_newer. cbn [item_is_newer u32_item obj_ctx ctx_item].
    rewrite (proj2 (Z.ltb_lt _ _)) by lia. by eexists.
  - intros t l. by eexists.
  - intros t t' l status. cbn [at_revision]. unfold value, store_value. cbn [ctx_store mirrors sc_mirrors at_revision]. rewrite Hl.
    cbn [bulk_new foldl store new_with_map values obj_key plant home_id]. rewrite !lookup_insert_eq. cbn [fmap option_fmap option_map dual_inner dual_counter_new].
    unfold updated_value, is_newer. cbn [item_is_newer u32_item obj_ctx ctx_item]. rewrite (proj2 (Z.ltb_lt _ _)) by lia. by eexists.
Qed.

(** The home cluster has a topic for the remote cluster, on its SPU. *)
Definition edge_topic_spec : TopicSpec := topic_spec_of (Mirror (ConfigHome (MkHomeMirrorInner [MkHomePartitionConfig "edge" "readings-0" false] false))).
Definition plant_context (spus : list (MetadataStoreObject string SpuSpec SpuStatus Z)) (r : Z) : ExContext :=
  MkScContext (bulk_new spus) store_default
    (MkLocalStore (store (bulk_new [MkObject edge_topic_spec (MkTopicStatus Provisioned {[0 := [7]]} ∅ EmptyString) "readings" (MkContext 1)])) 1)
    store_default store_default store_default
    (bulk_new [MkObject (MkMirrorSpec (RemoteType "edge")) (mirror_status_new PairWaiting ConnOnline 0) "edge" (MkContext r)]).
Definition plant_spu : MetadataStoreObject string SpuSpec SpuStatus Z :=
  MkObject (MkSpuSpec 7 Managed (MkIngressPort 9005 [MkIngressAddr (Some "spu-7"%string) None] PLAINTEXT) endpoint_default None None)
    (MkSpuStatus SpuOnline) "main-7" (MkContext 1).
Definition plant_world (spus : list (MetadataStoreObject string SpuSpec SpuStatus Z)) : World Z string :=
  MkWorld (fun _ l => plant_context spus (zlen l)) (fun _ => 0%nat) false 10.
Lemma plant_keyed spus r : keyed (plant_context spus r).
Proof.
  intros k o. unfold value, store_value. cbn -[lookup insert]. rewrite lookup_insert. case_decide as E; [by intros [= <-]|]. by rewrite lookup_empty.
Qed.
Definition edge_replica : ReplicaSpec :=
  Mirror (ConfigRemote (MkRemoteMirrorConfig "plant" [MkSpuMirrorConfig 7 "main-7" "spu-7:9005"] false)).
Definition from_plant spus (turns : list (bool * LoopEvent)) : outcome string (list (list MirroringSpecWrapper)) * ExTask :=
  home_dispatch_loop (plant_world spus) (fun _ => 0) MkRootAuthContext "edge" turns (MkTask 0 []).
Definition received_at_edge (topics : gmap string TopicSpec) (msg : list MirroringSpecWrapper) : outcome string unit * ExTask :=
  handle_response (edge_world topics) (fun _ => 0) plant msg (MkTask 0 []).
Definition readings_message : list MirroringSpecWrapper := [MkSpecWrapper "readings" edge_topic_spec 7 "main-7" "spu-7:9005"].

Definition edge_topics : gmap string TopicSpec := <["local" := new_computed 1 1 None]> {["old" := topic_spec_of edge_replica]}.
Lemma plant_placed t l k topic spu source :
  placed "edge" (at_time (plant_world [plant_spu]) t l) (at_time (plant_world [plant_spu]) (Datatypes.S t) l) k topic spu source <->
  k = "readings"%string /\ topic = edge_topic_spec /\ spu = MkSpuMirrorConfig 7 "main-7" "spu-7:9005" /\ source = false.
Proof.
  assert (forall k, value AdminApi.topics k (at_time (plant_world [plant_spu]) (Datatypes.S t) l) =
    if decide ("readings"%string = k) then Some (MkObject edge_topic_spec (MkTopicStatus Provisioned {[0 := [7]]} ∅ EmptyString) "readings" (MkContext 1)) else None) as Hv.
  { intros k'. unfold value, store_value. cbn -[lookup insert]. rewrite lookup_insert. case_decide; [done|]. by rewrite lookup_empty. }
  assert (clone_values (store (sc_spus (at_time (plant_world [plant_spu]) t l))) = [plant_spu]) as Es by (vm_compute; reflexivity).
  unfold placed. split.
  - intros (status & ctx & partitions & n & p & ids & leader & Ev & Er & En & Ep & Hn & Ei & Hl & El & Ek & Ee).
    rewrite Hv in Ev. case_decide as Hr; [|done]. injection Ev as <- <- _ <-. injection Er as <- <-.
    destruct n as [|n]; [|done]. vm_compute (as_u32 _) in Ei. cbn [replica_map] in Ei. rewrite lookup_singleton_eq in Ei. injection Ei as Ei _.
    rewrite Es in Hl. apply list_elem_of_singleton in Hl as ->. split_and!; [by rewrite Hr|reflexivity| |reflexivity].
    destruct spu as [i key endpoint]. cbn [sm_id sm_key sm_endpoint] in Ei, Ek, Ee. vm_compute in Ek, Ee. by rewrite <-Ei, Ek, Ee.
  - intros (-> & -> & -> & ->). exists (MkTopicStatus Provisioned {[0 := [7]]} ∅ EmptyString), (MkContext 1).
    eexists _, 0%nat, _, [], plant_spu. rewrite Hv. rewrite Es.
    split_and!; try reflexivity; [intros; lia|]. apply list_elem_of_here.
Qed.

(** ** What mirroring does to other topics *)

(** While the SPU of a topic is not in the store of the home cluster, as when
    the cluster starts, the topic is not sent, and the remote cluster deletes
    its mirror. *)
Theorem unplaced_mirror_deleted :
  fst (from_plant [] [(true, Terminated)]) = Ok [[]] /\
  exists s, received_at_edge {["readings" := topic_spec_of edge_replica]} [] = (Ok tt, s) /\
    head (sent s) = Some (OnTopics (DeleteAction "readings")).
Proof. split; [vm_compute; reflexivity|]. eexists. split; vm_compute; reflexivity. Qed.

(** A topic of the remote cluster with the name of a topic of the home cluster
    becomes its mirror. *)
Theorem local_topic_taken_over (param : TopicReplicaParam) :
  exists s, received_at_edge {["readings" := topic_spec_of (Computed param)]} readings_message = (Ok tt, s) /\
    head (sent s) = Some (OnTopics (UpdateSpec "readings" (topic_spec_of edge_replica))).
Proof. eexists. split; vm_compute; reflexivity. Qed.

(** A change of the settings of a topic does not reach its mirror. *)
Theorem settings_not_mirrored (cleanup : option CleanupPolicy) (storage : option TopicStorageConfig) (dedup : option Deduplication) :
  let changed := MkTopicSpec (ts_replicas edge_topic_spec) cleanup storage AlgGzip dedup false in
  exists s, received_at_edge {["readings" := topic_spec_of edge_replica]} [MkSpecWrapper "readings" changed 7 "main-7" "spu-7:9005"] = (Ok tt, s) /\
    forall a, OnTopics a ∉ sent s.
Proof.
  eexists. split; [vm_compute; reflexivity|]. intros a Hin. cbn [sent] in Hin. repeat apply elem_of_cons in Hin as [?|Hin]; [done|]. by apply elem_of_nil in Hin.
Qed.

(** Nothing has changed, and the topics are sent again in each turn. *)
Theorem home_repeats :
  fst (from_plant [plant_spu] [(true, ChangeSeen); (true, ChangeSeen); (true, Terminated)]) =
  Ok [readings_message; readings_message; readings_message].
Proof. vm_compute. reflexivity. Qed.
