(* ===== verification/SpuMirror.v ===== *)
(** * Mirroring between SPUs

    The records of a mirrored partition flow between two SPUs over a connection
    that the remote one opens
    ([fluvio-spu/src/mirroring/remote/controller.rs]) and the home one serves
    ([fluvio-spu/src/mirroring/home/connection.rs]).  One of them is the
    source, the other the target: the target reports its end offset, the source
    sends the records from there, and the target appends them if they continue
    its log.  Both ends are leaders of their replicas.  Connecting and backing
    off are not modelled. *)

From S2P Require Import Prelude Wire Varint Utf8 Scalars Collections Records Batch RecordSet Names EpochMap.
From S2P Require Import StorageIndex StorageLog StorageSegment StorageReplica StorageReplicaLaws SpuStorage Replication ClusterTypes Auth AdminTypes.
From stdpp Require Import list gmap strings.

#[local] Open Scope Z_scope.

(** ** Messages *)

(** Records with the offsets of the source; the offsets of the target. *)
(* src/crates/fluvio-spu/src/mirroring/remote/sync.rs:25-32 MirrorPartitionSyncRequest *)
Record MirrorPartitionSyncRequest := MkMirrorSync { sync_hw : Z; sync_leo : Z; sync_records : list byte }.
(** What one end gets from the other. *)
(* src/crates/fluvio-spu/src/mirroring/home/home_api.rs:17-20 HomeMirrorRequest *)
Inductive MirrorRequest := UpdateOffset (offset : OffsetInfo) | SyncRecords (request : MirrorPartitionSyncRequest).
(** What an end does to the outside: a message to the other end, a report to
    its controller. *)
Inductive MirrorEffect :=
| SentStart
| Sent (request : MirrorRequest)
| Reported (status : MirrorPairStatus).
Inductive MirrorError :=
| ReadFailed (err : ReadError)
| LeaderHasMore
| PeerHasMore (peer_leo leader_leo : Z)
| UnexpectedRequest
| ConnectionFailed
| WriteFailed (err : StorageError).
(** What ends a wait: the leader's offset changed, the timer, a message of the
    other end, an error of the connection, its end. *)
Inductive MirrorEvent := LeaderOffset | Reconciliation | Received (request : MirrorRequest) | Failed | Closed.
Definition closed_connection : MirrorPairStatus := PairDetailFailure "closed connection".

(** The version of the mirror protocol. *)
(* src/crates/fluvio-spu/src/mirroring/mod.rs:7-7 COMMON_MIRROR_VERSION *)
Definition COMMON_MIRROR_VERSION : Z := 1.

(** ** Which replica, and which role *)

(** The first replica of the home cluster, in the order of the map, that
    mirrors the replica of the remote cluster, and whether it is the source. *)
(* src/crates/fluvio-spu/src/replication/leader/leaders_state.rs:91-107 find_mirror_home_leader *)
Definition find_mirror_home_leader (leaders : gmap ReplicaKey Replica) (remote_cluster_id home_replica : string) : option (ReplicaKey * bool) :=
  head (omap (fun '(key, replica) =>
    match rep_mirror replica with
    | Some (MirrorHome home) =>
        if String.eqb (remote_cluster home) remote_cluster_id && String.eqb (remote_replica home) home_replica
        then Some (key, hp_source home) else None
    | _ => None
    end) (map_to_list leaders)).
(** The replica that serves a connection; an error of the authorization does
    not refuse it. *)
(* src/crates/fluvio-spu/src/mirroring/home/connection.rs:84-181 MirrorHomeHandler::respond *)
Definition respond {AC} `{!AuthContext AC} (auth : AC) (mirrors : list MirrorSpec) (leaders : gmap ReplicaKey Replica)
    (remote_cluster_id remote_replica : string) : option (ReplicaKey * bool) :=
  match allow_instance_action auth TyMirror InstanceUpdate remote_cluster_id with
  | inr false => None
  | _ =>
      if existsb (fun mirror => match mirror_type mirror with RemoteType id => String.eqb id remote_cluster_id | HomeType _ => false end) mirrors
      then find_mirror_home_leader leaders remote_cluster_id remote_replica
      else None
  end.
(* src/crates/fluvio-spu/src/mirroring/remote/controller.rs:453-466 MirrorRemoteToHomeController::find_home_cluster *)
Definition find_home_cluster (mirrors : gmap string MirrorSpec) (remote_config : RemotePartitionConfig) : option Home :=
  match mirrors !! rp_home_cluster remote_config with
  | Some mirror => match mirror_type mirror with HomeType home => Some home | RemoteType _ => None end
  | None => None
  end.

Section mirror.
Context {S : Type} `{ReplicaStorage S}.

(** An end: its leader, what it knows of the other end, and what it has done. *)
(* src/crates/fluvio-spu/src/mirroring/home/connection.rs:66-73 MirrorHomeHandler *)
Record MirrorEnd := MkMirrorEnd {
  me_leader : LeaderReplicaState S;
  (** The end offset of the target, -1 if it is not known. *)
  me_peer_leo : Z;
  (** The target has to be updated; the target has been seen. *)
  me_update_needed : bool;
  me_paired : bool;
  me_effects : list MirrorEffect;
}.
Definition set_me_leader x (self : MirrorEnd) := MkMirrorEnd x (me_peer_leo self) (me_update_needed self) (me_paired self) (me_effects self).
Definition set_me_peer_leo x (self : MirrorEnd) := MkMirrorEnd (me_leader self) x (me_update_needed self) (me_paired self) (me_effects self).
Definition set_me_update_needed x (self : MirrorEnd) := MkMirrorEnd (me_leader self) (me_peer_leo self) x (me_paired self) (me_effects self).
Definition set_me_paired x (self : MirrorEnd) := MkMirrorEnd (me_leader self) (me_peer_leo self) (me_update_needed self) x (me_effects self).
Definition effect (e : MirrorEffect) : ME MirrorError MirrorEnd unit :=
  modify (fun self => MkMirrorEnd (me_leader self) (me_peer_leo self) (me_update_needed self) (me_paired self) (me_effects self ++ [e])).

(** ** The source *)

(* src/crates/fluvio-spu/src/mirroring/remote/controller.rs:484-539 MirrorRemoteToHomeController::geneate_remote_record_as_source *)
Definition generate_records (max_bytes : Z) (leader : LeaderReplicaState S) (peer_leo : Z)
    : outcome MirrorError (option MirrorPartitionSyncRequest) :=
  let leader_offset := as_offset (leader_storage leader) in
  if info_leo leader_offset =? peer_leo then Ok None
  else if peer_leo <? info_leo leader_offset then
    match sh_read_records peer_leo max_bytes ReadUncommitted (leader_storage leader) with
    | Ok slice => Ok (Some (MkMirrorSync (hw leader_offset) (info_leo leader_offset) (slice_data slice)))
    | Err err => Err (ReadFailed err)
    | Panic => Panic
    end
  else Err LeaderHasMore.
(** A report of the target; whether it has to be updated.  The home end does the
    same in [update_from_remote] and [generate_home_records_as_source]. *)
(* src/crates/fluvio-spu/src/mirroring/remote/controller.rs:406-449 MirrorRemoteToHomeController::update_from_home_as_source *)
Definition update_from_peer (new_leo : Z) : ME MirrorError MirrorEnd bool :=
  self ← get;
  let leader_leo := pub_leo (leader_storage (me_leader self)) in
  (if me_peer_leo self <? 0 then modify (set_me_peer_leo new_leo) else mret tt);;
  match new_leo ?= leader_leo with
  | Gt => fail (PeerHasMore new_leo leader_leo)
  | Lt => modify (set_me_peer_leo new_leo);; mret true
  | Eq => mret false
  end.

(** Sending what the target does not have. *)
(* src/crates/fluvio-spu/src/mirroring/remote/controller.rs:469-481 MirrorRemoteToHomeController::update_remote_as_source *)
Definition update_peer (max_bytes : Z) (peer_leo : Z) : ME MirrorError MirrorEnd unit :=
  self ← get;
  sync_request ← lift (generate_records max_bytes (me_leader self) peer_leo);
  match sync_request with
  | Some request => effect (Sent (SyncRecords request))
  | None => mret tt
  end.
(** [reports]: whether successes are reported, as the remote end does. *)
Section source.
Context (max_bytes : Z) (reports : bool).

Definition report_success : ME MirrorError MirrorEnd unit := if reports then effect (Reported PairSuccessful) else mret tt.
(** Before a wait. *)
(* src/crates/fluvio-spu/src/mirroring/remote/controller.rs:250-260 sync_mirror_loop (update) *)
Definition source_update : ME MirrorError MirrorEnd unit :=
  self ← get;
  if me_update_needed self && (0 <=? me_peer_leo self) then
    update_peer max_bytes (me_peer_leo self);;
    report_success;;
    modify (set_me_update_needed false)
  else mret tt.
(** After a wait; whether the loop goes on. *)
(* src/crates/fluvio-spu/src/mirroring/remote/controller.rs:262-292 sync_mirror_loop (select) *)
Definition source_event (event : MirrorEvent) : ME MirrorError MirrorEnd bool :=
  match event with
  | LeaderOffset => modify (set_me_update_needed true);; mret true
  | Received (UpdateOffset offset) =>
      needed ← update_from_peer (info_leo offset);
      modify (set_me_update_needed needed);;
      report_success;;
      mret true
  | Received (SyncRecords _) => fail UnexpectedRequest
  | Failed => fail ConnectionFailed
  | Closed => effect (Reported closed_connection);; mret false
  | Reconciliation => mret true (* no timer *)
  end.
Fixpoint source_loop (events : list MirrorEvent) : ME MirrorError MirrorEnd unit :=
  source_update;;
  match events with
  | [] => mret tt
  | event :: events => more ← source_event event; if more : bool then source_loop events else mret tt
  end.
End source.
(* src/crates/fluvio-spu/src/mirroring/remote/controller.rs:224-300 MirrorRemoteToHomeController::sync_mirror_loop *)
Definition sync_mirror_loop (max_bytes : Z) (events : list MirrorEvent) : ME MirrorError MirrorEnd unit :=
  effect SentStart;;
  modify (set_me_update_needed false);;
  source_loop max_bytes true events.
(* src/crates/fluvio-spu/src/mirroring/home/connection.rs:278-340 MirrorHomeHandler::respond_as_source *)
Definition respond_as_source (events : list MirrorEvent) : ME MirrorError MirrorEnd unit :=
  modify (set_me_peer_leo (-1));;
  modify (set_me_update_needed false);;
  source_loop (1024 * 1024) false events.

(** ** The target *)

Section target.
Context (crc32c : list byte -> Z).

(* src/crates/fluvio-spu/src/mirroring/home/connection.rs:248-261 MirrorHomeHandler::send_offsets_to_remote *)
Definition send_offsets : ME MirrorError MirrorEnd unit :=
  self ← get;
  effect (Sent (UpdateOffset (as_offset (leader_storage (me_leader self))))).
(** The records as they arrive. *)
(* src/crates/fluvio-spu/src/mirroring/remote/controller.rs:542-552 MirrorRemoteToHomeController::sync_record_from_home *)
Definition sync_records_of (request : MirrorPartitionSyncRequest) : ME MirrorError MirrorEnd unit := fun self =>
  match decode_from (codec_record_set crc32c codec_raw) COMMON_MIRROR_VERSION
          (be_split 4 (zlen (sync_records request)) ++ sync_records request) with
  | (Ok records, _) =>
      match append_record_set Ok (me_leader self, records) with
      | (Ok _, (leader, _)) => (Ok tt, set_me_leader leader self)
      | (Err err, (leader, _)) => (Err (WriteFailed err), set_me_leader leader self)
      | (Panic, (leader, _)) => (Panic, set_me_leader leader self)
      end
  | (Err _, _) => (Err ConnectionFailed, self)
  | (Panic, _) => (Panic, self)
  end.
(* src/crates/fluvio-spu/src/mirroring/home/connection.rs:264-275 MirrorHomeHandler::sync_record_from_remote *)
Definition sync_record_from_remote (request : MirrorPartitionSyncRequest) : ME MirrorError MirrorEnd unit :=
  sync_records_of request;;
  send_offsets.
(* src/crates/fluvio-spu/src/mirroring/home/connection.rs:208-233 respond_as_target (select) *)
Definition home_target_event (event : MirrorEvent) : ME MirrorError MirrorEnd bool :=
  match event with
  | Reconciliation => send_offsets;; mret true
  | Received (SyncRecords request) => sync_record_from_remote request;; mret true
  | Received (UpdateOffset _) => fail UnexpectedRequest
  | Failed => fail ConnectionFailed
  | Closed => effect (Reported closed_connection);; mret false
  | LeaderOffset => mret true (* not listened to *)
  end.
(** The remote end reports that it is paired when the first records come. *)
(* src/crates/fluvio-spu/src/mirroring/remote/controller.rs:333-370 sync_mirror_as_target (select) *)
Definition remote_target_event (event : MirrorEvent) : ME MirrorError MirrorEnd bool :=
  match event with
  | Reconciliation => send_offsets;; mret true
  | Received (SyncRecords request) =>
      self ← get;
      (if negb (me_paired self) then effect (Reported PairSuccessful);; modify (set_me_paired true) else mret tt);;
      sync_records_of request;;
      send_offsets;;
      mret true
  | Received (UpdateOffset _) => fail UnexpectedRequest
  | Failed => fail ConnectionFailed
  | Closed => effect (Reported closed_connection);; mret false
  | LeaderOffset => mret true (* not listened to *)
  end.
Fixpoint target_loop (turn : MirrorEvent -> ME MirrorError MirrorEnd bool) (events : list MirrorEvent) : ME MirrorError MirrorEnd unit :=
  match events with
  | [] => mret tt
  | event :: events => more ← turn event; if more : bool then target_loop turn events else mret tt
  end.
(* src/crates/fluvio-spu/src/mirroring/home/connection.rs:184-239 MirrorHomeHandler::respond_as_target *)
Definition respond_as_target (events : list MirrorEvent) : ME MirrorError MirrorEnd unit :=
  send_offsets;;
  effect (Reported PairSuccessful);;
  target_loop home_target_event events.
(* src/crates/fluvio-spu/src/mirroring/remote/controller.rs:304-378 MirrorRemoteToHomeController::sync_mirror_as_target *)
Definition sync_mirror_as_target (events : list MirrorEvent) : ME MirrorError MirrorEnd unit :=
  effect SentStart;;
  modify (set_me_paired false);;
  send_offsets;;
  target_loop remote_target_event events.
End target.
End mirror.
Arguments MirrorEnd : clear implicits.
