(* ===== verification/SpuMirrorLaws.v ===== *)
(** * What the mirrors of a partition hold

    Laws of [SpuMirror]: however the steps of the two ends interleave, and
    whatever the network does to messages that are not cut, the log of the
    target is a prefix of that of the source, and neither end fails; and a
    target that is behind catches up. *)

From S2P Require Import Prelude Wire Varint Utf8 Scalars Collections Records Batch RecordSet Names EpochMap.
From S2P Require Import StorageIndex StorageLog StorageSegment StorageReplica StorageReplicaLaws SpuStorage Replication ReplicationLaws.
From S2P Require Import ClusterTypes Auth AdminTypes SpuMirror.
From stdpp Require Import list gmap strings.

#[local] Open Scope Z_scope.

Section link.
Context (crc32c : list byte -> Z) (crc32c_u32 : forall bs, in_u 32 (crc32c bs)).
Context {S : Type} `{!ReplicaStorage S} `{!ReplicaStorageOK crc32c S}.
Notation seal := (sealed crc32c codec_raw).
(** The largest batch of the replicas, and the direction: from the remote
    cluster to the home cluster or back. *)
Context (limit : Z) (to_remote : bool).

Definition link_max_bytes : Z := if to_remote then 1024 * 1024 else 10000000.
Definition link_source_update : ME MirrorError (MirrorEnd S) unit := source_update link_max_bytes (negb to_remote).
Definition link_source_event : MirrorEvent -> ME MirrorError (MirrorEnd S) bool := source_event (negb to_remote).
Definition link_target_event : MirrorEvent -> ME MirrorError (MirrorEnd S) bool :=
  if to_remote then remote_target_event crc32c else home_target_event crc32c.
(** A new connection: the home end keeps nothing of the old one. *)
Definition reconnected_source (src : MirrorEnd S) : MirrorEnd S :=
  set_me_update_needed false (if to_remote then set_me_peer_leo (-1) src else src).
Definition reconnected_target (tgt : MirrorEnd S) : MirrorEnd S := set_me_paired false tgt.

(** The two ends.  Messages stay in their effects: they may be received any
    number of times, in any order, or not at all.  A message that fills
    [link_max_bytes] is cut at an arbitrary byte; [link_sync] has only those that
    were not. *)
Record Link := MkLink { lk_source : MirrorEnd S; lk_target : MirrorEnd S }.
Inductive link_step : Link -> Link -> Prop :=
| link_produce src tgt recs res l' recs' :
    Forall (sendable limit) (batches recs) ->
    end_from (pub_leo (leader_storage (me_leader src))) (batches recs) < 2 ^ 63 ->
    leader_write_record_set Ok (me_leader src, recs) = (Ok res, (l', recs')) ->
    link_step (MkLink src tgt) (MkLink (set_me_leader l' src) tgt)
| link_update src tgt src' :
    link_source_update src = (Ok tt, src') -> link_step (MkLink src tgt) (MkLink src' tgt)
| link_changed src tgt src' :
    link_source_event LeaderOffset src = (Ok true, src') -> link_step (MkLink src tgt) (MkLink src' tgt)
| link_report src tgt o src' :
    Sent (UpdateOffset o) ∈ me_effects tgt ->
    link_source_event (Received (UpdateOffset o)) src = (Ok true, src') -> link_step (MkLink src tgt) (MkLink src' tgt)
| link_timer src tgt tgt' :
    link_target_event Reconciliation tgt = (Ok true, tgt') -> link_step (MkLink src tgt) (MkLink src tgt')
| link_sync src tgt req tgt' :
    Sent (SyncRecords req) ∈ me_effects src -> zlen (sync_records req) < link_max_bytes ->
    link_target_event (Received (SyncRecords req)) tgt = (Ok true, tgt') -> link_step (MkLink src tgt) (MkLink src tgt')
| link_lost src tgt : link_step (MkLink src tgt) (MkLink (reconnected_source src) (reconnected_target tgt)).
Inductive link_reach (start : Link) : Link -> Prop :=
| link_start : link_reach start start
| link_more lk lk' : link_reach start lk -> link_step lk lk' -> link_reach start lk'.

(** ** The invariant *)

Notation leo_of e := (pub_leo (leader_storage (me_leader e))).
(** A part of a log. *)
Definition part_of (L : list RawBatch) (bytes : list byte) : Prop :=
  exists n m, (n + m <= length L)%nat /\ bytes = wire_batches crc32c codec_raw (take m (drop n L)).
Record link_inv (lk : Link) (L F : list RawBatch) : Prop := {
  li_source : leader_ok crc32c (me_leader (lk_source lk)) limit L;
  li_target : leader_ok crc32c (me_leader (lk_target lk)) limit F;
  li_prefix : is_prefix crc32c F L;
  li_known : -1 <= me_peer_leo (lk_source lk) <= leo_of (lk_target lk);
  li_reports o : Sent (UpdateOffset o) ∈ me_effects (lk_target lk) -> 0 <= info_leo o <= leo_of (lk_target lk);
  li_syncs req : Sent (SyncRecords req) ∈ me_effects (lk_source lk) -> zlen (sync_records req) < link_max_bytes -> part_of L (sync_records req);
}.

Lemma link_max_bytes_pos : 0 < link_max_bytes < 2 ^ 31.
Proof. unfold link_max_bytes. destruct to_remote; lia. Qed.
Lemma part_of_app L new bytes : part_of L bytes -> part_of (L ++ new) bytes.
Proof. intros (n & m & Hn & ->). exists n, m. rewrite length_app, take_drop_app by done. split; [lia|done]. Qed.

(** The target is not ahead. *)
Lemma inv_leo lk L F : link_inv lk L F -> leo_of (lk_target lk) <= leo_of (lk_source lk).
Proof.
  intros Hi. destruct (li_source _ _ _ Hi) as (HL & _). destruct (li_target _ _ _ Hi) as (HF & _).
  destruct (sh_ok_log _ _ _ _ HL) as (Hl & <- & _). destruct (sh_ok_log _ _ _ _ HF) as (_ & <- & _).
  apply (is_prefix_end crc32c); [done|apply (li_prefix _ _ _ Hi)].
Qed.

(** What is sent. *)
Lemma generate_spec l L peer : leader_ok crc32c l limit L -> 0 <= peer <= pub_leo (leader_storage l) ->
  generate_records link_max_bytes l peer = Ok None /\ peer = pub_leo (leader_storage l) \/
  exists req, generate_records link_max_bytes l peer = Ok (Some req) /\
    (zlen (sync_records req) < link_max_bytes -> part_of L (sync_records req)).
Proof.
  intros (Hok & _) Hp. unfold generate_records. cbn [as_offset info_leo hw].
  destruct (Z.eqb_spec (pub_leo (leader_storage l)) peer) as [E|Hne]; [by left|right].
  destruct (Z.ltb_spec peer (pub_leo (leader_storage l))); [|lia].
  destruct Hok as (Hst & El & _ & _). destruct (stores_read crc32c _ _ _ peer link_max_bytes Hst) as (sl & data & Er & Ed & Hr); [lia|].
  unfold sh_read_records. rewrite Er. eexists. split; [reflexivity|]. cbn [sync_records]. intros Hz.
  destruct Hr as (pre & b & post & k & -> & _ & Edata & _).
  assert (slice_data sl = data) as -> by (rewrite Ed in Hz |- *; by apply ztake_whole).
  exists (length pre), (Nat.min k (length (b :: post))). rewrite length_app, drop_app_length. split; [lia|]. rewrite Edata. f_equal.
  destruct (Nat.min_spec k (length (b :: post))) as [[? ->]|[? ->]]; [done|]. by rewrite firstn_all, firstn_all2 by lia.
Qed.

(** What the target does with a part of the log of the source. *)
Lemma part_records o L n m : log_from codec_raw o L -> (n + m <= length L)%nat -> (0 < m)%nat -> 0 <= o -> end_from o L < 2 ^ 63 ->
  total_records (MkRecordSet (map seal (take m (drop n L)))) <> 0.
Proof.
  intros Hl Hnm Hm Ho Hend. pose proof (offset_at_bounds codec_raw o L (n + m) Hl Hnm). pose proof (offset_at_mono codec_raw o L n (n + m) Hl ltac:(lia)).
  pose proof (offset_at_bounds codec_raw o L n Hl ltac:(lia)).
  assert (end_from (offset_at o L n) (take m (drop n L)) = offset_at o L (n + m)) as EM.
  { unfold offset_at. rewrite <-end_from_app. f_equal. apply take_take_drop. }
  unfold total_records. cbn [batches]. rewrite (total_records_log (offset_at o L n)); rewrite ?end_from_sealed, ?EM; try lia.
  apply log_from_sealed. by apply log_from_take, log_from_drop.
Qed.
Lemma append_spec l F L n m :
  leader_ok crc32c l limit F -> log_from codec_raw 0 L -> end_from 0 L < 2 ^ 63 -> Forall (sendable limit) L ->
  is_prefix crc32c F L -> (n + m <= length L)%nat ->
  exists b l' F' recs, append_record_set Ok (l, MkRecordSet (map seal (take m (drop n L)))) = (Ok b, (l', recs)) /\
    leader_ok crc32c l' limit F' /\ is_prefix crc32c F' L /\ pub_leo (leader_storage l) <= pub_leo (leader_storage l') /\
    (pub_leo (leader_storage l) = offset_at 0 L n -> pub_leo (leader_storage l') = offset_at 0 L (n + m)).
Proof.
  intros Hok Hl Hend Hsend Hp Hnm. pose proof Hok as (Hsh & _). destruct (sh_ok_log _ _ _ _ Hsh) as (HlF & EF & HbF).
  unfold append_record_set. erewrite bind_ok by done. cbv beta iota. destruct m as [|m].
  { exists false, l, F. eexists. split; [reflexivity|]. split_and!; try done. by rewrite Nat.add_0_r. }
  destruct (Z.eqb_spec (total_records (MkRecordSet (map seal (take (Datatypes.S m) (drop n L))))) 0) as [E0|_].
  { exfalso. apply (part_records 0 L n (Datatypes.S m)); (done || lia). }
  set (M := take (Datatypes.S m) (drop n L)) in *.
  assert (log_from codec_raw (offset_at 0 L n) M) as HlM by (by apply log_from_take, log_from_drop).
  assert (end_from (offset_at 0 L n) M = offset_at 0 L (n + Datatypes.S m)) as EM.
  { unfold offset_at, M. rewrite <-end_from_app. f_equal. apply take_take_drop. }
  pose proof (offset_at_bounds codec_raw 0 L (n + Datatypes.S m) Hl Hnm).
  assert (record_set_base_offset (MkRecordSet (map seal M)) = offset_at 0 L n) as ->.
  { destruct (lookup_lt_is_Some_2 L n ltac:(lia)) as [b Hb]. unfold M. rewrite (drop_S _ _ _ Hb). cbn.
    by destruct (log_from_lookup codec_raw 0 L n b Hl Hb) as [? _]. }
  destruct (Z.eqb_spec (offset_at 0 L n) (pub_leo (leader_storage l))) as [E|Hne]; cbn [negb].
  - destruct (leader_write_appends crc32c l limit F (map seal M) Hok) as (size & notified & l' & Ew & Hok' & _ & El).
    + apply Forall_map. eapply List.Forall_impl; [apply sendable_sealed|]. by apply Forall_take, Forall_drop.
    + rewrite end_from_sealed, <-E, EM. lia.
    + apply (part_records 0); (done || lia).
    + cbv zeta in Ew, Hok'. rewrite <-E, number_batches_id in Ew, Hok' by (by apply log_from_sealed). rewrite end_from_sealed, <-E, EM in El.
      pose proof (offset_at_mono codec_raw 0 L n (n + Datatypes.S m) Hl ltac:(lia)).
      erewrite bind_ok by exact Ew. eexists _, l', _, _. split; [reflexivity|]. split; [exact Hok'|].
      split; [eapply is_prefix_extend; [done|done|done|congruence]|]. split; [lia|]. done.
  - eexists _, l, F, _. split; [reflexivity|]. split_and!; done.
Qed.
Lemma sync_records_spec tgt F L n m req :
  leader_ok crc32c (me_leader tgt) limit F -> log_from codec_raw 0 L -> end_from 0 L < 2 ^ 63 -> Forall (sendable limit) L ->
  is_prefix crc32c F L -> (n + m <= length L)%nat -> sync_records req = wire_batches crc32c codec_raw (take m (drop n L)) ->
  zlen (sync_records req) < link_max_bytes ->
  exists l' F', sync_records_of crc32c req tgt = (Ok tt, set_me_leader l' tgt) /\
    leader_ok crc32c l' limit F' /\ is_prefix crc32c F' L /\ leo_of tgt <= pub_leo (leader_storage l') /\
    (leo_of tgt = offset_at 0 L n -> pub_leo (leader_storage l') = offset_at 0 L (n + m)).
Proof.
  intros Hok Hl Hend Hsend Hp Hnm Er Hz. pose proof link_max_bytes_pos.
  assert (log_from codec_raw (offset_at 0 L n) (take m (drop n L))) as HlM by (by apply log_from_take, log_from_drop).
  destruct (append_spec (me_leader tgt) F L n m) as (b & l' & F' & recs & E & Hok' & Hp' & Hle & Hadv); try done.
  exists l', F'. split; [|done]. unfold sync_records_of, COMMON_MIRROR_VERSION. rewrite Er in Hz |- *.
  rewrite (decode_records crc32c crc32c_u32 1) by (lia || by apply (log_from_valid codec_raw _ _ HlM)). by rewrite E.
Qed.

(** ** Steps *)

(** Ends that differ in what the invariant does not speak of. *)
Lemma inv_same_source src src' tgt L F :
  me_leader src' = me_leader src -> -1 <= me_peer_leo src' <= leo_of tgt ->
  (forall req, Sent (SyncRecords req) ∈ me_effects src' -> Sent (SyncRecords req) ∈ me_effects src \/
     (zlen (sync_records req) < link_max_bytes -> part_of L (sync_records req))) ->
  link_inv (MkLink src tgt) L F -> link_inv (MkLink src' tgt) L F.
Proof.
  intros El Hk He [H1 H2 H3 H4 H5 H6]. cbn in *. split; cbn; try done; [by rewrite El|].
  intros req Hin Hz. destruct (He req Hin) as [?|?]; auto.
Qed.
Lemma elem_of_effect {e : MirrorEffect} {es e'} : e ∈ es ++ [e'] -> e ∈ es \/ e = e'.
Proof. intros [?|?%list_elem_of_singleton]%elem_of_app; auto. Qed.

Lemma report_success_inv src tgt L F : link_inv (MkLink src tgt) L F ->
  exists src', report_success (negb to_remote) src = (Ok tt, src') /\ link_inv (MkLink src' tgt) L F /\ me_leader src' = me_leader src /\
    me_peer_leo src' = me_peer_leo src /\ me_update_needed src' = me_update_needed src /\
    (forall req, Sent req ∈ me_effects src -> Sent req ∈ me_effects src').
Proof.
  intros Hi. unfold report_success. destruct (negb to_remote); [|by exists src]. eexists. split; [reflexivity|]. split_and!; try done.
  - apply (inv_same_source src); [done|apply (li_known _ _ _ Hi)| |done]. intros req [?|?]%elem_of_effect; [by left|done].
  - intros req Hin. apply elem_of_app. by left.
Qed.
Lemma set_update_needed_inv src tgt L F b : link_inv (MkLink src tgt) L F -> link_inv (MkLink (set_me_update_needed b src) tgt) L F.
Proof. intros Hi. apply (inv_same_source src); [done|apply (li_known _ _ _ Hi)|by left|done]. Qed.

(** The source never fails to read, *)
Lemma source_update_inv src tgt L F : link_inv (MkLink src tgt) L F ->
  exists src', link_source_update src = (Ok tt, src') /\ link_inv (MkLink src' tgt) L F /\ me_leader src' = me_leader src.
Proof.
  intros Hi. unfold link_source_update, source_update. erewrite bind_ok by done.
  destruct (me_update_needed src && _) eqn:Eu; [|by exists src]. apply andb_prop in Eu as [_ Hk%Z.leb_le].
  pose proof (inv_leo _ _ _ Hi) as Hle. pose proof (li_known _ _ _ Hi) as Hkn. cbn in Hle, Hkn.
  assert (exists src1, update_peer link_max_bytes (me_peer_leo src) src = (Ok tt, src1) /\ link_inv (MkLink src1 tgt) L F /\ me_leader src1 = me_leader src)
    as (src1 & E1 & Hi1 & El1).
  { unfold update_peer. erewrite bind_ok by done. unfold lift.
    destruct (generate_spec (me_leader src) L (me_peer_leo src) (li_source _ _ _ Hi)) as [[E _]|(req & E & Hpart)]; [lia| |].
    - exists src. split; [|done]. unfold mbind, M_bind. by rewrite E.
    - eexists. split; [unfold mbind, M_bind; rewrite E; reflexivity|]. split; [|done].
      apply (inv_same_source src); [done|done| |done]. cbn [me_effects]. intros req' [?|Eq]%elem_of_effect; [by left|]. injection Eq as ->. by right. }
  rewrite (bind_ok _ _ _ _ _ E1). destruct (report_success_inv _ _ _ _ Hi1) as (src2 & E2 & Hi2 & El2 & _). rewrite (bind_ok _ _ _ _ _ E2).
  eexists. split; [reflexivity|]. split; [by apply set_update_needed_inv|]. cbn. congruence.
Qed.
(** and the target is never found to have more. *)
Lemma source_report_inv src tgt L F o : link_inv (MkLink src tgt) L F -> Sent (UpdateOffset o) ∈ me_effects tgt ->
  exists src', link_source_event (Received (UpdateOffset o)) src = (Ok true, src') /\ link_inv (MkLink src' tgt) L F /\
    me_leader src' = me_leader src /\ (info_leo o < leo_of src -> me_peer_leo src' = info_leo o /\ me_update_needed src' = true).
Proof.
  intros Hi Ho. pose proof (inv_leo _ _ _ Hi) as Hle. pose proof (li_reports _ _ _ Hi o Ho) as Hr. pose proof (li_known _ _ _ Hi) as Hkn. cbn in Hle, Hr, Hkn.
  unfold link_source_event, source_event.
  assert (exists needed src1, update_from_peer (info_leo o) src = (Ok needed, src1) /\ link_inv (MkLink src1 tgt) L F /\ me_leader src1 = me_leader src /\
    (info_leo o < leo_of src -> me_peer_leo src1 = info_leo o /\ needed = true)) as (needed & src1 & E1 & Hi1 & El1 & Hn).
  { assert (forall k, -1 <= k <= leo_of tgt -> link_inv (MkLink (set_me_peer_leo k src) tgt) L F) as Hset
      by (intros k Hk; apply (inv_same_source src); [done|done|by left|done]).
    unfold update_from_peer. erewrite bind_ok by done. cbv zeta.
    destruct (me_peer_leo src <? 0); (erewrite bind_ok by done); destruct (Z.compare_spec (info_leo o) (leo_of src)); try lia;
      eexists _, _; (split; [reflexivity|]); cbn; split_and!; try done; try lia; try (apply (inv_same_source src); [done|cbn; lia|by left|done]). }
  rewrite (bind_ok _ _ _ _ _ E1). erewrite bind_ok by done.
  destruct (report_success_inv _ _ _ _ (set_update_needed_inv _ _ _ _ needed Hi1)) as (src2 & E2 & Hi2 & El2 & Ep2 & Eu2 & _).
  rewrite (bind_ok _ _ _ _ _ E2). exists src2. split; [done|]. split; [done|]. split; [by rewrite El2|]. rewrite Ep2, Eu2. exact Hn.
Qed.

(** The target. *)
Lemma target_inv src tgt tgt' L F F' :
  leader_ok crc32c (me_leader tgt') limit F' -> is_prefix crc32c F' L -> leo_of tgt <= leo_of tgt' ->
  (forall o, Sent (UpdateOffset o) ∈ me_effects tgt' -> Sent (UpdateOffset o) ∈ me_effects tgt \/ o = as_offset (leader_storage (me_leader tgt'))) ->
  link_inv (MkLink src tgt) L F -> link_inv (MkLink src tgt') L F'.
Proof.
  intros Hok Hp Hle He [H1 H2 H3 H4 H5 H6]. cbn in *. split; cbn; try done; [lia|].
  intros o [Hin| ->]%He; [specialize (H5 o Hin); lia|]. cbn. destruct (sh_ok_log _ _ _ _ (proj1 Hok)) as (_ & _ & ?). lia.
Qed.
Lemma target_timer_inv src tgt L F : link_inv (MkLink src tgt) L F ->
  exists tgt', link_target_event Reconciliation tgt = (Ok true, tgt') /\ link_inv (MkLink src tgt') L F /\ me_leader tgt' = me_leader tgt /\
    Sent (UpdateOffset (as_offset (leader_storage (me_leader tgt)))) ∈ me_effects tgt'.
Proof.
  intros Hi. unfold link_target_event. destruct to_remote; (eexists; split; [reflexivity|]; split; [|split; [done|apply elem_of_app; right; by left]]);
    (apply (target_inv src tgt _ L F); [apply (li_target _ _ _ Hi)|apply (li_prefix _ _ _ Hi)|done| |done];
     intros o [?|Eq]%elem_of_effect; [by left|injection Eq as ->; by right]).
Qed.
Lemma target_sync_part src tgt L F n m req : link_inv (MkLink src tgt) L F ->
  (n + m <= length L)%nat -> sync_records req = wire_batches crc32c codec_raw (take m (drop n L)) -> zlen (sync_records req) < link_max_bytes ->
  exists tgt' F', link_target_event (Received (SyncRecords req)) tgt = (Ok true, tgt') /\ link_inv (MkLink src tgt') L F' /\
    (leo_of tgt = offset_at 0 L n -> leo_of tgt' = offset_at 0 L (n + m)).
Proof.
  intros Hi Hnm Er Hz. destruct (li_source _ _ _ Hi) as (HL & Hsend & _). destruct (sh_ok_log _ _ _ _ HL) as (Hl & El & Hb).
  assert (forall tgt0, me_leader tgt0 = me_leader tgt -> exists l' F', sync_records_of crc32c req tgt0 = (Ok tt, set_me_leader l' tgt0) /\
    leader_ok crc32c l' limit F' /\ is_prefix crc32c F' L /\ leo_of tgt <= pub_leo (leader_storage l') /\
    (leo_of tgt = offset_at 0 L n -> pub_leo (leader_storage l') = offset_at 0 L (n + m))) as Hs.
  { intros tgt0 E0. destruct (sync_records_spec tgt0 F L n m req) as (l' & F' & Es & Hok' & Hp' & Hle & Hadv); try done;
      [rewrite E0; apply (li_target _ _ _ Hi)|lia|apply (li_prefix _ _ _ Hi)|]. exists l', F'. rewrite <-E0. done. }
  assert (forall tgt0 l' F', me_leader tgt0 = l' -> leader_ok crc32c l' limit F' -> is_prefix crc32c F' L -> leo_of tgt <= pub_leo (leader_storage l') ->
    (forall o, Sent (UpdateOffset o) ∈ me_effects tgt0 -> Sent (UpdateOffset o) ∈ me_effects tgt \/ o = as_offset (leader_storage l')) ->
    link_inv (MkLink src tgt0) L F') as Hinv.
  { intros tgt0 l' F' El' Hok' Hp' Hle He. apply (target_inv src tgt _ L F); [by rewrite El'|done|by rewrite El'|by rewrite El'|done]. }
  destruct (Hs tgt eq_refl) as (l' & F' & Es & Hok' & Hp' & Hle & Hadv). unfold link_target_event. destruct to_remote.
  - cbn [remote_target_event]. erewrite bind_ok by done.
    assert (exists tgt1, (if negb (me_paired tgt) then effect (Reported PairSuccessful);; modify (set_me_paired true) else mret tt) tgt = (Ok tt, tgt1) /\
      me_leader tgt1 = me_leader tgt /\ (forall o, Sent (UpdateOffset o) ∈ me_effects tgt1 -> Sent (UpdateOffset o) ∈ me_effects tgt)) as (tgt1 & E1 & El1 & He1).
    { destruct (negb (me_paired tgt)); [|by exists tgt]. eexists. split; [reflexivity|]. split; [done|]. cbn. intros o [?|?]%elem_of_effect; done. }
    rewrite (bind_ok _ _ _ _ _ E1).
    assert (sync_records_of crc32c req tgt1 = (Ok tt, set_me_leader l' tgt1)) as Es1.
    { unfold sync_records_of in *. rewrite El1. destruct (decode_from _ _ _) as [[recs|?|] ?]; [|done..].
      destruct (append_record_set _ _) as [[?|?|] [? ?]]; [|done..]. by injection Es as ->. }
    rewrite (bind_ok _ _ _ _ _ Es1). eexists _, F'. split; [reflexivity|]. split; [|done].
    apply (Hinv _ l'); try done. cbn. intros o [?|Eq]%elem_of_effect; [left; by apply He1|injection Eq as ->; by right].
  - cbn [home_target_event]. unfold sync_record_from_remote.
    eexists _, F'. split; [unfold mbind, M_bind; rewrite Es; reflexivity|]. split; [|done].
    apply (Hinv _ l'); try done. cbn. intros o [?|Eq]%elem_of_effect; [by left|injection Eq as ->; by right].
Qed.

(** Every step keeps the invariant. *)
Lemma link_step_inv lk lk' L F : link_inv lk L F -> link_step lk lk' -> exists L' F', link_inv lk' L' F'.
Proof.
  intros Hi Hs. destruct Hs as [src tgt recs res l' recs' Hb Hend E|src tgt src' E|src tgt src' E|src tgt o src' Ho E|src tgt tgt' E|src tgt req tgt' Hr Hz E|src tgt].
  - destruct (leader_write_spec crc32c _ limit L recs res l' recs' (li_source _ _ _ Hi) Hb Hend E) as (new & Hok & _).
    exists (L ++ new), F. destruct Hi as [H1 H2 H3 H4 H5 H6]. split; cbn in *; try done; [by apply is_prefix_app|]. intros req Hin Hz. by apply part_of_app, H6.
  - destruct (source_update_inv _ _ _ _ Hi) as (src1 & E1 & Hi1 & _). rewrite E in E1. injection E1 as <-. eauto.
  - injection E as <-. exists L, F. by apply set_update_needed_inv.
  - destruct (source_report_inv _ _ _ _ o Hi Ho) as (src1 & E1 & Hi1 & _). rewrite E in E1. injection E1 as <-. eauto.
  - destruct (target_timer_inv _ _ _ _ Hi) as (tgt1 & E1 & Hi1 & _). rewrite E in E1. injection E1 as <-. eauto.
  - destruct (li_syncs _ _ _ Hi req Hr Hz) as (n & m & Hnm & Ep).
    destruct (target_sync_part _ _ _ _ n m req Hi Hnm Ep Hz) as (tgt1 & F1 & E1 & Hi1 & _). rewrite E in E1. injection E1 as <-. eauto.
  - exists L, F. apply set_update_needed_inv. destruct Hi as [H1 H2 H3 H4 H5 H6]. cbn in *. destruct to_remote; split; cbn; try done. lia.
Qed.
Lemma link_reach_inv lk lk' L F : link_inv lk L F -> link_reach lk lk' -> exists L' F', link_inv lk' L' F'.
Proof. intros Hi. induction 1 as [|lk1 lk2 _ (L1 & F1 & Hi1) Hs]; [eauto|]. by eapply link_step_inv. Qed.

(** ** Catching up *)

(** Messages are received in the order in which they are sent. *)
Fixpoint deliver (es : list MirrorEffect) (tgt : MirrorEnd S) : option (MirrorEnd S) :=
  match es with
  | [] => Some tgt
  | Sent (SyncRecords req) :: es =>
      match link_target_event (Received (SyncRecords req)) tgt with (Ok true, tgt) => deliver es tgt | _ => None end
  | _ :: es => deliver es tgt
  end.
(** The target reports, the source takes note and sends, the target takes what
    is sent. *)
Definition round (lk : Link) : option Link :=
  match link_target_event Reconciliation (lk_target lk) with
  | (Ok true, tgt) =>
      match link_source_event (Received (UpdateOffset (as_offset (leader_storage (me_leader tgt))))) (lk_source lk) with
      | (Ok true, src) =>
          match link_source_update src with
          | (Ok _, src') => MkLink src' <$> deliver (drop (length (me_effects src)) (me_effects src')) tgt
          | _ => None
          end
      | _ => None
      end
  | _ => None
  end.
Fixpoint rounds (n : nat) (lk : Link) : option Link :=
  match n with
  | O => Some lk
  | Datatypes.S n => match round lk with Some lk => rounds n lk | None => None end
  end.

Lemma prefix_length F L : is_prefix crc32c F L -> (length F <= length L)%nat /\ map seal F = map seal (take (length F) L).
Proof.
  intros (n & Hn & E). assert (length F = n) as <-; [|done]. apply (f_equal length) in E. rewrite !length_map, length_take in E. lia.
Qed.
(** Where the target ends in the log of the source. *)
Lemma target_end lk L F : link_inv lk L F -> leo_of (lk_target lk) = offset_at 0 L (length F) /\ leo_of (lk_source lk) = offset_at 0 L (length L).
Proof.
  intros Hi. destruct (sh_ok_log _ _ _ _ (proj1 (li_source _ _ _ Hi))) as (Hl & <- & _). destruct (sh_ok_log _ _ _ _ (proj1 (li_target _ _ _ Hi))) as (_ & <- & _).
  rewrite offset_at_all. split; [|done]. destruct (prefix_length _ _ (li_prefix _ _ _ Hi)) as [_ E]. by rewrite <-(end_from_sealed crc32c 0 F), E, end_from_sealed.
Qed.
Lemma wire_batches_take n (bs : list RawBatch) : zlen (wire_batches crc32c codec_raw (take n bs)) <= zlen (wire_batches crc32c codec_raw bs).
Proof.
  rewrite <-(take_drop n bs) at 2. unfold wire_batches. rewrite map_app, concat_app, zlen_app. pose proof (zlen_nonneg (concat (map (wire_batch crc32c codec_raw) (drop n bs)))). lia.
Qed.
(** The records that are sent to a target that is behind. *)
Lemma generate_next l L k : leader_ok crc32c l limit L -> (k < length L)%nat -> zlen (wire_batches crc32c codec_raw (drop k L)) < link_max_bytes ->
  exists req m, generate_records link_max_bytes l (offset_at 0 L k) = Ok (Some req) /\ (0 < m)%nat /\ (k + m <= length L)%nat /\
    sync_records req = wire_batches crc32c codec_raw (take m (drop k L)) /\ zlen (sync_records req) < link_max_bytes.
Proof.
  intros (Hok & _) Hk Hz. destruct (sh_ok_log _ _ _ _ Hok) as (Hl & El & Hb). rewrite <-(offset_at_all 0 L) in El.
  pose proof (offset_at_mono codec_raw 0 L k (length L) Hl ltac:(lia)) as Hm. pose proof (offset_at_bounds codec_raw 0 L k Hl ltac:(lia)).
  unfold generate_records. cbn [as_offset info_leo hw]. rewrite (proj2 (Z.eqb_neq _ _)), (proj2 (Z.ltb_lt _ _)) by lia.
  destruct Hok as (Hst & Ele & _ & _). destruct (stores_read crc32c _ _ _ (offset_at 0 L k) link_max_bytes Hst) as (sl & data & Er & Ed & Hr); [lia|].
  unfold sh_read_records. rewrite Er. destruct Hr as (pre & b & post & m & E & Ho & Edata & _ & Hm0).
  destruct (lookup_lt_is_Some_2 L k Hk) as [b' Hb']. destruct (log_from_lookup codec_raw 0 L k b' Hl Hb') as (Eb' & _).
  assert (L = take k L ++ b' :: drop (Datatypes.S k) L) as EL by (rewrite <-(take_drop k L) at 1; by rewrite (drop_S _ _ _ Hb')).
  destruct (log_split_unique 0 (take k L) (drop (Datatypes.S k) L) pre post b' b) as (E1 & <- & <-); [by rewrite <-EL|by rewrite <-EL|lia|].
  rewrite <-(drop_S _ _ _ Hb') in Edata. assert (0 < m)%nat as Hm1 by (apply Hm0; done).
  assert (data = wire_batches crc32c codec_raw (take (Nat.min m (length (drop k L))) (drop k L))) as Edata'.
  { rewrite Edata. destruct (Nat.min_spec m (length (drop k L))) as [[? ->]|[? ->]]; [done|]. by rewrite firstn_all, firstn_all2 by lia. }
  assert (slice_data sl = data) as Esl.
  { rewrite Ed. apply ztake_all. rewrite Edata. pose proof (wire_batches_take m (drop k L)). lia. }
  eexists _, (Nat.min m (length (drop k L))). split; [reflexivity|]. cbn [sync_records]. rewrite Esl, <-Edata', length_drop. split; [lia|]. split; [lia|]. split; [done|].
  rewrite Edata. pose proof (wire_batches_take m (drop k L)). lia.
Qed.
(** The source sends them when it knows where the target ends. *)
Lemma source_update_sends src L k : leader_ok crc32c (me_leader src) limit L -> (k < length L)%nat ->
  zlen (wire_batches crc32c codec_raw (drop k L)) < link_max_bytes -> me_peer_leo src = offset_at 0 L k -> me_update_needed src = true ->
  exists src' req m rest, link_source_update src = (Ok tt, src') /\ me_effects src' = me_effects src ++ Sent (SyncRecords req) :: rest /\
    (forall tgt, deliver rest tgt = Some tgt) /\ (0 < m)%nat /\ (k + m <= length L)%nat /\
    sync_records req = wire_batches crc32c codec_raw (take m (drop k L)) /\ zlen (sync_records req) < link_max_bytes.
Proof.
  intros Hl Hk Hz Ep Eu. destruct (generate_next _ _ _ Hl Hk Hz) as (req & m & Eg & Hrest).
  assert (0 <= me_peer_leo src) as Hpos.
  { rewrite Ep. destruct (sh_ok_log _ _ _ _ (proj1 Hl)) as (HL & _ & _). pose proof (offset_at_bounds codec_raw 0 L k HL ltac:(lia)). lia. }
  assert (update_peer link_max_bytes (me_peer_leo src) src
    = (Ok tt, MkMirrorEnd (me_leader src) (me_peer_leo src) (me_update_needed src) (me_paired src) (me_effects src ++ [Sent (SyncRecords req)]))) as E.
  { unfold update_peer. erewrite bind_ok by done. unfold lift, mbind, M_bind. rewrite <-Ep in Eg. by rewrite Eg. }
  unfold link_source_update, source_update. erewrite bind_ok by done. rewrite Eu, (proj2 (Z.leb_le _ _) Hpos). cbn [andb]. erewrite bind_ok by exact E.
  unfold report_success. destruct to_remote; cbn [negb]; eexists _, req, m, _; (split; [reflexivity|]); cbn; (split; [rewrite <-?app_assoc; reflexivity|]); done.
Qed.
Lemma round_spec lk L F : link_inv lk L F -> zlen (wire_batches crc32c codec_raw (drop (length F) L)) < link_max_bytes ->
  exists lk' F', round lk = Some lk' /\ link_inv lk' L F' /\ (length F <= length F')%nat /\ ((length F < length L)%nat -> (length F < length F')%nat).
Proof.
  intros Hi Hz. destruct lk as [src tgt]. destruct (target_end _ _ _ Hi) as [Et Es]. cbn in Et, Es.
  assert (forall lk0 F0, link_inv lk0 L F0 -> leo_of (lk_target lk0) = offset_at 0 L (length F0) /\ (length F0 <= length L)%nat) as Hend.
  { intros lk0 F0 H0. split; [by apply target_end|]. by apply prefix_length, (li_prefix _ _ _ H0). }
  destruct (sh_ok_log _ _ _ _ (proj1 (li_source _ _ _ Hi))) as (Hl & _).
  destruct (target_timer_inv _ _ _ _ Hi) as (tgt1 & E1 & Hi1 & El1 & Ho). unfold round. cbn [lk_source lk_target]. rewrite E1, El1.
  destruct (source_report_inv _ _ _ _ _ Hi1 Ho) as (src1 & E2 & Hi2 & El2 & Hbehind). rewrite E2.
  destruct (Hend _ _ Hi) as [_ Hlen]. destruct (decide (length F < length L)%nat) as [Hlt|Hge].
  - pose proof (offset_at_mono codec_raw 0 L (length F) (length L) Hl ltac:(lia)). cbn [info_leo as_offset] in Hbehind. destruct Hbehind as [Ep Eu]; [lia|].
    destruct (source_update_inv _ _ _ _ Hi2) as (src2 & E3 & Hi3 & _).
    destruct (source_update_sends src1 L (length F) (li_source _ _ _ Hi2) Hlt Hz) as (src2' & req & m & rest & E3' & Ee & Hrest & Hm & Hnm & Er & Hzr); [by rewrite Ep|done|].
    rewrite E3 in E3'. injection E3' as <-. rewrite E3, Ee, drop_app_length. cbn [deliver].
    destruct (target_sync_part _ _ _ _ _ _ req Hi3 Hnm Er Hzr) as (tgt2 & F' & E4 & Hi4 & Hadv). rewrite E4, Hrest. eexists _, F'. split; [reflexivity|]. split; [exact Hi4|].
    destruct (Hend _ _ Hi4) as [Et4 Hlen4]. cbn in Et4. rewrite Hadv in Et4 by (by rewrite El1).
    assert (length F < length F')%nat as Hgt; [|lia]. destruct (decide (length F < length F')%nat); [done|].
    destruct (decide (length F' = length F + m)%nat); [lia|].
    pose proof (offset_at_mono codec_raw 0 L (length F') (length F + m) Hl ltac:(lia)). lia.
  - assert (link_source_update src1 = (Ok tt, src1)) as E3.
    { unfold link_source_event, source_event, update_from_peer in E2. unfold link_source_update, source_update. erewrite bind_ok by done.
      assert (me_update_needed src1 = false) as ->; [|done].
      assert (info_leo (as_offset (leader_storage (me_leader tgt))) = leo_of src) as Eeq by (cbn; assert (length F = length L) as EL by lia; rewrite Et, Es, EL; done).
      revert E2. rewrite Eeq. unfold mbind, M_bind. cbn [get]. rewrite Z.compare_refl. unfold report_success.
      destruct (me_peer_leo src <? 0), (negb to_remote); cbn; by intros [= <-]. }
    rewrite E3, drop_all. cbn [deliver fmap option_fmap option_map]. eexists _, F. split; [reflexivity|]. split; [exact Hi2|]. lia.
Qed.
Lemma rounds_spec n lk L F : link_inv lk L F -> zlen (wire_batches crc32c codec_raw (drop (length F) L)) < link_max_bytes -> (length L <= length F + n)%nat ->
  exists lk' F', rounds n lk = Some lk' /\ link_inv lk' L F' /\ map seal F' = map seal L.
Proof.
  revert lk F. induction n as [|n IH]; intros lk F Hi Hz Hn; cbn [rounds].
  - exists lk, F. split; [done|]. split; [done|]. destruct (prefix_length _ _ (li_prefix _ _ _ Hi)) as [Hle ->]. f_equal. apply take_ge. lia.
  - destruct (round_spec _ _ _ Hi Hz) as (lk1 & F1 & E & Hi1 & Hle & Hlt). rewrite E.
    assert (zlen (wire_batches crc32c codec_raw (drop (length F1) L)) < link_max_bytes) as Hz1.
    { replace (length F1) with (length F + (length F1 - length F))%nat by lia. rewrite <-drop_drop.
      set (M := drop (length F) L) in *. rewrite <-(take_drop (length F1 - length F) M) in Hz. unfold wire_batches in *. rewrite map_app, concat_app, zlen_app in Hz.
      pose proof (zlen_nonneg (concat (map (wire_batch crc32c codec_raw) (take (length F1 - length F) M)))). lia. }
    apply (IH lk1 F1 Hi1 Hz1). destruct (decide (length F < length L)%nat); [specialize (Hlt ltac:(done))|]; lia.
Qed.
End link.

(** ** Claims *)

(** An end before its first connection. *)
Definition mirror_end_new {S} (leader : LeaderReplicaState S) : MirrorEnd S := MkMirrorEnd leader (-1) false false [].

Lemma link_inv_new crc32c {S : Type} `{!ReplicaStorage S} `{!ReplicaStorageOK crc32c S} limit to_remote (ls lt : LeaderReplicaState S) L F :
  leader_ok crc32c ls limit L -> leader_ok crc32c lt limit F -> is_prefix crc32c F L ->
  link_inv crc32c limit to_remote (MkLink (mirror_end_new ls) (mirror_end_new lt)) L F.
Proof.
  intros Hs Ht Hp. split; cbn; try done; [|by intros ? ?%elem_of_nil..]. destruct (sh_ok_log _ _ _ _ (proj1 Ht)) as (_ & _ & ?). lia.
Qed.

(** C12: if the log of the target of a mirrored partition begins as a prefix of
    that of the source, nothing is evicted from either and no message is cut:
    however the source and the target take their steps, and in whatever order
    and however often the messages between them are received or lost, the log
    of the target is a prefix of that of the source; and neither end fails: the
    source can read what it is to send, it never finds that the target has more
    records, and the target takes what it is sent.  What eviction at the source
    does is in [evicted_not_mirrored]. *)
Theorem mirror_safe (crc32c : list byte -> Z) {S : Type} `{!ReplicaStorage S} `{!ReplicaStorageOK crc32c S}
    (limit : Z) (to_remote : bool) (ls lt : LeaderReplicaState S) (L F : list RawBatch) (lk : Link) :
  (forall x, in_u 32 (crc32c x)) -> leader_ok crc32c ls limit L -> leader_ok crc32c lt limit F -> is_prefix crc32c F L ->
  link_reach crc32c limit to_remote (MkLink (mirror_end_new ls) (mirror_end_new lt)) lk ->
  (exists L' F', link_inv crc32c limit to_remote lk L' F' /\ sh_ok crc32c (leader_storage (me_leader (lk_source lk))) limit L' /\
     sh_ok crc32c (leader_storage (me_leader (lk_target lk))) limit F' /\ is_prefix crc32c F' L') /\
  (exists src, link_source_update to_remote (lk_source lk) = (Ok tt, src)) /\
  (forall o, Sent (UpdateOffset o) ∈ me_effects (lk_target lk) ->
     exists src, link_source_event to_remote (Received (UpdateOffset o)) (lk_source lk) = (Ok true, src)) /\
  (forall req, Sent (SyncRecords req) ∈ me_effects (lk_source lk) -> zlen (sync_records req) < link_max_bytes to_remote ->
     exists tgt, link_target_event crc32c to_remote (Received (SyncRecords req)) (lk_target lk) = (Ok true, tgt)).
Proof.
  intros Hc Hs Ht Hp Hr. destruct (link_reach_inv crc32c Hc limit to_remote _ _ _ _ (link_inv_new _ _ _ _ _ _ _ Hs Ht Hp) Hr) as (L' & F' & Hi).
  destruct lk as [src tgt]. split; [|split; [|split]].
  - exists L', F'. split; [done|]. split; [apply (li_source _ _ _ _ _ _ Hi)|]. split; [apply (li_target _ _ _ _ _ _ Hi)|apply (li_prefix _ _ _ _ _ _ Hi)].
  - destruct (source_update_inv _ _ _ _ _ _ _ Hi) as (src' & E & _). eauto.
  - intros o Ho. destruct (source_report_inv _ _ _ _ _ _ _ o Hi Ho) as (src' & E & _). eauto.
  - intros req Hin Hz. destruct (li_syncs _ _ _ _ _ _ Hi req Hin Hz) as (n & m & Hnm & Ep).
    destruct (target_sync_part crc32c Hc _ _ _ _ _ _ n m req Hi Hnm Ep Hz) as (tgt' & F1 & E & _). eauto.
Qed.

(** C19: A target that is behind catches up: from every state with the invariant,
    which all states that the two ends can reach have, if what is missing fits
    in one message, then after as many exchanges of a report and its answer as
    there are batches missing the target holds exactly the batches of the
    source, and the source still the same ones. *)
Theorem mirror_catches_up (crc32c : list byte -> Z) {S : Type} `{!ReplicaStorage S} `{!ReplicaStorageOK crc32c S}
    (limit : Z) (to_remote : bool) (L F : list RawBatch) (lk : Link) :
  (forall x, in_u 32 (crc32c x)) -> link_inv crc32c limit to_remote lk L F ->
  zlen (wire_batches crc32c codec_raw (drop (length F) L)) < link_max_bytes to_remote ->
  exists lk' F', rounds crc32c to_remote (length L - length F) lk = Some lk' /\
    sh_ok crc32c (leader_storage (me_leader (lk_source lk'))) limit L /\
    sh_ok crc32c (leader_storage (me_leader (lk_target lk'))) limit F' /\ map (sealed crc32c codec_raw) F' = map (sealed crc32c codec_raw) L.
Proof.
  intros Hc Hi Hz. destruct (rounds_spec crc32c Hc limit to_remote (length L - length F) lk L F Hi Hz) as (lk' & F' & E & Hi' & Eq); [lia|].
  exists lk', F'. split; [exact E|]. split; [apply (li_source _ _ _ _ _ _ Hi')|]. split; [apply (li_target _ _ _ _ _ _ Hi')|exact Eq].
Qed.

(** The examples: a source with three batches and a target with none. *)
#[local] Instance mirror_storage : ReplicaStorage FileReplica := FileReplica_Storage 0 sum32.
#[local] Instance mirror_storage_ok : ReplicaStorageOK sum32 FileReplica := FileReplica_OK 0 sum32 sum32_u32.

Lemma example_ends :
  exists (r : FileReplica) (ls lt : LeaderReplicaState FileReplica),
    leader_ok sum32 ls (st_limit r) (number_batches 0 (batches three_batches)) /\ leader_ok sum32 lt (st_limit r) [] /\
    pub_leo (leader_storage ls) = 3 /\ pub_leo (leader_storage lt) = 0.
Proof.
  destruct example_leader as (r & r' & size & _ & _ & Hs & Eo & Hl & El). injection Eo as Eh E0.
  exists r, (MkLeader 1 [1; 2] 2 (sharable_create r') [(2, as_offset (sharable_create r))]), (MkLeader 1 [1] 1 (sharable_create r) []).
  split; [exact Hl|]. split; [split; [exact Hs|split; [done|]]; cbn in *; lia|]. split; [exact El|exact E0].
Qed.

Lemma mirror_safe_witness :
  exists (r : FileReplica) (ls lt : LeaderReplicaState FileReplica) src,
    pub_leo (leader_storage ls) = 3 /\ pub_leo (leader_storage lt) = 0 /\
    link_source_event false (Received (UpdateOffset (as_offset (leader_storage lt)))) (mirror_end_new ls) = (Ok true, src).
Proof.
  destruct example_ends as (r & ls & lt & Hs & Ht & E3 & E0).
  set (tgt := MkMirrorEnd lt (-1) false false [Sent (UpdateOffset (as_offset (leader_storage lt)))]).
  assert (link_reach sum32 (st_limit r) false (MkLink (mirror_end_new ls) (mirror_end_new lt)) (MkLink (mirror_end_new ls) tgt)) as Hreach.
  { eapply link_more; [apply link_start|]. apply link_timer. reflexivity. }
  destruct (mirror_safe sum32 (st_limit r) false ls lt _ [] _ sum32_u32 Hs Ht (is_prefix_nil sum32 _) Hreach) as (_ & _ & Hrep & _).
  destruct (Hrep (as_offset (leader_storage lt))) as [src E]; [by left|]. exists r, ls, lt, src. done.
Defined.

Lemma mirror_catches_up_witness :
  exists (r : FileReplica) (ls lt : LeaderReplicaState FileReplica) lk',
    pub_leo (leader_storage ls) = 3 /\ pub_leo (leader_storage lt) = 0 /\
    rounds sum32 true 3 (MkLink (mirror_end_new ls) (mirror_end_new lt)) = Some lk' /\
    pub_leo (leader_storage (me_leader (lk_target lk'))) = 3.
Proof.
  destruct example_ends as (r & ls & lt & Hs & Ht & E3 & E0).
  destruct (mirror_catches_up sum32 (st_limit r) true (number_batches 0 (batches three_batches)) []
    (MkLink (mirror_end_new ls) (mirror_end_new lt)) sum32_u32) as (lk' & F' & E & _ & HF & Eq).
  - apply (link_inv_new sum32); [exact Hs|exact Ht|apply is_prefix_nil].
  - vm_compute. reflexivity.
  - exists r, ls, lt, lk'. split; [done|]. split; [done|]. split; [exact E|].
    destruct (sh_ok_log _ _ _ _ HF) as (_ & <- & _). rewrite <-(end_from_sealed sum32 0 F'), Eq. vm_compute. reflexivity.
Defined.

(** ** What stops or damages a mirror *)

(** Once the source has removed records that the target does not have, it
    cannot send any others. *)
Theorem evicted_not_mirrored (crc32c : list byte -> Z) {S : Type} `{!ReplicaStorage S} `{!ReplicaStorageOK crc32c S}
    (max_bytes limit start : Z) (src : MirrorEnd S) (L : list RawBatch) :
  sh_ok_from crc32c start (leader_storage (me_leader src)) limit L -> me_peer_leo src < start ->
  update_peer max_bytes (me_peer_leo src) src = (Err (ReadFailed (OffsetEvicted (me_peer_leo src) start)), src).
Proof.
  intros (Hst & El & _) Hlt. destruct (stores_log _ _ _ Hst) as (_ & Hl & He & _). pose proof (end_from_ge codec_raw _ _ Hl). pose proof (zlen_nonneg L).
  unfold update_peer. erewrite bind_ok by done. unfold lift, mbind, M_bind, generate_records. cbn [as_offset info_leo hw].
  rewrite (proj2 (Z.eqb_neq _ _)), (proj2 (Z.ltb_lt _ _)) by lia. unfold sh_read_records. by rewrite (stores_evicted _ _ _ _ _ _ Hst Hlt).
Qed.

(** The source does not take note that the target has caught up: after the next
    change it sends again what it has sent before. *)
Theorem caught_up_not_noted {S : Type} `{!ReplicaStorage S} (src : MirrorEnd S) :
  0 <= me_peer_leo src -> update_from_peer (pub_leo (leader_storage (me_leader src))) src = (Ok false, src).
Proof.
  intros Hp. unfold update_from_peer. erewrite bind_ok by done. cbv zeta. rewrite (proj2 (Z.ltb_ge _ _)) by lia. erewrite bind_ok by done.
  by rewrite Z.compare_refl.
Qed.

(** A batch that does not fit in a message is damaged: the target takes its
    first bytes for a complete batch. *)
Theorem cut_mirror_corrupts (crc32c : list byte -> Z) {S : Type} `{!ReplicaStorage S} `{!ReplicaStorageOK crc32c S}
    (limit max_bytes : Z) (ls : LeaderReplicaState S) (tgt : MirrorEnd S) (L1 L2 F : list RawBatch) (b : RawBatch) :
  (forall x, in_u 32 (crc32c x)) -> leader_ok crc32c ls limit (L1 ++ b :: L2) -> leader_ok crc32c (me_leader tgt) limit F ->
  pub_leo (leader_storage (me_leader tgt)) = base_offset b ->
  BATCH_FILE_HEADER_SIZE <= max_bytes < write_size_batch codec_raw 0 b -> max_bytes < 2 ^ 31 -> last_offset_delta (header b) < max_bytes ->
  exists req l', generate_records max_bytes ls (base_offset b) = Ok (Some req) /\
    sync_records_of crc32c req tgt = (Ok tt, set_me_leader l' tgt) /\
    leader_ok crc32c l' limit (F ++ [cut_batch crc32c max_bytes b]).
Proof.
  intros Hc (Hok & Hsend & _) Ht Eleo Hn Hn2 Hd. destruct (sh_ok_log _ _ _ _ Hok) as (Hl & El & Hb).
  assert ((L1 ++ b :: L2) !! length L1 = Some b) as Hlook by (by apply list_lookup_middle).
  destruct (log_from_lookup codec_raw _ _ _ _ Hl Hlook) as (Eb & _).
  pose proof (lookup_lt_Some _ _ _ Hlook) as Hlen. pose proof Hl as Hl0. apply log_from_app in Hl0 as [_ (_ & Hdel & Hv & _)].
  apply Forall_app in Hsend as [_ [Hsb _]%Forall_cons].
  pose proof (offset_at_mono codec_raw 0 _ (length L1) (length (L1 ++ b :: L2)) Hl ltac:(lia)) as Hm. rewrite offset_at_all in Hm.
  pose proof (offset_at_bounds codec_raw 0 _ (length L1) Hl ltac:(lia)) as Hb0.
  destruct Hok as (Hst & Ele & _). destruct (stores_read crc32c _ _ _ (base_offset b) max_bytes Hst) as (sl & data & Er & Ed & Hr); [lia|].
  destruct Hr as (pre & b' & post & k & E & Ho & Edata & _ & Hk). destruct (log_split_unique 0 L1 L2 pre post b b' Hl E) as (<- & <- & <-); [lia|].
  destruct k as [|k]; [exfalso; by specialize (Hk ltac:(done)); lia|].
  unfold generate_records. cbn [as_offset info_leo hw]. rewrite (proj2 (Z.eqb_neq _ _)), (proj2 (Z.ltb_lt _ _)) by lia. unfold sh_read_records. rewrite Er.
  pose proof (storable_size crc32c codec_raw b (base_offset b) (proj1 Hsb) (proj1 Hv)) as Ew. replace (set_base_offset (base_offset b) b) with b in Ew by (by destruct b).
  assert (slice_data sl = ztake max_bytes (wire_batch crc32c codec_raw b)) as Esl by (rewrite Ed, Edata; cbn [take wire_batches map concat]; apply ztake_app_le; lia).
  destruct (decode_cut_batch crc32c Hc COMMON_MIRROR_VERSION max_bytes b Hv (proj1 (proj2 (proj1 Hsb)))) as [Ez Edec]; [lia|done|].
  assert (total_records (MkRecordSet [cut_batch crc32c max_bytes b]) = last_offset_delta (header b) + 1) as Etot.
  { unfold total_records, records_len. cbn. case_ltb; [lia|]. apply wrap_u_id. unfold in_u. lia. }
  destruct (leader_write_appends crc32c (me_leader tgt) limit F [cut_batch crc32c max_bytes b] Ht) as (size & notified & l' & Ewr & Hok' & _).
  { constructor; [by apply cut_batch_sendable|done]. }
  { cbn. rewrite Eleo. pose proof (offset_at_S 0 _ _ _ Hlook). pose proof (offset_at_bounds codec_raw 0 _ (Datatypes.S (length L1)) Hl ltac:(lia)). lia. }
  { lia. }
  eexists _, l'. split; [reflexivity|]. unfold sync_records_of. cbn [sync_records]. rewrite Esl, Ez, Edec. unfold append_record_set.
  erewrite bind_ok by done. cbv beta iota. rewrite Etot, (proj2 (Z.eqb_neq _ _)) by lia.
  cbn [record_set_base_offset batches base_offset cut_batch set_records sealed]. rewrite Eleo, Z.eqb_refl. cbn [negb].
  erewrite bind_ok by exact Ewr. split; [done|]. cbv zeta in Hok'. cbn [number_batches] in Hok'. rewrite Eleo in Hok'. exact Hok'.
Qed.
