(* ===== verification/PrivateServer.v ===== *)
(** * The connections of SPUs at the controller

    [fluvio-sc/src/services/private_api/private_server.rs]: an SPU registers,
    is told of the specs of the cluster and sends its statuses; the connection
    ends with its stream, with an error or when nothing is heard for
    [HEALTH_DURATION].  The health of an SPU follows its connections, its
    status follows the health ([controllers/spus/controller.rs]) and the
    leaders of partitions follow the statuses
    ([controllers/partitions/reducer.rs]).

    The connections run beside each other, so that a run of the server is a
    sequence of events of its connections.  A registration with its answer, a
    round of sends, and a branch of the select with what it does are an event
    each, and each event sees the stores at one instant. *)

From S2P Require Import Prelude Names EpochMap MetadataStore MetadataSync ClusterTypes SpuStore SpuControl Topics ScPartitions.
From S2P Require Import Auth AdminTypes AdminApi.
From stdpp Require Import gmap strings list.

#[local] Open Scope Z_scope.

(** ** Requests *)

(* src/crates/fluvio-controlplane/src/sc_api/update_mirror.rs:44-47 MirrorStatRequest *)
Record MirrorStatRequest := MkMirrorStat { stat_mirror_id : string; stat_status : MirrorStatus }.
(* src/crates/fluvio-controlplane/src/sc_api/api.rs:36-47 InternalScRequest *)
Inductive InternalScRequest :=
| RegisterSpuRequest (spu : Z)
| UpdateLrsRequest (requests : list LrsRequest)
| ReplicaRemovedRequest (id : ReplicaKey) (confirm : bool)
| UpdateMirrorStatRequest (stats : list MirrorStatRequest)
| UpdatePartitionStatRequest (stats : list (ReplicaKey * PartitionResolution)).
(** What the stream of a connection gives: its end, an error or a request. *)
Inductive ApiNext := StreamEnd | NoContent | Request (request : InternalScRequest).

(* src/crates/fluvio-controlplane/src/spu_api/update_smartmodule.rs:28-31 SmartModule *)
Record ControlSmartModule (V : Type) := MkControlSmartModule { csm_name : string; csm_spec : SmartModuleSpec V }.
Arguments MkControlSmartModule {V}.
(* src/crates/fluvio-controlplane/src/spu_api/update_mirror.rs:14-17 Mirror *)
Record ControlMirror := MkControlMirror { cm_name : string; cm_spec : MirrorSpec }.

Section server.
Context {C : Type} `{!MetadataItem C} {V : Type}.
Notation ScContext := (ScContext C V).

(* src/crates/fluvio-controlplane/src/spu_api/update_smartmodule.rs:43-47 SmartModule::from *)
Definition smartmodule_into (mso : MetadataStoreObject string (SmartModuleSpec V) unit C) : ControlSmartModule V :=
  MkControlSmartModule (obj_key mso) (obj_spec mso).
(* src/crates/fluvio-controlplane/src/spu_api/update_mirror.rs:36-40 Mirror::from *)
Definition mirror_into (mso : MetadataStoreObject string MirrorSpec MirrorStatus C) : ControlMirror :=
  MkControlMirror (obj_key mso) (obj_spec mso).

(* src/crates/fluvio-sc/src/services/private_api/private_server.rs:302-339 receive_mirror_update *)
Definition receive_mirror_update (stats : list MirrorStatRequest) (mirrors : LocalStore string MirrorSpec MirrorStatus C)
    : list (WSAction string MirrorSpec MirrorStatus C) :=
  default [] (convert_all (fun stat =>
    mirror ← values (store mirrors) !! stat_mirror_id stat;
    Some (UpdateStatus (stat_mirror_id stat) (merge_from_spu (stat_status stat) (obj_status (dual_inner mirror))))) stats).
(* src/crates/fluvio-sc/src/stores/spu/store.rs:181-188 SpuLocalStore::validate_spu_for_registered *)
Definition validate_spu_for_registered (id : Z) (spus : LocalStore string SpuSpec SpuStatus C) : bool :=
  existsb (fun spu => spu_id (obj_spec spu) =? id) (clone_values (store spus)).

(** ** A connection *)

(* src/crates/fluvio-sc/src/services/private_api/private_server.rs:48-48 HEALTH_DURATION *)
Definition HEALTH_DURATION : Z := 90.
(** The listeners, the time at which the timer expires, and whether the task
    is at the top of its loop or waits. *)
(* src/crates/fluvio-sc/src/services/private_api/private_server.rs:134-141 dispatch_loop (state) *)
Record Conn := MkConn {
  conn_spu : Z;
  spu_listener : ChangeListener;
  partition_listener : ChangeListener;
  sm_listener : ChangeListener;
  mirror_listener : ChangeListener;
  health_check_timer : Z;
  waiting : bool;
}.
Definition conn_new (spu now : Z) : Conn :=
  MkConn spu listener_new listener_new listener_new listener_new (now + HEALTH_DURATION) false.

(** What is sent to the SPU. *)
Inductive ScPush :=
| PushSpus (request : ControlPlaneRequest SpuSpec)
| PushSmartModules (request : ControlPlaneRequest (ControlSmartModule V))
| PushReplicas (request : ControlPlaneRequest Replica)
| PushMirrors (request : ControlPlaneRequest ControlMirror).
(** What is asked of the metadata. *)
Inductive ServerAction :=
| OnPartitionStatus (action : WSAction ReplicaKey PartitionSpec PartitionStatus C)
| OnMirrorStatus (action : WSAction string MirrorSpec MirrorStatus C).

(** The sink takes a message or fails. *)
Definition sink_request (sink : ScPush -> bool) (message : option ScPush) : ME string (list ScPush) unit :=
  match message with
  | Some message => if sink message then modify (fun sent => sent ++ [message]) else fail "socket"%string
  | None => mret tt
  end.
(* src/crates/fluvio-sc/src/services/private_api/private_server.rs:147-150 dispatch_loop (sends) *)
Definition send_updates (sink : ScPush -> bool) (ctx : ScContext) (c : Conn) : ME string (list ScPush) Conn :=
  let '(spus, l1) := send_spu_spec_changes (spu_listener c) (sc_spus ctx) in
  sink_request sink (PushSpus <$> spus);;
  let '(sms, l2) := send_smartmodule_changes smartmodule_into (sm_listener c) (sc_smartmodules ctx) in
  sink_request sink (PushSmartModules <$> sms);;
  let '(replicas, l3) := send_replica_spec_changes (partition_listener c) (sc_partitions ctx) in
  sink_request sink (PushReplicas <$> replicas);;
  let '(mirrors, l4) := send_mirror_changes mirror_into (mirror_listener c) (sc_mirrors ctx) in
  sink_request sink (PushMirrors <$> mirrors);;
  mret (MkConn (conn_spu c) l1 l3 l2 l4 (health_check_timer c) true).

(** The branch of the select that is taken. *)
Inductive Selected := TimerExpired | FromSpu (next : ApiNext) | SpecsChanged.
(** Whether it can be taken: the SmartModules are not listened to. *)
Definition ready (now : Z) (ctx : ScContext) (c : Conn) (s : Selected) : bool :=
  match s with
  | TimerExpired => health_check_timer c <=? now
  | FromSpu _ => true
  | SpecsChanged =>
      has_change (spu_listener c) (sc_spus ctx) || has_change (partition_listener c) (sc_partitions ctx)
      || has_change (mirror_listener c) (sc_mirrors ctx)
  end.
Definition again (timer : Z) (c : Conn) : Conn :=
  MkConn (conn_spu c) (spu_listener c) (partition_listener c) (sm_listener c) (mirror_listener c) timer false.
(* src/crates/fluvio-sc/src/services/private_api/private_server.rs:167-184 dispatch_loop (requests) *)
Definition receive (ctx : ScContext) (request : InternalScRequest) : option (list ServerAction) :=
  match request with
  | UpdateLrsRequest requests => Some (map OnPartitionStatus (receive_lrs_update requests (sc_partitions ctx)))
  | RegisterSpuRequest _ => None
  | ReplicaRemovedRequest id confirm => Some (map OnPartitionStatus (receive_replica_remove id confirm (sc_partitions ctx)))
  | UpdateMirrorStatRequest stats => Some (map OnMirrorStatus (receive_mirror_update stats (sc_mirrors ctx)))
  | UpdatePartitionStatRequest stats => Some (map OnPartitionStatus (receive_partition_status_update stats (sc_partitions ctx)))
  end.
(** The loop goes on with a connection, or is over. *)
(* src/crates/fluvio-sc/src/services/private_api/private_server.rs:154-214 dispatch_loop (select) *)
Definition select (now : Z) (ctx : ScContext) (s : Selected) (c : Conn) : option Conn * list ServerAction :=
  match s with
  | TimerExpired => (None, [])
  | FromSpu (Request request) =>
      match receive ctx request with
      | Some actions => (Some (again (now + HEALTH_DURATION) c), actions)
      | None => (None, [])
      end
  | FromSpu NoContent => (None, [])
  | FromSpu StreamEnd => (None, [])
  | SpecsChanged => (Some (again (health_check_timer c) c), [])
  end.

(** ** The server *)

(** The connections that are in their loop. *)
Record Server := MkServer { now : Z; ctx : ScContext; health_check : HealthCheck; conns : gmap nat Conn }.
(* src/crates/fluvio-sc/src/stores/spu/mod.rs:63-68 HealthCheck::new *)
Definition health_new : HealthCheck := MkHealthCheck ∅ 0.
Definition server_new (now : Z) (ctx : ScContext) : Server := MkServer now ctx health_new ∅.

(** The part of [respond] before the loop: the first request is a
    registration of an SPU that there is, and the answer is sent. *)
(* src/crates/fluvio-sc/src/services/private_api/private_server.rs:80-103 respond (registration) *)
Definition register (first : ApiNext) (answered : bool) (ctx : ScContext) : option Z :=
  match first with
  | Request (RegisterSpuRequest spu_id) =>
      if validate_spu_for_registered spu_id (sc_spus ctx) && answered then Some spu_id else None
  | _ => None
  end.
(* src/crates/fluvio-sc/src/services/private_api/private_server.rs:105-109 respond (connected) *)
Definition connected (id : nat) (spu_id : Z) (self : Server) : Server :=
  MkServer (now self) (ctx self) (health_update spu_id true (health_check self))
    (<[id := conn_new spu_id (now self)]> (conns self)).
(* src/crates/fluvio-sc/src/services/private_api/private_server.rs:111-117 respond (terminating) *)
Definition terminating (id : nat) (c : Conn) (self : Server) : Server :=
  MkServer (now self) (ctx self) (health_update (conn_spu c) false (health_check self)) (delete id (conns self)).
Definition continued (id : nat) (c : Conn) (self : Server) : Server :=
  MkServer (now self) (ctx self) (health_check self) (<[id := c]> (conns self)).

Inductive Event :=
| Passes (seconds : Z)
| StoresChange (ctx : ScContext)
| Connects (id : nat) (first : ApiNext) (answered : bool)
| Sends (id : nat) (sink : ScPush -> bool)
| Selects (id : nat) (selected : Selected).
(** The server after an event; [None] when the event cannot be. *)
(* src/crates/fluvio-sc/src/services/private_api/private_server.rs:70-120 ScInternalService::respond *)
Definition server_step (e : Event) (self : Server) : option Server :=
  match e with
  | Passes seconds => if 0 <=? seconds then Some (MkServer (now self + seconds) (ctx self) (health_check self) (conns self)) else None
  | StoresChange ctx => Some (MkServer (now self) ctx (health_check self) (conns self))
  | Connects id first answered =>
      match conns self !! id with
      | Some _ => None
      | None =>
          match register first answered (ctx self) with
          | Some spu_id => Some (connected id spu_id self)
          | None => Some self
          end
      end
  | Sends id sink =>
      match conns self !! id with
      | Some c =>
          if waiting c then None
          else match fst (send_updates sink (ctx self) c []) with
               | Ok c' => Some (continued id c' self)
               | _ => Some (terminating id c self)
               end
      | None => None
      end
  | Selects id selected =>
      match conns self !! id with
      | Some c =>
          if waiting c && ready (now self) (ctx self) c selected then
            match fst (select (now self) (ctx self) selected c) with
            | Some c' => Some (continued id c' self)
            | None => Some (terminating id c self)
            end
          else None
      | None => None
      end
  end.
Fixpoint run (es : list Event) (self : Server) : option Server :=
  match es with
  | [] => Some self
  | e :: es => match server_step e self with Some self => run es self | None => None end
  end.

(** An SPU that has a connection, as the server knows it. *)
Definition has_connection (self : Server) (spu : Z) : Prop := exists id c, conns self !! id = Some c /\ conn_spu c = spu.
Definition connectedb (self : Server) (spu : Z) : bool := existsb (fun ic => conn_spu (snd ic) =? spu) (map_to_list (conns self)).
(** No SPU connects while the server has a connection of it. *)
Fixpoint one_connection (es : list Event) (self : Server) : bool :=
  match es with
  | [] => true
  | e :: es =>
      match e with
      | Connects _ first answered =>
          match register first answered (ctx self) with Some spu => negb (connectedb self spu) | None => true end
      | _ => true
      end &&
      match server_step e self with Some self => one_connection es self | None => true end
  end.
End server.

Arguments Server : clear implicits.
Arguments Event : clear implicits.
Arguments ScPush : clear implicits.

(** ** The health of SPUs follows their connections *)

Section laws.
Context {C : Type} `{!MetadataItem C} {V : Type}.
Implicit Types (s : Server C V) (e : Event C V) (es : list (Event C V)).

Lemma health_update_lookup spu b h x :
  health (health_update spu b h) !! x = if decide (x = spu) then Some b else health h !! x.
Proof. cbn. destruct (decide (x = spu)) as [->|?]; [by rewrite lookup_insert_eq|by rewrite lookup_insert_ne]. Qed.

Lemma bind_inv {E S A B} (m : ME E S A) (f : A -> ME E S B) (s : S) (b : B) (s' : S) :
  (m ≫= f) s = (Ok b, s') -> exists a (s1 : S), m s = (Ok a, s1) /\ f a s1 = (Ok b, s').
Proof. unfold mbind, M_bind. destruct (m s) as [[a|?|] s1] eqn:Em; [|done..]. by exists a, s1. Qed.
Lemma send_updates_spu sink ctx c sent c' sent' :
  send_updates (C := C) (V := V) sink ctx c sent = (Ok c', sent') ->
  conn_spu c' = conn_spu c /\ health_check_timer c' = health_check_timer c.
Proof.
  unfold send_updates. repeat (destruct (send_spu_spec_changes _ _) || destruct (send_smartmodule_changes _ _ _)
    || destruct (send_replica_spec_changes _ _) || destruct (send_mirror_changes _ _ _)). intros H.
  do 4 (apply bind_inv in H as (? & ? & _ & H)). by injection H as <- <-.
Qed.

Lemma select_conn now ctx sel c c' :
  fst (select (C := C) (V := V) now ctx sel c) = Some c' ->
  conn_spu c' = conn_spu c /\ (health_check_timer c' = health_check_timer c \/ health_check_timer c' = now + HEALTH_DURATION).
Proof.
  destruct sel as [|[| |r]|]; cbn; try done.
  - destruct (receive ctx r); [|done]. intros [= <-]. cbn. auto.
  - intros [= <-]. cbn. auto.
Qed.

(** The effects of an event: a connection begins, ends or goes on for the
    same SPU, or nothing happens to the connections. *)
Inductive effect s : Event C V -> Server C V -> Prop :=
| effect_none e s' : health_check s' = health_check s -> conns s' = conns s -> now s <= now s' -> effect s e s'
| effect_connected id first answered spu : conns s !! id = None -> register first answered (ctx s) = Some spu ->
    effect s (Connects id first answered) (connected id spu s)
| effect_continued e id c c' : conns s !! id = Some c -> conn_spu c' = conn_spu c ->
    (health_check_timer c' = health_check_timer c \/ health_check_timer c' = now s + HEALTH_DURATION) -> effect s e (continued id c' s)
| effect_terminating e id c : conns s !! id = Some c -> effect s e (terminating id c s).

Lemma step_effect e s s' : server_step e s = Some s' -> effect s e s'.
Proof.
  destruct e as [d|ctx'|id first answered|id sink|id sel]; cbn.
  - destruct (Z.leb_spec 0 d); [|done]. intros [= <-]. apply effect_none; cbn; [done..|lia].
  - intros [= <-]. apply effect_none; cbn; [done..|lia].
  - destruct (conns s !! id) eqn:E; [done|]. destruct (register _ _ _) eqn:Er; intros [= <-]; [by apply effect_connected|].
    apply effect_none; [done..|lia].
  - destruct (conns s !! id) as [c|] eqn:E; [|done]. destruct (waiting c); [done|].
    destruct (send_updates sink (ctx s) c []) as [[c'|?|] ?] eqn:Es; intros [= <-]; try by apply effect_terminating.
    apply send_updates_spu in Es as [? ?]. apply (effect_continued s _ id c); auto.
  - destruct (conns s !! id) as [c|] eqn:E; [|done]. destruct (_ && _); [|done].
    destruct (fst (select _ _ _ _)) as [c'|] eqn:Es; intros [= <-]; [|by apply effect_terminating].
    apply select_conn in Es as [? ?]. by apply (effect_continued s _ id c).
Qed.

(** Whatever the connections do, a healthy SPU has one, and a timer is at
    most [HEALTH_DURATION] away. *)
Definition server_ok s : Prop :=
  (forall spu, health (health_check s) !! spu = Some true -> has_connection s spu) /\
  (forall id c, conns s !! id = Some c -> health_check_timer c <= now s + HEALTH_DURATION).
(** When no SPU has two connections, an SPU with a connection is healthy. *)
Definition sole s : Prop :=
  (forall id c, conns s !! id = Some c -> health (health_check s) !! conn_spu c = Some true) /\
  (forall id id' c c', conns s !! id = Some c -> conns s !! id' = Some c' -> conn_spu c = conn_spu c' -> id = id').

Lemma effect_ok e s s' : effect s e s' -> server_ok s -> server_ok s'.
Proof.
  intros He [Hh Ht]. destruct He as [e s' Eh Ec Hn|id first answered spu Hid Hr|e id c c' Hid Hspu Htimer|e id c Hid]; split.
  - intros spu. unfold has_connection. rewrite Eh, Ec. apply Hh.
  - intros id c. rewrite Ec. intros Hc. specialize (Ht id c Hc). lia.
  - intros x. unfold has_connection. cbn [connected health_check conns]. rewrite health_update_lookup. destruct (decide (x = spu)) as [->|].
    + intros _. exists id, (conn_new spu (now s)). by rewrite lookup_insert_eq.
    + intros (id' & c & Hc & E)%Hh. exists id', c. split; [|done]. rewrite lookup_insert_ne; [done|congruence].
  - intros id' c. cbn. intros [[<- <-]|[_ Hc]]%lookup_insert_Some; [cbn; lia|by apply (Ht id')].
  - intros x (id' & d & Hd & E)%Hh. destruct (decide (id' = id)) as [->|?].
    + exists id, c'. cbn. rewrite lookup_insert_eq. split; congruence.
    + exists id', d. cbn. by rewrite lookup_insert_ne.
  - intros id' d. cbn. intros [[<- <-]|[_ Hd]]%lookup_insert_Some; [|by apply (Ht id')]. specialize (Ht id c Hid). lia.
  - intros x. unfold has_connection. cbn [terminating health_check conns]. rewrite health_update_lookup. destruct (decide (x = conn_spu c)); [done|].
    intros (id' & d & Hd & E)%Hh. exists id', d. split; [|done]. rewrite lookup_delete_ne; [done|congruence].
  - intros id' d. cbn. intros [_ Hd]%lookup_delete_Some. by apply (Ht id').
Qed.

Lemma connected_sole s id spu : conns s !! id = None -> ~ has_connection s spu -> sole s -> sole (connected id spu s).
Proof.
  intros Hid Hno [Hh Hu]. split.
  - intros id' c. cbn [connected health_check conns]. rewrite health_update_lookup.
    intros [[<- <-]|[_ Hc]]%lookup_insert_Some; cbn; [by rewrite decide_True|]. destruct (decide _); [done|]. by apply (Hh id').
  - intros i j c d. cbn. intros [[<- <-]|[_ Hc]]%lookup_insert_Some [[<- <-]|[_ Hd]]%lookup_insert_Some E; cbn in E; [done|..].
    + destruct Hno. by exists j, d.
    + destruct Hno. by exists i, c.
    + by apply (Hu i j c d).
Qed.
Lemma continued_sole s id c c' : conns s !! id = Some c -> conn_spu c' = conn_spu c -> sole s -> sole (continued id c' s).
Proof.
  intros Hid Hspu [Hh Hu]. split.
  - intros id' d. cbn. intros [[<- <-]|[_ Hd]]%lookup_insert_Some; [rewrite Hspu; by apply (Hh id)|by apply (Hh id')].
  - intros i j d d'. cbn. intros [[<- <-]|[_ Hd]]%lookup_insert_Some [[<- <-]|[_ Hd']]%lookup_insert_Some E; [done|..].
    + apply (Hu id j c d'); congruence.
    + apply (Hu i id d c); congruence.
    + by apply (Hu i j d d').
Qed.
Lemma terminating_sole s id c : conns s !! id = Some c -> sole s -> sole (terminating id c s).
Proof.
  intros Hid [Hh Hu]. split.
  - intros id' d. cbn [terminating health_check conns]. rewrite health_update_lookup. intros [Hne Hd]%lookup_delete_Some.
    destruct (decide _) as [E|]; [|by apply (Hh id')]. destruct Hne. by apply (Hu id id' c d).
  - intros i j d d'. cbn. intros [_ Hd]%lookup_delete_Some [_ Hd']%lookup_delete_Some. by apply (Hu i j d d').
Qed.

Lemma connectedb_spec s spu : connectedb s spu = true <-> has_connection s spu.
Proof.
  unfold connectedb, has_connection. rewrite existsb_exists. split.
  - intros ([id c] & Hin%list_elem_of_In%elem_of_map_to_list & E%Z.eqb_eq). by exists id, c.
  - intros (id & c & Hc & E). exists (id, c). split; [by apply list_elem_of_In, elem_of_map_to_list|by apply Z.eqb_eq].
Qed.
Lemma server_run_ok es s s'  : run es s = Some s' -> server_ok s -> server_ok s'.
Proof.
  revert s. induction es as [|e es IH]; cbn; intros s; [by intros [= <-]|].
  destruct (server_step e s) as [s1|] eqn:E; [|done]. intros Hr Hok. apply (IH s1 Hr), (effect_ok e s); [|done]. by apply step_effect.
Qed.
Lemma run_sole es s s' : run es s = Some s' -> one_connection es s = true -> sole s -> sole s'.
Proof.
  revert s. induction es as [|e es IH]; cbn; intros s; [by intros [= <-]|].
  destruct (server_step e s) as [s1|] eqn:E; [|done]. intros Hr [Hone Hrest]%andb_prop Hs. apply (IH s1 Hr Hrest).
  destruct (step_effect e s s1 E) as [e s1 Eh Ec _|id first answered spu Hid Er|e id c c' Hid Hspu _|e id c Hid].
  - unfold sole. by rewrite Eh, Ec.
  - rewrite Er in Hone. apply connected_sole; [done| |done]. intros Hc%connectedb_spec. by rewrite Hc in Hone.
  - by apply (continued_sole s id c).
  - by apply terminating_sole.
Qed.

Lemma server_new_ok t ctx0 : server_ok (server_new t ctx0) /\ sole (server_new t ctx0).
Proof. by split; split. Qed.

(** Health and connections agree. *)
Lemma healthy_connected s spu : server_ok s -> sole s -> health (health_check s) !! spu = Some true <-> has_connection s spu.
Proof. intros [Hh _] [Hs _]. split; [apply Hh|]. intros (id & c & Hc & <-). by apply (Hs id). Qed.

(** ** Statuses follow the health *)

Notation Spu := (MetadataStoreObject string SpuSpec SpuStatus C).
Lemma set_health_status b st : spu_is_init (set_health b st) = false /\ spu_is_online (set_health b st) = b.
Proof. by destruct b. Qed.
(** The status of an SPU that was heard of is its health, or is changed to it. *)
Lemma sync_store_spec spus (h : HealthCheck) (spu : Spu) b :
  spu ∈ clone_values (store spus) -> health h !! spu_id (obj_spec spu) = Some b ->
  (spu_is_init (obj_status spu) = false /\ spu_is_online (obj_status spu) = b) \/
  UpdateStatus (obj_key spu) (set_health b (obj_status spu)) ∈ sync_store spus h.
Proof.
  intros Hin Hb. destruct (spu_is_init (obj_status spu)) eqn:Ei; [right|destruct (decide (spu_is_online (obj_status spu) = b)); [by left|right]];
    apply list_elem_of_omap; exists spu; (split; [done|]); rewrite Hb; cbn; rewrite Ei; [done|].
  by destruct (spu_is_online _), b.
Qed.

(** The counter that wakes the controller moves with the health. *)
Lemma health_update_event spu b h :
  0 <= health_event h < 2 ^ 63 - 1 ->
  health_update spu b h = h \/ health_event (health_update spu b h) = health_event h + 1.
Proof.
  intros Hr. destruct h as [m n]. unfold health_update. cbn in *.
  assert (as_i64 (n + 1) = n + 1) as E by (apply wrap_i_id; [done|split; cbn; lia]).
  destruct (m !! spu) as [b'|] eqn:El; [|by right]. destruct (Bool.eqb b b') eqn:Eb; cbn; [left|by right].
  apply Bool.eqb_prop in Eb as ->. by rewrite insert_id.
Qed.
Lemma effect_event e s s' :
  effect s e s' -> 0 <= health_event (health_check s) < 2 ^ 63 - 1 ->
  health_check s' = health_check s \/ health_event (health_check s') = health_event (health_check s) + 1.
Proof. intros [] ?; cbn; auto using health_update_event. Qed.
Lemma health_noticed es s s' :
  run es s = Some s' -> 0 <= health_event (health_check s) -> health_event (health_check s) + zlen es < 2 ^ 63 ->
  health_event (health_check s') <= health_event (health_check s) + zlen es /\
  (health_check s' = health_check s \/ health_event (health_check s) < health_event (health_check s')).
Proof.
  revert s. induction es as [|e es IH]; cbn [run]; intros s; [intros [= <-]; split; [unfold zlen; cbn; lia|by left]|].
  destruct (server_step e s) as [s1|] eqn:E; [|done]. intros Hr H0 Hl. rewrite zlen_cons in *.
  pose proof (zlen_nonneg es). specialize (IH s1 Hr).
  destruct (effect_event e s s1 (step_effect _ _ _ E)) as [E1|E1]; [lia| |]; rewrite E1 in IH.
  - destruct IH as [? ?]; [lia..|]. split; [lia|done].
  - destruct IH as [? [E2|?]]; [lia..| |]; (split; [lia|right]); [rewrite E2|]; lia.
Qed.

(** ** Silence *)

Lemma silent_ends s id c :
  server_ok s -> sole s -> conns s !! id = Some c -> waiting c = true ->
  exists s', run [Passes HEALTH_DURATION; Selects id TimerExpired] s = Some s' /\
    health (health_check s') !! conn_spu c = Some false /\ ~ has_connection s' (conn_spu c).
Proof.
  intros [Hh Ht] [_ Hu] Hc Hw. eexists. split; [|split].
  - cbn. rewrite Hc, Hw. cbn. specialize (Ht id c Hc). destruct (Z.leb_spec (health_check_timer c) (now s + HEALTH_DURATION)); [done|lia].
  - cbn. by rewrite lookup_insert_eq.
  - intros (id' & d & Hd & E). cbn in Hd. apply lookup_delete_Some in Hd as [Hne Hd]. destruct Hne. by apply (Hu id id' c d).
Qed.

(** ** Leaders follow the statuses *)

Lemma settled_status s (spu : MetadataStoreObject string SpuSpec SpuStatus C) :
  server_ok s -> sole s -> sync_store (sc_spus (ctx s)) (health_check s) = [] ->
  spu ∈ clone_values (store (sc_spus (ctx s))) -> is_Some (health (health_check s) !! spu_id (obj_spec spu)) ->
  spu_is_init (obj_status spu) = false /\ (spu_is_online (obj_status spu) = true <-> has_connection s (spu_id (obj_spec spu))).
Proof.
  intros Hok Hs Hsync Hin [b Hb]. rewrite <-(healthy_connected s _ Hok Hs), Hb.
  destruct (sync_store_spec _ _ _ _ Hin Hb) as [[? ->]|Hu]; [|rewrite Hsync in Hu; by apply not_elem_of_nil in Hu].
  split; [done|]. naive_solver.
Qed.
Lemma settled_online s id :
  server_ok s -> sole s -> sync_store (sc_spus (ctx s)) (health_check s) = [] ->
  (forall spu, spu ∈ clone_values (store (sc_spus (ctx s))) -> is_Some (health (health_check s) !! spu_id (obj_spec spu))) ->
  id ∈ online_status (sc_spus (ctx s)) -> has_connection s id.
Proof.
  intros Hok Hs Hsync Hk Hin. unfold online_status in Hin.
  apply elem_of_list_to_set, list_elem_of_fmap in Hin as (spu & -> & [Hin Ho]%list_elem_of_In%List.filter_In).
  apply list_elem_of_In in Hin. by apply (settled_status s spu Hok Hs Hsync Hin (Hk spu Hin)).
Qed.
End laws.

(** C13: the leaders of partitions follow the connections of SPUs.  In a run
    in which no SPU has two connections at once, a connection that is silent
    for 90 seconds ends and its SPU is unhealthy; the status of each SPU that
    has been heard of since the controller started says whether it has a
    connection, or is being changed to say so, and the controller is woken by
    each change.  Once the statuses are changed, if every SPU has been heard of
    and no replica is recorded as ahead of its leader, an elected leader has a
    connection and nothing else of the spec changes, and each partition whose
    leader has no connection is given to the online replica with the most
    records, or marked as without a leader when none is close enough. *)
Theorem failover {C : Type} `{!MetadataItem C} {V : Type} (t : Z) (ctx0 : ScContext C V) (es : list (Event C V)) (s : Server C V) :
  run es (server_new t ctx0) = Some s -> one_connection es (server_new t ctx0) = true ->
  let spus := sc_spus (ctx s) in
  (forall id c, conns s !! id = Some c -> waiting c = true ->
     exists s', run [Passes HEALTH_DURATION; Selects id TimerExpired] s = Some s' /\
       health (health_check s') !! conn_spu c = Some false /\ ~ has_connection s' (conn_spu c)) /\
  (forall spu, spu ∈ clone_values (store spus) -> is_Some (health (health_check s) !! spu_id (obj_spec spu)) ->
     exists st, (obj_status spu = st \/ UpdateStatus (obj_key spu) st ∈ sync_store spus (health_check s)) /\
       spu_is_init st = false /\ (spu_is_online st = true <-> has_connection s (spu_id (obj_spec spu)))) /\
  (forall es' s', run es' s = Some s' -> zlen es + zlen es' < 2 ^ 63 ->
     health (health_check s') <> health (health_check s) -> health_event (health_check s') <> health_event (health_check s)) /\
  (sync_store spus (health_check s) = [] ->
   (forall spu, spu ∈ clone_values (store spus) -> is_Some (health (health_check s) !! spu_id (obj_spec spu))) ->
   (forall p, p ∈ clone_values (store (sc_partitions (ctx s))) -> offsets_ok (obj_status p)) ->
   forall changed, changed ⊆ clone_values (store spus) ->
   let actions := update_election_from_spu_changes spus (sc_partitions (ctx s)) changed in
   (forall key spec, UpdateSpec key spec ∈ actions -> has_connection s (ps_leader spec) /\
      exists p, p ∈ clone_values (store (sc_partitions (ctx s))) /\ obj_key p = key /\ only_leader_changed spec (obj_spec p)) /\
   (forall spu p, spu ∈ changed -> ~ has_connection s (spu_id (obj_spec spu)) -> p ∈ clone_values (store (sc_partitions (ctx s))) ->
      ps_leader (obj_spec p) = spu_id (obj_spec spu) -> given_or_offline (online_status spus) p actions)).
Proof.
  intros Hr Hone. cbv zeta.
  assert (server_ok s) as Hok by by apply (server_run_ok es (server_new t ctx0)); [|apply server_new_ok].
  assert (sole s) as Hs by by apply (run_sole es (server_new t ctx0)); [| |apply server_new_ok].
  split_and!.
  - intros id c. by apply silent_ends.
  - intros spu Hin [b Hb]. pose proof (healthy_connected s (spu_id (obj_spec spu)) Hok Hs) as Hc. rewrite Hb in Hc.
    destruct (sync_store_spec _ _ _ _ Hin Hb) as [[Hi <-]|Hu].
    + exists (obj_status spu). split_and!; [by left|done|rewrite <-Hc; split; congruence].
    + exists (set_health b (obj_status spu)). destruct (set_health_status b (obj_status spu)) as [? ->].
      split_and!; [by right|done|rewrite <-Hc; split; congruence].
  - intros es' s' Hr' Hl Hne E. pose proof (zlen_nonneg es'). pose proof (zlen_nonneg es).
    destruct (health_noticed es (server_new t ctx0) s Hr) as [Hub Hlb]; [cbn; lia..|]. cbn in Hub, Hlb.
    assert (0 <= health_event (health_check s)) by (destruct Hlb as [->|?]; cbn; lia).
    destruct (health_noticed es' s s' Hr') as [_ [Hsame|?]]; [lia..|by rewrite Hsame in Hne|lia].
  - intros Hsync Hk Hp changed Hch.
    assert (forall spu, spu ∈ changed -> spu_is_init (obj_status spu) = false /\
      (spu_is_online (obj_status spu) = true <-> has_connection s (spu_id (obj_spec spu)))) as Hst.
    { intros spu Hin. apply Hch in Hin. by apply (settled_status s spu Hok Hs Hsync Hin), Hk. }
    split.
    + intros key spec (p & l & Hin & Ek & -> & Hl)%elected_leader. split; [|by exists p]. cbn.
      destruct Hl as [Hc|(_ & _ & spu & Hspu & <- & Hon)]; [|by apply Hst].
      apply candidate_elem in Hc as [_ Hon]. by apply settled_online.
    + intros spu p Hin Hno Hpin Hl. apply (offline_handled _ _ changed spu p); [done| |done..|by apply Hp].
      destruct (Hst spu Hin) as [Hi Ho].
      unfold spu_is_init, spu_is_offline, spu_is_online in *. destruct (spu_resolution _); [by destruct Hno; apply Ho|done..].
Qed.

(** SPU 1, the leader of a partition, is silent; SPU 2 has all its records. *)
#[local] Instance server_item : MetadataItem Z := u32_item.
Definition example_ctx (spus : LocalStore string SpuSpec SpuStatus Z) : ScContext Z unit :=
  MkScContext spus example_partition_store store_default store_default store_default store_default store_default.
Definition registers (spu : Z) : ApiNext := Request (RegisterSpuRequest spu).
Definition heard : Selected := FromSpu (Request (UpdateLrsRequest [])).
Definition example_before : LocalStore string SpuSpec SpuStatus Z :=
  snd (sync_all [example_spu_object 1 true; example_spu_object 2 true] store_default).
Definition silence : list (Event Z unit) :=
  [Connects 0 (registers 1) true; Connects 1 (registers 2) true; Sends 0 (fun _ => true); Sends 1 (fun _ => true);
   Passes 60; Selects 1 heard; Passes 30; Selects 0 TimerExpired; StoresChange (example_ctx example_spus)].
Definition silent_server : Server Z unit := default (server_new 0 (example_ctx example_before)) (run silence (server_new 0 (example_ctx example_before))).
Lemma silence_run : run silence (server_new 0 (example_ctx example_before)) = Some silent_server.
Proof. vm_compute. reflexivity. Qed.
Lemma silence_elects :
  update_election_from_spu_changes (sc_spus (ctx silent_server)) (sc_partitions (ctx silent_server)) [example_spu_object 1 false]
    = [UpdateSpec (example_key 0) (partition_spec_new 2 [1; 2])].
Proof. vm_compute. reflexivity. Qed.
Lemma silence_spus : clone_values (store (sc_spus (ctx silent_server))) = [example_spu_object 1 false; example_spu_object 2 true].
Proof. vm_compute. reflexivity. Qed.
Lemma silence_health : health (health_check silent_server) !! 1 = Some false /\ health (health_check silent_server) !! 2 = Some true.
Proof. split; vm_compute; reflexivity. Qed.
Lemma failover_witness :
  run silence (server_new 0 (example_ctx example_before)) = Some silent_server /\
  update_election_from_spu_changes (sc_spus (ctx silent_server)) (sc_partitions (ctx silent_server)) [example_spu_object 1 false]
    = [UpdateSpec (example_key 0) (partition_spec_new 2 [1; 2])] /\
  has_connection silent_server 2.
Proof.
  split; [exact silence_run|]. split; [exact silence_elects|].
  assert (one_connection silence (server_new 0 (example_ctx example_before)) = true) as Hone by (vm_compute; reflexivity).
  assert (sync_store (sc_spus (ctx silent_server)) (health_check silent_server) = []) as Hsync by (vm_compute; reflexivity).
  destruct (failover 0 (example_ctx example_before) silence silent_server silence_run Hone) as (_ & _ & _ & Hlead).
  specialize (Hlead Hsync). rewrite silence_spus in Hlead. destruct silence_health as [H1 H2].
  assert (clone_values (store (sc_partitions (ctx silent_server))) = [example_partition]) as Hparts by (vm_compute; reflexivity).
  destruct (Hlead ltac:(intros spu [->|[->|[]%not_elem_of_nil]%elem_of_cons]%elem_of_cons; [exists false; exact H1|exists true; exact H2])
              ltac:(rewrite Hparts; intros p ->%list_elem_of_singleton; apply example_partition_ok)
              [example_spu_object 1 false]) as [Hl _].
  - intros spu ->%list_elem_of_singleton. apply list_elem_of_here.
  - apply (Hl (example_key 0) (partition_spec_new 2 [1; 2])). rewrite silence_elects. apply list_elem_of_here.
Defined.

(** ** What the health does not see *)

(** The end of a connection that was already replaced marks the SPU as
    unhealthy, though it is connected: the SPU reconnects before the server
    notices that the first connection is dead. *)
Definition reconnection : list (Event Z unit) :=
  [Connects 0 (registers 1) true; Sends 0 (fun _ => true); Connects 1 (registers 1) true; Sends 1 (fun _ => true);
   Passes 60; Selects 1 heard; Passes 30; Selects 0 TimerExpired].
Definition reconnected : Server Z unit :=
  default (server_new 0 (example_ctx example_before)) (run reconnection (server_new 0 (example_ctx example_before))).
Theorem stale_connection_takes_down :
  run reconnection (server_new 0 (example_ctx example_before)) = Some reconnected /\
  has_connection reconnected 1 /\ health (health_check reconnected) !! 1 = Some false /\
  UpdateStatus (show_unsigned 1) (MkSpuStatus SpuOffline) ∈ sync_store (sc_spus (ctx reconnected)) (health_check reconnected).
Proof.
  split; [vm_compute; reflexivity|]. split; [apply connectedb_spec; vm_compute; reflexivity|]. split; [vm_compute; reflexivity|].
  assert (sync_store (sc_spus (ctx reconnected)) (health_check reconnected) = [UpdateStatus (show_unsigned 1) (MkSpuStatus SpuOffline)]) as ->
    by (vm_compute; reflexivity). apply list_elem_of_here.
Qed.

Section absent.
Context {C : Type} `{!MetadataItem C} {V : Type}.

Definition unheard (spu : Z) (s : Server C V) : Prop := ~ has_connection s spu /\ health (health_check s) !! spu = None.
Lemma effect_unheard spu e (s s' : Server C V) :
  effect s e s' -> (forall id answered, e <> Connects id (registers spu) answered) -> unheard spu s -> unheard spu s'.
Proof.
  intros He Hne [Hno Hn]. unfold unheard, has_connection in *.
  destruct He as [e s' Eh Ec _|id first answered x Hid Er|e id c c' Hid Hspu _|e id c Hid].
  - by rewrite Eh, Ec.
  - assert (x <> spu) as Hx.
    { intros ->. destruct first as [| |[]]; try done. cbn in Er. destruct (_ && _); [|done]. injection Er as ->. by apply (Hne id answered). }
    cbn [connected health_check conns]. rewrite health_update_lookup. rewrite decide_False by done. split; [|done].
    intros (id' & c & [[<- <-]|[_ Hc]]%lookup_insert_Some & E); [done|]. apply Hno. by exists id', c.
  - split; [|done]. intros (id' & d & Hd & E). cbn in Hd. apply lookup_insert_Some in Hd as [[<- <-]|[_ Hd]]; apply Hno; [exists id, c|by exists id', d].
    split; congruence.
  - cbn [terminating health_check conns]. rewrite health_update_lookup. rewrite decide_False.
    + split; [|done]. intros (id' & d & [_ Hd]%lookup_delete_Some & E). apply Hno. by exists id', d.
    + intros ->. apply Hno. by exists id, c.
Qed.
Lemma run_unheard spu es (s s' : Server C V) :
  run es s = Some s' -> (forall id answered, Connects id (registers spu) answered ∉ es) -> unheard spu s -> unheard spu s'.
Proof.
  revert s. induction es as [|e es IH]; cbn; intros s; [by intros [= <-]|]. destruct (server_step e s) as [s1|] eqn:E; [|done].
  intros Hr He Hu. apply (IH s1 Hr).
  - intros id answered Hin. apply (He id answered). by apply list_elem_of_further.
  - apply (effect_unheard spu e s); [by apply step_effect| |done]. intros id answered ->. apply (He id answered), list_elem_of_here.
Qed.

(** The health is empty when the controller starts: the status of an SPU that
    does not come back after a restart of the controller is not changed, so
    that it stays online if it was. *)
Theorem absent_spu_keeps_status (t : Z) (ctx0 : ScContext C V) es (s : Server C V) spu key status :
  run es (server_new t ctx0) = Some s -> (forall id answered, Connects id (registers spu) answered ∉ es) ->
  UpdateStatus key status ∈ sync_store (sc_spus (ctx s)) (health_check s) ->
  exists o, o ∈ clone_values (store (sc_spus (ctx s))) /\ obj_key o = key /\ spu_id (obj_spec o) <> spu.
Proof.
  intros Hr He. destruct (run_unheard spu es _ _ Hr He) as [_ Hn]; [by split; [intros (? & ? & ? & _)|]|].
  intros (o & Hin & Ho)%list_elem_of_omap. exists o. split; [done|].
  apply bind_Some in Ho as (b & Eb & Ho). split; [|congruence].
  destruct (spu_is_init _); [by injection Ho|]. destruct (negb _); [by injection Ho|done].
Qed.
End absent.

#[local] Instance package_eq_dec : EqDecision (SmartContext.SmartModulePackage unit).
Proof. solve_decision. Defined.
#[local] Instance wasm_format_eq_dec : EqDecision SmartModuleWasmFormat.
Proof. solve_decision. Defined.
#[local] Instance payload_byte_eq_dec : EqDecision Byte.byte := Byte.byte_eq_dec.
#[local] Instance wasm_eq_dec : EqDecision SmartModuleWasm.
Proof. solve_decision. Defined.
#[local] Instance smartmodule_spec_eq_dec : EqDecision (SmartModuleSpec unit).
Proof. solve_decision. Defined.
(** A change of the SmartModules does not end the wait of a connection,
    though there is something to send: it is sent when something else does. *)
Definition with_smartmodule : ScContext Z unit :=
  MkScContext example_before example_partition_store store_default store_default
    (snd (sync_all [MkObject (MkSmartModuleSpec None None (MkWasm WasmBinary [])) tt "filter"%string (MkContext 1)] store_default))
    store_default store_default.
Definition uploaded : Server Z unit :=
  default (server_new 0 (example_ctx example_before))
    (run [Connects 0 (registers 1) true; Sends 0 (fun _ => true); StoresChange with_smartmodule] (server_new 0 (example_ctx example_before))).
Theorem smartmodule_change_waits :
  exists c, conns uploaded !! 0%nat = Some c /\ has_change (sm_listener c) (sc_smartmodules (ctx uploaded)) = true /\
    server_step (Selects 0 SpecsChanged) uploaded = None /\ server_step (Selects 0 TimerExpired) uploaded = None.
Proof. eexists. split; [vm_compute; reflexivity|]. split_and!; vm_compute; reflexivity. Qed.
